(* ===== verification/_CoqProject ===== *)
-Q . S2P
Prelude.v
Rbtree.v
RbtreeFacts.v
Strings.v
Snprintf.v
Sched.v
Interleave.v
Sync.v
Rwlock.v
Rwspin.v
Wait.v
Futex.v
Mman.v
MmanFacts.v
MmanSpec.v
Bitset.v
User.v
Time.v
Timekeep.v
Atpit.v
Timer.v
Uio.v
Cbuf.v
Ringbuf.v
File.v
Pipe.v
Pressure.v
Phys.v
Vmem.v
Slab.v
Ext2.v
Ext2Map.v
Ext2Inode.v
Proc.v
ProcIds.v
ProcLife.v
ProcCalls.v
Signal.v
SignalFacts.v
