(* ===== verification/Prelude.v ===== *)
(** * A verification library for the ELOS kernel

    ELOS is a Unix-like kernel written in C (src/src/kernel).  The files of
    this library translate parts of it into functions on explicit states and
    prove what these functions guarantee.  The machine is the i386: an int
    and a pointer have 32 bits.

    ** How the code is translated

    A C function becomes a function of the state it reads and writes and of
    its arguments, with the result type [res]: it returns ([Done]), it panics
    (a failed assertion, [Panic]), it accesses memory that is not part of an
    object ([Fault]), or the fuel of a loop runs out ([Stuck]).  Heap objects
    are found by their addresses in finite maps; freeing one deletes it, so
    that a use after free is a [Fault].  Unsigned numbers are kept at their
    width with [u8], [u32], [u64].  Errors are negative numbers as in the code
    (sys/errno.h).

    In most files a critical section is one step.  The files about locks,
    about sleeping and waking and about the time of day show why that is
    sound: there the steps are the single accesses to memory, interleaved in
    any order ([Interleave]).  Where a function sleeps, the list of the events
    that wake it up, each with what other threads have done, is an argument.
    What an allocator returns is an argument as well.

    ** The files

    - [Prelude]: this file; [res] with its notations and tactics, machine
      integers, alignment (elos/elos.h), reference counters (kern/atomic.h),
      words in memory, list nodes (elos/list.h).
    - [Rbtree]: lib/rbtree.c, red-black trees as nodes in memory with the
      parent and the colour in one word; [RbtreeFacts] relates them to trees.
    - [Strings], [Snprintf]: the string functions of lib/ and
      lib/snprintf.c, on a memory of bytes.
    - [Interleave]: systems of threads whose accesses to memory interleave,
      with their invariants.
    - [Sched]: kern/sched.c, the run queues of a processor.
    - [Sync], [Rwlock], [Rwspin]: kern/sync.c, kern/rwlock.c and kern/rwspin.h,
      locks that sleep and locks that spin.
    - [Wait], [Futex]: kern/wait.c and kern/futex.c, on top of the scheduler.
    - [Mman]: lib/mman.c, ranges of addresses on top of the red-black trees;
      [MmanFacts] and [MmanSpec] prove it against a set of ranges.
    - [Bitset]: lib/bitset.c, bit maps that hand out numbers.
    - [User]: kern/user.c, copies from and to user memory, which may fault.
    - [Time], [Timekeep]: kern/time.c, drivers/time/atrtc.c and
      kern/timekeep.c, the calendar, sleeping, and the uptime that is read
      while an interrupt changes it.
    - [Atpit], [Timer]: drivers/time/atpit.c and kern/timer.c, a counter with
      16 bits made one with 64, and the queue of timers.
    - [Uio]: vfs/uio.c, scatter/gather transfers.
    - [Cbuf], [Ringbuf]: lib/cbuf.c and lib/ringbuf.c, circular buffers and
      buffers with waiting readers and writers.
    - [File]: vfs/file.c and vfs/proc.c, files with reference counts and the
      descriptor tables of processes.  The operations of a file are a class
      [Fops], for which [Pipe] gives an instance.
    - [Pipe]: kern/pipe.c.
    - [Pressure], [Phys]: vm/pressure.c and vm/phys.c, the buddy allocator of
      physical pages.
    - [Vmem]: vm/vmem.c, the addresses of the kernel.
    - [Slab]: vm/slab.c and vm/malloc.c, objects of one size and kmalloc.
    - [Ext2]: drivers/fs/ext2/alloc.c, the bitmaps of blocks and inodes, and
      the part of inode.c that finds the blocks of a file; [Ext2Map] proves
      what happens to the tree of blocks of a file; [Ext2Inode] has inodes on
      the device and truncation (inode.c, vnops.c, vfs/vnode.c).
    - [Proc]: kern/proc.c and parts of kern/thread.c: processes, groups,
      sessions, thread ids, exit and wait4, single-thread mode, credentials.
      The callbacks of process local storage ([Pls]) and [kern_kill]
      ([Kill]) are classes.  [ProcIds] and [ProcLife] prove the invariant of
      the ids over all operations, [ProcCalls] the system calls.
    - [Signal]: kern/signal.c, the instance of [Pls] and [Kill];
      [SignalFacts] proves its properties and the promise [KillLaws] that the
      process code relies on.

    ** What is shown

    Memory: no physical page is handed out twice, and pages that are freed
    are merged without loss ([phys_no_double_alloc] and its companions);
    ranges of addresses ([mman_refines], [vmem_refines]) and the objects of the
    slab allocator ([slab_no_overlap]) never overlap.  Red-black trees stay
    ordered and balanced ([rb_insert_correct], [rb_remove_correct]).
    Locks: no two threads are in at once and nobody sleeps for ever next to a
    lock that is free ([sync_exclusive], [sync_no_lost_wakeup] and those of
    the other locks).  Sleeping and waking: a thread is in one queue at a time,
    no wakeup is lost, every runnable thread runs ([wait_safe],
    [wait_no_lost_wakeup], [sched_fair]).  Time: readers see one state of the
    clock ([timekeep_read_consistent]), the counter never runs backwards
    ([atpit_counter_monotone]), timers fire in order ([timer_intr_fires]), and
    dates agree with the calendar.  Text: printing refines a function on lists
    of characters and never writes behind the buffer ([vsnprintf_refines]).
    The file system: no block is given to two owners
    ([ext2_no_double_alloc]), a block that is added to a file moves no other
    ([bmap_alloc]), truncating to nothing frees the blocks of the file and no
    others ([truncate_zero]), inodes are read as they were written
    ([inode_roundtrip]); all of them also when the device fails.
    Files: reference counts are exact over every sequence of descriptor
    operations, forks, execs and exits, so a file is closed once and when its
    last descriptor goes ([fd_refcount_exact]).  Buffers: a circular buffer is
    a queue ([cbuf_refines_queue]), ring buffers and pipes move exactly the
    bytes they say.  User memory: transfers stay inside user space, move the
    bytes of the iovec in order, and report faults.  Processes: pids, group
    ids, session ids and thread ids are never shared and stay marked as long
    as anything has them ([ids_unique]), groups and their members agree
    ([groups_consistent]), and fork, setsid, setpgid, wait4 and setuid do what
    they promise on every branch.  Signals: what is pending is seen, taken in
    the right order and once, SIGKILL reaches its process, handlers and
    sigreturn are inverse, SIGKILL and SIGSTOP cannot be caught, and exec and
    fork inherit what they should.

    Theorems about runs in which the code does not do what it means to do
    stand at the ends of the files ("Where the code fails").

    ** Fuel

    Loops over lists recur on the list.  The other loops get fuel from their
    callers, large enough by construction (the length of the bitmap, of the
    iovec, three passes over a circular buffer, the number of orders, the size
    of the memory for strings, eight turns for a byte of a format, the length
    of the queue of timers and one more), and the theorems show that they
    return.  Loops down a red-black tree have 64 turns, more than twice the
    logarithm of the number of addresses, which is the largest height of a
    balanced tree.  The slab allocator gets two turns where a new page of
    structures always has a free one, and [PAGE_SZ + 1] for the objects of a
    page.  The block groups, the words of a bitmap and the three levels of
    indirection of a file bound the loops of the file system.  Waiting loops
    consume their lists of events.  [kern_signal] has fuel for two levels, and
    [kern_signal_fuel] shows that more changes nothing.

    ** Not modelled

    Page tables and virtual address spaces, the file system layer above the
    descriptors, directories, the cache of blocks (a device is an array of
    bytes whose operations may fail), terminals, devices and their drivers but
    for the clocks, boot and assembly code.  Of the modelled files: the
    controlling terminal of a session and the image of a process, the frame of
    a signal handler, the backing of kernel addresses with pages, poisoned
    objects of the slab allocator, statistics and output.  Directories, the
    virtual memory objects, terminals and the block cache are plain code that
    could be modelled in the same way; devices and assembly are not. *)
From stdpp Require Import base tactics option list numbers gmap.
From Stdlib Require Import ZArith Lia Bool.
#[global] Open Scope Z_scope.

(** ** Outcome of a C function *)

(** [Done v]: the function returned [v].  [Panic]: a [kassert]/[assert]
    failed or [kpanic] was called.  [Fault]: memory outside an object was
    accessed (a NULL pointer, an index past the end of an array, a list node
    that is not on the list).  [Stuck]: the fuel of a loop ran out; the
    theorems show for each loop under which conditions this cannot be. *)
Inductive res (A : Type) : Type :=
| Done (a : A)
| Panic
| Fault
| Stuck.
Arguments Done {A} a.
Arguments Panic {A}.
Arguments Fault {A}.
Arguments Stuck {A}.

Definition rbind {A B : Type} (m : res A) (k : A -> res B) : res B :=
  match m with
  | Done a => k a
  | Panic => Panic
  | Fault => Fault
  | Stuck => Stuck
  end.

Definition deref {A : Type} (o : option A) : res A :=
  match o with Some a => Done a | None => Fault end.

Declare Scope elos_scope.
Delimit Scope elos_scope with elos.
Notation "'let*' x ':=' m 'in' k" := (rbind m (fun x => k))
  (at level 10, x name, m at level 100, k at level 200) : elos_scope.
Notation "'let*' ' p ':=' m 'in' k" := (rbind m (fun x => match x with p => k end))
  (at level 10, p pattern, m at level 100, k at level 200) : elos_scope.
Notation "'kassert' b 'in' k" := (if b then k else Panic)
  (at level 10, b at level 100, k at level 200) : elos_scope.
#[global] Open Scope elos_scope.

(** ** Machine integers *)

Definition wrap (w x : Z) : Z := x mod 2 ^ w.
Definition u8 (x : Z) : Z := wrap 8 x.
Definition u16 (x : Z) : Z := wrap 16 x.
Definition u32 (x : Z) : Z := wrap 32 x.
Definition u64 (x : Z) : Z := wrap 64 x.

(** A signed [int]: the value of the low 32 bits read in two's complement. *)
Definition s32 (x : Z) : Z :=
  let y := u32 x in if y <? 2 ^ 31 then y else y - 2 ^ 32.

(** [__builtin_clz] of a number of 32 bits that is not zero. *)
Definition clz (x : Z) : Z := 31 - Z.log2 x.

(** [ALIGN(x, a)] and [ALIGNED(x, a)] of elos/elos.h, at width [w]. *)
Definition ALIGN (w x a : Z) : Z :=
  let mask := wrap w (a - 1) in Z.land (wrap w (x + mask)) (wrap w (Z.lnot mask)).
Definition ALIGNED (w x a : Z) : bool := Z.land x (wrap w (a - 1)) =? 0.

(** ** kern/atomic.h: reference counters *)
Definition UINT32_MAX : Z := 2 ^ 32 - 1.
Definition ref_inc (r : Z) : res Z := kassert r <? UINT32_MAX in Done (u32 (r + 1)).
Definition ref_dec (r : Z) : res (Z * bool) := kassert 0 <? r in Done (u32 (r - 1), r =? 1).

(** ** Error numbers of sys/errno.h *)
Definition EPERM : Z := 1.
Definition ESRCH : Z := 3.
Definition EINTR : Z := 4.
Definition EBADF : Z := 9.
Definition ECHILD : Z := 10.
Definition EAGAIN : Z := 11.
Definition ENOMEM : Z := 12.
Definition EACCES : Z := 13.
Definition EFAULT : Z := 14.
Definition EINVAL : Z := 22.
Definition ENFILE : Z := 23.
Definition ENOTTY : Z := 25.
Definition ENOSPC : Z := 28.
Definition ESPIPE : Z := 29.
Definition EPIPE : Z := 32.
Definition ENAMETOOLONG : Z := 36.
Definition ENOSYS : Z := 38.
Definition EWOULDBLOCK : Z := EAGAIN.
Definition ERESTART : Z := 85.
Definition ENOTSUP : Z := 95.
Definition ETIMEDOUT : Z := 110.

(** ** Inverting runs of the result monad *)

Lemma rbind_Done {A B} (m : res A) (k : A -> res B) b :
  rbind m k = Done b <-> exists a, m = Done a /\ k a = Done b.
Proof.
  destruct m; simpl; split; intros H; try discriminate; eauto;
    destruct H as (a' & Ha & Hk); congruence.
Qed.

Lemma deref_Done {A} (o : option A) a : deref o = Done a <-> o = Some a.
Proof. destruct o; simpl; split; congruence. Qed.

(** [rinv] takes a hypothesis that a computation returned apart, one call
    and one assertion at a time. *)
Ltac rinv1 :=
  match goal with
  | H : rbind _ _ = Done _ |- _ =>
      let a := fresh "r" in let E := fresh "E" in
      apply rbind_Done in H as (a & E & H)
  | H : deref _ = Done _ |- _ => apply deref_Done in H
  | H : (if ?b then _ else Panic) = Done _ |- _ =>
      let E := fresh "Eb" in destruct b eqn:E; [|discriminate H]
  | H : (if ?b then Panic else _) = Done _ |- _ =>
      let E := fresh "Eb" in destruct b eqn:E; [discriminate H|]
  | H : Done _ = Done _ |- _ => injection H as H; subst
  | H : Panic = Done _ |- _ => discriminate H
  | H : Fault = Done _ |- _ => discriminate H
  | H : Stuck = Done _ |- _ => discriminate H
  | x : (_ * _)%type |- _ => destruct x
  end.
Ltac rinv := repeat (rinv1; simpl in *).

(** [bool_props] turns boolean tests of the code into propositions. *)
Ltac bool_props :=
  repeat match goal with
  | H : _ && _ = true |- _ => apply andb_true_iff in H as [? ?]
  | H : _ || _ = false |- _ => apply orb_false_iff in H as [? ?]
  | H : negb _ = true |- _ => apply negb_true_iff in H
  | H : negb _ = false |- _ => apply negb_false_iff in H
  | H : (_ =? _) = true |- _ => apply Z.eqb_eq in H
  | H : (_ =? _) = false |- _ => apply Z.eqb_neq in H
  | H : (_ <? _) = true |- _ => apply Z.ltb_lt in H
  | H : (_ <? _) = false |- _ => apply Z.ltb_ge in H
  | H : (_ <=? _) = true |- _ => apply Z.leb_le in H
  | H : (_ <=? _) = false |- _ => apply Z.leb_gt in H
  | H : bool_decide _ = true |- _ => apply bool_decide_eq_true in H
  | H : bool_decide _ = false |- _ => apply bool_decide_eq_false in H
  end.

(** ** Lemmas on machine integers *)

Create HintDb elos discriminated.
Create Rewrite HintDb elos.

Lemma wrap_small w x : 0 <= x < 2 ^ w -> wrap w x = x.
Proof. apply Z.mod_small. Qed.

Lemma wrap_bound w x : 0 <= w -> 0 <= wrap w x < 2 ^ w.
Proof. intros. apply Z.mod_pos_bound. lia. Qed.

Lemma u8_small x : 0 <= x < 256 -> u8 x = x.
Proof. intros. by apply wrap_small. Qed.
Lemma u32_small x : 0 <= x < 2 ^ 32 -> u32 x = x.
Proof. apply wrap_small. Qed.
Lemma u64_small x : 0 <= x < 2 ^ 64 -> u64 x = x.
Proof. apply wrap_small. Qed.
Lemma u8_bound x : 0 <= u8 x < 256.
Proof. by apply (wrap_bound 8). Qed.
Lemma u32_bound x : 0 <= u32 x < 2 ^ 32.
Proof. by apply (wrap_bound 32). Qed.
Lemma u64_bound x : 0 <= u64 x < 2 ^ 64.
Proof. by apply (wrap_bound 64). Qed.

Lemma s32_small x : 0 <= x < 2 ^ 31 -> s32 x = x.
Proof.
  intros. unfold s32. rewrite u32_small by lia.
  destruct (Z.ltb_spec x (2 ^ 31)); lia.
Qed.

#[export] Hint Resolve u8_bound u32_bound u64_bound wrap_bound : elos.
#[export] Hint Rewrite u8_small u32_small u64_small s32_small using lia : elos.

Lemma testbit_wrap w x i : 0 <= w ->
  Z.testbit (wrap w x) i = (i <? w) && Z.testbit x i.
Proof.
  intros Hw. unfold wrap. destruct (Z.ltb_spec i w).
  - by rewrite Z.mod_pow2_bits_low by lia.
  - by rewrite Z.mod_pow2_bits_high by lia.
Qed.

(** Rounding to a power of two: what the mask arithmetic of [ALIGN] computes. *)
Lemma land_lnot_ones w k y : 0 <= k <= w -> 0 <= y < 2 ^ w ->
  Z.land y (wrap w (Z.lnot (Z.ones k))) = y / 2 ^ k * 2 ^ k.
Proof.
  intros Hk Hy. apply Z.bits_inj_iff'; intros i Hi.
  rewrite <- Z.shiftr_div_pow2, <- Z.shiftl_mul_pow2 by lia.
  rewrite Z.land_spec, testbit_wrap, Z.lnot_spec by lia.
  rewrite Z.shiftl_spec by lia. destruct (Z.ltb_spec i k).
  - rewrite Z.ones_spec_low, (Z.testbit_neg_r _ (i - k)) by lia.
    by rewrite !andb_false_r.
  - rewrite Z.ones_spec_high, Z.shiftr_spec by lia.
    replace (i - k + k) with i by lia. destruct (Z.ltb_spec i w).
    + by rewrite andb_true_r.
    + rewrite <- (Z.mod_small y (2 ^ w)) by lia.
      by rewrite Z.mod_pow2_bits_high by lia.
Qed.

Lemma ALIGN_pow2 w x k : 0 <= k <= w -> 0 <= x -> x + (2 ^ k - 1) < 2 ^ w ->
  ALIGN w x (2 ^ k) = (x + (2 ^ k - 1)) / 2 ^ k * 2 ^ k.
Proof.
  intros Hk Hx Hlt. assert (0 < 2 ^ k) by (apply Z.pow_pos_nonneg; lia).
  unfold ALIGN. rewrite (wrap_small w (2 ^ k - 1)) by lia.
  rewrite wrap_small by lia.
  replace (Z.lnot (2 ^ k - 1)) with (Z.lnot (Z.ones k)) by (rewrite Z.ones_equiv; f_equal; lia).
  apply land_lnot_ones; lia.
Qed.

Lemma ALIGNED_pow2 w x k : 0 <= k < w -> 0 <= x ->
  ALIGNED w x (2 ^ k) = (x mod 2 ^ k =? 0).
Proof.
  intros Hk Hx. unfold ALIGNED.
  assert (0 < 2 ^ k < 2 ^ w) by (split; [apply Z.pow_pos_nonneg; lia | apply Z.pow_lt_mono_r; lia]).
  rewrite wrap_small by lia. replace (2 ^ k - 1) with (Z.ones k) by (rewrite Z.ones_equiv; lia).
  by rewrite Z.land_ones by lia.
Qed.

(** ** Ranges of arrays *)

(** [memcpy] from and to part of an array: [None] when the range is not
    inside it. *)
Definition slice {A} (l : list A) (i n : Z) : option (list A) :=
  if (0 <=? i) && (0 <=? n) && (i + n <=? Z.of_nat (length l))
  then Some (take (Z.to_nat n) (drop (Z.to_nat i) l)) else None.

Definition splice {A} (l : list A) (i : Z) (bs : list A) : option (list A) :=
  if (0 <=? i) && (i + Z.of_nat (length bs) <=? Z.of_nat (length l))
  then Some (take (Z.to_nat i) l ++ bs ++ drop (Z.to_nat i + length bs) l) else None.

Lemma slice_Some {A} (l : list A) i n :
  0 <= i -> 0 <= n -> i + n <= Z.of_nat (length l) ->
  slice l i n = Some (take (Z.to_nat n) (drop (Z.to_nat i) l)).
Proof.
  intros. unfold slice. destruct (Z.leb_spec 0 i), (Z.leb_spec 0 n),
    (Z.leb_spec (i + n) (Z.of_nat (length l))); (done || lia).
Qed.

Lemma splice_Some {A} (l : list A) i bs :
  0 <= i -> i + Z.of_nat (length bs) <= Z.of_nat (length l) ->
  exists l', splice l i bs = Some l' /\ length l' = length l /\
    forall j : nat, l' !! j =
      if decide (Z.to_nat i <= j < Z.to_nat i + length bs)%nat
      then bs !! (j - Z.to_nat i)%nat else l !! j.
Proof.
  intros Hi Hl. unfold splice.
  destruct (Z.leb_spec 0 i), (Z.leb_spec (i + Z.of_nat (length bs)) (Z.of_nat (length l))); try lia.
  eexists. split; [done|]. split; [rewrite !length_app, length_take, length_drop; lia|].
  intros j. assert (Ht : length (take (Z.to_nat i) l) = Z.to_nat i) by (rewrite length_take; lia).
  destruct (decide (j < Z.to_nat i)%nat).
  - rewrite lookup_app_l, lookup_take_lt by lia. case_decide; [lia|done].
  - rewrite lookup_app_r, Ht by lia. case_decide.
    + rewrite lookup_app_l by lia. done.
    + rewrite lookup_app_r, lookup_drop by lia. f_equal. lia.
Qed.

(** ** Words in memory *)

(** The bytes of an int, lowest first, and the [i]-th word of a buffer. *)
Definition int_bytes (x : Z) : list Z :=
  [u8 x; u8 (Z.shiftr x 8); u8 (Z.shiftr x 16); u8 (Z.shiftr x 24)].

Definition word_at (bs : list Z) (i : nat) : Z :=
  match drop (4 * i) bs with
  | a :: b :: c :: d :: _ => a + 2 ^ 8 * b + 2 ^ 16 * c + 2 ^ 24 * d
  | _ => 0
  end.

Lemma int_bytes_word a b c d : 0 <= a < 256 -> 0 <= b < 256 -> 0 <= c < 256 -> 0 <= d < 256 ->
  int_bytes (a + 2 ^ 8 * b + 2 ^ 16 * c + 2 ^ 24 * d) = [a; b; c; d].
Proof.
  intros Ha Hb Hc Hd. unfold int_bytes, u8, wrap. rewrite !Z.shiftr_div_pow2 by lia.
  assert (H0 : (a + 2 ^ 8 * b + 2 ^ 16 * c + 2 ^ 24 * d) mod 2 ^ 8 = a).
  { symmetry. apply (Z.mod_unique _ _ (b + 2 ^ 8 * c + 2 ^ 16 * d)); lia. }
  assert (H1 : (a + 2 ^ 8 * b + 2 ^ 16 * c + 2 ^ 24 * d) / 2 ^ 8 = b + 2 ^ 8 * c + 2 ^ 16 * d).
  { symmetry. apply (Z.div_unique _ _ _ a); lia. }
  assert (H2 : (a + 2 ^ 8 * b + 2 ^ 16 * c + 2 ^ 24 * d) / 2 ^ 16 = c + 2 ^ 8 * d).
  { symmetry. apply (Z.div_unique _ _ _ (a + 2 ^ 8 * b)); lia. }
  assert (H3 : (a + 2 ^ 8 * b + 2 ^ 16 * c + 2 ^ 24 * d) / 2 ^ 24 = d).
  { symmetry. apply (Z.div_unique _ _ _ (a + 2 ^ 8 * b + 2 ^ 16 * c)); lia. }
  rewrite H0, H1, H2, H3.
  replace ((b + 2 ^ 8 * c + 2 ^ 16 * d) mod 2 ^ 8) with b by (apply (Z.mod_unique _ _ (c + 2 ^ 8 * d)); lia).
  replace ((c + 2 ^ 8 * d) mod 2 ^ 8) with c by (apply (Z.mod_unique _ _ d); lia).
  rewrite (Z.mod_small d) by lia. done.
Qed.

(** ** Lists of list nodes *)

(** [list_remove] of elos/list.h: the node has to be on a list; the result
    tells whether the list is empty now. *)
Definition list_rem {A} `{EqDecision A} (x : A) (l : list A) : list A := filter (fun y => y <> x) l.
Definition list_remove {A} `{EqDecision A} (l : list A) (x : A) : res (list A * bool) :=
  if decide (x ∈ l) then Done (list_rem x l, bool_decide (list_rem x l = [])) else Fault.

Lemma elem_of_list_rem {A} `{EqDecision A} (x y : A) l : y ∈ list_rem x l <-> y <> x /\ y ∈ l.
Proof. unfold list_rem. by rewrite list_elem_of_filter. Qed.

Lemma NoDup_list_rem {A} `{EqDecision A} (x : A) l : NoDup l -> NoDup (list_rem x l).
Proof. apply NoDup_filter. Qed.

Lemma list_remove_Done {A} `{EqDecision A} (l : list A) x : x ∈ l ->
  list_remove l x = Done (list_rem x l, bool_decide (list_rem x l = [])).
Proof. intros. unfold list_remove. by case_decide. Qed.

Lemma list_remove_inv {A} `{EqDecision A} (l : list A) x l' e : list_remove l x = Done (l', e) ->
  x ∈ l /\ l' = list_rem x l /\ forall y, y ∈ l' -> y ∈ l.
Proof.
  unfold list_remove. case_decide as Hx; [|done]. intros [= <- _]. split_and!; [done..|].
  intros y [_ Hy]%elem_of_list_rem. exact Hy.
Qed.
