(* ===== verification/Rbtree.v ===== *)
(** The red-black trees of the kernel, lib/rbtree.c and include/lib/rbtree.h,
    on the level of their pointers: a heap of nodes whose first word holds the
    address of the parent and the colour, with every store the C code makes.
    RbtreeFacts.v proves what the operations do to the sequence of nodes. *)
From stdpp Require Import base gmap list.
From S2P Require Import Prelude.

(** ** Nodes, trees and the heap *)

(** [rb_node_t]; [n_pc] is the parent's address with the colour in bit 0. *)
Record rb_node_t : Type := RbNode {
  n_pc : Z;
  n_right : Z;
  n_left : Z;
  n_value : Z;
}.

(** The nodes that exist, by address, and the [rb_tree_t] (its root). *)
Record rb_st : Type := RbSt {
  nodes : gmap Z rb_node_t;
  root : Z;
}.

Definition RB_RED : Z := 0.
Definition RB_BLACK : Z := 1.

Definition __rb_parent (pc : Z) : Z := Z.land pc (u32 (Z.lnot 3)).
Definition __rb_color (pc : Z) : Z := Z.land pc RB_BLACK.
Definition __rb_is_black (pc : Z) : bool := negb (__rb_color pc =? 0).
Definition __rb_is_red (pc : Z) : bool := __rb_color pc =? 0.

Definition rb_parent (n : rb_node_t) : Z := __rb_parent (n_pc n).
Definition rb_color (n : rb_node_t) : Z := __rb_color (n_pc n).
Definition rb_is_red (n : rb_node_t) : bool := __rb_is_red (n_pc n).
Definition rb_is_black (n : rb_node_t) : bool := __rb_is_black (n_pc n).
Definition rb_red_parent (n : rb_node_t) : Z := n_pc n.

(** Loads and stores; the null pointer and freed nodes are not in the heap. *)
Definition get (h : rb_st) (p : Z) : res rb_node_t := deref (nodes h !! p).
Definition put (h : rb_st) (p : Z) (n : rb_node_t) : rb_st := RbSt (<[p := n]> (nodes h)) (root h).
Definition upd (h : rb_st) (p : Z) (f : rb_node_t -> rb_node_t) : res rb_st :=
  let* n := get h p in Done (put h p (f n)).

Definition set_pc (h : rb_st) (p v : Z) : res rb_st :=
  upd h p (fun n => RbNode v (n_right n) (n_left n) (n_value n)).
Definition set_right (h : rb_st) (p v : Z) : res rb_st :=
  upd h p (fun n => RbNode (n_pc n) v (n_left n) (n_value n)).
Definition set_left (h : rb_st) (p v : Z) : res rb_st :=
  upd h p (fun n => RbNode (n_pc n) (n_right n) v (n_value n)).
Definition set_root (h : rb_st) (v : Z) : rb_st := RbSt (nodes h) v.

Definition rb_set_parent (h : rb_st) (rb p : Z) : res rb_st :=
  let* n := get h rb in set_pc h rb (Z.lor (rb_color n) p).
Definition rb_set_parent_color (h : rb_st) (rb p color : Z) : res rb_st :=
  set_pc h rb (Z.lor p color).
Definition rb_set_black (h : rb_st) (rb : Z) : res rb_st :=
  let* n := get h rb in set_pc h rb (Z.lor (n_pc n) RB_BLACK).

(** [if(p) rb_set_parent_color(p, ...)] and [if(p) rb_set_parent(p, ...)] *)
Definition opt_set_parent_color (h : rb_st) (p q color : Z) : res rb_st :=
  if p =? 0 then Done h else rb_set_parent_color h p q color.
Definition opt_set_parent (h : rb_st) (p q : Z) : res rb_st :=
  if p =? 0 then Done h else rb_set_parent h p q.

(** [p && rb_is_red(p)]; its negation is [!p || rb_is_black(p)]. *)
Definition red_at (h : rb_st) (p : Z) : res bool :=
  if p =? 0 then Done false else let* n := get h p in Done (rb_is_red n).

(** ** Initialisation *)

Definition rb_tree_init (h : rb_st) : rb_st := set_root h 0.
Definition rb_node_init (h : rb_st) (val node : Z) : rb_st := put h node (RbNode 0 0 0 val).

Definition rb_node_assert_empty (h : rb_st) (node : Z) : res unit :=
  let* n := get h node in
  kassert rb_parent n =? 0 in
  kassert n_left n =? 0 in
  kassert n_right n =? 0 in
  Done tt.
Definition rb_tree_destroy (h : rb_st) : res unit := kassert root h =? 0 in Done tt.
Definition rb_node_destroy (h : rb_st) (node : Z) : res unit := rb_node_assert_empty h node.

(** ** Traversal *)

Fixpoint go_left (fuel : nat) (h : rb_st) (n : Z) : res Z :=
  match fuel with
  | O => Stuck
  | S fuel =>
      let* x := get h n in
      if n_left x =? 0 then Done n else go_left fuel h (n_left x)
  end.

Fixpoint go_right (fuel : nat) (h : rb_st) (n : Z) : res Z :=
  match fuel with
  | O => Stuck
  | S fuel =>
      let* x := get h n in
      if n_right x =? 0 then Done n else go_right fuel h (n_right x)
  end.

Definition rb_first_node (fuel : nat) (h : rb_st) : res Z :=
  if root h =? 0 then Done 0 else go_left fuel h (root h).

(** The loop that goes up while [node] is the right (left) child. *)
Fixpoint up_right (fuel : nat) (h : rb_st) (node : Z) : res Z :=
  match fuel with
  | O => Stuck
  | S fuel =>
      let* n := get h node in
      let parent := rb_parent n in
      if parent =? 0 then Done parent
      else
        let* pn := get h parent in
        if node =? n_right pn then up_right fuel h parent else Done parent
  end.

Fixpoint up_left (fuel : nat) (h : rb_st) (node : Z) : res Z :=
  match fuel with
  | O => Stuck
  | S fuel =>
      let* n := get h node in
      let parent := rb_parent n in
      if parent =? 0 then Done parent
      else
        let* pn := get h parent in
        if node =? n_left pn then up_left fuel h parent else Done parent
  end.

Definition rb_next_node (fuel : nat) (h : rb_st) (node : Z) : res Z :=
  let* n := get h node in
  if negb (n_right n =? 0) then go_left fuel h (n_right n) else up_right fuel h node.

Definition rb_prev_node (fuel : nat) (h : rb_st) (node : Z) : res Z :=
  let* n := get h node in
  if negb (n_left n =? 0) then go_right fuel h (n_left n) else up_left fuel h node.

Definition __rb_node_value (h : rb_st) (p : Z) : res Z :=
  if p =? 0 then Done 0 else let* n := get h p in Done (n_value n).

Definition rb_root (h : rb_st) : res Z := __rb_node_value h (root h).
Definition rb_first (fuel : nat) (h : rb_st) : res Z :=
  let* p := rb_first_node fuel h in __rb_node_value h p.
Definition rb_next (fuel : nat) (h : rb_st) (node : Z) : res Z :=
  let* p := rb_next_node fuel h node in __rb_node_value h p.
Definition rb_prev (fuel : nat) (h : rb_st) (node : Z) : res Z :=
  let* p := rb_prev_node fuel h node in __rb_node_value h p.

(** The nodes [rb_foreach] visits from [p] on. *)
Fixpoint foreach_from (rounds fuel : nat) (h : rb_st) (p : Z) : res (list Z) :=
  match rounds with
  | O => Stuck
  | S rounds =>
      if p =? 0 then Done []
      else
        let* q := rb_next_node fuel h p in
        let* l := foreach_from rounds fuel h q in
        Done (p :: l)
  end.
Definition rb_foreach (fuel : nat) (h : rb_st) : res (list Z) :=
  let* p := rb_first_node fuel h in foreach_from fuel fuel h p.

Fixpoint __rb_left_deepest_node (fuel : nat) (h : rb_st) (node : Z) : res Z :=
  match fuel with
  | O => Stuck
  | S fuel =>
      let* n := get h node in
      if negb (n_left n =? 0) || negb (n_right n =? 0) then
        if negb (n_left n =? 0) then __rb_left_deepest_node fuel h (n_left n)
        else __rb_left_deepest_node fuel h (n_right n)
      else Done node
  end.

(** The node whose value [rb_postorder_first] and [rb_next_postorder] return. *)
Definition rb_postorder_first (fuel : nat) (h : rb_st) : res Z :=
  if root h =? 0 then Done 0 else __rb_left_deepest_node fuel h (root h).

Definition rb_next_postorder (fuel : nat) (h : rb_st) (node : Z) : res Z :=
  if node =? 0 then Done 0
  else
    let* n := get h node in
    let parent := rb_parent n in
    if parent =? 0 then Done 0
    else
      let* pn := get h parent in
      if (node =? n_left pn) && negb (n_right pn =? 0) then __rb_left_deepest_node fuel h (n_right pn)
      else Done parent.

Fixpoint postorder_from (rounds fuel : nat) (h : rb_st) (p : Z) : res (list Z) :=
  match rounds with
  | O => Stuck
  | S rounds =>
      if p =? 0 then Done []
      else
        let* q := rb_next_postorder fuel h p in
        let* l := postorder_from rounds fuel h q in
        Done (p :: l)
  end.
Definition rb_foreach_postorder (fuel : nat) (h : rb_st) : res (list Z) :=
  let* p := rb_postorder_first fuel h in postorder_from fuel fuel h p.

(** ** Searching *)

(** What the code given to [rb_search] does with the current value: go to a
    side or leave the loop; [A] is the state it accumulates. *)
Inductive verdict : Type := GoLeft | GoRight | Leave.

Fixpoint search_loop {A} (fuel : nat) (h : rb_st) (code : A -> Z -> A * verdict) (a : A) (node : Z) : res A :=
  match fuel with
  | O => Stuck
  | S fuel =>
      if node =? 0 then Done a
      else
        let* n := get h node in
        match code a (n_value n) with
        | (a, GoLeft) => search_loop fuel h code a (n_left n)
        | (a, GoRight) => search_loop fuel h code a (n_right n)
        | (a, Leave) => Done a
        end
  end.
Definition rb_search {A} (fuel : nat) (h : rb_st) (code : A -> Z -> A * verdict) (a : A) : res A :=
  search_loop fuel h code a (root h).

(** ** Rotations *)

Definition rb_change_child (h : rb_st) (old new parent : Z) : res rb_st :=
  if negb (parent =? 0) then
    let* pn := get h parent in
    if n_left pn =? old then set_left h parent new else set_right h parent new
  else Done (set_root h new).

Definition rb_rotate_set_parents (h : rb_st) (old new color : Z) : res rb_st :=
  let* o := get h old in
  let parent := rb_parent o in
  let* h := set_pc h new (n_pc o) in
  let* h := rb_set_parent_color h old new color in
  rb_change_child h old new parent.

(** ** Insertion *)

(** One round of the loop of [__rb_fixup_violation]: [Some (node, parent)]
    when it continues. *)
Definition fixup_left (h : rb_st) (node parent gparent tmp : Z) : res (rb_st * option (Z * Z)) :=
  let* red := red_at h tmp in
  if red : bool then
    let* h := rb_set_parent_color h tmp gparent RB_BLACK in
    let* h := rb_set_parent_color h parent gparent RB_BLACK in
    let node := gparent in
    let* n := get h node in
    let parent := rb_parent n in
    let* h := rb_set_parent_color h node parent RB_RED in
    Done (h, Some (node, parent))
  else
    let* pn := get h parent in
    let tmp := n_right pn in
    let* '(h, parent, tmp) :=
      (if node =? tmp then
         let* n := get h node in
         let tmp := n_left n in
         let* h := set_right h parent tmp in
         let* h := set_left h node parent in
         let* h := opt_set_parent_color h tmp parent RB_BLACK in
         let* h := rb_set_parent_color h parent node RB_RED in
         let parent := node in
         let* n := get h node in
         Done (h, parent, n_right n)
       else Done (h, parent, tmp)) in
    let* h := set_left h gparent tmp in
    let* h := set_right h parent gparent in
    let* h := opt_set_parent_color h tmp gparent RB_BLACK in
    let* h := rb_rotate_set_parents h gparent parent RB_RED in
    Done (h, None).

Definition fixup_right (h : rb_st) (node parent gparent tmp : Z) : res (rb_st * option (Z * Z)) :=
  let* red := red_at h tmp in
  if red : bool then
    let* h := rb_set_parent_color h tmp gparent RB_BLACK in
    let* h := rb_set_parent_color h parent gparent RB_BLACK in
    let node := gparent in
    let* n := get h node in
    let parent := rb_parent n in
    let* h := rb_set_parent_color h node parent RB_RED in
    Done (h, Some (node, parent))
  else
    let* pn := get h parent in
    let tmp := n_left pn in
    let* '(h, parent, tmp) :=
      (if node =? tmp then
         let* n := get h node in
         let tmp := n_right n in
         let* h := set_left h parent tmp in
         let* h := set_right h node parent in
         let* h := opt_set_parent_color h tmp parent RB_BLACK in
         let* h := rb_set_parent_color h parent node RB_RED in
         let parent := node in
         let* n := get h node in
         Done (h, parent, n_left n)
       else Done (h, parent, tmp)) in
    let* h := set_right h gparent tmp in
    let* h := set_left h parent gparent in
    let* h := opt_set_parent_color h tmp gparent RB_BLACK in
    let* h := rb_rotate_set_parents h gparent parent RB_RED in
    Done (h, None).

Definition fixup_body (h : rb_st) (node parent : Z) : res (rb_st * option (Z * Z)) :=
  if parent =? 0 then
    let* h := rb_set_parent_color h node 0 RB_BLACK in Done (h, None)
  else
    let* pn := get h parent in
    if rb_is_black pn then Done (h, None)
    else
      let gparent := rb_red_parent pn in
      let* gn := get h gparent in
      let tmp := n_right gn in
      if negb (parent =? tmp) then fixup_left h node parent gparent tmp
      else fixup_right h node parent gparent (n_left gn).

Fixpoint fixup_loop (fuel : nat) (h : rb_st) (node parent : Z) : res rb_st :=
  match fuel with
  | O => Stuck
  | S fuel =>
      let* '(h, next) := fixup_body h node parent in
      match next with
      | Some (node, parent) => fixup_loop fuel h node parent
      | None => Done h
      end
  end.
Definition __rb_fixup_violation (fuel : nat) (h : rb_st) (node : Z) : res rb_st :=
  let* n := get h node in fixup_loop fuel h node (rb_red_parent n).

(** [rb_node_t **lnk] points to the root or to a child of a node. *)
Inductive link : Type := LinkRoot | LinkLeft (p : Z) | LinkRight (p : Z).

Definition read_link (h : rb_st) (l : link) : res Z :=
  match l with
  | LinkRoot => Done (root h)
  | LinkLeft p => let* n := get h p in Done (n_left n)
  | LinkRight p => let* n := get h p in Done (n_right n)
  end.
Definition write_link (h : rb_st) (l : link) (v : Z) : res rb_st :=
  match l with
  | LinkRoot => Done (set_root h v)
  | LinkLeft p => set_left h p v
  | LinkRight p => set_right h p v
  end.

Definition __rb_link_node (h : rb_st) (node parent : Z) (lnk : link) : res rb_st :=
  let* h := set_pc h node (Z.lor parent RB_RED) in
  let* h := set_left h node 0 in
  let* h := set_right h node 0 in
  write_link h lnk node.

(** The code given to [rb_insert] decides from the current value whether the
    new node goes to the left. *)
Fixpoint insert_loop (fuel : nat) (h : rb_st) (code : Z -> bool) (parent : Z) (lnk : link) : res (Z * link) :=
  match fuel with
  | O => Stuck
  | S fuel =>
      let* x := read_link h lnk in
      if x =? 0 then Done (parent, lnk)
      else
        let* n := get h x in
        if code (n_value n) then insert_loop fuel h code x (LinkLeft x)
        else insert_loop fuel h code x (LinkRight x)
  end.

Definition rb_insert (fuel : nat) (h : rb_st) (code : Z -> bool) (node : Z) : res rb_st :=
  let* _ := rb_node_assert_empty h node in
  let* '(parent, lnk) := insert_loop fuel h code 0 LinkRoot in
  let* h := __rb_link_node h node parent lnk in
  __rb_fixup_violation fuel h node.

(** ** Removal *)

(** One round of the loop of [rb_erase_color]: [Some (node, parent)] when it
    continues. *)
Definition erase_color_flip (h : rb_st) (sibling parent : Z) : res (rb_st * option (Z * Z)) :=
  let* h := rb_set_parent_color h sibling parent RB_RED in
  let* pn := get h parent in
  if rb_is_red pn then
    let* h := rb_set_black h parent in Done (h, None)
  else
    let node := parent in
    let parent := rb_parent pn in
    Done (h, if negb (parent =? 0) then Some (node, parent) else None).

(** Case 4 with the sibling on the right: the rotation at the parent. *)
Definition erase_color_left_rotate (h : rb_st) (parent sibling tmp1 : Z) : res (rb_st * option (Z * Z)) :=
  let* sn := get h sibling in
  let tmp2 := n_left sn in
  let* h := set_right h parent tmp2 in
  let* h := set_left h sibling parent in
  let* h := rb_set_parent_color h tmp1 sibling RB_BLACK in
  let* h := opt_set_parent h tmp2 parent in
  let* h := rb_rotate_set_parents h parent sibling RB_BLACK in
  Done (h, None).

(** Cases 2 to 4, the sibling being black. *)
Definition erase_color_left_black (h : rb_st) (parent sibling : Z) : res (rb_st * option (Z * Z)) :=
  let* sn := get h sibling in
  let tmp1 := n_right sn in
  let* red1 := red_at h tmp1 in
  if negb red1 then
    let tmp2 := n_left sn in
    let* red2 := red_at h tmp2 in
    if negb red2 then erase_color_flip h sibling parent
    else
      let* n2 := get h tmp2 in
      let tmp1 := n_right n2 in
      let* h := set_left h sibling tmp1 in
      let* h := set_right h tmp2 sibling in
      let* h := set_right h parent tmp2 in
      let* h := opt_set_parent_color h tmp1 sibling RB_BLACK in
      erase_color_left_rotate h parent tmp2 sibling
  else erase_color_left_rotate h parent sibling tmp1.

Definition erase_color_left (h : rb_st) (parent sibling : Z) : res (rb_st * option (Z * Z)) :=
  let* sn := get h sibling in
  if rb_is_red sn then
    let tmp1 := n_left sn in
    let* h := set_right h parent tmp1 in
    let* h := set_left h sibling parent in
    let* h := rb_set_parent_color h tmp1 parent RB_BLACK in
    let* h := rb_rotate_set_parents h parent sibling RB_RED in
    erase_color_left_black h parent tmp1
  else erase_color_left_black h parent sibling.

(** Case 4 with the sibling on the left: the rotation at the parent. *)
Definition erase_color_right_rotate (h : rb_st) (parent sibling tmp1 : Z) : res (rb_st * option (Z * Z)) :=
  let* sn := get h sibling in
  let tmp2 := n_right sn in
  let* h := set_left h parent tmp2 in
  let* h := set_right h sibling parent in
  let* h := rb_set_parent_color h tmp1 sibling RB_BLACK in
  let* h := opt_set_parent h tmp2 parent in
  let* h := rb_rotate_set_parents h parent sibling RB_BLACK in
  Done (h, None).

(** Cases 2 to 4, the sibling being black. *)
Definition erase_color_right_black (h : rb_st) (parent sibling : Z) : res (rb_st * option (Z * Z)) :=
  let* sn := get h sibling in
  let tmp1 := n_left sn in
  let* red1 := red_at h tmp1 in
  if negb red1 then
    let tmp2 := n_right sn in
    let* red2 := red_at h tmp2 in
    if negb red2 then erase_color_flip h sibling parent
    else
      let* n2 := get h tmp2 in
      let tmp1 := n_left n2 in
      let* h := set_right h sibling tmp1 in
      let* h := set_left h tmp2 sibling in
      let* h := set_left h parent tmp2 in
      let* h := opt_set_parent_color h tmp1 sibling RB_BLACK in
      erase_color_right_rotate h parent tmp2 sibling
  else erase_color_right_rotate h parent sibling tmp1.

Definition erase_color_right (h : rb_st) (parent sibling : Z) : res (rb_st * option (Z * Z)) :=
  let* sn := get h sibling in
  if rb_is_red sn then
    let tmp1 := n_right sn in
    let* h := set_left h parent tmp1 in
    let* h := set_right h sibling parent in
    let* h := rb_set_parent_color h tmp1 parent RB_BLACK in
    let* h := rb_rotate_set_parents h parent sibling RB_RED in
    erase_color_right_black h parent tmp1
  else erase_color_right_black h parent sibling.

Definition erase_color_body (h : rb_st) (node parent : Z) : res (rb_st * option (Z * Z)) :=
  let* pn := get h parent in
  if negb (node =? n_right pn) then erase_color_left h parent (n_right pn)
  else erase_color_right h parent (n_left pn).

Fixpoint erase_color_loop (fuel : nat) (h : rb_st) (node parent : Z) : res rb_st :=
  match fuel with
  | O => Stuck
  | S fuel =>
      let* '(h, next) := erase_color_body h node parent in
      match next with
      | Some (node, parent) => erase_color_loop fuel h node parent
      | None => Done h
      end
  end.
Definition rb_erase_color (fuel : nat) (h : rb_st) (parent : Z) : res rb_st :=
  erase_color_loop fuel h 0 parent.

(** The leftmost node below [successor]'s left child [tmp], with its parent. *)
Fixpoint successor_loop (fuel : nat) (h : rb_st) (successor tmp : Z) : res (Z * Z) :=
  match fuel with
  | O => Stuck
  | S fuel =>
      let parent := successor in
      let successor := tmp in
      let* n := get h tmp in
      let tmp := n_left n in
      if negb (tmp =? 0) then successor_loop fuel h successor tmp else Done (parent, successor)
  end.

(** The end of [rb_erase] for a node with two children: [successor] takes the
    place of [node]. *)
Definition erase_replace (h : rb_st) (node parent successor child2 : Z) : res (rb_st * Z) :=
  let* n := get h node in
  let tmp := n_left n in
  let* h := set_left h successor tmp in
  let* h := rb_set_parent h tmp successor in
  let* n := get h node in
  let pc := n_pc n in
  let tmp := __rb_parent pc in
  let* h := rb_change_child h node successor tmp in
  if negb (child2 =? 0) then
    let* h := set_pc h successor pc in
    let* h := rb_set_parent_color h child2 parent RB_BLACK in
    Done (h, 0)
  else
    let* sn := get h successor in
    let pc2 := n_pc sn in
    let* h := set_pc h successor pc in
    Done (h, if __rb_is_black pc2 then parent else 0).

(** The node to start [rb_erase_color] at; null when no node is missing. *)
Definition rb_erase (fuel : nat) (h : rb_st) (node : Z) : res (rb_st * Z) :=
  let* n := get h node in
  let child := n_right n in
  let tmp := n_left n in
  if tmp =? 0 then
    let pc := n_pc n in
    let parent := __rb_parent pc in
    let* h := rb_change_child h node child parent in
    if negb (child =? 0) then
      let* h := set_pc h child pc in Done (h, 0)
    else Done (h, if __rb_is_black pc then parent else 0)
  else if child =? 0 then
    let pc := n_pc n in
    let* h := set_pc h tmp pc in
    let parent := __rb_parent pc in
    let* h := rb_change_child h node tmp parent in
    Done (h, 0)
  else
    let successor := child in
    let* cn := get h child in
    let tmp := n_left cn in
    let* '(h, parent, successor, child2) :=
      (if tmp =? 0 then
         Done (h, successor, successor, n_right cn)
       else
         let* '(parent, successor) := successor_loop fuel h successor tmp in
         let* sn := get h successor in
         let child2 := n_right sn in
         let* h := set_left h parent child2 in
         let* h := set_right h successor child in
         let* h := rb_set_parent h child successor in
         Done (h, parent, successor, child2)) in
    erase_replace h node parent successor child2.

Definition rb_remove (fuel : nat) (h : rb_st) (node : Z) : res rb_st :=
  let* '(h, rebalance) := rb_erase fuel h node in
  let* h := (if negb (rebalance =? 0) then rb_erase_color fuel h rebalance else Done h) in
  let* h := set_left h node 0 in
  let* h := set_right h node 0 in
  set_pc h node 0.
