(* ===== verification/RbtreeFacts.v ===== *)
(** What the red-black tree operations of Rbtree.v do.  The nodes a tree owns
    are a list of heap cells, [flat]; a path to a node is a context, [ctx].
    Insertion and removal are shown to keep the tree a red-black tree and to
    add or remove exactly one node in its sequence. *)
From stdpp Require Import base gmap list list_tactics sorting.
From S2P Require Import Prelude Rbtree.

(** ** Running code *)

(** [m] returns a value that satisfies [Q]. *)
Definition runs {A} (m : res A) (Q : A -> Prop) : Prop := exists a, m = Done a /\ Q a.

Lemma runs_Done {A} (a : A) (Q : A -> Prop) : Q a -> runs (Done a) Q.
Proof. eexists; eauto. Qed.
Lemma runs_bind {A B} (m : res A) (k : A -> res B) (P : A -> Prop) (Q : B -> Prop) :
  runs m P -> (forall a, P a -> runs (k a) Q) -> runs (rbind m k) Q.
Proof. intros (a & -> & Ha) Hk. exact (Hk a Ha). Qed.
Lemma rbind_assoc {A B C} (m : res A) (k : A -> res B) (f : B -> res C) :
  rbind (rbind m k) f = rbind m (fun a => rbind (k a) f).
Proof. by destruct m. Qed.
Lemma runs_mono {A} (m : res A) (P Q : A -> Prop) : runs m P -> (forall a, P a -> Q a) -> runs m Q.
Proof. intros (a & -> & Ha) Hk. eexists; eauto. Qed.

(** ** The word with the parent and the colour *)

Inductive color : Type := Red | Black.
#[global] Instance color_dec : EqDecision color.
Proof. solve_decision. Defined.

Definition bit (c : color) : Z := match c with Red => RB_RED | Black => RB_BLACK end.
Definition enc (p : Z) (c : color) : Z := Z.lor p (bit c).

(** The address of a node: a word, not null and aligned. *)
Definition okp (p : Z) : Prop := 0 < p < 2 ^ 32 /\ p mod 4 = 0.
Definition okp0 (p : Z) : Prop := p = 0 \/ okp p.

Lemma enc_add p c : okp0 p -> enc p c = p + bit c.
Proof.
  intros Hp. assert (p mod 4 = 0) as Hm by (destruct Hp as [->|[_ ?]]; done).
  assert (Z.land p (bit c) = 0) as Hl.
  { destruct c; [apply Z.land_0_r|]. change (bit Black) with (Z.ones 1). rewrite Z.land_ones by lia.
    change (2 ^ 1) with 2. pose proof (Z.div_mod p 4). symmetry. apply Z.mod_unique with (2 * (p / 4)); lia. }
  unfold enc. by rewrite <- Z.lxor_lor, <- Z.add_nocarry_lxor.
Qed.

Lemma enc_parent p c : okp0 p -> __rb_parent (enc p c) = p.
Proof.
  intros Hp. rewrite enc_add by done. unfold __rb_parent.
  change (u32 (Z.lnot 3)) with (wrap 32 (Z.lnot (Z.ones 2))).
  assert (0 <= p < 2 ^ 32 /\ p mod 4 = 0) as [Hb Hm] by (destruct Hp as [->|[??]]; split; done || lia).
  pose proof (Z.div_mod p 4). assert (p < 2 ^ 32 - 1) by lia.
  rewrite land_lnot_ones by (destruct c; unfold bit, RB_RED, RB_BLACK; lia).
  change (2 ^ 2) with 4. replace ((p + bit c) / 4) with (p / 4); [lia|].
  apply Z.div_unique with (bit c); destruct c; unfold bit, RB_RED, RB_BLACK; lia.
Qed.

Lemma enc_color p c : okp0 p -> __rb_color (enc p c) = bit c.
Proof.
  intros Hp. assert (p mod 4 = 0) as Hm by (destruct Hp as [->|[_ ?]]; done).
  rewrite enc_add by done. unfold __rb_color.
  change RB_BLACK with (Z.ones 1) at 1. rewrite Z.land_ones by lia. change (2 ^ 1) with 2.
  pose proof (Z.div_mod p 4). symmetry. apply Z.mod_unique with (2 * (p / 4)); destruct c; unfold bit, RB_RED, RB_BLACK; lia.
Qed.

Lemma enc_is_red p c : okp0 p -> __rb_is_red (enc p c) = bool_decide (c = Red).
Proof. intros Hp. unfold __rb_is_red. rewrite enc_color by done. by destruct c. Qed.
Lemma enc_is_black p c : okp0 p -> __rb_is_black (enc p c) = bool_decide (c = Black).
Proof. intros Hp. unfold __rb_is_black. rewrite enc_color by done. by destruct c. Qed.
Lemma enc_Red p : enc p Red = p.
Proof. apply Z.lor_0_r. Qed.
Lemma lor_black p c : Z.lor (enc p c) RB_BLACK = enc p Black.
Proof. unfold enc. rewrite <- Z.lor_assoc. by destruct c. Qed.

(** ** Cells *)

Definition cell : Type := Z * rb_node_t.

(** The heap consists of exactly the cells [L], and the root is [r]. *)
Definition sat (h : rb_st) (L : list cell) (r : Z) : Prop :=
  NoDup L.*1 /\ Forall okp L.*1 /\ nodes h = list_to_map L /\ root h = r.

Lemma sat_perm h L L' r : L ≡ₚ L' -> sat h L r -> sat h L' r.
Proof.
  intros HP (Hn & Ho & Hm & Hr). split_and!.
  - by rewrite <- HP.
  - by rewrite <- HP.
  - rewrite Hm. by apply list_to_map_proper.
  - done.
Qed.

Lemma sat_lookup h L r p n : sat h L r -> (p, n) ∈ L -> nodes h !! p = Some n.
Proof. intros (Hn & _ & -> & _) Hin. by apply elem_of_list_to_map_1. Qed.

Lemma sat_get h L r p n : sat h L r -> (p, n) ∈ L -> get h p = Done n.
Proof. intros Hs Hin. unfold get. by rewrite (sat_lookup _ _ _ _ _ Hs Hin). Qed.

Lemma sat_okp h L r p : sat h L r -> p ∈ L.*1 -> okp p.
Proof. intros (_ & Ho & _) Hin. rewrite Forall_forall in Ho. auto. Qed.

Lemma sat_nonzero h L r p : sat h L r -> p ∈ L.*1 -> p <> 0.
Proof. intros Hs Hin. destruct (sat_okp _ _ _ _ Hs Hin) as [??]. lia. Qed.

Lemma sat_put h p n n' L r : sat h ((p, n) :: L) r -> sat (put h p n') ((p, n') :: L) r.
Proof.
  intros (Hn & Ho & Hm & Hr). split_and!; [done..| |done].
  simpl in *. rewrite Hm. by rewrite insert_insert_eq.
Qed.

Lemma sat_upd h p n L r f : sat h ((p, n) :: L) r -> runs (upd h p f) (fun h' => sat h' ((p, f n) :: L) r).
Proof.
  intros Hs. unfold upd. rewrite (sat_get _ _ _ p n Hs) by apply list_elem_of_here. simpl.
  apply runs_Done. by eapply sat_put.
Qed.

Lemma sat_disjoint h A B r p : sat h (A ++ B) r -> p ∈ A.*1 -> p ∈ B.*1 -> False.
Proof. intros (Hn & _). rewrite fmap_app in Hn. apply NoDup_app in Hn as (_ & Hd & _). intros Ha Hb. by eapply Hd. Qed.

Lemma sat_set_root h L r r' : sat h L r -> sat (set_root h r') L r'.
Proof. by intros (? & ? & ? & ?). Qed.

(** ** Trees and contexts *)

Inductive tree : Type := E | T (c : color) (l : tree) (p : Z) (r : tree).

(** A step from a node to its left or right child: the colour and address of
    the node and its other subtree. *)
Inductive dir : Type := DL | DR.
Inductive frame : Type := Fr (d : dir) (c : color) (p : Z) (s : tree).
(** The path from a node up to the root. *)
Definition ctx : Type := list frame.

Definition troot (t : tree) : Z := match t with E => 0 | T _ _ p _ => p end.
Fixpoint inorder (t : tree) : list Z :=
  match t with E => [] | T _ l p r => inorder l ++ p :: inorder r end.
Fixpoint tsize (t : tree) : nat :=
  match t with E => 0%nat | T _ l _ r => S (tsize l + tsize r) end.
Fixpoint height (t : tree) : nat :=
  match t with E => 0%nat | T _ l _ r => S (height l `max` height r) end.
Definition recolor (c : color) (t : tree) : tree :=
  match t with E => E | T _ l p r => T c l p r end.

Definition cpar (c : ctx) : Z := match c with [] => 0 | Fr _ _ p _ :: _ => p end.
Fixpoint croot (c : ctx) (x : Z) : Z := match c with [] => x | Fr _ _ p _ :: c => croot c p end.
Fixpoint plug (c : ctx) (t : tree) : tree :=
  match c with
  | [] => t
  | Fr DL col p s :: c => plug c (T col t p s)
  | Fr DR col p s :: c => plug c (T col s p t)
  end.

(** What precedes and what follows the hole in the sequence of nodes. *)
Fixpoint before (c : ctx) : list Z :=
  match c with
  | [] => []
  | Fr DL _ _ _ :: c => before c
  | Fr DR _ p s :: c => before c ++ inorder s ++ [p]
  end.
Fixpoint after (c : ctx) : list Z :=
  match c with
  | [] => []
  | Fr DL _ p s :: c => p :: inorder s ++ after c
  | Fr DR _ _ _ :: c => after c
  end.

Lemma inorder_plug c t : inorder (plug c t) = before c ++ inorder t ++ after c.
Proof.
  revert t. induction c as [|[[] col p s] c IH]; intros t; simpl.
  - by rewrite app_nil_r.
  - rewrite IH. simpl. by rewrite <- (app_assoc (inorder t)).
  - rewrite IH. simpl. by rewrite <- !app_assoc.
Qed.

Lemma troot_plug c t : troot (plug c t) = croot c (troot t).
Proof. revert t. induction c as [|[[] col p s] c IH]; intros t; simpl; [done|by rewrite IH..]. Qed.

Lemma plug_app c1 c2 t : plug (c1 ++ c2) t = plug c2 (plug c1 t).
Proof. revert t. induction c1 as [|[[] col p s] c IH]; intros t; simpl; auto. Qed.

Lemma inorder_recolor c t : inorder (recolor c t) = inorder t.
Proof. by destruct t. Qed.
Lemma troot_recolor c t : troot (recolor c t) = troot t.
Proof. by destruct t. Qed.

(** Every node of a tree is at the end of a path. *)
Lemma tree_split t p : p ∈ inorder t -> exists c col l r, t = plug c (T col l p r).
Proof.
  induction t as [|col l IHl q r IHr]; simpl; [by intros ?%elem_of_nil|].
  rewrite elem_of_app, elem_of_cons. intros [Hl|[->|Hr]].
  - destruct (IHl Hl) as (c & col' & l' & r' & ->).
    exists (c ++ [Fr DL col q r]), col', l', r'. by rewrite plug_app.
  - by exists [], col, l, r.
  - destruct (IHr Hr) as (c & col' & l' & r' & ->).
    exists (c ++ [Fr DR col q l]), col', l', r'. by rewrite plug_app.
Qed.

(** The balance: no red node has a red child, and every path from a node to
    a leaf has [n] black nodes. *)
Definition black (t : tree) : Prop := match t with T Red _ _ _ => False | _ => True end.
#[global] Instance black_dec t : Decision (black t).
Proof. destruct t as [|[]]; simpl; apply _. Defined.
Fixpoint rb (n : nat) (t : tree) : Prop :=
  match t with
  | E => n = 0%nat
  | T Red l _ r => black l /\ black r /\ rb n l /\ rb n r
  | T Black l _ r => match n with O => False | S n => rb n l /\ rb n r end
  end.
(** A red-black tree. *)
Definition rbt (t : tree) : Prop := black t /\ exists n, rb n t.

(** The hole of [c] is one for a tree of black height [n]; it may be a red one. *)
Definition red_ok (c : ctx) : Prop := match c with Fr _ Black _ _ :: _ => True | _ => False end.
Fixpoint cok (c : ctx) (n : nat) : Prop :=
  match c with
  | [] => True
  | Fr _ Red _ s :: c => rb n s /\ black s /\ red_ok c /\ cok c n
  | Fr _ Black _ s :: c => rb n s /\ cok c (S n)
  end.

Lemma rbt_plug c n t : cok c n -> rb n t -> black t \/ red_ok c -> rbt (plug c t).
Proof.
  revert n t. induction c as [|[d [] p s] c IH]; intros n t; simpl.
  - intros _ Ht [Hb|[]]. split; eauto.
  - intros (Hs & Hbs & Hr & Hc) Ht [Hb|[]]. destruct d; apply (IH n); simpl; tauto.
  - intros (Hs & Hc) Ht _. destruct d; apply (IH (S n)); simpl; tauto.
Qed.

Lemma rb_split n c t : rb n (plug c t) -> black (plug c t) ->
  exists m, cok c m /\ rb m t /\ (black t \/ red_ok c).
Proof.
  revert t. induction c as [|[d col p s] c IH]; intros t; simpl.
  - intros Ht Hb. exists n. auto.
  - destruct d; intros Ht Hb; apply IH in Ht as (m & Hc & Ht & Hr); [|done| |done].
    all: destruct col; simpl in *.
    all: try (destruct Ht as (? & ? & ? & ?); destruct Hr as [[]|Hr]; exists m; tauto).
    all: destruct m as [|m]; [done|]; exists m; tauto.
Qed.

(** A red-black tree of black height [n] has at least 2^n - 1 nodes and at
    most [2 n] levels ([2 n + 1] below a red root). *)
Lemma rb_height n t : rb n t -> (height t <= 2 * n + (if decide (black t) then 0 else 1))%nat.
Proof.
  revert n. induction t as [|[] l IHl p r IHr]; intros n; simpl; [lia| |].
  - intros (Hbl & Hbr & Hl & Hr). specialize (IHl _ Hl). specialize (IHr _ Hr).
    rewrite decide_True in IHl by done. rewrite decide_True in IHr by done.
    simpl. lia.
  - destruct n as [|n]; [done|]. intros (Hl & Hr). specialize (IHl _ Hl). specialize (IHr _ Hr).
    simpl. destruct (decide (black l)), (decide (black r)); lia.
Qed.

(** ** Cells of trees and contexts *)

(** Bring the cell of [p], or the cells [X], to the front of the cells of the
    hypothesis [H]. *)
Ltac pull_cell p L :=
  lazymatch L with
  | (p, ?n) :: ?B => constr:((n, B))
  | ?e :: ?B => let x := pull_cell p B in lazymatch x with (?n, ?B') => constr:((n, e :: B')) end
  | ?A ++ ?B =>
      match L with
      | _ => let x := pull_cell p A in lazymatch x with (?n, ?A') => constr:((n, A' ++ B)) end
      | _ => let x := pull_cell p B in lazymatch x with (?n, ?B') => constr:((n, A ++ B')) end
      end
  end.
Ltac pull_chunk X L :=
  match L with
  | X => constr:(@nil cell)
  | X ++ ?B => B
  | ?A ++ ?B => let A' := pull_chunk X A in constr:(A' ++ B)
  | ?A ++ ?B => let B' := pull_chunk X B in constr:(A ++ B')
  | ?e :: ?B => let B' := pull_chunk X B in constr:(e :: B')
  end.
Ltac front p H :=
  lazymatch type of H with
  | sat _ ?L _ =>
      let x := pull_cell p L in
      lazymatch x with (?n, ?B) => apply (sat_perm _ L ((p, n) :: B)) in H; [|solve_Permutation] end
  end.
Ltac front_cells X H :=
  lazymatch type of H with
  | sat _ ?L _ =>
      let B := pull_chunk X L in
      apply (sat_perm _ L (X ++ B)) in H; [|solve_Permutation]
  end.

(** One store of the code: the hypothesis about the heap moves on. *)
Ltac next h Hs := clear h Hs; intros h Hs; cbn [n_pc n_right n_left n_value] in Hs.
Ltac store p h Hs :=
  rewrite ?rbind_assoc; front p Hs; eapply runs_bind; [exact (sat_upd _ _ _ _ _ _ Hs)|]; next h Hs.

(** Membership in a list of cells. *)
Ltac in_cells :=
  first [ apply list_elem_of_here
        | apply list_elem_of_further; in_cells
        | apply elem_of_app; left; in_cells
        | apply elem_of_app; right; in_cells ].

Lemma key_in (p : Z) (n : rb_node_t) (L : list cell) : (p, n) ∈ L -> p ∈ L.*1.
Proof. intros H. by apply (list_elem_of_fmap_2 fst L (p, n)). Qed.
Ltac in_keys := eapply key_in; in_cells.

(** One load of the code. *)
Ltac load h Hs :=
  match goal with
  | |- context [get h ?p] => rewrite ?rbind_assoc; erewrite (sat_get h _ _ p _ Hs); [|in_cells]
  end; cbn [rbind deref n_pc n_right n_left n_value].

(** Equality of sequences up to the grouping of [++]. *)
Ltac seq_eq := cbn; repeat (rewrite <- app_assoc; cbn); reflexivity.

Lemma height_size t : (height t <= tsize t)%nat.
Proof. induction t; simpl; lia. Qed.
Lemma length_inorder t : length (inorder t) = tsize t.
Proof. induction t as [|c l IHl p r IHr]; simpl; [done|]. rewrite length_app. simpl. lia. Qed.

Lemma rb_size n t : rb n t -> (2 ^ n <= tsize t + 1)%nat.
Proof.
  revert n. induction t as [|[] l IHl p r IHr]; intros n; simpl.
  - intros ->. simpl. lia.
  - intros (_ & _ & Hl & Hr). specialize (IHl _ Hl). lia.
  - destruct n as [|n]; [done|]. intros [Hl Hr]. specialize (IHl _ Hl). specialize (IHr _ Hr). simpl. lia.
Qed.

(** The height of a red-black tree is logarithmic in the number of its nodes. *)
Lemma rbt_height t : rbt t -> (height t <= 2 * Nat.log2 (tsize t + 1))%nat.
Proof.
  intros (Hb & n & Hn). pose proof (rb_height _ _ Hn) as Hh. rewrite decide_True in Hh by done.
  assert (n <= Nat.log2 (tsize t + 1))%nat; [|lia].
  apply Nat.log2_le_pow2; [lia|]. by apply rb_size.
Qed.

(** The children before the node. *)
Fixpoint postorder (t : tree) : list Z :=
  match t with E => [] | T _ l p r => postorder l ++ postorder r ++ [p] end.
Fixpoint post_before (c : ctx) : list Z :=
  match c with
  | [] => []
  | Fr DL _ _ _ :: c => post_before c
  | Fr DR _ _ s :: c => post_before c ++ postorder s
  end.
Fixpoint post_after (c : ctx) : list Z :=
  match c with
  | [] => []
  | Fr DL _ p s :: c => postorder s ++ p :: post_after c
  | Fr DR _ p _ :: c => p :: post_after c
  end.

Lemma postorder_plug c t : postorder (plug c t) = post_before c ++ postorder t ++ post_after c.
Proof.
  revert t. induction c as [|[[] col p s] c IH]; intros t; simpl.
  - by rewrite app_nil_r.
  - rewrite IH. simpl. by rewrite <- !app_assoc.
  - rewrite IH. simpl. by rewrite <- !app_assoc.
Qed.
Lemma postorder_inorder t : postorder t ≡ₚ inorder t.
Proof. induction t as [|c l IHl p r IHr]; simpl; [done|]. rewrite IHl, IHr. solve_Permutation. Qed.
Lemma postorder_cons col l p r : postorder (T col l p r) <> [].
Proof. simpl. intros [_ [_ [=]]%app_nil]%app_nil. Qed.
Lemma hd_app (l1 l2 : list Z) : l1 <> [] -> hd 0 (l1 ++ l2) = hd 0 l1.
Proof. by destruct l1. Qed.

Lemma split_unique (p : Z) l1 l2 k1 k2 : NoDup (l1 ++ p :: l2) -> l1 ++ p :: l2 = k1 ++ p :: k2 -> l1 = k1 /\ l2 = k2.
Proof.
  revert k1. induction l1 as [|x l1 IH]; intros [|y k1]; simpl; intros [Hx Hn]%NoDup_cons He; injection He as ->; subst.
  - done.
  - set_solver.
  - set_solver.
  - by destruct (IH k1) as [-> ->].
Qed.

Section Cells.
Context (val : Z -> Z).

(** The cells of a tree below the node [par]. *)
Fixpoint flat (t : tree) (par : Z) : list cell :=
  match t with
  | E => []
  | T c l p r => (p, RbNode (enc par c) (troot r) (troot l) (val p)) :: flat l p ++ flat r p
  end.
(** The cells of a context whose hole is filled with the node [x]. *)
Fixpoint cflat (c : ctx) (x : Z) : list cell :=
  match c with
  | [] => []
  | Fr d col p s :: c =>
      (p, match d with
          | DL => RbNode (enc (cpar c) col) (troot s) x (val p)
          | DR => RbNode (enc (cpar c) col) x (troot s) (val p)
          end) :: flat s p ++ cflat c p
  end.

Lemma flat_plug c t : flat (plug c t) 0 ≡ₚ cflat c (troot t) ++ flat t (cpar c).
Proof.
  revert t. induction c as [|[[] col p s] c IH]; intros t; simpl; [done|..].
  all: rewrite IH; simpl; solve_Permutation.
Qed.

Lemma keys_flat t par : (flat t par).*1 ≡ₚ inorder t.
Proof.
  revert par. induction t as [|c l IHl p r IHr]; intros par; simpl; [done|].
  rewrite fmap_app, IHl, IHr. solve_Permutation.
Qed.

Lemma length_flat t par : length (flat t par) = tsize t.
Proof.
  revert par. induction t as [|c l IHl p r IHr]; intros par; simpl; [done|]. by rewrite length_app, IHl, IHr.
Qed.

Lemma keys_cflat c x : (cflat c x).*1 ≡ₚ before c ++ after c.
Proof.
  revert x. induction c as [|[[] col p s] c IH]; intros x; simpl; [done|..].
  all: rewrite fmap_app, keys_flat, IH; solve_Permutation.
Qed.

Lemma flat_recolor c c' l p r par : flat (recolor c (T c' l p r)) par = flat (T c l p r) par.
Proof. done. Qed.

Lemma sat_cpar h c x R r : sat h (cflat c x ++ R) r -> okp0 (cpar c).
Proof.
  intros Hs. destruct c as [|[d col p s] c]; [by left|]. right.
  eapply sat_okp; [exact Hs|]. apply list_elem_of_here.
Qed.

Lemma sat_troot h t par R r : sat h (flat t par ++ R) r -> troot t = 0 <-> t = E.
Proof.
  intros Hs. destruct t as [|c l p rr]; [done|]. split; [|done]. simpl. intros ->.
  assert (okp 0) as [??] by (eapply sat_okp; [exact Hs|]; apply list_elem_of_here). lia.
Qed.

Lemma red_at_spec h t par R r : sat h (flat t par ++ R) r -> okp0 par ->
  red_at h (troot t) = Done (bool_decide (~ black t)).
Proof.
  intros Hs Hp. unfold red_at. destruct t as [|c l p rr]; [done|].
  pose proof (sat_troot _ _ _ _ _ Hs) as Hz. destruct (Z.eqb_spec (troot (T c l p rr)) 0) as [He|_].
  { apply Hz in He. done. }
  simpl. rewrite (sat_get _ _ _ _ _ Hs (list_elem_of_here _ _)). simpl.
  unfold rb_is_red. simpl. rewrite enc_is_red by done. f_equal. apply bool_decide_ext. destruct c; simpl; naive_solver.
Qed.

Lemma opt_set_parent_color_spec h t par R r q col : sat h (flat t par ++ R) r ->
  runs (opt_set_parent_color h (troot t) q (bit col)) (fun h' => sat h' (flat (recolor col t) q ++ R) r).
Proof.
  intros Hs. unfold opt_set_parent_color. pose proof (sat_troot _ _ _ _ _ Hs) as Hz.
  destruct (Z.eqb_spec (troot t) 0) as [He|He].
  - apply Hz in He as ->. by apply runs_Done.
  - destruct t as [|c l p rr]; [done|]. simpl in Hs.
    unfold rb_set_parent_color, set_pc. exact (sat_upd _ _ _ _ _ _ Hs).
Qed.

Lemma rb_set_parent_cell h p par c x y v L r q : sat h ((p, RbNode (enc par c) x y v) :: L) r -> okp0 par ->
  runs (rb_set_parent h p q) (fun h' => sat h' ((p, RbNode (enc q c) x y v) :: L) r).
Proof.
  intros Hs Hp. unfold rb_set_parent. load h Hs.
  unfold rb_color. simpl. rewrite enc_color by done. rewrite Z.lor_comm. exact (sat_upd _ _ _ _ _ _ Hs).
Qed.

Lemma rb_set_parent_tree h t par R r q : t <> E -> sat h (flat t par ++ R) r -> okp0 par ->
  runs (rb_set_parent h (troot t) q) (fun h' => sat h' (flat t q ++ R) r).
Proof. intros Ht Hs Hp. destruct t as [|c l p rr]; [done|]. exact (rb_set_parent_cell _ _ _ _ _ _ _ _ _ _ Hs Hp). Qed.

Lemma opt_set_parent_spec h t par R r q : sat h (flat t par ++ R) r -> okp0 par ->
  runs (opt_set_parent h (troot t) q) (fun h' => sat h' (flat t q ++ R) r).
Proof.
  intros Hs Hp. unfold opt_set_parent. pose proof (sat_troot _ _ _ _ _ Hs) as Hz.
  destruct (Z.eqb_spec (troot t) 0) as [He|He].
  - apply Hz in He as ->. by apply runs_Done.
  - apply rb_set_parent_tree with par; [by intros ->|done..].
Qed.

(** Replacing the child in the hole of a context. *)
Lemma rb_change_child_spec h c old new R : sat h (cflat c old ++ R) (croot c old) -> old ∈ R.*1 ->
  runs (rb_change_child h old new (cpar c)) (fun h' => sat h' (cflat c new ++ R) (croot c new)).
Proof.
  intros Hs Hin. unfold rb_change_child.
  destruct c as [|[d col p s] c]; simpl in *.
  - apply runs_Done. by eapply sat_set_root.
  - assert (p <> 0) as Hp by (eapply sat_nonzero; [exact Hs|apply list_elem_of_here]).
    rewrite (proj2 (Z.eqb_neq _ _) Hp). simpl. rewrite (sat_get _ _ _ _ _ Hs (list_elem_of_here _ _)). simpl.
    destruct d; simpl.
    + rewrite Z.eqb_refl. exact (sat_upd _ _ _ _ _ _ Hs).
    + destruct (Z.eqb_spec (troot s) old) as [He|_]; [|exact (sat_upd _ _ _ _ _ _ Hs)].
      exfalso. eapply (sat_disjoint _ (_ :: flat s p ++ cflat c p) R); [exact Hs| |exact Hin].
      assert (old <> 0) as Ho by (eapply sat_nonzero; [exact Hs|]; rewrite fmap_cons, !fmap_app; set_solver).
      destruct s as [|c' l q rr]; [done|]. simpl in *. subst. set_solver.
Qed.

Lemma rb_rotate_set_parents_spec h c old new col col' x a b v a' b' v' R :
  sat h (cflat c old ++ (old, RbNode (enc (cpar c) col) a b v) :: (new, RbNode x a' b' v') :: R) (croot c old) ->
  runs (rb_rotate_set_parents h old new (bit col'))
    (fun h' => sat h' (cflat c new ++ (old, RbNode (enc new col') a b v) ::
                       (new, RbNode (enc (cpar c) col) a' b' v') :: R) (croot c new)).
Proof.
  intros Hs. unfold rb_rotate_set_parents.
  assert (okp0 (cpar c)) as Hc by (by eapply sat_cpar).
  load h Hs. unfold rb_parent. cbn [n_pc]. rewrite enc_parent by done.
  store new h Hs. store old h Hs.
  front_cells (cflat c old) Hs. eapply runs_mono; [apply (rb_change_child_spec _ _ _ new _ Hs); in_keys|].
  intros h' Hs'. eapply sat_perm, Hs'. solve_Permutation.
Qed.

Lemma sat_ne_troot h t par R r p : sat h (flat t par ++ R) r -> p ∈ R.*1 -> p <> troot t.
Proof.
  intros Hs Hin ->. destruct t as [|c l q rr].
  - eapply sat_nonzero; [exact Hs| |done]. rewrite fmap_app. set_solver.
  - eapply sat_disjoint; [exact Hs| |exact Hin]. apply list_elem_of_here.
Qed.

Lemma recolor_black t : black t -> recolor Black t = t.
Proof. by destruct t as [|[]]. Qed.

(** Steps of the code that work on a subtree: [tree_color] gives the subtree
    [t], which is black already, the parent [q]; [rotate] is the final part of
    a rotation at the end of the path [c]. *)
Ltac tree_front t Hs :=
  match type of Hs with
  | context [flat t ?par] => front_cells (flat t par) Hs
  end.
Ltac tree_color t q h Hs :=
  rewrite ?rbind_assoc; tree_front t Hs;
  eapply runs_bind; [exact (opt_set_parent_color_spec _ _ _ _ _ q Black Hs)|]; next h Hs;
  rewrite (recolor_black t) in Hs by done.
Ltac rotate c old new col h Hs :=
  front new Hs; front old Hs; front_cells (cflat c old) Hs;
  eapply runs_bind; [exact (rb_rotate_set_parents_spec _ c old new _ col _ _ _ _ _ _ _ _ Hs)|]; next h Hs.
(** The cells are those of a tree at the end of a path. *)
Ltac reshape Hs := eapply sat_perm, Hs; simpl; solve_Permutation.

(** *** Insertion *)

(** The tree [t] is in the heap at the end of the path [c]. *)
Definition at_ctx (h : rb_st) (c : ctx) (t : tree) (F : list cell) : Prop :=
  sat h (cflat c (troot t) ++ flat t (cpar c) ++ F) (croot c (troot t)).

(** The red parent [q] of the red node [p] is the left child of [g]: what a
    round of the loop makes of the grandparent's tree. *)
Lemma fixup_left_spec h d q s g u c l p r F :
  at_ctx h (Fr d Red q s :: Fr DL Black g u :: c) (T Red l p r) F ->
  black s -> black l -> black r ->
  runs (fixup_left h p q g (troot u)) (fun '(h', next) =>
    if decide (black u) then
      next = None /\
      at_ctx h' c (match d with
                   | DL => T Black (T Red l p r) q (T Red s g u)
                   | DR => T Black (T Red s q l) p (T Red r g u)
                   end) F
    else
      next = Some (g, cpar c) /\
      at_ctx h' c (T Red (match d with DL => T Black (T Red l p r) q s | DR => T Black s q (T Red l p r) end)
                     g (recolor Black u)) F).
Proof.
  intros Hs Hbs Hbl Hbr. unfold at_ctx in *.
  assert (okp g) as Hg by (eapply sat_okp; [exact Hs|]; simpl; rewrite !fmap_app; set_solver).
  assert (okp0 (cpar c)) as Hc.
  { simpl in Hs. front_cells (cflat c g) Hs. by eapply sat_cpar. }
  unfold fixup_left. simpl in Hs.
  front_cells (flat u g) Hs. rewrite (red_at_spec _ _ _ _ _ Hs) by (by right). cbn [rbind].
  destruct (decide (black u)) as [Hbu|Hbu].
  - rewrite bool_decide_false by tauto. destruct d; load h Hs.
    + destruct (Z.eqb_spec p (troot s)) as [He|_].
      { exfalso. front_cells (flat s q) Hs. eapply sat_ne_troot; [exact Hs| |exact He]. in_keys. }
      cbn [rbind]. store g h Hs. store q h Hs. tree_color s g h Hs. rotate c g q Red h Hs.
      apply runs_Done. split; [done|]. reshape Hs.
    + rewrite Z.eqb_refl. load h Hs. store q h Hs. store p h Hs. tree_color l q h Hs.
      store q h Hs. load h Hs. store g h Hs. store p h Hs. tree_color r g h Hs. rotate c g p Red h Hs.
      apply runs_Done. split; [done|]. reshape Hs.
  - rewrite bool_decide_true by done.
    destruct u as [|[] ul up ur]; [done| |done]. simpl in Hs. simpl.
    store up h Hs. store q h Hs. load h Hs. unfold rb_parent. cbn [n_pc].
    rewrite enc_parent by done. store g h Hs. apply runs_Done. split; [done|].
    destruct d; reshape Hs.
Qed.

(** The same for the right child of [g]. *)
Lemma fixup_right_spec h d q s g u c l p r F :
  at_ctx h (Fr d Red q s :: Fr DR Black g u :: c) (T Red l p r) F ->
  black s -> black l -> black r ->
  runs (fixup_right h p q g (troot u)) (fun '(h', next) =>
    if decide (black u) then
      next = None /\
      at_ctx h' c (match d with
                   | DR => T Black (T Red u g s) q (T Red l p r)
                   | DL => T Black (T Red u g l) p (T Red r q s)
                   end) F
    else
      next = Some (g, cpar c) /\
      at_ctx h' c (T Red (recolor Black u) g
                     (match d with DL => T Black (T Red l p r) q s | DR => T Black s q (T Red l p r) end)) F).
Proof.
  intros Hs Hbs Hbl Hbr. unfold at_ctx in *.
  assert (okp g) as Hg by (eapply sat_okp; [exact Hs|]; simpl; rewrite !fmap_app; set_solver).
  assert (okp0 (cpar c)) as Hc.
  { simpl in Hs. front_cells (cflat c g) Hs. by eapply sat_cpar. }
  unfold fixup_right. simpl in Hs.
  front_cells (flat u g) Hs. rewrite (red_at_spec _ _ _ _ _ Hs) by (by right). cbn [rbind].
  destruct (decide (black u)) as [Hbu|Hbu].
  - rewrite bool_decide_false by tauto. destruct d; load h Hs.
    + rewrite Z.eqb_refl. load h Hs. store q h Hs. store p h Hs. tree_color r q h Hs.
      store q h Hs. load h Hs. store g h Hs. store p h Hs. tree_color l g h Hs. rotate c g p Red h Hs.
      apply runs_Done. split; [done|]. reshape Hs.
    + destruct (Z.eqb_spec p (troot s)) as [He|_].
      { exfalso. front_cells (flat s q) Hs. eapply sat_ne_troot; [exact Hs| |exact He]. in_keys. }
      cbn [rbind]. store g h Hs. store q h Hs. tree_color s g h Hs. rotate c g q Red h Hs.
      apply runs_Done. split; [done|]. reshape Hs.
  - rewrite bool_decide_true by done.
    destruct u as [|[] ul up ur]; [done| |done]. simpl in Hs. simpl.
    store up h Hs. store q h Hs. load h Hs. unfold rb_parent. cbn [n_pc].
    rewrite enc_parent by done. store g h Hs. apply runs_Done. split; [done|].
    destruct d; reshape Hs.
Qed.

(** The heap holds the tree [t] and the other cells [F]. *)
Definition holds (h : rb_st) (t : tree) (F : list cell) : Prop := sat h (flat t 0 ++ F) (troot t).

Lemma at_ctx_holds h c t F : at_ctx h c t F <-> holds h (plug c t) F.
Proof.
  unfold at_ctx, holds. rewrite troot_plug, app_assoc.
  split; apply sat_perm; by rewrite flat_plug.
Qed.

Lemma get_frame h d col q s c x R r : sat h (cflat (Fr d col q s :: c) x ++ R) r ->
  exists n, get h q = Done n /\ n_pc n = enc (cpar c) col /\
    n_left n = (match d with DL => x | DR => troot s end) /\
    n_right n = (match d with DL => troot s | DR => x end) /\ n_value n = val q.
Proof.
  intros Hs. simpl in Hs. eexists. split; [eapply sat_get; [exact Hs|apply list_elem_of_here]|]. by destruct d.
Qed.

(** A round of the loop at the red node [p] with the red parent [q]: it ends
    with a tree that fits the place of the grandparent [g], or goes on with [g]
    red. *)
Lemma fixup_body_spec h d q s d2 g u c n l p r F :
  at_ctx h (Fr d Red q s :: Fr d2 Black g u :: c) (T Red l p r) F ->
  rb n s -> black s -> rb n u -> rb n (T Red l p r) ->
  runs (fixup_body h p q) (fun '(h', next) => exists t', at_ctx h' c t' F /\ rb (S n) t' /\
    inorder t' = inorder (plug [Fr d Red q s; Fr d2 Black g u] (T Red l p r)) /\
    match next with
    | None => black t'
    | Some x => x = (g, cpar c) /\ exists l' r', t' = T Red l' g r'
    end).
Proof.
  intros Hs Hrs Hbs Hu (Hbl & Hbr & Hl & Hr). unfold fixup_body.
  assert (q <> 0) as Hq by (eapply sat_nonzero; [exact Hs|apply list_elem_of_here]).
  rewrite (proj2 (Z.eqb_neq _ _) Hq).
  assert (okp g) as Hg by (eapply sat_okp; [exact Hs|]; simpl; rewrite !fmap_app; set_solver).
  destruct (get_frame _ _ _ _ _ _ _ _ _ Hs) as (qn & -> & Hpc & _).
  cbn [rbind]. unfold rb_is_black, rb_red_parent. rewrite Hpc, enc_is_black, enc_Red by (by right). simpl.
  pose proof Hs as Hs2. unfold at_ctx in Hs2. simpl in Hs2. destruct d2; load h Hs2.
  - destruct (Z.eqb_spec q (troot u)) as [He|_].
    { exfalso. front_cells (flat u g) Hs2. eapply sat_ne_troot; [exact Hs2| |exact He]. in_keys. }
    eapply runs_mono; [exact (fixup_left_spec _ _ _ _ _ _ _ _ _ _ _ Hs Hbs Hbl Hbr)|].
    intros [h' next]. destruct (decide (black u)) as [Hbu|Hbu]; intros [-> Hs']; eexists; (split; [exact Hs'|]).
    + destruct d; simpl; (split; [tauto|]); (split; [seq_eq|done]).
    + destruct u as [|[]]; [done| |done]. destruct d; simpl in *; (split; [tauto|]); (split; [seq_eq|eauto]).
  - rewrite Z.eqb_refl. eapply runs_mono; [exact (fixup_right_spec _ _ _ _ _ _ _ _ _ _ _ Hs Hbs Hbl Hbr)|].
    intros [h' next]. destruct (decide (black u)) as [Hbu|Hbu]; intros [-> Hs']; eexists; (split; [exact Hs'|]).
    + destruct d; simpl; (split; [tauto|]); (split; [seq_eq|done]).
    + destruct u as [|[]]; [done| |done]. destruct d; simpl in *; (split; [tauto|]); (split; [seq_eq|eauto]).
Qed.

(** The loop of [__rb_fixup_violation], from a red node at the end of [c]
    whose subtrees fit. *)
Lemma fixup_loop_spec fuel h c n l p r F : (length c < fuel)%nat ->
  at_ctx h c (T Red l p r) F -> cok c n -> rb n (T Red l p r) ->
  runs (fixup_loop fuel h p (cpar c)) (fun h' => exists t', holds h' t' F /\ rbt t' /\
    inorder t' = inorder (plug c (T Red l p r))).
Proof.
  revert h c n l p r. induction fuel as [|fuel IH]; intros h c n l p r Hf Hs Hc Ht; [lia|].
  destruct c as [|[d [] q s] c]; simpl.
  - unfold fixup_body, at_ctx in *. simpl in *. store p h Hs. cbn [rbind]. apply runs_Done.
    exists (T Black l p r). split; [reshape Hs|]. split; [split; [done|exists (S n); simpl; tauto]|done].
  - destruct Hc as (Hrs & Hbs & Hred & Hc). destruct c as [|[d2 [] g u] c]; [done..|]. destruct Hc as [Hu Hc].
    eapply runs_bind; [exact (fixup_body_spec _ _ _ _ _ _ _ _ _ _ _ _ _ Hs Hrs Hbs Hu Ht)|].
    intros [h' next] (t' & Hs' & Ht' & Hi & Hn).
    assert (inorder (plug c t') = inorder (plug (Fr d Red q s :: Fr d2 Black g u :: c) (T Red l p r))) as Hi'.
    { change (_ :: _ :: c) with ([Fr d Red q s; Fr d2 Black g u] ++ c).
      by rewrite plug_app, !(inorder_plug c), Hi. }
    destruct next as [[p' q']|].
    + destruct Hn as ([= -> ->] & l' & r' & ->). eapply runs_mono; [eapply IH; eauto; simpl in Hf; lia|].
      intros h2 (t & Hh & Hrb & Hi2). exists t. split_and!; [done..|]. by rewrite Hi2.
    + apply runs_Done. exists (plug c t'). split; [by apply at_ctx_holds|]. split; [|done].
      eapply rbt_plug; eauto.
  - assert (q <> 0) as Hq by (eapply sat_nonzero; [exact Hs|apply list_elem_of_here]).
    unfold fixup_body. rewrite (proj2 (Z.eqb_neq _ _) Hq).
    destruct (get_frame _ _ _ _ _ _ _ _ _ Hs) as (qn & -> & Hpc & _).
    assert (okp0 (cpar c)) as Hp.
    { unfold at_ctx in Hs. simpl in Hs. front_cells (cflat c q) Hs. by eapply sat_cpar. }
    cbn [rbind]. unfold rb_is_black. rewrite Hpc, enc_is_black by done. simpl. apply runs_Done.
    exists (plug (Fr d Black q s :: c) (T Red l p r)). split; [by apply at_ctx_holds|]. split; [|done]. eapply rbt_plug; [exact Hc|done|by right].
Qed.

(** The place where the code of an insertion puts a new node. *)
Fixpoint ins_ctx (code : Z -> bool) (t : tree) (c : ctx) : ctx :=
  match t with
  | E => c
  | T col l p r => if code (val p) then ins_ctx code l (Fr DL col p r :: c) else ins_ctx code r (Fr DR col p l :: c)
  end.
Definition clink (c : ctx) : link :=
  match c with [] => LinkRoot | Fr DL _ p _ :: _ => LinkLeft p | Fr DR _ p _ :: _ => LinkRight p end.

Lemma plug_ins_ctx code t c : plug (ins_ctx code t c) E = plug c t.
Proof. revert c. induction t as [|col l IHl p r IHr]; intros c; simpl; [done|]. case_match; [by rewrite IHl|by rewrite IHr]. Qed.

Lemma length_ins_ctx code t c : (length (ins_ctx code t c) <= length c + height t)%nat.
Proof.
  revert c. induction t as [|col l IHl p r IHr]; intros c; simpl; [lia|].
  case_match; [specialize (IHl (Fr DL col p r :: c))|specialize (IHr (Fr DR col p l :: c))]; simpl in *; lia.
Qed.

Lemma read_link_spec h c x R : sat h (cflat c x ++ R) (croot c x) -> read_link h (clink c) = Done x.
Proof.
  intros Hs. destruct c as [|[d col q s] c]; simpl.
  - f_equal. apply Hs.
  - destruct (get_frame _ _ _ _ _ _ _ _ _ Hs) as (qn & Hg & _ & Hl & Hr & _).
    destruct d; simpl; rewrite Hg; simpl; congruence.
Qed.

Lemma write_link_spec h c x y R : sat h (cflat c x ++ R) (croot c x) ->
  runs (write_link h (clink c) y) (fun h' => sat h' (cflat c y ++ R) (croot c y)).
Proof.
  intros Hs. destruct c as [|[[] col q s] c]; simpl in *.
  - apply runs_Done. by eapply sat_set_root.
  - exact (sat_upd _ _ _ _ _ _ Hs).
  - exact (sat_upd _ _ _ _ _ _ Hs).
Qed.

Lemma insert_loop_spec fuel h code c t F : (height t < fuel)%nat -> at_ctx h c t F ->
  insert_loop fuel h code (cpar c) (clink c) = Done (cpar (ins_ctx code t c), clink (ins_ctx code t c)).
Proof.
  revert c t. induction fuel as [|fuel IH]; intros c t Hf Hs; [lia|]. simpl.
  rewrite (read_link_spec _ _ _ _ Hs). simpl. pose proof Hs as Hs2. unfold at_ctx in Hs2. tree_front t Hs2.
  pose proof (sat_troot _ _ _ _ _ Hs2) as Hz. destruct (Z.eqb_spec (troot t) 0) as [He|He].
  - apply Hz in He as ->. done.
  - destruct t as [|col l p r]; [done|]. simpl in *. load h Hs2. destruct (code (val p)).
    + apply (IH (Fr DL col p r :: c) l); [lia|]. unfold at_ctx. reshape Hs2.
    + apply (IH (Fr DR col p l :: c) r); [lia|]. unfold at_ctx. reshape Hs2.
Qed.

(** The new node goes between the nodes it is not in front of and those it
    is in front of. *)
Lemma ins_ctx_split code t c l1 l2 : inorder t = l1 ++ l2 ->
  Forall (fun p => code (val p) = false) l1 -> Forall (fun p => code (val p) = true) l2 ->
  before (ins_ctx code t c) = before c ++ l1 /\ after (ins_ctx code t c) = l2 ++ after c.
Proof.
  revert c l1 l2. induction t as [|col l IHl p r IHr]; intros c l1 l2; simpl.
  { intros [-> ->]%eq_sym%app_nil. by rewrite app_nil_r. }
  intros [(k & Hl & ->)|([|q k] & -> & Hk)]%app_eq_inv Hf Ht; simpl in *.
  - apply Forall_app in Ht as [Ht [-> _]%Forall_cons].
    destruct (IHl (Fr DL col p r :: c) l1 k) as [-> ->]; [done..|]. split; [done|seq_eq].
  - subst l2. apply Forall_cons in Ht as [-> _]. rewrite app_nil_r in *.
    destruct (IHl (Fr DL col p r :: c) (inorder l) []) as [-> ->]; [by rewrite app_nil_r|done|done|done].
  - injection Hk as -> Hk. apply Forall_app in Hf as [_ [-> Hf]%Forall_cons].
    destruct (IHr (Fr DR col q l :: c) k l2) as [-> ->]; [done..|]. split; [seq_eq|done].
Qed.

Lemma rb_node_assert_empty_spec h node pc v L r : sat h ((node, RbNode pc 0 0 v) :: L) r ->
  __rb_parent pc = 0 -> rb_node_assert_empty h node = Done tt.
Proof. intros Hs Hp. unfold rb_node_assert_empty, rb_parent. load h Hs. by rewrite Hp. Qed.

Lemma rb_insert_spec fuel h t F node pc code :
  holds h t ((node, RbNode pc 0 0 (val node)) :: F) -> __rb_parent pc = 0 -> rbt t -> (height t < fuel)%nat ->
  runs (rb_insert fuel h code node) (fun h' => exists t', holds h' t' F /\ rbt t' /\
    inorder t' = before (ins_ctx code t []) ++ node :: after (ins_ctx code t [])).
Proof.
  intros Hs Hpc (Hb & n & Ht) Hf. unfold rb_insert, holds in *.
  front node Hs. rewrite (rb_node_assert_empty_spec _ _ _ _ _ _ Hs Hpc). cbn [rbind].
  tree_front t Hs. change 0 with (cpar []) at 1. change LinkRoot with (clink []).
  erewrite (insert_loop_spec fuel h code [] t); [|done|exact Hs]. cbn [rbind].
  set (c := ins_ctx code t []) in *. assert (plug c E = t) as Hpl by apply plug_ins_ctx.
  pose proof (length_ins_ctx code t []) as Hlen. simpl in Hlen. fold c in Hlen.
  rewrite <- Hpl in Ht, Hb, Hs. apply (at_ctx_holds _ c E) in Hs. unfold at_ctx in Hs. simpl in Hs.
  destruct (rb_split _ _ _ Ht Hb) as (m & Hc & Hm & _). simpl in Hm. subst m.
  unfold __rb_link_node. store node h Hs. store node h Hs. store node h Hs.
  front_cells (cflat c 0) Hs. eapply runs_bind; [exact (write_link_spec _ _ _ node _ Hs)|]. next h Hs.
  unfold __rb_fixup_violation. load h Hs. unfold rb_red_parent. cbn [n_pc].
  change (Z.lor (cpar c) RB_RED) with (enc (cpar c) Red) in *. rewrite enc_Red.
  eapply runs_mono; [eapply (fixup_loop_spec fuel h c 0 E node E F); [lia| |done|done]|].
  - unfold at_ctx. reshape Hs.
  - intros h' (t' & Hh & Hr & Hi). exists t'. split_and!; [done..|]. by rewrite Hi, inorder_plug.
Qed.

(** *** Removal *)

(** Case 4 of [rb_erase_color]: [p] goes down, its child [q] takes its place
    and its colour, and [w] below [q] becomes black. *)
Lemma erase_color_left_rotate_spec h c col p q w x y t sl wr wl pr R :
  sat h (cflat c p ++ (p, RbNode (enc (cpar c) col) pr (troot t) (val p)) :: (q, RbNode x w (troot sl) (val q)) ::
         (w, RbNode y wr wl (val w)) :: flat sl q ++ R) (croot c p) -> okp q ->
  runs (erase_color_left_rotate h p q w) (fun '(h', next) => next = None /\
    sat h' (cflat c q ++ (p, RbNode (enc q Black) (troot sl) (troot t) (val p)) ::
            (q, RbNode (enc (cpar c) col) w p (val q)) :: (w, RbNode (enc q Black) wr wl (val w)) ::
            flat sl p ++ R) (croot c q)).
Proof.
  intros Hs Hq. unfold erase_color_left_rotate. load h Hs. store p h Hs. store q h Hs. store w h Hs.
  tree_front sl Hs. eapply runs_bind; [exact (opt_set_parent_spec _ _ _ _ _ p Hs (or_intror Hq))|]. next h Hs.
  rotate c p q Black h Hs. apply runs_Done. split; [done|]. reshape Hs.
Qed.

Lemma erase_color_right_rotate_spec h c col p q w x y t sr wr wl pl R :
  sat h (cflat c p ++ (p, RbNode (enc (cpar c) col) (troot t) pl (val p)) :: (q, RbNode x (troot sr) w (val q)) ::
         (w, RbNode y wr wl (val w)) :: flat sr q ++ R) (croot c p) -> okp q ->
  runs (erase_color_right_rotate h p q w) (fun '(h', next) => next = None /\
    sat h' (cflat c q ++ (p, RbNode (enc q Black) (troot t) (troot sr) (val p)) ::
            (q, RbNode (enc (cpar c) col) p w (val q)) :: (w, RbNode (enc q Black) wr wl (val w)) ::
            flat sr p ++ R) (croot c q)).
Proof.
  intros Hs Hq. unfold erase_color_right_rotate. load h Hs. store p h Hs. store q h Hs. store w h Hs.
  tree_front sr Hs. eapply runs_bind; [exact (opt_set_parent_spec _ _ _ _ _ p Hs (or_intror Hq))|]. next h Hs.
  rotate c p q Black h Hs. apply runs_Done. split; [done|]. reshape Hs.
Qed.

(** Case 2: the sibling [q] becomes red. *)
Lemma erase_color_flip_spec h c col p q x y pr pl qr ql R :
  sat h (cflat c x ++ (p, RbNode (enc (cpar c) col) pr pl (val p)) :: (q, RbNode y qr ql (val q)) :: R) (croot c x) ->
  runs (erase_color_flip h q p) (fun '(h', next) =>
    next = (if decide (col = Red) then None else if cpar c =? 0 then None else Some (p, cpar c)) /\
    sat h' (cflat c x ++ (p, RbNode (enc (cpar c) Black) pr pl (val p)) :: (q, RbNode (enc p Red) qr ql (val q)) :: R)
      (croot c x)).
Proof.
  intros Hs. assert (okp0 (cpar c)) as Hc by (by eapply sat_cpar).
  unfold erase_color_flip. store q h Hs. load h Hs. unfold rb_is_red. cbn [n_pc]. rewrite enc_is_red by done.
  destruct col; simpl.
  - unfold rb_set_black. load h Hs. rewrite lor_black. store p h Hs. apply runs_Done. split; [done|]. reshape Hs.
  - unfold rb_parent. cbn [n_pc]. rewrite enc_parent by done. apply runs_Done. split; [by destruct (cpar c =? 0)|].
    reshape Hs.
Qed.

(** The tree that a round of [rb_erase_color] leaves in the place of the parent,
    of the colour [col]: it has the right number of black nodes, or still one
    too few, in which case the loop goes on unless it is the whole tree. *)
Definition erased (c : ctx) (col : color) (n : nat) (t' : tree) (next : option (Z * Z)) : Prop :=
  next = None /\ rb (match col with Red => S n | Black => S (S n) end) t' /\ (col = Red \/ black t') \/
  col = Black /\ next = (if cpar c =? 0 then None else Some (troot t', cpar c)) /\ rb (S n) t' /\ black t'.

Lemma erase_color_left_black_spec h c col p sl q sr t F n :
  at_ctx h (Fr DL col p (T Black sl q sr) :: c) t F -> rb n t -> black t -> rb n sl -> rb n sr ->
  runs (erase_color_left_black h p q) (fun '(h', next) => exists t', at_ctx h' c t' F /\
    inorder t' = inorder (plug [Fr DL col p (T Black sl q sr)] t) /\ erased c col n t' next).
Proof.
  intros Hs Ht Hbt Hl Hr. unfold at_ctx in Hs. simpl in Hs.
  assert (okp q) as Hq by (eapply sat_okp; [exact Hs|in_keys]).
  unfold erase_color_left_black. load h Hs.
  tree_front sr Hs. rewrite (red_at_spec _ _ _ _ _ Hs) by (by right). cbn [rbind].
  destruct (decide (black sr)) as [Hbr|Hbr].
  - rewrite bool_decide_false by tauto. simpl.
    tree_front sl Hs. rewrite (red_at_spec _ _ _ _ _ Hs) by (by right). cbn [rbind].
    destruct (decide (black sl)) as [Hbl|Hbl].
    + rewrite bool_decide_false by tauto. simpl. front q Hs. front p Hs. front_cells (cflat c p) Hs.
      eapply runs_mono; [exact (erase_color_flip_spec _ _ _ _ _ _ _ _ _ _ _ _ Hs)|].
      intros [h' next] [-> Hs']. exists (T Black t p (T Red sl q sr)). split; [unfold at_ctx; reshape Hs'|].
      split; [seq_eq|]. destruct col; simpl; [left|right]; simpl; tauto.
    + rewrite bool_decide_true by done. destruct sl as [|[] sll w slr]; [done| |done]. simpl in *.
      destruct Hl as (Hbll & Hblr & Hll & Hlr).
      assert (okp w) as Hw by (eapply sat_okp; [exact Hs|in_keys]).
      load h Hs. store q h Hs. store w h Hs. store p h Hs. tree_color slr q h Hs.
      tree_front sll Hs. front q Hs. front w Hs. front p Hs. front_cells (cflat c p) Hs.
      eapply runs_mono; [eapply (erase_color_left_rotate_spec _ _ _ _ _ _ _ _ _ _ _ _ _ _ Hs Hw)|].
      intros [h' next] [-> Hs']. exists (T col (T Black t p sll) w (T Black slr q sr)). split; [unfold at_ctx; reshape Hs'|].
      split; [seq_eq|]. left. destruct col; simpl; tauto.
  - rewrite bool_decide_true by done. simpl. destruct sr as [|[] srl w srr]; [done| |done]. simpl in *.
    destruct Hr as (Hbrl & Hbrr & Hrl & Hrr).
    tree_front sl Hs. front w Hs. front q Hs. front p Hs. front_cells (cflat c p) Hs.
    eapply runs_mono; [eapply (erase_color_left_rotate_spec _ _ _ _ _ _ _ _ _ _ _ _ _ _ Hs Hq)|].
    intros [h' next] [-> Hs']. exists (T col (T Black t p sl) q (T Black srl w srr)). split; [unfold at_ctx; reshape Hs'|].
    split; [seq_eq|]. left. destruct col; simpl; tauto.
Qed.

Lemma erase_color_right_black_spec h c col p sl q sr t F n :
  at_ctx h (Fr DR col p (T Black sl q sr) :: c) t F -> rb n t -> black t -> rb n sl -> rb n sr ->
  runs (erase_color_right_black h p q) (fun '(h', next) => exists t', at_ctx h' c t' F /\
    inorder t' = inorder (plug [Fr DR col p (T Black sl q sr)] t) /\ erased c col n t' next).
Proof.
  intros Hs Ht Hbt Hl Hr. unfold at_ctx in Hs. simpl in Hs.
  assert (okp q) as Hq by (eapply sat_okp; [exact Hs|in_keys]).
  unfold erase_color_right_black. load h Hs.
  tree_front sl Hs. rewrite (red_at_spec _ _ _ _ _ Hs) by (by right). cbn [rbind].
  destruct (decide (black sl)) as [Hbl|Hbl].
  - rewrite bool_decide_false by tauto. simpl.
    tree_front sr Hs. rewrite (red_at_spec _ _ _ _ _ Hs) by (by right). cbn [rbind].
    destruct (decide (black sr)) as [Hbr|Hbr].
    + rewrite bool_decide_false by tauto. simpl. front q Hs. front p Hs. front_cells (cflat c p) Hs.
      eapply runs_mono; [exact (erase_color_flip_spec _ _ _ _ _ _ _ _ _ _ _ _ Hs)|].
      intros [h' next] [-> Hs']. exists (T Black (T Red sl q sr) p t). split; [unfold at_ctx; reshape Hs'|].
      split; [seq_eq|]. destruct col; simpl; [left|right]; simpl; tauto.
    + rewrite bool_decide_true by done. destruct sr as [|[] srl w srr]; [done| |done]. simpl in *.
      destruct Hr as (Hbrl & Hbrr & Hrl & Hrr).
      assert (okp w) as Hw by (eapply sat_okp; [exact Hs|in_keys]).
      load h Hs. store q h Hs. store w h Hs. store p h Hs. tree_color srl q h Hs.
      tree_front srr Hs. front q Hs. front w Hs. front p Hs. front_cells (cflat c p) Hs.
      eapply runs_mono; [eapply (erase_color_right_rotate_spec _ _ _ _ _ _ _ _ _ _ _ _ _ _ Hs Hw)|].
      intros [h' next] [-> Hs']. exists (T col (T Black sl q srl) w (T Black srr p t)). split; [unfold at_ctx; reshape Hs'|].
      split; [seq_eq|]. left. destruct col; simpl; tauto.
  - rewrite bool_decide_true by done. simpl. destruct sl as [|[] sll w slr]; [done| |done]. simpl in *.
    destruct Hl as (Hbll & Hblr & Hll & Hlr).
    tree_front sr Hs. front w Hs. front q Hs. front p Hs. front_cells (cflat c p) Hs.
    eapply runs_mono; [eapply (erase_color_right_rotate_spec _ _ _ _ _ _ _ _ _ _ _ _ _ _ Hs Hq)|].
    intros [h' next] [-> Hs']. exists (T col (T Black sll w slr) q (T Black sr p t)). split; [unfold at_ctx; reshape Hs'|].
    split; [seq_eq|]. left. destruct col; simpl; tauto.
Qed.

(** A round of the loop of [rb_erase_color] at the subtree [t] below [p]. *)
Lemma erase_color_body_spec h d c col p s t F n :
  at_ctx h (Fr d col p s :: c) t F -> rb n t -> black t -> rb (S n) s -> (col = Red -> black s) ->
  runs (erase_color_body h (troot t) p) (fun '(h', next) => exists t', at_ctx h' c t' F /\
    inorder t' = inorder (plug [Fr d col p s] t) /\ erased c col n t' next).
Proof.
  intros Hs Ht Hbt Hrs Hcol. unfold erase_color_body.
  destruct (get_frame _ _ _ _ _ _ _ _ _ Hs) as (pn & -> & _ & Hl & Hr & _). cbn [rbind]. rewrite Hl, Hr. clear pn Hl Hr.
  destruct s as [|sc sl q sr]; [done|]. destruct d.
  - destruct (Z.eqb_spec (troot t) (troot (T sc sl q sr))) as [He|_].
    { exfalso. unfold at_ctx in Hs. simpl in Hs. tree_front t Hs.
      eapply (sat_ne_troot _ _ _ _ _ q); [exact Hs| |done]. in_keys. }
    unfold erase_color_left. pose proof Hs as Hs2. unfold at_ctx in Hs2. simpl in Hs2.
    assert (okp p) as Hp by (eapply sat_okp; [exact Hs2|in_keys]).
    simpl. load h Hs2. unfold rb_is_red. cbn [n_pc]. rewrite enc_is_red by (by right). destruct sc; simpl.
    + destruct col; [exfalso; by apply Hcol|]. destruct Hrs as (Hbl & Hbr & Hrl & Hrr).
      destruct sl as [|[] sll w slr]; [done|done|]. clear Hs. simpl in Hs2. simpl.
      store p h Hs2. store q h Hs2. store w h Hs2. rotate c p q Red h Hs2.
      eapply runs_mono; [eapply (erase_color_left_black_spec h (Fr DL Black q sr :: c) Red p sll w slr t F n)|]; try done.
      * unfold at_ctx. reshape Hs2.
      * simpl in Hrl. tauto.
      * simpl in Hrl. tauto.
      * intros [h' next] (t' & Hs' & Hi & He). exists (T Black t' q sr). split; [unfold at_ctx in *; simpl in *; reshape Hs'|].
        split; [simpl; rewrite Hi; seq_eq|]. left. destruct He as [(-> & ? & _)|[[=] _]]. simpl. tauto.
    + eapply (erase_color_left_black_spec _ _ _ _ _ _ _ _ _ _ Hs Ht Hbt); simpl in Hrs; tauto.
  - simpl. rewrite Z.eqb_refl.
    unfold erase_color_right. pose proof Hs as Hs2. unfold at_ctx in Hs2. simpl in Hs2.
    assert (okp p) as Hp by (eapply sat_okp; [exact Hs2|in_keys]).
    simpl. load h Hs2. unfold rb_is_red. cbn [n_pc]. rewrite enc_is_red by (by right). destruct sc; simpl.
    + destruct col; [exfalso; by apply Hcol|]. destruct Hrs as (Hbl & Hbr & Hrl & Hrr).
      destruct sr as [|[] srl w srr]; [done|done|]. clear Hs. simpl in Hs2. simpl.
      store p h Hs2. store q h Hs2. store w h Hs2. rotate c p q Red h Hs2.
      eapply runs_mono; [eapply (erase_color_right_black_spec h (Fr DR Black q sl :: c) Red p srl w srr t F n)|]; try done.
      * unfold at_ctx. reshape Hs2.
      * simpl in Hrr. tauto.
      * simpl in Hrr. tauto.
      * intros [h' next] (t' & Hs' & Hi & He). exists (T Black sl q t'). split; [unfold at_ctx in *; simpl in *; reshape Hs'|].
        split; [simpl; rewrite Hi; seq_eq|]. left. destruct He as [(-> & ? & _)|[[=] _]]. simpl. tauto.
    + eapply (erase_color_right_black_spec _ _ _ _ _ _ _ _ _ _ Hs Ht Hbt); simpl in Hrs; tauto.
Qed.

Lemma erase_color_loop_spec fuel h c t F n : (length c <= fuel)%nat -> c <> [] ->
  at_ctx h c t F -> cok c (S n) -> rb n t -> black t ->
  runs (erase_color_loop fuel h (troot t) (cpar c)) (fun h' => exists t', holds h' t' F /\ rbt t' /\
    inorder t' = inorder (plug c t)).
Proof.
  revert h c t n. induction fuel as [|fuel IH]; intros h c t n Hf Hne Hs Hc Ht Hb; [by destruct c; simpl in Hf; [|lia]|].
  destruct c as [|[d col p s] c]; [done|]. simpl.
  assert (rb (S n) s /\ (col = Red -> black s) /\ cok c (match col with Red => S n | Black => S (S n) end) /\
    (col = Red -> red_ok c)) as (Hrs & Hcol & Hc' & Hred) by (destruct col; simpl in Hc; naive_solver).
  eapply runs_bind; [exact (erase_color_body_spec _ _ _ _ _ _ _ _ _ Hs Ht Hb Hrs Hcol)|].
  intros [h' next] (t' & Hs' & Hi & He).
  assert (inorder (plug c t') = inorder (plug (Fr d col p s :: c) t)) as Hi'.
  { change (_ :: c) with ([Fr d col p s] ++ c). by rewrite plug_app, !(inorder_plug c), Hi. }
  destruct He as [(-> & Ht' & Hb')|(-> & -> & Ht' & Hb')].
  - apply runs_Done. exists (plug c t'). split; [by apply at_ctx_holds|]. split; [|done].
    eapply rbt_plug; [done..|]. destruct Hb' as [?|?]; auto.
  - destruct (Z.eqb_spec (cpar c) 0) as [He|He].
    + apply runs_Done. exists (plug c t'). split; [by apply at_ctx_holds|]. split; [|done].
      destruct c as [|[d2 col2 p2 s2] c]; [split; eauto|]. simpl in He. exfalso.
      eapply sat_nonzero; [exact Hs'|apply list_elem_of_here|exact He].
    + eapply runs_mono; [eapply IH; [simpl in Hf; lia|by intros ->|done..]|].
      intros h2 (t2 & ? & ? & Hi2). exists t2. split_and!; [done..|]. by rewrite Hi2.
Qed.

(** *** The leftmost and the rightmost node *)

Definition is_left (f : frame) : Prop := match f with Fr DL _ _ _ => True | _ => False end.
Definition is_right (f : frame) : Prop := match f with Fr DR _ _ _ => True | _ => False end.

Lemma before_left c : Forall is_left c -> before c = [].
Proof. induction 1 as [|[[] col p s] c Hd _ IH]; done. Qed.
Lemma after_right c : Forall is_right c -> after c = [].
Proof. induction 1 as [|[[] col p s] c Hd _ IH]; done. Qed.

Lemma at_ctx_app h c1 c2 t F : at_ctx h (c1 ++ c2) t F <-> at_ctx h c2 (plug c1 t) F.
Proof. by rewrite !at_ctx_holds, plug_app. Qed.

Lemma get_at h c col l p r F : at_ctx h c (T col l p r) F ->
  get h p = Done (RbNode (enc (cpar c) col) (troot r) (troot l) (val p)).
Proof. intros Hs. unfold at_ctx in Hs. eapply sat_get; [exact Hs|in_cells]. Qed.

Lemma at_okp h c col l p r F : at_ctx h c (T col l p r) F -> okp p.
Proof. intros Hs. unfold at_ctx in Hs. simpl in Hs. eapply sat_okp; [exact Hs|in_keys]. Qed.

Lemma at_troot h c t F : at_ctx h c t F -> troot t = 0 <-> t = E.
Proof. intros Hs. unfold at_ctx in Hs. tree_front t Hs. by eapply sat_troot. Qed.

Lemma go_left_spec fuel h c col l p r F : at_ctx h c (T col l p r) F -> (height (T col l p r) <= fuel)%nat ->
  exists cs sc sp sr, T col l p r = plug cs (T sc E sp sr) /\ Forall is_left cs /\ go_left fuel h p = Done sp.
Proof.
  revert c col l p r. induction fuel as [|fuel IH]; intros c col l p r Hs Hf; [simpl in Hf; lia|].
  simpl. rewrite (get_at _ _ _ _ _ _ _ Hs). cbn [rbind n_left]. pose proof (at_troot h (Fr DL col p r :: c) l F) as Hz.
  destruct (Z.eqb_spec (troot l) 0) as [He|He].
  - apply Hz in He as ->; [|by apply (at_ctx_app _ [_])]. by exists [], col, p, r.
  - destruct l as [|lc ll lp lr]; [done|].
    destruct (IH (Fr DL col p r :: c) lc ll lp lr) as (cs & sc & sp & sr & He1 & Hl & Hg).
    + by apply (at_ctx_app _ [_]).
    + simpl in *. lia.
    + exists (cs ++ [Fr DL col p r]), sc, sp, sr. rewrite plug_app, <- He1. split_and!; [done| |done].
      apply Forall_app. split; [done|]. by constructor.
Qed.

Lemma go_right_spec fuel h c col l p r F : at_ctx h c (T col l p r) F -> (height (T col l p r) <= fuel)%nat ->
  exists cs sc sl sp, T col l p r = plug cs (T sc sl sp E) /\ Forall is_right cs /\ go_right fuel h p = Done sp.
Proof.
  revert c col l p r. induction fuel as [|fuel IH]; intros c col l p r Hs Hf; [simpl in Hf; lia|].
  simpl. rewrite (get_at _ _ _ _ _ _ _ Hs). cbn [rbind n_right]. pose proof (at_troot h (Fr DR col p l :: c) r F) as Hz.
  destruct (Z.eqb_spec (troot r) 0) as [He|He].
  - apply Hz in He as ->; [|by apply (at_ctx_app _ [_])]. by exists [], col, l, p.
  - destruct r as [|rc rl rp rr]; [done|].
    destruct (IH (Fr DR col p l :: c) rc rl rp rr) as (cs & sc & sl & sp & He1 & Hl & Hg).
    + by apply (at_ctx_app _ [_]).
    + simpl in *. lia.
    + exists (cs ++ [Fr DR col p l]), sc, sl, sp. rewrite plug_app, <- He1. split_and!; [done| |done].
      apply Forall_app. split; [done|]. by constructor.
Qed.

Lemma successor_loop_spec fuel h c col l p r F : at_ctx h c (T col l p r) F -> (height (T col l p r) <= fuel)%nat ->
  exists cs sc sp sr, T col l p r = plug cs (T sc E sp sr) /\ Forall is_left cs /\
    successor_loop fuel h (cpar c) p = Done (cpar (cs ++ c), sp).
Proof.
  revert c col l p r. induction fuel as [|fuel IH]; intros c col l p r Hs Hf; [simpl in Hf; lia|].
  simpl. rewrite (get_at _ _ _ _ _ _ _ Hs). cbn [rbind n_left]. pose proof (at_troot h (Fr DL col p r :: c) l F) as Hz.
  destruct (Z.eqb_spec (troot l) 0) as [He|He].
  - apply Hz in He as ->; [|by apply (at_ctx_app _ [_])]. by exists [], col, p, r.
  - destruct l as [|lc ll lp lr]; [done|].
    destruct (IH (Fr DL col p r :: c) lc ll lp lr) as (cs & sc & sp & sr & He1 & Hl & Hg).
    + by apply (at_ctx_app _ [_]).
    + simpl in *. lia.
    + exists (cs ++ [Fr DL col p r]), sc, sp, sr. rewrite plug_app, <- He1, <- app_assoc. split_and!; [done| |done].
      apply Forall_app. split; [done|]. by constructor.
Qed.

(** The cells of a path [cs] below the node [q]. *)
Fixpoint cin (cs : ctx) (x q : Z) : list cell :=
  match cs with
  | [] => []
  | Fr d col p s :: cs =>
      (p, match d with
          | DL => RbNode (enc (cpar (cs ++ [Fr DL Red q E])) col) (troot s) x (val p)
          | DR => RbNode (enc (cpar (cs ++ [Fr DL Red q E])) col) x (troot s) (val p)
          end) :: flat s p ++ cin cs p q
  end.

Lemma cflat_app cs f c x : cflat (cs ++ f :: c) x = cin cs x (cpar [f]) ++ cflat (f :: c) (croot cs x).
Proof.
  revert x. induction cs as [|[d col p s] cs IH]; intros x; [done|]. simpl. rewrite IH.
  replace (cpar (cs ++ f :: c)) with (cpar (cs ++ [Fr DL Red (cpar [f]) E])) by (destruct cs as [|[]], f; done).
  by rewrite app_assoc.
Qed.

(** The topmost node of the path is the only one that refers to the node above. *)
Lemma cin_snoc cs d col p s x q :
  cin (cs ++ [Fr d col p s]) x q = cin cs x p ++
    (p, match d with
        | DL => RbNode (enc q col) (troot s) (croot cs x) (val p)
        | DR => RbNode (enc q col) (croot cs x) (troot s) (val p)
        end) :: flat s p.
Proof.
  revert x. induction cs as [|[d' col' p' s'] cs IH]; intros x; simpl.
  - by rewrite app_nil_r.
  - rewrite IH. replace (cpar ((cs ++ [Fr d col p s]) ++ [Fr DL Red q E])) with (cpar (cs ++ [Fr DL Red p E])) by (destruct cs as [|[]]; done).
    by rewrite <- app_assoc.
Qed.

Lemma croot_app c1 c2 x : croot (c1 ++ c2) x = croot c2 (croot c1 x).
Proof. revert x. induction c1 as [|[d col p s] c1 IH]; intros x; simpl; auto. Qed.

(** Whether a path fits does not depend on the addresses. *)
Lemma cok_replace cs d col p q s c n : cok (cs ++ Fr d col p s :: c) n <-> cok (cs ++ Fr d col q s :: c) n.
Proof.
  assert (forall cs, red_ok (cs ++ Fr d col p s :: c) <-> red_ok (cs ++ Fr d col q s :: c)) as Hr by (intros [|[]]; done).
  revert n. induction cs as [|[d' [] p' s'] cs IH]; intros n; simpl; [done| |].
  - by rewrite IH, Hr.
  - by rewrite IH.
Qed.

(** The successor [sp], which has left its place at the end of [cs], takes the
    place of [z]. *)
Lemma erase_replace_spec h c col l z zr cs sc sp sr q F :
  sat h (cin cs (troot sr) sp ++ (z, RbNode (enc (cpar c) col) zr (troot l) (val z)) ::
         (sp, RbNode (enc q sc) (croot cs (troot sr)) 0 (val sp)) :: flat l z ++ cflat c z ++ flat sr sp ++ F) (croot c z) ->
  l <> E -> okp0 q ->
  runs (erase_replace h z (cpar (cs ++ Fr DR col sp l :: c)) sp (troot sr)) (fun '(h', reb) =>
    at_ctx h' (cs ++ Fr DR col sp l :: c) (recolor Black sr) ((z, RbNode (enc (cpar c) col) zr (troot l) (val z)) :: F) /\
    reb = match sr, sc with E, Black => cpar (cs ++ Fr DR col sp l :: c) | _, _ => 0 end).
Proof.
  intros Hs Hl Hq. unfold erase_replace.
  assert (okp z) as Hz by (eapply sat_okp; [exact Hs|in_keys]).
  assert (okp sp) as Hsp by (eapply sat_okp; [exact Hs|in_keys]).
  assert (okp0 (cpar c)) as Hc by (front_cells (cflat c z) Hs; by eapply sat_cpar).
  load h Hs. store sp h Hs. tree_front l Hs.
  eapply runs_bind; [exact (rb_set_parent_tree _ _ _ _ _ sp Hl Hs (or_intror Hz))|]. next h Hs.
  load h Hs. rewrite enc_parent by done. front_cells (cflat c z) Hs.
  eapply runs_bind; [apply (rb_change_child_spec _ _ _ sp _ Hs); in_keys|]. next h Hs.
  pose proof Hs as Hs2. tree_front sr Hs2. pose proof (sat_troot _ _ _ _ _ Hs2) as Hsr. clear Hs2.
  destruct (Z.eqb_spec (troot sr) 0) as [He|He]; simpl.
  - apply Hsr in He as ->. load h Hs. rewrite enc_is_black by done. store sp h Hs. apply runs_Done.
    split; [|by destruct sc]. unfold at_ctx. rewrite cflat_app, croot_app. reshape Hs.
  - destruct sr as [|rc rl rp rr]; [done|]. simpl in *. store sp h Hs. store rp h Hs. apply runs_Done.
    split; [|done]. unfold at_ctx. rewrite cflat_app, croot_app. reshape Hs.
Qed.

(** Removal of a node with two children: its successor, the leftmost node
    [sp] of its right subtree, takes its place. *)
Lemma rb_erase_two fuel h c col l z r F : at_ctx h c (T col l z r) F -> l <> E -> r <> E -> (height r <= fuel)%nat ->
  exists cs sc sp sr, r = plug cs (T sc E sp sr) /\ Forall is_left cs /\
    runs (rb_erase fuel h z) (fun '(h', reb) =>
      at_ctx h' (cs ++ Fr DR col sp l :: c) (recolor Black sr)
        ((z, RbNode (enc (cpar c) col) (troot r) (troot l) (val z)) :: F) /\
      reb = match sr, sc with E, Black => cpar (cs ++ Fr DR col sp l :: c) | _, _ => 0 end).
Proof.
  intros Hs Hl Hr Hf. unfold rb_erase. rewrite (get_at _ _ _ _ _ _ _ Hs). cbn [rbind n_left n_right].
  assert (at_ctx h (Fr DL col z r :: c) l F) as Hsl by (by apply (at_ctx_app _ [_])).
  assert (at_ctx h (Fr DR col z l :: c) r F) as Hsr by (by apply (at_ctx_app _ [_])).
  assert (okp z) as Hz by (by eapply at_okp).
  destruct (Z.eqb_spec (troot l) 0) as [He|_]; [by apply (at_troot _ _ _ _ Hsl) in He|].
  destruct (Z.eqb_spec (troot r) 0) as [He|_]; [by apply (at_troot _ _ _ _ Hsr) in He|].
  destruct r as [|rc rl rp rr]; [done|]. simpl troot. rewrite (get_at _ _ _ _ _ _ _ Hsr). cbn [rbind n_left n_right].
  assert (at_ctx h (Fr DL rc rp rr :: Fr DR col z l :: c) rl F) as Hsrl by (by apply (at_ctx_app _ [_])).
  destruct (Z.eqb_spec (troot rl) 0) as [He|He].
  - apply (at_troot _ _ _ _ Hsrl) in He as ->. exists [], rc, rp, rr. split_and!; [done..|]. cbn [rbind].
    eapply (erase_replace_spec h c col l z rp [] rc rp rr z); [|done|by right].
    unfold at_ctx in Hs. simpl in *. reshape Hs.
  - destruct rl as [|rlc rll rlp rlr]; [done|].
    destruct (successor_loop_spec fuel _ _ _ _ _ _ _ Hsrl) as (cs & sc & sp & sr & Hrl & Hcs & Hloop); [simpl in *; lia|].
    exists (cs ++ [Fr DL rc rp rr]), sc, sp, sr. rewrite plug_app, <- Hrl. split_and!; [done| |].
    { apply Forall_app. split; [done|]. by constructor. }
    change (cpar (Fr DL rc rp rr :: _)) with rp in Hloop. simpl troot in *. rewrite Hloop. cbn [rbind].
    rewrite Hrl in Hsrl. apply at_ctx_app in Hsrl. rewrite (get_at _ _ _ _ _ _ _ Hsrl). cbn [rbind n_right].
    clear Hs Hsl Hsr Hloop. unfold at_ctx in Hsrl. rename Hsrl into Hs.
    set (C := cs ++ Fr DL rc rp rr :: Fr DR col z l :: c) in *.
    assert (okp0 (cpar C)) as HpC by (by eapply sat_cpar).
    assert (set_left h (cpar C) (troot sr) = write_link h (clink C) (troot sr)) as ->.
    { unfold C. destruct cs as [|[[] ? ? ?] cs]; [done|done|]. by apply Forall_cons in Hcs as [[] _]. }
    rewrite ?rbind_assoc. eapply runs_bind; [exact (write_link_spec _ _ _ (troot sr) _ Hs)|]. next h Hs.
    assert (C = (cs ++ [Fr DL rc rp rr]) ++ Fr DR col z l :: c) as HC by (unfold C; by rewrite <- app_assoc).
    rewrite HC, cflat_app, cin_snoc, !croot_app in Hs. simpl in Hs.
    store sp h Hs. front rp Hs. rewrite ?rbind_assoc.
    eapply runs_bind; [exact (rb_set_parent_cell _ _ _ _ _ _ _ _ _ sp Hs (or_intror Hz))|]. next h Hs. cbn [rbind].
    replace (cpar C) with (cpar ((cs ++ [Fr DL rc rp rr]) ++ Fr DR col sp l :: c)) by (unfold C; by destruct cs as [|[]]).
    eapply (erase_replace_spec h c col l z rp (cs ++ [Fr DL rc rp rr]) sc sp sr (cpar C)); [|done|done].
    rewrite <- HC in Hs. rewrite cin_snoc, croot_app. reshape Hs.
Qed.

(** Removal of a node with at most one child: the child takes its place. *)
Lemma rb_erase_one fuel h c col l z r F : at_ctx h c (T col l z r) F -> l = E \/ r = E ->
  runs (rb_erase fuel h z) (fun '(h', reb) =>
    at_ctx h' c (recolor col (match l with E => r | _ => l end))
      ((z, RbNode (enc (cpar c) col) (troot r) (troot l) (val z)) :: F) /\
    reb = match l, r, col with E, E, Black => cpar c | _, _, _ => 0 end).
Proof.
  intros Hs Hlr. unfold rb_erase. rewrite (get_at _ _ _ _ _ _ _ Hs). cbn [rbind n_left n_right n_pc].
  assert (at_ctx h (Fr DL col z r :: c) l F) as Hl by (by apply (at_ctx_app _ [_])).
  assert (at_ctx h (Fr DR col z l :: c) r F) as Hr by (by apply (at_ctx_app _ [_])).
  pose proof (at_troot _ _ _ _ Hl) as Hzl. pose proof (at_troot _ _ _ _ Hr) as Hzr. clear Hl Hr.
  unfold at_ctx in Hs. simpl in Hs.
  assert (okp0 (cpar c)) as Hc by (by eapply sat_cpar). rewrite enc_parent, enc_is_black by done.
  destruct (Z.eqb_spec (troot l) 0) as [He|He].
  - apply Hzl in He as ->. simpl in *.
    eapply runs_bind; [apply (rb_change_child_spec _ _ _ (troot r) _ Hs); in_keys|]. next h Hs.
    destruct (Z.eqb_spec (troot r) 0) as [He|He]; simpl.
    + apply Hzr in He as ->. apply runs_Done. split; [|by destruct col]. unfold at_ctx. reshape Hs.
    + destruct r as [|rc rl rp rr]; [done|]. simpl in *. store rp h Hs. apply runs_Done. split; [|done].
      unfold at_ctx. reshape Hs.
  - destruct Hlr as [->| ->]; [done|].
    destruct l as [|lc ll lp lr]; [done|]. simpl in *. store lp h Hs. front_cells (cflat c z) Hs.
    eapply runs_bind; [apply (rb_change_child_spec _ _ _ lp _ Hs); in_keys|]. next h Hs.
    apply runs_Done. split; [|done]. unfold at_ctx. reshape Hs.
Qed.

Lemma length_height cs t : (length cs + height t <= height (plug cs t))%nat.
Proof.
  revert t. induction cs as [|[[] col p s] cs IH]; intros t; simpl; [lia|..].
  all: match goal with |- context [plug _ ?x] => specialize (IH x) end; simpl in IH; lia.
Qed.

Lemma before_app c1 c2 : before (c1 ++ c2) = before c2 ++ before c1.
Proof. induction c1 as [|[[] col p s] c1 IH]; simpl; [by rewrite app_nil_r|done|]. rewrite IH. by rewrite <- app_assoc. Qed.
Lemma after_app c1 c2 : after (c1 ++ c2) = after c1 ++ after c2.
Proof. induction c1 as [|[[] col p s] c1 IH]; simpl; [done| |done]. rewrite IH. by rewrite <- app_assoc. Qed.

(** What [rb_erase] leaves of a tree at the end of [c]: a red-black tree, or
    one in which a black node is missing at the end of the path [c'], where
    the loop of [rb_erase_color] will start. *)
Definition erase_post (c : ctx) (col : color) (l : tree) (z : Z) (r : tree) (F : list cell) (x : rb_st * Z) : Prop :=
  exists c' t' zn,
    at_ctx x.1 c' t' ((z, zn) :: F) /\ n_value zn = val z /\
    inorder (plug c' t') = before c ++ inorder l ++ inorder r ++ after c /\
    (length c' <= length c + height (T col l z r))%nat /\
    (x.2 = 0 /\ rbt (plug c' t') \/ x.2 = cpar c' /\ c' <> [] /\ t' = E /\ cok c' 1).

Lemma rb_erase_one_spec fuel h c col l z r F n : at_ctx h c (T col l z r) F -> l = E \/ r = E ->
  cok c n -> rb n (T col l z r) -> runs (rb_erase fuel h z) (erase_post c col l z r F).
Proof.
  intros Hs Hlr Hc Ht. eapply runs_mono; [by apply (rb_erase_one fuel _ _ _ _ _ _ _ Hs)|].
  intros [h' reb] [Hs' ->]. exists c. do 2 eexists. split; [exact Hs'|]. split; [done|].
  rewrite inorder_plug, inorder_recolor.
  split; [destruct Hlr as [->| ->]; [done|]; by destruct l; simpl; rewrite ?app_nil_r|]. split; [lia|]. simpl.
  destruct col; simpl in Ht.
  - (* a red node has no child *)
    destruct Ht as (Hbl & Hbr & Hl & Hr).
    assert (n = 0%nat) as -> by (by destruct Hlr as [->| ->]).
    destruct l as [|[] ? ? ?], r as [|[] ? ? ?]; try done. left. split; [done|]. eapply rbt_plug; [exact Hc|done|by left].
  - (* the child of a black node is red *)
    destruct n as [|n]; [done|]. destruct Ht as [Hl Hr].
    assert (n = 0%nat) as -> by (by destruct Hlr as [->| ->]).
    destruct l as [|[] ll lp lr], r as [|[] rl rp rr]; try done.
    + destruct c as [|f c]; [left|by right]. split; [done|]. split; [done|]. by exists 0%nat.
    + left. split; [done|]. eapply rbt_plug; [exact Hc| |by left]. simpl in *. tauto.
    + left. split; [done|]. eapply rbt_plug; [exact Hc| |by left]. simpl in *. tauto.
    + naive_solver.
Qed.

Lemma rb_erase_two_spec fuel h c col l z r F n : at_ctx h c (T col l z r) F -> l <> E -> r <> E -> (height r <= fuel)%nat ->
  cok c n -> rb n (T col l z r) -> black (T col l z r) \/ red_ok c ->
  runs (rb_erase fuel h z) (erase_post c col l z r F).
Proof.
  intros Hs Hl Hr Hf Hc Ht Hfit.
  destruct (rb_erase_two fuel _ _ _ _ _ _ _ Hs Hl Hr Hf) as (cs & sc & sp & sr & -> & Hcs & Hrun).
  eapply runs_mono; [exact Hrun|]. intros [h' reb] [Hs' ->].
  assert (exists m, cok (cs ++ Fr DR col sp l :: c) m /\ rb m (T sc E sp sr)) as (m & Hc' & Hm).
  { pose proof (rbt_plug _ _ _ Hc Ht Hfit) as (Hb & k & Hk).
    destruct (rb_split k (cs ++ Fr DR col z l :: c) (T sc E sp sr)) as (m & Hcm & Hm & _).
    - by rewrite plug_app.
    - by rewrite plug_app.
    - exists m. split; [eapply cok_replace, Hcm|done]. }
  exists (cs ++ Fr DR col sp l :: c), (recolor Black sr). eexists. split; [exact Hs'|]. split; [done|]. split.
  { rewrite inorder_plug, inorder_recolor, before_app, after_app, inorder_plug, (before_left cs) by done.
    simpl. rewrite app_nil_r. seq_eq. }
  split.
  { pose proof (length_height cs (T sc E sp sr)). rewrite length_app. simpl in *. lia. }
  simpl. destruct sc; simpl in Hm.
  - destruct Hm as (_ & Hbr & -> & Hm). destruct sr as [|[] ? ? ?]; [|done..].
    left. split; [done|]. eapply rbt_plug; [exact Hc'|done|by left].
  - destruct m as [|m]; [done|]. destruct Hm as [-> Hm]. destruct sr as [|[] rl rp rr]; [| |done].
    + right. split_and!; [done| |done..]. by destruct cs.
    + left. split; [done|]. eapply rbt_plug; [exact Hc'| |by left]. simpl in *. tauto.
Qed.

Lemma rb_erase_spec fuel h c col l z r F n : at_ctx h c (T col l z r) F -> (height r <= fuel)%nat ->
  cok c n -> rb n (T col l z r) -> black (T col l z r) \/ red_ok c ->
  runs (rb_erase fuel h z) (erase_post c col l z r F).
Proof.
  intros Hs Hf Hc Ht Hfit.
  destruct l as [|lc ll lp lr]; [by eapply rb_erase_one_spec; eauto|].
  destruct r as [|rc rl rp rr]; [by eapply rb_erase_one_spec; eauto|].
  by eapply rb_erase_two_spec.
Qed.

Lemma rb_remove_spec fuel h t F z : holds h t F -> rbt t -> z ∈ inorder t -> (height t <= fuel)%nat ->
  runs (rb_remove fuel h z) (fun h' => exists t' l1 l2, holds h' t' ((z, RbNode 0 0 0 (val z)) :: F) /\ rbt t' /\
    inorder t = l1 ++ z :: l2 /\ inorder t' = l1 ++ l2).
Proof.
  intros Hs (Hb & k & Hk) Hin Hf. destruct (tree_split t z Hin) as (c & col & l & r & ->).
  pose proof (length_height c (T col l z r)) as Hlen.
  destruct (rb_split _ _ _ Hk Hb) as (n & Hc & Hn & Hfit). apply at_ctx_holds in Hs.
  unfold rb_remove. eapply runs_bind.
  { eapply (rb_erase_spec fuel); [exact Hs| |done..]. simpl in *. lia. }
  intros [h1 reb] (c' & t' & zn & Hs1 & Hv & Hi & Hl & Hreb). simpl in Hs1, Hreb. clear h Hs.
  assert (runs (if negb (reb =? 0) then rb_erase_color fuel h1 reb else Done h1)
    (fun h' => exists t2, holds h' t2 ((z, zn) :: F) /\ rbt t2 /\ inorder t2 = inorder (plug c' t'))) as Hrun.
  { destruct Hreb as [[-> Hrb]|(-> & Hne & -> & Hc')].
    - apply runs_Done. exists (plug c' t'). split; [by apply at_ctx_holds|done].
    - destruct (Z.eqb_spec (cpar c') 0) as [He|_].
      + exfalso. destruct c' as [|[d2 col2 p2 s2] c2]; [done|]. simpl in He.
        eapply sat_nonzero; [exact Hs1|apply list_elem_of_here|exact He].
      + simpl. unfold rb_erase_color. change 0 with (troot E). eapply erase_color_loop_spec; try done. lia. }
  eapply runs_bind; [exact Hrun|]. clear h1 Hs1 Hrun. intros h (t2 & Hs & Hrb & Hi2).
  unfold holds in Hs. store z h Hs. store z h Hs. front z Hs.
  eapply runs_mono; [exact (sat_upd _ _ _ _ _ _ Hs)|]. next h Hs.
  exists t2, (before c ++ inorder l), (inorder r ++ after c). split_and!; [|done|..].
  - rewrite Hv in Hs. unfold holds. reshape Hs.
  - rewrite inorder_plug. seq_eq.
  - rewrite Hi2, Hi. seq_eq.
Qed.

(** *** Traversal and search *)

Lemma up_right_spec fuel h c col l p r F : at_ctx h c (T col l p r) F -> (length c < fuel)%nat ->
  up_right fuel h p = Done (hd 0 (after c)).
Proof.
  revert c col l p r. induction fuel as [|fuel IH]; intros c col l p r Hs Hf; [lia|]. simpl.
  assert (okp0 (cpar c)) as Hc by (by eapply sat_cpar).
  rewrite (get_at _ _ _ _ _ _ _ Hs). cbn [rbind]. unfold rb_parent. cbn [n_pc]. rewrite enc_parent by done.
  destruct c as [|[d col2 q s] c]; [done|]. simpl.
  assert (q <> 0) as Hq by (eapply sat_nonzero; [exact Hs|apply list_elem_of_here]).
  rewrite (proj2 (Z.eqb_neq _ _) Hq).
  destruct (get_frame _ _ _ _ _ _ _ _ _ Hs) as (qn & -> & _ & _ & Hlr & _). cbn [rbind]. rewrite Hlr. destruct d.
  - destruct (Z.eqb_spec p (troot s)) as [He|_]; [|done]. exfalso. unfold at_ctx in Hs. simpl in Hs.
    tree_front s Hs. eapply sat_ne_troot; [exact Hs| |exact He]. in_keys.
  - simpl. rewrite Z.eqb_refl. eapply (IH c col2 s q (T col l p r)); [by apply (at_ctx_app _ [Fr DR col2 q s])|].
    simpl in Hf. lia.
Qed.

Lemma up_left_spec fuel h c col l p r F : at_ctx h c (T col l p r) F -> (length c < fuel)%nat ->
  up_left fuel h p = Done (List.last (before c) 0).
Proof.
  revert c col l p r. induction fuel as [|fuel IH]; intros c col l p r Hs Hf; [lia|]. simpl.
  assert (okp0 (cpar c)) as Hc by (by eapply sat_cpar).
  rewrite (get_at _ _ _ _ _ _ _ Hs). cbn [rbind]. unfold rb_parent. cbn [n_pc]. rewrite enc_parent by done.
  destruct c as [|[d col2 q s] c]; [done|]. simpl.
  assert (q <> 0) as Hq by (eapply sat_nonzero; [exact Hs|apply list_elem_of_here]).
  rewrite (proj2 (Z.eqb_neq _ _) Hq).
  destruct (get_frame _ _ _ _ _ _ _ _ _ Hs) as (qn & -> & _ & Hlr & _ & _). cbn [rbind]. rewrite Hlr. destruct d.
  - simpl. rewrite Z.eqb_refl. eapply (IH c col2 (T col l p r) q s); [by apply (at_ctx_app _ [Fr DL col2 q s])|].
    simpl in Hf. lia.
  - destruct (Z.eqb_spec p (troot s)) as [He|_]; [|by rewrite !app_assoc, last_last]. exfalso. unfold at_ctx in Hs. simpl in Hs.
    tree_front s Hs. eapply sat_ne_troot; [exact Hs| |exact He]. in_keys.
Qed.

Lemma holds_NoDup h t F : holds h t F -> NoDup (inorder t).
Proof.
  intros (Hn & _). rewrite fmap_app in Hn. apply NoDup_app in Hn as (Hn & _ & _). by rewrite keys_flat in Hn.
Qed.

(** The path to a node and what is before and after it. *)
Lemma holds_split h t F p l1 l2 : holds h t F -> inorder t = l1 ++ p :: l2 ->
  exists c col l r, t = plug c (T col l p r) /\ at_ctx h c (T col l p r) F /\
    l1 = before c ++ inorder l /\ l2 = inorder r ++ after c.
Proof.
  intros Hs Hi. destruct (tree_split t p) as (c & col & l & r & ->); [rewrite Hi; set_solver|].
  exists c, col, l, r. split; [done|]. split; [by apply at_ctx_holds|].
  pose proof (holds_NoDup _ _ _ Hs) as Hn. rewrite inorder_plug in *. simpl in *.
  rewrite <- app_assoc in *. simpl in *. rewrite (app_assoc (before c)) in *.
  destruct (split_unique _ _ _ _ _ Hn Hi) as [-> ->]. done.
Qed.

Lemma rb_first_node_spec fuel h t F : holds h t F -> (height t <= fuel)%nat ->
  rb_first_node fuel h = Done (hd 0 (inorder t)).
Proof.
  intros Hs Hf. unfold rb_first_node. pose proof Hs as (_ & _ & _ & ->).
  apply (at_ctx_holds _ []) in Hs. pose proof (at_troot _ _ _ _ Hs) as Hz.
  destruct (Z.eqb_spec (troot t) 0) as [He|He]; [by apply Hz in He as ->|].
  destruct t as [|col l p r]; [done|].
  destruct (go_left_spec fuel _ _ _ _ _ _ _ Hs Hf) as (cs & sc & sp & sr & Ht & Hl & Hg).
  cbn [troot]. by rewrite Hg, Ht, inorder_plug, before_left.
Qed.

Lemma rb_next_node_spec fuel h t F p l1 l2 : holds h t F -> inorder t = l1 ++ p :: l2 -> (height t <= fuel)%nat ->
  rb_next_node fuel h p = Done (hd 0 l2).
Proof.
  intros Hs Hi Hf. destruct (holds_split _ _ _ _ _ _ Hs Hi) as (c & col & l & r & -> & Hat & _ & ->).
  pose proof (length_height c (T col l p r)) as Hlen. simpl in Hlen.
  unfold rb_next_node. rewrite (get_at _ _ _ _ _ _ _ Hat). cbn [rbind n_right].
  assert (at_ctx h (Fr DR col p l :: c) r F) as Hr by (by apply (at_ctx_app _ [_])).
  pose proof (at_troot _ _ _ _ Hr) as Hz. destruct (Z.eqb_spec (troot r) 0) as [He|He]; simpl.
  - apply Hz in He as ->. eapply up_right_spec; [exact Hat|lia].
  - destruct r as [|rc rl rp rr]; [done|].
    destruct (go_left_spec fuel _ _ _ _ _ _ _ Hr) as (cs & sc & sp & sr & Ht & Hl & Hg); [simpl in *; lia|].
    cbn [troot]. by rewrite Hg, Ht, inorder_plug, before_left.
Qed.

Lemma rb_prev_node_spec fuel h t F p l1 l2 : holds h t F -> inorder t = l1 ++ p :: l2 -> (height t <= fuel)%nat ->
  rb_prev_node fuel h p = Done (List.last l1 0).
Proof.
  intros Hs Hi Hf. destruct (holds_split _ _ _ _ _ _ Hs Hi) as (c & col & l & r & -> & Hat & -> & _).
  pose proof (length_height c (T col l p r)) as Hlen. simpl in Hlen.
  unfold rb_prev_node. rewrite (get_at _ _ _ _ _ _ _ Hat). cbn [rbind n_left].
  assert (at_ctx h (Fr DL col p r :: c) l F) as Hl by (by apply (at_ctx_app _ [_])).
  pose proof (at_troot _ _ _ _ Hl) as Hz. destruct (Z.eqb_spec (troot l) 0) as [He|He]; simpl.
  - apply Hz in He as ->. simpl. rewrite app_nil_r. eapply up_left_spec; [exact Hat|lia].
  - destruct l as [|lc ll lp lr]; [done|].
    destruct (go_right_spec fuel _ _ _ _ _ _ _ Hl) as (cs & sc & sl & sp & Ht & Hr & Hg); [simpl in *; lia|].
    cbn [troot]. rewrite Hg, Ht, inorder_plug, after_right by done. simpl. by rewrite app_nil_r, !app_assoc, last_last.
Qed.

Lemma holds_nonzero h t F p : holds h t F -> p ∈ inorder t -> p <> 0.
Proof.
  intros Hs Hin. eapply sat_nonzero; [exact Hs|]. rewrite fmap_app, keys_flat. set_solver.
Qed.

Lemma foreach_from_spec rounds fuel h t F l1 l2 : holds h t F -> inorder t = l1 ++ l2 -> (height t <= fuel)%nat ->
  (length l2 < rounds)%nat -> foreach_from rounds fuel h (hd 0 l2) = Done l2.
Proof.
  intros Hs Hi Hf. revert l1 l2 Hi. induction rounds as [|rounds IH]; intros l1 l2 Hi Hr; [lia|].
  destruct l2 as [|p l2]; [done|]. simpl.
  rewrite (proj2 (Z.eqb_neq p 0)) by (eapply holds_nonzero; [exact Hs|]; rewrite Hi; set_solver).
  rewrite (rb_next_node_spec _ _ _ _ _ _ _ Hs Hi Hf). cbn [rbind].
  rewrite (IH (l1 ++ [p]) l2); [done| |simpl in Hr; lia]. by rewrite <- app_assoc.
Qed.

Lemma rb_foreach_spec fuel h t F : holds h t F -> (tsize t < fuel)%nat -> rb_foreach fuel h = Done (inorder t).
Proof.
  intros Hs Hf. pose proof (height_size t). unfold rb_foreach.
  rewrite (rb_first_node_spec _ _ _ _ Hs) by lia. cbn [rbind].
  apply (foreach_from_spec _ _ _ _ _ [] _ Hs); [done|lia|]. by rewrite length_inorder.
Qed.

(** The search as a descent in the tree. *)
Fixpoint tsearch {A} (code : A -> Z -> A * verdict) (a : A) (t : tree) : A :=
  match t with
  | E => a
  | T _ l p r =>
      match code a (val p) with
      | (a, GoLeft) => tsearch code a l
      | (a, GoRight) => tsearch code a r
      | (a, Leave) => a
      end
  end.

Lemma rb_search_spec {A} fuel h t F (code : A -> Z -> A * verdict) a : holds h t F -> (height t < fuel)%nat ->
  rb_search fuel h code a = Done (tsearch code a t).
Proof.
  intros Hs Hf. unfold rb_search. pose proof Hs as (_ & _ & _ & ->). apply (at_ctx_holds _ []) in Hs.
  revert Hs Hf. generalize (@nil frame). revert a t. induction fuel as [|fuel IH]; intros a t c Hs Hf; [lia|].
  simpl. pose proof (at_troot _ _ _ _ Hs) as Hz. destruct (Z.eqb_spec (troot t) 0) as [He|He]; [by apply Hz in He as ->|].
  destruct t as [|col l p r]; [done|]. cbn [troot]. rewrite (get_at _ _ _ _ _ _ _ Hs). cbn [rbind n_value n_left n_right].
  simpl in *. destruct (code a (val p)) as [a' []]; [| |done].
  - apply (IH a' l (Fr DL col p r :: c)); [by apply (at_ctx_app _ [_])|lia].
  - apply (IH a' r (Fr DR col p l :: c)); [by apply (at_ctx_app _ [_])|lia].
Qed.

(** *** Postorder *)

Lemma left_deepest_spec fuel h c col l p r F : at_ctx h c (T col l p r) F -> (height (T col l p r) <= fuel)%nat ->
  __rb_left_deepest_node fuel h p = Done (hd 0 (postorder (T col l p r))).
Proof.
  revert c col l p r. induction fuel as [|fuel IH]; intros c col l p r Hs Hf; [simpl in Hf; lia|].
  simpl. rewrite (get_at _ _ _ _ _ _ _ Hs). cbn [rbind n_left n_right].
  assert (at_ctx h (Fr DL col p r :: c) l F) as Hl by (by apply (at_ctx_app _ [_])).
  assert (at_ctx h (Fr DR col p l :: c) r F) as Hr by (by apply (at_ctx_app _ [_])).
  pose proof (at_troot _ _ _ _ Hl) as Hzl. pose proof (at_troot _ _ _ _ Hr) as Hzr.
  destruct (Z.eqb_spec (troot l) 0) as [He|He]; simpl.
  - apply Hzl in He as ->. destruct (Z.eqb_spec (troot r) 0) as [He|He]; simpl; [by apply Hzr in He as ->|].
    destruct r as [|rc rl rp rr]; [done|]. cbn [troot]. rewrite (IH _ _ _ _ _ Hr) by (simpl in *; lia).
    f_equal. exact (eq_sym (hd_app _ _ (postorder_cons rc rl rp rr))).
  - destruct l as [|lc ll lp lr]; [done|]. cbn [troot]. rewrite (IH _ _ _ _ _ Hl) by (simpl in *; lia).
    f_equal. exact (eq_sym (hd_app _ _ (postorder_cons lc ll lp lr))).
Qed.

Lemma rb_next_postorder_spec fuel h t F p l1 l2 : holds h t F -> postorder t = l1 ++ p :: l2 -> (height t <= fuel)%nat ->
  rb_next_postorder fuel h p = Done (hd 0 l2).
Proof.
  intros Hs Hi Hf.
  assert (p ∈ inorder t) as Hin by (rewrite <- postorder_inorder, Hi; set_solver).
  unfold rb_next_postorder. rewrite (proj2 (Z.eqb_neq p 0)) by (by eapply holds_nonzero).
  pose proof (holds_NoDup _ _ _ Hs) as Hn. rewrite <- postorder_inorder in Hn.
  destruct (tree_split t p Hin) as (c & col & l & r & ->). apply at_ctx_holds in Hs.
  assert (l2 = post_after c) as ->.
  { rewrite postorder_plug in Hi, Hn. simpl in Hi, Hn. rewrite <- !app_assoc in Hi, Hn. simpl in Hi, Hn.
    rewrite (app_assoc (postorder l)), (app_assoc (post_before c)) in Hi, Hn.
    by destruct (split_unique _ _ _ _ _ Hn Hi). }
  assert (okp0 (cpar c)) as Hc by (by eapply sat_cpar).
  rewrite (get_at _ _ _ _ _ _ _ Hs). cbn [rbind]. unfold rb_parent. cbn [n_pc]. rewrite enc_parent by done.
  destruct c as [|[d col2 q s] c]; [done|]. simpl.
  assert (q <> 0) as Hq by (eapply sat_nonzero; [exact Hs|apply list_elem_of_here]).
  rewrite (proj2 (Z.eqb_neq _ _) Hq).
  destruct (get_frame _ _ _ _ _ _ _ _ _ Hs) as (qn & -> & _ & Hl & Hr & _). cbn [rbind]. rewrite Hl, Hr. destruct d.
  - simpl. rewrite Z.eqb_refl. simpl.
    assert (at_ctx h (Fr DR col2 q (T col l p r) :: c) s F) as Hss.
    { apply (at_ctx_app _ [_]). by apply (at_ctx_app _ [Fr DL col2 q s]) in Hs. }
    pose proof (at_troot _ _ _ _ Hss) as Hz. destruct (Z.eqb_spec (troot s) 0) as [He|He]; simpl; [by apply Hz in He as ->|].
    destruct s as [|sc sl sp sr]; [done|]. cbn [troot]. rewrite (left_deepest_spec _ _ _ _ _ _ _ _ Hss).
    + f_equal. exact (eq_sym (hd_app _ _ (postorder_cons sc sl sp sr))).
    + pose proof (length_height c (T col2 (T col l p r) q (T sc sl sp sr))). simpl in *. lia.
  - destruct (Z.eqb_spec p (troot s)) as [He|_]; [|done]. exfalso. unfold at_ctx in Hs. simpl in Hs.
    tree_front s Hs. eapply sat_ne_troot; [exact Hs| |exact He]. in_keys.
Qed.

Lemma postorder_from_spec rounds fuel h t F l1 l2 : holds h t F -> postorder t = l1 ++ l2 -> (height t <= fuel)%nat ->
  (length l2 < rounds)%nat -> postorder_from rounds fuel h (hd 0 l2) = Done l2.
Proof.
  intros Hs Hi Hf. revert l1 l2 Hi. induction rounds as [|rounds IH]; intros l1 l2 Hi Hr; [lia|].
  destruct l2 as [|p l2]; [done|]. simpl.
  rewrite (proj2 (Z.eqb_neq p 0)) by (eapply holds_nonzero; [exact Hs|]; rewrite <- postorder_inorder, Hi; set_solver).
  rewrite (rb_next_postorder_spec _ _ _ _ _ _ _ Hs Hi Hf). cbn [rbind].
  rewrite (IH (l1 ++ [p]) l2); [done| |simpl in Hr; lia]. by rewrite <- app_assoc.
Qed.

Lemma rb_foreach_postorder_spec fuel h t F : holds h t F -> (tsize t < fuel)%nat ->
  rb_foreach_postorder fuel h = Done (postorder t).
Proof.
  intros Hs Hf. pose proof (height_size t). unfold rb_foreach_postorder, rb_postorder_first.
  pose proof Hs as (_ & _ & _ & ->).
  assert ((if troot t =? 0 then Done 0 else __rb_left_deepest_node fuel h (troot t)) = Done (hd 0 (postorder t))) as ->.
  { pose proof Hs as Hat. apply (at_ctx_holds _ []) in Hat. pose proof (at_troot _ _ _ _ Hat) as Hz.
    destruct (Z.eqb_spec (troot t) 0) as [He|He]; [by apply Hz in He as ->|]. destruct t as [|col l p r]; [done|].
    apply (left_deepest_spec _ _ _ _ _ _ _ _ Hat). lia. }
  cbn [rbind]. apply (postorder_from_spec _ _ _ _ _ [] _ Hs); [done|lia|].
  rewrite postorder_inorder, length_inorder. lia.
Qed.
End Cells.

(** ** The operations *)

(** C5: Inserting a node into a red-black tree, with code that sends it to the
    right of the nodes [l1] and to the left of the nodes [l2] behind them:
    within logarithmically many rounds of both loops the node is between them,
    and the tree is a red-black tree again.  All other nodes of the heap, [F],
    are as before. *)
Theorem rb_insert_correct val fuel h t F node pc code l1 l2 :
  holds val h t ((node, RbNode pc 0 0 (val node)) :: F) -> __rb_parent pc = 0 -> rbt t -> inorder t = l1 ++ l2 ->
  Forall (fun p => code (val p) = false) l1 -> Forall (fun p => code (val p) = true) l2 ->
  (2 * Nat.log2 (tsize t + 1) < fuel)%nat ->
  exists h' t', rb_insert fuel h code node = Done h' /\ holds val h' t' F /\ rbt t' /\ inorder t' = l1 ++ node :: l2.
Proof.
  intros Hs Hpc Ht Hi H1 H2 Hf. pose proof (rbt_height t Ht) as Hh.
  destruct (rb_insert_spec val fuel h t F node pc code Hs Hpc Ht) as (h' & Hr & t' & Hs' & Ht' & Hi'); [lia|].
  exists h', t'. split_and!; [done..|]. rewrite Hi'.
  destruct (ins_ctx_split val code t [] l1 l2 Hi H1 H2) as [-> ->]. simpl. by rewrite app_nil_r.
Qed.

(** C6: Removing a node: it leaves the sequence and is empty, the tree is a
    red-black tree again, and nothing else changes.  Both loops end within
    logarithmically many rounds. *)
Theorem rb_remove_correct val fuel h t F z l1 l2 :
  holds val h t F -> rbt t -> inorder t = l1 ++ z :: l2 -> (2 * Nat.log2 (tsize t + 1) <= fuel)%nat ->
  exists h' t', rb_remove fuel h z = Done h' /\ holds val h' t' ((z, RbNode 0 0 0 (val z)) :: F) /\ rbt t' /\
    inorder t' = l1 ++ l2.
Proof.
  intros Hs Ht Hi Hf. pose proof (rbt_height t Ht) as Hh.
  destruct (rb_remove_spec val fuel h t F z Hs Ht) as (h' & Hr & t' & k1 & k2 & Hs' & Ht' & Hi1 & Hi2).
  - rewrite Hi. set_solver.
  - lia.
  - exists h', t'. split_and!; [done..|]. rewrite Hi2. pose proof (holds_NoDup _ _ _ _ Hs) as Hn.
    rewrite Hi in Hn, Hi1. by destruct (split_unique _ _ _ _ _ Hn Hi1) as [-> ->].
Qed.

(** The iterators visit the nodes in order: rb_foreach gives the sequence,
    rb_next and rb_prev its neighbours and the null pointer at its ends, and
    the postorder iteration visits every node once, children first. *)
Theorem rb_iteration val fuel h t F : holds val h t F -> (tsize t < fuel)%nat ->
  rb_foreach fuel h = Done (inorder t) /\ rb_foreach_postorder fuel h = Done (postorder t) /\
  (forall l1 p l2, inorder t = l1 ++ p :: l2 ->
    rb_next_node fuel h p = Done (hd 0 l2) /\ rb_prev_node fuel h p = Done (List.last l1 0)).
Proof.
  intros Hs Hf. pose proof (height_size t). split_and!.
  - by eapply rb_foreach_spec.
  - by eapply rb_foreach_postorder_spec.
  - intros l1 p l2 Hi. split; [eapply rb_next_node_spec|eapply rb_prev_node_spec]; eauto; lia.
Qed.

(** The search of the usage example in rbtree.h: leave at the entry with the
    key [i], go left when [i] is smaller. *)
Definition find_code (key : Z -> Z) (i : Z) (out cur : Z) : Z * verdict :=
  if key cur =? i then (cur, Leave) else if i <? key cur then (out, GoLeft) else (out, GoRight).

Lemma tsearch_find val key i t : StronglySorted (fun p q => key (val p) < key (val q)) (inorder t) ->
  (forall p, p ∈ inorder t -> key (val p) = i -> tsearch val (find_code key i) 0 t = val p) /\
  ((forall p, p ∈ inorder t -> key (val p) <> i) -> tsearch val (find_code key i) 0 t = 0).
Proof.
  induction t as [|c l IHl p r IHr]; simpl; [split; [by intros p ?%elem_of_nil|done]|].
  intros (Hlt & Hl & Hr)%StronglySorted_app. inversion Hr as [|? ? Hr' HF]; subst. rewrite Forall_forall in HF.
  specialize (IHl Hl). specialize (IHr Hr').
  change (find_code key i 0 (val p)) with
    (if key (val p) =? i then (val p, Leave) else if i <? key (val p) then (0, GoLeft) else (0, GoRight)).
  assert (forall q, q ∈ inorder l -> key (val q) < key (val p)) as Hl' by (intros q Hq; apply Hlt; set_solver).
  destruct (Z.eqb_spec (key (val p)) i) as [He|He]; [|destruct (Z.ltb_spec i (key (val p)))].
  - split; [|intros Hno; exfalso; apply (Hno p); [set_solver|done]].
    intros q [Hq|[->|Hq]%elem_of_cons]%elem_of_app Hi; [|done|]; exfalso; [specialize (Hl' q Hq)|specialize (HF q Hq)]; lia.
  - split; [|intros Hno; apply IHl; intros q Hq; apply Hno; set_solver].
    intros q [Hq|[->|Hq]%elem_of_cons]%elem_of_app Hi; [by apply IHl|done|]. specialize (HF q Hq). lia.
  - split; [|intros Hno; apply IHr; intros q Hq; apply Hno; set_solver].
    intros q [Hq|[->|Hq]%elem_of_cons]%elem_of_app Hi; [|done|by apply IHr]. specialize (Hl' q Hq). lia.
Qed.

(** Searching a red-black tree sorted by a key is the same as looking through
    the sequence, and takes logarithmically many rounds. *)
Theorem rb_search_logarithmic val fuel h t F key i : holds val h t F -> rbt t ->
  StronglySorted (fun p q => key (val p) < key (val q)) (inorder t) ->
  (2 * Nat.log2 (tsize t + 1) < fuel)%nat ->
  exists v, rb_search fuel h (find_code key i) 0 = Done v /\
    ((exists p, p ∈ inorder t /\ key (val p) = i /\ v = val p) \/
     (v = 0 /\ forall p, p ∈ inorder t -> key (val p) <> i)).
Proof.
  intros Hs Ht Hsort Hf. pose proof (rbt_height t Ht) as Hh. eexists. split; [eapply rb_search_spec; [exact Hs|lia]|].
  destruct (tsearch_find val key i t Hsort) as [Hy Hn].
  destruct (decide (Exists (fun p => key (val p) = i) (inorder t))) as [(p & Hp & Hi)%Exists_exists|Hno].
  - left. exists p. auto.
  - right. assert (forall p, p ∈ inorder t -> key (val p) <> i) as Hne.
    { intros p Hp Hi. apply Hno, Exists_exists. eauto. }
    auto.
Qed.

(** *** A tree of four nodes and one that is not in it *)

Definition demo_val (p : Z) : Z := p / 2.
Definition demo_cells : list cell :=
  [(8, RbNode 1 16 4 4); (4, RbNode 9 0 0 2); (16, RbNode 9 20 0 8); (20, RbNode 16 0 0 10); (12, RbNode 0 0 0 6)].
Definition demo : rb_st := RbSt (list_to_map demo_cells) 8.
Definition demo_tree : tree := T Black (T Black E 4 E) 8 (T Black E 16 (T Red E 20 E)).

Lemma demo_holds : holds demo_val demo demo_tree [(12, RbNode 0 0 0 (demo_val 12))].
Proof.
  split_and!; [| |reflexivity|reflexivity].
  - change (NoDup [8; 4; 16; 20; 12]). apply (bool_decide_unpack _). by vm_compute.
  - repeat (constructor; [split; [split|]; reflexivity|]). constructor.
Qed.
Lemma demo_rbt : rbt demo_tree.
Proof. split; [done|]. exists 2%nat. by repeat split. Qed.

Lemma rb_insert_correct_witness : exists h' t', rb_insert 10 demo (fun v => 6 <? v) 12 = Done h' /\
  holds demo_val h' t' [] /\ rbt t' /\ inorder t' = [4; 8] ++ 12 :: [16; 20].
Proof.
  apply (rb_insert_correct demo_val 10 demo demo_tree [] 12 0 (fun v => 6 <? v) [4; 8] [16; 20]).
  - exact demo_holds.
  - reflexivity.
  - exact demo_rbt.
  - reflexivity.
  - repeat constructor.
  - repeat constructor.
  - vm_compute. lia.
Defined.

Lemma rb_remove_correct_witness : exists h' t', rb_remove 10 demo 4 = Done h' /\
  holds demo_val h' t' [(4, RbNode 0 0 0 (demo_val 4)); (12, RbNode 0 0 0 (demo_val 12))] /\ rbt t' /\ inorder t' = [8; 16; 20].
Proof.
  apply (rb_remove_correct demo_val 10 demo demo_tree _ 4 [] [8; 16; 20]).
  - exact demo_holds.
  - exact demo_rbt.
  - reflexivity.
  - vm_compute. lia.
Defined.

Lemma rb_iteration_witness : rb_foreach 10 demo = Done [4; 8; 16; 20] /\ rb_foreach_postorder 10 demo = Done [4; 20; 16; 8] /\
  (forall l1 p l2, inorder demo_tree = l1 ++ p :: l2 ->
    rb_next_node 10 demo p = Done (hd 0 l2) /\ rb_prev_node 10 demo p = Done (List.last l1 0)).
Proof. apply (rb_iteration demo_val 10 demo demo_tree _ demo_holds). vm_compute. lia. Defined.

Lemma rb_search_logarithmic_witness : exists v, rb_search 10 demo (find_code id 8) 0 = Done v /\
  ((exists p, p ∈ inorder demo_tree /\ id (demo_val p) = 8 /\ v = demo_val p) \/
   (v = 0 /\ forall p, p ∈ inorder demo_tree -> id (demo_val p) <> 8)).
Proof.
  apply (rb_search_logarithmic demo_val 10 demo demo_tree _ id 8 demo_holds demo_rbt).
  - repeat constructor.
  - vm_compute. lia.
Defined.
