(* ===== verification/Strings.v ===== *)
(** * lib/mem*.c and lib/str*.c: memory and strings

    The memory is a map from addresses to bytes; an access to an address that
    is not in it is a [Fault].  An object does not wrap around the end of the
    address space, so addresses are plain numbers.  A 32-bit access moves four
    bytes at once: all are read before the first is written, which is what
    makes overlapping copies interesting.

    The loops over strings have no bound in the code.  Each step reads a new
    address, so after as many steps as there are bytes in the memory the loop
    has ended or faulted: [S (size m)] steps are enough.

    [blit m d bs] is the reference: the memory [m] with the bytes [bs] at [d].
    The theorems say that the copies, with their word loops and directions,
    are [blit] of what was at the source before, and relate the searches and
    comparisons to lists. *)
From stdpp Require Import base gmap list list_numbers fin_map_dom gmap.
From Stdlib Require Import ZArith Lia.
From S2P Require Import Prelude.
Open Scope Z_scope.

Abbreviation bmem := (gmap Z Z).

(** ** Accesses *)

Definition ld (m : bmem) (p : Z) : res Z := deref (m !! p).
Definition st (m : bmem) (p v : Z) : res bmem :=
  match m !! p with Some _ => Done (<[p := v]> m) | None => Fault end.

Fixpoint ldn (m : bmem) (p : Z) (n : nat) : res (list Z) :=
  match n with
  | O => Done []
  | S n => let* b := ld m p in let* bs := ldn m (p + 1) n in Done (b :: bs)
  end.
Fixpoint stn (m : bmem) (p : Z) (bs : list Z) : res bmem :=
  match bs with
  | [] => Done m
  | b :: bs => let* m := st m p b in stn m (p + 1) bs
  end.

(** A [char] is signed. *)
Definition s8 (x : Z) : Z := if x <? 128 then x else x - 256.

(** ** memcpy.c and memmove.c *)

(** The loops [while(len >= 4) *dst32++ = *src32++] and
    [while(len--) *dst8++ = *src8++]. *)
Fixpoint copy_words (len : nat) (m : bmem) (d s : Z) : res (bmem * Z * Z * nat) :=
  match len with
  | S (S (S (S l))) =>
      let* w := ldn m s 4 in let* m := stn m d w in copy_words l m (d + 4) (s + 4)
  | _ => Done (m, d, s, len)
  end.
Fixpoint copy_bytes (len : nat) (m : bmem) (d s : Z) : res bmem :=
  match len with
  | O => Done m
  | S len => let* b := ld m s in let* m := st m d b in copy_bytes len m (d + 1) (s + 1)
  end.

Definition memcpy (m : bmem) (dst src : Z) (len : nat) : res (bmem * Z) :=
  let* '(m, d, s, len) :=
    if ALIGNED 32 src 4 && ALIGNED 32 dst 4 then copy_words len m dst src
    else Done (m, dst, src, len) in
  let* m := copy_bytes len m d s in
  Done (m, dst).

(** Upwards until [d] is aligned; the flag tells that [n] ran out. *)
Fixpoint align_up (n : nat) (m : bmem) (d s : Z) : res (bmem * Z * Z * nat * bool) :=
  if d mod 4 =? 0 then Done (m, d, s, n, false) else
  match n with
  | O => Done (m, d, s, O, true)
  | S n => let* b := ld m s in let* m := st m d b in align_up n m (d + 1) (s + 1)
  end.

(** The loops that work downwards from the end. *)
Fixpoint align_down (n : nat) (m : bmem) (d s : Z) : res (bmem * nat * bool) :=
  if (d + Z.of_nat n) mod 4 =? 0 then Done (m, n, false) else
  match n with
  | O => Done (m, O, true)
  | S n => let* b := ld m (s + Z.of_nat n) in let* m := st m (d + Z.of_nat n) b in
           align_down n m d s
  end.
Fixpoint words_down (n : nat) (m : bmem) (d s : Z) : res (bmem * nat) :=
  match n with
  | S (S (S (S l))) =>
      let* w := ldn m (s + Z.of_nat l) 4 in let* m := stn m (d + Z.of_nat l) w in
      words_down l m d s
  | _ => Done (m, n)
  end.
Fixpoint bytes_down (n : nat) (m : bmem) (d s : Z) : res bmem :=
  match n with
  | O => Done m
  | S n => let* b := ld m (s + Z.of_nat n) in let* m := st m (d + Z.of_nat n) b in
           bytes_down n m d s
  end.

Definition memmove (m : bmem) (d s : Z) (n : nat) : res (bmem * Z) :=
  if d =? s then Done (m, d) else
  if (s + Z.of_nat n <=? d) || (d + Z.of_nat n <=? s) then memcpy m d s n else
  if d <? s then
    if s mod 4 =? d mod 4 then
      let* '(m, d', s', n, out) := align_up n m d s in
      if out : bool then Done (m, d) else
      let* '(m, d', s', n) := copy_words n m d' s' in
      let* m := copy_bytes n m d' s' in
      Done (m, d)
    else let* m := copy_bytes n m d s in Done (m, d)
  else
    if s mod 4 =? d mod 4 then
      let* '(m, n, out) := align_down n m d s in
      if out : bool then Done (m, d) else
      let* '(m, n) := words_down n m d s in
      let* m := bytes_down n m d s in
      Done (m, d)
    else let* m := bytes_down n m d s in Done (m, d).

(** ** memset.c, memcmp.c, memchr.c *)

Fixpoint memset_loop (n : nat) (m : bmem) (p c : Z) : res bmem :=
  match n with
  | O => Done m
  | S n => let* m := st m p (u8 c) in memset_loop n m (p + 1) c
  end.
Definition memset (m : bmem) (ptr c : Z) (n : nat) : res (bmem * Z) :=
  let* m := memset_loop n m ptr c in Done (m, ptr).

Fixpoint memcmp (m : bmem) (p1 p2 : Z) (n : nat) : res Z :=
  match n with
  | O => Done 0
  | S n =>
      let* a := ld m p1 in let* b := ld m p2 in
      if a >? b then Done 1 else if a <? b then Done (-1) else memcmp m (p1 + 1) (p2 + 1) n
  end.

(** [None] is NULL. *)
Fixpoint memchr (m : bmem) (p value : Z) (n : nat) : res (option Z) :=
  match n with
  | O => Done None
  | S n => let* b := ld m p in
           if b =? u8 value then Done (Some p) else memchr m (p + 1) value n
  end.
Fixpoint memrchr (m : bmem) (s c : Z) (n : nat) : res (option Z) :=
  match n with
  | O => Done None
  | S n => let* b := ld m (s + Z.of_nat n) in
           if b =? u8 c then Done (Some (s + Z.of_nat n)) else memrchr m s c n
  end.

(** ** strlen.c, strchr.c, strcmp.c, strcasecmp.c *)

Fixpoint strlen_loop (fuel : nat) (m : bmem) (s n : Z) : res Z :=
  match fuel with
  | O => Stuck
  | S fuel => let* c := ld m (s + n) in
              if c =? 0 then Done n else strlen_loop fuel m s (n + 1)
  end.
Definition strlen (m : bmem) (str : Z) : res Z := strlen_loop (S (size m)) m str 0.

Fixpoint strnlen_loop (max : nat) (m : bmem) (s n : Z) : res Z :=
  match max with
  | O => Done n
  | S max => let* c := ld m (s + n) in
             if c =? 0 then Done n else strnlen_loop max m s (n + 1)
  end.
Definition strnlen (m : bmem) (s : Z) (max : nat) : res Z :=
  kassert negb (Nat.eqb max 0) in strnlen_loop max m s 0.

Fixpoint strchr_loop (fuel : nat) (m : bmem) (s c : Z) : res (option Z) :=
  match fuel with
  | O => Stuck
  | S fuel => let* b := ld m s in
              if b =? 0 then Done None else
              if s8 b =? c then Done (Some s) else strchr_loop fuel m (s + 1) c
  end.
Definition strchr (m : bmem) (s c : Z) : res (option Z) := strchr_loop (S (size m)) m s c.

(** [for(; i >= 0; i--)], with [i + 1] steps left. *)
Fixpoint strrchr_loop (n : nat) (m : bmem) (str c : Z) : res (option Z) :=
  match n with
  | O => Done None
  | S i => let* b := ld m (str + Z.of_nat i) in
           if s8 b =? c then Done (Some (str + Z.of_nat i)) else strrchr_loop i m str c
  end.
Definition strrchr (m : bmem) (str c : Z) : res (option Z) :=
  let* i := strlen m str in strrchr_loop (Z.to_nat (i + 1)) m str c.

Fixpoint strcmp_loop (fuel : nat) (m : bmem) (s1 s2 : Z) : res Z :=
  match fuel with
  | O => Stuck
  | S fuel =>
      let* a := ld m s1 in let* b := ld m s2 in
      if a =? b then if a =? 0 then Done 0 else strcmp_loop fuel m (s1 + 1) (s2 + 1)
      else Done (if a <? b then -1 else 1)
  end.
Definition strcmp (m : bmem) (s1 s2 : Z) : res Z := strcmp_loop (S (size m)) m s1 s2.

Definition isupper (c : Z) : bool := (65 <=? c) && (c <=? 90).
Definition tolower (c : Z) : Z := if isupper c then c + 97 - 65 else c.

Fixpoint strcasecmp_loop (fuel : nat) (m : bmem) (s1 s2 : Z) : res Z :=
  match fuel with
  | O => Stuck
  | S fuel =>
      let* a := ld m s1 in let* b := ld m s2 in
      let c1 := tolower (s8 a) in let c2 := tolower (s8 b) in
      if (c1 =? c2) && negb (c1 =? 0) then strcasecmp_loop fuel m (s1 + 1) (s2 + 1)
      else Done (c1 - c2)
  end.
Definition strcasecmp (m : bmem) (s1 s2 : Z) : res Z := strcasecmp_loop (S (size m)) m s1 s2.

(** The [continue] for equal bytes jumps to the loop condition. *)
Fixpoint strncasecmp_loop (max : nat) (m : bmem) (s1 s2 : Z) : res Z :=
  let* a := ld m s1 in let* b := ld m s2 in
  let next c1 c2 := match max with
    | S (S _ as max) => strncasecmp_loop max m (s1 + 1) (s2 + 1)
    | _ => Done (c1 - c2)
    end in
  if a =? b then next a b else
  let c1 := tolower a in let c2 := tolower b in
  if negb (c1 =? c2) then Done (c1 - c2) else next c1 c2.
Definition strncasecmp (m : bmem) (s1 s2 : Z) (max : nat) : res Z :=
  kassert negb (Nat.eqb max 0) in strncasecmp_loop max m s1 s2.

(** ** strcpy.c, strcat.c, strreverse.c *)

(** [while(( *dest++ = *src++) != 0)] *)
Fixpoint strcpy_loop (fuel : nat) (m : bmem) (d s : Z) : res bmem :=
  match fuel with
  | O => Stuck
  | S fuel => let* c := ld m s in let* m := st m d c in
              if c =? 0 then Done m else strcpy_loop fuel m (d + 1) (s + 1)
  end.
Definition strcpy (m : bmem) (dest src : Z) : res (bmem * Z) :=
  let* m := strcpy_loop (S (size m)) m dest src in Done (m, dest).

(** [while(--n > 0 && ( *dst++ = *s++) != '\0')]: the counter, the destination
    and the source behind the loop. *)
Fixpoint strlcpy_loop (n : nat) (m : bmem) (d s : Z) : res (bmem * nat * Z * Z) :=
  match n with
  | S (S _ as n) =>
      let* c := ld m s in let* m := st m d c in
      if c =? 0 then Done (m, n, d + 1, s + 1) else strlcpy_loop n m (d + 1) (s + 1)
  | _ => Done (m, O, d, s)
  end.
(** [while( *s++)] *)
Fixpoint skip_loop (fuel : nat) (m : bmem) (s : Z) : res Z :=
  match fuel with
  | O => Stuck
  | S fuel => let* c := ld m s in if c =? 0 then Done (s + 1) else skip_loop fuel m (s + 1)
  end.
Definition strlcpy (m : bmem) (dst src : Z) (max : nat) : res (bmem * Z) :=
  kassert negb (Nat.eqb max 0) in
  let* '(m, n, d, s) := strlcpy_loop max m dst src in
  if Nat.eqb n 0 then
    let* m := st m d 0 in
    let* s := skip_loop (S (size m)) m s in
    Done (m, s - src - 1)
  else Done (m, s - src - 1).

(** [while( *dst) dst++] *)
Fixpoint end_loop (fuel : nat) (m : bmem) (d : Z) : res Z :=
  match fuel with
  | O => Stuck
  | S fuel => let* c := ld m d in if c =? 0 then Done d else end_loop fuel m (d + 1)
  end.
Definition strcat (m : bmem) (dst src : Z) : res (bmem * Z) :=
  let* d := end_loop (S (size m)) m dst in
  let* m := strcpy_loop (S (size m)) m d src in
  Done (m, dst).

(** The [do] loop of [strncat]: the place of the final NUL. *)
Fixpoint strncat_loop (max : nat) (m : bmem) (d s : Z) : res (bmem * Z) :=
  let* c := ld m s in
  let* m := st m d c in
  if c =? 0 then Done (m, d) else
  match max with
  | S (S _ as max) => strncat_loop max m (d + 1) (s + 1)
  | _ => Done (m, d + 1)
  end.
Definition strncat (m : bmem) (dst src : Z) (max : nat) : res (bmem * Z) :=
  kassert negb (Nat.eqb max 0) in
  let* d := skip_loop (S (size m)) m dst in
  let* '(m, d) := strncat_loop max m d src in
  let* m := st m d 0 in
  Done (m, dst).

Fixpoint reverse_loop (fuel : nat) (m : bmem) (src dst : Z) : res bmem :=
  match fuel with
  | O => Stuck
  | S fuel =>
      if src <? dst then
        let* tmp := ld m src in
        let* c := ld m dst in
        let* m := st m src c in
        let* m := st m dst tmp in
        reverse_loop fuel m (src + 1) (dst - 1)
      else Done m
  end.
Definition strreverse (m : bmem) (str : Z) : res bmem :=
  let* len := strlen m str in
  if len <? 1 then Done m else
  reverse_loop (Z.to_nat len) m str (str + len - 1).

(** ** strdup.c and concat.c: [cpy] and [out] are what [kmalloc] returns *)

Definition strdup (m : bmem) (cpy s : Z) : res (bmem * Z) :=
  let* len := strlen m s in
  let* '(m, _) := memcpy m cpy s (Z.to_nat (len + 1)) in
  Done (m, cpy).

Definition concat (m : bmem) (out str1 str2 : Z) : res (bmem * Z) :=
  let* len1 := strlen m str1 in
  let* len2 := strlen m str2 in
  let* '(m, _) := memcpy m out str1 (Z.to_nat len1) in
  let* '(m, _) := memcpy m (out + len1) str2 (Z.to_nat (len2 + 1)) in
  Done (m, out).

(** ** What is in memory *)

(** The bytes [bs] are at [p]; the [n] bytes at [p] exist. *)
Definition bytes (m : bmem) (p : Z) (bs : list Z) : Prop :=
  forall i : nat, (i < length bs)%nat -> m !! (p + Z.of_nat i) = bs !! i.
Definition mapped (m : bmem) (p : Z) (n : nat) : Prop :=
  forall i : nat, (i < n)%nat -> is_Some (m !! (p + Z.of_nat i)).

(** The NUL terminated string [s] is at [p]. *)
Definition cstr (m : bmem) (p : Z) (s : list Z) : Prop :=
  bytes m p (s ++ [0]) /\ Forall (fun c => 0 < c < 256) s.

(** The memory [m] with [bs] at [d]. *)
Fixpoint blit (m : bmem) (d : Z) (bs : list Z) : bmem :=
  match bs with [] => m | b :: bs => <[d := b]> (blit m (d + 1) bs) end.

(** The two ranges of length [n] have no byte in common. *)
Definition apart (a b : Z) (n : nat) : Prop := a + Z.of_nat n <= b \/ b + Z.of_nat n <= a.

Lemma blit_lookup bs : forall m d a,
  blit m d bs !! a =
  if decide (d <= a < d + Z.of_nat (length bs)) then bs !! Z.to_nat (a - d) else m !! a.
Proof.
  induction bs as [|b bs IH]; intros m d a; simpl.
  - case_decide; [lia|done].
  - destruct (decide (a = d)) as [->|Hne].
    + rewrite lookup_insert_eq. rewrite decide_True by lia.
      by replace (Z.to_nat (d - d)) with O by lia.
    + rewrite lookup_insert_ne, IH by done.
      destruct (decide (d + 1 <= a < d + 1 + Z.of_nat (length bs))).
      * rewrite decide_True by lia. by replace (Z.to_nat (a - d)) with (S (Z.to_nat (a - (d + 1)))) by lia.
      * by rewrite decide_False by lia.
Qed.

Lemma blit_lookup_out bs m d a : a < d \/ d + Z.of_nat (length bs) <= a -> blit m d bs !! a = m !! a.
Proof. intros. rewrite blit_lookup. by rewrite decide_False by lia. Qed.

Lemma blit_lookup_in bs m d (i : nat) : (i < length bs)%nat ->
  blit m d bs !! (d + Z.of_nat i) = bs !! i.
Proof.
  intros. rewrite blit_lookup, decide_True by lia. f_equal. lia.
Qed.

Lemma blit_app l1 : forall m d l2,
  blit (blit m d l1) (d + Z.of_nat (length l1)) l2 = blit m d (l1 ++ l2).
Proof.
  intros m d l2. apply map_eq. intros a. rewrite !blit_lookup, length_app.
  repeat case_decide; try lia; [|..|done].
  - rewrite lookup_app_r by lia. f_equal. lia.
  - by rewrite lookup_app_l by lia.
Qed.

Lemma blit_app_down l1 : forall m d l2,
  blit (blit m (d + Z.of_nat (length l1)) l2) d l1 = blit m d (l1 ++ l2).
Proof.
  intros m d l2. apply map_eq. intros a. rewrite !blit_lookup, length_app.
  repeat case_decide; try lia; [..|done].
  - by rewrite lookup_app_l by lia.
  - rewrite lookup_app_r by lia. f_equal. lia.
Qed.

Lemma bytes_blit m d bs : bytes (blit m d bs) d bs.
Proof. intros i Hi. by apply blit_lookup_in. Qed.

(** Writing elsewhere keeps what is there. *)
Lemma bytes_blit_apart m d bs p l :
  p + Z.of_nat (length l) <= d \/ d + Z.of_nat (length bs) <= p ->
  bytes (blit m d bs) p l <-> bytes m p l.
Proof.
  intros Hap. unfold bytes. split; intros H i Hi; specialize (H i Hi);
    rewrite blit_lookup_out in * by lia; done.
Qed.

Lemma mapped_blit m d bs p n : mapped m p n -> mapped (blit m d bs) p n.
Proof.
  intros H i Hi. rewrite blit_lookup. case_decide; [|by apply H].
  apply lookup_lt_is_Some. lia.
Qed.

Lemma bytes_mapped m p bs : bytes m p bs -> mapped m p (length bs).
Proof. intros H i Hi. rewrite H by done. by apply lookup_lt_is_Some. Qed.

Lemma bytes_app m p l1 l2 :
  bytes m p (l1 ++ l2) <-> bytes m p l1 /\ bytes m (p + Z.of_nat (length l1)) l2.
Proof.
  unfold bytes. rewrite length_app. split; [intros H; split; intros i Hi|intros [H1 H2] i Hi].
  - rewrite H by lia. by rewrite lookup_app_l.
  - replace (p + Z.of_nat (length l1) + Z.of_nat i) with (p + Z.of_nat (length l1 + i)) by lia.
    rewrite H by lia. rewrite lookup_app_r by lia. f_equal. lia.
  - destruct (decide (i < length l1)%nat).
    + rewrite lookup_app_l by done. by apply H1.
    + rewrite lookup_app_r by lia. rewrite <- H2 by lia. f_equal. lia.
Qed.

Lemma mapped_app m p n k :
  mapped m p (n + k) <-> mapped m p n /\ mapped m (p + Z.of_nat n) k.
Proof.
  unfold mapped. split; [intros H; split; intros i Hi|intros [H1 H2] i Hi].
  - apply H. lia.
  - replace (p + Z.of_nat n + Z.of_nat i) with (p + Z.of_nat (n + i)) by lia. apply H. lia.
  - destruct (decide (i < n)%nat); [by apply H1|].
    replace (p + Z.of_nat i) with (p + Z.of_nat n + Z.of_nat (i - n)) by lia. apply H2. lia.
Qed.

Lemma bytes_cons m p b bs : bytes m p (b :: bs) <-> m !! p = Some b /\ bytes m (p + 1) bs.
Proof.
  change (b :: bs) with ([b] ++ bs). rewrite bytes_app. simpl.
  assert (bytes m p [b] <-> m !! p = Some b) as ->; [|done].
  split; [intros H; specialize (H O); rewrite Z.add_0_r in H; apply H; simpl; lia|].
  intros H i Hi. destruct i; simpl in *; [by rewrite Z.add_0_r|lia].
Qed.

(** ** Runs of the copies *)

Lemma ld_run m p b : m !! p = Some b -> ld m p = Done b.
Proof. intros H. unfold ld. by rewrite H. Qed.

Lemma st_run m p v : is_Some (m !! p) -> st m p v = Done (blit m p [v]).
Proof. intros [x H]. unfold st. by rewrite H. Qed.

Lemma mapped_head m p n : mapped m p (S n) -> is_Some (m !! p).
Proof. intros H. rewrite <- (Z.add_0_r p). apply (H O). lia. Qed.

Lemma ldn_run bs : forall m p, bytes m p bs -> ldn m p (length bs) = Done bs.
Proof.
  induction bs as [|b bs IH]; intros m p H; simpl; [done|].
  apply bytes_cons in H as [Hb H]. rewrite (ld_run _ _ _ Hb). simpl. by rewrite (IH _ _ H).
Qed.

Lemma stn_run bs : forall m p, mapped m p (length bs) -> stn m p bs = Done (blit m p bs).
Proof.
  induction bs as [|b bs IH]; intros m p H; [done|].
  change (length (b :: bs)) with (1 + length bs)%nat in H. apply mapped_app in H as [H1 H2].
  cbn [stn]. rewrite (st_run m p b (mapped_head _ _ _ H1)). cbn [rbind].
  rewrite IH by (by apply mapped_blit). f_equal. exact (blit_app [b] m p bs).
Qed.

Lemma next_byte (p : Z) (pre : list Z) (b : Z) :
  p + Z.of_nat (length pre) + 1 = p + Z.of_nat (length (pre ++ [b])).
Proof. rewrite length_app. simpl. lia. Qed.

Section Up.
(** The bytes [bs] at [s] are copied to [d] from the lowest to the highest;
    what is still to be read has not been written. *)
Context (m : bmem) (d s : Z) (bs : list Z).
Context (Hs : bytes m s bs) (Hd : mapped m d (length bs)).
Context (Hap : d <= s \/ s + Z.of_nat (length bs) <= d).

Lemma up_bytes pre c suf : bs = pre ++ c ++ suf ->
  bytes (blit m d pre) (s + Z.of_nat (length pre)) c.
Proof using Type*.
  intros ->. rewrite !length_app in Hap. apply bytes_blit_apart; [lia|].
  by apply bytes_app in Hs as [_ [Hc _]%bytes_app].
Qed.

Lemma up_mapped pre c suf : bs = pre ++ c ++ suf ->
  mapped (blit m d pre) (d + Z.of_nat (length pre)) (length c).
Proof using Type*.
  intros ->. apply mapped_blit. rewrite !length_app in Hd.
  by apply mapped_app in Hd as [_ [Hc _]%mapped_app].
Qed.

Lemma up_byte pre b suf : bs = pre ++ b :: suf ->
  ld (blit m d pre) (s + Z.of_nat (length pre)) = Done b /\
  st (blit m d pre) (d + Z.of_nat (length pre)) b = Done (blit m d (pre ++ [b])).
Proof using Type*.
  intros E. pose proof (up_bytes pre [b] suf E) as Hb.
  pose proof (up_mapped pre [b] suf E) as Hm. split.
  - apply bytes_cons in Hb as [Hb _]. by apply ld_run.
  - rewrite (st_run _ _ _ (mapped_head _ _ _ Hm)). f_equal. apply blit_app.
Qed.

Lemma up_word pre w suf : bs = pre ++ w ++ suf ->
  ldn (blit m d pre) (s + Z.of_nat (length pre)) (length w) = Done w /\
  stn (blit m d pre) (d + Z.of_nat (length pre)) w = Done (blit m d (pre ++ w)).
Proof using Type*.
  intros E. split; [by apply ldn_run, (up_bytes _ _ suf)|].
  rewrite stn_run by (by apply (up_mapped _ _ suf)). f_equal. apply blit_app.
Qed.

Lemma copy_bytes_run suf : forall pre, bs = pre ++ suf ->
  copy_bytes (length suf) (blit m d pre) (d + Z.of_nat (length pre)) (s + Z.of_nat (length pre))
  = Done (blit m d bs).
Proof using Type*.
  induction suf as [|b suf IH]; intros pre E; simpl.
  - by rewrite E, app_nil_r.
  - destruct (up_byte pre b suf E) as [-> H]. cbn [rbind]. rewrite H. cbn [rbind].
    rewrite !(next_byte _ _ b). apply IH. by rewrite E, <- app_assoc.
Qed.

Lemma copy_words_run n : forall suf pre, (length suf <= n)%nat -> bs = pre ++ suf ->
  exists w r, suf = w ++ r /\
  copy_words (length suf) (blit m d pre) (d + Z.of_nat (length pre)) (s + Z.of_nat (length pre))
  = Done (blit m d (pre ++ w), d + Z.of_nat (length (pre ++ w)),
          s + Z.of_nat (length (pre ++ w)), length r).
Proof using Type*.
  induction n as [n IH] using lt_wf_ind. intros suf pre Hn E.
  destruct suf as [|a [|b [|c [|e l]]]];
    [exists [] | exists [] | exists [] | exists [] |];
    [eexists; split; [done|]; simpl; by rewrite app_nil_r .. |].
  destruct (up_word pre [a; b; c; e] l E) as [H1 H2].
  destruct (IH (length l) ltac:(simpl in Hn; lia) l (pre ++ [a; b; c; e])) as (w & r & -> & Hr);
    [lia | by rewrite E, <- app_assoc |].
  exists ([a; b; c; e] ++ w), r. split; [done|]. cbn [length copy_words].
  change (length [a; b; c; e]) with 4%nat in H1. rewrite H1. cbn [rbind]. rewrite H2. cbn [rbind].
  rewrite app_assoc, <- Hr. f_equal; rewrite (length_app pre); simpl; lia.
Qed.

Lemma align_up_run suf : forall pre, bs = pre ++ suf ->
  exists w r out, suf = w ++ r /\ (out = true -> r = []) /\
  align_up (length suf) (blit m d pre) (d + Z.of_nat (length pre)) (s + Z.of_nat (length pre))
  = Done (blit m d (pre ++ w), d + Z.of_nat (length (pre ++ w)),
          s + Z.of_nat (length (pre ++ w)), length r, out).
Proof using Type*.
  induction suf as [|b suf IH]; intros pre E.
  - exists [], []. simpl. rewrite app_nil_r. case_match; eauto.
  - simpl. case_match.
    + exists [], (b :: suf), false. rewrite app_nil_r. by split_and!.
    + destruct (up_byte pre b suf E) as [-> H']. cbn [rbind]. rewrite H'. cbn [rbind].
      destruct (IH (pre ++ [b])) as (w & r & out & -> & Ho & Hr); [by rewrite E, <- app_assoc|].
      exists (b :: w), r, out. split; [done|]. split; [done|].
      rewrite !(next_byte _ _ b), Hr, <- !app_assoc. done.
Qed.
End Up.

Section Down.
(** The same from the highest to the lowest. *)
Context (m : bmem) (d s : Z) (bs : list Z).
Context (Hs : bytes m s bs) (Hd : mapped m d (length bs)) (Hap : s <= d).

#[local] Abbreviation copied pre suf := (blit m (d + Z.of_nat (length pre)) suf).

Lemma down_word pre w suf : bs = (pre ++ w) ++ suf ->
  ldn (copied (pre ++ w) suf) (s + Z.of_nat (length pre)) (length w) = Done w /\
  stn (copied (pre ++ w) suf) (d + Z.of_nat (length pre)) w = Done (copied pre (w ++ suf)).
Proof using Type*.
  intros ->. split.
  - apply ldn_run, bytes_blit_apart; [rewrite length_app; lia|].
    by apply bytes_app in Hs as [[_ Hc]%bytes_app _].
  - rewrite stn_run.
    + f_equal. rewrite <- blit_app_down, length_app. by rewrite Nat2Z.inj_add, Z.add_assoc.
    + apply mapped_blit. rewrite !length_app in Hd.
      by apply mapped_app in Hd as [[_ Hc]%mapped_app _].
Qed.

Lemma down_byte pre b suf : bs = (pre ++ [b]) ++ suf ->
  ld (copied (pre ++ [b]) suf) (s + Z.of_nat (length pre)) = Done b /\
  st (copied (pre ++ [b]) suf) (d + Z.of_nat (length pre)) b = Done (copied pre (b :: suf)).
Proof using Type*.
  intros E. destruct (down_word pre [b] suf E) as [H1 H2]. simpl in H1, H2. split.
  - by destruct (ld _ _); simplify_eq/=.
  - by destruct (st _ _ _); simplify_eq/=.
Qed.

Lemma bytes_down_run pre : forall suf, bs = pre ++ suf ->
  bytes_down (length pre) (copied pre suf) d s = Done (blit m d bs).
Proof using Type*.
  induction pre as [|b pre IH] using rev_ind; intros suf E.
  - simpl. by rewrite Z.add_0_r, E.
  - destruct (down_byte pre b suf E) as [H1 H2].
    rewrite (length_app pre) at 1. rewrite Nat.add_1_r. cbn [bytes_down].
    rewrite H1. cbn [rbind]. rewrite H2. cbn [rbind]. apply IH. by rewrite E, <- app_assoc.
Qed.

Lemma words_down_run n : forall pre suf, (length pre <= n)%nat -> bs = pre ++ suf ->
  exists r w, pre = r ++ w /\
  words_down (length pre) (copied pre suf) d s = Done (copied r (w ++ suf), length r).
Proof using Type*.
  induction n as [n IH] using lt_wf_ind. intros pre suf Hn E.
  destruct (decide (length pre < 4)%nat) as [Hl|Hl].
  { exists pre, []. rewrite app_nil_r. split; [done|].
    destruct (length pre) as [|[|[|[|]]]] eqn:El; try lia; simpl; by rewrite ?El. }
  set (l := (length pre - 4)%nat).
  assert (Hp : pre = take l pre ++ drop l pre) by (by rewrite take_drop).
  assert (Hlw : length (drop l pre) = 4%nat) by (rewrite length_drop; lia).
  assert (Hlt : length (take l pre) = l) by (rewrite length_take; lia).
  destruct (IH l ltac:(lia) (take l pre) (drop l pre ++ suf)) as (r & w & Hrw & Hr);
    [lia | by rewrite app_assoc, <- Hp |].
  exists r, (w ++ drop l pre). split; [by rewrite app_assoc, <- Hrw|].
  rewrite Hp in E. destruct (down_word (take l pre) (drop l pre) suf E) as [H1 H2].
  rewrite <- Hp, Hlt in H1, H2. rewrite Hlw in H1.
  replace (length pre) with (S (S (S (S l)))) at 1 by lia. cbn [words_down].
  rewrite H1. cbn [rbind]. rewrite H2. cbn [rbind]. rewrite Hlt in Hr. by rewrite Hr, <- app_assoc.
Qed.

Lemma align_down_run pre : forall suf, bs = pre ++ suf ->
  exists r w out, pre = r ++ w /\ (out = true -> r = []) /\
  align_down (length pre) (copied pre suf) d s = Done (copied r (w ++ suf), length r, out).
Proof using Type*.
  induction pre as [|b pre IH] using rev_ind; intros suf E.
  - exists [], []. simpl. case_match; eauto.
  - destruct (down_byte pre b suf E) as [H1 H2].
    assert (Hl : length (pre ++ [b]) = S (length pre)) by (rewrite length_app; simpl; lia).
    assert (Hrun : align_down (length (pre ++ [b])) (copied (pre ++ [b]) suf) d s =
      if (d + Z.of_nat (length (pre ++ [b]))) mod 4 =? 0
      then Done (copied (pre ++ [b]) suf, length (pre ++ [b]), false)
      else align_down (length pre) (copied pre (b :: suf)) d s).
    { revert H1 H2. generalize (copied (pre ++ [b]) suf). intros M H1 H2.
      rewrite Hl. cbn [align_down]. rewrite H1. cbn [rbind]. by rewrite H2. }
    rewrite Hrun. case_match.
    + exists (pre ++ [b]), [], false. rewrite app_nil_r. by split_and!.
    + destruct (IH (b :: suf)) as (r & w & out & -> & Ho & Hr); [by rewrite E, <- app_assoc|].
      exists r, (w ++ [b]), out. rewrite <- !app_assoc. by split_and!.
Qed.
End Down.

(** [memcpy] and [memmove] are [blit] of the source; [memcpy] needs ranges
    that do not overlap in the wrong direction. *)
Lemma memcpy_run m d s bs : bytes m s bs -> mapped m d (length bs) ->
  d <= s \/ s + Z.of_nat (length bs) <= d ->
  memcpy m d s (length bs) = Done (blit m d bs, d).
Proof.
  intros Hs Hd Hap. unfold memcpy.
  assert (Hb : forall w r, bs = w ++ r ->
    copy_bytes (length r) (blit m d w) (d + Z.of_nat (length w)) (s + Z.of_nat (length w))
    = Done (blit m d bs)) by (intros; by apply copy_bytes_run).
  case_match.
  - destruct (copy_words_run m d s bs Hs Hd Hap (length bs) bs []) as (w & r & E & Hr); [lia|done|].
    simpl in Hr. rewrite !Z.add_0_r in Hr. rewrite Hr. cbn [rbind].
    rewrite (Hb w r E). done.
  - cbn [rbind]. pose proof (Hb [] bs eq_refl) as H'. simpl in H'. rewrite !Z.add_0_r in H'.
    rewrite H'. done.
Qed.

Lemma blit_same bs : forall m p, bytes m p bs -> blit m p bs = m.
Proof.
  intros m p H. apply map_eq. intros a. rewrite blit_lookup. case_decide; [|done].
  rewrite <- H by lia. f_equal. lia.
Qed.

(** C37: [memmove] is correct for every overlap: whatever the positions of
    the two ranges and their alignment, so through the word loops in both
    directions as well, the destination gets the bytes the source had before,
    no other byte changes, and the destination is returned. *)
Theorem memmove_exact m d s bs : bytes m s bs -> mapped m d (length bs) ->
  memmove m d s (length bs) = Done (blit m d bs, d).
Proof.
  intros Hs Hd. unfold memmove.
  destruct (Z.eqb_spec d s) as [->|Hne]; [by rewrite blit_same|].
  case_match eqn:Eo; [apply memcpy_run; [done..|]; apply orb_true_iff in Eo as [?|?]; bool_props; lia|].
  destruct (Z.ltb_spec d s).
  - assert (Hb : forall w r, bs = w ++ r ->
      copy_bytes (length r) (blit m d w) (d + Z.of_nat (length w)) (s + Z.of_nat (length w))
      = Done (blit m d bs)) by (intros; apply copy_bytes_run; auto; lia).
    case_match.
    + destruct (align_up_run m d s bs Hs Hd ltac:(lia) bs [] eq_refl) as (w & r & out & E & Ho & Hr).
      simpl in Hr. rewrite !Z.add_0_r in Hr. rewrite Hr. cbn [rbind].
      destruct out; [by rewrite E, Ho, app_nil_r|].
      destruct (copy_words_run m d s bs Hs Hd ltac:(lia) (length r) r w ltac:(lia) E)
        as (w' & r' & -> & Hr').
      rewrite Hr'. cbn [rbind]. rewrite (Hb (w ++ w') r'); [done|]. by rewrite E, app_assoc.
    + pose proof (Hb [] bs eq_refl) as H'. simpl in H'. rewrite !Z.add_0_r in H'. by rewrite H'.
  - assert (Hz : blit m (d + Z.of_nat (length bs)) [] = m) by done.
    assert (Hn : bs = bs ++ []) by (by rewrite app_nil_r). case_match.
    + destruct (align_down_run m d s bs Hs Hd ltac:(lia) bs [] Hn) as (r & w & out & E & Ho & Hr).
      rewrite Hz in Hr. rewrite Hr, app_nil_r. cbn [rbind].
      destruct out; [rewrite E, Ho by done; simpl; by rewrite Z.add_0_r|].
      destruct (words_down_run m d s bs Hs Hd ltac:(lia) (length r) r w ltac:(lia) E)
        as (r' & w' & -> & Hr').
      rewrite Hr'. cbn [rbind].
      rewrite (bytes_down_run m d s bs Hs Hd ltac:(lia) r' (w' ++ w)); [done|]. by rewrite E, app_assoc.
    + rewrite <- Hz at 1. by rewrite (bytes_down_run m d s bs Hs Hd ltac:(lia) bs [] Hn).
Qed.

(** ** Strings *)

(** The fuel: a memory has at least as many bytes as the objects in it. *)
Lemma bytes_size m p bs : bytes m p bs -> (length bs <= size m)%nat.
Proof.
  intros H. rewrite <- (size_dom (D := gset Z)).
  rewrite <- (Nat2Z.id (length bs)), <- (length_seqZ p (Z.of_nat (length bs))).
  rewrite <- (size_list_to_set (C := gset Z)) by apply NoDup_seqZ.
  apply subseteq_size. intros a Ha%elem_of_list_to_set%elem_of_seqZ. apply elem_of_dom.
  replace a with (p + Z.of_nat (Z.to_nat (a - p))) by lia.
  rewrite H by lia. apply lookup_lt_is_Some. lia.
Qed.

Lemma cstr_size m p s : cstr m p s -> (length s < S (size m))%nat.
Proof. intros [H _]. apply bytes_size in H. rewrite length_app in H. simpl in H. lia. Qed.

Lemma cstr_nil m p : cstr m p [] <-> m !! p = Some 0.
Proof.
  unfold cstr. simpl. rewrite bytes_cons. split; [tauto|]. intros H. split; [split; [done|]|done].
  intros i Hi. simpl in Hi. lia.
Qed.

Lemma cstr_cons m p c s : cstr m p (c :: s) <-> m !! p = Some c /\ 0 < c < 256 /\ cstr m (p + 1) s.
Proof. unfold cstr. simpl. rewrite bytes_cons, Forall_cons. tauto. Qed.

Lemma cstr_app m p s t : cstr m p (s ++ t) <->
  bytes m p s /\ Forall (fun c => 0 < c < 256) s /\ cstr m (p + Z.of_nat (length s)) t.
Proof. unfold cstr. rewrite <- app_assoc, bytes_app, Forall_app. tauto. Qed.

(** [str_step] runs one step of a loop on the string: it reads the NUL or
    a character that is not NUL. *)
Ltac str_step :=
  match goal with
  | H : cstr ?m ?p [] |- context [ld ?m ?p] =>
      rewrite (ld_run m p 0 (proj1 (cstr_nil m p) H)); cbn [rbind]
  | H : cstr ?m ?p (?c :: ?s) |- context [ld ?m ?p] =>
      let Hl := fresh "Hl" in let Hc := fresh "Hc" in
      destruct (proj1 (cstr_cons m p c s) H) as (Hl & Hc & ?);
      rewrite (ld_run m p c Hl); cbn [rbind]; rewrite ?(proj2 (Z.eqb_neq c 0)) by lia
  end.

Lemma strlen_loop_run s : forall fuel m p n, (length s < fuel)%nat -> cstr m (p + n) s ->
  strlen_loop fuel m p n = Done (n + Z.of_nat (length s)).
Proof.
  induction s as [|c s IH]; intros [|fuel] m p n Hf H; simpl in Hf; try lia; simpl; str_step.
  - simpl. f_equal. lia.
  - rewrite IH; [f_equal; lia|lia|]. by rewrite Z.add_assoc.
Qed.

Lemma strlen_run m p s : cstr m p s -> strlen m p = Done (Z.of_nat (length s)).
Proof.
  intros H. unfold strlen. rewrite (strlen_loop_run s); [f_equal; lia|by apply (cstr_size _ p)|].
  by rewrite Z.add_0_r.
Qed.

(** The bytes [bs] without a NUL are there, or they end with one. *)
Lemma strnlen_run m p s max : cstr m p s -> (0 < max)%nat ->
  strnlen m p max = Done (Z.of_nat (min (length s) max)).
Proof.
  intros H Hm. unfold strnlen. destruct (Nat.eqb_spec max 0); [lia|]. simpl. clear Hm n.
  assert (Hg : forall s max n, cstr m (p + n) s ->
    strnlen_loop max m p n = Done (n + Z.of_nat (min (length s) max))).
  { clear. induction s as [|c s IH]; intros [|max] n H; simpl; try (f_equal; lia); str_step.
    - simpl. f_equal. lia.
    - rewrite IH by (by rewrite Z.add_assoc). f_equal. lia. }
  by rewrite (Hg s) by (by rewrite Z.add_0_r).
Qed.

(** *** Searching *)

(** The first and the last index at which [f] holds. *)
Fixpoint first_at (f : Z -> bool) (l : list Z) : option nat :=
  match l with
  | [] => None
  | x :: l => if f x then Some O else S <$> first_at f l
  end.
Fixpoint last_at (f : Z -> bool) (l : list Z) : option nat :=
  match l with
  | [] => None
  | x :: l => match last_at f l with Some i => Some (S i) | None => if f x then Some O else None end
  end.
Definition at_ (p : Z) (o : option nat) : option Z := (fun i => p + Z.of_nat i) <$> o.

Lemma at_S p (o : option nat) : at_ (p + 1) o = at_ p (S <$> o).
Proof. destruct o; simpl; [f_equal; lia|done]. Qed.

Lemma memchr_run bs : forall m p v, bytes m p bs ->
  memchr m p v (length bs) = Done (at_ p (first_at (fun b => b =? u8 v) bs)).
Proof.
  induction bs as [|b bs IH]; intros m p v H; simpl; [done|].
  apply bytes_cons in H as [Hb H]. rewrite (ld_run _ _ _ Hb). cbn [rbind].
  case_match; [simpl; by rewrite Z.add_0_r|]. by rewrite IH, at_S.
Qed.

Lemma last_at_app f l x : last_at f (l ++ [x]) = if f x then Some (length l) else last_at f l.
Proof.
  induction l as [|y l IH]; simpl; [done|]. rewrite IH. by destruct (f x).
Qed.

Lemma memrchr_run bs : forall m p v, bytes m p bs ->
  memrchr m p v (length bs) = Done (at_ p (last_at (fun b => b =? u8 v) bs)).
Proof.
  induction bs as [|b bs IH] using rev_ind; intros m p v H; [done|].
  apply bytes_app in H as [H [Hb _]%bytes_cons]. rewrite length_app, Nat.add_1_r. cbn [memrchr].
  rewrite (ld_run _ _ _ Hb). cbn [rbind]. rewrite last_at_app. case_match; [done|]. by apply IH.
Qed.

Lemma strchr_run m p s c : cstr m p s ->
  strchr m p c = Done (at_ p (first_at (fun b => s8 b =? c) s)).
Proof.
  intros H. unfold strchr. generalize (cstr_size _ _ _ H). generalize (S (size m)). revert p H.
  induction s as [|x s IH]; intros p H [|fuel] Hf; simpl in Hf; try lia; simpl; str_step; [done|].
  case_match; [simpl; by rewrite Z.add_0_r|]. rewrite IH by (done || lia). by rewrite at_S.
Qed.

(** The NUL is part of what [strrchr] looks at. *)
Lemma strrchr_run m p s c : cstr m p s ->
  strrchr m p c = Done (at_ p (last_at (fun b => s8 b =? c) (s ++ [0]))).
Proof.
  intros H. unfold strrchr. rewrite (strlen_run _ _ _ H). cbn [rbind]. destruct H as [H _].
  replace (Z.to_nat (Z.of_nat (length s) + 1)) with (length (s ++ [0]))
    by (rewrite length_app; simpl; lia).
  revert H. generalize (s ++ [0]). intros bs.
  induction bs as [|b bs IH] using rev_ind; intros H; [done|].
  apply bytes_app in H as [H [Hb _]%bytes_cons]. rewrite length_app, Nat.add_1_r. cbn [strrchr_loop].
  rewrite (ld_run _ _ _ Hb). cbn [rbind]. rewrite last_at_app. case_match; [done|]. by apply IH.
Qed.

(** *** Comparing *)

(** The order of the dictionary on bytes. *)
Fixpoint lex (a b : list Z) : Z :=
  match a, b with
  | [], [] => 0
  | [], _ => -1
  | _, [] => 1
  | x :: a, y :: b => if x <? y then -1 else if y <? x then 1 else lex a b
  end.

Lemma memcmp_run a : forall b m p q, length a = length b -> bytes m p a -> bytes m q b ->
  memcmp m p q (length a) = Done (lex a b).
Proof.
  induction a as [|x a IH]; intros [|y b] m p q Hl Ha Hb; simplify_eq/=; [done|].
  apply bytes_cons in Ha as [Hx Ha], Hb as [Hy Hb].
  rewrite (ld_run _ _ _ Hx), (ld_run _ _ _ Hy). cbn [rbind]. rewrite Z.gtb_ltb.
  destruct (Z.ltb_spec y x), (Z.ltb_spec x y); try lia; [done..|]. by apply IH.
Qed.

Lemma strcmp_run m p q s t : cstr m p s -> cstr m q t -> strcmp m p q = Done (lex s t).
Proof.
  intros Hs Ht. unfold strcmp. generalize (cstr_size _ _ _ Hs). generalize (S (size m)).
  revert p q t Hs Ht.
  induction s as [|x s IH]; intros p q [|y t] Hs Ht [|fuel] Hf; simpl in Hf; try lia;
    cbn [strcmp_loop]; str_step; str_step; cbn [lex].
  - done.
  - destruct (Z.eqb_spec 0 y), (Z.ltb_spec 0 y); (lia || done).
  - destruct (Z.eqb_spec x 0), (Z.ltb_spec x 0); (lia || done).
  - destruct (Z.eqb_spec x y) as [->|].
    + rewrite Z.ltb_irrefl. apply IH; (done || lia).
    + destruct (Z.ltb_spec x y), (Z.ltb_spec y x); (lia || done).
Qed.

(** [strcmp] says 0 for equal strings only, and is antisymmetric. *)
Lemma lex_eq a : forall b, lex a b = 0 <-> a = b.
Proof.
  induction a as [|x a IH]; intros [|y b]; simpl; try (split; congruence).
  destruct (Z.ltb_spec x y), (Z.ltb_spec y x); try lia; try (split; [done|]; intros [=]; lia).
  rewrite IH. split; [intros ->; f_equal; lia | congruence].
Qed.

Lemma lex_anti a : forall b, lex b a = - lex a b.
Proof.
  induction a as [|x a IH]; intros [|y b]; simpl; try done.
  destruct (Z.ltb_spec x y), (Z.ltb_spec y x); try lia; try done.
Qed.

Lemma lower_nonzero x : 0 < x < 256 -> tolower (s8 x) <> 0.
Proof.
  intros H. unfold tolower, isupper, s8.
  repeat match goal with |- context [?a <? ?b] => destruct (Z.ltb_spec a b)
    | |- context [?a <=? ?b] => destruct (Z.leb_spec a b) end; simpl; lia.
Qed.

(** [strcasecmp] is zero exactly for strings equal up to case. *)
Lemma strcasecmp_run m p q s t : cstr m p s -> cstr m q t ->
  exists r, strcasecmp m p q = Done r /\
    (r = 0 <-> (tolower ∘ s8) <$> s = (tolower ∘ s8) <$> t).
Proof.
  intros Hs Ht. unfold strcasecmp. generalize (cstr_size _ _ _ Hs). generalize (S (size m)).
  revert p q t Hs Ht.
  induction s as [|x s IH]; intros p q [|y t] Hs Ht [|fuel] Hf; simpl in Hf; try lia;
    cbn [strcasecmp_loop]; str_step; str_step; cbv zeta.
  - exists 0. done.
  - pose proof (lower_nonzero y ltac:(done)). change (tolower (s8 0)) with 0.
    destruct (Z.eqb_spec 0 (tolower (s8 y))); [congruence|]. simpl. eexists; split; [done|].
    split; [lia|done].
  - pose proof (lower_nonzero x ltac:(done)). change (tolower (s8 0)) with 0.
    destruct (Z.eqb_spec (tolower (s8 x)) 0); [congruence|]. simpl. eexists; split; [done|].
    split; [lia|done].
  - pose proof (lower_nonzero x ltac:(done)) as Hx.
    destruct (Z.eqb_spec (tolower (s8 x)) (tolower (s8 y))) as [E|E]; simpl.
    + rewrite (proj2 (Z.eqb_neq _ 0) Hx). simpl.
      destruct (IH (p + 1) (q + 1) t ltac:(done) ltac:(done) fuel ltac:(lia)) as (r & -> & Hr).
      exists r. split; [done|]. rewrite Hr. split; [intros Hst; f_equal; [exact E|exact Hst]|by intros [=]].
    + eexists; split; [done|]. split; [lia|by intros [=]].
Qed.

(** *** Writing *)

Lemma strcpy_loop_run m d s bs : bytes m s (bs ++ [0]) -> Forall (fun c => 0 < c < 256) bs ->
  mapped m d (S (length bs)) -> d <= s \/ s + Z.of_nat (length bs) < d ->
  forall fuel, (length bs < fuel)%nat -> strcpy_loop fuel m d s = Done (blit m d (bs ++ [0])).
Proof.
  intros Hs Hbs Hd Hap fuel Hf.
  assert (Hd' : mapped m d (length (bs ++ [0]))) by (by rewrite length_app, Nat.add_1_r).
  assert (Hap' : d <= s \/ s + Z.of_nat (length (bs ++ [0])) <= d) by (rewrite length_app; simpl; lia).
  assert (Hg : forall suf pre fuel, bs = pre ++ suf -> (length suf < fuel)%nat ->
    strcpy_loop fuel (blit m d pre) (d + Z.of_nat (length pre)) (s + Z.of_nat (length pre))
    = Done (blit m d (bs ++ [0]))).
  { intros suf. induction suf as [|b suf IH]; intros pre [|f] E Hf'; simpl in Hf'; try lia; cbn [strcpy_loop].
    - destruct (up_byte m d s _ Hs Hd' Hap' pre 0 []) as [-> H]; [by rewrite E, app_nil_r|].
      cbn [rbind]. rewrite H. cbn [rbind]. by rewrite E, app_nil_r.
    - destruct (up_byte m d s _ Hs Hd' Hap' pre b (suf ++ [0])) as [-> H]; [by rewrite E, <- app_assoc|].
      cbn [rbind]. rewrite H. cbn [rbind].
      rewrite E in Hbs. apply Forall_app in Hbs as [_ [Hb _]%Forall_cons].
      rewrite (proj2 (Z.eqb_neq b 0)) by lia. rewrite !(next_byte _ _ b).
      apply IH; [by rewrite E, <- app_assoc|lia]. }
  specialize (Hg bs [] fuel eq_refl Hf). simpl in Hg. by rewrite !Z.add_0_r in Hg.
Qed.

Lemma strcpy_run m d s str : cstr m s str -> mapped m d (S (length str)) ->
  d <= s \/ s + Z.of_nat (length str) < d ->
  strcpy m d s = Done (blit m d (str ++ [0]), d).
Proof.
  intros H Hd Hap. unfold strcpy.
  rewrite (strcpy_loop_run m d s str (proj1 H) (proj2 H) Hd Hap); [done|by apply (cstr_size _ s)].
Qed.

Lemma end_loop_run s : forall fuel m p, (length s < fuel)%nat -> cstr m p s ->
  end_loop fuel m p = Done (p + Z.of_nat (length s)).
Proof.
  induction s as [|c s IH]; intros [|fuel] m p Hf H; simpl in Hf; try lia; simpl; str_step.
  - simpl. f_equal. lia.
  - rewrite IH by (done || lia). f_equal. lia.
Qed.

Lemma skip_loop_run s : forall fuel m p, (length s < fuel)%nat -> cstr m p s ->
  skip_loop fuel m p = Done (p + Z.of_nat (length s) + 1).
Proof.
  induction s as [|c s IH]; intros [|fuel] m p Hf H; simpl in Hf; try lia; simpl; str_step.
  - simpl. f_equal. lia.
  - rewrite IH by (done || lia). f_equal. lia.
Qed.

Lemma cstr_blit_apart m d bs p s :
  p + Z.of_nat (length s) < d \/ d + Z.of_nat (length bs) <= p ->
  cstr m p s -> cstr (blit m d bs) p s.
Proof.
  intros Hap [H HF]. split; [|done]. apply bytes_blit_apart; [|done].
  rewrite length_app. simpl. lia.
Qed.

Lemma cstr_blit m d s : Forall (fun c => 0 < c < 256) s -> cstr (blit m d (s ++ [0])) d s.
Proof. intros H. split; [apply bytes_blit|done]. Qed.

(** The string at [dst] becomes the concatenation. *)
Lemma strcat_run m dst src a b : cstr m dst a -> cstr m src b ->
  mapped m (dst + Z.of_nat (length a)) (S (length b)) ->
  dst + Z.of_nat (length a + length b) < src \/ src + Z.of_nat (length b) < dst ->
  exists m', strcat m dst src = Done (m', dst) /\
    m' = blit m (dst + Z.of_nat (length a)) (b ++ [0]) /\ cstr m' dst (a ++ b).
Proof.
  intros Ha Hb Hm Hap. unfold strcat.
  rewrite (end_loop_run a) by (done || by apply (cstr_size _ dst)). cbn [rbind].
  rewrite (strcpy_loop_run _ _ _ b (proj1 Hb) (proj2 Hb) Hm); [|lia|by apply (cstr_size _ src)].
  eexists. split; [done|]. split; [done|]. apply cstr_app. split.
  - apply bytes_blit_apart; [lia|]. by destruct Ha as [[Ha _]%bytes_app _].
  - split; [apply Ha|]. apply cstr_blit, Hb.
Qed.

Lemma strlcpy_loop_S n m d s : strlcpy_loop (S (S n)) m d s =
  let* c := ld m s in let* m := st m d c in
  if c =? 0 then Done (m, S n, d + 1, s + 1) else strlcpy_loop (S n) m (d + 1) (s + 1).
Proof. done. Qed.

(** The copying loop of [strlcpy], when the source ends and when it does not. *)
Lemma strlcpy_loop_end m d s str n : cstr m s str -> mapped m d (S (length str)) ->
  d <= s \/ s + Z.of_nat (length str) < d -> (S (length str) < n)%nat ->
  exists k, strlcpy_loop n m d s = Done (blit m d (str ++ [0]), S k,
    d + Z.of_nat (S (length str)), s + Z.of_nat (S (length str))).
Proof.
  intros [Hs Hbs] Hd Hap Hn.
  assert (Hd' : mapped m d (length (str ++ [0]))) by (by rewrite length_app, Nat.add_1_r).
  assert (Hap' : d <= s \/ s + Z.of_nat (length (str ++ [0])) <= d) by (rewrite length_app; simpl; lia).
  assert (Hg : forall suf pre n, str = pre ++ suf -> (S (length suf) < n)%nat -> exists k,
    strlcpy_loop n (blit m d pre) (d + Z.of_nat (length pre)) (s + Z.of_nat (length pre))
    = Done (blit m d (str ++ [0]), S k, d + Z.of_nat (S (length str)), s + Z.of_nat (S (length str)))).
  { intros suf. induction suf as [|b suf IH]; intros pre [|[|f]] E Hf'; simpl in Hf'; try lia;
      rewrite strlcpy_loop_S.
    - destruct (up_byte m d s _ Hs Hd' Hap' pre 0 []) as [-> H]; [by rewrite E, app_nil_r|].
      cbn [rbind]. rewrite H. cbn [rbind]. exists f.
      by rewrite E, !(next_byte _ _ 0), app_nil_r, (length_app pre [0]), Nat.add_1_r.
    - destruct (up_byte m d s _ Hs Hd' Hap' pre b (suf ++ [0])) as [-> H]; [by rewrite E, <- app_assoc|].
      cbn [rbind]. rewrite H. cbn [rbind].
      assert (Hb : 0 < b) by (rewrite E in Hbs; apply Forall_app in Hbs as [_ [Hb _]%Forall_cons]; lia).
      rewrite (proj2 (Z.eqb_neq b 0)) by lia. rewrite !(next_byte _ _ b).
      apply IH; [by rewrite E, <- app_assoc|lia]. }
  destruct (Hg str [] n eq_refl Hn) as [k Hk]. exists k. simpl in Hk. by rewrite !Z.add_0_r in Hk.
Qed.

Lemma strlcpy_loop_cut m d s bs : bytes m s bs -> Forall (fun c => 0 < c < 256) bs ->
  mapped m d (length bs) -> d <= s \/ s + Z.of_nat (length bs) <= d ->
  strlcpy_loop (S (length bs)) m d s
  = Done (blit m d bs, O, d + Z.of_nat (length bs), s + Z.of_nat (length bs)).
Proof.
  intros Hs Hbs Hd Hap.
  assert (Hg : forall suf pre, bs = pre ++ suf ->
    strlcpy_loop (S (length suf)) (blit m d pre) (d + Z.of_nat (length pre)) (s + Z.of_nat (length pre))
    = Done (blit m d bs, O, d + Z.of_nat (length bs), s + Z.of_nat (length bs))).
  { intros suf. induction suf as [|b suf IH]; intros pre E; cbn [length].
    - simpl. by rewrite E, app_nil_r.
    - rewrite strlcpy_loop_S. destruct (up_byte m d s _ Hs Hd Hap pre b suf E) as [-> H].
      cbn [rbind]. rewrite H. cbn [rbind].
      assert (Hb : 0 < b) by (rewrite E in Hbs; apply Forall_app in Hbs as [_ [Hb _]%Forall_cons]; lia).
      rewrite (proj2 (Z.eqb_neq b 0)) by lia. rewrite !(next_byte _ _ b).
      apply IH. by rewrite E, <- app_assoc. }
  specialize (Hg bs [] eq_refl). simpl length in Hg. by rewrite !Z.add_0_r in Hg.
Qed.

(** [strlcpy] writes as much of the source as fits before a NUL and
    nothing behind the buffer, always terminates the result, and returns the
    full length of the source, from which the caller sees a truncation. *)
Theorem strlcpy_spec m dst src s max : cstr m src s -> (0 < max)%nat ->
  mapped m dst (min (S (length s)) max) ->
  dst + Z.of_nat (min (S (length s)) max) <= src \/ src + Z.of_nat (length s) < dst ->
  let out := take (max - 1) s in
  exists m', strlcpy m dst src max = Done (m', Z.of_nat (length s)) /\
    m' = blit m dst (out ++ [0]) /\ cstr m' dst out.
Proof.
  intros Hs Hmax Hd Hap out. unfold strlcpy. destruct (Nat.eqb_spec max 0); [lia|]. cbn [negb].
  assert (Hout : Forall (fun c => 0 < c < 256) out) by (apply Forall_take, Hs).
  exists (blit m dst (out ++ [0])). split; [|split; [done|by apply cstr_blit]].
  destruct (decide (S (length s) < max)%nat) as [Hfit|Hcut].
  - destruct (strlcpy_loop_end m dst src s max Hs) as [k ->]; [by rewrite Nat.min_l in Hd by lia|lia..|].
    cbn. unfold out. rewrite take_ge by lia. do 2 f_equal. lia.
  - rewrite Nat.min_r in Hd, Hap by lia.
    assert (Hlo : length out = (max - 1)%nat) by (unfold out; rewrite length_take; lia).
    assert (Hsplit : bytes m src out /\ bytes m (src + Z.of_nat (length out)) (drop (max - 1) s ++ [0])).
    { apply bytes_app. rewrite app_assoc. unfold out. rewrite take_drop. apply Hs. }
    replace max with (length out + 1)%nat in Hd by lia. apply mapped_app in Hd as [Hd1 Hd2].
    replace max with (S (length out)) by lia.
    rewrite strlcpy_loop_cut; [|apply Hsplit|done..|lia]. cbn [rbind Nat.eqb].
    rewrite (st_run _ _ _ (mapped_head _ _ _ (mapped_blit _ _ _ _ _ Hd2))). cbn [rbind].
    rewrite blit_app.
    assert (Hrest : cstr (blit m dst (out ++ [0])) (src + Z.of_nat (length out)) (drop (max - 1) s)).
    { apply cstr_blit_apart; [rewrite length_app, length_drop; simpl; lia|].
      split; [apply Hsplit|apply Forall_drop, Hs]. }
    rewrite (skip_loop_run _ _ _ _ (cstr_size _ _ _ Hrest) Hrest). cbn [rbind].
    do 2 f_equal. rewrite length_drop. lia.
Qed.

Lemma memset_run n : forall m p c, mapped m p n ->
  memset m p c n = Done (blit m p (replicate n (u8 c)), p).
Proof.
  intros m p c Hm. unfold memset.
  assert (H : forall m p, mapped m p n -> memset_loop n m p c = Done (blit m p (replicate n (u8 c)))).
  { clear. induction n as [|n IH]; intros m p H; [done|]. cbn [memset_loop].
    apply (mapped_app m p 1 n) in H as [H1 H2].
    rewrite (st_run _ _ _ (mapped_head _ _ _ H1)). cbn [rbind].
    rewrite IH by (by apply mapped_blit). f_equal. exact (blit_app [u8 c] m p (replicate n (u8 c))). }
  by rewrite H.
Qed.

(** Reversing in place: the ends are swapped and the middle is reversed. *)
Lemma reverse_blit m p x mid y :
  blit (blit (blit m p [y]) (p + Z.of_nat (length mid) + 1) [x]) (p + 1) (rev mid)
  = blit m p (rev (x :: mid ++ [y])).
Proof.
  cbn [rev]. rewrite rev_app_distr. simpl rev at 2. simpl app at 1.
  replace (p + Z.of_nat (length mid) + 1) with (p + 1 + Z.of_nat (length (rev mid)))
    by (rewrite length_rev; lia).
  rewrite blit_app_down. exact (blit_app [y] m p (rev mid ++ [x])).
Qed.

Lemma reverse_loop_run n : forall l fuel m p, (length l <= n)%nat -> (length l < 2 * fuel)%nat ->
  bytes m p l -> reverse_loop fuel m p (p + Z.of_nat (length l) - 1) = Done (blit m p (rev l)).
Proof.
  induction n as [n IH] using lt_wf_ind. intros l [|fuel] m p Hn Hf H; [lia|]. cbn [reverse_loop].
  destruct l as [|x l]; [cbn [length]; case_match eqn:Ep; [bool_props; lia|done]|].
  destruct l as [|y mid _] using rev_ind.
  { simpl length. destruct (Z.ltb_spec p (p + Z.of_nat 1 - 1)); [lia|]. by rewrite blit_same. }
  assert (Hl : length (x :: mid ++ [y]) = S (S (length mid))) by (simpl; rewrite length_app; simpl; lia).
  rewrite Hl in *. pose proof (bytes_mapped _ _ _ H) as Hm. rewrite Hl in Hm.
  apply bytes_cons in H as [Hx [Hmid [Hy _]%bytes_cons]%bytes_app].
  destruct (Z.ltb_spec p (p + Z.of_nat (S (S (length mid))) - 1)); [|lia].
  replace (p + Z.of_nat (S (S (length mid))) - 1) with (p + 1 + Z.of_nat (length mid)) by lia.
  rewrite (ld_run _ _ _ Hx), (ld_run _ _ _ Hy). cbn [rbind].
  rewrite (st_run _ _ _ (mapped_head _ _ _ Hm)). cbn [rbind].
  rewrite st_run by (rewrite blit_lookup_out by (simpl; lia); by eexists). cbn [rbind].
  replace (p + 1 + Z.of_nat (length mid)) with (p + Z.of_nat (length mid) + 1) by lia.
  replace (p + Z.of_nat (length mid) + 1 - 1) with (p + 1 + Z.of_nat (length mid) - 1) by lia.
  rewrite (IH (length mid) ltac:(lia) mid); [|lia|lia|].
  - f_equal. apply reverse_blit.
  - apply bytes_blit_apart; [simpl; lia|]. apply bytes_blit_apart; [simpl; lia|]. done.
Qed.

(** The string at [p] becomes its reverse, in place. *)
Lemma strreverse_run m p s : cstr m p s ->
  strreverse m p = Done (blit m p (rev s)) /\ cstr (blit m p (rev s)) p (rev s).
Proof.
  intros H. unfold strreverse. rewrite (strlen_run _ _ _ H). cbn [rbind]. destruct H as [H HF]. split.
  - destruct (Z.ltb_spec (Z.of_nat (length s)) 1) as [Hl|Hl].
    + by destruct s; simpl in Hl; [|lia].
    + rewrite Nat2Z.id. apply (reverse_loop_run (length s)); [lia|lia|].
      by apply bytes_app in H as [H _].
  - split; [|by apply Forall_rev]. apply bytes_app. split; [apply bytes_blit|].
    apply bytes_blit_apart; [lia|]. rewrite length_rev. by apply bytes_app in H as [_ H].
Qed.

(** [strdup] and [concat] return fresh strings with the right contents. *)
Lemma strdup_run m cpy p s : cstr m p s -> mapped m cpy (S (length s)) ->
  apart cpy p (S (length s)) ->
  exists m', strdup m cpy p = Done (m', cpy) /\ m' = blit m cpy (s ++ [0]) /\ cstr m' cpy s.
Proof.
  intros H Hm Hap. unfold strdup. rewrite (strlen_run _ _ _ H). cbn [rbind].
  replace (Z.to_nat (Z.of_nat (length s) + 1)) with (length (s ++ [0])) by (rewrite length_app; simpl; lia).
  unfold apart in Hap.
  rewrite memcpy_run; [|apply H|by rewrite length_app, Nat.add_1_r|rewrite length_app; simpl; lia].
  eexists. split; [done|]. split; [done|]. apply cstr_blit, H.
Qed.

Lemma concat_run m out p q s t : cstr m p s -> cstr m q t ->
  mapped m out (length s + S (length t)) ->
  out + Z.of_nat (length s + length t) < p \/ p + Z.of_nat (length s) < out ->
  out + Z.of_nat (length s + length t) < q \/ q + Z.of_nat (length t) < out ->
  exists m', concat m out p q = Done (m', out) /\
    m' = blit m out (s ++ t ++ [0]) /\ cstr m' out (s ++ t).
Proof.
  intros Hs Ht Hm Hp Hq. unfold concat.
  rewrite (strlen_run _ _ _ Hs), (strlen_run _ _ _ Ht). cbn [rbind].
  apply mapped_app in Hm as [Hm1 Hm2]. rewrite Nat2Z.id.
  rewrite memcpy_run; [|by destruct Hs as [[Hs _]%bytes_app _]|done|lia]. cbn [rbind].
  replace (Z.to_nat (Z.of_nat (length t) + 1)) with (length (t ++ [0])) by (rewrite length_app; simpl; lia).
  assert (Hl : length (t ++ [0]) = S (length t)) by (rewrite length_app; simpl; lia).
  rewrite memcpy_run; [| |by rewrite Hl; apply mapped_blit|rewrite Hl; lia].
  - cbn [rbind]. rewrite blit_app. eexists. split; [done|]. split; [done|].
    rewrite app_assoc. apply cstr_blit, Forall_app. split; [apply Hs|apply Ht].
  - apply bytes_blit_apart; [rewrite Hl; lia|]. apply Ht.
Qed.

(** ** Where the code fails *)

Lemma strncat_loop_S n m d s : strncat_loop (S (S n)) m d s =
  let* c := ld m s in let* m := st m d c in
  if c =? 0 then Done (m, d) else strncat_loop (S n) m (d + 1) (s + 1).
Proof. done. Qed.

Lemma st_inv m p v m' : st m p v = Done m' -> m' = <[p := v]> m.
Proof. unfold st. destruct (m !! p); congruence. Qed.

Lemma strncat_loop_dom n : forall m d s m' d', strncat_loop (S n) m d s = Done (m', d') ->
  d <= d' /\ forall a, a < d -> m' !! a = m !! a.
Proof.
  induction n as [|n IH]; intros m d s m' d' H.
  - simpl in H. rinv. apply st_inv in E0 as ->.
    case_match; rinv; (split; [lia|]; intros a Ha; rewrite lookup_insert_ne by lia; done).
  - rewrite strncat_loop_S in H. apply rbind_Done in H as (c & _ & H).
    apply rbind_Done in H as (m1 & ->%st_inv & H). case_match; rinv.
    + split; [lia|]. intros a Ha. by rewrite lookup_insert_ne by lia.
    + apply IH in H as [Hd Hm]. split; [lia|]. intros a Ha. rewrite Hm by lia.
      by rewrite lookup_insert_ne by lia.
Qed.

(** [strncat] looks for the end of the destination with [while( *dst++)], which
    steps over the NUL, and appends behind it: whatever the source is, the
    string at the destination stays what it was. *)
Lemma strncat_appends_nothing m dst src a max m' r : cstr m dst a ->
  strncat m dst src max = Done (m', r) -> cstr m' dst a.
Proof.
  intros Ha H. unfold strncat in H. destruct max as [|n]; [done|]. cbn [Nat.eqb negb] in H.
  rewrite (skip_loop_run a) in H by (done || by apply (cstr_size _ dst)). cbn [rbind] in H.
  apply rbind_Done in H as ([m1 d1] & E & H). apply strncat_loop_dom in E as [Hd Hm].
  rinv. apply st_inv in E as ->. destruct Ha as [Ha HF]. split; [|done].
  intros i Hi. specialize (Ha i Hi). rewrite length_app in Hi. simpl in Hi.
  rewrite lookup_insert_ne by lia. rewrite Hm by lia. exact Ha.
Qed.

(** A memory with the bytes [bs] at [p]. *)
Definition mem_at (p : Z) (bs : list Z) : bmem := blit ∅ p bs.

(** [strncasecmp] does not stop at the NUL: two equal strings (here "ab")
    compare as different by the bytes behind them. *)
Example strncasecmp_runs_on :
  let m := mem_at 16 [97; 98; 0; 120; 0] ∪ mem_at 32 [97; 98; 0; 121; 0] in
  cstr m 16 [97; 98] /\ cstr m 32 [97; 98] /\ strncasecmp m 16 32 8 = Done (-1).
Proof.
  cbv zeta. assert (Hc : forall m p, ldn m p 3 = Done [97; 98; 0] -> cstr m p [97; 98]).
  { intros m p H. simpl in H. rinv. unfold ld in *. rinv.
    rewrite !cstr_cons, cstr_nil. repeat split; (done || lia). }
  split; [|split]; [apply Hc; vm_compute; reflexivity .. | vm_compute; reflexivity].
Qed.

(** [strchr] does not find the terminating NUL, which C counts as part of the
    string; [strrchr] does. *)
Example strchr_misses_nul :
  strchr (mem_at 16 [97; 0]) 16 0 = Done None /\ strrchr (mem_at 16 [97; 0]) 16 0 = Done (Some 17).
Proof. split; vm_compute; reflexivity. Qed.

(** ** Concrete runs *)

Lemma bytes_by_ldn m p bs : ldn m p (length bs) = Done bs -> bytes m p bs.
Proof.
  revert p. induction bs as [|b bs IH]; intros p H; [intros i Hi; simpl in Hi; lia|].
  simpl in H. rinv. unfold ld in E. rinv. apply bytes_cons. split; [done|]. by apply IH.
Qed.

(** Nine bytes moved two up, and by four (a word) down. *)
Lemma memmove_exact_witness :
  memmove (mem_at 16 [1; 2; 3; 4; 5; 6; 7; 8; 9; 10; 11]) 18 16 9
  = Done (blit (mem_at 16 [1; 2; 3; 4; 5; 6; 7; 8; 9; 10; 11]) 18 [1; 2; 3; 4; 5; 6; 7; 8; 9], 18) /\
  memmove (mem_at 16 [1; 2; 3; 4; 5; 6; 7; 8; 9; 10; 11]) 17 21 6
  = Done (blit (mem_at 16 [1; 2; 3; 4; 5; 6; 7; 8; 9; 10; 11]) 17 [6; 7; 8; 9; 10; 11], 17).
Proof.
  split.
  - apply (memmove_exact _ 18 16 [1; 2; 3; 4; 5; 6; 7; 8; 9]).
    + apply bytes_by_ldn. vm_compute. reflexivity.
    + apply (bytes_mapped _ _ [3; 4; 5; 6; 7; 8; 9; 10; 11]), bytes_by_ldn. vm_compute. reflexivity.
  - apply (memmove_exact _ 17 21 [6; 7; 8; 9; 10; 11]).
    + apply bytes_by_ldn. vm_compute. reflexivity.
    + apply (bytes_mapped _ _ [2; 3; 4; 5; 6; 7]), bytes_by_ldn. vm_compute. reflexivity.
Defined.

(** "hello" into a buffer of four bytes. *)
Lemma strlcpy_spec_witness :
  exists m', strlcpy (mem_at 16 [0; 0; 0; 0; 104; 101; 108; 108; 111; 0]) 16 20 4 = Done (m', 5) /\
    cstr m' 16 [104; 101; 108].
Proof.
  destruct (strlcpy_spec (mem_at 16 [0; 0; 0; 0; 104; 101; 108; 108; 111; 0]) 16 20
    [104; 101; 108; 108; 111] 4) as (m' & Hr & _ & Hc).
  - split; [apply bytes_by_ldn; vm_compute; reflexivity|]. repeat constructor; lia.
  - lia.
  - apply (bytes_mapped _ _ [0; 0; 0; 0]), bytes_by_ldn. vm_compute. reflexivity.
  - simpl. lia.
  - exists m'. split; [exact Hr|exact Hc].
Defined.
