(* ===== verification/Snprintf.v ===== *)
(** * lib/snprintf.c: formatted output

    The format is read by a state machine, one character at a time; what a
    conversion prints goes through [dopr_outch], which stores only what fits
    into the buffer and counts everything.  The functions are written against
    a class [Sink] of places to print to.  The instance [buf] is the code: a
    buffer of [maxlen] bytes in memory.  The instance [sheet] is the
    specification: the list of everything that is printed.  [vsnprintf_refines]
    shows that the code prints a prefix of what the specification prints and
    returns its length.

    A [va_list] is the list of the 32-bit words on the stack.  A test for
    pointers outside of the kernel at the start of [vsnprintf] only logs a
    message ([log_panic] returns) and is left out. *)
From stdpp Require Import base gmap list list_numbers.
From Stdlib Require Import ZArith Lia.
From S2P Require Import Prelude Strings.
Open Scope Z_scope.

Definition s64 (x : Z) : Z := let y := u64 x in if y <? 2 ^ 63 then y else y - 2 ^ 64.

Inductive pstate := DP_S_DEFAULT | DP_S_FLAGS | DP_S_MIN | DP_S_DOT | DP_S_MAX | DP_S_MOD
  | DP_S_CONV | DP_S_DONE.

Definition DP_F_MINUS : Z := 1.
Definition DP_F_PLUS : Z := 2.
Definition DP_F_SPACE : Z := 4.
Definition DP_F_NUM : Z := 8.
Definition DP_F_ZERO : Z := 16.
Definition DP_F_UP : Z := 32.
Definition DP_F_UNSIGNED : Z := 64.

Definition DP_C_SHORT : Z := 1.
Definition DP_C_LONG : Z := 2.
Definition DP_C_LDOUBLE : Z := 3.
Definition DP_C_LLONG : Z := 4.

Definition has (flags f : Z) : bool := negb (Z.land flags f =? 0).

(** Where output goes: the memory that is read, the number of characters
    printed, printing one, and a store elsewhere (for %n). *)
Class Sink (T : Type) := {
  s_mem : T -> bmem;
  s_len : T -> Z;
  s_out : T -> Z -> res T;
  s_st : T -> Z -> list Z -> res T;
}.

(** ** The buffer of the code *)

Record buf := MkBuf { b_mem : bmem; b_buffer : Z; b_maxlen : Z; b_currlen : Z }.

Definition dopr_outch (b : buf) (c : Z) : res buf :=
  let* m := if b_currlen b <? b_maxlen b then st (b_mem b) (b_buffer b + b_currlen b) (u8 c)
            else Done (b_mem b) in
  Done (MkBuf m (b_buffer b) (b_maxlen b) (u32 (b_currlen b + 1))).

#[export] Instance buf_sink : Sink buf := {|
  s_mem := b_mem;
  s_len := b_currlen;
  s_out := dopr_outch;
  s_st b p bs := let* m := stn (b_mem b) p bs in
                 Done (MkBuf m (b_buffer b) (b_maxlen b) (b_currlen b));
|}.

(** ** The specification: everything that is printed

    The length is returned as an int: a sheet has room for what an int can
    count. *)

Record sheet := MkSheet { p_mem : bmem; p_out : list Z }.

#[export] Instance sheet_sink : Sink sheet := {|
  s_mem := p_mem;
  s_len p := Z.of_nat (length (p_out p));
  s_out p c := if Z.of_nat (length (p_out p)) <? 2 ^ 31 - 1
               then Done (MkSheet (p_mem p) (p_out p ++ [u8 c])) else Fault;
  s_st p a bs := let* m := stn (p_mem p) a bs in Done (MkSheet m (p_out p));
|}.

(** ** The conversions *)

(** A string argument: a pointer, or one of the literals of the code. *)
Inductive strval := SPtr (p : Z) | SLit (l : list Z).

Section Printing.
Context {T : Type} `{Sink T}.

Fixpoint outs (t : T) (l : list Z) : res T :=
  match l with [] => Done t | c :: l => let* t := s_out t c in outs t l end.

Definition schar (t : T) (v : strval) (i : Z) : res Z :=
  match v with
  | SPtr p => ld (s_mem t) (p + i)
  | SLit l => deref ((l ++ [0]) !! Z.to_nat i)
  end.
Definition sfuel (t : T) (v : strval) : nat :=
  match v with SPtr _ => S (size (s_mem t)) | SLit l => S (S (length l)) end.

(** [for(strln = 0; value[strln]; ++strln)] *)
Fixpoint strln_loop (fuel : nat) (t : T) (v : strval) (n : Z) : res Z :=
  match fuel with
  | O => Stuck
  | S fuel => let* c := schar t v n in
              if c =? 0 then Done n else strln_loop fuel t v (n + 1)
  end.

(** [while((padlen > 0) && (cnt < max))] *)
Fixpoint pad_loop (padlen : nat) (t : T) (cnt max : Z) : res (T * Z) :=
  match padlen with
  | O => Done (t, cnt)
  | S padlen =>
      if cnt <? max then let* t := s_out t 32 in pad_loop padlen t (cnt + 1) max
      else Done (t, cnt)
  end.

(** [while( *value && (cnt < max))] *)
Fixpoint value_loop (fuel : nat) (t : T) (v : strval) (i cnt max : Z) : res (T * Z) :=
  match fuel with
  | O => Stuck
  | S fuel =>
      let* c := schar t v i in
      if negb (c =? 0) && (cnt <? max) then
        let* t := s_out t c in value_loop fuel t v (i + 1) (cnt + 1) max
      else Done (t, cnt)
  end.

Definition fmtstr (t : T) (value : strval) (flags min max : Z) : res T :=
  let value := match value with SPtr 0 => SLit [60; 78; 85; 76; 76; 62] | _ => value end in
  let* strln := strln_loop (sfuel t value) t value 0 in
  let padlen := Z.max (min - strln) 0 in
  let left := has flags DP_F_MINUS in
  let* '(t, cnt) := if left then Done (t, 0) else pad_loop (Z.to_nat padlen) t 0 max in
  let* '(t, cnt) := value_loop (sfuel t value) t value 0 cnt max in
  let* '(t, cnt) := if left then pad_loop (Z.to_nat padlen) t cnt max else Done (t, cnt) in
  Done t.

(** The [do] loop of [fmtint] fills [convert], lowest digit first. *)
Fixpoint convert_loop (room : nat) (uvalue base : Z) : list Z :=
  match room with
  | O => []
  | S room =>
      uvalue mod base ::
      (if uvalue / base =? 0 then [] else convert_loop room (uvalue / base) base)
  end.

Definition digit_char (caps : bool) (d : Z) : Z :=
  if d <? 10 then 48 + d else if caps then 55 + d else 87 + d.

Definition fmtint_sign (value flags : Z) : list Z :=
  if has flags DP_F_UNSIGNED then [] else
  if value <? 0 then [45] else
  if has flags DP_F_PLUS then [43] else
  if has flags DP_F_SPACE then [32] else [].

(** What [fmtint] prints, in the order of its loops: spaces, sign, zeros,
    digits, spaces. *)
Definition fmtint_parts (value base min max flags : Z) : list Z * list Z * list Z * list Z * list Z :=
  let max := if max <? 0 then 0 else max in
  let neg := negb (has flags DP_F_UNSIGNED) && (value <? 0) in
  let sign := fmtint_sign value flags in
  let uvalue := u64 (if neg then - value else value) in
  let digits := convert_loop 20 uvalue base in
  let digits := if Nat.eqb (length digits) 20 then take 19 digits else digits in
  let place := Z.of_nat (length digits) in
  let zpadlen := Z.max (max - place) 0 in
  let spadlen := Z.max (min - Z.max max place - Z.of_nat (length sign)) 0 in
  let '(zpadlen, spadlen) :=
    if has flags DP_F_ZERO then (Z.max zpadlen spadlen, 0) else (zpadlen, spadlen) in
  let spaces := replicate (Z.to_nat spadlen) 32 in
  let left := has flags DP_F_MINUS in
  (if left then [] else spaces, sign, replicate (Z.to_nat zpadlen) 48,
   rev (digit_char (has flags DP_F_UP) <$> digits), if left then spaces else []).

Definition fmtint (t : T) (value base min max flags : Z) : res T :=
  let '(sp, sign, zeros, digits, sp') := fmtint_parts value base min max flags in
  let* t := outs t sp in
  let* t := outs t sign in
  let* t := outs t zeros in
  let* t := outs t digits in
  outs t sp'.

(** ** The state machine *)

Record pst := MkPst {
  ps_state : pstate; ps_ch : Z; ps_format : Z;
  ps_flags : Z; ps_cflags : Z; ps_min : Z; ps_max : Z; ps_args : list Z }.

Definition set_state (s : pst) (x : pstate) : pst :=
  MkPst x (ps_ch s) (ps_format s) (ps_flags s) (ps_cflags s) (ps_min s) (ps_max s) (ps_args s).
Definition set_flags (s : pst) (x : Z) : pst :=
  MkPst (ps_state s) (ps_ch s) (ps_format s) x (ps_cflags s) (ps_min s) (ps_max s) (ps_args s).
Definition set_cflags (s : pst) (x : Z) : pst :=
  MkPst (ps_state s) (ps_ch s) (ps_format s) (ps_flags s) x (ps_min s) (ps_max s) (ps_args s).
Definition set_min (s : pst) (x : Z) : pst :=
  MkPst (ps_state s) (ps_ch s) (ps_format s) (ps_flags s) (ps_cflags s) x (ps_max s) (ps_args s).
Definition set_max (s : pst) (x : Z) : pst :=
  MkPst (ps_state s) (ps_ch s) (ps_format s) (ps_flags s) (ps_cflags s) (ps_min s) x (ps_args s).
Definition set_args (s : pst) (x : list Z) : pst :=
  MkPst (ps_state s) (ps_ch s) (ps_format s) (ps_flags s) (ps_cflags s) (ps_min s) (ps_max s) x.

(** [ch = *format++] *)
Definition next (t : T) (s : pst) : res pst :=
  let* c := ld (s_mem t) (ps_format s) in
  Done (MkPst (ps_state s) c (ps_format s + 1) (ps_flags s) (ps_cflags s) (ps_min s) (ps_max s)
    (ps_args s)).

(** [va_arg]: one word, or two for a long long (low word first). *)
Definition va_word (args : list Z) : res (Z * list Z) :=
  match args with w :: args => Done (u32 w, args) | [] => Fault end.
Definition va_llong (args : list Z) : res (Z * list Z) :=
  let* '(lo, args) := va_word args in let* '(hi, args) := va_word args in
  Done (s64 (lo + 2 ^ 32 * hi), args).
Definition va_int (args : list Z) : res (Z * list Z) :=
  let* '(w, args) := va_word args in Done (s32 w, args).

Definition va_signed (cflags : Z) (args : list Z) : res (Z * list Z) :=
  if cflags =? DP_C_LLONG then va_llong args else va_int args.
Definition va_unsigned (cflags : Z) (args : list Z) : res (Z * list Z) :=
  if cflags =? DP_C_LLONG then va_llong args else va_word args.

Definition conv_unsigned (t : T) (s : pst) (flags base : Z) : res (T * pst) :=
  let* '(value, args) := va_unsigned (ps_cflags s) (ps_args s) in
  let* t := fmtint t value base (ps_min s) (ps_max s) flags in
  Done (t, set_args s args).

Definition VM_IS_KERN (addr : Z) : bool := (0xC0000000 <=? addr) && (addr <=? 0xFFFFFFFF).

Definition conv_string (t : T) (s : pst) : res (T * pst) :=
  let* '(p, args) := va_word (ps_args s) in
  let strvalue := if p =? 0 then SLit [40; 78; 85; 76; 76; 41] else
    if negb (VM_IS_KERN p) then SLit [40; 73; 78; 86; 65; 76; 73; 68; 41] else SPtr p in
  let* max := if ps_max s =? -1
    then let* n := strln_loop (sfuel t strvalue) t strvalue 0 in Done (s32 n)
    else Done (ps_max s) in
  let max := if (0 <? ps_min s) && (0 <=? max) && (max <? ps_min s) then ps_min s else max in
  let* t := fmtstr t strvalue (ps_flags s) (ps_min s) max in
  Done (t, set_args s args).

(** The [DP_S_CONV] cases, without what follows all of them. *)
Definition conv (t : T) (s : pst) : res (T * pst) :=
  let ch := ps_ch s in
  let unsigned := Z.lor (ps_flags s) DP_F_UNSIGNED in
  if (ch =? 100) || (ch =? 105) then                              (* d i *)
    let* '(value, args) := va_signed (ps_cflags s) (ps_args s) in
    let* t := fmtint t value 10 (ps_min s) (ps_max s) (ps_flags s) in
    Done (t, set_args s args)
  else if ch =? 111 then conv_unsigned t s unsigned 8               (* o *)
  else if ch =? 117 then conv_unsigned t s unsigned 10              (* u *)
  else if ch =? 88 then conv_unsigned t s (Z.lor unsigned DP_F_UP) 16  (* X *)
  else if ch =? 120 then conv_unsigned t s unsigned 16              (* x *)
  else if ch =? 99 then                                             (* c *)
    let* '(c, args) := va_int (ps_args s) in
    let* t := s_out t c in
    Done (t, set_args s args)
  else if ch =? 115 then conv_string t s                            (* s *)
  else if ch =? 112 then                                            (* p *)
    let* '(p, args) := va_word (ps_args s) in
    let* t := fmtint t p 16 (ps_min s) (ps_max s) unsigned in
    Done (t, set_args s args)
  else if ch =? 110 then                                            (* n *)
    let* '(num, args) := va_word (ps_args s) in
    let bs := int_bytes (s_len t) in
    let* t := s_st t num
      (if ps_cflags s =? DP_C_SHORT then take 2 bs else
       if ps_cflags s =? DP_C_LLONG then bs ++ [0; 0; 0; 0] else bs) in
    Done (t, set_args s args)
  else if ch =? 37 then let* t := s_out t ch in Done (t, s)           (* % *)
  else if ch =? 119 then let* s := next t s in Done (t, s)            (* w *)
  else Done (t, s).

Definition isdigit (c : Z) : bool := (48 <=? c) && (c <=? 57).

Definition step_flags (t : T) (s : pst) : res (T * pst) :=
  let flag f := let* s := next t (set_flags s (Z.lor (ps_flags s) f)) in Done (t, s) in
  let ch := ps_ch s in
  if ch =? 45 then flag DP_F_MINUS else
  if ch =? 43 then flag DP_F_PLUS else
  if ch =? 32 then flag DP_F_SPACE else
  if ch =? 35 then flag DP_F_NUM else
  if ch =? 48 then flag DP_F_ZERO else
  Done (t, set_state s DP_S_MIN).

Definition step_min (t : T) (s : pst) : res (T * pst) :=
  if isdigit (ps_ch s) then
    let* s := next t (set_min s (s32 (10 * ps_min s + (ps_ch s - 48)))) in Done (t, s)
  else if ps_ch s =? 42 then
    let* '(min, args) := va_int (ps_args s) in
    let* s := next t (set_args (set_min s min) args) in
    Done (t, set_state s DP_S_DOT)
  else Done (t, set_state s DP_S_DOT).

Definition step_max (t : T) (s : pst) : res (T * pst) :=
  if isdigit (ps_ch s) then
    let max := if ps_max s <? 0 then 0 else ps_max s in
    let* s := next t (set_max s (s32 (10 * max + (ps_ch s - 48)))) in Done (t, s)
  else if ps_ch s =? 42 then
    let* '(max, args) := va_int (ps_args s) in
    let* s := next t (set_args (set_max s max) args) in
    Done (t, set_state s DP_S_MOD)
  else Done (t, set_state s DP_S_MOD).

Definition step_mod (t : T) (s : pst) : res (T * pst) :=
  let ch := ps_ch s in
  let* s :=
    if ch =? 104 then next t (set_cflags s DP_C_SHORT) else
    if ch =? 108 then
      let* s := next t (set_cflags s DP_C_LONG) in
      if ps_ch s =? 108 then next t (set_cflags s DP_C_LLONG) else Done s
    else if ch =? 76 then next t (set_cflags s DP_C_LDOUBLE)
    else Done s in
  Done (t, set_state s DP_S_CONV).

(** One turn of the main loop in a state that is not [DP_S_DONE]. *)
Definition step (t : T) (s : pst) : res (T * pst) :=
  match ps_state s with
  | DP_S_DEFAULT =>
      if ps_ch s =? 37 then
        let* s := next t (set_state s DP_S_FLAGS) in Done (t, s)
      else let* t := s_out t (ps_ch s) in let* s := next t s in Done (t, s)
  | DP_S_FLAGS => step_flags t s
  | DP_S_MIN => step_min t s
  | DP_S_DOT =>
      if ps_ch s =? 46 then
        let* s := next t (set_state s DP_S_MAX) in Done (t, s)
      else Done (t, set_state s DP_S_MOD)
  | DP_S_MAX => step_max t s
  | DP_S_MOD => step_mod t s
  | DP_S_CONV =>
      let* '(t, s) := conv t s in
      let* s := next t s in
      Done (t, MkPst DP_S_DEFAULT (ps_ch s) (ps_format s) 0 0 0 (-1) (ps_args s))
  | DP_S_DONE => Done (t, s)
  end.

(** A NUL ends the loop in every state. *)
Fixpoint dopr_loop (fuel : nat) (t : T) (s : pst) : res T :=
  match fuel with
  | O => Stuck
  | S fuel =>
      if ps_ch s =? 0 then Done t else
      let* '(t, s) := step t s in dopr_loop fuel t s
  end.

(** At most eight turns for each byte of the memory. *)
Definition dopr (t : T) (format : Z) (args : list Z) : res T :=
  let* s := next t (MkPst DP_S_DEFAULT 0 format 0 0 0 (-1) args) in
  dopr_loop (8 * S (size (s_mem t))) t s.
End Printing.

Definition vsnprintf (m : bmem) (buffer maxlen format : Z) (args : list Z) : res (bmem * Z) :=
  let* b := dopr (MkBuf m buffer maxlen 0) format args in
  let* m := if maxlen =? 0 then Done (b_mem b) else
    if b_currlen b <? maxlen - 1 then st (b_mem b) (buffer + b_currlen b) 0
    else st (b_mem b) (buffer + maxlen - 1) 0 in
  Done (m, s32 (b_currlen b)).

Definition snprintf (m : bmem) (str count fmt : Z) (args : list Z) : res (bmem * Z) :=
  vsnprintf m str count fmt args.

(** [ptr] is what [kmalloc] returns, 0 for NULL; the third component is the
    pointer that is stored, if any. *)
Definition vasprintf (m : bmem) (ptr format : Z) (ap : list Z) : res (bmem * Z * option Z) :=
  let* '(m, ret) := vsnprintf m 0 0 format ap in
  if ret <=? 0 then Done (m, ret, None) else
  if ptr =? 0 then Done (m, -1, Some 0) else
  let* '(m, ret) := vsnprintf m ptr (u32 (ret + 1)) format ap in
  Done (m, ret, Some ptr).

Definition asprintf (m : bmem) (ptr format : Z) (ap : list Z) : res (bmem * Z * Z) :=
  let* '(m, ret, p) := vasprintf m ptr format ap in
  Done (m, ret, default 0 p).

(** The specification: everything the format prints. *)
Definition render (m : bmem) (format : Z) (args : list Z) : res sheet :=
  dopr (MkSheet m []) format args.

(** ** Refinement between sinks *)

(** Whenever [m2] returns, [m1] returns a related result. *)
Definition ref {A B} (m1 : res A) (m2 : res B) (Q : A -> B -> Prop) : Prop :=
  forall b, m2 = Done b -> exists a, m1 = Done a /\ Q a b.

Lemma ref_Done {A B} (a : A) (b : B) (Q : A -> B -> Prop) : Q a b -> ref (Done a) (Done b) Q.
Proof. intros HQ b' [= <-]. eauto. Qed.

Lemma ref_bind {A B A' B'} (m1 : res A) (m2 : res B) k1 k2 Q (Q' : A' -> B' -> Prop) :
  ref m1 m2 Q -> (forall a b, Q a b -> ref (k1 a) (k2 b) Q') -> ref (rbind m1 k1) (rbind m2 k2) Q'.
Proof.
  intros Hm Hk b' H. apply rbind_Done in H as (b & Hb & H).
  destruct (Hm b Hb) as (a & -> & HQ). exact (Hk a b HQ b' H).
Qed.

Lemma ref_same {A} (m : res A) : ref m m eq.
Proof. intros b H. eauto. Qed.

Lemma ref_nothing {A B} (m1 : res A) (m2 : res B) Q : (forall b, m2 <> Done b) -> ref m1 m2 Q.
Proof. intros H b Hb. by apply H in Hb. Qed.

(** A relation between two sinks that printing and storing preserve; the
    right one has less memory. *)
Class Sim {T1 T2 : Type} `{Sink T1, Sink T2} (R : T1 -> T2 -> Prop) := {
  sim_mem t1 t2 : R t1 t2 -> s_mem t2 ⊆ s_mem t1;
  sim_len t1 t2 : R t1 t2 -> s_len t1 = s_len t2;
  sim_out t1 t2 c : R t1 t2 -> ref (s_out t1 c) (s_out t2 c) R;
  sim_st t1 t2 p bs : R t1 t2 -> ref (s_st t1 p bs) (s_st t2 p bs) R;
}.

Section Simulation.
Context {T1 T2 : Type} `{Sink T1, Sink T2} (R : T1 -> T2 -> Prop) `{!Sim R}.

Definition RP {A} (x : T1 * A) (y : T2 * A) : Prop := R x.1 y.1 /\ x.2 = y.2.

Lemma sim_ld t1 t2 p : R t1 t2 -> ref (ld (s_mem t1) p) (ld (s_mem t2) p) eq.
Proof using Type*.
  intros HR b Hb. unfold ld in *. rinv. pose proof (sim_mem _ _ HR) as Hm.
  rewrite (lookup_weaken _ _ _ _ Hb Hm). simpl. eauto.
Qed.

Lemma sim_schar t1 t2 v i : R t1 t2 -> ref (schar t1 v i) (schar t2 v i) eq.
Proof using Type*. intros HR. destruct v; [by apply sim_ld|apply ref_same]. Qed.

Lemma sim_next t1 t2 s : R t1 t2 -> ref (next t1 s) (next t2 s) eq.
Proof using Type*.
  intros HR. eapply ref_bind; [by apply sim_ld|]. intros ? ? ->. by apply ref_Done.
Qed.

Lemma sim_fuel t1 t2 v : R t1 t2 -> (sfuel t2 v <= sfuel t1 v)%nat.
Proof using Type*.
  intros HR. destruct v; simpl; [|lia]. pose proof (map_subseteq_size _ _ (sim_mem _ _ HR)). lia.
Qed.

Lemma sim_outs l : forall t1 t2, R t1 t2 -> ref (outs t1 l) (outs t2 l) R.
Proof using Type*.
  induction l as [|c l IH]; intros t1 t2 HR; simpl; [by apply ref_Done|].
  eapply ref_bind; [by apply sim_out|]. intros ? ? HR'. by apply IH.
Qed.

Lemma sim_strln f2 : forall f1 t1 t2 v n, (f2 <= f1)%nat -> R t1 t2 ->
  ref (strln_loop f1 t1 v n) (strln_loop f2 t2 v n) eq.
Proof using Type*.
  induction f2 as [|f2 IH]; intros [|f1] t1 t2 v n Hf HR; try lia; simpl;
    try (by apply ref_nothing).
  eapply ref_bind; [by apply sim_schar|]. intros c ? <-.
  destruct (c =? 0); [by apply ref_Done|]. apply IH; (done || lia).
Qed.

Lemma sim_pad n : forall t1 t2 cnt max, R t1 t2 ->
  ref (pad_loop n t1 cnt max) (pad_loop n t2 cnt max) RP.
Proof using Type*.
  induction n as [|n IH]; intros t1 t2 cnt max HR; simpl; [by apply ref_Done|].
  destruct (cnt <? max); [|by apply ref_Done].
  eapply ref_bind; [by apply sim_out|]. intros ? ? HR'. by apply IH.
Qed.

Lemma sim_value f2 : forall f1 t1 t2 v i cnt max, (f2 <= f1)%nat -> R t1 t2 ->
  ref (value_loop f1 t1 v i cnt max) (value_loop f2 t2 v i cnt max) RP.
Proof using Type*.
  induction f2 as [|f2 IH]; intros [|f1] t1 t2 v i cnt max Hf HR; try lia; simpl;
    try (by apply ref_nothing).
  eapply ref_bind; [by apply sim_schar|]. intros c ? <-.
  destruct (negb (c =? 0) && (cnt <? max)); [|by apply ref_Done].
  eapply ref_bind; [by apply sim_out|]. intros ? ? HR'. apply IH; (done || lia).
Qed.

Lemma sim_fmtstr t1 t2 v flags min max : R t1 t2 ->
  ref (fmtstr t1 v flags min max) (fmtstr t2 v flags min max) R.
Proof using Type*.
  intros HR. unfold fmtstr. set (v' := match v with SPtr 0 => _ | _ => v end). clearbody v'.
  eapply ref_bind; [by apply sim_strln; [apply sim_fuel|]|]. intros n ? <-. cbv zeta.
  eapply ref_bind with (Q := RP); [destruct (has flags _); [by apply ref_Done|by apply sim_pad]|].
  intros [u1 c] [u2 ?] [HR' Hc]; simpl in *; subst.
  eapply ref_bind; [by apply sim_value; [apply sim_fuel|]|].
  intros [w1 d] [w2 ?] [HR'' Hd]; simpl in *; subst.
  eapply ref_bind with (Q := RP); [destruct (has flags _); [by apply sim_pad|by apply ref_Done]|].
  intros [? ?] [? ?] [? ?]; simpl in *. by apply ref_Done.
Qed.

Lemma sim_fmtint t1 t2 value base min max flags : R t1 t2 ->
  ref (fmtint t1 value base min max flags) (fmtint t2 value base min max flags) R.
Proof using Type*.
  intros HR. unfold fmtint. destruct (fmtint_parts value base min max flags) as [[[[a b] c] d] e].
  eapply ref_bind; [by apply sim_outs|]. intros ? ? HR1.
  eapply ref_bind; [by apply sim_outs|]. intros ? ? HR2.
  eapply ref_bind; [by apply sim_outs|]. intros ? ? HR3.
  eapply ref_bind; [by apply sim_outs|]. intros ? ? HR4. by apply sim_outs.
Qed.

(** [sim] follows two runs of the same code. *)
Ltac sim :=
  repeat match goal with
  | |- ref (rbind ?m _) (rbind ?m _) _ =>
      eapply ref_bind; [apply ref_same|]; intros ? ? <-
  | |- ref (rbind (next _ _) _) _ _ =>
      eapply ref_bind; [by apply sim_next|]; intros ? ? <-
  | |- ref (rbind (s_out _ _) _) _ _ =>
      eapply ref_bind; [by apply sim_out|]; intros ? ? ?
  | |- ref (rbind (s_st _ _ _) _) _ _ =>
      eapply ref_bind; [by apply sim_st|]; intros ? ? ?
  | |- ref (rbind (fmtint _ _ _ _ _ _) _) _ _ =>
      eapply ref_bind; [by apply sim_fmtint|]; intros ? ? ?
  | |- ref (rbind (fmtstr _ _ _ _ _) _) _ _ =>
      eapply ref_bind; [by apply sim_fmtstr|]; intros ? ? ?
  | |- ref (Done _) (Done _) _ => by apply ref_Done
  | |- ref (next _ _) (next _ _) eq => by apply sim_next
  | |- ref (let '(_, _) := ?x in _) _ _ => destruct x
  | |- ref (if ?b then _ else _) _ _ => destruct b
  end.

Lemma sim_conv t1 t2 s : R t1 t2 -> ref (conv t1 s) (conv t2 s) RP.
Proof using Type*.
  intros HR. unfold conv, conv_unsigned, conv_string. cbv zeta. rewrite (sim_len _ _ HR). sim.
  eapply ref_bind with (Q := eq); [destruct (ps_max s =? -1); [|by apply ref_Done]|].
  - eapply ref_bind; [by apply sim_strln; [apply sim_fuel|]|]. intros ? ? <-. by apply ref_Done.
  - intros ? ? <-. sim.
Qed.

Lemma sim_step t1 t2 s : R t1 t2 -> ref (step t1 s) (step t2 s) RP.
Proof using Type*.
  intros HR. unfold step, step_flags, step_min, step_max, step_mod. cbv zeta.
  destruct (ps_state s); sim.
  - eapply ref_bind with (Q := eq); [|intros ? ? <-; by apply ref_Done]. sim.
  - eapply ref_bind; [by apply sim_conv|]. intros [u1 s'] [u2 ?] [HR' E]; simpl in *; subst. sim.
Qed.

Lemma sim_loop f2 : forall f1 t1 t2 s, (f2 <= f1)%nat -> R t1 t2 ->
  ref (dopr_loop f1 t1 s) (dopr_loop f2 t2 s) R.
Proof using Type*.
  induction f2 as [|f2 IH]; intros [|f1] t1 t2 s Hf HR; try lia; cbn [dopr_loop];
    try (by apply ref_nothing).
  destruct (ps_ch s =? 0); [by apply ref_Done|].
  eapply ref_bind; [by apply sim_step|]. intros [u1 s'] [u2 ?] [HR' E]; simpl in *; subst.
  apply IH; (done || lia).
Qed.

Lemma sim_dopr t1 t2 format args : R t1 t2 -> ref (dopr t1 format args) (dopr t2 format args) R.
Proof using Type*.
  intros HR. unfold dopr. eapply ref_bind; [by apply sim_next|]. intros s ? <-.
  apply sim_loop; [|done]. pose proof (map_subseteq_size _ _ (sim_mem _ _ HR)). lia.
Qed.
End Simulation.

(** ** The buffer implements the sheet *)

(** The memory of the code is [p_mem p], which the run reads, and the rest
    [B] with the buffer in it. *)
Section Buffer.
Context (B : bmem) (buffer : Z) (maxlen : nat).
Context (HB : mapped B buffer maxlen).

Definition clear_of (m : bmem) : Prop :=
  forall a, is_Some (m !! a) -> a < buffer \/ buffer + Z.of_nat maxlen <= a.

Definition printed (b : buf) (p : sheet) : Prop :=
  b_buffer b = buffer /\ b_maxlen b = Z.of_nat maxlen /\
  b_currlen b = Z.of_nat (length (p_out p)) /\ Z.of_nat (length (p_out p)) < 2 ^ 31 /\
  clear_of (p_mem p) /\
  b_mem b = blit (p_mem p ∪ B) buffer (take maxlen (p_out p)).

Lemma blit_insert m d bs a v : a < d \/ d + Z.of_nat (length bs) <= a ->
  <[a := v]> (blit m d bs) = blit (<[a := v]> m) d bs.
Proof using Type.
  intros Ha. apply map_eq. intros x. rewrite blit_lookup. destruct (decide (x = a)) as [->|Hx].
  - rewrite lookup_insert_eq, decide_False by lia. by rewrite lookup_insert_eq.
  - rewrite lookup_insert_ne, blit_lookup by done. case_decide; [done|]. by rewrite lookup_insert_ne.
Qed.

Lemma stn_under bs : forall m0 a m1 l, stn m0 a bs = Done m1 -> clear_of m0 ->
  (length l <= maxlen)%nat ->
  stn (blit (m0 ∪ B) buffer l) a bs = Done (blit (m1 ∪ B) buffer l) /\ clear_of m1.
Proof using Type*.
  induction bs as [|b bs IH]; intros m0 a m1 l Hs Hc Hl; cbn [stn] in *; [by injection Hs as <-|].
  apply rbind_Done in Hs as (m2 & E & Hs). unfold st in E. destruct (m0 !! a) eqn:Ea; [|done].
  injection E as <-. assert (Ha : a < buffer \/ buffer + Z.of_nat maxlen <= a) by (apply Hc; eauto).
  unfold st at 1. rewrite blit_lookup_out by lia.
  rewrite (lookup_union_Some_l _ B _ _ Ea). cbn [rbind].
  rewrite blit_insert by lia. rewrite insert_union_l. apply IH; [done| |done].
  intros x Hx. destruct (decide (x = a)) as [->|Hne]; [done|].
  rewrite lookup_insert_ne in Hx by done. by apply Hc.
Qed.

#[export] Instance printed_sim : Sim printed.
Proof using Type*.
  split.
  - intros b p (_ & _ & _ & _ & Hc & Hm). simpl. rewrite Hm. apply map_subseteq_spec. intros a v Ha.
    rewrite blit_lookup_out; [by apply lookup_union_Some_l|].
    destruct (Hc a ltac:(eauto)); [by left|right]. rewrite length_take. lia.
  - intros b p (_ & _ & Hl & _). exact Hl.
  - intros b p c (Eb & Em & El & Hlt & Hc & Hm). simpl. unfold dopr_outch.
    intros p' Hp'. destruct (Z.ltb_spec (Z.of_nat (length (p_out p))) (2 ^ 31 - 1)) as [Hroom|]; [|done].
    injection Hp' as <-. rewrite Eb, Em, El, Hm.
    assert (Hlen : length (p_out p ++ [u8 c]) = S (length (p_out p))) by (rewrite length_app; simpl; lia).
    assert (Hgo : (if Z.of_nat (length (p_out p)) <? Z.of_nat maxlen
        then st (blit (p_mem p ∪ B) buffer (take maxlen (p_out p))) (buffer + Z.of_nat (length (p_out p))) (u8 (u8 c))
        else Done (blit (p_mem p ∪ B) buffer (take maxlen (p_out p))))
      = Done (blit (p_mem p ∪ B) buffer (take maxlen (p_out p ++ [u8 c])))).
    { destruct (Z.ltb_spec (Z.of_nat (length (p_out p))) (Z.of_nat maxlen)).
      - rewrite !take_ge by lia. rewrite st_run.
        + by rewrite blit_app, (u8_small (u8 c)) by apply u8_bound.
        + apply mapped_head with (n := O). apply mapped_blit.
          intros i Hi. replace i with O by lia. rewrite Z.add_0_r. apply lookup_union_is_Some. right.
          apply HB. lia.
      - by rewrite take_app_le by lia. }
    rewrite (u8_small (u8 c)) in Hgo by apply u8_bound. rewrite Hgo. cbn [rbind].
    eexists. split; [done|]. unfold printed. simpl. rewrite Hlen. rewrite u32_small by lia.
    split_and!; (done || lia).
  - intros b p a bs (Eb & Em & El & Hlt & Hc & Hm). simpl. intros p' Hp'. rinv.
    destruct (stn_under bs _ _ _ (take maxlen (p_out p)) E Hc) as [Hs Hc'];
      [rewrite length_take; lia|].
    rewrite Hm, Hs. simpl. eexists. split; [done|]. by split_and!.
Qed.
End Buffer.

(** The result of the code in terms of the specification. *)
Lemma vsnprintf_run m0 B buffer (maxlen : nat) format args p :
  render m0 format args = Done p -> mapped B buffer maxlen -> clear_of buffer maxlen m0 ->
  vsnprintf (m0 ∪ B) buffer (Z.of_nat maxlen) format args =
  Done (if Nat.eqb maxlen 0 then p_mem p ∪ B
        else blit (p_mem p ∪ B) buffer (take (maxlen - 1) (p_out p) ++ [0]),
        Z.of_nat (length (p_out p))).
Proof.
  intros Hr HB Hc. unfold vsnprintf.
  assert (H0 : printed B buffer maxlen (MkBuf (m0 ∪ B) buffer (Z.of_nat maxlen) 0) (MkSheet m0 [])).
  { unfold printed. simpl. rewrite take_nil. by split_and!. }
  pose proof (printed_sim B buffer maxlen HB) as Hsim.
  destruct (sim_dopr (printed B buffer maxlen) _ _ format args H0 p Hr)
    as (b & -> & Eb & Em & El & Hlt & _ & Hm).
  cbn [rbind]. rewrite El, Hm, s32_small by lia.
  destruct (Nat.eqb_spec maxlen 0) as [->|Hne]; [by rewrite take_0|].
  destruct (Z.eqb_spec (Z.of_nat maxlen) 0); [lia|].
  assert (Hst : forall i : nat, (i < maxlen)%nat ->
    is_Some (blit (p_mem p ∪ B) buffer (take maxlen (p_out p)) !! (buffer + Z.of_nat i))).
  { intros i Hi. apply mapped_blit with (n := maxlen); [|done].
    intros j Hj. apply lookup_union_is_Some. right. by apply HB. }
  destruct (Z.ltb_spec (Z.of_nat (length (p_out p))) (Z.of_nat maxlen - 1)).
  - rewrite st_run by (apply Hst; lia). cbn [rbind]. rewrite (take_ge _ maxlen), (take_ge _ (maxlen - 1)) by lia.
    by rewrite blit_app.
  - replace (buffer + Z.of_nat maxlen - 1) with (buffer + Z.of_nat (maxlen - 1)) by lia.
    rewrite st_run by (apply Hst; lia). cbn [rbind]. do 2 f_equal.
    assert (Hl : length (take (maxlen - 1) (p_out p)) = (maxlen - 1)%nat) by (rewrite length_take; lia).
    apply map_eq. intros a. rewrite !blit_lookup, !length_take, length_app, Hl. simpl length.
    destruct (decide (a = buffer + Z.of_nat (maxlen - 1))) as [->|Ha].
    + rewrite !decide_True by lia. rewrite lookup_app_r by lia.
      rewrite Hl. replace (Z.to_nat _) with O by lia. by replace (Z.to_nat _ - _)%nat with O by lia.
    + rewrite decide_False by lia. repeat case_decide; try lia; [|done].
      rewrite lookup_app_l by lia. by rewrite !lookup_take_lt by lia.
Qed.


(** [vasprintf] returns a fresh string with the whole text; a format with
    nothing to print leaves the pointer alone. *)
Lemma vasprintf_run m0 B ptr format ap out :
  render m0 format ap = Done (MkSheet m0 out) -> ptr <> 0 ->
  mapped B ptr (S (length out)) -> clear_of ptr (S (length out)) m0 ->
  vasprintf (m0 ∪ B) ptr format ap =
  Done (if bool_decide (out = []) then (m0 ∪ B, 0, None)
        else (blit (m0 ∪ B) ptr (out ++ [0]), Z.of_nat (length out), Some ptr)).
Proof.
  intros Hr Hp HB Hc. unfold vasprintf.
  pose proof (vsnprintf_run m0 B 0 0 format ap _ Hr ltac:(intros ? ?; lia) ltac:(intros ? ?; lia)) as H1.
  change (Z.of_nat 0) with 0 in H1. rewrite H1. cbn [rbind Nat.eqb p_mem p_out].
  destruct out as [|c out]; [done|]. rewrite bool_decide_false by done.
  assert (Hlt : Z.of_nat (length (c :: out)) < 2 ^ 31).
  { pose proof (printed_sim B 0 0 ltac:(intros ? ?; lia)) as Hsim.
    assert (H0 : printed B 0 0 (MkBuf (m0 ∪ B) 0 0 0) (MkSheet m0 [])) by (unfold printed; split_and!; (done || intros ? ?; lia)).
    destruct (sim_dopr (printed B 0 0) _ _ format ap H0 _ Hr) as (b & _ & _ & _ & _ & Hl & _). exact Hl. }
  destruct (Z.leb_spec (Z.of_nat (length (c :: out))) 0) as [H0|_]; [simpl in H0; lia|].
  destruct (Z.eqb_spec ptr 0); [done|].
  replace (u32 (Z.of_nat (length (c :: out)) + 1)) with (Z.of_nat (S (length (c :: out))))
    by (rewrite u32_small by lia; lia).
  rewrite (vsnprintf_run m0 B ptr (S (length (c :: out))) format ap _ Hr HB Hc).
  cbn [rbind Nat.eqb p_mem p_out]. by rewrite take_ge by lia.
Qed.

(** ** Termination *)

(** [m] does not run out of fuel, and a result satisfies [Q]. *)
Definition ends {A} (m : res A) (Q : A -> Prop) : Prop :=
  match m with Done a => Q a | Stuck => False | _ => True end.

Lemma ends_bind {A B} (m : res A) (k : A -> res B) Q Q' :
  ends m Q -> (forall a, Q a -> ends (k a) Q') -> ends (rbind m k) Q'.
Proof. destruct m; simpl; auto. Qed.

Lemma ends_mono {A} (m : res A) (Q Q' : A -> Prop) : ends m Q -> (forall a, Q a -> Q' a) -> ends m Q'.
Proof. destruct m; simpl; auto. Qed.

(** The addresses of [D] from [a] on: what a pointer can still run over. *)
Definition ahead (D : gset Z) (a : Z) : nat := size (filter (fun x => a <= x) D).

Lemma ahead_le (D : gset Z) a : (ahead D a <= size D)%nat.
Proof. unfold ahead. apply subseteq_size. set_solver. Qed.

Lemma ahead_step (D : gset Z) a : a ∈ D -> (ahead D (a + 1) < ahead D a)%nat.
Proof.
  intros Ha. unfold ahead. apply subset_size. split.
  - intros x [Hx HD]%elem_of_filter. apply elem_of_filter. split; [simpl in *; lia|done].
  - intros Hsub. assert (Hin : a ∈ filter (fun x => a + 1 <= x) D).
    { apply Hsub, elem_of_filter. split; [simpl; lia|done]. }
    apply elem_of_filter in Hin as [Hin _]. simpl in Hin. lia.
Qed.

(** Printing and storing keep the addresses of the memory. *)
Class SinkDom (T : Type) `{Sink T} := {
  out_ends t c : ends (s_out t c) (fun t' => dom (s_mem t') = dom (s_mem t) :> gset Z);
  st_ends t p bs : ends (s_st t p bs) (fun t' => dom (s_mem t') = dom (s_mem t) :> gset Z);
}.

Lemma st_ends_dom m p v : ends (st m p v) (fun m' => dom m' = dom m :> gset Z).
Proof.
  unfold st. destruct (m !! p) eqn:E; simpl; [|done]. rewrite dom_insert_L.
  assert (p ∈ (dom m : gset Z)) by (apply elem_of_dom; eauto). set_solver.
Qed.

Lemma stn_ends_dom bs : forall m p, ends (stn m p bs) (fun m' => dom m' = dom m :> gset Z).
Proof.
  induction bs as [|b bs IH]; intros m p; simpl; [done|].
  eapply ends_bind; [apply st_ends_dom|]. intros m1 H1. eapply ends_mono; [apply IH|].
  intros m2 H2. by rewrite H2.
Qed.

#[export] Instance buf_dom : SinkDom buf.
Proof.
  split.
  - intros b c. simpl. unfold dopr_outch. eapply ends_bind with (Q := fun m => dom m = dom (b_mem b) :> gset Z).
    + case_match; [apply st_ends_dom|done].
    + intros m Hm. exact Hm.
  - intros b p bs. simpl. eapply ends_bind; [apply stn_ends_dom|]. intros m Hm. exact Hm.
Qed.

Section Termination.
Context {T : Type} `{SinkDom T} (D : gset Z).

#[local] Abbreviation keeps t := (dom (s_mem t) = D :> gset Z).

Lemma ld_ends m p : dom m = D :> gset Z -> ends (ld m p) (fun _ => p ∈ D).
Proof using Type.
  intros Hm. unfold ld. destruct (m !! p) eqn:E; simpl; [|done]. rewrite <- Hm. apply elem_of_dom. eauto.
Qed.

Lemma next_ends t s : keeps t ->
  ends (next t s) (fun s' => (ahead D (ps_format s') < ahead D (ps_format s))%nat /\
    ps_state s' = ps_state s).
Proof using Type.
  intros Ht. unfold next. eapply ends_bind; [by apply ld_ends|]. intros c Hc. simpl.
  split; [by apply ahead_step|done].
Qed.

Lemma out_keeps t c : keeps t -> ends (s_out t c) (fun t' => keeps t').
Proof using Type*. intros Ht. eapply ends_mono; [apply out_ends|]. intros t' Ht'. by rewrite Ht'. Qed.
Lemma st_keeps t p bs : keeps t -> ends (s_st t p bs) (fun t' => keeps t').
Proof using Type*. intros Ht. eapply ends_mono; [apply st_ends|]. intros t' Ht'. by rewrite Ht'. Qed.

Lemma outs_keeps l : forall t, keeps t -> ends (outs t l) (fun t' => keeps t').
Proof using Type*.
  induction l as [|c l IH]; intros t Ht; simpl; [done|].
  eapply ends_bind; [by apply out_keeps|]. intros t' Ht'. by apply IH.
Qed.

(** The places in a string that are left. *)
Definition left_in (v : strval) (i : Z) : nat :=
  match v with SPtr p => ahead D (p + i) | SLit l => S (length l) - Z.to_nat i end.

Lemma schar_ends t v i : keeps t -> 0 <= i ->
  ends (schar t v i) (fun _ => (left_in v (i + 1) < left_in v i)%nat).
Proof using Type.
  intros Ht Hi. destruct v as [p|l]; simpl.
  - eapply ends_mono; [by apply ld_ends|]. intros c Hp. rewrite Z.add_assoc. by apply ahead_step.
  - destruct ((l ++ [0]) !! Z.to_nat i) eqn:E; simpl; [|done].
    apply lookup_lt_Some in E. rewrite length_app in E. simpl in E. lia.
Qed.

Lemma left_fuel t v : keeps t -> exists f, sfuel t v = S f /\ (left_in v 0 <= f)%nat.
Proof using Type.
  intros Ht. destruct v; simpl; eexists; (split; [done|]); [|lia].
  pose proof (ahead_le D (p + 0)) as Hle. by rewrite <- Ht, size_dom, Ht in Hle.
Qed.

Lemma strln_ends f : forall t v n, keeps t -> 0 <= n -> (left_in v n <= f)%nat ->
  ends (strln_loop (S f) t v n) (fun _ => True).
Proof using Type.
  induction f as [|f IH]; intros t v n Ht Hn Hf; cbn [strln_loop];
    (eapply ends_bind; [by apply schar_ends|]); intros c Hc; cbn beta in Hc; [lia|].
  case_match; [done|]. apply IH; [done|lia|lia].
Qed.

Lemma pad_keeps n : forall t cnt max, keeps t -> ends (pad_loop n t cnt max) (fun x => keeps x.1).
Proof using Type*.
  induction n as [|n IH]; intros t cnt max Ht; simpl; [done|]. case_match; [|done].
  eapply ends_bind; [by apply out_keeps|]. intros t' Ht'. by apply IH.
Qed.

Lemma value_keeps f : forall t v i cnt max, keeps t -> 0 <= i -> (left_in v i <= f)%nat ->
  ends (value_loop (S f) t v i cnt max) (fun x => keeps x.1).
Proof using Type*.
  induction f as [|f IH]; intros t v i cnt max Ht Hi Hf; cbn [value_loop];
    (eapply ends_bind; [by apply schar_ends|]); intros c Hc; cbn beta in Hc; [lia|].
  case_match; [|done]. eapply ends_bind; [by apply out_keeps|]. intros t' Ht'.
  apply IH; [done|lia|lia].
Qed.

Lemma fmtstr_keeps t v flags min max : keeps t ->
  ends (fmtstr t v flags min max) (fun t' => keeps t').
Proof using Type*.
  intros Ht. unfold fmtstr. set (v' := match v with SPtr 0 => _ | _ => v end). clearbody v'.
  destruct (left_fuel t v' Ht) as (f & -> & Hf).
  eapply ends_bind; [by apply strln_ends|]. intros n _. cbv zeta.
  eapply ends_bind with (Q := fun x => keeps x.1); [case_match; [done|by apply pad_keeps]|].
  intros [t1 c1] Ht1. simpl in Ht1. destruct (left_fuel t1 v' Ht1) as (f1 & -> & Hf1).
  eapply ends_bind; [by apply value_keeps|]. intros [t2 c2] Ht2. simpl in Ht2.
  eapply ends_bind with (Q := fun x => keeps x.1); [case_match; [by apply pad_keeps|done]|].
  intros [t3 c3] Ht3. exact Ht3.
Qed.

Lemma fmtint_keeps t value base min max flags : keeps t ->
  ends (fmtint t value base min max flags) (fun t' => keeps t').
Proof using Type*.
  intros Ht. unfold fmtint. destruct (fmtint_parts value base min max flags) as [[[[a b] c] d] e].
  eapply ends_bind; [by apply outs_keeps|]. intros ? H1.
  eapply ends_bind; [by apply outs_keeps|]. intros ? H2.
  eapply ends_bind; [by apply outs_keeps|]. intros ? H3.
  eapply ends_bind; [by apply outs_keeps|]. intros ? H4. by apply outs_keeps.
Qed.

Lemma va_ends args : ends (va_word args) (fun _ => True) /\ ends (va_int args) (fun _ => True) /\
  ends (va_llong args) (fun _ => True).
Proof using Type. destruct args as [|a [|b args]]; by split_and!. Qed.

Lemma va_arg_ends cflags args : ends (va_signed cflags args) (fun _ => True) /\
  ends (va_unsigned cflags args) (fun _ => True).
Proof using Type.
  unfold va_signed, va_unsigned. destruct (va_ends args) as (? & ? & ?). by case_match.
Qed.

(** A conversion keeps the memory and moves the format forward, if at all. *)
Definition conv_ok (s : pst) (x : T * pst) : Prop :=
  keeps x.1 /\ (ahead D (ps_format x.2) <= ahead D (ps_format s))%nat.

Ltac ends :=
  repeat match goal with
  | |- ends (rbind (va_word _) _) _ => eapply ends_bind; [apply va_ends|]; intros [? ?] _
  | |- ends (rbind (va_int _) _) _ => eapply ends_bind; [apply va_ends|]; intros [? ?] _
  | |- ends (rbind (va_signed _ _) _) _ => eapply ends_bind; [apply va_arg_ends|]; intros [? ?] _
  | |- ends (rbind (va_unsigned _ _) _) _ => eapply ends_bind; [apply va_arg_ends|]; intros [? ?] _
  | |- ends (rbind (fmtint _ _ _ _ _ _) _) _ => eapply ends_bind; [by apply fmtint_keeps|]; intros ? ?
  | |- ends (rbind (fmtstr _ _ _ _ _) _) _ => eapply ends_bind; [by apply fmtstr_keeps|]; intros ? ?
  | |- ends (rbind (s_out _ _) _) _ => eapply ends_bind; [by apply out_keeps|]; intros ? ?
  | |- ends (rbind (s_st _ _ _) _) _ => eapply ends_bind; [by apply st_keeps|]; intros ? ?
  | |- ends (rbind (next _ _) _) _ =>
      eapply ends_bind; [by apply next_ends|]; intros ? [? ?]; simpl in *
  | |- ends (if ?b then _ else _) _ => destruct b
  end.

Lemma conv_ends t s : keeps t -> ends (conv t s) (conv_ok s).
Proof using Type*.
  intros Ht. unfold conv, conv_unsigned, conv_string. cbv zeta. ends;
    try (split; simpl; [done|lia]).
  match goal with |- context [sfuel t ?v] => set (v' := v) end. clearbody v'.
  eapply ends_bind with (Q := fun _ => True).
  { case_match; [|done]. destruct (left_fuel t v' Ht) as (f & -> & Hf).
    eapply ends_bind; [by apply strln_ends|]. by intros. }
  intros max _. ends. split; simpl; [done|lia].
Qed.

(** What is left of the loop: eight turns for each byte of the format, fewer
    in the middle of a conversion. *)
Definition rank (x : pstate) : nat :=
  match x with
  | DP_S_DEFAULT => 0 | DP_S_FLAGS => 6 | DP_S_MIN => 5 | DP_S_DOT => 4 | DP_S_MAX => 3
  | DP_S_MOD => 2 | DP_S_CONV => 1 | DP_S_DONE => 0
  end.
Definition turns (s : pst) : nat := 8 * ahead D (ps_format s) + rank (ps_state s).

Lemma rank_lt x : (rank x < 8)%nat.
Proof using Type. destruct x; simpl; lia. Qed.

Lemma step_ends t s : keeps t -> ps_state s <> DP_S_DONE ->
  ends (step t s) (fun x => keeps x.1 /\ (turns x.2 < turns s)%nat /\ ps_state x.2 <> DP_S_DONE).
Proof using Type*.
  intros Ht Hs. unfold step, step_flags, step_min, step_max, step_mod, turns. cbv zeta.
  destruct s as [state ch format flags cflags min max args]; simpl in *.
  destruct state; ends; try done;
    try (simpl in *; split_and!; [done| |congruence];
         repeat match goal with E : ps_state _ = _ |- _ => rewrite E; clear E end; simpl; lia).
  - eapply ends_bind with (Q := fun s' => (ahead D (ps_format s') <= ahead D format)%nat).
    + ends; try (eapply ends_mono; [by apply next_ends|]; intros ? [? ?]; simpl in *); simpl; lia.
    + intros s' Hs'. simpl. split_and!; [done|lia|done].
  - eapply ends_bind; [by apply conv_ends|]. intros [t' s'] [Ht' Hf]. simpl in *. ends.
    simpl. split_and!; [done|lia|done].
Qed.

Lemma loop_ends f : forall t s, keeps t -> ps_state s <> DP_S_DONE -> (turns s < f)%nat ->
  ends (dopr_loop f t s) (fun t' => keeps t').
Proof using Type*.
  induction f as [|f IH]; intros t s Ht Hs Hf; [lia|]. cbn [dopr_loop]. case_match; [done|].
  eapply ends_bind; [by apply step_ends|]. intros [t' s'] (Ht' & Hlt & Hs'). simpl in *.
  apply IH; [done..|lia].
Qed.
End Termination.

Lemma dopr_ends {T} `{SinkDom T} (t : T) format args : ends (dopr t format args) (fun _ => True).
Proof.
  unfold dopr. set (D := dom (s_mem t) : gset Z).
  eapply ends_bind; [by apply (next_ends D)|]. intros s [Hs Hst]. cbn [ps_state] in Hst.
  assert (Hf : (turns D s < 8 * S (size (s_mem t)))%nat).
  { unfold turns. rewrite Hst. pose proof (ahead_le D (ps_format s)) as Hle.
    unfold D in Hle at 2. rewrite size_dom in Hle. simpl rank. lia. }
  assert (Hn : ps_state s <> DP_S_DONE) by (by rewrite Hst).
  by apply (ends_mono _ _ _ (loop_ends D _ t s eq_refl Hn Hf)).
Qed.

(** C36: [vsnprintf] ends on every memory, format and argument list, a
    format without a terminating NUL included: it returns or it runs into
    memory (or arguments) that do not exist, but it does not loop. *)
Theorem vsnprintf_ends m buffer maxlen format args :
  vsnprintf m buffer maxlen format args <> Stuck.
Proof.
  assert (Hst : forall m p v, st m p v <> Stuck) by (intros ? ? ?; unfold st; by case_match).
  unfold vsnprintf. pose proof (dopr_ends (MkBuf m buffer maxlen 0) format args) as Hd.
  destruct (dopr _ _ _) as [b| | |]; try done. cbn [rbind].
  repeat case_match; try done; match goal with |- context [st ?m ?p ?v] =>
    pose proof (Hst m p v); destruct (st m p v) end; done.
Qed.

(** ** Numbers *)

Definition char_digit (c : Z) : Z := if c <? 58 then c - 48 else if c <? 91 then c - 55 else c - 87.

(** The value of a numeral, highest digit first. *)
Definition numeral (base : Z) (l : list Z) : Z := foldl (fun acc c => base * acc + char_digit c) 0 l.

Fixpoint dval (base : Z) (ds : list Z) : Z :=
  match ds with [] => 0 | d :: ds => d + base * dval base ds end.

Lemma char_digit_char caps d : 0 <= d < 16 -> char_digit (digit_char caps d) = d.
Proof.
  intros Hd. unfold digit_char, char_digit.
  destruct (Z.ltb_spec d 10), caps; repeat match goal with |- context [?a <? ?b] => destruct (Z.ltb_spec a b) end; lia.
Qed.

Lemma numeral_rev base caps ds : Forall (fun d => 0 <= d < 16) ds ->
  numeral base (rev (digit_char caps <$> ds)) = dval base ds.
Proof.
  unfold numeral. induction 1 as [|d ds Hd _ IH]; [done|].
  rewrite fmap_cons. cbn [rev dval]. rewrite foldl_app, IH. cbn [foldl]. rewrite char_digit_char by done. lia.
Qed.

Section Convert.
Context (base : Z) (Hbase : 2 <= base).

Lemma convert_val room : forall u, 0 <= u < base ^ Z.of_nat room ->
  dval base (convert_loop room u base) = u /\
  Forall (fun d => 0 <= d < base) (convert_loop room u base).
Proof using Hbase.
  induction room as [|room IH]; intros u Hu; [simpl in *; split; [lia|constructor]|].
  rewrite Nat2Z.inj_succ, Z.pow_succ_r in Hu by lia. cbn [convert_loop].
  pose proof (Z.div_mod u base ltac:(lia)). pose proof (Z.mod_pos_bound u base ltac:(lia)).
  assert (0 <= u / base < base ^ Z.of_nat room)
    by (split; [apply Z.div_pos; lia | apply Z.div_lt_upper_bound; lia]).
  destruct (Z.eqb_spec (u / base) 0) as [E|E]; simpl.
  - split; [lia|]. by apply Forall_singleton.
  - destruct (IH (u / base)) as [-> HF]; [done|]. split; [lia|]. by constructor.
Qed.

Lemma convert_length room : forall k u, (0 < k)%nat -> 0 <= u < base ^ Z.of_nat k ->
  (length (convert_loop room u base) <= k)%nat.
Proof using Hbase.
  induction room as [|room IH]; intros k u Hk Hu; [simpl; lia|]. cbn [convert_loop length].
  destruct (Z.eqb_spec (u / base) 0) as [E|E]; [simpl; lia|].
  destruct k as [|[|k]]; [lia| |].
  - simpl in Hu. rewrite Z.div_small in E by lia. lia.
  - rewrite Nat2Z.inj_succ, Z.pow_succ_r in Hu by lia.
    pose proof (IH (S k) (u / base) ltac:(lia)
      ltac:(split; [apply Z.div_pos; lia | apply Z.div_lt_upper_bound; lia])). lia.
Qed.

(** There is no leading zero. *)
Lemma convert_last room : forall u, 0 < u < base ^ Z.of_nat room ->
  exists ds d, convert_loop room u base = ds ++ [d] /\ d <> 0.
Proof using Hbase.
  induction room as [|room IH]; intros u Hu; [simpl in Hu; lia|].
  rewrite Nat2Z.inj_succ, Z.pow_succ_r in Hu by lia. cbn [convert_loop].
  pose proof (Z.div_mod u base ltac:(lia)).
  destruct (Z.eqb_spec (u / base) 0) as [E|E].
  - exists [], (u mod base). split; [done|lia].
  - destruct (IH (u / base)) as (ds & d & -> & Hd).
    + split; [|apply Z.div_lt_upper_bound; lia]. pose proof (Z.div_pos u base). lia.
    + by exists (u mod base :: ds), d.
Qed.
End Convert.

Lemma outs_sheet l : forall p, Z.of_nat (length (p_out p) + length l) < 2 ^ 31 ->
  Forall (fun c => 0 <= c < 256) l -> outs p l = Done (MkSheet (p_mem p) (p_out p ++ l)).
Proof.
  induction l as [|c l IH]; intros p Hl HF; simpl in *.
  - rewrite app_nil_r. by destruct p.
  - apply Forall_cons in HF as [Hc HF].
    destruct (Z.ltb_spec (Z.of_nat (length (p_out p))) (2 ^ 31 - 1)); [|lia]. cbn [rbind].
    rewrite IH; [|simpl; rewrite length_app; simpl; lia|done]. simpl.
    by rewrite <- app_assoc, u8_small.
Qed.

Definition is_spaces (l : list Z) : Prop := Forall (fun c => c = 32) l.
Definition is_zeros (l : list Z) : Prop := Forall (fun c => c = 48) l.

(** The number that is printed: the value itself, its absolute value behind a
    sign, or its 64 bits for the unsigned conversions. *)
Definition magnitude (flags value : Z) : Z := if has flags DP_F_UNSIGNED then u64 value else Z.abs value.

Lemma magnitude_code flags value : - 2 ^ 63 < value < 2 ^ 63 ->
  u64 (if negb (has flags DP_F_UNSIGNED) && (value <? 0) then - value else value)
  = magnitude flags value /\ 0 <= magnitude flags value.
Proof.
  intros Hv. unfold magnitude. destruct (has flags DP_F_UNSIGNED); simpl.
  - split; [done|]. apply u64_bound.
  - destruct (Z.ltb_spec value 0); rewrite u64_small by lia; lia.
Qed.

(** The digits of a number below [base ^ 19] are all there. *)
Lemma convert_19 base u : 2 <= base <= 16 -> 0 <= u < base ^ 19 ->
  let ds := convert_loop 20 u base in
  (length ds <= 19)%nat /\ (1 <= length ds)%nat /\ dval base ds = u /\
  Forall (fun d => 0 <= d < 16) ds /\ (u = 0 -> ds = [0]) /\
  (u <> 0 -> exists ds' d, ds = ds' ++ [d] /\ 0 < d < 16).
Proof.
  intros Hb Hu ds.
  assert (Hu' : 0 <= u < base ^ Z.of_nat 20).
  { change (Z.of_nat 20) with (Z.succ 19). rewrite Z.pow_succ_r by lia. nia. }
  destruct (convert_val base ltac:(lia) 20 u Hu') as [Hval HF].
  assert (HF' : Forall (fun d => 0 <= d < 16) ds) by (eapply Forall_impl; [exact HF|]; simpl; lia).
  split; [apply (convert_length base ltac:(lia) 20 19 u); [lia|exact Hu]|]. split; [unfold ds; cbn [convert_loop length]; lia|].
  split; [done|]. split; [done|]. split.
  - unfold ds. intros ->. cbn [convert_loop]. rewrite Z.mod_0_l, Z.div_0_l by lia. done.
  - intros Hn. destruct (convert_last base ltac:(lia) 20 u ltac:(lia)) as (ds' & d & E & Hd).
    exists ds', d. split; [exact E|]. unfold ds in HF'. rewrite E in HF'.
    apply Forall_app in HF' as [_ Hd'].
    apply Forall_cons in Hd' as [Hd' _]. lia.
Qed.

Lemma digit_char_bound caps d : 0 <= d < 16 -> 0 <= digit_char caps d < 256 /\ (0 < d -> digit_char caps d <> 48).
Proof.
  intros Hd. unfold digit_char. destruct (Z.ltb_spec d 10), caps; lia.
Qed.

Lemma fmtint_sign_spec value flags :
  (In 45 (fmtint_sign value flags) <-> has flags DP_F_UNSIGNED = false /\ value < 0) /\
  (length (fmtint_sign value flags) <= 1)%nat /\ Forall (fun c => 0 <= c < 256) (fmtint_sign value flags).
Proof.
  unfold fmtint_sign. destruct (has flags DP_F_UNSIGNED), (Z.ltb_spec value 0), (has flags DP_F_PLUS),
    (has flags DP_F_SPACE); simpl; (split; [intuition (lia || congruence)|split; [lia|]]);
    repeat constructor; lia.
Qed.

(** The digits in the order they are printed. *)
Lemma digits_spec base u caps : 2 <= base <= 16 -> 0 <= u < base ^ 19 ->
  let d := rev (digit_char caps <$> convert_loop 20 u base) in
  Forall (fun c => 0 <= c < 256) d /\ length d = length (convert_loop 20 u base) /\
  numeral base d = u /\ (d = [48] \/ exists x l, d = x :: l /\ x <> 48).
Proof.
  intros Hb Hu. destruct (convert_19 base u Hb Hu) as (_ & _ & Hval & HF & Hz & Hnz). cbv zeta.
  set (ds := convert_loop 20 u base) in *. clearbody ds. split; [|split; [|split]].
  - apply Forall_rev, Forall_fmap. eapply Forall_impl; [exact HF|]. intros d Hd. by apply digit_char_bound.
  - by rewrite length_rev, length_fmap.
  - by rewrite numeral_rev.
  - destruct (Z.eq_dec u 0) as [E|E]; [left; by rewrite (Hz E)|right].
    destruct (Hnz E) as (ds' & d & -> & Hd'). rewrite fmap_app, rev_app_distr. simpl.
    eexists _, _. split; [done|]. apply (digit_char_bound _ d); lia.
Qed.

(** Width and contents of the parts. *)
Lemma fmtint_parts_spec value base min max flags sp sign zeros digits sp' :
  2 <= base <= 16 -> - 2 ^ 63 < value < 2 ^ 63 -> magnitude flags value < base ^ 19 ->
  fmtint_parts value base min max flags = (sp, sign, zeros, digits, sp') ->
  let n := Z.of_nat (length (sp ++ sign ++ zeros ++ digits ++ sp')) in
  is_spaces sp /\ is_spaces sp' /\ is_zeros zeros /\
  numeral base digits = magnitude flags value /\
  (digits = [48] \/ exists d ds, digits = d :: ds /\ d <> 48) /\
  (In 45 sign <-> has flags DP_F_UNSIGNED = false /\ value < 0) /\ (length sign <= 1)%nat /\
  Forall (fun c => 0 <= c < 256) (sp ++ sign ++ zeros ++ digits ++ sp') /\
  n <= Z.max min (Z.max max 19 + 1) /\ (has flags DP_F_ZERO = false \/ max <= 0 -> min <= n).
Proof.
  intros Hb Hv Hm. unfold fmtint_parts.
  destruct (magnitude_code flags value Hv) as [-> Hm0].
  destruct (convert_19 base (magnitude flags value) Hb ltac:(lia)) as (Hl & Hl1 & _).
  destruct (digits_spec base (magnitude flags value) (has flags DP_F_UP) Hb ltac:(lia)) as (Hd & Hdl & Hval & Hdh).
  set (ds := convert_loop 20 (magnitude flags value) base) in *. clearbody ds.
  destruct (Nat.eqb_spec (length ds) 20) as [E|_]; [lia|].
  destruct (fmtint_sign_spec value flags) as (Hs1 & Hs2 & Hs3). cbv zeta.
  set (mx := if max <? 0 then 0 else max).
  assert (Hmx : mx = Z.max max 0) by (unfold mx; destruct (Z.ltb_spec max 0); lia). clearbody mx.
  assert (Hsp : forall n, is_spaces (replicate n 32)) by (intros n; by apply Forall_replicate).
  assert (Hze : forall n, is_zeros (replicate n 48)) by (intros n; by apply Forall_replicate).
  assert (Hr : forall n c, 0 <= c < 256 -> Forall (fun c => 0 <= c < 256) (replicate n c))
    by (intros n c Hc; by apply Forall_replicate).
  intros E. destruct (has flags DP_F_ZERO), (has flags DP_F_MINUS); injection E as <- <- <- <- <-;
    rewrite !length_app, Hdl, ?length_replicate; simpl length;
    (split; [first [apply Hsp | apply Forall_nil; exact I]|]);
    (split; [first [apply Hsp | apply Forall_nil; exact I]|]);
    (split; [apply Hze|]);
    (split; [done|]); (split; [done|]); (split; [done|]); (split; [done|]);
    (split; [rewrite !Forall_app; split_and!; (done || apply Hr; lia || constructor)|]);
    (split; [lia|]); intros [?|?]; (done || lia).
Qed.

(** what [fmtint] prints reads back as the number: spaces, a minus sign
    exactly for a negative signed value, zeros, and digits whose value in the
    base is the magnitude, without a leading zero of their own.  At least
    [min] characters are printed, unless zero padding meets a precision.  The
    number has to be below [base ^ 19]. *)
Theorem fmtint_roundtrip (p : sheet) value base min max flags :
  2 <= base <= 16 -> - 2 ^ 63 < value < 2 ^ 63 -> magnitude flags value < base ^ 19 ->
  Z.of_nat (length (p_out p)) + Z.max min (Z.max max 19 + 1) < 2 ^ 31 ->
  exists sp sign zeros digits sp',
    fmtint p value base min max flags =
      Done (MkSheet (p_mem p) (p_out p ++ sp ++ sign ++ zeros ++ digits ++ sp')) /\
    is_spaces sp /\ is_spaces sp' /\ is_zeros zeros /\
    numeral base digits = magnitude flags value /\
    (digits = [48] \/ exists d ds, digits = d :: ds /\ d <> 48) /\
    (In 45 sign <-> has flags DP_F_UNSIGNED = false /\ value < 0) /\ (length sign <= 1)%nat /\
    (has flags DP_F_ZERO = false \/ max <= 0 ->
     min <= Z.of_nat (length (sp ++ sign ++ zeros ++ digits ++ sp'))).
Proof.
  intros Hb Hv Hm Hroom. unfold fmtint.
  destruct (fmtint_parts value base min max flags) as [[[[sp sign] zeros] digits] sp'] eqn:E.
  destruct (fmtint_parts_spec value base min max flags sp sign zeros digits sp' Hb Hv Hm E)
    as (H1 & H2 & H3 & H4 & H5 & H6 & H7 & HF & Hn & Hw).
  exists sp, sign, zeros, digits, sp'. split; [|by split_and!].
  rewrite !Forall_app in HF. destruct HF as (F1 & F2 & F3 & F4 & F5). rewrite !length_app in Hn.
  rewrite (outs_sheet sp) by (done || lia). cbn [rbind].
  rewrite (outs_sheet sign) by (done || (cbn [p_out]; rewrite ?length_app; lia)). cbn [rbind].
  rewrite (outs_sheet zeros) by (done || (cbn [p_out]; rewrite ?length_app; lia)). cbn [rbind].
  rewrite (outs_sheet digits) by (done || (cbn [p_out]; rewrite ?length_app; lia)). cbn [rbind].
  rewrite (outs_sheet sp') by (done || (cbn [p_out]; rewrite ?length_app; lia)).
  cbn [p_mem p_out]. by rewrite <- !app_assoc.
Qed.

(** ** Where the code fails *)

(** A number of more than 19 digits loses its first ones: [convert] has room
    for 20 characters, and one of them is taken by a NUL nobody reads.  Here
    2^64 - 1 = 18446744073709551615 is printed as 8446744073709551615. *)
Example fmtint_loses_digit :
  fmtint (MkSheet ∅ []) (-1) 10 0 (-1) DP_F_UNSIGNED =
  Done (MkSheet ∅ [56; 52; 52; 54; 55; 52; 52; 48; 55; 51; 55; 48; 57; 53; 53; 49; 54; 49; 53]).
Proof. vm_compute. reflexivity. Qed.

(** Zero padding counts a precision twice: %010.8d prints eight characters. *)
Example fmtint_short :
  fmtint (MkSheet ∅ []) 7 10 10 8 DP_F_ZERO = Done (MkSheet ∅ [48; 48; 48; 48; 48; 48; 48; 55]).
Proof. vm_compute. reflexivity. Qed.

(** %w takes two characters: at the end of a format it steps over the NUL. *)
Example render_overruns :
  render (mem_at 0xC0000000 [37; 119; 0]) 0xC0000000 [] = Fault /\
  exists p, render (mem_at 0xC0000000 [37; 119; 0; 104; 105; 0]) 0xC0000000 [] = Done p /\
    p_out p = [104; 105].
Proof. split; [vm_compute; reflexivity|]. eexists. split; vm_compute; reflexivity. Qed.

(** ** Concrete runs *)

(** "-42" in six columns. *)
Lemma fmtint_roundtrip_witness : exists sp sign zeros digits sp',
  fmtint (MkSheet ∅ []) (-42) 10 6 (-1) 0 = Done (MkSheet ∅ (sp ++ sign ++ zeros ++ digits ++ sp')) /\
  numeral 10 digits = 42.
Proof.
  destruct (fmtint_roundtrip (MkSheet ∅ []) (-42) 10 6 (-1) 0)
    as (sp & sign & zeros & digits & sp' & Hr & _ & _ & _ & Hv & _); [lia|lia|vm_compute; reflexivity|vm_compute; reflexivity|].
  exists sp, sign, zeros, digits, sp'. split; [exact Hr|exact Hv].
Defined.

(** "%d:%s" with 7 and "hi", into eight bytes at 0xC0000200. *)
Definition demo_text : bmem :=
  blit (mem_at 0xC0000000 [37; 100; 58; 37; 115; 0]) 0xC0000100 [104; 105; 0].
Definition demo_buf : bmem := mem_at 0xC0000200 (replicate 8 255).

