(* ===== verification/Sched.v ===== *)
(** * kern/sched.c: the run queues of a processor

    A scheduler has 32 lists of runnable threads in a ring, a position in the
    ring, a bit set of the lists that are not empty, and a list for interrupt
    threads.  A thread is put some lists ahead of the position, depending on its
    priority; the next one to run is the first thread of the first list from
    the position on.

    Each operation runs with the lock of the scheduler and is one step.  The
    switch of stacks and address spaces at the end of [do_schedule] and the
    choice of a processor are not modelled; [same] tells whether a wakeup comes
    from the processor of the scheduler.

    The specification is a single queue: [order] reads the ring from the
    position on.  A normal thread goes to its end, an I/O thread to its front,
    and the first one is taken ([sched_refines]); so a thread in the queue runs
    after everything that is ahead of it ([sched_fair]). *)
From stdpp Require Import base gmap list.
From Stdlib Require Import ZArith Lia.
From S2P Require Import Prelude.
Open Scope Z_scope.

Inductive thread_state := THREAD_SPAWNED | THREAD_RUNNING | THREAD_RUNNABLE | THREAD_SLEEP | THREAD_EXIT.
#[export] Instance thread_state_eq_dec : EqDecision thread_state.
Proof. solve_decision. Defined.

Definition THREAD_DO_SLEEP : Z := 1.
Definition THREAD_INTERRUPTABLE : Z := 2.
Definition THREAD_INTERRUPTED : Z := 4.
Definition THREAD_RESTARTSYS : Z := 8.

Definition SCHEDQ_NLIST : Z := 32.
Definition SCHED_INTR : Z := 0.
Definition SCHED_IO : Z := 1.
Definition SCHED_LOCK : Z := 2.
Definition SCHED_KERNEL : Z := 3.
Definition SCHED_INPUT : Z := 4.
Definition SCHED_SIGNAL : Z := 5.
Definition SCHED_NORMAL : Z := 6.

(** What the scheduler knows of a thread. *)
Record thread_t := MkThread {
  state : thread_state; sflags : Z; prio : Z; sched_prio : Z; runq_idx : Z; intr : Z }.

Definition set_state (th : thread_t) (x : thread_state) : thread_t :=
  MkThread x (sflags th) (prio th) (sched_prio th) (runq_idx th) (intr th).
Definition set_sflags (th : thread_t) (x : Z) : thread_t :=
  MkThread (state th) x (prio th) (sched_prio th) (runq_idx th) (intr th).
Definition set_intr (th : thread_t) (x : Z) : thread_t :=
  MkThread (state th) (sflags th) (prio th) (sched_prio th) (runq_idx th) x.
Definition set_idx (th : thread_t) (x : Z) : thread_t :=
  MkThread (state th) (sflags th) (prio th) (sched_prio th) x (intr th).
Definition set_sprio (th : thread_t) (x : Z) : thread_t :=
  MkThread (state th) (sflags th) (prio th) x (runq_idx th) (intr th).

Record scheduler_t := MkSched {
  cur : Z; idle : Z;
  nthread : Z; runq : list (list Z); runq_intr : list Z; runq_ptr : Z; not_empty : Z;
  needed : bool; timer_on : bool; exit_thread : option Z;
  threads : gmap Z thread_t;
}.

Definition with_threads (s : scheduler_t) (x : gmap Z thread_t) : scheduler_t :=
  MkSched (cur s) (idle s) (nthread s) (runq s) (runq_intr s) (runq_ptr s) (not_empty s)
    (needed s) (timer_on s) (exit_thread s) x.
Definition with_queues (s : scheduler_t) (n : Z) (q : list (list Z)) (i : list Z) (p b : Z) : scheduler_t :=
  MkSched (cur s) (idle s) n q i p b (needed s) (timer_on s) (exit_thread s) (threads s).
Definition with_cur (s : scheduler_t) (t : Z) (e : option Z) : scheduler_t :=
  MkSched t (idle s) (nthread s) (runq s) (runq_intr s) (runq_ptr s) (not_empty s)
    (needed s) (timer_on s) e (threads s).
Definition with_timer (s : scheduler_t) (b : bool) : scheduler_t :=
  MkSched (cur s) (idle s) (nthread s) (runq s) (runq_intr s) (runq_ptr s) (not_empty s)
    (needed s) b (exit_thread s) (threads s).
Definition schedule_async (s : scheduler_t) : scheduler_t :=
  MkSched (cur s) (idle s) (nthread s) (runq s) (runq_intr s) (runq_ptr s) (not_empty s)
    true (timer_on s) (exit_thread s) (threads s).
Definition put (s : scheduler_t) (t : Z) (th : thread_t) : scheduler_t :=
  with_threads s (<[t := th]> (threads s)).

Definition isset (x f : Z) : bool := negb (Z.land x f =? 0).
Definition clr (x f : Z) : Z := Z.land x (Z.lnot f).

(** [ffs] of elos/bitops.h: one more than the index of the lowest bit, 0 for 0. *)
Fixpoint ffs_loop (n : nat) (i x : Z) : Z :=
  match n with
  | O => 0
  | S n => if Z.testbit x i then i + 1 else ffs_loop n (i + 1) x
  end.
Definition ffs (x : Z) : Z := ffs_loop 32 0 x.

(** ** Choosing the next thread *)

(** The index of the list [sched_choose] takes from. *)
Definition choose_ptr (s : scheduler_t) : res Z :=
  kassert negb (not_empty s =? 0) in
  let ptr := ffs (Z.shiftr (not_empty s) (runq_ptr s)) in
  if negb (ptr =? 0) then Done (ptr + runq_ptr s - 1) else
  let ptr := ffs (not_empty s) in
  kassert 0 <? ptr in Done (ptr - 1).

Definition choose_out (s : scheduler_t) (t : Z) : res (Z * scheduler_t) :=
  let* th := deref (threads s !! t) in
  kassert negb (bool_decide (state th = THREAD_EXIT)) in
  Done (t, put s t (set_state (set_idx th 255) THREAD_RUNNING)).

Definition sched_choose (s : scheduler_t) : res (Z * scheduler_t) :=
  if nthread s =? 0 then Done (idle s, s) else
  let n := nthread s - 1 in
  match runq_intr s with
  | t :: l => choose_out (with_queues s n (runq s) l (runq_ptr s) (not_empty s)) t
  | [] =>
      let* ptr := choose_ptr s in
      let* q := deref (runq s !! Z.to_nat ptr) in
      match q with
      | [] => Panic
      | t :: l =>
          let b := match l with [] => Z.clearbit (not_empty s) ptr | _ => not_empty s end in
          choose_out (with_queues s n (<[Z.to_nat ptr := l]> (runq s)) [] ptr b) t
      end
  end.

(** ** Adding a thread *)

(** How many lists ahead a thread goes; [SCHED_IO] and [SCHED_INTR] are
    handled apart. *)
Definition prio_off (p : Z) : res Z :=
  if p =? SCHED_INPUT then Done 4 else
  if p =? SCHED_SIGNAL then Done 3 else
  if p =? SCHED_KERNEL then Done 2 else
  if p =? SCHED_LOCK then Done 1 else
  if p =? SCHED_NORMAL then Done (SCHEDQ_NLIST - 1) else Panic.

Definition scheduler_add_thread (s : scheduler_t) (t p : Z) : res scheduler_t :=
  let* th := deref (threads s !! t) in
  kassert negb (bool_decide (state th = THREAD_EXIT)) in
  let th := set_sprio th p in
  let th := if bool_decide (state th = THREAD_SPAWNED) then th else set_state th THREAD_RUNNABLE in
  let n := nthread s + 1 in
  if p =? SCHED_INTR then
    Done (put (with_queues s n (runq s) (runq_intr s ++ [t]) (runq_ptr s) (not_empty s)) t th)
  else if p =? SCHED_IO then
    let ptr := runq_ptr s in
    let* q := deref (runq s !! Z.to_nat ptr) in
    Done (put (with_queues s n (<[Z.to_nat ptr := t :: q]> (runq s)) (runq_intr s) (runq_ptr s)
                 (Z.setbit (not_empty s) ptr)) t (set_idx th ptr))
  else
    let* off := prio_off p in
    let ptr := (runq_ptr s + off) mod SCHEDQ_NLIST in
    let* q := deref (runq s !! Z.to_nat ptr) in
    Done (put (with_queues s n (<[Z.to_nat ptr := q ++ [t]]> (runq s)) (runq_intr s) (runq_ptr s)
                 (Z.setbit (not_empty s) ptr)) t (set_idx th ptr)).

(** ** Sleeping, waking up, interrupts *)

Definition sched_set_inactive (s : scheduler_t) (intr : bool) : res scheduler_t :=
  let* th := deref (threads s !! cur s) in
  kassert negb (isset (sflags th) THREAD_INTERRUPTABLE) in
  if intr && isset (sflags th) THREAD_INTERRUPTED then Done s else
  let f := if intr then Z.lor (sflags th) THREAD_INTERRUPTABLE else sflags th in
  Done (put s (cur s) (set_sflags th (Z.lor f THREAD_DO_SLEEP))).

(** The flag of the result asks for an interrupt on the other processor. *)
Definition sched_wakeup_thread (s : scheduler_t) (same : bool) (t p : Z) : res (scheduler_t * bool) :=
  let* th := deref (threads s !! t) in
  kassert negb (bool_decide (state th = THREAD_EXIT)) in
  let* '(s, ipi) :=
    match state th with
    | THREAD_RUNNING => Done (put s t (set_sflags th (clr (sflags th) THREAD_DO_SLEEP)), false)
    | THREAD_SLEEP =>
        let* s := scheduler_add_thread s t (Z.min p (prio th)) in
        let* hot := if p =? SCHED_INTR
          then let* c := deref (threads s !! cur s) in Done (negb (sched_prio c =? SCHED_INTR))
          else Done false in
        if hot || negb (timer_on s)
        then Done (if same then (schedule_async s, false) else (s, true))
        else Done (s, false)
    | _ => Done (s, false)
    end in
  let* th := deref (threads s !! t) in
  Done (put s t (set_sflags th (clr (sflags th) THREAD_INTERRUPTABLE)), ipi).

Definition sched_pending_intr (s : scheduler_t) : res (Z * scheduler_t) :=
  let* th := deref (threads s !! cur s) in
  if isset (sflags th) THREAD_INTERRUPTED then
    let th' := set_sflags th (clr (sflags th) (Z.lor THREAD_INTERRUPTED THREAD_RESTARTSYS)) in
    Done (intr th, put s (cur s) (set_intr th' 0))
  else Done (0, s).

Definition sched_interrupt (s : scheduler_t) (same : bool) (t p i fl : Z) : res (scheduler_t * bool) :=
  let* th := deref (threads s !! t) in
  let* '(s, ipi) :=
    if negb (isset (sflags th) THREAD_INTERRUPTED) && isset (sflags th) THREAD_INTERRUPTABLE
    then sched_wakeup_thread s same t p else Done (s, false) in
  let* th := deref (threads s !! t) in
  Done (put s t (set_sflags (set_intr th (Z.lor (intr th) i)) (Z.lor (sflags th) (Z.lor fl THREAD_INTERRUPTED))), ipi).

Definition sched_interrupted (s : scheduler_t) : res Z :=
  let* th := deref (threads s !! cur s) in
  if isset (sflags th) THREAD_INTERRUPTED then
    kassert negb (isset (sflags th) THREAD_INTERRUPTABLE) in
    Done (if isset (sflags th) THREAD_RESTARTSYS then - ERESTART else - EINTR)
  else Done 0.

Definition sched_has_runnable (s : scheduler_t) : bool := negb (nthread s =? 0).

(** ** Switching *)

(** The part of [do_schedule] that puts the thread that ran away. *)
Definition put_back (s : scheduler_t) : res scheduler_t :=
  let last := cur s in
  if last =? idle s then Done s else
  let* th := deref (threads s !! last) in
  if bool_decide (state th = THREAD_EXIT) then Done s else
  if isset (sflags th) THREAD_DO_SLEEP then
    Done (put s last (set_state (set_sflags th (clr (sflags th) THREAD_DO_SLEEP)) THREAD_SLEEP))
  else scheduler_add_thread s last (prio th).

(** The rest of [do_schedule], after [t] has been chosen. *)
Definition switch_to (s : scheduler_t) (last t : Z) : res scheduler_t :=
  let s := with_timer s (negb (t =? idle s)) in
  let* th := deref (threads s !! last) in
  if t =? last then
    kassert negb (bool_decide (state th = THREAD_EXIT)) in Done (with_cur s t (exit_thread s))
  else if bool_decide (state th = THREAD_EXIT) then
    kassert bool_decide (exit_thread s = None) in Done (with_cur s t (Some last))
  else Done (with_cur s t (exit_thread s)).

Definition do_schedule (s : scheduler_t) : res scheduler_t :=
  let last := cur s in
  if last =? 0 then Done s else
  let* s := put_back s in
  let* '(t, s) := sched_choose s in
  switch_to s last t.

(** The thread that has exited is freed on another stack. *)
Definition sched_exit_free (s : scheduler_t) : scheduler_t := with_cur s (cur s) None.

Definition schedule (s : scheduler_t) : res scheduler_t :=
  let* s := do_schedule s in Done (sched_exit_free s).

Definition resched_needed (s : scheduler_t) : scheduler_t * bool :=
  (MkSched (cur s) (idle s) (nthread s) (runq s) (runq_intr s) (runq_ptr s) (not_empty s)
     false (timer_on s) (exit_thread s) (threads s), needed s).

(** [sched_need_resched] is [resched_needed]; [sched_tick] is [schedule_async].
    [sched_intr_preempt]: the loop is left once nobody asks for a switch. *)
Fixpoint preempt_loop (n : nat) (s : scheduler_t) : res scheduler_t :=
  match n with
  | O => Stuck
  | S n =>
      let '(s, again) := resched_needed s in
      if again then let* s := do_schedule s in preempt_loop n (sched_exit_free s) else Done s
  end.
Definition sched_intr_preempt (running : bool) (s : scheduler_t) : res scheduler_t :=
  if running then preempt_loop 2 s else Done s.

(** ** Start, new threads *)

(** [s] is the zeroed per-processor data, with the threads allocated so far. *)
Definition scheduler_init (s : scheduler_t) (idle boot : Z) : scheduler_t :=
  MkSched boot idle 0 (replicate (Z.to_nat SCHEDQ_NLIST) []) [] 0 (not_empty s)
    (needed s) false (exit_thread s) (threads s).

(** The processors: whether each one runs, and its scheduler. *)
Definition cpus := list (bool * scheduler_t).

Fixpoint best_loop (l : cpus) (i : nat) (best : option (nat * Z)) : option (nat * Z) :=
  match l with
  | [] => best
  | (running, s) :: l =>
      let best := if running && match best with None => true | Some (_, n) => nthread s <? n end
                  then Some (i, nthread s) else best in
      best_loop l (S i) best
  end.

(** [me] is the processor of the caller. *)
Definition sched_add_thread (cs : cpus) (me : nat) (t : Z) (th : thread_t) : res (cpus * bool) :=
  let th := set_idx th 255 in
  match best_loop cs 0 None with
  | None => Panic
  | Some (i, _) =>
      let* '(running, s) := deref (cs !! i) in
      let* s := scheduler_add_thread (put s t th) t (prio th) in
      if timer_on s then Done (<[i := (running, s)]> cs, false)
      else if bool_decide (i = me) then Done (<[i := (running, with_timer s true)]> cs, false)
      else Done (<[i := (running, s)]> cs, true)
  end.

(** ** The ring *)

Definition rot (p : nat) (q : list (list Z)) : list (list Z) := drop p q ++ take p q.
Definition order (s : scheduler_t) : list Z := concat (rot (Z.to_nat (runq_ptr s)) (runq s)).
Definition queued (s : scheduler_t) : list Z := runq_intr s ++ concat (runq s).

Lemma length_rot p q : length (rot p q) = length q.
Proof. unfold rot. rewrite length_app, length_drop, length_take. lia. Qed.

Lemma rot_lookup p q (k : nat) : (p < length q)%nat -> (k < length q)%nat ->
  rot p q !! k = q !! ((p + k) mod length q)%nat.
Proof.
  intros Hp Hk. unfold rot. destruct (decide (p + k < length q)%nat) as [H|H].
  - rewrite lookup_app_l by (rewrite length_drop; lia). rewrite lookup_drop, Nat.mod_small by lia. done.
  - rewrite lookup_app_r by (rewrite length_drop; lia). rewrite length_drop, lookup_take_lt by lia.
    f_equal. apply (Nat.mod_unique _ _ 1); lia.
Qed.

Lemma rot_insert p q (k : nat) y : (p < length q)%nat -> (k < length q)%nat ->
  rot p (<[((p + k) mod length q)%nat := y]> q) = <[k := y]> (rot p q).
Proof.
  intros Hp Hk. apply list_eq. intros i. destruct (decide (i < length q)%nat) as [Hi|Hi].
  - rewrite rot_lookup by (rewrite length_insert; lia). rewrite length_insert.
    assert (Hm : forall a, (a mod length q < length q)%nat) by (intros a; apply Nat.mod_upper_bound; lia).
    destruct (decide (i = k)) as [->|Hne].
    + rewrite !list_lookup_insert_eq; [done|rewrite length_rot; lia|apply Hm].
    + rewrite (list_lookup_insert_ne _ k) by done. rewrite rot_lookup by lia. apply list_lookup_insert_ne.
      intros E. apply Hne. clear Hm.
      destruct (decide (p + k < length q)%nat), (decide (p + i < length q)%nat);
        rewrite ?(Nat.mod_small (p + k)), ?(Nat.mod_small (p + i)) in E by lia;
        try (replace (p + k)%nat with (p + k - length q + 1 * length q)%nat in E by lia;
             rewrite Nat.Div0.mod_add, (Nat.mod_small (p + k - length q)) in E by lia);
        try (replace (p + i)%nat with (p + i - length q + 1 * length q)%nat in E by lia;
             rewrite Nat.Div0.mod_add, (Nat.mod_small (p + i - length q)) in E by lia); lia.
  - rewrite !lookup_ge_None_2; rewrite ?length_insert, ?length_rot, ?length_insert; lia || done.
Qed.

Lemma concat_insert (l : list (list Z)) (k : nat) x y : l !! k = Some x ->
  concat (<[k := y]> l) = concat (take k l) ++ y ++ concat (drop (S k) l).
Proof.
  intros Hk. rewrite insert_take_drop by (by apply lookup_lt_Some in Hk). by rewrite concat_app.
Qed.

Lemma concat_split (l : list (list Z)) (k : nat) x : l !! k = Some x ->
  concat l = concat (take k l) ++ x ++ concat (drop (S k) l).
Proof. intros Hk. rewrite <- (list_insert_id l k x Hk) at 1. by apply (concat_insert l k x). Qed.

(** Reading the ring from the position permutes it. *)
Lemma order_perm s : order s ≡ₚ concat (runq s).
Proof.
  unfold order, rot. rewrite <- (take_drop (Z.to_nat (runq_ptr s)) (runq s)) at 3.
  rewrite !concat_app. solve_Permutation.
Qed.

Lemma concat_nil (l : list (list Z)) : (forall i x, l !! i = Some x -> x = []) -> concat l = [].
Proof.
  induction l as [|y l IH]; intros H; [done|]. simpl. rewrite (H O y eq_refl). simpl.
  apply IH. intros i x. apply (H (S i)).
Qed.

(** Index [j] is the first list with a thread, from [p] on around the ring. *)
Definition first_from (q : list (list Z)) (p j : nat) : Prop :=
  (p <= j)%nat /\ (forall i x, (p <= i < j)%nat -> q !! i = Some x -> x = []) \/
  (j < p)%nat /\ (forall i x, (p <= i)%nat -> q !! i = Some x -> x = []) /\
  (forall i x, (i < j)%nat -> q !! i = Some x -> x = []).

Lemma ring_pop q p j t l : (p < length q)%nat -> q !! j = Some (t :: l) -> first_from q p j ->
  concat (rot p q) = t :: concat (rot j (<[j := l]> q)).
Proof.
  intros Hp Hj Hf. assert (Hjl : (j < length q)%nat) by (by apply lookup_lt_Some in Hj).
  unfold rot. rewrite insert_take_drop by done.
  assert (Hl : length (take j q) = j) by (rewrite length_take; lia).
  rewrite drop_app_ge, take_app_le by lia. rewrite Hl, Nat.sub_diag. simpl drop. rewrite (take_ge (take j q)) by lia.
  assert (Hsplit : q = take j q ++ (t :: l) :: drop (S j) q) by (symmetry; by apply take_drop_middle).
  destruct Hf as [[Hpj He]|(Hjp & He1 & He2)].
  - assert (E : concat (take j q) = concat (take p q)).
    { rewrite <- (take_drop p (take j q)), take_take, Nat.min_l, concat_app by lia.
      rewrite (concat_nil (drop p (take j q))); [by rewrite app_nil_r|].
      intros i x Hi. rewrite lookup_drop in Hi. assert (p + i < j)%nat by (apply lookup_lt_Some in Hi; lia).
      rewrite lookup_take_lt in Hi by done. apply (He (p + i)%nat); [lia|done]. }
    assert (Ed : concat (drop p q) = t :: l ++ concat (drop (S j) q)).
    { rewrite (concat_split (drop p q) (j - p) (t :: l)) by (rewrite lookup_drop; rewrite <- Hj; f_equal; lia).
      rewrite (concat_nil (take (j - p) (drop p q))).
      - rewrite drop_drop. simpl. do 4 f_equal. lia.
      - intros i x Hi. assert (i < j - p)%nat by (apply lookup_lt_Some in Hi; rewrite length_take in Hi; lia).
        rewrite lookup_take_lt, lookup_drop in Hi by done. apply (He (p + i)%nat); [lia|done]. }
    rewrite !concat_app, Ed. simpl. by rewrite E, <- app_assoc.
  - assert (E0 : concat (drop p q) = []).
    { apply concat_nil. intros i x Hi. rewrite lookup_drop in Hi. apply (He1 (p + i)%nat); [lia|done]. }
    assert (E1 : concat (take j q) = []).
    { apply concat_nil. intros i x Hi. assert (i < j)%nat by (apply lookup_lt_Some in Hi; lia).
      rewrite lookup_take_lt in Hi by done. by apply (He2 i). }
    rewrite !concat_app, E0, E1, app_nil_r. simpl app at 1.
    assert (E2 : concat (drop (S j) q) = concat (drop (S j) (take p q))).
    { rewrite <- (take_drop p q) at 1. rewrite drop_app_le by (rewrite length_take; lia).
      by rewrite concat_app, E0, app_nil_r. }
    rewrite (concat_split (take p q) j (t :: l)) by (by rewrite lookup_take_lt).
    rewrite take_take, Nat.min_l, E1 by lia. simpl. by rewrite E2.
Qed.

(** ** The invariant *)

Record ring_inv (s : scheduler_t) : Prop := {
  r_len : length (runq s) = 32%nat;
  r_ptr : 0 <= runq_ptr s < 32;
  r_bits i : 0 <= i -> Z.testbit (not_empty s) i = true <-> exists t l, runq s !! Z.to_nat i = Some (t :: l);
  r_num : nthread s = Z.of_nat (length (queued s));
  r_nodup : NoDup (queued s);
}.

(** Queues and threads agree. *)
Record base_inv (s : scheduler_t) : Prop := {
  k_ring : ring_inv s;
  k_queued t : t ∈ queued s -> exists th, threads s !! t = Some th /\
    (state th = THREAD_RUNNABLE \/ state th = THREAD_SPAWNED);
  k_runnable t th : threads s !! t = Some th -> state th = THREAD_RUNNABLE -> t ∈ queued s;
  k_prio t th : threads s !! t = Some th -> 0 <= prio th <= 6;
  k_idle : idle s ∉ queued s;
  k_null : threads s !! 0 = None;
  k_idle_state : exists th, threads s !! idle s = Some th /\ state th <> THREAD_EXIT /\ state th <> THREAD_SLEEP;
}.

(** The thread that runs is not in a queue. *)
Record sched_inv (s : scheduler_t) : Prop := {
  k_base : base_inv s;
  k_cur : cur s <> idle s -> exists th, threads s !! cur s = Some th /\
    (state th = THREAD_RUNNING \/ state th = THREAD_EXIT);
  k_exit : exit_thread s = None;
}.

Lemma ffs_loop_spec n : forall i x,
  (ffs_loop n i x = 0 /\ forall j, i <= j < i + Z.of_nat n -> Z.testbit x j = false) \/
  exists j, i <= j < i + Z.of_nat n /\ ffs_loop n i x = j + 1 /\ Z.testbit x j = true /\
    forall k, i <= k < j -> Z.testbit x k = false.
Proof.
  induction n as [|n IH]; intros i x; cbn [ffs_loop]; [left; split; [done|lia]|].
  destruct (Z.testbit x i) eqn:E; [right; exists i; split_and!; (done || lia)|].
  destruct (IH (i + 1) x) as [[-> H]|(j & Hj & -> & H1 & H2)].
  - left. split; [done|]. intros j Hj. destruct (Z.eq_dec j i) as [->|]; [done|]. apply H. lia.
  - right. exists j. split_and!; [lia|lia|done|done|].
    intros k Hk. destruct (Z.eq_dec k i) as [->|]; [done|]. apply H2. lia.
Qed.

(** [choose_ptr] finds the first list that is not empty. *)
Lemma choose_ptr_spec s : ring_inv s -> concat (runq s) <> [] ->
  exists j t l, choose_ptr s = Done (Z.of_nat j) /\ runq s !! j = Some (t :: l) /\
    first_from (runq s) (Z.to_nat (runq_ptr s)) j.
Proof.
  intros I Hne. pose proof (r_len _ I) as Hlen. pose proof (r_ptr _ I) as Hp.
  assert (Hclr : forall i x, Z.testbit (not_empty s) (Z.of_nat i) = false -> runq s !! i = Some x -> x = []).
  { intros i [|t l] Hb Hi; [done|]. assert (Z.testbit (not_empty s) (Z.of_nat i) = true); [|congruence].
    apply (r_bits _ I); [lia|]. rewrite Nat2Z.id. eauto. }
  assert (Hset : forall j, 0 <= j -> Z.testbit (not_empty s) j = true ->
    exists t l, runq s !! Z.to_nat j = Some (t :: l) /\ j < 32).
  { intros j Hj Hb. apply (r_bits _ I) in Hb as (t & l & Hi); [|done]. exists t, l. split; [done|].
    apply lookup_lt_Some in Hi. lia. }
  unfold choose_ptr. destruct (Z.eqb_spec (not_empty s) 0) as [E0|_].
  { destruct Hne. apply concat_nil. intros i x Hi. apply (Hclr i); [|done]. rewrite E0. apply Z.testbit_0_l. }
  cbn [negb]. unfold ffs.
  destruct (ffs_loop_spec 32 0 (Z.shiftr (not_empty s) (runq_ptr s))) as [[-> Hz]|(j & Hj & -> & Hb & Hz)].
  - cbn [Z.eqb negb].
    assert (Hhi : forall i, runq_ptr s <= i -> Z.testbit (not_empty s) i = false).
    { intros i Hi. destruct (Z.testbit (not_empty s) i) eqn:E; [|done].
      destruct (Hset i ltac:(lia) E) as (t & l & _ & Hlt).
      specialize (Hz (i - runq_ptr s) ltac:(lia)). rewrite Z.shiftr_spec in Hz by lia.
      replace (i - runq_ptr s + runq_ptr s) with i in Hz by lia. congruence. }
    destruct (ffs_loop_spec 32 0 (not_empty s)) as [[_ Hz']|(j & Hj & -> & Hb & Hz')].
    + destruct Hne. apply concat_nil. intros i x Hi. apply (Hclr i); [|done]. apply Hz'.
      apply lookup_lt_Some in Hi. lia.
    + destruct (Hset j ltac:(lia) Hb) as (t & l & Hi & _). exists (Z.to_nat j), t, l.
      destruct (Z.ltb_spec 0 (j + 1)); [|lia]. split; [f_equal; lia|]. split; [done|]. right.
      assert (j < runq_ptr s) by (destruct (Z.ltb_spec j (runq_ptr s)); [done|]; rewrite Hhi in Hb; done).
      split; [lia|]. split.
      * intros i x Hpi. apply Hclr. apply Hhi. lia.
      * intros i x Hij. apply Hclr. apply Hz'. lia.
  - rewrite Z.shiftr_spec in Hb by lia.
    destruct (Hset (j + runq_ptr s) ltac:(lia) Hb) as (t & l & Hi & _). exists (Z.to_nat (j + runq_ptr s)), t, l.
    destruct (Z.eqb_spec (j + 1) 0); [lia|]. cbn [negb]. split; [f_equal; lia|]. split; [done|]. left.
    split; [lia|]. intros i x Hpi. apply Hclr. specialize (Hz (Z.of_nat i - runq_ptr s) ltac:(lia)).
    rewrite Z.shiftr_spec in Hz by lia. by replace (Z.of_nat i - runq_ptr s + runq_ptr s) with (Z.of_nat i) in Hz by lia.
Qed.

(** The bit set after one list has changed. *)
Lemma bits_update s j x b : ring_inv s -> (j < 32)%nat ->
  (forall i, 0 <= i -> Z.testbit b i = if Z.eqb i (Z.of_nat j) then match x with [] => false | _ => true end
                                        else Z.testbit (not_empty s) i) ->
  forall i, 0 <= i -> Z.testbit b i = true <-> exists t l, <[j := x]> (runq s) !! Z.to_nat i = Some (t :: l).
Proof.
  intros I Hj Hb i Hi. rewrite Hb by done. destruct (Z.eqb_spec i (Z.of_nat j)) as [->|Hne].
  - rewrite Nat2Z.id, list_lookup_insert_eq by (rewrite (r_len _ I); lia).
    destruct x; split; try done; [by intros (? & ? & [=])|eauto].
  - rewrite list_lookup_insert_ne by lia. by apply (r_bits _ I).
Qed.

Lemma perm_pop s j t l : runq s !! j = Some (t :: l) ->
  concat (runq s) ≡ₚ t :: concat (<[j := l]> (runq s)).
Proof.
  intros Hj. rewrite (concat_split _ _ _ Hj), (concat_insert _ _ _ l Hj). solve_Permutation.
Qed.

Lemma perm_push s j x y t : runq s !! j = Some x -> y ≡ₚ t :: x ->
  concat (<[j := y]> (runq s)) ≡ₚ t :: concat (runq s).
Proof.
  intros Hj Hy. rewrite (concat_split _ _ _ Hj), (concat_insert _ _ _ y Hj), Hy. solve_Permutation.
Qed.

(** ** One queue *)

(** What the scheduler looks like from outside: the interrupt threads and the
    others, both in the order in which they will run. *)
Definition absq (s : scheduler_t) : list Z * list Z := (runq_intr s, order s).

(** Where a thread of priority [p] is put. *)
Definition insert_at (p t : Z) (a a' : list Z * list Z) : Prop :=
  if p =? SCHED_INTR then a' = (a.1 ++ [t], a.2) else
  a'.1 = a.1 /\
  if p =? SCHED_IO then a'.2 = t :: a.2 else
  if p =? SCHED_NORMAL then a'.2 = a.2 ++ [t] else
  exists x y, a.2 = x ++ y /\ a'.2 = x ++ t :: y.

(** Fields that an operation on the queues keeps. *)
Definition same_rest (s s' : scheduler_t) : Prop :=
  cur s' = cur s /\ idle s' = idle s /\ exit_thread s' = exit_thread s /\ timer_on s' = timer_on s /\ needed s' = needed s.

Lemma choose_ring s : ring_inv s ->
  (forall t, t ∈ queued s -> exists th, threads s !! t = Some th /\ state th <> THREAD_EXIT) ->
  (queued s = [] /\ sched_choose s = Done (idle s, s)) \/
  exists t th s', sched_choose s = Done (t, s') /\ threads s !! t = Some th /\ ring_inv s' /\
    queued s ≡ₚ t :: queued s' /\
    threads s' = <[t := set_state (set_idx th 255) THREAD_RUNNING]> (threads s) /\
    runq_intr s ++ order s = t :: runq_intr s' ++ order s' /\
    (runq_intr s = [] -> runq_intr s' = []) /\ same_rest s s'.
Proof.
  intros I Hth. unfold sched_choose.
  destruct (Z.eqb_spec (nthread s) 0) as [E0|E0].
  { left. split; [|done]. rewrite (r_num _ I) in E0. destruct (queued s); [done|simpl in E0; lia]. }
  right. pose proof (r_nodup _ I) as Hnd. destruct (runq_intr s) as [|t l] eqn:Ei.
  - assert (Eq : queued s = concat (runq s)) by (unfold queued; by rewrite Ei).
    destruct (choose_ptr_spec s I) as (j & t & l & -> & Hj & Hf).
    { intros E. rewrite (r_num _ I), Eq, E in E0. done. }
    cbn [rbind]. rewrite Nat2Z.id, Hj. cbn [deref rbind].
    pose proof (perm_pop s j t l Hj) as Hperm.
    destruct (Hth t) as (th & Ht & Hx); [rewrite Eq, Hperm; constructor|].
    assert (Hjl : (j < 32)%nat) by (apply lookup_lt_Some in Hj; rewrite (r_len _ I) in Hj; done).
    unfold choose_out. cbn [with_queues threads]. rewrite Ht. cbn [deref rbind].
    rewrite bool_decide_false by done. cbn [negb]. eexists t, th, _. split; [done|]. split; [done|].
    assert (Hnd' : NoDup (t :: concat (<[j := l]> (runq s)))) by (by rewrite <- Hperm, <- Eq).
    split; [split; unfold queued; simpl|].
    + rewrite length_insert. apply (r_len _ I).
    + lia.
    + apply (bits_update s j l); [done|done|]. intros i Hi. destruct l.
      * rewrite Z.clearbit_eqb by lia. rewrite Z.eqb_sym. destruct (Z.eqb_spec i (Z.of_nat j)); simpl; [by rewrite andb_false_r|by rewrite andb_true_r].
      * destruct (Z.eqb_spec i (Z.of_nat j)) as [->|]; [|done]. apply (r_bits _ I); [lia|]. rewrite Nat2Z.id. eauto.
    + rewrite (r_num _ I), Eq, Hperm. simpl. lia.
    + by apply NoDup_cons in Hnd' as [_ ?].
    + rewrite Eq. unfold queued. simpl. split; [done|]. split; [done|]. split; [|done].
      unfold order. simpl. rewrite Nat2Z.id. apply ring_pop; [|done|done]. rewrite (r_len _ I).
      pose proof (r_ptr _ I). lia.
  - unfold choose_out. destruct (Hth t) as (th & Ht & Hx); [unfold queued; rewrite Ei; constructor|].
    cbn [with_queues threads]. rewrite Ht. cbn [deref rbind]. rewrite bool_decide_false by done. cbn [negb].
    eexists t, th, _. split; [done|]. split; [done|].
    split; [|unfold queued; rewrite Ei; by split_and!].
    split; unfold queued in *; simpl; try apply I.
    + rewrite (r_num _ I). unfold queued. rewrite Ei. simpl. lia.
    + rewrite Ei in Hnd. by apply NoDup_cons in Hnd as [_ ?].
Qed.

Lemma prio_cases p : 0 <= p <= 6 -> p <> SCHED_INTR -> p <> SCHED_IO ->
  exists off, prio_off p = Done off /\ 0 < off < 32 /\ (p = SCHED_NORMAL -> off = 31).
Proof.
  intros Hp H0 H1. unfold SCHED_INTR, SCHED_IO in *.
  assert (p = 2 \/ p = 3 \/ p = 4 \/ p = 5 \/ p = 6) as [->|[->|[->|[->| ->]]]] by lia;
    eexists; (split; [reflexivity|]); split; (lia || done).
Qed.

(** Adding a thread [off] lists ahead, at the front or the end of the list. *)
Lemma push_ring s t th off y n : ring_inv s -> t ∉ queued s -> 0 <= off < 32 ->
  let ptr := (runq_ptr s + off) mod SCHEDQ_NLIST in
  forall x, runq s !! Z.to_nat ptr = Some x -> y ≡ₚ t :: x -> n = nthread s + 1 ->
  let s' := put (with_queues s n (<[Z.to_nat ptr := y]> (runq s)) (runq_intr s) (runq_ptr s)
                   (Z.setbit (not_empty s) ptr)) t th in
  ring_inv s' /\ queued s' ≡ₚ t :: queued s /\
  order s' = concat (take (Z.to_nat off) (rot (Z.to_nat (runq_ptr s)) (runq s))) ++ y ++
             concat (drop (S (Z.to_nat off)) (rot (Z.to_nat (runq_ptr s)) (runq s))) /\
  rot (Z.to_nat (runq_ptr s)) (runq s) !! Z.to_nat off = Some x.
Proof.
  intros I Hnin Hoff ptr x Hx Hy -> s'. pose proof (r_len _ I) as Hlen. pose proof (r_ptr _ I) as Hptr.
  assert (Hp : 0 <= ptr < 32) by (apply Z.mod_pos_bound; done).
  assert (Eptr : Z.to_nat ptr = ((Z.to_nat (runq_ptr s) + Z.to_nat off) mod length (runq s))%nat).
  { rewrite Hlen. unfold ptr, SCHEDQ_NLIST. rewrite Z2Nat.inj_mod, Z2Nat.inj_add by lia. done. }
  assert (Hperm : queued s' ≡ₚ t :: queued s).
  { unfold s', queued. simpl. rewrite (perm_push s _ x y t Hx Hy). solve_Permutation. }
  assert (Hrot : rot (Z.to_nat (runq_ptr s)) (runq s) !! Z.to_nat off = Some x).
  { rewrite rot_lookup by lia. by rewrite <- Eptr. }
  split; [|split; [done|split; [|done]]].
  - split; [| | | |rewrite Hperm; by constructor; [|apply (r_nodup _ I)]].
    + simpl. by rewrite length_insert.
    + done.
    + simpl. apply (bits_update s); [done|lia|]. intros i Hi. rewrite Z.setbit_eqb, Z2Nat.id by lia.
      rewrite Z.eqb_sym. destruct (Z.eqb_spec i ptr); [|done]. simpl.
      destruct y; [by apply Permutation_nil_l in Hy|done].
    + rewrite Hperm. simpl. rewrite (r_num _ I). lia.
  - unfold s', order. simpl. rewrite Eptr, rot_insert by lia. by apply (concat_insert _ _ x).
Qed.

Lemma add_ring s t p th : ring_inv s -> threads s !! t = Some th -> state th <> THREAD_EXIT ->
  t ∉ queued s -> 0 <= p <= 6 ->
  exists s' th', scheduler_add_thread s t p = Done s' /\ ring_inv s' /\ queued s' ≡ₚ t :: queued s /\
    threads s' = <[t := th']> (threads s) /\ prio th' = prio th /\ sflags th' = sflags th /\
    state th' = (if bool_decide (state th = THREAD_SPAWNED) then THREAD_SPAWNED else THREAD_RUNNABLE) /\
    insert_at p t (absq s) (absq s') /\ same_rest s s'.
Proof.
  intros I Ht Hx Hnin Hp. unfold scheduler_add_thread. rewrite Ht. cbn [deref rbind].
  rewrite bool_decide_false by done. cbn [negb]. cbv zeta.
  set (th1 := if bool_decide (state (set_sprio th p) = THREAD_SPAWNED) then _ else _).
  assert (H1 : prio th1 = prio th /\ sflags th1 = sflags th /\
    state th1 = (if bool_decide (state th = THREAD_SPAWNED) then THREAD_SPAWNED else THREAD_RUNNABLE)).
  { unfold th1. simpl. case_bool_decide; simpl; done. }
  clearbody th1. destruct H1 as (H1 & H2 & H3). pose proof (r_len _ I) as Hlen. pose proof (r_ptr _ I) as Hptr.
  destruct (Z.eqb_spec p SCHED_INTR) as [->|Hp0].
  { eexists _, th1. split; [done|]. assert (Hperm : (runq_intr s ++ [t]) ++ concat (runq s) ≡ₚ t :: queued s)
      by (unfold queued; solve_Permutation).
    split; [|by split_and!]. split; unfold queued; simpl; try apply I.
    - rewrite Hperm. simpl. rewrite (r_num _ I). lia.
    - rewrite Hperm. by constructor; [|apply (r_nodup _ I)]. }
  assert (Hget : forall off, 0 <= off < 32 -> exists x, runq s !! Z.to_nat ((runq_ptr s + off) mod SCHEDQ_NLIST) = Some x).
  { intros off Hoff. apply lookup_lt_is_Some. rewrite Hlen.
    pose proof (Z.mod_pos_bound (runq_ptr s + off) SCHEDQ_NLIST ltac:(done)). unfold SCHEDQ_NLIST in *. lia. }
  destruct (Z.eqb_spec p SCHED_IO) as [->|Hp1].
  - destruct (Hget 0 ltac:(lia)) as (x & Hq).
    pose proof (push_ring s t (set_idx th1 (runq_ptr s)) 0 (t :: x) (nthread s + 1) I Hnin ltac:(lia) x Hq ltac:(done) eq_refl) as Hpush.
    rewrite Z.add_0_r, Z.mod_small in Hpush, Hq by (unfold SCHEDQ_NLIST; lia). rewrite Hq. cbn [deref rbind].
    destruct Hpush as (Hi & Hperm & Ho & Hr). eexists _, _. split; [done|].
    split; [done|]. split; [done|]. split; [done|]. split; [done|]. split; [done|]. split; [done|]. split; [|done].
    split; [done|]. simpl. rewrite Ho. simpl. unfold order. by rewrite (concat_split _ _ _ Hr).
  - destruct (prio_cases p Hp Hp0 Hp1) as (off & -> & Hoff & Hnorm). cbn [rbind].
    destruct (Hget off ltac:(lia)) as (x & Hq). rewrite Hq. cbn [deref rbind].
    destruct (push_ring s t (set_idx th1 ((runq_ptr s + off) mod SCHEDQ_NLIST)) off (x ++ [t]) (nthread s + 1) I Hnin ltac:(lia) x Hq
      ltac:(solve_Permutation) eq_refl) as (Hi & Hperm & Ho & Hr).
    eexists _, _. split; [done|]. split; [done|]. split; [done|]. split; [done|]. split; [done|].
    split; [done|]. split; [done|]. split; [|done]. unfold insert_at.
    destruct (Z.eqb_spec p SCHED_INTR); [done|]. destruct (Z.eqb_spec p SCHED_IO); [done|]. split; [done|].
    simpl. rewrite Ho. unfold order. rewrite (concat_split _ _ _ Hr).
    destruct (Z.eqb_spec p SCHED_NORMAL) as [E|E].
    + rewrite (Hnorm E). rewrite (drop_ge _ (S (Z.to_nat 31))) by (rewrite length_rot, Hlen; lia).
      simpl concat. by rewrite !app_nil_r, app_assoc.
    + eexists _, (concat (drop (S (Z.to_nat off)) (rot (Z.to_nat (runq_ptr s)) (runq s)))).
      rewrite !app_assoc. split; [done|]. by rewrite <- !app_assoc.
Qed.

(** ** Operations keep the invariant *)

(** Flags do not matter to the queues. *)
Lemma retag_base s t th th' : base_inv s -> threads s !! t = Some th -> state th' = state th ->
  prio th' = prio th -> base_inv (put s t th').
Proof.
  intros I Ht Hs Hp.
  assert (Hl : forall u x, <[t := th']> (threads s) !! u = Some x ->
    exists y, threads s !! u = Some y /\ state x = state y /\ prio x = prio y).
  { intros u x Hx. destruct (decide (u = t)) as [->|Hne].
    - rewrite lookup_insert_eq in Hx. injection Hx as <-. eauto.
    - rewrite lookup_insert_ne in Hx by congruence. eauto. }
  assert (Hr : forall u y, threads s !! u = Some y ->
    exists x, <[t := th']> (threads s) !! u = Some x /\ state x = state y /\ prio x = prio y).
  { intros u y Hy. destruct (decide (u = t)) as [->|Hne].
    - exists th'. rewrite lookup_insert_eq. split; [done|]. by simplify_eq.
    - exists y. by rewrite lookup_insert_ne by congruence. }
  split; simpl; [destruct (k_ring _ I); by split| | | |apply (k_idle _ I)| |].
  - intros u Hu. destruct (k_queued _ I u Hu) as (y & Hy & Hst). destruct (Hr u y Hy) as (x & Hx & E & _).
    exists x. by rewrite E.
  - intros u x Hx Hst. destruct (Hl u x Hx) as (y & Hy & E & _). apply (k_runnable _ I u y Hy). congruence.
  - intros u x Hx. destruct (Hl u x Hx) as (y & Hy & _ & E). rewrite E. by apply (k_prio _ I u).
  - rewrite lookup_insert_ne by (intros ->; rewrite (k_null _ I) in Ht; done). apply (k_null _ I).
  - destruct (k_idle_state _ I) as (y & Hy & H1 & H2). destruct (Hr _ y Hy) as (x & Hx & E & _).
    exists x. by rewrite E.
Qed.

Lemma retag_inv s t th th' : sched_inv s -> threads s !! t = Some th -> state th' = state th ->
  prio th' = prio th -> sched_inv (put s t th').
Proof.
  intros I Ht Hs Hp. split; simpl; [by apply (retag_base s t th); [apply I|..]| |apply I].
  intros Hc. destruct (k_cur _ I Hc) as (y & Hy & Hst). destruct (decide (cur s = t)) as [E|Hne].
  - exists th'. rewrite E, lookup_insert_eq. split; [done|]. rewrite Hs. by simplify_eq.
  - exists y. by rewrite lookup_insert_ne by congruence.
Qed.

(** Putting a thread that is not in a queue into one. *)
Lemma add_base s t p th : base_inv s -> threads s !! t = Some th -> state th <> THREAD_EXIT ->
  t ∉ queued s -> t <> idle s -> 0 <= p <= 6 ->
  exists s' th', scheduler_add_thread s t p = Done s' /\ base_inv s' /\
    threads s' = <[t := th']> (threads s) /\ prio th' = prio th /\ sflags th' = sflags th /\
    (state th <> THREAD_SPAWNED -> state th' = THREAD_RUNNABLE) /\
    insert_at p t (absq s) (absq s') /\ same_rest s s'.
Proof.
  intros I Ht Hx Hnin Hid Hp.
  destruct (add_ring s t p th (k_ring _ I) Ht Hx Hnin Hp) as (s' & th' & E & Hr & Hperm & Eth & E1 & E2 & E3 & Hins & Hrest).
  exists s', th'. split; [done|]. split; [|split_and!; try done; intros; by rewrite E3, bool_decide_false].
  destruct Hrest as (Ec & Ei & Ee & Et). split; try done; rewrite ?Eth, ?Ei.
  - intros u Hu. rewrite Hperm in Hu. apply elem_of_cons in Hu as [->|Hu].
    + exists th'. rewrite lookup_insert_eq. split; [done|]. rewrite E3. case_bool_decide; auto.
    + destruct (k_queued _ I u Hu) as (y & Hy & Hst). exists y.
      by rewrite lookup_insert_ne by (intros ->; done).
  - intros u x Hu Hst. rewrite Hperm. destruct (decide (u = t)) as [->|Hne]; [constructor|].
    rewrite lookup_insert_ne in Hu by congruence. apply elem_of_cons. right. by apply (k_runnable _ I u x).
  - intros u x Hu. destruct (decide (u = t)) as [->|Hne].
    + rewrite lookup_insert_eq in Hu. injection Hu as <-. rewrite E1. by apply (k_prio _ I t).
    + rewrite lookup_insert_ne in Hu by congruence. by apply (k_prio _ I u).
  - rewrite Hperm. pose proof (k_idle _ I). by intros [?|?]%elem_of_cons.
  - rewrite lookup_insert_ne by (intros ->; rewrite (k_null _ I) in Ht; done). apply (k_null _ I).
  - destruct (k_idle_state _ I) as (y & Hy & H1). exists y. by rewrite lookup_insert_ne by congruence.
Qed.

(** What a wakeup does to a thread. *)
Definition woken (th th' : thread_t) : Prop :=
  state th' = (if bool_decide (state th = THREAD_SLEEP) then THREAD_RUNNABLE else state th) /\
  sflags th' = clr (if bool_decide (state th = THREAD_RUNNING) then clr (sflags th) THREAD_DO_SLEEP
                    else sflags th) THREAD_INTERRUPTABLE.

Lemma isset_clr2 f : isset (clr (clr f THREAD_DO_SLEEP) THREAD_INTERRUPTABLE) THREAD_DO_SLEEP = false.
Proof.
  unfold isset, clr. rewrite <- !Z.land_assoc. apply negb_false_iff, Z.eqb_eq.
  change (Z.land (Z.lnot THREAD_DO_SLEEP) (Z.land (Z.lnot THREAD_INTERRUPTABLE) THREAD_DO_SLEEP)) with 0.
  apply Z.land_0_r.
Qed.

(** [sched_wakeup_thread]: a sleeping thread is put into the queue, a thread
    that is about to sleep stays awake. *)
Lemma wakeup_spec s same t p th : sched_inv s -> threads s !! t = Some th -> state th <> THREAD_EXIT ->
  0 <= p <= 6 -> is_Some (threads s !! cur s) ->
  exists s' ipi th', sched_wakeup_thread s same t p = Done (s', ipi) /\ sched_inv s' /\
    cur s' = cur s /\ idle s' = idle s /\ threads s' = <[t := th']> (threads s) /\ prio th' = prio th /\
    woken th th' /\
    (if bool_decide (state th = THREAD_SLEEP)
     then insert_at (Z.min p (prio th)) t (absq s) (absq s') else absq s' = absq s).
Proof.
  intros I Ht Hx Hp [tc Htc]. unfold sched_wakeup_thread. rewrite Ht. cbn [deref rbind].
  rewrite bool_decide_false by done. cbn [negb].
  destruct (state th) eqn:Est; try done.
  - cbn [rbind]. rewrite Ht. cbn [deref rbind]. eexists _, _, _. split; [done|].
    split; [by eapply retag_inv|]. split_and!; try done; split; simpl; by rewrite Est.
  - cbn [rbind put with_threads threads]. rewrite lookup_insert_eq. cbn [deref rbind]. eexists _, _, _.
    split; [done|]. split; [|simpl; rewrite insert_insert_eq; split_and!; try done; split; simpl; by rewrite Est].
    eapply (retag_inv _ t); [by eapply retag_inv|simpl; by rewrite lookup_insert_eq|done|done].
  - cbn [rbind]. rewrite Ht. cbn [deref rbind]. eexists _, _, _. split; [done|].
    split; [by eapply retag_inv|]. split_and!; try done; split; simpl; by rewrite Est.
  - assert (Hnq : t ∉ queued s) by (intros Hq; destruct (k_queued _ (k_base _ I) t Hq) as (y & Hy & [?|?]); congruence).
    destruct (k_idle_state _ (k_base _ I)) as (ti & Hti & _ & Hti2).
    assert (Hid : t <> idle s) by (intros ->; congruence).
    pose proof (k_prio _ (k_base _ I) t th Ht).
    destruct (add_base s t (Z.min p (prio th)) th (k_base _ I) Ht ltac:(congruence) Hnq Hid ltac:(lia))
      as (s1 & th1 & -> & I1 & Eth & E1 & E2 & E3 & Hins & Ec & Ei & Ee & Etm).
    cbn [rbind]. specialize (E3 ltac:(congruence)).
    assert (Hcur : exists c, threads s1 !! cur s1 = Some c).
    { rewrite Eth, Ec. destruct (decide (cur s = t)) as [->|]; [rewrite lookup_insert_eq; eauto|].
      rewrite lookup_insert_ne by congruence. eauto. }
    destruct Hcur as [c Hc].
    assert (I2 : sched_inv s1).
    { split; [done| |by rewrite Ee; apply I]. rewrite Ec, Ei, Eth. intros Hne. destruct (k_cur _ I Hne) as (y & Hy & Hst).
      exists y. rewrite lookup_insert_ne; [done|]. intros ->. destruct Hst; congruence. }
    assert (Hgo : exists s2 ipi, (let* hot := if p =? SCHED_INTR then let* c := deref (threads s1 !! cur s1) in
            Done (negb (sched_prio c =? SCHED_INTR)) else Done false in
          if hot || negb (timer_on s1) then Done (if same then (schedule_async s1, false) else (s1, true))
          else Done (s1, false)) = Done (s2, ipi) /\ (s2 = s1 \/ s2 = schedule_async s1)).
    { rewrite Hc. cbn [deref rbind]. destruct (p =? SCHED_INTR); cbn [rbind]; case_match; try destruct same; eauto. }
    destruct Hgo as (s2 & ipi & -> & Hs2). cbn [rbind].
    assert (E : threads s2 = threads s1 /\ cur s2 = cur s1 /\ idle s2 = idle s1 /\ absq s2 = absq s1 /\ sched_inv s2).
    { destruct Hs2 as [->| ->]; [done|]. split_and!; try done. destruct I2 as [[R1 R2 R3 R4 R5 R6 R9] R7 R8].
      split; [split; [destruct R1; by split|done..]|done|done]. }
    destruct E as (E4 & E5 & E6 & E7 & I3). rewrite E4, Eth, lookup_insert_eq. cbn [deref rbind].
    eexists _, _, _. split; [done|]. split; [eapply (retag_inv s2 t); [done|by rewrite E4, Eth, lookup_insert_eq|done|done]|].
    rewrite bool_decide_true by done. simpl. rewrite E4, Eth, insert_insert_eq.
    split; [congruence|]. split; [congruence|]. split; [done|]. split; [done|].
    split; [split; simpl; rewrite ?E2, Est; done|]. unfold absq in *. simpl. unfold order in *. simpl. injection E7 as E8 E9. rewrite E8. exact (eq_ind_r (fun x => insert_at _ _ _ (_, x)) Hins E9).
Qed.

Lemma cur_thread s : sched_inv s -> is_Some (threads s !! cur s) /\ cur s <> 0.
Proof.
  intros I. assert (H : is_Some (threads s !! cur s)).
  { destruct (decide (cur s = idle s)) as [->|Hne].
    - destruct (k_idle_state _ (k_base _ I)) as (y & Hy & _). eauto.
    - destruct (k_cur _ I Hne) as (y & Hy & _). eauto. }
  split; [done|]. intros E. rewrite E, (k_null _ (k_base _ I)) in H. by destruct H.
Qed.

(** The priority with which the thread that runs goes back to the queue. *)
Definition returns (s : scheduler_t) : option Z :=
  if cur s =? idle s then None else
  match threads s !! cur s with
  | Some th => if bool_decide (state th = THREAD_EXIT) || isset (sflags th) THREAD_DO_SLEEP
               then None else Some (prio th)
  | None => None
  end.

Definition requeue (s : scheduler_t) (a : list Z * list Z) : Prop :=
  match returns s with Some p => insert_at p (cur s) (absq s) a | None => a = absq s end.

Definition prios (s : scheduler_t) : gmap Z Z := prio <$> threads s.

Lemma prios_insert s t th th' : threads s !! t = Some th -> prio th' = prio th ->
  prio <$> <[t := th']> (threads s) = prios s.
Proof.
  intros Ht E. rewrite fmap_insert, E. apply insert_id. unfold prios. by rewrite lookup_fmap, Ht.
Qed.

(** A thread that runs goes to sleep: no queue changes. *)
Lemma sleep_base s th : base_inv s -> cur s ∉ queued s -> cur s <> idle s -> threads s !! cur s = Some th ->
  base_inv (put s (cur s) (set_state (set_sflags th (clr (sflags th) THREAD_DO_SLEEP)) THREAD_SLEEP)).
Proof.
  intros I Hq Hid Ht. split; simpl; [destruct (k_ring _ I); by split| | | |apply (k_idle _ I)| |].
  - intros u Hu. destruct (k_queued _ I u Hu) as (y & Hy & Hst). exists y.
    rewrite lookup_insert_ne; [done|]. intros <-. done.
  - intros u x Hx Hst. apply lookup_insert_Some in Hx as [[<- <-]|[Hne Hx]]; [done|].
    by apply (k_runnable _ I u x).
  - intros u x Hx. apply lookup_insert_Some in Hx as [[<- <-]|[Hne Hx]]; simpl; by eapply (k_prio _ I).
  - rewrite lookup_insert_ne by (intros E; rewrite E, (k_null _ I) in Ht; done). apply (k_null _ I).
  - destruct (k_idle_state _ I) as (y & Hy & H1). exists y. by rewrite lookup_insert_ne by congruence.
Qed.

(** What [put_back] does to the thread that ran. *)
Definition backed (s : scheduler_t) (th th1 : thread_t) : Prop :=
  if (cur s =? idle s) || bool_decide (state th = THREAD_EXIT) then th1 = th else
  if isset (sflags th) THREAD_DO_SLEEP
  then th1 = set_state (set_sflags th (clr (sflags th) THREAD_DO_SLEEP)) THREAD_SLEEP
  else sflags th1 = sflags th /\ state th1 = THREAD_RUNNABLE.

Lemma put_back_spec s : sched_inv s ->
  exists s1 th th1, put_back s = Done s1 /\ base_inv s1 /\ requeue s (absq s1) /\ same_rest s s1 /\
    prios s1 = prios s /\ threads s !! cur s = Some th /\ backed s th th1 /\
    threads s1 = <[cur s := th1]> (threads s) /\
    (state th1 = THREAD_EXIT -> cur s <> idle s /\ cur s ∉ queued s1).
Proof.
  intros I. pose proof (k_base _ I) as B. unfold put_back, requeue, returns, backed.
  destruct (Z.eqb_spec (cur s) (idle s)) as [E|Hid]; cbn [orb].
  { destruct (k_idle_state _ B) as (y & Hy & H1 & _). exists s, y, y. rewrite E. split_and!; try done.
    by rewrite insert_id. }
  destruct (k_cur _ I Hid) as (th & Ht & Hst). rewrite Ht. cbn [deref rbind].
  assert (Hq : cur s ∉ queued s).
  { intros Hq. destruct (k_queued _ B _ Hq) as (y & Hy & ?). assert (y = th) by congruence. subst y.
    destruct Hst; naive_solver congruence. }
  case_bool_decide as Hx.
  { exists s, th, th. split_and!; try done; [by rewrite bool_decide_true|by rewrite insert_id]. }
  cbn [orb]. destruct (isset (sflags th) THREAD_DO_SLEEP) eqn:Efl.
  - eexists _, th, _. split; [done|]. split; [by apply sleep_base|]. split; [done|]. split; [done|].
    split; [by apply (prios_insert _ _ th)|]. rewrite bool_decide_false, Efl by done. by split_and!.
  - destruct (add_base s (cur s) (prio th) th B Ht Hx Hq Hid (k_prio _ B _ _ Ht))
      as (s1 & th1 & E & I1 & Eth & E1 & E2 & E3 & Hins & Hrest).
    exists s1, th, th1. split; [done|]. split; [done|]. split; [done|]. split; [done|].
    split; [unfold prios at 1; rewrite Eth; by apply (prios_insert _ _ th)|].
    rewrite bool_decide_false, Efl by done. rewrite E3; [by split_and!|]. destruct Hst; congruence.
Qed.

(** Taking the first thread of the queue. *)
Lemma choose_base s : base_inv s ->
  (queued s = [] /\ sched_choose s = Done (idle s, s)) \/
  exists t th s', sched_choose s = Done (t, s') /\ base_inv s' /\ t ∈ queued s /\ t <> idle s /\
    threads s !! t = Some th /\ (state th = THREAD_RUNNABLE \/ state th = THREAD_SPAWNED) /\
    threads s' = <[t := set_state (set_idx th 255) THREAD_RUNNING]> (threads s) /\
    runq_intr s ++ order s = t :: runq_intr s' ++ order s' /\ same_rest s s'.
Proof.
  intros I. destruct (choose_ring s (k_ring _ I)) as [?|(t & th & s' & E & Ht & Hr & Hperm & Eth & Hq & _ & Hrest)].
  { intros t Hq. destruct (k_queued _ I t Hq) as (y & Hy & [E|E]); exists y; rewrite E; done. }
  { by left. }
  right. assert (Htq : t ∈ queued s) by (rewrite Hperm; constructor).
  assert (Hsub : forall u, u ∈ queued s' -> u <> t /\ u ∈ queued s).
  { intros u Hu. pose proof (r_nodup _ (k_ring _ I)) as Hnd. rewrite Hperm in Hnd. apply NoDup_cons in Hnd as [Hn _].
    split; [by intros ->|rewrite Hperm; by constructor]. }
  assert (Hti : t <> idle s) by (intros ->; by apply (k_idle _ I)).
  destruct (k_queued _ I t Htq) as (th2 & Hth2 & Hst2). assert (th2 = th) by congruence. subst th2.
  exists t, th, s'. split; [done|]. split; [|by split_and!].
  destruct Hrest as (Ec & Ei & Ee & Etm). split; try done; rewrite ?Eth, ?Ei.
  - intros u Hu. destruct (Hsub u Hu) as [Hne Hus]. destruct (k_queued _ I u Hus) as (y & Hy & Hst). exists y.
    by rewrite lookup_insert_ne by congruence.
  - intros u x Hx Hst. apply lookup_insert_Some in Hx as [[<- <-]|[Hne Hx]]; [done|].
    pose proof (k_runnable _ I u x Hx Hst) as Hu. rewrite Hperm in Hu. apply elem_of_cons in Hu as [->|?]; done.
  - intros u x Hx. apply lookup_insert_Some in Hx as [[<- <-]|[Hne Hx]]; simpl; by eapply (k_prio _ I).
  - intros Hu. by apply (k_idle _ I), Hsub.
  - rewrite lookup_insert_ne by (intros ->; rewrite (k_null _ I) in Ht; done). apply (k_null _ I).
  - destruct (k_idle_state _ I) as (y & Hy & H1). exists y. by rewrite lookup_insert_ne by congruence.
Qed.

(** What is taken from a queue [a]: its first thread, or the idle thread. *)
Definition taken (s s' : scheduler_t) (a : list Z * list Z) : Prop :=
  (a.1 ++ a.2 = cur s' :: (absq s').1 ++ (absq s').2 /\ cur s' <> idle s) \/
  (a = ([], []) /\ cur s' = idle s /\ absq s' = a).

(** The state after the switch. *)
Lemma switched_inv s t : base_inv s ->
  (t <> idle s -> exists th, threads s !! t = Some th /\ state th = THREAD_RUNNING) ->
  forall b, sched_inv (with_cur (with_timer s b) t None).
Proof.
  intros B Ht b. split; [|simpl; intros Hne; destruct (Ht Hne) as (th & ? & ?); eauto|done].
  destruct B as [[R1 R2 R3 R4 R5] B2 B3 B4 B5 B6 B7]. by split.
Qed.

Lemma switch_run s last t th : threads s !! last = Some th -> exit_thread s = None ->
  (t = last -> state th <> THREAD_EXIT) ->
  exists x, switch_to s last t = Done (with_cur (with_timer s (negb (t =? idle s))) t x).
Proof.
  intros Ht He Hx. unfold switch_to. cbn [with_timer threads exit_thread]. rewrite Ht. cbn [deref rbind].
  rewrite He, (bool_decide_true (None = None)) by done. destruct (Z.eqb_spec t last) as [E|E].
  - rewrite bool_decide_false by auto. eauto.
  - case_bool_decide; eauto.
Qed.

(** What [schedule] does to the threads. *)
Definition moved (s s' : scheduler_t) : Prop :=
  exists th th1, threads s !! cur s = Some th /\ backed s th th1 /\
    let m := <[cur s := th1]> (threads s) in
    (cur s' = idle s /\ threads s' = m) \/
    exists y, cur s' <> idle s /\ m !! cur s' = Some y /\ (state y = THREAD_RUNNABLE \/ state y = THREAD_SPAWNED) /\
      threads s' = <[cur s' := set_state (set_idx y 255) THREAD_RUNNING]> m.

Lemma schedule_spec s : sched_inv s ->
  exists s' a, schedule s = Done s' /\ sched_inv s' /\ requeue s a /\ taken s s' a /\
    idle s' = idle s /\ prios s' = prios s /\ needed s' = needed s /\ moved s s'.
Proof.
  intros I. destruct (cur_thread s I) as [_ Hc0]. unfold schedule, do_schedule.
  destruct (Z.eqb_spec (cur s) 0) as [|_]; [done|].
  destruct (put_back_spec s I) as (s1 & th & th1 & -> & B1 & Hreq & (Ec & Ei & Ee & _ & En) & Epr & Hth & Hback & Eth1 & Hx1).
  cbn [rbind]. assert (Ht1 : threads s1 !! cur s = Some th1) by (rewrite Eth1; apply lookup_insert_eq).
  rewrite (k_exit _ I) in Ee.
  destruct (choose_base s1 B1) as [[Hq ->]|(t & y & s2 & -> & B2 & Htq & Hti & Ht & Hty & Eth & Hqs & Ec2 & Ei2 & Ee2 & _ & En2)];
    cbn [rbind].
  - destruct (switch_run s1 (cur s) (idle s1) th1 Ht1 Ee) as [x ->].
    { intros E Hst. destruct (Hx1 Hst). congruence. }
    cbn [rbind]. eexists _, (absq s1). split; [done|]. split; [by apply (switched_inv s1 (idle s1))|].
    split; [done|]. split; [right|split_and!; try done; exists th, th1; split_and!; auto].
    apply app_eq_nil in Hq as [Hq1 Hq2].
    assert (Ho : order s1 = []) by (apply Permutation_nil_r; by rewrite order_perm, Hq2).
    unfold absq, order in *. simpl. by rewrite Hq1, Ho.
  - assert (Hl : exists th2, threads s2 !! cur s = Some th2 /\ (t = cur s -> state th2 <> THREAD_EXIT)).
    { rewrite Eth. destruct (decide (t = cur s)) as [->|Hne].
      - rewrite lookup_insert_eq. by eexists.
      - rewrite lookup_insert_ne by done. by exists th1. }
    destruct Hl as (th2 & Hth2 & Hx2).
    destruct (switch_run s2 (cur s) t th2 Hth2 ltac:(congruence) Hx2) as [x ->].
    cbn [rbind]. eexists _, (absq s1). split; [done|]. split.
    { apply (switched_inv s2 t); [done|]. intros _. eexists. by rewrite Eth, lookup_insert_eq. }
    split; [done|]. split; [left; split; [exact Hqs|simpl; congruence]|]. split; [simpl; congruence|].
    split; [rewrite <- Epr; unfold prios at 1; simpl; rewrite Eth; by apply (prios_insert _ _ y)|].
    split; [simpl; congruence|]. exists th, th1. split_and!; [done|done|]. right. exists y. simpl. rewrite <- Eth1.
    split_and!; (done || congruence).
Qed.

(** A preemption loop ends after at most one switch. *)
Lemma sched_intr_preempt_run s : sched_inv s ->
  exists s', sched_intr_preempt true s = Done s' /\ sched_inv s' /\ needed s' = false /\
    (needed s = true -> exists s1, schedule (resched_needed s).1 = Done s1 /\ s' = (resched_needed s1).1).
Proof.
  intros I. assert (Hrs : forall x, sched_inv x -> sched_inv (resched_needed x).1).
  { intros x [[[R1 R2 R3 R4 R5] B2 B3 B4 B5 B6 B7] C D]. split; [split; [by split|done..]|done|done]. }
  destruct (needed s) eqn:En.
  - destruct (schedule_spec _ (Hrs s I)) as (s1 & a & E & I1 & _ & _ & _ & _ & En1 & _). pose proof E as E'.
    unfold schedule in E'. apply rbind_Done in E' as (s0 & E0 & E1). injection E1 as <-.
    exists (resched_needed (sched_exit_free s0)).1. split; [|by split_and!; eauto].
    unfold sched_intr_preempt. cbn [preempt_loop]. unfold resched_needed at 1. rewrite En.
    fold (resched_needed s).1. change (MkSched _ _ _ _ _ _ _ _ _ _ _) with (resched_needed s).1. rewrite E0. cbn [rbind].
    unfold resched_needed at 1. simpl in En1. simpl needed. by rewrite En1.
  - exists (resched_needed s).1. split; [|by split_and!; auto].
    unfold sched_intr_preempt. cbn [preempt_loop]. unfold resched_needed at 1. by rewrite En.
Qed.

(** C16: The scheduler implements one queue.  [schedule] always succeeds: it
    puts the thread that ran back into the queue by its priority, unless it
    exits or goes to sleep, and then runs the first thread of the queue, or the
    idle thread if there is none.  A wakeup puts a sleeping thread into the
    queue, keeps a thread that is about to sleep awake, and leaves the queue
    alone otherwise. *)
Theorem sched_refines s : sched_inv s ->
  (exists s' a, schedule s = Done s' /\ sched_inv s' /\ requeue s a /\ taken s s' a) /\
  (forall same t p th, threads s !! t = Some th -> state th <> THREAD_EXIT -> 0 <= p <= 6 ->
   exists s' ipi, sched_wakeup_thread s same t p = Done (s', ipi) /\ sched_inv s' /\ cur s' = cur s /\
     (state th = THREAD_RUNNING -> exists th', threads s' !! t = Some th' /\
        state th' = THREAD_RUNNING /\ isset (sflags th') THREAD_DO_SLEEP = false) /\
     (if bool_decide (state th = THREAD_SLEEP)
      then insert_at (Z.min p (prio th)) t (absq s) (absq s') else absq s' = absq s)).
Proof.
  intros I. split.
  - destruct (schedule_spec s I) as (s' & a & E & I' & H1 & H2 & _). by exists s', a.
  - intros same t p th Ht Hx Hp.
    destruct (wakeup_spec s same t p th I Ht Hx Hp (proj1 (cur_thread s I)))
      as (s' & ipi & th' & E & I' & Ec & _ & Eth & _ & [Hst Hfl] & Hq).
    exists s', ipi. split_and!; try done. intros Hr. exists th'.
    rewrite Eth, lookup_insert_eq, Hst, Hfl, Hr, bool_decide_false, bool_decide_true by done.
    split_and!; [done|done|apply isset_clr2].
Qed.

(** ** Fairness *)

(** What can happen on a processor: the timer or a system call switches, the
    running thread prepares to sleep, a thread is woken up or interrupted. *)
Inductive sop := OSchedule | OSleep (intr : bool) | OWake (same : bool) (t p : Z)
  | OInterrupt (same : bool) (t p i fl : Z).

Definition sop_run (s : scheduler_t) (o : sop) : res scheduler_t :=
  match o with
  | OSchedule => schedule s
  | OSleep i => sched_set_inactive s i
  | OWake same t p => let* '(s, _) := sched_wakeup_thread s same t p in Done s
  | OInterrupt same t p i fl => let* '(s, _) := sched_interrupt s same t p i fl in Done s
  end.

(** The threads that get the processor, in order. *)
Fixpoint sops_run (s : scheduler_t) (os : list sop) : res (scheduler_t * list Z) :=
  match os with
  | [] => Done (s, [])
  | o :: os =>
      let* s1 := sop_run s o in
      let* '(s2, l) := sops_run s1 os in
      Done (s2, match o with OSchedule => cur s1 :: l | _ => l end)
  end.

(** The urgency of a wakeup is a priority. *)
Definition sop_ok (o : sop) : Prop :=
  match o with OWake _ _ p | OInterrupt _ _ p _ _ => 0 <= p <= 6 | _ => True end.

Definition is_schedule (o : sop) : nat := match o with OSchedule => 1 | _ => 0 end.
(** Wakeups that may go ahead of others. *)
Definition jump (p : Z) : nat := if p =? SCHED_NORMAL then 0 else 1.
Definition urgent (o : sop) : nat :=
  match o with OWake _ _ p | OInterrupt _ _ p _ _ => jump p | _ => 0 end.

Definition all_normal (s : scheduler_t) : Prop := forall t p, prios s !! t = Some p -> p = SCHED_NORMAL.

Definition full (s : scheduler_t) : list Z := (absq s).1 ++ (absq s).2.

Lemma insert_mid (x y : list Z) u (k : nat) t : (x ++ y) !! k = Some t ->
  exists i, (x ++ u :: y) !! i = Some t /\ (i <= k + 1)%nat.
Proof.
  intros Hk. apply lookup_app_Some in Hk as [Hk|[Hl Hk]].
  - exists k. split; [by apply lookup_app_l_Some|lia].
  - exists (S k). split; [|lia]. rewrite lookup_app_r by lia. by replace (S k - length x)%nat with (S (k - length x)) by lia.
Qed.

(** Nobody is overtaken by a normal thread, and by at most one otherwise. *)
Lemma insert_at_pos p u a a' (k : nat) t : insert_at p u a a' -> (a.1 ++ a.2) !! k = Some t ->
  exists i, (a'.1 ++ a'.2) !! i = Some t /\ (i <= k + jump p)%nat.
Proof.
  destruct a as [a1 a2], a' as [b1 b2]. unfold insert_at. simpl. intros Hins Hk.
  destruct (Z.eqb_spec p SCHED_INTR) as [->|_].
  { injection Hins as -> ->. rewrite <- app_assoc. by apply insert_mid. }
  destruct Hins as [-> Hins]. destruct (Z.eqb_spec p SCHED_IO) as [->|_].
  { subst b2. by apply insert_mid. }
  unfold jump. destruct (p =? SCHED_NORMAL).
  - subst b2. exists k. split; [|lia]. rewrite app_assoc. by apply lookup_app_l_Some.
  - destruct Hins as (x & y & -> & ->). rewrite app_assoc in Hk |- *. by apply insert_mid.
Qed.

(** Any operation but [schedule] keeps a thread in the queue. *)
Lemma wake_pos s same u p s' ipi : sched_inv s -> all_normal s -> 0 <= p <= 6 ->
  sched_wakeup_thread s same u p = Done (s', ipi) ->
  sched_inv s' /\ prios s' = prios s /\ is_Some (threads s' !! u) /\ forall (k : nat) t, full s !! k = Some t ->
    exists i, full s' !! i = Some t /\ (i <= k + jump p)%nat.
Proof.
  intros I Hn Hp E. destruct (threads s !! u) as [th|] eqn:Hu;
    [|unfold sched_wakeup_thread in E; rewrite Hu in E; done].
  destruct (decide (state th = THREAD_EXIT)) as [Hx|Hx].
  { unfold sched_wakeup_thread in E. rewrite Hu in E. cbn [deref rbind] in E. by rewrite bool_decide_true in E. }
  destruct (wakeup_spec s same u p th I Hu Hx Hp (proj1 (cur_thread s I)))
    as (s1 & ipi1 & th' & E1 & I' & Ec & _ & Eth & Epr & _ & Hq).
  rewrite E in E1. injection E1 as <- <-. split; [done|].
  split; [unfold prios at 1; rewrite Eth; by apply (prios_insert _ _ th)|].
  split; [rewrite Eth, lookup_insert_eq; done|]. intros k t Hk.
  assert (Ep : prio th = SCHED_NORMAL) by (apply (Hn u); unfold prios; by rewrite lookup_fmap, Hu).
  case_bool_decide.
  - apply (insert_at_pos _ _ _ _ k t) in Hq; [|done]. by rewrite Ep, Z.min_l in Hq by (unfold SCHED_NORMAL; lia).
  - exists k. unfold full. rewrite Hq. split; [done|lia].
Qed.

Lemma other_pos s o s' : sched_inv s -> all_normal s -> sop_ok o -> is_schedule o = O -> sop_run s o = Done s' ->
  sched_inv s' /\ prios s' = prios s /\ forall (k : nat) t, full s !! k = Some t ->
    exists i, full s' !! i = Some t /\ (i <= k + urgent o)%nat.
Proof.
  intros I Hn Hok Hs E. destruct o as [|i|same u p|same u p i fl]; [done| | |]; cbn [sop_run sop_ok urgent] in *.
  - unfold sched_set_inactive in E. destruct (threads s !! cur s) as [th|] eqn:Hc; [|done]. cbn [deref rbind] in E.
    destruct (negb (isset (sflags th) THREAD_INTERRUPTABLE)); [|done]. case_match; injection E as <-.
    + split_and!; [done|done|]. intros k t Hk. exists k. split; [done|lia].
    + split; [by eapply retag_inv|]. split; [by eapply prios_insert|]. intros k t Hk. exists k. split; [done|lia].
  - apply rbind_Done in E as ([s1 ipi] & E & E'). injection E' as <-.
    by destruct (wake_pos s same u p s1 ipi I Hn Hok E) as (? & ? & _ & ?).
  - apply rbind_Done in E as ([s1 ipi] & E & E'). injection E' as <-.
    unfold sched_interrupt in E. destruct (threads s !! u) as [th|] eqn:Hu; [|done]. cbn [deref rbind] in E.
    assert (H : exists s2 ipi2, (if negb (isset (sflags th) THREAD_INTERRUPTED) && isset (sflags th) THREAD_INTERRUPTABLE
      then sched_wakeup_thread s same u p else Done (s, false)) = Done (s2, ipi2)).
    { apply rbind_Done in E as ([s2 ipi2] & E & _). eauto. }
    destruct H as (s2 & ipi2 & E2). rewrite E2 in E. cbn [rbind] in E.
    assert (H : sched_inv s2 /\ prios s2 = prios s /\ is_Some (threads s2 !! u) /\
      forall (k : nat) t, full s !! k = Some t -> exists i, full s2 !! i = Some t /\ (i <= k + jump p)%nat).
    { case_match; [by eapply wake_pos|]. injection E2 as <- <-. split_and!; eauto.
      intros k t Hk. exists k. split; [done|lia]. }
    destruct H as (I2 & Epr & [th2 Hth2] & Hpos). rewrite Hth2 in E. cbn [deref rbind] in E. injection E as <- <-.
    split; [by eapply retag_inv|]. split; [|exact Hpos]. rewrite <- Epr. by eapply prios_insert.
Qed.

Lemma schedule_pos s s' : sched_inv s -> all_normal s -> schedule s = Done s' ->
  sched_inv s' /\ prios s' = prios s /\ forall (k : nat) t, full s !! k = Some t ->
    match k with O => cur s' = t | S k => full s' !! k = Some t end.
Proof.
  intros I Hn E. destruct (schedule_spec s I) as (s1 & a & E1 & I' & Hreq & Htk & _ & Epr & _).
  rewrite E in E1. injection E1 as <-. split; [done|]. split; [done|]. intros k t Hk.
  assert (Ha : (a.1 ++ a.2) !! k = Some t).
  { unfold requeue in Hreq. destruct (returns s) as [p|] eqn:Hr; [|by subst a].
    assert (p = SCHED_NORMAL) as ->.
    { apply (Hn (cur s)). unfold prios. rewrite lookup_fmap. unfold returns in Hr.
      destruct (cur s =? idle s); [done|]. destruct (threads s !! cur s); [|done]. by case_match; simplify_eq/=. }
    destruct Hreq as [E1 E2]. simpl in E2. rewrite E1, E2, app_assoc. by apply lookup_app_l_Some. }
  destruct Htk as [[E1 _]|(-> & _)]; [|done]. rewrite E1 in Ha. destruct k; simpl in Ha; [congruence|done].
Qed.

(** C17: Nobody starves.  If all threads have normal priority, a thread with [k]
    threads ahead of it in the queue gets the processor within [k + 1]
    switches, plus one for each urgent wakeup; whatever else sleeps, wakes up
    or is interrupted meanwhile. *)
Theorem sched_fair : forall os s s' l t (k : nat),
  sched_inv s -> all_normal s -> Forall sop_ok os ->
  full s !! k = Some t ->
  sops_run s os = Done (s', l) ->
  (k + list_sum (urgent <$> os) < list_sum (is_schedule <$> os))%nat ->
  t ∈ l.
Proof.
  induction os as [|o os IH]; intros s s' l t k I Hn Hok Hk E Hlt; [simpl in Hlt; lia|].
  apply Forall_cons in Hok as [Ho Hok]. cbn [sops_run] in E.
  apply rbind_Done in E as (s1 & E1 & E). apply rbind_Done in E as ([s2 l2] & E2 & E). injection E as <- <-.
  destruct (decide (is_schedule o = O)) as [Hs|Hs].
  - destruct (other_pos s o s1 I Hn Ho Hs E1) as (I1 & Epr & Hpos). destruct (Hpos k t Hk) as (i & Hi & Hle).
    assert (t ∈ l2); [|by destruct o]. apply (IH s1 s2 l2 t i); try done.
    + intros u p. rewrite Epr. apply Hn.
    + rewrite !fmap_cons in Hlt. simpl in Hlt. lia.
  - destruct o; try done. destruct (schedule_pos s s1 I Hn E1) as (I1 & Epr & Hpos). specialize (Hpos k t Hk).
    destruct k as [|k]; [subst t; constructor|]. apply elem_of_cons. right. apply (IH s1 s2 l2 t k); try done.
    + intros u p. rewrite Epr. apply Hn.
    + rewrite !fmap_cons in Hlt. simpl in Hlt. lia.
Qed.

(** ** Start *)

(** A scheduler starts with an empty queue. *)
Lemma scheduler_init_inv s i b : not_empty s = 0 -> exit_thread s = None -> threads s !! 0 = None ->
  (forall t th, threads s !! t = Some th -> state th <> THREAD_RUNNABLE /\ 0 <= prio th <= 6) ->
  (exists th, threads s !! i = Some th /\ state th = THREAD_SPAWNED) ->
  (exists th, threads s !! b = Some th /\ state th = THREAD_RUNNING) ->
  sched_inv (scheduler_init s i b).
Proof.
  intros Hb He H0 Hth (thi & Hi & Hsi) (thb & Hbt & Hsb). split; [split|..]; simpl.
  - split; simpl; [done|done| |done|apply NoDup_nil_2].
    intros k Hk. rewrite Hb, Z.testbit_0_l. split; [done|]. intros (t & l & H).
    by apply (lookup_replicate_1 32 []) in H as [? _].
  - intros t Ht. by apply not_elem_of_nil in Ht.
  - intros t th Ht Hst. by destruct (Hth t th Ht).
  - intros t th Ht. by destruct (Hth t th Ht).
  - apply not_elem_of_nil.
  - done.
  - exists thi. by rewrite Hsi.
  - intros _. exists thb. auto.
  - done.
Qed.

(** A new thread is announced. *)
Lemma spawn_inv s t th : sched_inv s -> threads s !! t = None -> t <> 0 ->
  state th = THREAD_SPAWNED -> 0 <= prio th <= 6 -> sched_inv (put s t th).
Proof.
  intros I Hn H0 Hst Hp. assert (Hl : forall u y, threads s !! u = Some y -> <[t := th]> (threads s) !! u = Some y).
  { intros u y Hy. rewrite lookup_insert_ne; [done|]. intros ->. congruence. }
  destruct I as [[[R1 R2 R3 R4 R5] B2 B3 B4 B5 B6 B7] C D].
  split; [split; simpl; [by split|..]|simpl|done].
  - intros u Hu. destruct (B2 u Hu) as (y & Hy & ?). eauto.
  - intros u y Hy Hs. apply lookup_insert_Some in Hy as [[-> <-]|[_ Hy]]; [congruence|]. by eapply B3.
  - intros u y Hy. apply lookup_insert_Some in Hy as [[-> <-]|[_ Hy]]; [done|]. by eapply B4.
  - done.
  - by rewrite lookup_insert_ne.
  - destruct B7 as (y & Hy & ?). eauto.
  - intros Hc. destruct (C Hc) as (y & Hy & ?). eauto.
Qed.

Lemma best_loop_spec l : forall i best,
  match best_loop l i best with
  | None => best = None /\ forall j s, l !! j = Some (true, s) -> False
  | Some (k, n) =>
      (forall k0 n0, best = Some (k0, n0) -> n <= n0) /\
      (forall j s, l !! j = Some (true, s) -> n <= nthread s) /\
      (best = Some (k, n) \/ exists j s, k = (i + j)%nat /\ l !! j = Some (true, s) /\ nthread s = n)
  end.
Proof.
  induction l as [|[r s] l IH]; intros i best; cbn [best_loop].
  { destruct best as [[k n]|]; [|done]. split_and!; [naive_solver lia|done|by left]. }
  set (best1 := if r && _ then _ else _). specialize (IH (S i) best1).
  assert (Hb : best1 = best /\ (r = true -> exists k n, best = Some (k, n) /\ n <= nthread s) \/
    best1 = Some (i, nthread s) /\ r = true /\ forall k n, best = Some (k, n) -> nthread s < n).
  { unfold best1. destruct r, best as [[k n]|]; simpl; try (left; by split); [|right; naive_solver].
    destruct (Z.ltb_spec (nthread s) n); [right; naive_solver|left; split; [done|]; eauto]. }
  clearbody best1. destruct (best_loop l (S i) best1) as [[k n]|].
  - destruct IH as (H1 & H2 & H3). split_and!.
    + intros k0 n0 ->. destruct Hb as [[-> _]|(-> & _ & Hlt)]; [by eapply H1|].
      specialize (H1 _ _ eq_refl). specialize (Hlt _ _ eq_refl). lia.
    + intros [|j] x Hx; [|by eapply H2]. simplify_eq/=.
      destruct Hb as [[-> Hr]|(-> & _)]; [|by eapply H1]. destruct (Hr eq_refl) as (k0 & n0 & -> & ?).
      specialize (H1 _ _ eq_refl). lia.
    + destruct H3 as [->|(j & x & -> & Hx & <-)]; [|right; exists (S j), x; split; [lia|done]].
      destruct Hb as [[<- _]|([= -> ->] & -> & _)]; [by left|right; exists O, s]. split; [lia|done].
  - destruct IH as [-> Hno]. destruct Hb as [[<- Hr]|[? _]]; [|done]. split; [done|].
    intros [|j] x Hx; [|by eapply Hno]. simplify_eq/=. by destruct (Hr eq_refl) as (? & ? & ? & _).
Qed.

(** A new thread goes to a processor that runs and has the fewest threads. *)
Lemma sched_add_thread_run cs me t th : t <> 0 -> state th = THREAD_SPAWNED -> 0 <= prio th <= 6 ->
  (exists i s, cs !! i = Some (true, s)) ->
  (forall i s, cs !! i = Some (true, s) -> sched_inv s /\ threads s !! t = None) ->
  exists i s s' ipi, sched_add_thread cs me t th = Done (<[i := (true, s')]> cs, ipi) /\
    cs !! i = Some (true, s) /\ sched_inv s' /\ insert_at (prio th) t (absq s) (absq s') /\
    (forall j x, cs !! j = Some (true, x) -> nthread s <= nthread x).
Proof.
  intros H0 Hst Hp (i0 & x0 & Hi0) Hinv. unfold sched_add_thread.
  pose proof (best_loop_spec cs 0 None) as Hb. destruct (best_loop cs 0 None) as [[i n]|].
  2:{ destruct Hb as [_ Hb]. by apply Hb in Hi0. }
  destruct Hb as (_ & Hmin & [?|(j & s & -> & Hi & <-)]); [done|]. rewrite Nat.add_0_l, Hi. cbn [deref rbind].
  destruct (Hinv _ _ Hi) as [I Hn]. set (th1 := set_idx th 255).
  pose proof (spawn_inv s t th1 I Hn H0 Hst Hp) as I1.
  assert (Hq : t ∉ queued s) by (intros Hq; destruct (k_queued _ (k_base _ I) t Hq) as (y & ? & _); congruence).
  assert (Hti : t <> idle s) by (intros ->; destruct (k_idle_state _ (k_base _ I)) as (y & ? & _); congruence).
  destruct (add_base (put s t th1) t (prio th1) th1 (k_base _ I1) (lookup_insert_eq _ _ _)
    ltac:(simpl; congruence) Hq Hti Hp) as (s1 & th' & -> & B1 & Eth & _ & _ & _ & Hins & Ec & Ei & Ee & _).
  cbn [rbind]. assert (I2 : sched_inv s1).
  { split; [done| |by rewrite Ee; apply I1]. rewrite Ec, Ei, Eth. simpl. intros Hne.
    destruct (k_cur _ I Hne) as (y & Hy & ?). exists y. rewrite !lookup_insert_ne by congruence. done. }
  assert (I3 : sched_inv (with_timer s1 true)).
  { destruct I2 as [[[R1 R2 R3 R4 R5] B2 B3 B4 B5 B6 B7] C D]. split; [split; [by split|done..]|done|done]. }
  exists j, s. destruct (timer_on s1); [|case_bool_decide]; eexists _, _; (split; [reflexivity|]); by split_and!.
Qed.

Lemma sops_inv os : forall s s' l, sched_inv s -> all_normal s -> Forall sop_ok os ->
  sops_run s os = Done (s', l) -> sched_inv s' /\ all_normal s'.
Proof.
  induction os as [|o os IH]; intros s s' l I Hn Hok E; [by injection E as <- <-|].
  apply Forall_cons in Hok as [Ho Hok]. cbn [sops_run] in E.
  apply rbind_Done in E as (s1 & E1 & E). apply rbind_Done in E as ([s2 l2] & E2 & E). injection E as <- <-.
  assert (H : sched_inv s1 /\ prios s1 = prios s).
  { destruct (decide (is_schedule o = O)) as [Hs|Hs].
    - destruct (other_pos s o s1 I Hn Ho Hs E1) as (? & ? & _). done.
    - destruct o; try done. destruct (schedule_pos s s1 I Hn E1) as (? & ? & _). done. }
  destruct H as [I1 Epr]. apply (IH s1 s2 l2); try done. intros u p. rewrite Epr. apply Hn.
Qed.

(** A processor with the idle thread 1, the boot thread 2 and two threads that
    are woken up. *)
Definition ex_thread (st : thread_state) : thread_t := MkThread st 0 SCHED_NORMAL SCHED_NORMAL 255 0.
Definition ex_boot : scheduler_t :=
  scheduler_init (MkSched 0 0 0 [] [] 0 0 false false None
    {[1 := ex_thread THREAD_SPAWNED; 2 := ex_thread THREAD_RUNNING;
      3 := ex_thread THREAD_SLEEP; 4 := ex_thread THREAD_SLEEP]}) 1 2.
Definition ex_ops : list sop := [OWake true 3 SCHED_NORMAL; OWake true 4 SCHED_IO].
Definition ex_run : scheduler_t := match sops_run ex_boot ex_ops with Done (s, _) => s | _ => ex_boot end.

Lemma ex_boot_normal : all_normal ex_boot.
Proof.
  intros t p. unfold prios. rewrite lookup_fmap, fmap_Some. intros (th & Ht & ->). revert Ht. simpl.
  repeat (rewrite lookup_insert_Some; intros [[_ <-]|[_ Ht]]; [done|revert Ht]).
  by rewrite lookup_singleton_Some; intros [_ <-].
Qed.

Lemma ex_boot_inv : sched_inv ex_boot.
Proof.
  apply scheduler_init_inv; try done; try (eexists; split; [vm_compute; reflexivity|done]).
  intros t th Ht. simpl in Ht. revert Ht.
  repeat (rewrite lookup_insert_Some; intros [[_ <-]|[_ Ht]]; [done|revert Ht]).
  by rewrite lookup_singleton_Some; intros [_ <-].
Qed.

Lemma ex_run_inv : sched_inv ex_run /\ all_normal ex_run.
Proof.
  apply (sops_inv ex_ops ex_boot ex_run []); [apply ex_boot_inv|apply ex_boot_normal| |vm_compute; reflexivity].
  by repeat constructor.
Qed.

Lemma sched_refines_witness : exists s', schedule ex_run = Done s' /\ sched_inv s'.
Proof.
  destruct (sched_refines ex_run (proj1 ex_run_inv)) as [(s' & a & E & I & _) _]. by exists s'.
Defined.

Lemma sched_fair_witness : full ex_run = [4; 3] /\
  3 ∈ match sops_run ex_run [OSleep false; OSchedule; OWake false 2 SCHED_NORMAL; OSchedule] with Done (_, l) => l | _ => [] end.
Proof.
  split; [vm_compute; reflexivity|].
  destruct (sops_run ex_run [OSleep false; OSchedule; OWake false 2 SCHED_NORMAL; OSchedule]) as [[s' l]| | |] eqn:E;
    [|vm_compute in E; discriminate E..].
  refine (sched_fair _ ex_run s' l 3 1 (proj1 ex_run_inv) (proj2 ex_run_inv) _ _ E _).
  - by repeat constructor.
  - vm_compute. reflexivity.
  - vm_compute. lia.
Defined.
