(* ===== verification/Interleave.v ===== *)
(** * Threads that interleave

    What the models of the locks share.  A thread is in one place of the code
    (a [pc]); the places of all threads are a finite map.  A step of a system
    moves one thread, and the reachable states are those [rtc] of the step
    relation reaches.  [count P m] is the number of threads at a place with
    [P]: the counters of the locks are such numbers. *)
From stdpp Require Import base gmap list relations fin_maps.
From Stdlib Require Import ZArith Lia.
From S2P Require Import Prelude.
Open Scope Z_scope.

Section Places.
Context {pc : Type}.
Implicit Types (P : pc -> bool) (m : gmap Z pc) (t : Z) (p q : pc).

Definition count P m : nat := size (filter (fun kv : Z * pc => P kv.2 = true) m).

(** Moving one thread. *)
Lemma count_move P m t p q : m !! t = Some p ->
  (count P (<[t := q]> m) + Nat.b2n (P p) = count P m + Nat.b2n (P q))%nat.
Proof.
  intros Hp. unfold count. rewrite <- (insert_delete_id m t p Hp) at 2. rewrite <- insert_delete_eq.
  assert (Hd : forall r, size (filter (fun kv : Z * pc => P kv.2 = true) (<[t := r]> (delete t m)))
    = (size (filter (fun kv : Z * pc => P kv.2 = true) (delete t m)) + Nat.b2n (P r))%nat).
  { intros r. rewrite map_filter_insert. cbn [snd]. case_decide as E.
    - rewrite E. simpl Nat.b2n. rewrite map_size_insert_None; [lia|].
      apply map_lookup_filter_None. left. apply lookup_delete_eq.
    - apply not_true_is_false in E. rewrite E, delete_delete_eq. simpl Nat.b2n. lia. }
  rewrite !Hd. lia.
Qed.

Lemma count_pos P m t p : m !! t = Some p -> P p = true -> (0 < count P m)%nat.
Proof.
  intros Hp HP. unfold count. apply Nat.neq_0_lt_0. intros H%eq_sym%eq_sym%map_size_empty_inv.
  assert (E : filter (fun kv : Z * pc => P kv.2 = true) m !! t = Some p)
    by (by apply map_lookup_filter_Some). rewrite H in E. done.
Qed.

Lemma count_ex P m : (0 < count P m)%nat -> exists t p, m !! t = Some p /\ P p = true.
Proof.
  intros H. unfold count in H.
  destruct (map_choose (filter (fun kv : Z * pc => P kv.2 = true) m)) as (t & p & E).
  - intros E. rewrite E, map_size_empty in H. lia.
  - apply map_lookup_filter_Some in E as [E HP]. eauto.
Qed.

Lemma count_le P m : (count P m <= size m)%nat.
Proof. unfold count. apply map_subseteq_size, map_filter_subseteq. Qed.

Lemma count_none P m : (forall t p, m !! t = Some p -> P p = false) -> count P m = O.
Proof.
  intros H. destruct (count P m) eqn:E; [done|].
  destruct (count_ex P m ltac:(lia)) as (t & p & Hp & HP). rewrite (H t p Hp) in HP. done.
Qed.

(** Two different threads with [P]. *)
Lemma count_two P m t u p q : m !! t = Some p -> m !! u = Some q -> t <> u ->
  P p = true -> P q = true -> (2 <= count P m)%nat.
Proof.
  intros Hp Hq Hne HP HQ. pose proof (count_move P (delete t m) u q q ltac:(by rewrite lookup_delete_ne)).
  assert (E : m = <[t := p]> (delete t m)) by (by rewrite insert_delete_id).
  rewrite E. unfold count. rewrite map_filter_insert. cbn [snd]. rewrite decide_True by done.
  rewrite map_size_insert_None by (apply map_lookup_filter_None; left; apply lookup_delete_eq).
  pose proof (count_pos P (delete t m) u q ltac:(by rewrite lookup_delete_ne) HQ) as H1.
  unfold count in H1. lia.
Qed.

(** All threads at the same place. *)
Definition start (ts : gset Z) (p : pc) : gmap Z pc := gset_to_gmap p ts.

Lemma start_lookup ts p t q : start ts p !! t = Some q -> q = p.
Proof. unfold start. rewrite lookup_gset_to_gmap_Some. by intros [_ ->]. Qed.
End Places.

(** An invariant of the initial state that steps preserve holds of every
    reachable state. *)
Lemma rtc_invariant {A} (R : A -> A -> Prop) (I : A -> Prop) x y :
  rtc R x y -> I x -> (forall a b, I a -> R a b -> I b) -> I y.
Proof. intros H Hx Hs. induction H; eauto. Qed.

(** [lookup_move] decides lookups in a map in which one thread was moved. *)
Ltac lookup_move :=
  repeat match goal with
  | H : context [<[?t := _]> _ !! ?t] |- _ => rewrite lookup_insert_eq in H
  | |- context [<[?t := _]> _ !! ?t] => rewrite lookup_insert_eq
  | Hne : ?u <> ?t, H : context [<[?t := _]> _ !! ?u] |- _ => rewrite (lookup_insert_ne _ t u) in H by congruence
  | Hne : ?u <> ?t |- context [<[?t := _]> _ !! ?u] => rewrite (lookup_insert_ne _ t u) by congruence
  | Hne : ?t <> ?u, H : context [<[?t := _]> _ !! ?u] |- _ => rewrite (lookup_insert_ne _ t u) in H by congruence
  | Hne : ?t <> ?u |- context [<[?t := _]> _ !! ?u] => rewrite (lookup_insert_ne _ t u) by congruence
  | H : context [<[?t := _]> _ !! ?u] |- _ => destruct (decide (u = t)) as [->|?]
  | |- context [<[?t := _]> _ !! ?u] => destruct (decide (u = t)) as [->|?]
  end.
