(* ===== verification/Sync.v ===== *)
(** * kern/sync.c: mutexes and spin locks

    A lock is a word with its owner and a counter of the threads that wait.
    Every access to them is atomic in the code (cmpxchg, xchg, inc, load), so
    one access is one step, and the threads interleave between them.  A
    mutex sleeps in [kern_wait] (kern/futex.c): the thread puts itself on the
    queue, then loads the word again and gives up if it has changed, and
    otherwise sleeps unless it was taken off the queue meanwhile; [kern_wake]
    takes the first thread off.

    The places [Acq] ... [Rel2] of a thread are the points between two such
    accesses.  The user of the lock acquires it when he has not got it and
    releases it when he has ([Acquire], [Try], [Release]); the other steps
    follow the code ([Go]).  [nums] is [thread_numlock] for mutexes and the
    depth of the critical section for spin locks. *)
From stdpp Require Import base gmap list relations.
From Stdlib Require Import ZArith Lia.
From S2P Require Import Prelude Interleave.
Open Scope Z_scope.

Inductive sync_type := SYNC_SPINLOCK | SYNC_MUTEX.

Inductive spc :=
| Idle                  (* outside *)
| Acq                   (* before the cmpxchg *)
| Blocked (lock : Z)    (* it failed and returned the owner *)
| Relax                 (* spin lock: cpu_relax *)
| Prep (lock : Z)       (* mutex, in kern_wait: before wait_prep *)
| Cmp (lock : Z)        (* on the queue, before the comparison *)
| Abort                 (* before wait_abort *)
| Sleep                 (* before wait_sleep *)
| Asleep
| Uncount               (* behind kern_wait *)
| Held
| Rel1                  (* behind the xchg *)
| Rel2.                 (* before kern_wake *)

Inductive sact := Acquire | Try | Release | Go.

Record sync_t := MkSync {
  s_thread : Z;                (* 0 is NULL *)
  s_waiting : Z;
  s_queue : list Z;            (* the threads kern_wake can find *)
  s_pcs : gmap Z spc;
  s_nums : gmap Z Z;
}.

Definition goto (s : sync_t) (t : Z) (p : spc) : sync_t :=
  MkSync (s_thread s) (s_waiting s) (s_queue s) (<[t := p]> (s_pcs s)) (s_nums s).
Definition set_thread (s : sync_t) (x : Z) : sync_t :=
  MkSync x (s_waiting s) (s_queue s) (s_pcs s) (s_nums s).
Definition set_waiting (s : sync_t) (x : Z) : sync_t :=
  MkSync (s_thread s) x (s_queue s) (s_pcs s) (s_nums s).
Definition set_queue (s : sync_t) (x : list Z) : sync_t :=
  MkSync (s_thread s) (s_waiting s) x (s_pcs s) (s_nums s).
(** [thread_numlock_inc]/[critical_enter] and their inverses. *)
Definition num (s : sync_t) (t d : Z) : sync_t :=
  MkSync (s_thread s) (s_waiting s) (s_queue s) (s_pcs s)
    (<[t := default 0 (s_nums s !! t) + d]> (s_nums s)).

Section Sync.
Context (type : sync_type).

Definition sync_init (ts : gset Z) : sync_t := MkSync 0 0 [] (start ts Idle) (start ts 0).

Definition sync_trylock (s : sync_t) (t : Z) : sync_t :=
  let s := num s t 1 in
  if s_thread s =? 0 then goto (set_thread s t) t Held else num s t (-1).

(** The loop of [__sync_acquire]. *)
Definition sync_acquire (s : sync_t) (t : Z) (p : spc) : res sync_t :=
  match p with
  | Idle => Done (goto (num s t 1) t Acq)
  | Acq =>
      if s_thread s =? 0 then Done (goto (set_thread s t) t Held)
      else Done (goto s t (Blocked (s_thread s)))
  | Blocked lock =>
      if lock =? t then Panic else
      match type with
      | SYNC_MUTEX => Done (goto (set_waiting (num s t (-1)) (u16 (s_waiting s + 1))) t (Prep lock))
      | SYNC_SPINLOCK => Done (goto (num s t (-1)) t Relax)
      end
  | Relax => Done (goto (num s t 1) t Acq)
  (* kern_wait *)
  | Prep lock => Done (goto (set_queue s (s_queue s ++ [t])) t (Cmp lock))
  | Cmp lock => if s_thread s =? lock then Done (goto s t Sleep) else Done (goto s t Abort)
  | Abort => Done (goto (set_queue s (list_rem t (s_queue s))) t Uncount)
  | Sleep => if bool_decide (t ∈ s_queue s) then Done (goto s t Asleep) else Done (goto s t Uncount)
  | Asleep => if bool_decide (t ∈ s_queue s) then Fault else Done (goto s t Uncount)
  | Uncount => Done (goto (set_waiting (num s t 1) (u16 (s_waiting s - 1))) t Acq)
  | _ => Fault
  end.

Definition sync_release (s : sync_t) (t : Z) (p : spc) : res sync_t :=
  match p with
  | Held => if s_thread s =? 0 then Panic else Done (goto (set_thread s 0) t Rel1)
  | Rel1 =>
      let s := num s t (-1) in
      match type with
      | SYNC_SPINLOCK => Done (goto s t Idle)
      | SYNC_MUTEX => if s_waiting s =? 0 then Done (goto s t Idle) else Done (goto s t Rel2)
      end
  | Rel2 => Done (goto (set_queue s (tail (s_queue s))) t Idle)
  | _ => Fault
  end.

(** A step of thread [t]; [Fault]: it has no such step. *)
Definition sync_step (s : sync_t) (t : Z) (a : sact) : res sync_t :=
  let* p := deref (s_pcs s !! t) in
  match a, p with
  | Acquire, Idle => sync_acquire s t p
  | Try, Idle => Done (sync_trylock s t)
  | Release, Held => sync_release s t p
  | Go, (Idle | Held) => Fault
  | Go, (Rel1 | Rel2) => sync_release s t p
  | Go, _ => sync_acquire s t p
  | _, _ => Fault
  end.

Definition sync_next (s s' : sync_t) : Prop := exists t a, sync_step s t a = Done s'.
End Sync.

(** ** The invariant *)

Definition is_counted (p : spc) : bool :=
  match p with Prep _ | Cmp _ | Abort | Sleep | Asleep | Uncount => true | _ => false end.
Definition is_queued (p : spc) : bool :=
  match p with Cmp _ | Abort | Sleep | Asleep => true | _ => false end.
Definition is_sleepy (p : spc) : bool := match p with Sleep | Asleep => true | _ => false end.

(** What [nums] is at a place. *)
Definition num_at (p : spc) : Z :=
  match p with Acq | Blocked _ | Held | Rel1 => 1 | _ => 0 end.

(** The owner that a thread waits for. *)
Definition lock_at (p : spc) : option Z :=
  match p with Blocked l | Prep l | Cmp l => Some l | _ => None end.

(** The thread runs inside of the lock's code: it will take the lock or wake
    another thread up. *)
Definition busy (s : sync_t) (u : Z) (p : spc) : Prop :=
  p <> Idle /\ p <> Held /\ ~ (is_sleepy p = true /\ u ∈ s_queue s).

Record sync_inv (type : sync_type) (s : sync_t) : Prop := {
  i_null : s_pcs s !! 0 = None;
  i_size : Z.of_nat (size (s_pcs s)) < 2 ^ 16;
  i_owner : s_thread s <> 0 -> s_pcs s !! s_thread s = Some Held;
  i_held t : s_pcs s !! t = Some Held -> s_thread s = t;
  i_lock t p l : s_pcs s !! t = Some p -> lock_at p = Some l -> l <> 0 /\ (p = Blocked l -> l <> t);
  i_waiting : s_waiting s = Z.of_nat (count is_counted (s_pcs s));
  i_nodup : NoDup (s_queue s);
  i_queue t : t ∈ s_queue s -> exists p, s_pcs s !! t = Some p /\ is_queued p = true;
  i_nums t p : s_pcs s !! t = Some p -> s_nums s !! t = Some (num_at p);
  i_spin t p : type = SYNC_SPINLOCK -> s_pcs s !! t = Some p -> is_counted p = false;
  i_wake t p : s_thread s = 0 -> t ∈ s_queue s -> s_pcs s !! t = Some p -> is_sleepy p = true ->
    exists u q, s_pcs s !! u = Some q /\ busy s u q;
}.

(** What a step of thread [t] from [p] to [p'] has to respect. *)
Record sync_move (type : sync_type) (s : sync_t) (t : Z) (p : spc) (s' : sync_t) (p' : spc) : Prop := {
  m_pcs : s_pcs s' = <[t := p']> (s_pcs s);
  m_num : s_nums s' !! t = Some (num_at p');
  m_nums u : u <> t -> s_nums s' !! u = s_nums s !! u;
  m_word : s_thread s' = s_thread s /\ (p = Held <-> p' = Held) \/
           s_thread s = 0 /\ s_thread s' = t /\ p' = Held \/
           p = Held /\ s_thread s' = 0 /\ p' <> Held;
  m_lock l : lock_at p' = Some l -> l <> 0 /\ (p' = Blocked l -> l <> t);
  m_waiting : s_waiting s' = u16 (s_waiting s + Z.b2z (is_counted p') - Z.b2z (is_counted p));
  m_nodup : NoDup (s_queue s');
  m_queue u : u ∈ s_queue s' -> u = t /\ is_queued p' = true \/ u <> t /\ u ∈ s_queue s;
  m_spin : type = SYNC_SPINLOCK -> is_counted p' = false;
  m_wake : s_thread s' = 0 ->
    busy s' t p' \/ (exists u q, u <> t /\ s_pcs s !! u = Some q /\ busy s' u q) \/
    s_queue s' = [] \/
    s_thread s = 0 /\ ~ busy s t p /\ s_queue s' = s_queue s /\ (is_sleepy p' = true -> is_sleepy p = true);
}.

Lemma u16_small x : 0 <= x < 2 ^ 16 -> u16 x = x.
Proof. apply wrap_small. Qed.

Lemma waiting_move type s t p s' p' : sync_inv type s -> s_pcs s !! t = Some p ->
  sync_move type s t p s' p' -> s_waiting s' = Z.of_nat (count is_counted (s_pcs s')).
Proof.
  intros I Hp M. rewrite (m_waiting _ _ _ _ _ _ M), (i_waiting _ _ I), (m_pcs _ _ _ _ _ _ M).
  pose proof (count_move is_counted (s_pcs s) t p p' Hp) as Hc.
  pose proof (count_le is_counted (<[t := p']> (s_pcs s))) as Hl.
  rewrite map_size_insert_Some in Hl by (by eexists). pose proof (i_size _ _ I).
  rewrite u16_small; destruct (is_counted p), (is_counted p'); simpl in *; lia.
Qed.

Lemma wake_move type s t p s' p' : sync_inv type s -> s_pcs s !! t = Some p ->
  sync_move type s t p s' p' -> forall u q, s_thread s' = 0 -> u ∈ s_queue s' ->
  s_pcs s' !! u = Some q -> is_sleepy q = true -> exists v r, s_pcs s' !! v = Some r /\ busy s' v r.
Proof.
  intros I Hp M u q Hw Hu Hq Hs.
  destruct (m_wake _ _ _ _ _ _ M Hw) as [Hb|[(v & r & Hv & Hr & Hb)|[E|(Hw0 & Hnb & E & Hss)]]].
  - exists t, p'. rewrite (m_pcs _ _ _ _ _ _ M), lookup_insert_eq. done.
  - exists v, r. rewrite (m_pcs _ _ _ _ _ _ M), lookup_insert_ne by congruence. done.
  - rewrite E in Hu. by apply elem_of_nil in Hu.
  - assert (Hold : exists q0, s_pcs s !! u = Some q0 /\ is_sleepy q0 = true).
    { rewrite (m_pcs _ _ _ _ _ _ M) in Hq. lookup_move; [|eauto]. exists p. split; [done|].
      apply Hss. congruence. }
    destruct Hold as (q0 & Hq0 & Hs0). rewrite E in Hu.
    destruct (i_wake _ _ I u q0 Hw0 Hu Hq0 Hs0) as (v & r & Hr & Hb).
    assert (v <> t) by (intros ->; congruence).
    exists v, r. rewrite (m_pcs _ _ _ _ _ _ M), lookup_insert_ne by congruence.
    split; [done|]. unfold busy. rewrite E. exact Hb.
Qed.

Lemma sync_move_inv type s t p s' p' : sync_inv type s -> s_pcs s !! t = Some p ->
  sync_move type s t p s' p' -> sync_inv type s'.
Proof.
  intros I Hp M. pose proof (m_pcs _ _ _ _ _ _ M) as Epcs.
  assert (Ht0 : t <> 0) by (intros ->; by rewrite (i_null _ _ I) in Hp). split.
  - rewrite Epcs, lookup_insert_ne by done. apply (i_null _ _ I).
  - rewrite Epcs, map_size_insert_Some by (by eexists). apply (i_size _ _ I).
  - rewrite Epcs. intros Hw. destruct (m_word _ _ _ _ _ _ M) as [[E Hpp]|[(_ & E & ->)|(_ & E & _)]].
    + rewrite E in *. pose proof (i_owner _ _ I Hw) as Ho. destruct (decide (t = s_thread s)) as [Et|Hne].
      * rewrite <- Et in *. rewrite lookup_insert_eq. f_equal. apply Hpp. congruence.
      * by rewrite lookup_insert_ne.
    + rewrite E. by lookup_move.
    + done.
  - rewrite Epcs. intros u Hu. destruct (m_word _ _ _ _ _ _ M) as [[-> Hpp]|[(E0 & E & ->)|(-> & E & Hne)]].
    + lookup_move; [|by apply (i_held _ _ I)]. injection Hu as ->. apply (i_held _ _ I).
      rewrite Hp. f_equal. by apply Hpp.
    + lookup_move; [done|]. apply (i_held _ _ I) in Hu as Hu'. subst u.
      exfalso. rewrite E0, (i_null _ _ I) in Hu. done.
    + lookup_move; [congruence|]. apply (i_held _ _ I) in Hu, Hp. congruence.
  - rewrite Epcs. intros u q l Hq Hl. lookup_move; [|by apply (i_lock _ _ I u q l)].
    injection Hq as <-. by apply (m_lock _ _ _ _ _ _ M).
  - by apply (waiting_move type s t p s' p').
  - apply (m_nodup _ _ _ _ _ _ M).
  - intros u Hu. rewrite Epcs. destruct (m_queue _ _ _ _ _ _ M u Hu) as [[-> Hq]|[Hne Hin]].
    + rewrite lookup_insert_eq. eauto.
    + rewrite lookup_insert_ne by congruence. by apply (i_queue _ _ I).
  - rewrite Epcs. intros u q Hq. lookup_move.
    + injection Hq as <-. apply (m_num _ _ _ _ _ _ M).
    + rewrite (m_nums _ _ _ _ _ _ M) by done. by apply (i_nums _ _ I).
  - rewrite Epcs. intros u q Ht Hq. lookup_move; [|by apply (i_spin _ _ I u q)].
    injection Hq as <-. by apply (m_spin _ _ _ _ _ _ M).
  - by apply (wake_move type s t p s' p').
Qed.

(** ** The steps respect the invariant *)

Section Steps.
Context (type : sync_type) (s : sync_t) (I : sync_inv type s).
Context (t : Z) (p : spc) (Hp : s_pcs s !! t = Some p).

Lemma num_default : default 0 (s_nums s !! t) = num_at p.
Proof using Type*. by rewrite (i_nums _ _ I t p Hp). Qed.

Lemma waiting_same : u16 (s_waiting s + Z.b2z (is_counted p) - Z.b2z (is_counted p)) = s_waiting s.
Proof using Type*.
  rewrite (i_waiting _ _ I). pose proof (count_le is_counted (s_pcs s)). pose proof (i_size _ _ I).
  rewrite u16_small; lia.
Qed.

Lemma queue_old u p' : (is_queued p = true -> is_queued p' = true) -> u ∈ s_queue s ->
  u = t /\ is_queued p' = true \/ u <> t /\ u ∈ s_queue s.
Proof using Type*.
  intros Hpp Hu. destruct (decide (u = t)) as [->|]; [left|by right].
  destruct (i_queue _ _ I t Hu) as (q & Hq & Hqq). split; [done|]. apply Hpp. congruence.
Qed.

(** A step towards sleep: the lock has an owner, or the thread was about to
    sleep already. *)
Lemma move_sleepy p' :
  is_queued p = true -> is_sleepy p' = true -> s_thread s <> 0 \/ is_sleepy p = true /\ t ∈ s_queue s ->
  sync_move type s t p (goto s t p') p'.
Proof using Type*.
  intros Hq Hs' Hw.
  assert (Hp' : num_at p' = num_at p /\ is_counted p' = is_counted p /\ lock_at p' = None /\
    is_queued p' = true /\ p <> Held /\ p' <> Held).
  { destruct p; try done; destruct p'; done. }
  destruct Hp' as (En & Ec & El & Eq & Hh & Hh'). split; simpl; try done.
  - rewrite En. by apply (i_nums _ _ I).
  - left. split; [done|]. split; congruence.
  - rewrite El. done.
  - rewrite Ec. symmetry. apply waiting_same.
  - apply (i_nodup _ _ I).
  - intros u Hu. by apply queue_old.
  - intros Ht. rewrite Ec. by apply (i_spin _ _ I t p).
  - intros Hw0. destruct Hw as [Hw|[Hs Hin]]; [done|]. right. right. right.
    split; [done|]. split; [|done]. intros (_ & _ & Hb). by apply Hb.
Qed.

(** A thread at a place that is not [Idle], [Held] or asleep is busy. *)
Lemma busy_awake s' p' : p' <> Idle -> p' <> Held -> is_sleepy p' = false -> busy s' t p'.
Proof using Type. intros H1 H2 H3. split; [done|]. split; [done|]. intros [H4 _]. congruence. Qed.

(** A step to a place where the thread runs on: it is busy then. *)
Lemma move_awake p' s' :
  p <> Held -> p' <> Idle -> p' <> Held -> is_sleepy p' = false ->
  s_thread s' = s_thread s -> s_pcs s' = <[t := p']> (s_pcs s) ->
  s_nums s' = s_nums s /\ num_at p' = num_at p \/
    s_nums s' = <[t := default 0 (s_nums s !! t) + (num_at p' - num_at p)]> (s_nums s) ->
  (forall l, lock_at p' = Some l -> l <> 0 /\ (p' = Blocked l -> l <> t)) ->
  s_waiting s' = s_waiting s /\ is_counted p' = is_counted p \/
    s_waiting s' = u16 (s_waiting s + Z.b2z (is_counted p') - Z.b2z (is_counted p)) ->
  NoDup (s_queue s') ->
  (forall u, u ∈ s_queue s' -> u = t /\ is_queued p' = true \/ u <> t /\ u ∈ s_queue s) ->
  (type = SYNC_SPINLOCK -> is_counted p' = false) ->
  sync_move type s t p s' p'.
Proof using Type*.
  intros Hh Hi' Hh' Hs' Et Ep En Hl Ew Hn Hq Hspin. split; try done.
  - destruct En as [[-> ->]| ->]; [by apply (i_nums _ _ I)|].
    rewrite lookup_insert_eq, num_default. f_equal. lia.
  - intros u Hu. destruct En as [[-> _]| ->]; [done|]. by rewrite lookup_insert_ne by congruence.
  - left. split; [done|]. split; congruence.
  - destruct Ew as [[-> ->]| ->]; [|done]. symmetry. apply waiting_same.
  - intros _. left. by apply busy_awake.
Qed.
End Steps.

(** A thread that has just been taken off the queue is busy. *)
Lemma woken_busy type s s' u q l : sync_inv type s -> s_queue s = u :: l -> s_queue s' = l ->
  s_pcs s !! u = Some q -> busy s' u q.
Proof.
  intros I Eq Eq' Hq. pose proof (i_nodup _ _ I) as Hn. rewrite Eq in Hn.
  apply NoDup_cons in Hn as [Hnin _].
  destruct (i_queue _ _ I u) as (q' & Hq' & Hqd); [rewrite Eq; constructor|].
  assert (q' = q) as -> by congruence. unfold busy. rewrite Eq'.
  split; [by intros ->|]. split; [by intros ->|]. tauto.
Qed.

(** The parts of [move_awake] that hold for every step of the code. *)
Ltac awake I Hp :=
  apply (move_awake _ _ I _ _ Hp);
  [ discriminate | discriminate | discriminate | reflexivity | reflexivity | reflexivity
  | first [left; split; reflexivity | right; reflexivity]
  | try (intros ? [=])
  | first [left; split; reflexivity | right; simpl; f_equal; lia]
  | try apply (i_nodup _ _ I)
  | try (intros u Hu; apply (queue_old _ _ I _ _ Hp); [done | exact Hu])
  | try (intros Ht; first [done | by apply (i_spin _ _ I _ _ Ht) in Hp]) ].

Lemma acquire_move type s t p s' : sync_inv type s -> s_pcs s !! t = Some p ->
  sync_acquire type s t p = Done s' -> exists p', sync_move type s t p s' p'.
Proof.
  intros I Hp Hs. destruct p; simpl in Hs; try done.
  - (* Idle *) injection Hs as <-. exists Acq. awake I Hp.
  - (* Acq *) destruct (Z.eqb_spec (s_thread s) 0) as [Ew|Ew]; injection Hs as <-.
    + exists Held. split; simpl; try done.
      * by rewrite (i_nums _ _ I t Acq Hp).
      * auto.
      * symmetry. exact (waiting_same _ _ I _ _ Hp).
      * apply (i_nodup _ _ I).
      * intros u Hu. by apply (queue_old _ _ I _ _ Hp u Held).
      * intros ->. by rewrite (i_null _ _ I) in Hp.
    + exists (Blocked (s_thread s)). awake I Hp.
      subst. split; [done|]. intros _ E. pose proof (i_owner _ _ I Ew). congruence.
  - (* Blocked *) destruct (Z.eqb_spec lock t); [done|].
    destruct (i_lock _ _ I t _ lock Hp eq_refl) as [Hl0 _].
    destruct type; injection Hs as <-; [exists Relax; awake I Hp|].
    exists (Prep lock). awake I Hp. by subst.
  - (* Relax *) injection Hs as <-. exists Acq. awake I Hp.
  - (* Prep *) injection Hs as <-. exists (Cmp lock).
    assert (Hnin : t ∉ s_queue s)
      by (intros Hu; destruct (i_queue _ _ I t Hu) as (q & Hq & ?); simplify_eq).
    awake I Hp.
    + subst. by destruct (i_lock _ _ I t _ _ Hp eq_refl).
    + apply NoDup_app. split; [apply (i_nodup _ _ I)|]. split; [|apply NoDup_singleton].
      by intros u Hu ->%list_elem_of_singleton.
    + intros u [Hu| ->%list_elem_of_singleton]%elem_of_app; [right; split; congruence|by left].
  - (* Cmp *) destruct (i_lock _ _ I t _ lock Hp eq_refl) as [Hl0 _].
    destruct (Z.eqb_spec (s_thread s) lock) as [Ew|Ew]; injection Hs as <-.
    + exists Sleep. apply move_sleepy; try done. left. congruence.
    + exists Abort. awake I Hp.
  - (* Abort *) injection Hs as <-. exists Uncount. awake I Hp.
    + apply NoDup_list_rem, (i_nodup _ _ I).
    + intros u [Hne Hu]%elem_of_list_rem. by right.
  - (* Sleep *) case_bool_decide as Hin; injection Hs as <-.
    + exists Asleep. apply move_sleepy; try done. by right.
    + exists Uncount. awake I Hp. intros u Hu. right. by split; [intros ->|].
  - (* Asleep *) case_bool_decide as Hin; [done|]. injection Hs as <-. exists Uncount. awake I Hp.
    intros u Hu. right. by split; [intros ->|].
  - (* Uncount *) injection Hs as <-. exists Acq. awake I Hp.
Qed.

Lemma release_move type s t p s' : sync_inv type s -> s_pcs s !! t = Some p ->
  sync_release type s t p = Done s' -> exists p', sync_move type s t p s' p'.
Proof.
  intros I Hp Hs. destruct p; simpl in Hs; try done.
  - (* Held *) destruct (Z.eqb_spec (s_thread s) 0); [done|]. injection Hs as <-. exists Rel1.
    split; simpl; try done.
    + by rewrite (i_nums _ _ I t Held Hp).
    + auto.
    + symmetry. exact (waiting_same _ _ I _ _ Hp).
    + apply (i_nodup _ _ I).
    + intros u Hu. by apply (queue_old _ _ I _ _ Hp u Rel1).
    + intros _. left. by apply busy_awake.
  - (* Rel1 *) assert (Hidle : type = SYNC_SPINLOCK \/ s_waiting s = 0 -> sync_move type s t Rel1 (goto (num s t (-1)) t Idle) Idle).
    { intros Hw. split; simpl; try done.
      + by rewrite lookup_insert_eq, (i_nums _ _ I t Rel1 Hp).
      + intros u Hu. by rewrite lookup_insert_ne by congruence.
      + by left.
      + symmetry. exact (waiting_same _ _ I _ _ Hp).
      + apply (i_nodup _ _ I).
      + intros u Hu. by apply (queue_old _ _ I _ _ Hp u Idle).
      + intros _. right. right. left. destruct (s_queue s) as [|u l] eqn:Eq; [done|]. exfalso.
        destruct (i_queue _ _ I u) as (q & Hq & Hqq); [rewrite Eq; constructor|].
        assert (Hc : is_counted q = true) by (by destruct q).
        destruct Hw as [Ht|Hw]; [by rewrite (i_spin _ _ I u q Ht Hq) in Hc|].
        pose proof (count_pos is_counted _ u q Hq Hc). rewrite (i_waiting _ _ I) in Hw. lia. }
    destruct type; [injection Hs as <-; exists Idle; by apply Hidle; left|].
    destruct (Z.eqb_spec (s_waiting s) 0); injection Hs as <-; [exists Idle; by apply Hidle; right|].
    exists Rel2. awake I Hp.
  - (* Rel2 *) injection Hs as <-. exists Idle. split; simpl; try done.
    + by rewrite (i_nums _ _ I t Rel2 Hp).
    + by left.
    + symmetry. exact (waiting_same _ _ I _ _ Hp).
    + pose proof (i_nodup _ _ I) as Hn. destruct (s_queue s); [done|]. by apply NoDup_cons in Hn as [_ Hn].
    + intros u Hu. assert (Hu' : u ∈ s_queue s) by (destruct (s_queue s); [done|by constructor]).
      by apply (queue_old _ _ I _ _ Hp u Idle).
    + intros _. right. destruct (s_queue s) as [|u l] eqn:Eq; [by right; left|left].
      destruct (i_queue _ _ I u) as (q & Hq & Hqq); [rewrite Eq; constructor|].
      exists u, q. split; [intros ->; simplify_eq|]. split; [done|].
      by eapply (woken_busy _ s _ u q l I Eq).
Qed.

Lemma trylock_inv type s t : sync_inv type s -> s_pcs s !! t = Some Idle -> sync_inv type (sync_trylock s t).
Proof.
  intros I Hp. unfold sync_trylock. simpl. destruct (Z.eqb_spec (s_thread s) 0) as [Ew|Ew].
  - eapply (sync_move_inv _ s t Idle _ Held I Hp). split; simpl; try done.
    + by rewrite lookup_insert_eq, (i_nums _ _ I t Idle Hp).
    + intros u Hu. by rewrite lookup_insert_ne by congruence.
    + auto.
    + symmetry. exact (waiting_same _ _ I _ _ Hp).
    + apply (i_nodup _ _ I).
    + intros u Hu. by apply (queue_old _ _ I _ _ Hp u Held).
    + intros ->. by rewrite (i_null _ _ I) in Hp.
  - assert (E : num (num s t 1) t (-1) = s); [|by rewrite E].
    unfold num. simpl. rewrite lookup_insert_eq, (i_nums _ _ I t Idle Hp). simpl.
    rewrite insert_insert_eq, insert_id by (by rewrite (i_nums _ _ I t Idle Hp)). by destruct s.
Qed.

Lemma sync_step_inv type s t a s' : sync_inv type s -> sync_step type s t a = Done s' -> sync_inv type s'.
Proof.
  intros I Hs. unfold sync_step in Hs. apply rbind_Done in Hs as (p & Hp%deref_Done & Hs).
  assert (Hacq : sync_acquire type s t p = Done s' -> sync_inv type s').
  { intros H. destruct (acquire_move _ _ _ _ _ I Hp H) as [p' M]. by eapply sync_move_inv. }
  assert (Hrel : sync_release type s t p = Done s' -> sync_inv type s').
  { intros H. destruct (release_move _ _ _ _ _ I Hp H) as [p' M]. by eapply sync_move_inv. }
  destruct a, p; try done; auto. injection Hs as <-. by apply trylock_inv.
Qed.

Lemma init_inv type (ts : gset Z) : 0 ∉ ts -> Z.of_nat (size ts) < 2 ^ 16 -> sync_inv type (sync_init ts).
Proof.
  intros H0 Hsz. unfold sync_init. split; simpl; try done.
  - unfold start. by rewrite lookup_gset_to_gmap_None.
  - unfold start. rewrite <- (size_dom (D := gset Z)), dom_gset_to_gmap. done.
  - intros t E%start_lookup. done.
  - intros t p l ->%start_lookup. done.
  - rewrite count_none; [done|]. intros t p ->%start_lookup. done.
  - constructor.
  - intros t E%elem_of_nil. done.
  - unfold start. intros t p [Ht <-]%lookup_gset_to_gmap_Some. by rewrite lookup_gset_to_gmap_Some.
  - intros t p _ ->%start_lookup. done.
  - intros t p _ E%elem_of_nil. done.
Qed.

Lemma reach_inv type ts s : 0 ∉ ts -> Z.of_nat (size ts) < 2 ^ 16 ->
  rtc (sync_next type) (sync_init ts) s -> sync_inv type s.
Proof.
  intros H0 Hsz Hr. eapply rtc_invariant; [exact Hr|by apply init_inv|].
  intros a b I (t & act & Hs). by eapply sync_step_inv.
Qed.

(** C19: mutexes and spin locks exclude: however the threads interleave, at
    most one is between acquiring and releasing, it is the one the lock names,
    none of the panics of the lock's code (a double lock, the release of a
    free lock) can be reached, and the count of locks a thread holds (the
    depth of its critical section) is one while it has or tries to get the
    lock, and zero when it sleeps or is outside. *)
Theorem sync_exclusive type (ts : gset Z) s : 0 ∉ ts -> Z.of_nat (size ts) < 2 ^ 16 ->
  rtc (sync_next type) (sync_init ts) s ->
  (forall t u, s_pcs s !! t = Some Held -> s_pcs s !! u = Some Held -> t = u) /\
  (forall t, s_pcs s !! t = Some Held <-> s_thread s = t /\ t <> 0) /\
  (forall t a, sync_step type s t a <> Panic) /\
  (forall t p, s_pcs s !! t = Some p -> s_nums s !! t = Some (num_at p)).
Proof.
  intros H0 Hsz Hr. pose proof (reach_inv type ts s H0 Hsz Hr) as I.
  split; [|split; [|split; [|by intros t p; apply (i_nums _ _ I)]]].
  - intros t u Ht Hu. apply (i_held _ _ I) in Ht, Hu. congruence.
  - intros t. split.
    + intros Ht. split; [by apply (i_held _ _ I)|]. intros ->. by rewrite (i_null _ _ I) in Ht.
    + intros [<- Ht]. by apply (i_owner _ _ I).
  - intros t a Hpan. unfold sync_step in Hpan. destruct (s_pcs s !! t) as [p|] eqn:Hp; [|done]. simpl in Hpan.
    destruct a, p; simpl in Hpan; try done; repeat case_match; try done; bool_props.
    + by rewrite (i_held _ _ I t Hp) in *; subst; rewrite (i_null _ _ I) in Hp.
    + destruct (i_lock _ _ I t _ _ Hp eq_refl) as [_ Hne]. by apply Hne.
Qed.

(** C20: no wakeup of a mutex is lost: when a thread sleeps for the lock,
    another thread has the lock, or another thread runs in the code of the
    lock and can go on (it will take the lock or wake one up).  The threads
    never all sleep for a lock that is free. *)
Theorem sync_no_lost_wakeup (ts : gset Z) s t : 0 ∉ ts -> Z.of_nat (size ts) < 2 ^ 16 ->
  rtc (sync_next SYNC_MUTEX) (sync_init ts) s ->
  s_pcs s !! t = Some Asleep -> sync_step SYNC_MUTEX s t Go = Fault ->
  exists u, u <> t /\ (s_pcs s !! u = Some Held \/ exists s', sync_step SYNC_MUTEX s u Go = Done s').
Proof.
  intros H0 Hsz Hr Ht Hf. pose proof (reach_inv _ ts s H0 Hsz Hr) as I.
  assert (Hin : t ∈ s_queue s).
  { unfold sync_step in Hf. rewrite Ht in Hf. simpl in Hf. by case_bool_decide. }
  destruct (decide (s_thread s = 0)) as [Ew|Ew].
  - destruct (i_wake _ _ I t Asleep Ew Hin Ht eq_refl) as (u & q & Hq & Hi & Hh & Hb).
    exists u. split; [intros ->; simplify_eq; by apply Hb|]. right.
    unfold sync_step. rewrite Hq. simpl. destruct q; try done; simpl; eauto; try (case_match; eauto).
    + destruct (i_lock _ _ I u _ _ Hq eq_refl) as [_ Hne]. bool_props. by destruct (Hne eq_refl).
    + bool_props. by destruct Hb.
  - exists (s_thread s). pose proof (i_owner _ _ I Ew) as Ho. split; [congruence|by left].
Qed.

(** ** Concrete runs *)

Fixpoint sync_run (type : sync_type) (s : sync_t) (l : list (Z * sact)) : res sync_t :=
  match l with
  | [] => Done s
  | (t, a) :: l => let* s := sync_step type s t a in sync_run type s l
  end.

Lemma sync_run_reach type l : forall s s', sync_run type s l = Done s' -> rtc (sync_next type) s s'.
Proof.
  induction l as [|[t a] l IH]; intros s s' H; simpl in H; [injection H as ->; constructor|].
  apply rbind_Done in H as (s1 & H1 & H). econstructor; [by exists t, a|]. by apply IH.
Qed.

(** Thread 1 has the mutex and thread 2 has gone to sleep. *)
Definition demo_steps : list (Z * sact) :=
  [(1, Acquire); (1, Go); (2, Acquire); (2, Go); (2, Go); (2, Go); (2, Go); (2, Go)].
Definition demo_state : sync_t :=
  MkSync 1 1 [2] (<[1 := Held]> (<[2 := Asleep]> ∅)) (<[1 := 1]> (<[2 := 0]> ∅)).

Lemma sync_exclusive_witness : s_pcs demo_state !! 1 = Some Held /\ s_thread demo_state = 1 /\
  forall a, sync_step SYNC_MUTEX demo_state 1 a <> Panic.
Proof.
  destruct (sync_exclusive SYNC_MUTEX {[1; 2]} demo_state) as (_ & _ & Hp & _).
  - set_solver.
  - vm_compute. reflexivity.
  - apply (sync_run_reach _ demo_steps). vm_compute. reflexivity.
  - split; [reflexivity|]. split; [reflexivity|]. exact (Hp 1).
Defined.

Lemma sync_no_lost_wakeup_witness : exists u, u <> 2 /\
  (s_pcs demo_state !! u = Some Held \/ exists s', sync_step SYNC_MUTEX demo_state u Go = Done s').
Proof.
  apply (sync_no_lost_wakeup {[1; 2]} demo_state 2).
  - set_solver.
  - vm_compute. reflexivity.
  - apply (sync_run_reach _ demo_steps). vm_compute. reflexivity.
  - reflexivity.
  - vm_compute. reflexivity.
Defined.

(** The owner releases, finds the sleeper and wakes it up; it gets the lock. *)
Example sync_handover :
  (let* s := sync_run SYNC_MUTEX demo_state
     [(1, Release); (1, Go); (1, Go); (2, Go); (2, Go); (2, Go)] in
   Done (s_thread s, s_waiting s, s_queue s)) = Done (2, 0, []).
Proof. vm_compute. reflexivity. Qed.
