(* ===== verification/Rwlock.v ===== *)
(** * kern/rwlock.c: locks for many readers or one writer

    The fields of the lock are protected by a spin lock, so what happens
    between [spin_lock] and [spin_unlock] is one step.  The waits in between
    are those of kern/futex.c (see [Sync]): a thread puts itself on the queue
    of the futex word, compares the word with the value it has read under the
    lock, and sleeps if it is the same and nobody took it off the queue.  The
    futex word of the writers has the readers' count and [wrlock2], the word of
    the readers has the count of waiting writers and [wrlock].  [rwunlock]
    reads [wrwait] and [rdwait] without the lock, and wakes up without it.

    [rwlock_exclusive] is the safety of the lock, [rwlock_no_lost_wakeup] shows
    that the threads never all sleep for a free lock. *)
From stdpp Require Import base gmap list relations.
From Stdlib Require Import ZArith Lia.
From S2P Require Import Prelude Interleave.
Open Scope Z_scope.

Inductive kind := Rd | Wr.
#[export] Instance kind_eq_dec : EqDecision kind.
Proof. solve_decision. Defined.

Inductive rpc :=
| Idle
| Prep (k : kind) (val : Z)   (* in kern_wait: before wait_prep *)
| Cmp (k : kind) (val : Z)    (* on the queue, before the comparison *)
| Abort (k : kind)
| Sleep (k : kind)
| Asleep (k : kind)
| Back (k : kind)             (* behind kern_wait *)
| Held (k : kind)
| U1                          (* rwunlock, behind spin_unlock: before "if(lock->wrwait)" *)
| U2                          (* before the wake of a writer *)
| U3 (num : Z)                (* before "if(num == 0 && lock->rdwait)" *)
| U4.                         (* before the wake of the readers *)

Record rwlock_t := MkRw {
  rdwait : Z; wrwait : Z; wrlock_ : Z; rdnum : Z; wrlock2 : Z;
  waitq : kind -> list Z;
  pcs : gmap Z rpc;
}.

(** The futex words: the unions of the structure, lowest bytes first. *)
Definition rfutex (s : rwlock_t) : Z := wrwait s + 2 ^ 16 * wrlock_ s.
Definition wfutex (s : rwlock_t) : Z := rdnum s + 2 ^ 16 * wrlock2 s.
Definition futex (s : rwlock_t) (k : kind) : Z := match k with Rd => rfutex s | Wr => wfutex s end.

Definition goto (s : rwlock_t) (t : Z) (p : rpc) : rwlock_t :=
  MkRw (rdwait s) (wrwait s) (wrlock_ s) (rdnum s) (wrlock2 s) (waitq s) (<[t := p]> (pcs s)).
Definition set_queue (s : rwlock_t) (k : kind) (l : list Z) : rwlock_t :=
  MkRw (rdwait s) (wrwait s) (wrlock_ s) (rdnum s) (wrlock2 s)
    (fun k' => if decide (k' = k) then l else waitq s k') (pcs s).
(** [lock->rdwait] or [lock->wrwait] plus [d] *)
Definition add_wait (s : rwlock_t) (k : kind) (d : Z) : rwlock_t :=
  match k with
  | Rd => MkRw (u16 (rdwait s + d)) (wrwait s) (wrlock_ s) (rdnum s) (wrlock2 s) (waitq s) (pcs s)
  | Wr => MkRw (rdwait s) (u16 (wrwait s + d)) (wrlock_ s) (rdnum s) (wrlock2 s) (waitq s) (pcs s)
  end.
Definition set_wrlock (s : rwlock_t) (x : Z) : rwlock_t :=
  MkRw (rdwait s) (wrwait s) x (rdnum s) x (waitq s) (pcs s).
Definition set_rdnum (s : rwlock_t) (x : Z) : rwlock_t :=
  MkRw (rdwait s) (wrwait s) (wrlock_ s) x (wrlock2 s) (waitq s) (pcs s).

Definition rwlock_init (ts : gset Z) : rwlock_t := MkRw 0 0 0 0 0 (fun _ => []) (start ts Idle).

(** The loop condition of [wrlock] and [rdlock], with what follows it under
    the spin lock. *)
Definition wrlock (s : rwlock_t) (t : Z) : rwlock_t :=
  if negb (rdnum s =? 0) || negb (wrlock_ s =? 0)
  then goto (add_wait s Wr 1) t (Prep Wr (wfutex s))
  else goto (set_wrlock s 1) t (Held Wr).
Definition rdlock (s : rwlock_t) (t : Z) : rwlock_t :=
  if negb (wrlock_ s =? 0) || negb (wrwait s =? 0)
  then goto (add_wait s Rd 1) t (Prep Rd (rfutex s))
  else goto (set_rdnum s (u16 (rdnum s + 1))) t (Held Rd).
Definition lock (s : rwlock_t) (t : Z) (k : kind) : rwlock_t :=
  match k with Rd => rdlock s t | Wr => wrlock s t end.

(** [rwunlock] up to [spin_unlock]. *)
Definition rwunlock (s : rwlock_t) (t : Z) : res rwlock_t :=
  if negb (rdnum s =? 0) then
    let n := u16 (rdnum s - 1) in
    Done (goto (set_rdnum s n) t (if negb (n =? 0) then Idle else U1))
  else kassert negb (wrlock_ s =? 0) in Done (goto (set_wrlock s 0) t U1).

Inductive ract := Lock (k : kind) | Unlock | Go.

(** A step of thread [t]; [Fault]: it has no such step. *)
Definition rw_step (s : rwlock_t) (t : Z) (a : ract) : res rwlock_t :=
  let* p := deref (pcs s !! t) in
  match a, p with
  | Lock k, Idle => Done (lock s t k)
  | Unlock, Held _ => rwunlock s t
  | Go, Prep k v => Done (goto (set_queue s k (waitq s k ++ [t])) t (Cmp k v))
  | Go, Cmp k v => Done (goto s t (if futex s k =? v then Sleep k else Abort k))
  | Go, Abort k => Done (goto (set_queue s k (list_rem t (waitq s k))) t (Back k))
  | Go, Sleep k => Done (goto s t (if bool_decide (t ∈ waitq s k) then Asleep k else Back k))
  | Go, Asleep k => if bool_decide (t ∈ waitq s k) then Fault else Done (goto s t (Back k))
  | Go, Back k => Done (lock (add_wait s k (-1)) t k)
  | Go, U1 => Done (goto s t (if negb (wrwait s =? 0) then U2 else U3 0))
  | Go, U2 =>
      Done (goto (set_queue s Wr (tail (waitq s Wr))) t
        (U3 (match waitq s Wr with [] => 0 | _ => 1 end)))
  | Go, U3 num => Done (goto s t (if (num =? 0) && negb (rdwait s =? 0) then U4 else Idle))
  | Go, U4 => Done (goto (set_queue s Rd []) t Idle)
  | _, _ => Fault
  end.

Definition rw_next (s s' : rwlock_t) : Prop := exists t a, rw_step s t a = Done s'.

(** ** The invariant *)

Definition is_kind (k k' : kind) : bool := bool_decide (k = k').
(** Counted in [rdwait] or [wrwait]. *)
Definition waits (k : kind) (p : rpc) : bool :=
  match p with
  | Prep k' _ | Cmp k' _ | Abort k' | Sleep k' | Asleep k' | Back k' => is_kind k k'
  | _ => false
  end.
Definition queued (k : kind) (p : rpc) : bool :=
  match p with Cmp k' _ | Abort k' | Sleep k' | Asleep k' => is_kind k k' | _ => false end.
Definition sleepy (p : rpc) : bool := match p with Sleep _ | Asleep _ => true | _ => false end.
Definition holds (k : kind) (p : rpc) : bool := match p with Held k' => is_kind k k' | _ => false end.

(** A writer that is not asleep, or a thread on its way to wake one. *)
Definition for_writers (s : rwlock_t) (u : Z) (p : rpc) : Prop :=
  p = U1 \/ p = U2 \/ waits Wr p = true /\ ~ (sleepy p = true /\ u ∈ waitq s Wr).
(** A thread on its way to wake the readers. *)
Definition for_readers (p : rpc) : Prop := p = U1 \/ p = U2 \/ p = U3 0 \/ p = U4.

(** Some thread of the queue is about to sleep or sleeps. *)
Definition sleeper (s : rwlock_t) (k : kind) : Prop :=
  exists t p, t ∈ waitq s k /\ pcs s !! t = Some p /\ sleepy p = true.

Record rw_inv (s : rwlock_t) : Prop := {
  i_size : Z.of_nat (size (pcs s)) < 2 ^ 16;
  i_rdwait : rdwait s = Z.of_nat (count (waits Rd) (pcs s));
  i_wrwait : wrwait s = Z.of_nat (count (waits Wr) (pcs s));
  i_rdnum : rdnum s = Z.of_nat (count (holds Rd) (pcs s));
  i_wrlock : wrlock_ s = Z.of_nat (count (holds Wr) (pcs s));
  i_wrlock2 : wrlock2 s = wrlock_ s;
  i_excl : wrlock_ s = 0 \/ wrlock_ s = 1 /\ rdnum s = 0;
  i_val t k v : pcs s !! t = Some (Prep k v) \/ pcs s !! t = Some (Cmp k v) -> v <> 0;
  i_nodup k : NoDup (waitq s k);
  i_queue k t : t ∈ waitq s k -> exists p, pcs s !! t = Some p /\ queued k p = true;
  i_writers : rdnum s = 0 -> wrlock_ s = 0 -> sleeper s Wr ->
    exists u p, pcs s !! u = Some p /\ for_writers s u p;
  i_readers : sleeper s Rd -> wrlock_ s <> 0 \/ wrwait s <> 0 \/
    exists u p, pcs s !! u = Some p /\ for_readers p;
}.

(** What a step of thread [t] from [p] to [p'] has to respect. *)
Record rw_move (s : rwlock_t) (t : Z) (p : rpc) (s' : rwlock_t) (p' : rpc) : Prop := {
  m_pcs : pcs s' = <[t := p']> (pcs s);
  m_rdwait : rdwait s' = rdwait s + Z.b2z (waits Rd p') - Z.b2z (waits Rd p);
  m_wrwait : wrwait s' = wrwait s + Z.b2z (waits Wr p') - Z.b2z (waits Wr p);
  m_rdnum : rdnum s' = rdnum s + Z.b2z (holds Rd p') - Z.b2z (holds Rd p);
  m_wrlock : wrlock_ s' = wrlock_ s + Z.b2z (holds Wr p') - Z.b2z (holds Wr p);
  m_wrlock2 : wrlock2 s' = wrlock_ s';
  m_excl : wrlock_ s' = 0 \/ wrlock_ s' = 1 /\ rdnum s' = 0;
  m_val k v : p' = Prep k v \/ p' = Cmp k v -> v <> 0;
  m_nodup k : NoDup (waitq s' k);
  m_queue k u : u ∈ waitq s' k -> u = t /\ queued k p' = true \/ u <> t /\ u ∈ waitq s k;
  m_writers : rdnum s' = 0 -> wrlock_ s' = 0 -> sleeper s' Wr ->
    for_writers s' t p' \/ exists u q, u <> t /\ pcs s !! u = Some q /\ for_writers s' u q;
  m_readers : sleeper s' Rd -> wrlock_ s' <> 0 \/ wrwait s' <> 0 \/ for_readers p' \/
    exists u q, u <> t /\ pcs s !! u = Some q /\ for_readers q;
}.

Lemma counter_move (P : rpc -> bool) m t p p' x : m !! t = Some p -> x = Z.of_nat (count P m) ->
  x + Z.b2z (P p') - Z.b2z (P p) = Z.of_nat (count P (<[t := p']> m)).
Proof.
  intros Hp ->. pose proof (count_move P m t p p' Hp). destruct (P p), (P p'); simpl in *; lia.
Qed.

Lemma rw_move_inv s t p s' p' : rw_inv s -> pcs s !! t = Some p -> rw_move s t p s' p' -> rw_inv s'.
Proof.
  intros I Hp M. pose proof (m_pcs _ _ _ _ _ M) as Epcs. split.
  - rewrite Epcs, map_size_insert_Some by (by eexists). apply (i_size _ I).
  - rewrite Epcs, (m_rdwait _ _ _ _ _ M). apply counter_move; [done|apply (i_rdwait _ I)].
  - rewrite Epcs, (m_wrwait _ _ _ _ _ M). apply counter_move; [done|apply (i_wrwait _ I)].
  - rewrite Epcs, (m_rdnum _ _ _ _ _ M). apply counter_move; [done|apply (i_rdnum _ I)].
  - rewrite Epcs, (m_wrlock _ _ _ _ _ M). apply counter_move; [done|apply (i_wrlock _ I)].
  - apply (m_wrlock2 _ _ _ _ _ M).
  - apply (m_excl _ _ _ _ _ M).
  - intros u k v Hu. rewrite Epcs in Hu. destruct (decide (u = t)) as [->|Hne].
    + rewrite lookup_insert_eq in Hu. apply (m_val _ _ _ _ _ M k). destruct Hu as [[=]|[=]]; auto.
    + rewrite lookup_insert_ne in Hu by congruence. by apply (i_val _ I u k).
  - apply (m_nodup _ _ _ _ _ M).
  - intros k u Hu. rewrite Epcs. destruct (m_queue _ _ _ _ _ M k u Hu) as [[-> Hq]|[Hne Hin]].
    + rewrite lookup_insert_eq. eauto.
    + rewrite lookup_insert_ne by congruence. by apply (i_queue _ I).
  - intros H1 H2 H3. rewrite Epcs. destruct (m_writers _ _ _ _ _ M H1 H2 H3) as [H|(u & q & Hne & Hq & H)].
    + exists t, p'. by rewrite lookup_insert_eq.
    + exists u, q. by rewrite lookup_insert_ne by congruence.
  - intros H3. rewrite Epcs. destruct (m_readers _ _ _ _ _ M H3) as [H|[H|[H|(u & q & Hne & Hq & H)]]]; auto.
    + right. right. exists t, p'. by rewrite lookup_insert_eq.
    + right. right. exists u, q. by rewrite lookup_insert_ne by congruence.
Qed.

Section RwSteps.
Context (s : rwlock_t) (I : rw_inv s) (t : Z) (p : rpc) (Hp : pcs s !! t = Some p).

Lemma rw_queue_old k u p' : (queued k p = true -> queued k p' = true) -> u ∈ waitq s k ->
  u = t /\ queued k p' = true \/ u <> t /\ u ∈ waitq s k.
Proof using Type*.
  intros Hpp Hu. destruct (decide (u = t)) as [->|]; [left|by right].
  destruct (i_queue _ I k t Hu) as (q & Hq & Hqq). split; [done|]. apply Hpp. congruence.
Qed.

(** Counters that change by one do not wrap: there are fewer threads. *)
Lemma count_up (P : rpc -> bool) q x : P p = false -> P q = true -> x = Z.of_nat (count P (pcs s)) ->
  u16 (x + 1) = x + 1.
Proof using Type*.
  intros H1 H2 ->. pose proof (count_move P (pcs s) t p q Hp) as Hc.
  pose proof (count_le P (<[t := q]> (pcs s))) as Hl. rewrite map_size_insert_Some in Hl by (by eexists).
  pose proof (i_size _ I). rewrite H1, H2 in Hc. simpl in Hc.
  apply wrap_small. lia.
Qed.
Lemma count_down (P : rpc -> bool) x : P p = true -> x = Z.of_nat (count P (pcs s)) ->
  u16 (x - 1) = x - 1.
Proof using Type*.
  intros H1 ->. pose proof (count_pos P (pcs s) t p Hp H1). pose proof (count_le P (pcs s)).
  pose proof (i_size _ I). apply wrap_small. lia.
Qed.

(** The sleepers of [s'] slept before, when [t] did not fall asleep. *)
Lemma sleeper_old s' p' k : pcs s' = <[t := p']> (pcs s) ->
  (forall u, u ∈ waitq s' k -> u <> t -> u ∈ waitq s k) ->
  (sleepy p' = true -> t ∈ waitq s' k -> sleepy p = true /\ t ∈ waitq s k) ->
  sleeper s' k -> sleeper s k.
Proof using Type*.
  intros Ep Hq Ht (u & q & Hu & Hqu & Hs). rewrite Ep in Hqu. destruct (decide (u = t)) as [->|Hne].
  - rewrite lookup_insert_eq in Hqu. injection Hqu as <-. destruct (Ht Hs Hu). exists t, p. done.
  - rewrite lookup_insert_ne in Hqu by congruence. exists u, q. auto.
Qed.

(** The thread that is on its way is another one than [t]. *)
Lemma writers_old s' p' : pcs s' = <[t := p']> (pcs s) -> ~ for_writers s t p ->
  rdnum s = 0 -> wrlock_ s = 0 ->
  (forall u, u ∈ waitq s' Wr -> u <> t -> u ∈ waitq s Wr) ->
  (sleepy p' = true -> t ∈ waitq s' Wr -> sleepy p = true /\ t ∈ waitq s Wr) ->
  sleeper s' Wr -> exists u q, u <> t /\ pcs s !! u = Some q /\ for_writers s' u q.
Proof using Type*.
  intros Ep Hnt H1 H2 Hq Ht Hsl. apply (sleeper_old s' p' Wr Ep Hq Ht) in Hsl.
  destruct (i_writers _ I H1 H2 Hsl) as (u & q & Hqu & Hf).
  assert (Hne : u <> t) by (intros ->; assert (q = p) as -> by congruence; done). exists u, q. split; [done|]. split; [done|].
  destruct Hf as [->|[->|[Hw Hn]]]; [by left|by right; left|right; right]. split; [done|].
  intros [Hs Hin]. apply Hn. auto.
Qed.

Lemma readers_old s' p' : pcs s' = <[t := p']> (pcs s) -> ~ for_readers p ->
  (forall u, u ∈ waitq s' Rd -> u <> t -> u ∈ waitq s Rd) ->
  (sleepy p' = true -> t ∈ waitq s' Rd -> sleepy p = true /\ t ∈ waitq s Rd) ->
  sleeper s' Rd -> wrlock_ s <> 0 \/ wrwait s <> 0 \/
  exists u q, u <> t /\ pcs s !! u = Some q /\ for_readers q.
Proof using Type*.
  intros Ep Hnt Hq Ht Hsl. apply (sleeper_old s' p' Rd Ep Hq Ht) in Hsl.
  destruct (i_readers _ I Hsl) as [?|[?|(u & q & Hqu & Hf)]]; auto.
  right. right. exists u, q. split; [intros ->; assert (q = p) as -> by congruence; done|]. done.
Qed.
End RwSteps.

(** The counters are not negative, and a holder shows in them. *)
Lemma rw_bounds s : rw_inv s -> 0 <= rdnum s /\ 0 <= wrlock_ s /\ 0 <= wrwait s /\ 0 <= rdwait s.
Proof.
  intros I. rewrite (i_rdnum _ I), (i_wrlock _ I), (i_wrwait _ I), (i_rdwait _ I). lia.
Qed.

Lemma futex_zero s k : rw_inv s -> futex s k = 0 ->
  wrlock_ s = 0 /\ match k with Rd => wrwait s = 0 | Wr => rdnum s = 0 end.
Proof.
  intros I Hf. pose proof (rw_bounds s I). destruct k; simpl in Hf; unfold rfutex, wfutex in Hf;
    rewrite ?(i_wrlock2 _ I) in Hf; lia.
Qed.

(** A step that changes only the place and maybe the queues. *)
Lemma place_move s t p s' p' : rw_inv s -> pcs s !! t = Some p ->
  pcs s' = <[t := p']> (pcs s) ->
  rdwait s' = rdwait s -> wrwait s' = wrwait s -> wrlock_ s' = wrlock_ s -> rdnum s' = rdnum s ->
  wrlock2 s' = wrlock2 s ->
  (forall k, waits k p' = waits k p) -> (forall k, holds k p' = holds k p) ->
  (forall k v, p' = Prep k v \/ p' = Cmp k v -> v <> 0) ->
  (forall k, NoDup (waitq s' k)) ->
  (forall k u, u ∈ waitq s' k -> u = t /\ queued k p' = true \/ u <> t /\ u ∈ waitq s k) ->
  (rdnum s = 0 -> wrlock_ s = 0 -> sleeper s' Wr ->
     for_writers s' t p' \/ exists u q, u <> t /\ pcs s !! u = Some q /\ for_writers s' u q) ->
  (sleeper s' Rd -> wrlock_ s <> 0 \/ wrwait s <> 0 \/ for_readers p' \/
     exists u q, u <> t /\ pcs s !! u = Some q /\ for_readers q) ->
  rw_move s t p s' p'.
Proof.
  intros I Hp Ep E1 E2 E3 E4 E5 Hw Hh Hv Hn Hq HW HR.
  split; rewrite ?E1, ?E2, ?E3, ?E4, ?E5, ?Hw, ?Hh; try done; try lia.
  - apply (i_wrlock2 _ I).
  - apply (i_excl _ I).
Qed.

(** The entries of [wrlock] and [rdlock]: a new call, or back from a wait. *)
Section Entry.
Context (s : rwlock_t) (I : rw_inv s) (t : Z) (p : rpc) (Hp : pcs s !! t = Some p).
Context (k : kind) (s1 : rwlock_t).
Context (Hs1 : p = Idle /\ s1 = s \/ p = Back k /\ s1 = add_wait s k (-1)).

Lemma entry_place : sleepy p = false /\ (forall k', queued k' p = false) /\
  (forall k', holds k' p = false) /\ ~ for_readers p /\
  (forall k', waits k' p = true -> k' = k) /\ (k = Rd -> ~ for_writers s t p).
Proof using Type*.
  destruct Hs1 as [[-> _]|[-> _]]; simpl; split_and!; try done; try (by intros [?|[?|[?|?]]]).
  - by intros _ [?|[?|[? ?]]].
  - intros k' Hk. by apply bool_decide_eq_true in Hk.
  - by intros -> [?|[?|[Hw ?]]].
Qed.

Lemma entry_state : pcs s1 = pcs s /\ waitq s1 = waitq s /\ rdnum s1 = rdnum s /\
  wrlock_ s1 = wrlock_ s /\ wrlock2 s1 = wrlock_ s /\
  wrwait s1 = wrwait s - Z.b2z (waits Wr p) /\ rdwait s1 = rdwait s - Z.b2z (waits Rd p).
Proof using Type*.
  pose proof (i_wrlock2 _ I) as H2.
  destruct Hs1 as [[-> ->]|[-> ->]]; [simpl; split_and!; (done || lia)|].
  pose proof (count_down s I t _ Hp (waits k)) as Hd.
  destruct k; simpl; split_and!; try done; try lia;
    apply Hd; done || apply (i_rdwait _ I) || apply (i_wrwait _ I).
Qed.

(** One more waits: the counter does not wrap. *)
Lemma entry_wait : u16 (wrwait s1 + 1) = wrwait s1 + 1 /\ u16 (rdwait s1 + 1) = rdwait s1 + 1.
Proof using Type*.
  destruct entry_state as (_ & _ & _ & _ & _ & -> & ->).
  pose proof (count_le (waits Wr) (pcs s)). pose proof (count_le (waits Rd) (pcs s)).
  pose proof (i_size _ I). rewrite (i_wrwait _ I), (i_rdwait _ I). split.
  - destruct (waits Wr p) eqn:E; [|rewrite Z.sub_0_r; by eapply (count_up s I t p Hp _ (Abort Wr))].
    apply wrap_small. pose proof (count_pos _ _ _ _ Hp E). simpl. lia.
  - destruct (waits Rd p) eqn:E; [|rewrite Z.sub_0_r; by eapply (count_up s I t p Hp _ (Abort Rd))].
    apply wrap_small. pose proof (count_pos _ _ _ _ Hp E). simpl. lia.
Qed.

Lemma entry_queue p' k' u : u ∈ waitq s k' -> u = t /\ queued k' p' = true \/ u <> t /\ u ∈ waitq s k'.
Proof using Type*.
  destruct entry_place as (_ & Hq & _). apply (rw_queue_old s I t p Hp). by rewrite Hq.
Qed.

Lemma wrlock_move : k = Wr -> exists p', rw_move s t p (wrlock s1 t) p'.
Proof using Type*.
  intros Ek. destruct entry_place as (_ & _ & Hh & _ & Hk & _).
  destruct entry_state as (Ep & Eq & En & El & El2 & Eww & Erw). destruct entry_wait as [Hwrap _].
  pose proof (rw_bounds s I) as Hb. pose proof (i_excl _ I) as Hx.
  assert (Hge : 0 <= wrwait s - Z.b2z (waits Wr p)).
  { rewrite (i_wrwait _ I). destruct (waits Wr p) eqn:E; [|simpl; lia].
    pose proof (count_pos _ _ _ _ Hp E). simpl. lia. }
  assert (HkR : waits Rd p = false) by (destruct (waits Rd p) eqn:E; [by apply Hk in E; congruence|done]).
  unfold wrlock. rewrite En, El. destruct (Z.eqb_spec (rdnum s) 0) as [E0|E0], (Z.eqb_spec (wrlock_ s) 0) as [E1|E1];
    cbn [negb orb].
  1: exists (Held Wr). 2-4: exists (Prep Wr (wfutex s1)).
  all: split; simpl; rewrite ?Ep, ?Eq, ?En, ?El, ?El2, ?Hwrap, ?Eww, ?Erw, ?Hh, ?HkR, ?E0, ?E1; simpl;
    try done; try lia;
    try (intros k' u; apply (entry_queue (Held Wr))); try (intros k' u; apply (entry_queue (Prep Wr (wfutex s1))));
    try apply (i_nodup _ I).
  all: try (intros k' v [[= <- <-]|[=]]; unfold wfutex; rewrite En, El2; lia).
  all: intros; right; left; lia.
Qed.

Lemma rdlock_move : k = Rd -> exists p', rw_move s t p (rdlock s1 t) p'.
Proof using Type*.
  intros Ek. destruct entry_place as (Hs & _ & Hh & Hfr & Hk & Hfw). specialize (Hfw Ek).
  destruct entry_state as (Ep & Eq & En & El & El2 & Eww & Erw). destruct entry_wait as [_ Hwrap].
  pose proof (rw_bounds s I) as Hb. pose proof (i_excl _ I) as Hx.
  assert (HkW : waits Wr p = false) by (destruct (waits Wr p) eqn:E; [by apply Hk in E; congruence|done]).
  rewrite HkW, Z.sub_0_r in Eww.
  assert (Hup : u16 (rdnum s + 1) = rdnum s + 1)
    by (eapply (count_up s I t p Hp (holds Rd) (Held Rd)); [done|done|apply (i_rdnum _ I)]).
  unfold rdlock. rewrite El, Eww. destruct (negb (wrlock_ s =? 0) || negb (wrwait s =? 0)) eqn:Et.
  - exists (Prep Rd (rfutex s1)). split; simpl; rewrite ?Ep, ?Eq, ?En, ?El, ?El2, ?Hwrap, ?Eww, ?Erw, ?Hh, ?HkW; simpl;
      try done; try lia; try apply (i_nodup _ I); try (intros k' u; apply (entry_queue (Prep Rd 0))).
    + intros k' v [[= <- <-]|[=]]. unfold rfutex. rewrite El, Eww.
      apply orb_true_iff in Et as [Et|Et]; bool_props; lia.
    + intros H1 H2 Hsl. right. eapply (writers_old s I t p Hp _ (Prep Rd (rfutex s1))); eauto; simpl; rewrite ?Ep, ?Eq; done.
  - apply orb_false_iff in Et as [Et1 Et2]. bool_props. rewrite En, Hup.
    exists (Held Rd). split; simpl; rewrite ?Ep, ?Eq, ?En, ?El, ?El2, ?Eww, ?Erw, ?Hh, ?HkW; simpl;
      try done; try lia; try apply (i_nodup _ I); try (intros k' u; apply (entry_queue (Held Rd))).
    + intros k' v [[=]|[=]].
    + intros Hsl. destruct (readers_old s I t p Hp (goto (set_rdnum s1 (rdnum s + 1)) t (Held Rd)) (Held Rd)) as [?|[?|?]];
        auto; simpl; rewrite ?Ep, ?Eq; done.
Qed.
End Entry.

(** [rwunlock] by a holder: the assertion holds. *)
Lemma unlock_move s t k : rw_inv s -> pcs s !! t = Some (Held k) ->
  exists s' p', rwunlock s t = Done s' /\ rw_move s t (Held k) s' p'.
Proof.
  intros I Hp. pose proof (rw_bounds s I) as Hb. pose proof (i_excl _ I) as Hx.
  assert (HR : k = Rd -> 1 <= rdnum s).
  { intros ->. pose proof (count_pos (holds Rd) _ t _ Hp eq_refl). rewrite (i_rdnum _ I). lia. }
  assert (HW : k = Wr -> 1 <= wrlock_ s).
  { intros ->. pose proof (count_pos (holds Wr) _ t _ Hp eq_refl). rewrite (i_wrlock _ I). lia. }
  assert (Hq : forall p' k' u, u ∈ waitq s k' -> u = t /\ queued k' p' = true \/ u <> t /\ u ∈ waitq s k').
  { intros p' k' u. by apply (rw_queue_old s I t _ Hp). }
  unfold rwunlock. destruct (Z.eqb_spec (rdnum s) 0) as [E0|E0]; cbn [negb].
  - destruct k; [specialize (HR eq_refl); lia|]. specialize (HW eq_refl).
    destruct (Z.eqb_spec (wrlock_ s) 0); [lia|]. cbn [negb]. eexists _, U1. split; [done|].
    split; simpl; try done; try lia; try apply (i_nodup _ I); try apply (Hq U1).
    + by intros k v [?|?].
    + intros. left. by left.
    + intros. right. right. left. by left.
  - destruct k; [|specialize (HW eq_refl); lia].
    rewrite (count_down s I t _ Hp (holds Rd) (rdnum s) eq_refl (i_rdnum _ I)).
    destruct (Z.eqb_spec (rdnum s - 1) 0) as [E1|E1]; cbn [negb].
    + eexists _, U1. split; [done|].
      split; simpl; try done; try lia; try apply (i_nodup _ I); try apply (i_wrlock2 _ I); try apply (Hq U1).
      * by intros k v [?|?].
      * intros. left. by left.
      * intros. right. right. left. by left.
    + eexists _, Idle. split; [done|].
      split; simpl; try done; try lia; try apply (i_nodup _ I); try apply (i_wrlock2 _ I); try apply (Hq Idle).
      * by intros k v [?|?].
      * intros Hsl. destruct (readers_old s I t _ Hp (goto (set_rdnum s (rdnum s - 1)) t Idle) Idle) as [?|[?|?]];
          auto; try done. by intros [?|[?|[?|?]]].
Qed.

(** Two places of the same wait. *)
Lemma waits_same k p p' : waits k p = true -> waits k p' = true ->
  (forall k', waits k' p' = waits k' p) /\ (forall k', holds k' p' = holds k' p).
Proof.
  intros H H'. split; intros k'; destruct p, p'; simpl in *; try done;
    repeat match goal with H : is_kind _ _ = true |- _ => apply bool_decide_eq_true in H; subst end; done.
Qed.

Lemma waits_queued k p k' : waits k p = true -> k' <> k -> queued k' p = false.
Proof.
  intros Hw Hne. destruct p; simpl in *; try done; apply bool_decide_eq_true in Hw; subst;
    by apply bool_decide_eq_false.
Qed.

Lemma waits_not_for k p s t : waits k p = true -> ~ for_readers p /\ (k = Rd -> ~ for_writers s t p).
Proof.
  intros Hw. split; [intros [->|[->|[->| ->]]]; done|]. intros -> [->|[->|[Hx _]]]; try done.
  destruct p; simpl in *; try done; by apply bool_decide_eq_true in Hw, Hx; subst.
Qed.

(** The steps of [kern_wait].  A writer that runs on is on its way; a thread
    falls asleep only while the lock is not free for it. *)
Lemma wait_step_move s t p k s' p' : rw_inv s -> pcs s !! t = Some p ->
  waits k p = true -> waits k p' = true ->
  s' = goto s t p' \/ (exists l, s' = goto (set_queue s k l) t p' /\ NoDup l /\
    forall u, u ∈ l -> u = t /\ queued k p' = true \/ u <> t /\ u ∈ waitq s k) ->
  (forall v, p' = Prep k v \/ p' = Cmp k v -> v <> 0) ->
  (t ∈ waitq s k -> s' = goto s t p' -> queued k p' = true) ->
  sleepy p' = false \/ s' = goto s t p' /\ (futex s k <> 0 \/ sleepy p = true /\ t ∈ waitq s k) ->
  rw_move s t p s' p'.
Proof.
  intros I Hp Hw Hw' Hs' Hv Hkeep Hsl.
  destruct (waits_same k p p' Hw Hw') as [Hww Hhh].
  pose proof (fun k' => waits_queued k p k' Hw) as Hqo.
  destruct (waits_not_for k p s t Hw) as [Hfr Hfw].
  assert (Hq : forall k' u, u ∈ waitq s' k' -> u = t /\ queued k' p' = true \/ u <> t /\ u ∈ waitq s k').
  { intros k' u. destruct Hs' as [->|(l & -> & _ & Hl)]; simpl.
    - intros Hu. destruct (decide (u = t)) as [->|]; [left|by right]. split; [done|].
      destruct (decide (k' = k)) as [->|Hne]; [by apply Hkeep|].
      destruct (i_queue _ I k' t Hu) as (q & Hq & Hqq). simplify_eq. by rewrite Hqo in Hqq.
    - case_decide as Ek; [subst; apply Hl|]. intros Hu. apply (rw_queue_old s I t p Hp); [|done].
      by rewrite Hqo. }
  assert (Hsub : forall k' u, u ∈ waitq s' k' -> u <> t -> u ∈ waitq s k').
  { intros k' u Hu Hne. destruct (Hq k' u Hu) as [[? _]|[_ ?]]; done. }
  assert (Ep : pcs s' = <[t := p']> (pcs s)) by (by destruct Hs' as [->|(l & -> & _)]).
  assert (Hslp : forall k', futex s k = 0 \/ k' <> k -> sleepy p' = true -> t ∈ waitq s' k' ->
    sleepy p = true /\ t ∈ waitq s k').
  { intros k' Hz Hs Hin. destruct Hsl as [E|[-> [Hf|[Hsp Hin']]]]; [congruence| |].
    - destruct Hz as [|Hne]; [done|]. destruct (i_queue _ I k' t Hin) as (q & Hqt & Hqq). simplify_eq.
      by rewrite Hqo in Hqq.
    - done. }
  apply place_move; try done; try (by destruct Hs' as [->|(l & -> & _)]).
  - intros k' v Hpv. apply Hv. destruct Hpv as [->| ->]; simpl in Hw'; apply bool_decide_eq_true in Hw' as <-; auto.
  - intros k'. destruct Hs' as [->|(l & -> & Hn & _)]; simpl; [apply (i_nodup _ I)|].
    case_decide; [done|apply (i_nodup _ I)].
  - intros H1 H2 Hsleep. destruct k.
    + right. apply (writers_old s I t p Hp s' p'); auto.
    + destruct (sleepy p') eqn:Es; [|left; right; right; split; [done|intros [? _]; congruence]].
      destruct Hsl as [?|[-> [Hf|[Hsp Hin]]]]; [done| |].
      * exfalso. apply Hf. simpl. unfold wfutex. rewrite (i_wrlock2 _ I). lia.
      * right. apply (writers_old s I t p Hp _ p'); auto.
        intros [->|[->|[_ Hx]]]; try done. by apply Hx.
  - intros Hsleep. destruct (decide (k = Rd /\ futex s k <> 0)) as [[-> Hf]|Hn].
    + assert (wrlock_ s <> 0 \/ wrwait s <> 0) as [?|?]; [|by left|by right; left].
      simpl in Hf. unfold rfutex in Hf. lia.
    + destruct (readers_old s I t p Hp s' p') as [?|[?|?]]; auto.
      apply Hslp. destruct k; [left|by right]. destruct (decide (futex s Rd = 0)); [done|]. tauto.
Qed.

(** The steps of [rwunlock] behind [spin_unlock]. *)
Section Wake.
Context (s : rwlock_t) (I : rw_inv s) (t : Z) (p : rpc) (Hp : pcs s !! t = Some p).
Context (Hcase : p = U1 \/ p = U2 \/ (exists n, p = U3 n) \/ p = U4).

Lemma wake_queue k' p' u : u ∈ waitq s k' -> u = t /\ queued k' p' = true \/ u <> t /\ u ∈ waitq s k'.
Proof using Type*.
  apply (rw_queue_old s I t p Hp). by destruct Hcase as [->|[->|[[n ->]| ->]]].
Qed.

(** A sleeper is counted. *)
Lemma wake_counted k : sleeper s k -> 0 < match k with Rd => rdwait s | Wr => wrwait s end.
Proof using I.
  intros (u & q & Hu & Hq & _). destruct (i_queue _ I k u Hu) as (q' & Hq' & Hqq). simplify_eq.
  assert (Hw : waits k q = true) by (by destruct q).
  pose proof (count_pos (waits k) _ u q Hq Hw). destruct k; rewrite ?(i_rdwait _ I), ?(i_wrwait _ I); lia.
Qed.

Lemma wake_same p' k : sleepy p' = false -> sleeper (goto s t p') k -> sleeper s k.
Proof using I Hp.
  intros Hsl. apply (sleeper_old s I t p Hp _ p'); [done| |]; simpl; [auto|congruence].
Qed.

End Wake.

Lemma u1_move s t : rw_inv s -> pcs s !! t = Some U1 -> rw_move s t U1 (goto s t (if negb (wrwait s =? 0) then U2 else U3 0))
  (if negb (wrwait s =? 0) then U2 else U3 0).
Proof.
  intros I Hp. apply place_move; try done; try apply (i_nodup _ I); simpl;
    try (intros k'; by case_match); try (intros k' v; case_match; by intros [?|?]);
    try (intros k' u; apply (wake_queue s I t _ Hp); eauto).
  - intros _ _ Hsl. left. destruct (Z.eqb_spec (wrwait s) 0) as [E|E]; simpl; [|by right; left].
    apply (wake_same s I t _ Hp) in Hsl; [|by case_match]. apply (wake_counted s I) in Hsl. lia.
  - intros _. right. right. left. case_match; [by right; left|by right; right; left].
Qed.

(** The writer that is woken is on its way; until it has the lock it is
    counted in [wrwait]. *)
Lemma u2_move s t num : rw_inv s -> pcs s !! t = Some U2 -> num = match waitq s Wr with [] => 0 | _ => 1 end ->
  rw_move s t U2 (goto (set_queue s Wr (tail (waitq s Wr))) t (U3 num)) (U3 num).
Proof.
  intros I Hp ->.
  assert (Hhead : forall h l, waitq s Wr = h :: l -> h ∉ l /\ exists q, pcs s !! h = Some q /\ queued Wr q = true).
  { intros h l Eq. split; [|apply (i_queue _ I Wr h); rewrite Eq; constructor].
    pose proof (i_nodup _ I Wr) as Hn. rewrite Eq in Hn. by apply NoDup_cons in Hn as [Hn _]. }
  apply place_move; try done; simpl; try (intros k' v; by intros [?|?]).
  - intros k'. case_decide; [|apply (i_nodup _ I)]. pose proof (i_nodup _ I Wr) as Hn.
    destruct (waitq s Wr); [done|]. by apply NoDup_cons in Hn as [_ Hn].
  - intros k' u Hu. apply (wake_queue s I t _ Hp ltac:(eauto) k' Idle). case_decide; [|done]. subst.
    destruct (waitq s Wr); [done|by constructor].
  - intros _ _ Hsl. right. destruct (waitq s Wr) as [|h l] eqn:Eq.
    { destruct Hsl as (u & q & Hu & _). by apply elem_of_nil in Hu. }
    destruct (Hhead h l eq_refl) as (Hn & q & Hq & Hqq).
    exists h, q. split; [intros ->; simplify_eq|]. split; [done|]. right. right. split; [by destruct q|].
    simpl. by intros [_ ?].
  - intros _. destruct (waitq s Wr) as [|h l] eqn:Eq; [right; right; left; by right; right; left|].
    destruct (Hhead h l eq_refl) as (_ & q & Hq & Hqq).
    assert (Hw : waits Wr q = true) by (by destruct q).
    pose proof (count_pos (waits Wr) _ h q Hq Hw). right. left. rewrite (i_wrwait _ I). lia.
Qed.

Lemma u3_move s t n : rw_inv s -> pcs s !! t = Some (U3 n) ->
  rw_move s t (U3 n) (goto s t (if (n =? 0) && negb (rdwait s =? 0) then U4 else Idle))
    (if (n =? 0) && negb (rdwait s =? 0) then U4 else Idle).
Proof.
  intros I Hp. apply place_move; try done; try apply (i_nodup _ I); simpl;
    try (intros k'; by case_match); try (intros k' v; case_match; by intros [?|?]);
    try (intros k' u; apply (wake_queue s I t _ Hp); eauto).
  - intros H1 H2 Hsl. right. eapply (writers_old s I t _ Hp); [reflexivity| |done|done| | |exact Hsl]; simpl;
      [by intros [?|[?|[? ?]]]|auto|by case_match].
  - intros Hsl. destruct (Z.eqb_spec n 0) as [->|Hn]; simpl.
    + destruct (Z.eqb_spec (rdwait s) 0) as [E|E]; simpl; [|right; right; left; by right; right; right].
      apply (wake_same s I t _ Hp) in Hsl; [|done]. apply (wake_counted s I) in Hsl. lia.
    + destruct (readers_old s I t _ Hp (goto s t Idle) Idle) as [?|[?|?]]; auto; try done.
      intros [?|[?|[[=]|?]]]; done.
Qed.

Lemma u4_move s t : rw_inv s -> pcs s !! t = Some U4 -> rw_move s t U4 (goto (set_queue s Rd []) t Idle) Idle.
Proof.
  intros I Hp. apply place_move; try done; simpl; try (intros k' v; by intros [?|?]).
  - intros k'. case_decide; [constructor|apply (i_nodup _ I)].
  - intros k' u Hu. apply (wake_queue s I t _ Hp ltac:(eauto) k' Idle). case_decide; [by apply elem_of_nil in Hu|done].
  - intros H1 H2 Hsl. right. eapply (writers_old s I t _ Hp); [reflexivity| |done|done| | |exact Hsl]; simpl; try done.
    by intros [?|[?|[? ?]]].
  - intros (u & q & Hu & _). by apply elem_of_nil in Hu.
Qed.

(** Every step keeps the invariant, and none panics. *)
Lemma rw_step_inv s t a : rw_inv s -> match rw_step s t a with Done s' => rw_inv s' | Panic => False | _ => True end.
Proof.
  intros I. unfold rw_step. destruct (pcs s !! t) as [p|] eqn:Hp; [|done]. simpl.
  assert (Hin : forall s' p', rw_move s t p s' p' -> rw_inv s') by (intros s' p'; by apply rw_move_inv).
  assert (Hlk : forall k s1, p = Idle /\ s1 = s \/ p = Back k /\ s1 = add_wait s k (-1) -> rw_inv (lock s1 t k)).
  { intros k s1 Hs1. destruct k; simpl.
    - destruct (rdlock_move s I t p Hp Rd s1 Hs1 eq_refl) as [p' M]. by eapply Hin.
    - destruct (wrlock_move s I t p Hp Wr s1 Hs1 eq_refl) as [p' M]. by eapply Hin. }
  assert (Hkk : forall k, is_kind k k = true) by (intros k; by apply bool_decide_eq_true).
  assert (Hkeep : forall k, t ∈ waitq s k -> queued k p = true).
  { intros k Hu. destruct (i_queue _ I k t Hu) as (q & Hq & Hqq). congruence. }
  destruct a as [k| |], p as [|k1 v|k1 v|k1|k1|k1|k1|k1| | |n|]; try done.
  - apply Hlk. auto.
  - destruct (unlock_move s t k1 I Hp) as (s' & p' & -> & M). by eapply Hin.
  - eapply Hin, (wait_step_move s t _ k1 _ (Cmp k1 v) I Hp); simpl; auto; try done.
    + right. eexists. split; [done|].
      assert (Hnin : t ∉ waitq s k1) by (intros Hu; by apply Hkeep in Hu). split.
      * apply NoDup_app. split; [apply (i_nodup _ I)|]. split; [|apply NoDup_singleton].
        by intros u Hu ->%list_elem_of_singleton.
      * intros u [Hu| ->%list_elem_of_singleton]%elem_of_app; [right; split; [by intros ->|done]|left].
        split; [done|apply Hkk].
    + intros v' [[=]|[= <-]]. by apply (i_val _ I t k1); left.
  - destruct (Z.eqb_spec (futex s k1) v) as [E|E].
    + eapply Hin, (wait_step_move s t _ k1 _ (Sleep k1) I Hp); simpl; auto; try (by intros v' [?|?]).
      right. split; [done|]. left. rewrite E. by apply (i_val _ I t k1); right.
    + eapply Hin, (wait_step_move s t _ k1 _ (Abort k1) I Hp); simpl; auto; by intros v' [?|?].
  - eapply Hin, (wait_step_move s t _ k1 _ (Back k1) I Hp); simpl; auto; try (by intros v' [?|?]).
    + right. eexists. split; [done|]. split; [apply NoDup_list_rem, (i_nodup _ I)|].
      intros u [Hne Hu]%elem_of_list_rem. by right.
    + intros Hu E. exfalso. apply (f_equal (fun s => waitq s k1)) in E. simpl in E.
      rewrite decide_True in E by done. rewrite <- E in Hu. by apply elem_of_list_rem in Hu as [? _].
  - case_bool_decide as Hu.
    + eapply Hin, (wait_step_move s t _ k1 _ (Asleep k1) I Hp); simpl; auto; by intros v' [?|?].
    + eapply Hin, (wait_step_move s t _ k1 _ (Back k1) I Hp); simpl; auto; try done; by intros v' [?|?].
  - case_bool_decide as Hu; [done|].
    eapply Hin, (wait_step_move s t _ k1 _ (Back k1) I Hp); simpl; auto; try done; by intros v' [?|?].
  - apply Hlk. auto.
  - by eapply Hin, u1_move.
  - by eapply Hin, u2_move.
  - by eapply Hin, u3_move.
  - by eapply Hin, u4_move.
Qed.

Lemma rw_init_inv (ts : gset Z) : Z.of_nat (size ts) < 2 ^ 16 -> rw_inv (rwlock_init ts).
Proof.
  intros Hsz. assert (Hc : forall P : rpc -> bool, P Idle = false -> count P (start ts Idle) = O).
  { intros P HP. apply count_none. by intros t p ->%start_lookup. }
  split; simpl; rewrite ?Hc by done; try done; try (by left).
  - unfold start. rewrite <- (size_dom (D := gset Z)), dom_gset_to_gmap. done.
  - intros t k v [E|E]; by apply start_lookup in E.
  - intros k t E%elem_of_nil. done.
  - intros _ _ (t & p & E%elem_of_nil & _). done.
  - intros (t & p & E%elem_of_nil & _). done.
Qed.

Lemma rw_reach_inv ts s : Z.of_nat (size ts) < 2 ^ 16 -> rtc rw_next (rwlock_init ts) s -> rw_inv s.
Proof.
  intros Hsz Hr. eapply rtc_invariant; [exact Hr|by apply rw_init_inv|].
  intros a b I (t & act & Hs). pose proof (rw_step_inv a t act I) as Hi. by rewrite Hs in Hi.
Qed.

(** C21: a read-write lock excludes: however the threads interleave, a writer
    that has the lock is the only one that has it, the counters are the
    numbers of threads that hold the lock and wait for it, and the assertion of
    [rwunlock] cannot fail. *)
Theorem rwlock_exclusive ts s : Z.of_nat (size ts) < 2 ^ 16 -> rtc rw_next (rwlock_init ts) s ->
  (forall t u k, pcs s !! t = Some (Held Wr) -> pcs s !! u = Some (Held k) -> t = u) /\
  rdnum s = Z.of_nat (count (holds Rd) (pcs s)) /\ wrlock_ s = Z.of_nat (count (holds Wr) (pcs s)) /\
  rdwait s = Z.of_nat (count (waits Rd) (pcs s)) /\ wrwait s = Z.of_nat (count (waits Wr) (pcs s)) /\
  forall t a, rw_step s t a <> Panic.
Proof.
  intros Hsz Hr. pose proof (rw_reach_inv ts s Hsz Hr) as I.
  split; [|split; [apply (i_rdnum _ I)|split; [apply (i_wrlock _ I)|split; [apply (i_rdwait _ I)|split; [apply (i_wrwait _ I)|]]]]].
  - intros t u k Ht Hu. destruct (decide (t = u)) as [|Hne]; [done|exfalso].
    pose proof (i_excl _ I) as Hx. rewrite (i_wrlock _ I), (i_rdnum _ I) in Hx.
    pose proof (count_pos (holds Wr) _ t _ Ht eq_refl). destruct k.
    + pose proof (count_pos (holds Rd) _ u _ Hu eq_refl). lia.
    + pose proof (count_two (holds Wr) _ t u _ _ Ht Hu Hne eq_refl eq_refl). lia.
  - intros t a Hp. pose proof (rw_step_inv s t a I) as Hi. by rewrite Hp in Hi.
Qed.

(** A place from which the thread goes on by itself. *)
Lemma rw_enabled s u p : rw_inv s -> pcs s !! u = Some p -> for_writers s u p \/ for_readers p ->
  exists s', rw_step s u Go = Done s'.
Proof.
  intros I Hp Hf. unfold rw_step. rewrite Hp. simpl.
  destruct p; try (by eauto); try (by destruct Hf as [[?|[?|[? _]]]|[?|[?|[?|?]]]]).
  case_bool_decide as Hu; [|eauto]. exfalso.
  destruct Hf as [[?|[?|[Hw Hn]]]|[?|[?|[?|?]]]]; try done. apply Hn. split; [done|].
  simpl in Hw. by apply bool_decide_eq_true in Hw as <-.
Qed.

(** C22: no wakeup is lost: when a reader or a writer sleeps for the lock,
    some thread has the lock, or some thread runs in the code of the lock and
    can go on.  The threads never all sleep for a lock nobody has, although
    [rwunlock] looks at the counters and wakes up without the spin lock. *)
Theorem rwlock_no_lost_wakeup ts s t k : Z.of_nat (size ts) < 2 ^ 16 ->
  rtc rw_next (rwlock_init ts) s -> pcs s !! t = Some (Asleep k) -> rw_step s t Go = Fault ->
  exists u, (exists k', pcs s !! u = Some (Held k')) \/ exists s', rw_step s u Go = Done s'.
Proof.
  intros Hsz Hr Ht Hf. pose proof (rw_reach_inv ts s Hsz Hr) as I. pose proof (rw_bounds s I) as Hb.
  assert (Hsl : forall u k, pcs s !! u = Some (Asleep k) -> u ∈ waitq s k -> sleeper s k)
    by (intros u k' Hu Hin; by exists u, (Asleep k')).
  assert (Hin : t ∈ waitq s k) by (unfold rw_step in Hf; rewrite Ht in Hf; simpl in Hf; by case_bool_decide).
  assert (Hheld : rdnum s <> 0 \/ wrlock_ s <> 0 -> exists u, exists k', pcs s !! u = Some (Held k')).
  { rewrite (i_rdnum _ I), (i_wrlock _ I). intros [H|H].
    - destruct (count_ex (holds Rd) (pcs s)) as (u & p & Hp & Hh); [lia|]. destruct p; try done. eauto.
    - destruct (count_ex (holds Wr) (pcs s)) as (u & p & Hp & Hh); [lia|]. destruct p; try done. eauto. }
  assert (Hwr : sleeper s Wr -> exists u, (exists k', pcs s !! u = Some (Held k')) \/ exists s', rw_step s u Go = Done s').
  { intros Hs. destruct (decide (rdnum s = 0 /\ wrlock_ s = 0)) as [[H1 H2]|Hn].
    - destruct (i_writers _ I H1 H2 Hs) as (u & p & Hp & Hfw). exists u. right. by eapply rw_enabled; eauto.
    - destruct Hheld as (u & Hu); [lia|eauto]. }
  destruct k; [|by apply Hwr, (Hsl t)].
  destruct (i_readers _ I (Hsl t Rd Ht Hin)) as [H|[H|(u & p & Hp & Hfr)]].
  - destruct Hheld as (u & Hu); [by right|eauto].
  - rewrite (i_wrwait _ I) in H. destruct (count_ex (waits Wr) (pcs s)) as (u & p & Hp & Hw); [lia|].
    destruct (decide (sleepy p = true /\ u ∈ waitq s Wr)) as [[Hs Hu]|Hn].
    + apply Hwr. by exists u, p.
    + exists u. right. eapply rw_enabled; eauto. left. right. by right.
  - exists u. right. eapply rw_enabled; eauto.
Qed.

(** ** Concrete runs *)

Fixpoint rw_run (s : rwlock_t) (l : list (Z * ract)) : res rwlock_t :=
  match l with
  | [] => Done s
  | (t, a) :: l => let* s := rw_step s t a in rw_run s l
  end.

Lemma rw_run_reach l : forall s s', rw_run s l = Done s' -> rtc rw_next s s'.
Proof.
  induction l as [|[t a] l IH]; intros s s' H; simpl in H; [injection H as ->; constructor|].
  apply rbind_Done in H as (s1 & H1 & H). econstructor; [by exists t, a|]. by apply IH.
Qed.

(** Reader 1 has the lock, writer 2 sleeps, and reader 3 sleeps behind it. *)
Definition rw_demo_steps : list (Z * ract) :=
  [(1, Lock Rd); (2, Lock Wr); (2, Go); (2, Go); (2, Go); (3, Lock Rd); (3, Go); (3, Go); (3, Go)].
Definition rw_demo : rwlock_t :=
  match rw_run (rwlock_init {[1; 2; 3]}) rw_demo_steps with Done s => s | _ => rwlock_init ∅ end.

Lemma rwlock_exclusive_witness : rdnum rw_demo = 1 /\ wrwait rw_demo = 1 /\ rdwait rw_demo = 1 /\
  forall a, rw_step rw_demo 1 a <> Panic.
Proof.
  destruct (rwlock_exclusive {[1; 2; 3]} rw_demo) as (_ & H1 & _ & H3 & H4 & Hp).
  - vm_compute. reflexivity.
  - apply (rw_run_reach rw_demo_steps). vm_compute. reflexivity.
  - rewrite H1, H3, H4. split; [vm_compute; reflexivity|]. split; [vm_compute; reflexivity|].
    split; [vm_compute; reflexivity|]. exact (Hp 1).
Defined.

Lemma rwlock_no_lost_wakeup_witness : exists u,
  (exists k', pcs rw_demo !! u = Some (Held k')) \/ exists s', rw_step rw_demo u Go = Done s'.
Proof.
  apply (rwlock_no_lost_wakeup {[1; 2; 3]} rw_demo 3 Rd).
  - vm_compute. reflexivity.
  - apply (rw_run_reach rw_demo_steps). vm_compute. reflexivity.
  - vm_compute. reflexivity.
  - vm_compute. reflexivity.
Defined.

(** The reader unlocks, the writer gets the lock and unlocks, the reader that
    came behind it gets it. *)
Example rwlock_handover :
  (let* s := rw_run rw_demo
     [(1, Unlock); (1, Go); (1, Go); (1, Go); (2, Go); (2, Go);
      (2, Unlock); (2, Go); (2, Go); (2, Go); (3, Go); (3, Go)] in
   Done (rdnum s, wrlock_ s, rdwait s, wrwait s, pcs s !! 3)) = Done (1, 0, 0, 0, Some (Held Rd)).
Proof. vm_compute. reflexivity. Qed.
