(* ===== verification/Rwspin.v ===== *)
(** * The spinning read-write lock of kern/rwlock.c, and kern/spinlock.c

    [rwlock_spin_t] is a ticket lock on 16-bit counters.  A thread takes the
    next ticket.  A reader waits until the ticket is [read] and moves [read] on,
    which lets the next reader in; a writer waits until it is [write], which
    counts the threads that are done.  [wrunlock_spin] copies the two counters
    and stores both with one write, which is atomic only if no other thread
    changes them in between.  Each access to the lock is one step.

    The tickets wrap around.  [rwspin_exclusive] shows that the lock is right
    as long as there are fewer than 2^16 threads, [rwspin_progress] that the
    threads are served: somebody can always go on.

    A place of a thread keeps its ticket for the proofs also where the code
    has no use for it any more. *)
From stdpp Require Import base gmap list relations.
From Stdlib Require Import ZArith Lia.
From S2P Require Import Prelude Interleave.
Open Scope Z_scope.

Inductive tpc :=
| Idle
| RWait (ticket : Z)           (* rdlock_spin: before a load of l->read *)
| RGot (ticket : Z)            (* before atomic_inc(&l->read) *)
| RHeld
| WWait (ticket : Z)           (* wrlock_spin: before a load of l->write *)
| WHeld (ticket : Z)
| WCopy (ticket w r : Z).      (* wrunlock_spin: behind the copy *)

Record rwlock_spin_t := MkRs {
  write : Z; read : Z; ticket : Z;
  crit : gmap Z Z;              (* depth of the critical section of a thread *)
  pcs : gmap Z tpc;
}.

Definition goto (s : rwlock_spin_t) (t : Z) (p : tpc) : rwlock_spin_t :=
  MkRs (write s) (read s) (ticket s) (crit s) (<[t := p]> (pcs s)).
Definition set_rw (s : rwlock_spin_t) (w r : Z) : rwlock_spin_t := MkRs w r (ticket s) (crit s) (pcs s).
Definition critical (s : rwlock_spin_t) (t d : Z) : rwlock_spin_t :=
  MkRs (write s) (read s) (ticket s) (<[t := default 0 (crit s !! t) + d]> (crit s)) (pcs s).

Definition rwlock_spin_init (ts : gset Z) : rwlock_spin_t := MkRs 0 0 0 (start ts 0) (start ts Idle).

Definition rwlock_spin_ticket (s : rwlock_spin_t) : Z * rwlock_spin_t :=
  (ticket s, MkRs (write s) (read s) (u16 (ticket s + 1)) (crit s) (pcs s)).

(** The first step takes a ticket; then each turn of the loop is one. *)
Definition rdlock_spin (s : rwlock_spin_t) (t : Z) (p : tpc) : res rwlock_spin_t :=
  match p with
  | Idle => let '(k, s) := rwlock_spin_ticket s in Done (goto s t (RWait k))
  | RWait k =>
      let s := critical s t 1 in
      if read s =? k then Done (goto s t (RGot k)) else Done (critical s t (-1))
  | RGot k => Done (goto (set_rw s (write s) (u16 (read s + 1))) t RHeld)
  | _ => Fault
  end.

Definition rdunlock_spin (s : rwlock_spin_t) (t : Z) : res rwlock_spin_t :=
  kassert 0 <? default 0 (crit s !! t) in
  Done (critical (goto (set_rw s (u16 (write s + 1)) (read s)) t Idle) t (-1)).

Definition wrlock_spin (s : rwlock_spin_t) (t : Z) (p : tpc) : res rwlock_spin_t :=
  match p with
  | Idle => let '(k, s) := rwlock_spin_ticket s in Done (goto s t (WWait k))
  | WWait k =>
      let s := critical s t 1 in
      if write s =? k then Done (goto s t (WHeld k)) else Done (critical s t (-1))
  | _ => Fault
  end.

Definition wrunlock_spin (s : rwlock_spin_t) (t : Z) (p : tpc) : res rwlock_spin_t :=
  match p with
  | WHeld k => Done (goto s t (WCopy k (write s) (read s)))
  | WCopy k w r =>
      kassert 0 <? default 0 (crit s !! t) in
      Done (critical (goto (set_rw s (u16 (w + 1)) (u16 (r + 1))) t Idle) t (-1))
  | _ => Fault
  end.

Inductive tact := RdLock | WrLock | Unlock | Go.

Definition rs_step (s : rwlock_spin_t) (t : Z) (a : tact) : res rwlock_spin_t :=
  let* p := deref (pcs s !! t) in
  match a, p with
  | RdLock, Idle => rdlock_spin s t p
  | WrLock, Idle => wrlock_spin s t p
  | Unlock, RHeld => rdunlock_spin s t
  | Unlock, WHeld _ => wrunlock_spin s t p
  | Go, (RWait _ | RGot _) => rdlock_spin s t p
  | Go, WWait _ => wrlock_spin s t p
  | Go, WCopy _ _ _ => wrunlock_spin s t p
  | _, _ => Fault
  end.

Definition rs_next (s s' : rwlock_spin_t) : Prop := exists t a, rs_step s t a = Done s'.

(** ** The invariant *)

Definition tk (p : tpc) : option Z :=
  match p with RWait k | RGot k | WWait k | WHeld k | WCopy k _ _ => Some k | _ => None end.
Definition is_busy (p : tpc) : bool := match p with Idle => false | _ => true end.
Definition is_reader (p : tpc) : bool := match p with RHeld => true | _ => false end.
(** Places with the first ticket of those that wait. *)
Definition is_first (p : tpc) : bool := match p with RGot _ | WHeld _ | WCopy _ _ _ => true | _ => false end.
Definition is_writer (p : tpc) : bool := match p with WHeld _ | WCopy _ _ _ => true | _ => false end.
Definition crit_at (p : tpc) : Z := match p with RGot _ | RHeld | WHeld _ | WCopy _ _ _ => 1 | _ => 0 end.

(** [T], [R] and [W] are the three counters without wrap-around: tickets from
    [R] up to [T] wait, and the ones before are readers that have the lock or
    are done. *)
Record rs_inv (s : rwlock_spin_t) (T R W : Z) : Prop := {
  i_size : Z.of_nat (size (pcs s)) < 2 ^ 16;
  i_ticket : ticket s = u16 T;
  i_read : read s = u16 R;
  i_write : write s = u16 W;
  i_order : 0 <= W <= R /\ R <= T;
  i_busy : T - W = Z.of_nat (count is_busy (pcs s));
  i_readers : R - W = Z.of_nat (count is_reader (pcs s));
  i_tk t p k : pcs s !! t = Some p -> tk p = Some k -> exists n, R <= n < T /\ k = u16 n;
  i_uniq t u p q k : pcs s !! t = Some p -> pcs s !! u = Some q -> tk p = Some k -> tk q = Some k -> t = u;
  i_all n : R <= n < T -> exists t p, pcs s !! t = Some p /\ tk p = Some (u16 n);
  i_first t p : pcs s !! t = Some p -> is_first p = true -> tk p = Some (u16 R);
  i_writer t p : pcs s !! t = Some p -> is_writer p = true -> W = R;
  i_copy t k w r : pcs s !! t = Some (WCopy k w r) -> w = write s /\ r = read s;
  i_crit t p : pcs s !! t = Some p -> crit s !! t = Some (crit_at p);
}.

(** Numbers less than 2^16 apart are equal if their low bits are. *)
Lemma u16_inj a b : u16 a = u16 b -> - 2 ^ 16 < a - b < 2 ^ 16 -> a = b.
Proof.
  unfold u16, wrap. intros H Hd. apply Z.cong_iff_0 in H. apply Z.mod_divide in H as [q Hq]; [|done]. nia.
Qed.

Lemma u16_u16_add a : u16 (u16 a + 1) = u16 (a + 1).
Proof. unfold u16, wrap. by rewrite Zplus_mod_idemp_l. Qed.

Lemma rs_range s T R W : rs_inv s T R W -> 0 <= T - W < 2 ^ 16.
Proof.
  intros I. rewrite (i_busy _ _ _ _ I). pose proof (count_le is_busy (pcs s)). pose proof (i_size _ _ _ _ I). lia.
Qed.

(** The thread with the first ticket. *)
Lemma rs_ticket_first s T R W t p k : rs_inv s T R W -> pcs s !! t = Some p -> tk p = Some k ->
  (k = u16 R -> R < T) /\ (k = u16 W -> W = R /\ R < T).
Proof.
  intros I Hp Hk. pose proof (rs_range _ _ _ _ I). pose proof (i_order _ _ _ _ I).
  destruct (i_tk _ _ _ _ I t p k Hp Hk) as (n & Hn & ->). split; intros E; apply u16_inj in E; lia.
Qed.

(** What a step of thread [t] from [p] to [p'] does to the counters: it keeps
    its ticket, takes one, gives the first one up, or is a reader that ends. *)
Inductive rs_mode (T R W : Z) (p p' : tpc) : Z -> Z -> Z -> Prop :=
| Keep : tk p' = tk p -> is_busy p' = is_busy p -> is_reader p' = is_reader p -> rs_mode T R W p p' T R W
| Take : p = Idle -> tk p' = Some (u16 T) -> is_first p' = false -> rs_mode T R W p p' (T + 1) R W
| Enter : tk p = Some (u16 R) -> p' = RHeld -> rs_mode T R W p p' T (R + 1) W
| Leave : tk p = Some (u16 R) -> W = R -> p' = Idle -> rs_mode T R W p p' T (R + 1) (W + 1)
| End : p = RHeld -> p' = Idle -> rs_mode T R W p p' T R (W + 1).

Section RsMove.
Context (s : rwlock_spin_t) (T R W : Z) (I : rs_inv s T R W).
Context (t : Z) (p : tpc) (Hp : pcs s !! t = Some p).
Context (s' : rwlock_spin_t) (p' : tpc) (T' R' W' : Z) (M : rs_mode T R W p p' T' R' W').
Context (Ep : pcs s' = <[t := p']> (pcs s)).

Lemma mode_counts : T' - W' = Z.of_nat (count is_busy (pcs s')) /\
  R' - W' = Z.of_nat (count is_reader (pcs s')).
Proof using Type*.
  rewrite Ep. pose proof (count_move is_busy (pcs s) t p p' Hp) as H1.
  pose proof (count_move is_reader (pcs s) t p p' Hp) as H2.
  pose proof (i_busy _ _ _ _ I). pose proof (i_readers _ _ _ _ I).
  destruct M as [E1 E2 E3|E1 E2 E3|E1 E2|E1 E2 E3|E1 E2]; subst; simpl in *.
  - rewrite E2, E3 in *. lia.
  - destruct p'; simpl in *; try done; lia.
  - destruct p; simpl in *; try done; lia.
  - destruct p; simpl in *; try done; lia.
  - lia.
Qed.

Lemma mode_order : 0 <= W' <= R' /\ R' <= T'.
Proof using Type*.
  pose proof (i_order _ _ _ _ I). pose proof (i_readers _ _ _ _ I) as Hr.
  destruct M as [E1 E2 E3|E1 E2 E3|E1 E2|E1 E2 E3|E1 E2]; try lia.
  - destruct (rs_ticket_first s T R W t p _ I Hp E1) as [H1 _]. specialize (H1 eq_refl). lia.
  - destruct (rs_ticket_first s T R W t p _ I Hp E1) as [H1 _]. specialize (H1 eq_refl). lia.
  - subst. pose proof (count_pos is_reader _ t _ Hp eq_refl). lia.
Qed.

(** Another thread with the first ticket, or a writer, shows that the step
    kept the counters. *)
Lemma mode_others u q : u <> t -> pcs s !! u = Some q -> is_first q = true ->
  R' = R /\ (is_writer q = true -> W' = W).
Proof using Type*.
  intros Hne Hq Hf. pose proof (i_first _ _ _ _ I u q Hq Hf) as Hk.
  destruct M as [E1 E2 E3|E1 E2 E3|E1 E2|E1 E2 E3|E1 E2]; try done.
  - destruct Hne. by apply (i_uniq _ _ _ _ I u t q p (u16 R)).
  - destruct Hne. by apply (i_uniq _ _ _ _ I u t q p (u16 R)).
  - split; [done|]. intros Hw. pose proof (i_writer _ _ _ _ I u q Hq Hw) as E.
    subst. pose proof (count_pos is_reader _ t _ Hp eq_refl). pose proof (i_readers _ _ _ _ I). lia.
Qed.

Lemma mode_tk u q k : pcs s' !! u = Some q -> tk q = Some k -> exists n, R' <= n < T' /\ k = u16 n.
Proof using Type*.
  rewrite Ep. intros Hq Hk. pose proof mode_order as Ho. pose proof (i_order _ _ _ _ I).
  assert (Hold : forall u q, u <> t -> pcs s !! u = Some q -> tk q = Some k -> exists n, R' <= n < T' /\ k = u16 n).
  { clear u q Hq Hk. intros u q Hne Hq Hk. destruct (i_tk _ _ _ _ I u q k Hq Hk) as (n & Hn & ->). exists n. split; [|done].
    destruct M as [E1 E2 E3|E1 E2 E3|E1 E2|E1 E2 E3|E1 E2]; try lia;
      (destruct (Z.eq_dec n R) as [->|]; [|lia]);
      destruct Hne; by apply (i_uniq _ _ _ _ I u t q p (u16 R)). }
  destruct (decide (u = t)) as [->|Hne]; [|rewrite lookup_insert_ne in Hq by congruence; by eapply Hold].
  rewrite lookup_insert_eq in Hq. injection Hq as <-.
  destruct M as [E1 E2 E3|E1 E2 E3|E1 E2|E1 E2 E3|E1 E2]; subst; try done.
  - apply (i_tk _ _ _ _ I t p k Hp). congruence.
  - exists T. split; [lia|congruence].
Qed.

Lemma mode_uniq u v q r k : pcs s' !! u = Some q -> pcs s' !! v = Some r ->
  tk q = Some k -> tk r = Some k -> u = v.
Proof using Type*.
  rewrite Ep. pose proof (rs_range _ _ _ _ I). pose proof (i_order _ _ _ _ I).
  assert (Hone : forall v r, v <> t -> pcs s !! v = Some r -> tk p' = Some k -> tk r = Some k -> False).
  { clear v r. intros v r Hne Hr Hk' Hk.
    destruct M as [E1 E2 E3|E1 E2 E3|E1 E2|E1 E2 E3|E1 E2]; subst; try done.
    - apply Hne. apply (i_uniq _ _ _ _ I v t r p k); congruence.
    - destruct (i_tk _ _ _ _ I v r k Hr Hk) as (n & Hn & ->). rewrite E2 in Hk'. injection Hk' as E.
      apply u16_inj in E; lia. }
  intros Hq Hr Hkq Hkr. destruct (decide (u = t)) as [->|Hu], (decide (v = t)) as [->|Hv];
    rewrite ?lookup_insert_eq, ?lookup_insert_ne in Hq by congruence;
    rewrite ?lookup_insert_eq, ?lookup_insert_ne in Hr by congruence; simplify_eq.
  - done.
  - by destruct (Hone v r).
  - by destruct (Hone u q).
  - by apply (i_uniq _ _ _ _ I u v q r k).
Qed.

Lemma mode_all n : R' <= n < T' -> exists u q, pcs s' !! u = Some q /\ tk q = Some (u16 n).
Proof using Type*.
  rewrite Ep. intros Hn. pose proof (rs_range _ _ _ _ I). pose proof (i_order _ _ _ _ I).
  assert (Hold : R <= n < T -> tk p' = tk p \/ tk p <> Some (u16 n) ->
    exists u q, <[t := p']> (pcs s) !! u = Some q /\ tk q = Some (u16 n)).
  { intros Hr Hor. destruct (i_all _ _ _ _ I n Hr) as (u & q & Hq & Hk).
    destruct (decide (u = t)) as [->|Hne].
    - exists t, p'. rewrite lookup_insert_eq. split; [done|]. destruct Hor as [->|Hx]; congruence.
    - exists u, q. by rewrite lookup_insert_ne by congruence. }
  destruct M as [E1 E2 E3|E1 E2 E3|E1 E2|E1 E2 E3|E1 E2].
  - apply Hold; [done|by left].
  - destruct (Z.eq_dec n T) as [->|]; [exists t, p'; by rewrite lookup_insert_eq|].
    apply Hold; [lia|right; by subst].
  - apply Hold; [lia|right]. rewrite E1. intros [= E]. apply u16_inj in E; lia.
  - apply Hold; [lia|right]. rewrite E1. intros [= E]. apply u16_inj in E; lia.
  - apply Hold; [done|left; by subst].
Qed.
End RsMove.

(** A step keeps the invariant. *)
Lemma rs_move_inv s T R W t p s' p' T' R' W' : rs_inv s T R W -> pcs s !! t = Some p ->
  rs_mode T R W p p' T' R' W' -> pcs s' = <[t := p']> (pcs s) ->
  ticket s' = u16 T' -> read s' = u16 R' -> write s' = u16 W' ->
  (is_first p' = true -> tk p' = Some (u16 R')) -> (is_writer p' = true -> W' = R') ->
  (forall k w r, p' = WCopy k w r -> w = write s' /\ r = read s') ->
  crit s' !! t = Some (crit_at p') -> (forall u, u <> t -> crit s' !! u = crit s !! u) ->
  rs_inv s' T' R' W'.
Proof.
  intros I Hp M Ep Et Er Ew Hf Hw Hc Hct Hco.
  destruct (mode_counts s T R W I t p Hp s' p' T' R' W' M Ep) as [Hb Hr].
  assert (Hcase : forall u q, pcs s' !! u = Some q -> u = t /\ q = p' \/ u <> t /\ pcs s !! u = Some q).
  { intros u q. rewrite Ep. destruct (decide (u = t)) as [->|Hne].
    - rewrite lookup_insert_eq. intros [= <-]. by left.
    - rewrite lookup_insert_ne by congruence. by right. }
  split; try done.
  - rewrite Ep, map_size_insert_Some by (by eexists). apply (i_size _ _ _ _ I).
  - by apply (mode_order s T R W I t p Hp s' p' T' R' W' M Ep).
  - by apply (mode_tk s T R W I t p Hp s' p' T' R' W' M Ep).
  - by apply (mode_uniq s T R W I t p Hp s' p' T' R' W' M Ep).
  - by apply (mode_all s T R W I t p Hp s' p' T' R' W' M Ep).
  - intros u q Hq Hfq. destruct (Hcase u q Hq) as [[-> ->]|[Hne Hq']]; [by apply Hf|].
    destruct (mode_others s T R W I t p Hp s' p' T' R' W' M Ep u q Hne Hq' Hfq) as [-> _].
    by apply (i_first _ _ _ _ I u).
  - intros u q Hq Hwq. destruct (Hcase u q Hq) as [[-> ->]|[Hne Hq']]; [by apply Hw|].
    destruct (mode_others s T R W I t p Hp s' p' T' R' W' M Ep u q Hne Hq') as [-> Hx]; [by destruct q|].
    rewrite (Hx Hwq). by apply (i_writer _ _ _ _ I u q).
  - intros u k w r Hq. destruct (Hcase u _ Hq) as [[-> E]|[Hne Hq']]; [by apply (Hc k)|].
    destruct (mode_others s T R W I t p Hp s' p' T' R' W' M Ep u _ Hne Hq') as [E1 E2]; [done|].
    specialize (E2 eq_refl). destruct (i_copy _ _ _ _ I u k w r Hq') as [-> ->].
    rewrite Ew, Er, (i_write _ _ _ _ I), (i_read _ _ _ _ I). by subst.
  - intros u q Hq. destruct (Hcase u q Hq) as [[-> ->]|[Hne Hq']]; [done|].
    rewrite Hco by done. by apply (i_crit _ _ _ _ I).
Qed.

(** A turn of a loop that fails changes nothing. *)
Lemma critical_back s t x : crit s !! t = Some x -> critical (critical s t 1) t (-1) = s.
Proof.
  intros Hx. unfold critical. simpl. rewrite lookup_insert_eq, Hx. simpl.
  rewrite insert_insert_eq, insert_id by (rewrite Hx; f_equal; lia). by destruct s.
Qed.

Lemma rs_step_inv s T R W t a : rs_inv s T R W ->
  match rs_step s t a with Done s' => exists T' R' W', rs_inv s' T' R' W' | Panic => False | _ => True end.
Proof.
  intros I. unfold rs_step. destruct (pcs s !! t) as [p|] eqn:Hp; [|done]. simpl.
  pose proof (i_ticket _ _ _ _ I) as ET. pose proof (i_read _ _ _ _ I) as ER. pose proof (i_write _ _ _ _ I) as EW.
  pose proof (i_crit _ _ _ _ I t p Hp) as Hc.
  assert (Hother : forall (m : gmap Z Z) x u, u <> t -> <[t := x]> m !! u = m !! u)
    by (intros; by rewrite lookup_insert_ne by congruence).
  destruct a, p as [|k|k| |k|k|k w r]; try done; simpl.
  - (* rdlock *) exists (T + 1), R, W. apply (rs_move_inv s T R W t Idle _ (RWait (ticket s)) _ _ _ I Hp); simpl; try done.
    + apply Take; simpl; congruence.
    + by rewrite ET, u16_u16_add.
  - (* wrlock *) exists (T + 1), R, W. apply (rs_move_inv s T R W t Idle _ (WWait (ticket s)) _ _ _ I Hp); simpl; try done.
    + apply Take; simpl; congruence.
    + by rewrite ET, u16_u16_add.
  - (* rdunlock *) unfold rdunlock_spin. rewrite Hc. simpl. exists T, R, (W + 1).
    apply (rs_move_inv s T R W t RHeld _ Idle _ _ _ I Hp); simpl; try done.
    + by apply End.
    + by rewrite EW, u16_u16_add.
    + by rewrite lookup_insert_eq, Hc.
    + intros u Hu. by apply Hother.
  - (* wrunlock: the copy *) exists T, R, W.
    apply (rs_move_inv s T R W t (WHeld k) _ (WCopy k (write s) (read s)) _ _ _ I Hp); simpl; try done.
    + by apply Keep.
    + intros _. by apply (i_first _ _ _ _ I t (WHeld k)).
    + intros _. by apply (i_writer _ _ _ _ I t (WHeld k)).
    + by intros ? ? ? [= <- <- <-].
  - (* RWait *) destruct (Z.eqb_spec (read s) k) as [<-|E]; [|rewrite (critical_back s t _ Hc); eauto].
    exists T, R, W. apply (rs_move_inv s T R W t (RWait (read s)) _ (RGot (read s)) _ _ _ I Hp); simpl; try done.
    + by apply Keep.
    + by rewrite ER.
    + by rewrite lookup_insert_eq, Hc.
    + intros u Hu. by apply Hother.
  - (* RGot *) pose proof (i_first _ _ _ _ I t _ Hp eq_refl) as Hk. exists T, (R + 1), W.
    apply (rs_move_inv s T R W t (RGot k) _ RHeld _ _ _ I Hp); simpl; try done.
    + by apply Enter.
    + by rewrite ER, u16_u16_add.
  - (* WWait *) destruct (Z.eqb_spec (write s) k) as [<-|E]; [|rewrite (critical_back s t _ Hc); eauto].
    destruct (rs_ticket_first s T R W t _ _ I Hp eq_refl) as [_ Hk]. destruct (Hk EW) as [EWR _].
    exists T, R, W. apply (rs_move_inv s T R W t (WWait (write s)) _ (WHeld (write s)) _ _ _ I Hp); simpl; try done.
    + by apply Keep.
    + by rewrite EW, EWR.
    + by rewrite lookup_insert_eq, Hc.
    + intros u Hu. by apply Hother.
  - (* WCopy *) rewrite Hc. simpl. pose proof (i_first _ _ _ _ I t _ Hp eq_refl) as Hk.
    pose proof (i_writer _ _ _ _ I t _ Hp eq_refl) as EWR. destruct (i_copy _ _ _ _ I t k w r Hp) as [-> ->].
    exists T, (R + 1), (W + 1).
    apply (rs_move_inv s T R W t (WCopy k (write s) (read s)) _ Idle _ _ _ I Hp); simpl; try done.
    + by apply Leave.
    + by rewrite ER, u16_u16_add.
    + by rewrite EW, u16_u16_add.
    + by rewrite lookup_insert_eq, Hc.
    + intros u Hu. by apply Hother.
Qed.

Lemma rs_init_inv (ts : gset Z) : Z.of_nat (size ts) < 2 ^ 16 -> rs_inv (rwlock_spin_init ts) 0 0 0.
Proof.
  intros Hsz. assert (Hc : forall P : tpc -> bool, P Idle = false -> count P (start ts Idle) = O).
  { intros P HP. apply count_none. by intros t p ->%start_lookup. }
  split; simpl; rewrite ?Hc by done; try done; try lia.
  - unfold start. rewrite <- (size_dom (D := gset Z)), dom_gset_to_gmap. done.
  - intros t p k ->%start_lookup. done.
  - intros t u p q k ->%start_lookup. done.
  - intros t p ->%start_lookup. done.
  - intros t k w r E%start_lookup. done.
  - unfold start. intros t p [Ht <-]%lookup_gset_to_gmap_Some. by rewrite lookup_gset_to_gmap_Some.
Qed.

Lemma rs_reach_inv ts s : Z.of_nat (size ts) < 2 ^ 16 -> rtc rs_next (rwlock_spin_init ts) s ->
  exists T R W, rs_inv s T R W.
Proof.
  intros Hsz Hr. eapply (rtc_invariant _ (fun s => exists T R W, rs_inv s T R W));
    [exact Hr|by exists 0, 0, 0; apply rs_init_inv|].
  intros a b (T & R & W & I) (t & act & Hs). pose proof (rs_step_inv a T R W t act I) as Hi. by rewrite Hs in Hi.
Qed.

(** C33: the spinning read-write lock excludes, with tickets that wrap around
    at 16 bits and with the unlock of a writer that copies the counters and
    stores them: a thread that has the lock for writing is the only one that
    has it in any way, and the checks for the critical section pass. *)
Theorem rwspin_exclusive ts s t p : Z.of_nat (size ts) < 2 ^ 16 ->
  rtc rs_next (rwlock_spin_init ts) s -> pcs s !! t = Some p ->
  (is_writer p = true -> forall u q, pcs s !! u = Some q -> crit_at q = 1 -> u = t) /\
  (forall a, rs_step s t a <> Panic) /\ crit s !! t = Some (crit_at p).
Proof.
  intros Hsz Hr Hp. destruct (rs_reach_inv ts s Hsz Hr) as (T & R & W & I).
  split; [|split; [|by apply (i_crit _ _ _ _ I)]].
  - intros Hw u q Hq Hc. pose proof (i_writer _ _ _ _ I t p Hp Hw) as E.
    assert (Hf : is_first p = true) by (by destruct p). pose proof (i_first _ _ _ _ I t p Hp Hf) as Hk.
    destruct (is_first q) eqn:Eq.
    + apply (i_uniq _ _ _ _ I u t q p (u16 R)); [done|done| |done]. by apply (i_first _ _ _ _ I u).
    + destruct q; try done. pose proof (count_pos is_reader _ u _ Hq eq_refl).
      pose proof (i_readers _ _ _ _ I). lia.
  - intros a Hpan. pose proof (rs_step_inv s T R W t a I) as Hi. by rewrite Hpan in Hi.
Qed.

(** C34: the spinning read-write lock does not get stuck: when a thread waits
    with a ticket, some thread has the lock (and can unlock), or some thread's
    next step brings it closer: it passes its test, or ends what it does. *)
Theorem rwspin_progress ts s t p k : Z.of_nat (size ts) < 2 ^ 16 ->
  rtc rs_next (rwlock_spin_init ts) s -> pcs s !! t = Some p -> tk p = Some k ->
  exists u q, pcs s !! u = Some q /\
    (q = RHeld \/ (exists k', q = WHeld k') \/
     exists s' q', rs_step s u Go = Done s' /\ pcs s' !! u = Some q' /\ q' <> q).
Proof.
  intros Hsz Hr Hp Hk. destruct (rs_reach_inv ts s Hsz Hr) as (T & R & W & I).
  pose proof (i_order _ _ _ _ I) as Ho. destruct (i_tk _ _ _ _ I t p k Hp Hk) as (n & Hn & _).
  destruct (i_all _ _ _ _ I R ltac:(lia)) as (u & q & Hq & Hkq).
  assert (Hgo : forall s' q', rs_step s u Go = Done s' -> pcs s' !! u = Some q' -> q' <> q ->
    exists u q, pcs s !! u = Some q /\ (q = RHeld \/ (exists k', q = WHeld k') \/
     exists s' q', rs_step s u Go = Done s' /\ pcs s' !! u = Some q' /\ q' <> q)).
  { intros s' q' H1 H2 H3. exists u, q. split; [done|]. right. right. eauto. }
  pose proof (i_crit _ _ _ _ I u q Hq) as Hc.
  destruct q as [|k'|k'| |k'|k'|k' w r]; simpl in Hkq; try done; try (injection Hkq as ->).
  - eapply Hgo; [unfold rs_step; rewrite Hq; simpl; rewrite (i_read _ _ _ _ I), Z.eqb_refl; done| |];
      [simpl; by rewrite lookup_insert_eq|done].
  - eapply Hgo; [unfold rs_step; rewrite Hq; done| |]; [simpl; by rewrite lookup_insert_eq|done].
  - destruct (Z.eq_dec W R) as [E|E].
    + eapply Hgo; [unfold rs_step; rewrite Hq; simpl; rewrite (i_write _ _ _ _ I), E, Z.eqb_refl; done| |];
        [simpl; by rewrite lookup_insert_eq|done].
    + destruct (count_ex is_reader (pcs s)) as (v & r & Hv & Hr'); [pose proof (i_readers _ _ _ _ I); lia|].
      exists v, r. split; [done|]. left. by destruct r.
  - exists u, (WHeld (u16 R)). split; [done|]. right. left. eauto.
  - eapply Hgo; [unfold rs_step; rewrite Hq; simpl; rewrite Hc; done| |]; [simpl; by rewrite lookup_insert_eq|done].
Qed.

(** ** kern/spinlock.c *)

Module Spinlock.

Inductive place := Out | Spin | Relax | In.
Record spinlock_t := MkSpin { word : Z; depth : gmap Z Z; at_ : gmap Z place }.

Definition SPIN_LOCKED : Z := 1.
Definition SPIN_UNLOCKED : Z := 0.

Definition move (s : spinlock_t) (t : Z) (w d : Z) (p : place) : spinlock_t :=
MkSpin w (<[t := default 0 (depth s !! t) + d]> (depth s)) (<[t := p]> (at_ s)).

Definition spinlock_init (ts : gset Z) : spinlock_t := MkSpin SPIN_UNLOCKED (start ts 0) (start ts Out).

(** The exchange stores [SPIN_LOCKED] in both cases. *)
Definition spin_try_lock (s : spinlock_t) (t : Z) : spinlock_t * bool :=
if word s =? SPIN_LOCKED then (move s t SPIN_LOCKED (1 - 1) Out, false)
else (move s t SPIN_LOCKED 1 In, true).

Definition spin_locked (s : spinlock_t) : bool := word s =? SPIN_LOCKED.

Definition spin_lock (s : spinlock_t) (t : Z) (p : place) : res spinlock_t :=
match p with
| Out => Done (move s t (word s) 1 Spin)
| Spin => if word s =? SPIN_LOCKED then Done (move s t SPIN_LOCKED (-1) Relax)
          else Done (move s t SPIN_LOCKED 0 In)
| Relax => Done (move s t (word s) 1 Spin)
| In => Fault
end.

Definition __spin_unlock (s : spinlock_t) (t : Z) : res spinlock_t :=
if word s =? 0 then Panic else Done (move s t SPIN_UNLOCKED (-1) Out).

Inductive act := Try | Lock | Unlock | Go.

Definition spin_step (s : spinlock_t) (t : Z) (a : act) : res spinlock_t :=
let* p := deref (at_ s !! t) in
match a, p with
| Try, Out => Done (spin_try_lock s t).1
| Lock, Out => spin_lock s t p
| Go, (Spin | Relax) => spin_lock s t p
| Unlock, In => __spin_unlock s t
| _, _ => Fault
end.

Definition spin_next (s s' : spinlock_t) : Prop := exists t a, spin_step s t a = Done s'.

Definition is_in (p : place) : bool := match p with In => true | _ => false end.
Definition depth_at (p : place) : Z := match p with Spin | In => 1 | _ => 0 end.

Record spin_inv (s : spinlock_t) : Prop := {
j_word : word s = Z.of_nat (count is_in (at_ s));
j_one : word s = 0 \/ word s = 1;
j_depth t p : at_ s !! t = Some p -> depth s !! t = Some (depth_at p);
}.

Lemma move_spin_inv s t p w d p' : spin_inv s -> at_ s !! t = Some p ->
w = word s + Z.b2z (is_in p') - Z.b2z (is_in p) -> w = 0 \/ w = 1 -> d = depth_at p' - depth_at p ->
spin_inv (move s t w d p').
Proof.
intros I Hp -> Hone ->. split; simpl.
- rewrite (j_word _ I). pose proof (count_move is_in (at_ s) t p p' Hp).
  destruct (is_in p), (is_in p'); simpl in *; lia.
- done.
- intros u q Hq. destruct (decide (u = t)) as [->|Hne].
  + rewrite lookup_insert_eq in Hq. rewrite lookup_insert_eq. injection Hq as <-. rewrite (j_depth _ I t p Hp). simpl. f_equal. lia.
  + rewrite lookup_insert_ne in Hq by congruence. rewrite lookup_insert_ne by congruence. by apply (j_depth _ I).
Qed.

Lemma spin_step_inv s t a : spin_inv s ->
match spin_step s t a with Done s' => spin_inv s' | Panic => False | _ => True end.
Proof.
intros I. unfold spin_step. destruct (at_ s !! t) as [p|] eqn:Hp; [|done]. simpl.
pose proof (j_one _ I) as H1. pose proof (j_word _ I) as Hw.
destruct a, p; try done; unfold spin_try_lock, spin_lock, __spin_unlock, SPIN_LOCKED, SPIN_UNLOCKED.
- destruct (Z.eqb_spec (word s) 1); simpl; eapply (move_spin_inv s t Out); simpl; (done || lia).
- eapply (move_spin_inv s t Out); simpl; (done || lia).
- pose proof (count_pos is_in _ t _ Hp eq_refl). destruct (Z.eqb_spec (word s) 0); [lia|].
  eapply (move_spin_inv s t In); simpl; (done || lia).
- destruct (Z.eqb_spec (word s) 1); eapply (move_spin_inv s t Spin); simpl; (done || lia).
- eapply (move_spin_inv s t Relax); simpl; (done || lia).
Qed.

Lemma spin_init_inv ts : spin_inv (spinlock_init ts).
Proof.
split; simpl; try (by left).
- rewrite count_none; [done|]. by intros t p ->%start_lookup.
- unfold start. intros t p [Ht <-]%lookup_gset_to_gmap_Some. by rewrite lookup_gset_to_gmap_Some.
Qed.

(** Spin locks exclude, and their panic cannot be reached. *)
Lemma spin_exclusive ts s : rtc spin_next (spinlock_init ts) s ->
(forall t u, at_ s !! t = Some In -> at_ s !! u = Some In -> t = u) /\
forall t a, spin_step s t a <> Panic.
Proof.
intros Hr. assert (I : spin_inv s).
{ eapply rtc_invariant; [exact Hr|apply spin_init_inv|]. intros a b I (t & act & Hs).
  pose proof (spin_step_inv a t act I) as Hi. by rewrite Hs in Hi. }
split.
- intros t u Ht Hu. destruct (decide (t = u)) as [|Hne]; [done|exfalso].
  pose proof (count_two is_in _ t u _ _ Ht Hu Hne eq_refl eq_refl). pose proof (j_one _ I).
  pose proof (j_word _ I). lia.
- intros t a Hp. pose proof (spin_step_inv s t a I) as Hi. by rewrite Hp in Hi.
Qed.

End Spinlock.

(** ** Concrete runs *)

Fixpoint rs_run (s : rwlock_spin_t) (l : list (Z * tact)) : res rwlock_spin_t :=
  match l with
  | [] => Done s
  | (t, a) :: l => let* s := rs_step s t a in rs_run s l
  end.

Lemma rs_run_reach l : forall s s', rs_run s l = Done s' -> rtc rs_next s s'.
Proof.
  induction l as [|[t a] l IH]; intros s s' H; simpl in H; [injection H as ->; constructor|].
  apply rbind_Done in H as (s1 & H1 & H). econstructor; [by exists t, a|]. by apply IH.
Qed.

(** Two readers have the lock at once, a writer waits behind them, and a
    third reader behind the writer. *)
Definition rs_demo_steps : list (Z * tact) :=
  [(1, RdLock); (2, RdLock); (1, Go); (1, Go); (3, WrLock); (2, Go); (2, Go); (4, RdLock); (3, Go); (4, Go)].
Definition rs_demo : rwlock_spin_t :=
  match rs_run (rwlock_spin_init {[1; 2; 3; 4]}) rs_demo_steps with Done s => s | _ => rwlock_spin_init ∅ end.

(** The readers leave and the writer gets in. *)
Definition rs_demo_write : rwlock_spin_t :=
  match rs_run rs_demo [(2, Unlock); (1, Unlock); (3, Go)] with Done s => s | _ => rwlock_spin_init ∅ end.

Lemma rwspin_exclusive_witness : pcs rs_demo_write !! 3 = Some (WHeld 2) /\
  (forall u q, pcs rs_demo_write !! u = Some q -> crit_at q = 1 -> u = 3).
Proof.
  destruct (rwspin_exclusive {[1; 2; 3; 4]} rs_demo_write 3 (WHeld 2)) as (H & _).
  - vm_compute. reflexivity.
  - apply (rs_run_reach (rs_demo_steps ++ [(2, Unlock); (1, Unlock); (3, Go)])). vm_compute. reflexivity.
  - vm_compute. reflexivity.
  - split; [vm_compute; reflexivity|]. exact (H eq_refl).
Defined.

Lemma rwspin_progress_witness : exists u q, pcs rs_demo !! u = Some q /\
  (q = RHeld \/ (exists k', q = WHeld k') \/
   exists s' q', rs_step rs_demo u Go = Done s' /\ pcs s' !! u = Some q' /\ q' <> q).
Proof.
  apply (rwspin_progress {[1; 2; 3; 4]} rs_demo 4 (RWait 3) 3).
  - vm_compute. reflexivity.
  - apply (rs_run_reach rs_demo_steps). vm_compute. reflexivity.
  - vm_compute. reflexivity.
  - reflexivity.
Defined.
