(* ===== verification/Wait.v ===== *)
(** * kern/wait.c: wait queues

    A thread that wants to sleep puts a waiter on a wait queue ([wait_prep]),
    looks at its condition once more and then sleeps ([wait_sleep_timeout]) or
    gives up ([wait_abort]).  Whoever changes the condition wakes the waiters of
    the queue up.

    The waiters work on the scheduler of [Sched]: [wsys] is a processor with its
    scheduler, its wait queues, the waiters (they live on the stacks of the
    threads) and the timers of the waiters.  What happens with the lock of a
    queue, or in a critical section, is one step; [wait_sleep_timeout] is left
    and resumed at [schedule], so its parts are [sleep_enter], [sleep_prepare]
    and [sleep_finish].

    [wevent] is everything that can happen to the processor.  The theorems are
    about all sequences of events: no assertion fails ([wait_safe]) and a
    thread that sleeps can be woken up ([wait_no_lost_wakeup]). *)
From stdpp Require Import base gmap list relations fin_maps.
From Stdlib Require Import ZArith Lia.
From S2P Require Import Prelude Sched Interleave.
Open Scope Z_scope.

(** ** Data *)

Definition WAIT_DONE : Z := 1.
Definition WAIT_SLEEP : Z := 2.
Definition WAIT_FLAGS : Z := Z.lor WAIT_DONE WAIT_SLEEP.
Definition WAIT_INTERRUPTABLE : Z := 1.

(** A oneshot timer that was started: when it runs out, and [TIMER_DONE]. *)
Record wtimer := MkTimer { ttime : Z; tdone : bool }.

Record wsys := MkWsys {
  sched : scheduler_t;
  queues : gmap Z (list Z);
  thread_flags : gmap Z Z;
  timers : gmap Z wtimer;
  now : Z;
}.

Definition with_sched (st : wsys) (s : scheduler_t) : wsys :=
  MkWsys s (queues st) (thread_flags st) (timers st) (now st).
Definition with_queue (st : wsys) (wq : Z) (q : list Z) : wsys :=
  MkWsys (sched st) (<[wq := q]> (queues st)) (thread_flags st) (timers st) (now st).
Definition with_flags (st : wsys) (w v : Z) : wsys :=
  MkWsys (sched st) (queues st) (<[w := v]> (thread_flags st)) (timers st) (now st).
Definition with_timers (st : wsys) (x : gmap Z wtimer) : wsys :=
  MkWsys (sched st) (queues st) (thread_flags st) x (now st).

Definition waiter_thread (v : Z) : Z := Z.land v (Z.lnot WAIT_FLAGS).
Definition waiter_flags (v : Z) : Z := Z.land v WAIT_FLAGS.

(** [list_append] wants a node that is in no list, [list_remove] one of the list. *)
Definition inserted (st : wsys) (w : Z) : bool :=
  bool_decide (map_Exists (fun _ q => w ∈ q) (queues st)).
Definition waitq_append (st : wsys) (wq w : Z) : res wsys :=
  let* q := deref (queues st !! wq) in
  kassert negb (inserted st w) in Done (with_queue st wq (q ++ [w])).
Definition waitq_remove (st : wsys) (wq w : Z) : res wsys :=
  let* q := deref (queues st !! wq) in
  kassert bool_decide (w ∈ q) in Done (with_queue st wq (filter (fun x => x <> w) q)).

(** ** Timers (the part of kern/timer.c that a waiter uses) *)

Definition timer_start (st : wsys) (w nanosec : Z) : wsys :=
  with_timers st (<[w := MkTimer (nanosec + now st) false]> (timers st)).
Definition timer_stop (st : wsys) (w : Z) : res (Z * wsys) :=
  let* t := deref (timers st !! w) in
  let rem := if ttime t <=? now st then 0 else ttime t - now st in
  Done (rem, with_timers st (<[w := MkTimer (ttime t) true]> (timers st))).
Definition timer_destroy (st : wsys) (w : Z) : res wsys :=
  match timers st !! w with
  | None => Done st
  | Some t => kassert tdone t in Done (with_timers st (delete w (timers st)))
  end.

(** ** Operations *)

Definition sched_wakeup (st : wsys) (t p : Z) : res wsys :=
  let* '(s, _) := sched_wakeup_thread (sched st) true t p in Done (with_sched st s).

Definition wait_prep (st : wsys) (wq w : Z) : res wsys :=
  let st := with_flags st w (cur (sched st)) in
  kassert waiter_flags (cur (sched st)) =? 0 in
  waitq_append st wq w.

Definition wait_abort (st : wsys) (wq w : Z) : res wsys :=
  let* v := deref (thread_flags st !! w) in
  if negb (isset v WAIT_DONE) then waitq_remove st wq w else Done st.

Definition wait_timeout (st : wsys) (w : Z) : res wsys :=
  let* v := deref (thread_flags st !! w) in sched_wakeup st (waiter_thread v) SCHED_NORMAL.

(** [if(flags & WAIT_INTERRUPTABLE && (retv = sched_interrupted()) < 0)] *)
Definition interrupted (st : wsys) (flags : Z) : res Z :=
  if isset flags WAIT_INTERRUPTABLE then sched_interrupted (sched st) else Done 0.

(** Up to the critical section.  [zeroed] tells whether the stack memory in
    which the timer will be happens to be zero: if the thread has been
    interrupted, [timer_destroy] looks at a timer that was not initialised. *)
Definition sleep_enter (st : wsys) (wq w flags : Z) (timeout : option Z) (zeroed : bool) : res (option Z * wsys) :=
  kassert match timeout with Some _ => isset flags WAIT_INTERRUPTABLE | None => true end in
  let* retv := interrupted st flags in
  if retv <? 0 then
    let* st := wait_abort st wq w in
    kassert match timeout with Some _ => zeroed | None => true end in
    Done (Some retv, st)
  else Done (None, st).

(** The critical section. *)
Definition sleep_prepare (st : wsys) (wq w flags : Z) (timeout : option Z) : res (option Z * wsys) :=
  let* v := deref (thread_flags st !! w) in
  if isset v WAIT_DONE then Done (Some 0, st) else
  let st := with_flags st w (Z.lor v WAIT_SLEEP) in
  let* s := sched_set_inactive (sched st) (isset flags WAIT_INTERRUPTABLE) in
  let st := with_sched st s in
  Done (None, match timeout with Some ns => timer_start st w ns | None => st end).

(** After [schedule]: the result and what is left of the timeout. *)
Definition sleep_finish (st : wsys) (wq w flags : Z) (timeout : option Z) : res (Z * option Z * wsys) :=
  let* '(rem, st) :=
    match timeout with
    | Some _ => let* '(r, st) := timer_stop st w in Done (Some r, st)
    | None => Done (None, st)
    end in
  let* '(retv, st) :=
    if bool_decide (rem = Some 0) then
      let* st := wait_abort st wq w in Done (- ETIMEDOUT, st)
    else
      let* retv := interrupted st flags in
      if retv <? 0 then let* st := wait_abort st wq w in Done (retv, st) else
      let* v := deref (thread_flags st !! w) in
      kassert isset v WAIT_DONE in Done (retv, st) in
  let* st := match timeout with Some _ => timer_destroy st w | None => Done st end in
  Done (retv, rem, st).

Definition wakeup_waiter (st : wsys) (wq w p : Z) : res wsys :=
  let* v := deref (thread_flags st !! w) in
  kassert negb (isset v WAIT_DONE) in
  let* st := waitq_remove st wq w in
  let v := Z.lor v WAIT_DONE in
  let st := with_flags st w v in
  if isset v WAIT_SLEEP then sched_wakeup st (waiter_thread v) p else Done st.

(** The loop over the queue; its body removes only the current waiter. *)
Fixpoint wakeup_loop (l : list Z) (i num : Z) (st : wsys) (wq p : Z) : res wsys :=
  match l with
  | [] => Done st
  | w :: l =>
      if i =? num then Done st else
      let* st := wakeup_waiter st wq w p in wakeup_loop l (u32 (i + 1)) num st wq p
  end.
Definition wakeup_num (st : wsys) (wq p num : Z) : res wsys :=
  let* q := deref (queues st !! wq) in wakeup_loop q 0 num st wq p.
Definition wakeup (st : wsys) (wq p : Z) : res wsys := wakeup_num st wq p (2 ^ 32 - 1).

(** ** Threads that wait *)

(** Where a thread is.  [Entered], [Sleeping] and [Woken] are the places in
    [wait_sleep_timeout] before the critical section, before [schedule], and
    after it. *)
Inductive wpc := Running
  | Entered (wq w flags : Z) (timeout : option Z)
  | Sleeping (wq w flags : Z) (timeout : option Z)
  | Woken (wq w flags : Z) (timeout : option Z).

#[export] Instance wpc_eq_dec : EqDecision wpc.
Proof. solve_decision. Defined.

(** [held]: the waiters that are in use, and their queues. *)
Record world := MkWorld { sys : wsys; pcs : gmap Z wpc; held : gmap Z Z }.

Inductive wevent :=
  | EPrep (wq w : Z) | EAbort (w : Z) | ESleep (w flags : Z) (timeout : option Z) (zeroed : bool)
  | EStep | EPreempt | EPending
  | EWakeup (wq p num : Z) | ETimer (w : Z) | EInterrupt (t p i : Z) (restart : bool) | ETick (d : Z).

Definition owner (g : world) (w : Z) : option Z := waiter_thread <$> thread_flags (sys g) !! w.

(** Whether an event can happen: a thread uses waiters of its own, which are
    not in use yet when it prepares them; a timer calls back when its time has
    come. *)
Definition enabled (g : world) (e : wevent) : bool :=
  let t := cur (sched (sys g)) in
  let at_run := bool_decide (pcs g !! t = Some Running) in
  match e with
  | EPrep wq w => at_run && bool_decide (held g !! w = None) && bool_decide (is_Some (queues (sys g) !! wq))
  | EAbort w => at_run && bool_decide (is_Some (held g !! w)) && bool_decide (owner g w = Some t)
  | ESleep w flags timeout zeroed =>
      at_run && bool_decide (is_Some (held g !! w)) && bool_decide (owner g w = Some t) &&
      match timeout with Some _ => isset flags WAIT_INTERRUPTABLE && zeroed | None => true end
  | EStep => bool_decide (is_Some (pcs g !! t)) && negb at_run
  | EPreempt => true
  | EPending => at_run
  | EWakeup wq p num => bool_decide (is_Some (queues (sys g) !! wq)) && (0 <=? p) && (p <=? 6) && (0 <=? num) && (num <? 2 ^ 32)
  | ETimer w => match timers (sys g) !! w with Some x => negb (tdone x) && (ttime x <=? now (sys g)) | None => false end
  | EInterrupt u p _ _ => bool_decide (is_Some (threads (sched (sys g)) !! u)) && (0 <=? p) && (p <=? 6)
  | ETick d => 0 <=? d
  end.

Definition with_sys (g : world) (st : wsys) : world := MkWorld st (pcs g) (held g).
Definition goto (g : world) (st : wsys) (t : Z) (p : wpc) : world := MkWorld st (<[t := p]> (pcs g)) (held g).
(** [waiter_destroy]: the waiter is not used any more. *)
Definition leave (g : world) (st : wsys) (t w : Z) : world :=
  MkWorld st (<[t := Running]> (pcs g)) (delete w (held g)).

Definition on_sched (g : world) (m : res scheduler_t) : res world :=
  let* s := m in Done (with_sys g (with_sched (sys g) s)).

Definition wevent_run (g : world) (e : wevent) : res world :=
  let st := sys g in
  let t := cur (sched st) in
  match e with
  | EPrep wq w => let* st := wait_prep st wq w in Done (MkWorld st (pcs g) (<[w := wq]> (held g)))
  | EAbort w =>
      let* wq := deref (held g !! w) in
      let* st := wait_abort st wq w in Done (leave g st t w)
  | ESleep w flags timeout zeroed =>
      let* wq := deref (held g !! w) in
      let* '(r, st) := sleep_enter st wq w flags timeout zeroed in
      Done (match r with Some _ => leave g st t w | None => goto g st t (Entered wq w flags timeout) end)
  | EStep =>
      let* p := deref (pcs g !! t) in
      match p with
      | Running => Done g
      | Entered wq w flags timeout =>
          let* '(r, st) := sleep_prepare st wq w flags timeout in
          Done (match r with Some _ => leave g st t w | None => goto g st t (Sleeping wq w flags timeout) end)
      | Sleeping wq w flags timeout =>
          let* s := schedule (sched st) in Done (goto g (with_sched st s) t (Woken wq w flags timeout))
      | Woken wq w flags timeout =>
          let* '(_, _, st) := sleep_finish st wq w flags timeout in Done (leave g st t w)
      end
  | EPreempt => on_sched g (schedule (sched st))
  | EPending => on_sched g (let* '(_, s) := sched_pending_intr (sched st) in Done s)
  | EWakeup wq p num => let* st := wakeup_num st wq p num in Done (with_sys g st)
  | ETimer w =>
      let* x := deref (timers st !! w) in
      let* st := wait_timeout st w in
      Done (with_sys g (with_timers st (<[w := MkTimer (ttime x) true]> (timers st))))
  | EInterrupt u p i restart =>
      on_sched g (let* '(s, _) := sched_interrupt (sched st) true u p i (if restart then THREAD_RESTARTSYS else 0) in Done s)
  | ETick d => Done (with_sys g (MkWsys (sched st) (queues st) (thread_flags st) (timers st) (now st + d)))
  end.

Inductive wstep (g g' : world) : Prop :=
  | wstep_intro e : enabled g e = true -> wevent_run g e = Done g' -> wstep g g'.

(** ** Flags *)

Lemma isset_lor x y f : isset (Z.lor x y) f = isset x f || isset y f.
Proof.
  unfold isset. rewrite Z.land_lor_distr_l. rewrite <- negb_andb. f_equal. apply eq_true_iff_eq.
  rewrite andb_true_iff, !Z.eqb_eq. apply Z.lor_eq_0_iff.
Qed.

Lemma isset_clr_other x g f : Z.land (Z.lnot g) f = f -> isset (clr x g) f = isset x f.
Proof. intros H. unfold isset, clr. by rewrite <- Z.land_assoc, H. Qed.

Lemma isset_clr_same x g f : Z.land (Z.lnot g) f = 0 -> isset (clr x g) f = false.
Proof. intros H. unfold isset, clr. by rewrite <- Z.land_assoc, H, Z.land_0_r. Qed.

(** What the waiters need to know of a thread. *)
Record tview := View { asleep : bool; v_able : bool; v_intr : bool; v_do : bool }.
Definition view (th : thread_t) : tview :=
  View (bool_decide (state th = THREAD_SLEEP) || isset (sflags th) THREAD_DO_SLEEP)
    (isset (sflags th) THREAD_INTERRUPTABLE) (isset (sflags th) THREAD_INTERRUPTED)
    (isset (sflags th) THREAD_DO_SLEEP).

(** No thread exits, and only the thread that runs prepares to sleep. *)
Record sinv (s : scheduler_t) : Prop := {
  s_inv : sched_inv s;
  s_noexit t th : threads s !! t = Some th -> state th <> THREAD_EXIT;
  s_do t th : threads s !! t = Some th -> t <> idle s -> isset (sflags th) THREAD_DO_SLEEP = true -> t = cur s;
}.

(** Every thread has a new view, given by [f]. *)
Definition views (s s' : scheduler_t) (f : Z -> tview -> tview) : Prop :=
  idle s' = idle s /\ dom (threads s') = dom (threads s) /\
  forall t th', threads s' !! t = Some th' -> t <> idle s ->
    exists th, threads s !! t = Some th /\ view th' = f t (view th).

Definition v_sched (v : tview) : tview := View (asleep v) (v_able v) (v_intr v) false.
Definition v_wake (v : tview) : tview := View false false (v_intr v) false.

Lemma cur_running s : sinv s -> cur s <> idle s ->
  exists th, threads s !! cur s = Some th /\ state th = THREAD_RUNNING.
Proof.
  intros I Hne. destruct (k_cur _ (s_inv _ I) Hne) as (th & Ht & [?|Hx]); [by exists th|].
  by destruct (s_noexit _ I _ _ Ht).
Qed.

(** Switching: a thread that was about to sleep sleeps now. *)
Lemma schedule_views s : sinv s ->
  exists s', schedule s = Done s' /\ sinv s' /\ views s s' (fun _ => v_sched).
Proof.
  intros I. destruct (schedule_spec s (s_inv _ I)) as (s' & a & E & I' & _ & _ & Ei & _ & _ & Hm).
  exists s'. split; [done|]. destruct Hm as (th & th1 & Hth & Hb & Hm).
  set (m := <[cur s := th1]> (threads s)) in *.
  assert (Hdm : dom m = dom (threads s)) by (unfold m; rewrite dom_insert_L; apply elem_of_dom_2 in Hth; set_solver).
  assert (Hb1 : state th1 <> THREAD_EXIT /\ (cur s <> idle s -> view th1 = v_sched (view th))).
  { unfold backed in Hb. rewrite (bool_decide_false (state th = THREAD_EXIT)) in Hb by (by apply (s_noexit _ I _ _ Hth)).
    destruct (Z.eqb_spec (cur s) (idle s)) as [Ec|Ec]; cbn [orb] in Hb.
    - subst th1. split; [by apply (s_noexit _ I _ _ Hth)|done].
    - destruct (cur_running s I Ec) as (y & Hy & Hst). assert (y = th) by congruence. subst y.
      destruct (isset (sflags th) THREAD_DO_SLEEP) eqn:Ed.
      + subst th1. split; [done|]. intros _. unfold view, v_sched. simpl.
        rewrite !isset_clr_other, isset_clr_same, Ed, orb_true_r by done. done.
      + destruct Hb as [E1 E2]. rewrite E2. split; [done|]. intros _. unfold view, v_sched. simpl.
        by rewrite E1, E2, Ed, Hst. }
  assert (Hm1 : forall t x, m !! t = Some x -> state x <> THREAD_EXIT /\ (t <> idle s ->
    exists y, threads s !! t = Some y /\ view x = v_sched (view y))).
  { intros t x Hx. unfold m in Hx. apply lookup_insert_Some in Hx as [[<- <-]|[Hne Hx]]; [naive_solver|].
    split; [by apply (s_noexit _ I t)|]. intros Hi. exists x. split; [done|]. unfold v_sched, view. simpl.
    destruct (isset (sflags x) THREAD_DO_SLEEP) eqn:Ed; [|by rewrite orb_false_r].
    by apply (s_do _ I t x Hx Hi) in Ed. }
  assert (Hv : dom (threads s') = dom (threads s) /\ forall t x, threads s' !! t = Some x ->
    state x <> THREAD_EXIT /\ (t <> idle s -> exists y, threads s !! t = Some y /\ view x = v_sched (view y))).
  { destruct Hm as [[_ ->]|(y & Hci & Hy & Hst & ->)]; [by split|].
    split; [rewrite dom_insert_L, <- Hdm; apply elem_of_dom_2 in Hy; set_solver|].
    intros t x Hx. apply lookup_insert_Some in Hx as [[<- <-]|[Hne Hx]]; [|by apply Hm1].
    split; [done|]. intros _. destruct (Hm1 _ _ Hy) as [_ H2]. destruct (H2 Hci) as (z & Hz & Ev). exists z.
    split; [done|]. rewrite <- Ev. unfold view. simpl. by destruct Hst as [->| ->]. }
  destruct Hv as [Hd Hv]. split; [|split; [done|split; [done|]]].
  - split; [done|intros t x Hx; by apply (Hv t x)|]. intros t x Hx Hi Ed. rewrite Ei in Hi.
    destruct (Hv t x Hx) as [_ H2]. destruct (H2 Hi) as (y & _ & Ev). apply (f_equal v_do) in Ev. simpl in Ev. congruence.
  - intros t x Hx Hi. by apply (Hv t x).
Qed.

Definition v_at (t : Z) (f : tview -> tview) (u : Z) (v : tview) : tview := if decide (u = t) then f v else v.

(** One thread changes. *)
Lemma put_views s s' t th th' f : sinv s -> sched_inv s' -> cur s' = cur s -> idle s' = idle s ->
  threads s !! t = Some th -> threads s' = <[t := th']> (threads s) -> state th' <> THREAD_EXIT ->
  (t <> idle s -> view th' = f (view th)) ->
  (t <> idle s -> v_do (view th') = true -> t = cur s) ->
  sinv s' /\ views s s' (v_at t f).
Proof.
  intros I I' Ec Ei Ht Eth Hx Hv Hd. split; [split; [done|..]|split; [done|split]].
  - intros u x Hu. rewrite Eth in Hu. apply lookup_insert_Some in Hu as [[<- <-]|[_ Hu]]; [done|].
    by apply (s_noexit _ I u).
  - intros u x Hu Hi. rewrite Eth in Hu. rewrite Ei in Hi. rewrite Ec.
    apply lookup_insert_Some in Hu as [[<- <-]|[_ Hu]]; [by apply Hd|]. by apply (s_do _ I u x).
  - rewrite Eth, dom_insert_L. apply elem_of_dom_2 in Ht. set_solver.
  - intros u x Hu Hi. rewrite Eth in Hu. unfold v_at.
    apply lookup_insert_Some in Hu as [[<- <-]|[Hne Hu]]; [exists th|exists x].
    + rewrite decide_True by done. auto.
    + by rewrite decide_False by congruence.
Qed.

Lemma do_view s t th : sinv s -> threads s !! t = Some th -> t <> idle s -> state th <> THREAD_RUNNING ->
  isset (sflags th) THREAD_DO_SLEEP = false.
Proof.
  intros I Ht Hi Hst. destruct (isset (sflags th) THREAD_DO_SLEEP) eqn:E; [|done].
  pose proof (s_do _ I t th Ht Hi E) as ->. destruct (cur_running s I Hi) as (y & Hy & ?). congruence.
Qed.

(** A thread that does not run, and is not about to. *)
Definition is_parked (th : thread_t) : Prop := state th = THREAD_SLEEP \/ state th = THREAD_RUNNABLE.
Definition parked (s s' : scheduler_t) : Prop := forall u th, threads s !! u = Some th -> is_parked th ->
  exists th', threads s' !! u = Some th' /\ is_parked th'.

Lemma parked_refl s : parked s s.
Proof. intros u th Hu Hp. eauto. Qed.

Lemma parked_trans s1 s2 s3 : parked s1 s2 -> parked s2 s3 -> parked s1 s3.
Proof. intros H1 H2 u th Hu Hp. destruct (H1 u th Hu Hp) as (y & Hy & Hyp). by apply (H2 u y). Qed.

Lemma parked_insert s s' t th th' : threads s !! t = Some th -> threads s' = <[t := th']> (threads s) ->
  (is_parked th -> is_parked th') -> parked s s'.
Proof.
  intros Ht E H u y Hu Hp. rewrite E. destruct (decide (t = u)) as [<-|Hne].
  - rewrite lookup_insert_eq. assert (y = th) by congruence. subst y. eauto.
  - rewrite lookup_insert_ne by done. eauto.
Qed.

Lemma wake_views s t th p : sinv s -> threads s !! t = Some th -> 0 <= p <= 6 ->
  exists s' ipi, sched_wakeup_thread s true t p = Done (s', ipi) /\ sinv s' /\ cur s' = cur s /\
    views s s' (v_at t v_wake) /\ parked s s'.
Proof.
  intros I Ht Hp. pose proof (s_noexit _ I _ _ Ht) as Hx.
  destruct (wakeup_spec s true t p th (s_inv _ I) Ht Hx Hp (proj1 (cur_thread s (s_inv _ I))))
    as (s' & ipi & th' & E & I' & Ec & Ei & Eth & _ & [Hst Hfl] & _).
  exists s', ipi. split; [done|].
  assert (Hv : t <> idle s -> view th' = v_wake (view th)).
  { intros Hi. pose proof (do_view s t th I Ht Hi) as Hd. unfold view, v_wake. rewrite Hst, Hfl. simpl.
    rewrite (isset_clr_same _ THREAD_INTERRUPTABLE THREAD_INTERRUPTABLE), !(isset_clr_other _ THREAD_INTERRUPTABLE) by done.
    destruct (bool_decide_reflect (state th = THREAD_RUNNING)) as [Er|Er].
    - by rewrite isset_clr_same, isset_clr_other, Er by done.
    - rewrite Hd by done. by destruct (state th). }
  destruct (put_views s s' t th th' v_wake I I' Ec Ei Ht Eth) as [I1 V]; [|done| |do 3 (split; [done|])].
  - rewrite Hst. by destruct (bool_decide (state th = THREAD_SLEEP)).
  - intros Hi. by rewrite (Hv Hi).
  - apply (parked_insert s s' t th th' Ht Eth). unfold is_parked. rewrite Hst.
    destruct (state th); simpl; naive_solver.
Qed.

Definition v_inactive (able : bool) (v : tview) : tview :=
  if able && v_intr v then v else View true able (v_intr v) true.

(** The thread that runs prepares to sleep. *)
Lemma inactive_views s th able : sinv s -> threads s !! cur s = Some th -> cur s <> idle s ->
  v_able (view th) = false ->
  exists s', sched_set_inactive s able = Done s' /\ sinv s' /\ cur s' = cur s /\
    views s s' (v_at (cur s) (v_inactive able)).
Proof.
  intros I Ht Hi Ha. unfold sched_set_inactive. rewrite Ht. cbn [deref rbind]. simpl in Ha. rewrite Ha. cbn [negb].
  destruct (able && isset (sflags th) THREAD_INTERRUPTED) eqn:E.
  - exists s. split; [done|]. split; [done|]. split; [done|].
    destruct (put_views s s (cur s) th th (v_inactive able) I (s_inv _ I)) as [_ V]; try done.
    + by rewrite insert_id.
    + by apply (s_noexit _ I _ _ Ht).
    + intros _. unfold v_inactive. simpl. by rewrite E.
  - eexists. split; [done|]. destruct (put_views s (put s (cur s) (set_sflags th
      (Z.lor (if able then Z.lor (sflags th) THREAD_INTERRUPTABLE else sflags th) THREAD_DO_SLEEP))) (cur s) th
      (set_sflags th (Z.lor (if able then Z.lor (sflags th) THREAD_INTERRUPTABLE else sflags th) THREAD_DO_SLEEP))
      (v_inactive able) I) as [I1 V]; try done.
    + by eapply retag_inv; [apply I|..].
    + by apply (s_noexit _ I _ _ Ht).
    + intros _. unfold v_inactive, view. simpl. rewrite E. rewrite !isset_lor, !orb_true_r, orb_false_r.
      rewrite (orb_false_r (isset _ THREAD_INTERRUPTED)).
      destruct able; [by rewrite !isset_lor, Ha, orb_false_r|by rewrite Ha].
Qed.

Definition v_pending (v : tview) : tview := if v_intr v then View (asleep v) (v_able v) false (v_do v) else v.

Lemma pending_views s th : sinv s -> threads s !! cur s = Some th ->
  exists i s', sched_pending_intr s = Done (i, s') /\ sinv s' /\ cur s' = cur s /\
    views s s' (v_at (cur s) v_pending).
Proof.
  intros I Ht. unfold sched_pending_intr. rewrite Ht. cbn [deref rbind].
  assert (Hd : forall v, cur s <> idle s -> v = true -> cur s = cur s) by done.
  destruct (isset (sflags th) THREAD_INTERRUPTED) eqn:E; eexists _, _; (split; [done|]).
  - destruct (put_views s (put s (cur s) (set_intr (set_sflags th (clr (sflags th) (Z.lor THREAD_INTERRUPTED THREAD_RESTARTSYS))) 0))
      (cur s) th (set_intr (set_sflags th (clr (sflags th) (Z.lor THREAD_INTERRUPTED THREAD_RESTARTSYS))) 0) v_pending I) as [I1 V]; try done.
    + by eapply retag_inv; [apply I|..].
    + by apply (s_noexit _ I _ _ Ht).
    + intros _. unfold v_pending, view. simpl. rewrite E. rewrite !(isset_clr_other _ _ THREAD_DO_SLEEP),
        (isset_clr_other _ _ THREAD_INTERRUPTABLE), isset_clr_same by done. done.
  - destruct (put_views s s (cur s) th th v_pending I (s_inv _ I)) as [_ V]; try done.
    + by rewrite insert_id.
    + by apply (s_noexit _ I _ _ Ht).
    + intros _. unfold v_pending. simpl. by rewrite E.
Qed.

Definition v_interrupt (v : tview) : tview :=
  if negb (v_intr v) && v_able v then View false false true false else View (asleep v) (v_able v) true (v_do v).

(** An interrupt wakes a thread that sleeps interruptably. *)
Lemma interrupt_views s t th p i (restart : bool) : sinv s -> threads s !! t = Some th -> 0 <= p <= 6 ->
  exists s' ipi, sched_interrupt s true t p i (if restart then THREAD_RESTARTSYS else 0) = Done (s', ipi) /\
    sinv s' /\ cur s' = cur s /\ views s s' (v_at t v_interrupt) /\ parked s s'.
Proof.
  intros I Ht Hp. unfold sched_interrupt. rewrite Ht. cbn [deref rbind].
  set (fl := if restart then THREAD_RESTARTSYS else 0).
  assert (Hfl : isset fl THREAD_DO_SLEEP = false /\ isset fl THREAD_INTERRUPTABLE = false) by (by destruct restart).
  assert (H : exists s1 ipi th1, (if negb (isset (sflags th) THREAD_INTERRUPTED) && isset (sflags th) THREAD_INTERRUPTABLE
      then sched_wakeup_thread s true t p else Done (s, false)) = Done (s1, ipi) /\ sinv s1 /\ cur s1 = cur s /\
      idle s1 = idle s /\ threads s1 !! t = Some th1 /\
      views s s1 (v_at t (fun v => if negb (v_intr v) && v_able v then v_wake v else v)) /\ parked s s1).
  { destruct (negb (isset (sflags th) THREAD_INTERRUPTED) && isset (sflags th) THREAD_INTERRUPTABLE) eqn:E.
    - destruct (wake_views s t th p I Ht Hp) as (s1 & ipi & E1 & I1 & Ec & (Ei & Hdom & V) & P).
      assert (Hin : t ∈ dom (threads s1)) by (rewrite Hdom; by apply elem_of_dom_2 in Ht).
      apply elem_of_dom in Hin as [th1 Hth1]. exists s1, ipi, th1. split_and!; try done. split_and!; [done|done|].
      intros u x Hu Hi. destruct (V u x Hu Hi) as (y & Hy & Ev). exists y. split; [done|]. rewrite Ev. unfold v_at.
      case_decide; [|done]. subst u. assert (y = th) by congruence. subst y. simpl. by rewrite E.
    - exists s, false, th. split_and!; try done; [|apply parked_refl]. split_and!; [done|done|]. intros u x Hu Hi. exists x.
      split; [done|]. unfold v_at. case_decide; [|done]. subst u. assert (x = th) by congruence. subst x. simpl. by rewrite E. }
  destruct H as (s1 & ipi & th1 & -> & I1 & Ec & Ei & Ht1 & (Ei1 & Hdom & V) & P). cbn [rbind]. rewrite Ht1. cbn [deref rbind].
  set (th2 := set_sflags _ _). eexists _, _. split; [done|].
  assert (Hv2 : t <> idle s1 -> view th2 = (fun v => View (asleep v) (v_able v) true (v_do v)) (view th1)).
  { intros _. unfold view, th2. simpl. rewrite !isset_lor. destruct Hfl as [-> ->]. simpl. by rewrite !orb_false_r, !orb_true_r. }
  destruct (put_views s1 (put s1 t th2) t th1 th2 (fun v => View (asleep v) (v_able v) true (v_do v)) I1) as [I2 V2]; try done.
  - by eapply retag_inv; [apply I1|..].
  - by apply (s_noexit _ I1 _ _ Ht1).
  - intros Hi. rewrite (Hv2 Hi). by apply (s_do _ I1 t th1).
  - split; [done|]. split; [done|]. split.
    2:{ apply (parked_trans s s1 _ P). by apply (parked_insert s1 _ t th1 th2 Ht1). }
    destruct V2 as (Ei2 & Hd2 & V2). split; [by rewrite Ei2|]. split; [by rewrite Hd2|].
    intros u x Hu Hi. destruct (V2 u x Hu) as (y & Hy & Ev); [by rewrite Ei|].
    destruct (V u y Hy Hi) as (z & Hz & Ev1). exists z. split; [done|]. rewrite Ev, Ev1. unfold v_at. case_decide; [|done].
    unfold v_interrupt, v_wake. by destruct (negb (v_intr (view z)) && v_able (view z)).
Qed.

(** [sched_interrupted] reads the flag. *)
Lemma interrupted_run s th fl st : sinv s -> sched st = s -> threads s !! cur s = Some th ->
  v_able (view th) = false ->
  exists r, interrupted st fl = Done r /\
    (r <? 0) = isset fl WAIT_INTERRUPTABLE && v_intr (view th) /\ ((r <? 0) = false -> r = 0).
Proof.
  intros I Es Ht Ha. unfold interrupted, sched_interrupted. rewrite Es, Ht. simpl in *. rewrite Ha.
  destruct (isset fl WAIT_INTERRUPTABLE); [|by exists 0]. simpl.
  destruct (isset (sflags th) THREAD_INTERRUPTED); [|by exists 0]. eexists. split; [reflexivity|].
  by destruct (isset (sflags th) THREAD_RESTARTSYS).
Qed.

(** ** The invariant *)

Definition pc_waiter (p : wpc) : option Z :=
  match p with Running => None | Entered _ w _ _ | Sleeping _ w _ _ | Woken _ w _ _ => Some w end.
(** The thread has announced that it sleeps. *)
Definition sleeper (p : wpc) : option Z :=
  match p with Sleeping _ w _ _ | Woken _ w _ _ => Some w | _ => None end.

Definition mine (g : world) (t wq w fl : Z) (tmo : option Z) : Prop :=
  held g !! w = Some wq /\ owner g w = Some t /\ (tmo <> None -> isset fl WAIT_INTERRUPTABLE = true).

(** A thread that sleeps can be woken up; a thread that does not has a reason. *)
Definition sleep_ok (g : world) (w fl : Z) (tmo : option Z) (v : tview) : Prop :=
  exists fv, thread_flags (sys g) !! w = Some fv /\ isset fv WAIT_SLEEP = true /\
    (is_Some (timers (sys g) !! w) <-> tmo <> None) /\
    if asleep v
    then isset fv WAIT_DONE = false /\ v_able v = isset fl WAIT_INTERRUPTABLE /\
         (v_able v = true -> v_intr v = false) /\ (forall x, timers (sys g) !! w = Some x -> tdone x = false)
    else v_able v = false /\
         (isset fv WAIT_DONE = true \/ (isset fl WAIT_INTERRUPTABLE = true /\ v_intr v = true) \/
          exists x, timers (sys g) !! w = Some x /\ tdone x = true).

Definition thread_ok (g : world) (t : Z) (v : tview) (p : wpc) : Prop :=
  match p with
  | Running => asleep v = false /\ v_able v = false
  | Entered wq w fl tmo => asleep v = false /\ v_able v = false /\ mine g t wq w fl tmo /\ timers (sys g) !! w = None
  | Sleeping wq w fl tmo => mine g t wq w fl tmo /\ sleep_ok g w fl tmo v
  | Woken wq w fl tmo => mine g t wq w fl tmo /\ sleep_ok g w fl tmo v /\ v_do v = false
  end.

(** A waiter is on its queue until it is woken up. *)
Record qinv (g : world) : Prop := {
  q_queue wq q : queues (sys g) !! wq = Some q -> NoDup q /\ forall w, w ∈ q ->
    held g !! w = Some wq /\ exists v, thread_flags (sys g) !! w = Some v /\ isset v WAIT_DONE = false;
  q_held w wq : held g !! w = Some wq -> exists q v p, queues (sys g) !! wq = Some q /\
    thread_flags (sys g) !! w = Some v /\ pcs g !! waiter_thread v = Some p /\
    (isset v WAIT_DONE = false -> w ∈ q) /\ (isset v WAIT_SLEEP = true -> sleeper p = Some w);
  q_timer w x : timers (sys g) !! w = Some x -> (exists wq, held g !! w = Some wq) /\
    (exists v p, thread_flags (sys g) !! w = Some v /\ pcs g !! waiter_thread v = Some p /\ sleeper p = Some w) /\
    (tdone x = true -> ttime x <= now (sys g));
}.

Record tinv (g : world) : Prop := {
  t_pc t p : pcs g !! t = Some p -> t <> idle (sched (sys g)) /\ waiter_flags t = 0 /\
    exists th, threads (sched (sys g)) !! t = Some th /\ thread_ok g t (view th) p;
  t_all t th : threads (sched (sys g)) !! t = Some th -> t <> idle (sched (sys g)) -> is_Some (pcs g !! t);
}.

Record winv (g : world) : Prop := { w_s : sinv (sched (sys g)); w_t : tinv g; w_q : qinv g }.

Lemma thread_ok_frame g g' t v p : thread_ok g t v p ->
  (forall w, pc_waiter p = Some w -> held g' !! w = held g !! w /\
     thread_flags (sys g') !! w = thread_flags (sys g) !! w /\ timers (sys g') !! w = timers (sys g) !! w) ->
  thread_ok g' t v p.
Proof.
  intros H F. destruct p as [|wq w fl tmo|wq w fl tmo|wq w fl tmo]; simpl in *; [done|..];
    unfold mine, sleep_ok, owner in *; destruct (F w eq_refl) as (-> & -> & ->); done.
Qed.

(** A step of thread [t], which also changes the views of the threads. *)
Lemma winv_upd g g' t p' f : winv g -> sinv (sched (sys g')) ->
  views (sched (sys g)) (sched (sys g')) f -> pcs g' = <[t := p']> (pcs g) -> is_Some (pcs g !! t) ->
  (forall u p th, u <> t -> pcs g !! u = Some p -> threads (sched (sys g)) !! u = Some th ->
     thread_ok g u (view th) p -> thread_ok g' u (f u (view th)) p) ->
  (forall th, threads (sched (sys g)) !! t = Some th -> thread_ok g' t (f t (view th)) p') ->
  qinv g' -> winv g'.
Proof.
  intros I S (Ei & Hd & V) Ep [p0 Hp0] Ho Ht Q. split; [done| |done].
  assert (Hth : forall u p, pcs g !! u = Some p -> u <> idle (sched (sys g)) /\ waiter_flags u = 0 /\
    exists th th', threads (sched (sys g)) !! u = Some th /\ thread_ok g u (view th) p /\
      threads (sched (sys g')) !! u = Some th' /\ view th' = f u (view th)).
  { intros u p Hp. destruct (t_pc _ (w_t _ I) u p Hp) as (Hi & Hf & th & Hth & Hok). split; [done|]. split; [done|].
    assert (Hu : u ∈ dom (threads (sched (sys g')))) by (rewrite Hd; by apply elem_of_dom_2 in Hth).
    apply elem_of_dom in Hu as [th' Hth']. destruct (V u th' Hth' Hi) as (y & Hy & Ev). assert (y = th) by congruence.
    subst y. by exists th, th'. }
  split; rewrite Ep, Ei.
  - intros u p Hu. apply lookup_insert_Some in Hu as [[<- <-]|[Hne Hu]].
    + destruct (Hth t p0 Hp0) as (Hi & Hf & th & th' & H1 & _ & H3 & H4). split_and!; [done|done|].
      exists th'. rewrite H4. auto.
    + destruct (Hth u p Hu) as (Hi & Hf & th & th' & H1 & H2 & H3 & H4). split_and!; [done|done|].
      exists th'. rewrite H4. split; [done|]. by apply Ho.
  - intros u th' Hu Hi. destruct (V u th' Hu Hi) as (th & Hth0 & _).
    destruct (t_all _ (w_t _ I) u th Hth0 Hi) as [p Hp]. rewrite lookup_insert_is_Some. destruct (decide (t = u)); [by left|right; eauto].
Qed.

(** A step that moves no thread. *)
Lemma winv_stay g g' f : winv g -> sinv (sched (sys g')) ->
  views (sched (sys g)) (sched (sys g')) f -> pcs g' = pcs g ->
  (forall u p th, pcs g !! u = Some p -> threads (sched (sys g)) !! u = Some th ->
     thread_ok g u (view th) p -> thread_ok g' u (f u (view th)) p) ->
  qinv g' -> winv g'.
Proof.
  intros I S V Ep Ho Q. destruct (map_choose_or_empty (pcs g)) as [(t & p & Hp)|E].
  - apply (winv_upd g g' t p f I S V); [by rewrite Ep, insert_id|eauto|by intros; eapply Ho| |done].
    intros th Hth. apply (Ho t p th Hp Hth). destruct (t_pc _ (w_t _ I) t p Hp) as (_ & _ & y & Hy & ?). congruence.
  - destruct V as (Ei & Hd & V). split; [done| |done]. split; rewrite Ep, E.
    + intros t p Hp. done.
    + intros t th Ht Hi. rewrite Ei in Hi. destruct (V t th Ht Hi) as (y & Hy & _).
      destruct (t_all _ (w_t _ I) t y Hy Hi) as [p Hp]. by rewrite E in Hp.
Qed.

Lemma views_refl s : views s s (fun _ v => v).
Proof. split; [done|]. split; [done|]. eauto. Qed.

(** ** Flags of a waiter *)

Lemma aligned_thread t : waiter_flags t = 0 ->
  waiter_thread t = t /\ isset t WAIT_DONE = false /\ isset t WAIT_SLEEP = false.
Proof.
  intros H. unfold waiter_flags in H. split_and!.
  - unfold waiter_thread. rewrite <- Z.ldiff_land. rewrite <- (Z.lor_ldiff_and t WAIT_FLAGS) at 2. by rewrite H, Z.lor_0_r.
  - unfold isset. replace (Z.land t WAIT_DONE) with (Z.land (Z.land t WAIT_FLAGS) WAIT_DONE); [by rewrite H|].
    by rewrite <- Z.land_assoc.
  - unfold isset. replace (Z.land t WAIT_SLEEP) with (Z.land (Z.land t WAIT_FLAGS) WAIT_SLEEP); [by rewrite H|].
    by rewrite <- Z.land_assoc.
Qed.

Lemma waiter_thread_lor v f : Z.land f (Z.lnot WAIT_FLAGS) = 0 -> waiter_thread (Z.lor v f) = waiter_thread v.
Proof. intros H. unfold waiter_thread. by rewrite Z.land_lor_distr_l, H, Z.lor_0_r. Qed.

Lemma flag_done v : isset (Z.lor v WAIT_DONE) WAIT_DONE = true /\ isset (Z.lor v WAIT_DONE) WAIT_SLEEP = isset v WAIT_SLEEP.
Proof. rewrite !isset_lor. by rewrite orb_true_r, orb_false_r. Qed.

Lemma flag_sleep v : isset (Z.lor v WAIT_SLEEP) WAIT_SLEEP = true /\ isset (Z.lor v WAIT_SLEEP) WAIT_DONE = isset v WAIT_DONE.
Proof. rewrite !isset_lor. by rewrite orb_true_r, orb_false_r. Qed.

(** ** Queues *)

(** Removing [w] from all queues. *)
Definition without (w : Z) (m : gmap Z (list Z)) : gmap Z (list Z) := filter (fun x => x <> w) <$> m.

Lemma filter_absent (w : Z) (q : list Z) : w ∉ q -> filter (fun x => x <> w) q = q.
Proof.
  induction q as [|x q IH]; intros Hw; [done|]. apply not_elem_of_cons in Hw as [Hx Hq].
  rewrite filter_cons_True by congruence. by rewrite IH.
Qed.

Lemma without_insert g wq q w : qinv g -> queues (sys g) !! wq = Some q -> held g !! w = Some wq ->
  <[wq := filter (fun x => x <> w) q]> (queues (sys g)) = without w (queues (sys g)).
Proof.
  intros Q Hq Hw. apply map_eq. intros k. unfold without. rewrite lookup_fmap.
  destruct (decide (k = wq)) as [->|Hne]; [by rewrite lookup_insert_eq, Hq|].
  rewrite lookup_insert_ne by done. destruct (queues (sys g) !! k) as [r|] eqn:Hr; [|done]. simpl. f_equal.
  symmetry. apply filter_absent. intros Hin. destruct (q_queue _ Q k r Hr) as [_ H]. destruct (H w Hin). congruence.
Qed.

Lemma without_absent g w wq v : qinv g -> held g !! w = Some wq -> thread_flags (sys g) !! w = Some v ->
  isset v WAIT_DONE = true -> without w (queues (sys g)) = queues (sys g).
Proof.
  intros Q Hw Hv Hd. apply map_eq. intros k. unfold without. rewrite lookup_fmap.
  destruct (queues (sys g) !! k) as [r|] eqn:Hr; [|done]. simpl. f_equal. apply filter_absent. intros Hin.
  destruct (q_queue _ Q k r Hr) as [_ H]. destruct (H w Hin) as (_ & x & Hx & ?). congruence.
Qed.

Lemma without_lookup w m k r : without w m !! k = Some r ->
  exists q, m !! k = Some q /\ r = filter (fun x => x <> w) q.
Proof. unfold without. rewrite lookup_fmap, fmap_Some. naive_solver. Qed.

Lemma wait_abort_gen g st wq w : qinv g -> held g !! w = Some wq ->
  queues st = queues (sys g) -> thread_flags st = thread_flags (sys g) ->
  wait_abort st wq w = Done (MkWsys (sched st) (without w (queues (sys g))) (thread_flags st) (timers st) (now st)).
Proof.
  intros Q Hw Eq Ef. destruct (q_held _ Q w wq Hw) as (q & v & p & Hq & Hv & _ & Hin & _).
  unfold wait_abort. rewrite Ef, Hv. cbn [deref rbind]. destruct (isset v WAIT_DONE) eqn:Hd; cbn [negb].
  - rewrite (without_absent g w wq v Q Hw Hv Hd), <- Eq, <- Ef. by destruct st.
  - unfold waitq_remove. rewrite Eq, Hq. cbn [deref rbind]. rewrite bool_decide_true by auto.
    unfold with_queue. by rewrite Eq, Ef, (without_insert g wq q w Q Hq Hw).
Qed.

Lemma wait_abort_run g wq w : qinv g -> held g !! w = Some wq ->
  wait_abort (sys g) wq w = Done (MkWsys (sched (sys g)) (without w (queues (sys g))) (thread_flags (sys g)) (timers (sys g)) (now (sys g))).
Proof. intros Q Hw. by apply wait_abort_gen. Qed.

(** The waiter [w] of thread [t] is given up. *)
Lemma q_leave g g' t w wq v p : qinv g -> held g !! w = Some wq -> thread_flags (sys g) !! w = Some v ->
  pcs g !! t = Some p -> (forall w', sleeper p = Some w' -> w' = w) ->
  pcs g' = <[t := Running]> (pcs g) -> held g' = delete w (held g) ->
  thread_flags (sys g') = thread_flags (sys g) -> queues (sys g') = without w (queues (sys g)) ->
  timers (sys g') = delete w (timers (sys g)) -> now (sys g') = now (sys g) -> qinv g'.
Proof.
  intros Q Hw Hv Hp Hs Ep Eh Ef Eq Et En. split; rewrite ?Ep, ?Eh, ?Ef, ?Eq, ?Et, ?En.
  - intros k r Hr. apply without_lookup in Hr as (q & Hq & ->). destruct (q_queue _ Q k q Hq) as [Hnd H].
    split; [by apply NoDup_filter|]. intros x [Hx Hin]%list_elem_of_filter. destruct (H x Hin) as [H1 H2].
    by rewrite lookup_delete_ne by congruence.
  - intros x k Hx. apply lookup_delete_Some in Hx as [Hne Hx].
    destruct (q_held _ Q x k Hx) as (q & u & r & Hq & Hu & Hr & Hin & Hsl).
    exists (filter (fun y => y <> w) q), u. unfold without. rewrite lookup_fmap, Hq.
    destruct (decide (waiter_thread u = t)) as [E|E].
    + rewrite E in Hr. exists Running. rewrite E, lookup_insert_eq. split_and!; try done.
      * intros Hd. apply list_elem_of_filter. split; [congruence|auto].
      * intros Hss. assert (r = p) by congruence. subst r. by specialize (Hs x (Hsl Hss)).
    + exists r. rewrite lookup_insert_ne by congruence. split_and!; try done.
      intros Hd. apply list_elem_of_filter. split; [congruence|auto].
  - intros x y Hy. apply lookup_delete_Some in Hy as [Hne Hy].
    destruct (q_timer _ Q x y Hy) as ([k Hk] & (u & r & Hu & Hr & Hsl) & Hd).
    split; [exists k; by rewrite lookup_delete_ne by congruence|]. split; [|done]. exists u, r.
    split; [done|]. split; [|done]. rewrite lookup_insert_ne; [done|]. intros E. rewrite <- E in Hr.
    assert (r = p) by congruence. subst r. by specialize (Hs x Hsl).
Qed.

Lemma q_move g g' t p p' : qinv g -> pcs g !! t = Some p -> (sleeper p = None \/ sleeper p' = sleeper p) ->
  pcs g' = <[t := p']> (pcs g) -> held g' = held g ->
  thread_flags (sys g') = thread_flags (sys g) -> queues (sys g') = queues (sys g) ->
  timers (sys g') = timers (sys g) -> now (sys g) <= now (sys g') -> qinv g'.
Proof.
  intros Q Hp Hs Ep Eh Ef Eq Et En.
  assert (Hpc : forall u r x, pcs g !! u = Some r -> sleeper r = Some x ->
    exists r', <[t := p']> (pcs g) !! u = Some r' /\ sleeper r' = Some x).
  { intros u r x Hr Hx. destruct (decide (u = t)) as [->|Hne]; [|exists r; by rewrite lookup_insert_ne by congruence].
    exists p'. rewrite lookup_insert_eq. split; [done|]. assert (r = p) by congruence. subst r. destruct Hs; congruence. }
  assert (Hsome : forall u, is_Some (pcs g !! u) -> is_Some (<[t := p']> (pcs g) !! u)).
  { intros u [r Hr]. rewrite lookup_insert_is_Some. destruct (decide (t = u)); [by left|right; eauto]. }
  split; rewrite ?Ep, ?Eh, ?Ef, ?Eq, ?Et.
  - apply (q_queue _ Q).
  - intros x k Hx. destruct (q_held _ Q x k Hx) as (q & u & r & Hq & Hu & Hr & Hin & Hsl).
    destruct (isset u WAIT_SLEEP) eqn:E.
    + destruct (Hpc _ _ _ Hr (Hsl eq_refl)) as (r' & Hr' & Hx'). exists q, u, r'. by rewrite E.
    + destruct (Hsome (waiter_thread u)) as [r' Hr']; [eauto|]. exists q, u, r'. by rewrite E.
  - intros x y Hy. destruct (q_timer _ Q x y Hy) as (Hk & (u & r & Hu & Hr & Hsl) & Hd). split; [done|].
    destruct (Hpc _ _ _ Hr Hsl) as (r' & ? & ?). split; [eauto|]. intros Hdone. specialize (Hd Hdone). lia.
Qed.

(** ** Events keep the invariant *)

(** [upd g t p f]: the goal's world comes from [g] by a step of [t] to [p];
    [stay g f]: no thread moves. *)
Ltac upd g t p f := match goal with |- winv ?g' => apply (winv_upd g g' t p f) end.
Ltac stay g f := match goal with |- winv ?g' => apply (winv_stay g g' f) end.

Lemma run_thread g p : winv g -> pcs g !! cur (sched (sys g)) = Some p ->
  cur (sched (sys g)) <> idle (sched (sys g)) /\ waiter_flags (cur (sched (sys g))) = 0 /\
  exists th, threads (sched (sys g)) !! cur (sched (sys g)) = Some th /\ state th = THREAD_RUNNING /\
    thread_ok g (cur (sched (sys g))) (view th) p.
Proof.
  intros I Hp. destruct (t_pc _ (w_t _ I) _ p Hp) as (Hi & Hf & th & Ht & Hok). split_and!; [done|done|].
  destruct (cur_running _ (w_s _ I) Hi) as (y & Hy & Hst). assert (y = th) by congruence. subst y. eauto.
Qed.

(** Other threads have other waiters. *)
Lemma other_waiter g u t p th w : thread_ok g u (view th) p -> owner g w = Some t -> u <> t -> pc_waiter p <> Some w.
Proof.
  intros H Ho Hne. destruct p; simpl in *; try done;
    [destruct H as (_ & _ & (_ & Ho' & _) & _)|destruct H as ((_ & Ho' & _) & _)|destruct H as ((_ & Ho' & _) & _)];
    intros [= ->]; congruence.
Qed.

Lemma no_timer g w wq v p : qinv g -> held g !! w = Some wq -> thread_flags (sys g) !! w = Some v ->
  pcs g !! waiter_thread v = Some p -> sleeper p <> Some w -> timers (sys g) !! w = None.
Proof.
  intros Q Hw Hv Hp Hs. destruct (timers (sys g) !! w) as [x|] eqn:E; [|done].
  destruct (q_timer _ Q w x E) as (_ & (v' & p' & Hv' & Hp' & Hs') & _).
  assert (v' = v) by congruence. subst v'. congruence.
Qed.

Lemma leave_inv g t w wq v p th : winv g -> t = cur (sched (sys g)) -> held g !! w = Some wq ->
  thread_flags (sys g) !! w = Some v -> waiter_thread v = t -> pcs g !! t = Some p ->
  (forall w', sleeper p = Some w' -> w' = w) ->
  threads (sched (sys g)) !! t = Some th -> asleep (view th) = false -> v_able (view th) = false ->
  winv (leave g (MkWsys (sched (sys g)) (without w (queues (sys g))) (thread_flags (sys g))
                   (delete w (timers (sys g))) (now (sys g))) t w).
Proof.
  intros I Et Hw Hv Hvt Hp Hs Hth Ha Hb.
  upd g t Running (fun (_ : Z) (v : tview) => v); [done|apply I|apply views_refl|done|eauto| | |].
  - intros u r y Hne Hu Hy Hok. apply (thread_ok_frame g); [done|]. intros x Hx.
    assert (Ho : owner g w = Some t) by (unfold owner; by rewrite Hv; simpl; f_equal).
    pose proof (other_waiter g u t r y w Hok Ho Hne). simpl. rewrite !lookup_delete_ne by congruence. done.
  - intros y Hy. assert (y = th) by congruence. subst y. done.
  - by apply (q_leave g _ t w wq v p (w_q _ I)).
Qed.

Lemma ev_prep g wq w : winv g -> enabled g (EPrep wq w) = true ->
  exists g', wevent_run g (EPrep wq w) = Done g' /\ winv g'.
Proof.
  intros I He. unfold enabled in He. bool_props. destruct H0 as [q Hq].
  destruct (run_thread g Running I) as (Hi & Hf & th & Hth & Hst & Hok); [done|].
  set (t := cur (sched (sys g))) in *. pose proof (w_q _ I) as Q.
  assert (Hfree : forall k r, queues (sys g) !! k = Some r -> w ∉ r).
  { intros k r Hr Hin. destruct (q_queue _ Q k r Hr) as [_ H3]. destruct (H3 w Hin). congruence. }
  destruct (aligned_thread t Hf) as (Et & Hd & Hs).
  unfold wevent_run, wait_prep, waitq_append. cbn [with_flags sched]. fold t. rewrite Hf. cbn [Z.eqb].
  cbn [with_flags queues]. rewrite Hq. cbn [deref rbind].
  assert (Hins : inserted (with_flags (sys g) w t) w = false).
  { apply bool_decide_eq_false. intros (k & r & Hr & Hin). by apply (Hfree k r). }
  rewrite Hins. cbn [negb rbind]. eexists. split; [done|].
  assert (Hne : forall x k, held g !! x = Some k -> x <> w) by congruence.
  stay g (fun (_ : Z) (v : tview) => v); [done|apply I|apply views_refl|done| |].
  - intros u p y Hu Hy Hoku. apply (thread_ok_frame g); [done|]. intros x Hx. simpl.
    assert (x <> w). { destruct p; simplify_eq/=; destruct_and!; unfold mine in *; naive_solver. }
    by rewrite !lookup_insert_ne by congruence.
  - split; simpl.
    + intros k r Hr. apply lookup_insert_Some in Hr as [[<- <-]|[Hk Hr]].
      * destruct (q_queue _ Q wq q Hq) as [Hnd Hall]. split.
        { apply NoDup_app. split; [done|]. split; [|apply NoDup_singleton]. intros x Hx ->%list_elem_of_singleton. by apply (Hfree wq q). }
        intros x [Hx| ->%list_elem_of_singleton]%elem_of_app; [|rewrite !lookup_insert_eq; eauto].
        destruct (Hall x Hx) as [Hx1 Hx2]. rewrite !lookup_insert_ne by (intros ->; by apply (Hfree wq q)). done.
      * destruct (q_queue _ Q k r Hr) as [Hnd Hall]. split; [done|]. intros x Hx.
        rewrite !lookup_insert_ne by (intros ->; by apply (Hfree k r)). by apply Hall.
    + intros x k Hx. apply lookup_insert_Some in Hx as [[<- <-]|[Hk Hx]].
      * rewrite !lookup_insert_eq. eexists _, _, Running. split_and!; try done.
        { by rewrite Et. } { intros _. apply elem_of_app. right. by apply list_elem_of_singleton. } { by rewrite Hs. }
      * destruct (q_held _ Q x k Hx) as (r & v & p & Hr & Hv & Hp & Hin & Hsl).
        rewrite (lookup_insert_ne (thread_flags (sys g))) by done.
        destruct (decide (wq = k)) as [<-|Hwk]; [|rewrite lookup_insert_ne by done; by exists r, v, p].
        rewrite lookup_insert_eq. exists (q ++ [w]), v, p. split_and!; try done. intros Hdn. apply elem_of_app. left.
        assert (r = q) by congruence. subst r. auto.
    + intros x y Hy. destruct (q_timer _ Q x y Hy) as ([k Hk] & Hv & Hdn).
      rewrite !lookup_insert_ne by (symmetry; by apply (Hne x k)). split; [eauto|]. done.
Qed.

Lemma ev_abort g w : winv g -> enabled g (EAbort w) = true ->
  exists g', wevent_run g (EAbort w) = Done g' /\ winv g'.
Proof.
  intros I He. unfold enabled in He. bool_props. destruct H1 as [wq Hwq].
  destruct (run_thread g Running I) as (Hi & Hf & th & Hth & Hst & Hok); [done|].
  unfold wevent_run. rewrite Hwq. cbn [deref rbind]. rewrite (wait_abort_run g wq w (w_q _ I) Hwq). cbn [rbind].
  destruct (q_held _ (w_q _ I) w wq Hwq) as (q & v & p & Hq & Hv & Hp & _).
  assert (Ev : waiter_thread v = cur (sched (sys g))) by (unfold owner in H0; rewrite Hv in H0; by injection H0).
  rewrite Ev in Hp. assert (p = Running) by congruence. subst p.
  eexists. split; [done|]. rewrite <- (delete_id (timers (sys g)) w).
  - by apply (leave_inv g _ w wq v Running th); try done; destruct Hok.
  - apply (no_timer g w wq v Running (w_q _ I)); [done|done|by rewrite Ev|done].
Qed.

Lemma ev_sleep g w fl tmo z : winv g -> enabled g (ESleep w fl tmo z) = true ->
  exists g', wevent_run g (ESleep w fl tmo z) = Done g' /\ winv g'.
Proof.
  intros I He. unfold enabled in He. apply andb_true_iff in He as [He Htm]. bool_props. destruct H1 as [wq Hwq].
  destruct (run_thread g Running I) as (Hi & Hf & th & Hth & Hst & Ha & Hb); [done|].
  destruct (q_held _ (w_q _ I) w wq Hwq) as (q & v & p & Hq & Hv & Hp & _).
  assert (Ev : waiter_thread v = cur (sched (sys g))) by (unfold owner in H0; rewrite Hv in H0; by injection H0).
  rewrite Ev in Hp. assert (p = Running) by congruence. subst p.
  assert (Hnt : timers (sys g) !! w = None).
  { apply (no_timer g w wq v Running (w_q _ I)); [done|done|by rewrite Ev|done]. }
  assert (Htm2 : match tmo with Some _ => isset fl WAIT_INTERRUPTABLE | None => true end = true)
    by (destruct tmo; [by apply andb_true_iff in Htm as [? _]|done]).
  unfold wevent_run. rewrite Hwq. cbn [deref rbind]. unfold sleep_enter. rewrite Htm2.
  destruct (interrupted_run _ th fl (sys g) (w_s _ I) eq_refl Hth Hb) as (r & -> & _ & _). cbn [rbind].
  destruct (r <? 0).
  - rewrite (wait_abort_run g wq w (w_q _ I) Hwq). cbn [rbind].
    assert (match tmo with Some _ => z | None => true end = true) as ->
      by (destruct tmo; [by apply andb_true_iff in Htm as [_ ?]|done]).
    cbn [rbind]. eexists. split; [done|]. rewrite <- (delete_id (timers (sys g)) w) by done.
    by apply (leave_inv g _ w wq v Running th).
  - cbn [rbind]. eexists. split; [done|].
    upd g (cur (sched (sys g))) (Entered wq w fl tmo) (fun (_ : Z) (v : tview) => v);
      [done|apply I|apply views_refl|done|eauto| | |].
    + intros u r0 y _ _ _ Hok. by apply (thread_ok_frame g).
    + intros y Hy. assert (y = th) by congruence. subst y. split_and!; try done. by destruct tmo.
    + apply (q_move g _ (cur (sched (sys g))) Running (Entered wq w fl tmo) (w_q _ I)); try done. by left.
Qed.

(** The scheduler alone. *)
Lemma sched_only g s' f : winv g -> sinv s' -> views (sched (sys g)) s' f ->
  (forall u p th, pcs g !! u = Some p -> threads (sched (sys g)) !! u = Some th ->
     thread_ok g u (view th) p -> thread_ok g u (f u (view th)) p) ->
  winv (with_sys g (with_sched (sys g) s')).
Proof.
  intros I S V Ho. stay g f; [done|done|done|done| |].
  - intros u p th Hu Hth Hok. apply (thread_ok_frame g); [by apply Ho|done].
  - destruct (w_q _ I). by split.
Qed.

Lemma thread_ok_sched g t v p : thread_ok g t v p -> thread_ok g t (v_sched v) p.
Proof. destruct p; simpl; [done|done|done|]. intros (? & ? & _). done. Qed.

Lemma ev_preempt g : winv g -> exists g', wevent_run g EPreempt = Done g' /\ winv g'.
Proof.
  intros I. destruct (schedule_views _ (w_s _ I)) as (s' & E & S & V).
  simpl. unfold on_sched. rewrite E. cbn [rbind]. eexists. split; [done|].
  apply (sched_only g s' (fun _ => v_sched)); [done|done|done|]. intros. by apply thread_ok_sched.
Qed.

Lemma ev_pending g : winv g -> enabled g EPending = true ->
  exists g', wevent_run g EPending = Done g' /\ winv g'.
Proof.
  intros I He. unfold enabled in He. bool_props.
  destruct (run_thread g Running I) as (Hi & Hf & th & Hth & Hst & Hok); [done|].
  destruct (pending_views _ th (w_s _ I) Hth) as (i & s' & E & S & Ec & V).
  simpl. unfold on_sched. rewrite E. cbn [rbind]. eexists. split; [done|].
  eapply (sched_only g s'); [done|done|done|]. intros u p y Hu Hy Hoku. unfold v_at. case_decide as Eu; [|done].
  subst u. assert (p = Running) by congruence. subst p. unfold v_pending. by case_match.
Qed.

Lemma thread_ok_interrupt g t v p : thread_ok g t v p -> thread_ok g t (v_interrupt v) p.
Proof.
  intros H. unfold v_interrupt. destruct v as [a b i d]. simpl.
  assert (Hs : forall w fl tmo, sleep_ok g w fl tmo (View a b i d) ->
    sleep_ok g w fl tmo (if negb i && b then View false false true false else View a b true d)).
  { intros w fl tmo (fv & Hfv & Hss & Htm & Hc). exists fv. split_and!; try done.
    destruct a, b, i; simpl in *; destruct_and?; try done; split_and!; try done; naive_solver. }
  destruct p; simpl in *.
  - destruct H as [-> ->]. by rewrite andb_false_r.
  - destruct H as (-> & -> & H). by rewrite andb_false_r.
  - destruct H as [? ?]. split; [done|]. by apply Hs.
  - destruct H as (? & ? & ->). split; [done|]. split; [by apply Hs|]. by case_match.
Qed.

Lemma ev_interrupt g t p i r : winv g -> enabled g (EInterrupt t p i r) = true ->
  exists g', wevent_run g (EInterrupt t p i r) = Done g' /\ winv g'.
Proof.
  intros I He. unfold enabled in He. apply andb_true_iff in He as [He Hp1]. apply andb_true_iff in He as [He Hp0].
  apply bool_decide_eq_true in He as [th Hth].
  destruct (interrupt_views _ t th p i r (w_s _ I) Hth ltac:(lia)) as (s' & ipi & E & S & Ec & V & _).
  simpl. unfold on_sched. rewrite E. cbn [rbind]. eexists. split; [done|].
  eapply (sched_only g s'); [done|done|done|]. intros u q y Hu Hy Hoku. unfold v_at. case_decide; [|done].
  by apply thread_ok_interrupt.
Qed.

Lemma ev_tick g d : winv g -> enabled g (ETick d) = true -> exists g', wevent_run g (ETick d) = Done g' /\ winv g'.
Proof.
  intros I He. simpl in *. apply Z.leb_le in He. eexists. split; [done|].
  stay g (fun (_ : Z) (v : tview) => v); [done|apply I|apply views_refl|done| |].
  - intros u p th _ _ Hok. by apply (thread_ok_frame g).
  - destruct (w_q _ I) as [Q1 Q2 Q3]. split; [done|done|]. intros w x Hx. destruct (Q3 w x Hx) as (? & ? & Hd).
    split_and!; try done. simpl. intros Hdn. specialize (Hd Hdn). lia.
Qed.

(** The timer of a waiter runs out. *)
Lemma ev_timer g w : winv g -> enabled g (ETimer w) = true -> exists g', wevent_run g (ETimer w) = Done g' /\ winv g'.
Proof.
  intros I He. unfold enabled in He. destruct (timers (sys g) !! w) as [x|] eqn:Hx; [|done]. bool_props.
  pose proof (w_q _ I) as Q. destruct (q_timer _ Q w x Hx) as ([wq Hwq] & (v & p & Hv & Hp & Hs) & _).
  destruct (t_pc _ (w_t _ I) _ p Hp) as (Hi & _ & th & Hth & Hok).
  destruct (wake_views _ _ th SCHED_NORMAL (w_s _ I) Hth) as (s' & ipi & E & S & Ec & V & _); [by vm_compute|].
  unfold wevent_run. rewrite Hx. cbn [deref rbind]. unfold wait_timeout. rewrite Hv. cbn [deref rbind].
  unfold sched_wakeup. rewrite E. cbn [rbind]. eexists. split; [done|].
  stay g (v_at (waiter_thread v) v_wake); [done|done|done|done| |].
  - intros u q y Hu Hy Hoku. unfold v_at. case_decide as Eu.
    + subst u. assert (q = p) by congruence. subst q.
      assert (Hgo : forall fl tmo, sleep_ok g w fl tmo (view y) ->
        sleep_ok (with_sys g (with_timers (with_sched (sys g) s') (<[w := MkTimer (ttime x) true]> (timers (sys g))))) w fl tmo (v_wake (view y))).
      { intros fl tmo (fv & Hfv & Hss & Htm & _). exists fv. simpl. rewrite lookup_insert_eq. split_and!; try done.
        - rewrite <- Htm. by rewrite Hx.
        - right. right. eauto. }
      destruct p; simpl in Hs; simplify_eq; simpl in *; destruct_and!; split_and!; auto.
    + apply (thread_ok_frame g); [done|]. intros x0 Hx0. simpl. split_and!; try done. apply lookup_insert_ne. intros <-.
      apply (other_waiter g u (waiter_thread v) q y w Hoku); [unfold owner; by rewrite Hv|done|done].
  - split; simpl; [apply Q|apply Q|]. intros w' x' Hx'. apply lookup_insert_Some in Hx' as [[<- <-]|[_ Hx']]; [|by apply Q].
    split_and!; [eauto|by exists v, p|done].
Qed.

Lemma q_wake g g' w wq v : qinv g -> held g !! w = Some wq -> thread_flags (sys g) !! w = Some v ->
  pcs g' = pcs g -> held g' = held g -> timers (sys g') = timers (sys g) -> now (sys g') = now (sys g) ->
  queues (sys g') = without w (queues (sys g)) ->
  thread_flags (sys g') = <[w := Z.lor v WAIT_DONE]> (thread_flags (sys g)) -> qinv g'.
Proof.
  intros Q Hw Hv Ep Eh Et En Eq Ef. split; rewrite ?Ep, ?Eh, ?Et, ?En, ?Eq, ?Ef.
  - intros k r Hr. apply without_lookup in Hr as (q & Hq & ->). destruct (q_queue _ Q k q Hq) as [Hnd H].
    split; [by apply NoDup_filter|]. intros x [Hx Hin]%list_elem_of_filter. rewrite lookup_insert_ne by congruence. by apply H.
  - intros x k Hx. destruct (q_held _ Q x k Hx) as (q & u & r & Hq & Hu & Hr & Hin & Hsl).
    exists (filter (fun y => y <> w) q). unfold without. rewrite lookup_fmap, Hq. destruct (decide (x = w)) as [->|Hne].
    + assert (u = v) by congruence. subst u. exists (Z.lor v WAIT_DONE), r. rewrite lookup_insert_eq, waiter_thread_lor by done.
      destruct (flag_done v) as [-> ->]. by split_and!.
    + exists u, r. rewrite lookup_insert_ne by done. split_and!; try done.
      intros Hd. apply list_elem_of_filter. auto.
  - intros x y Hy. destruct (q_timer _ Q x y Hy) as (Hk & (u & r & Hu & Hr & Hsl) & Hd). split_and!; try done.
    destruct (decide (x = w)) as [->|Hne]; [|exists u, r; by rewrite lookup_insert_ne].
    assert (u = v) by congruence. subst u. exists (Z.lor v WAIT_DONE), r.
    by rewrite lookup_insert_eq, waiter_thread_lor.
Qed.

(** The waiter's thread has been told. *)
Lemma thread_ok_done g g' w v t p th : thread_ok g t (view th) p -> thread_flags (sys g) !! w = Some v ->
  waiter_thread v = t -> isset v WAIT_DONE = false -> (isset v WAIT_SLEEP = true -> sleeper p = Some w) ->
  held g' = held g -> timers (sys g') = timers (sys g) ->
  thread_flags (sys g') = <[w := Z.lor v WAIT_DONE]> (thread_flags (sys g)) ->
  thread_ok g' t (if isset v WAIT_SLEEP then v_wake (view th) else view th) p.
Proof.
  intros Hok Hv Ev Hd Hs Eh Et Ef. destruct (isset v WAIT_SLEEP) eqn:E.
  - specialize (Hs eq_refl).
    assert (Hgo : forall wq fl tmo, mine g t wq w fl tmo -> sleep_ok g w fl tmo (view th) ->
      mine g' t wq w fl tmo /\ sleep_ok g' w fl tmo (v_wake (view th))).
    { intros wq fl tmo Hm (fv & Hfv & Hss & Htm & _). assert (fv = v) by congruence. subst fv.
      unfold mine, owner, sleep_ok in *. rewrite Eh, Et, Ef, lookup_insert_eq. simpl.
      rewrite waiter_thread_lor by done. rewrite Hv in Hm. split; [done|]. exists (Z.lor v WAIT_DONE).
      destruct (flag_done v) as [-> ->]. split_and!; try done. by left. }
    destruct p; simpl in Hs; simplify_eq; simpl in *; destruct_and!; split_and!; try done; by eapply Hgo.
  - destruct (decide (pc_waiter p = Some w)) as [Hp|Hp].
    + assert (Hex : exists wq fl tmo, p = Entered wq w fl tmo).
      { destruct p as [|wq x fl tmo|wq x fl tmo|wq x fl tmo]; simpl in Hp; simplify_eq; [eauto|..]; simpl in Hok;
          [destruct Hok as [_ (fv & Hfv & Hss & _)]|destruct Hok as (_ & (fv & Hfv & Hss & _) & _)]; congruence. }
      destruct Hex as (wq & fl & tmo & ->). simpl in *. destruct Hok as (Ha & Hb & Hm & Hnt). rewrite Et.
      split_and!; try done. unfold mine, owner in *. rewrite Eh, Ef, lookup_insert_eq. simpl.
      rewrite waiter_thread_lor by done. by rewrite Hv in Hm.
    + apply (thread_ok_frame g); [done|]. intros x Hx. rewrite Eh, Et, Ef. by rewrite lookup_insert_ne by congruence.
Qed.

Lemma wakeup_waiter_ok g wq q w p : winv g -> queues (sys g) !! wq = Some q -> w ∈ q -> 0 <= p <= 6 ->
  exists st, wakeup_waiter (sys g) wq w p = Done st /\ winv (with_sys g st) /\
    queues st = without w (queues (sys g)) /\
    (forall x, x <> w -> thread_flags st !! x = thread_flags (sys g) !! x) /\
    (exists v, thread_flags st !! w = Some v /\ isset v WAIT_DONE = true) /\ parked (sched (sys g)) (sched st).
Proof.
  intros I Hq Hw Hp. pose proof (w_q _ I) as Q. destruct (q_queue _ Q wq q Hq) as [_ Hall].
  destruct (Hall w Hw) as (Hwq & v & Hv & Hd).
  destruct (q_held _ Q w wq Hwq) as (q' & v' & pc & Hq' & Hv' & Hpc & _ & Hs).
  assert (v' = v) by congruence. subst v'. destruct (t_pc _ (w_t _ I) _ pc Hpc) as (_ & _ & th & Hth & Hok).
  unfold wakeup_waiter. rewrite Hv. cbn [deref rbind]. rewrite Hd. cbn [negb]. unfold waitq_remove. rewrite Hq.
  cbn [deref rbind]. rewrite bool_decide_true by done. cbn [rbind].
  destruct (flag_done v) as [Hd1 Hs1]. rewrite Hs1, waiter_thread_lor by done.
  unfold with_queue. rewrite (without_insert g wq q w Q Hq Hwq).
  set (st0 := with_flags _ _ _).
  assert (Hst : exists st, (if isset v WAIT_SLEEP then sched_wakeup st0 (waiter_thread v) p else Done st0) = Done st /\
    sinv (sched st) /\ views (sched (sys g)) (sched st) (v_at (waiter_thread v) (fun x => if isset v WAIT_SLEEP then v_wake x else x)) /\
    queues st = queues st0 /\ thread_flags st = thread_flags st0 /\ timers st = timers st0 /\ now st = now st0 /\ parked (sched (sys g)) (sched st)).
  { destruct (isset v WAIT_SLEEP).
    - destruct (wake_views _ _ th p (w_s _ I) Hth Hp) as (s' & ipi & E & S & Ec & V & P).
      unfold sched_wakeup. unfold st0 at 1. cbn [with_flags sched]. rewrite E. cbn [rbind]. eexists. split; [done|]. by split_and!.
    - exists st0. split_and!; try done; [apply I| |apply parked_refl]. destruct (views_refl (sched (sys g))) as (? & ? & V). split_and!; try done.
      intros u y Hy Hi. exists y. split; [done|]. unfold v_at. by case_decide. }
  destruct Hst as (st & -> & S & V & Eq & Ef & Et & En & P). exists st. split; [done|]. split; [|split; [done|]].
  - stay g (v_at (waiter_thread v) (fun x => if isset v WAIT_SLEEP then v_wake x else x)); [done|done|done|done| |].
    + intros u r y Hu Hy Hoku. unfold v_at. case_decide as Eu.
      * subst u. assert (r = pc) by congruence. subst r.
        by apply (thread_ok_done g _ w v (waiter_thread v) pc y).
      * apply (thread_ok_frame g); [done|]. intros x Hx. simpl. rewrite Ef, Et. split_and!; try done.
        apply lookup_insert_ne. intros <-. apply (other_waiter g u (waiter_thread v) r y w Hoku); [unfold owner; by rewrite Hv|done|done].
    + by apply (q_wake g _ w wq v).
  - rewrite Ef. split; [intros x Hx; by apply lookup_insert_ne|]. split; [|done]. exists (Z.lor v WAIT_DONE).
    split; [apply lookup_insert_eq|done].
Qed.

(** The first [num] waiters of the queue are told, in order. *)
Lemma wakeup_loop_ok l : forall g wq p i num, winv g -> queues (sys g) !! wq = Some l ->
  0 <= p <= 6 -> 0 <= i <= num -> num < 2 ^ 32 ->
  exists st, wakeup_loop l i num (sys g) wq p = Done st /\ winv (with_sys g st) /\
    queues st !! wq = Some (drop (Z.to_nat (num - i)) l) /\
    (forall w, w ∈ take (Z.to_nat (num - i)) l -> exists v, thread_flags st !! w = Some v /\ isset v WAIT_DONE = true) /\
    (forall w, w ∉ take (Z.to_nat (num - i)) l -> thread_flags st !! w = thread_flags (sys g) !! w) /\
    parked (sched (sys g)) (sched st).
Proof.
  induction l as [|w l IH]; intros g wq p i num I Hq Hp Hi Hn; cbn [wakeup_loop].
  { exists (sys g). rewrite drop_nil, take_nil. split_and!; try done; [by destruct g| |apply parked_refl].
    intros w Hw. by apply not_elem_of_nil in Hw. }
  destruct (Z.eqb_spec i num) as [E|E].
  { exists (sys g). rewrite E, Z.sub_diag. cbn [Z.to_nat take drop]. split_and!; try done; [by destruct g| |apply parked_refl].
    intros x Hx. by apply not_elem_of_nil in Hx. }
  destruct (q_queue _ (w_q _ I) wq _ Hq) as [Hnd _]. apply NoDup_cons in Hnd as [Hw Hnd].
  destruct (wakeup_waiter_ok g wq _ w p I Hq) as (st & -> & I' & Eq & Hsame & Hdone & P); [constructor|done|].
  cbn [rbind]. rewrite u32_small by lia.
  destruct (IH (with_sys g st) wq p (i + 1) num I') as (st' & E' & I'' & Hq' & Hd' & Hs' & P'); [|done|lia|done|].
  { simpl. rewrite Eq. unfold without. rewrite lookup_fmap, Hq. simpl. f_equal.
    rewrite filter_cons_False by auto. by apply filter_absent. }
  exists st'. replace (Z.to_nat (num - i)) with (S (Z.to_nat (num - (i + 1)))) by lia. cbn [take drop].
  split; [exact E'|]. split; [done|]. split; [done|].
  assert (Hwt : w ∉ take (Z.to_nat (num - (i + 1))) l) by (by intros Hx%subseteq_take).
  split; [|split; [|by apply (parked_trans _ _ _ P)]].
  - intros x Hx. apply elem_of_cons in Hx as [->|Hx]; [|by apply Hd']. by rewrite (Hs' w Hwt).
  - intros x Hx. apply not_elem_of_cons in Hx as [Hne Hx]. rewrite (Hs' x Hx). by apply Hsame.
Qed.

Lemma wakeup_num_ok g wq p num l : winv g -> queues (sys g) !! wq = Some l -> 0 <= p <= 6 -> 0 <= num < 2 ^ 32 ->
  exists st, wakeup_num (sys g) wq p num = Done st /\ winv (with_sys g st) /\
    queues st !! wq = Some (drop (Z.to_nat num) l) /\
    (forall w, w ∈ take (Z.to_nat num) l -> exists v, thread_flags st !! w = Some v /\ isset v WAIT_DONE = true) /\
    (forall w, w ∉ take (Z.to_nat num) l -> thread_flags st !! w = thread_flags (sys g) !! w) /\
    parked (sched (sys g)) (sched st).
Proof.
  intros I Hq Hp Hn. unfold wakeup_num. rewrite Hq. cbn [deref rbind].
  destruct (wakeup_loop_ok l g wq p 0 num I Hq Hp) as (st & E & H); [lia|lia|]. rewrite Z.sub_0_r in H. by exists st.
Qed.

Lemma ev_wakeup g wq p num : winv g -> enabled g (EWakeup wq p num) = true ->
  exists g', wevent_run g (EWakeup wq p num) = Done g' /\ winv g'.
Proof.
  intros I He. unfold enabled in He. bool_props.
  match goal with H : is_Some _ |- _ => destruct H as [q Hq] end.
  destruct (wakeup_num_ok g wq p num q I Hq) as (st & E & I' & _); [lia|lia|].
  unfold wevent_run. rewrite E. cbn [rbind]. eauto.
Qed.

(** The waiter [w] of thread [t] is announced as sleeping. *)
Lemma q_prepare g g' t wq w fl tmo v q : qinv g -> held g !! w = Some wq -> queues (sys g) !! wq = Some q ->
  pcs g !! t = Some (Entered wq w fl tmo) -> thread_flags (sys g) !! w = Some v -> waiter_thread v = t ->
  isset v WAIT_DONE = false ->
  pcs g' = <[t := Sleeping wq w fl tmo]> (pcs g) -> held g' = held g ->
  queues (sys g') = queues (sys g) -> now (sys g') = now (sys g) ->
  thread_flags (sys g') = <[w := Z.lor v WAIT_SLEEP]> (thread_flags (sys g)) ->
  (forall x, x <> w -> timers (sys g') !! x = timers (sys g) !! x) ->
  timers (sys g') !! w = match tmo with Some ns => Some (MkTimer (ns + now (sys g)) false) | None => None end ->
  qinv g'.
Proof.
  intros Q Hwq Hq Hp Hv Ev Hd Ep Eh Eq En Ef Et Etw. destruct (flag_sleep v) as [Hs1 Hd1].
  split; rewrite ?Ep, ?Eh, ?Eq, ?En, ?Ef.
  - intros k r Hr. destruct (q_queue _ Q k r Hr) as [Hnd H]. split; [done|]. intros x Hx. destruct (H x Hx) as [H1 (u & Hu & Hud)].
    split; [done|]. destruct (decide (x = w)) as [->|Hne]; [|rewrite lookup_insert_ne by done; eauto].
    rewrite lookup_insert_eq. eexists. split; [done|]. congruence.
  - intros x k Hx. destruct (q_held _ Q x k Hx) as (r & u & p & Hr & Hu & Hpu & Hinu & Hslu).
    destruct (decide (x = w)) as [->|Hne].
    + assert (u = v) by congruence. subst u. exists r, (Z.lor v WAIT_SLEEP), (Sleeping wq w fl tmo).
      rewrite lookup_insert_eq, waiter_thread_lor, Ev, lookup_insert_eq by done. split_and!; try done. auto.
    + rewrite lookup_insert_ne by done. exists r, u. destruct (decide (waiter_thread u = t)) as [E1|E1].
      { rewrite E1 in Hpu. exists (Sleeping wq w fl tmo). rewrite E1, lookup_insert_eq. split_and!; try done.
        intros Hss. specialize (Hslu Hss). assert (p = Entered wq w fl tmo) by congruence. by subst p. }
      { exists p. by rewrite lookup_insert_ne by congruence. }
  - intros x y Hy. destruct (decide (x = w)) as [->|Hne].
    + split; [eauto|]. rewrite Etw in Hy. destruct tmo as [ns|]; [|done]. injection Hy as <-. split; [|done].
      exists (Z.lor v WAIT_SLEEP), (Sleeping wq w fl (Some ns)).
      by rewrite lookup_insert_eq, waiter_thread_lor, Ev, lookup_insert_eq by done.
    + rewrite Et in Hy by done. destruct (q_timer _ Q x y Hy) as (Hk & (u & p & Hu & Hpu & Hslu) & Hdn).
      split_and!; try done. exists u, p. rewrite lookup_insert_ne by done. split_and!; try done.
      rewrite lookup_insert_ne; [done|]. intros E1. rewrite <- E1 in Hpu. assert (p = Entered wq w fl tmo) by congruence. by subst p.
Qed.

(** The critical section. *)
Lemma step_entered g wq w fl tmo : winv g ->
  pcs g !! cur (sched (sys g)) = Some (Entered wq w fl tmo) -> exists g', wevent_run g EStep = Done g' /\ winv g'.
Proof.
  intros I Hp. pose proof (w_q _ I) as Q. destruct (run_thread g _ I Hp) as (Hi & Hf & th & Hth & Hst & Ha & Hb & Hm & Hnt).
  pose proof Hm as (Hwq & Ho & Htmo). set (t := cur (sched (sys g))) in *.
  destruct (q_held _ Q w wq Hwq) as (q & v & p & Hq & Hv & Hpc & Hin & Hsl).
  assert (Ev : waiter_thread v = t) by (unfold owner in Ho; rewrite Hv in Ho; by injection Ho).
  rewrite Ev in Hpc. assert (p = Entered wq w fl tmo) by congruence. subst p.
  unfold wevent_run. fold t. rewrite Hp. cbn [deref rbind]. unfold sleep_prepare. rewrite Hv. cbn [deref rbind].
  destruct (isset v WAIT_DONE) eqn:Hd; cbn [rbind].
  { eexists. split; [done|].
    pose proof (leave_inv g t w wq v (Entered wq w fl tmo) th I eq_refl Hwq Hv Ev Hp ltac:(done) Hth Ha Hb) as L.
    rewrite (without_absent g w wq v Q Hwq Hv Hd), delete_id in L by done. by destruct (sys g). }
  destruct (flag_sleep v) as [Hs1 Hd1].
  destruct (inactive_views _ th (isset fl WAIT_INTERRUPTABLE) (w_s _ I) Hth Hi Hb) as (s' & E & S & Ec & V).
  cbn [with_flags sched]. rewrite E. cbn [rbind]. eexists. split; [done|].
  set (st := match tmo with Some _ => _ | None => _ end).
  assert (Hsys : sched st = s' /\ queues st = queues (sys g) /\ now st = now (sys g) /\
    thread_flags st = <[w := Z.lor v WAIT_SLEEP]> (thread_flags (sys g)) /\
    (forall x, x <> w -> timers st !! x = timers (sys g) !! x) /\
    (timers st !! w = match tmo with Some ns => Some (MkTimer (ns + now (sys g)) false) | None => None end)).
  { unfold st. destruct tmo; simpl; split_and!; try done; [intros; by apply lookup_insert_ne|apply lookup_insert_eq]. }
  clearbody st. destruct Hsys as (Es & Eq & En & Ef & Et & Etw).
  upd g t (Sleeping wq w fl tmo) (v_at t (v_inactive (isset fl WAIT_INTERRUPTABLE)));
    [done|by rewrite <- Es in S|by rewrite <- Es in V|done|eauto| | |].
  - intros u r y Hne Hu Hy Hok. unfold v_at. rewrite decide_False by done. apply (thread_ok_frame g); [done|].
    intros x Hx. assert (x <> w) by (intros ->; by apply (other_waiter g u t r y w Hok Ho)).
    simpl. rewrite Ef, Et, lookup_insert_ne by congruence. done.
  - intros y Hy. assert (y = th) by congruence. subst y. unfold v_at. rewrite decide_True by done.
    split; [split_and!; [done| |done]; unfold owner; simpl; rewrite Ef, lookup_insert_eq; simpl; f_equal; by rewrite waiter_thread_lor|].
    exists (Z.lor v WAIT_SLEEP). simpl. rewrite Ef, lookup_insert_eq, Etw, Hs1, Hd1. split_and!; try done.
    { destruct tmo; split; intros; try done; by destruct H. }
    unfold v_inactive. destruct (isset fl WAIT_INTERRUPTABLE && v_intr (view th)) eqn:Eb.
    + rewrite Ha. split; [done|]. right. left. by apply andb_true_iff in Eb.
    + simpl. split_and!; try done; [intros Hb2; by rewrite Hb2 in Eb|]. intros x. destruct tmo; [by intros [= <-]|done].
  - by apply (q_prepare g _ t wq w fl tmo v q).
Qed.

(** The switch. *)
Lemma step_sleeping g wq w fl tmo : winv g ->
  pcs g !! cur (sched (sys g)) = Some (Sleeping wq w fl tmo) -> exists g', wevent_run g EStep = Done g' /\ winv g'.
Proof.
  intros I Hp. destruct (run_thread g _ I Hp) as (Hi & Hf & th & Hth & Hst & Hm & Hs).
  destruct (schedule_views _ (w_s _ I)) as (s' & E & S & V).
  unfold wevent_run. rewrite Hp. cbn [deref rbind]. rewrite E. cbn [rbind]. eexists. split; [done|].
  upd g (cur (sched (sys g))) (Woken wq w fl tmo) (fun _ : Z => v_sched); [done|done|done|done|eauto| | |].
  - intros u r y _ _ _ Hok. apply (thread_ok_frame g); [by apply thread_ok_sched|done].
  - intros y Hy. assert (y = th) by congruence. by subst y.
  - apply (q_move g _ (cur (sched (sys g))) (Sleeping wq w fl tmo) (Woken wq w fl tmo) (w_q _ I)); try done. by right.
Qed.

(** Leaving: the thread runs, so it is not asleep and has a reason. *)
Lemma finish_run g wq w fl tmo : winv g ->
  pcs g !! cur (sched (sys g)) = Some (Woken wq w fl tmo) ->
  exists r rem, sleep_finish (sys g) wq w fl tmo = Done (r, rem,
      MkWsys (sched (sys g)) (if bool_decide (r = 0) then queues (sys g) else without w (queues (sys g)))
        (thread_flags (sys g)) (delete w (timers (sys g))) (now (sys g))) /\
    (r = 0 -> exists v, thread_flags (sys g) !! w = Some v /\ isset v WAIT_DONE = true).
Proof.
  intros I Hp. destruct (run_thread g _ I Hp) as (Hi & Hf & th & Hth & Hst & (Hwq & Ho & Htmo) & (v & Hv & Hss & Htm & Hc) & Hdo).
  assert (Ha : asleep (view th) = false) by (simpl in *; by rewrite Hst, Hdo). rewrite Ha in Hc. destruct Hc as [Hb Hc].
  pose proof (w_q _ I) as Q. unfold sleep_finish.
  set (tm' := match tmo with Some _ => match timers (sys g) !! w with Some x => <[w := MkTimer (ttime x) true]> (timers (sys g)) | None => timers (sys g) end
              | None => timers (sys g) end).
  set (g1 := with_sys g (with_timers (sys g) tm')).
  assert (Hab : wait_abort (sys g1) wq w = Done (MkWsys (sched (sys g)) (without w (queues (sys g))) (thread_flags (sys g)) tm' (now (sys g)))).
  { by apply (wait_abort_gen g (sys g1)). }
  assert (Hds : (match tmo with Some _ => delete w tm' | None => tm' end) = delete w (timers (sys g)) /\
    forall st, timers st = tm' -> match tmo with Some _ => timer_destroy st w | None => Done st end =
      Done (with_timers st (delete w (timers (sys g))))).
  { unfold tm', timer_destroy. destruct tmo as [ns|].
    - destruct (proj2 Htm) as [x Hx]; [done|]. rewrite Hx. split; [by rewrite delete_insert_eq|].
      intros st Est. rewrite Est, lookup_insert_eq. simpl. by rewrite delete_insert_eq.
    - assert (timers (sys g) !! w = None) as Hn by (destruct (timers (sys g) !! w) eqn:E; [destruct Htm as [Htm _]; by destruct Htm|done]).
      rewrite delete_id by done. split; [done|]. intros st <-. by destruct st. }
  destruct Hds as [_ Hds].
  assert (Hstop : exists rem, match tmo with Some _ => let* '(r, st) := timer_stop (sys g) w in Done (Some r, st) | None => Done (None, sys g) end
      = Done (rem, sys g1) /\ (rem <> Some 0 -> forall x, timers (sys g) !! w = Some x -> tdone x = false)).
  { unfold g1, tm'. destruct tmo as [ns|].
    - destruct (proj2 Htm) as [x Hx]; [done|]. unfold timer_stop. rewrite Hx. cbn [deref rbind]. eexists. split; [done|].
      intros Hr y [= <-]. destruct (tdone x) eqn:Ed; [|done]. destruct (q_timer _ Q w x Hx) as (_ & _ & Hle). specialize (Hle Ed).
      destruct (Z.leb_spec (ttime x) (now (sys g))); [done|lia].
    - exists None. split; [simpl; by destruct (sys g)|]. intros _ x Hx. destruct Htm as [Htm _]. destruct Htm; [eauto|done]. }
  destruct Hstop as (rem & -> & Hnd). cbn [rbind].
  destruct (bool_decide_reflect (rem = Some 0)) as [Er|Er].
  { rewrite Hab. cbn [rbind]. rewrite Hds by done. cbn [rbind]. by exists (- ETIMEDOUT), rem. }
  destruct (interrupted_run _ th fl (sys g1) (w_s _ I) eq_refl Hth Hb) as (r & -> & Hr & Hr0). cbn [rbind].
  destruct (Z.ltb_spec r 0).
  - rewrite Hab. cbn [rbind]. rewrite Hds by done. cbn [rbind]. exists r, rem. rewrite bool_decide_false by lia. split; [done|lia].
  - simpl thread_flags. rewrite Hv. cbn [deref rbind].
    assert (Hdn : isset v WAIT_DONE = true).
    { destruct Hc as [?|[[H1 H2]|(x & Hx & Hxd)]]; [done|by rewrite H1, H2 in Hr|]. by rewrite (Hnd Er x Hx) in Hxd. }
    rewrite Hdn. cbn [rbind]. rewrite Hds by done. cbn [rbind]. exists r, rem. rewrite (Hr0 eq_refl). split; [done|]. eauto.
Qed.

Lemma step_woken g wq w fl tmo : winv g ->
  pcs g !! cur (sched (sys g)) = Some (Woken wq w fl tmo) -> exists g', wevent_run g EStep = Done g' /\ winv g'.
Proof.
  intros I Hp. destruct (finish_run g wq w fl tmo I Hp) as (r & rem & E & Hr).
  destruct (run_thread g _ I Hp) as (Hi & Hf & th & Hth & Hst & (Hwq & Ho & Htmo) & (v & Hv & Hss & Htm & Hc) & Hdo).
  assert (Ha : asleep (view th) = false) by (simpl in *; by rewrite Hst, Hdo). rewrite Ha in Hc. destruct Hc as [Hb Hc].
  assert (Ev : waiter_thread v = cur (sched (sys g))) by (unfold owner in Ho; rewrite Hv in Ho; by injection Ho).
  unfold wevent_run. rewrite Hp. cbn [deref rbind]. rewrite E. cbn [rbind]. eexists. split; [done|].
  assert (Eq : (if bool_decide (r = 0) then queues (sys g) else without w (queues (sys g))) = without w (queues (sys g))).
  { case_bool_decide as E0; [|done]. destruct (Hr E0) as (v' & Hv' & Hd). by rewrite (without_absent g w wq v' (w_q _ I) Hwq Hv' Hd). }
  rewrite Eq. apply (leave_inv g _ w wq v (Woken wq w fl tmo) th); try done. by intros w' [= ->].
Qed.

(** Every event that can happen succeeds and keeps the invariant. *)
Lemma wevent_ok g e : winv g -> enabled g e = true -> exists g', wevent_run g e = Done g' /\ winv g'.
Proof.
  intros I He. destruct e.
  - by apply ev_prep.
  - by apply ev_abort.
  - by apply ev_sleep.
  - unfold enabled in He. apply andb_true_iff in He as [H1 H2]. apply bool_decide_eq_true in H1 as [p Hp].
    destruct p; [by rewrite Hp in H2|by eapply step_entered|by eapply step_sleeping|by eapply step_woken].
  - by apply ev_preempt.
  - by apply ev_pending.
  - by apply ev_wakeup.
  - by apply ev_timer.
  - by apply ev_interrupt.
  - by apply ev_tick.
Qed.

(** ** Theorems *)

(** At the start all threads run or can run, and nobody waits. *)
Record initial (g : world) : Prop := {
  i_s : sinv (sched (sys g));
  i_pc t p : pcs g !! t = Some p -> p = Running /\ t <> idle (sched (sys g)) /\ waiter_flags t = 0 /\
    exists th, threads (sched (sys g)) !! t = Some th /\ asleep (view th) = false /\ v_able (view th) = false;
  i_all t th : threads (sched (sys g)) !! t = Some th -> t <> idle (sched (sys g)) -> is_Some (pcs g !! t);
  i_queue wq q : queues (sys g) !! wq = Some q -> q = [];
  i_held : held g = ∅;
  i_timers : timers (sys g) = ∅;
}.

Lemma initial_inv g : initial g -> winv g.
Proof.
  intros I. split; [apply I|split; [|apply I]|split].
  - intros t p Hp. destruct (i_pc _ I t p Hp) as (-> & Hi & Hf & th & Hth & Ha). eauto.
  - intros wq q Hq. rewrite (i_queue _ I wq q Hq). split; [apply NoDup_nil_2|]. intros w Hw. by apply not_elem_of_nil in Hw.
  - intros w wq Hw. by rewrite (i_held _ I) in Hw.
  - intros w x Hx. by rewrite (i_timers _ I) in Hx.
Qed.

Lemma reach_winv g0 g : initial g0 -> rtc wstep g0 g -> winv g.
Proof.
  intros I H. apply (rtc_invariant wstep winv g0 g H); [by apply initial_inv|].
  intros x y Ix [e He E]. destruct (wevent_ok x e Ix He) as (z & Ez & Iz). congruence.
Qed.


Lemma now_runnable g t wq w fl tmo p th : winv g -> pcs g !! t = Some p ->
  p = Sleeping wq w fl tmo \/ p = Woken wq w fl tmo ->
  threads (sched (sys g)) !! t = Some th -> is_parked th ->
  (exists v, thread_flags (sys g) !! w = Some v /\ isset v WAIT_DONE = true) \/ v_able (view th) = false /\ isset fl WAIT_INTERRUPTABLE = true ->
  t ∈ queued (sched (sys g)).
Proof.
  intros I Hp Hpc Hth Hpk Hr. destruct (t_pc _ (w_t _ I) t p Hp) as (_ & _ & y & Hy & Hok).
  assert (y = th) by congruence. subst y.
  assert (Hs : sleep_ok g w fl tmo (view th)) by (destruct Hpc as [->| ->]; apply Hok).
  destruct Hs as (fv & Hfv & _ & _ & Hc).
  apply (k_runnable _ (k_base _ (s_inv _ (w_s _ I))) t th Hth).
  destruct Hpk as [Hsl|?]; [|done]. assert (Ha : asleep (view th) = true) by (simpl; by rewrite Hsl).
  rewrite Ha in Hc. destruct Hc as (Hd & Hab & _). destruct Hr as [(v & Hv & ?)|[? ?]]; congruence.
Qed.

(** C15: No wakeup is lost.  A thread that sleeps in [wait_sleep_timeout] is on
    its wait queue at some position [k], with its timer running if it has a
    timeout.  Waking up more than [k] waiters of the queue puts it into the run
    queue; so does an interrupt if it sleeps interruptably, and its timer. *)
Theorem wait_no_lost_wakeup g0 g t wq w fl tmo p th : initial g0 -> rtc wstep g0 g ->
  pcs g !! t = Some p -> p = Sleeping wq w fl tmo \/ p = Woken wq w fl tmo ->
  threads (sched (sys g)) !! t = Some th -> state th = THREAD_SLEEP ->
  exists q (k : nat), queues (sys g) !! wq = Some q /\ q !! k = Some w /\
    (forall pr num, 0 <= pr <= 6 -> Z.of_nat k < num < 2 ^ 32 ->
       exists g', wevent_run g (EWakeup wq pr num) = Done g' /\ t ∈ queued (sched (sys g'))) /\
    (isset fl WAIT_INTERRUPTABLE = true -> forall pr i r, 0 <= pr <= 6 ->
       exists g', wevent_run g (EInterrupt t pr i r) = Done g' /\ t ∈ queued (sched (sys g'))) /\
    (tmo <> None -> exists x, timers (sys g) !! w = Some x /\ tdone x = false).
Proof.
  intros I0 Hr Hp Hpc Hth Hst. pose proof (reach_winv g0 g I0 Hr) as I. pose proof (w_q _ I) as Q.
  destruct (t_pc _ (w_t _ I) t p Hp) as (Hi & _ & y & Hy & Hok). assert (y = th) by congruence. subst y.
  assert (Hm : mine g t wq w fl tmo /\ sleep_ok g w fl tmo (view th)) by (destruct Hpc as [->| ->]; split; apply Hok).
  destruct Hm as [(Hwq & Ho & _) (fv & Hfv & _ & Htm & Hc)].
  assert (Ha : asleep (view th) = true) by (simpl; by rewrite Hst). rewrite Ha in Hc. destruct Hc as (Hd & Hab & Hai & Htd).
  destruct (q_held _ Q w wq Hwq) as (q & v & p' & Hq & Hv & _ & Hin & _). assert (v = fv) by congruence. subst v.
  destruct (list_elem_of_lookup_1 _ _ (Hin Hd)) as [k Hk]. exists q, k. split; [done|]. split; [done|].
  assert (Hpk : is_parked th) by (by left). split_and!.
  - intros pr num Hpr Hn. destruct (wakeup_num_ok g wq pr num q I Hq Hpr) as (st & E & I' & _ & Hdn & _ & P); [lia|].
    unfold wevent_run. rewrite E. cbn [rbind]. eexists. split; [done|].
    destruct (P t th Hth Hpk) as (th' & Hth' & Hpk').
    apply (now_runnable (with_sys g st) t wq w fl tmo p th'); try done. left. apply Hdn. apply elem_of_take. exists k. split; [done|lia].
  - intros Hint pr i r Hpr. destruct (interrupt_views _ t th pr i r (w_s _ I) Hth Hpr) as (s' & ipi & E & S & Ec & V & P).
    destruct (ev_interrupt g t pr i r I) as (g' & E' & I'); [unfold enabled; rewrite Hth; rewrite bool_decide_true by done; lia|].
    exists g'. split; [done|]. simpl in E'. unfold on_sched in E'. rewrite E in E'. cbn [rbind] in E'. injection E' as <-.
    destruct (P t th Hth Hpk) as (th' & Hth' & Hpk').
    apply (now_runnable _ t wq w fl tmo p th' I'); try done. right. split; [|done].
    destruct V as (_ & _ & V). destruct (V t th' Hth' Hi) as (z & Hz & Ev). assert (z = th) by congruence. subst z.
    rewrite Ev. unfold v_at. rewrite decide_True by done. unfold v_interrupt. by rewrite Hai, Hab, Hint by (by rewrite Hab).
  - intros Ht. destruct (proj2 Htm Ht) as [x Hx]. exists x. auto.
Qed.

(** [wakeup_num] wakes up the first [num] waiters of a queue, which is first
    come, first served, and nobody else: the others stay on the queue in their
    order, with their flags as they were. *)
Theorem wakeup_num_fifo g0 g wq p num q : initial g0 -> rtc wstep g0 g -> queues (sys g) !! wq = Some q ->
  0 <= p <= 6 -> 0 <= num < 2 ^ 32 ->
  exists st, wakeup_num (sys g) wq p num = Done st /\ queues st !! wq = Some (drop (Z.to_nat num) q) /\
    (forall w, w ∈ take (Z.to_nat num) q -> exists v, thread_flags st !! w = Some v /\ isset v WAIT_DONE = true) /\
    (forall w, w ∉ take (Z.to_nat num) q -> thread_flags st !! w = thread_flags (sys g) !! w).
Proof.
  intros I Hr Hq Hp Hn. destruct (wakeup_num_ok g wq p num q (reach_winv g0 g I Hr) Hq Hp Hn) as (st & H1 & _ & H2 & H3 & H4 & _).
  by exists st.
Qed.

(** ** Examples *)

Fixpoint wevents (g : world) (es : list wevent) : res world :=
  match es with
  | [] => Done g
  | e :: es => if enabled g e then let* g := wevent_run g e in wevents g es else Stuck
  end.

Lemma wevents_rtc es : forall g g', wevents g es = Done g' -> rtc wstep g g'.
Proof.
  induction es as [|e es IH]; intros g g' E; simpl in E; [injection E as <-; constructor|].
  destruct (enabled g e) eqn:He; [|done]. apply rbind_Done in E as (g1 & E1 & E2).
  apply (rtc_l _ g g1); [by exists e|by apply IH].
Qed.

(** A processor with the idle thread 4, a thread 8 and a wait queue 100; the
    thread goes to sleep with the waiter 200. *)
Definition wex_start : world :=
  MkWorld (MkWsys (scheduler_init (MkSched 0 0 0 [] [] 0 0 false false None
             {[4 := ex_thread THREAD_SPAWNED; 8 := ex_thread THREAD_RUNNING]}) 4 8) {[100 := []]} ∅ ∅ 0)
    {[8 := Running]} ∅.
Definition wex_events : list wevent := [EPrep 100 200; ESleep 200 0 None false; EStep; EStep].
Definition wex_asleep : world := match wevents wex_start wex_events with Done g => g | _ => wex_start end.

Lemma wex_start_initial : initial wex_start.
Proof.
  assert (Hth : forall t th, threads (sched (sys wex_start)) !! t = Some th ->
    t = 4 /\ th = ex_thread THREAD_SPAWNED \/ t = 8 /\ th = ex_thread THREAD_RUNNING).
  { intros t th Ht. simpl in Ht. apply lookup_insert_Some in Ht as [[<- <-]|[_ Ht]]; [by left|].
    apply lookup_singleton_Some in Ht as [<- <-]. by right. }
  split; [split| | | |done|done].
  - apply scheduler_init_inv; try done; try (eexists; split; [vm_compute; reflexivity|done]).
    intros t th Ht. by destruct (Hth t th Ht) as [[-> ->]|[-> ->]].
  - intros t th Ht. by destruct (Hth t th Ht) as [[-> ->]|[-> ->]].
  - intros t th Ht Hi Hd. by destruct (Hth t th Ht) as [[-> ->]|[-> ->]].
  - intros t p Hp. simpl in Hp. apply lookup_singleton_Some in Hp as [<- <-]. split_and!; [done|done|done|].
    eexists. split; [vm_compute; reflexivity|done].
  - intros t th Ht Hi. by destruct (Hth t th Ht) as [[-> ->]|[-> ->]].
  - intros wq q Hq. simpl in Hq. by apply lookup_singleton_Some in Hq as [<- <-].
Qed.

Lemma wex_reach : rtc wstep wex_start wex_asleep.
Proof. apply (wevents_rtc wex_events). vm_compute. reflexivity. Qed.


Lemma wait_no_lost_wakeup_witness : exists q (k : nat), queues (sys wex_asleep) !! 100 = Some q /\ q !! k = Some 200 /\
  (forall pr num, 0 <= pr <= 6 -> Z.of_nat k < num < 2 ^ 32 ->
    exists g', wevent_run wex_asleep (EWakeup 100 pr num) = Done g' /\ 8 ∈ queued (sched (sys g'))).
Proof.
  destruct (threads (sched (sys wex_asleep)) !! 8) as [th|] eqn:E; [|vm_compute in E; discriminate E].
  destruct (wait_no_lost_wakeup wex_start wex_asleep 8 100 200 0 None (Woken 100 200 0 None) th wex_start_initial wex_reach)
    as (q & k & H1 & H2 & H3 & _).
  - vm_compute. reflexivity.
  - right. reflexivity.
  - exact E.
  - vm_compute in E. injection E as <-. reflexivity.
  - exists q, k. split; [exact H1|]. split; [exact H2|exact H3].
Defined.

Lemma wakeup_num_fifo_witness : exists st, wakeup_num (sys wex_asleep) 100 SCHED_IO 1 = Done st /\ queues st !! 100 = Some [].
Proof.
  destruct (wakeup_num_fifo wex_start wex_asleep 100 SCHED_IO 1 [200] wex_start_initial wex_reach) as (st & H1 & H2 & _).
  - vm_compute. reflexivity.
  - vm_compute. split; discriminate.
  - vm_compute. split; [discriminate|reflexivity].
  - exists st. split; [exact H1|exact H2].
Defined.

(** A thread that has a signal pending and sleeps with a timeout: the timer is
    destroyed without having been initialised, and the assertion that its list
    node is clear fails unless the stack happened to be zero there. *)
Lemma wait_timeout_uninitialised :
  exists g, wevents wex_start [EPrep 100 200; EInterrupt 8 SCHED_NORMAL 1 false] = Done g /\
    wevent_run g (ESleep 200 WAIT_INTERRUPTABLE (Some 1000) false) = Panic.
Proof.
  destruct (wevents wex_start [EPrep 100 200; EInterrupt 8 SCHED_NORMAL 1 false]) as [g| | |] eqn:E;
    [|vm_compute in E; discriminate E..].
  exists g. split; [done|]. vm_compute in E. injection E as <-. vm_compute. reflexivity.
Qed.
