(* ===== verification/Futex.v ===== *)
(** * kern/futex.c: waiting on the contents of an address

    [__kern_wait] puts the caller on the wait queue of an address if the address
    holds the expected value, and sleeps; [kern_wake] wakes some of those that
    wait for an address.  The queues are two hash tables, so a queue holds
    waiters of several addresses.

    Built on [Wait]: a queue is named by its index, the kernel's table before
    the user's table; [faddrs] holds the address of each waiter.  The value of
    the address is what [copyin_atomic] or [atomic_loadn] loaded; looking an
    address up in the address space is an argument ([vas_lookup]). *)
From stdpp Require Import base gmap list relations.
From Stdlib Require Import ZArith Lia.
From S2P Require Import Prelude Sched Interleave Wait.
Open Scope Z_scope.

Definition FHT_SIZE : Z := 1024.
Definition FHT_MASK : Z := FHT_SIZE - 1.
Definition FHT_SHIFT : Z := 8.
Definition FHT_HASH (x y : Z) : Z := Z.land (Z.lxor (Z.shiftr x FHT_SHIFT) y) FHT_MASK.
Definition FUTEX_SZ_MAX : Z := 8.

(** [pow2_p] of sys/pow2.h, on 32 bits. *)
Definition pow2_p (x : Z) : bool := negb (x =? 0) && (Z.land x (u32 (u32 (Z.lnot x) + 1)) =? x).

Definition KWAIT_USR : Z := 1.
Definition KWAIT_INTR : Z := 2.
Definition KWAIT_PRIV : Z := 4.

Record futex_addr_t := MkFaddr { fptr : Z; faddr : Z; fshared : bool }.
#[export] Instance futex_addr_eq_dec : EqDecision futex_addr_t.
Proof. solve_decision. Defined.

(** A mapping of an address space: where it is, its object and the offset. *)
Record vmap := MkMap { m_shared : bool; m_object : Z; m_offset : Z; m_addr : Z }.

Definition futex_waitq (a : futex_addr_t) (flags : Z) : Z :=
  let hash := FHT_HASH (faddr a) (fptr a) in
  if isset flags KWAIT_USR then FHT_SIZE + hash else hash.

Section Space.
(** The current address space, the kernel's, and [vm_vas_lookup]. *)
Context (vas kern_vas : Z) (vas_lookup : Z -> option vmap).

Definition futex_addr (addr flags : Z) : Z + futex_addr_t :=
  let private := inr (MkFaddr (if isset flags KWAIT_USR then vas else kern_vas) addr false) in
  if Z.land flags (Z.lor KWAIT_PRIV KWAIT_USR) =? KWAIT_USR then
    match vas_lookup addr with
    | None => inl (- EFAULT)
    | Some m =>
        if m_shared m then inr (MkFaddr (m_object m) (u64 (m_offset m + (addr - m_addr m))) true) else private
    end
  else private.

Definition futex_addr_cmp (a1 a2 : futex_addr_t) : bool :=
  Bool.eqb (fshared a1) (fshared a2) && (fptr a1 =? fptr a2) && (faddr a1 =? faddr a2).

(** [__kern_wait] until it sleeps: [None] if it will, the result otherwise. *)
Definition kern_wait_begin (st : wsys) (faddrs : gmap Z futex_addr_t) (w addr : Z) (val : list Z) (flags : Z)
    (loaded : Z * list Z) : res (option Z * wsys * gmap Z futex_addr_t) :=
  kassert pow2_p (Z.of_nat (length val)) in
  kassert Z.of_nat (length val) <=? FUTEX_SZ_MAX in
  match futex_addr addr flags with
  | inl err => Done (Some err, st, faddrs)
  | inr fa =>
      let waitq := futex_waitq fa flags in
      let* st := wait_prep st waitq w in
      let err := if isset flags KWAIT_USR then loaded.1 else 0 in
      let err := if err =? 0 then if bool_decide (loaded.2 = val) then 0 else - EAGAIN else err in
      if negb (err =? 0) then
        let* st := wait_abort st waitq w in Done (Some err, st, faddrs)
      else Done (None, st, <[w := fa]> faddrs)
  end.

(** The flags it sleeps with, and its result after that. *)
Definition kern_wait_flags (flags : Z) : Z := if isset flags KWAIT_INTR then WAIT_INTERRUPTABLE else 0.
Definition kern_wait_end (err : Z) : Z := if err =? - ERESTART then - EINTR else err.

Fixpoint wake_loop (l : list Z) (i num : Z) (st : wsys) (faddrs : gmap Z futex_addr_t) (waitq : Z) (fa : futex_addr_t)
    : res (Z * wsys) :=
  match l with
  | [] => Done (i, st)
  | w :: l =>
      let* a := deref (faddrs !! w) in
      if futex_addr_cmp fa a then
        let* st := wakeup_waiter st waitq w SCHED_NORMAL in
        let i := i + 1 in
        if num <=? i then Done (i, st) else wake_loop l i num st faddrs waitq fa
      else wake_loop l i num st faddrs waitq fa
  end.

Definition kern_wake (st : wsys) (faddrs : gmap Z futex_addr_t) (addr num flags : Z) : res (Z * wsys) :=
  if num <? 0 then Done (0, st) else
  match futex_addr addr flags with
  | inl err => Done (err, st)
  | inr fa =>
      let waitq := futex_waitq fa flags in
      let* q := deref (queues st !! waitq) in
      wake_loop q 0 num st faddrs waitq fa
  end.
End Space.

(** ** The system call *)

Definition FUTEX_WAIT : Z := 0.
Definition FUTEX_WAKE : Z := 1.
Definition FUTEX_WAIT_BITSET : Z := 9.
Definition FUTEX_PRIVATE : Z := 128.
Definition FUTEX_CLOCK_REALTIME : Z := 256.

(** What [sys_futex] does: return, wait for a 32 bit value, or wake. *)
Inductive futex_call := FRet (r : Z) | FWait (val flags : Z) (timeout : option Z) | FWake (num flags : Z).

(** [utimeout] is [NULL], or what [copyin_ts] makes of it. *)
Definition sys_futex (op val : Z) (utimeout : option (Z + Z)) : futex_call :=
  match utimeout with
  | Some (inl err) => FRet err
  | _ =>
      let timeout := match utimeout with Some (inr ns) => Some ns | _ => None end in
      let flags := Z.lor KWAIT_USR KWAIT_PRIV in
      let flags := if isset op FUTEX_PRIVATE then Z.lor flags KWAIT_PRIV else flags in
      let cmd := clr op (Z.lor FUTEX_PRIVATE FUTEX_CLOCK_REALTIME) in
      if cmd =? FUTEX_WAIT then FWait (u32 val) flags timeout else
      if cmd =? FUTEX_WAKE then FWake val flags else
      if (2 <=? cmd) && (cmd <=? FUTEX_WAIT_BITSET) then FRet (- ENOTSUP) else FRet (- EINVAL)
  end.

(** All queues of both tables start empty. *)
Definition init_futex : gmap Z (list Z) := gset_to_gmap [] (list_to_set (seqZ 0 (2 * FHT_SIZE))).

Lemma init_futex_queue k : 0 <= k < 2 * FHT_SIZE -> init_futex !! k = Some [].
Proof.
  intros Hk. unfold init_futex. apply lookup_gset_to_gmap_Some. split; [|done].
  apply elem_of_list_to_set, elem_of_seqZ. lia.
Qed.

(** Every address has one of them. *)
Lemma futex_waitq_bound fa flags : 0 <= futex_waitq fa flags < 2 * FHT_SIZE.
Proof.
  unfold futex_waitq, FHT_HASH, FHT_MASK. change (FHT_SIZE - 1) with (Z.ones 10). rewrite !Z.land_ones by lia.
  pose proof (Z.mod_pos_bound (Z.lxor (Z.shiftr (faddr fa) FHT_SHIFT) (fptr fa)) (2 ^ 10) ltac:(lia)).
  unfold FHT_SIZE in *. case_match; lia.
Qed.

(** ** Waking *)

Lemma futex_addr_cmp_eq a1 a2 : futex_addr_cmp a1 a2 = bool_decide (a1 = a2).
Proof.
  destruct a1 as [p1 x1 s1], a2 as [p2 x2 s2]. unfold futex_addr_cmp. simpl. apply eq_true_iff_eq.
  rewrite !andb_true_iff, Bool.eqb_true_iff, !Z.eqb_eq, bool_decide_eq_true. naive_solver.
Qed.

(** The waiters of an address, and the first [n] of them. *)
Definition waits_for (faddrs : gmap Z futex_addr_t) (fa : futex_addr_t) (w : Z) : Prop := faddrs !! w = Some fa.
#[export] Instance waits_for_dec faddrs fa w : Decision (waits_for faddrs fa w).
Proof. unfold waits_for. apply _. Defined.
Definition chosen (faddrs : gmap Z futex_addr_t) (fa : futex_addr_t) (n : nat) (q : list Z) : list Z :=
  take n (filter (waits_for faddrs fa) q).

Definition rest (ws q : list Z) : list Z := filter (fun x => x ∉ ws) q.

Lemma rest_cons w ws q : rest ws (filter (fun x => x <> w) q) = rest (w :: ws) q.
Proof.
  unfold rest. rewrite list_filter_filter. apply list_filter_iff. intros x. rewrite not_elem_of_cons. tauto.
Qed.

Lemma rest_one w q : rest [w] q = filter (fun x => x <> w) q.
Proof. unfold rest. apply list_filter_iff. intros x. rewrite list_elem_of_singleton. tauto. Qed.

Lemma rest_nil q : rest [] q = q.
Proof.
  unfold rest. induction q as [|x q IH]; [done|]. rewrite filter_cons_True by apply not_elem_of_nil. by rewrite IH.
Qed.

(** What a wakeup does to the system: the waiters [ws] of the queue are told. *)
Definition told (g : world) (wq : Z) (ws q : list Z) (st : wsys) : Prop :=
  winv (with_sys g st) /\ queues st !! wq = Some (rest ws q) /\
  (forall w, w ∈ ws -> exists v, thread_flags st !! w = Some v /\ isset v WAIT_DONE = true) /\
  (forall w, w ∉ ws -> thread_flags st !! w = thread_flags (sys g) !! w) /\
  parked (sched (sys g)) (sched st).

Lemma told_none g wq q : winv g -> queues (sys g) !! wq = Some q -> told g wq [] q (sys g).
Proof.
  intros I Hq. split_and!; [by destruct g|by rewrite rest_nil| |done|apply parked_refl].
  intros w Hw. by apply not_elem_of_nil in Hw.
Qed.

Lemma told_cons g wq q w ws st st' : told g wq [w] q st -> told (with_sys g st) wq ws (filter (fun x => x <> w) q) st' ->
  w ∉ ws -> told g wq (w :: ws) q st'.
Proof.
  intros (_ & _ & Hd1 & Hs1 & P1) (I2 & Hq2 & Hd2 & Hs2 & P2) Hw. split_and!.
  - done.
  - by rewrite Hq2, rest_cons.
  - intros x [->|Hx]%elem_of_cons; [|by apply Hd2]. rewrite (Hs2 w Hw). apply Hd1. by apply list_elem_of_singleton.
  - intros x [Hne Hx]%not_elem_of_cons. rewrite (Hs2 x Hx). apply Hs1. by rewrite list_elem_of_singleton.
  - by apply (parked_trans _ _ _ P1).
Qed.

Lemma wake_loop_ok faddrs waitq fa num l : forall g i q, winv g -> queues (sys g) !! waitq = Some q ->
  (forall w, w ∈ l -> w ∈ q /\ is_Some (faddrs !! w)) -> NoDup l -> 0 <= i < Z.max num 1 ->
  let ws := chosen faddrs fa (Z.to_nat (Z.max num 1 - i)) l in
  exists st, wake_loop l i num (sys g) faddrs waitq fa = Done (i + Z.of_nat (length ws), st) /\ told g waitq ws q st.
Proof.
  induction l as [|w l IH]; intros g i q I Hq Hin Hnd Hi; cbn [wake_loop]; cbv zeta.
  { exists (sys g). unfold chosen. rewrite filter_nil, take_nil. simpl. rewrite Z.add_0_r. split; [done|by apply told_none]. }
  destruct (Hin w) as [Hw [a Ha]]; [constructor|]. rewrite Ha. cbn [deref rbind]. rewrite futex_addr_cmp_eq.
  apply NoDup_cons in Hnd as [Hwl Hnd].
  assert (Hin' : forall x, x ∈ l -> x ∈ q /\ is_Some (faddrs !! x)) by (intros x Hx; apply Hin; by constructor).
  destruct (bool_decide_reflect (fa = a)) as [<-|Hne].
  - replace (Z.to_nat (Z.max num 1 - i)) with (S (Z.to_nat (Z.max num 1 - (i + 1)))) by lia.
    assert (Ec : forall n, chosen faddrs fa (S n) (w :: l) = w :: chosen faddrs fa n l).
    { intros n. unfold chosen. by rewrite filter_cons_True by done. }
    rewrite Ec. destruct (wakeup_waiter_ok g waitq q w SCHED_NORMAL I Hq Hw) as (st & -> & I' & Eq & Hs & Hd & P); [by vm_compute|].
    cbn [rbind]. assert (T : told g waitq [w] q st).
    { split_and!; [done| | | |done].
      - rewrite Eq, rest_one. unfold without. by rewrite lookup_fmap, Hq.
      - by intros x ->%list_elem_of_singleton.
      - intros x Hx. apply Hs. by rewrite list_elem_of_singleton in Hx. }
    destruct (Z.leb_spec num (i + 1)).
    + replace (Z.to_nat (Z.max num 1 - (i + 1))) with O by lia. exists st. split; [done|done].
    + destruct (IH (with_sys g st) (i + 1) (filter (fun x => x <> w) q) I') as (st' & E' & T'); [| |done|lia|].
      * destruct T as (_ & Hq' & _). by rewrite rest_one in Hq'.
      * intros x Hx. destruct (Hin' x Hx). split; [|done]. apply list_elem_of_filter. split; [by intros ->|done].
      * exists st'. split; [change (sys (with_sys g st)) with st in E'; rewrite E'; simpl length; do 2 f_equal; lia|].
        apply (told_cons g waitq q w _ st); [done|done|]. unfold chosen.
        intros Hx%subseteq_take%list_elem_of_filter. by destruct Hx.
  - assert (Ec : forall n, chosen faddrs fa n (w :: l) = chosen faddrs fa n l).
    { intros n. unfold chosen. rewrite filter_cons_False; [done|]. unfold waits_for. congruence. }
    rewrite Ec. by apply IH.
Qed.

(** [kern_wake] wakes up the first [num] waiters of the address, at least
    one if there is one, in the order in which they came, and returns how many
    they were.  Those of them that sleep are in the run queue afterwards.
    Waiters of other addresses in the same hash queue keep their place and
    their flags. *)
Theorem kern_wake_fifo vas kern_vas lookup g0 g faddrs addr num flags fa q :
  initial g0 -> rtc wstep g0 g ->
  futex_addr vas kern_vas lookup addr flags = inr fa -> queues (sys g) !! futex_waitq fa flags = Some q ->
  (forall w, w ∈ q -> is_Some (faddrs !! w)) -> 0 <= num ->
  let ws := chosen faddrs fa (Z.to_nat (Z.max num 1)) q in
  exists st, kern_wake vas kern_vas lookup (sys g) faddrs addr num flags = Done (Z.of_nat (length ws), st) /\
    queues st !! futex_waitq fa flags = Some (rest ws q) /\
    (forall w, w ∉ ws -> thread_flags st !! w = thread_flags (sys g) !! w) /\
    (forall w t p wq fl tmo th, w ∈ ws -> pcs g !! t = Some p -> p = Sleeping wq w fl tmo \/ p = Woken wq w fl tmo ->
       threads (sched (sys g)) !! t = Some th -> state th = THREAD_SLEEP -> t ∈ queued (sched st)).
Proof.
  intros I0 Hr Hfa Hq Hall Hn ws. pose proof (reach_winv g0 g I0 Hr) as I.
  destruct (q_queue _ (w_q _ I) _ q Hq) as [Hnd _].
  destruct (wake_loop_ok faddrs (futex_waitq fa flags) fa num q g 0 q I Hq) as (st & E & I' & Hq' & Hd & Hs & P);
    [intros; split; [done|by apply Hall]|done|lia|].
  rewrite Z.sub_0_r in E, Hq', Hd, Hs. exists st. unfold kern_wake. destruct (Z.ltb_spec num 0); [lia|].
  rewrite Hfa. cbv zeta. rewrite Hq. cbn [deref rbind]. split; [exact E|]. split; [done|]. split; [done|].
  intros w t p wq fl tmo th Hw Hp Hpc Hth Hst. destruct (P t th Hth) as (th' & Hth' & Hpk); [by left|].
  apply (now_runnable (with_sys g st) t wq w fl tmo p th' I' Hp Hpc Hth' Hpk). left. by apply Hd.
Qed.

(** ** Waiting *)

Lemma without_append g wq q w : qinv g -> held g !! w = None -> queues (sys g) !! wq = Some q ->
  without w (<[wq := q ++ [w]]> (queues (sys g))) = queues (sys g).
Proof.
  intros Q Hw Hq. assert (Hno : forall k r, queues (sys g) !! k = Some r -> w ∉ r).
  { intros k r Hr Hin. destruct (q_queue _ Q k r Hr) as [_ H]. destruct (H w Hin). congruence. }
  apply map_eq. intros k. unfold without. rewrite lookup_fmap. destruct (decide (k = wq)) as [->|Hne].
  - rewrite lookup_insert_eq, Hq. simpl. f_equal. rewrite filter_app, filter_cons_False, filter_nil, app_nil_r by auto.
    apply filter_absent. by apply (Hno wq).
  - rewrite lookup_insert_ne by done. destruct (queues (sys g) !! k) as [r|] eqn:Hr; [|done]. simpl. f_equal.
    apply filter_absent. by apply (Hno k).
Qed.

(** [__kern_wait] is a sequence of the steps of the wait queues.  If the
    address cannot be used or holds another value, it returns with an error
    and all queues as they were.  If it goes to sleep, its waiter was put at
    the end of the queue of the address before the value was looked at, so
    that whoever changes the value afterwards and calls [kern_wake] finds it. *)
Theorem kern_wait_begin_ok vas kern_vas lookup g0 g faddrs w addr val flags loaded :
  initial g0 -> rtc wstep g0 g -> pcs g !! cur (sched (sys g)) = Some Running -> held g !! w = None ->
  pow2_p (Z.of_nat (length val)) = true -> (Z.of_nat (length val) <= 8) ->
  (forall fa, futex_addr vas kern_vas lookup addr flags = inr fa -> is_Some (queues (sys g) !! futex_waitq fa flags)) ->
  exists r st fs g', kern_wait_begin vas kern_vas lookup (sys g) faddrs w addr val flags loaded = Done (r, st, fs) /\
    rtc wstep g g' /\ sys g' = st /\
    match r with
    | Some err => err <> 0 /\ queues st = queues (sys g) /\ held g' = held g
    | None =>
        loaded.2 = val /\ (isset flags KWAIT_USR = true -> loaded.1 = 0) /\
        exists fa q, futex_addr vas kern_vas lookup addr flags = inr fa /\ fs !! w = Some fa /\
          queues (sys g) !! futex_waitq fa flags = Some q /\ queues st !! futex_waitq fa flags = Some (q ++ [w]) /\
          held g' !! w = Some (futex_waitq fa flags)
    end.
Proof.
  intros I0 Hr Hp Hw Hpow Hlen Hqs. pose proof (reach_winv g0 g I0 Hr) as I. unfold kern_wait_begin. rewrite Hpow.
  destruct (Z.leb_spec (Z.of_nat (length val)) FUTEX_SZ_MAX); [|unfold FUTEX_SZ_MAX in *; lia].
  destruct (futex_addr vas kern_vas lookup addr flags) as [err|fa] eqn:Hfa.
  { exists (Some err), (sys g), faddrs, g. split; [done|]. split; [constructor|]. split; [done|].
    split; [|done]. unfold futex_addr in Hfa. repeat case_match; by simplify_eq. }
  set (wq := futex_waitq fa flags). destruct (Hqs fa eq_refl) as [q Hq]. fold wq in Hq.
  assert (He : enabled g (EPrep wq w) = true).
  { unfold enabled. rewrite Hp, Hw, Hq. by rewrite !bool_decide_true by done. }
  destruct (ev_prep g wq w I He) as (g1 & E1 & I1). assert (S1 : wstep g g1) by (by exists (EPrep wq w)).
  assert (E2 : wait_prep (sys g) wq w = Done (sys g1) /\ held g1 = <[w := wq]> (held g) /\ pcs g1 = pcs g).
  { unfold wevent_run in E1. apply rbind_Done in E1 as (st1 & E1 & E1'). injection E1' as <-. by rewrite E1. }
  destruct E2 as (E2 & Eh & Ep). rewrite E2. cbn [rbind].
  assert (E3 : queues (sys g1) = <[wq := q ++ [w]]> (queues (sys g)) /\ thread_flags (sys g1) !! w = Some (cur (sched (sys g))) /\ sched (sys g1) = sched (sys g)).
  { unfold wait_prep, waitq_append in E2. destruct (waiter_flags _ =? 0); [|done]. simpl in E2. rewrite Hq in E2. cbn [deref rbind] in E2.
    destruct (negb _); [|done]. injection E2 as E2. rewrite <- E2. simpl. by rewrite lookup_insert_eq. }
  destruct E3 as (Eq & Ef & Es). set (err := if (_ =? 0) then _ else _).
  destruct (Z.eqb_spec err 0) as [Er|Er]; cbn [negb].
  - eexists _, _, _, g1. split; [done|]. split; [by apply rtc_once|]. split; [done|].
    unfold err in Er. destruct (Z.eqb_spec (if isset flags KWAIT_USR then loaded.1 else 0) 0) as [E0|]; [|done].
    case_bool_decide; [|done]. split; [done|]. split; [intros Hu; by rewrite Hu in E0|]. exists fa, q.
    rewrite Eq, Eh, !lookup_insert_eq. done.
  - assert (Hh1 : held g1 !! w = Some wq) by (rewrite Eh; apply lookup_insert_eq).
    rewrite (wait_abort_run g1 wq w (w_q _ I1) Hh1). cbn [rbind].
    destruct (run_thread g Running I Hp) as (_ & Hal & _). destruct (aligned_thread _ Hal) as (Et & _).
    eexists _, _, _, (leave g1 _ (cur (sched (sys g1))) w). split; [done|]. split.
    { apply (rtc_l _ g g1 _ S1), rtc_once. exists (EAbort w).
      - unfold enabled, owner. rewrite Es, Ep, Hp, Hh1, Ef. simpl. rewrite Et. by rewrite !bool_decide_true by done.
      - unfold wevent_run. rewrite Hh1. cbn [deref rbind]. rewrite (wait_abort_run g1 wq w (w_q _ I1) Hh1). done. }
    split; [done|]. split; [done|]. simpl. rewrite Eq, Eh. split; [by apply (without_append g wq q w (w_q _ I))|].
    by rewrite delete_insert_id.
Qed.

(** [FUTEX_WAIT] with a timeout: the system call does not ask to be
    interruptable, which [wait_sleep_timeout] asserts for a timeout.  The call
    panics the kernel whenever it gets as far as going to sleep. *)
Lemma futex_timeout_panics op val ns st wq w z v flags :
  sys_futex op val (Some (inr ns)) = FWait v flags (Some ns) ->
  sleep_enter st wq w (kern_wait_flags flags) (Some ns) z = Panic.
Proof.
  unfold sys_futex. intros E. assert (Hf : isset flags KWAIT_INTR = false).
  { repeat case_match; simplify_eq; done. }
  unfold kern_wait_flags. by rewrite Hf.
Qed.

(** ** Examples *)

(** The processor of [Wait]: thread 8 waits for the kernel address 8192; the
    kernel's address space is 4096. *)
Definition fex_fa : futex_addr_t := MkFaddr 4096 8192 false.
Definition fex_start : world :=
  MkWorld (MkWsys (sched (sys wex_start)) {[futex_waitq fex_fa 0 := []]} ∅ ∅ 0) {[8 := Running]} ∅.

Lemma fex_start_initial : initial fex_start.
Proof.
  destruct wex_start_initial as [I1 I2 I3 I4 I5 I6]. split; [done|done|done| |done|done].
  intros wq q Hq. simpl in Hq. by apply lookup_singleton_Some in Hq as [<- <-].
Qed.

Definition fex_events : list wevent :=
  [EPrep (futex_waitq fex_fa 0) 200; ESleep 200 0 None false; EStep; EStep].
Definition fex_asleep : world := match wevents fex_start fex_events with Done g => g | _ => fex_start end.

Lemma fex_reach : rtc wstep fex_start fex_asleep.
Proof. apply (wevents_rtc fex_events). vm_compute. reflexivity. Qed.

Lemma kern_wake_fifo_witness : exists st,
  kern_wake 0 4096 (fun _ => None) (sys fex_asleep) {[200 := fex_fa]} 8192 3 0 = Done (1, st) /\
  8 ∈ queued (sched st).
Proof.
  destruct (kern_wake_fifo 0 4096 (fun _ => None) fex_start fex_asleep {[200 := fex_fa]} 8192 3 0 fex_fa [200]
    fex_start_initial fex_reach) as (st & E & _ & _ & H).
  - reflexivity.
  - vm_compute. reflexivity.
  - intros w ->%list_elem_of_singleton. vm_compute. by eexists.
  - lia.
  - exists st. split; [exact E|].
    destruct (threads (sched (sys fex_asleep)) !! 8) as [th|] eqn:Eth; [|vm_compute in Eth; discriminate Eth].
    apply (H 200 8 (Woken (futex_waitq fex_fa 0) 200 0 None) (futex_waitq fex_fa 0) 0 None th).
    + vm_compute. constructor.
    + vm_compute. reflexivity.
    + by right.
    + exact Eth.
    + vm_compute in Eth. injection Eth as <-. reflexivity.
Defined.

Lemma kern_wait_begin_ok_witness : exists r st fs,
  kern_wait_begin 0 4096 (fun _ => None) (sys fex_start) ∅ 200 8192 [1; 0; 0; 0] 0 (0, [1; 0; 0; 0]) = Done (r, st, fs).
Proof.
  destruct (kern_wait_begin_ok 0 4096 (fun _ => None) fex_start fex_start ∅ 200 8192 [1; 0; 0; 0] 0 (0, [1; 0; 0; 0])
    fex_start_initial (rtc_refl _ _)) as (r & st & fs & g' & E & _).
  - reflexivity.
  - reflexivity.
  - reflexivity.
  - simpl. lia.
  - intros fa [= <-]. vm_compute. by eexists.
  - exists r, st, fs. exact E.
Defined.
