(* ===== verification/Mman.v ===== *)
(** lib/mman.c and include/lib/mman.h: allocation of address ranges.  A node
    stands for an allocated range and the free space behind it; the nodes are
    in one red-black tree by address, those with free space behind them also in
    one by the size of that space. *)
From stdpp Require Import base gmap list.
From S2P Require Import Prelude Rbtree.

(** [mman_node_t] without its two [rb_node_t], which live in the heaps of the
    trees: [freenode] at the address of the node and [node] 16 bytes behind it. *)
Record mman_node_t : Type := MNode {
  m_addr : Z;
  m_size : Z;
  m_free : Z;
}.

Definition free_rb (a : Z) : Z := a.
Definition node_rb (a : Z) : Z := a + 16.

(** [mman_t]; [mm_info] holds the nodes that exist and [mm_node] is the address
    of the embedded node for the first free space. *)
Record mman_t : Type := Mman {
  mm_nodes : rb_st;
  mm_free : rb_st;
  mm_info : gmap Z mman_node_t;
  mm_node : Z;
}.

Definition set_nodes (m : mman_t) (t : rb_st) : mman_t := Mman t (mm_free m) (mm_info m) (mm_node m).
Definition set_freet (m : mman_t) (t : rb_st) : mman_t := Mman (mm_nodes m) t (mm_info m) (mm_node m).
Definition put_node (m : mman_t) (a : Z) (n : mman_node_t) : mman_t :=
  Mman (mm_nodes m) (mm_free m) (<[a := n]> (mm_info m)) (mm_node m).
Definition get_node (m : mman_t) (a : Z) : res mman_node_t := deref (mm_info m !! a).
(** The node at [a], for comparisons. *)
Definition node_at (m : mman_t) (a : Z) : mman_node_t := default (MNode 0 0 0) (mm_info m !! a).

(** A tree in a 32-bit address space is never higher than this. *)
Definition rb_fuel : nat := 64.
(** Enough rounds to visit every node. *)
Definition rb_rounds (h : rb_st) : nat := (rb_fuel + size (nodes h))%nat.

Definition mman_node_end (n : mman_node_t) : Z := u64 (m_addr n - 1 + m_size n).

(** ** Consistency check *)

Fixpoint check_from (m : mman_t) (prev : option mman_node_t) (ps : list Z) : res unit :=
  match ps with
  | [] => Done tt
  | p :: ps =>
      let* a := __rb_node_value (mm_nodes m) p in
      let* n := get_node m a in
      match prev with
      | Some q =>
          if negb (u64 (m_addr q + m_size q + m_free q) =? m_addr n) then Panic
          else check_from m (Some n) ps
      | None => check_from m (Some n) ps
      end
  end.
Definition mman_check (m : mman_t) : res unit :=
  let* ps := rb_foreach (rb_rounds (mm_nodes m)) (mm_nodes m) in check_from m None ps.

(** ** The two trees *)

Definition mman_node_free_add (m : mman_t) (a : Z) : res mman_t :=
  let* n := get_node m a in
  if negb (m_free n =? 0) then
    let* t := rb_insert rb_fuel (mm_free m) (fun cur => m_free n <? m_free (node_at m cur)) (free_rb a) in
    Done (set_freet m t)
  else Done m.

Definition mman_node_free_rem (m : mman_t) (a : Z) : res mman_t :=
  let* n := get_node m a in
  if negb (m_free n =? 0) then
    let* t := rb_remove rb_fuel (mm_free m) (free_rb a) in
    Done (set_freet m t)
  else
    let* _ := rb_node_assert_empty (mm_free m) (free_rb a) in
    Done m.

Definition mman_node_add (m : mman_t) (a : Z) : res mman_t :=
  let* n := get_node m a in
  let* t := rb_insert rb_fuel (mm_nodes m) (fun cur => m_addr n <? m_addr (node_at m cur)) (node_rb a) in
  Done (set_nodes m t).

Definition mman_node_remove (m : mman_t) (a : Z) : res mman_t :=
  let* t := rb_remove rb_fuel (mm_nodes m) (node_rb a) in
  Done (set_nodes m t).

Definition mman_node_set_free (m : mman_t) (a : Z) (free : Z) : res mman_t :=
  let* n := get_node m a in
  if m_free n =? free then Done m
  else
    let* m := mman_node_free_rem m a in
    let m := put_node m a (MNode (m_addr n) (m_size n) free) in
    mman_node_free_add m a.

Definition mman_node_prev (m : mman_t) (a : Z) : res Z := rb_prev rb_fuel (mm_nodes m) (node_rb a).
Definition mman_node_next (m : mman_t) (a : Z) : res Z := rb_next rb_fuel (mm_nodes m) (node_rb a).

(** ** Initialisation *)

Definition mman_node_init (m : mman_t) (a : Z) : mman_t :=
  let m := set_nodes m (rb_node_init (mm_nodes m) a (node_rb a)) in
  set_freet m (rb_node_init (mm_free m) a (free_rb a)).

Definition mman_node_destroy (m : mman_t) (a : Z) : res unit :=
  let* _ := rb_node_destroy (mm_nodes m) (node_rb a) in
  rb_node_destroy (mm_free m) (free_rb a).

Definition mman_init (m : mman_t) (start size : Z) : res mman_t :=
  let m := set_nodes m (rb_tree_init (mm_nodes m)) in
  let m := set_freet m (rb_tree_init (mm_free m)) in
  let m := mman_node_init m (mm_node m) in
  let m := put_node m (mm_node m) (MNode start 0 size) in
  let* m := mman_node_free_add m (mm_node m) in
  let* m := mman_node_add m (mm_node m) in
  let* _ := mman_check m in
  Done m.

Definition mman_destroy (m : mman_t) : res mman_t :=
  let* m := mman_node_remove m (mm_node m) in
  let* m := mman_node_free_rem m (mm_node m) in
  let* _ := rb_tree_destroy (mm_nodes m) in
  let* _ := rb_tree_destroy (mm_free m) in
  let* _ := mman_node_destroy m (mm_node m) in
  Done m.

(** ** Lookup; the null pointer is 0 *)

Definition lookup_code (m : mman_t) (addr : Z) (out cur : Z) : Z * verdict :=
  let n := node_at m cur in
  if addr <? m_addr n then (out, GoLeft)
  else if negb (m_size n =? 0) && (addr <? mman_node_end n) then (cur, Leave)
  else (out, GoRight).
Definition mman_lookup (m : mman_t) (addr : Z) : res Z :=
  rb_search rb_fuel (mm_nodes m) (lookup_code m addr) 0.

Definition first_node_code (m : mman_t) (addr : Z) (out cur : Z) : Z * verdict :=
  let n := node_at m cur in
  if mman_node_end n >? addr then
    if m_addr n <=? addr then (cur, Leave) else (cur, GoLeft)
  else (out, GoRight).
Definition mman_first_node (m : mman_t) (addr size : Z) : res Z :=
  let* a := rb_search rb_fuel (mm_nodes m) (first_node_code m addr) 0 in
  if a =? 0 then Done 0
  else
    let* n := get_node m a in
    if m_addr n >? u64 (addr - 1 + size) then Done 0 else Done a.

(** ** Allocation *)

(** The search of [mman_insert]; [end] is a [vm_vaddr_t] of 32 bits and keeps
    the value of the last round. *)
Definition insert_code (m : mman_t) (addr : Z) (s : Z * Z) (cur : Z) : Z * Z * verdict :=
  let n := node_at m cur in
  let end' := u32 (mman_node_end n) in
  if (end' <? addr) && (addr <? u64 (end' + m_free n)) then ((cur, end'), Leave)
  else if m_addr n >? addr then ((s.1, end'), GoLeft)
  else ((s.1, end'), GoRight).

Definition mman_insert (m : mman_t) (addr size node : Z) : res mman_t :=
  let* '(out, end') := rb_search rb_fuel (mm_nodes m) (insert_code m addr) (0, 0) in
  kassert negb (out =? 0) in
  let* on := get_node m out in
  let free_end := u32 (end' + m_free on) in
  let* _ := get_node m node in
  let m := put_node m node (MNode addr size (u64 (free_end - u64 (addr - 1 + size)))) in
  let* m := mman_node_free_add m node in
  let* m := mman_node_add m node in
  let* m := mman_node_set_free m out (u64 (addr - end' - 1)) in
  let* _ := mman_check m in
  Done m.

Definition alloc_code (m : mman_t) (size align : Z) (free cur : Z) : Z * verdict :=
  let n := node_at m cur in
  if size >? m_free n then (free, GoRight)
  else
    let start := u64 (m_addr n + m_size n) in
    let alignsz := u64 (ALIGN 64 start align - start) in
    if (alignsz =? 0) || (m_free n >=? u64 (size + alignsz)) then
      if m_free n =? size then (cur, Leave) else (cur, GoLeft)
    else (free, GoLeft).

Definition mman_alloc (m : mman_t) (size align node : Z) : res (Z * mman_t) :=
  let* free := rb_search rb_fuel (mm_free m) (alloc_code m size align) 0 in
  if free =? 0 then Done (- ENOMEM, m)
  else
    let* fn := get_node m free in
    let start := u64 (m_addr fn + m_size fn) in
    let addr := ALIGN 64 start align in
    let alignsz := u64 (addr - start) in
    let* _ := get_node m node in
    let m := put_node m node (MNode addr size (u64 (m_free fn - size - alignsz))) in
    let* m := mman_node_free_add m node in
    let* m := mman_node_add m node in
    let* m := mman_node_set_free m free alignsz in
    let* _ := mman_check m in
    Done (0, m).

(** ** Freeing *)

Definition mman_free (m : mman_t) (node : Z) : res mman_t :=
  let* prev := mman_node_prev m node in
  let* pn := get_node m prev in
  let* n := get_node m node in
  let* m := mman_node_set_free m prev (u64 (m_free pn + m_free n + m_size n)) in
  let* m := mman_node_free_rem m node in
  let* m := mman_node_remove m node in
  let* _ := mman_check m in
  Done m.

Definition mman_node_free_tail (m : mman_t) (node size : Z) : res mman_t :=
  let* n := get_node m node in
  kassert size <? m_size n in
  let m := put_node m node (MNode (m_addr n) (u64 (m_size n - size)) (m_free n)) in
  let* m := mman_node_set_free m node (u64 (m_free n + size)) in
  let* _ := mman_check m in
  Done m.

Definition mman_node_free_head (m : mman_t) (node size : Z) : res mman_t :=
  let* n := get_node m node in
  kassert size <? m_size n in
  let* prev := mman_node_prev m node in
  kassert negb (prev =? 0) in
  let* pn := get_node m prev in
  let* m := mman_node_set_free m prev (u64 (m_free pn + size)) in
  let* n := get_node m node in
  let m := put_node m node (MNode (u64 (m_addr n + size)) (u64 (m_size n - size)) (m_free n)) in
  let* m := mman_node_remove m node in
  let* m := mman_node_add m node in
  let* _ := mman_check m in
  Done m.
