(* ===== verification/MmanFacts.v ===== *)
(** What the address range allocator of Mman.v does: the nodes always tile
    the managed region, allocation and insertion take a range out of a free
    space, and freeing gives it back. *)
From stdpp Require Import base gmap list list_tactics sorting.
From S2P Require Import Prelude Rbtree RbtreeFacts Mman.

(** ** A red-black tree as a sequence *)

Section Seq.
(** [nd] maps an object to its [rb_node_t], [ob] is the way back. *)
Context (nd ob : Z -> Z) (Hob : forall a, ob (nd a) = a).

(** A node that is not in the tree. *)
Definition idle (a : Z) : cell := (nd a, RbNode 0 0 0 a).

(** The tree holds the objects [L] in this order; the objects [X] exist
    outside it. *)
Definition seq_tree (h : rb_st) (L X : list Z) : Prop :=
  exists t, holds ob h t (idle <$> X) /\ rbt t /\ inorder t = nd <$> L.

Lemma seq_tree_perm h L X Y : X ≡ₚ Y -> seq_tree h L X -> seq_tree h L Y.
Proof.
  intros HP (t & Hs & Ht & Hi). exists t. split_and!; [|done..].
  unfold holds in *. eapply sat_perm, Hs. by rewrite HP.
Qed.

(** At most 2^30 aligned words exist, so no tree is higher than 60. *)
Lemma okp_count (l : list Z) : NoDup l -> Forall okp l -> (length l < 2 ^ 30)%nat.
Proof.
  intros Hn Ho.
  assert (le (length ((fun p : Z => p / 4) <$> l)) (length (seqZ 1 (2 ^ 30 - 1)))) as Hle.
  { apply submseteq_length, NoDup_submseteq.
    - apply NoDup_fmap_2_strong; [|done]. rewrite Forall_forall in Ho.
      intros x y Hx Hy He. apply Ho in Hx as [_ Hx], Hy as [_ Hy].
      pose proof (Z.div_mod x 4). pose proof (Z.div_mod y 4). lia.
    - intros x (p & -> & Hp)%list_elem_of_fmap. rewrite Forall_forall in Ho. apply Ho in Hp as [Hb Hm].
      apply elem_of_seqZ. pose proof (Z.div_mod p 4). lia. }
  rewrite length_fmap, length_seqZ in Hle.
  apply Nat2Z.inj_lt. rewrite Nat2Z.inj_pow. change (Z.of_nat 2 ^ Z.of_nat 30) with (2 ^ 30). lia.
Qed.

Lemma rb_fuel_enough h t F : holds ob h t F -> rbt t -> (height t < rb_fuel)%nat.
Proof.
  intros Hs Ht. pose proof (rbt_height _ Ht) as Hh.
  assert (tsize t < 2 ^ 30)%nat as Hsz.
  { rewrite <- length_inorder. apply okp_count; [by eapply holds_NoDup|].
    destruct Hs as (_ & Ho & _). rewrite fmap_app in Ho. apply Forall_app in Ho as [Ho _].
    by rewrite keys_flat in Ho. }
  assert (Nat.log2 (tsize t + 1) <= 30)%nat as Hl.
  { rewrite <- (Nat.log2_pow2 30) by lia. apply Nat.log2_le_mono. lia. }
  unfold rb_fuel. lia.
Qed.

Lemma seq_insert h L1 L2 X a code : seq_tree h (L1 ++ L2) (a :: X) ->
  Forall (fun b => code b = false) L1 -> Forall (fun b => code b = true) L2 ->
  runs (rb_insert rb_fuel h code (nd a)) (fun h' => seq_tree h' (L1 ++ a :: L2) X).
Proof.
  intros (t & Hs & Ht & Hi) H1 H2. rewrite fmap_app in Hi.
  eapply runs_mono.
  { apply (rb_insert_spec ob rb_fuel h t (idle <$> X) (nd a) 0); [by rewrite Hob|done|done|by eapply rb_fuel_enough]. }
  intros h' (t' & Hs' & Ht' & Hi'). exists t'. split_and!; [done..|].
  rewrite Hi', fmap_app, fmap_cons.
  destruct (ins_ctx_split ob code t [] (nd <$> L1) (nd <$> L2)) as [-> ->]; [done|..].
  - apply Forall_fmap. eapply Forall_impl; [exact H1|]. intros b Hb. simpl. by rewrite Hob.
  - apply Forall_fmap. eapply Forall_impl; [exact H2|]. intros b Hb. simpl. by rewrite Hob.
  - simpl. by rewrite app_nil_r.
Qed.

Lemma nd_inj a b : nd a = nd b -> a = b.
Proof. intros He. rewrite <- (Hob a), <- (Hob b). by rewrite He. Qed.

Lemma seq_remove h L1 L2 X a : seq_tree h (L1 ++ a :: L2) X ->
  runs (rb_remove rb_fuel h (nd a)) (fun h' => seq_tree h' (L1 ++ L2) (a :: X)).
Proof.
  intros (t & Hs & Ht & Hi). rewrite fmap_app, fmap_cons in Hi.
  eapply runs_mono.
  { eapply (rb_remove_spec ob rb_fuel); [exact Hs|done| |].
    - rewrite Hi. set_solver.
    - pose proof (rb_fuel_enough _ _ _ Hs Ht). lia. }
  intros h' (t' & l1 & l2 & Hs' & Ht' & Hi1 & Hi2). exists t'. split_and!; [|done|].
  - rewrite Hob in Hs'. exact Hs'.
  - rewrite Hi2, fmap_app. pose proof (holds_NoDup _ _ _ _ Hs) as Hn. rewrite Hi1 in Hn, Hi.
    by destruct (split_unique _ _ _ _ _ Hn Hi) as [-> ->].
Qed.

Lemma seq_idle h L X a : seq_tree h L X -> a ∈ X -> rb_node_assert_empty h (nd a) = Done tt.
Proof.
  intros (t & Hs & _) Hin. unfold rb_node_assert_empty.
  rewrite (sat_get h _ _ (nd a) (RbNode 0 0 0 a) Hs); [done|].
  apply elem_of_app. right. apply (list_elem_of_fmap_2 idle X a Hin).
Qed.

Lemma seq_NoDup h L X : seq_tree h L X -> NoDup (L ++ X).
Proof.
  intros (t & (Hn & _) & _ & Hi). rewrite fmap_app, keys_flat, Hi in Hn.
  rewrite <- list_fmap_compose in Hn. apply (NoDup_fmap_1 nd). by rewrite fmap_app.
Qed.

Lemma seq_okp h L X : seq_tree h L X -> Forall (fun a => okp (nd a)) (L ++ X).
Proof.
  intros (t & (_ & Ho & _) & _ & Hi). rewrite fmap_app, keys_flat, Hi in Ho.
  rewrite <- list_fmap_compose in Ho. apply (Forall_fmap nd okp). by rewrite fmap_app.
Qed.

(** The value of the neighbour; the null pointer at the ends. *)
Lemma seq_value h t F p : holds ob h t F -> p ∈ inorder t -> __rb_node_value h p = Done (ob p).
Proof.
  intros Hs Hin. unfold __rb_node_value. rewrite (proj2 (Z.eqb_neq p 0)) by (by eapply holds_nonzero).
  destruct (tree_split t p Hin) as (c & col & l & r & ->). apply at_ctx_holds in Hs.
  by rewrite (get_at _ _ _ _ _ _ _ _ Hs).
Qed.

Lemma seq_prev h L1 L2 X a : seq_tree h (L1 ++ a :: L2) X ->
  rb_prev rb_fuel h (nd a) = Done (List.last L1 0).
Proof.
  intros (t & Hs & Ht & Hi). pose proof (rb_fuel_enough _ _ _ Hs Ht) as Hf.
  rewrite fmap_app, fmap_cons in Hi. unfold rb_prev. erewrite rb_prev_node_spec; [|exact Hs|exact Hi|lia].
  simpl. destruct L1 as [|b L1 _] using rev_ind; [done|].
  rewrite fmap_app in *. simpl. rewrite !last_last. rewrite (seq_value _ _ _ _ Hs); [by rewrite Hob|].
  rewrite Hi. set_solver.
Qed.

Lemma seq_next h L1 L2 X a : seq_tree h (L1 ++ a :: L2) X ->
  rb_next rb_fuel h (nd a) = Done (hd 0 L2).
Proof.
  intros (t & Hs & Ht & Hi). pose proof (rb_fuel_enough _ _ _ Hs Ht) as Hf.
  rewrite fmap_app, fmap_cons in Hi. unfold rb_next. erewrite rb_next_node_spec; [|exact Hs|exact Hi|lia].
  simpl. destruct L2 as [|b L2]; [done|]. simpl. rewrite (seq_value _ _ _ _ Hs); [by rewrite Hob|].
  rewrite Hi. set_solver.
Qed.

(** A search keeps an invariant of its state and the objects that are left. *)
Lemma seq_search {A} h L X (code : A -> Z -> A * verdict) a (I : A -> list Z -> Prop) (Q : A -> Prop) :
  seq_tree h L X -> I a L ->
  (forall a L1 b L2, I a (L1 ++ b :: L2) ->
    match code a b with
    | (a', GoLeft) => I a' L1
    | (a', GoRight) => I a' L2
    | (a', Leave) => Q a'
    end) ->
  (forall a, I a [] -> Q a) ->
  runs (rb_search rb_fuel h code a) Q.
Proof.
  intros (t & Hs & Ht & Hi) HI Hstep Hend. pose proof (rb_fuel_enough _ _ _ Hs Ht) as Hf.
  rewrite (rb_search_spec ob rb_fuel h t _ code a Hs Hf). apply runs_Done. clear Hs Ht Hf.
  revert a L Hi HI. induction t as [|col l IHl p r IHr]; intros a L Hi HI; simpl in *.
  - apply Hend. destruct L; [done|discriminate].
  - apply symmetry, fmap_app_inv in Hi as (L1 & L2 & H1 & H2 & ->).
    destruct L2 as [|b L2]; [discriminate|]. injection H2 as -> H2. rewrite Hob.
    specialize (Hstep a L1 b L2 HI). destruct (code a b) as [a' []]; eauto.
Qed.
End Seq.

(** ** The tree of the free spaces *)

Definition node_ob (p : Z) : Z := p - 16.
Lemma node_ob_rb a : node_ob (node_rb a) = a.
Proof. unfold node_ob, node_rb. lia. Qed.
Definition free_ob (p : Z) : Z := p.
Lemma free_ob_rb a : free_ob (free_rb a) = a.
Proof. done. Qed.

Definition nodes_seq (m : mman_t) (L X : list Z) : Prop := seq_tree node_rb node_ob (mm_nodes m) L X.
Definition free_seq (m : mman_t) (L X : list Z) : Prop := seq_tree free_rb free_ob (mm_free m) L X.

Definition free_of (m : mman_t) (a : Z) : Z := m_free (node_at m a).

(** Of the nodes [L], those with free space are in the tree, by its size; the
    nodes [X] are not in it. *)
Definition fok (m : mman_t) (L X : list Z) : Prop :=
  exists S, free_seq m S (X ++ filter (fun a => free_of m a = 0) L) /\
    S ≡ₚ filter (fun a => free_of m a <> 0) L /\
    StronglySorted (fun a b => free_of m a <= free_of m b) S.

Lemma node_at_Some m a n : mm_info m !! a = Some n -> node_at m a = n.
Proof. unfold node_at. by intros ->. Qed.
Lemma get_node_Some m a n : mm_info m !! a = Some n -> get_node m a = Done n.
Proof. unfold get_node. by intros ->. Qed.

Lemma fok_perm m L L' X X' : L ≡ₚ L' -> X ≡ₚ X' -> fok m L X -> fok m L' X'.
Proof.
  intros HL HX (S & Hs & HS & Hsort). exists S. split_and!; [|by rewrite HS, HL|done].
  eapply seq_tree_perm, Hs. by rewrite HL, HX.
Qed.

Lemma filter_ext_in (P Q : Z -> Prop) `{forall x, Decision (P x), forall x, Decision (Q x)} (l : list Z) :
  (forall a, a ∈ l -> P a <-> Q a) -> filter P l = filter Q l.
Proof.
  induction l as [|a l IH]; intros He; [done|]. rewrite !filter_cons, IH by set_solver.
  specialize (He a (list_elem_of_here _ _)). destruct (decide (P a)), (decide (Q a)); tauto.
Qed.

Lemma fok_ext m m' L X : mm_free m' = mm_free m -> (forall a, a ∈ L -> free_of m' a = free_of m a) ->
  fok m L X -> fok m' L X.
Proof.
  intros Ht Hf (S & Hs & HS & Hsort). exists S. unfold free_seq in *. rewrite Ht. split_and!.
  - rewrite (filter_ext_in _ (fun a => free_of m a = 0)); [exact Hs|]. intros a Ha. by rewrite Hf.
  - rewrite (filter_ext_in _ (fun a => free_of m a <> 0)); [exact HS|]. intros a Ha. by rewrite Hf.
  - assert (forall a, a ∈ S -> a ∈ L) as Hin by (intros a; rewrite HS, list_elem_of_filter; tauto).
    clear Hs HS. induction Hsort as [|a S Hs IH HF]; constructor; [apply IH; set_solver|].
    rewrite Forall_forall in *. intros b Hb. rewrite !Hf by set_solver. by apply HF.
Qed.

(** The place of a new element in a sorted sequence. *)
Lemma sorted_insert (f : Z -> Z) (S : list Z) a : StronglySorted (fun a b => f a <= f b) S ->
  exists L1 L2, S = L1 ++ L2 /\ Forall (fun b => f b <= f a) L1 /\ Forall (fun b => f a < f b) L2 /\
    StronglySorted (fun a b => f a <= f b) (L1 ++ a :: L2).
Proof.
  induction 1 as [|b S Hs (L1 & L2 & -> & H1 & H2 & H3) HF].
  - exists [], []. split_and!; [done..|]. by repeat constructor.
  - destruct (decide (f b <= f a)) as [Hle|Hlt].
    + exists (b :: L1), L2. split_and!; [done|by constructor|done|]. constructor; [done|].
      apply Forall_app in HF as [HF1 HF2]. apply Forall_app. split; [done|]. by constructor.
    + exists [], (b :: L1 ++ L2). split_and!; [done|done| |].
      * constructor; [lia|]. eapply Forall_impl; [exact HF|]. simpl. lia.
      * constructor; [by constructor|]. constructor; [lia|]. eapply Forall_impl; [exact HF|]. simpl. lia.
Qed.

Lemma free_add_spec m L X a n : fok m L (a :: X) -> mm_info m !! a = Some n ->
  runs (mman_node_free_add m a) (fun m' => exists t, m' = set_freet m t /\ fok m' (a :: L) X).
Proof.
  intros (S & Hs & HS & Hsort) Hn. unfold mman_node_free_add. rewrite (get_node_Some _ _ _ Hn). cbn [rbind].
  assert (free_of m a = m_free n) as Hf by (unfold free_of; by rewrite (node_at_Some _ _ _ Hn)).
  destruct (Z.eqb_spec (m_free n) 0) as [He|He]; simpl.
  - apply runs_Done. exists (mm_free m). split; [by destruct m|]. exists S.
    rewrite !filter_cons, decide_True, decide_False by lia. split_and!; [|done..].
    eapply seq_tree_perm, Hs. simpl. solve_Permutation.
  - destruct (sorted_insert (free_of m) S a Hsort) as (L1 & L2 & -> & H1 & H2 & H3).
    eapply runs_bind; [eapply (seq_insert free_rb free_ob free_ob_rb _ L1 L2); [exact Hs|..]|].
    + eapply Forall_impl; [exact H1|]. intros b Hb. apply Z.ltb_ge. unfold free_of in *. lia.
    + eapply Forall_impl; [exact H2|]. intros b Hb. apply Z.ltb_lt. unfold free_of in *. lia.
    + intros t Ht. apply runs_Done. exists t. split; [done|]. exists (L1 ++ a :: L2).
      change (free_of (set_freet m t)) with (free_of m).
      rewrite !filter_cons, decide_False, decide_True by lia. split_and!; [done| |done].
      rewrite <- Permutation_middle. by rewrite HS.
Qed.

Lemma free_rem_spec m L X a n : fok m (a :: L) X -> mm_info m !! a = Some n ->
  runs (mman_node_free_rem m a) (fun m' => exists t, m' = set_freet m t /\ fok m' L (a :: X)).
Proof.
  intros (S & Hs & HS & Hsort) Hn. unfold mman_node_free_rem. rewrite (get_node_Some _ _ _ Hn). cbn [rbind].
  assert (free_of m a = m_free n) as Hf by (unfold free_of; by rewrite (node_at_Some _ _ _ Hn)).
  destruct (Z.eqb_spec (m_free n) 0) as [He|He]; simpl.
  - rewrite !filter_cons, decide_True, decide_False in * by lia.
    rewrite (seq_idle _ _ _ _ _ _ Hs) by set_solver. cbn [rbind]. apply runs_Done.
    exists (mm_free m). split; [by destruct m|]. exists S. split_and!; [|done..].
    eapply seq_tree_perm, Hs. simpl. solve_Permutation.
  - rewrite !filter_cons, decide_False, decide_True in * by lia.
    assert (a ∈ S) as (L1 & L2 & ->)%list_elem_of_split by (rewrite HS; set_solver).
    eapply runs_bind; [exact (seq_remove free_rb free_ob free_ob_rb _ _ _ _ _ Hs)|].
    intros t Ht. apply runs_Done. exists t. split; [done|]. exists (L1 ++ L2). split_and!; [done| |].
    + rewrite <- Permutation_middle in HS. by apply Permutation_cons_inv in HS.
    + change (free_of (set_freet m t)) with (free_of m). apply StronglySorted_app in Hsort as (Hc & Ha & Hb).
      apply StronglySorted_app. split_and!; [|done|by inversion Hb]. intros x y Hx Hy. apply Hc; set_solver.
Qed.

(** Setting the free space of a node moves it in the tree. *)
Lemma set_free_spec m L X a n f : fok m (a :: L) X -> mm_info m !! a = Some n -> a ∉ L ->
  runs (mman_node_set_free m a f) (fun m' => exists t,
    m' = set_freet (put_node m a (MNode (m_addr n) (m_size n) f)) t /\ fok m' (a :: L) X).
Proof.
  intros Hf Hn Ha. unfold mman_node_set_free. rewrite (get_node_Some _ _ _ Hn). cbn [rbind].
  destruct (Z.eqb_spec (m_free n) f) as [He|He].
  - apply runs_Done. exists (mm_free m). subst f. split; [|done].
    destruct m as [mn mf mi mo], n. unfold set_freet, put_node. simpl in *. by rewrite insert_id.
  - eapply runs_bind; [exact (free_rem_spec _ _ _ _ _ Hf Hn)|]. intros m1 (t & -> & Hf1).
    eapply runs_mono; [eapply (free_add_spec _ L X a (MNode (m_addr n) (m_size n) f))|].
    + eapply fok_ext, Hf1; [done|]. intros b Hb. unfold free_of, node_at. simpl. rewrite lookup_insert_ne; [done|].
      intros ->. done.
    + simpl. by rewrite lookup_insert_eq.
    + intros m2 (t2 & -> & Hf2). exists t2. split; [done|exact Hf2].
Qed.

(** ** The nodes tile the region *)

(** The nodes [L] with the free space behind them cover [x, e) without a gap. *)
Fixpoint tiled (info : gmap Z mman_node_t) (x : Z) (L : list Z) (e : Z) : Prop :=
  match L with
  | [] => x = e
  | a :: L => exists n, info !! a = Some n /\ m_addr n = x /\ 0 <= m_size n /\ 0 <= m_free n /\
      tiled info (x + m_size n + m_free n) L e
  end.

Lemma tiled_app info x L1 L2 e : tiled info x (L1 ++ L2) e <-> exists y, tiled info x L1 y /\ tiled info y L2 e.
Proof.
  revert x. induction L1 as [|a L1 IH]; intros x; simpl; [naive_solver|].
  setoid_rewrite IH. naive_solver.
Qed.

Lemma tiled_ext info info' x L e : (forall a, a ∈ L -> info' !! a = info !! a) -> tiled info x L e -> tiled info' x L e.
Proof.
  revert x. induction L as [|a L IH]; intros x He; simpl; [done|]. intros (n & Hn & Hr).
  exists n. rewrite He by set_solver. split; [done|]. split_and!; try apply Hr. apply IH; [set_solver|apply Hr].
Qed.

Lemma tiled_le info x L e : tiled info x L e -> x <= e.
Proof.
  revert x. induction L as [|a L IH]; intros x; simpl; [lia|]. intros (n & _ & _ & ? & ? & Ht). apply IH in Ht. lia.
Qed.

Lemma tiled_elem info x L e a : tiled info x L e -> a ∈ L ->
  exists n, info !! a = Some n /\ x <= m_addr n /\ 0 <= m_size n /\ 0 <= m_free n /\
    m_addr n + m_size n + m_free n <= e.
Proof.
  revert x. induction L as [|b L IH]; intros x; simpl; [by intros _ ?%elem_of_nil|].
  intros (n & Hn & <- & Hs & Hf & Ht). rewrite elem_of_cons. intros [->|Hin].
  - exists n. apply tiled_le in Ht. split_and!; [done|lia..].
  - destruct (IH _ Ht Hin) as (k & ? & ? & ? & ? & ?). exists k. split_and!; [done|lia..].
Qed.

(** The first node is the embedded one, the only one without a size. *)
Definition headed (m : mman_t) (L : list Z) : Prop :=
  exists L', L = mm_node m :: L' /\ m_size (node_at m (mm_node m)) = 0 /\
    Forall (fun a => 0 < m_size (node_at m a)) L'.

(** The state of an allocator for the region [lo, hi): the nodes [L] by
    address, the first of them the embedded one, and the nodes [X] that exist
    but are not in use. *)
Record mm_ok (m : mman_t) (L X : list Z) (lo hi : Z) : Prop := {
  mo_bounds : 0 < lo /\ hi <= 2 ^ 32;
  mo_head : headed m L;
  mo_nodes : nodes_seq m L X;
  mo_free : fok m L X;
  mo_tiled : tiled (mm_info m) lo L hi;
  mo_mem : Forall (fun a => is_Some (mm_info m !! a)) X;
}.

Lemma seq_foreach nd ob (Hob : forall a, ob (nd a) = a) h L X : seq_tree nd ob h L X ->
  rb_foreach (rb_rounds h) h = Done (nd <$> L).
Proof.
  intros (t & Hs & Ht & <-). eapply rb_foreach_spec; [exact Hs|].
  destruct Hs as (Hn & _ & Hm & _). unfold rb_rounds. rewrite Hm.
  assert (size (list_to_map (flat ob t 0 ++ (idle nd <$> X)) : gmap Z rb_node_t) =
    length (flat ob t 0 ++ (idle nd <$> X))) as ->.
  { rewrite <- (length_map_to_list (list_to_map _)). by rewrite map_to_list_to_map. }
  rewrite length_app, length_flat. unfold rb_fuel. lia.
Qed.

Lemma check_from_spec m L X L2 x e prev : nodes_seq m L X -> (forall a, a ∈ L2 -> a ∈ L) ->
  tiled (mm_info m) x L2 e -> 0 <= x -> e <= 2 ^ 32 ->
  match prev with Some q => m_addr q + m_size q + m_free q = x | None => True end ->
  check_from m prev (node_rb <$> L2) = Done tt.
Proof.
  intros Hs. revert x prev. induction L2 as [|a L2 IH]; intros x prev Hin Ht Hx He Hp; [done|].
  destruct Ht as (n & Hn & <- & Hs1 & Hf1 & Ht). pose proof (tiled_le _ _ _ _ Ht). rewrite fmap_cons.
  cbn [check_from]. destruct Hs as (t & Hs & Hrb & Hi).
  rewrite (seq_value node_ob _ _ _ _ Hs), node_ob_rb by (rewrite Hi; apply list_elem_of_fmap_2, Hin; set_solver).
  cbn [rbind]. rewrite (get_node_Some _ _ _ Hn). cbn [rbind].
  assert (check_from m (Some n) (node_rb <$> L2) = Done tt) as Hrec by (eapply IH; [set_solver|exact Ht|lia|done|lia]).
  destruct prev as [q|]; [|done]. rewrite Hp, u64_small, Z.eqb_refl by lia. done.
Qed.

Lemma mman_check_spec m L X lo hi : nodes_seq m L X -> tiled (mm_info m) lo L hi -> 0 < lo -> hi <= 2 ^ 32 ->
  mman_check m = Done tt.
Proof.
  intros Hs Ht Hlo Hhi. unfold mman_check. rewrite (seq_foreach _ _ node_ob_rb _ _ _ Hs). cbn [rbind].
  eapply check_from_spec; [exact Hs|done|exact Ht|lia|lia|done].
Qed.

(** ** Taking a range out of a free space *)

Lemma mm_NoDup m L X lo hi : mm_ok m L X lo hi -> NoDup (L ++ X).
Proof. intros Hok. eapply (seq_NoDup node_rb), (mo_nodes _ _ _ _ _ Hok). Qed.

Lemma mm_nonzero m L X lo hi a : mm_ok m L X lo hi -> a ∈ L -> a <> 0.
Proof.
  intros Hok Ha. destruct (mo_free _ _ _ _ _ Hok) as (S & Hs & HS & _). pose proof (seq_okp _ _ _ _ _ Hs) as Ho.
  rewrite Forall_forall in Ho. destruct (Ho a) as [? _]; [|unfold free_rb in *; lia].
  apply elem_of_app. destruct (decide (free_of m a = 0)); [right; apply elem_of_app; right|left; rewrite HS].
  all: by apply list_elem_of_filter.
Qed.

Lemma node_add_spec m L1 L2 X a n : nodes_seq m (L1 ++ L2) (a :: X) -> mm_info m !! a = Some n ->
  Forall (fun b => m_addr (node_at m b) <= m_addr n) L1 -> Forall (fun b => m_addr n < m_addr (node_at m b)) L2 ->
  runs (mman_node_add m a) (fun m' => exists t, m' = set_nodes m t /\ nodes_seq m' (L1 ++ a :: L2) X).
Proof.
  intros Hs Hn H1 H2. unfold mman_node_add. rewrite (get_node_Some _ _ _ Hn). cbn [rbind].
  eapply runs_bind; [eapply (seq_insert node_rb node_ob node_ob_rb _ L1 L2); [exact Hs|..]|].
  - eapply Forall_impl; [exact H1|]. intros b Hb. by apply Z.ltb_ge.
  - eapply Forall_impl; [exact H2|]. intros b Hb. by apply Z.ltb_lt.
  - intros t Ht. apply runs_Done. by exists t.
Qed.

(** The node [f] and its free space are divided: [a] gets the range of [size]
    bytes from [addr] on. *)
Definition placed (m : mman_t) (f a : Z) (fn : mman_node_t) (addr size : Z) : gmap Z mman_node_t :=
  <[f := MNode (m_addr fn) (m_size fn) (addr - (m_addr fn + m_size fn))]>
    (<[a := MNode addr size (m_addr fn + m_size fn + m_free fn - addr - size)]> (mm_info m)).

Lemma tiled_placed m L1 f L2 a fn addr size lo hi : tiled (mm_info m) lo (L1 ++ f :: L2) hi ->
  NoDup (a :: L1 ++ f :: L2) -> mm_info m !! f = Some fn -> 0 <= size ->
  m_addr fn + m_size fn <= addr -> addr + size <= m_addr fn + m_size fn + m_free fn ->
  tiled (placed m f a fn addr size) lo (L1 ++ f :: a :: L2) hi.
Proof.
  intros Ht Hn Hf Hsz Hlo Hhi. unfold placed.
  apply NoDup_cons in Hn as [Ha Hn]. apply NoDup_app in Hn as (_ & Hd & Hn). apply NoDup_cons in Hn as [Hf2 _].
  assert (a <> f) by set_solver. assert (f ∉ L1) by (intros ?; eapply Hd; [done|set_solver]).
  apply tiled_app in Ht as (x & H1 & Ht). apply tiled_app. exists x. split.
  - eapply tiled_ext, H1. intros b Hb. rewrite !lookup_insert_ne; [done|set_solver..].
  - destruct Ht as (fn' & Hf' & Hx & Hs & Hfr & Ht). rewrite Hf in Hf'. injection Hf' as <-.
    simpl. eexists. rewrite lookup_insert_eq. split; [done|]. simpl. split_and!; [lia..|].
    eexists. rewrite lookup_insert_ne, lookup_insert_eq by done. split; [done|]. simpl. split_and!; [lia..|].
    replace (x + _ + _ + _ + _) with (x + m_size fn + m_free fn) by lia.
    eapply tiled_ext, Ht. intros b Hb. rewrite !lookup_insert_ne; [done|set_solver..].
Qed.

Lemma tiled_split m L1 f L2 lo hi fn : tiled (mm_info m) lo (L1 ++ f :: L2) hi -> mm_info m !! f = Some fn ->
  (forall b, b ∈ L1 -> m_addr (node_at m b) + m_size (node_at m b) + m_free (node_at m b) <= m_addr fn) /\
  (forall b, b ∈ L2 -> m_addr fn + m_size fn + m_free fn <= m_addr (node_at m b)) /\
  lo <= m_addr fn /\ 0 <= m_size fn /\ 0 <= m_free fn /\ m_addr fn + m_size fn + m_free fn <= hi.
Proof.
  intros (x & H1 & fn' & Hf' & <- & Hs & Hfr & H2)%tiled_app Hf. rewrite Hf in Hf'. injection Hf' as <-.
  pose proof (tiled_le _ _ _ _ H1). pose proof (tiled_le _ _ _ _ H2). split_and!; [| |lia..].
  - intros b Hb. destruct (tiled_elem _ _ _ _ _ H1 Hb) as (n & Hn & ?). rewrite (node_at_Some _ _ _ Hn). lia.
  - intros b Hb. destruct (tiled_elem _ _ _ _ _ H2 Hb) as (n & Hn & ?). rewrite (node_at_Some _ _ _ Hn). lia.
Qed.

Lemma tiled_order m L1 f L2 lo hi fn : tiled (mm_info m) lo (L1 ++ f :: L2) hi -> mm_info m !! f = Some fn ->
  0 < m_size fn + m_free fn ->
  Forall (fun b => m_addr (node_at m b) <= m_addr fn) L1 /\ Forall (fun b => m_addr fn < m_addr (node_at m b)) L2.
Proof.
  intros Ht Hfn Hp. destruct (tiled_split _ _ _ _ _ _ _ Ht Hfn) as (Hlt & Hgt & _).
  split; apply Forall_forall; intros b Hb; [specialize (Hlt b Hb)|specialize (Hgt b Hb); lia].
  destruct (tiled_elem _ _ _ _ b Ht) as (n & Hn & ?); [set_solver|]. rewrite (node_at_Some _ _ _ Hn) in *. lia.
Qed.

Lemma headed_same m m' L : headed m L -> mm_node m' = mm_node m ->
  (forall b, b ∈ L -> m_size (node_at m b) = 0 -> m_size (node_at m' b) = 0) ->
  (forall b, b ∈ L -> 0 < m_size (node_at m b) -> 0 < m_size (node_at m' b)) -> headed m' L.
Proof.
  intros (L' & -> & H0 & HF) Hn Hz Hp. unfold headed. rewrite Hn.
  exists L'. split_and!; [done|apply Hz; [set_solver|done]|].
  rewrite Forall_forall in *. intros b Hb. apply Hp; [set_solver|by apply HF].
Qed.

(** A node can come and go anywhere but in front. *)
Lemma headed_insert m L1 f L2 a : headed m (L1 ++ f :: L2) -> 0 < m_size (node_at m a) -> headed m (L1 ++ f :: a :: L2).
Proof.
  intros (L' & He & H0 & HF) Ha. destruct L1 as [|x L1]; simpl in *; injection He as -> <-; eexists; (split; [done|]); (split; [done|]).
  - by constructor.
  - apply Forall_app in HF as [HF1 [HFf HF2]%Forall_cons]. apply Forall_app. by repeat constructor.
Qed.

Lemma headed_remove m L1 f L2 a : headed m (L1 ++ f :: a :: L2) -> headed m (L1 ++ f :: L2).
Proof.
  intros (L' & He & H0 & HF). destruct L1 as [|x L1]; simpl in *; injection He as -> <-; eexists; (split; [done|]); (split; [done|]).
  - by apply Forall_cons in HF as [_ ?].
  - apply Forall_app in HF as [HF1 [HFf [_ HF2]%Forall_cons]%Forall_cons]. apply Forall_app. by repeat constructor.
Qed.

Lemma place_spec {A} m L1 f L2 X a fn lo hi addr size (k : mman_t -> res A) (Q : A -> Prop) :
  mm_ok m (L1 ++ f :: L2) (a :: X) lo hi -> mm_info m !! f = Some fn -> 0 < size ->
  m_addr fn + m_size fn <= addr -> addr + size <= m_addr fn + m_size fn + m_free fn ->
  (forall m', mm_ok m' (L1 ++ f :: a :: L2) X lo hi -> mm_info m' = placed m f a fn addr size -> mm_node m' = mm_node m ->
    runs (k m') Q) ->
  runs (let* m1 := mman_node_free_add (put_node m a (MNode addr size (m_addr fn + m_size fn + m_free fn - addr - size))) a in
        let* m2 := mman_node_add m1 a in
        let* m3 := mman_node_set_free m2 f (addr - (m_addr fn + m_size fn)) in
        let* _ := mman_check m3 in
        k m3) Q.
Proof.
  intros Hok Hfn Hsz Hlo Hhi Hk. pose proof (mm_NoDup _ _ _ _ _ Hok) as Hnd.
  destruct Hok as [Hb Hhd Hns Hfr Ht Hm].
  rewrite <- Permutation_middle in Hnd. apply NoDup_cons in Hnd as [Ha Hnd]. apply NoDup_app in Hnd as (Hnd & _ & _).
  assert (a ∉ L1 ++ f :: L2) as HaL by set_solver. clear Ha.
  assert (f ∉ a :: L1 ++ L2) as HfL.
  { rewrite <- Permutation_middle in Hnd. apply NoDup_cons in Hnd as [? _]. set_solver. }
  set (an := MNode addr size (m_addr fn + m_size fn + m_free fn - addr - size)).
  set (m0 := put_node m a an).
  destruct (tiled_split _ _ _ _ _ _ _ Ht Hfn) as (Hlt & Hgt & ? & ? & ? & ?).
  assert (forall b, b ∈ L1 ++ f :: L2 -> node_at m0 b = node_at m b) as Hat.
  { intros b Hin. unfold node_at. simpl. rewrite lookup_insert_ne; [done|]. by intros ->. }
  eapply runs_bind.
  { eapply (free_add_spec m0 (L1 ++ f :: L2) X a an); [|apply lookup_insert_eq].
    eapply fok_ext, Hfr; [done|]. intros b Hin. unfold free_of. by rewrite Hat. }
  intros m1 (t1 & -> & Hfr1). eapply runs_bind.
  { eapply (node_add_spec (set_freet m0 t1) (L1 ++ [f]) L2 X a an); [|apply lookup_insert_eq|..].
    - unfold nodes_seq. rewrite <- app_assoc. exact Hns.
    - apply Forall_forall. intros b Hin. change (node_at (set_freet m0 t1) b) with (node_at m0 b). rewrite Hat by set_solver.
      apply elem_of_app in Hin as [Hin|Hin%list_elem_of_singleton].
      + specialize (Hlt b Hin). destruct (tiled_elem _ _ _ _ b Ht) as (bn & Hbn & ?); [set_solver|].
        rewrite (node_at_Some _ _ _ Hbn) in *. simpl. lia.
      + subst b. rewrite (node_at_Some _ _ _ Hfn). simpl. lia.
    - apply Forall_forall. intros b Hin. change (node_at (set_freet m0 t1) b) with (node_at m0 b). rewrite Hat by set_solver.
      specialize (Hgt b Hin). simpl. lia. }
  intros m2 (t2 & -> & Hns2). rewrite <- app_assoc in Hns2. simpl in Hns2. eapply runs_bind.
  { eapply (set_free_spec _ (a :: L1 ++ L2) X f fn (addr - (m_addr fn + m_size fn))); [| |done].
    - eapply fok_ext; [reflexivity|reflexivity|]. eapply fok_perm, Hfr1; [|done].  solve_Permutation.
    - simpl. rewrite lookup_insert_ne; [done|]. set_solver. }
  intros m3 (t3 & -> & Hfr3). set (m3 := set_freet _ t3) in *.
  assert (tiled (mm_info m3) lo (L1 ++ f :: a :: L2) hi) as Ht3.
  { apply tiled_placed; [done| |done|lia..]. by constructor. }
  rewrite (mman_check_spec m3 _ _ _ _ Hns2 Ht3) by lia. cbn [rbind].
  apply Hk; [|done..]. constructor; [done| |done| |done|].
  - assert (forall b, b ∈ L1 ++ f :: L2 -> m_size (node_at m3 b) = m_size (node_at m b)) as Hsame.
    { intros b Hin. unfold node_at at 1. simpl. destruct (decide (b = f)) as [->|].
      - rewrite lookup_insert_eq. by rewrite (node_at_Some _ _ _ Hfn).
      - rewrite lookup_insert_ne by done. by rewrite <- Hat by done. }
    apply headed_insert.
    + eapply headed_same; [exact Hhd|done|..]; intros b Hin; by rewrite Hsame.
    + unfold node_at. simpl. rewrite lookup_insert_ne, lookup_insert_eq by set_solver. done.
  - eapply fok_perm, Hfr3; [|done]. solve_Permutation.
  - apply Forall_cons in Hm as [_ Hm]. eapply Forall_impl; [exact Hm|]. intros b Hsome. simpl. rewrite !lookup_insert_is_Some'.
    tauto.
Qed.

(** ** Allocation *)

Definition start_of (n : mman_node_t) : Z := m_addr n + m_size n.

Lemma ALIGN_up x k : 0 <= k <= 32 -> 0 <= x <= 2 ^ 32 ->
  x <= ALIGN 64 x (2 ^ k) < x + 2 ^ k /\ ALIGN 64 x (2 ^ k) mod 2 ^ k = 0 /\
  (x mod 2 ^ k = 0 -> ALIGN 64 x (2 ^ k) = x).
Proof.
  intros Hk Hx. assert (0 < 2 ^ k <= 2 ^ 32) as Hp by (split; [apply Z.pow_pos_nonneg; lia|apply Z.pow_le_mono_r; lia]).
  rewrite ALIGN_pow2 by lia. set (y := x + (2 ^ k - 1)).
  pose proof (Z.div_mod y (2 ^ k) ltac:(lia)). pose proof (Z.mod_pos_bound y (2 ^ k) ltac:(lia)).
  split; [unfold y in *; nia|]. split; [apply Z.mod_mul; lia|].
  intros Hm. unfold y. pose proof (Z.div_mod x (2 ^ k) ltac:(lia)) as Hd.
  replace (x + (2 ^ k - 1)) with (2 ^ k - 1 + x / 2 ^ k * 2 ^ k) by lia.
  rewrite Z.div_add, Z.div_small by lia. lia.
Qed.

(** The free space behind [n] has room for [size] bytes at a multiple of 2^k. *)
Definition fits (size k : Z) (n : mman_node_t) : Prop :=
  ALIGN 64 (start_of n) (2 ^ k) + size <= start_of n + m_free n.

#[global] Instance fits_dec size k n : Decision (fits size k n).
Proof. unfold fits. apply _. Defined.

Lemma alloc_code_spec m size k free b n hi : mm_info m !! b = Some n -> 0 <= k <= 32 -> 0 < size ->
  0 <= m_addr n -> 0 <= m_size n -> 0 <= m_free n -> start_of n + m_free n <= hi -> hi <= 2 ^ 32 ->
  alloc_code m size (2 ^ k) free b =
    (if decide (m_free n < size) then (free, GoRight)
     else if decide (fits size k n) then (b, if m_free n =? size then Leave else GoLeft)
     else (free, GoLeft)).
Proof.
  intros Hn Hk Hsz Ha Hs Hf He Hhi. unfold alloc_code, fits. rewrite (node_at_Some _ _ _ Hn).
  rewrite Z.gtb_ltb. destruct (Z.ltb_spec (m_free n) size); [by rewrite decide_True|rewrite decide_False by lia].
  unfold start_of in *. rewrite (u64_small (m_addr n + m_size n)) by lia. set (x := m_addr n + m_size n) in *.
  assert (0 < 2 ^ k <= 2 ^ 32) as Hp by (split; [apply Z.pow_pos_nonneg; lia|apply Z.pow_le_mono_r; lia]).
  destruct (ALIGN_up x k) as (Hal & _ & _); [lia|lia|]. set (y := ALIGN 64 x (2 ^ k)) in *.
  rewrite (u64_small (y - x)), (u64_small (size + (y - x))) by lia. rewrite Z.geb_leb.
  destruct (Z.eqb_spec (y - x) 0), (Z.leb_spec (size + (y - x)) (m_free n)); simpl;
    (destruct (decide (y + size <= x + m_free n)); [|try lia]); try (by destruct (m_free n =? size)); lia.
Qed.

Lemma sorted_sub (R : Z -> Z -> Prop) L1 b L2 : StronglySorted R (L1 ++ b :: L2) ->
  StronglySorted R L1 /\ StronglySorted R L2 /\ (forall c, c ∈ L1 -> R c b) /\ (forall c, c ∈ L2 -> R b c).
Proof.
  intros (Hc & H1 & H2)%StronglySorted_app. inversion H2 as [|x l H2' HF]; subst. rewrite Forall_forall in HF.
  split_and!; [done|done| |done]. intros c Hin. apply Hc; [done|set_solver].
Qed.

(** All free spaces begin at a multiple of 2^k. *)
Definition all_aligned (m : mman_t) (L : list Z) (k : Z) : Prop :=
  forall b, b ∈ L -> start_of (node_at m b) mod 2 ^ k = 0.

(** The invariant of the search of [mman_alloc]: the best space so far is [f],
    the spaces [R] are left. *)
Record alloc_inv (m : mman_t) (L S : list Z) (size k f : Z) (R : list Z) : Prop := {
  ai_in : forall b, b ∈ R -> b ∈ S;
  ai_sorted : StronglySorted (fun a b => free_of m a <= free_of m b) R;
  ai_fits : f = 0 \/ f ∈ L /\ fits size k (node_at m f);
  ai_le : f <> 0 -> forall b, b ∈ R -> free_of m b <= free_of m f;
  ai_best : all_aligned m L k -> forall b, b ∈ S -> size <= free_of m b ->
              b ∈ R \/ f <> 0 /\ free_of m f <= free_of m b;
}.

Lemma alloc_inv_step m L S size k f L1 b L2 n hi : alloc_inv m L S size k f (L1 ++ b :: L2) ->
  b ∈ L -> b <> 0 -> mm_info m !! b = Some n -> 0 <= k <= 32 -> 0 < size ->
  0 <= m_addr n -> 0 <= m_size n -> 0 <= m_free n -> start_of n + m_free n <= hi -> hi <= 2 ^ 32 ->
  match alloc_code m size (2 ^ k) f b with
  | (f', GoLeft) => alloc_inv m L S size k f' L1
  | (f', GoRight) => alloc_inv m L S size k f' L2
  | (f', Leave) => alloc_inv m L S size k f' []
  end.
Proof.
  intros [Hin Hst Hf Hle Hbest] HbL Hb0 Hn Hk Hsz Ha Hs Hfr He Hhi. apply sorted_sub in Hst as (Hs1 & Hs2 & H1 & H2).
  rewrite (alloc_code_spec m size k f b n hi) by done.
  assert (free_of m b = m_free n) as Hfb by (unfold free_of; by rewrite (node_at_Some _ _ _ Hn)).
  assert (forall c, c ∈ L1 ++ b :: L2 -> c ∈ L1 \/ c = b \/ c ∈ L2) as Hcase by set_solver.
  destruct (decide (m_free n < size)) as [Hlt|Hge].
  - constructor; [set_solver|done|done|intros ? c Hc; apply Hle; [done|set_solver]|].
    intros Hal c Hc Hsc. destruct (Hbest Hal c Hc Hsc) as [[Hc1|[->|Hc2]]%Hcase|?]; [|lia|by left|by right].
    specialize (H1 c Hc1). lia.
  - destruct (decide (fits size k n)) as [Hft|Hnf].
    + assert (forall R, (R = L1 \/ R = [] /\ m_free n = size) -> alloc_inv m L S size k b R) as Hgo.
      { intros R HR. assert (forall c, c ∈ R -> c ∈ L1) as HRL by (intros c; destruct HR as [->|[-> _]]; set_solver).
        constructor.
        - set_solver.
        - destruct HR as [->|[-> _]]; [done|constructor].
        - right. by rewrite (node_at_Some _ _ _ Hn).
        - intros _ c Hc. by apply H1, HRL.
        - intros Hal c Hc Hsc. destruct HR as [->|[-> Heq]]; [|right; split; [done|lia]].
          destruct (Hbest Hal c Hc Hsc) as [[Hc1|[->|Hc2]]%Hcase|[Hf0 Hfc]]; [by left|right; done|right; auto|].
          right. split; [done|]. specialize (Hle Hf0 b). transitivity (free_of m f); [|done]. apply Hle. set_solver. }
      destruct (Z.eqb_spec (m_free n) size); apply Hgo; auto.
    + constructor; [set_solver|done|done|intros ? c Hc; apply Hle; [done|set_solver]|].
      intros Hal. exfalso. apply Hnf. unfold fits. specialize (Hal b HbL). rewrite (node_at_Some _ _ _ Hn) in Hal.
      destruct (ALIGN_up (start_of n) k) as (_ & _ & Heq); [lia|unfold start_of in *; lia|]. rewrite Heq by done. lia.
Qed.

(** The search finds a space that fits; when all spaces begin at a multiple of
    the alignment, a smallest one. *)
Lemma alloc_search m L X lo hi size k : mm_ok m L X lo hi -> 0 <= k <= 32 -> 0 < size ->
  runs (rb_search rb_fuel (mm_free m) (alloc_code m size (2 ^ k)) 0) (fun f =>
    (f = 0 \/ f ∈ L /\ fits size k (node_at m f)) /\
    (all_aligned m L k -> forall b, b ∈ L -> size <= free_of m b -> f <> 0 /\ free_of m f <= free_of m b)).
Proof.
  intros Hok Hk Hsz. destruct (mo_free _ _ _ _ _ Hok) as (S & Hs & HS & Hsort).
  assert (forall b, b ∈ S <-> b ∈ L /\ free_of m b <> 0) as HSL by (intros b; rewrite HS, list_elem_of_filter; tauto).
  pose proof (mo_tiled _ _ _ _ _ Hok) as Ht. destruct (mo_bounds _ _ _ _ _ Hok) as [Hlo Hhi].
  assert (forall f, alloc_inv m L S size k f [] -> (f = 0 \/ f ∈ L /\ fits size k (node_at m f)) /\
    (all_aligned m L k -> forall b, b ∈ L -> size <= free_of m b -> f <> 0 /\ free_of m f <= free_of m b)) as Hend.
  { intros f [_ _ Hf _ Hbest]. split; [done|]. intros Hal b Hb Hsb.
    destruct (Hbest Hal b) as [[]%elem_of_nil|?]; [|done|done]. apply HSL. split; [done|]. lia. }
  eapply (seq_search free_rb free_ob free_ob_rb _ S _ _ _ (alloc_inv m L S size k)).
  - exact Hs.
  - constructor; [done|done|by left|done|]. intros _ b Hb _. by left.
  - intros f L1 b L2 Hinv. assert (b ∈ S) as Hb by (apply (ai_in _ _ _ _ _ _ _ Hinv); set_solver).
    pose proof Hb as [HbL _]%HSL. destruct (tiled_elem _ _ _ _ _ Ht HbL) as (n & Hn & Hx & Hsz0 & Hfr & He).
    pose proof (alloc_inv_step m L S size k f L1 b L2 n hi Hinv HbL) as Hstep.
    assert (b <> 0) as Hb0.
    { pose proof (seq_okp _ _ _ _ _ Hs) as Ho. rewrite Forall_forall in Ho. destruct (Ho b) as [? _]; [set_solver|].
      unfold free_rb in *. lia. }
    specialize (Hstep Hb0 Hn Hk Hsz ltac:(lia) Hsz0 Hfr ltac:(unfold start_of; lia) Hhi).
    destruct (alloc_code m size (2 ^ k) f b) as [f' []]; [done|done|by apply Hend].
  - exact Hend.
Qed.

Lemma mman_alloc_run m L X a lo hi size k : mm_ok m L (a :: X) lo hi -> 0 <= k <= 32 -> 0 < size ->
  runs (mman_alloc m size (2 ^ k) a) (fun '(r, m') =>
    (r = - ENOMEM /\ m' = m /\ (all_aligned m L k -> forall b, b ∈ L -> free_of m b < size)) \/
    (r = 0 /\ exists L1 f L2 fn addr, L = L1 ++ f :: L2 /\ mm_info m !! f = Some fn /\
       addr mod 2 ^ k = 0 /\ start_of fn <= addr < start_of fn + 2 ^ k /\ addr + size <= start_of fn + m_free fn /\
       (all_aligned m L k -> forall b, b ∈ L -> size <= free_of m b -> m_free fn <= free_of m b) /\
       mm_ok m' (L1 ++ f :: a :: L2) X lo hi /\ mm_info m' = placed m f a fn addr size)).
Proof.
  intros Hok Hk Hsz. unfold mman_alloc.
  eapply runs_bind; [exact (alloc_search _ _ _ _ _ _ _ Hok Hk Hsz)|]. intros f [Hf Hbest].
  destruct (Z.eqb_spec f 0) as [->|Hf0].
  { apply runs_Done. left. split_and!; [done..|]. intros Hal b Hb.
    destruct (Z.lt_ge_cases (free_of m b) size); [done|]. by destruct (Hbest Hal b Hb). }
  destruct Hf as [->|[HfL Hfit]]; [done|].
  destruct (mo_bounds _ _ _ _ _ Hok) as [Hlo Hhi].
  destruct (tiled_elem _ _ _ _ _ (mo_tiled _ _ _ _ _ Hok) HfL) as (fn & Hfn & Hx & Hs & Hfr & He).
  rewrite (node_at_Some _ _ _ Hfn) in Hfit. rewrite (get_node_Some _ _ _ Hfn). cbn [rbind].
  pose proof (mo_mem _ _ _ _ _ Hok) as [[an Han] _]%Forall_cons. rewrite (get_node_Some _ _ _ Han). cbn [rbind].
  rewrite (u64_small (m_addr fn + m_size fn)) by lia. fold (start_of fn). unfold fits in Hfit.
  destruct (ALIGN_up (start_of fn) k) as (Hal & Hmod & _); [lia|unfold start_of; lia|].
  set (addr := ALIGN 64 (start_of fn) (2 ^ k)) in *.
  assert (0 < 2 ^ k <= 2 ^ 32) as Hp by (split; [apply Z.pow_pos_nonneg; lia|apply Z.pow_le_mono_r; lia]).
  unfold start_of in *. rewrite (u64_small (addr - (m_addr fn + m_size fn))) by lia.
  rewrite (u64_small (m_free fn - size - _)) by lia.
  replace (m_free fn - size - (addr - (m_addr fn + m_size fn))) with (m_addr fn + m_size fn + m_free fn - addr - size) by lia.
  apply list_elem_of_split in HfL as (L1 & L2 & ->).
  eapply (place_spec m L1 f L2 X a fn lo hi addr size); [done|done|lia|lia|lia|].
  intros m' Hok' Hinfo Hnode. apply runs_Done. right. split; [done|]. exists L1, f, L2, fn, addr. split_and!; try done; try lia.
  intros Hall b Hb Hsb. destruct (Hbest Hall b Hb Hsb) as [_ Hle]. unfold free_of at 1 in Hle.
  by rewrite (node_at_Some _ _ _ Hfn) in Hle.
Qed.

(** ** Insertion at a given address *)

(** Where the search of [mman_insert] goes: right at the nodes before [f], in
    whose free space the address lies, left at those behind it. *)
Lemma insert_code_spec m L1 f L2 X lo hi addr fn s b : mm_ok m (L1 ++ f :: L2) X lo hi -> mm_info m !! f = Some fn ->
  start_of fn <= addr -> addr + 1 < start_of fn + m_free fn ->
  (b ∈ L1 -> exists s', insert_code m addr s b = (s', GoRight)) /\
  (b ∈ L2 -> exists s', insert_code m addr s b = (s', GoLeft)) /\
  (b = f -> insert_code m addr s b = ((f, start_of fn - 1), Leave)).
Proof.
  intros Hok Hfn Hlo' Hhi'. pose proof (mo_tiled _ _ _ _ _ Hok) as Ht. destruct (mo_bounds _ _ _ _ _ Hok) as [Hlo Hhi].
  destruct (tiled_split _ _ _ _ _ _ _ Ht Hfn) as (Hlt & Hgt & ? & ? & ? & ?). unfold start_of in *.
  destruct (decide (b ∈ L1 ++ f :: L2)) as [HbL|Hnot]; [|set_solver].
  destruct (tiled_elem _ _ _ _ _ Ht HbL) as (n & Hn & ? & ? & ? & ?).
  specialize (Hlt b). specialize (Hgt b).
  unfold insert_code, mman_node_end. rewrite (node_at_Some _ _ _ Hn) in *. cbn zeta.
  rewrite (u64_small (m_addr n - 1 + m_size n)) by lia. rewrite (u32_small (m_addr n - 1 + m_size n)) by lia.
  rewrite (u64_small (m_addr n - 1 + m_size n + m_free n)) by lia. rewrite Z.gtb_ltb. split_and!.
  - intros Hb. specialize (Hlt Hb). rewrite (proj2 (Z.ltb_ge addr _)), andb_false_r by lia.
    rewrite (proj2 (Z.ltb_ge addr _)) by lia. eauto.
  - intros Hb. specialize (Hgt Hb). rewrite (proj2 (Z.ltb_ge _ addr)) by lia. simpl.
    rewrite (proj2 (Z.ltb_lt addr _)) by lia. eauto.
  - intros ->. rewrite Hfn in Hn. injection Hn as <-.
    rewrite (proj2 (Z.ltb_lt _ addr)), (proj2 (Z.ltb_lt addr _)) by lia. simpl. do 2 f_equal. lia.
Qed.

Lemma insert_search m L1 f L2 X lo hi addr fn : mm_ok m (L1 ++ f :: L2) X lo hi -> mm_info m !! f = Some fn ->
  start_of fn <= addr -> addr + 1 < start_of fn + m_free fn ->
  rb_search rb_fuel (mm_nodes m) (insert_code m addr) (0, 0) = Done (f, start_of fn - 1).
Proof.
  intros Hok Hfn Hlo' Hhi'.
  assert (runs (rb_search rb_fuel (mm_nodes m) (insert_code m addr) (0, 0)) (fun s => s = (f, start_of fn - 1))) as (s & Hs & ->); [|done].
  eapply (seq_search node_rb node_ob node_ob_rb _ (L1 ++ f :: L2) _ _ _ (fun _ R => exists R1 R2, R = R1 ++ f :: R2 /\
    (forall b, b ∈ R1 -> b ∈ L1) /\ (forall b, b ∈ R2 -> b ∈ L2))).
  - exact (mo_nodes _ _ _ _ _ Hok).
  - by exists L1, L2.
  - intros s K1 b K2 (R1 & R2 & HR & H1 & H2).
    destruct (insert_code_spec _ _ _ _ _ _ _ _ _ s b Hok Hfn Hlo' Hhi') as (Hl & Hr & Hm).
    apply app_eq_inv in HR as [(k & -> & HR)|(k & -> & HR)]; destruct k as [|c k]; injection HR as -> HR.
    + rewrite Hm by done. done.
    + destruct Hr as (s' & ->); [apply H2; rewrite HR; set_solver|]. exists R1, k. split_and!; [done..|]. set_solver.
    + rewrite Hm by done. done.
    + destruct Hl as (s' & ->); [apply H1; set_solver|]. exists k, R2. split_and!; [done| |done]. set_solver.
  - intros s ([|? ?] & R2 & HR & _); discriminate.
Qed.

Lemma mman_insert_run m L1 f L2 X a lo hi addr size fn : mm_ok m (L1 ++ f :: L2) (a :: X) lo hi ->
  mm_info m !! f = Some fn -> 1 < size -> start_of fn <= addr -> addr + size <= start_of fn + m_free fn ->
  runs (mman_insert m addr size a) (fun m' =>
    mm_ok m' (L1 ++ f :: a :: L2) X lo hi /\ mm_info m' = placed m f a fn addr size).
Proof.
  intros Hok Hfn Hsz Hlo' Hhi'. destruct (mo_bounds _ _ _ _ _ Hok) as [Hlo Hhi].
  unfold mman_insert. rewrite (insert_search _ _ _ _ _ _ _ addr _ Hok Hfn) by lia. cbn [rbind].
  assert (f <> 0) as Hf0 by (eapply mm_nonzero; [exact Hok|set_solver]).
  rewrite (proj2 (Z.eqb_neq f 0)) by done. simpl. rewrite (get_node_Some _ _ _ Hfn). cbn [rbind].
  pose proof (mo_mem _ _ _ _ _ Hok) as [[an Han] _]%Forall_cons. rewrite (get_node_Some _ _ _ Han). cbn [rbind].
  destruct (tiled_split _ _ _ _ _ _ _ (mo_tiled _ _ _ _ _ Hok) Hfn) as (_ & _ & ? & ? & ? & ?). unfold start_of in *.
  rewrite (u32_small (m_addr fn + m_size fn - 1 + m_free fn)) by lia. rewrite (u64_small (addr - 1 + size)) by lia.
  rewrite (u64_small (_ - (addr - 1 + size))) by lia. rewrite (u64_small (addr - _ - 1)) by lia.
  replace (m_addr fn + m_size fn - 1 + m_free fn - (addr - 1 + size)) with (m_addr fn + m_size fn + m_free fn - addr - size) by lia.
  replace (addr - (m_addr fn + m_size fn - 1) - 1) with (addr - (m_addr fn + m_size fn)) by lia.
  eapply (place_spec m L1 f L2 X a fn lo hi addr size); [done|done|lia|lia|lia|].
  intros m' Hok' Hinfo Hnode. by apply runs_Done.
Qed.

(** ** Freeing *)

Lemma tiled_merge info L1 p a L2 lo hi pn n : tiled info lo (L1 ++ p :: a :: L2) hi -> p ∉ a :: L1 ++ L2 ->
  info !! p = Some pn -> info !! a = Some n ->
  tiled (<[p := MNode (m_addr pn) (m_size pn) (m_free pn + m_free n + m_size n)]> info) lo (L1 ++ p :: L2) hi /\
  0 <= m_free pn + m_free n + m_size n <= hi - lo.
Proof.
  intros (x & H1 & pn' & Hp' & Hx & ? & ? & n' & Hn' & Hx2 & ? & ? & H2)%tiled_app HpL Hpn Hn.
  rewrite Hpn in Hp'. injection Hp' as <-. rewrite Hn in Hn'. injection Hn' as <-.
  pose proof (tiled_le _ _ _ _ H1). pose proof (tiled_le _ _ _ _ H2). split; [|lia].
  apply tiled_app. exists x. split; [|eexists; simpl; rewrite lookup_insert_eq; split; [done|]; simpl; split_and!; [lia..|]].
  - eapply tiled_ext, H1. intros b Hin. rewrite lookup_insert_ne; [done|set_solver].
  - replace (x + _ + _) with (x + m_size pn + m_free pn + m_size n + m_free n) by lia.
    eapply tiled_ext, H2. intros b Hin. rewrite lookup_insert_ne; [done|set_solver].
Qed.

Lemma mman_free_run m L1 p a L2 X lo hi pn n : mm_ok m (L1 ++ p :: a :: L2) X lo hi ->
  mm_info m !! p = Some pn -> mm_info m !! a = Some n ->
  runs (mman_free m a) (fun m' => mm_ok m' (L1 ++ p :: L2) (a :: X) lo hi /\
    mm_info m' = <[p := MNode (m_addr pn) (m_size pn) (m_free pn + m_free n + m_size n)]> (mm_info m)).
Proof.
  intros Hok Hpn Hn. pose proof (mm_NoDup _ _ _ _ _ Hok) as Hnd. destruct (mo_bounds _ _ _ _ _ Hok) as [Hlo Hhi].
  destruct Hok as [Hb Hhd Hns Hfr Ht Hm]. unfold mman_free, mman_node_prev.
  change (p :: a :: L2) with ([p] ++ a :: L2) in Hns. rewrite app_assoc in Hns.
  rewrite (seq_prev _ _ node_ob_rb _ _ _ _ _ Hns), last_last. cbn [rbind].
  rewrite (get_node_Some _ _ _ Hpn), (get_node_Some _ _ _ Hn). cbn [rbind].
  apply NoDup_app in Hnd as (Hnd & _ & _).
  assert (p ∉ a :: L1 ++ L2 /\ a ∉ L1 ++ p :: L2) as [HpL HaL].
  { rewrite <- !Permutation_middle in Hnd. apply NoDup_cons in Hnd as [? [? _]%NoDup_cons]. set_solver. }
  destruct (tiled_merge _ _ _ _ _ _ _ _ _ Ht HpL Hpn Hn) as [Ht3 Hbd].
  rewrite u64_small by lia. eapply runs_bind.
  { eapply (set_free_spec _ (a :: L1 ++ L2) X p pn); [|done|done]. eapply fok_perm, Hfr; [|done]. solve_Permutation. }
  intros m1 (t1 & -> & Hfr1). eapply runs_bind.
  { eapply (free_rem_spec _ (p :: L1 ++ L2) X a n).
    - eapply fok_perm, Hfr1; [|done]. solve_Permutation.
    - simpl. rewrite lookup_insert_ne; [done|set_solver]. }
  intros m2 (t2 & -> & Hfr2). unfold mman_node_remove. rewrite rbind_assoc.
  eapply runs_bind; [exact (seq_remove node_rb node_ob node_ob_rb _ _ _ _ _ Hns)|].
  intros t3 Hns3. cbn [rbind]. rewrite <- app_assoc in Hns3. set (m3 := set_nodes _ t3).
  rewrite (mman_check_spec m3 _ _ _ _ Hns3 Ht3) by lia. cbn [rbind]. apply runs_Done. split; [|done].
  constructor; [done| |done| |done|].
  - eapply headed_same; [exact (headed_remove _ _ _ _ _ Hhd)|done|..]; intros b Hin; unfold node_at; simpl.
    all: destruct (decide (b = p)) as [->|]; [rewrite lookup_insert_eq; by rewrite Hpn|by rewrite lookup_insert_ne].
  - eapply fok_perm, Hfr2; [|done]. solve_Permutation.
  - constructor; [eexists; simpl; rewrite lookup_insert_ne; [exact Hn|set_solver]|].
    eapply Forall_impl; [exact Hm|]. intros b Hsome. simpl. rewrite lookup_insert_is_Some'. tauto.
Qed.

(** A node keeps its address and the end of its free space. *)
Lemma tiled_resize info L1 a L2 lo hi n size free : tiled info lo (L1 ++ a :: L2) hi -> a ∉ L1 ++ L2 ->
  info !! a = Some n -> 0 <= size -> 0 <= free -> size + free = m_size n + m_free n ->
  tiled (<[a := MNode (m_addr n) size free]> info) lo (L1 ++ a :: L2) hi.
Proof.
  intros (x & H1 & n' & Hn' & Hx & ? & ? & H2)%tiled_app Ha Hn Hs Hf He. rewrite Hn in Hn'. injection Hn' as <-.
  apply tiled_app. exists x. split; [|eexists; rewrite lookup_insert_eq; split; [done|]; simpl; split_and!; [lia..|]].
  - eapply tiled_ext, H1. intros b Hin. rewrite lookup_insert_ne; [done|set_solver].
  - replace (x + size + free) with (x + m_size n + m_free n) by lia.
    eapply tiled_ext, H2. intros b Hin. rewrite lookup_insert_ne; [done|set_solver].
Qed.

Lemma split_notin (L1 : list Z) a L2 X : NoDup ((L1 ++ a :: L2) ++ X) -> a ∉ L1 ++ L2.
Proof. intros (Hnd & _ & _)%NoDup_app. rewrite <- Permutation_middle in Hnd. by apply NoDup_cons in Hnd as [? _]. Qed.

Lemma mman_node_free_tail_run m L1 a L2 X lo hi n s : mm_ok m (L1 ++ a :: L2) X lo hi ->
  mm_info m !! a = Some n -> 0 <= s < m_size n ->
  runs (mman_node_free_tail m a s) (fun m' => mm_ok m' (L1 ++ a :: L2) X lo hi /\
    mm_info m' = <[a := MNode (m_addr n) (m_size n - s) (m_free n + s)]> (mm_info m)).
Proof.
  intros Hok Hn Hs. pose proof (split_notin _ _ _ _ (mm_NoDup _ _ _ _ _ Hok)) as Ha.
  destruct Hok as [[Hlo Hhi] Hhd Hns Hfr Ht Hm]. destruct (tiled_split _ _ _ _ _ _ _ Ht Hn) as (_ & _ & ? & ? & ? & ?).
  unfold mman_node_free_tail. rewrite (get_node_Some _ _ _ Hn). cbn [rbind].
  rewrite (proj2 (Z.ltb_lt _ _)) by lia. rewrite (u64_small (m_size n - s)), (u64_small (m_free n + s)) by lia.
  eapply runs_bind.
  { eapply (set_free_spec _ (L1 ++ L2) X a (MNode (m_addr n) (m_size n - s) (m_free n))); [|apply lookup_insert_eq|done].
    eapply (fok_perm _ (L1 ++ a :: L2) _ X); [by rewrite Permutation_middle|done|]. eapply fok_ext, Hfr; [done|].
    intros b _. unfold free_of, node_at. simpl. destruct (decide (b = a)) as [->|]; [by rewrite lookup_insert_eq, Hn|by rewrite lookup_insert_ne]. }
  intros m1 (t & -> & Hfr1). set (m1 := set_freet _ t) in *.
  assert (mm_info m1 = <[a := MNode (m_addr n) (m_size n - s) (m_free n + s)]> (mm_info m)) as Hinfo by apply insert_insert_eq.
  assert (tiled (mm_info m1) lo (L1 ++ a :: L2) hi) as Ht1 by (rewrite Hinfo; apply tiled_resize; done || lia).
  rewrite (mman_check_spec m1 _ _ _ _ Hns Ht1) by lia. cbn [rbind]. apply runs_Done. split; [|done].
  constructor; [done| |done| |done|].
  - eapply headed_same; [exact Hhd|done|..]; intros b Hin; unfold node_at; rewrite Hinfo.
    all: destruct (decide (b = a)) as [->|]; [rewrite lookup_insert_eq, Hn; simpl; lia|by rewrite lookup_insert_ne].
  - eapply fok_perm, Hfr1; [|done]. by rewrite Permutation_middle.
  - eapply Forall_impl; [exact Hm|]. intros b Hsome. rewrite Hinfo. rewrite lookup_insert_is_Some'. tauto.
Qed.

Lemma tiled_shift info L1 p a L2 lo hi pn n s : tiled info lo (L1 ++ p :: a :: L2) hi ->
  p ∉ a :: L1 ++ L2 -> a ∉ L1 ++ L2 -> info !! p = Some pn -> info !! a = Some n -> 0 <= s <= m_size n ->
  tiled (<[a := MNode (m_addr n + s) (m_size n - s) (m_free n)]> (<[p := MNode (m_addr pn) (m_size pn) (m_free pn + s)]> info))
    lo (L1 ++ p :: a :: L2) hi /\ 0 <= m_free pn + s <= hi - lo.
Proof.
  intros (x & H1 & pn' & Hp' & Hx & ? & ? & n' & Hn' & Hx2 & ? & ? & H2)%tiled_app HpL HaL Hpn Hn Hs.
  rewrite Hpn in Hp'. injection Hp' as <-. rewrite Hn in Hn'. injection Hn' as <-.
  pose proof (tiled_le _ _ _ _ H1). pose proof (tiled_le _ _ _ _ H2). split; [|lia].
  apply tiled_app. exists x. split; [eapply tiled_ext, H1; intros b Hin; rewrite !lookup_insert_ne; [done|set_solver..]|].
  eexists. rewrite lookup_insert_ne, lookup_insert_eq by set_solver. split; [done|]. simpl. split_and!; [lia..|].
  eexists. rewrite lookup_insert_eq. split; [done|]. simpl. split_and!; [lia..|].
  replace (x + _ + _ + _ + _) with (x + m_size pn + m_free pn + m_size n + m_free n) by lia.
  eapply tiled_ext, H2. intros b Hin. rewrite !lookup_insert_ne; [done|set_solver..].
Qed.

Lemma mman_node_free_head_run m L1 p a L2 X lo hi pn n s : mm_ok m (L1 ++ p :: a :: L2) X lo hi ->
  mm_info m !! p = Some pn -> mm_info m !! a = Some n -> 0 <= s < m_size n ->
  runs (mman_node_free_head m a s) (fun m' => mm_ok m' (L1 ++ p :: a :: L2) X lo hi /\
    mm_info m' = <[a := MNode (m_addr n + s) (m_size n - s) (m_free n)]>
                   (<[p := MNode (m_addr pn) (m_size pn) (m_free pn + s)]> (mm_info m))).
Proof.
  intros Hok Hpn Hn Hs. pose proof (mm_NoDup _ _ _ _ _ Hok) as Hnd.
  assert (p <> 0) as Hp0 by (eapply mm_nonzero; [exact Hok|set_solver]).
  destruct Hok as [[Hlo Hhi] Hhd Hns Hfr Ht Hm].
  assert (p ∉ a :: L1 ++ L2 /\ a ∉ L1 ++ L2) as [HpL HaL].
  { apply NoDup_app in Hnd as (Hnd & _ & _).
    rewrite <- !Permutation_middle in Hnd. apply NoDup_cons in Hnd as [? [? _]%NoDup_cons]. set_solver. }
  assert (p <> a) as Hpa by set_solver.
  destruct (tiled_shift _ _ _ _ _ _ _ _ _ s Ht HpL HaL Hpn Hn) as [Ht3 Hbd]; [lia|].
  destruct (tiled_elem _ _ _ _ a Ht) as (n' & Hn' & ? & ? & ? & ?); [set_solver|].
  rewrite Hn in Hn'. injection Hn' as <-.
  unfold mman_node_free_head, mman_node_prev. rewrite (get_node_Some _ _ _ Hn). cbn [rbind].
  rewrite (proj2 (Z.ltb_lt _ _)) by lia. pose proof Hns as Hns1.
  change (p :: a :: L2) with ([p] ++ a :: L2) in Hns1. rewrite app_assoc in Hns1.
  rewrite (seq_prev _ _ node_ob_rb _ _ _ _ _ Hns1), last_last. cbn [rbind].
  rewrite (proj2 (Z.eqb_neq p 0)) by done. simpl. rewrite (get_node_Some _ _ _ Hpn). cbn [rbind].
  rewrite u64_small by lia. eapply runs_bind.
  { eapply (set_free_spec _ (a :: L1 ++ L2) X p pn); [|done|done]. eapply fok_perm, Hfr; [|done]. solve_Permutation. }
  intros m1 (t1 & -> & Hfr1). set (m1 := set_freet _ t1) in *.
  assert (mm_info m1 !! a = Some n) as Hn1 by (simpl; by rewrite lookup_insert_ne).
  rewrite (get_node_Some _ _ _ Hn1). cbn [rbind]. rewrite (u64_small (m_addr n + s)), (u64_small (m_size n - s)) by lia.
  set (m2 := put_node m1 a _). unfold mman_node_remove. rewrite rbind_assoc.
  eapply runs_bind; [exact (seq_remove node_rb node_ob node_ob_rb _ _ _ _ _ Hns1)|]. intros t2 Hns2. cbn [rbind].
  eapply runs_bind.
  { change (p :: a :: L2) with ([p] ++ a :: L2) in Ht3. rewrite app_assoc in Ht3.
    destruct (tiled_order (set_nodes m2 t2) _ _ _ _ _ _ Ht3 (lookup_insert_eq _ _ _)) as [Hle Hgt]; [simpl; lia|].
    eapply node_add_spec; [exact Hns2|apply lookup_insert_eq|exact Hle|exact Hgt]. }
  intros m3 (t3 & -> & Hns3). rewrite <- app_assoc in Hns3. set (m3 := set_nodes _ t3) in *.
  rewrite (mman_check_spec m3 _ _ _ _ Hns3 Ht3) by lia. cbn [rbind]. apply runs_Done. split; [|done].
  constructor; [done| |done| |done|].
  - eapply headed_same; [exact Hhd|done|..]; intros b Hin; unfold node_at; simpl.
    all: destruct (decide (b = a)) as [->|]; [rewrite lookup_insert_eq, Hn; simpl; lia|rewrite lookup_insert_ne by done].
    all: destruct (decide (b = p)) as [->|]; [by rewrite lookup_insert_eq, Hpn|by rewrite lookup_insert_ne].
  - eapply (fok_perm _ (p :: a :: L1 ++ L2) _ X); [solve_Permutation|done|]. eapply fok_ext, Hfr1; [done|].
    intros b _. unfold free_of, node_at, m3. simpl.
    destruct (decide (b = a)) as [->|]; [by rewrite lookup_insert_eq, lookup_insert_ne, Hn|by rewrite lookup_insert_ne].
  - eapply Forall_impl; [exact Hm|]. intros b Hsome. simpl. rewrite !lookup_insert_is_Some'. tauto.
Qed.

(** ** Lookup *)

(** The addresses at which [mman_lookup] finds the node: all but the last one. *)
Definition covers (n : mman_node_t) (addr : Z) : Prop := m_addr n <= addr < m_addr n + m_size n - 1.

Lemma mman_lookup_run m L X lo hi addr : mm_ok m L X lo hi ->
  runs (mman_lookup m addr) (fun r =>
    (r = 0 /\ forall b, b ∈ L -> ~ covers (node_at m b) addr) \/ (r ∈ L /\ covers (node_at m r) addr)).
Proof.
  intros Hok. pose proof (mo_tiled _ _ _ _ _ Hok) as Ht. destruct (mo_bounds _ _ _ _ _ Hok) as [Hlo Hhi].
  unfold mman_lookup. eapply (seq_search node_rb node_ob node_ob_rb _ L _ _ _ (fun r R =>
    r = 0 /\ (exists P Q, L = P ++ R ++ Q) /\ forall b, b ∈ L -> covers (node_at m b) addr -> b ∈ R)).
  - exact (mo_nodes _ _ _ _ _ Hok).
  - split_and!; [done| |done]. exists [], []. by rewrite app_nil_r.
  - intros r R1 b R2 (-> & (P & Q & HL) & Hall).
    assert (L = (P ++ R1) ++ b :: R2 ++ Q) as HL' by (rewrite HL; by rewrite <- !app_assoc).
    destruct (tiled_elem _ _ _ _ b Ht) as (n & Hn & ? & ? & ? & ?); [rewrite HL'; set_solver|].
    pose proof Ht as Ht2. rewrite HL' in Ht2. destruct (tiled_split _ _ _ _ _ _ _ Ht2 Hn) as (Hlt & Hgt & _).
    unfold lookup_code. rewrite (node_at_Some _ _ _ Hn). unfold mman_node_end. rewrite u64_small by lia.
    assert (forall c, c ∈ R1 -> exists k, mm_info m !! c = Some k /\ 0 <= m_size k /\ 0 <= m_free k) as Hsz.
    { intros c Hc. destruct (tiled_elem _ _ _ _ c Ht) as (k & ? & ? & ? & ? & ?); [rewrite HL'; set_solver|]. eauto. }
    destruct (Z.ltb_spec addr (m_addr n)) as [Hin|Hin].
    + split; [done|]. split; [exists P, (b :: R2 ++ Q); rewrite HL; by rewrite <- !app_assoc|].
      intros c Hc Hcov. pose proof (Hall c Hc Hcov) as [Hc1|[->|Hc2]%elem_of_cons]%elem_of_app; [done|..]; exfalso.
      * rewrite (node_at_Some _ _ _ Hn) in Hcov. unfold covers in Hcov. lia.
      * specialize (Hgt c ltac:(set_solver)). unfold covers in Hcov. lia.
    + destruct (Z.eqb_spec (m_size n) 0), (Z.ltb_spec addr (m_addr n - 1 + m_size n)); simpl; try lia.
      2: { right. split; [rewrite HL'; set_solver|]. rewrite (node_at_Some _ _ _ Hn). unfold covers. lia. }
      all: split; [done|]; split; [exists (P ++ R1 ++ [b]), Q; rewrite HL; by rewrite <- !app_assoc|].
      all: intros c Hc Hcov; pose proof (Hall c Hc Hcov) as [Hc1|[->|Hc2]%elem_of_cons]%elem_of_app; [..|done]; exfalso.
      all: unfold covers in Hcov; try (rewrite (node_at_Some _ _ _ Hn) in Hcov; lia).
      all: specialize (Hlt c ltac:(set_solver)); destruct (Hsz c Hc1) as (k & Hk & ? & ?); rewrite (node_at_Some _ _ _ Hk) in *; lia.
  - intros r (-> & _ & Hall). left. split; [done|]. intros b Hb Hcov. by apply Hall in Hcov as []%elem_of_nil.
Qed.

(** The nodes that end behind the address [addr], for [mman_first_node]. *)
Definition ends_after (n : mman_node_t) (addr : Z) : Prop := addr < m_addr n + m_size n - 1.

Lemma first_search m L X lo hi addr : mm_ok m L X lo hi -> lo <= addr ->
  runs (rb_search rb_fuel (mm_nodes m) (first_node_code m addr) 0) (fun r =>
    (r = 0 /\ forall b, b ∈ L -> ~ ends_after (node_at m b) addr) \/
    (exists P Q, L = P ++ r :: Q /\ ends_after (node_at m r) addr /\ forall b, b ∈ P -> ~ ends_after (node_at m b) addr)).
Proof.
  intros Hok Hlo'. pose proof (mo_tiled _ _ _ _ _ Hok) as Ht. destruct (mo_bounds _ _ _ _ _ Hok) as [Hlo Hhi].
  eapply (seq_search node_rb node_ob node_ob_rb _ L _ _ _ (fun r R =>
    exists P Q, L = P ++ R ++ Q /\ (forall b, b ∈ P -> ~ ends_after (node_at m b) addr) /\
      (r = 0 /\ Q = [] \/ exists Q', Q = r :: Q' /\ ends_after (node_at m r) addr))).
  - exact (mo_nodes _ _ _ _ _ Hok).
  - exists [], []. rewrite app_nil_r. split_and!; [done| |by left]. by intros b ?%elem_of_nil.
  - intros r R1 b R2 (P & Q & HL & HP & Hr).
    assert (L = (P ++ R1) ++ b :: R2 ++ Q) as HL' by (rewrite HL; by rewrite <- !app_assoc).
    destruct (tiled_elem _ _ _ _ b Ht) as (n & Hn & ? & ? & ? & ?); [rewrite HL'; set_solver|].
    pose proof Ht as Ht2. rewrite HL' in Ht2. destruct (tiled_split _ _ _ _ _ _ _ Ht2 Hn) as (Hlt & _).
    assert (forall c, c ∈ P ++ R1 -> m_addr (node_at m c) + m_size (node_at m c) <= m_addr n) as Hbef.
    { intros c Hc. specialize (Hlt c Hc). destruct (tiled_elem _ _ _ _ c Ht) as (k & Hk & ?); [rewrite HL'; set_solver|].
      rewrite (node_at_Some _ _ _ Hk) in *. lia. }
    unfold first_node_code. rewrite (node_at_Some _ _ _ Hn). unfold mman_node_end. rewrite u64_small by lia.
    rewrite Z.gtb_ltb. destruct (Z.ltb_spec addr (m_addr n - 1 + m_size n)) as [Ha|Ha].
    + assert (ends_after (node_at m b) addr) as Hb by (rewrite (node_at_Some _ _ _ Hn); unfold ends_after; lia).
      destruct (Z.leb_spec (m_addr n) addr).
      * right. exists (P ++ R1), (R2 ++ Q). split_and!; [done|done|]. intros c Hc. specialize (Hbef c Hc). unfold ends_after. lia.
      * exists P, (b :: R2 ++ Q). split; [by rewrite HL', <- app_assoc|]. split; [done|]. right. eauto.
    + exists (P ++ R1 ++ [b]), Q. split; [by rewrite HL, <- !app_assoc|]. split; [|done]. intros c Hc.
      assert (c ∈ P ++ R1 \/ c = b) as [Hc'| ->] by set_solver; unfold ends_after.
      * specialize (Hbef c Hc'). lia.
      * rewrite (node_at_Some _ _ _ Hn). lia.
  - intros r (P & Q & HL & HP & [[-> ->]|(Q' & -> & Hr)]).
    + left. split; [done|]. rewrite app_nil_r in HL. by subst L.
    + right. by exists P, Q'.
Qed.

Lemma mman_first_node_run m L X lo hi addr size : mm_ok m L X lo hi -> lo <= addr -> 0 < size -> addr + size <= hi ->
  runs (mman_first_node m addr size) (fun r =>
    (r = 0 /\ forall b, b ∈ L -> ends_after (node_at m b) addr -> addr + size <= m_addr (node_at m b)) \/
    (exists P Q, L = P ++ r :: Q /\ ends_after (node_at m r) addr /\ m_addr (node_at m r) < addr + size /\
       forall b, b ∈ P -> ~ ends_after (node_at m b) addr)).
Proof.
  intros Hok Hlo' Hsz Hhi'. destruct (mo_bounds _ _ _ _ _ Hok) as [Hlo Hhi].
  unfold mman_first_node. eapply runs_bind; [exact (first_search _ _ _ _ _ _ Hok Hlo')|].
  intros r [[-> Hr]|(P & Q & HL & Hr & HP)].
  - apply runs_Done. left. split; [done|]. intros b Hb He. by destruct (Hr b Hb).
  - assert (r ∈ L) as HrL by (rewrite HL; set_solver).
    rewrite (proj2 (Z.eqb_neq r 0)) by (eapply mm_nonzero; eauto).
    destruct (tiled_elem _ _ _ _ r (mo_tiled _ _ _ _ _ Hok) HrL) as (n & Hn & ? & ? & ? & ?).
    rewrite (get_node_Some _ _ _ Hn). cbn [rbind]. rewrite u64_small, Z.gtb_ltb by lia.
    rewrite (node_at_Some _ _ _ Hn) in *.
    destruct (Z.ltb_spec (addr - 1 + size) (m_addr n)); apply runs_Done.
    + left. split; [done|]. intros b Hb He. pose proof (mo_tiled _ _ _ _ _ Hok) as Ht. rewrite HL in Hb, Ht.
      destruct (tiled_split _ _ _ _ _ _ _ Ht Hn) as (_ & Hgt & _).
      apply elem_of_app in Hb as [Hb|[->|Hb]%elem_of_cons]; [by destruct (HP b Hb)|rewrite (node_at_Some _ _ _ Hn); lia|].
      specialize (Hgt b Hb). lia.
    + right. exists P, Q. rewrite (node_at_Some _ _ _ Hn). split_and!; [done|done|lia|done].
Qed.

(** ** Initialisation *)

Lemma seq_node_init nd ob (Hob : forall a, ob (nd a) = a) h L X a : seq_tree nd ob h L X -> okp (nd a) -> a ∉ L ++ X ->
  seq_tree nd ob (rb_node_init h a (nd a)) L (a :: X).
Proof.
  intros (t & (Hn & Ho & Hm & Hr) & Ht & Hi) Hp Ha. exists t. split_and!; [|done..].
  apply (sat_perm _ ((nd a, RbNode 0 0 0 a) :: flat ob t 0 ++ (idle nd <$> X))).
  { rewrite fmap_cons. unfold idle at 2. solve_Permutation. }
  unfold sat, rb_node_init. simpl. split_and!; [|by constructor|by rewrite Hm|done].
  constructor; [|done]. rewrite fmap_app, keys_flat, Hi, <- list_fmap_compose.
  intros [(b & He & Hb)%list_elem_of_fmap|(b & He & Hb)%list_elem_of_fmap]%elem_of_app; apply (nd_inj nd ob Hob) in He; set_solver.
Qed.

Lemma mman_node_init_ok m L X lo hi a : mm_ok m L X lo hi -> okp a -> okp (a + 16) -> a ∉ L ++ X ->
  is_Some (mm_info m !! a) -> mm_ok (mman_node_init m a) L (a :: X) lo hi.
Proof.
  intros [Hb Hhd Hns Hfr Ht Hm] Hp1 Hp2 Ha Hsome. constructor; [done|done| | |done|by constructor].
  - by apply seq_node_init; [exact node_ob_rb|..].
  - destruct Hfr as (S & Hs & HS & Hsort). exists S. split_and!; [|done..].
    apply (seq_node_init free_rb free_ob free_ob_rb); [done|done|].
    intros [HaS|[HaX|HaF]%elem_of_app]%elem_of_app.
    + rewrite HS, list_elem_of_filter in HaS. set_solver.
    + set_solver.
    + rewrite list_elem_of_filter in HaF. set_solver.
Qed.

Lemma mman_init_ok m start size : nodes (mm_nodes m) = ∅ -> nodes (mm_free m) = ∅ ->
  okp (mm_node m) -> okp (mm_node m + 16) -> 0 < start -> 0 <= size -> start + size <= 2 ^ 32 ->
  runs (mman_init m start size) (fun m' => mm_ok m' [mm_node m] [] start (start + size) /\
    mm_info m' = <[mm_node m := MNode start 0 size]> (mm_info m)).
Proof.
  intros Hn0 Hf0 Hp1 Hp2 Hst Hsz He. unfold mman_init. simpl.
  set (a := mm_node m) in *. set (m0 := put_node _ a _).
  assert (nodes_seq m0 [] [a]) as Hns0.
  { apply (seq_node_init node_rb node_ob node_ob_rb _ [] []); [|done|set_solver]. exists E. split_and!; [|split; [done|by exists 0%nat]|done].
    unfold holds, sat. simpl. rewrite Hn0. split_and!; [constructor|constructor|done|done]. }
  assert (fok m0 [] [a]) as Hfr0.
  { exists []. split_and!; [|done|constructor].
    apply (seq_node_init free_rb free_ob free_ob_rb _ [] []); [|done|set_solver]. exists E. split_and!; [|split; [done|by exists 0%nat]|done].
    unfold holds, sat. simpl. rewrite Hf0. split_and!; [constructor|constructor|done|done]. }
  eapply runs_bind; [eapply (free_add_spec m0 [] [] a); [exact Hfr0|apply lookup_insert_eq]|].
  intros m1 (t1 & -> & Hfr1). eapply runs_bind.
  { eapply (node_add_spec _ [] [] [] a); [exact Hns0|apply lookup_insert_eq|constructor|constructor]. }
  intros m2 (t2 & -> & Hns2). set (m2 := set_nodes _ t2) in *.
  assert (tiled (mm_info m2) start [a] (start + size)) as Ht.
  { simpl. eexists. rewrite lookup_insert_eq. split; [done|]. simpl. lia. }
  rewrite (mman_check_spec m2 [a] [] start (start + size)) by (done || lia). cbn [rbind]. apply runs_Done.
  split; [|done]. constructor; [lia| |done|done|done|constructor].
  exists []. split; [done|]. split; [|constructor]. unfold node_at. simpl. by rewrite lookup_insert_eq.
Qed.

Lemma mman_destroy_run m X lo hi : mm_ok m [mm_node m] X lo hi -> runs (mman_destroy m) (fun _ => True).
Proof.
  intros [Hb Hhd Hns Hfr (n & Hn & _) Hm]. unfold mman_destroy, mman_node_remove. rewrite rbind_assoc.
  eapply runs_bind; [exact (seq_remove node_rb node_ob node_ob_rb _ [] [] X _ Hns)|]. intros t1 Hns1. cbn [rbind].
  eapply runs_bind; [exact (free_rem_spec (set_nodes m t1) [] X (mm_node m) n Hfr Hn)|].
  intros m2 (t2 & -> & S & Hs & HS & _). apply Permutation_nil_r in HS as ->.
  assert (forall nd ob h Y, seq_tree nd ob h [] Y -> root h = 0) as Hroot.
  { intros nd ob h Y (t & (_ & _ & _ & ->) & _ & Hi). destruct t as [|c l p r]; [done|]. simpl in Hi. by destruct (inorder l). }
  assert (root t1 = 0) as Hr1 by exact (Hroot _ _ _ _ Hns1). assert (root t2 = 0) as Hr2 by exact (Hroot _ _ _ _ Hs).
  unfold rb_tree_destroy, mman_node_destroy, rb_node_destroy. simpl. rewrite Hr1, Hr2. simpl.
  assert (rb_node_assert_empty t1 (node_rb (mm_node m)) = Done tt) as -> by (eapply seq_idle; [exact Hns1|set_solver]).
  assert (rb_node_assert_empty t2 (free_rb (mm_node m)) = Done tt) as -> by (eapply seq_idle; [exact Hs|set_solver]).
  by apply runs_Done.
Qed.
