(* ===== verification/MmanSpec.v ===== *)
(** The contract of the address range allocator: it maintains a map from
    nodes to disjoint ranges inside the managed region.  Every operation of
    Mman.v is shown to refine an operation on that map. *)
From stdpp Require Import base gmap list sorting.
From S2P Require Import Prelude Rbtree RbtreeFacts Mman MmanFacts.

(** ** The abstract state *)

(** The allocator [m] for [lo, hi) has the ranges [A], a pair of address and
    size for each allocated node; the nodes [I] exist and are not in use. *)
Definition mm_rel (m : mman_t) (A : gmap Z (Z * Z)) (I : gset Z) (lo hi : Z) : Prop :=
  exists L X, mm_ok m L X lo hi /\ I = list_to_set X /\
    forall b x z, A !! b = Some (x, z) <->
      b ∈ L /\ b <> mm_node m /\ m_addr (node_at m b) = x /\ m_size (node_at m b) = z.

Definition apart (x z y w : Z) : Prop := x + z <= y \/ y + w <= x.

(** The operations of a user of the allocator; [New] is a fresh node with
    arbitrary contents. *)
Inductive mop : Type :=
| New (a : Z) (n : mman_node_t)
| Alloc (size k a : Z)
| Insert (addr size a : Z)
| Free (a : Z)
| FreeTail (a s : Z)
| FreeHead (a s : Z).

Definition run_mop (m : mman_t) (op : mop) : res (Z * mman_t) :=
  match op with
  | New a n => Done (0, mman_node_init (put_node m a n) a)
  | Alloc size k a => mman_alloc m size (2 ^ k) a
  | Insert addr size a => let* m := mman_insert m addr size a in Done (0, m)
  | Free a => let* m := mman_free m a in Done (0, m)
  | FreeTail a s => let* m := mman_node_free_tail m a s in Done (0, m)
  | FreeHead a s => let* m := mman_node_free_head m a s in Done (0, m)
  end.

(** When an operation may be called. *)
Definition allowed (dummy lo hi : Z) (A : gmap Z (Z * Z)) (I : gset Z) (op : mop) : Prop :=
  match op with
  | New a _ => okp a /\ okp (a + 16) /\ a ∉ I /\ A !! a = None /\ a <> dummy
  | Alloc size k a => a ∈ I /\ 0 < size /\ 0 <= k <= 32
  | Insert addr size a => a ∈ I /\ 1 < size /\ lo <= addr /\ addr + size <= hi /\
      forall b x z, A !! b = Some (x, z) -> apart addr size x z
  | Free a => is_Some (A !! a)
  | FreeTail a s | FreeHead a s => exists x z, A !! a = Some (x, z) /\ 0 <= s < z
  end.

(** What it does to the map. *)
Definition effect (lo hi : Z) (A : gmap Z (Z * Z)) (I : gset Z) (op : mop) (r : Z) (A' : gmap Z (Z * Z)) (I' : gset Z) : Prop :=
  match op with
  | New a _ => r = 0 /\ A' = A /\ I' = I ∪ {[a]}
  | Alloc size k a =>
      r = - ENOMEM /\ A' = A /\ I' = I \/
      r = 0 /\ exists x, x mod 2 ^ k = 0 /\ lo <= x /\ x + size <= hi /\
        (forall b y z, A !! b = Some (y, z) -> apart x size y z) /\ A' = <[a := (x, size)]> A /\ I' = I ∖ {[a]}
  | Insert addr size a => r = 0 /\ A' = <[a := (addr, size)]> A /\ I' = I ∖ {[a]}
  | Free a => r = 0 /\ A' = delete a A /\ I' = I ∪ {[a]}
  | FreeTail a s => r = 0 /\ I' = I /\ exists x z, A !! a = Some (x, z) /\ A' = <[a := (x, z - s)]> A
  | FreeHead a s => r = 0 /\ I' = I /\ exists x z, A !! a = Some (x, z) /\ A' = <[a := (x + s, z - s)]> A
  end.

(** ** The map and the nodes *)

(** A range that is apart from all nodes lies in the free space of one. *)
Lemma find_space info lo L hi addr size : tiled info lo L hi -> L <> [] -> lo <= addr -> 0 < size -> addr + size <= hi ->
  (forall b n, b ∈ L -> info !! b = Some n -> apart addr size (m_addr n) (m_size n)) ->
  exists L1 f L2 fn, L = L1 ++ f :: L2 /\ info !! f = Some fn /\ start_of fn <= addr /\
    addr + size <= start_of fn + m_free fn.
Proof.
  intros Ht Hne Hlo Hsz Hhi Hap. revert lo Ht Hlo. induction L as [|a L IH]; intros lo Ht Hlo; [done|].
  destruct Ht as (n & Hn & <- & ? & ? & Ht). unfold start_of.
  destruct (Z.le_gt_cases (addr + size) (m_addr n + m_size n + m_free n)) as [Hle|Hgt].
  - exists [], a, L, n. split_and!; [done|done| |lia]. destruct (Hap a n ltac:(set_solver) Hn); lia.
  - destruct L as [|b L]; [simpl in Ht; lia|].
    assert (m_addr n + m_size n + m_free n <= addr) as Hge.
    { pose proof Ht as (k & Hk & Hx & ? & ? & _). destruct (Hap b k ltac:(set_solver) Hk); lia. }
    destruct (IH ltac:(done)) with (lo := m_addr n + m_size n + m_free n) as (L1 & f & L2 & fn & -> & ?); [|done|done|].
    + intros c k Hc. apply Hap. set_solver.
    + exists (a :: L1), f, L2, fn. done.
Qed.

(** The nodes of an allocator: what it relates in the map is in the region,
    and the ranges are apart. *)
Lemma rel_apart m L X lo hi L1 f L2 fn b : mm_ok m L X lo hi -> L = L1 ++ f :: L2 -> mm_info m !! f = Some fn -> b ∈ L -> b <> f ->
  m_addr fn + m_size fn + m_free fn <= m_addr (node_at m b) \/
  m_addr (node_at m b) + m_size (node_at m b) + m_free (node_at m b) <= m_addr fn.
Proof.
  intros Hok -> Hf Hb Hne. destruct (tiled_split _ _ _ _ _ _ _ (mo_tiled _ _ _ _ _ Hok) Hf) as (Hlt & Hgt & _).
  apply elem_of_app in Hb as [Hb|[->|Hb]%elem_of_cons]; [right; by apply Hlt|done|left; by apply Hgt].
Qed.

(** A new range in the free space of [f]. *)
Lemma rel_placed m A L1 f L2 X a fn lo hi addr size m' :
  mm_ok m (L1 ++ f :: L2) (a :: X) lo hi ->
  (forall b x z, A !! b = Some (x, z) <->
      b ∈ L1 ++ f :: L2 /\ b <> mm_node m /\ m_addr (node_at m b) = x /\ m_size (node_at m b) = z) ->
  mm_info m !! f = Some fn -> mm_ok m' (L1 ++ f :: a :: L2) X lo hi -> mm_info m' = placed m f a fn addr size ->
  mm_node m' = mm_node m -> mm_rel m' (<[a := (addr, size)]> A) (list_to_set (a :: X) ∖ {[a]}) lo hi.
Proof.
  intros Hok HA Hf Hok' Hinfo Hnode. exists (L1 ++ f :: a :: L2), X. split; [done|].
  pose proof (mm_NoDup _ _ _ _ _ Hok) as Hnd. rewrite <- Permutation_middle in Hnd. apply NoDup_cons in Hnd as [Ha _].
  split; [set_solver|]. intros b x z. rewrite Hnode.
  assert (a <> mm_node m) as Ham.
  { intros ->. destruct (mo_head _ _ _ _ _ Hok) as (L' & He & _). rewrite He in Ha. set_solver. }
  destruct (decide (b = a)) as [->|Hba].
  - rewrite lookup_insert_eq. unfold node_at. rewrite Hinfo. unfold placed.
    rewrite lookup_insert_ne, lookup_insert_eq by set_solver. simpl. split; [intros [= -> ->]; set_solver|]. naive_solver.
  - rewrite lookup_insert_ne, HA by done.
    assert (m_addr (node_at m' b) = m_addr (node_at m b) /\ m_size (node_at m' b) = m_size (node_at m b)) as [-> ->].
    { unfold node_at. rewrite Hinfo. unfold placed. destruct (decide (b = f)) as [->|].
      - rewrite lookup_insert_eq, Hf. done.
      - by rewrite !lookup_insert_ne. }
    set_solver.
Qed.

Lemma mm_hd m L X lo hi : mm_ok m L X lo hi -> exists L', L = mm_node m :: L'.
Proof. intros Hok. destruct (mo_head _ _ _ _ _ Hok) as (L' & -> & _). eauto. Qed.

(** An operation does not change the embedded node. *)
Lemma mm_node_same m m' L1 f K K' X X' lo hi : mm_ok m (L1 ++ f :: K) X lo hi -> mm_ok m' (L1 ++ f :: K') X' lo hi ->
  mm_node m' = mm_node m.
Proof. intros [L He]%mm_hd [L' He']%mm_hd. destruct L1; simpl in *; congruence. Qed.

(** The idle nodes can be listed with any one of them first. *)
Lemma mm_ok_perm m L X X' lo hi : X ≡ₚ X' -> mm_ok m L X lo hi -> mm_ok m L X' lo hi.
Proof.
  intros HX [Hb Hhd Hns Hfr Ht Hm]. constructor; [done|done| | |done|by rewrite <- HX].
  - by eapply seq_tree_perm.
  - by eapply fok_perm.
Qed.

Lemma pull_idle m L X lo hi a : mm_ok m L X lo hi -> a ∈ (list_to_set X : gset Z) ->
  exists X', mm_ok m L (a :: X') lo hi /\ (list_to_set X : gset Z) = list_to_set (a :: X').
Proof.
  intros Hok Ha. rewrite elem_of_list_to_set in Ha. apply list_elem_of_split in Ha as (X1 & X2 & ->).
  exists (X1 ++ X2). split; [eapply mm_ok_perm, Hok; by rewrite Permutation_middle|set_solver].
Qed.

(** An allocated node is behind another one. *)
Lemma pull_prev m L X lo hi a : mm_ok m L X lo hi -> a ∈ L -> a <> mm_node m ->
  exists L1 p L2, L = L1 ++ p :: a :: L2.
Proof.
  intros Hok (K1 & K2 & ->)%list_elem_of_split Ha. destruct (mm_hd _ _ _ _ _ Hok) as (L' & He).
  destruct K1 as [|p L1 _] using rev_ind; [simpl in He; congruence|].
  exists L1, p, K2. by rewrite <- app_assoc.
Qed.

Lemma mm_lookup m L X lo hi a : mm_ok m L X lo hi -> a ∈ L -> exists n, mm_info m !! a = Some n /\ node_at m a = n.
Proof.
  intros Hok Ha. destruct (tiled_elem _ _ _ _ a (mo_tiled _ _ _ _ _ Hok) Ha) as (n & Hn & _).
  exists n. split; [done|]. by apply node_at_Some.
Qed.

Section Refine.
Context (m : mman_t) (A : gmap Z (Z * Z)) (lo hi : Z) (L X : list Z).
Hypothesis Hok : mm_ok m L X lo hi.
Hypothesis HA : forall b x z, A !! b = Some (x, z) <->
  b ∈ L /\ b <> mm_node m /\ m_addr (node_at m b) = x /\ m_size (node_at m b) = z.

(** What an operation has to show. *)
Definition goal (op : mop) : Prop :=
  exists r m' A' I', run_mop m op = Done (r, m') /\ effect lo hi A (list_to_set X) op r A' I' /\ mm_rel m' A' I' lo hi.

Lemma rel_self : mm_rel m A (list_to_set X) lo hi.
Proof. by exists L, X. Qed.

Lemma refine_alloc size k a : allowed (mm_node m) lo hi A (list_to_set X) (Alloc size k a) -> goal (Alloc size k a).
Proof.
  intros (Ha & Hsz & Hk). destruct (pull_idle _ _ _ _ _ _ Hok Ha) as (X' & Hok' & HX).
  destruct (mman_alloc_run _ _ _ _ _ _ _ _ Hok' Hk Hsz) as ([r m'] & Hrun & [(-> & -> & _)|(-> & L1 & f & L2 & fn & addr & HL & Hf & Hal & Hst & Hen & _ & Hok2 & Hinfo)]).
  - exists (- ENOMEM), m, A, (list_to_set X). split_and!; [done|by left|exact rel_self].
  - subst L. exists 0, m', (<[a := (addr, size)]> A), (list_to_set X ∖ {[a]}). split_and!; [done| |].
    + right. split; [done|]. exists addr. destruct (tiled_split _ _ _ _ _ _ _ (mo_tiled _ _ _ _ _ Hok) Hf) as (_ & _ & ? & ? & ? & ?).
      unfold start_of in *. split_and!; [done|lia|lia| |done|done].
      intros b y z (HbL & _ & <- & <-)%HA. destruct (decide (b = f)) as [->|Hbf].
      * right. rewrite (node_at_Some _ _ _ Hf). lia.
      * destruct (rel_apart _ _ _ _ _ _ _ _ _ _ Hok eq_refl Hf HbL Hbf) as [?|?]; [left; lia|right].
        destruct (tiled_elem _ _ _ _ b (mo_tiled _ _ _ _ _ Hok) HbL) as (n & Hn & ?).
        rewrite (node_at_Some _ _ _ Hn) in *. lia.
    + rewrite HX. eapply (rel_placed m A L1 f L2 X' a fn); eauto. by eapply mm_node_same.
Qed.

Lemma refine_insert addr size a : allowed (mm_node m) lo hi A (list_to_set X) (Insert addr size a) -> goal (Insert addr size a).
Proof.
  intros (Ha & Hsz & Hlo & Hhi & Hap). destruct (pull_idle _ _ _ _ _ _ Hok Ha) as (X' & Hok' & HX).
  destruct (find_space (mm_info m) lo L hi addr size) as (L1 & f & L2 & fn & HL & Hf & Hst & Hen).
  - exact (mo_tiled _ _ _ _ _ Hok).
  - destruct (mm_hd _ _ _ _ _ Hok) as (L' & ->). done.
  - done.
  - lia.
  - done.
  - intros b n Hb Hn. destruct (decide (b = mm_node m)) as [->|Hbm].
    + right. destruct (tiled_elem _ _ _ _ _ (mo_tiled _ _ _ _ _ Hok) Hb) as (n' & Hn' & ?).
      pose proof (mo_tiled _ _ _ _ _ Hok) as Ht. destruct (mm_hd _ _ _ _ _ Hok) as (L' & ->).
      destruct Ht as (k & Hk & Hx & _). rewrite Hn in Hk. injection Hk as <-.
      destruct (mo_head _ _ _ _ _ Hok) as (_ & _ & Hz & _). rewrite (node_at_Some _ _ _ Hn) in Hz. lia.
    + apply (Hap b). apply HA. by rewrite (node_at_Some _ _ _ Hn).
  - subst L. destruct (mman_insert_run _ _ _ _ _ _ _ _ addr size _ Hok' Hf) as (m' & Hrun & Hok2 & Hinfo); [lia|done|done|].
    exists 0, m', (<[a := (addr, size)]> A), (list_to_set X ∖ {[a]}). simpl. rewrite Hrun. split_and!; [done..|].
    rewrite HX. eapply (rel_placed m A L1 f L2 X' a fn); eauto. by eapply mm_node_same.
Qed.

Lemma refine_free a : allowed (mm_node m) lo hi A (list_to_set X) (Free a) -> goal (Free a).
Proof.
  intros [[x z] (Ha & Ham & Hx & Hz)%HA]. destruct (pull_prev _ _ _ _ _ _ Hok Ha Ham) as (L1 & p & L2 & HL).
  destruct (mm_lookup _ _ _ _ _ p Hok) as (pn & Hpn & Hp); [subst L; set_solver|].
  destruct (mm_lookup _ _ _ _ _ a Hok Ha) as (n & Hn & Hna). pose proof (mm_NoDup _ _ _ _ _ Hok) as Hnd. subst L.
  destruct (mman_free_run _ _ _ _ _ _ _ _ _ _ Hok Hpn Hn) as (m' & Hrun & Hok2 & Hinfo).
  exists 0, m', (delete a A), (list_to_set X ∪ {[a]}). simpl. rewrite Hrun. split_and!; [done..|].
  exists (L1 ++ p :: L2), (a :: X). split; [done|]. split; [set_solver|].
  assert (a ∉ L1 ++ p :: L2) as HaL.
  { apply NoDup_app in Hnd as (Hnd & _). rewrite <- !Permutation_middle in Hnd. apply NoDup_cons in Hnd as [? [? _]%NoDup_cons]. set_solver. }
  rewrite (mm_node_same _ _ _ _ _ _ _ _ _ _ Hok Hok2). intros b y w. rewrite lookup_delete_Some, HA.
  assert (m_addr (node_at m' b) = m_addr (node_at m b) /\ m_size (node_at m' b) = m_size (node_at m b)) as [-> ->].
  { unfold node_at. rewrite Hinfo. destruct (decide (b = p)) as [->|]; [by rewrite lookup_insert_eq, Hpn|by rewrite lookup_insert_ne]. }
  set_solver.
Qed.

(** The range of one node changes. *)
Lemma rel_update m' a n x z : mm_ok m' L X lo hi -> mm_node m' = mm_node m -> a ∈ L -> a <> mm_node m ->
  mm_info m' !! a = Some n -> m_addr n = x -> m_size n = z ->
  (forall b, b <> a -> m_addr (node_at m' b) = m_addr (node_at m b) /\ m_size (node_at m' b) = m_size (node_at m b)) ->
  mm_rel m' (<[a := (x, z)]> A) (list_to_set X) lo hi.
Proof.
  intros Hok2 Hnode Ha Ham Hn Hx Hz Hsame. exists L, X. split_and!; [done..|]. intros b y w. rewrite Hnode.
  destruct (decide (b = a)) as [->|Hba].
  - rewrite lookup_insert_eq, (node_at_Some _ _ _ Hn). naive_solver.
  - rewrite lookup_insert_ne, HA by done. destruct (Hsame b Hba) as [-> ->]. done.
Qed.

Lemma refine_tail a s : allowed (mm_node m) lo hi A (list_to_set X) (FreeTail a s) -> goal (FreeTail a s).
Proof.
  intros (x & z & Hl & Hs). pose proof Hl as (Ha & Ham & Hx & Hz)%HA.
  destruct (mm_lookup _ _ _ _ _ a Hok Ha) as (n & Hn & Hna). rewrite Hna in *.
  pose proof Ha as (L1 & L2 & HL)%list_elem_of_split. pose proof Hok as Hok1. rewrite HL in Hok1.
  destruct (mman_node_free_tail_run _ _ _ _ _ _ _ _ s Hok1 Hn) as (m' & Hrun & Hok2 & Hinfo); [lia|].
  exists 0, m', (<[a := (x, z - s)]> A), (list_to_set X). simpl. rewrite Hrun. split; [done|]. split; [eauto 10|].
  eapply rel_update; [by rewrite HL|by eapply mm_node_same|done|done|rewrite Hinfo; apply lookup_insert_eq|done|simpl; lia|].
  intros b Hb. unfold node_at. by rewrite Hinfo, lookup_insert_ne.
Qed.

Lemma refine_head a s : allowed (mm_node m) lo hi A (list_to_set X) (FreeHead a s) -> goal (FreeHead a s).
Proof.
  intros (x & z & Hl & Hs). pose proof Hl as (Ha & Ham & Hx & Hz)%HA.
  destruct (mm_lookup _ _ _ _ _ a Hok Ha) as (n & Hn & Hna). rewrite Hna in *.
  destruct (pull_prev _ _ _ _ _ _ Hok Ha Ham) as (L1 & p & L2 & HL). pose proof Hok as Hok1. rewrite HL in Hok1.
  destruct (mm_lookup _ _ _ _ _ p Hok) as (pn & Hpn & Hp); [rewrite HL; set_solver|].
  destruct (mman_node_free_head_run _ _ _ _ _ _ _ _ _ _ s Hok1 Hpn Hn) as (m' & Hrun & Hok2 & Hinfo); [lia|].
  exists 0, m', (<[a := (x + s, z - s)]> A), (list_to_set X). simpl. rewrite Hrun. split; [done|]. split; [eauto 10|].
  eapply rel_update; [by rewrite HL|by eapply mm_node_same|done|done|rewrite Hinfo; apply lookup_insert_eq|simpl; lia|simpl; lia|].
  intros b Hb. unfold node_at. rewrite Hinfo, lookup_insert_ne by done.
  destruct (decide (b = p)) as [->|]; [by rewrite lookup_insert_eq, Hpn|by rewrite lookup_insert_ne].
Qed.

Lemma refine_new a n : allowed (mm_node m) lo hi A (list_to_set X) (New a n) -> goal (New a n).
Proof.
  intros (Hp1 & Hp2 & HaI & HaA & Ham). rewrite elem_of_list_to_set in HaI.
  assert (a ∉ L) as HaL.
  { intros Ha. destruct (A !! a) as [[x z]|] eqn:He; [done|].
    assert (A !! a = Some (m_addr (node_at m a), m_size (node_at m a))) as Hs by (by apply HA). congruence. }
  exists 0, (mman_node_init (put_node m a n) a), A, (list_to_set X ∪ {[a]}). split; [done|]. split; [done|].
  assert (forall b, b ∈ L ++ X -> mm_info (put_node m a n) !! b = mm_info m !! b) as Hsame.
  { intros b Hb. simpl. rewrite lookup_insert_ne; [done|]. set_solver. }
  assert (forall b, b ∈ L ++ X -> node_at (put_node m a n) b = node_at m b) as Hat by (intros b Hb; unfold node_at; by rewrite Hsame).
  exists L, (a :: X). split_and!; [|set_solver|].
  - apply mman_node_init_ok; [|done|done|set_solver|simpl; rewrite lookup_insert_eq; eauto].
    destruct Hok as [Hb Hhd Hns Hfr Ht Hm]. constructor; [done| |done| | |].
    + eapply headed_same; [exact Hhd|done|..]; intros b Hb'; rewrite Hat by set_solver; done.
    + eapply fok_ext, Hfr; [done|]. intros b Hb'. unfold free_of. by rewrite Hat by set_solver.
    + eapply tiled_ext, Ht. intros b Hb'. by apply Hsame; set_solver.
    + rewrite Forall_forall in *. intros b Hb'. rewrite Hsame by set_solver. by apply Hm.
  - intros b x z. rewrite HA. destruct (decide (b ∈ L)) as [Hb|Hb]; [|naive_solver].
    change (node_at (mman_node_init (put_node m a n) a) b) with (node_at (put_node m a n) b). by rewrite Hat by set_solver.
Qed.
End Refine.


(** ** Creating an allocator and looking at it *)

Lemma mman_init_rel m start size : nodes (mm_nodes m) = ∅ -> nodes (mm_free m) = ∅ ->
  okp (mm_node m) -> okp (mm_node m + 16) -> 0 < start -> 0 <= size -> start + size <= 2 ^ 32 ->
  exists m', mman_init m start size = Done m' /\ mm_rel m' ∅ ∅ start (start + size).
Proof.
  intros Hn Hf Hp1 Hp2 Hs Hz He. destruct (mman_init_ok m start size Hn Hf Hp1 Hp2 Hs Hz He) as (m' & Hrun & Hok & _).
  exists m'. split; [done|]. exists [mm_node m], []. split_and!; [done|done|].
  destruct (mm_hd _ _ _ _ _ Hok) as (L' & [= Heq _]). intros b x z. rewrite lookup_empty. set_solver.
Qed.

(** The ranges of an allocator lie in its region, are not empty and do not
    overlap. *)
Lemma mman_ranges m A I lo hi a x z : mm_rel m A I lo hi -> A !! a = Some (x, z) ->
  lo <= x /\ 0 < z /\ x + z <= hi /\ (forall b y w, b <> a -> A !! b = Some (y, w) -> apart x z y w).
Proof.
  intros (L & X & Hok & -> & HA) (Ha & Ham & <- & <-)%HA.
  destruct (tiled_elem _ _ _ _ a (mo_tiled _ _ _ _ _ Hok) Ha) as (n & Hn & ? & ? & ? & ?).
  assert (0 < m_size (node_at m a)) as Hsz.
  { destruct (mo_head _ _ _ _ _ Hok) as (L' & -> & _ & HF). rewrite Forall_forall in HF. apply HF. set_solver. }
  pose proof Ha as (L1 & L2 & HL)%list_elem_of_split. rewrite (node_at_Some _ _ _ Hn) in *. split_and!; [lia..|].
  intros b y w Hba (Hb & _ & <- & <-)%HA. unfold apart.
  destruct (rel_apart _ _ _ _ _ _ _ _ _ _ Hok HL Hn Hb Hba) as [?|?]; [left; lia|right].
  destruct (tiled_elem _ _ _ _ b (mo_tiled _ _ _ _ _ Hok) Hb) as (k & Hk & ?). rewrite (node_at_Some _ _ _ Hk) in *. lia.
Qed.

Lemma dummy_size m L X lo hi : mm_ok m L X lo hi -> m_size (node_at m (mm_node m)) = 0.
Proof. intros Hok. by destruct (mo_head _ _ _ _ _ Hok) as (L' & _ & ? & _). Qed.

(** Looking an address up finds the allocated node whose range contains it,
    unless it is the last address of the range. *)
Theorem mman_lookup_exact m A I lo hi addr : mm_rel m A I lo hi ->
  exists r, mman_lookup m addr = Done r /\
    ((exists x z, A !! r = Some (x, z) /\ x <= addr < x + z - 1) \/
     (r = 0 /\ forall a x z, A !! a = Some (x, z) -> ~ x <= addr < x + z - 1)).
Proof.
  intros (L & X & Hok & -> & HA).
  destruct (mman_lookup_run _ _ _ _ _ addr Hok) as (r & Hr & [[-> Hno]|[Hin Hc]]); eexists; (split; [exact Hr|]).
  - right. split; [done|]. intros a x z (Ha & _ & <- & <-)%HA Hc. by apply (Hno a Ha).
  - left. unfold covers in Hc. do 2 eexists. split; [apply HA; split_and!; [done| |done|done]|done].
    intros ->. rewrite (dummy_size _ _ _ _ _ Hok) in Hc. lia.
Qed.

(** The first node that ends behind [addr], and the one after a node. *)
Lemma mman_first_node_rel m A I lo hi addr size : mm_rel m A I lo hi -> lo <= addr -> 0 < size -> addr + size <= hi ->
  exists r, mman_first_node m addr size = Done r /\
    ((r = 0 /\ forall a x z, A !! a = Some (x, z) -> addr < x + z - 1 -> addr + size <= x) \/
     (exists x z, A !! r = Some (x, z) /\ addr < x + z - 1 /\ x < addr + size /\
        forall b y w, A !! b = Some (y, w) -> y < x -> y + w - 1 <= addr)).
Proof.
  intros (L & X & Hok & -> & HA) Hlo Hsz Hhi.
  destruct (mman_first_node_run _ _ _ _ _ addr size Hok Hlo Hsz Hhi) as (r & Hr & [[-> Hno]|(P & Q & HL & He & Hlt & HP)]);
    eexists; (split; [exact Hr|]).
  - left. split; [done|]. intros a x z (Ha & _ & <- & <-)%HA. by apply Hno.
  - right. assert (r ∈ L) as HrL by (rewrite HL; set_solver). unfold ends_after in *.
    do 2 eexists. split; [apply HA; split_and!; [done| |done|done]|].
    { intros ->. rewrite (dummy_size _ _ _ _ _ Hok) in He.
      pose proof (mo_tiled _ _ _ _ _ Hok) as Ht. destruct (mm_hd _ _ _ _ _ Hok) as (L' & HL2).
      rewrite HL2 in Ht. destruct Ht as (k & Hk & Hx & _). rewrite (node_at_Some _ _ _ Hk) in *. lia. }
    split_and!; [done..|]. intros b y w (Hb & _ & <- & <-)%HA Hbr.
    destruct (mm_lookup _ _ _ _ _ r Hok HrL) as (rn & Hrn & Hrat). rewrite Hrat in *.
    pose proof (mo_tiled _ _ _ _ _ Hok) as Ht. rewrite HL in Hb, Ht.
    destruct (tiled_split _ _ _ _ _ _ _ Ht Hrn) as (_ & Hgt & _ & ? & ? & _).
    apply elem_of_app in Hb as [Hb|[->|Hb]%elem_of_cons]; [specialize (HP b Hb); lia|rewrite Hrat in Hbr; lia|].
    specialize (Hgt b Hb). lia.
Qed.

Lemma mman_node_next_rel m A I lo hi a x z : mm_rel m A I lo hi -> A !! a = Some (x, z) ->
  exists r, mman_node_next m a = Done r /\
    ((r = 0 /\ forall b y w, A !! b = Some (y, w) -> y <= x) \/
     (exists y w, A !! r = Some (y, w) /\ x < y /\ forall b y' w', A !! b = Some (y', w') -> x < y' -> y <= y')).
Proof.
  intros Hrel Hax. pose proof (mman_ranges _ _ _ _ _ _ _ _ Hrel Hax) as (_ & Hz & _ & _).
  destruct Hrel as (L & X & Hok & -> & HA). pose proof Hax as (Ha & Ham & Hx & Hzz)%HA.
  pose proof Ha as (L1 & L2 & HL)%list_elem_of_split.
  destruct (mm_lookup _ _ _ _ _ a Hok Ha) as (n & Hn & Hna). rewrite Hna in *.
  pose proof (mo_tiled _ _ _ _ _ Hok) as Ht. pose proof (mo_nodes _ _ _ _ _ Hok) as Hns. rewrite HL in Ht, Hns.
  destruct (tiled_split _ _ _ _ _ _ _ Ht Hn) as (Hlt & Hgt & _ & _ & ? & _).
  assert (forall b, b ∈ L1 -> m_addr (node_at m b) <= x) as Hle.
  { intros b Hb. specialize (Hlt b Hb). destruct (tiled_elem _ _ _ _ b Ht) as (k & Hk & ?); [set_solver|].
    rewrite (node_at_Some _ _ _ Hk) in *. lia. }
  eexists. split; [exact (seq_next _ _ node_ob_rb _ _ _ _ _ Hns)|]. destruct L2 as [|r L2]; simpl.
  - left. split; [done|]. intros b y w (Hb & _ & <- & _)%HA. rewrite HL in Hb.
    apply elem_of_app in Hb as [Hb|[->|[]%elem_of_nil]%elem_of_cons]; [by apply Hle|rewrite Hna; lia].
  - right. do 2 eexists. split; [apply HA; split_and!; [rewrite HL; set_solver| |done|done]|].
    { intros ->. destruct (mm_hd _ _ _ _ _ Hok) as (L' & HL2). pose proof (mm_NoDup _ _ _ _ _ Hok) as Hnd.
      rewrite HL2 in HL. destruct L1 as [|c L1]; [injection HL as <- _; done|]. injection HL as <- ->.
      rewrite HL2 in Hnd. simpl in Hnd. apply NoDup_cons in Hnd as [Hnd _]. set_solver. }
    split; [specialize (Hgt r ltac:(set_solver)); lia|]. intros b y' w' (Hb & _ & <- & _)%HA Hlt2. rewrite HL in Hb.
    change (a :: r :: L2) with ([a] ++ r :: L2) in Ht. rewrite app_assoc in Ht.
    destruct (mm_lookup _ _ _ _ _ r Hok) as (rn & Hrn & Hrat); [rewrite HL; set_solver|]. rewrite Hrat.
    destruct (tiled_split _ _ _ _ _ _ _ Ht Hrn) as (_ & Hgt2 & _ & ? & ? & _).
    apply elem_of_app in Hb as [Hb|[->|[->|Hb]%elem_of_cons]%elem_of_cons].
    + specialize (Hle b Hb). lia.
    + rewrite Hna in Hlt2. lia.
    + by rewrite Hrat.
    + specialize (Hgt2 b Hb). lia.
Qed.

(** When every free space begins at a multiple of the alignment (whole pages),
    allocation fails only if no free space is large enough, and otherwise takes
    a smallest one that is, from its beginning. *)
Theorem mman_alloc_best_fit m L X a lo hi size k : mm_ok m L (a :: X) lo hi -> 0 <= k <= 32 -> 0 < size ->
  all_aligned m L k ->
  exists r m', mman_alloc m size (2 ^ k) a = Done (r, m') /\
    ((r = - ENOMEM /\ m' = m /\ forall b, b ∈ L -> m_free (node_at m b) < size) \/
     (r = 0 /\ exists f, f ∈ L /\ m_addr (node_at m' a) = start_of (node_at m f) /\ m_size (node_at m' a) = size /\
        size <= m_free (node_at m f) /\
        forall b, b ∈ L -> size <= m_free (node_at m b) -> m_free (node_at m f) <= m_free (node_at m b))).
Proof.
  intros Hok Hk Hsz Hal. destruct (mman_alloc_run _ _ _ _ _ _ _ _ Hok Hk Hsz) as ([r m'] & Hrun & [(-> & -> & Hno)|Hyes]).
  - exists (- ENOMEM), m. split; [done|]. left. split_and!; [done..|]. exact (Hno Hal).
  - destruct Hyes as (-> & L1 & f & L2 & fn & addr & HL & Hf & Hmod & Hst & Hen & Hbest & Hok2 & Hinfo).
    exists 0, m'. split; [done|]. right. split; [done|]. assert (f ∈ L) as HfL by (subst L; set_solver). exists f. split; [done|].
    pose proof (Hal f HfL) as Hfa. specialize (Hbest Hal). rewrite (node_at_Some _ _ _ Hf) in *.
    assert (0 < 2 ^ k) by (apply Z.pow_pos_nonneg; lia).
    assert (addr = start_of fn) as ->.
    { pose proof (Z.div_mod addr (2 ^ k) ltac:(lia)) as H1. pose proof (Z.div_mod (start_of fn) (2 ^ k) ltac:(lia)) as H2.
      rewrite Hmod, Z.add_0_r in H1. rewrite Hfa, Z.add_0_r in H2.
      assert (addr / 2 ^ k = start_of fn / 2 ^ k) as Hq; [|by rewrite H1, H2, Hq].
      rewrite H1 in Hst at 2. rewrite H2 in Hst. nia. }
    pose proof (mm_NoDup _ _ _ _ _ Hok) as Hnd. rewrite <- Permutation_middle in Hnd. apply NoDup_cons in Hnd as [Ha _].
    unfold node_at at 1 2. rewrite Hinfo. unfold placed. rewrite lookup_insert_ne, lookup_insert_eq by set_solver. simpl.
    split_and!; [done|done|lia|]. exact Hbest.
Qed.

(** ** An allocator with one idle node *)

Definition blank_mman : mman_t := Mman (RbSt ∅ 0) (RbSt ∅ 0) ∅ 0x100.
Definition ok_or (m : mman_t) (r : res mman_t) : mman_t := match r with Done m' => m' | _ => m end.
(** The region from 0x1000 to 0xffff. *)
Definition demo_mman : mman_t := ok_or blank_mman (mman_init blank_mman 0x1000 0xf000).
Definition demo_idle : mman_t := mman_node_init (put_node demo_mman 0x200 (MNode 7 7 7)) 0x200.

Lemma okp_demo p : bool_decide (0 < p < 2 ^ 32) && bool_decide (p mod 4 = 0) = true -> okp p.
Proof. rewrite andb_true_iff, !bool_decide_eq_true. done. Qed.

Lemma demo_mman_ok : mm_ok demo_mman [0x100] [] 0x1000 0x10000.
Proof.
  destruct (mman_init_ok blank_mman 0x1000 0xf000) as (m' & Hrun & Hok & _).
  all: try reflexivity. all: try (by apply okp_demo). all: try lia.
  unfold demo_mman. rewrite Hrun. exact Hok.
Qed.

Lemma demo_idle_ok : mm_ok demo_idle [0x100] [0x200] 0x1000 0x10000.
Proof.
  apply mman_node_init_ok; [|by apply okp_demo|by apply okp_demo|set_solver|vm_compute; eauto].
  destruct demo_mman_ok as [Hb Hhd Hns Hfr Ht Hm].
  assert (forall b, b ∈ [0x100] -> node_at (put_node demo_mman 0x200 (MNode 7 7 7)) b = node_at demo_mman b) as Hat.
  { intros b ->%list_elem_of_singleton. reflexivity. }
  constructor; [done| |done| | |constructor].
  - eapply headed_same; [exact Hhd|done|..]; intros b Hb'; by rewrite Hat.
  - eapply fok_ext, Hfr; [done|]. intros b Hb'. unfold free_of. by rewrite Hat.
  - eapply tiled_ext, Ht. intros b ->%list_elem_of_singleton. reflexivity.
Qed.

Lemma demo_idle_rel : mm_rel demo_idle ∅ {[0x200]} 0x1000 0x10000.
Proof.
  exists [0x100], [0x200]. split; [exact demo_idle_ok|]. split; [set_solver|]. intros b x z.
  rewrite lookup_empty. change (mm_node demo_idle) with 0x100. set_solver.
Qed.


Lemma mman_lookup_exact_witness : exists r, mman_lookup demo_idle 0x1800 = Done r /\
  ((exists x z, (∅ : gmap Z (Z * Z)) !! r = Some (x, z) /\ x <= 0x1800 < x + z - 1) \/
   (r = 0 /\ forall a x z, (∅ : gmap Z (Z * Z)) !! a = Some (x, z) -> ~ x <= 0x1800 < x + z - 1)).
Proof. apply (mman_lookup_exact demo_idle ∅ {[0x200]} 0x1000 0x10000 0x1800 demo_idle_rel). Defined.

Lemma mman_alloc_best_fit_witness : exists r m', mman_alloc demo_idle 0x2000 (2 ^ 12) 0x200 = Done (r, m') /\
  ((r = - ENOMEM /\ m' = demo_idle /\ forall b, b ∈ [0x100] -> m_free (node_at demo_idle b) < 0x2000) \/
   (r = 0 /\ exists f, f ∈ [0x100] /\ m_addr (node_at m' 0x200) = start_of (node_at demo_idle f) /\
      m_size (node_at m' 0x200) = 0x2000 /\ 0x2000 <= m_free (node_at demo_idle f) /\
      forall b, b ∈ [0x100] -> 0x2000 <= m_free (node_at demo_idle b) -> m_free (node_at demo_idle f) <= m_free (node_at demo_idle b))).
Proof.
  apply (mman_alloc_best_fit demo_idle [0x100] [] 0x200 0x1000 0x10000 0x2000 12 demo_idle_ok); [lia|lia|].
  intros b ->%list_elem_of_singleton. reflexivity.
Defined.

(** The last address of an allocation is not found. *)
Definition demo_alloc : mman_t := ok_or demo_idle (let* '(_, m) := mman_alloc demo_idle 0x1000 0x1000 0x200 in Done m).
Example mman_lookup_last : node_at demo_alloc 0x200 = MNode 0x1000 0x1000 0xe000 /\
  mman_lookup demo_alloc 0x1ffe = Done 0x200 /\ mman_lookup demo_alloc 0x1fff = Done 0.
Proof. split_and!; vm_compute; reflexivity. Qed.

(** A region with a free space of 0x1200 bytes at 0x1800 and one of 0x5e00
    bytes at 0x3200. *)
Definition demo_holes : mman_t :=
  ok_or blank_mman (let* m := mman_init blank_mman 0x1000 0x8000 in
    let m := mman_node_init (put_node m 0x200 (MNode 0 0 0)) 0x200 in
    let m := mman_node_init (put_node m 0x300 (MNode 0 0 0)) 0x300 in
    let m := mman_node_init (put_node m 0x400 (MNode 0 0 0)) 0x400 in
    let* m := mman_insert m 0x1000 0x800 0x200 in
    let* m := mman_insert m 0x2a00 0x1000 0x300 in
    mman_node_free_tail m 0x300 0x800).

(** Allocation of 0x1000 bytes at a multiple of 0x1000 fails although the range
    from 0x4000 on is free: from a space that is large enough but has no
    aligned range the search only goes on to smaller ones. *)
Example mman_alloc_gives_up :
  node_at demo_holes 0x200 = MNode 0x1000 0x800 0x1200 /\ node_at demo_holes 0x300 = MNode 0x2a00 0x800 0x5e00 /\
  mman_alloc demo_holes 0x1000 0x1000 0x400 = Done (- ENOMEM, demo_holes).
Proof. split_and!; vm_compute; reflexivity. Qed.
