(* ===== verification/Bitset.v ===== *)
(** * lib/bitset.c: bitmaps packed into bytes

    [bset_t] is a byte array and a number of bits.  Every operation of the
    file is modelled on the byte array; [bits] reads a bitmap back as a
    function from bit numbers to booleans and the theorems are stated on it. *)
From stdpp Require Import base tactics option list numbers.
From Stdlib Require Import ZArith Lia Bool.
From S2P Require Import Prelude.
#[local] Ltac Zify.zify_post_hook ::= Z.to_euclidean_division_equations.

(** ** The C library's [ffs] (elos/bitops.h): one plus the index of the
    lowest bit that is set, 0 when there is none. *)
Fixpoint ffs_pos (p : positive) : Z :=
  match p with
  | xO q => ffs_pos q + 1
  | _ => 1
  end.

Definition ffs (x : Z) : Z :=
  match x with
  | Z0 => 0
  | Zpos p => ffs_pos p
  | Zneg p => ffs_pos p
  end.

(** What the bitmap code asks of [kmalloc(size, VM_ZERO)]: [size] bytes, all
    zero, when it does not fail. *)
Class ZeroAlloc := {
  kmalloc_zero : Z -> option (list Z);
  kmalloc_zero_spec : forall n b, kmalloc_zero n = Some b -> b = replicate (Z.to_nat n) 0;
}.

Record bset_t := Bset { bitset : list Z; size : Z }.

Definition bset_init (data : list Z) (size : Z) : bset_t := Bset data size.

Definition bset_alloc `{ZeroAlloc} (size : Z) : Z * option bset_t :=
  match kmalloc_zero (Z.shiftr (ALIGN 32 size 8) 3) with
  | None => (- ENOMEM, None)
  | Some buf => (0, Some (bset_init buf size))
  end.

(** [bset(x, b)] and [bclr(x, b)] of elos/bitops.h on a [uint8_t]. *)
Definition bset8 (x b : Z) : Z := u8 (Z.lor x (Z.shiftl 1 b)).
Definition bclr8 (x b : Z) : Z := u8 (Z.land x (Z.lnot (Z.shiftl 1 b))).

(** Read and write [set->bitset[i]]. *)
Definition byte_at (set : bset_t) (i : Z) : res Z := deref (bitset set !! Z.to_nat i).
Definition byte_put (set : bset_t) (i v : Z) : bset_t :=
  Bset (<[Z.to_nat i := v]> (bitset set)) (size set).

Definition bset_set (set : bset_t) (bit : Z) : res bset_t :=
  kassert bit <? size set in
  let* x := byte_at set (Z.shiftr bit 3) in
  Done (byte_put set (Z.shiftr bit 3) (bset8 x (Z.land bit 7))).

Definition bset_clr (set : bset_t) (bit : Z) : res bset_t :=
  kassert bit <? size set in
  let* x := byte_at set (Z.shiftr bit 3) in
  Done (byte_put set (Z.shiftr bit 3) (bclr8 x (Z.land bit 7))).

Definition bset_test (set : bset_t) (bit : Z) : res bool :=
  let* x := byte_at set (Z.shiftr bit 3) in
  Done (negb (Z.land x (Z.shiftl 1 (Z.land bit 7)) =? 0)).

(** The loop of [bset_ffs] from byte offset [i]: [i] is a [size_t], [bit] an
    [int]. *)
Fixpoint bset_ffs_loop (fuel : nat) (set : bset_t) (i : Z) : res Z :=
  match fuel with
  | O => Stuck
  | S fuel =>
    if i <? size set then
      let* x := byte_at set (Z.shiftr i 3) in
      let bit := ffs x in
      if 0 <? bit then
        let bit := s32 (bit + i) in
        if size set <? u32 bit then Done (- ENOSPC) else Done bit
      else bset_ffs_loop fuel set (u32 (i + 8))
    else Done 0
  end.
Definition bset_ffs (set : bset_t) : res Z :=
  bset_ffs_loop (S (length (bitset set))) set 0.

Fixpoint bset_alloc_bit_loop (fuel : nat) (set : bset_t) (i : Z) : res (Z * bset_t) :=
  match fuel with
  | O => Stuck
  | S fuel =>
    if i <? size set then
      let* x := byte_at set (Z.shiftr i 3) in
      let bit := ffs (Z.land (Z.lnot x) 255) in
      if 0 <? bit then
        let bit := s32 (bit - 1 + i) in
        if size set <=? u32 bit then Done (- ENOSPC, set)
        else let* set' := bset_set set (u32 bit) in Done (bit, set')
      else bset_alloc_bit_loop fuel set (u32 (i + 8))
    else Done (- ENOSPC, set)
  end.
Definition bset_alloc_bit (set : bset_t) : res (Z * bset_t) :=
  bset_alloc_bit_loop (S (length (bitset set))) set 0.

Definition bset_free_bit (set : bset_t) (bit : Z) : res bset_t := bset_clr set bit.

(** ** Specification *)

(** Bit [b] of the bitmap. *)
Definition bits (set : bset_t) (b : Z) : bool :=
  match bitset set !! Z.to_nat (b / 8) with
  | Some x => Z.testbit x (b mod 8)
  | None => false
  end.

(** The array holds [size] bits rounded up to bytes, its elements are bytes,
    and bit numbers fit an [int]. *)
Record wf (set : bset_t) : Prop := {
  wf_size : 0 <= size set <= 2 ^ 31 - 8;
  wf_len : Z.of_nat (length (bitset set)) = (size set + 7) / 8;
  wf_byte : Forall (fun x => 0 <= x < 256) (bitset set);
}.

(** ** Lemmas *)

Lemma ffs_pos_spec p :
  0 < ffs_pos p /\ Z.testbit (Zpos p) (ffs_pos p - 1) = true /\
  forall i, 0 <= i < ffs_pos p - 1 -> Z.testbit (Zpos p) i = false.
Proof.
  induction p as [p IH|p IH|]; cbn [ffs_pos].
  - split_and!; [lia|done|lia].
  - destruct IH as (H1 & H2 & H3). rewrite (Pos2Z.inj_xO p).
    split_and!; [lia| |].
    + replace (ffs_pos p + 1 - 1) with (Z.succ (ffs_pos p - 1)) by lia.
      by rewrite Z.double_bits_succ.
    + intros i Hi. destruct (decide (i = 0)) as [->|]; [apply Z.testbit_even_0|].
      replace i with (Z.succ (i - 1)) by lia.
      rewrite Z.double_bits_succ. apply H3; lia.
  - split_and!; [lia|done|lia].
Qed.

Lemma ffs_spec x : 0 < x ->
  0 < ffs x /\ Z.testbit x (ffs x - 1) = true /\
  forall i, 0 <= i < ffs x - 1 -> Z.testbit x i = false.
Proof. destruct x; try lia. intros _. apply ffs_pos_spec. Qed.

Lemma ffs_le x w : 0 <= w -> 0 <= x < 2 ^ w -> 0 <= ffs x <= w.
Proof.
  intros Hw Hx. destruct (decide (x = 0)) as [->|]; [simpl; lia|].
  destruct (ffs_spec x) as (H1 & H2 & _); [lia|]. split; [lia|].
  destruct (decide (ffs x <= w)); [done|].
  pose proof (Z.mod_pow2_bits_high x w (ffs x - 1)) as H3.
  rewrite Z.mod_small in H3 by lia. rewrite H3 in H2 by lia. done.
Qed.

(** The complement of a byte, as [bset_alloc_bit] computes it. *)
Lemma not_byte_bits x i : 0 <= i < 8 ->
  Z.testbit (Z.land (Z.lnot x) 255) i = negb (Z.testbit x i).
Proof.
  intros Hi. change 255 with (Z.ones 8).
  rewrite Z.land_spec, Z.lnot_spec, Z.ones_spec_low by lia. by rewrite andb_true_r.
Qed.

Lemma not_byte_bound x : 0 <= Z.land (Z.lnot x) 255 < 2 ^ 8.
Proof. change 255 with (Z.ones 8). rewrite Z.land_ones by lia. apply Z.mod_pos_bound. lia. Qed.

Lemma div8_lt b n : 0 <= b < n -> (Z.to_nat (b / 8) < Z.to_nat ((n + 7) / 8))%nat.
Proof. intros. apply Z2Nat.inj_lt; lia. Qed.

Lemma shiftr3 b : Z.shiftr b 3 = b / 8.
Proof. by rewrite Z.shiftr_div_pow2. Qed.
Lemma land7 b : Z.land b 7 = b mod 8.
Proof. change 7 with (Z.ones 3). by rewrite Z.land_ones. Qed.

Lemma wf_byte_at set b : wf set -> 0 <= b < size set ->
  exists x, bitset set !! Z.to_nat (b / 8) = Some x /\ 0 <= x < 256.
Proof.
  intros [Hs Hl Hb] Hr.
  destruct (lookup_lt_is_Some_2 (bitset set) (Z.to_nat (b / 8))) as [x Hx].
  { pose proof (div8_lt b (size set) Hr). lia. }
  exists x. split; [done|]. by eapply Forall_lookup_1 in Hb.
Qed.

Lemma byte_high x i : 0 <= x < 256 -> 8 <= i -> Z.testbit x i = false.
Proof. intros. rewrite <- (Z.mod_small x (2 ^ 8)) by lia. by rewrite Z.mod_pow2_bits_high by lia. Qed.

Lemma shiftl1_bits b i : 0 <= b -> Z.testbit (Z.shiftl 1 b) i = (b =? i).
Proof. intros. rewrite Z.shiftl_1_l. by apply Z.pow2_bits_eqb. Qed.

Lemma bset8_spec x b i : 0 <= x < 256 -> 0 <= b < 8 -> 0 <= i ->
  Z.testbit (bset8 x b) i = (b =? i) || Z.testbit x i.
Proof.
  intros Hx Hb Hi. unfold bset8, u8.
  rewrite testbit_wrap, Z.lor_spec, shiftl1_bits, orb_comm by lia.
  destruct (Z.ltb_spec i 8); [done|]. rewrite (byte_high x i) by lia.
  destruct (Z.eqb_spec b i); [lia|done].
Qed.

Lemma bclr8_spec x b i : 0 <= x < 256 -> 0 <= b < 8 -> 0 <= i ->
  Z.testbit (bclr8 x b) i = negb (b =? i) && Z.testbit x i.
Proof.
  intros Hx Hb Hi. unfold bclr8, u8.
  rewrite testbit_wrap, Z.land_spec, Z.lnot_spec, shiftl1_bits by lia.
  destruct (Z.ltb_spec i 8); [rewrite andb_true_l; apply andb_comm|].
  rewrite (byte_high x i) by lia. by destruct (negb (b =? i)).
Qed.

(** Writing one byte of a well-formed bitmap: what it does to the bits. *)
Lemma byte_put_spec set b v (f : Z -> bool) : wf set -> 0 <= b < size set -> 0 <= v < 256 ->
  (forall i, 0 <= i < 8 -> Z.testbit v i = f (b / 8 * 8 + i)) ->
  wf (byte_put set (b / 8) v) /\ size (byte_put set (b / 8) v) = size set /\
  forall b', 0 <= b' ->
    bits (byte_put set (b / 8) v) b' = if b' / 8 =? b / 8 then f b' else bits set b'.
Proof.
  intros Hwf Hb Hv Hf. destruct (wf_byte_at set b Hwf Hb) as (x & Hx & _).
  pose proof (lookup_lt_Some _ _ _ Hx) as Hlt. destruct Hwf as [Hs Hl HF].
  split_and!; [|done|].
  - constructor; simpl; [done|by rewrite length_insert|].
    apply Forall_insert; [done|lia].
  - intros b' Hb'. unfold bits. simpl. destruct (Z.eqb_spec (b' / 8) (b / 8)) as [E|E].
    + rewrite E, list_lookup_insert_eq by done. rewrite Hf by lia. f_equal. lia.
    + rewrite list_lookup_insert_ne; [done|]. intros E'. apply E. apply Z2Nat.inj in E'; lia.
Qed.

Lemma bits_lookup set b x : bitset set !! Z.to_nat (b / 8) = Some x ->
  forall i, 0 <= i < 8 -> 0 <= b -> bits set (b / 8 * 8 + i) = Z.testbit x i.
Proof.
  intros Hx i Hi Hb. unfold bits.
  replace ((b / 8 * 8 + i) / 8) with (b / 8) by lia. rewrite Hx. f_equal. lia.
Qed.

Lemma bset_set_spec set b : wf set -> 0 <= b < size set ->
  exists set', bset_set set b = Done set' /\ wf set' /\ size set' = size set /\
    forall b', 0 <= b' -> bits set' b' = (b =? b') || bits set b'.
Proof.
  intros Hwf Hb. destruct (wf_byte_at set b Hwf Hb) as (x & Hx & Hx8).
  unfold bset_set, byte_at. destruct (Z.ltb_spec b (size set)); [|lia].
  rewrite shiftr3, land7, Hx. simpl. eexists; split; [done|].
  destruct (byte_put_spec set b (bset8 x (b mod 8)) (fun b' => (b =? b') || bits set b'))
    as (W & Sz & B); [done|done|apply u8_bound| |].
  - intros i Hi. rewrite bset8_spec, (bits_lookup set b x) by (done || lia).
    f_equal. apply eq_true_iff_eq. rewrite !Z.eqb_eq. lia.
  - split_and!; [done|done|]. intros b' Hb'. rewrite B by done.
    destruct (Z.eqb_spec (b' / 8) (b / 8)); [done|].
    destruct (Z.eqb_spec b b'); [subst; lia|done].
Qed.

Lemma bset_clr_spec set b : wf set -> 0 <= b < size set ->
  exists set', bset_clr set b = Done set' /\ wf set' /\ size set' = size set /\
    forall b', 0 <= b' -> bits set' b' = negb (b =? b') && bits set b'.
Proof.
  intros Hwf Hb. destruct (wf_byte_at set b Hwf Hb) as (x & Hx & Hx8).
  unfold bset_clr, byte_at. destruct (Z.ltb_spec b (size set)); [|lia].
  rewrite shiftr3, land7, Hx. simpl. eexists; split; [done|].
  destruct (byte_put_spec set b (bclr8 x (b mod 8)) (fun b' => negb (b =? b') && bits set b'))
    as (W & Sz & B); [done|done|apply u8_bound| |].
  - intros i Hi. rewrite bclr8_spec, (bits_lookup set b x) by (done || lia).
    f_equal. f_equal. apply eq_true_iff_eq. rewrite !Z.eqb_eq. lia.
  - split_and!; [done|done|]. intros b' Hb'. rewrite B by done.
    destruct (Z.eqb_spec (b' / 8) (b / 8)); [done|].
    destruct (Z.eqb_spec b b'); [subst; lia|done].
Qed.

Lemma bset_test_spec set b : wf set -> 0 <= b < size set ->
  bset_test set b = Done (bits set b).
Proof.
  intros Hwf Hb. destruct (wf_byte_at set b Hwf Hb) as (x & Hx & Hx8).
  unfold bset_test, byte_at, bits. rewrite shiftr3, land7, Hx. simpl. f_equal.
  destruct (Z.testbit x (b mod 8)) eqn:E.
  - apply negb_true_iff, Z.eqb_neq. intros H0.
    apply (f_equal (fun z => Z.testbit z (b mod 8))) in H0.
    rewrite Z.land_spec, shiftl1_bits, E, Z.eqb_refl, Z.bits_0 in H0 by lia. done.
  - apply negb_false_iff, Z.eqb_eq. apply Z.bits_inj'. intros i Hi.
    rewrite Z.land_spec, shiftl1_bits, Z.bits_0 by lia.
    destruct (Z.eqb_spec (b mod 8) i) as [<-|]; [by rewrite E|apply andb_false_r].
Qed.

(** ** The allocation loop *)

(** One step of the loop at byte [i / 8]. *)
Lemma alloc_bit_byte set i : wf set -> 0 <= i < size set -> i mod 8 = 0 ->
  exists x, bitset set !! Z.to_nat (Z.shiftr i 3) = Some x /\ 0 <= x < 256 /\
    forall j, 0 <= j < 8 -> bits set (i + j) = Z.testbit x j.
Proof.
  intros Hwf Hi Hm. destruct (wf_byte_at set i Hwf Hi) as (x & Hx & Hx8).
  exists x. rewrite shiftr3. split_and!; [done|lia|lia|].
  intros j Hj. rewrite <- (bits_lookup set i x) by (done || lia). f_equal. lia.
Qed.

Lemma bset_alloc_bit_loop_spec fuel set i :
  wf set -> 0 <= i <= size set + 7 -> i mod 8 = 0 -> (size set + 7 - i) / 8 < Z.of_nat fuel ->
  (forall b, 0 <= b < i -> b < size set -> bits set b = true) ->
  exists r set', bset_alloc_bit_loop fuel set i = Done (r, set') /\
    ((0 <= r < size set /\ bits set r = false /\
      (forall b, 0 <= b < r -> bits set b = true) /\
      bset_set set r = Done set')
     \/ (r = - ENOSPC /\ set' = set /\
         forall b, 0 <= b < size set -> bits set b = true)).
Proof.
  intros Hwf. revert i. induction fuel as [|fuel IH]; intros i Hi Hm Hf Hlow.
  { pose proof (wf_size _ Hwf). lia. }
  cbn [bset_alloc_bit_loop]. pose proof (wf_size _ Hwf) as Hsz.
  destruct (Z.ltb_spec i (size set)).
  2: { do 2 eexists. split; [done|]. right. split_and!; [done|done|].
       intros b Hb. apply Hlow; lia. }
  destruct (alloc_bit_byte set i Hwf) as (x & Hx & Hx8 & Hbits); [lia|done|].
  unfold byte_at. rewrite Hx. cbn [deref rbind].
  set (y := Z.land (Z.lnot x) 255).
  pose proof (not_byte_bound x) as Hy. pose proof (not_byte_bits x) as Hyb. fold y in Hy, Hyb.
  pose proof (ffs_le y 8 ltac:(lia) Hy) as Hle.
  destruct (Z.ltb_spec 0 (ffs y)) as [Hpos|Hnp].
  - destruct (ffs_spec y) as (_ & H1 & H0).
    { destruct (decide (y = 0)) as [E|]; [rewrite E in Hpos; simpl in Hpos|]; lia. }
    rewrite Hyb in H1 by lia. apply negb_true_iff in H1.
    assert (Hbelow : forall b, 0 <= b < ffs y - 1 + i -> b < size set -> bits set b = true).
    { intros b Hb Hb'. destruct (decide (b < i)); [apply Hlow; lia|].
      replace b with (i + (b - i)) by lia. rewrite Hbits by lia.
      apply negb_false_iff. rewrite <- Hyb by lia. apply H0. lia. }
    rewrite s32_small, u32_small by lia.
    destruct (Z.leb_spec (size set) (ffs y - 1 + i)).
    + do 2 eexists. split; [done|]. right. split_and!; [done|done|].
      intros b Hb. apply Hbelow; lia.
    + destruct (bset_set_spec set (ffs y - 1 + i) Hwf) as (set' & Hset & _); [lia|].
      rewrite Hset. cbn [rbind]. do 2 eexists. split; [done|]. left.
      split_and!; [lia|lia| |intros b Hb; apply Hbelow; lia|done].
      rewrite (Z.add_comm _ i). rewrite Hbits by lia. done.
  - rewrite u32_small by lia. apply IH; [lia|lia|lia|].
    intros b Hb Hb'. destruct (decide (b < i)); [apply Hlow; lia|].
    assert (y = 0) as Hy0.
    { destruct (decide (y = 0)); [done|]. destruct (ffs_spec y); lia. }
    replace b with (i + (b - i)) by lia. rewrite Hbits by lia.
    apply negb_false_iff. rewrite <- Hyb by lia. rewrite Hy0. apply Z.bits_0.
Qed.

Lemma bset_ffs_loop_spec fuel set i :
  wf set -> 0 <= i <= size set + 7 -> i mod 8 = 0 -> (size set + 7 - i) / 8 < Z.of_nat fuel ->
  (forall b, 0 <= b < i -> b < size set -> bits set b = false) ->
  exists r, bset_ffs_loop fuel set i = Done r /\
    ((0 < r <= size set /\ bits set (r - 1) = true /\
      forall b, 0 <= b < r - 1 -> bits set b = false)
     \/ ((r = 0 \/ r = - ENOSPC) /\ forall b, 0 <= b < size set -> bits set b = false)).
Proof.
  intros Hwf. revert i. induction fuel as [|fuel IH]; intros i Hi Hm Hf Hlow.
  { pose proof (wf_size _ Hwf). lia. }
  cbn [bset_ffs_loop]. pose proof (wf_size _ Hwf) as Hsz.
  destruct (Z.ltb_spec i (size set)).
  2: { eexists. split; [done|]. right. split; [by left|]. intros b Hb. apply Hlow; lia. }
  destruct (alloc_bit_byte set i Hwf) as (x & Hx & Hx8 & Hbits); [lia|done|].
  unfold byte_at. rewrite Hx. cbn [deref rbind].
  pose proof (ffs_le x 8 ltac:(lia) ltac:(lia)) as Hle.
  destruct (Z.ltb_spec 0 (ffs x)) as [Hpos|Hnp].
  - destruct (ffs_spec x) as (_ & H1 & H0).
    { destruct (decide (x = 0)) as [E|]; [rewrite E in Hpos; simpl in Hpos|]; lia. }
    assert (Hbelow : forall b, 0 <= b < ffs x - 1 + i -> b < size set -> bits set b = false).
    { intros b Hb Hb'. destruct (decide (b < i)); [apply Hlow; lia|].
      replace b with (i + (b - i)) by lia. rewrite Hbits by lia. apply H0. lia. }
    rewrite s32_small, u32_small by lia.
    destruct (Z.ltb_spec (size set) (ffs x + i)); eexists; (split; [done|]).
    + right. split; [by right|]. intros b Hb. apply Hbelow; lia.
    + left. split_and!; [lia|lia| |intros b Hb; apply Hbelow; lia].
      replace (ffs x + i - 1) with (i + (ffs x - 1)) by lia. by rewrite Hbits by lia.
  - rewrite u32_small by lia. apply IH; [lia|lia|lia|].
    intros b Hb Hb'. destruct (decide (b < i)); [apply Hlow; lia|].
    assert (x = 0) as ->.
    { destruct (decide (x = 0)); [done|]. destruct (ffs_spec x); lia. }
    replace b with (i + (b - i)) by lia. rewrite Hbits by lia. apply Z.bits_0.
Qed.

(** ** Properties *)

Lemma bset_alloc_bit_spec set : wf set ->
  exists r set', bset_alloc_bit set = Done (r, set') /\
    ((0 <= r < size set /\ bits set r = false /\
      (forall b, 0 <= b < r -> bits set b = true) /\
      wf set' /\ size set' = size set /\
      forall b, 0 <= b -> bits set' b = (r =? b) || bits set b)
     \/ (r = - ENOSPC /\ set' = set /\
         forall b, 0 <= b < size set -> bits set b = true)).
Proof.
  intros Hwf. pose proof (wf_size _ Hwf). pose proof (wf_len _ Hwf).
  destruct (bset_alloc_bit_loop_spec (S (length (bitset set))) set 0)
    as (r & set' & Hrun & Hr); [done|lia|done|lia|lia|].
  exists r, set'. split; [done|]. destruct Hr as [(Hr & Hc & Hl & Hset)|Hr]; [left|by right].
  destruct (bset_set_spec set r Hwf Hr) as (set'' & Hset' & W & Sz & B).
  rewrite Hset in Hset'. injection Hset' as <-. done.
Qed.

(** [bset_alloc_bit] always returns (it neither panics nor reads outside
    the array); it hands out the lowest clear bit below [size] and sets exactly
    that bit, and it answers -ENOSPC, leaving the bitmap alone, only when every
    bit below [size] is taken. *)
Theorem bset_alloc_bit_first_free set : wf set ->
  exists r set', bset_alloc_bit set = Done (r, set') /\
    ((0 <= r < size set /\ bits set r = false /\
      (forall b, 0 <= b < r -> bits set b = true) /\
      wf set' /\ size set' = size set /\
      forall b, 0 <= b -> bits set' b = (r =? b) || bits set b)
     \/ (r = - ENOSPC /\ set' = set /\
         forall b, 0 <= b < size set -> bits set b = true)).
Proof. apply bset_alloc_bit_spec. Qed.

(** A 12-bit map with bits 0 to 8 and bit 10 taken. *)
Definition sample : bset_t := Bset [255; 5] 12.
Lemma sample_wf : wf sample.
Proof. constructor; [done|done|]. repeat apply Forall_cons_2; (lia || constructor). Qed.

Lemma bset_alloc_bit_first_free_witness :
  exists set', bset_alloc_bit sample = Done (9, set') /\ bits sample 9 = false.
Proof.
  destruct (bset_alloc_bit_first_free sample sample_wf) as (r & set' & Hrun & _).
  assert (r = 9) as -> by (vm_compute in Hrun; congruence).
  exists set'. split; [exact Hrun|reflexivity].
Defined.

(** [bset_ffs] returns one plus the lowest bit that is set; when it
    returns 0 or -ENOSPC no bit below [size] is set. *)
Theorem bset_ffs_lowest set : wf set ->
  exists r, bset_ffs set = Done r /\
    ((0 < r <= size set /\ bits set (r - 1) = true /\
      forall b, 0 <= b < r - 1 -> bits set b = false)
     \/ ((r = 0 \/ r = - ENOSPC) /\ forall b, 0 <= b < size set -> bits set b = false)).
Proof.
  intros Hwf. pose proof (wf_size _ Hwf). pose proof (wf_len _ Hwf).
  apply bset_ffs_loop_spec; [done|lia|done|lia|lia].
Qed.

Lemma bset_ffs_lowest_witness : bset_ffs (Bset [0; 4] 12) = Done 11.
Proof.
  destruct (bset_ffs_lowest (Bset [0; 4] 12)) as (r & Hrun & _).
  - constructor; [done|done|]. repeat apply Forall_cons_2; (lia || constructor).
  - rewrite Hrun. vm_compute in Hrun. injection Hrun as <-. reflexivity.
Defined.

(** a bit taken by [bset_alloc_bit] and given back with [bset_free_bit]
    leaves every bit as it was. *)
Theorem bset_alloc_free_roundtrip set r set' : wf set ->
  bset_alloc_bit set = Done (r, set') -> 0 <= r ->
  exists set'', bset_free_bit set' r = Done set'' /\ wf set'' /\
    forall b, 0 <= b -> bits set'' b = bits set b.
Proof.
  intros Hwf Hrun Hr. destruct (bset_alloc_bit_loop_spec (S (length (bitset set))) set 0)
    as (r' & s' & Hrun' & Hcase); [done| |done| |lia|].
  1, 2: pose proof (wf_size _ Hwf); pose proof (wf_len _ Hwf); lia.
  unfold bset_alloc_bit in Hrun. rewrite Hrun in Hrun'. injection Hrun' as <- <-.
  destruct Hcase as [(Hr' & Hc & _ & Hset)|[-> _]]; [|done].
  destruct (bset_set_spec set r Hwf Hr') as (s & Hs & W & Sz & B).
  rewrite Hset in Hs. injection Hs as <-.
  destruct (bset_clr_spec set' r W) as (s & Hs & W' & _ & B'); [lia|].
  exists s. split_and!; [done|done|]. intros b Hb. rewrite B', B by done.
  destruct (Z.eqb_spec r b) as [<-|]; by rewrite ?Hc.
Qed.

Lemma bset_alloc_free_roundtrip_witness :
  exists set'', bset_free_bit (Bset [255; 7] 12) 9 = Done set''.
Proof.
  destruct (bset_alloc_free_roundtrip sample 9 (Bset [255; 7] 12) sample_wf)
    as (s & Hs & _); [reflexivity|lia|]. by exists s.
Defined.

(** a bitmap that [bset_alloc] returned is well formed and all clear. *)
Theorem bset_alloc_clear `{ZeroAlloc} sz set : 0 <= sz <= 2 ^ 31 - 8 ->
  bset_alloc sz = (0, Some set) ->
  wf set /\ size set = sz /\ forall b, 0 <= b < sz -> bset_test set b = Done false.
Proof.
  intros Hsz Hrun. unfold bset_alloc in Hrun.
  destruct (kmalloc_zero _) as [buf|] eqn:Hbuf; [|done]. injection Hrun as <-.
  apply kmalloc_zero_spec in Hbuf. rewrite shiftr3 in Hbuf.
  change 8 with (2 ^ 3) in Hbuf at 1. rewrite ALIGN_pow2 in Hbuf by lia.
  assert (Hw : wf (bset_init buf sz)).
  { constructor; simpl; [lia| |].
    - subst buf. rewrite length_replicate. lia.
    - subst buf. apply Forall_replicate. lia. }
  split_and!; [done|done|]. intros b Hb. rewrite bset_test_spec by done.
  unfold bits. simpl. subst buf. destruct (lookup _ _) as [x|] eqn:E; [|done].
  apply lookup_replicate_1 in E as [-> _]. by rewrite Z.bits_0.
Qed.

#[refine] Instance heap_alloc : ZeroAlloc := {
  kmalloc_zero n := Some (replicate (Z.to_nat n) 0)
}.
Proof. intros n b Hb. by injection Hb as <-. Defined.

Lemma bset_alloc_clear_witness : bset_test (Bset [0; 0] 12) 11 = Done false.
Proof.
  destruct (bset_alloc_clear (H := heap_alloc) 12 (Bset [0; 0] 12)) as (_ & _ & T);
    [lia|reflexivity|]. apply T. lia.
Defined.
