(* ===== verification/User.v ===== *)
(** * kern/user.c: access to user memory

    The current address space is a finite map from addresses to cells.  An
    address that is not in the map, or a write to a cell that is read only, is
    a page fault; inside [mayfault] the fault handler turns it into the error
    label of the function.  [memcpy] and [memset] work upwards, so the cells
    below a faulting one have been written when the fault happens. *)
From stdpp Require Import base tactics option list numbers gmap.
From Stdlib Require Import ZArith Lia Bool.
From S2P Require Import Prelude.

Record cell := Cell { byte : Z; writable : bool }.
Abbreviation mem := (gmap Z cell).

(** ** vm/layout.h and arch/layout.h *)
Definition USER_VM_START : Z := 0x00001000.
Definition USER_VM_END : Z := 0xBFFFFFFF.

Definition VM_IS_USER (addr : Z) : bool :=
  (USER_VM_START <=? addr) && (addr <=? USER_VM_END).

Definition VM_REGION_IS_USER (addr size : Z) : bool :=
  VM_IS_USER addr && ((size =? 0) || (u32 (size - 1) <=? u32 (USER_VM_END - addr))).

(** ** Memory accesses that may fault *)

Fixpoint load (m : mem) (a : Z) (n : nat) : option (list Z) :=
  match n with
  | O => Some []
  | S n =>
    match m !! a with
    | None => None
    | Some c => (byte c ::.) <$> load m (a + 1) n
    end
  end.

Fixpoint store (m : mem) (a : Z) (bs : list Z) : mem * bool :=
  match bs with
  | [] => (m, true)
  | b :: bs =>
    match m !! a with
    | Some (Cell _ true) => store (<[a := Cell b true]> m) (a + 1) bs
    | _ => (m, false)
    end
  end.

(** The processor's write-protect bit: with it set the kernel faults on read
    only pages too ([kwp_enabled] of arch/kwp.h). *)
Class Cpu := { kwp_enabled : bool }.

(** ** Operations *)

(** The error and, when [size] is 0, the largest size a transfer from [buf]
    may have. *)
Definition user_io_check (buf size : Z) : Z * Z :=
  if negb (VM_REGION_IS_USER buf size) then (- EFAULT, 0)
  else (0, if size =? 0 then u32 (USER_VM_END - buf + 1) else 0).

Definition rubyte (m : mem) (u : Z) : Z * option Z :=
  match load m u 1 with
  | Some [b] => (0, Some b)
  | _ => (- EFAULT, None)
  end.

(** The error and the bytes that arrived in [kbuf]. *)
Definition copyin (m : mem) (ubuf size : Z) : Z * option (list Z) :=
  let err := (user_io_check ubuf size).1 in
  if negb (err =? 0) then (err, None)
  else match load m ubuf (Z.to_nat size) with
       | Some bs => (0, Some bs)
       | None => (- EFAULT, None)
       end.

Definition copyout `{Cpu} (m : mem) (ubuf : Z) (kbuf : list Z) : res (Z * mem) :=
  let err := (user_io_check ubuf (Z.of_nat (length kbuf))).1 in
  if negb (err =? 0) then Done (err, m)
  else kassert kwp_enabled in
       let (m', ok) := store m ubuf kbuf in
       Done (if ok then 0 else - EFAULT, m').

Definition umemset `{Cpu} (m : mem) (buf c len : Z) : res (Z * mem) :=
  let err := (user_io_check buf len).1 in
  if negb (err =? 0) then Done (err, m)
  else kassert kwp_enabled in
       let (m', ok) := store m buf (replicate (Z.to_nat len) (u8 c)) in
       Done (if ok then 0 else - EFAULT, m').

(** The loop of [copyinstr]: [maxlen] bytes are left; [kbuf] holds the bytes
    copied so far, last one first. *)
Fixpoint copyinstr_loop (fuel : nat) (m : mem) (str maxlen bufsz len : Z) (kbuf : list Z)
    : res (Z * list Z * Z) :=
  match fuel with
  | O => Stuck
  | S fuel =>
    if maxlen =? 0 then
      Done (if bufsz <=? len then - ENAMETOOLONG else - EFAULT, reverse kbuf, len)
    else match rubyte m str with
         | (_, Some b) =>
           if b =? 0 then Done (0, reverse (b :: kbuf), len)
           else copyinstr_loop fuel m (u32 (str + 1)) (maxlen - 1) bufsz (u32 (len + 1)) (b :: kbuf)
         | (err, None) => Done (err, reverse kbuf, len)
         end
  end.

(** The error, the bytes written to [buf] and the string length. *)
Definition copyinstr (m : mem) (str bufsz : Z) : res (Z * list Z * Z) :=
  kassert 0 <? bufsz in
  let '(err, maxlen) := user_io_check str 0 in
  if negb (err =? 0) then Done (err, [], 0)
  else let maxlen := Z.min bufsz maxlen in
       copyinstr_loop (S (Z.to_nat maxlen)) m str maxlen bufsz 0 [].

(** ** Lemmas *)

Lemma region_user_spec addr size : 0 <= addr < 2 ^ 32 -> 0 <= size < 2 ^ 32 ->
  VM_REGION_IS_USER addr size = true <->
  USER_VM_START <= addr <= USER_VM_END /\ addr + size <= USER_VM_END + 1.
Proof.
  intros Ha Hs. unfold VM_REGION_IS_USER, VM_IS_USER, USER_VM_START, USER_VM_END.
  rewrite !andb_true_iff, orb_true_iff, !Z.leb_le, Z.eqb_eq.
  destruct (decide (size = 0)) as [->|Hn]; [intuition lia|].
  destruct (decide (addr <= 0xBFFFFFFF)).
  - rewrite !u32_small by lia. intuition lia.
  - intuition lia.
Qed.

Lemma load_length m a n bs : load m a n = Some bs -> length bs = n.
Proof.
  revert a bs. induction n as [|n IH]; intros a bs; simpl; [by intros [= <-]|].
  destruct (m !! a); [|done]. destruct (load m (a + 1) n) eqn:E; [|done].
  intros [= <-]. simpl. by rewrite (IH _ _ E).
Qed.

(** [store] changes nothing outside its range. *)
Lemma store_frame m a bs m' ok x : store m a bs = (m', ok) ->
  ~ a <= x < a + Z.of_nat (length bs) -> m' !! x = m !! x.
Proof.
  revert m a. induction bs as [|b bs IH]; intros m a; simpl.
  { by intros [= <- <-]. }
  destruct (m !! a) as [[c [|]]|] eqn:E; try by intros [= <- <-].
  intros Hs Hx. rewrite (IH _ _ Hs) by lia. rewrite lookup_insert_ne by lia. done.
Qed.

(** A complete [store] is read back by [load]. *)
Lemma store_load m a bs m' : store m a bs = (m', true) -> load m' a (length bs) = Some bs.
Proof.
  revert m a. induction bs as [|b bs IH]; intros m a; simpl; [done|].
  destruct (m !! a) as [[c [|]]|] eqn:E; try by intros [= <-].
  intros Hs. rewrite (store_frame _ _ _ _ _ a Hs) by lia.
  rewrite lookup_insert_eq. simpl. by rewrite (IH _ _ Hs).
Qed.

Lemma load_user_store_other m a n m' b bs ok : store m b bs = (m', ok) ->
  a + Z.of_nat n <= b \/ b + Z.of_nat (length bs) <= a -> load m' a n = load m a n.
Proof.
  intros Hs. revert a. induction n as [|n IH]; intros a Hd; [done|]. cbn [load].
  rewrite (store_frame _ _ _ _ _ a Hs) by lia. rewrite IH by lia. done.
Qed.

Lemma user_io_check_ok buf size : 0 <= buf < 2 ^ 32 -> 0 <= size < 2 ^ 32 ->
  (user_io_check buf size).1 = 0 ->
  USER_VM_START <= buf <= USER_VM_END /\ buf + size <= USER_VM_END + 1.
Proof.
  intros Hb Hs. unfold user_io_check.
  destruct (VM_REGION_IS_USER buf size) eqn:E; simpl; [|done].
  intros _. by apply region_user_spec in E.
Qed.

(** [load] reads the mapped bytes one by one. *)
Lemma load_lookup m a n bs i : load m a n = Some bs -> (i < n)%nat ->
  bs !! i = byte <$> m !! (a + Z.of_nat i).
Proof.
  revert a bs i. induction n as [|n IH]; intros a bs i; cbn [load]; [lia|].
  destruct (m !! a) as [c|] eqn:Ea; [|done]. destruct (load m (a + 1) n) as [bs'|] eqn:El; [|done].
  intros [= <-] Hi. destruct i as [|i]; simpl.
  - by rewrite Z.add_0_r, Ea.
  - rewrite (IH _ _ _ El) by lia. do 2 f_equal. lia.
Qed.

Lemma load_snoc m a n s b : load m a n = Some s ->
  byte <$> m !! (a + Z.of_nat n) = Some b -> load m a (n + 1) = Some (s ++ [b]).
Proof.
  revert a s. induction n as [|n IH]; intros a s; cbn [load Nat.add].
  - intros [= <-]. rewrite Z.add_0_r. destruct (m !! a); simpl; [|done]. by intros [= ->].
  - destruct (m !! a); [|done]. destruct (load m (a + 1) n) as [s'|] eqn:E; [|done].
    intros [= <-] Hb. rewrite (IH _ _ E); [done|]. rewrite <- Hb. do 2 f_equal. lia.
Qed.

(** The first [n] of the bytes that [load] reads. *)
Lemma load_prefix m a n k bs : load m a n = Some bs -> (k <= n)%nat -> load m a k = Some (take k bs).
Proof.
  revert a n bs. induction k as [|k IH]; intros a n bs Hl Hk; [done|].
  destruct n as [|n]; [lia|]. cbn [load] in *. destruct (m !! a); [|done].
  destruct (load m (a + 1) n) as [bs'|] eqn:E; [|done]. injection Hl as <-.
  rewrite (IH _ _ _ E) by lia. done.
Qed.

(** What the loop of [copyinstr] does: it reads the longest run [s] of
    non-zero bytes that its bound and the mapping allow, and stops there. *)
Lemma copyinstr_loop_spec fuel m str maxlen bufsz len kbuf :
  0 <= maxlen < Z.of_nat fuel -> 0 <= str -> str + maxlen < 2 ^ 32 ->
  0 <= len -> len + maxlen < 2 ^ 32 ->
  exists s, (0 ∉ s) /\ load m str (length s) = Some s /\ Z.of_nat (length s) <= maxlen /\
    let n := Z.of_nat (length s) in
    (n = maxlen /\ copyinstr_loop fuel m str maxlen bufsz len kbuf =
       Done (if bufsz <=? len + n then - ENAMETOOLONG else - EFAULT, reverse kbuf ++ s, len + n))
    \/ (n < maxlen /\ byte <$> m !! (str + n) = Some 0 /\
        copyinstr_loop fuel m str maxlen bufsz len kbuf = Done (0, reverse kbuf ++ s ++ [0], len + n))
    \/ (n < maxlen /\ m !! (str + n) = None /\
        copyinstr_loop fuel m str maxlen bufsz len kbuf = Done (- EFAULT, reverse kbuf ++ s, len + n)).
Proof.
  revert str maxlen len kbuf. induction fuel as [|fuel IH]; intros str maxlen len kbuf Hm Hs Hsm Hl Hlm.
  { lia. }
  cbn [copyinstr_loop]. destruct (Z.eqb_spec maxlen 0) as [->|Hne].
  { exists []. split_and!; [set_solver|done|simpl; lia|]. left. simpl.
    by rewrite app_nil_r, Z.add_0_r. }
  unfold rubyte. cbn [load]. destruct (m !! str) as [[b w]|] eqn:Eb; simpl.
  2: { exists []. split_and!; [set_solver|done|simpl; lia|]. right. right. simpl.
       rewrite !Z.add_0_r, app_nil_r. split_and!; [lia|done|done]. }
  destruct (Z.eqb_spec b 0) as [->|Hb].
  { exists []. split_and!; [set_solver|done|simpl; lia|]. right. left. simpl.
    rewrite !Z.add_0_r, Eb, reverse_cons. split_and!; [lia|done|done]. }
  rewrite !u32_small by lia.
  destruct (IH (str + 1) (maxlen - 1) (len + 1) (b :: kbuf)) as (s & Hz & Hld & Hle & Hcase); [lia..|].
  exists (b :: s). rewrite reverse_cons in Hcase. cbn [length].
  assert (En : Z.of_nat (S (length s)) = 1 + Z.of_nat (length s)) by lia.
  split_and!; [set_solver|simpl; by rewrite Eb, Hld|lia|]. cbv zeta in *. rewrite En.
  rewrite <- !app_assoc in Hcase. rewrite !Z.add_assoc.
  destruct Hcase as [[E1 E2]|[[E1 [E2 E3]]|[E1 [E2 E3]]]];
    [left|right; left|right; right]; (split_and!; [lia|..]); done.
Qed.

(** ** Properties *)

(** neither [copyout] nor [umemset] can change a byte outside the user
    part of the address space, whatever pointer and size the caller passes,
    on success and on error. *)
Theorem copyout_umemset_confined `{Cpu} m ubuf kbuf buf c len r m' a :
  0 <= ubuf < 2 ^ 32 -> Z.of_nat (length kbuf) < 2 ^ 32 ->
  0 <= buf < 2 ^ 32 -> 0 <= len < 2 ^ 32 ->
  copyout m ubuf kbuf = Done (r, m') \/ umemset m buf c len = Done (r, m') ->
  VM_IS_USER a = false -> m' !! a = m !! a.
Proof.
  intros Hu Hk Hb Hl Hrun Ha.
  assert (Hout : forall b (bs : list Z) ok m2, 0 <= b < 2 ^ 32 -> Z.of_nat (length bs) < 2 ^ 32 ->
            (user_io_check b (Z.of_nat (length bs))).1 = 0 ->
            store m b bs = (m2, ok) -> m2 !! a = m !! a).
  { intros b bs ok m2 Hb' Hlb Hc Hst. eapply store_frame; [exact Hst|].
    apply user_io_check_ok in Hc; [|lia..]. intros Hin.
    unfold VM_IS_USER in Ha. apply andb_false_iff in Ha as [Ha|Ha]; bool_props; lia. }
  unfold copyout, umemset in Hrun. destruct Hrun as [Hrun|Hrun].
  - destruct (_ =? 0) eqn:Ec; simpl in Hrun; [|by rinv]. bool_props.
    destruct kwp_enabled; [|done]. destruct (store m ubuf kbuf) as [m2 ok] eqn:Est.
    injection Hrun as <- <-. eauto.
  - destruct (_ =? 0) eqn:Ec; simpl in Hrun; [|by rinv]. bool_props.
    destruct kwp_enabled; [|done].
    destruct (store m buf _) as [m2 ok] eqn:Est. injection Hrun as <- <-.
    assert (Hlen : Z.of_nat (length (replicate (Z.to_nat len) (u8 c))) = len)
      by (rewrite length_replicate; lia).
    eapply (Hout buf); [done|rewrite Hlen; lia|by rewrite Hlen|done].
Qed.

(** a successful [copyout] can be read back by [copyin] byte for byte. *)
Theorem copyout_copyin `{Cpu} m ubuf kbuf m' :
  copyout m ubuf kbuf = Done (0, m') ->
  copyin m' ubuf (Z.of_nat (length kbuf)) = (0, Some kbuf).
Proof.
  unfold copyout, copyin. intros Hrun.
  destruct (_ =? 0) eqn:Ec; simpl in *; [|rinv; bool_props; congruence].
  destruct kwp_enabled; [|done].
  destruct (store m ubuf kbuf) as [m2 [|]] eqn:Est; [|done]. injection Hrun as <-.
  by rewrite Nat2Z.id, (store_load _ _ _ _ Est).
Qed.


(** The NUL terminated string [s] lies at [str] in user memory and fits a
    buffer of [bufsz] bytes. *)
Definition user_string (m : mem) (str bufsz : Z) (s : list Z) : Prop :=
  (0 ∉ s) /\ load m str (length s + 1) = Some (s ++ [0]) /\ Z.of_nat (length s) < bufsz /\
  USER_VM_START <= str /\ str + Z.of_nat (length s) <= USER_VM_END.

(** The terminator of a string is where a run of non-zero bytes ends. *)
Lemma user_string_byte m str bufsz s s' : user_string m str bufsz s ->
  (0 ∉ s') -> load m str (length s') = Some s' -> (length s' <= length s)%nat.
Proof.
  intros (Hz & Hl & _) Hz' Hl'. destruct (decide (length s' <= length s)%nat) as [|Hn]; [done|].
  exfalso. apply Hz', list_elem_of_lookup. exists (length s).
  rewrite (load_lookup _ _ _ _ _ Hl') by lia. rewrite <- (load_lookup _ _ _ _ _ Hl) by lia.
  rewrite lookup_app_r by lia. by rewrite Nat.sub_diag.
Qed.

Lemma user_string_end m str bufsz s s' : user_string m str bufsz s ->
  (0 ∉ s') -> load m str (length s') = Some s' ->
  byte <$> m !! (str + Z.of_nat (length s')) = Some 0 -> s = s'.
Proof.
  intros Hs Hz' Hl' Hb. pose proof (user_string_byte _ _ _ _ _ Hs Hz' Hl') as Hle.
  destruct Hs as (Hz & Hl & _).
  assert (length s' = length s) as E.
  { destruct (decide (length s' = length s)) as [|Hn]; [done|]. exfalso.
    apply Hz, list_elem_of_lookup. exists (length s').
    pose proof (load_lookup _ _ _ _ (length s') Hl ltac:(lia)) as Hk.
    rewrite lookup_app_l in Hk by lia. by rewrite Hk. }
  pose proof (load_prefix _ _ _ (length s') _ Hl ltac:(lia)) as Hp.
  rewrite Hl', E, take_app_length in Hp. by injection Hp as ->.
Qed.

(** [copyinstr] always returns.  It succeeds exactly when a NUL terminated
    string that fits [buf] and lies in user space starts at [str]; then [buf]
    holds the string with its terminator and the length does not count it. *)
Theorem copyinstr_spec m str bufsz : 0 <= str < 2 ^ 32 -> 0 < bufsz < 2 ^ 30 ->
  exists r kbuf len, copyinstr m str bufsz = Done (r, kbuf, len) /\
    (r = 0 -> exists s, user_string m str bufsz s /\ kbuf = s ++ [0] /\ len = Z.of_nat (length s)) /\
    (forall s, user_string m str bufsz s -> r = 0 /\ kbuf = s ++ [0] /\ len = Z.of_nat (length s)).
Proof.
  intros Hstr Hbuf. unfold copyinstr. destruct (Z.ltb_spec 0 bufsz); [|lia].
  destruct (user_io_check str 0) as [err mx] eqn:Ec.
  pose proof (region_user_spec str 0 Hstr ltac:(lia)) as Hreg.
  unfold user_io_check in Ec. destruct (VM_REGION_IS_USER str 0); simpl in Ec; injection Ec as <- <-.
  2: { simpl. do 3 eexists. split; [done|]. split; [done|].
       intros s (_ & _ & _ & Hs). assert (false = true) by (apply Hreg; lia). done. }
  destruct Hreg as [[Hu _] _]; [done|]. unfold USER_VM_START, USER_VM_END in Hu.
  rewrite u32_small by (unfold USER_VM_END; lia). cbn [negb Z.eqb].
  set (mx := Z.min bufsz (USER_VM_END - str + 1)).
  assert (Hmx : 0 < mx < 2 ^ 30 /\ mx <= 0xBFFFFFFF - str + 1) by (subst mx; unfold USER_VM_END; lia).
  destruct (copyinstr_loop_spec (S (Z.to_nat mx)) m str mx bufsz 0 []) as (s & Hz & Hl & Hle & Hcase); [lia..|].
  cbv zeta in Hcase. simpl app in Hcase. rewrite Z.add_0_l in Hcase.
  assert (Hshort : forall s2, user_string m str bufsz s2 -> Z.of_nat (length s2) < mx).
  { intros s2 (_ & _ & ? & _ & ?). subst mx. lia. }
  destruct Hcase as [[En ->]|[[Hn [Hb ->]]|[Hn [Hb ->]]]]; do 3 eexists; (split; [done|]); split.
  - by destruct (bufsz <=? _).
  - intros s2 Hs2. pose proof (user_string_byte _ _ _ _ _ Hs2 Hz Hl).
    pose proof (Hshort s2 Hs2). lia.
  - intros _. exists s. split_and!; [|done|done].
    split_and!; [done|by apply load_snoc|subst mx; lia|unfold USER_VM_START; lia|].
    unfold USER_VM_END. lia.
  - intros s2 Hs2. rewrite (user_string_end _ _ _ _ _ Hs2 Hz Hl Hb). done.
  - done.
  - intros s2 Hs2. pose proof (user_string_byte _ _ _ _ _ Hs2 Hz Hl).
    destruct Hs2 as (_ & Hl2 & _).
    pose proof (load_lookup _ _ _ _ (length s) Hl2 ltac:(lia)) as Hk. rewrite Hb in Hk.
    apply lookup_ge_None in Hk. rewrite length_app in Hk. simpl in Hk. lia.
Qed.

Definition sample_mem : mem :=
  <[0x2000 := Cell 104 true]> (<[0x2001 := Cell 105 true]> (<[0x2002 := Cell 0 false]> ∅)).
Instance cpu_wp : Cpu := {| kwp_enabled := true |}.

Lemma copyout_umemset_confined_witness :
  exists m', copyout sample_mem 0x2000 [1; 2; 3] = Done (- EFAULT, m') /\
    m' !! 0xC0000000 = sample_mem !! 0xC0000000.
Proof.
  eexists. split; [reflexivity|].
  apply (copyout_umemset_confined sample_mem 0x2000 [1; 2; 3] 0x2000 0 0 (- EFAULT));
    [lia|simpl; lia|lia|lia|left; reflexivity|reflexivity].
Defined.

Lemma copyout_copyin_witness :
  exists m', copyin m' 0x2000 2 = (0, Some [7; 8]).
Proof.
  eexists. apply (copyout_copyin sample_mem 0x2000 [7; 8]). reflexivity.
Defined.

Lemma copyinstr_spec_witness : copyinstr sample_mem 0x2000 16 = Done (0, [104; 105; 0], 2).
Proof.
  destruct (copyinstr_spec sample_mem 0x2000 16) as (r & kbuf & len & -> & _ & Hs); [lia|lia|].
  destruct (Hs [104; 105]) as (-> & -> & ->); [|reflexivity].
  split_and!; [set_solver|reflexivity|simpl; lia|unfold USER_VM_START; lia|].
  unfold USER_VM_END. simpl. lia.
Defined.
