(* ===== verification/Time.v ===== *)
(** * kern/time.c: dates, timespecs and sleeping

    [datetime_to_ts] turns a date into the seconds since 1970.  [time_t] and
    [long] have 32 bits, and the computation is done in [int]; the machine wraps
    around, which is what [s32] says.  The calendar itself is described in
    another way, by what the day after a date is ([next_day]); the theorems show
    that the arithmetic of the code counts these days.

    The real-time clock (device/rtc.c, drivers/time/atrtc.c) is where dates come
    from.  Its registers are an argument: [dev n r] is what the register [r]
    holds at the [n]-th access to the ports.

    A thread that sleeps does so on one of 32 wait queues of [Wait];
    [sleep_timespec] and [sys_nanosleep] are cut where the thread sleeps. *)
From stdpp Require Import base gmap list.
From Stdlib Require Import ZArith Lia Bool.
From S2P Require Import Prelude User Sched Wait.
Open Scope Z_scope.

(** ** include/kern/time.h *)

Definition SEC_NANOSECS : Z := 1000000000.
Definition MILLI2NANO (x : Z) : Z := x * 1000000.
Definition YEAR_BASE : Z := 1970.

Record timespec := Ts { tv_sec : Z; tv_nsec : Z }.
Record datetime_t := MkDatetime {
  nsec : Z; sec : Z; min : Z; hour : Z; day : Z; mon : Z; year : Z;
}.

Definition nsec_to_ts (ns : Z) : timespec := Ts (s32 (ns / SEC_NANOSECS)) (s32 (ns mod SEC_NANOSECS)).
Definition ts_to_nsec (ts : timespec) : Z := u64 (u64 (u64 (tv_sec ts) * SEC_NANOSECS) + u64 (tv_nsec ts)).

(** ** Dates *)

(** [%] of C rounds towards zero. *)
Definition leapyear (y : Z) : bool :=
  (Z.rem y 4 =? 0) && (negb (Z.rem y 100 =? 0) || (Z.rem y 400 =? 0)).
Definition year_days (y : Z) : Z := if leapyear y then 366 else 365.

Definition cur_year : Z := 2017.
Definition cur_year_days : Z := 17167.

Definition days : list Z := [31; -1; 31; 30; 31; 30; 31; 31; 30; 31; 30; 31].
Definition month_days (year month : Z) : res Z :=
  kassert (1 <=? month) && (month <=? 12) in
  if month =? 2 then Done (if leapyear year then 29 else 28)
  else deref (days !! Z.to_nat (month - 1)).

(** The cases of the switch fall through to those of the earlier months. *)
Definition year_month_days (year month : Z) : Z :=
  let from k n := if (k <=? month) && (month <=? 11) then n else 0 in
  from 11 30 + from 10 31 + from 9 30 + from 8 31 + from 7 31 + from 6 30 + from 5 31
  + from 4 30 + from 3 31 + from 2 (28 + if leapyear year then 1 else 0) + from 1 31.

Fixpoint years_loop (fuel : nat) (i year days : Z) : res Z :=
  match fuel with
  | O => Stuck
  | S fuel => if i <? year then years_loop fuel (s32 (i + 1)) year (s32 (days + year_days i)) else Done days
  end.

(** The error, and what was written to [ts]. *)
Definition datetime_to_ts (time : datetime_t) : res (Z * option timespec) :=
  let yr := year time in
  let* bad :=
    if (60 <=? sec time) || (60 <=? min time) || (24 <=? hour time) || (mon time <? 1) || (12 <? mon time)
       || (day time <? 1)
    then Done true else let* n := month_days yr (mon time) in Done (n <? day time) in
  if bad then Done (- EINVAL, None) else
  let '(days, i) := if cur_year <=? yr then (cur_year_days, cur_year) else (0, YEAR_BASE) in
  let* days := years_loop (S (Z.to_nat (yr - i))) i yr days in
  let days := s32 (days + year_month_days yr (mon time - 1)) in
  let days := s32 (days + (day time - 1)) in
  let hours := s32 (days * 24 + hour time) in
  let mins := s32 (hours * 60 + min time) in
  Done (0, Some (Ts (s32 (mins * 60 + sec time)) (nsec time))).

(** ** Timespecs *)

Definition ts_add (a b : timespec) : res timespec :=
  kassert tv_nsec a <? SEC_NANOSECS in
  kassert tv_nsec b <? SEC_NANOSECS in
  kassert 0 <=? tv_nsec a in
  kassert 0 <=? tv_nsec b in
  let r := Ts (s32 (tv_sec a + tv_sec b)) (s32 (tv_nsec a + tv_nsec b)) in
  Done (if SEC_NANOSECS <=? tv_nsec r then Ts (s32 (tv_sec r + 1)) (s32 (tv_nsec r - SEC_NANOSECS)) else r).

(** [ts_add] with the result where the first operand is: it reads [tv_nsec]
    of the operands before it writes that of the result. *)
Definition ts_inc (ts : timespec) (ns : Z) : res timespec := ts_add ts (nsec_to_ts ns).

Definition ts_bytes (ts : timespec) : list Z := int_bytes (tv_sec ts) ++ int_bytes (tv_nsec ts).
Definition ts_of_bytes (bs : list Z) : timespec := Ts (s32 (word_at bs 0)) (s32 (word_at bs 1)).

Definition copyin_ts (m : mem) (uts : Z) : Z * option timespec :=
  match copyin m uts 8 with
  | (err, Some bs) =>
      if negb (err =? 0) then (err, None) else
      let ts := ts_of_bytes bs in
      if (tv_sec ts <? 0) || (tv_nsec ts <? 0) || (SEC_NANOSECS <=? tv_nsec ts) then (- EINVAL, Some ts)
      else (0, Some ts)
  | (err, None) => (err, None)
  end.

(** ** Sleeping *)

Definition NSLEEPQ : Z := 32.
Definition SLEEPQ_MASK : Z := NSLEEPQ - 1.

(** The queue (here: its number) and the next value of [sleep_idx]. *)
Definition sleep_wq_get (sleep_idx : Z) : Z * Z := (Z.land sleep_idx SLEEPQ_MASK, u8 (sleep_idx + 1)).

Definition time_init (wqs : gmap Z (list Z)) : gmap Z (list Z) :=
  gset_to_gmap [] (list_to_set (seqZ 0 NSLEEPQ)) ∪ wqs.

(** [sleep_timespec] up to [wait_sleep_timeout], and what it makes of the
    result of that. *)
Definition sleep_timespec_begin (st : wsys) (sleep_idx w : Z) : res (Z * Z * wsys) :=
  let '(wq, idx) := sleep_wq_get sleep_idx in
  let* st := wait_prep st wq w in Done (wq, idx, st).
Definition sleep_timespec_end (err : Z) : Z :=
  if err =? - ETIMEDOUT then 0 else if err =? - ERESTART then - EINTR else err.

(** [msleep]: the timespec it sleeps for; [/] and [%] of C on a [long]. *)
Definition msleep_ts (millisec : Z) : timespec :=
  Ts (s32 (Z.quot millisec 1000)) (s32 (MILLI2NANO (Z.rem millisec 1000))).

(** [sys_nanosleep]: it fails before it sleeps, or it sleeps for a time; then
    [err] and [rem] are what [wait_sleep_timeout] left. *)
Definition sys_nanosleep_begin (m : mem) (ureq : Z) : Z + timespec :=
  match copyin_ts m ureq with
  | (0, Some ts) => inr ts
  | (err, _) => inl err
  end.
Definition sys_nanosleep_end `{Cpu} (m : mem) (urem err : Z) (rem : timespec) : res (Z * mem) :=
  let err := sleep_timespec_end err in
  if err =? - EINTR then
    let* '(err, m) := copyout m urem (ts_bytes rem) in Done (if err =? 0 then - EINTR else err, m)
  else Done (err, m).

(** ** The real-time clock: lib/bin.h, device/rtc.c, drivers/time/atrtc.c *)

Definition bcd2bin (val : Z) : Z := u8 (Z.shiftr (Z.land val 0xF0) 4 * 10 + Z.land val 0x0F).

Definition RTC_SEC : Z := 0x00.
Definition RTC_MIN : Z := 0x02.
Definition RTC_HRS : Z := 0x04.
Definition RTC_MDAY : Z := 0x07.
Definition RTC_MNTH : Z := 0x08.
Definition RTC_YEAR : Z := 0x09.
Definition RTC_CENTURY : Z := 0x32.
Definition STATUSA : Z := 0x0a.
Definition SA_UPDATE : Z := 128.

(** The driver remembers which register it has selected; [hw_sel] is the one
    that the device has, and [clk] counts the accesses to the data port. *)
Record atrtc_t := MkAtrtc { cur_sel : Z; hw_sel : Z; clk : nat }.

Definition atrtc_select (rtc : atrtc_t) (off : Z) : atrtc_t :=
  if negb (cur_sel rtc =? off) then MkAtrtc off off (clk rtc) else rtc.

Section Atrtc.
Variable dev : nat -> Z -> Z.

Definition atrtc_readb (rtc : atrtc_t) (off : Z) : Z * atrtc_t :=
  let rtc := atrtc_select rtc off in
  (u8 (dev (clk rtc) (hw_sel rtc)), MkAtrtc (cur_sel rtc) (hw_sel rtc) (S (clk rtc))).

Fixpoint update_loop (fuel : nat) (rtc : atrtc_t) : res atrtc_t :=
  match fuel with
  | O => Stuck
  | S fuel =>
      let '(v, rtc) := atrtc_readb rtc STATUSA in
      if negb (Z.land v SA_UPDATE =? 0) then update_loop fuel rtc else Done rtc
  end.

(** [true] is [RTC_OK]. *)
Definition atrtc_gettime (fuel : nat) (rtc : atrtc_t) : res (bool * option timespec * atrtc_t) :=
  let* rtc := update_loop fuel rtc in
  let '(s, rtc) := atrtc_readb rtc RTC_SEC in
  let '(mi, rtc) := atrtc_readb rtc RTC_MIN in
  let '(h, rtc) := atrtc_readb rtc RTC_HRS in
  let '(d, rtc) := atrtc_readb rtc RTC_MDAY in
  let '(mo, rtc) := atrtc_readb rtc RTC_MNTH in
  let '(y, rtc) := atrtc_readb rtc RTC_YEAR in
  let '(c, rtc) := atrtc_readb rtc RTC_CENTURY in
  let* '(err, ts) := datetime_to_ts
    (MkDatetime 0 (bcd2bin s) (bcd2bin mi) (bcd2bin h) (bcd2bin d) (bcd2bin mo) (bcd2bin y + bcd2bin c * 100)) in
  Done (err =? 0, ts, rtc).

(** [None]: there is no clock. *)
Definition rtc_time (fuel : nat) (clock : option atrtc_t) : res timespec :=
  match clock with
  | None => Done (Ts 0 0)
  | Some rtc =>
      let* '(ok, ts, _) := atrtc_gettime fuel rtc in
      match ok, ts with
      | true, Some ts => Done ts
      | _, _ => Done (Ts 0 0)
      end
  end.
End Atrtc.

(** ** Signed arithmetic modulo [2 ^ 32] *)

Lemma s32_u32 x : s32 (u32 x) = s32 x.
Proof. unfold s32, u32, wrap. by rewrite Z.mod_mod by lia. Qed.

Lemma s32_congr x y : (x - y) mod 2 ^ 32 = 0 -> s32 x = s32 y.
Proof.
  intros H. unfold s32. replace (u32 x) with (u32 y); [done|].
  unfold u32, wrap. apply Z.mod_divide in H as [k H]; [|lia].
  replace x with (y + k * 2 ^ 32) by lia. by rewrite Z_mod_plus_full.
Qed.

Lemma s32_shift x : exists k, s32 x = x + k * 2 ^ 32.
Proof.
  unfold s32, u32, wrap. pose proof (Z.div_mod x (2 ^ 32) ltac:(lia)).
  destruct (_ <? _); [exists (- (x / 2 ^ 32))|exists (- (x / 2 ^ 32) - 1)]; lia.
Qed.

(** Only the last result of a sum of products has to be cut off. *)
Lemma s32_mul_add a k b : s32 (s32 a * k + b) = s32 (a * k + b).
Proof.
  destruct (s32_shift a) as [q ->]. apply s32_congr.
  replace (_ - _) with (q * k * 2 ^ 32) by lia. by apply Z_mod_mult.
Qed.
Lemma s32_add a b : s32 (s32 a + b) = s32 (a + b).
Proof. pose proof (s32_mul_add a 1 b). by rewrite !Z.mul_1_r in H. Qed.

Lemma s32_bound x : - 2 ^ 31 <= s32 x < 2 ^ 31.
Proof. unfold s32. pose proof (u32_bound x). destruct (Z.ltb_spec (u32 x) (2 ^ 31)); lia. Qed.

Lemma s32_exact x : - 2 ^ 31 <= x < 2 ^ 31 -> s32 x = x.
Proof.
  intros Hx. destruct (s32_shift x) as [k Hk]. pose proof (s32_bound x). lia.
Qed.

(** ** The calendar *)

Record date := Date { d_year : Z; d_mon : Z; d_day : Z }.
#[global] Instance date_eq_dec : EqDecision date.
Proof. solve_decision. Defined.

Definition leap (y : Z) : bool := (y mod 4 =? 0) && (negb (y mod 100 =? 0) || (y mod 400 =? 0)).
Definition month_len (y m : Z) : Z :=
  if m =? 2 then (if leap y then 29 else 28)
  else if (m =? 4) || (m =? 6) || (m =? 9) || (m =? 11) then 30 else 31.

Definition valid_date (d : date) : Prop :=
  1 <= d_mon d <= 12 /\ 1 <= d_day d <= month_len (d_year d) (d_mon d).

Definition epoch : date := Date 1970 1 1.
Definition next_day (d : date) : date :=
  if d_day d <? month_len (d_year d) (d_mon d) then Date (d_year d) (d_mon d) (d_day d + 1)
  else if d_mon d <? 12 then Date (d_year d) (d_mon d + 1) 1
  else Date (d_year d + 1) 1 1.
Definition prev_day (d : date) : date :=
  if 1 <? d_day d then Date (d_year d) (d_mon d) (d_day d - 1)
  else if 1 <? d_mon d then Date (d_year d) (d_mon d - 1) (month_len (d_year d) (d_mon d - 1))
  else Date (d_year d - 1) 12 31.

(** The days before a month of a year, and the number of a day. *)
Definition leaps (y : Z) : Z := y / 4 - y / 100 + y / 400.
Definition day_number (d : date) : Z :=
  365 * (d_year d - 1970) + (leaps (d_year d - 1) - leaps 1969)
  + year_month_days (d_year d) (d_mon d - 1) + (d_day d - 1).

Lemma rem_eqb y n : 0 < n -> (Z.rem y n =? 0) = (y mod n =? 0).
Proof. intros. apply eq_true_iff_eq. rewrite !Z.eqb_eq. rewrite Z.rem_divide, Z.mod_divide by lia. done. Qed.

Lemma leapyear_leap y : leapyear y = leap y.
Proof. unfold leapyear, leap. by rewrite !rem_eqb by lia. Qed.

Lemma leaps_step y : leaps y = leaps (y - 1) + if leap y then 1 else 0.
Proof.
  unfold leaps, leap. destruct (Z.eqb_spec (y mod 4) 0), (Z.eqb_spec (y mod 100) 0), (Z.eqb_spec (y mod 400) 0);
    simpl; Z.to_euclidean_division_equations; lia.
Qed.

(** A month of the year: its number one by one. *)
Lemma month_cases (P : Z -> Prop) : P 1 -> P 2 -> P 3 -> P 4 -> P 5 -> P 6 -> P 7 -> P 8 -> P 9 -> P 10 -> P 11 -> P 12 ->
  forall m, 1 <= m <= 12 -> P m.
Proof.
  intros. assert (m = 1 \/ m = 2 \/ m = 3 \/ m = 4 \/ m = 5 \/ m = 6 \/ m = 7 \/ m = 8 \/ m = 9 \/ m = 10 \/ m = 11 \/ m = 12) as Hm by lia.
  decompose [or] Hm; by subst.
Qed.

Lemma year_month_days_step y m : 1 <= m <= 11 -> year_month_days y m = year_month_days y (m - 1) + month_len y m.
Proof.
  intros Hm. assert (1 <= m <= 12) as Hm' by lia. revert Hm. pattern m. revert m Hm'.
  apply month_cases; intros Hm; try lia; unfold year_month_days, month_len; simpl; rewrite ?leapyear_leap; destruct (leap y); lia.
Qed.

Lemma month_days_len y m : 1 <= m <= 12 -> month_days y m = Done (month_len y m).
Proof. revert m. apply month_cases; unfold month_days, month_len; simpl; rewrite ?leapyear_leap; by destruct (leap y). Qed.

Lemma month_len_bound y m : 28 <= month_len y m <= 31.
Proof. unfold month_len. repeat case_match; lia. Qed.

Lemma next_day_valid d : valid_date d -> valid_date (next_day d).
Proof.
  intros (Hm & Hd). unfold valid_date, next_day. pose proof (month_len_bound (d_year d) (d_mon d + 1)).
  pose proof (month_len_bound (d_year d + 1) 1).
  destruct (Z.ltb_spec (d_day d) (month_len (d_year d) (d_mon d))); [simpl; lia|].
  destruct (Z.ltb_spec (d_mon d) 12); simpl; lia.
Qed.

Lemma day_number_next d : valid_date d -> day_number (next_day d) = day_number d + 1.
Proof.
  intros (Hm & Hd). unfold day_number, next_day.
  destruct (Z.ltb_spec (d_day d) (month_len (d_year d) (d_mon d))); [simpl; lia|].
  destruct (Z.ltb_spec (d_mon d) 12); cbn [d_year d_mon d_day].
  - replace (d_mon d + 1 - 1) with (d_mon d) by lia. rewrite (year_month_days_step _ (d_mon d)) by lia. lia.
  - assert (d_mon d = 12) as Hmon by lia. rewrite Hmon in *. replace (d_year d + 1 - 1) with (d_year d) by lia.
    rewrite (leaps_step (d_year d)). unfold year_month_days, month_len in *. simpl in *. rewrite leapyear_leap.
    destruct (leap (d_year d)); lia.
Qed.

Lemma prev_day_valid d : valid_date d -> valid_date (prev_day d) /\ next_day (prev_day d) = d.
Proof.
  destruct d as [y m d]. intros (Hm & Hd). unfold prev_day, valid_date, next_day in *. simpl in *.
  pose proof (month_len_bound y (m - 1)). destruct (Z.ltb_spec 1 d); simpl.
  { split; [lia|]. destruct (Z.ltb_spec (d - 1) (month_len y m)); [f_equal; lia|lia]. }
  assert (d = 1) as -> by lia. destruct (Z.ltb_spec 1 m); simpl.
  { split; [lia|]. rewrite Z.ltb_irrefl. destruct (Z.ltb_spec (m - 1) 12); [f_equal; lia|lia]. }
  assert (m = 1) as -> by lia. split; [cbn; lia|]. f_equal; lia.
Qed.

Lemma leaps_mono y z : y <= z -> leaps y <= leaps z.
Proof.
  intros H. replace z with (y + Z.of_nat (Z.to_nat (z - y))) by lia. generalize (Z.to_nat (z - y)) as n.
  induction n as [|n IH]; [by replace (y + Z.of_nat 0) with y by lia|].
  rewrite (leaps_step (y + Z.of_nat (S n))). replace (y + Z.of_nat (S n) - 1) with (y + Z.of_nat n) by lia.
  destruct (leap _); lia.
Qed.

(** A day of a year: between the start and the end of the year. *)
Lemma year_day_bound d : valid_date d ->
  1 <= year_month_days (d_year d) (d_mon d - 1) + d_day d <= 365 + if leap (d_year d) then 1 else 0.
Proof.
  destruct d as [y m d]. intros (Hm & Hd). simpl in *. revert Hd. pattern m. revert m Hm. apply month_cases;
    unfold year_month_days, month_len; simpl; rewrite ?leapyear_leap; destruct (leap y); lia.
Qed.

Lemma day_number_nonneg d : valid_date d -> 1970 <= d_year d -> 0 <= day_number d.
Proof.
  intros Hv Hy. pose proof (year_day_bound d Hv). pose proof (leaps_mono 1969 (d_year d - 1)). unfold day_number. lia.
Qed.

Lemma day_number_before d : valid_date d -> d_year d < 1970 -> day_number d < 0.
Proof.
  intros Hv Hy. pose proof (year_day_bound d Hv). pose proof (leaps_step (d_year d)).
  pose proof (leaps_mono (d_year d) 1969). unfold day_number. lia.
Qed.

(** [day_number] counts the days from the epoch. *)
Lemma day_number_iter d : valid_date d -> 1970 <= d_year d -> Nat.iter (Z.to_nat (day_number d)) next_day epoch = d.
Proof.
  intros Hv Hy. pose proof (day_number_nonneg d Hv Hy) as H0. remember (Z.to_nat (day_number d)) as n eqn:Hn.
  assert (Hd : day_number d = Z.of_nat n) by lia. clear Hn H0 Hy. revert d Hv Hd. induction n as [|n IH]; intros d Hv Hd.
  - simpl. symmetry. destruct (decide (d = epoch)) as [|Hne]; [done|]. exfalso.
    destruct (prev_day_valid d Hv) as [Hp Hnp]. pose proof (day_number_next _ Hp) as Hs. rewrite Hnp, Hd in Hs.
    destruct (decide (1970 <= d_year (prev_day d))); [pose proof (day_number_nonneg _ Hp); lia|].
    destruct (decide (1970 <= d_year d)); [|pose proof (day_number_before _ Hv); lia].
    destruct d as [y m dd]. destruct Hv as (Hm & Hdd). unfold prev_day in *. simpl in *.
    destruct (Z.ltb_spec 1 dd); simpl in *; [lia|]. destruct (Z.ltb_spec 1 m); simpl in *; [lia|].
    apply Hne. unfold epoch. f_equal; lia.
  - destruct (prev_day_valid d Hv) as [Hp Hnp]. pose proof (day_number_next _ Hp) as Hs. rewrite Hnp in Hs.
    simpl. rewrite (IH (prev_day d)); [done..|lia].
Qed.

(** ** [datetime_to_ts] *)

Lemma years_loop_run n i year days : 0 <= i -> year < 2 ^ 31 -> (Z.to_nat (year - i) < n)%nat -> i <= year ->
  exists r, years_loop n i year days = Done r /\
    s32 r = s32 (days + 365 * (year - i) + leaps (year - 1) - leaps (i - 1)).
Proof.
  revert i days. induction n as [|n IH]; intros i days H0 Hyr Hn Hi; [lia|]. cbn [years_loop].
  destruct (Z.ltb_spec i year).
  - destruct (IH (s32 (i + 1)) (s32 (days + year_days i))) as (r & E & Hr); rewrite ?(s32_exact (i + 1)) in * by lia; try lia.
    exists r. split; [done|]. rewrite Hr. rewrite <- !Z.add_assoc, <- Z.add_sub_assoc, s32_add. f_equal.
    replace (i + 1 - 1) with i by lia. rewrite (leaps_step i). unfold year_days. rewrite leapyear_leap.
    destruct (leap i); lia.
  - assert (i = year) as -> by lia. exists days. split; [done|]. f_equal. lia.
Qed.

Definition date_of (t : datetime_t) : date := Date (year t) (mon t) (day t).

(** The fields are in the ranges that the code checks, and not negative. *)
Definition valid_datetime (t : datetime_t) : Prop :=
  0 <= sec t < 60 /\ 0 <= min t < 60 /\ 0 <= hour t < 24 /\ valid_date (date_of t).

Definition seconds (t : datetime_t) : Z :=
  86400 * day_number (date_of t) + 3600 * hour t + 60 * min t + sec t.

Lemma datetime_days t : 1970 <= year t < 2 ^ 31 ->
  let '(days, i) := if cur_year <=? year t then (cur_year_days, cur_year) else (0, YEAR_BASE) in
  exists r, years_loop (S (Z.to_nat (year t - i))) i (year t) days = Done r /\
    s32 r = s32 (365 * (year t - 1970) + (leaps (year t - 1) - leaps 1969)).
Proof.
  intros Hy. destruct (Z.leb_spec cur_year (year t)).
  - destruct (years_loop_run (S (Z.to_nat (year t - cur_year))) cur_year (year t) cur_year_days)
      as (r & E & Hr); unfold cur_year in *; try lia.
    exists r. split; [done|]. rewrite Hr. f_equal. unfold cur_year_days.
    change (leaps (2017 - 1)) with 489. change (leaps 1969) with 477. lia.
  - destruct (years_loop_run (S (Z.to_nat (year t - YEAR_BASE))) YEAR_BASE (year t) 0)
      as (r & E & Hr); unfold YEAR_BASE, cur_year in *; try lia.
    exists r. split; [done|]. rewrite Hr. f_equal. change (1970 - 1) with 1969. lia.
Qed.

Lemma s32_seconds x a b h m s :
  s32 (s32 (s32 (s32 (s32 (x + a) + b) * 24 + h) * 60 + m) * 60 + s)
  = s32 (x * 86400 + ((a + b) * 86400 + 3600 * h + 60 * m + s)).
Proof.
  rewrite s32_mul_add. replace ((_ * 60 + m) * 60 + s) with (s32 (s32 (s32 (x + a) + b) * 24 + h) * 3600 + (60 * m + s)) by lia.
  rewrite s32_mul_add. replace ((_ * 24 + h) * 3600 + (60 * m + s)) with (s32 (s32 (x + a) + b) * 86400 + (3600 * h + 60 * m + s)) by lia.
  rewrite s32_mul_add. replace ((_ + b) * 86400 + _) with (s32 (x + a) * 86400 + (b * 86400 + (3600 * h + 60 * m + s))) by lia.
  rewrite s32_mul_add. f_equal. lia.
Qed.

Lemma datetime_to_ts_run t : valid_datetime t -> 1970 <= year t < 2 ^ 31 ->
  datetime_to_ts t = Done (0, Some (Ts (s32 (seconds t)) (nsec t))).
Proof.
  intros (Hs & Hmi & Hh & Hm & Hd) Hy. simpl in *. unfold datetime_to_ts.
  destruct (Z.leb_spec 60 (sec t)); [lia|]. destruct (Z.leb_spec 60 (min t)); [lia|].
  destruct (Z.leb_spec 24 (hour t)); [lia|]. destruct (Z.ltb_spec (mon t) 1); [lia|].
  destruct (Z.ltb_spec 12 (mon t)); [lia|]. destruct (Z.ltb_spec (day t) 1); [lia|]. cbn [orb].
  rewrite month_days_len by lia. cbn [rbind]. destruct (Z.ltb_spec (month_len (year t) (mon t)) (day t)); [lia|].
  pose proof (datetime_days t Hy) as Hdays. destruct (if cur_year <=? year t then _ else _) as [days i].
  destruct Hdays as (r & -> & Hr). cbn [rbind]. do 4 f_equal.
  rewrite s32_seconds, <- s32_mul_add, Hr, s32_mul_add. f_equal. unfold seconds, day_number. simpl. lia.
Qed.

(** C31: [datetime_to_ts] counts the days of the calendar.  For a date from 1970
    on, the date is the [n]-th day after the first of January 1970, one [next_day]
    after the other, and the seconds are [n] days and the time of the day, as
    long as they fit into a 32-bit [time_t] (up to 2038). *)
Theorem datetime_to_ts_calendar t : valid_datetime t -> 1970 <= year t < 2 ^ 31 -> seconds t < 2 ^ 31 ->
  exists n, Nat.iter n next_day epoch = date_of t /\
    datetime_to_ts t =
      Done (0, Some (Ts (86400 * Z.of_nat n + 3600 * hour t + 60 * min t + sec t) (nsec t))).
Proof.
  intros Hv Hy Hs. destruct Hv as (Hsec & Hmin & Hh & Hd). exists (Z.to_nat (day_number (date_of t))).
  split; [by apply day_number_iter; simpl; try lia|].
  pose proof (day_number_nonneg (date_of t) Hd ltac:(simpl; lia)).
  rewrite datetime_to_ts_run by done. rewrite s32_exact by (unfold seconds in *; lia).
  unfold seconds. by rewrite Z2Nat.id by lia.
Qed.

(** The last second, and the one after it. *)
Definition y2038 (s : Z) : datetime_t := MkDatetime 0 s 14 3 19 1 2038.

Lemma datetime_to_ts_calendar_witness : exists n, Nat.iter n next_day epoch = Date 2000 2 29 /\
  datetime_to_ts (MkDatetime 5 59 30 12 29 2 2000) = Done (0, Some (Ts (86400 * Z.of_nat n + 45059) 5)).
Proof.
  destruct (datetime_to_ts_calendar (MkDatetime 5 59 30 12 29 2 2000)) as (n & Hn & E).
  - repeat split; simpl; try lia. vm_compute. discriminate.
  - simpl. lia.
  - vm_compute. reflexivity.
  - exists n. split; [exact Hn|]. rewrite E. do 4 f_equal. simpl. lia.
Defined.

(** Without a year before 1970 the loop adds nothing up. *)
Lemma years_loop_total i year days : 0 <= i -> year < 2 ^ 31 ->
  exists r, years_loop (S (Z.to_nat (year - i))) i year days = Done r.
Proof.
  intros. destruct (decide (i <= year)) as [Hi|Hi].
  - destruct (years_loop_run (S (Z.to_nat (year - i))) i year days) as (r & E & _); eauto with lia.
  - exists days. cbn [years_loop]. destruct (Z.ltb_spec i year); [lia|done].
Qed.

(** C40: A date that does not exist, or a time of the day that does not, is
    refused with EINVAL, and nothing is written.  All others are accepted.  A
    negative second, minute or hour is not looked at. *)
Theorem datetime_to_ts_error t : year t < 2 ^ 31 ->
  let good := sec t < 60 /\ min t < 60 /\ hour t < 24 /\ valid_date (date_of t) in
  (~ good -> datetime_to_ts t = Done (- EINVAL, None)) /\
  (good -> exists ts, datetime_to_ts t = Done (0, Some ts) /\ tv_nsec ts = nsec t).
Proof.
  intros Hy good. unfold good, valid_date. cbn [date_of d_year d_mon d_day]. unfold datetime_to_ts.
  destruct (Z.leb_spec 60 (sec t)); [split; [done|lia]|]. destruct (Z.leb_spec 60 (min t)); [split; [done|lia]|].
  destruct (Z.leb_spec 24 (hour t)); [split; [done|lia]|]. destruct (Z.ltb_spec (mon t) 1); [split; [done|lia]|].
  destruct (Z.ltb_spec 12 (mon t)); [split; [done|lia]|]. destruct (Z.ltb_spec (day t) 1); [split; [done|lia]|].
  cbn [orb]. rewrite month_days_len by lia. cbn [rbind].
  destruct (Z.ltb_spec (month_len (year t) (mon t)) (day t)); [split; [done|lia]|].
  split; [intros Hbad; destruct Hbad; lia|]. intros _.
  destruct (if cur_year <=? year t then _ else _) as [days i] eqn:E.
  destruct (years_loop_total i (year t) days) as (r & ->); [|done|].
  { destruct (cur_year <=? year t); injection E as <- <-; unfold cur_year, YEAR_BASE; lia. }
  eexists. split; [reflexivity|done].
Qed.

Lemma datetime_to_ts_error_witness : datetime_to_ts (MkDatetime 0 0 0 0 29 2 1900) = Done (- EINVAL, None).
Proof.
  apply (datetime_to_ts_error (MkDatetime 0 0 0 0 29 2 1900)).
  - simpl. lia.
  - intros (_ & _ & _ & _ & H). vm_compute in H. destruct H. done.
Defined.

(** The second after the last one of a 32-bit [time_t] is in 1901, and a date
    before 1970 is taken for one in 1970; the call succeeds. *)
Lemma datetime_to_ts_2038 :
  datetime_to_ts (y2038 7) = Done (0, Some (Ts (2 ^ 31 - 1) 0)) /\
  datetime_to_ts (y2038 8) = Done (0, Some (Ts (- 2 ^ 31) 0)) /\
  datetime_to_ts (MkDatetime 0 59 59 23 31 12 1969) = Done (0, Some (Ts (365 * 86400 - 1) 0)).
Proof. by vm_compute. Qed.

(** ** Timespecs *)

Definition valid_ts (ts : timespec) : Prop := 0 <= tv_sec ts < 2 ^ 31 /\ 0 <= tv_nsec ts < SEC_NANOSECS.
Definition ts_ns (ts : timespec) : Z := tv_sec ts * SEC_NANOSECS + tv_nsec ts.

(** [ts_add] adds times: as long as the seconds do not overflow, the assertions
    hold, the nanoseconds of the sum are less than a second, and no nanosecond
    is lost. *)
Lemma ts_add_exact a b : valid_ts a -> valid_ts b -> tv_sec a + tv_sec b + 1 < 2 ^ 31 ->
  exists c, ts_add a b = Done c /\ valid_ts c /\ ts_ns c = ts_ns a + ts_ns b.
Proof.
  intros (Ha & Hna) (Hb & Hnb) Hs. unfold ts_add. unfold SEC_NANOSECS in *.
  destruct (Z.ltb_spec (tv_nsec a) 1000000000); [|lia]. destruct (Z.ltb_spec (tv_nsec b) 1000000000); [|lia].
  destruct (Z.leb_spec 0 (tv_nsec a)); [|lia]. destruct (Z.leb_spec 0 (tv_nsec b)); [|lia].
  eexists. split; [reflexivity|]. cbn [tv_sec tv_nsec]. rewrite (s32_exact (tv_sec a + tv_sec b)), (s32_exact (tv_nsec a + tv_nsec b)) by lia.
  destruct (Z.leb_spec 1000000000 (tv_nsec a + tv_nsec b)); unfold valid_ts, ts_ns, SEC_NANOSECS; cbn [tv_sec tv_nsec];
    rewrite ?s32_exact by lia; lia.
Qed.

Lemma nsec_to_ts_valid n : 0 <= n < 2 ^ 31 * SEC_NANOSECS -> valid_ts (nsec_to_ts n) /\ ts_ns (nsec_to_ts n) = n.
Proof.
  intros Hn. unfold nsec_to_ts, valid_ts, ts_ns, SEC_NANOSECS in *. cbn [tv_sec tv_nsec].
  pose proof (Z.mod_pos_bound n 1000000000 ltac:(lia)). pose proof (Z.div_mod n 1000000000 ltac:(lia)).
  assert (0 <= n / 1000000000 < 2 ^ 31) by (split; [apply Z.div_pos; lia|apply Z.div_lt_upper_bound; lia]).
  rewrite !s32_exact by lia. lia.
Qed.

Lemma ts_to_nsec_valid ts : valid_ts ts -> ts_to_nsec ts = ts_ns ts.
Proof.
  intros (Hs & Hn). unfold ts_to_nsec, ts_ns, SEC_NANOSECS in *.
  rewrite (u64_small (tv_sec ts)), (u64_small (tv_nsec ts)) by lia. rewrite (u64_small (_ * _)) by lia. apply u64_small. lia.
Qed.

(** Nanoseconds and timespecs are converted into each other without loss in
    both directions, and [ts_inc] adds exactly its nanoseconds. *)
Theorem ts_nsec_roundtrip :
  (forall n, 0 <= n < 2 ^ 31 * SEC_NANOSECS -> ts_to_nsec (nsec_to_ts n) = n) /\
  (forall ts, valid_ts ts -> nsec_to_ts (ts_to_nsec ts) = ts) /\
  (forall ts n, valid_ts ts -> 0 <= n -> ts_ns ts + n < (2 ^ 31 - 1) * SEC_NANOSECS ->
     exists ts', ts_inc ts n = Done ts' /\ ts_to_nsec ts' = ts_to_nsec ts + n).
Proof.
  split; [|split].
  - intros n Hn. destruct (nsec_to_ts_valid n Hn) as [V E]. by rewrite ts_to_nsec_valid.
  - intros [s n] V. rewrite ts_to_nsec_valid by done. destruct V as [Hs Hn]. unfold ts_ns, nsec_to_ts, SEC_NANOSECS in *.
    simpl in *. rewrite <- (Z.div_unique (s * 1000000000 + n) 1000000000 s n), <- (Z.mod_unique (s * 1000000000 + n) 1000000000 s n) by lia.
    by rewrite !s32_exact by lia.
  - intros ts n V Hn Hlt. pose proof V as [Hs Hns]. unfold ts_ns in *.
    destruct (nsec_to_ts_valid n) as [V' E]; [unfold SEC_NANOSECS in *; lia|].
    destruct (ts_add_exact ts (nsec_to_ts n)) as (c & Ec & Vc & Hc); [done..| |].
    { destruct V' as [? ?]. unfold ts_ns, SEC_NANOSECS in *. lia. }
    exists c. split; [done|]. rewrite !ts_to_nsec_valid by done. lia.
Qed.

(** C39: A timespec that the kernel takes from a user program is a valid one:
    [copyin_ts] succeeds only if the memory could be read and the value is in
    range, so that the assertions of [ts_add] and the conversion to nanoseconds
    are safe.  Otherwise it is EFAULT or EINVAL. *)
Theorem copyin_ts_valid m uts err ts : copyin_ts m uts = (err, ts) ->
  (err = 0 /\ exists t bs, ts = Some t /\ copyin m uts 8 = (0, Some bs) /\ t = ts_of_bytes bs /\ valid_ts t
     /\ ts_to_nsec t < 2 ^ 31 * SEC_NANOSECS)
  \/ (err = - EINVAL /\ exists t, ts = Some t /\ ~ valid_ts t)
  \/ (err = - EFAULT /\ ts = None).
Proof.
  unfold copyin_ts, copyin. intros E.
  destruct (negb ((user_io_check uts 8).1 =? 0)) eqn:Hc.
  { injection E as <- <-. right. right. split; [|done]. revert Hc. unfold user_io_check.
    destruct (negb (VM_REGION_IS_USER uts 8)); done. }
  destruct (load m uts (Z.to_nat 8)) as [bs|]; [|by injection E as <- <-; auto].
  cbn [negb Z.eqb] in E. pose proof (s32_bound (word_at bs 0)). pose proof (s32_bound (word_at bs 1)).
  destruct (Z.ltb_spec (tv_sec (ts_of_bytes bs)) 0), (Z.ltb_spec (tv_nsec (ts_of_bytes bs)) 0),
    (Z.leb_spec SEC_NANOSECS (tv_nsec (ts_of_bytes bs))); cbn [orb] in E; injection E as <- <-;
    try (right; left; split; [done|]; eexists; split; [done|]; intros (Hs & Hn); lia).
  left. split; [done|]. assert (valid_ts (ts_of_bytes bs)) as V by (split; [cbn in *; lia|lia]).
  eexists _, bs. do 4 (split; [done|]). rewrite ts_to_nsec_valid by done.
  destruct V. unfold ts_ns, SEC_NANOSECS in *. lia.
Qed.

(** ** Sleeping *)

Lemma sleep_wq_get_bound idx : 0 <= (sleep_wq_get idx).1 < NSLEEPQ.
Proof.
  unfold sleep_wq_get, SLEEPQ_MASK, NSLEEPQ. simpl. change (32 - 1) with (Z.ones 5). rewrite Z.land_ones by lia.
  by apply Z.mod_pos_bound.
Qed.

Lemma shiftr_byte x k : 0 <= k -> Z.shiftr x k mod 2 ^ 8 = (x mod 2 ^ 32) / 2 ^ k mod 2 ^ 8 \/ 24 < k.
Proof.
  intros Hk. destruct (decide (24 < k)); [auto|left]. apply Z.bits_inj_iff'. intros i Hi.
  destruct (decide (i < 8)).
  - rewrite !Z.mod_pow2_bits_low, Z.shiftr_spec, Z.div_pow2_bits, Z.mod_pow2_bits_low by lia. f_equal; lia.
  - by rewrite !Z.mod_pow2_bits_high by lia.
Qed.

Lemma word_at_int_bytes x bs : word_at (int_bytes x ++ bs) 0 = u32 x.
Proof.
  unfold word_at, int_bytes, u8, u32, wrap. cbn [drop app Nat.mul].
  destruct (shiftr_byte x 0) as [E0|], (shiftr_byte x 8) as [E1|], (shiftr_byte x 16) as [E2|], (shiftr_byte x 24) as [E3|]; try lia.
  rewrite Z.shiftr_0_r in E0. rewrite E0, E1, E2, E3. pose proof (Z.mod_pos_bound x (2 ^ 32) ltac:(lia)).
  generalize dependent (x mod 2 ^ 32). intros y _ _ _ _ Hy.
  change (2 ^ 0) with 1. change (2 ^ 8) with 256. change (2 ^ 16) with 65536. change (2 ^ 24) with 16777216.
  rewrite Z.div_1_r. replace (y / 65536) with (y / 256 / 256) by (rewrite Z.div_div by lia; done).
  replace (y / 16777216) with (y / 256 / 256 / 256) by (rewrite !Z.div_div by lia; done).
  pose proof (Z.div_mod y 256 ltac:(lia)). pose proof (Z.div_mod (y / 256) 256 ltac:(lia)).
  pose proof (Z.div_mod (y / 256 / 256) 256 ltac:(lia)).
  rewrite (Z.mod_small (y / 256 / 256 / 256)); [cbn [drop Nat.add]; lia|]. rewrite !Z.div_div by lia. split; [by apply Z.div_pos; lia|].
  apply Z.div_lt_upper_bound; lia.
Qed.

Lemma ts_bytes_roundtrip ts : valid_ts ts -> ts_of_bytes (ts_bytes ts) = ts.
Proof.
  destruct ts as [s n]. intros (Hs & Hn). unfold ts_of_bytes, ts_bytes, SEC_NANOSECS in *. simpl tv_sec in *. simpl tv_nsec in *.
  replace (word_at (int_bytes s ++ int_bytes n) 1) with (word_at (int_bytes n ++ []) 0) by done.
  rewrite !word_at_int_bytes, !s32_u32, !s32_exact by lia. done.
Qed.

(** What [nanosleep] returns.  A sleep that ran out is a success.  One that
    a signal has interrupted is EINTR, never a restart of the call, and the
    time that is left is in the memory of the program then, where reading it
    again gives the same timespec; if it cannot be written there, the result is
    EFAULT. *)
Theorem nanosleep_end_spec `{Cpu} m urem err rem r m' : valid_ts rem ->
  sys_nanosleep_end m urem err rem = Done (r, m') ->
  (err = - ETIMEDOUT -> r = 0 /\ m' = m) /\
  (err = - EINTR \/ err = - ERESTART ->
     (r = - EINTR /\ copyin_ts m' urem = (0, Some rem)) \/ r = - EFAULT).
Proof.
  intros V E. split.
  - intros ->. unfold sys_nanosleep_end in E. cbn in E. by injection E as <- <-.
  - intros Herr. assert (Ee : sleep_timespec_end err = - EINTR) by (by destruct Herr as [-> | ->]).
    unfold sys_nanosleep_end in E. rewrite Ee, Z.eqb_refl in E. apply rbind_Done in E as ([e m1] & E1 & E2).
    injection E2 as <- <-. destruct (Z.eqb_spec e 0) as [->|He].
    + left. split; [done|]. pose proof (copyout_copyin _ _ _ _ E1) as Hin. unfold copyin_ts.
      change 8 with (Z.of_nat (length (ts_bytes rem))). rewrite Hin. cbn [negb Z.eqb].
      rewrite ts_bytes_roundtrip by done. destruct V as [Hs Hn].
      destruct (Z.ltb_spec (tv_sec rem) 0); [lia|]. destruct (Z.ltb_spec (tv_nsec rem) 0); [lia|].
      destruct (Z.leb_spec SEC_NANOSECS (tv_nsec rem)); [lia|]. done.
    + right. unfold copyout in E1. destruct (negb _) eqn:Hc.
      { injection E1 as <- _. revert He. unfold user_io_check. by destruct (negb (VM_REGION_IS_USER _ _)). }
      destruct kwp_enabled; [|done]. destruct (store _ _ _) as [m2 ok]. injection E1 as <- _. by destruct ok.
Qed.

(** ** The real-time clock *)

Definition bin2bcd (x : Z) : Z := x / 10 * 16 + x mod 10.

Lemma bcd_roundtrip x : 0 <= x < 100 -> bcd2bin (bin2bcd x) = x.
Proof.
  intros Hx. apply Z.eqb_eq. revert x Hx.
  assert (Hall : forallb (fun n => bcd2bin (bin2bcd (Z.of_nat n)) =? Z.of_nat n) (seq 0 100) = true) by (vm_compute; reflexivity).
  intros x Hx. rewrite forallb_forall in Hall. replace x with (Z.of_nat (Z.to_nat x)) by lia. apply Hall, in_seq. lia.
Qed.

Lemma bin2bcd_byte x : 0 <= x < 100 -> u8 (bin2bcd x) = bin2bcd x.
Proof. intros. apply u8_small. unfold bin2bcd. Z.to_euclidean_division_equations. lia. Qed.

Lemma bcd_read v x : v = bin2bcd x -> 0 <= x < 100 -> bcd2bin (u8 v) = x.
Proof. intros -> Hx. by rewrite bin2bcd_byte, bcd_roundtrip. Qed.

(** What the registers of a clock hold that shows the date and time [t]. *)
Definition shows (t : datetime_t) (regs : Z -> Z) : Prop :=
  regs RTC_SEC = bin2bcd (sec t) /\ regs RTC_MIN = bin2bcd (min t) /\ regs RTC_HRS = bin2bcd (hour t) /\
  regs RTC_MDAY = bin2bcd (day t) /\ regs RTC_MNTH = bin2bcd (mon t) /\
  regs RTC_YEAR = bin2bcd (year t mod 100) /\ regs RTC_CENTURY = bin2bcd (year t / 100).

Lemma atrtc_readb_run dev rtc off : cur_sel rtc = hw_sel rtc ->
  atrtc_readb dev rtc off = (u8 (dev (clk rtc) off), MkAtrtc off off (S (clk rtc))).
Proof.
  intros Hs. unfold atrtc_readb, atrtc_select. destruct (Z.eqb_spec (cur_sel rtc) off) as [E|E]; simpl.
  - by rewrite <- Hs, E.
  - done.
Qed.

Lemma update_loop_run dev k : forall fuel rtc, cur_sel rtc = hw_sel rtc -> (k < fuel)%nat ->
  (forall i, (i < k)%nat -> Z.land (u8 (dev (clk rtc + i)%nat STATUSA)) SA_UPDATE <> 0) ->
  Z.land (u8 (dev (clk rtc + k)%nat STATUSA)) SA_UPDATE = 0 ->
  update_loop dev fuel rtc = Done (MkAtrtc STATUSA STATUSA (S (clk rtc + k))).
Proof.
  induction k as [|k IH]; intros [|fuel] rtc Hs Hf Hbusy Hfree; [lia| |lia|];
    cbn [update_loop]; rewrite atrtc_readb_run by done.
  - rewrite Nat.add_0_r in Hfree. rewrite Hfree. cbn [Z.eqb negb]. by rewrite Nat.add_0_r.
  - specialize (Hbusy O ltac:(lia)) as H0. rewrite Nat.add_0_r in H0. apply Z.eqb_neq in H0 as ->. cbn [negb].
    rewrite (IH fuel (MkAtrtc STATUSA STATUSA (S (clk rtc)))); simpl; [by rewrite Nat.add_succ_r|done|lia| |].
    + intros i Hi. rewrite <- Nat.add_succ_r. apply Hbusy. lia.
    + by rewrite <- Nat.add_succ_r.
Qed.

(** The seconds of a [time_t] end in 2038. *)
Lemma seconds_year t : valid_datetime t -> 1970 <= year t -> seconds t < 2 ^ 31 -> year t < 2040.
Proof.
  intros (? & ? & ? & Hd) Hy Hs. pose proof (year_day_bound _ Hd). pose proof (leaps_mono 1969 (year t - 1)).
  unfold seconds, day_number in Hs. simpl in *. lia.
Qed.

(** The values of the registers, one read after the other. *)
Lemma shown_field dev t n : valid_datetime t -> 1970 <= year t < 2040 ->
  (forall i, (n < i <= n + 7)%nat -> shows t (dev i)) ->
  bcd2bin (u8 (dev (S n) RTC_SEC)) = sec t /\
  bcd2bin (u8 (dev (S (S n)) RTC_MIN)) = min t /\
  bcd2bin (u8 (dev (S (S (S n))) RTC_HRS)) = hour t /\
  bcd2bin (u8 (dev (S (S (S (S n)))) RTC_MDAY)) = day t /\
  bcd2bin (u8 (dev (S (S (S (S (S n))))) RTC_MNTH)) = mon t /\
  bcd2bin (u8 (dev (S (S (S (S (S (S n)))))) RTC_YEAR)) = year t mod 100 /\
  bcd2bin (u8 (dev (S (S (S (S (S (S (S n))))))) RTC_CENTURY)) = year t / 100.
Proof.
  intros (Hs & Hmi & Hh & Hm & Hd) Hy Hshow. simpl in *. pose proof (month_len_bound (year t) (mon t)).
  assert (0 <= year t mod 100 < 100) by (apply Z.mod_pos_bound; lia).
  assert (0 <= year t / 100 < 100) by (Z.to_euclidean_division_equations; lia).
  unfold shows in Hshow. split_and!; (apply bcd_read; [apply Hshow; lia|lia]).
Qed.

(** Reading the real-time clock.  The driver waits until the clock does not
    update its registers.  If they show a date and time of the years 1970 to
    2037 during the seven reads after that, the boot time is the number of
    seconds of that date.  Whatever register was selected before, each read is
    one of the register that is meant. *)
Theorem rtc_time_reads dev rtc t k fuel :
  cur_sel rtc = hw_sel rtc -> valid_datetime t -> nsec t = 0 -> 1970 <= year t -> seconds t < 2 ^ 31 ->
  (k < fuel)%nat ->
  (forall i, (i < k)%nat -> Z.land (u8 (dev (clk rtc + i)%nat STATUSA)) SA_UPDATE <> 0) ->
  Z.land (u8 (dev (clk rtc + k)%nat STATUSA)) SA_UPDATE = 0 ->
  (forall i, (clk rtc + k < i <= clk rtc + k + 7)%nat -> shows t (dev i)) ->
  rtc_time dev fuel (Some rtc) = Done (Ts (seconds t) 0).
Proof.
  intros Hsel V Hns Hy Hs Hf Hbusy Hfree Hshow. unfold rtc_time, atrtc_gettime.
  rewrite (update_loop_run dev k) by done. cbn [rbind].
  repeat (rewrite atrtc_readb_run by done; cbn [clk]).
  destruct (shown_field dev t (clk rtc + k) V (conj Hy (seconds_year t V Hy Hs)) Hshow) as (-> & -> & -> & -> & -> & -> & ->).
  replace (year t mod 100 + year t / 100 * 100) with (year t) by (pose proof (Z.div_mod (year t) 100); lia).
  rewrite datetime_to_ts_run; [|done|pose proof (seconds_year t V Hy Hs); simpl; lia].
  cbn [rbind Z.eqb]. do 2 f_equal. apply s32_exact.
  pose proof (day_number_nonneg (date_of t) ltac:(apply V) Hy). destruct V as (? & ? & ? & _). unfold seconds in *. simpl. lia.
Qed.

(** ** Examples *)

(** Sleep for one second and two nanoseconds; the address after it is not
    mapped. *)
Definition ts_mem : mem :=
  list_to_map (zip_with (fun i b => (0x2000 + Z.of_nat i, Cell b true)) (seq 0 8) [1; 0; 0; 0; 2; 0; 0; 0]).

Lemma copyin_ts_valid_witness : copyin_ts ts_mem 0x2000 = (0, Some (Ts 1 2)) /\ valid_ts (Ts 1 2).
Proof.
  split; [vm_compute; reflexivity|].
  destruct (copyin_ts_valid ts_mem 0x2000 0 (Some (Ts 1 2))) as [(_ & t & bs & E & _ & _ & V & _)|[[E _]|[E _]]];
    [vm_compute; reflexivity|by injection E as ->|discriminate..].
Defined.

Lemma nanosleep_end_spec_witness : exists m', sys_nanosleep_end ts_mem 0x2000 (- ERESTART) (Ts 0 7) = Done (- EINTR, m') /\
  copyin_ts m' 0x2000 = (0, Some (Ts 0 7)).
Proof.
  eexists. split; [vm_compute; reflexivity|].
  destruct (nanosleep_end_spec ts_mem 0x2000 (- ERESTART) (Ts 0 7) (- EINTR) (store ts_mem 0x2000 (ts_bytes (Ts 0 7))).1) as [_ H].
  - split; simpl; unfold SEC_NANOSECS; lia.
  - vm_compute. reflexivity.
  - destruct H as [[_ H]|H]; [by right|exact H|discriminate].
Defined.

(** A clock that is busy at the first look and shows 23:59:59 on the 31st of
    December 1999 then. *)
Definition rtc_regs (n : nat) (r : Z) : Z :=
  if r =? STATUSA then (if (n =? 0)%nat then 0xa6 else 0x26)
  else if r =? RTC_SEC then 0x59 else if r =? RTC_MIN then 0x59 else if r =? RTC_HRS then 0x23
  else if r =? RTC_MDAY then 0x31 else if r =? RTC_MNTH then 0x12 else if r =? RTC_YEAR then 0x99
  else if r =? RTC_CENTURY then 0x19 else 0.

Lemma rtc_time_reads_witness : rtc_time rtc_regs 2 (Some (MkAtrtc 5 5 0)) = Done (Ts 946684799 0).
Proof.
  refine (rtc_time_reads rtc_regs (MkAtrtc 5 5 0) (MkDatetime 0 59 59 23 31 12 1999) 1 2 _ _ _ _ _ _ _ _ _).
  - reflexivity.
  - repeat split; simpl; try lia. vm_compute. discriminate.
  - reflexivity.
  - simpl. lia.
  - vm_compute. reflexivity.
  - lia.
  - intros i Hi. destruct i; [vm_compute; discriminate|lia].
  - vm_compute. reflexivity.
  - intros i _. repeat split.
Defined.
