(* ===== verification/Timekeep.v ===== *)
(** * kern/timekeep.c: the uptime, and the clocks of kern/time.c

    A time counter (device/timecounter.h) is a register of [w] bits that counts
    up with a frequency.  At every tick of the boot processor the counter is
    read and the older of two timehands is brought up to date; readers take the
    newer one, add what the counter has counted since, and start again if the
    generation of the timehands has changed.

    The first part is the arithmetic: [timekeep_tick] and the functions that
    read the time, where the value that [tc_read] returns is an argument.  The
    second part is the protocol between the tick and the readers.  Memory is
    sequentially consistent and made of 32-bit words: a [uint64_t] is written
    and read in two steps, so that a reader can see half of an update. *)
From stdpp Require Import base gmap list relations.
From Stdlib Require Import ZArith Lia Bool.
From S2P Require Import Prelude User Interleave Time.
Open Scope Z_scope.

(** ** Data *)

Definition TC_GEN_UPDATE : Z := 0.
Definition TC_GEN_INIT : Z := 1.

Record timecounter_t := MkTc { freq : Z; mask : Z; quality : Z }.
Record timehands_t := MkTh { gen : Z; last_count : Z; nanotime : Z; tstime : timespec }.

(** [timehands] points to [th1] if [current] is set. *)
Record timekeep := MkTk { th0 : timehands_t; th1 : timehands_t; current : bool }.

Definition th_init : timehands_t := MkTh TC_GEN_INIT 0 0 (Ts 0 0).
Definition tk_init : timekeep := MkTk th_init th_init false.

Definition hand (tk : timekeep) (b : bool) : timehands_t := if b then th1 tk else th0 tk.
Definition set_hand (tk : timekeep) (b : bool) (th : timehands_t) : timekeep :=
  if b then MkTk (th0 tk) th (current tk) else MkTk th (th1 tk) (current tk).

(** ** Time counters *)

(** [tc_list] and [timecounter]. *)
Definition tc_register (tcs : list timecounter_t * option timecounter_t) (tc : timecounter_t)
    : list timecounter_t * option timecounter_t :=
  (tc :: tcs.1,
   match tcs.2 with
   | None => Some tc
   | Some best => if quality best <? quality tc then Some tc else Some best
   end).

Section Counter.
Variable tc : timecounter_t.

Definition count_delta (count last : Z) : Z := Z.land (u64 (count - last)) (mask tc).
Definition count_nsec (delta : Z) : Z := u64 (delta * SEC_NANOSECS) / freq tc.

Definition timekeep_delta (th : timehands_t) (count : Z) : Z := count_nsec (count_delta count (last_count th)).

(** [ts->tv_nsec += nsec] is done in 64 bits and cut off to a [long]. *)
Definition timekeep_ts_add (ts : timespec) (nsec : Z) : res timespec :=
  let n := s32 (u64 (u64 (tv_nsec ts) + nsec)) in
  if SEC_NANOSECS <=? n then
    let n := s32 (n - SEC_NANOSECS) in
    kassert n <? SEC_NANOSECS in Done (Ts (s32 (tv_sec ts + 1)) n)
  else Done (Ts (tv_sec ts) n).

Definition next_gen (gen : Z) : Z :=
  let gen := u32 (gen + 1) in if gen =? TC_GEN_UPDATE then TC_GEN_INIT else gen.

(** What a tick does with a timehands. *)
Definition tick_hand (th : timehands_t) (count : Z) : res timehands_t :=
  let nsdelta := count_nsec (count_delta count (last_count th)) in
  let* ts := timekeep_ts_add (tstime th) nsdelta in
  Done (MkTh (next_gen (gen th)) count (u64 (nanotime th + nsdelta)) ts).

Definition timekeep_tick (tk : timekeep) (count : Z) : res (Z * timekeep) :=
  let next := negb (current tk) in
  let* th := tick_hand (hand tk next) count in
  let tk := set_hand tk next th in
  Done (nanotime th, MkTk (th0 tk) (th1 tk) next).

(** One tick after the other. *)
Fixpoint run_ticks (tk : timekeep) (counts : list Z) : res timekeep :=
  match counts with
  | [] => Done tk
  | count :: counts => let* '(_, tk) := timekeep_tick tk count in run_ticks tk counts
  end.

(** ** Reading the time, between two ticks *)

Definition nanouptime (tk : timekeep) (count : Z) : Z :=
  let th := hand tk (current tk) in u64 (nanotime th + timekeep_delta th count).
Definition getnanouptime (tk : timekeep) : Z := nanotime (hand tk (current tk)).
Definition tsuptime (tk : timekeep) (count : Z) : res timespec :=
  let th := hand tk (current tk) in timekeep_ts_add (tstime th) (timekeep_delta th count).
Definition gettsuptime (tk : timekeep) : timespec := tstime (hand tk (current tk)).
Definition gettsboottime (tk : timekeep) (boottime : timespec) : res timespec := ts_add boottime (gettsuptime tk).

Definition s64 (x : Z) : Z := let y := u64 x in if y <? 2 ^ 63 then y else y - 2 ^ 64.

(** [ndelay]: [reads] is what the counter gives, one value after the other. *)
Fixpoint ndelay_loop (reads : list Z) (prev left : Z) : res (list Z) :=
  if 0 <? left then
    match reads with
    | [] => Stuck
    | cntr :: reads => ndelay_loop reads cntr (s64 (left - count_delta cntr prev))
    end
  else Done reads.
Definition ndelay (nsec : Z) (reads : list Z) : res (list Z) :=
  match reads with
  | [] => Stuck
  | prev :: reads =>
      ndelay_loop reads prev (s64 (u64 (u64 (nsec * freq tc) + (SEC_NANOSECS - 1)) / SEC_NANOSECS))
  end.
End Counter.

(** ** The clocks of kern/time.c *)

Definition realtime (tk : timekeep) (boottime : timespec) : res timespec :=
  let* boot := gettsboottime tk boottime in
  let up := gettsuptime tk in
  ts_add up boot.

Definition CLOCK_REALTIME : Z := 0.

Definition sys_clock_gettime `{Cpu} (tk : timekeep) (boottime : timespec) (m : mem) (id out : Z) : res (Z * mem) :=
  if id =? CLOCK_REALTIME then
    let* ts := realtime tk boottime in copyout m out (ts_bytes ts)
  else Done (- ENOTSUP, m).

Definition sys_clock_getres (clk ts : Z) : Z := if ts =? 0 then 0 else - ENOTSUP.

(** ** The uptime *)

(** [w] is the width of the counter.  [c] is how far it has counted since it
    was zero; the register shows [c mod 2 ^ w]. *)
Section Uptime.
Context (tc : timecounter_t) (w : Z).
Hypothesis w_range : 0 < w <= 64.
Hypothesis mask_width : mask tc = 2 ^ w - 1.
Hypothesis freq_range : 0 < freq tc /\ freq tc * SEC_NANOSECS < 2 ^ 64.

Definition shown (c : Z) : Z := c mod 2 ^ w.

Lemma count_delta_exact c c' : 0 <= c <= c' -> c' - c < 2 ^ w -> count_delta tc (shown c') (shown c) = c' - c.
Proof.
  intros Hc Hd. unfold count_delta, shown. rewrite mask_width. replace (2 ^ w - 1) with (Z.ones w) by (rewrite Z.ones_equiv; lia).
  rewrite Z.land_ones by lia. unfold u64, wrap. assert (0 < 2 ^ w) by (apply Z.pow_pos_nonneg; lia).
  rewrite Z.mod_mod_divide.
  2: { exists (2 ^ (64 - w)). rewrite <- Z.pow_add_r by lia. f_equal. lia. }
  rewrite <- Zminus_mod. apply Z.mod_small. lia.
Qed.

(** What is lost when counts are turned into nanoseconds. *)
Definition loss : Z := if SEC_NANOSECS mod freq tc =? 0 then 0 else freq tc - 1.

Lemma count_nsec_spec d : 0 <= d <= freq tc ->
  count_nsec tc d * freq tc <= d * SEC_NANOSECS <= count_nsec tc d * freq tc + loss /\ 0 <= count_nsec tc d.
Proof.
  intros Hd. unfold count_nsec. rewrite u64_small by (unfold SEC_NANOSECS in *; nia).
  pose proof (Z.div_mod (d * SEC_NANOSECS) (freq tc) ltac:(lia)) as E.
  pose proof (Z.mod_pos_bound (d * SEC_NANOSECS) (freq tc) ltac:(lia)).
  split; [|apply Z.div_pos; unfold SEC_NANOSECS in *; lia]. unfold loss. destruct (Z.eqb_spec (SEC_NANOSECS mod freq tc) 0) as [E0|E0]; [|lia].
  assert ((d * SEC_NANOSECS) mod freq tc = 0) by (rewrite Z.mul_mod, E0, Z.mul_0_r by lia; apply Z.mod_0_l; lia). lia.
Qed.

Lemma count_nsec_second d : 0 <= d < freq tc -> count_nsec tc d <= SEC_NANOSECS.
Proof.
  intros Hd. destruct (count_nsec_spec d) as [[H _] _]; [lia|]. unfold SEC_NANOSECS in *. nia.
Qed.

Lemma timekeep_ts_add_run ts n : valid_ts ts -> 0 <= n <= SEC_NANOSECS -> tv_sec ts + 1 < 2 ^ 31 ->
  exists ts', timekeep_ts_add ts n = Done ts' /\ valid_ts ts' /\ ts_ns ts' = ts_ns ts + n.
Proof.
  intros [Hs Hn] Hd Hlt. unfold timekeep_ts_add, valid_ts, ts_ns, SEC_NANOSECS in *.
  rewrite (u64_small (tv_nsec ts)) by lia. rewrite u64_small, s32_exact by lia.
  destruct (Z.leb_spec 1000000000 (tv_nsec ts + n)).
  - rewrite !s32_exact by lia. destruct (Z.ltb_spec (tv_nsec ts + n - 1000000000) 1000000000); [|lia].
    eexists. split; [done|]. simpl. lia.
  - eexists. split; [done|]. simpl. lia.
Qed.

(** A timehands that was brought up to date [n] times, the last time when the
    counter was at [c]. *)
Record keeps (th : timehands_t) (c n : Z) : Prop := {
  k_count : 0 <= c;
  k_last : last_count th = shown c;
  k_nano : 0 <= nanotime th;
  k_low : nanotime th * freq tc <= c * SEC_NANOSECS;
  k_high : c * SEC_NANOSECS <= nanotime th * freq tc + n * loss;
  k_valid : valid_ts (tstime th);
  k_ts : ts_ns (tstime th) = nanotime th;
}.

(** The time fits into a [time_t]. *)
Definition in_time (c : Z) : Prop := c < freq tc * (2 ^ 31 - 2).

Lemma keeps_small th c n : keeps th c n -> in_time c -> nanotime th < (2 ^ 31 - 2) * SEC_NANOSECS.
Proof. intros K Hc. destruct K. unfold in_time, SEC_NANOSECS in *. nia. Qed.

Lemma delta_run th c n c' : keeps th c n -> c <= c' -> c' - c < freq tc -> c' - c < 2 ^ w ->
  count_delta tc (shown c') (last_count th) = c' - c /\ 0 <= count_nsec tc (c' - c) <= SEC_NANOSECS.
Proof.
  intros K Hc Hf Hw. destruct K. rewrite k_last0. split; [apply count_delta_exact; lia|].
  pose proof (count_nsec_second (c' - c)). pose proof (count_nsec_spec (c' - c)). lia.
Qed.

(** What a timehands and the counter say together. *)
Lemma read_bounds th c n c' : keeps th c n -> c <= c' -> c' - c < freq tc ->
  let v := nanotime th + count_nsec tc (c' - c) in
  v * freq tc <= c' * SEC_NANOSECS /\ c' * SEC_NANOSECS <= v * freq tc + (n + 1) * loss.
Proof.
  intros K Hc Hf v. destruct (count_nsec_spec (c' - c)) as [[Hl Hh] _]; [lia|]. destruct K. unfold v.
  rewrite !Z.mul_add_distr_r. rewrite Z.mul_sub_distr_r in *. lia.
Qed.

Lemma tick_hand_run th c n c' : keeps th c n -> c <= c' -> c' - c < freq tc -> c' - c < 2 ^ w -> in_time c ->
  exists th', tick_hand tc th (shown c') = Done th' /\ keeps th' c' (n + 1) /\ gen th' = next_gen (gen th).
Proof.
  intros K Hc Hf Hw Ht. destruct (delta_run th c n c' K Hc Hf Hw) as [Ed Hn]. unfold tick_hand. rewrite Ed.
  pose proof (keeps_small _ _ _ K Ht) as Hs. pose proof (read_bounds th c n c' K Hc Hf) as [Hl Hh]. destruct K.
  destruct (timekeep_ts_add_run (tstime th) (count_nsec tc (c' - c))) as (ts & -> & V & E); [done|lia| |].
  { unfold ts_ns, SEC_NANOSECS in *. destruct k_valid0. unfold SEC_NANOSECS in *. lia. }
  cbn [rbind]. eexists. split; [done|]. split; [|done]. rewrite u64_small by (unfold SEC_NANOSECS in *; lia).
  split; simpl; (lia || done).
Qed.

(** ** Many ticks *)

Definition ticks (tk : timekeep) (cs : list Z) : res timekeep := run_ticks tc tk (shown <$> cs).

(** The counter does not go back, and a timehands is brought up to date again
    (two ticks later) before a second is over and before the counter wraps. *)
Fixpoint paced (prev2 prev : Z) (cs : list Z) : Prop :=
  match cs with
  | [] => True
  | c :: cs => prev <= c /\ c - prev2 < freq tc /\ c - prev2 < 2 ^ w /\ in_time c /\ paced prev c cs
  end.

Definition tk_ok (tk : timekeep) (prev2 prev n : Z) : Prop :=
  prev2 <= prev /\ keeps (hand tk (current tk)) prev ((n + 1) / 2) /\ keeps (hand tk (negb (current tk))) prev2 (n / 2).

Lemma tk_init_ok : tk_ok tk_init 0 0 0.
Proof. split; [done|]. split; split; unfold loss, SEC_NANOSECS; simpl; try done; split; unfold SEC_NANOSECS; simpl; lia. Qed.

Lemma hand_set tk b b' th : hand (MkTk (th0 (set_hand tk b th)) (th1 (set_hand tk b th)) b') b = th.
Proof. by destruct b. Qed.
Lemma hand_set_ne tk b b' th : hand (MkTk (th0 (set_hand tk b th)) (th1 (set_hand tk b th)) b') (negb b) = hand tk (negb b).
Proof. by destruct b. Qed.

Lemma tick_ok tk prev2 prev n c : tk_ok tk prev2 prev n -> in_time prev ->
  prev <= c -> c - prev2 < freq tc -> c - prev2 < 2 ^ w ->
  exists v tk', timekeep_tick tc tk (shown c) = Done (v, tk') /\ tk_ok tk' prev c (n + 1).
Proof.
  intros (Hp & Kc & Ko) Ht Hc Hf Hw. unfold timekeep_tick.
  destruct (tick_hand_run _ _ _ c Ko) as (th & -> & K & _); [lia|lia|lia|unfold in_time in *; lia|].
  cbn [rbind]. eexists _, _. split; [done|]. split; [done|]. cbn [current]. rewrite hand_set, hand_set_ne, negb_involutive.
  split; [|done]. replace ((n + 1 + 1) / 2) with (n / 2 + 1) by (replace (n + 1 + 1) with (n + 1 * 2) by lia; by rewrite Z.div_add by lia).
  done.
Qed.

Lemma ticks_run cs : forall tk prev2 prev n c, tk_ok tk prev2 prev n -> in_time prev -> paced prev2 prev (cs ++ [c]) ->
  exists tk' p2 p, ticks tk cs = Done tk' /\ tk_ok tk' p2 p (n + Z.of_nat (length cs)) /\
    p <= c /\ c - p2 < freq tc /\ c - p2 < 2 ^ w /\ in_time p.
Proof.
  induction cs as [|c0 cs IH]; intros tk prev2 prev n c K Ht Hp; simpl in Hp.
  - exists tk, prev2, prev. rewrite Z.add_0_r. simpl. intuition.
  - destruct Hp as (H1 & H2 & H3 & H4 & Hp). destruct (tick_ok _ _ _ _ c0 K Ht) as (v & tk1 & E & K1); [lia..|].
    destruct (IH tk1 prev c0 (n + 1) c K1 H4 Hp) as (tk' & p2 & p & E' & K' & Hrest).
    exists tk', p2, p. unfold ticks. cbn [fmap list_fmap run_ticks]. rewrite E. cbn [rbind]. split; [done|].
    split; [|done]. replace (n + Z.of_nat (length (c0 :: cs))) with (n + 1 + Z.of_nat (length cs)) by (simpl; lia). done.
Qed.

Lemma uptime_run cs c : paced 0 0 (cs ++ [c]) -> exists tk, ticks tk_init cs = Done tk /\
  let v := nanouptime tc tk (shown c) in
  v * freq tc <= c * SEC_NANOSECS /\
  c * SEC_NANOSECS <= v * freq tc + ((Z.of_nat (length cs) + 1) / 2 + 1) * loss /\
  getnanouptime tk <= v /\
  exists ts, tsuptime tc tk (shown c) = Done ts /\ valid_ts ts /\ ts_ns ts = v.
Proof.
  intros Hp. destruct (ticks_run cs tk_init 0 0 0 c tk_init_ok) as (tk & p2 & p & E & (Hpp & K & _) & H1 & H2 & H3 & Ht);
    [unfold in_time; lia|done|]. exists tk. split; [done|]. simpl in K.
  destruct (delta_run _ _ _ c K) as [Ed Hn]; [lia..|]. destruct (read_bounds _ _ _ c K) as [Hl Hh]; [lia..|].
  pose proof (keeps_small _ _ _ K Ht) as Hs. unfold nanouptime, tsuptime, getnanouptime, timekeep_delta. rewrite Ed.
  destruct K. rewrite u64_small by (unfold SEC_NANOSECS in *; lia). split; [done|]. split; [done|]. split; [lia|].
  destruct (timekeep_ts_add_run (tstime (hand tk (current tk))) (count_nsec tc (c - p))) as (ts & -> & V & Ets); [done|lia| |].
  { destruct k_valid0. unfold ts_ns, SEC_NANOSECS in *. lia. }
  exists ts. rewrite Ets. split; [done|]. split; [done|lia].
Qed.
End Uptime.

(** C32: The uptime follows the counter.  For every sequence of ticks that come
    often enough (a timehands is brought up to date before a second is over and
    before the counter wraps around), no assertion fails, and what [nanouptime]
    returns afterwards is never ahead of the counter and behind it by less than
    a nanosecond for each time the timehands was brought up to date.  With a
    frequency that divides a second it is exact.  [tsuptime] is the same
    time. *)
Theorem uptime_bounds tc w cs c : 0 < w <= 64 -> mask tc = 2 ^ w - 1 ->
  0 < freq tc /\ freq tc * SEC_NANOSECS < 2 ^ 64 -> paced tc w 0 0 (cs ++ [c]) ->
  exists tk, ticks tc w tk_init cs = Done tk /\
    let v := nanouptime tc tk (c mod 2 ^ w) in
    let n := (Z.of_nat (length cs) + 1) / 2 + 1 in
    v * freq tc <= c * SEC_NANOSECS < (v + n) * freq tc /\
    (SEC_NANOSECS mod freq tc = 0 -> v * freq tc = c * SEC_NANOSECS) /\
    exists ts, tsuptime tc tk (c mod 2 ^ w) = Done ts /\ valid_ts ts /\ ts_ns ts = v.
Proof.
  intros Hw Hm Hf Hp. destruct (uptime_run tc w Hw Hm Hf cs c Hp) as (tk & E & Hl & Hh & _ & Hts).
  exists tk. split; [done|]. unfold shown in *. set (v := nanouptime _ _ _) in *.
  assert (0 < (Z.of_nat (length cs) + 1) / 2 + 1) by (pose proof (Z.div_pos (Z.of_nat (length cs) + 1) 2); lia).
  unfold loss in Hh. destruct (Z.eqb_spec (SEC_NANOSECS mod freq tc) 0); (split; [split; [done|nia]|]); (split; [intros; (lia || done)|done]).
Qed.

(** The counter of an HPET, and one that counts half nanoseconds. *)
Definition hpet : timecounter_t := MkTc 10000000 (2 ^ 64 - 1) 100.
Definition half_ns : timecounter_t := MkTc 2000000000 (2 ^ 64 - 1) 0.

Lemma uptime_bounds_witness : exists tk, ticks hpet 64 tk_init [50000; 100000] = Done tk /\ nanouptime hpet tk 100003 = 10000300.
Proof.
  destruct (uptime_bounds hpet 64 [50000; 100000] 100003) as (tk & E & _ & Hx & _).
  - lia.
  - reflexivity.
  - split; vm_compute; reflexivity.
  - cbn [paced app]. unfold in_time. cbn [freq hpet]. lia.
  - exists tk. split; [exact E|]. specialize (Hx eq_refl). cbn [freq hpet] in Hx.
    change (100003 mod 2 ^ 64) with 100003 in Hx. unfold SEC_NANOSECS in Hx. lia.
Defined.

(** The rounding is done for each timehands on its own, so that the two drift
    apart, and the uptime goes back at a tick. *)
Lemma nanouptime_steps_back : exists tk v tk', ticks half_ns 64 tk_init [2; 3; 4; 6; 8] = Done tk /\
  timekeep_tick half_ns tk 9 = Done (v, tk') /\ nanouptime half_ns tk' 9 < nanouptime half_ns tk 9.
Proof. eexists _, _, _. split; [vm_compute; reflexivity|]. split; [vm_compute; reflexivity|]. vm_compute. reflexivity. Qed.

(** The timehands start at the count 0.  If the counter is at more than two
    seconds when the first tick comes, the assertion of [timekeep_ts_add]
    fails; a little later the nanoseconds are negative instead. *)
Lemma first_tick_panics : timekeep_tick hpet tk_init 21000000 = Panic /\
  (exists v tk, timekeep_tick hpet tk_init 25000000 = Done (v, tk) /\ tv_nsec (gettsuptime tk) < 0).
Proof. split; [vm_compute; reflexivity|]. eexists _, _. split; [vm_compute; reflexivity|]. vm_compute. reflexivity. Qed.

(** [realtime] adds the uptime to a time that contains it already: the clock of
    CLOCK_REALTIME runs with double speed. *)
Lemma realtime_doubles tk boottime : valid_ts boottime -> valid_ts (gettsuptime tk) ->
  tv_sec boottime + 2 * tv_sec (gettsuptime tk) + 2 < 2 ^ 31 ->
  exists ts, realtime tk boottime = Done ts /\ ts_ns ts = ts_ns boottime + 2 * ts_ns (gettsuptime tk).
Proof.
  intros Vb Vu Hs. unfold realtime, gettsboottime. set (up := gettsuptime tk) in *.
  destruct (ts_add_exact boottime up Vb Vu) as (boot & -> & V & E); [destruct Vb, Vu; lia|]. cbn [rbind].
  destruct (ts_add_exact up boot Vu V) as (ts & -> & _ & E2).
  { destruct Vb, Vu, V. unfold ts_ns, SEC_NANOSECS in *. lia. }
  exists ts. split; [done|lia].
Qed.

(** The counts that a waiting loop sees: the counter does not go back, and does
    not wrap around between two reads. *)
Fixpoint steady (w prev : Z) (cs : list Z) : Prop :=
  match cs with
  | [] => True
  | c :: cs => prev <= c /\ c - prev < 2 ^ w /\ c - prev < 2 ^ 62 /\ steady w c cs
  end.

Lemma s64_exact x : - 2 ^ 63 <= x < 2 ^ 63 -> s64 x = x.
Proof.
  intros Hx. unfold s64, u64, wrap. destruct (decide (0 <= x)).
  - rewrite Z.mod_small by lia. destruct (Z.ltb_spec x (2 ^ 63)); lia.
  - rewrite <- (Z.mod_unique x (2 ^ 64) (-1) (x + 2 ^ 64)) by lia. destruct (Z.ltb_spec (x + 2 ^ 64) (2 ^ 63)); lia.
Qed.

Lemma List_last_indep {A} (x : A) l d d' : List.last (x :: l) d = List.last (x :: l) d'.
Proof. revert x. induction l as [|y l IH]; intros x; [done|]. apply (IH y). Qed.

Lemma ndelay_loop_run tc w : 0 < w <= 64 -> mask tc = 2 ^ w - 1 -> forall reads prev left,
  0 <= prev -> - 2 ^ 62 < left < 2 ^ 62 -> steady w prev reads -> left <= List.last reads prev - prev ->
  exists seen rest, ndelay_loop tc (shown w <$> reads) (shown w prev) left = Done (shown w <$> rest) /\
    reads = seen ++ rest /\ left <= List.last seen prev - prev.
Proof.
  intros Hw Hm. induction reads as [|c reads IH]; intros prev left Hp Hl Hs Hlast; cbn [fmap list_fmap ndelay_loop].
  - simpl in Hlast. destruct (Z.ltb_spec 0 left); [lia|]. exists [], []. split; [done|]. split; [done|simpl; lia].
  - destruct (Z.ltb_spec 0 left); [|exists [], (c :: reads); split; [done|]; split; [done|simpl; lia]].
    destruct Hs as (H1 & H2 & H3 & Hs). rewrite (count_delta_exact tc w Hw Hm) by lia. rewrite s64_exact by lia.
    destruct (IH c (left - (c - prev))) as (seen & rest & E & -> & Hle); [lia|lia|done| |].
    { destruct reads; [simpl in *; lia|]. change (List.last (c :: z :: reads) prev) with (List.last (z :: reads) prev) in Hlast.
      rewrite (List_last_indep z reads c prev). lia. }
    exists (c :: seen), rest. split; [done|]. split; [done|].
    destruct seen; [simpl in *; lia|]. change (List.last (c :: z :: seen) prev) with (List.last (z :: seen) prev).
    rewrite (List_last_indep z seen prev c). lia.
Qed.

(** [ndelay] waits at least as long as it is told: between the first read of
    the counter and the last one, as many counts have gone by as the
    nanoseconds make, rounded up.  It returns if the counter goes that far. *)
Lemma ndelay_waits tc w nsec prev reads : 0 < w <= 64 -> mask tc = 2 ^ w - 1 ->
  0 <= prev -> 0 <= nsec -> 0 <= freq tc -> nsec * freq tc < 2 ^ 62 -> steady w prev reads ->
  nsec * freq tc <= (List.last reads prev - prev) * SEC_NANOSECS ->
  exists seen rest, ndelay tc nsec (shown w <$> prev :: reads) = Done (shown w <$> rest) /\
    reads = seen ++ rest /\ nsec * freq tc <= (List.last seen prev - prev) * SEC_NANOSECS.
Proof.
  intros Hw Hm Hp Hn Hf Hlt Hs Hlast. cbn [fmap list_fmap ndelay].
  set (left := s64 _). assert (Hleft : left = (nsec * freq tc + (SEC_NANOSECS - 1)) / SEC_NANOSECS).
  { assert (0 <= nsec * freq tc) by nia. unfold left, SEC_NANOSECS in *. rewrite (u64_small (nsec * freq tc)), u64_small by lia.
    apply s64_exact. Z.to_euclidean_division_equations. lia. }
  assert (Hup : nsec * freq tc <= left * SEC_NANOSECS < nsec * freq tc + SEC_NANOSECS).
  { rewrite Hleft. unfold SEC_NANOSECS. Z.to_euclidean_division_equations. lia. }
  assert (0 <= nsec * freq tc) by nia.
  destruct (ndelay_loop_run tc w Hw Hm reads prev left) as (seen & rest & E & Hr & Hle); [done| |done| |].
  1-2: unfold SEC_NANOSECS in *; lia.
  exists seen, rest. split; [done|]. split; [done|]. unfold SEC_NANOSECS in *. lia.
Qed.

(** ** The tick and its readers *)

(** The 32-bit words of a timehands but for the generation: [last_count],
    [nanotime], [tv_sec] and [tv_nsec]. *)
Definition words (th : timehands_t) : list Z :=
  [last_count th mod 2 ^ 32; last_count th / 2 ^ 32; nanotime th mod 2 ^ 32; nanotime th / 2 ^ 32;
   tv_sec (tstime th); tv_nsec (tstime th)].

Definition word (ws : list Z) (i : nat) : Z := default 0 (ws !! i).
Definition double (lo hi : Z) : Z := hi * 2 ^ 32 + lo.
Definition of_words (g : Z) (ws : list Z) : timehands_t :=
  MkTh g (double (word ws 0) (word ws 1)) (double (word ws 2) (word ws 3)) (Ts (word ws 4) (word ws 5)).

Definition put (ws : list Z) (x : nat * Z) : list Z := <[x.1 := x.2]> ws.
Definition writes (th : timehands_t) : list (nat * Z) := imap (fun i x => (i, x)) (words th).

(** A timehands in memory.  [version] is not there: it is how often an update
    of it was begun. *)
Record chand := MkChand { cgen : Z; cwords : list Z; version : nat }.

(** Where a tick is: it has set the generation to [TC_GEN_UPDATE]; it has words
    to write; it has stored the new generation but not [timehands]. *)
Inductive wpc :=
| WIdle
| WUpdate (h : bool) (g : Z)
| WWrite (h : bool) (g : Z) (todo : list (nat * Z))
| WSwitch (h : bool).

(** Where a reader is: it has read [timehands]; it has read the generation [g]
    (of the version [v]) and the words [got], and [todo] are those left. *)
Inductive rpc :=
| RStart (prog : list nat)
| RGen (prog : list nat) (h : bool)
| RLoad (prog : list nat) (h : bool) (g : Z) (v : nat) (todo : list nat) (got : gmap nat Z)
| RDone (got : gmap nat Z).

(** The words that the functions load. *)
Definition nanouptime_prog : list nat := [2; 3; 0; 1]%nat.
Definition getnanouptime_prog : list nat := [2; 3]%nat.
Definition tsuptime_prog : list nat := [4; 5; 0; 1]%nat.
Definition gettsuptime_prog : list nat := [4; 5]%nat.

Definition timekeep_retry (gen now : Z) : bool := (gen =? TC_GEN_UPDATE) || negb (now =? gen).

(** [published] is the value that the last finished tick of a timehands gave
    it; it is not part of the memory either. *)
Record tworld := MkTworld {
  hands : bool -> chand;
  cur_hand : bool;
  writer : wpc;
  readers : gmap Z rpc;
  published : bool -> timehands_t;
}.

Definition upd {A} (f : bool -> A) (b : bool) (x : A) : bool -> A := fun b' => if eqb b b' then x else f b'.

Definition load_word (ws : list Z) (got : gmap nat Z) (i : nat) : gmap nat Z := <[i := word ws i]> got.

Section Protocol.
Variable tc : timecounter_t.

Inductive tstep : tworld -> tworld -> Prop :=
| T_begin hs cur rs pub :
    let h := negb cur in
    tstep (MkTworld hs cur WIdle rs pub)
      (MkTworld (upd hs h (MkChand TC_GEN_UPDATE (cwords (hs h)) (S (version (hs h))))) cur (WUpdate h (cgen (hs h))) rs pub)
| T_count hs cur h g rs pub count th :
    0 <= count < 2 ^ 64 ->
    tick_hand tc (of_words g (cwords (hs h))) count = Done th ->
    tstep (MkTworld hs cur (WUpdate h g) rs pub) (MkTworld hs cur (WWrite h (gen th) (writes th)) rs pub)
| T_write hs cur h g x todo rs pub :
    tstep (MkTworld hs cur (WWrite h g (x :: todo)) rs pub)
      (MkTworld (upd hs h (MkChand (cgen (hs h)) (put (cwords (hs h)) x) (version (hs h)))) cur (WWrite h g todo) rs pub)
| T_publish hs cur h g rs pub :
    tstep (MkTworld hs cur (WWrite h g []) rs pub)
      (MkTworld (upd hs h (MkChand g (cwords (hs h)) (version (hs h)))) cur (WSwitch h) rs
        (upd pub h (of_words g (cwords (hs h)))))
| T_switch hs cur h rs pub :
    tstep (MkTworld hs cur (WSwitch h) rs pub) (MkTworld hs h WIdle rs pub)
| R_hand hs cur wr rs pub r prog :
    rs !! r = Some (RStart prog) ->
    tstep (MkTworld hs cur wr rs pub) (MkTworld hs cur wr (<[r := RGen prog cur]> rs) pub)
| R_gen hs cur wr rs pub r prog h :
    rs !! r = Some (RGen prog h) ->
    tstep (MkTworld hs cur wr rs pub)
      (MkTworld hs cur wr (<[r := RLoad prog h (cgen (hs h)) (version (hs h)) prog ∅]> rs) pub)
| R_load hs cur wr rs pub r prog h g v i todo got :
    rs !! r = Some (RLoad prog h g v (i :: todo) got) ->
    tstep (MkTworld hs cur wr rs pub)
      (MkTworld hs cur wr (<[r := RLoad prog h g v todo (load_word (cwords (hs h)) got i)]> rs) pub)
| R_check hs cur wr rs pub r prog h g v got :
    rs !! r = Some (RLoad prog h g v [] got) ->
    tstep (MkTworld hs cur wr rs pub)
      (MkTworld hs cur wr (<[r := if timekeep_retry g (cgen (hs h)) then RStart prog else RDone got]> rs) pub)
| R_again hs cur wr rs pub r prog got :
    rs !! r = Some (RDone got) ->
    tstep (MkTworld hs cur wr rs pub) (MkTworld hs cur wr (<[r := RStart prog]> rs) pub).

(** ** The invariant of the protocol *)

Definition gen_of (v : nat) : Z := 1 + Z.of_nat v mod (2 ^ 32 - 1).

Lemma gen_of_nonzero v : gen_of v <> 0.
Proof. unfold gen_of. pose proof (Z.mod_pos_bound (Z.of_nat v) (2 ^ 32 - 1) ltac:(lia)). lia. Qed.

Lemma next_gen_of v : next_gen (gen_of v) = gen_of (S v).
Proof.
  unfold next_gen, gen_of, TC_GEN_UPDATE, TC_GEN_INIT. rewrite Nat2Z.inj_succ. unfold Z.succ.
  rewrite <- (Z.add_mod_idemp_l (Z.of_nat v)) by lia.
  pose proof (Z.mod_pos_bound (Z.of_nat v) (2 ^ 32 - 1) ltac:(lia)). set (m := Z.of_nat v mod (2 ^ 32 - 1)) in *.
  destruct (decide (m = 2 ^ 32 - 2)) as [->|]; [reflexivity|].
  rewrite u32_small, (Z.mod_small (m + 1)) by lia. destruct (Z.eqb_spec (1 + m + 1) 0); lia.
Qed.

(** Versions with the same generation are far apart. *)
Lemma gen_of_inj v v' : gen_of v = gen_of v' -> (v <= v')%nat -> Z.of_nat v' - Z.of_nat v < 2 ^ 32 - 1 -> v = v'.
Proof.
  unfold gen_of. intros E Hle Hlt. assert (Em : (Z.of_nat v' - Z.of_nat v) mod (2 ^ 32 - 1) = 0)
    by (rewrite Zminus_mod; replace (Z.of_nat v' mod (2 ^ 32 - 1)) with (Z.of_nat v mod (2 ^ 32 - 1)) by lia; by rewrite Z.sub_diag).
  rewrite Z.mod_small in Em by lia. lia.
Qed.

Definition hand_range (th : timehands_t) : Prop := 0 <= last_count th < 2 ^ 64 /\ 0 <= nanotime th < 2 ^ 64.

Lemma double_split x : double (x mod 2 ^ 32) (x / 2 ^ 32) = x.
Proof. unfold double. pose proof (Z.div_mod x (2 ^ 32) ltac:(lia)). lia. Qed.

Lemma of_words_words th : of_words (gen th) (words th) = th.
Proof. destruct th as [g l n [sc ns]]. unfold of_words, words, word. simpl. by rewrite !double_split. Qed.

Lemma writes_words ws th : length ws = 6%nat -> foldl put ws (writes th) = words th.
Proof. intros H. do 7 (destruct ws as [|? ws]; simplify_eq/=; try done). Qed.

Lemma tick_hand_range th count th' : tick_hand tc th count = Done th' -> 0 <= count < 2 ^ 64 ->
  hand_range th' /\ gen th' = next_gen (gen th).
Proof.
  unfold tick_hand. intros E Hc. apply rbind_Done in E as (ts & _ & E). injection E as <-.
  split; [|done]. split; [done|apply u64_bound].
Qed.

(** A timehands that is not being updated. *)
Definition stable (s : tworld) (h : bool) : Prop :=
  let c := hands s h in
  cgen c = gen_of (version c) /\ cwords c = words (published s h) /\ gen (published s h) = cgen c.

Definition writer_ok (s : tworld) : Prop :=
  match writer s with
  | WIdle => forall h, stable s h
  | WSwitch h => h = negb (cur_hand s) /\ forall h, stable s h
  | WUpdate h g =>
      h = negb (cur_hand s) /\ stable s (negb h) /\ cgen (hands s h) = 0 /\ g = gen (published s h) /\
      cwords (hands s h) = words (published s h) /\ next_gen g = gen_of (version (hands s h))
  | WWrite h g todo =>
      h = negb (cur_hand s) /\ stable s (negb h) /\ cgen (hands s h) = 0 /\ g = gen_of (version (hands s h)) /\
      exists th count, foldl put (cwords (hands s h)) todo = words th /\ gen th = g /\
        0 <= count < 2 ^ 64 /\ tick_hand tc (published s h) count = Done th
  end.

Definition reader_ok (hs : bool -> chand) (p : rpc) : Prop :=
  match p with
  | RLoad prog h g v todo got =>
      (forall i, i ∈ prog -> i ∈ todo \/ is_Some (got !! i)) /\
      (v <= version (hs h))%nat /\
      (g <> 0 -> g = gen_of v /\
        (version (hs h) = v -> cgen (hs h) <> 0 /\ forall i x, got !! i = Some x -> x = word (cwords (hs h)) i))
  | _ => True
  end.

Record tinv (s : tworld) : Prop := {
  i_writer : writer_ok s;
  i_readers : forall r p, readers s !! r = Some p -> reader_ok (hands s) p;
}.

(** Updates of a timehands do not disturb the readers: it has a new version, or
    nobody could have read it in this one. *)
Lemma readers_upd hs h c (rs : gmap Z rpc) : (forall r p, rs !! r = Some p -> reader_ok hs p) ->
  (version (hs h) < version c)%nat \/ version c = version (hs h) /\ cgen (hs h) = 0 ->
  forall r p, rs !! r = Some p -> reader_ok (upd hs h c) p.
Proof.
  intros Hr Hc r p Hp. specialize (Hr r p Hp). destruct p as [| |prog h' g v todo got|]; simpl in *; try done.
  unfold upd. destruct (eqb_spec h h') as [<-|]; [|done]. destruct Hr as (Hd & Hv & Hg). split; [done|].
  split; [destruct Hc; lia|]. intros Hne. destruct (Hg Hne) as [-> Hs]. split; [done|]. intros E.
  destruct Hc as [Hc|[Hc Hz]]; [lia|]. destruct (Hs ltac:(lia)). done.
Qed.

Lemma upd_eq {A} (f : bool -> A) b x : upd f b x b = x.
Proof. unfold upd. by rewrite eqb_reflx. Qed.
Lemma upd_negb {A} (f : bool -> A) b x : upd f b x (negb b) = f (negb b).
Proof. unfold upd. by destruct b. Qed.

Lemma cgen_zero s h : writer_ok s -> cgen (hands s h) = 0 ->
  match writer s with WUpdate h' _ | WWrite h' _ _ => h = h' | _ => False end.
Proof.
  unfold writer_ok. intros W Hz. assert (Hst : forall h, stable s h -> cgen (hands s h) <> 0)
    by (intros h' (E & _); rewrite E; apply gen_of_nonzero).
  destruct (writer s) as [|h' g|h' g todo|h'].
  - by destruct (Hst h (W h)).
  - destruct W as (_ & S & _). destruct (decide (h = h')); [done|]. replace h with (negb h') in Hz by (by destruct h, h').
    by destruct (Hst _ S).
  - destruct W as (_ & S & _). destruct (decide (h = h')); [done|]. replace h with (negb h') in Hz by (by destruct h, h').
    by destruct (Hst _ S).
  - destruct W as [_ W]. by destruct (Hst h (W h)).
Qed.

Lemma writer_step s s' : tinv s -> tstep s s' -> writer_ok s'.
Proof.
  intros [W _] Hs. destruct Hs; unfold writer_ok in *; cbn [writer hands cur_hand published] in *; try exact W.
  - pose proof (W h) as (E1 & E2 & E3). pose proof (W (negb h)) as S2. unfold stable in *.
    cbn [hands published] in *. rewrite upd_eq, upd_negb. cbn [cgen cwords version].
    split; [done|]. split; [done|]. split; [done|]. split; [done|]. split; [done|]. by rewrite E1, next_gen_of.
  - destruct W as (-> & S & Hz & -> & Ew & En). split; [done|]. split; [done|]. split; [done|].
    rewrite Ew, of_words_words in H0. destruct (tick_hand_range _ _ _ H0 H) as [_ Eg]. split; [by rewrite Eg|].
    exists th, count. split; [|done]. apply writes_words. by rewrite Ew.
  - destruct W as (-> & S & Hz & -> & th & count & Ef & Eg & Hc & Et). unfold stable in *. cbn [hands published] in *.
    rewrite upd_negb, upd_eq. cbn [cgen cwords version]. do 4 (split; [done|]). exists th, count. done.
  - destruct W as (-> & S & Hz & -> & th & count & Ef & Eg & Hc & Et). simpl in Ef. split; [done|].
    assert (Epub : of_words (gen_of (version (hs (negb cur)))) (cwords (hs (negb cur))) = th) by (rewrite <- Eg, Ef; apply of_words_words).
    intros h. unfold stable in *. cbn [hands published] in *. destruct (decide (h = negb cur)) as [->|Hne].
    + rewrite !upd_eq. cbn [cgen cwords version]. rewrite Epub. done.
    + replace h with (negb (negb cur)) by (by destruct h, cur). rewrite !upd_negb. done.
  - by destruct W as [_ W].
Qed.

Lemma readers_step s s' : tinv s -> tstep s s' -> forall r p, readers s' !! r = Some p -> reader_ok (hands s') p.
Proof.
  intros [W R] Hs. destruct Hs; cbn [readers hands] in *; try exact R.
  - apply readers_upd; [done|]. left. cbn [version]. lia.
  - apply readers_upd; [done|]. right. split; [done|]. by destruct W as (_ & _ & Hz & _).
  - apply readers_upd; [done|]. right. split; [done|]. by destruct W as (_ & _ & Hz & _).
  - intros r' p [[<- <-]|[Hne Hp]]%lookup_insert_Some; [done|eauto].
  - intros r' p [[<- <-]|[Hne Hp]]%lookup_insert_Some; [|eauto]. simpl. split; [auto|]. split; [done|]. intros Hg.
    split; [|done]. destruct (decide (cgen (hs h) = gen_of (version (hs h)))) as [|Hn]; [done|]. exfalso.
    unfold writer_ok, stable in W. cbn [writer hands cur_hand published] in W.
    destruct wr as [|h' g|h' g todo|h']; [by destruct (W h)|..|by destruct W as [_ W]; destruct (W h)];
      destruct W as (_ & S & Hz & _); (destruct (decide (h = h')) as [->|]; [done|]);
      replace (negb h') with h in S by (by destruct h, h'); by destruct S.
  - intros r' p [[<- <-]|[Hne Hp]]%lookup_insert_Some; [|eauto]. destruct (R _ _ H) as (Hd & Hv & Hg).
    split; [|split; [done|]].
    + intros j Hj. unfold load_word. destruct (decide (j = i)) as [->|]; [right; rewrite lookup_insert_eq; eauto|].
      rewrite lookup_insert_ne by done. destruct (Hd j Hj) as [Hin|]; [|auto]. left. by apply elem_of_cons in Hin as [|].
    + intros Hne. destruct (Hg Hne) as [-> Hs]. split; [done|]. intros E. destruct (Hs E) as [Hc Hw]. split; [done|].
      unfold load_word. intros j x [[<- <-]|[_ Hx]]%lookup_insert_Some; [done|eauto].
  - intros r' p [[<- <-]|[Hne Hp]]%lookup_insert_Some; [by destruct (timekeep_retry _ _)|eauto].
  - intros r' p [[<- <-]|[Hne Hp]]%lookup_insert_Some; [done|eauto].
Qed.

Definition tk_start (rs : gmap Z rpc) : tworld :=
  MkTworld (fun _ => MkChand TC_GEN_INIT (words th_init) 0) false WIdle rs (fun _ => th_init).

Lemma tinv_reach rs s : (forall r p, rs !! r = Some p -> exists prog, p = RStart prog) -> rtc tstep (tk_start rs) s -> tinv s.
Proof.
  intros Hrs Hr. apply (rtc_invariant _ tinv _ _ Hr).
  - split; [by intros h|]. intros r p Hp. by destruct (Hrs r p Hp) as [prog ->].
  - intros a b I Hs. split; [by apply (writer_step a)|by apply (readers_step a)].
Qed.

(** ** The tick is that of the first part *)

(** A tick takes effect when the new generation is stored. *)
Definition tk_of (s : tworld) : timekeep :=
  MkTk (published s false) (published s true) (match writer s with WSwitch h => h | _ => cur_hand s end).

Lemma run_ticks_snoc tk counts tk1 c v tk2 : run_ticks tc tk counts = Done tk1 -> timekeep_tick tc tk1 c = Done (v, tk2) ->
  run_ticks tc tk (counts ++ [c]) = Done tk2.
Proof.
  revert tk. induction counts as [|c0 counts IH]; intros tk E1 E2; simpl in *.
  - injection E1 as ->. by rewrite E2.
  - apply rbind_Done in E1 as ([v0 tk0] & -> & E1). cbn [rbind]. by apply IH.
Qed.

Lemma tk_of_step s s' : tinv s -> tstep s s' ->
  tk_of s' = tk_of s \/ exists count v, 0 <= count < 2 ^ 64 /\ timekeep_tick tc (tk_of s) count = Done (v, tk_of s').
Proof.
  intros [W _] Hs. destruct Hs; try (by left). right. destruct W as (-> & _ & _ & -> & th & count & Ef & Eg & Hc & Et).
  cbn [writer hands cur_hand published foldl] in *. exists count, (nanotime th). split; [done|].
  unfold timekeep_tick, tk_of. cbn [current published writer cur_hand].
  replace (hand _ (negb cur)) with (pub (negb cur)) by (by destruct cur). rewrite Et. cbn [rbind].
  rewrite Ef, <- Eg, of_words_words. by destruct cur.
Qed.

Lemma tk_of_reach rs s : (forall r p, rs !! r = Some p -> exists prog, p = RStart prog) -> rtc tstep (tk_start rs) s ->
  exists counts, run_ticks tc tk_init counts = Done (tk_of s).
Proof.
  intros Hrs Hr. assert (tinv s /\ exists counts, run_ticks tc tk_init counts = Done (tk_of s)) as [_ H]; [|done].
  apply (rtc_invariant tstep (fun s => tinv s /\ exists counts, run_ticks tc tk_init counts = Done (tk_of s)) _ _ Hr).
  - split; [apply (tinv_reach rs _ Hrs); constructor|]. by exists [].
  - intros a b [I (counts & E)] Hs. split; [split; [by apply (writer_step a)|by apply (readers_step a)]|].
    destruct (tk_of_step a b I Hs) as [->|(c & v & _ & Ec)]; [by exists counts|].
    exists (counts ++ [c]). by apply (run_ticks_snoc _ _ _ _ _ _ E Ec).
Qed.
End Protocol.

(** What the functions make of the words that they have loaded. *)
Definition got_word (got : gmap nat Z) (i : nat) : Z := default 0 (got !! i).
Definition nanouptime_of (tc : timecounter_t) (got : gmap nat Z) (count : Z) : Z :=
  u64 (double (got_word got 2) (got_word got 3)
       + count_nsec tc (count_delta tc count (double (got_word got 0) (got_word got 1)))).
Definition gettsuptime_of (got : gmap nat Z) : timespec := Ts (got_word got 4) (got_word got 5).


(** A reader of [gettsuptime] while a tick has begun with the other timehands. *)
Definition tex_start : tworld := tk_start {[ 1 := RStart gettsuptime_prog ]}.
Definition tex_hands : bool -> chand := fun _ => MkChand TC_GEN_INIT (words th_init) 0.
Definition tex_read : tworld :=
  MkTworld (upd tex_hands true (MkChand 0 (words th_init) 1)) false (WUpdate true 1)
    {[ 1 := RLoad gettsuptime_prog false 1 0 [] {[ 4%nat := 0; 5%nat := 0 ]} ]} (fun _ => th_init).

Lemma tex_reach : rtc (tstep hpet) tex_start tex_read.
Proof.
  eapply rtc_l; [apply (R_hand _ _ _ _ _ _ 1 gettsuptime_prog), lookup_insert_eq|].
  eapply rtc_l; [apply (R_gen _ _ _ _ _ _ 1 gettsuptime_prog false), lookup_insert_eq|].
  eapply rtc_l; [apply T_begin|].
  eapply rtc_l; [eapply (R_load _ _ _ _ _ _ 1 gettsuptime_prog false 1 0 4), lookup_insert_eq|].
  eapply rtc_l; [eapply (R_load _ _ _ _ _ _ 1 gettsuptime_prog false 1 0 5), lookup_insert_eq|].
  apply rtc_refl.
Qed.

