(* ===== verification/Atpit.v ===== *)
(** * drivers/time/atpit.c: a 64-bit counter out of a 16-bit one

    The interval timer counts down from [cntrmax] to one, starts again, and
    raises an interrupt when it does.  The driver makes a time counter of 64
    bits of it: [offset] is the sum of the finished periods, which the interrupt
    handler counts, and [last] is what was read in the current period.  A read
    that comes before the handler has run sees that the counter is behind
    [last] and counts the period itself; [ticked] tells the handler so.

    The device is [T], the counts since it was configured, and whether its
    interrupt is pending.  The handler and [atpit_counter] hold the lock, so
    each is one step.  [pstep] says that the interrupt is handled before the
    next one is raised. *)
From stdpp Require Import base list relations.
From Stdlib Require Import ZArith Lia Bool.
From S2P Require Import Prelude Interleave.
Open Scope Z_scope.

Definition MAXCNTR : Z := 0x10000.

Record atpit_t := MkPit { ticked : bool; last : Z; offset : Z; cntrmax : Z }.

Definition atpit_attach : atpit_t := MkPit false 0 0 (2 ^ 32 - 1).

Definition atpit_intr (pit : atpit_t) : atpit_t :=
  if negb (ticked pit) then MkPit (ticked pit) 0 (u64 (offset pit + cntrmax pit)) (cntrmax pit)
  else MkPit false (last pit) (offset pit) (cntrmax pit).

(** Also what is written to the counter, low byte first. *)
Definition atpit_ev_config (pit : atpit_t) (periodic : bool) (cntr : Z) : res (atpit_t * (Z * Z)) :=
  kassert periodic in
  let max := u32 cntr in
  let cntr := if cntr =? MAXCNTR then 0 else cntr in
  Done (MkPit false 0 (u64 (offset pit + last pit)) max, (Z.land cntr 0xFF, Z.land (Z.shiftr cntr 8) 0xFF)).
Definition atpit_ev_stop (pit : atpit_t) : res (atpit_t * (Z * Z)) := atpit_ev_config pit true MAXCNTR.

(** [lo] and [hi] are the latched bytes. *)
Definition atpit_counter (pit : atpit_t) (lo hi : Z) : res (Z * atpit_t) :=
  let cntr := u16 (Z.lor lo (Z.shiftl hi 8)) in
  kassert cntr <=? cntrmax pit in
  let cntr := u16 (cntrmax pit - cntr) in
  let pit :=
    if cntr <? last pit then MkPit true (last pit) (u64 (offset pit + cntrmax pit)) (cntrmax pit) else pit in
  Done (u64 (offset pit + cntr), MkPit (ticked pit) cntr (offset pit) (cntrmax pit)).

(** ** The device and the driver *)

Record pworld := MkPworld { T : Z; pending : bool; pit : atpit_t; value : Z }.

(** What the counter shows in mode 2; zero stands for 0x10000. *)
Definition latched (N T : Z) : Z := u16 (N - T mod N).

Definition pread (s : pworld) : res (Z * atpit_t) :=
  let l := latched (cntrmax (pit s)) (T s) in atpit_counter (pit s) (Z.land l 0xFF) (Z.shiftr l 8).

(** [value] is what the last read has returned. *)
Inductive pstep (base N : Z) : pworld -> pworld -> Prop :=
| P_count s d : 0 <= d -> (T s + d) / N = T s / N -> pstep base N s (MkPworld (T s + d) (pending s) (pit s) (value s))
| P_wrap s d : 0 <= d -> (T s + d) / N = T s / N + 1 -> pending s = false -> base + T s + d + N <= 2 ^ 64 ->
    pstep base N s (MkPworld (T s + d) true (pit s) (value s))
| P_intr s : pending s = true -> pstep base N s (MkPworld (T s) false (atpit_intr (pit s)) (value s))
| P_read s v p : pread s = Done (v, p) -> pstep base N s (MkPworld (T s) (pending s) p v).

Section Pit.
Context (base N : Z).
Hypothesis N_range : 2 <= N <= MAXCNTR.

(** The period that is not counted yet. *)
Definition behind (s : pworld) : Z := if pending s && negb (ticked (pit s)) then 1 else 0.

Record pinv (s : pworld) : Prop := {
  p_time : 0 <= T s;
  p_base : 0 <= base;
  p_max : cntrmax (pit s) = N;
  p_ticked : ticked (pit s) = true -> pending s = true;
  p_offset : offset (pit s) = base + N * (T s / N - behind s);
  p_behind : behind s <= T s / N;
  p_fits : base + N * (T s / N) + N <= 2 ^ 64;
  p_last : 0 <= last (pit s) < N;
  p_period : behind s = 0 -> last (pit s) <= T s mod N;
  p_value : value s <= offset (pit s) + last (pit s);
}.

Lemma latched_bytes x : 0 <= x < 2 ^ 16 -> u16 (Z.lor (Z.land x 0xFF) (Z.shiftl (Z.shiftr x 8) 8)) = x.
Proof.
  intros Hx. unfold u16. rewrite wrap_small.
  - rewrite <- Z.ldiff_ones_r by lia. change 0xFF with (Z.ones 8). rewrite Z.lor_comm. apply Z.bits_inj_iff'. intros i Hi.
    rewrite Z.lor_spec, Z.ldiff_spec, Z.land_spec. destruct (Z.testbit x i), (Z.testbit (Z.ones 8) i); done.
  - assert (E : Z.lor (Z.land x 0xFF) (Z.shiftl (Z.shiftr x 8) 8) = x).
    { rewrite <- Z.ldiff_ones_r by lia. change 0xFF with (Z.ones 8). apply Z.bits_inj_iff'. intros i Hi.
      rewrite Z.lor_spec, Z.ldiff_spec, Z.land_spec. destruct (Z.testbit x i), (Z.testbit (Z.ones 8) i); done. }
    by rewrite E.
Qed.

(** The counter modulo its period, out of what is latched. *)
Lemma latched_count t : latched N t <= N /\ u16 (N - latched N t) = t mod N.
Proof.
  pose proof (Z.mod_pos_bound t N ltac:(lia)) as Hm. unfold latched, MAXCNTR in *. unfold u16, wrap.
  destruct (decide (N - t mod N = 2 ^ 16)) as [E|E].
  - rewrite E, Z_mod_same_full. split; [lia|]. assert (N = 2 ^ 16) by lia. assert (t mod N = 0) by lia.
    rewrite Z.sub_0_r, H0, H. reflexivity.
  - rewrite (Z.mod_small (N - t mod N)) by lia. split; [lia|]. rewrite Z.mod_small by lia. lia.
Qed.

(** A read: the value, and the state after it. *)
Lemma pread_run s : pinv s -> exists v p, pread s = Done (v, p) /\
  pinv (MkPworld (T s) (pending s) p v) /\ value s <= v /\ v <= base + T s <= v + N /\ (behind s = 0 -> v = base + T s).
Proof.
  intros I. destruct I. unfold pread, atpit_counter. rewrite p_max0.
  rewrite latched_bytes by (unfold latched; apply (wrap_bound 16); lia).
  destruct (latched_count (T s)) as [Hle ->]. destruct (Z.leb_spec (latched N (T s)) N); [|lia].
  pose proof (Z.mod_pos_bound (T s) N ltac:(lia)). pose proof (Z.div_mod (T s) N ltac:(lia)) as Ediv.
  assert (0 <= N * (T s / N)) by (apply Z.mul_nonneg_nonneg; [lia|apply Z.div_pos; lia]).
  assert (behind s = 0 \/ behind s = 1) as Hb by (unfold behind; destruct (_ && _); auto).
  destruct (Z.ltb_spec (T s mod N) (last (pit s))) as [Hlt|Hge].
  - assert (behind s = 1) as Hb1 by (destruct Hb as [E|]; [specialize (p_period0 E); lia|done]).
    assert (pending s = true) as Hp by (unfold behind in Hb1; by destruct (pending s)).
    eexists _, _. split; [reflexivity|]. rewrite p_offset0, Hb1. cbn [offset ticked cntrmax last].
    rewrite !(u64_small (base + N * (T s / N - 1) + N)), u64_small by lia.
    split; [split; unfold behind; cbn; rewrite ?Hp; simpl; lia|]. rewrite Hb1 in *. lia.
  - eexists _, _. split; [reflexivity|]. rewrite p_offset0. rewrite u64_small by (destruct Hb as [Eb|Eb]; rewrite Eb in *; nia).
    split; [|destruct Hb as [Eb|Eb]; rewrite Eb in *; lia].
    split; unfold behind; cbn; rewrite ?p_offset0; try done; fold (behind s); try lia.
Qed.

Lemma pinv_step s s' : pinv s -> pstep base N s s' -> pinv s' /\ value s <= value s'.
Proof.
  intros I Hs. destruct Hs as [s d Hd Hk|s d Hd Hk Hp Hf|s Hp|s v p E].
  - split; [|done]. destruct I. split; cbn; rewrite ?Hk; try done; [lia|].
    unfold behind in *. cbn. intros Hb. specialize (p_period0 Hb). rewrite !Z.mod_eq, Hk in * by lia. lia.
  - split; [|done]. destruct I. assert (ticked (pit s) = false) as Ht by (destruct (ticked (pit s)); [by rewrite p_ticked0 in Hp|done]).
    assert (0 <= T s / N) by (apply Z.div_pos; lia). pose proof (Z.mul_div_le (T s + d) N ltac:(lia)).
    split; unfold behind in *; cbn in *; rewrite ?Ht, ?Hk, ?Hp in *; cbn in *; try done; lia.
  - destruct I. unfold atpit_intr. destruct (ticked (pit s)) eqn:Ht; cbn [negb].
    + split; [|done]. split; unfold behind in *; cbn; rewrite ?Hp, ?Ht in *; cbn in *; (done || lia).
    + unfold behind in *. rewrite Hp, Ht in *. cbn in *. pose proof (Z.mod_pos_bound (T s) N ltac:(lia)). split; [|done].
      split; unfold behind; cbn; rewrite ?p_max0, ?p_offset0; try done; rewrite ?u64_small by nia; try lia.
  - destruct (pread_run s I) as (v' & p' & E' & I' & Hv & _). rewrite E' in E. by injection E as <- <-.
Qed.

Lemma pinv_reach s0 s : pinv s0 -> rtc (pstep base N) s0 s -> pinv s /\ value s0 <= value s.
Proof.
  intros I0 Hr. induction Hr as [s|s s1 s2 Hs Hr IH]; [done|].
  destruct (pinv_step s s1 I0 Hs) as [I1 H1]. destruct (IH I1) as [I2 H2]. split; [done|lia].
Qed.
End Pit.

(** The state after the device was configured. *)
Definition pit_start (base N : Z) : pworld := MkPworld 0 false (MkPit false 0 base N) base.

Lemma pit_start_inv base N : 2 <= N <= MAXCNTR -> 0 <= base <= 2 ^ 64 - N -> pinv base N (pit_start base N).
Proof. intros HN Hb. split; unfold behind; cbn; rewrite ?Z.div_0_l, ?Z.mod_0_l by lia; (done || lia). Qed.

(** C38: The counter that the driver makes of the interval timer.  However reads
    and interrupts fall, as long as each interrupt is handled before the next
    one is raised: a read never fails its assertion; what it returns is never
    less than an earlier read has returned, never ahead of the device, and
    behind it by at most one period.  It is exact unless an interrupt is
    pending. *)
Theorem atpit_counter_monotone base N s1 s2 : 2 <= N <= MAXCNTR -> 0 <= base <= 2 ^ 64 - N ->
  rtc (pstep base N) (pit_start base N) s1 -> rtc (pstep base N) s1 s2 ->
  value s1 <= value s2 /\
  exists v p, pread s2 = Done (v, p) /\ value s2 <= v /\ v <= base + T s2 <= v + N /\
    (pending s2 = false -> v = base + T s2).
Proof.
  intros HN Hb H1 H2. destruct (pinv_reach base N HN _ _ (pit_start_inv base N HN Hb) H1) as [I1 _].
  destruct (pinv_reach base N HN _ _ I1 H2) as [I2 Hv]. split; [done|].
  destruct (pread_run base N HN s2 I2) as (v & p & E & _ & Hle & Hb2 & Hx). exists v, p.
  do 3 (split; [done|]). intros Hp. apply Hx. unfold behind. by rewrite Hp.
Qed.

(** A read after the counter has started again, before the interrupt. *)
Lemma atpit_counter_monotone_witness : exists v p,
  pread (MkPworld 1002 true (MkPit false 999 0 1000) 999) = Done (v, p) /\ 999 <= v.
Proof.
  destruct (atpit_counter_monotone 0 1000 (pit_start 0 1000) (MkPworld 1002 true (MkPit false 999 0 1000) 999))
    as (_ & v & p & E & Hv & _).
  - unfold MAXCNTR. lia.
  - lia.
  - apply rtc_refl.
  - eapply rtc_l; [apply (P_count 0 1000 (pit_start 0 1000) 999); [lia|reflexivity]|].
    eapply rtc_l; [apply (P_read 0 1000 _ 999 (MkPit false 999 0 1000)); vm_compute; reflexivity|].
    eapply rtc_l; [apply (P_wrap 0 1000 _ 3); [lia|reflexivity|reflexivity|cbn; lia]|]. apply rtc_refl.
  - exists v, p. split; [exact E|exact Hv].
Defined.
