(* ===== verification/Timer.v ===== *)
(** * kern/timer.c and device/evtimer.c: timers

    Each processor has a queue of timers that is sorted by the time at which
    they run out, and a list of timers that are called at every tick.  The
    queue of a processor is worked off in the interrupt of its event timer.
    The boot processor has a periodic tick; the other ones program their device
    for the first timer in the queue.

    [tsys] is the queues of all processors and the timers that have been
    started.  What is done with the lock of a queue is one step; the time that
    [nanouptime] has returned before is an argument.  The callbacks of timers
    are run with the lock held and do not use timers; that a timer was called is
    noted in a list. *)
From stdpp Require Import base gmap list relations sorting.
From Stdlib Require Import ZArith Lia Bool.
From S2P Require Import Prelude Sched Interleave Time.
Open Scope Z_scope.

(** ** Data *)

Definition TICK_PERIOD : Z := MILLI2NANO 5.
Definition TIMER_PERIODIC : Z := 1.
Definition TIMER_ONESHOT : Z := 0.
Definition TIMER_DONE : Z := 2.
Definition TIMER_ONTICK : Z := 4.

(** [tq] is the processor whose queue the timer is or was in. *)
Record timer_t := MkTimer { tq : Z; flags : Z; time : Z; period : Z }.

Inductive evtimer_mode_t := EV_PERIODIC | EV_ONESHOT.

(** An event timer: its limits, and what it was told to do. *)
Record evtimer_t := MkEv {
  min_period : Z; max_period : Z; efreq : Z;
  armed : option (evtimer_mode_t * Z);
}.

Record timerq_t := MkTimerq { dev : evtimer_t; queue : list Z; ontick : list Z; bsp : bool }.

Record tsys := MkTsys { tqs : gmap Z timerq_t; timers : gmap Z timer_t }.

Definition with_queue (q : timerq_t) (l : list Z) : timerq_t := MkTimerq (dev q) l (ontick q) (bsp q).
Definition with_ontick (q : timerq_t) (l : list Z) : timerq_t := MkTimerq (dev q) (queue q) l (bsp q).
Definition with_dev (q : timerq_t) (d : evtimer_t) : timerq_t := MkTimerq d (queue q) (ontick q) (bsp q).
Definition set_timerq (st : tsys) (cpu : Z) (q : timerq_t) : tsys := MkTsys (<[cpu := q]> (tqs st)) (timers st).
Definition set_timer (st : tsys) (id : Z) (t : timer_t) : tsys := MkTsys (tqs st) (<[id := t]> (timers st)).

Definition timer_ontick_p (t : timer_t) : bool := isset (flags t) TIMER_ONTICK.

(** ** device/evtimer.c *)

Definition clamp (d lo hi : Z) : Z := Z.max (Z.min d hi) lo.

Definition evtimer_config (d : evtimer_t) (mode : evtimer_mode_t) (t : Z) : evtimer_t :=
  let t := clamp t (min_period d) (max_period d) in
  MkEv (min_period d) (max_period d) (efreq d) (Some (mode, u64 (t * efreq d) / SEC_NANOSECS)).
Definition evtimer_stop (d : evtimer_t) : evtimer_t := MkEv (min_period d) (max_period d) (efreq d) None.

(** ** kern/timer.c *)

(** A node that is put into a list must not be in one. *)
Definition inserted (st : tsys) (id : Z) : bool :=
  bool_decide (map_Exists (fun _ q => id ∈ queue q \/ id ∈ ontick q) (tqs st)).

(** The loop of [timerq_insert]: before the first timer that is not earlier. *)
Fixpoint insert_timer (ts : gmap Z timer_t) (id t : Z) (l : list Z) : res (list Z) :=
  match l with
  | [] => Done [id]
  | cur :: l' =>
      let* c := deref (ts !! cur) in
      if t <=? time c then Done (id :: l) else let* l'' := insert_timer ts id t l' in Done (cur :: l'')
  end.

Definition timerq_insert (st : tsys) (cpu id : Z) : res tsys :=
  let* q := deref (tqs st !! cpu) in
  let* t := deref (timers st !! id) in
  kassert negb (inserted st id) in
  if timer_ontick_p t then
    let q := with_ontick q (ontick q ++ [id]) in
    let q := if negb (bsp q) && (length (ontick q) =? 1)%nat
             then with_dev q (evtimer_config (dev q) EV_PERIODIC TICK_PERIOD) else q in
    Done (set_timerq st cpu q)
  else
    let* l := insert_timer (timers st) id (time t) (queue q) in
    Done (set_timerq st cpu (with_queue q l)).

Definition timerq_reconf (st : tsys) (cpu curtime : Z) : res tsys :=
  let* q := deref (tqs st !! cpu) in
  if bsp q || negb (length (ontick q) =? 0)%nat then Done st else
  match queue q with
  | [] => Done (set_timerq st cpu (with_dev q (evtimer_stop (dev q))))
  | first :: _ =>
      let* t := deref (timers st !! first) in
      Done (set_timerq st cpu (with_dev q (evtimer_config (dev q) EV_ONESHOT (u64 (time t - curtime)))))
  end.

Definition timer_start (st : tsys) (cpu curtime id t fl : Z) : res tsys :=
  let st := set_timer st id (MkTimer cpu fl (u64 (t + curtime)) t) in
  let* st := timerq_insert st cpu id in
  timerq_reconf st cpu curtime.

Definition timer_ontick (st : tsys) (cpu curtime id : Z) : res tsys :=
  timer_start st cpu curtime id TICK_PERIOD (Z.lor TIMER_PERIODIC TIMER_ONTICK).

(** The time that was left, and the new state. *)
Definition timer_stop (st : tsys) (cpu curtime id : Z) : res (Z * tsys) :=
  let* t := deref (timers st !! id) in
  let rem := if time t <=? curtime then 0 else u64 (time t - curtime) in
  let* q := deref (tqs st !! tq t) in
  let* '(reconf, st) :=
    if timer_ontick_p t then
      let* '(l, empty) := list_remove (ontick q) id in
      Done (empty, set_timerq st (tq t) (with_ontick q l))
    else if negb (isset (flags t) TIMER_DONE) then
      let first := bool_decide (head (queue q) = Some id) in
      let* '(l, _) := list_remove (queue q) id in
      Done (first, set_timer (set_timerq st (tq t) (with_queue q l)) id
                     (MkTimer (tq t) (Z.lor (flags t) TIMER_DONE) (time t) (period t)))
    else Done (false, st) in
  let* st := if reconf && (tq t =? cpu) then timerq_reconf st (tq t) curtime else Done st in
  Done (rem, st).

Definition timer_destroy (st : tsys) (id : Z) : res tsys :=
  kassert negb (inserted st id) in Done (MkTsys (tqs st) (delete id (timers st))).

(** The loop of [timer_intr]: whether a timer was removed, and those that were
    called. *)
Fixpoint due_loop (fuel : nat) (st : tsys) (cpu curtime : Z) (reconf : bool) (called : list Z)
    : res (bool * list Z * tsys) :=
  match fuel with
  | O => Stuck
  | S fuel =>
      let* q := deref (tqs st !! cpu) in
      match queue q with
      | [] => Done (reconf, called, st)
      | id :: _ =>
          let* t := deref (timers st !! id) in
          if time t <=? curtime then
            let called := called ++ [id] in
            let* '(l, _) := list_remove (queue q) id in
            let st := set_timerq st cpu (with_queue q l) in
            let* st :=
              if isset (flags t) TIMER_PERIODIC then
                timerq_insert (set_timer st id (MkTimer (tq t) (flags t) (u64 (curtime + period t)) (period t))) cpu id
              else Done (set_timer st id (MkTimer (tq t) (Z.lor (flags t) TIMER_DONE) (time t) (period t))) in
            due_loop fuel st cpu curtime true called
          else Done (reconf, called, st)
      end
  end.

Definition timer_intr (st : tsys) (cpu curtime : Z) : res (list Z * tsys) :=
  let* q := deref (tqs st !! cpu) in
  let* '(reconf, called, st) := due_loop (S (length (queue q))) st cpu curtime false (ontick q) in
  let* st := if reconf : bool then timerq_reconf st cpu curtime else Done st in
  Done (called, st).

(** [d] is the event timer that [evtimer_get] has found. *)
Definition init_timer (st : tsys) (cpu : Z) (is_bsp : bool) (d : option evtimer_t) : res tsys :=
  match d with
  | None => Panic
  | Some d =>
      let d := if is_bsp then evtimer_config d EV_PERIODIC TICK_PERIOD else d in
      Done (set_timerq st cpu (MkTimerq d [] [] is_bsp))
  end.

(** ** The invariant *)

Definition tm (ts : gmap Z timer_t) (id : Z) : Z := default 0 (time <$> ts !! id).
Definition le_time (ts : gmap Z timer_t) (a b : Z) : Prop := tm ts a <= tm ts b.

Record timer_ok (t : timer_t) : Prop := {
  t_time : 0 <= time t < 2 ^ 64;
  t_period : 0 <= period t < 2 ^ 63;
  t_periodic : isset (flags t) TIMER_PERIODIC = true -> 0 < period t;
}.

(** [x] is a timer that was taken out of its queue and is about to be put into
    one again. *)
Record tqinv (x : option Z) (st : tsys) : Prop := {
  v_sorted : forall cpu q, tqs st !! cpu = Some q -> StronglySorted (le_time (timers st)) (queue q);
  v_nodup : forall cpu q, tqs st !! cpu = Some q -> NoDup (queue q ++ ontick q);
  v_queue : forall cpu q id, tqs st !! cpu = Some q -> id ∈ queue q -> exists t, timers st !! id = Some t /\
    tq t = cpu /\ timer_ontick_p t = false /\ isset (flags t) TIMER_DONE = false;
  v_ontick : forall cpu q id, tqs st !! cpu = Some q -> id ∈ ontick q -> exists t, timers st !! id = Some t /\
    tq t = cpu /\ timer_ontick_p t = true;
  v_timer : forall id t, timers st !! id = Some t -> timer_ok t /\ is_Some (tqs st !! tq t);
  v_waiting : forall id t, timers st !! id = Some t -> Some id <> x -> timer_ontick_p t = false ->
    isset (flags t) TIMER_DONE = false -> exists q, tqs st !! tq t = Some q /\ id ∈ queue q;
}.

Lemma inserted_false st id : inserted st id = false <-> forall cpu q, tqs st !! cpu = Some q -> id ∉ queue q /\ id ∉ ontick q.
Proof.
  unfold inserted. rewrite bool_decide_eq_false. split.
  - intros H cpu q Hq. split; intros Hin; apply H; exists cpu, q; auto.
  - intros H (cpu & q & Hq & Hin). destruct (H cpu q Hq). tauto.
Qed.

Lemma isset_done f : isset (Z.lor f TIMER_DONE) TIMER_DONE = true.
Proof.
  unfold isset, TIMER_DONE. rewrite Z.land_comm, Z.land_lor_distr_r. apply negb_true_iff, Z.eqb_neq. intros E.
  apply Z.lor_eq_0_iff in E as [_ E]. done.
Qed.

Lemma isset_lor_ontick f : isset (Z.lor f TIMER_DONE) TIMER_ONTICK = isset f TIMER_ONTICK.
Proof. unfold isset. rewrite Z.land_lor_distr_l. change (Z.land TIMER_DONE TIMER_ONTICK) with 0. by rewrite Z.lor_0_r. Qed.
Lemma isset_lor_periodic f : isset (Z.lor f TIMER_DONE) TIMER_PERIODIC = isset f TIMER_PERIODIC.
Proof. unfold isset. rewrite Z.land_lor_distr_l. change (Z.land TIMER_DONE TIMER_PERIODIC) with 0. by rewrite Z.lor_0_r. Qed.

Lemma sorted_ext ts ts' l : (forall x, x ∈ l -> tm ts x = tm ts' x) -> StronglySorted (le_time ts) l -> StronglySorted (le_time ts') l.
Proof.
  induction l as [|a l IH]; intros He Hs; [constructor|]. inversion_clear Hs as [|? ? Hl Hf]. constructor.
  - apply IH; [|done]. intros x Hx. apply He. by right.
  - rewrite Forall_forall in *. intros x Hx. unfold le_time in *. rewrite <- !He by (by constructor || by right). by apply Hf.
Qed.

Lemma tm_insert_ne ts id t x : x <> id -> tm (<[id := t]> ts) x = tm ts x.
Proof. intros. unfold tm. by rewrite lookup_insert_ne. Qed.
Lemma tm_insert ts id t : tm (<[id := t]> ts) id = time t.
Proof. unfold tm. by rewrite lookup_insert_eq. Qed.

(** The lists of one queue change. *)
Lemma set_timerq_inv x x' st cpu q q' : tqinv x st -> tqs st !! cpu = Some q ->
  StronglySorted (le_time (timers st)) (queue q') -> NoDup (queue q' ++ ontick q') ->
  (forall id, id ∈ queue q' -> id ∈ queue q \/ exists t, timers st !! id = Some t /\
    tq t = cpu /\ timer_ontick_p t = false /\ isset (flags t) TIMER_DONE = false) ->
  (forall id, id ∈ ontick q' -> id ∈ ontick q \/ exists t, timers st !! id = Some t /\ tq t = cpu /\ timer_ontick_p t = true) ->
  (forall id t, timers st !! id = Some t -> timer_ontick_p t = false -> isset (flags t) TIMER_DONE = false -> Some id <> x' ->
    id ∈ queue q \/ Some id = x -> tq t = cpu /\ id ∈ queue q' \/ tq t <> cpu /\ Some id <> x) ->
  tqinv x' (set_timerq st cpu q').
Proof.
  intros I Hq Hs Hn Hq' Ho' Hw. destruct I. split; simpl.
  - intros c q0 [[<- <-]|[Hne H]]%lookup_insert_Some; eauto.
  - intros c q0 [[<- <-]|[Hne H]]%lookup_insert_Some; eauto.
  - intros c q0 id [[<- <-]|[Hne H]]%lookup_insert_Some Hin; [|eauto]. destruct (Hq' id Hin); eauto.
  - intros c q0 id [[<- <-]|[Hne H]]%lookup_insert_Some Hin; [|eauto]. destruct (Ho' id Hin); eauto.
  - intros id t H. destruct (v_timer0 id t H) as [? ?]. split; [done|]. by apply lookup_insert_is_Some'; right.
  - intros id t H Hx Ho Hd. destruct (decide (Some id = x)) as [Ex|Ex].
    + destruct (Hw id t H Ho Hd Hx (or_intror Ex)) as [[-> Hin]|[_ ?]]; [|done]. rewrite lookup_insert_eq. eauto.
    + destruct (v_waiting0 id t H Ex Ho Hd) as (q0 & Hq0 & Hin). destruct (decide (tq t = cpu)) as [E|E].
      * rewrite E in *. rewrite lookup_insert_eq. assert (q0 = q) as -> by congruence.
        destruct (Hw id t H Ho Hd Hx (or_introl Hin)) as [[_ ?]|[? _]]; [eauto|done].
      * rewrite lookup_insert_ne by done. eauto.
Qed.

Lemma with_dev_inv x st cpu q d : tqinv x st -> tqs st !! cpu = Some q -> tqinv x (set_timerq st cpu (with_dev q d)).
Proof.
  intros I Hq. pose proof I as I'. destruct I'. apply (set_timerq_inv x x st cpu q); simpl; eauto.
  intros id t H Ho Hd Hx [Hin|]; [|done]. destruct (v_queue0 _ _ _ Hq Hin) as (t' & H' & E & _).
  left. split; [congruence|done].
Qed.

(** A timer that is in no list gets new values. *)
Lemma set_timer_inv x st id t : tqinv x st -> x = None \/ x = Some id -> inserted st id = false ->
  timer_ok t -> is_Some (tqs st !! tq t) -> tqinv (Some id) (set_timer st id t).
Proof.
  intros I Hx Hi Ht Hq. rewrite inserted_false in Hi. destruct I. split; simpl.
  - intros c q H. apply (sorted_ext (timers st)); [|eauto]. intros y Hy. rewrite tm_insert_ne; [done|].
    intros ->. by destruct (Hi _ _ H).
  - eauto.
  - intros c q y H Hy. rewrite lookup_insert_ne; [eauto|]. intros <-. by destruct (Hi _ _ H).
  - intros c q y H Hy. rewrite lookup_insert_ne; [eauto|]. intros <-. by destruct (Hi _ _ H).
  - intros y t' [[<- <-]|[Hne H]]%lookup_insert_Some; eauto.
  - intros y t' [[<- <-]|[Hne H]]%lookup_insert_Some Hy; [done|]. apply v_waiting0; [done|]. destruct Hx; congruence.
Qed.

(** ... and is marked as done, or was not to be waited for anyway. *)
Lemma tqinv_done id st t : tqinv (Some id) st -> timers st !! id = Some t ->
  timer_ontick_p t = true \/ isset (flags t) TIMER_DONE = true -> tqinv None st.
Proof.
  intros I Ht Hf. destruct I. split; try done. intros y t' H _ Ho Hd.
  destruct (decide (y = id)) as [->|]; [|apply v_waiting0; congruence]. rewrite Ht in H. injection H as <-. destruct Hf; congruence.
Qed.

(** A timer is taken out of its list. *)
Lemma StronglySorted_filter {A} (R : A -> A -> Prop) (P : A -> Prop) `{!forall x, Decision (P x)} (l : list A) :
  StronglySorted R l -> StronglySorted R (filter P l).
Proof.
  intros Hs. induction Hs as [|a l Hl IH Hf]; [constructor|]. rewrite filter_cons. destruct (decide (P a)); [|done].
  constructor; [done|]. rewrite Forall_forall in *. intros y [_ Hy]%list_elem_of_filter. auto.
Qed.

Lemma dequeue_inv st cpu q id : tqinv None st -> tqs st !! cpu = Some q ->
  tqinv (Some id) (set_timerq st cpu (with_queue q (list_rem id (queue q)))).
Proof.
  intros I Hq. pose proof I as I'. destruct I'. apply (set_timerq_inv None _ st cpu q); simpl; [done|done|..].
  - apply StronglySorted_filter; eauto.
  - pose proof (v_nodup0 _ _ Hq) as (H1 & H2 & H3)%NoDup_app. apply NoDup_app. split; [by apply NoDup_list_rem|].
    split; [|done]. intros y [_ Hy]%elem_of_list_rem. auto.
  - intros y [_ Hy]%elem_of_list_rem. auto.
  - auto.
  - intros y t Ht Ho Hd Hne [Hin|?]; [|done]. left. destruct (v_queue0 _ _ _ Hq Hin) as (t' & Ht' & E & _).
    split; [congruence|]. apply elem_of_list_rem. split; [congruence|done].
Qed.

Lemma drop_ontick_inv st cpu q id : tqinv None st -> tqs st !! cpu = Some q ->
  tqinv None (set_timerq st cpu (with_ontick q (list_rem id (ontick q)))).
Proof.
  intros I Hq. pose proof I as I'. destruct I'. apply (set_timerq_inv None _ st cpu q); simpl; [done|done|..].
  - eauto.
  - pose proof (v_nodup0 _ _ Hq) as (H1 & H2 & H3)%NoDup_app. apply NoDup_app. split; [done|].
    split; [|by apply NoDup_list_rem]. intros y Hy [_ Hy']%elem_of_list_rem. by apply (H2 y).
  - auto.
  - intros y [_ Hy]%elem_of_list_rem. auto.
  - intros y t Ht Ho Hd Hne [Hin|?]; [|done]. left. destruct (v_queue0 _ _ _ Hq Hin) as (t' & Ht' & E & _).
    split; [congruence|done].
Qed.

(** ** Insertion *)

Lemma insert_timer_run ts id t l : (forall y, y ∈ l -> is_Some (ts !! y)) -> StronglySorted (le_time ts) l ->
  exists l1 l2, insert_timer ts id t l = Done (l1 ++ id :: l2) /\ l = l1 ++ l2 /\
    (forall y, y ∈ l1 -> tm ts y < t) /\ (forall y, y ∈ l2 -> t <= tm ts y).
Proof.
  intros Hl Hs. induction Hs as [|a l Hs IH Hf]; cbn [insert_timer].
  { exists [], []. split; [done|]. split; [done|]. split; intros y Hy; by apply elem_of_nil in Hy. }
  destruct (Hl a ltac:(by left)) as [c Hc]. rewrite Hc. cbn [deref rbind].
  assert (Ec : tm ts a = time c) by (unfold tm; by rewrite Hc). destruct (Z.leb_spec t (time c)).
  - exists [], (a :: l). split; [done|]. split; [done|]. split; [intros y Hy; by apply elem_of_nil in Hy|].
    intros y [->|Hy]%elem_of_cons; [lia|]. rewrite Forall_forall in Hf. specialize (Hf y Hy). unfold le_time in Hf. lia.
  - destruct IH as (l1 & l2 & -> & -> & H1 & H2); [intros y Hy; apply Hl; by right|]. cbn [rbind].
    exists (a :: l1), l2. split; [done|]. split; [done|]. split; [|done]. intros y [->|Hy]%elem_of_cons; [lia|auto].
Qed.

Lemma timers_insert ts id l1 l2 : StronglySorted (le_time ts) (l1 ++ l2) ->
  (forall y, y ∈ l1 -> tm ts y < tm ts id) -> (forall y, y ∈ l2 -> tm ts id <= tm ts y) ->
  StronglySorted (le_time ts) (l1 ++ id :: l2).
Proof.
  induction l1 as [|a l1 IH]; simpl; intros Hs H1 H2.
  - constructor; [done|]. apply Forall_forall. intros y Hy. unfold le_time. auto.
  - inversion_clear Hs as [|? ? Hl Hf]. constructor; [apply IH; auto; intros y Hy; apply H1; by right|].
    rewrite Forall_forall in *. intros y [Hy|[->|Hy]%elem_of_cons]%elem_of_app.
    + apply Hf, elem_of_app. auto.
    + unfold le_time. specialize (H1 a ltac:(by left)). lia.
    + apply Hf, elem_of_app. auto.
Qed.

(** The queue after an insertion, and that the invariant holds. *)
Lemma timerq_insert_run st cpu q id t : tqinv (Some id) st -> inserted st id = false ->
  tqs st !! cpu = Some q -> timers st !! id = Some t -> tq t = cpu -> isset (flags t) TIMER_DONE = false ->
  exists q', timerq_insert st cpu id = Done (set_timerq st cpu q') /\ tqinv None (set_timerq st cpu q') /\ bsp q' = bsp q /\
    (if timer_ontick_p t then ontick q' = ontick q ++ [id] /\ queue q' = queue q
     else ontick q' = ontick q /\ dev q' = dev q /\ exists l1 l2, queue q = l1 ++ l2 /\ queue q' = l1 ++ id :: l2 /\
       (forall y, y ∈ l1 -> tm (timers st) y < time t) /\ (forall y, y ∈ l2 -> time t <= tm (timers st) y)).
Proof.
  intros I Hi Hq Ht Etq Hd. unfold timerq_insert. rewrite Hq, Ht, Hi. cbn [deref rbind negb].
  pose proof I as I'. destruct I'. destruct (proj1 (inserted_false st id) Hi cpu q Hq) as [Hnq Hno].
  assert (Et : tm (timers st) id = time t) by (unfold tm; by rewrite Ht).
  pose proof (v_nodup0 _ _ Hq) as (N1 & N2 & N3)%NoDup_app. destruct (timer_ontick_p t) eqn:Hot.
  - set (q1 := with_ontick q (ontick q ++ [id])).
    assert (I1 : tqinv None (set_timerq st cpu q1)).
    { apply (set_timerq_inv (Some id) None st cpu q); simpl; [done|done|eauto| |auto| |].
      - apply NoDup_app. split; [done|]. split; [intros y Hy [Hy'|Hy']%elem_of_app; [by apply (N2 y)|];
          apply list_elem_of_singleton in Hy' as ->; done|].
        apply NoDup_app. split; [done|]. split; [|apply NoDup_singleton]. intros y Hy Hy'%list_elem_of_singleton. by subst.
      - intros y [Hy|Hy%list_elem_of_singleton]%elem_of_app; [auto|]. subst y. right. eauto.
      - intros y t' Hy Ho Hd' _ [Hin|[= ->]]; [|congruence]. left. destruct (v_queue0 _ _ _ Hq Hin) as (t0 & Ht0 & E & _). split; [congruence|done]. }
    destruct (negb (bsp q1) && (length (ontick q1) =? 1)%nat).
    + eexists. split; [reflexivity|]. split; [|done].
      replace (set_timerq st cpu _) with (set_timerq (set_timerq st cpu q1) cpu (with_dev q1 (evtimer_config (dev q1) EV_PERIODIC TICK_PERIOD)))
        by (unfold set_timerq; simpl; by rewrite insert_insert_eq).
      apply with_dev_inv; [done|]. simpl. by rewrite lookup_insert_eq.
    + eexists. split; [reflexivity|]. done.
  - destruct (insert_timer_run (timers st) id (time t) (queue q)) as (l1 & l2 & -> & El & H1 & H2); [|eauto|].
    { intros y Hy. destruct (v_queue0 _ _ _ Hq Hy) as (t' & -> & _). eauto. }
    cbn [rbind]. eexists. split; [reflexivity|]. split; [|split; [done|]; split; [done|]; split; [done|]; exists l1, l2; done].
    apply (set_timerq_inv (Some id) None st cpu q); simpl; [done|done|..].
    + apply timers_insert; [rewrite <- El; eauto|by rewrite Et..].
    + rewrite <- app_assoc. simpl. rewrite <- Permutation_middle, app_assoc, <- El. apply NoDup_cons. split; [|eauto].
      rewrite elem_of_app. tauto.
    + intros y [Hy|[->|Hy]%elem_of_cons]%elem_of_app; [left|right; eauto|left]; rewrite El, elem_of_app; auto.
    + auto.
    + intros y t' Hy Ho Hd' _ [Hin|[= ->]]; left.
      * destruct (v_queue0 _ _ _ Hq Hin) as (t0 & Ht0 & E & _). split; [congruence|]. rewrite El in Hin. set_solver.
      * split; [congruence|set_solver].
Qed.

Lemma timerq_reconf_inv x st cpu curtime q : tqinv x st -> tqs st !! cpu = Some q ->
  exists d, timerq_reconf st cpu curtime = Done (set_timerq st cpu (with_dev q d)) /\ tqinv x (set_timerq st cpu (with_dev q d)) /\
    (bsp q = false -> ontick q = [] -> d = match queue q with
      | [] => evtimer_stop (dev q)
      | first :: _ => evtimer_config (dev q) EV_ONESHOT (u64 (tm (timers st) first - curtime))
      end).
Proof.
  intros I Hq. unfold timerq_reconf. rewrite Hq. cbn [deref rbind].
  destruct (bsp q || negb (length (ontick q) =? 0)%nat) eqn:Hb.
  { exists (dev q). replace (with_dev q (dev q)) with q by (by destruct q).
    split; [by destruct st; unfold set_timerq; simpl in *; rewrite insert_id|].
    split; [destruct st; unfold set_timerq; simpl in *; by rewrite insert_id|]. intros Hb1 Ho. by rewrite Hb1, Ho in Hb. }
  destruct (queue q) as [|first l] eqn:El; [eexists; split; [done|]; split; [by apply with_dev_inv|done]|].
  destruct (v_queue _ _ I _ _ first Hq) as (t & Ht & _); [rewrite El; by left|]. rewrite Ht. cbn [deref rbind].
  eexists. split; [done|]. split; [by apply with_dev_inv|]. intros _ _. unfold tm. by rewrite Ht.
Qed.

(** ** The interrupt *)

(** The timers that have run out, and what becomes of one when it is called. *)
Definition due (ts : gmap Z timer_t) (curtime : Z) (l : list Z) : list Z := filter (fun id => tm ts id <= curtime) l.
Definition fire (curtime : Z) (t : timer_t) : timer_t :=
  if isset (flags t) TIMER_PERIODIC then MkTimer (tq t) (flags t) (curtime + period t) (period t)
  else MkTimer (tq t) (Z.lor (flags t) TIMER_DONE) (time t) (period t).

Lemma dequeue_not_inserted st cpu q id : tqinv None st -> tqs st !! cpu = Some q -> id ∈ queue q ->
  inserted (set_timerq st cpu (with_queue q (list_rem id (queue q)))) id = false.
Proof.
  intros I Hq Hin. apply inserted_false. simpl. destruct I.
  destruct (v_queue0 _ _ _ Hq Hin) as (t & Ht & E & Ho & _).
  intros c q' [[<- <-]|[Hne H]]%lookup_insert_Some; simpl.
  - rewrite elem_of_list_rem. split; [tauto|]. pose proof (v_nodup0 _ _ Hq) as (_ & H2 & _)%NoDup_app. auto.
  - split; intros Hin'.
    + destruct (v_queue0 _ _ _ H Hin') as (t' & Ht' & E' & _). congruence.
    + destruct (v_ontick0 _ _ _ H Hin') as (t' & Ht' & _ & Ho'). congruence.
Qed.

Lemma due_ext ts ts' curtime l : (forall y, y ∈ l -> tm ts y = tm ts' y) -> due ts curtime l = due ts' curtime l.
Proof.
  intros H. unfold due. induction l as [|a l IH]; [done|]. rewrite !filter_cons, (H a) by (by left).
  rewrite IH by (intros y Hy; apply H; by right). done.
Qed.

Lemma filter_everything {A} (P : A -> Prop) `{!forall x, Decision (P x)} (l : list A) : (forall x, x ∈ l -> P x) -> filter P l = l.
Proof.
  induction l as [|a l IH]; intros Hl; [done|]. rewrite filter_cons_True by (apply Hl; by left). f_equal. apply IH.
  intros x Hx. apply Hl. by right.
Qed.
Lemma filter_nothing {A} (P : A -> Prop) `{!forall x, Decision (P x)} (l : list A) : (forall x, x ∈ l -> ~ P x) -> filter P l = [].
Proof.
  induction l as [|a l IH]; intros Hl; [done|]. rewrite filter_cons_False by (apply Hl; by left). apply IH.
  intros x Hx. apply Hl. by right.
Qed.

Lemma list_rem_head {A} `{EqDecision A} (x : A) l : NoDup (x :: l) -> list_rem x (x :: l) = l.
Proof.
  intros [Hn _]%NoDup_cons. unfold list_rem. rewrite filter_cons. destruct (decide (x <> x)); [done|].
  apply filter_everything. intros y Hy ->. done.
Qed.

Lemma fire_ok curtime t : 0 <= curtime < 2 ^ 63 -> timer_ok t -> timer_ok (fire curtime t).
Proof.
  intros Hc [Ht Hp Hpp]. unfold fire. destruct (isset (flags t) TIMER_PERIODIC) eqn:E; split; simpl; try lia.
  rewrite isset_lor_periodic. congruence.
Qed.

(** The body of the loop: the first timer of the queue is called. *)
Definition call_first (st : tsys) (cpu curtime id : Z) (q : timerq_t) (t : timer_t) : res tsys :=
  let* '(l, _) := list_remove (queue q) id in
  let st := set_timerq st cpu (with_queue q l) in
  if isset (flags t) TIMER_PERIODIC then
    timerq_insert (set_timer st id (MkTimer (tq t) (flags t) (u64 (curtime + period t)) (period t))) cpu id
  else Done (set_timer st id (MkTimer (tq t) (Z.lor (flags t) TIMER_DONE) (time t) (period t))).

Record called_first (st : tsys) (cpu curtime id : Z) (q : timerq_t) (t : timer_t) (l : list Z) (st' : tsys) : Prop := {
  c_inv : tqinv None st';
  c_timers : timers st' = <[id := fire curtime t]> (timers st);
  c_queue : exists q', tqs st' = <[cpu := q']> (tqs st) /\ ontick q' = ontick q /\ dev q' = dev q /\ bsp q' = bsp q /\
    due (timers st') curtime (queue q') = due (timers st) curtime l;
}.

Lemma call_first_run st cpu curtime id q t l : tqinv None st -> tqs st !! cpu = Some q -> queue q = id :: l ->
  timers st !! id = Some t -> 0 <= curtime < 2 ^ 63 ->
  exists st', call_first st cpu curtime id q t = Done st' /\ called_first st cpu curtime id q t l st'.
Proof.
  intros I Hq El Ht Hc. assert (Hin : id ∈ queue q) by (rewrite El; by left).
  pose proof (dequeue_inv st cpu q id I Hq) as I1. pose proof (dequeue_not_inserted st cpu q id I Hq Hin) as Hni.
  destruct (v_queue _ _ I _ _ _ Hq Hin) as (t' & Ht' & Etq & Ho & Hd). assert (t' = t) as -> by congruence.
  pose proof (v_nodup _ _ I _ _ Hq) as (Nq & _ & _)%NoDup_app. rewrite El in Nq.
  destruct (v_timer _ _ I _ _ Ht) as [Hok _]. pose proof (fire_ok curtime t Hc Hok) as Hok'.
  assert (Erem : list_rem id (queue q) = l) by (rewrite El; by apply list_rem_head). rewrite Erem in *.
  unfold call_first. rewrite list_remove_Done by done. cbn [rbind]. rewrite Erem.
  set (st1 := set_timerq st cpu (with_queue q l)) in *.
  assert (I2 : tqinv (Some id) (set_timer st1 id (fire curtime t))).
  { apply (set_timer_inv (Some id)); auto. assert (tq (fire curtime t) = cpu) as ->.
    { unfold fire. destruct (isset (flags t) TIMER_PERIODIC); exact Etq. }
    unfold st1, set_timerq. cbn [tqs]. rewrite lookup_insert_eq. eauto. }
  assert (Hext : forall l', (forall y, y ∈ l' -> y ∈ l) -> due (<[id := fire curtime t]> (timers st)) curtime l' = due (timers st) curtime l').
  { intros l' Hl'. apply due_ext. intros y Hy. apply tm_insert_ne. intros ->. apply NoDup_cons in Nq as [Hn _]. apply Hn, Hl', Hy. }
  assert (Hq2 : tqs (set_timer st1 id (fire curtime t)) !! cpu = Some (with_queue q l)) by (simpl; by rewrite lookup_insert_eq).
  destruct Hok as [Htm Hper Hpos]. unfold fire in *. destruct (isset (flags t) TIMER_PERIODIC) eqn:Hp.
  - rewrite u64_small by lia. set (t2 := MkTimer (tq t) (flags t) (curtime + period t) (period t)) in *.
    destruct (timerq_insert_run (set_timer st1 id t2) cpu (with_queue q l) id t2) as (q' & -> & I3 & Eb & Hrest);
      [done|done|done|simpl; by rewrite lookup_insert_eq|done|done|]. replace (timer_ontick_p t2) with false in Hrest by (symmetry; exact Ho).
    destruct Hrest as (Eo & Edev & l1 & l2 & El1 & El2 & _). simpl in El1, Eo, Edev, Eb.
    eexists. split; [reflexivity|]. split; [done|unfold fire; by rewrite Hp|]. exists q'. simpl. rewrite insert_insert_eq.
    split; [done|]. split; [done|]. split; [done|]. split; [done|]. rewrite El2, El1. unfold due.
    rewrite !filter_app, filter_cons, tm_insert. simpl time. destruct (decide (curtime + period t <= curtime)); [specialize (Hpos eq_refl); lia|].
    f_equal; apply Hext; intros y Hy; rewrite El1, elem_of_app; auto.
  - eexists. split; [reflexivity|]. split; [|unfold fire; by rewrite Hp|].
    + eapply tqinv_done; [exact I2|simpl; by rewrite lookup_insert_eq|]. right. simpl. apply isset_done.
    + exists (with_queue q l). simpl. split; [done|]. split; [done|]. split; [done|]. split; [done|]. by apply Hext.
Qed.

Lemma due_loop_S fuel st cpu curtime reconf called : due_loop (S fuel) st cpu curtime reconf called =
  let* q := deref (tqs st !! cpu) in
  match queue q with
  | [] => Done (reconf, called, st)
  | id :: _ =>
      let* t := deref (timers st !! id) in
      if time t <=? curtime then
        let* st := call_first st cpu curtime id q t in due_loop fuel st cpu curtime true (called ++ [id])
      else Done (reconf, called, st)
  end.
Proof.
  cbn [due_loop]. destruct (deref (tqs st !! cpu)) as [q| | |]; try done. cbn [rbind]. destruct (queue q) as [|id l] eqn:El; [done|].
  destruct (deref (timers st !! id)) as [t| | |]; try done. cbn [rbind]. destruct (time t <=? curtime); [|done].
  unfold call_first. rewrite El. by destruct (list_remove (id :: l) id) as [[l' e]| | |].
Qed.

(** What the interrupt leaves of the timers. *)
Definition fired (curtime : Z) (ids : list Z) (ts ts' : gmap Z timer_t) : Prop :=
  forall id, ts' !! id = if decide (id ∈ ids) then fire curtime <$> ts !! id else ts !! id.

Lemma due_loop_run fuel : forall st cpu curtime q reconf called, tqinv None st -> tqs st !! cpu = Some q ->
  0 <= curtime < 2 ^ 63 -> (length (due (timers st) curtime (queue q)) < fuel)%nat ->
  let d := due (timers st) curtime (queue q) in
  exists st' q', due_loop fuel st cpu curtime reconf called = Done (reconf || negb (length d =? 0)%nat, called ++ d, st') /\
    tqinv None st' /\ tqs st' = <[cpu := q']> (tqs st) /\ ontick q' = ontick q /\ dev q' = dev q /\ bsp q' = bsp q /\
    due (timers st') curtime (queue q') = [] /\ fired curtime d (timers st) (timers st').
Proof.
  induction fuel as [|fuel IH]; intros st cpu curtime q reconf called I Hq Hc Hf d; [lia|].
  rewrite due_loop_S, Hq. cbn [deref rbind]. pose proof (v_nodup _ _ I _ _ Hq) as (Nq & _ & _)%NoDup_app.
  assert (Hstop : d = [] -> exists st' q', Done (reconf, called, st) = Done (reconf || negb (length d =? 0)%nat, called ++ d, st') /\
    tqinv None st' /\ tqs st' = <[cpu := q']> (tqs st) /\ ontick q' = ontick q /\ dev q' = dev q /\ bsp q' = bsp q /\
    due (timers st') curtime (queue q') = [] /\ fired curtime d (timers st) (timers st')).
  { intros Ed. exists st, q. rewrite Ed, app_nil_r, orb_false_r. rewrite insert_id by done.
    repeat (split; [done|]). intros id. case_decide as Hin; [by apply elem_of_nil in Hin|done]. }
  destruct (queue q) as [|id l] eqn:El; [by apply Hstop|].
  destruct (v_queue _ _ I _ _ id Hq) as (t & Ht & _); [rewrite El; by left|]. rewrite Ht. cbn [deref rbind].
  assert (Et : tm (timers st) id = time t) by (unfold tm; by rewrite Ht). destruct (Z.leb_spec (time t) curtime) as [Hle|Hgt].
  - destruct (call_first_run st cpu curtime id q t l I Hq El Ht Hc) as (st1 & -> & [I1 Ets (q1 & Eq1 & Eo & Ed & Eb & Edue)]). cbn [rbind].
    assert (Hd : d = id :: due (timers st) curtime l) by (unfold d, due; rewrite filter_cons, decide_True by lia; done).
    assert (Hq1 : tqs st1 !! cpu = Some q1) by (by rewrite Eq1, lookup_insert_eq).
    destruct (IH st1 cpu curtime q1 true (called ++ [id]) I1 Hq1 Hc) as (st' & q' & -> & I' & Eq' & Eo' & Ed' & Eb' & Edue' & Hfd).
    { rewrite Edue. fold d in Hf. rewrite Hd in Hf. simpl in Hf. lia. }
    exists st', q'. rewrite Edue, Hd in *. split; [simpl; by rewrite orb_true_r, <- app_assoc|]. split; [done|].
    split; [by rewrite Eq', Eq1, insert_insert_eq|]. split; [congruence|]. split; [congruence|]. split; [congruence|]. split; [done|].
    apply NoDup_cons in Nq as [Hnl _]. intros y. rewrite (Hfd y), Ets. destruct (decide (y = id)) as [->|Hne].
    + rewrite lookup_insert_eq, Ht. rewrite decide_False by (intros [_ Hin]%list_elem_of_filter; done).
      by rewrite decide_True by (by left).
    + rewrite lookup_insert_ne by done. destruct (decide (y ∈ due _ _ l)) as [Hin|Hin].
      * by rewrite decide_True by (by right).
      * rewrite decide_False; [done|]. intros [|]%elem_of_cons; done.
  - apply Hstop. unfold d, due. rewrite filter_cons, decide_False by lia.
    pose proof (v_sorted _ _ I _ _ Hq) as Hs. rewrite El in Hs. inversion_clear Hs as [|? ? _ Hall].
    rewrite Forall_forall in Hall. apply filter_nothing. intros y Hy. specialize (Hall y Hy). unfold le_time in Hall. lia.
Qed.

(** ** The operations *)

Definition start_ok (st : tsys) (cpu curtime id t fl : Z) : Prop :=
  inserted st id = false /\ is_Some (tqs st !! cpu) /\ 0 <= curtime < 2 ^ 63 /\ 0 <= t < 2 ^ 63 /\
  (isset fl TIMER_PERIODIC = true -> 0 < t) /\ isset fl TIMER_DONE = false.

Lemma timer_start_run st cpu curtime id t fl : tqinv None st -> start_ok st cpu curtime id t fl ->
  exists st', timer_start st cpu curtime id t fl = Done st' /\ tqinv None st' /\
    timers st' = <[id := MkTimer cpu fl (curtime + t) t]> (timers st) /\
    exists q, tqs st' !! cpu = Some q /\ (if isset fl TIMER_ONTICK then id ∈ ontick q else id ∈ queue q).
Proof.
  intros I (Hi & [q Hq] & Hc & Ht & Hp & Hd). unfold timer_start. rewrite u64_small by lia. rewrite (Z.add_comm t).
  set (tmr := MkTimer cpu fl (curtime + t) t).
  assert (I1 : tqinv (Some id) (set_timer st id tmr)).
  { apply (set_timer_inv None); [done|by left|done|split; simpl; (lia || done)|]. simpl. rewrite Hq. eauto. }
  destruct (timerq_insert_run (set_timer st id tmr) cpu q id tmr) as (q' & -> & I2 & Eb & Hl); [done|done|done|simpl; by rewrite lookup_insert_eq|done|done|].
  cbn [rbind]. destruct (timerq_reconf_inv None _ cpu curtime q' I2) as (d & -> & I3 & _); [simpl; by rewrite lookup_insert_eq|].
  eexists. split; [done|]. split; [done|]. split; [done|]. eexists. split; [simpl; by rewrite lookup_insert_eq|].
  unfold timer_ontick_p in Hl. simpl in Hl |- *. destruct (isset fl TIMER_ONTICK).
  - destruct Hl as [-> _]. set_solver.
  - destruct Hl as (_ & _ & l1 & l2 & _ & -> & _). set_solver.
Qed.

(** A timer that is called at every tick must not be stopped twice. *)
Definition stop_ok (st : tsys) (curtime id : Z) (t : timer_t) : Prop :=
  timers st !! id = Some t /\ 0 <= curtime /\
  (timer_ontick_p t = true -> exists q, tqs st !! tq t = Some q /\ id ∈ ontick q).

Lemma stop_lists st id t : tqinv None st -> timers st !! id = Some t ->
  (timer_ontick_p t = true -> exists q, tqs st !! tq t = Some q /\ id ∈ ontick q) ->
  exists q, tqs st !! tq t = Some q /\
    (forall c q', tqs st !! c = Some q' -> c <> tq t -> id ∉ queue q' /\ id ∉ ontick q') /\
    (timer_ontick_p t = true -> id ∈ ontick q /\ id ∉ queue q) /\
    (timer_ontick_p t = false -> isset (flags t) TIMER_DONE = false -> id ∈ queue q /\ id ∉ ontick q) /\
    (timer_ontick_p t = false -> isset (flags t) TIMER_DONE = true -> id ∉ queue q /\ id ∉ ontick q).
Proof.
  intros I Ht Hon. destruct I. destruct (v_timer0 _ _ Ht) as [_ [q Hq]]. exists q. split; [done|].
  assert (Hqn : forall c q', tqs st !! c = Some q' -> timer_ontick_p t = true \/ isset (flags t) TIMER_DONE = true \/ c <> tq t -> id ∉ queue q').
  { intros c q' H Hor Hin. destruct (v_queue0 _ _ _ H Hin) as (t' & Ht' & ? & ? & ?). assert (t' = t) as -> by congruence.
    destruct Hor as [|[|]]; congruence. }
  assert (Hon' : forall c q', tqs st !! c = Some q' -> timer_ontick_p t = false \/ c <> tq t -> id ∉ ontick q').
  { intros c q' H Hor Hin. destruct (v_ontick0 _ _ _ H Hin) as (t' & Ht' & ? & ?). assert (t' = t) as -> by congruence.
    destruct Hor; congruence. }
  split; [intros; split; eauto|]. split; [|split].
  - intros Ho. destruct (Hon Ho) as (q' & Hq' & Hin). assert (q' = q) as -> by congruence. split; eauto.
  - intros Ho Hd. destruct (v_waiting0 _ _ Ht) as (q' & Hq' & Hin); [done..|]. assert (q' = q) as -> by congruence. split; eauto.
  - intros Ho Hd. split; eauto.
Qed.

Lemma timer_stop_run st cpu curtime id t : tqinv None st -> stop_ok st curtime id t ->
  exists st', timer_stop st cpu curtime id = Done (Z.max 0 (time t - curtime), st') /\ tqinv None st' /\ inserted st' id = false.
Proof.
  intros I (Ht & Hc & Hon). destruct (stop_lists st id t I Ht Hon) as (q & Hq & Hother & H1 & H2 & H3).
  destruct (v_timer _ _ I _ _ Ht) as [[Htm Hper Hpos] _].
  unfold timer_stop. rewrite Ht. cbn [deref rbind]. rewrite Hq. cbn [deref rbind].
  replace (if time t <=? curtime then 0 else u64 (time t - curtime)) with (Z.max 0 (time t - curtime))
    by (destruct (Z.leb_spec (time t) curtime); rewrite ?u64_small by lia; lia).
  assert (Hfin : forall (reconf : bool) st1 q1, tqinv None st1 -> tqs st1 = <[tq t := q1]> (tqs st) -> id ∉ queue q1 -> id ∉ ontick q1 ->
    exists st', (let* st := if reconf && (tq t =? cpu) then timerq_reconf st1 (tq t) curtime else Done st1 in
      Done (Z.max 0 (time t - curtime), st)) = Done (Z.max 0 (time t - curtime), st') /\ tqinv None st' /\ inserted st' id = false).
  { intros reconf st1 q1 I1 E Hn1 Hn2. assert (Hi : forall d, inserted (set_timerq st1 (tq t) (with_dev q1 d)) id = false).
    { intros d. apply inserted_false. simpl. rewrite E, insert_insert_eq.
      intros c q' [[<- <-]|[Hne H]]%lookup_insert_Some; [done|eauto]. }
    assert (Hq1 : tqs st1 !! tq t = Some q1) by (by rewrite E, lookup_insert_eq). destruct (reconf && (tq t =? cpu)).
    - destruct (timerq_reconf_inv None st1 (tq t) curtime q1 I1 Hq1) as (d & -> & I2 & _). cbn [rbind]. eauto.
    - exists st1. split; [done|]. split; [done|]. specialize (Hi (dev q1)).
      replace (with_dev q1 (dev q1)) with q1 in Hi by (by destruct q1).
      destruct st1. unfold set_timerq in Hi. simpl in *. by rewrite insert_id in Hi. }
  destruct (timer_ontick_p t) eqn:Ho; [|destruct (isset (flags t) TIMER_DONE) eqn:Hd; cbn [negb]].
  - destruct (H1 eq_refl). rewrite list_remove_Done by done. cbn [rbind]. eapply Hfin; [by apply drop_ontick_inv|done|done|].
    simpl. rewrite elem_of_list_rem. tauto.
  - destruct (H3 eq_refl eq_refl). eapply (Hfin false st q); [done| |done|done]. by rewrite insert_id.
  - destruct (H2 eq_refl eq_refl) as [Hin Hno]. rewrite list_remove_Done by done. cbn [rbind].
    eapply Hfin; [|done|simpl; rewrite elem_of_list_rem; tauto|done].
    eapply tqinv_done; [apply (set_timer_inv (Some id))| |].
    + by apply dequeue_inv.
    + auto.
    + by apply dequeue_not_inserted.
    + split; simpl; [done|done|]. by rewrite isset_lor_periodic.
    + simpl. by rewrite lookup_insert_eq.
    + simpl. by rewrite lookup_insert_eq.
    + right. simpl. apply isset_done.
Qed.

Lemma timer_intr_run st cpu curtime q : tqinv None st -> tqs st !! cpu = Some q -> 0 <= curtime < 2 ^ 63 ->
  let d := due (timers st) curtime (queue q) in
  exists st' q', timer_intr st cpu curtime = Done (ontick q ++ d, st') /\ tqinv None st' /\
    tqs st' !! cpu = Some q' /\ due (timers st') curtime (queue q') = [] /\ fired curtime d (timers st) (timers st') /\
    ontick q' = ontick q /\ bsp q' = bsp q /\ (d = [] -> dev q' = dev q) /\
    (d <> [] -> bsp q = false -> ontick q = [] -> dev q' = match queue q' with
      | [] => evtimer_stop (dev q)
      | first :: _ => evtimer_config (dev q) EV_ONESHOT (tm (timers st') first - curtime)
      end).
Proof.
  intros I Hq Hc d. unfold timer_intr. rewrite Hq. cbn [deref rbind].
  destruct (due_loop_run (S (length (queue q))) st cpu curtime q false (ontick q) I Hq Hc) as (st1 & q1 & -> & I1 & E1 & Eo & Ed & Eb & Edue & Hf).
  { pose proof (length_filter (fun id => tm (timers st) id <= curtime) (queue q)). unfold due. lia. }
  cbn [rbind orb]. fold d in Hf |- *. assert (Hq1 : tqs st1 !! cpu = Some q1) by (by rewrite E1, lookup_insert_eq).
  destruct (length d =? 0)%nat eqn:El; cbn [negb].
  - apply Nat.eqb_eq, nil_length_inv in El. exists st1, q1. split; [done|]. do 6 (split; [done|]). split; [done|]. by rewrite El.
  - destruct (timerq_reconf_inv None st1 cpu curtime q1 I1 Hq1) as (dv & -> & I2 & Hdv). cbn [rbind].
    eexists _, (with_dev q1 dv). split; [done|]. split; [done|]. split; [simpl; by rewrite lookup_insert_eq|].
    split; [done|]. split; [done|]. split; [done|]. split; [done|]. split; [by intros E; rewrite E in El|].
    intros _ Hb Ho. simpl. rewrite (Hdv ltac:(congruence) ltac:(congruence)), Ed.
    destruct (queue q1) as [|first l] eqn:Eq1; [done|]. f_equal.
    assert (Hfirst : first ∈ queue q1) by (rewrite Eq1; by left).
    destruct (v_queue _ _ I1 _ _ first Hq1 Hfirst) as (tf & Htf & _). destruct (v_timer _ _ I1 _ _ Htf) as [[Htm _ _] _].
    assert (Hnd : ~ (tm (timers st1) first <= curtime)).
    { intros Hle. rewrite <- Eq1 in Edue. assert (Hin : first ∈ due (timers st1) curtime (queue q1)) by (by apply list_elem_of_filter).
      rewrite Edue in Hin. by apply elem_of_nil in Hin. }
    assert (tm (timers st1) first = time tf) by (unfold tm; by rewrite Htf). rewrite u64_small by lia. done.
Qed.

(** ** All sequences of operations *)

Inductive tmstep : tsys -> tsys -> Prop :=
| S_start st cpu curtime id t fl st' : start_ok st cpu curtime id t fl ->
    timer_start st cpu curtime id t fl = Done st' -> tmstep st st'
| S_stop st cpu curtime id t rem st' : stop_ok st curtime id t ->
    timer_stop st cpu curtime id = Done (rem, st') -> tmstep st st'
| S_intr st cpu curtime called st' : 0 <= curtime < 2 ^ 63 ->
    timer_intr st cpu curtime = Done (called, st') -> tmstep st st'.

(** After [init_timer] on all processors. *)
Definition timer_boot (st : tsys) : Prop :=
  timers st = ∅ /\ forall cpu q, tqs st !! cpu = Some q -> queue q = [] /\ ontick q = [].

Lemma tqinv_boot st : timer_boot st -> tqinv None st.
Proof.
  intros [Et Hq]. split.
  - intros cpu q H. destruct (Hq _ _ H) as [-> _]. constructor.
  - intros cpu q H. destruct (Hq _ _ H) as [-> ->]. constructor.
  - intros cpu q id H Hin. destruct (Hq _ _ H) as [E _]. rewrite E in Hin. by apply elem_of_nil in Hin.
  - intros cpu q id H Hin. destruct (Hq _ _ H) as [_ E]. rewrite E in Hin. by apply elem_of_nil in Hin.
  - intros id t H. by rewrite Et, lookup_empty in H.
  - intros id t H. by rewrite Et, lookup_empty in H.
Qed.

Lemma tqinv_reach st0 st : timer_boot st0 -> rtc tmstep st0 st -> tqinv None st.
Proof.
  intros H0 Hr. apply (rtc_invariant tmstep (tqinv None) _ _ Hr (tqinv_boot _ H0)). intros a b I Hs.
  destruct Hs as [st1 cpu c id t fl st' Hok E|st1 cpu c id t rem st' Hok E|st1 cpu c called st' Hc E].
  - destruct (timer_start_run _ _ _ _ _ _ I Hok) as (s & E' & I' & _). congruence.
  - destruct (timer_stop_run _ cpu _ _ _ I Hok) as (s & E' & I' & _). congruence.
  - pose proof E as E0. unfold timer_intr in E0. apply rbind_Done in E0 as (q & Hq%deref_Done & _).
    destruct (timer_intr_run _ _ c q I Hq Hc) as (s & q' & E' & I' & _). congruence.
Qed.

(** The queue of a processor is the timers that wait there. *)
Definition waits (ts : gmap Z timer_t) (cpu id : Z) : Prop :=
  exists t, ts !! id = Some t /\ tq t = cpu /\ timer_ontick_p t = false /\ isset (flags t) TIMER_DONE = false.

Lemma queue_waits st cpu q id : tqinv None st -> tqs st !! cpu = Some q -> id ∈ queue q <-> waits (timers st) cpu id.
Proof.
  intros I Hq. destruct I. split; [intros Hin; apply (v_queue0 _ _ _ Hq Hin)|].
  intros (t & Ht & E & Ho & Hd). destruct (v_waiting0 _ _ Ht) as (q' & Hq' & Hin); [done..|]. congruence.
Qed.

Lemma fired_waits curtime d ts ts' cpu id : fired curtime d ts ts' ->
  waits ts' cpu id <-> waits ts cpu id /\ (id ∈ d -> exists t, ts !! id = Some t /\ isset (flags t) TIMER_PERIODIC = true).
Proof.
  intros Hf. unfold waits. rewrite (Hf id). destruct (decide (id ∈ d)) as [Hin|Hin]; [|naive_solver].
  split.
  - intros (t' & Ht' & E & Ho & Hd). apply fmap_Some in Ht' as (t & Ht & ->). unfold fire, timer_ontick_p in *.
    destruct (isset (flags t) TIMER_PERIODIC) eqn:Hp; simpl in *; [eauto 10|]. by rewrite isset_done in Hd.
  - intros [(t & Ht & E & Ho & Hd) Hp]. destruct (Hp Hin) as (t' & Ht' & Hp'). assert (t' = t) as -> by congruence.
    rewrite Ht. simpl. unfold fire. rewrite Hp'. eexists. split; [done|]. done.
Qed.

(** C23: Timers are called when they have run out.  In every state that starting
    and stopping timers and interrupts can lead to, the interrupt of a
    processor calls the timers of the tick list, and then exactly those timers
    of its queue whose time has come, earliest first, each once.  Timers that
    are not periodic are done then and out of the queue; periodic ones are due
    again one period later; the others are as they were.  No timer that is left
    in the queue has run out, and if one was called, the device of a processor
    without tick is programmed for the first one that is left. *)
Theorem timer_intr_fires st0 st cpu curtime q : timer_boot st0 -> rtc tmstep st0 st ->
  tqs st !! cpu = Some q -> 0 <= curtime < 2 ^ 63 ->
  let d := due (timers st) curtime (queue q) in
  exists st' q', timer_intr st cpu curtime = Done (ontick q ++ d, st') /\ tqs st' !! cpu = Some q' /\
    NoDup (ontick q ++ d) /\ StronglySorted (le_time (timers st)) d /\ fired curtime d (timers st) (timers st') /\
    (forall id, id ∈ queue q' <-> id ∈ queue q /\ (id ∈ d -> exists t, timers st !! id = Some t /\ isset (flags t) TIMER_PERIODIC = true)) /\
    (forall id, id ∈ queue q' -> curtime < tm (timers st') id) /\
    (d <> [] -> bsp q = false -> ontick q = [] -> dev q' = match queue q' with
      | [] => evtimer_stop (dev q)
      | first :: _ => evtimer_config (dev q) EV_ONESHOT (tm (timers st') first - curtime)
      end).
Proof.
  intros H0 Hr Hq Hc d. pose proof (tqinv_reach _ _ H0 Hr) as I.
  destruct (timer_intr_run st cpu curtime q I Hq Hc) as (st' & q' & E & I' & Hq' & Hdue & Hf & _ & _ & _ & Hdev).
  exists st', q'. split; [done|]. split; [done|]. split; [|split; [|split; [done|split; [|split; [|done]]]]].
  - pose proof (v_nodup _ _ I _ _ Hq) as (N1 & N2 & N3)%NoDup_app. apply NoDup_app. split; [done|].
    split; [|by apply NoDup_filter]. intros y Hy [_ Hy']%list_elem_of_filter. by apply (N2 y).
  - apply StronglySorted_filter, (v_sorted _ _ I _ _ Hq).
  - intros id. rewrite (queue_waits st' cpu q' id I' Hq'), (queue_waits st cpu q id I Hq). by apply (fired_waits curtime).
  - intros id Hin. apply Znot_ge_lt. intros Hge. assert (Hin' : id ∈ due (timers st') curtime (queue q')) by (apply list_elem_of_filter; split; [lia|done]).
    rewrite Hdue in Hin'. by apply elem_of_nil in Hin'.
Qed.

(** Starting and stopping timers does what it says.  In every reachable state
    no assertion of the lists fails; a timer that is started waits in the queue
    of the processor (or in its tick list) for the time it was given; a timer
    that is stopped is in no list of any processor afterwards, so that it will
    not be called, and the result is the time that was left. *)
Theorem timer_start_stop st0 st : timer_boot st0 -> rtc tmstep st0 st ->
  (forall cpu curtime id t fl, start_ok st cpu curtime id t fl ->
     exists st' q, timer_start st cpu curtime id t fl = Done st' /\ timers st' !! id = Some (MkTimer cpu fl (curtime + t) t) /\
       tqs st' !! cpu = Some q /\ (if isset fl TIMER_ONTICK then id ∈ ontick q else id ∈ queue q)) /\
  (forall cpu curtime id t, stop_ok st curtime id t ->
     exists st', timer_stop st cpu curtime id = Done (Z.max 0 (time t - curtime), st') /\
       forall c q, tqs st' !! c = Some q -> id ∉ queue q /\ id ∉ ontick q).
Proof.
  intros H0 Hr. pose proof (tqinv_reach _ _ H0 Hr) as I. split.
  - intros cpu c id t fl Hok. destruct (timer_start_run st cpu c id t fl I Hok) as (st' & E & _ & Et & q & Hq & Hin).
    exists st', q. split; [done|]. split; [by rewrite Et, lookup_insert_eq|]. done.
  - intros cpu c id t Hok. destruct (timer_stop_run st cpu c id t I Hok) as (st' & E & _ & Hi).
    exists st'. split; [done|]. by apply inserted_false.
Qed.

(** ** Examples *)

(** Processor 1 is not the boot processor; its device counts nanoseconds and
    can wait for a second at most. *)
Definition ex_dev : evtimer_t := MkEv 1000 1000000000 1000000000 None.
Definition ex_boot : tsys := MkTsys {[ 1 := MkTimerq ex_dev [] [] false ]} ∅.

Lemma ex_boot_ok : timer_boot ex_boot.
Proof. split; [done|]. intros cpu q H. unfold ex_boot in H. cbn [tqs] in H. apply lookup_singleton_Some in H as [_ <-]. done. Qed.

Definition ex_started : tsys := match timer_start ex_boot 1 0 7 2000000000 TIMER_ONESHOT with Done st => st | _ => ex_boot end.

Lemma ex_start_ok : start_ok ex_boot 1 0 7 2000000000 TIMER_ONESHOT.
Proof. split; [reflexivity|]. split; [eexists; reflexivity|]. split; [lia|]. split; [lia|]. split; [discriminate|reflexivity]. Qed.

Lemma ex_started_reach : rtc tmstep ex_boot ex_started.
Proof. apply rtc_once. apply (S_start _ 1 0 7 2000000000 TIMER_ONESHOT); [apply ex_start_ok|vm_compute; reflexivity]. Qed.

Lemma timer_intr_fires_witness : exists st' q q', timer_intr ex_started 1 2000000000 = Done ([7], st') /\
  tqs ex_started !! 1 = Some q /\ tqs st' !! 1 = Some q' /\ (forall id, id ∈ queue q' -> 2000000000 < tm (timers st') id).
Proof.
  destruct (tqs ex_started !! 1) as [q|] eqn:Hq; [|vm_compute in Hq; discriminate].
  destruct (timer_intr_fires ex_boot ex_started 1 2000000000 q ex_boot_ok ex_started_reach Hq) as (st' & q' & E & Hq' & _ & _ & _ & _ & Hlt & _).
  - lia.
  - exists st', q, q'. vm_compute in Hq. injection Hq as <-. split; [exact E|]. split; [reflexivity|]. split; [exact Hq'|exact Hlt].
Defined.

Lemma timer_start_stop_witness : exists st', timer_stop ex_started 1 500000000 7 = Done (1500000000, st') /\
  forall c q, tqs st' !! c = Some q -> 7 ∉ queue q /\ 7 ∉ ontick q.
Proof.
  destruct (timer_start_stop ex_boot ex_started ex_boot_ok ex_started_reach) as [_ H].
  refine (H 1 500000000 7 (MkTimer 1 0 2000000000 2000000000) _).
  split; [vm_compute; reflexivity|]. split; [lia|]. intros Hd. vm_compute in Hd. discriminate.
Defined.

(** The device of a processor without tick is programmed again only if a timer
    was called.  If its interrupt comes before the first timer has run out, as
    it does when the time is more than the device can count (or because the
    count is rounded down), the device stays as it is, which is off: a timer of
    two seconds is not called. *)
Definition oneshot_fired (st : tsys) : tsys :=
  MkTsys ((fun q => with_dev q (evtimer_stop (dev q))) <$> tqs st) (timers st).

Lemma long_timer_lost : exists q, tqs ex_started !! 1 = Some q /\ armed (dev q) = Some (EV_ONESHOT, 1000000000) /\
  timer_intr (oneshot_fired ex_started) 1 1000000000 = Done ([], oneshot_fired ex_started) /\
  exists q', tqs (oneshot_fired ex_started) !! 1 = Some q' /\ queue q' = [7] /\ armed (dev q') = None.
Proof.
  eexists. split; [vm_compute; reflexivity|]. split; [reflexivity|]. split; [vm_compute; reflexivity|].
  eexists. split; [vm_compute; reflexivity|]. split; reflexivity.
Qed.

(** The distance to a timer that has run out already wraps around: the device
    is programmed for as long as it can be. *)
Lemma overdue_timer_postponed : exists st q, timer_start ex_started 1 2000000001 8 5000000 TIMER_ONESHOT = Done st /\
  tqs st !! 1 = Some q /\ queue q = [7; 8] /\ armed (dev q) = Some (EV_ONESHOT, 1000000000).
Proof. eexists _, _. split; [vm_compute; reflexivity|]. split; [vm_compute; reflexivity|]. split; reflexivity. Qed.
