(* ===== verification/Uio.v ===== *)
(** * vfs/uio.c: scatter/gather I/O descriptors

    A [uio_t] is a cursor over an array of [iovec]s.  [iov] is the part of the
    array from [uio->iov] on; the element at the cursor is updated in place by
    [uiomove] as the C code does.  [addrs] lists the addresses a descriptor
    still covers, in order: it is the abstract state of the theorems. *)
From stdpp Require Import base tactics option list numbers gmap.
From Stdlib Require Import ZArith Lia Bool.
From S2P Require Import Prelude User.

Record iovec := Iovec { iov_base : Z; iov_len : Z }.

(** [enum uio_rw]; [copyinuio] stores -1 until the caller chooses. *)
Definition UIO_WR : Z := 0.
Definition UIO_RD : Z := 1.

(** Flags. *)
Definition UIO_OFF : Z := 1.
Definition UIO_KERN : Z := 2.
Definition UIO_USER : Z := 0.
Definition IOV_MAX : Z := 1024.
Definition SIZE_MAX : Z := 2 ^ 32 - 1.

Record uio_t := Uio {
  iov : list iovec;
  iovc : Z;
  off : Z;
  usize : Z;
  rw : Z;
  uflags : Z;
}.

(** [uio_init] of vfs/uio.h on a descriptor whose [iov], [iovc] and [size] are
    already set. *)
Definition uio_init (uio : uio_t) (o flags rw : Z) : res uio_t :=
  if o =? -1 then Done (Uio (iov uio) (iovc uio) 0 (usize uio) rw flags)
  else kassert 0 <=? o in
       Done (Uio (iov uio) (iovc uio) o (usize uio) rw (Z.lor flags UIO_OFF)).

Definition uio_simple (v : iovec) (o flags rw : Z) : res uio_t :=
  uio_init (Uio [v] 1 0 (iov_len v) rw flags) o flags rw.

(** Little-endian [uint32_t]s, as [struct iovec] lies in user memory. *)
Definition le32 (b0 b1 b2 b3 : Z) : Z :=
  Z.lor b0 (Z.lor (Z.shiftl b1 8) (Z.lor (Z.shiftl b2 16) (Z.shiftl b3 24))).

Fixpoint decode_iov (bs : list Z) : list iovec :=
  match bs with
  | a0 :: a1 :: a2 :: a3 :: l0 :: l1 :: l2 :: l3 :: bs =>
    Iovec (le32 a0 a1 a2 a3) (le32 l0 l1 l2 l3) :: decode_iov bs
  | _ => []
  end.

(** The loop of [copyinuio] that sums the lengths up, [None] on overflow. *)
Fixpoint iov_total (vs : list iovec) (size : Z) : option Z :=
  match vs with
  | [] => Some size
  | v :: vs =>
    if u32 (SIZE_MAX - size) <? iov_len v then None
    else iov_total vs (u32 (size + iov_len v))
  end.

(** [mem_ok]: whether [kmalloc] found memory for the descriptor. *)
Definition copyinuio (mem_ok : bool) (m : mem) (uiov iovc : Z) : Z * option uio_t :=
  let iov_size := u32 (8 * iovc) in
  if IOV_MAX <=? iovc then (- EINVAL, None)
  else if negb mem_ok then (- ENOMEM, None)
  else match copyin m uiov iov_size with
       | (err, None) => (err, None)
       | (_, Some bs) =>
         let vs := decode_iov bs in
         match iov_total vs 0 with
         | None => (- EINVAL, None)
         | Some size => (0, Some (Uio vs iovc 0 size (-1) UIO_USER))
         end
       end.

(** Copy [num] bytes between the kernel buffer, from position [pos] on, and
    [base]: the [memcpy]/[copyin]/[copyout] of [uiomove].  A kernel pointer
    that is not mapped is a kernel fault. *)
Definition uio_copy `{Cpu} (m : mem) (buf : list Z) (pos : nat) (base num : Z) (uio : uio_t)
    : res (Z * mem * list Z) :=
  let kern := negb (Z.land (uflags uio) UIO_KERN =? 0) in
  let n := Z.to_nat num in
  if rw uio =? UIO_WR then
    if kern then
      let* bs := deref (load m base n) in
      Done (0, m, take pos buf ++ bs ++ drop (pos + n) buf)
    else match copyin m base num with
         | (err, Some bs) => Done (err, m, take pos buf ++ bs ++ drop (pos + n) buf)
         | (err, None) => Done (err, m, buf)
         end
  else
    let bs := take n (drop pos buf) in
    if kern then
      let (m', ok) := store m base bs in
      if ok then Done (0, m', buf) else Fault
    else let* '(err, m') := copyout m base bs in Done (err, m', buf).

Definition uio_advance (uio : uio_t) (v : iovec) (vs : list iovec) (num : Z) : uio_t :=
  Uio (Iovec (u32 (iov_base v + num)) (iov_len v - num) :: vs) (iovc uio) (off uio + num)
    (usize uio - num) (rw uio) (uflags uio).

(** The loop of [uiomove]; [None] for [Done] of the bytes moved means the loop
    ended, [Some err] that a copy failed. *)
Fixpoint uiomove_loop `{Cpu} (fuel : nat) (m : mem) (buf : list Z) (pos : nat) (size : Z) (uio : uio_t)
    : res (option Z * uio_t * mem * list Z) :=
  match fuel with
  | O => Stuck
  | S fuel =>
    if (size =? 0) || (usize uio =? 0) then Done (None, uio, m, buf)
    else match iov uio with
         | [] => Fault
         | v :: vs =>
           if iov_len v =? 0 then
             uiomove_loop fuel m buf pos size
               (Uio vs (u32 (iovc uio - 1)) (off uio) (usize uio) (rw uio) (uflags uio))
           else
             let num := Z.min size (iov_len v) in
             let* '(err, m', buf') := uio_copy m buf pos (iov_base v) num uio in
             if negb (err =? 0) then Done (Some err, uio, m', buf')
             else uiomove_loop fuel m' buf' (pos + Z.to_nat num) (size - num)
                    (uio_advance uio v vs num)
         end
  end.

Definition uiomove `{Cpu} (m : mem) (buf : list Z) (size : Z) (uio : uio_t)
    : res (Z * uio_t * mem * list Z) :=
  let before := usize uio in
  kassert 0 <=? off uio in
  let* '(err, uio', m', buf') := uiomove_loop (2 * length (iov uio) + 2) m buf 0 size uio in
  Done (match err with Some e => e | None => before - usize uio' end, uio', m', buf').

Fixpoint uiomemset_loop `{Cpu} (fuel : nat) (m : mem) (uio : uio_t) (size value : Z)
    : res (Z * uio_t * mem) :=
  match fuel with
  | O => Stuck
  | S fuel =>
    if size =? 0 then Done (0, uio, m)
    else match iov uio with
         | [] => Fault
         | v :: vs =>
           if iov_len v =? 0 then
             kassert negb (iovc uio =? 0) in
             uiomemset_loop fuel m
               (Uio vs (u32 (iovc uio - 1)) (off uio) (usize uio) (rw uio) (uflags uio)) size value
           else
             let len := Z.min (iov_len v) size in
             if negb (Z.land (uflags uio) UIO_KERN =? 0) then
               let (m', ok) := store m (iov_base v) (replicate (Z.to_nat len) (u8 value)) in
               if ok then uiomemset_loop fuel m' (uio_advance uio v vs len) (size - len) value
               else Fault
             else
               let* '(err, m') := umemset m (iov_base v) value len in
               if negb (err =? 0) then Done (err, uio, m')
               else uiomemset_loop fuel m' (uio_advance uio v vs len) (size - len) value
         end
  end.

Definition uiomemset `{Cpu} (m : mem) (uio : uio_t) (size value : Z) : res (Z * uio_t * mem) :=
  kassert 0 <=? off uio in
  kassert rw uio =? UIO_RD in
  kassert size <=? usize uio in
  uiomemset_loop (2 * length (iov uio) + 2) m uio size value.


Definition DIRENT_SZ : Z := 19.

(** [dent] is the encoding of the [struct kdirent], [name] the characters of
    the name, which is followed by its terminator. *)
Definition uiodirent `{Cpu} (m : mem) (dent : list Z) (d_reclen : Z) (name : list Z) (uio : uio_t)
    : res (Z * uio_t * mem) :=
  let* '(r1, uio1, m1, _) := uiomove m dent DIRENT_SZ uio in
  if r1 <? 0 then Done (r1, uio1, m1)
  else
    let* '(r2, uio2, m2, _) := uiomove m1 (name ++ [0]) (Z.of_nat (length name) + 1) uio1 in
    if r2 <? 0 then Done (r2, uio2, m2)
    else kassert r1 + r2 <=? d_reclen in
         uiomemset m2 uio2 (d_reclen - (r1 + r2)) 0.

(** ** Specification *)

(** The addresses an array of [iovec]s covers, in transfer order. *)
Definition addrs (vs : list iovec) : list Z :=
  concat (map (fun v => seqZ (iov_base v) (iov_len v)) vs).

Definition iovec_ok (v : iovec) : Prop :=
  0 <= iov_base v /\ 0 <= iov_len v /\ iov_base v + iov_len v < 2 ^ 32.

Record wf (uio : uio_t) : Prop := {
  wf_iov : Forall iovec_ok (iov uio);
  wf_usize : usize uio = Z.of_nat (length (addrs (iov uio)));
  wf_off : 0 <= off uio;
}.

(** May a transfer in direction [rw] touch address [a]? *)
Definition accessible (rw : Z) (m : mem) (a : Z) : Prop :=
  VM_IS_USER a = true /\
  exists c, m !! a = Some c /\ (rw <> UIO_WR -> writable c = true).

Fixpoint scatter (m : mem) (l : list Z) (bs : list Z) : mem :=
  match l, bs with
  | a :: l, b :: bs => scatter (<[a := Cell b true]> m) l bs
  | _, _ => m
  end.

Definition gather (m : mem) (l : list Z) : list Z :=
  map (fun a => default 0 (byte <$> m !! a)) l.

(** The reference: move the bytes at the addresses [l], one after the other,
    to or from position [pos] of the kernel buffer. *)
Definition ref_move (rw : Z) (m : mem) (buf : list Z) (pos : nat) (l : list Z) : mem * list Z :=
  if rw =? UIO_WR
  then (m, take pos buf ++ gather m l ++ drop (pos + length l) buf)
  else (scatter m l (take (length l) (drop pos buf)), buf).

(** ** Lemmas *)

Lemma addrs_cons v vs : addrs (v :: vs) = seqZ (iov_base v) (iov_len v) ++ addrs vs.
Proof. done. Qed.

Lemma store_scatter m a bs m' : store m a bs = (m', true) ->
  m' = scatter m (seqZ a (Z.of_nat (length bs))) bs.
Proof.
  revert m a. induction bs as [|b bs IH]; intros m a; simpl; [by intros [= <-]|].
  destruct (m !! a) as [[c [|]]|] eqn:E; try by intros [= <-].
  intros Hs. rewrite seqZ_cons by lia. simpl. rewrite (IH _ _ Hs). f_equal. f_equal; lia.
Qed.

Lemma store_writable m a bs m' x : store m a bs = (m', true) ->
  a <= x < a + Z.of_nat (length bs) -> exists c, m !! x = Some c /\ writable c = true.
Proof.
  revert m a. induction bs as [|b bs IH]; intros m a; simpl; [lia|].
  destruct (m !! a) as [[c [|]]|] eqn:E; try by intros [= <-].
  intros Hs Hx. destruct (decide (x = a)) as [->|Hn]; [eauto|].
  destruct (IH _ _ Hs) as (c' & Hc & Hw); [lia|]. rewrite lookup_insert_ne in Hc by done. eauto.
Qed.

Lemma store_fail m a bs : (store m a bs).2 = false ->
  exists x, a <= x < a + Z.of_nat (length bs) /\ ~ exists c, m !! x = Some c /\ writable c = true.
Proof.
  revert m a. induction bs as [|b bs IH]; intros m a; simpl; [done|].
  destruct (m !! a) as [[c [|]]|] eqn:E; simpl; intros Hs.
  - destruct (IH _ _ Hs) as (x & Hx & Hn). exists x. split; [lia|].
    intros (c' & Hc & Hw). apply Hn. rewrite lookup_insert_ne by lia. eauto.
  - exists a. split; [lia|]. intros (c' & Hc & Hw). rewrite Hc in E. by injection E as ->.
  - exists a. split; [lia|]. intros (c' & Hc & Hw). congruence.
Qed.

Lemma load_gather m a n bs : load m a n = Some bs -> bs = gather m (seqZ a (Z.of_nat n)).
Proof.
  revert a bs. induction n as [|n IH]; intros a bs; cbn [load]; [by intros [= <-]|].
  destruct (m !! a) as [c|] eqn:E; [|done]. destruct (load m (a + 1) n) eqn:El; [|done].
  intros [= <-]. rewrite seqZ_cons by lia. simpl. rewrite E. simpl. f_equal.
  rewrite (IH _ _ El). f_equal. f_equal; lia.
Qed.

Lemma load_none m a n : load m a n = None -> exists x, a <= x < a + Z.of_nat n /\ m !! x = None.
Proof.
  revert a. induction n as [|n IH]; intros a; cbn [load]; [done|].
  destruct (m !! a) as [c|] eqn:E; [|exists a; split; [lia|done]].
  destruct (load m (a + 1) n) eqn:El; [done|]. intros _.
  destruct (IH _ El) as (x & Hx & Hn). exists x. split; [lia|done].
Qed.

Lemma scatter_app m l1 l2 bs1 bs2 : length l1 = length bs1 ->
  scatter m (l1 ++ l2) (bs1 ++ bs2) = scatter (scatter m l1 bs1) l2 bs2.
Proof.
  revert m bs1. induction l1 as [|a l1 IH]; intros m [|b bs1]; simpl; try lia; [done|].
  intros H. apply IH. lia.
Qed.

Lemma scatter_writable m l bs a c : m !! a = Some c -> writable c = true ->
  exists c', scatter m l bs !! a = Some c' /\ writable c' = true.
Proof.
  revert m bs c. induction l as [|x l IH]; intros m [|b bs] c Hc Hw; simpl; eauto.
  destruct (decide (x = a)) as [->|Hn].
  - eapply IH; [by rewrite lookup_insert_eq|done].
  - eapply IH; [by rewrite lookup_insert_ne|done].
Qed.

Lemma length_gather m l : length (gather m l) = length l.
Proof. apply length_map. Qed.

Lemma gather_app m l1 l2 : gather m (l1 ++ l2) = gather m l1 ++ gather m l2.
Proof. apply map_app. Qed.

Lemma ref_move_app rw m buf pos l1 l2 :
  (pos + length l1 + length l2 <= length buf)%nat ->
  ref_move rw m buf pos (l1 ++ l2) =
  let '(m1, buf1) := ref_move rw m buf pos l1 in ref_move rw m1 buf1 (pos + length l1) l2.
Proof.
  intros Hlen. unfold ref_move. destruct (rw =? UIO_WR).
  - f_equal. rewrite gather_app, <- !app_assoc, !(app_assoc (take pos buf) (gather m l1)).
    assert (Hl : (pos + length l1)%nat = length (take pos buf ++ gather m l1))
      by (rewrite length_app, length_take, length_gather; lia).
    rewrite (take_app_length' (take pos buf ++ gather m l1)) by done.
    rewrite <- (drop_drop _ (length l2) (pos + length l1)), drop_app_length' by done.
    rewrite drop_drop, length_app, Nat.add_assoc, <- app_assoc. done.
  - f_equal. rewrite length_app, <- take_take_drop, drop_drop.
    apply scatter_app. rewrite length_take, length_drop. lia.
Qed.

Lemma length_ref_move rw m buf pos l : (pos + length l <= length buf)%nat ->
  length (ref_move rw m buf pos l).2 = length buf.
Proof.
  intros H. unfold ref_move. destruct (rw =? UIO_WR); [|done]. simpl.
  rewrite !length_app, length_take, length_drop, length_gather. lia.
Qed.

Lemma accessible_ref_move rw m buf pos l a :
  accessible rw m a -> accessible rw (ref_move rw m buf pos l).1 a.
Proof.
  intros [Hu (c & Hc & Hw)]. split; [done|]. unfold ref_move.
  destruct (Z.eqb_spec rw UIO_WR); simpl; [by exists c|].
  destruct (scatter_writable m l (take (length l) (drop pos buf)) a c) as (c' & ? & ?); eauto.
Qed.

(** A chunk that crosses the end of user space has an address outside it. *)
Lemma region_not_user base num : 0 <= base -> 0 < num -> base + num < 2 ^ 32 ->
  VM_REGION_IS_USER base num = false ->
  exists x, base <= x < base + num /\ VM_IS_USER x = false.
Proof.
  intros Hb Hn Hs Hr. destruct (VM_IS_USER base) eqn:Eb; [|exists base; split; [lia|done]].
  exists (base + num - 1). split; [lia|]. apply not_true_iff_false. intros Hu.
  apply not_true_iff_false in Hr. apply Hr. apply region_user_spec; [lia..|].
  unfold VM_IS_USER, USER_VM_START, USER_VM_END in *. bool_props. lia.
Qed.

Definition user_uio (uio : uio_t) : Prop := Z.land (uflags uio) UIO_KERN = 0.

(** One chunk: it is moved byte for byte, or -EFAULT is returned and one of its
    addresses may not be accessed. *)
Lemma uio_copy_user `{Cpu} m buf pos base num uio :
  kwp_enabled = true -> user_uio uio -> 0 <= base -> 0 < num -> base + num < 2 ^ 32 ->
  (pos + Z.to_nat num <= length buf)%nat ->
  (exists m' buf', uio_copy m buf pos base num uio = Done (0, m', buf') /\
     ref_move (rw uio) m buf pos (seqZ base num) = (m', buf') /\
     forall a, base <= a < base + num -> accessible (rw uio) m a)
  \/ (exists m' buf' a, uio_copy m buf pos base num uio = Done (- EFAULT, m', buf') /\
       base <= a < base + num /\ ~ accessible (rw uio) m a).
Proof.
  intros Hkwp Hk Hb Hn Hs Hlen. unfold uio_copy. rewrite Hk. cbn [negb Z.eqb].
  assert (Hnum : Z.of_nat (Z.to_nat num) = num) by lia.
  destruct (VM_REGION_IS_USER base num) eqn:Er.
  2: { right. destruct (region_not_user base num) as (x & Hx & Hu); [done..|].
       destruct (Z.eqb_spec (rw uio) UIO_WR) as [Erw|Erw].
       - unfold copyin, user_io_check. rewrite Er. simpl. do 3 eexists. split; [done|].
         split; [exact Hx|]. intros [Hux _]. congruence.
       - unfold copyout, user_io_check. rewrite length_take, length_drop, Nat.min_l by lia.
         rewrite Hnum, Er. simpl. do 3 eexists. split; [done|].
         split; [exact Hx|]. intros [Hux _]. congruence. }
  assert (Hall : forall a, base <= a < base + num -> VM_IS_USER a = true).
  { apply region_user_spec in Er; [|lia..]. intros a Ha. unfold VM_IS_USER.
    apply andb_true_iff. rewrite !Z.leb_le. lia. }
  unfold ref_move. rewrite length_seqZ.
  destruct (Z.eqb_spec (rw uio) UIO_WR) as [Erw|Erw].
  - unfold copyin, user_io_check. rewrite Er. simpl.
    destruct (load m base (Z.to_nat num)) as [bs|] eqn:El; [left|right].
    + do 2 eexists. split; [done|]. pose proof (load_gather _ _ _ _ El) as ->.
      rewrite Hnum. split; [done|]. intros a Ha. split; [by apply Hall|].
      pose proof (load_lookup _ _ _ _ (Z.to_nat (a - base)) El ltac:(lia)) as Hl.
      replace (base + Z.of_nat (Z.to_nat (a - base))) with a in Hl by lia.
      destruct (m !! a) as [c|] eqn:Ea; [by exists c|].
      apply lookup_ge_None in Hl. rewrite length_gather, length_seqZ in Hl. lia.
    + destruct (load_none _ _ _ El) as (x & Hx & Hxn). do 3 eexists. split; [done|].
      split; [rewrite Hnum in Hx; exact Hx|]. intros (_ & c & Hc & _). congruence.
  - unfold copyout, user_io_check. rewrite length_take, length_drop, Nat.min_l by lia.
    rewrite Hnum, Er. simpl. rewrite Hkwp.
    set (bs := take (Z.to_nat num) (drop pos buf)).
    assert (Hbs : Z.of_nat (length bs) = num) by (subst bs; rewrite length_take, length_drop; lia).
    destruct (store m base bs) as [m' [|]] eqn:Est; simpl in *; [left|right].
    + do 2 eexists. split; [done|]. rewrite (store_scatter _ _ _ _ Est), Hbs. split; [done|].
      intros a Ha. split; [by apply Hall|]. destruct (store_writable _ _ _ _ a Est) as (c & Hc & Hw); [lia|].
      by exists c.
    + destruct (store_fail m base bs) as (x & Hx & Hnw); [by rewrite Est|].
      do 3 eexists. split; [done|]. split; [rewrite Hbs in Hx; exact Hx|].
      intros (_ & c & Hc & Hw). apply Hnw. eauto.
Qed.

(** Iterations that the loop needs: two per [iovec] and one to stop, one less
    when the element at the cursor is used up. *)
Definition need (vs : list iovec) : nat :=
  match vs with
  | [] => 1
  | v :: vs => (if iov_len v =? 0 then 1 else 2) + S (2 * length vs)
  end.

Lemma need_le vs : (need vs <= 2 * length vs + 1)%nat.
Proof. destruct vs as [|v vs]; simpl; [lia|]. destruct (iov_len v =? 0); lia. Qed.

(** The result of a completed transfer of [n] bytes. *)
Definition moved (uio uio' : uio_t) (n : Z) : Prop :=
  wf uio' /\ addrs (iov uio') = drop (Z.to_nat n) (addrs (iov uio)) /\
  usize uio' = usize uio - n /\ off uio' = off uio + n /\
  rw uio' = rw uio /\ uflags uio' = uflags uio.

Lemma moved_refl uio : wf uio -> moved uio uio 0.
Proof. intros. split_and!; (done || lia). Qed.

Lemma moved_trans uio1 uio2 uio3 n1 n2 : 0 <= n1 -> 0 <= n2 ->
  moved uio1 uio2 n1 -> moved uio2 uio3 n2 -> moved uio1 uio3 (n1 + n2).
Proof.
  intros H1 H2 (W1 & A1 & S1 & O1 & R1 & F1) (W2 & A2 & S2 & O2 & R2 & F2).
  split_and!; [done| |lia|lia|congruence|congruence].
  rewrite A2, A1, drop_drop. f_equal. lia.
Qed.

Lemma addrs_length_cons v vs : iovec_ok v ->
  Z.of_nat (length (addrs (v :: vs))) = iov_len v + Z.of_nat (length (addrs vs)).
Proof. intros (_ & Hl & _). rewrite addrs_cons, length_app, length_seqZ. lia. Qed.

(** Skipping an [iovec] that is used up. *)
Lemma skip_moved uio v vs c : wf uio -> iov uio = v :: vs -> iov_len v = 0 ->
  moved uio (Uio vs c (off uio) (usize uio) (rw uio) (uflags uio)) 0.
Proof.
  intros [Wi Ws Wo] Hv Hz. assert (Ha : addrs vs = addrs (iov uio)).
  { rewrite Hv, addrs_cons, Hz. done. }
  rewrite Hv in Wi. inversion Wi; subst.
  split_and!; simpl; [|by rewrite Ha|lia|lia|done|done]. constructor; simpl; [done|by rewrite Ha|done].
Qed.

(** Using [num] bytes of the [iovec] at the cursor. *)
Lemma advance_moved uio v vs num : wf uio -> iov uio = v :: vs -> 0 < num <= iov_len v ->
  moved uio (uio_advance uio v vs num) num.
Proof.
  intros [Wi Ws Wo] Hv Hn. rewrite Hv in Wi. inversion Wi as [|? ? (Hb & Hl & Hs) Wvs]; subst.
  assert (Ha : addrs (iov (uio_advance uio v vs num)) = drop (Z.to_nat num) (addrs (iov uio))).
  { rewrite Hv. unfold uio_advance. cbn [iov]. rewrite !addrs_cons. cbn [iov_base iov_len].
    rewrite u32_small by lia. rewrite drop_app_le by (rewrite length_seqZ; lia). f_equal.
    replace (iov_len v) with (num + (iov_len v - num)) at 2 by lia.
    rewrite seqZ_app by lia. rewrite drop_app_length'; [done|]. rewrite length_seqZ. done. }
  split_and!; simpl; [|done|done|done|done|done].
  constructor; simpl.
  - constructor; [|done]. split_and!; simpl; rewrite ?u32_small; lia.
  - change (_ :: vs) with (iov (uio_advance uio v vs num)). rewrite Ha, length_drop.
    rewrite Ws, Hv, addrs_cons, length_app, length_seqZ. lia.
  - lia.
Qed.

Lemma uiomove_loop_user `{Cpu} fuel m buf pos size uio :
  kwp_enabled = true -> user_uio uio -> wf uio -> 0 <= size ->
  (pos + Z.to_nat size <= length buf)%nat ->
  ((if (size =? 0)%Z then 1 else need (iov uio)) <= fuel)%nat ->
  let n := Z.min size (usize uio) in
  let l := take (Z.to_nat n) (addrs (iov uio)) in
  (exists uio' m' buf', uiomove_loop fuel m buf pos size uio = Done (None, uio', m', buf') /\
     ref_move (rw uio) m buf pos l = (m', buf') /\ moved uio uio' n)
  \/ (exists uio' m' buf' a,
       uiomove_loop fuel m buf pos size uio = Done (Some (- EFAULT), uio', m', buf') /\
       a ∈ l /\ ~ accessible (rw uio) m a).
Proof.
  intros Hkwp. revert m buf pos size uio.
  induction fuel as [|fuel IH]; intros m buf pos size uio Hk Hw Hsz Hlen Hf n l.
  { destruct (size =? 0), (iov uio); simpl in Hf; lia. }
  cbn [uiomove_loop]. pose proof (wf_usize _ Hw) as Hus.
  destruct (Z.eqb_spec size 0) as [Es|Es]; [|destruct (Z.eqb_spec (usize uio) 0) as [Eu|Eu]]; cbn [orb].
  1, 2: left; do 3 eexists; split; [done|];
    assert (Hn : n = 0) by lia; subst l; rewrite Hn; split; [|by apply moved_refl];
    unfold ref_move; simpl; rewrite Nat.add_0_r, take_drop; by destruct (_ =? _).
  destruct (iov uio) as [|v vs] eqn:Hv; [simpl in Hus; lia|].
  pose proof (wf_iov _ Hw) as Hok. rewrite Hv in Hok. inversion Hok as [|? ? (Hb & Hl & Hs) _]; subst.
  simpl in Hf. destruct (Z.eqb_spec (iov_len v) 0) as [Ez|Ez].
  - set (uio1 := Uio vs _ _ _ _ _).
    assert (Hm1 : moved uio uio1 0) by (by eapply skip_moved).
    destruct Hm1 as (W1 & A1 & S1 & O1 & R1 & F1). simpl in A1. rewrite Hv, drop_0 in A1.
    assert ((if (size =? 0)%Z then 1 else need vs) <= fuel)%nat
      by (pose proof (need_le vs); destruct (size =? 0); lia).
    destruct (IH m buf pos size uio1) as [(uio' & m' & buf' & Hrun & Href & Hmv)|Herr]; try done;
      cbv zeta in *; simpl in *; rewrite A1 in *.
    + left. exists uio', m', buf'. split_and!; [done|done|].
      replace n with (0 + n) by lia. eapply moved_trans; [lia|lia|by eapply skip_moved|done].
    + right. done.
  - set (num := Z.min size (iov_len v)).
    assert (Hnum : 0 < num) by lia.
    assert (Hnn : num <= n).
    { subst n. rewrite Hus, addrs_length_cons by done. lia. }
    assert (Hl1 : l = seqZ (iov_base v) num ++ take (Z.to_nat (n - num)) (drop (Z.to_nat num) (addrs (v :: vs)))).
    { subst l. replace (Z.to_nat n) with (Z.to_nat num + Z.to_nat (n - num))%nat by lia.
      rewrite <- take_take_drop. f_equal. rewrite addrs_cons.
      rewrite take_app_le by (rewrite length_seqZ; lia).
      replace (iov_len v) with (num + (iov_len v - num)) by lia. rewrite seqZ_app by lia.
      rewrite take_app_length'; [done|]. by rewrite length_seqZ. }
    assert (Hrest : (pos + Z.to_nat num + Z.to_nat (size - num) <= length buf)%nat) by lia.
    destruct (uio_copy_user m buf pos (iov_base v) num uio Hkwp Hk Hb Hnum)
      as [(m1 & buf1 & Hc & Href & Hacc)|(m1 & buf1 & a & Hc & Ha & Hna)]; [lia|lia| |].
    2: { right. rewrite Hc. simpl. do 4 eexists. split; [done|]. split; [|done].
         rewrite Hl1. apply elem_of_app. left. apply elem_of_seqZ. lia. }
    rewrite Hc. cbn [rbind negb Z.eqb].
    pose proof (advance_moved uio v vs num Hw Hv) as Hmv1. destruct Hmv1 as (W1 & A1 & S1 & O1 & R1 & F1); [lia|].
    pose proof (length_ref_move (rw uio) m buf pos (seqZ (iov_base v) num)) as Hbl.
    rewrite Href, length_seqZ in Hbl. simpl in Hbl.
    destruct (IH m1 buf1 (pos + Z.to_nat num)%nat (size - num) (uio_advance uio v vs num))
      as [(uio' & m' & buf' & Hrun & Href' & Hmv)|(uio' & m' & buf' & a & Hrun & Ha & Hna)].
    all: cbv zeta in *; try (exact F1 || exact W1 || lia).
    + exact Hk.
    + destruct (Z.eqb_spec (size - num) 0); [lia|]. simpl.
      destruct (Z.eqb_spec (iov_len v - num) 0); lia.
    + left. do 3 eexists. split; [exact Hrun|].
      replace (Z.min _ _) with (n - num) in Hmv, Href' by (simpl; lia).
      rewrite A1, Hv in Href'. split.
      * rewrite Hl1, ref_move_app by (rewrite length_seqZ, length_take; lia).
        rewrite Href, length_seqZ. exact Href'.
      * replace n with (num + (n - num)) by lia.
        eapply moved_trans; [lia|lia|apply advance_moved; (done || lia)|exact Hmv].
    + right. replace (Z.min _ _) with (n - num) in Ha by (simpl; lia). rewrite A1, Hv in Ha.
      do 4 eexists. split; [exact Hrun|]. split; [rewrite Hl1; apply elem_of_app; by right|].
      intros Hac. apply Hna. apply (accessible_ref_move _ _ buf pos (seqZ (iov_base v) num)) in Hac.
      by rewrite Href in Hac.
Qed.

Lemma uiomove_spec `{Cpu} m buf size uio :
  kwp_enabled = true -> user_uio uio -> wf uio -> 0 <= size <= Z.of_nat (length buf) ->
  let n := Z.min size (usize uio) in
  let l := take (Z.to_nat n) (addrs (iov uio)) in
  exists r uio' m' buf', uiomove m buf size uio = Done (r, uio', m', buf') /\
    ((r = n /\ ref_move (rw uio) m buf 0 l = (m', buf') /\ moved uio uio' n)
     \/ (r = - EFAULT /\ exists a, a ∈ l /\ ~ accessible (rw uio) m a)).
Proof.
  intros Hkwp Hk Hw Hsz n l. unfold uiomove. pose proof (wf_off _ Hw).
  destruct (Z.leb_spec 0 (off uio)); [|lia]. pose proof (need_le (iov uio)).
  destruct (uiomove_loop_user (2 * length (iov uio) + 2) m buf 0 size uio)
    as [(uio' & m' & buf' & -> & Href & Hmv)|(uio' & m' & buf' & a & -> & Ha & Hna)];
    try done; try lia.
  - destruct (size =? 0); lia.
  - cbn [rbind]. do 4 eexists. split; [done|]. left. split; [|done].
    destruct Hmv as (_ & _ & -> & _). lia.
  - cbn [rbind]. do 4 eexists. split; [done|]. right. eauto.
Qed.

Lemma accessible_scatter m l bs a : accessible UIO_RD m a -> accessible UIO_RD (scatter m l bs) a.
Proof.
  intros [Hu (c & Hc & Hw)]. split; [done|].
  destruct (scatter_writable m l bs a c) as (c' & ? & ?); [done|by apply Hw|]. by exists c'.
Qed.

(** The two directions: to the user and from the user. *)
Lemma uiomove_rd `{Cpu} m buf size uio :
  kwp_enabled = true -> user_uio uio -> wf uio -> rw uio = UIO_RD -> 0 <= size <= usize uio ->
  length buf = Z.to_nat size ->
  let l := take (Z.to_nat size) (addrs (iov uio)) in
  exists r uio' m' buf', uiomove m buf size uio = Done (r, uio', m', buf') /\
    ((r = size /\ m' = scatter m l buf /\ moved uio uio' size)
     \/ (r = - EFAULT /\ exists a, a ∈ l /\ ~ accessible UIO_RD m a)).
Proof.
  intros Hk Hu Hw Hrw Hs Hb l.
  destruct (uiomove_spec m buf size uio) as (r & uio' & m' & buf' & Hrun & Hc); try done; [lia|].
  rewrite Z.min_l in Hc by lia. fold l in Hc. rewrite Hrw in Hc.
  assert (length l = length buf) as Hl.
  { unfold l. rewrite length_take. pose proof (wf_usize _ Hw). lia. }
  exists r, uio', m', buf'. split; [done|]. destruct Hc as [(Hr & Href & Hmv)|Hc]; [|by right].
  left. split_and!; [done| |done]. unfold ref_move in Href. simpl in Href.
  injection Href as <- _. by rewrite drop_0, take_ge by lia.
Qed.

Lemma uiomove_wr `{Cpu} m buf size uio :
  kwp_enabled = true -> user_uio uio -> wf uio -> rw uio = UIO_WR -> length buf = Z.to_nat size ->
  0 <= size ->
  let n := Z.min size (usize uio) in
  let l := take (Z.to_nat n) (addrs (iov uio)) in
  exists r uio' m' buf', uiomove m buf size uio = Done (r, uio', m', buf') /\
    ((r = n /\ m' = m /\ length buf' = length buf /\ take (Z.to_nat n) buf' = gather m l /\
      moved uio uio' n)
     \/ (r = - EFAULT /\ exists a, a ∈ l /\ ~ accessible UIO_WR m a)).
Proof.
  intros Hk Hu Hw Hrw Hb Hs n l.
  destruct (uiomove_spec m buf size uio) as (r & uio' & m' & buf' & Hrun & Hc); try done; [lia|].
  fold n in Hc. fold l in Hc. rewrite Hrw in Hc. pose proof (wf_usize _ Hw).
  assert (length l = Z.to_nat n) as Hl by (unfold l; rewrite length_take; lia).
  exists r, uio', m', buf'. split; [done|]. destruct Hc as [(Hr & Href & Hmv)|Hc]; [|by right].
  left. unfold ref_move in Href. simpl in Href. injection Href as <- <-.
  split_and!; try done.
  - rewrite length_app, length_gather, length_drop. lia.
  - rewrite take_app_length' by (by rewrite length_gather). done.
Qed.

(** ** Properties *)

(** C25: [uiomove] on a user descriptor always returns.  Either it moves
    [min(size, uio->size)] bytes exactly as the byte by byte reference does and
    advances the descriptor by that many addresses, or it returns -EFAULT and
    one of the addresses it was to touch is outside user space, not mapped, or
    read only in a transfer to the user. *)
Theorem uiomove_user `{Cpu} m buf size uio :
  kwp_enabled = true -> user_uio uio -> wf uio -> 0 <= size <= Z.of_nat (length buf) ->
  let n := Z.min size (usize uio) in
  let l := take (Z.to_nat n) (addrs (iov uio)) in
  exists r uio' m' buf', uiomove m buf size uio = Done (r, uio', m', buf') /\
    ((r = n /\ ref_move (rw uio) m buf 0 l = (m', buf') /\ moved uio uio' n)
     \/ (r = - EFAULT /\ exists a, a ∈ l /\ ~ accessible (rw uio) m a)).
Proof. intros. by apply uiomove_spec. Qed.

Definition sample_uio : uio_t := Uio [Iovec 0x2000 1; Iovec 0x2001 1; Iovec 0x3000 0] 3 0 2 UIO_RD UIO_USER.

Lemma uiomove_user_witness :
  exists uio' m', uiomove sample_mem [1; 2; 3] 3 sample_uio = Done (2, uio', m', [1; 2; 3]).
Proof.
  destruct (uiomove_user sample_mem [1; 2; 3] 3 sample_uio) as (r & uio' & m' & buf' & Hrun & _).
  - reflexivity.
  - reflexivity.
  - constructor; [|reflexivity|simpl; lia]. repeat constructor; simpl; lia.
  - simpl. lia.
  - exists uio', m'. rewrite Hrun. vm_compute in Hrun. injection Hrun as <- _ _ <-. reflexivity.
Defined.

Lemma iov_total_spec vs size : Forall (fun v => 0 <= iov_len v < 2 ^ 32) vs -> 0 <= size < 2 ^ 32 ->
  iov_total vs size =
  let total := size + foldr Z.add 0 (iov_len <$> vs) in
  if total <? 2 ^ 32 then Some total else None.
Proof.
  intros Hvs. revert size. induction Hvs as [|v vs Hv Hvs IH]; intros size Hs; cbv zeta.
  { simpl foldr. rewrite Z.add_0_r. destruct (Z.ltb_spec size (2 ^ 32)); [done|lia]. }
  cbn [iov_total]. unfold SIZE_MAX. rewrite fmap_cons. cbn [foldr]. rewrite u32_small by lia.
  assert (0 <= foldr Z.add 0 (iov_len <$> vs)).
  { clear -Hvs. induction Hvs; [done|]. rewrite fmap_cons. cbn [foldr]. lia. }
  destruct (Z.ltb_spec (2 ^ 32 - 1 - size) (iov_len v)).
  - destruct (Z.ltb_spec (size + (iov_len v + foldr Z.add 0 (iov_len <$> vs))) (2 ^ 32)); [lia|done].
  - rewrite u32_small by lia. rewrite IH by lia. cbv zeta. by rewrite Z.add_assoc.
Qed.

Lemma le32_bound b0 b1 b2 b3 :
  0 <= b0 < 256 -> 0 <= b1 < 256 -> 0 <= b2 < 256 -> 0 <= b3 < 256 ->
  0 <= le32 b0 b1 b2 b3 < 2 ^ 32.
Proof.
  intros H0 H1 H2 H3. unfold le32. rewrite !Z.shiftl_mul_pow2 by lia.
  assert (Hor : forall x y, 0 <= x < 2 ^ 32 -> 0 <= y < 2 ^ 32 -> 0 <= Z.lor x y < 2 ^ 32).
  { intros x y Hx Hy. split; [apply Z.lor_nonneg; lia|].
    rewrite <- (Z.mod_small x (2 ^ 32)), <- (Z.mod_small y (2 ^ 32)) by lia.
    rewrite <- !Z.land_ones by lia. rewrite <- Z.land_lor_distr_l, Z.land_ones by lia.
    apply Z.mod_pos_bound. lia. }
  repeat apply Hor; lia.
Qed.

Definition bytes_ok (bs : list Z) : Prop := Forall (fun b => 0 <= b < 256) bs.

Lemma decode_iov_lens n bs : length bs = (8 * n)%nat -> bytes_ok bs ->
  length (decode_iov bs) = n /\ Forall (fun v => 0 <= iov_len v < 2 ^ 32) (decode_iov bs).
Proof.
  revert bs. induction n as [|n IH]; intros bs Hl Hb.
  { apply length_zero_iff_nil in Hl as ->. done. }
  do 8 (destruct bs as [|? bs]; [simpl in Hl; lia|]). simpl in Hl.
  unfold bytes_ok in Hb. rewrite !Forall_cons in Hb. destruct_and! Hb.
  destruct (IH bs) as [IH1 IH2]; [lia|done|]. simpl. split; [by rewrite IH1|].
  constructor; [|done]. apply le32_bound; done.
Qed.

(** [copyinuio] accepts an array exactly when the lengths add up to less
    than 2^32, and [uio->size] is then that sum, computed without wrap-around;
    the descriptor covers all [iovc] elements from offset 0. *)
Theorem copyinuio_total m uiov iovc bs :
  0 <= iovc < IOV_MAX -> copyin m uiov (8 * iovc) = (0, Some bs) -> bytes_ok bs ->
  let vs := decode_iov bs in
  let total := foldr Z.add 0 (iov_len <$> vs) in
  length vs = Z.to_nat iovc /\
  copyinuio true m uiov iovc =
    if total <? 2 ^ 32 then (0, Some (Uio vs iovc 0 total (-1) UIO_USER)) else (- EINVAL, None).
Proof.
  intros Hc Hin Hb vs total. unfold IOV_MAX in Hc.
  assert (length bs = (8 * Z.to_nat iovc)%nat) as Hl.
  { unfold copyin in Hin. destruct (negb _); [done|].
    destruct (load m uiov _) eqn:El; [|done]. injection Hin as ->.
    apply load_length in El. lia. }
  destruct (decode_iov_lens (Z.to_nat iovc) bs Hl Hb) as [Hn Hv]. split; [done|].
  unfold copyinuio, IOV_MAX. destruct (Z.leb_spec 1024 iovc); [lia|].
  rewrite u32_small by lia. cbn [negb]. rewrite Hin, iov_total_spec by (done || lia).
  cbv zeta. rewrite Z.add_0_l. fold vs total. by destruct (total <? 2 ^ 32).
Qed.

Lemma copyinuio_total_witness :
  copyinuio true (list_to_map (imap (fun i b => (0x2000 + Z.of_nat i, Cell b true))
    [0; 48; 0; 0; 5; 0; 0; 0; 0; 64; 0; 0; 7; 0; 0; 0])) 0x2000 2 =
  (0, Some (Uio [Iovec 0x3000 5; Iovec 0x4000 7] 2 0 12 (-1) UIO_USER)).
Proof.
  pose proof (fun m => copyinuio_total m 0x2000 2 [0; 48; 0; 0; 5; 0; 0; 0; 0; 64; 0; 0; 7; 0; 0; 0]) as H.
  destruct (H (list_to_map (imap (fun i b => (0x2000 + Z.of_nat i, Cell b true))
    [0; 48; 0; 0; 5; 0; 0; 0; 0; 64; 0; 0; 7; 0; 0; 0]))) as [_ ->].
  - unfold IOV_MAX. lia.
  - vm_compute. reflexivity.
  - repeat constructor; lia.
  - reflexivity.
Defined.

(** [uiomemset] is [uiomove] from a constant buffer. *)
Lemma uiomemset_loop_eq `{Cpu} fuel m uio size value pos :
  user_uio uio -> wf uio -> rw uio = UIO_RD -> iovc uio = Z.of_nat (length (iov uio)) ->
  iovc uio < 2 ^ 32 -> 0 <= size <= usize uio ->
  uiomemset_loop fuel m uio size value =
  let* '(err, uio', m', _) :=
    uiomove_loop fuel m (replicate (pos + Z.to_nat size) (u8 value)) pos size uio in
  Done (default 0 err, uio', m').
Proof.
  revert m uio size pos. induction fuel as [|fuel IH]; intros m uio size pos Hk Hw Hrw Hic Hlt Hs; [done|].
  cbn [uiomemset_loop uiomove_loop]. pose proof (wf_usize _ Hw) as Hus.
  destruct (Z.eqb_spec size 0) as [->|Es]; [done|]. cbn [orb].
  destruct (Z.eqb_spec (usize uio) 0); [lia|].
  destruct (iov uio) as [|v vs] eqn:Hv; [done|].
  destruct (Z.eqb_spec (iov_len v) 0) as [Ez|Ez].
  - destruct (Z.eqb_spec (iovc uio) 0) as [E0|E0]; [rewrite Hic in E0; done|]. cbn [negb].
    destruct (skip_moved uio v vs (u32 (iovc uio - 1))) as (W1 & _ & S1 & _); [done..|].
    apply IH; simpl in *; [done|done|done| |rewrite u32_small; lia|lia].
    rewrite u32_small by lia. lia.
  - pose proof (wf_iov _ Hw) as Hok. rewrite Hv in Hok. inversion Hok as [|? ? (Hb & Hl & Hsm) _]; subst.
    rewrite (Z.min_comm (iov_len v)). set (num := Z.min size (iov_len v)).
    unfold uio_copy. rewrite Hk, Hrw. cbn [negb Z.eqb UIO_RD UIO_WR].
    rewrite drop_replicate, take_replicate.
    replace (Z.to_nat num `min` (pos + Z.to_nat size - pos))%nat with (Z.to_nat num) by lia.
    unfold umemset, copyout. rewrite length_replicate, Z2Nat.id by lia.
    destruct (advance_moved uio v vs num) as (W1 & _ & S1 & _ & R1 & F1); [done|done|lia|].
    destruct (_ =? 0) eqn:Ee; cbn [negb]; [|cbn [rbind]; by rewrite Ee].
    destruct kwp_enabled; [|done]. destruct (store m _ _) as [m' [|]]; cbn [rbind]; [|done].
    cbn [negb Z.eqb]. rewrite (IH _ _ _ (pos + Z.to_nat num)%nat); simpl in *; try done; try lia.
    do 2 f_equal. f_equal. lia.
Qed.

(** [uiomemset] on a user descriptor with room for [size] bytes always
    returns: 0 after writing [value] to exactly the next [size] addresses, or
    -EFAULT when one of them may not be written. *)
Theorem uiomemset_fill `{Cpu} m uio size value :
  kwp_enabled = true -> user_uio uio -> wf uio -> rw uio = UIO_RD ->
  iovc uio = Z.of_nat (length (iov uio)) -> iovc uio < 2 ^ 32 -> 0 <= size <= usize uio ->
  let l := take (Z.to_nat size) (addrs (iov uio)) in
  exists r uio' m', uiomemset m uio size value = Done (r, uio', m') /\
    ((r = 0 /\ m' = scatter m l (replicate (Z.to_nat size) (u8 value)) /\ moved uio uio' size)
     \/ (r = - EFAULT /\ exists a, a ∈ l /\ ~ accessible UIO_RD m a)).
Proof.
  intros Hkwp Hk Hw Hrw Hic Hlt Hs l. unfold uiomemset. pose proof (wf_off _ Hw).
  destruct (Z.leb_spec 0 (off uio)); [|lia]. rewrite Hrw. cbn [Z.eqb UIO_RD].
  destruct (Z.leb_spec size (usize uio)); [|lia]. cbn [Pos.eqb].
  rewrite (uiomemset_loop_eq _ m uio size value 0) by done. cbn [Nat.add].
  pose proof (need_le (iov uio)). pose proof (wf_usize _ Hw).
  assert (Hn : Z.min size (usize uio) = size) by lia.
  destruct (uiomove_loop_user (2 * length (iov uio) + 2) m (replicate (Z.to_nat size) (u8 value)) 0 size uio)
    as [(uio' & m' & buf' & -> & Href & Hmv)|(uio' & m' & buf' & a & -> & Ha & Hna)];
    try done; try lia; try (rewrite length_replicate; lia); try (destruct (size =? 0); lia);
    rewrite ?Hn, ?Hrw in *; cbn [rbind default]; do 3 eexists; (split; [done|]).
  - left. split_and!; [done| |done]. unfold ref_move in Href. cbn [Z.eqb UIO_RD UIO_WR] in Href.
    injection Href as <- _. fold l. rewrite drop_0, take_replicate. f_equal. f_equal.
    subst l. rewrite length_take. lia.
  - right. split; [done|]. exists a. done.
Qed.

Lemma uiomemset_fill_witness :
  exists uio' m', uiomemset sample_mem sample_uio 2 7 = Done (0, uio', m').
Proof.
  destruct (uiomemset_fill sample_mem sample_uio 2 7) as (r & uio' & m' & Hrun & _);
    [reflexivity|reflexivity| |reflexivity|reflexivity|simpl; lia|simpl; lia|].
  - constructor; [|reflexivity|simpl; lia]. repeat constructor; simpl; lia.
  - exists uio', m'. rewrite Hrun. vm_compute in Hrun. injection Hrun as <- _ _. reflexivity.
Defined.
