(* ===== verification/Cbuf.v ===== *)
(** * lib/cbuf.c and lib/cbuf.h: circular buffers

    A [cbuf_t] keeps the addresses of its memory, the read and the write
    pointer and the number of bytes stored.  [area] is the memory that
    [first] points to.  The abstract state is the queue [contents]. *)
From stdpp Require Import base tactics option list numbers.
From Stdlib Require Import ZArith Lia Bool.
From S2P Require Import Prelude.

Record cbuf_t := Cbuf {
  area : list Z;
  first : Z;
  last : Z;
  rptr : Z;
  wptr : Z;
  data : Z;
}.

Definition cbuf_size (c : cbuf_t) : Z := u32 (last c - first c).
Definition cbuf_is_full (c : cbuf_t) : bool := data c =? cbuf_size c.
Definition cbuf_is_empty (c : cbuf_t) : bool := data c =? 0.
Definition cbuf_available (c : cbuf_t) : Z := data c.

(** [kmalloc]'s answer is the address and the contents of the new block. *)
Definition cbuf_alloc (blk : option (Z * list Z)) (size : Z) : Z * option cbuf_t :=
  match blk with
  | None => (- ENOMEM, None)
  | Some (p, bytes) => (0, Some (Cbuf bytes p (u32 (p + size)) p p 0))
  end.

Definition cbuf_iter_max (c : cbuf_t) (ptr size : Z) : Z := Z.min (u32 (last c - ptr)) size.

Definition cbuf_set_rptr (c : cbuf_t) (p : Z) : cbuf_t :=
  Cbuf (area c) (first c) (last c) p (wptr c) (data c).
Definition cbuf_set_data (c : cbuf_t) (d : Z) : cbuf_t :=
  Cbuf (area c) (first c) (last c) (rptr c) (wptr c) d.

(** One pass of either loop moves up to the end of the area, so two passes and
    the test that ends the loop are three turns. *)
Fixpoint cbuf_read_loop (fuel : nat) (c : cbuf_t) (size : Z) (buf : list Z) : res (list Z * cbuf_t) :=
  match fuel with
  | O => Stuck
  | S fuel =>
    if size =? 0 then Done (buf, c)
    else
      let cur := cbuf_iter_max c (rptr c) size in
      let* bs := deref (slice (area c) (rptr c - first c) cur) in
      let p := u32 (rptr c + cur) in
      let p := if p =? last c then first c else p in
      cbuf_read_loop fuel (cbuf_set_rptr c p) (size - cur) (buf ++ bs)
  end.

(** The number of bytes read, the bytes, and the buffer afterwards. *)
Definition cbuf_read (c : cbuf_t) (size : Z) : res (Z * list Z * cbuf_t) :=
  let size := Z.min (data c) size in
  let* '(buf, c') := cbuf_read_loop 3 (cbuf_set_data c (u32 (data c - size))) size [] in
  Done (size, buf, c').

Fixpoint cbuf_write_loop (fuel : nat) (c : cbuf_t) (size : Z) (buf : list Z) : res cbuf_t :=
  match fuel with
  | O => Stuck
  | S fuel =>
    if size =? 0 then Done c
    else
      let cur := cbuf_iter_max c (wptr c) size in
      let* bs := deref (slice buf 0 cur) in
      let* a := deref (splice (area c) (wptr c - first c) bs) in
      let p := u32 (wptr c + cur) in
      let p := if p =? last c then first c else p in
      cbuf_write_loop fuel (Cbuf a (first c) (last c) (rptr c) p (data c))
        (size - cur) (drop (Z.to_nat cur) buf)
  end.

Definition cbuf_write (c : cbuf_t) (size : Z) (buf : list Z) : res (Z * cbuf_t) :=
  let size := Z.min (u32 (cbuf_size c - data c)) size in
  let* c' := cbuf_write_loop 3 (cbuf_set_data c (u32 (data c + size))) size buf in
  Done (size, c').

Definition cbuf_getc (c : cbuf_t) : res (bool * list Z * cbuf_t) :=
  let* '(n, buf, c') := cbuf_read c 1 in Done (n =? 1, buf, c').

Definition cbuf_putc (c : cbuf_t) (ch : Z) : res (bool * cbuf_t) :=
  let* '(n, c') := cbuf_write c 1 [ch] in Done (n =? 1, c').

Definition cbuf_discard (c : cbuf_t) : cbuf_t :=
  Cbuf (area c) (first c) (last c) (first c) (first c) 0.

(** ** Specification *)

(** The [i]-th position from [p] in an area of [n] bytes, wrapping around. *)
Definition idx (n p i : nat) : nat := if decide (p + i < n)%nat then (p + i)%nat else (p + i - n)%nat.

Definition roff (c : cbuf_t) : nat := Z.to_nat (rptr c - first c).
Definition woff (c : cbuf_t) : nat := Z.to_nat (wptr c - first c).

(** The stored bytes, oldest first. *)
Definition contents (c : cbuf_t) : list Z :=
  (fun i => area c !!! idx (length (area c)) (roff c) i) <$> seq 0 (Z.to_nat (data c)).

Record wf (c : cbuf_t) : Prop := {
  wf_first : 0 <= first c;
  wf_last : last c = first c + Z.of_nat (length (area c));
  wf_last_lt : last c < 2 ^ 32;
  wf_rptr : first c <= rptr c < last c;
  wf_wptr : first c <= wptr c < last c;
  wf_data : 0 <= data c <= Z.of_nat (length (area c));
  wf_woff : woff c = if decide (data c = Z.of_nat (length (area c))) then roff c
                     else idx (length (area c)) (roff c) (Z.to_nat (data c));
}.

(** ** Lemmas *)

(** Case analysis on the positions, inner tests first. *)
Ltac idx_cases :=
  unfold idx;
  repeat match goal with
  | |- context [decide ?P] =>
      lazymatch P with context [decide _] => fail | _ => destruct (decide P) end
  end; try lia.

(** [k] bytes from position [p] on, wrapping around. *)
Definition window (l : list Z) (p k : nat) : list Z :=
  (fun i => l !!! idx (length l) p i) <$> seq 0 k.

Lemma length_window l p k : length (window l p k) = k.
Proof. unfold window. by rewrite length_fmap, length_seq. Qed.

Lemma window_lookup l p k i : (i < k)%nat -> window l p k !! i = Some (l !!! idx (length l) p i).
Proof. intros. unfold window. rewrite list_lookup_fmap, lookup_seq_lt by done. done. Qed.

Lemma window_ext l1 l2 p1 p2 k :
  (forall i, (i < k)%nat -> l1 !!! idx (length l1) p1 i = l2 !!! idx (length l2) p2 i) ->
  window l1 p1 k = window l2 p2 k.
Proof.
  intros H. apply list_eq_same_length with k; [by rewrite length_window|by rewrite length_window|].
  intros i x y Hi. rewrite !window_lookup by done. rewrite H by done. congruence.
Qed.

Lemma window_app l p k1 k2 : (p < length l)%nat -> (k1 + k2 <= length l)%nat ->
  window l p (k1 + k2) = window l p k1 ++ window l (idx (length l) p k1) k2.
Proof.
  intros Hp Hk. apply list_eq_same_length with (k1 + k2)%nat.
  { by rewrite length_app, !length_window. }
  { by rewrite length_window. }
  intros i x y Hi. rewrite window_lookup by done. destruct (decide (i < k1)%nat).
  - rewrite lookup_app_l by (rewrite length_window; lia). rewrite window_lookup by done. congruence.
  - rewrite lookup_app_r; rewrite length_window; [|lia]. rewrite window_lookup by lia.
    intros [= <-] [= <-]. f_equal. unfold idx. repeat case_decide; lia.
Qed.

(** A window that does not wrap is a plain range. *)
Lemma window_linear l p k : (p + k <= length l)%nat -> take k (drop p l) = window l p k.
Proof.
  intros H. apply list_eq_same_length with k.
  { by rewrite length_window. }
  { rewrite length_take, length_drop. lia. }
  intros i x y Hi. rewrite window_lookup by done. rewrite lookup_take_lt, lookup_drop by done.
  rewrite list_lookup_lookup_total_lt by lia. intros [= <-] [= <-]. f_equal.
  unfold idx. case_decide; lia.
Qed.

Lemma contents_window c : contents c = window (area c) (roff c) (Z.to_nat (data c)).
Proof. done. Qed.

Lemma take_window l p k i : (i <= k)%nat -> take i (window l p k) = window l p i.
Proof. intros. unfold window. by rewrite <- fmap_take, take_seq, Nat.min_l by lia. Qed.

(** The pointer after [size] bytes. *)
Definition step (n p k : nat) : nat := if decide (k = n) then p else idx n p k.

(** What is fixed while a loop runs. *)
Record shape (c : cbuf_t) : Prop := {
  sh_first : 0 <= first c;
  sh_last : last c = first c + Z.of_nat (length (area c));
  sh_lt : last c < 2 ^ 32;
  sh_rptr : first c <= rptr c < last c;
  sh_wptr : first c <= wptr c < last c;
}.

Lemma wf_shape c : wf c -> shape c.
Proof. intros []. by constructor. Qed.

(** One pass of the read loop: a linear piece, and the pointer moved on. *)
Lemma read_pass fuel c size buf : shape c -> 0 < size ->
  let n := length (area c) in
  let cur := Z.min (last c - rptr c) size in
  exists p, first c <= p < last c /\
    Z.to_nat (p - first c) = idx n (roff c) (Z.to_nat cur) /\
    cbuf_read_loop (S fuel) c size buf =
    cbuf_read_loop fuel (cbuf_set_rptr c p) (size - cur)
      (buf ++ window (area c) (roff c) (Z.to_nat cur)).
Proof.
  intros [Hf Hl Hlt Hr Hw] Hs n cur. subst n.
  cbn [cbuf_read_loop]. destruct (Z.eqb_spec size 0); [lia|].
  unfold cbuf_iter_max. rewrite u32_small by lia. fold cur.
  rewrite slice_Some by lia. cbn [deref rbind].
  rewrite window_linear by lia. fold (roff c). rewrite u32_small by lia.
  exists (if rptr c + cur =? last c then first c else rptr c + cur).
  split_and!; [..|done].
  - destruct (Z.eqb_spec (rptr c + cur) (last c)); lia.
  - destruct (Z.eqb_spec (rptr c + cur) (last c)); lia.
  - unfold idx, roff. destruct (Z.eqb_spec (rptr c + cur) (last c)); case_decide; lia.
Qed.

Lemma shape_set_rptr c p : shape c -> first c <= p < last c -> shape (cbuf_set_rptr c p).
Proof. intros [] ?. by constructor. Qed.

Lemma read_loop_spec c size buf : shape c -> 0 <= size <= Z.of_nat (length (area c)) ->
  exists p, first c <= p < last c /\
    Z.to_nat (p - first c) = step (length (area c)) (roff c) (Z.to_nat size) /\
    cbuf_read_loop 3 c size buf =
    Done (buf ++ window (area c) (roff c) (Z.to_nat size), cbuf_set_rptr c p).
Proof.
  intros Hsh Hs. pose proof Hsh as [Hf Hl Hlt Hr Hw]. unfold step.
  destruct (decide (size = 0)) as [->|Hn].
  { exists (rptr c). split_and!; [lia|lia| |].
    - change (Z.to_nat 0) with 0%nat. unfold idx, roff. case_decide; [lia|]. case_decide; lia.
    - cbn. rewrite app_nil_r. by destruct c. }
  destruct (read_pass 2 c size buf Hsh ltac:(lia)) as (p & Hp & Hpo & ->). cbv zeta in *.
  set (cur := Z.min (last c - rptr c) size) in *.
  destruct (decide (cur = size)) as [E|E].
  { rewrite E, Z.sub_diag in *. exists p. split_and!; [lia|lia| |done].
    rewrite Hpo. unfold roff, idx. case_decide; repeat case_decide; lia. }
  destruct (read_pass 1 (cbuf_set_rptr c p) (size - cur) (buf ++ window (area c) (roff c) (Z.to_nat cur)))
    as (p' & Hp' & Hpo' & ->); [by apply shape_set_rptr|lia|]. cbv zeta in *.
  assert (Hp0 : p = first c).
  { unfold idx, roff in Hpo. case_decide; lia. }
  subst p. unfold roff in Hpo' at 1. cbn [cbuf_set_rptr rptr first last area] in *.
  replace (Z.min (last c - first c) (size - cur)) with (size - cur) in * by lia.
  rewrite Z.sub_diag. exists p'. split_and!; [lia|lia| |].
  - rewrite Hpo'. rewrite Z.sub_diag. unfold idx, roff. repeat case_decide; lia.
  - cbn [cbuf_read_loop Z.eqb]. rewrite <- app_assoc. do 3 f_equal.
    replace (Z.to_nat size) with (Z.to_nat cur + Z.to_nat (size - cur))%nat by lia.
    rewrite window_app by (unfold roff; lia). f_equal. f_equal.
    rewrite <- Hpo. unfold roff. cbn [cbuf_set_rptr rptr first]. done.
Qed.

(** Pass and loop of the write side: an area whose window from the write
    pointer on begins with the bytes written and is unchanged after them. *)
Definition written (l l' : list Z) (p : nat) (bs : list Z) : Prop :=
  length l' = length l /\
  (forall i, (i < length bs)%nat -> l' !! idx (length l) p i = bs !! i) /\
  (forall i, (length bs <= i < length l)%nat -> l' !! idx (length l) p i = l !! idx (length l) p i).

Lemma write_pass fuel c size buf : shape c -> 0 < size -> size <= Z.of_nat (length buf) ->
  let n := length (area c) in
  let cur := Z.min (last c - wptr c) size in
  exists a p, first c <= p < last c /\
    Z.to_nat (p - first c) = idx n (woff c) (Z.to_nat cur) /\
    written (area c) a (woff c) (take (Z.to_nat cur) buf) /\
    cbuf_write_loop (S fuel) c size buf =
    cbuf_write_loop fuel (Cbuf a (first c) (last c) (rptr c) p (data c))
      (size - cur) (drop (Z.to_nat cur) buf).
Proof.
  intros [Hf Hl Hlt Hr Hw] Hs Hb n cur. subst n.
  cbn [cbuf_write_loop]. destruct (Z.eqb_spec size 0); [lia|].
  unfold cbuf_iter_max. rewrite u32_small by lia. fold cur.
  rewrite slice_Some by lia. cbn [deref rbind]. rewrite drop_0.
  destruct (splice_Some (area c) (wptr c - first c) (take (Z.to_nat cur) buf)) as (a & -> & Hal & Ha);
    [lia|rewrite length_take; lia|]. cbn [deref rbind].
  rewrite u32_small by lia. fold (woff c) in Ha.
  exists a, (if wptr c + cur =? last c then first c else wptr c + cur).
  assert (Htl : length (take (Z.to_nat cur) buf) = Z.to_nat cur) by (rewrite length_take; lia).
  split_and!; [..|done].
  - destruct (Z.eqb_spec (wptr c + cur) (last c)); lia.
  - destruct (Z.eqb_spec (wptr c + cur) (last c)); lia.
  - unfold idx, woff. destruct (Z.eqb_spec (wptr c + cur) (last c)); case_decide; lia.
  - split_and!; [done| |].
    + intros i Hi. assert (idx (length (area c)) (woff c) i = woff c + i)%nat as ->
        by (unfold idx, woff; case_decide; lia).
      rewrite Ha, decide_True by (unfold woff; lia). f_equal. unfold woff. lia.
    + intros i Hi. rewrite Ha, decide_False; [done|]. unfold idx, woff in *. case_decide; lia.
Qed.

(** Two passes, one after the other. *)
Lemma written_app l l1 l2 p bs1 bs2 : (p < length l)%nat -> (length bs1 + length bs2 <= length l)%nat ->
  written l l1 p bs1 -> written l1 l2 (idx (length l) p (length bs1)) bs2 ->
  written l l2 p (bs1 ++ bs2).
Proof.
  intros Hp Hlen (L1 & A1 & B1) (L2 & A2 & B2). rewrite L1 in *.
  assert (Hidx : forall i, (length bs1 <= i < length l)%nat ->
            idx (length l) p i = idx (length l) (idx (length l) p (length bs1)) (i - length bs1)).
  { intros i Hi. unfold idx. repeat case_decide; lia. }
  assert (Hidx' : forall i, (i < length bs1)%nat ->
            idx (length l) p i =
            idx (length l) (idx (length l) p (length bs1)) (length l - length bs1 + i)).
  { intros i Hi. unfold idx. repeat case_decide; lia. }
  split_and!; [done| |]; rewrite length_app.
  - intros i Hi. destruct (decide (i < length bs1)%nat).
    + rewrite lookup_app_l by done. rewrite Hidx' by done. rewrite B2 by lia.
      rewrite <- Hidx' by done. by apply A1.
    + rewrite lookup_app_r by lia. rewrite Hidx by lia. apply A2. lia.
  - intros i Hi. rewrite Hidx by lia. rewrite B2 by lia. rewrite <- Hidx by lia. apply B1. lia.
Qed.

Lemma written_nil l p : written l l p [].
Proof. split_and!; [done|simpl; lia|done]. Qed.

Lemma write_loop_spec c size buf : shape c -> 0 <= size <= Z.of_nat (length (area c)) ->
  size <= Z.of_nat (length buf) ->
  exists a p, first c <= p < last c /\
    Z.to_nat (p - first c) = step (length (area c)) (woff c) (Z.to_nat size) /\
    written (area c) a (woff c) (take (Z.to_nat size) buf) /\
    cbuf_write_loop 3 c size buf = Done (Cbuf a (first c) (last c) (rptr c) p (data c)).
Proof.
  intros Hsh Hs Hb. pose proof Hsh as [Hf Hl Hlt Hr Hw]. unfold step.
  destruct (decide (size = 0)) as [->|Hn].
  { exists (area c), (wptr c). split_and!; [lia|lia| |apply written_nil|by destruct c].
    change (Z.to_nat 0) with 0%nat. unfold idx, woff. case_decide; [lia|]. case_decide; lia. }
  destruct (write_pass 2 c size buf Hsh ltac:(lia) Hb) as (a & p & Hp & Hpo & Hwr & ->). cbv zeta in *.
  set (cur := Z.min (last c - wptr c) size) in *.
  destruct (decide (cur = size)) as [E|E].
  { rewrite E, Z.sub_diag in *. exists a, p. split_and!; [lia|lia| |done|done].
    rewrite Hpo. unfold woff, idx. case_decide; repeat case_decide; lia. }
  assert (Hal : length a = length (area c)) by apply Hwr.
  destruct (write_pass 1 (Cbuf a (first c) (last c) (rptr c) p (data c)) (size - cur) (drop (Z.to_nat cur) buf))
    as (a' & p' & Hp' & Hpo' & Hwr' & ->); [constructor; simpl; rewrite ?Hal; lia|lia|rewrite length_drop; lia|].
  cbv zeta in *.
  assert (Hp0 : p = first c).
  { unfold idx, woff in Hpo. case_decide; lia. }
  subst p. unfold woff in Hpo', Hwr'. cbn [wptr first last area rptr data] in *.
  replace (Z.min (last c - first c) (size - cur)) with (size - cur) in * by lia.
  rewrite Z.sub_diag in *. exists a', p'. split_and!; [lia|lia| | |done].
  - rewrite Hpo', Hal. unfold idx, woff. repeat case_decide; lia.
  - replace (Z.to_nat size) with (Z.to_nat cur + Z.to_nat (size - cur))%nat by lia.
    rewrite <- take_take_drop. eapply written_app; [unfold woff; lia| |exact Hwr|].
    + rewrite !length_take, length_drop. lia.
    + replace (length (take (Z.to_nat cur) buf)) with (Z.to_nat cur) by (rewrite length_take; lia).
      rewrite <- Hpo. exact Hwr'.
Qed.

(** The free part of a well-formed buffer starts at the write pointer. *)
Lemma idx_data c i : wf c -> (i < Z.to_nat (data c))%nat ->
  idx (length (area c)) (roff c) i =
  idx (length (area c)) (woff c) (length (area c) - Z.to_nat (data c) + i).
Proof.
  intros [Hf Hl Hlt Hr Hw Hd Hwo] Hi. rewrite Hwo. unfold roff. idx_cases.
Qed.

Lemma idx_free c i : wf c -> (i < length (area c) - Z.to_nat (data c))%nat ->
  idx (length (area c)) (roff c) (Z.to_nat (data c) + i) = idx (length (area c)) (woff c) i.
Proof.
  intros [Hf Hl Hlt Hr Hw Hd Hwo] Hi. rewrite Hwo. unfold roff. idx_cases.
Qed.

Lemma cbuf_size_wf c : wf c -> cbuf_size c = Z.of_nat (length (area c)).
Proof. intros [Hf Hl Hlt Hr Hw Hd Hwo]. unfold cbuf_size. rewrite u32_small; lia. Qed.

Lemma length_contents c : wf c -> Z.of_nat (length (contents c)) = data c.
Proof. intros [Hf Hl Hlt Hr Hw Hd Hwo]. rewrite contents_window, length_window. lia. Qed.

Lemma cbuf_read_wf c size : wf c -> 0 <= size ->
  let k := Z.min (data c) size in
  exists c', cbuf_read c size = Done (k, take (Z.to_nat k) (contents c), c') /\
    wf c' /\ contents c' = drop (Z.to_nat k) (contents c) /\ cbuf_size c' = cbuf_size c.
Proof.
  intros Hwf Hs k. pose proof Hwf as [Hf Hl Hlt Hr Hw Hd Hwo]. unfold cbuf_read. fold k.
  rewrite u32_small by lia.
  destruct (read_loop_spec (cbuf_set_data c (data c - k)) k []) as (p & Hp & Hpo & ->);
    [by constructor|simpl; lia|]. unfold roff in Hpo. cbn [cbuf_set_data area roff rptr first last] in *.
  fold (roff c) in Hpo. cbn [rbind]. eexists. split; [|split_and!].
  - rewrite contents_window, take_window by lia. simpl app. unfold roff. simpl. done.
  - constructor; cbn [cbuf_set_rptr cbuf_set_data area first last rptr wptr data]; try done; [lia|].
    unfold woff, roff in *. simpl in *. rewrite Hpo, Hwo. unfold step, roff. idx_cases.
  - rewrite !contents_window. cbn [cbuf_set_rptr cbuf_set_data area data].
    replace (Z.to_nat (data c)) with (Z.to_nat k + Z.to_nat (data c - k))%nat by lia.
    rewrite window_app by (unfold roff; lia).
    rewrite drop_app_length' by (by rewrite length_window).
    destruct (decide (data c - k = 0)) as [->|Hne]; [done|].
    f_equal. unfold roff at 1. simpl. rewrite Hpo. unfold step.
    destruct (decide (Z.to_nat k = length (area c))); [|done]. lia.
  - done.
Qed.

Lemma cbuf_write_wf c size buf : wf c -> 0 <= size <= Z.of_nat (length buf) ->
  let k := Z.min (cbuf_size c - data c) size in
  exists c', cbuf_write c size buf = Done (k, c') /\
    wf c' /\ contents c' = contents c ++ take (Z.to_nat k) buf /\ cbuf_size c' = cbuf_size c.
Proof.
  intros Hwf Hs k. pose proof Hwf as [Hf Hl Hlt Hr Hw Hd Hwo]. unfold cbuf_write.
  pose proof (cbuf_size_wf c Hwf) as Hcs. rewrite (u32_small (cbuf_size c - data c)) by lia. fold k. rewrite u32_small by lia.
  destruct (write_loop_spec (cbuf_set_data c (data c + k)) k buf) as (a & p & Hp & Hpo & Hwr & ->);
    [by constructor|simpl; lia|simpl; lia|]. cbn [rbind].
  unfold woff in Hpo, Hwr. cbn [cbuf_set_data area wptr first last rptr data] in *.
  fold (woff c) in Hpo, Hwr. destruct Hwr as (La & Wa & Wb).
  assert (Htk : length (take (Z.to_nat k) buf) = Z.to_nat k) by (rewrite length_take; lia).
  rewrite Htk in *.
  eexists. split; [done|]. split_and!.
  - constructor; cbn [area first last rptr wptr data]; rewrite ?La; try done; [lia|].
    unfold woff, roff in *. simpl. rewrite Hpo, Hwo. unfold step, roff. idx_cases.
  - rewrite !contents_window. cbn [area data].
    apply list_eq_same_length with (Z.to_nat (data c + k)).
    { rewrite length_app, length_window, Htk. lia. }
    { by rewrite length_window. }
    intros i x y Hi. rewrite window_lookup by done.
    assert (Hidx : a !! idx (length a) (roff c) i = Some (a !!! idx (length a) (roff c) i)).
    { apply list_lookup_lookup_total_lt. unfold roff. idx_cases. }
    change (roff (Cbuf a _ _ _ _ _)) with (roff c). rewrite <- Hidx, La. clear Hidx.
    destruct (decide (i < Z.to_nat (data c))%nat) as [Hlo|Hhi].
    + rewrite lookup_app_l by (by rewrite length_window). rewrite window_lookup by done.
      rewrite (idx_data c i Hwf Hlo), Wb by lia.
      rewrite list_lookup_lookup_total_lt; [congruence|]. unfold woff. idx_cases.
    + rewrite lookup_app_r; rewrite length_window; [|lia].
      replace i with (Z.to_nat (data c) + (i - Z.to_nat (data c)))%nat at 1 by lia.
      rewrite idx_free by (done || lia). rewrite Wa by lia. congruence.
  - done.
Qed.

(** ** The interface of a byte queue

    What the clients of a circular buffer (the ring buffers) use of it, and
    what they may rely on. *)
Class ByteQueue (Q : Type) := {
  q_read : Q -> Z -> res (Z * list Z * Q);
  q_write : Q -> Z -> list Z -> res (Z * Q);
  q_data : Q -> Z;
  q_size : Q -> Z;
}.

Class ByteQueueLaws (Q : Type) `{ByteQueue Q} := {
  q_wf : Q -> Prop;
  q_list : Q -> list Z;
  q_data_spec : forall q, q_wf q -> q_data q = Z.of_nat (length (q_list q));
  q_data_size : forall q, q_wf q -> q_data q <= q_size q < 2 ^ 32;
  q_read_spec : forall q size, q_wf q -> 0 <= size ->
    let k := Z.min (q_data q) size in
    exists q', q_read q size = Done (k, take (Z.to_nat k) (q_list q), q') /\
      q_wf q' /\ q_list q' = drop (Z.to_nat k) (q_list q) /\ q_size q' = q_size q;
  q_write_spec : forall q size buf, q_wf q -> 0 <= size <= Z.of_nat (length buf) ->
    let k := Z.min (q_size q - q_data q) size in
    exists q', q_write q size buf = Done (k, q') /\
      q_wf q' /\ q_list q' = q_list q ++ take (Z.to_nat k) buf /\ q_size q' = q_size q;
}.

#[export] Instance cbuf_queue : ByteQueue cbuf_t := {|
  q_read := cbuf_read;
  q_write := cbuf_write;
  q_data := data;
  q_size := cbuf_size;
|}.

#[export, refine] Instance cbuf_queue_laws : ByteQueueLaws cbuf_t := {|
  q_wf := wf;
  q_list := contents;
|}.
Proof.
  - intros q Hq. by rewrite length_contents.
  - intros q Hq. simpl. rewrite cbuf_size_wf by done. destruct Hq. lia.
  - intros q size. apply cbuf_read_wf.
  - intros q size buf. apply cbuf_write_wf.
Defined.

(** ** Refinement: runs of operations *)

Inductive qop := QRead (n : Z) | QWrite (bs : list Z) | QDiscard.

(** The bytes a read delivered, the number of bytes a write accepted. *)
Inductive qout := ORead (bs : list Z) | OWrite (n : Z) | ODiscard.

(** The specification: a queue of at most [cap] bytes. *)
Definition spec_op (cap : Z) (q : list Z) (o : qop) : qout * list Z :=
  match o with
  | QRead n => (ORead (take (Z.to_nat n) q), drop (Z.to_nat n) q)
  | QWrite bs =>
    let k := Z.min (cap - Z.of_nat (length q)) (Z.of_nat (length bs)) in
    (OWrite k, q ++ take (Z.to_nat k) bs)
  | QDiscard => (ODiscard, [])
  end.

Definition cbuf_op (c : cbuf_t) (o : qop) : res (qout * cbuf_t) :=
  match o with
  | QRead n => let* '(_, bs, c') := cbuf_read c n in Done (ORead bs, c')
  | QWrite bs => let* '(k, c') := cbuf_write c (Z.of_nat (length bs)) bs in Done (OWrite k, c')
  | QDiscard => Done (ODiscard, cbuf_discard c)
  end.

Fixpoint spec_run (cap : Z) (q : list Z) (os : list qop) : list qout * list Z :=
  match os with
  | [] => ([], q)
  | o :: os =>
    let (out, q') := spec_op cap q o in
    let (outs, q'') := spec_run cap q' os in (out :: outs, q'')
  end.

Fixpoint cbuf_run (c : cbuf_t) (os : list qop) : res (list qout * cbuf_t) :=
  match os with
  | [] => Done ([], c)
  | o :: os =>
    let* '(out, c') := cbuf_op c o in
    let* '(outs, c'') := cbuf_run c' os in Done (out :: outs, c'')
  end.

Definition qop_ok (o : qop) : Prop := match o with QRead n => 0 <= n | _ => True end.

Lemma cbuf_discard_wf c : wf c -> wf (cbuf_discard c) /\ contents (cbuf_discard c) = [].
Proof.
  intros [Hf Hl Hlt Hr Hw Hd Hwo]. split; [|done].
  constructor; simpl; try done; try lia. unfold woff, roff. simpl. idx_cases.
Qed.

Lemma cbuf_op_refines c o : wf c -> qop_ok o ->
  exists c', cbuf_op c o = Done ((spec_op (cbuf_size c) (contents c) o).1, c') /\
    wf c' /\ cbuf_size c' = cbuf_size c /\ contents c' = (spec_op (cbuf_size c) (contents c) o).2.
Proof.
  intros Hwf Ho. pose proof (length_contents c Hwf) as Hlen. destruct o as [n|bs|]; simpl in *.
  - destruct (cbuf_read_wf c n Hwf Ho) as (c' & -> & Hwf' & Hc & Hs). cbn [rbind].
    exists c'. rewrite Hc. split_and!; try done.
    + do 3 f_equal. destruct (decide (n <= data c)); [f_equal; lia|].
      rewrite !take_ge by lia. done.
    + destruct (decide (n <= data c)); [f_equal; lia|]. rewrite !drop_ge by lia. done.
  - destruct (cbuf_write_wf c (Z.of_nat (length bs)) bs Hwf) as (c' & -> & Hwf' & Hc & Hs); [lia|].
    cbn [rbind]. exists c'. rewrite Hc, Hlen. done.
  - destruct (cbuf_discard_wf c Hwf). eauto.
Qed.

(** C4: a circular buffer is a bounded FIFO queue: for every sequence of reads,
    writes and discards it never leaves its memory, and it delivers and accepts
    exactly what a queue of [cbuf_size] bytes would. *)
Theorem cbuf_refines_queue c os : wf c -> Forall qop_ok os ->
  exists c', cbuf_run c os = Done ((spec_run (cbuf_size c) (contents c) os).1, c') /\
    wf c' /\ contents c' = (spec_run (cbuf_size c) (contents c) os).2.
Proof.
  intros Hwf Hos. revert c Hwf. induction Hos as [|o os Ho Hos IH]; intros c Hwf; [by exists c|].
  cbn [cbuf_run spec_run].
  destruct (cbuf_op_refines c o Hwf Ho) as (c1 & -> & Hwf1 & Hs1 & Hc1). cbn [rbind].
  destruct (spec_op (cbuf_size c) (contents c) o) as [out q]. simpl in Hc1.
  destruct (IH c1 Hwf1) as (c2 & -> & Hwf2 & Hc2). cbn [rbind]. rewrite Hs1, Hc1 in *.
  destruct (spec_run (cbuf_size c) q os) as [outs q']. by exists c2.
Qed.

(** Four bytes at 0x1000, two of them stored across the end of the area. *)
Definition sample : cbuf_t := Cbuf [11; 0; 0; 10] 0x1000 0x1004 0x1003 0x1001 2.
Lemma sample_cbuf_wf : wf sample.
Proof. constructor; simpl; try lia. reflexivity. Qed.

Lemma cbuf_refines_queue_witness :
  exists c', cbuf_run sample [QWrite [12; 13; 14]; QRead 3; QDiscard] =
    Done ([OWrite 2; ORead [10; 11; 12]; ODiscard], c').
Proof.
  destruct (cbuf_refines_queue sample [QWrite [12; 13; 14]; QRead 3; QDiscard] sample_cbuf_wf)
    as (c' & -> & _); [repeat constructor; simpl; lia|]. by exists c'.
Defined.
