(* ===== verification/Ringbuf.v ===== *)
(** * lib/ringbuf.c and kern/pipe.c: ring buffers and pipes

    A ring buffer is a byte queue with an end-of-file mark, protected by a
    mutex.  The code between [sync_acquire] and [sync_release] runs without
    interference; what other threads do while the mutex is not held is given
    by a list of events, one per sleep, in order.  A sleep for which there is
    no event lasts for ever ([Stuck]). *)
From stdpp Require Import base tactics option list numbers gmap.
From Stdlib Require Import ZArith Lia Bool.
From S2P Require Import Prelude User Uio Cbuf.

Definition RB_NOBLOCK : Z := 1.
Definition F_ISSET (x f : Z) : bool := negb (Z.land x f =? 0).

Section Ringbuf.
Context {Q : Type} `{ByteQueue Q} `{Cpu}.

Record ringbuf_t := Ringbuf { rbuf : Q; eof : bool }.

(** What happens while the thread does not hold the mutex: [ev_before] between
    [sync_release] and the point where [kern_wait] compares the futex word,
    [ev_during] from then until the mutex is held again; [ev_intr] tells
    whether a signal ended the sleep. *)
Record event := Event {
  ev_before : ringbuf_t -> ringbuf_t;
  ev_during : ringbuf_t -> ringbuf_t;
  ev_intr : bool;
}.

Definition ringbuf_eof (rb : ringbuf_t) : ringbuf_t := Ringbuf (rbuf rb) true.

(** [kern_wait(&rb->buf.data, size, KWAIT_INTR)] returns -EAGAIN when the word
    has changed, -EINTR when a signal arrived, 0 when it was woken up. *)
Definition ringbuf_sleep (rb : ringbuf_t) (size : Z) (evs : list event)
    : res (Z * ringbuf_t * list event) :=
  match evs with
  | [] => Stuck
  | e :: evs =>
    let rb1 := ev_before e rb in
    if negb (q_data (rbuf rb1) =? size) then Done (- EAGAIN, ev_during e rb1, evs)
    else Done (if ev_intr e then - EINTR else 0, ev_during e rb1, evs)
  end.

Fixpoint ringbuf_rdwait_loop (fuel : nat) (rb : ringbuf_t) (flags : Z) (evs : list event)
    : res (Z * ringbuf_t * list event) :=
  match fuel with
  | O => Stuck
  | S fuel =>
    if negb (q_data (rbuf rb) =? 0) then Done (0, rb, evs)
    else if eof rb then Done (- EPIPE, rb, evs)
    else if F_ISSET flags RB_NOBLOCK then Done (- EWOULDBLOCK, rb, evs)
    else let* '(err, rb', evs') := ringbuf_sleep rb 0 evs in
         if negb (err =? 0) then Done (err, rb', evs')
         else ringbuf_rdwait_loop fuel rb' flags evs'
  end.

(** Every turn of the loop but the last consumes an event. *)
Definition ringbuf_rdwait (rb : ringbuf_t) (flags : Z) (evs : list event)
    : res (Z * ringbuf_t * list event) :=
  ringbuf_rdwait_loop (S (length evs)) rb flags evs.

Definition ringbuf_read (rb : ringbuf_t) (size flags : Z) (evs : list event)
    : res (Z * list Z * ringbuf_t * list event) :=
  let* '(retv, rb1, evs1) := ringbuf_rdwait rb flags evs in
  if retv =? 0 then
    let* '(n, buf, q) := q_read (rbuf rb1) size in
    Done (n, buf, Ringbuf q (eof rb1), evs1)
  else if retv =? - EPIPE then Done (0, [], rb1, evs1)
  else Done (retv, [], rb1, evs1).

(** The loop of [ringbuf_write] that waits for space: [inl retv] when the
    function is left, [inr] when there is space. *)
Fixpoint ringbuf_wrwait (fuel : nat) (rb : ringbuf_t) (flags : Z) (evs : list event)
    : res (option Z * ringbuf_t * list event) :=
  match fuel with
  | O => Stuck
  | S fuel =>
    if negb (q_data (rbuf rb) =? q_size (rbuf rb)) then Done (None, rb, evs)
    else if F_ISSET flags RB_NOBLOCK then Done (Some 0, rb, evs)
    else let* '(err, rb', evs') := ringbuf_sleep rb (q_size (rbuf rb)) evs in
         if negb (err =? 0) then Done (Some err, rb', evs')
         else ringbuf_wrwait fuel rb' flags evs'
  end.

Definition ringbuf_write (rb : ringbuf_t) (size : Z) (buf : list Z) (flags : Z) (evs : list event)
    : res (Z * ringbuf_t * list event) :=
  kassert negb (eof rb) in
  let* '(ret, rb1, evs1) := ringbuf_wrwait (S (length evs)) rb flags evs in
  match ret with
  | Some retv => Done (retv, rb1, evs1)
  | None =>
    let* '(n, q) := q_write (rbuf rb1) size buf in
    Done (n, Ringbuf q (eof rb1), evs1)
  end.

(** What happens between a [sync_release] and the next [sync_acquire] without
    a sleep. *)
Definition unlocked (rb : ringbuf_t) (evs : list event) : ringbuf_t * list event :=
  match evs with
  | [] => (rb, [])
  | e :: evs => (ev_before e rb, evs)
  end.

(** [buf[128]]: the bounce buffer of the [_uio] functions. *)
Definition BOUNCE : Z := 128.

Fixpoint ringbuf_read_uio_loop (fuel : nat) (m : mem) (rb : ringbuf_t) (uio : uio_t) (evs : list event)
    : res (option Z * mem * ringbuf_t * uio_t * list event) :=
  match fuel with
  | O => Stuck
  | S fuel =>
    if usize uio =? 0 then Done (None, m, rb, uio, evs)
    else
      let* '(size, buf, q) := q_read (rbuf rb) (Z.min (usize uio) BOUNCE) in
      let rb1 := Ringbuf q (eof rb) in
      if size <=? 0 then Done (None, m, rb1, uio, evs)
      else
        let* '(err, uio', m', _) := uiomove m buf size uio in
        let '(rb2, evs') := unlocked rb1 evs in
        if err <? 0 then Done (Some err, m', rb2, uio', evs')
        else ringbuf_read_uio_loop fuel m' rb2 uio' evs'
  end.

Definition ringbuf_read_uio (m : mem) (rb : ringbuf_t) (uio : uio_t) (flags : Z) (evs : list event)
    : res (Z * mem * ringbuf_t * uio_t * list event) :=
  let prev := usize uio in
  let* '(err, rb1, evs1) := ringbuf_rdwait rb flags evs in
  if negb (err =? 0) then Done (err, m, rb1, uio, evs1)
  else
    let* '(ret, m', rb2, uio', evs2) := ringbuf_read_uio_loop (S (Z.to_nat prev)) m rb1 uio evs1 in
    Done (match ret with Some e => e | None => prev - usize uio' end, m', rb2, uio', evs2).

Definition uio_grow (uio : uio_t) (n : Z) : uio_t :=
  Uio (iov uio) (iovc uio) (off uio) (u32 (usize uio + n)) (rw uio) (uflags uio).

(** The inner loop of [ringbuf_write_uio]; [moved] is a [size_t]. *)
Fixpoint ringbuf_write_uio_inner (fuel : nat) (rb : ringbuf_t) (uio : uio_t) (flags : Z)
    (buf : list Z) (retv moved : Z) (evs : list event)
    : res (option Z * ringbuf_t * uio_t * list event) :=
  match fuel with
  | O => Stuck
  | S fuel =>
    if moved =? 0 then Done (None, rb, uio, evs)
    else
      let '(rb, evs) := unlocked rb evs in
      let* '(retv, rb', evs') := ringbuf_write rb retv buf flags evs in
      if retv <? 0 then Done (Some retv, rb', uio_grow uio moved, evs')
      else if (retv =? 0) && F_ISSET flags RB_NOBLOCK then Done (None, rb', uio_grow uio moved, evs')
      else ringbuf_write_uio_inner fuel rb' uio flags buf retv (u32 (moved - retv)) evs'
  end.

Fixpoint ringbuf_write_uio_loop (fuel : nat) (m : mem) (rb : ringbuf_t) (uio : uio_t) (flags : Z)
    (evs : list event) : res (option Z * ringbuf_t * uio_t * list event) :=
  match fuel with
  | O => Stuck
  | S fuel' =>
    if usize uio =? 0 then Done (None, rb, uio, evs)
    else
      let* '(retv, uio1, _, buf) := uiomove m (replicate (Z.to_nat BOUNCE) 0) BOUNCE uio in
      if retv <? 0 then Done (Some retv, rb, uio1, evs)
      else
        let* '(ret, rb', uio2, evs') := ringbuf_write_uio_inner fuel rb uio1 flags buf retv retv evs in
        match ret with
        | Some e => Done (Some e, rb', uio2, evs')
        | None => ringbuf_write_uio_loop fuel' m rb' uio2 flags evs'
        end
  end.

Definition ringbuf_write_uio (fuel : nat) (m : mem) (rb : ringbuf_t) (uio : uio_t) (flags : Z)
    (evs : list event) : res (Z * ringbuf_t * uio_t * list event) :=
  let prev := usize uio in
  let* '(ret, rb', uio', evs') := ringbuf_write_uio_loop fuel m rb uio flags evs in
  Done (match ret with Some e => e | None => prev - usize uio' end, rb', uio', evs').

(** ** Specification *)

Context `{!ByteQueueLaws Q}.

Definition rb_wf (rb : ringbuf_t) : Prop := q_wf (rbuf rb).
Definition rb_list (rb : ringbuf_t) : list Z := q_list (rbuf rb).

(** Other threads use the ring buffer through its functions, so they leave a
    well-formed one. *)
Definition ev_ok (e : event) : Prop :=
  forall rb, rb_wf rb -> rb_wf (ev_before e rb) /\ rb_wf (ev_during e rb).

Definition rd_blocked (rb : ringbuf_t) : bool := (q_data (rbuf rb) =? 0) && negb (eof rb).
Definition wr_blocked (rb : ringbuf_t) : bool := q_data (rbuf rb) =? q_size (rbuf rb).

(** The sleeps of one call: [slept blocked rb evs err rb' evs'] when the caller
    sleeps, each time because [blocked] held, is woken up, and ends in [rb']
    with [err = 0], or with the error of the last sleep. *)
Inductive slept (blocked : ringbuf_t -> bool) :
    ringbuf_t -> list event -> Z -> ringbuf_t -> list event -> Prop :=
| slept_none rb evs : slept blocked rb evs 0 rb evs
| slept_wake rb e evs rb1 err rb2 evs2 :
    blocked rb = true ->
    ringbuf_sleep rb (q_data (rbuf rb)) (e :: evs) = Done (0, rb1, evs) ->
    slept blocked rb1 evs err rb2 evs2 -> slept blocked rb (e :: evs) err rb2 evs2
| slept_err rb e evs rb1 err :
    blocked rb = true -> err <> 0 ->
    ringbuf_sleep rb (q_data (rbuf rb)) (e :: evs) = Done (err, rb1, evs) ->
    slept blocked rb (e :: evs) err rb1 evs.

Lemma ringbuf_sleep_ok rb w e evs : rb_wf rb -> ev_ok e ->
  exists err rb1, ringbuf_sleep rb w (e :: evs) = Done (err, rb1, evs) /\ rb_wf rb1 /\
    (err = 0 \/ err = - EAGAIN \/ err = - EINTR).
Proof.
  intros Hwf He. unfold ringbuf_sleep. destruct (He _ Hwf) as [H1 _].
  destruct (He _ H1) as [_ H2]. repeat case_match; eauto 10.
Qed.

Lemma ringbuf_rdwait_loop_spec fuel rb flags evs : (length evs < fuel)%nat ->
  rb_wf rb -> Forall ev_ok evs ->
  match ringbuf_rdwait_loop fuel rb flags evs with
  | Done (r, rb1, evs1) => exists err, slept rd_blocked rb evs err rb1 evs1 /\ rb_wf rb1 /\
      (F_ISSET flags RB_NOBLOCK = true -> rb1 = rb /\ evs1 = evs) /\
      ((err <> 0 /\ r = err /\ (err = - EAGAIN \/ err = - EINTR)) \/
       (err = 0 /\ rb_list rb1 <> [] /\ r = 0) \/
       (err = 0 /\ rb_list rb1 = [] /\ eof rb1 = true /\ r = - EPIPE) \/
       (err = 0 /\ rb_list rb1 = [] /\ eof rb1 = false /\ F_ISSET flags RB_NOBLOCK = true /\
        r = - EWOULDBLOCK))
  | Stuck => exists rb1, slept rd_blocked rb evs 0 rb1 [] /\ rb_list rb1 = [] /\
      eof rb1 = false /\ F_ISSET flags RB_NOBLOCK = false
  | _ => False
  end.
Proof.
  revert rb evs. induction fuel as [|fuel IH]; intros rb evs Hf Hwf Hev; [lia|]. simpl.
  pose proof (q_data_spec _ Hwf) as Hd. fold (rb_list rb) in Hd.
  destruct (q_data (rbuf rb) =? 0) eqn:E0; cbn [negb].
  2:{ exists 0. bool_props. split_and!; [constructor|done|done|]. right; left.
      split_and!; [done| |done]. intros E. rewrite E in Hd. simpl in Hd. lia. }
  assert (rb_list rb = []) as Hl by (bool_props; apply length_zero_iff_nil; lia).
  destruct (eof rb) eqn:Ee.
  { exists 0. split_and!; [constructor|done|done|]. naive_solver. }
  destruct (F_ISSET flags RB_NOBLOCK) eqn:Enb.
  { exists 0. split_and!; [constructor|done|done|]. naive_solver. }
  destruct evs as [|e evs]; [simpl; exists rb; split_and!; [constructor|done..]|].
  apply Forall_cons in Hev as [He Hev].
  destruct (ringbuf_sleep_ok rb 0 e evs Hwf He) as (err & rb1 & Hs & Hwf1 & Hcase).
  assert (rd_blocked rb = true) as Hb by (unfold rd_blocked; by rewrite E0, Ee).
  rewrite Hs. cbn [rbind]. bool_props. rewrite <- E0 in Hs. cbn [length] in Hf.
  destruct (Z.eqb_spec err 0) as [->|Hne]; cbn [negb].
  2:{ exists err. split_and!; [by econstructor|done|done|]. left. naive_solver. }
  specialize (IH rb1 evs ltac:(lia) Hwf1 Hev).
  destruct (ringbuf_rdwait_loop fuel rb1 flags evs) as [[[r rb2] evs2]| | |]; [|done|done|].
  - destruct IH as (err & Hsl & Hwf2 & _ & Hc). exists err.
    split_and!; [by econstructor|done|done|exact Hc].
  - destruct IH as (rb2 & Hsl & Hc). exists rb2. split; [by econstructor|exact Hc].
Qed.

(** [ringbuf_read] under any interference of other threads.  It returns
    the first [min(size, available)] bytes and takes exactly these out, in
    order, as soon as there is data; 0 at end of file; -EWOULDBLOCK only with
    RB_NOBLOCK, in which case it never sleeps; -EINTR or -EAGAIN only from a
    sleep, with the buffer untouched.  It sleeps for ever only while the buffer
    stays empty and open. *)
Theorem ringbuf_read_spec rb size flags evs : rb_wf rb -> Forall ev_ok evs -> 0 <= size ->
  match ringbuf_read rb size flags evs with
  | Done (n, buf, rb', evs') => exists err rb1, slept rd_blocked rb evs err rb1 evs' /\
      rb_wf rb' /\ eof rb' = eof rb1 /\
      (F_ISSET flags RB_NOBLOCK = true -> rb1 = rb /\ evs' = evs) /\
      ((err <> 0 /\ n = err /\ (err = - EAGAIN \/ err = - EINTR) /\ rb' = rb1 /\ buf = []) \/
       (err = 0 /\ rb_list rb1 <> [] /\ n = Z.min (Z.of_nat (length (rb_list rb1))) size /\
        buf = take (Z.to_nat n) (rb_list rb1) /\ rb_list rb1 = buf ++ rb_list rb') \/
       (err = 0 /\ rb_list rb1 = [] /\ eof rb1 = true /\ n = 0 /\ rb' = rb1 /\ buf = []) \/
       (err = 0 /\ rb_list rb1 = [] /\ eof rb1 = false /\ F_ISSET flags RB_NOBLOCK = true /\
        n = - EWOULDBLOCK /\ rb' = rb1 /\ buf = []))
  | Stuck => exists rb1, slept rd_blocked rb evs 0 rb1 [] /\ rb_list rb1 = [] /\
      eof rb1 = false /\ F_ISSET flags RB_NOBLOCK = false
  | _ => False
  end.
Proof.
  intros Hwf Hev Hsz. unfold ringbuf_read, ringbuf_rdwait.
  pose proof (ringbuf_rdwait_loop_spec (S (length evs)) rb flags evs ltac:(lia) Hwf Hev) as Hspec.
  destruct (ringbuf_rdwait_loop _ rb flags evs) as [[[r rb1] evs1]| | |]; [|done|done|done].
  destruct Hspec as (err & Hsl & Hwf1 & Hnb & Hc). cbn [rbind].
  destruct Hc as [(Hne & -> & Hc)|[(-> & Hl & ->)|[(-> & Hl & He & ->)|(-> & Hl & He & Hf & ->)]]].
  - rewrite (proj2 (Z.eqb_neq err 0) Hne). rewrite (proj2 (Z.eqb_neq err (- EPIPE)))
      by (unfold EPIPE, EAGAIN, EINTR in *; lia).
    exists err, rb1. split_and!; naive_solver.
  - cbn [Z.eqb]. destruct (q_read_spec (rbuf rb1) size Hwf1 Hsz) as (q' & -> & Hq & Hql & _).
    cbn [rbind]. exists 0, rb1. split_and!; try done. right; left.
    rewrite (q_data_spec _ Hwf1). fold (rb_list rb1) in *. split_and!; try done.
    change (rb_list {| rbuf := q'; eof := eof rb1 |}) with (q_list q').
    rewrite Hql, (q_data_spec _ Hwf1). by rewrite take_drop.
  - simpl. exists 0, rb1. split_and!; naive_solver.
  - simpl. exists 0, rb1. split_and!; naive_solver.
Qed.

Lemma ringbuf_wrwait_spec fuel rb flags evs : (length evs < fuel)%nat ->
  rb_wf rb -> Forall ev_ok evs ->
  match ringbuf_wrwait fuel rb flags evs with
  | Done (r, rb1, evs1) => exists err, slept wr_blocked rb evs err rb1 evs1 /\ rb_wf rb1 /\
      (F_ISSET flags RB_NOBLOCK = true -> rb1 = rb /\ evs1 = evs) /\
      ((err <> 0 /\ r = Some err /\ (err = - EAGAIN \/ err = - EINTR)) \/
       (err = 0 /\ wr_blocked rb1 = false /\ r = None) \/
       (err = 0 /\ wr_blocked rb1 = true /\ F_ISSET flags RB_NOBLOCK = true /\ r = Some 0))
  | Stuck => exists rb1, slept wr_blocked rb evs 0 rb1 [] /\ wr_blocked rb1 = true /\
      F_ISSET flags RB_NOBLOCK = false
  | _ => False
  end.
Proof.
  revert rb evs. induction fuel as [|fuel IH]; intros rb evs Hf Hwf Hev; [lia|]. simpl.
  fold (wr_blocked rb). destruct (wr_blocked rb) eqn:Hb; cbn [negb].
  2:{ exists 0. split_and!; [constructor|done|done|naive_solver]. }
  destruct (F_ISSET flags RB_NOBLOCK) eqn:Enb.
  { exists 0. split_and!; [constructor|done|done|naive_solver]. }
  destruct evs as [|e evs]; [simpl; exists rb; split_and!; [constructor|done..]|].
  apply Forall_cons in Hev as [He Hev].
  destruct (ringbuf_sleep_ok rb (q_size (rbuf rb)) e evs Hwf He) as (err & rb1 & Hs & Hwf1 & Hcase).
  rewrite Hs. cbn [rbind]. assert (q_data (rbuf rb) = q_size (rbuf rb)) as E0
    by (unfold wr_blocked in Hb; by bool_props).
  rewrite <- E0 in Hs. cbn [length] in Hf.
  destruct (Z.eqb_spec err 0) as [->|Hne]; cbn [negb].
  2:{ exists err. split_and!; [by econstructor|done|done|]. left. naive_solver. }
  specialize (IH rb1 evs ltac:(lia) Hwf1 Hev).
  destruct (ringbuf_wrwait fuel rb1 flags evs) as [[[r rb2] evs2]| | |]; [|done|done|].
  - destruct IH as (err & Hsl & Hwf2 & _ & Hc). exists err.
    split_and!; [by econstructor|done|done|exact Hc].
  - destruct IH as (rb2 & Hsl & Hc). exists rb2. split; [by econstructor|exact Hc].
Qed.

(** [ringbuf_write] on an open buffer, under any interference.  Once there
    is room it appends the first [min(size, room)] bytes behind what the buffer
    holds and returns their number; on a full buffer it returns 0 under
    RB_NOBLOCK and never sleeps; it fails only with the -EINTR or -EAGAIN of a
    sleep, writing nothing. *)
Theorem ringbuf_write_spec rb size buf flags evs :
  rb_wf rb -> Forall ev_ok evs -> 0 <= size <= Z.of_nat (length buf) -> eof rb = false ->
  match ringbuf_write rb size buf flags evs with
  | Done (n, rb', evs') => exists err rb1, slept wr_blocked rb evs err rb1 evs' /\
      rb_wf rb' /\ eof rb' = eof rb1 /\
      (F_ISSET flags RB_NOBLOCK = true -> rb1 = rb /\ evs' = evs) /\
      ((err <> 0 /\ n = err /\ (err = - EAGAIN \/ err = - EINTR) /\ rb' = rb1) \/
       (err = 0 /\ wr_blocked rb1 = false /\
        n = Z.min (q_size (rbuf rb1) - Z.of_nat (length (rb_list rb1))) size /\
        rb_list rb' = rb_list rb1 ++ take (Z.to_nat n) buf) \/
       (err = 0 /\ wr_blocked rb1 = true /\ F_ISSET flags RB_NOBLOCK = true /\ n = 0 /\ rb' = rb1))
  | Stuck => exists rb1, slept wr_blocked rb evs 0 rb1 [] /\ wr_blocked rb1 = true /\
      F_ISSET flags RB_NOBLOCK = false
  | _ => False
  end.
Proof.
  intros Hwf Hev Hsz He. unfold ringbuf_write. rewrite He. cbn [negb].
  pose proof (ringbuf_wrwait_spec (S (length evs)) rb flags evs ltac:(lia) Hwf Hev) as Hspec.
  destruct (ringbuf_wrwait _ rb flags evs) as [[[r rb1] evs1]| | |]; [|done|done|done].
  destruct Hspec as (err & Hsl & Hwf1 & Hnb & Hc). cbn [rbind].
  destruct Hc as [(Hne & -> & Hc)|[(-> & Hb & ->)|(-> & Hb & Hf & ->)]].
  - exists err, rb1. split_and!; naive_solver.
  - destruct (q_write_spec (rbuf rb1) size buf Hwf1 Hsz) as (q' & -> & Hq & Hql & _).
    cbn [rbind]. exists 0, rb1. split_and!; try done. right; left. split_and!; try done.
    by rewrite (q_data_spec _ Hwf1).
  - exists 0, rb1. split_and!; naive_solver.
Qed.

(** ** Transfers between a ring buffer and user memory *)

(** Other threads only add data (there is one reader). *)
Definition appends (f : ringbuf_t -> ringbuf_t) : Prop :=
  forall rb, rb_wf rb -> rb_wf (f rb) /\ exists w, rb_list (f rb) = rb_list rb ++ w.
Definition ev_appends (e : event) : Prop := appends (ev_before e) /\ appends (ev_during e).

Lemma ev_appends_ok e : ev_appends e -> ev_ok e.
Proof. intros [H1 H2] rb Hwf. by destruct (H1 _ Hwf), (H2 _ Hwf). Qed.

Lemma unlocked_appends rb evs rb' evs' : rb_wf rb -> Forall ev_appends evs ->
  unlocked rb evs = (rb', evs') ->
  rb_wf rb' /\ Forall ev_appends evs' /\ exists w, rb_list rb' = rb_list rb ++ w.
Proof.
  intros Hwf Hev Hu. destruct evs as [|e evs]; simpl in Hu; injection Hu as <- <-.
  - split_and!; [done|done|]. exists []. by rewrite app_nil_r.
  - apply Forall_cons in Hev as [[He _] Hev]. destruct (He _ Hwf). done.
Qed.

Lemma ringbuf_read_uio_loop_spec fuel m rb uio evs :
  kwp_enabled = true -> user_uio uio -> Uio.wf uio -> rw uio = UIO_RD ->
  rb_wf rb -> Forall ev_appends evs -> (Z.to_nat (usize uio) < fuel)%nat ->
  exists ret m' rb' uio' evs',
    ringbuf_read_uio_loop fuel m rb uio evs = Done (ret, m', rb', uio', evs') /\ rb_wf rb' /\
    ((ret = None /\ exists bs w, m' = scatter m (take (length bs) (addrs (iov uio))) bs /\
        moved uio uio' (Z.of_nat (length bs)) /\ rb_list rb ++ w = bs ++ rb_list rb' /\
        (usize uio' = 0 \/ rb_list rb' = []))
     \/ (ret = Some (- EFAULT) /\ exists a, a ∈ addrs (iov uio) /\ ~ accessible UIO_RD m a)).
Proof.
  intros Hk. revert m rb uio evs.
  induction fuel as [|fuel IH]; intros m rb uio evs Hu Hw Hrw Hwf Hev Hf; [lia|]. simpl.
  destruct (Z.eqb_spec (usize uio) 0) as [E|E].
  { do 5 eexists. split_and!; [done|done|]. left. split; [done|]. exists [], [].
    split_and!; [done|by apply moved_refl|by rewrite app_nil_r|by left]. }
  pose proof (wf_usize _ Hw) as Hus.
  destruct (q_read_spec (rbuf rb) (Z.min (usize uio) BOUNCE) Hwf) as (q' & -> & Hq & Hql & _);
    [unfold BOUNCE; lia|].
  set (k := Z.min (q_data (rbuf rb)) (Z.min (usize uio) BOUNCE)) in *. cbn [rbind].
  pose proof (q_data_spec _ Hwf) as Hd. fold (rb_list rb) in *.
  assert (0 <= k <= usize uio) as Hk1 by (unfold k, BOUNCE; lia).
  destruct (Z.leb_spec k 0) as [Hk0|Hk0].
  { do 5 eexists. split_and!; [done|exact Hq|]. left. split; [done|]. exists [], [].
    split_and!; [done|by apply moved_refl| |right].
    - unfold rb_list at 2. simpl. rewrite Hql. replace k with 0 by lia. by rewrite app_nil_r.
    - unfold rb_list. simpl. rewrite Hql. fold (rb_list rb). unfold k, BOUNCE in *.
      apply length_zero_iff_nil. rewrite length_drop. lia. }
  set (bs1 := take (Z.to_nat k) (rb_list rb)).
  assert (length bs1 = Z.to_nat k) as Hb1 by (unfold bs1; rewrite length_take; lia).
  destruct (uiomove_rd m bs1 k uio) as (r & uio1 & m1 & b1 & -> & Hc); try done. cbn [rbind].
  destruct (unlocked _ evs) as [rb2 evs1] eqn:Eu.
  destruct (unlocked_appends (Ringbuf q' (eof rb)) _ _ _ Hq Hev Eu) as (Hwf2 & Hev1 & w1 & Hw1).
  destruct Hc as [(-> & -> & Hmv)|(-> & a & Ha & Hna)].
  2:{ simpl. do 5 eexists. split_and!; [done|done|]. right. split; [done|]. exists a.
      split; [|done]. revert Ha. apply subseteq_take. }
  rewrite (proj2 (Z.ltb_ge k 0)) by lia. destruct Hmv as (W1 & A1 & S1 & O1 & R1 & F1).
  destruct (IH (scatter m (take (Z.to_nat k) (addrs (iov uio))) bs1) rb2 uio1 evs1)
    as (ret & m' & rb' & uio' & evs' & -> & Hwf' & Hc);
    [unfold user_uio; by rewrite F1|done|congruence|done|done|lia|].
  do 5 eexists. split_and!; [done|done|].
  destruct Hc as [(-> & bs2 & w2 & -> & Hmv & Hl & Hend)|(-> & a & Ha & Hna)].
  - left. split; [done|]. exists (bs1 ++ bs2), (w1 ++ w2). rewrite length_app, Hb1.
    split_and!; [| | |exact Hend].
    + rewrite A1, <- scatter_app.
      * f_equal. by rewrite take_take_drop.
      * rewrite length_take. lia.
    + rewrite Nat2Z.inj_add, Z2Nat.id by lia. eapply moved_trans; [lia|lia| |exact Hmv].
      split_and!; done.
    + rewrite <- app_assoc, <- Hl, Hw1, !app_assoc. f_equal. f_equal. unfold rb_list at 2. simpl.
      rewrite Hql. unfold bs1. by rewrite take_drop.
  - right. split; [done|]. exists a. rewrite A1 in Ha. split; [revert Ha; apply subseteq_drop|].
    intros Hac. apply Hna. by apply accessible_scatter.
Qed.

(** [ringbuf_read_uio] with any number of concurrent writers.  After a
    wait that ended with data it copies bytes to consecutive user addresses
    until the descriptor is full or the buffer is empty: what it delivered
    followed by what is left is exactly what was there and what was added
    meanwhile, so nothing is lost, repeated or reordered.  Otherwise it returns
    the error of the sleep, -EWOULDBLOCK, -EPIPE at end of file, or -EFAULT
    when one of the addresses cannot be written. *)
Theorem ringbuf_read_uio_spec m rb uio flags evs :
  kwp_enabled = true -> user_uio uio -> Uio.wf uio -> rw uio = UIO_RD ->
  rb_wf rb -> Forall ev_appends evs ->
  match ringbuf_read_uio m rb uio flags evs with
  | Done (n, m', rb', uio', evs') =>
      exists err rb1 evs1, slept rd_blocked rb evs err rb1 evs1 /\ rb_wf rb' /\
      ((err <> 0 /\ n = err /\ (err = - EAGAIN \/ err = - EINTR) /\ m' = m /\ rb' = rb1) \/
       (err = 0 /\ rb_list rb1 = [] /\ m' = m /\ rb' = rb1 /\
        n = (if eof rb1 then - EPIPE else - EWOULDBLOCK)) \/
       (err = 0 /\ rb_list rb1 <> [] /\ exists bs w,
        n = Z.of_nat (length bs) /\ m' = scatter m (take (length bs) (addrs (iov uio))) bs /\
        moved uio uio' n /\ rb_list rb1 ++ w = bs ++ rb_list rb' /\
        (usize uio' = 0 \/ rb_list rb' = [])) \/
       (err = 0 /\ n = - EFAULT /\ exists a, a ∈ addrs (iov uio) /\ ~ accessible UIO_RD m a))
  | Stuck => exists rb1, slept rd_blocked rb evs 0 rb1 [] /\ rb_list rb1 = [] /\
      eof rb1 = false /\ F_ISSET flags RB_NOBLOCK = false
  | _ => False
  end.
Proof.
  intros Hk Hu Hw Hrw Hwf Hev. unfold ringbuf_read_uio, ringbuf_rdwait.
  assert (Forall ev_ok evs) as Hok by (eapply Forall_impl; [exact Hev|apply ev_appends_ok]).
  pose proof (ringbuf_rdwait_loop_spec (S (length evs)) rb flags evs ltac:(lia) Hwf Hok) as Hspec.
  destruct (ringbuf_rdwait_loop _ rb flags evs) as [[[r rb1] evs1]| | |]; [|done|done|done].
  destruct Hspec as (err & Hsl & Hwf1 & _ & Hc). cbn [rbind].
  destruct Hc as [(Hne & -> & Hc)|[(-> & Hl & ->)|[(-> & Hl & He & ->)|(-> & Hl & He & Hf & ->)]]].
  - rewrite (proj2 (Z.eqb_neq err 0) Hne). simpl. exists err, rb1, evs1. naive_solver.
  - cbn [Z.eqb negb]. assert (Forall ev_appends evs1) as Hev1
      by (clear -Hsl Hev; induction Hsl; [done|..]; inv Hev; auto).
    destruct (ringbuf_read_uio_loop_spec (S (Z.to_nat (usize uio))) m rb1 uio evs1)
      as (ret & m' & rb' & uio' & evs' & -> & Hwf' & Hcase); try done; [lia|]. cbn [rbind].
    exists 0, rb1, evs1. split_and!; [done|done|]. right; right.
    destruct Hcase as [(-> & bs & w & Hm & Hmv & Hcase)|(-> & Hcase)]; [left|by right].
    split_and!; [done|done|]. assert (usize uio - usize uio' = Z.of_nat (length bs)) as ->
      by (destruct Hmv as (_ & _ & -> & _); lia). by exists bs, w.
  - simpl. exists 0, rb1, evs1. rewrite He. naive_solver.
  - simpl. exists 0, rb1, evs1. rewrite He. naive_solver.
Qed.

(** Other threads only take data out of an open buffer. *)
Definition drains (f : ringbuf_t -> ringbuf_t) : Prop :=
  forall rb, rb_wf rb -> rb_wf (f rb) /\ eof (f rb) = eof rb /\
    q_size (rbuf (f rb)) = q_size (rbuf rb) /\ exists d, rb_list rb = d ++ rb_list (f rb).

Definition room (rb : ringbuf_t) : Z := q_size (rbuf rb) - Z.of_nat (length (rb_list rb)).

(** One turn of [ringbuf_write_uio] when the chunk fits. *)
Lemma ringbuf_write_uio_inner_fits fuel rb uio flags buf n evs :
  rb_wf rb -> eof rb = false -> Forall (fun e => drains (ev_before e)) evs -> (2 <= fuel)%nat ->
  0 < n <= room rb -> n <= Z.of_nat (length buf) ->
  exists rb' evs' d, ringbuf_write_uio_inner fuel rb uio flags buf n n evs = Done (None, rb', uio, evs') /\
    rb_wf rb' /\ eof rb' = false /\ Forall (fun e => drains (ev_before e)) evs' /\
    rb_list rb ++ take (Z.to_nat n) buf = d ++ rb_list rb' /\ room rb - n <= room rb'.
Proof.
  intros Hwf He Hev Hf Hn Hb. destruct fuel as [|[|fuel]]; [lia|lia|].
  assert (exists rb1 evs1 d, unlocked rb evs = (rb1, evs1) /\ rb_wf rb1 /\ eof rb1 = false /\
    Forall (fun e => drains (ev_before e)) evs1 /\ q_size (rbuf rb1) = q_size (rbuf rb) /\
    rb_list rb = d ++ rb_list rb1) as (rb1 & evs1 & d & Hu & Hwf1 & He1 & Hev1 & Hs1 & Hl1).
  { destruct evs as [|e evs]; simpl; [by exists rb, [], []|].
    apply Forall_cons in Hev as [Hd Hev]. destruct (Hd _ Hwf) as (? & ? & ? & d & ?).
    exists (ev_before e rb), evs, d. split_and!; congruence || done. }
  cbn [ringbuf_write_uio_inner]. rewrite (proj2 (Z.eqb_neq n 0)) by lia. rewrite Hu.
  unfold ringbuf_write. rewrite He1. cbn [negb].
  pose proof (q_data_spec _ Hwf1) as Hd1. fold (rb_list rb1) in Hd1.
  pose proof (q_data_size _ Hwf1) as Hds. unfold room in *.
  assert (length (rb_list rb) = (length d + length (rb_list rb1))%nat) as Hlen
    by (by rewrite Hl1, length_app).
  cbn [ringbuf_wrwait]. rewrite (proj2 (Z.eqb_neq _ _)) by lia. cbn [negb rbind].
  destruct (q_write_spec (rbuf rb1) n buf Hwf1) as (q' & -> & Hq & Hql & Hqs); [lia|].
  rewrite Z.min_r in * by lia. cbn [rbind]. rewrite (proj2 (Z.ltb_ge n 0)) by lia.
  rewrite (proj2 (Z.eqb_neq n 0)) by lia. cbn [andb]. rewrite Z.sub_diag.
  cbn [ringbuf_write_uio_inner]. fold (rb_list rb1) in Hql.
  exists (Ringbuf q' (eof rb1)), evs1, d. split_and!; try done.
  - rewrite Hl1, <- app_assoc. f_equal. unfold rb_list at 2. simpl. by rewrite Hql.
  - unfold rb_list. simpl. fold (rb_list rb). rewrite Hql, length_app, length_take, Hqs. lia.
Qed.

Lemma ringbuf_write_uio_loop_fits fuel m rb uio flags evs :
  kwp_enabled = true -> user_uio uio -> Uio.wf uio -> rw uio = UIO_WR ->
  rb_wf rb -> eof rb = false -> Forall (fun e => drains (ev_before e)) evs ->
  usize uio <= room rb -> (Z.to_nat (usize uio) + 2 <= fuel)%nat ->
  exists ret rb' uio' evs', ringbuf_write_uio_loop fuel m rb uio flags evs = Done (ret, rb', uio', evs') /\
    ((ret = None /\ usize uio' = 0 /\ rb_wf rb' /\
      exists d, rb_list rb ++ gather m (addrs (iov uio)) = d ++ rb_list rb') \/
     (ret = Some (- EFAULT) /\ exists a, a ∈ addrs (iov uio) /\ ~ accessible UIO_WR m a)).
Proof.
  intros Hk. revert rb uio evs.
  induction fuel as [|fuel IH]; intros rb uio evs Hu Hw Hrw Hwf He Hev Hroom Hf; [lia|].
  cbn [ringbuf_write_uio_loop]. pose proof (wf_usize _ Hw) as Hus.
  destruct (Z.eqb_spec (usize uio) 0) as [E|E].
  { do 4 eexists. split; [done|]. left. split_and!; [done|done|done|]. exists [].
    assert (addrs (iov uio) = []) as -> by (apply length_zero_iff_nil; lia).
    simpl. by rewrite app_nil_r. }
  destruct (uiomove_wr m (replicate (Z.to_nat BOUNCE) 0) BOUNCE uio)
    as (r & uio1 & m1 & buf & -> & Hc); try done.
  set (n := Z.min BOUNCE (usize uio)) in *. cbn [rbind].
  assert (0 < n <= usize uio) as Hn by (unfold n, BOUNCE; lia).
  destruct Hc as [(-> & -> & Hlb & Htk & Hmv)|(-> & a & Ha & Hna)].
  2:{ simpl. do 4 eexists. split; [done|]. right. split; [done|]. exists a.
      split; [|done]. revert Ha. apply subseteq_take. }
  rewrite (proj2 (Z.ltb_ge n 0)) by lia. rewrite length_replicate in Hlb.
  destruct (ringbuf_write_uio_inner_fits (S fuel) rb uio1 flags buf n evs)
    as (rb1 & evs1 & d1 & -> & Hwf1 & He1 & Hev1 & Hl1 & Hroom1); try done; [lia|lia|unfold n; lia|].
  cbn [rbind]. destruct Hmv as (W1 & A1 & S1 & O1 & R1 & F1).
  destruct (IH rb1 uio1 evs1) as (ret & rb' & uio' & evs' & -> & Hc);
    [unfold user_uio; by rewrite F1|done|congruence|done|done|done|lia|lia|].
  do 4 eexists. split; [done|]. destruct Hc as [(-> & Hz & Hwf' & d2 & Hl2)|(-> & a & Ha & Hna)].
  - left. split_and!; [done|done|done|]. exists (d1 ++ d2).
    rewrite <- app_assoc, <- Hl2, app_assoc, <- Hl1, <- app_assoc. f_equal.
    rewrite Htk, A1, <- gather_app. by rewrite take_drop.
  - right. split; [done|]. exists a. rewrite A1 in Ha. split; [|done]. revert Ha. apply subseteq_drop.
Qed.

(** [ringbuf_write_uio] when everything fits, with concurrent readers: it
    returns the size of the descriptor and the buffer has received exactly the
    user's bytes behind the old ones, in order (readers may have taken some
    from the front); or it returns -EFAULT and one of the addresses cannot be
    read.  It never sleeps. *)
Theorem ringbuf_write_uio_fits fuel m rb uio flags evs :
  kwp_enabled = true -> user_uio uio -> Uio.wf uio -> rw uio = UIO_WR ->
  rb_wf rb -> eof rb = false -> Forall (fun e => drains (ev_before e)) evs ->
  usize uio <= room rb -> (Z.to_nat (usize uio) + 2 <= fuel)%nat ->
  exists n rb' uio' evs', ringbuf_write_uio fuel m rb uio flags evs = Done (n, rb', uio', evs') /\
    ((n = usize uio /\ usize uio' = 0 /\ rb_wf rb' /\
      exists d, rb_list rb ++ gather m (addrs (iov uio)) = d ++ rb_list rb') \/
     (n = - EFAULT /\ exists a, a ∈ addrs (iov uio) /\ ~ accessible UIO_WR m a)).
Proof.
  intros. unfold ringbuf_write_uio.
  destruct (ringbuf_write_uio_loop_fits fuel m rb uio flags evs)
    as (ret & rb' & uio' & evs' & -> & Hc); try done. cbn [rbind]. do 4 eexists. split; [done|].
  destruct Hc as [(-> & Hz & Hc)|(-> & Hc)]; [left|by right]. split_and!; [lia|done|apply Hc..].
Qed.

End Ringbuf.
Arguments ringbuf_t : clear implicits.
Arguments event : clear implicits.

(** [ringbuf_alloc]: the buffer is allocated with VM_WAIT, so there is one;
    [blk] is the block the allocator returns. *)
Definition ringbuf_alloc (blk : Z * list Z) (sz : Z) : res (Z * ringbuf_t cbuf_t) :=
  let* c := deref (cbuf_alloc (Some blk) sz).2 in Done (0, Ringbuf c false).

(** ** Concrete runs on circular buffers *)

Definition sample_rb : ringbuf_t cbuf_t := Ringbuf (Cbuf [10; 11; 0; 0] 0x1000 0x1004 0x1000 0x1002 2) false.
Definition nop_event : event cbuf_t := Event id id false.
Definition sample_rd : uio_t := Uio [Iovec 0x2000 2; Iovec 0x3000 1] 2 0 3 UIO_RD UIO_USER.

Lemma sample_rb_wf : rb_wf sample_rb.
Proof. apply Build_wf; simpl; (reflexivity || lia). Qed.

Lemma nop_event_ok : Forall ev_ok [nop_event].
Proof. by apply Forall_singleton. Qed.

Lemma ringbuf_read_spec_witness : exists rb',
  ringbuf_read sample_rb 1 0 [nop_event] = Done (1, [10], rb', [nop_event]) /\ rb_wf rb' /\ rb_list rb' = [11].
Proof.
  pose proof (ringbuf_read_spec sample_rb 1 0 [nop_event] sample_rb_wf nop_event_ok ltac:(lia)) as H.
  assert (exists rb', ringbuf_read sample_rb 1 0 [nop_event] = Done (1, [10], rb', [nop_event]) /\ rb_list rb' = [11])
    as (rb' & E & L) by (eexists; split; vm_compute; reflexivity).
  rewrite E in H. destruct H as (err & rb1 & _ & Hwf & _). exists rb'. split; [exact E|]. split; [exact Hwf|exact L].
Defined.

Lemma ringbuf_write_spec_witness : exists rb',
  ringbuf_write sample_rb 3 [1; 2; 3] 0 [nop_event] = Done (2, rb', [nop_event]) /\ rb_wf rb' /\
  rb_list rb' = [10; 11; 1; 2].
Proof.
  pose proof (ringbuf_write_spec sample_rb 3 [1; 2; 3] 0 [nop_event] sample_rb_wf nop_event_ok
    ltac:(simpl; lia) eq_refl) as H.
  assert (exists rb', ringbuf_write sample_rb 3 [1; 2; 3] 0 [nop_event] = Done (2, rb', [nop_event]) /\
    rb_list rb' = [10; 11; 1; 2]) as (rb' & E & L) by (eexists; split; vm_compute; reflexivity).
  rewrite E in H. destruct H as (err & rb1 & _ & Hwf & _). exists rb'. split; [exact E|]. split; [exact Hwf|exact L].
Defined.

(** Four user bytes at 0x2000. *)
Definition ring_mem : mem :=
  list_to_map (zip [0x2000; 0x2001; 0x2002; 0x2003] (flip Cell true <$> [1; 2; 3; 4])).
Definition ring_uio (rw n : Z) : uio_t := Uio [Iovec 0x2000 n] 1 0 n rw UIO_USER.

Lemma ring_uio_wf rw n : 0 <= n <= 4 -> Uio.wf (ring_uio rw n).
Proof.
  intros. constructor; [|unfold ring_uio, addrs; cbn [iov map concat usize iov_base iov_len];
    rewrite app_nil_r, length_seqZ; lia|simpl; lia].
  apply Forall_singleton. unfold iovec_ok. simpl. lia.
Qed.

Lemma nop_event_appends : Forall ev_appends [nop_event].
Proof.
  apply Forall_singleton.
  split; intros rb Hwf; (split; [done|]); exists []; by rewrite app_nil_r.
Qed.

Lemma ringbuf_read_uio_spec_witness : exists m' rb' uio' evs',
  ringbuf_read_uio ring_mem sample_rb (ring_uio UIO_RD 4) 0 [nop_event] = Done (2, m', rb', uio', evs') /\
  gather m' [0x2000; 0x2001; 0x2002] = [10; 11; 3] /\ rb_wf rb'.
Proof.
  pose proof (ringbuf_read_uio_spec ring_mem sample_rb (ring_uio UIO_RD 4) 0 [nop_event]
    eq_refl eq_refl ltac:(apply ring_uio_wf; lia) eq_refl sample_rb_wf nop_event_appends) as H.
  assert (exists m' rb' uio' evs', ringbuf_read_uio ring_mem sample_rb (ring_uio UIO_RD 4) 0 [nop_event] =
    Done (2, m', rb', uio', evs') /\ gather m' [0x2000; 0x2001; 0x2002] = [10; 11; 3])
    as (m' & rb' & uio' & evs' & E & G) by (vm_compute; eauto 10).
  rewrite E in H. destruct H as (err & rb1 & evs1 & _ & Hwf & _).
  exists m', rb', uio', evs'. split; [exact E|]. split; [exact G|exact Hwf].
Defined.

Lemma ringbuf_write_uio_fits_witness : exists rb' uio' evs',
  ringbuf_write_uio 10 ring_mem sample_rb (ring_uio UIO_WR 2) 0 [nop_event] = Done (2, rb', uio', evs').
Proof.
  destruct (ringbuf_write_uio_fits 10 ring_mem sample_rb (ring_uio UIO_WR 2) 0 [nop_event])
    as (n & rb' & uio' & evs' & Hrun & _); try done.
  - apply ring_uio_wf; lia.
  - apply Forall_singleton. intros rb Hwf. split_and!; try done. by exists [].
  - simpl. lia.
  - exists rb', uio', evs'. rewrite Hrun. vm_compute in Hrun. by injection Hrun as <- _ _ _.
Defined.

(** ** Partial writes

    The inner loop of [ringbuf_write_uio] starts again at the beginning of its
    buffer after a partial write, so the bytes that were accepted first are
    written a second time and the rest never. *)

(** An empty ring buffer with room for two bytes. *)
Definition small_rb : ringbuf_t cbuf_t := Ringbuf (Cbuf [0; 0] 0x1000 0x1002 0x1000 0x1000 0) false.

(** A reader that takes everything. *)
Definition drain_event : event cbuf_t :=
  Event (fun rb => Ringbuf (cbuf_discard (rbuf rb)) (eof rb)) id false.

(** writing the four user bytes 1 2 3 4 to a ring buffer with room for two,
    with a reader that takes the first two bytes in between, reports that all
    four were written; but what follows the first two bytes is 1 2 again. *)
Theorem ringbuf_write_uio_repeats : exists rb1 rb' uio',
  ringbuf_write small_rb 4 [1; 2; 3; 4] 0 [] = Done (2, rb1, []) /\ rb_list rb1 = [1; 2] /\
  gather ring_mem (addrs (iov (ring_uio UIO_WR 4))) = [1; 2; 3; 4] /\
  ringbuf_write_uio 10 ring_mem small_rb (ring_uio UIO_WR 4) 0 [nop_event; drain_event] =
    Done (4, rb', uio', []) /\
  rb_list rb' = [1; 2].
Proof. do 3 eexists. split_and!; vm_compute; reflexivity. Qed.

(** with RB_NOBLOCK a full ring buffer ends only the inner loop; the outer
    one calls [uiomove] again although the array of vectors is used up, and
    leaves it. *)
Theorem ringbuf_write_uio_noblock_overrun :
  ringbuf_write_uio 10 ring_mem small_rb (ring_uio UIO_WR 4) RB_NOBLOCK [] = Fault.
Proof. vm_compute. reflexivity. Qed.
