(* ===== verification/File.v ===== *)
(** * vfs/file.c and vfs/proc.c: open files and descriptor tables

    A file is a reference counted object.  References are held by the slots of
    the descriptor tables of the processes and by kernel code that is using a
    file (a ghost count, [held]).  Each operation is one step; the locks of the
    code make the table updates atomic and the counters are atomic.

    The close callback of a file acts on state of another component ([W], for
    example the pipes): it is given by an instance of [Fops]. *)
From stdpp Require Import base tactics option list numbers gmap fin_maps.
From Stdlib Require Import ZArith Lia Bool.
From S2P Require Import Prelude.

(** ** Files *)

Inductive ftype_t := FUNK | FREG | FDIR | FDEV | FSOCK | FPIPE.
#[export] Instance ftype_eq_dec : EqDecision ftype_t.
Proof. solve_decision. Defined.

Definition O_RDONLY : Z := 0.
Definition O_WRONLY : Z := 1.
Definition O_RDWR : Z := 2.
Definition O_NONBLOCK : Z := 0x800.
Definition O_CLOEXEC : Z := 0x80000.
Definition O_PATH : Z := 0x200000.
Definition O_ACCMODE : Z := Z.lor 3 O_PATH.

Definition FACC (flags : Z) : Z := Z.land flags O_ACCMODE.
Definition FWRITEABLE (flags : Z) : bool := (FACC flags =? O_WRONLY) || (FACC flags =? O_RDWR).
Definition FREADABLE (flags : Z) : bool :=
  ((FACC flags =? O_RDONLY) && (Z.land flags O_PATH =? 0)) || (FACC flags =? O_RDWR).

Record file_t := File {
  ref : Z;
  flags : Z;
  fops : Z;             (* address of the table of operations, 0 before it is set *)
  priv : Z;
  type : ftype_t;
  foff : Z;
  path : option (Z * Z);  (* the vnode and its mode *)
}.

Definition set_ref (f : file_t) (r : Z) : file_t :=
  File r (flags f) (fops f) (priv f) (type f) (foff f) (path f).

Class Fops (W : Type) := {
  vnode_fops : Z;
  dev_ops : Z;
  (** The close callback of a table of operations, if it has one. *)
  fop_close : Z -> option (file_t -> W -> res W);
}.

(** What the descriptor code relies on: a relation between the files and the
    state behind them that does not depend on the counters, and under which
    closing a file succeeds and keeps the relation for the files that remain. *)
Class FopsLaws (W : Type) `{Fops W} := {
  wok : gmap Z file_t -> W -> Prop;
  wok_ref : forall h w a f r, wok h w -> h !! a = Some f -> wok (<[a := set_ref f r]> h) w;
  wok_close : forall h w a f close, wok h w -> h !! a = Some f -> fop_close (fops f) = Some close ->
    exists w', close f w = Done w' /\ wok (delete a h) w';
  wok_noclose : forall h w a f, wok h w -> h !! a = Some f -> fop_close (fops f) = None ->
    wok (delete a h) w;
}.

Section File.
Context {W : Type} `{Fops W}.

(** The files that exist, by address, and the state behind the callbacks. *)
Record fstate := FS { heap : gmap Z file_t; world : W }.

Definition S_IFMT : Z := 0xF000.
Definition S_IFDIR : Z := 0x4000.
Definition S_IFCHR : Z := 0x2000.
Definition S_IFBLK : Z := 0x6000.
Definition S_IFREG : Z := 0x8000.
Definition S_IFLNK : Z := 0xA000.

(** [mem]: what [vm_slab_alloc] returned. *)
Definition file_do_alloc (mem : option Z) (path : option (Z * Z)) (flags : Z) (s : fstate)
    : res (Z * option Z * fstate) :=
  match mem with
  | None => Done (- ENOMEM, None, s)
  | Some a =>
    let put fops type := Done (0, Some a, FS (<[a := File 1 flags fops 0 type 0 path]> (heap s)) (world s)) in
    match path with
    | None => put 0 FUNK
    | Some (_, mode) =>
      let t := Z.land mode S_IFMT in
      if (t =? S_IFREG) || (t =? S_IFLNK) then put vnode_fops FREG
      else if t =? S_IFDIR then put vnode_fops FDIR
      else if (t =? S_IFCHR) || (t =? S_IFBLK) then put dev_ops FDEV
      else Panic
    end
  end.

Definition file_alloc (mem : option Z) (ty : ftype_t) (flags ops : Z) (s : fstate)
    : res (Z * option Z * fstate) :=
  let* '(err, fp, s1) := file_do_alloc mem None flags s in
  match fp with
  | None => Done (err, None, s1)
  | Some a =>
    let* f := deref (heap s1 !! a) in
    Done (err, Some a,
      FS (<[a := File (ref f) (File.flags f) ops (priv f) ty (foff f) (path f)]> (heap s1)) (world s1))
  end.

Definition file_alloc_path (mem : option Z) (path : Z * Z) (flags : Z) (s : fstate)
    : res (Z * option Z * fstate) :=
  file_do_alloc mem (Some path) flags s.

Definition file_ref (s : fstate) (a : Z) : res fstate :=
  let* f := deref (heap s !! a) in
  let* r := ref_inc (ref f) in
  Done (FS (<[a := set_ref f r]> (heap s)) (world s)).

Definition file_close (s : fstate) (a : Z) : res fstate :=
  let* f := deref (heap s !! a) in
  match fop_close (fops f) with
  | Some close => let* w := close f (world s) in Done (FS (heap s) w)
  | None => Done s
  end.

Definition file_free (s : fstate) (a : Z) : res fstate :=
  let* f := deref (heap s !! a) in Done (FS (delete a (heap s)) (world s)).

Definition file_unref (s : fstate) (a : Z) : res fstate :=
  let* f := deref (heap s !! a) in
  let* '(r, last) := ref_dec (ref f) in
  let s1 := FS (<[a := set_ref f r]> (heap s)) (world s) in
  if last then let* s2 := file_close s1 a in file_free s2 a else Done s1.

Definition file_set_priv (s : fstate) (a p : Z) : res fstate :=
  let* f := deref (heap s !! a) in
  if negb (priv f =? 0) && negb (p =? 0) then Panic
  else Done (FS (<[a := File (ref f) (flags f) (fops f) p (type f) (foff f) (path f)]> (heap s)) (world s)).

(** ** Descriptor tables *)

Definition PROC_FILES : Z := 50.
Definition FLAG_CLOEXEC : Z := 1.

(** A slot holds the address of the file and, in bit 0, the CLOEXEC flag. *)
Definition slot_file (v : Z) : Z := Z.land v (Z.lnot FLAG_CLOEXEC).
Definition slot_cloexec (v : Z) : bool := negb (Z.land v FLAG_CLOEXEC =? 0).
Definition fd_invalid (fd : Z) : bool := (fd <? 0) || (PROC_FILES <=? fd).

(** The descriptor tables of the processes, by process. *)
Record kstate := K { fs : fstate; tables : gmap Z (list Z) }.

Definition slot (k : kstate) (pid fd : Z) : res Z :=
  let* pls := deref (tables k !! pid) in deref (pls !! Z.to_nat fd).
Definition set_slot (k : kstate) (pid fd v : Z) : kstate :=
  K (fs k) (alter (fun pls => <[Z.to_nat fd := v]> pls) pid (tables k)).
Definition with_fs (k : kstate) (s : fstate) : kstate := K s (tables k).

Lemma with_fs_with_fs k s s' : with_fs (with_fs k s) s' = with_fs k s'.
Proof. done. Qed.

Definition vfs_proc_init (k : kstate) (pid : Z) (was_forked : bool) : kstate :=
  if was_forked then k
  else K (fs k) (<[pid := replicate (Z.to_nat PROC_FILES) 0]> (tables k)).

Fixpoint vfs_proc_fork_loop (s : fstate) (src : list Z) : res fstate :=
  match src with
  | [] => Done s
  | v :: src =>
    if negb (slot_file v =? 0)
    then let* s := file_ref s (slot_file v) in vfs_proc_fork_loop s src
    else kassert negb (slot_cloexec v) in vfs_proc_fork_loop s src
  end.

Definition vfs_proc_fork (k : kstate) (dst src : Z) : res kstate :=
  let* pls := deref (tables k !! src) in
  let* s := vfs_proc_fork_loop (fs k) pls in
  Done (K s (<[dst := pls]> (tables k))).

Fixpoint vfs_proc_exec_loop (n : nat) (k : kstate) (pid i : Z) : res kstate :=
  match n with
  | O => Done k
  | S n =>
    let* v := slot k pid i in
    if negb (slot_file v =? 0) then
      let* f := deref (heap (fs k) !! slot_file v) in
      if slot_cloexec v || bool_decide (type f = FDIR) then
        let* s := file_unref (fs k) (slot_file v) in
        vfs_proc_exec_loop n (set_slot (with_fs k s) pid i 0) pid (i + 1)
      else vfs_proc_exec_loop n k pid (i + 1)
    else vfs_proc_exec_loop n k pid (i + 1)
  end.

Definition vfs_proc_exec (k : kstate) (pid : Z) : res kstate :=
  vfs_proc_exec_loop (Z.to_nat PROC_FILES) k pid 0.

Fixpoint vfs_proc_exit_loop (s : fstate) (pls : list Z) : res fstate :=
  match pls with
  | [] => Done s
  | v :: pls =>
    if negb (v =? 0) then let* s := file_unref s (slot_file v) in vfs_proc_exit_loop s pls
    else vfs_proc_exit_loop s pls
  end.

(** The table goes away with the process. *)
Definition vfs_proc_exit (k : kstate) (pid : Z) : res kstate :=
  let* pls := deref (tables k !! pid) in
  let* s := vfs_proc_exit_loop (fs k) pls in
  Done (K s (delete pid (tables k))).

Definition fdfree (k : kstate) (pid fd : Z) : res (Z * kstate) :=
  if fd_invalid fd then Done (- EBADF, k)
  else
    let* v := slot k pid fd in
    let k1 := set_slot k pid fd 0 in
    if negb (slot_file v =? 0)
    then let* s := file_unref (fs k1) (slot_file v) in Done (0, with_fs k1 s)
    else Done (- EBADF, k1).

Fixpoint fdalloc_loop (n : nat) (k : kstate) (pid file : Z) (cloexec : bool) (i : Z) : res (Z * kstate) :=
  match n with
  | O => Done (- ENFILE, k)
  | S n =>
    let* v := slot k pid i in
    if v =? 0 then
      let* s := file_ref (fs k) file in
      let k1 := set_slot (with_fs k s) pid i (if cloexec then Z.lor file FLAG_CLOEXEC else file) in
      Done (i, k1)
    else fdalloc_loop n k pid file cloexec (i + 1)
  end.

Definition fdalloc_intern (k : kstate) (pid file : Z) (cloexec : bool) (min : Z) : res (Z * kstate) :=
  if (min <? 0) || (PROC_FILES <=? min) then Done (- EINVAL, k)
  else
    kassert (Z.land file FLAG_CLOEXEC =? 0) in
    let* '(r, k1) := fdalloc_loop (Z.to_nat (PROC_FILES - min)) k pid file cloexec min in
    if 0 <=? r then
      let* v := slot k1 pid r in
      let* f := deref (heap (fs k1) !! slot_file v) in
      kassert negb (fops f =? 0) in Done (r, k1)
    else Done (r, k1).

Definition fdalloc (k : kstate) (pid file : Z) (cloexec : bool) (min : Z) : res (Z * kstate) :=
  fdalloc_intern k pid file cloexec min.

Definition fdalloc2 (k : kstate) (pid file0 file1 : Z) (cloexec : bool) : res (Z * Z * Z * kstate) :=
  let* '(fd0, k1) := fdalloc_intern k pid file0 cloexec 0 in
  if fd0 <? 0 then Done (fd0, fd0, 0, k1)
  else
    let* '(fd1, k2) := fdalloc_intern k1 pid file1 cloexec 0 in
    if fd1 <? 0 then
      let k3 := set_slot k2 pid fd0 0 in
      let* s := file_unref (fs k3) file0 in Done (fd1, fd0, fd1, with_fs k3 s)
    else Done (0, fd0, fd1, k2).

Definition fddup (k : kstate) (pid file newfd : Z) : res (Z * kstate) :=
  if fd_invalid newfd then Done (- EBADF, k)
  else
    let* s := file_ref (fs k) file in
    let* v := slot k pid newfd in
    let k1 := set_slot (with_fs k s) pid newfd file in
    if negb (slot_file v =? 0)
    then let* s := file_unref (fs k1) (slot_file v) in Done (newfd, with_fs k1 s)
    else Done (newfd, k1).

(** NULL is 0. *)
Definition fdget (k : kstate) (pid fd : Z) : res (Z * kstate) :=
  if fd_invalid fd then Done (0, k)
  else
    let* v := slot k pid fd in
    if negb (slot_file v =? 0)
    then let* s := file_ref (fs k) (slot_file v) in Done (slot_file v, with_fs k s)
    else Done (0, k).

Definition fd_cloexec_get (k : kstate) (pid fd : Z) : res Z :=
  if fd_invalid fd then Done (- EBADF)
  else
    let* v := slot k pid fd in
    if v =? 0 then Done (- EBADF) else Done (Z.land v FLAG_CLOEXEC).

Definition fd_cloexec_set (k : kstate) (pid fd : Z) (cloexec : bool) : res (Z * kstate) :=
  if fd_invalid fd then Done (- EBADF, k)
  else
    let* v := slot k pid fd in
    if v =? 0 then Done (- EBADF, k)
    else Done (0, set_slot k pid fd (if cloexec then Z.lor v FLAG_CLOEXEC else Z.land v (Z.lnot FLAG_CLOEXEC))).

(** ** The counting invariant *)

(** References from descriptor slots. *)
Definition cnt_list (a : Z) (l : list Z) : Z :=
  Z.of_nat (length (filter (fun v => slot_file v = a) l)).
Definition cnt (a : Z) (t : gmap Z (list Z)) : Z :=
  map_fold (fun _ l n => cnt_list a l + n) 0 t.

Definition refs (h : gmap Z file_t) (a : Z) : Z :=
  match h !! a with Some f => ref f | None => 0 end.

(** [held a]: how many references to the file at [a] kernel code owns. *)
Definition upd (held : Z -> Z) (a d : Z) : Z -> Z := fun x => held x + (if x =? a then d else 0).

Record inv (h : gmap Z file_t) (t : gmap Z (list Z)) (held : Z -> Z) : Prop := {
  inv_len : forall pid l, t !! pid = Some l -> length l = Z.to_nat PROC_FILES;
  inv_slots : forall pid l v, t !! pid = Some l -> v ∈ l -> v <> 0 -> slot_file v <> 0;
  inv_heap : forall a f, h !! a = Some f ->
    0 < a /\ Z.land a FLAG_CLOEXEC = 0 /\ 0 < ref f < 2 ^ 32 /\ fops f <> 0;
  inv_held : forall a, 0 <= held a;
  inv_cnt : forall a, a <> 0 -> refs h a = cnt a t + held a;
}.

(** ** Lemmas *)

Lemma slot_file_mod v : slot_file v = v - v mod 2.
Proof.
  unfold slot_file, FLAG_CLOEXEC. change (Z.lnot 1) with (Z.lnot (Z.ones 1)).
  rewrite <- Z.ldiff_land, Z.ldiff_ones_r, Z.shiftl_mul_pow2, Z.shiftr_div_pow2 by lia.
  change (2 ^ 1) with 2. pose proof (Z.div_mod v 2). lia.
Qed.

Lemma land_1 v : Z.land v FLAG_CLOEXEC = v mod 2.
Proof. unfold FLAG_CLOEXEC. change 1 with (Z.ones 1) at 1. by rewrite Z.land_ones by lia. Qed.

Lemma lor_1 v : v mod 2 = 0 -> Z.lor v FLAG_CLOEXEC = v + 1.
Proof.
  intros H0. rewrite <- land_1 in H0. rewrite <- Z.lxor_lor by done.
  symmetry. by apply Z.add_nocarry_lxor.
Qed.

Lemma slot_file_even v : Z.land v FLAG_CLOEXEC = 0 -> slot_file v = v.
Proof. rewrite land_1, slot_file_mod. lia. Qed.

Lemma slot_file_cloexec v : Z.land v FLAG_CLOEXEC = 0 -> slot_file (Z.lor v FLAG_CLOEXEC) = v.
Proof.
  rewrite land_1, slot_file_mod. intros E. rewrite lor_1 by done.
  replace ((v + 1) mod 2) with 1; [lia|]. rewrite Z.add_mod, E by lia. done.
Qed.

Lemma slot_file_0 : slot_file 0 = 0.
Proof. done. Qed.

Lemma cnt_list_nonneg a l : 0 <= cnt_list a l.
Proof. unfold cnt_list. lia. Qed.

Lemma cnt_list_app a l1 l2 : cnt_list a (l1 ++ l2) = cnt_list a l1 + cnt_list a l2.
Proof. unfold cnt_list. rewrite filter_app, length_app. lia. Qed.

Lemma cnt_list_cons a v l : cnt_list a (v :: l) = (if a =? slot_file v then 1 else 0) + cnt_list a l.
Proof.
  unfold cnt_list. rewrite filter_cons. case_decide; destruct (Z.eqb_spec a (slot_file v));
    simpl length; (congruence || lia).
Qed.

Lemma cnt_list_insert a l i v v' : l !! i = Some v ->
  cnt_list a (<[i := v']> l) =
  cnt_list a l - (if a =? slot_file v then 1 else 0) + (if a =? slot_file v' then 1 else 0).
Proof.
  intros Hi. rewrite insert_take_drop by (by eapply lookup_lt_Some).
  assert (cnt_list a l = cnt_list a (take i l ++ v :: drop (S i) l)) as ->
    by (by rewrite take_drop_middle).
  rewrite !cnt_list_app, !cnt_list_cons. lia.
Qed.

Lemma cnt_list_elem a l v : v ∈ l -> slot_file v = a -> 0 < cnt_list a l.
Proof.
  intros Hv <-. apply list_elem_of_split in Hv as (l1 & l2 & ->).
  rewrite cnt_list_app, cnt_list_cons, Z.eqb_refl.
  pose proof (cnt_list_nonneg (slot_file v) l1). pose proof (cnt_list_nonneg (slot_file v) l2). lia.
Qed.

Lemma cnt_list_le a l : cnt_list a l <= Z.of_nat (length l).
Proof. unfold cnt_list. pose proof (length_filter (fun v => slot_file v = a) l). lia. Qed.

Lemma cnt_list_zero a n : a <> 0 -> cnt_list a (replicate n 0) = 0.
Proof.
  intros Ha. induction n as [|n IH]; [done|]. simpl. rewrite cnt_list_cons, IH, slot_file_0.
  destruct (Z.eqb_spec a 0); lia.
Qed.

Lemma cnt_delete a t pid l : t !! pid = Some l -> cnt a t = cnt_list a l + cnt a (delete pid t).
Proof.
  intros Hl. unfold cnt. apply (map_fold_delete_L (fun (_ : Z) l n => cnt_list a l + n)); [|done].
  intros. lia.
Qed.

Lemma cnt_insert_new a t pid l : t !! pid = None -> cnt a (<[pid := l]> t) = cnt_list a l + cnt a t.
Proof.
  intros Hl. unfold cnt. apply (map_fold_insert_L (fun (_ : Z) l n => cnt_list a l + n)); [|done].
  intros. lia.
Qed.

Lemma cnt_insert a t pid l l' : t !! pid = Some l ->
  cnt a (<[pid := l']> t) = cnt a t - cnt_list a l + cnt_list a l'.
Proof.
  intros Hl. rewrite (cnt_delete a t pid l Hl).
  rewrite (cnt_delete a (<[pid := l']> t) pid l') by (by rewrite lookup_insert_eq).
  rewrite delete_insert_eq. lia.
Qed.

Lemma cnt_nonneg a t : 0 <= cnt a t.
Proof.
  unfold cnt. apply (map_fold_weak_ind (fun n _ => 0 <= n)); [lia|].
  intros pid l m n _ Hn. pose proof (cnt_list_nonneg a l). lia.
Qed.

Lemma cnt_alter a t pid (l : list Z) i v v' : t !! pid = Some l -> l !! i = Some v ->
  cnt a (alter (fun l => <[i := v']> l) pid t) =
  cnt a t - (if a =? slot_file v then 1 else 0) + (if a =? slot_file v' then 1 else 0).
Proof.
  intros Hl Hi. replace (alter _ pid t) with (<[pid := <[i := v']> l]> t).
  - rewrite (cnt_insert a t pid l _ Hl), (cnt_list_insert a l i v v' Hi). lia.
  - apply map_eq. intros j. destruct (decide (pid = j)) as [<-|Hn].
    + by rewrite lookup_insert_eq, lookup_alter_eq, Hl.
    + by rewrite lookup_insert_ne, lookup_alter_ne.
Qed.

Context `{!FopsLaws W}.

Lemma inv_ext h t held held' : inv h t held -> (forall x, 0 <= held' x) ->
  (forall x, x <> 0 -> held x = held' x) -> inv h t held'.
Proof. intros [] Hp E. constructor; auto. intros. rewrite <- E; auto. Qed.

Lemma slot_live h t held pid l v : inv h t held -> t !! pid = Some l -> v ∈ l -> v <> 0 ->
  exists f, h !! slot_file v = Some f /\ 0 < cnt (slot_file v) t.
Proof.
  intros Hi Hl Hv Hn. pose proof (inv_slots _ _ _ Hi _ _ _ Hl Hv Hn) as Hs.
  pose proof (inv_cnt _ _ _ Hi _ Hs) as Hc. pose proof (inv_held _ _ _ Hi (slot_file v)).
  pose proof (cnt_list_elem _ _ _ Hv eq_refl). pose proof (cnt_nonneg (slot_file v) (delete pid t)).
  rewrite (cnt_delete _ _ _ _ Hl) in *. unfold refs in Hc.
  destruct (h !! slot_file v) as [f|]; [|lia]. exists f. split; [done|lia].
Qed.

Lemma file_ref_inv h w t held a f : inv h t held -> wok h w -> h !! a = Some f ->
  ref f < UINT32_MAX ->
  file_ref (FS h w) a = Done (FS (<[a := set_ref f (ref f + 1)]> h) w) /\
  inv (<[a := set_ref f (ref f + 1)]> h) t (upd held a 1) /\ wok (<[a := set_ref f (ref f + 1)]> h) w.
Proof.
  intros Hi Hw Hf Hlt. pose proof (inv_heap _ _ _ Hi _ _ Hf) as (Ha & He & Hr & Ho).
  unfold file_ref. simpl. rewrite Hf. cbn [deref rbind]. unfold ref_inc, UINT32_MAX in *.
  rewrite (proj2 (Z.ltb_lt _ _)) by lia. cbn [rbind]. rewrite u32_small by lia.
  split_and!; [done| |by apply wok_ref]. destruct Hi as [H1 H2 H3 H4 H5].
  constructor; [done|done| | |].
  - intros x g. destruct (decide (a = x)) as [<-|]; [|rewrite lookup_insert_ne by done; apply H3].
    rewrite lookup_insert_eq. intros [= <-]. simpl. split_and!; done || lia.
  - intros x. unfold upd. specialize (H4 x). destruct (x =? a); lia.
  - intros x Hx. specialize (H5 x Hx). unfold refs, upd in *. destruct (Z.eqb_spec x a) as [->|].
    + rewrite lookup_insert_eq. rewrite Hf in H5. simpl. lia.
    + rewrite lookup_insert_ne by done. lia.
Qed.

(** Dropping a reference that is held: the file is closed and freed exactly
    when it was the last one. *)
Lemma file_unref_inv h w t held a : inv h t held -> wok h w -> 0 < held a -> a <> 0 ->
  exists s', file_unref (FS h w) a = Done s' /\ inv (heap s') t (upd held a (-1)) /\
    wok (heap s') (world s') /\ (forall x, x <> a -> heap s' !! x = h !! x) /\
    heap s' !! a = (if cnt a t + held a =? 1 then None
                    else (fun f => set_ref f (ref f - 1)) <$> h !! a) /\
    (cnt a t + held a <> 1 -> world s' = w).
Proof.
  intros Hi Hw Hh Ha. pose proof (inv_cnt _ _ _ Hi a Ha) as Hc. unfold refs in Hc.
  pose proof (cnt_nonneg a t) as Hcn.
  destruct (h !! a) as [f|] eqn:Hf; [|lia].
  pose proof (inv_heap _ _ _ Hi _ _ Hf) as (Ha0 & He & Hr & Ho).
  unfold file_unref. simpl. rewrite Hf. cbn [deref rbind]. unfold ref_dec.
  rewrite (proj2 (Z.ltb_lt _ _)) by lia. cbn [rbind]. rewrite u32_small by lia. rewrite <- Hc.
  assert (forall h', (forall x, x <> a -> h' !! x = h !! x) ->
    (forall g, h' !! a = Some g -> 0 < ref g < 2 ^ 32 /\ fops g = fops f) ->
    refs h' a = ref f - 1 -> inv h' t (upd held a (-1))) as Hinv.
  { intros h' Hx Hg Hr'. destruct Hi as [H1 H2 H3 H4 H5]. constructor; [done|done| | |].
    - intros x g. destruct (decide (x = a)) as [->|]; [|rewrite Hx by done; apply H3].
      intros E. destruct (Hg _ E) as [? ->]. done.
    - intros x. unfold upd. specialize (H4 x). destruct (Z.eqb_spec x a) as [->|]; lia.
    - intros x Hxn. specialize (H5 x Hxn). unfold upd. destruct (Z.eqb_spec x a) as [->|].
      + rewrite Hr'. lia.
      + unfold refs in *. rewrite Hx by done. lia. }
  destruct (Z.eqb_spec (ref f) 1) as [E1|E1].
  - unfold file_close. simpl. rewrite lookup_insert_eq. cbn [deref rbind].
    pose proof (wok_ref h w a f (ref f - 1) Hw Hf) as Hw1.
    assert (exists w', match fop_close (fops (set_ref f (ref f - 1))) with
        | Some close => let* w := close (set_ref f (ref f - 1)) w in
                        Done (FS (<[a:=set_ref f (ref f - 1)]> h) w)
        | None => Done (FS (<[a:=set_ref f (ref f - 1)]> h) w) end =
        Done (FS (<[a:=set_ref f (ref f - 1)]> h) w') /\ wok (delete a h) w') as (w' & -> & Hw').
    { rewrite <- (delete_insert_eq h a (set_ref f (ref f - 1))).
      destruct (fop_close _) as [close|] eqn:Ec.
      - destruct (wok_close _ _ a _ close Hw1 (lookup_insert_eq _ _ _) Ec) as (w' & -> & ?). by exists w'.
      - exists w. split; [done|]. eapply wok_noclose; [done|by rewrite lookup_insert_eq|done]. }
    cbn [rbind]. unfold file_free. simpl. rewrite lookup_insert_eq. cbn [deref rbind].
    eexists. split; [done|]. simpl. rewrite delete_insert_eq, lookup_delete_eq. split_and!; [|done| |done|done].
    + apply Hinv; [intros; by rewrite lookup_delete_ne|by rewrite lookup_delete_eq|].
      unfold refs. rewrite lookup_delete_eq. lia.
    + intros x Hx. by rewrite lookup_delete_ne.
  - eexists. split; [done|]. simpl. rewrite lookup_insert_eq. split_and!; [|by apply wok_ref| |done|done].
    + apply Hinv; [intros; by rewrite lookup_insert_ne| |].
      * rewrite lookup_insert_eq. intros g [= <-]. simpl. split; [lia|done].
      * unfold refs. rewrite lookup_insert_eq. done.
    + intros x Hx. by rewrite lookup_insert_ne.
Qed.

(** Storing [v'] in a slot that held [v]: the reference of [v] becomes one
    that the caller holds, and [v'] takes one from the caller. *)
Lemma set_slot_inv h t held held' pid (l : list Z) i v v' :
  inv h t held -> t !! pid = Some l -> l !! i = Some v -> (v' <> 0 -> slot_file v' <> 0) ->
  (forall x, 0 <= held' x) ->
  (forall x, x <> 0 -> held' x = held x + (if x =? slot_file v then 1 else 0)
                                        - (if x =? slot_file v' then 1 else 0)) ->
  inv h (alter (fun l => <[i := v']> l) pid t) held'.
Proof.
  intros [H1 H2 H3 H4 H5] Hl Hi Hv' Hp Hd. constructor; [| |done|done|].
  - intros p l'. destruct (decide (pid = p)) as [<-|]; [|rewrite lookup_alter_ne by done; apply H1].
    rewrite lookup_alter_eq, Hl. intros [= <-]. rewrite length_insert. eauto.
  - intros p l' x. destruct (decide (pid = p)) as [<-|]; [|rewrite lookup_alter_ne by done; apply H2].
    rewrite lookup_alter_eq, Hl. intros [= <-] Hx Hx0.
    apply list_elem_of_lookup in Hx as [j Hj]. destruct (decide (i = j)) as [<-|].
    + rewrite list_lookup_insert_eq in Hj by (by eapply lookup_lt_Some). injection Hj as <-. auto.
    + rewrite list_lookup_insert_ne in Hj by done. eapply H2; eauto using list_elem_of_lookup_2.
  - intros x Hx. rewrite (cnt_alter x t pid l i v v' Hl Hi), Hd, H5 by done. lia.
Qed.

(** ** Operations on descriptor tables *)

Definition kinv (k : kstate) (held : Z -> Z) : Prop :=
  inv (heap (fs k)) (tables k) held /\ wok (heap (fs k)) (world (fs k)).

(** Each counter is [n] below the point where [ref_inc] panics. *)
Definition few (n : Z) (h : gmap Z file_t) : Prop := forall a, refs h a + n <= UINT32_MAX.

Lemma few_weaken n n' h : n' <= n -> few n h -> few n' h.
Proof. intros Hn Hf a. specialize (Hf a). lia. Qed.

Lemma few_insert n h a f : few n h -> ref f + n <= UINT32_MAX -> few n (<[a := f]> h).
Proof.
  intros Hf Ha x. specialize (Hf x). unfold refs in *. destruct (decide (a = x)) as [<-|].
  - by rewrite lookup_insert_eq.
  - by rewrite lookup_insert_ne.
Qed.

Lemma few_empty n : n <= UINT32_MAX -> few n ∅.
Proof. intros Hn a. unfold refs. rewrite lookup_empty. lia. Qed.

Lemma few_ref n h a f : few (n + 1) h -> h !! a = Some f ->
  few n (<[a := set_ref f (ref f + 1)]> h).
Proof.
  intros Hf Ha. apply few_insert; [by eapply few_weaken; [|exact Hf]; lia|].
  specialize (Hf a). unfold refs in Hf. rewrite Ha in Hf. simpl. lia.
Qed.

Lemma slot_valid k held pid fd l : kinv k held -> tables k !! pid = Some l -> fd_invalid fd = false ->
  exists v, slot k pid fd = Done v /\ l !! Z.to_nat fd = Some v /\ v ∈ l.
Proof.
  intros [Hi _] Hl Hv. pose proof (inv_len _ _ _ Hi _ _ Hl) as Hlen. unfold fd_invalid in Hv.
  bool_props. destruct (lookup_lt_is_Some_2 l (Z.to_nat fd)) as [v Hv];
    [unfold PROC_FILES in *; lia|].
  exists v. unfold slot. rewrite Hl. cbn [deref rbind]. rewrite Hv.
  split_and!; [done|done|by eapply list_elem_of_lookup_2].
Qed.

Lemma held_pos_live k held a : kinv k held -> 0 < held a -> a <> 0 ->
  exists f, heap (fs k) !! a = Some f.
Proof.
  intros [Hi _] Hh Ha. pose proof (inv_cnt _ _ _ Hi a Ha) as Hc. pose proof (cnt_nonneg a (tables k)).
  unfold refs in Hc. destruct (heap (fs k) !! a) as [f|]; [eauto|lia].
Qed.

Lemma file_ref_kinv k held a f : kinv k held -> few 1 (heap (fs k)) -> heap (fs k) !! a = Some f ->
  exists s', file_ref (fs k) a = Done s' /\ kinv (with_fs k s') (upd held a 1) /\
    s' = FS (<[a := set_ref f (ref f + 1)]> (heap (fs k))) (world (fs k)).
Proof.
  intros [Hi Hw] Hfew Hf. destruct k as [[h w] t]; simpl in *.
  specialize (Hfew a). unfold refs in Hfew. simpl in Hfew. rewrite Hf in Hfew.
  destruct (file_ref_inv h w t held a f) as (Hr & Hi' & Hw'); try done; [lia|].
  eexists. split; [exact Hr|]. done.
Qed.

Lemma set_slot_kinv k held held' pid l fd v v' :
  kinv k held -> tables k !! pid = Some l -> l !! Z.to_nat fd = Some v ->
  (v' <> 0 -> slot_file v' <> 0) -> (forall x, 0 <= held' x) ->
  (forall x, x <> 0 -> held' x = held x + (if x =? slot_file v then 1 else 0)
                                        - (if x =? slot_file v' then 1 else 0)) ->
  kinv (set_slot k pid fd v') held'.
Proof. intros [Hi Hw] Hl Hv H1 H2 H3. split; [|done]. by eapply set_slot_inv. Qed.

Lemma file_unref_kinv k held a : kinv k held -> 0 < held a -> a <> 0 ->
  exists s', file_unref (fs k) a = Done s' /\ kinv (with_fs k s') (upd held a (-1)) /\
    (forall x, x <> a -> heap s' !! x = heap (fs k) !! x) /\
    heap s' !! a = (if cnt a (tables k) + held a =? 1 then None
                    else (fun f => set_ref f (ref f - 1)) <$> heap (fs k) !! a) /\
    (cnt a (tables k) + held a <> 1 -> world s' = world (fs k)).
Proof.
  intros [Hi Hw] Hh Ha. destruct k as [[h w] t]; simpl in *.
  destruct (file_unref_inv h w t held a) as (s' & Hr & Hi' & Hw' & Hx); try done.
  exists s'. split_and!; [done|done|apply Hx..].
Qed.

(** What a slot refers to: nothing, or a file that exists. *)
Lemma slot_file_live k held pid l v : kinv k held -> tables k !! pid = Some l -> v ∈ l ->
  (slot_file v = 0 /\ v = 0) \/ (slot_file v <> 0 /\ exists f, heap (fs k) !! slot_file v = Some f).
Proof.
  intros [Hi _] Hl Hv. destruct (decide (v = 0)) as [->|Hn]; [by left|right].
  split; [by eapply inv_slots|]. destruct (slot_live _ _ _ _ _ _ Hi Hl Hv Hn) as (f & Hf & _). eauto.
Qed.

Lemma fdget_kinv k held pid fd l : kinv k held -> few 1 (heap (fs k)) -> tables k !! pid = Some l ->
  exists a k', fdget k pid fd = Done (a, k') /\ tables k' = tables k /\
    kinv k' (if a =? 0 then held else upd held a 1) /\
    a = (if fd_invalid fd then 0 else slot_file (default 0 (l !! Z.to_nat fd))).
Proof.
  intros Hk Hfew Hl. unfold fdget. destruct (fd_invalid fd) eqn:Efd; [by exists 0, k|].
  destruct (slot_valid k held pid fd l Hk Hl Efd) as (v & -> & Hv & Hin). cbn [rbind]. rewrite Hv. simpl.
  destruct (slot_file_live k held pid l v Hk Hl Hin) as [[-> _]|[Hn (f & Hf)]]; [by exists 0, k|].
  rewrite (proj2 (Z.eqb_neq _ _) Hn). cbn [negb].
  destruct (file_ref_kinv k held _ f Hk Hfew Hf) as (s' & -> & Hk' & _). cbn [rbind].
  eexists _, _. split; [done|]. by rewrite (proj2 (Z.eqb_neq _ _) Hn).
Qed.

Lemma fdfree_kinv k held pid fd l : kinv k held -> tables k !! pid = Some l ->
  exists r k', fdfree k pid fd = Done (r, k') /\ kinv k' held /\
    (r = 0 \/ r = - EBADF).
Proof.
  intros Hk Hl. unfold fdfree. destruct (fd_invalid fd) eqn:Efd; [eauto 10|].
  destruct (slot_valid k held pid fd l Hk Hl Efd) as (v & -> & Hv & Hin). cbn [rbind].
  pose proof (inv_held _ _ _ (proj1 Hk)) as Hpos.
  destruct (slot_file_live k held pid l v Hk Hl Hin) as [[-> ->]|[Hn (f & Hf)]].
  { eexists _, _. split; [done|]. split; [|by right].
    eapply set_slot_kinv; try done. intros x _. lia. }
  rewrite (proj2 (Z.eqb_neq _ _) Hn). cbn [negb].
  assert (kinv (set_slot k pid fd 0) (upd held (slot_file v) 1)) as Hk1.
  { eapply set_slot_kinv; try done.
    - intros x. unfold upd. specialize (Hpos x). case_match; lia.
    - intros x Hx. unfold upd. rewrite slot_file_0. rewrite (proj2 (Z.eqb_neq x 0) Hx). lia. }
  destruct (file_unref_kinv _ _ (slot_file v) Hk1) as (s' & -> & Hk' & _); [|done|].
  { unfold upd. rewrite Z.eqb_refl. specialize (Hpos (slot_file v)). lia. }
  cbn [rbind]. eexists _, _. split; [done|]. split; [|by left]. split; [|apply Hk'].
  eapply inv_ext; [apply Hk'|done|]. intros x _. unfold upd. case_match; lia.
Qed.

Lemma fd_cloexec_set_kinv k held pid fd l b : kinv k held -> tables k !! pid = Some l ->
  exists r k', fd_cloexec_set k pid fd b = Done (r, k') /\ kinv k' held /\ (r = 0 \/ r = - EBADF).
Proof.
  intros Hk Hl. unfold fd_cloexec_set. destruct (fd_invalid fd) eqn:Efd; [eauto 10|].
  destruct (slot_valid k held pid fd l Hk Hl Efd) as (v & -> & Hv & Hin). cbn [rbind].
  pose proof (inv_held _ _ _ (proj1 Hk)) as Hpos.
  destruct (slot_file_live k held pid l v Hk Hl Hin) as [[_ ->]|[Hn (f & Hf)]]; [eauto 10|].
  rewrite (proj2 (Z.eqb_neq v 0)) by (intros ->; done).
  assert (slot_file (if b then Z.lor v FLAG_CLOEXEC else Z.land v (Z.lnot FLAG_CLOEXEC)) = slot_file v) as E.
  { destruct b.
    - rewrite !slot_file_mod. destruct (Z.eqb_spec (v mod 2) 0) as [E|E].
      + rewrite lor_1 by done. rewrite Z.add_mod, E by lia. change ((0 + 1 mod 2) mod 2) with 1. lia.
      + replace (Z.lor v FLAG_CLOEXEC) with v; [done|]. apply Z.bits_inj'. intros n Hn'.
        rewrite Z.lor_spec. destruct (decide (n = 0)) as [->|].
        * rewrite Z.bit0_odd. rewrite Zmod_odd in E. by destruct (Z.odd v).
        * change FLAG_CLOEXEC with (2 ^ 0). rewrite Z.pow2_bits_false by lia. by rewrite orb_false_r.
    - change (slot_file (slot_file v) = slot_file v). apply slot_file_even.
      rewrite land_1, slot_file_mod. rewrite Zminus_mod_idemp_r, Z.sub_diag. done. }
  eexists _, _. split; [done|]. split; [|by left].
  eapply set_slot_kinv; try done; [by rewrite E|]. intros x _. rewrite E. lia.
Qed.

(** [file_ref] then storing the reference in a slot: what [fdalloc] and
    [fddup] do. *)
Lemma ref_set_slot_kinv k held pid l fd v v' a f : kinv k held -> few 1 (heap (fs k)) ->
  heap (fs k) !! a = Some f -> tables k !! pid = Some l -> l !! Z.to_nat fd = Some v ->
  slot_file v' = a ->
  exists s', file_ref (fs k) a = Done s' /\
    s' = FS (<[a := set_ref f (ref f + 1)]> (heap (fs k))) (world (fs k)) /\
    kinv (set_slot (with_fs k s') pid fd v')
      (if slot_file v =? 0 then held else upd held (slot_file v) 1).
Proof.
  intros Hk Hfew Hf Hl Hv Ha. pose proof (inv_held _ _ _ (proj1 Hk)) as Hpos.
  pose proof (inv_heap _ _ _ (proj1 Hk) _ _ Hf) as (Ha0 & _).
  destruct (file_ref_kinv k held a f Hk Hfew Hf) as (s' & Hr & Hk' & Hs'). exists s'.
  split_and!; [done|done|]. eapply set_slot_kinv; [exact Hk'|done|done| | |].
  - rewrite Ha. lia.
  - intros x. unfold upd. specialize (Hpos x). repeat case_match; lia.
  - intros x Hx. rewrite Ha. unfold upd. destruct (Z.eqb_spec (slot_file v) 0) as [->|].
    + rewrite (proj2 (Z.eqb_neq x 0) Hx). repeat case_match; lia.
    + repeat case_match; lia.
Qed.

(** What a successful [fdalloc] did to the table of [pid]. *)
Definition allocated (k k' : kstate) (pid : Z) (l : list Z) (file : Z) (cloexec : bool) (min r : Z) : Prop :=
  min <= r < PROC_FILES /\ l !! Z.to_nat r = Some 0 /\
  (forall j, min <= j < r -> l !! Z.to_nat j <> Some 0) /\
  tables k' = alter (fun l => <[Z.to_nat r := if cloexec then Z.lor file FLAG_CLOEXEC else file]> l)
                pid (tables k) /\
  (exists f, heap (fs k) !! file = Some f /\
     fs k' = FS (<[file := set_ref f (ref f + 1)]> (heap (fs k))) (world (fs k))).

Lemma fdalloc_loop_kinv n k held pid l file cloexec i : kinv k held -> few 1 (heap (fs k)) ->
  tables k !! pid = Some l -> 0 < held file -> file <> 0 -> 0 <= i -> i + Z.of_nat n = PROC_FILES ->
  exists r k', fdalloc_loop n k pid file cloexec i = Done (r, k') /\ kinv k' held /\
    ((r = - ENFILE /\ k' = k /\ forall j, i <= j < PROC_FILES -> l !! Z.to_nat j <> Some 0) \/
     allocated k k' pid l file cloexec i r).
Proof.
  intros Hk Hfew Hl Hh Hn0. destruct (held_pos_live k held file Hk Hh Hn0) as (f & Hf).
  pose proof (inv_heap _ _ _ (proj1 Hk) _ _ Hf) as (Ha0 & He & _).
  revert i. induction n as [|n IH]; intros i Hi Hin; simpl.
  { exists (- ENFILE), k. split_and!; [done|done|]. left. split_and!; [done|done|]. lia. }
  destruct (slot_valid k held pid i l Hk Hl) as (v & -> & Hv & _).
  { unfold fd_invalid. apply orb_false_iff. split; [apply Z.ltb_ge; lia|apply Z.leb_gt; lia]. }
  cbn [rbind]. destruct (Z.eqb_spec v 0) as [->|Hv0].
  - destruct (ref_set_slot_kinv k held pid l i 0
      (if cloexec then Z.lor file FLAG_CLOEXEC else file) file f) as (s' & -> & -> & Hk'); try done.
    { destruct cloexec; [by apply slot_file_cloexec|by apply slot_file_even]. }
    cbn [rbind]. eexists _, _. split; [done|]. split; [exact Hk'|]. right.
    split_and!; [lia|lia|done|lia|done|]. by exists f.
  - destruct (IH (i + 1)) as (r & k' & Hrun & Hk' & Hc); [lia|lia|]. exists r, k'.
    assert (l !! Z.to_nat i <> Some 0) as Hvi by congruence.
    split_and!; [done|done|]. destruct Hc as [(-> & -> & Hc)|(H1 & H2 & H3 & H4)]; [left|right].
    + split_and!; [done|done|]. intros j Hj. destruct (decide (j = i)) as [->|]; [done|apply Hc; lia].
    + split_and!; [lia|lia|done| |apply H4..]. intros j Hj.
      destruct (decide (j = i)) as [->|]; [done|apply H3; lia].
Qed.

Lemma fdalloc_kinv k held pid l file cloexec min : kinv k held -> few 1 (heap (fs k)) ->
  tables k !! pid = Some l -> 0 < held file -> file <> 0 ->
  exists r k', fdalloc_intern k pid file cloexec min = Done (r, k') /\ kinv k' held /\
    ((r = - EINVAL /\ k' = k /\ ~ 0 <= min < PROC_FILES) \/
     (r = - ENFILE /\ k' = k /\ forall j, min <= j < PROC_FILES -> l !! Z.to_nat j <> Some 0) \/
     (0 <= r /\ allocated k k' pid l file cloexec min r)).
Proof.
  intros Hk Hfew Hl Hh Hn0. destruct (held_pos_live k held file Hk Hh Hn0) as (f & Hf).
  pose proof (inv_heap _ _ _ (proj1 Hk) _ _ Hf) as (Ha0 & He & _ & Hfo). unfold fdalloc_intern.
  destruct ((min <? 0) || (PROC_FILES <=? min)) eqn:Em.
  { exists (- EINVAL), k. split_and!; [done|done|]. left. split_and!; [done|done|].
    apply orb_true_iff in Em as [Em|Em]; bool_props; lia. }
  bool_props. rewrite He. cbn [Z.eqb].
  destruct (fdalloc_loop_kinv (Z.to_nat (PROC_FILES - min)) k held pid l file cloexec min)
    as (r & k' & -> & Hk' & Hc); try done; [lia|]. cbn [rbind].
  destruct Hc as [(-> & -> & Hc)|Hc].
  { exists (- ENFILE), k. split_and!; [done|done|]. right; left. done. }
  pose proof Hc as (Hr & Hlr & Hlow & Ht & g & Hg & Hh').
  rewrite (proj2 (Z.leb_le 0 r)) by lia. unfold slot. rewrite Ht, lookup_alter_eq, Hl. simpl.
  rewrite list_lookup_insert_eq by (by eapply lookup_lt_Some). cbn [deref rbind].
  assert (slot_file (if cloexec then Z.lor file FLAG_CLOEXEC else file) = file) as ->
    by (destruct cloexec; [by apply slot_file_cloexec|by apply slot_file_even]).
  rewrite Hh'. cbn [heap]. rewrite lookup_insert_eq. cbn [deref rbind]. simpl.
  assert (g = f) as -> by congruence. rewrite (proj2 (Z.eqb_neq _ _) Hfo). cbn [negb].
  exists r, k'. split_and!; [done|done|]. right; right. split; [lia|done].
Qed.

Lemma allocated_held k k' held pid l file cloexec min r : kinv k held -> 0 < held file -> file <> 0 ->
  tables k !! pid = Some l -> allocated k k' pid l file cloexec min r ->
  exists l', tables k' !! pid = Some l' /\ l' = <[Z.to_nat r := if cloexec then Z.lor file FLAG_CLOEXEC else file]> l /\
    l' !! Z.to_nat r = Some (if cloexec then Z.lor file FLAG_CLOEXEC else file) /\
    slot_file (if cloexec then Z.lor file FLAG_CLOEXEC else file) = file.
Proof.
  intros Hk Hh Hn Hl (Hr & Hlr & _ & Ht & g & Hg & _).
  pose proof (inv_heap _ _ _ (proj1 Hk) _ _ Hg) as (_ & He & _).
  eexists. rewrite Ht, lookup_alter_eq, Hl. split; [done|]. split; [done|].
  rewrite list_lookup_insert_eq by (by eapply lookup_lt_Some). split; [done|].
  destruct cloexec; [by apply slot_file_cloexec|by apply slot_file_even].
Qed.

Lemma fdalloc2_kinv k held pid l f0 f1 cloexec : kinv k held -> few 2 (heap (fs k)) ->
  tables k !! pid = Some l -> 0 < held f0 -> f0 <> 0 -> 0 < held f1 -> f1 <> 0 ->
  exists err fd0 fd1 k', fdalloc2 k pid f0 f1 cloexec = Done (err, fd0, fd1, k') /\ kinv k' held /\
    ((err = - ENFILE /\ exists i, forall j, 0 <= j < PROC_FILES -> j <> i -> l !! Z.to_nat j <> Some 0) \/
     (err = 0 /\ exists k1, allocated k k1 pid l f0 cloexec 0 fd0 /\
        allocated k1 k' pid (<[Z.to_nat fd0 := if cloexec then Z.lor f0 FLAG_CLOEXEC else f0]> l)
          f1 cloexec 0 fd1)).
Proof.
  intros Hk Hfew Hl H0 Hn0 H1 Hn1. unfold fdalloc2.
  destruct (fdalloc_kinv k held pid l f0 cloexec 0) as (r0 & k1 & -> & Hk1 & Hc); try done;
    [eapply few_weaken; [|exact Hfew]; lia|]. cbn [rbind].
  destruct Hc as [(_ & _ & Hc)|[(-> & -> & Hc)|[Hr0 Hc]]]; [unfold PROC_FILES in Hc; lia| |].
  { simpl. eexists _, _, _, _. split; [done|]. split; [done|]. left. split; [done|]. exists 0. auto. }
  rewrite (proj2 (Z.ltb_ge r0 0)) by lia.
  destruct (allocated_held _ _ held _ _ _ _ _ _ Hk H0 Hn0 Hl Hc) as (l1 & Hl1 & El1 & Hs0 & Hsf).
  pose proof Hc as (_ & _ & _ & _ & g & Hg & Hh1).
  destruct (fdalloc_kinv k1 held pid l1 f1 cloexec 0) as (r1 & k2 & -> & Hk2 & Hc1); try done.
  { rewrite Hh1. cbn [heap]. apply few_ref; [|done]. eapply few_weaken; [|exact Hfew]; lia. }
  cbn [rbind]. destruct Hc1 as [(_ & _ & Hc1)|[(-> & -> & Hc1)|[Hr1 Hc1]]];
    [unfold PROC_FILES in Hc1; lia| |].
  - change (- ENFILE <? 0) with true. cbv iota zeta. pose proof (inv_held _ _ _ (proj1 Hk)) as Hpos.
    assert (kinv (set_slot k1 pid r0 0) (upd held f0 1)) as Hk3.
    { eapply set_slot_kinv; [exact Hk1|exact Hl1|exact Hs0|done| |].
      - intros x. unfold upd. specialize (Hpos x). destruct (x =? f0); lia.
      - intros x Hx. rewrite Hsf, slot_file_0, (proj2 (Z.eqb_neq x 0) Hx). unfold upd. lia. }
    destruct (file_unref_kinv _ _ f0 Hk3) as (s' & -> & Hk' & _); [|done|].
    { unfold upd. rewrite Z.eqb_refl. lia. }
    cbn [rbind]. eexists _, _, _, _. split; [done|]. split; [split; [|apply Hk']|].
    + eapply inv_ext; [apply Hk'|done|]. intros x _. unfold upd. destruct (x =? f0); lia.
    + left. split; [done|]. exists r0. intros j Hj Hne. specialize (Hc1 j ltac:(lia)).
      rewrite El1, list_lookup_insert_ne in Hc1 by lia. done.
  - rewrite (proj2 (Z.ltb_ge r1 0)) by lia. eexists _, _, _, _. split; [done|]. split; [done|].
    right. split; [done|]. exists k1. rewrite <- El1. done.
Qed.

Lemma fddup_kinv k held pid l file newfd : kinv k held -> few 1 (heap (fs k)) ->
  tables k !! pid = Some l -> 0 < held file -> file <> 0 ->
  exists r k', fddup k pid file newfd = Done (r, k') /\ kinv k' held /\
    r = (if fd_invalid newfd then - EBADF else newfd) /\
    tables k' = (if fd_invalid newfd then tables k
                 else alter (fun l => <[Z.to_nat newfd := file]> l) pid (tables k)).
Proof.
  intros Hk Hfew Hl Hh Hn. unfold fddup. destruct (fd_invalid newfd) eqn:Efd; [eauto 10|].
  destruct (held_pos_live k held file Hk Hh Hn) as (f & Hf).
  pose proof (inv_heap _ _ _ (proj1 Hk) _ _ Hf) as (Ha0 & He & _).
  destruct (slot_valid k held pid newfd l Hk Hl Efd) as (v & Hsv & Hv & Hin).
  destruct (ref_set_slot_kinv k held pid l newfd v file file f) as (s' & -> & Hs' & Hk1);
    try done; [by apply slot_file_even|].
  pose proof (inv_held _ _ _ (proj1 Hk)) as Hpos. cbn [rbind]. rewrite Hsv. cbn [rbind].
  destruct (Z.eqb_spec (slot_file v) 0) as [E|E]; cbn [negb]; [eauto 10|].
  destruct (file_unref_kinv _ _ (slot_file v) Hk1) as (s2 & -> & Hk' & _); [|done|].
  { unfold upd. rewrite Z.eqb_refl. specialize (Hpos (slot_file v)). lia. }
  cbn [rbind]. eexists _, _. split; [done|]. split; [|done]. split; [|apply Hk'].
  eapply inv_ext; [apply Hk'|done|]. intros x _. unfold upd. destruct (x =? slot_file v); lia.
Qed.

Lemma vfs_proc_init_kinv k held pid : kinv k held -> tables k !! pid = None ->
  kinv (vfs_proc_init k pid false) held.
Proof.
  intros [[H1 H2 H3 H4 H5] Hw] Hn. split; [|done]. cbn [vfs_proc_init fs tables].
  constructor; [| |done|done|].
  - intros p l. destruct (decide (pid = p)) as [<-|]; [|rewrite lookup_insert_ne by done; apply H1].
    rewrite lookup_insert_eq. intros E. apply (inj Some) in E as <-. by rewrite length_replicate.
  - intros p l v. destruct (decide (pid = p)) as [<-|]; [|rewrite lookup_insert_ne by done; apply H2].
    rewrite lookup_insert_eq. intros E Hv. apply (inj Some) in E as <-.
    apply elem_of_replicate in Hv as [-> _]. done.
  - intros a Ha. rewrite cnt_insert_new, cnt_list_zero by done. rewrite H5 by done. lia.
Qed.

Lemma file_alloc_inv h w t held a ty flags ops : inv h t held -> h !! a = None ->
  0 < a -> Z.land a FLAG_CLOEXEC = 0 -> ops <> 0 ->
  file_alloc (Some a) ty flags ops (FS h w) =
    Done (0, Some a, FS (<[a := File 1 flags ops 0 ty 0 None]> h) w) /\
  inv (<[a := File 1 flags ops 0 ty 0 None]> h) t (upd held a 1).
Proof.
  intros [H1 H2 H3 H4 H5] Hn Ha He Hops. unfold file_alloc, file_do_alloc. simpl.
  rewrite lookup_insert_eq. cbn [deref rbind]. rewrite insert_insert_eq. split; [done|].
  constructor; [done|done| | |].
  - intros x g. destruct (decide (a = x)) as [<-|]; [|rewrite lookup_insert_ne by done; apply H3].
    rewrite lookup_insert_eq. intros [= <-]. simpl. split_and!; done || lia.
  - intros x. unfold upd. specialize (H4 x). case_match; lia.
  - intros x Hx. specialize (H5 x Hx). unfold refs, upd in *. destruct (Z.eqb_spec x a) as [->|].
    + rewrite lookup_insert_eq. rewrite Hn in H5. simpl. lia.
    + rewrite lookup_insert_ne by done. lia.
Qed.

Lemma file_set_priv_inv h w t held a f p : inv h t held -> h !! a = Some f -> priv f = 0 ->
  let h' := <[a := File (ref f) (flags f) (fops f) p (type f) (foff f) (path f)]> h in
  file_set_priv (FS h w) a p = Done (FS h' w) /\ inv h' t held.
Proof.
  intros [H1 H2 H3 H4 H5] Hf Hp h'. unfold file_set_priv. simpl. rewrite Hf. cbn [deref rbind].
  rewrite Hp. split; [done|]. constructor; [done|done| |done|].
  - intros x g. unfold h'. destruct (decide (a = x)) as [<-|]; [|rewrite lookup_insert_ne by done; apply H3].
    rewrite lookup_insert_eq. intros [= <-]. simpl. by apply H3.
  - intros x Hx. rewrite <- H5 by done. unfold refs, h'. destruct (decide (a = x)) as [<-|].
    + by rewrite lookup_insert_eq, Hf.
    + by rewrite lookup_insert_ne.
Qed.

(** ** fork, exec and exit *)

(** The files without their counters. *)
Definition same_files (h h' : gmap Z file_t) : Prop :=
  forall a, (fun f => set_ref f 0) <$> h !! a = (fun f => set_ref f 0) <$> h' !! a.

Lemma same_files_refs h h' : same_files h h' -> (forall a, refs h a = refs h' a) -> h = h'.
Proof.
  intros Hs Hr. apply map_eq. intros a. specialize (Hs a). specialize (Hr a). unfold refs in Hr.
  destruct (h !! a) as [[]|], (h' !! a) as [[]|]; simpl in *; try done.
  injection Hs as <- <- <- <- <- <-. by rewrite Hr.
Qed.

Lemma same_files_set_ref h a f r : h !! a = Some f -> same_files h (<[a := set_ref f r]> h).
Proof.
  intros Hf x. destruct (decide (a = x)) as [<-|]; [by rewrite lookup_insert_eq, Hf|].
  by rewrite lookup_insert_ne.
Qed.

Lemma same_files_trans h1 h2 h3 : same_files h1 h2 -> same_files h2 h3 -> same_files h1 h3.
Proof. intros H1 H2 a. by rewrite H1. Qed.

(** The references of the slots of [l], added to those that are held. *)
Definition plus (held : Z -> Z) (l : list Z) : Z -> Z := fun x => held x + cnt_list x l.

Lemma plus_nonneg held l : (forall x, 0 <= held x) -> forall x, 0 <= plus held l x.
Proof. intros Hp x. unfold plus. pose proof (cnt_list_nonneg x l). specialize (Hp x). lia. Qed.

Lemma vfs_proc_fork_loop_inv l h w t held : inv h t held -> wok h w -> few (Z.of_nat (length l)) h ->
  (forall v, v ∈ l -> v = 0 \/ (slot_file v <> 0 /\ is_Some (h !! slot_file v))) ->
  exists h', vfs_proc_fork_loop (FS h w) l = Done (FS h' w) /\ inv h' t (plus held l) /\ wok h' w /\
    same_files h h'.
Proof.
  revert h held. induction l as [|v l IH]; intros h held Hi Hw Hfew Hl.
  { exists h. split_and!; [done| |done|done]. eapply inv_ext; [done|apply plus_nonneg, Hi|].
    intros x _. unfold plus, cnt_list. simpl. lia. }
  pose proof (inv_held _ _ _ Hi) as Hpos. cbn [length] in Hfew. rewrite Nat2Z.inj_succ in Hfew.
  simpl. destruct (Hl v) as [->|[Hn [f Hf]]]; [by apply list_elem_of_here| |].
  - simpl. destruct (IH h held Hi Hw) as (h' & Hr & Hi' & Hw' & Hs').
    + eapply few_weaken; [|exact Hfew]. lia.
    + intros v Hv. apply Hl. by apply list_elem_of_further.
    + exists h'. split_and!; [done| |done|done]. eapply inv_ext; [exact Hi'|by apply plus_nonneg|].
      intros x Hx. unfold plus. rewrite cnt_list_cons, slot_file_0, (proj2 (Z.eqb_neq x 0) Hx). lia.
  - rewrite (proj2 (Z.eqb_neq _ _) Hn). cbn [negb].
    destruct (file_ref_inv h w t held (slot_file v) f) as (-> & Hi1 & Hw1); try done.
    { specialize (Hfew (slot_file v)). unfold refs in Hfew. rewrite Hf in Hfew. lia. }
    cbn [rbind]. destruct (IH _ _ Hi1 Hw1) as (h' & Hr & Hi' & Hw' & Hs').
    + by apply few_ref.
    + intros x Hx. destruct (Hl x) as [->|[Hxn Hxs]]; [by apply list_elem_of_further|by left|right].
      split; [done|]. apply lookup_insert_is_Some'. by right.
    + exists h'. split_and!; [done| |done|].
      * eapply inv_ext; [exact Hi'|by apply plus_nonneg|].
        intros x Hx. unfold plus, upd. rewrite cnt_list_cons. lia.
      * eapply same_files_trans; [by apply same_files_set_ref|done].
Qed.

Lemma insert_table_inv h t held pid l : inv h t (plus held l) -> (forall x, 0 <= held x) ->
  t !! pid = None -> length l = Z.to_nat PROC_FILES ->
  (forall v, v ∈ l -> v <> 0 -> slot_file v <> 0) -> inv h (<[pid := l]> t) held.
Proof.
  intros [H1 H2 H3 H4 H5] Hpos Hn Hlen Hs. constructor; [| |done|done|].
  - intros p l'. destruct (decide (pid = p)) as [<-|]; [|rewrite lookup_insert_ne by done; apply H1].
    rewrite lookup_insert_eq. by intros [= <-].
  - intros p l' v. destruct (decide (pid = p)) as [<-|]; [|rewrite lookup_insert_ne by done; apply H2].
    rewrite lookup_insert_eq. intros [= <-]. apply Hs.
  - intros x Hx. rewrite cnt_insert_new by done. rewrite H5 by done. unfold plus. lia.
Qed.

Lemma delete_table_inv h t held pid l : inv h t held -> t !! pid = Some l ->
  inv h (delete pid t) (plus held l).
Proof.
  intros [H1 H2 H3 H4 H5] Hl. constructor; [| |done|by apply plus_nonneg|].
  - intros p l' [_ Hl']%lookup_delete_Some. eauto.
  - intros p l' v [_ Hl']%lookup_delete_Some. eauto.
  - intros x Hx. rewrite H5 by done. rewrite (cnt_delete x t pid l Hl). unfold plus. lia.
Qed.

Lemma vfs_proc_fork_kinv k held dst src l : kinv k held -> few PROC_FILES (heap (fs k)) ->
  tables k !! src = Some l -> tables k !! dst = None ->
  exists k', vfs_proc_fork k dst src = Done k' /\ kinv k' held /\ tables k' = <[dst := l]> (tables k) /\
    same_files (heap (fs k)) (heap (fs k')) /\ world (fs k') = world (fs k).
Proof.
  intros Hk Hfew Hl Hn. pose proof Hk as [Hi Hw]. pose proof (inv_len _ _ _ Hi _ _ Hl) as Hlen.
  destruct k as [[h w] t]; simpl in *. unfold vfs_proc_fork. simpl. rewrite Hl. cbn [deref rbind].
  destruct (vfs_proc_fork_loop_inv l h w t held Hi Hw) as (h' & -> & Hi' & Hw' & Hs').
  - rewrite Hlen. exact Hfew.
  - intros v Hv. destruct (slot_file_live _ _ _ _ _ Hk Hl Hv) as [[_ ->]|[? [f Hf]]]; [by left|right; eauto].
  - cbn [rbind]. eexists. split; [done|]. split; [|done]. split; [|done]. simpl.
    apply insert_table_inv; try done; [apply Hi|]. intros v Hv. by eapply inv_slots.
Qed.

Lemma vfs_proc_exit_loop_inv l h w t held : inv h t (plus held l) -> wok h w -> (forall x, 0 <= held x) ->
  (forall v, v ∈ l -> v <> 0 -> slot_file v <> 0) ->
  exists s', vfs_proc_exit_loop (FS h w) l = Done s' /\ inv (heap s') t held /\ wok (heap s') (world s') /\
    ((forall v, v ∈ l -> v <> 0 -> cnt (slot_file v) t + held (slot_file v) <> 0) ->
     same_files h (heap s') /\ world s' = w).
Proof.
  revert h w. induction l as [|v l IH]; intros h w Hi Hw Hpos Hl; simpl.
  { exists (FS h w). split_and!; [done| |done|done]. eapply inv_ext; [exact Hi|done|].
    intros x _. unfold plus, cnt_list. simpl. lia. }
  destruct (Z.eqb_spec v 0) as [->|Hv]; cbn [negb].
  - destruct (IH h w) as (s' & Hr & Hi' & Hw' & Hsame); try done.
    + eapply inv_ext; [exact Hi|by apply plus_nonneg|]. intros x Hx. unfold plus.
      rewrite cnt_list_cons, slot_file_0, (proj2 (Z.eqb_neq x 0) Hx). lia.
    + intros x Hx. apply Hl. by apply list_elem_of_further.
    + exists s'. split_and!; [done|done|done|]. intros Hall. apply Hsame. intros x Hx.
      apply Hall. by apply list_elem_of_further.
  - assert (slot_file v <> 0) as Hn by (apply Hl; [apply list_elem_of_here|done]).
    destruct (file_unref_inv h w t (plus held (v :: l)) (slot_file v))
      as (s1 & -> & Hi1 & Hw1 & Hother & Hself & Hworld); try done.
    { unfold plus. rewrite cnt_list_cons, Z.eqb_refl. pose proof (cnt_list_nonneg (slot_file v) l).
      specialize (Hpos (slot_file v)). lia. }
    cbn [rbind]. destruct s1 as [h1 w1]. simpl in *.
    destruct (IH h1 w1) as (s' & Hr & Hi' & Hw' & Hsame); try done.
    + eapply inv_ext; [exact Hi1|by apply plus_nonneg|]. intros x Hx. unfold plus, upd.
      rewrite cnt_list_cons. destruct (x =? slot_file v); lia.
    + intros x Hx. apply Hl. by apply list_elem_of_further.
    + exists s'. split_and!; [done|done|done|]. intros Hall.
      assert (cnt (slot_file v) t + plus held (v :: l) (slot_file v) <> 1 \/
              cnt (slot_file v) t + held (slot_file v) = 0) as [Hne|H0].
      { unfold plus. rewrite cnt_list_cons, Z.eqb_refl. pose proof (cnt_list_nonneg (slot_file v) l).
        pose proof (cnt_nonneg (slot_file v) t). specialize (Hpos (slot_file v)). lia. }
      2:{ exfalso. by apply (Hall v (list_elem_of_here _ _)). }
      rewrite (proj2 (Z.eqb_neq _ _) Hne) in Hself. rewrite (Hworld Hne) in *.
      destruct Hsame as [Hs ->]; [intros x Hx; apply Hall; by apply list_elem_of_further|].
      split; [|done]. eapply same_files_trans; [|exact Hs]. intros x.
      destruct (decide (x = slot_file v)) as [->|Hx]; [|by rewrite Hother].
      rewrite Hself. by destruct (h !! slot_file v) as [[]|].
Qed.

Lemma vfs_proc_exit_kinv k held pid l : kinv k held -> tables k !! pid = Some l ->
  exists k', vfs_proc_exit k pid = Done k' /\ kinv k' held /\ tables k' = delete pid (tables k) /\
    ((forall v, v ∈ l -> v <> 0 -> cnt (slot_file v) (delete pid (tables k)) + held (slot_file v) <> 0) ->
     same_files (heap (fs k)) (heap (fs k')) /\ world (fs k') = world (fs k)).
Proof.
  intros [Hi Hw] Hl. destruct k as [[h w] t]; simpl in *. unfold vfs_proc_exit. simpl. rewrite Hl.
  cbn [deref rbind]. destruct (vfs_proc_exit_loop_inv l h w (delete pid t) held)
    as (s' & -> & Hi' & Hw' & Hs').
  - by apply delete_table_inv.
  - done.
  - apply Hi.
  - intros v Hv. by eapply inv_slots.
  - cbn [rbind]. eexists. split; [done|]. split_and!; done.
Qed.

(** What [execve] leaves in a slot. *)
Definition exec_slot (h : gmap Z file_t) (v : Z) : Z :=
  if slot_cloexec v || bool_decide (type <$> h !! slot_file v = Some FDIR) then 0 else v.

Lemma vfs_proc_exec_loop_kinv n h0 k held pid l i : kinv k held -> tables k !! pid = Some l ->
  (n + i = Z.to_nat PROC_FILES)%nat ->
  (forall x f, heap (fs k) !! x = Some f -> type <$> h0 !! x = Some (type f)) ->
  exists k', vfs_proc_exec_loop n k pid (Z.of_nat i) = Done k' /\ kinv k' held /\
    tables k' = <[pid := take i l ++ (exec_slot h0 <$> drop i l)]> (tables k).
Proof.
  revert k l i. induction n as [|n IH]; intros k l i Hk Hl Hin Hty; cbn [vfs_proc_exec_loop];
    pose proof (inv_len _ _ _ (proj1 Hk) _ _ Hl) as Hlen.
  { exists k. split_and!; [done|done|]. rewrite take_ge, drop_ge, app_nil_r by lia. by rewrite insert_id. }
  destruct (slot_valid k held pid (Z.of_nat i) l Hk Hl) as (v & -> & Hv & Hvl).
  { unfold fd_invalid. apply orb_false_iff. split; [apply Z.ltb_ge; lia|apply Z.leb_gt].
    unfold PROC_FILES in *. lia. }
  rewrite Nat2Z.id in Hv. cbn [rbind]. replace (Z.of_nat i + 1) with (Z.of_nat (S i)) by lia.
  assert (forall l', l' = <[i := exec_slot h0 v]> l ->
    take (S i) l' ++ (exec_slot h0 <$> drop (S i) l') = take i l ++ (exec_slot h0 <$> drop i l)) as Hstep.
  { intros l' ->. rewrite (drop_S l v i Hv), fmap_cons.
    rewrite (take_S_r _ _ (exec_slot h0 v)) by (apply list_lookup_insert_eq; by eapply lookup_lt_Some).
    rewrite take_insert_ge, drop_insert_lt by lia. by rewrite <- app_assoc. }
  destruct (slot_file_live k held pid l v Hk Hl Hvl) as [[E0 ->]|[Hn [f Hf]]].
  - simpl. destruct (IH k l (S i)) as (k' & -> & Hk' & Ht'); try done; [lia|].
    exists k'. split_and!; [done|done|]. rewrite Ht'. f_equal. apply Hstep. symmetry. apply list_insert_id.
    unfold exec_slot. by destruct (_ || _).
  - rewrite (proj2 (Z.eqb_neq _ _) Hn). cbn [negb]. rewrite Hf. cbn [deref rbind].
    assert (bool_decide (type f = FDIR) = bool_decide (type <$> h0 !! slot_file v = Some FDIR)) as ->.
    { apply bool_decide_ext. rewrite (Hty _ _ Hf). split; congruence. }
    destruct (slot_cloexec v || bool_decide (type <$> h0 !! slot_file v = Some FDIR)) eqn:Ec.
    2:{ destruct (IH k l (S i)) as (k' & -> & Hk' & Ht'); try done; [lia|].
        exists k'. split_and!; [done|done|]. rewrite Ht'. f_equal. apply Hstep. symmetry.
        apply list_insert_id. unfold exec_slot. by rewrite Ec. }
    pose proof (inv_held _ _ _ (proj1 Hk)) as Hpos.
    assert (kinv (set_slot k pid (Z.of_nat i) 0) (upd held (slot_file v) 1)) as Hk1.
    { eapply set_slot_kinv; [done|done|by rewrite Nat2Z.id|done| |].
      - intros x. unfold upd. specialize (Hpos x). destruct (x =? slot_file v); lia.
      - intros x Hx. unfold upd. rewrite slot_file_0, (proj2 (Z.eqb_neq x 0) Hx). lia. }
    destruct (file_unref_kinv _ _ (slot_file v) Hk1) as (s' & Hr & Hk2 & Hother & Hself & _); [|done|].
    { unfold upd. rewrite Z.eqb_refl. specialize (Hpos (slot_file v)). lia. }
    change (fs (set_slot k pid (Z.of_nat i) 0)) with (fs k) in *. rewrite Hr. cbn [rbind].
    destruct (IH (set_slot (with_fs k s') pid (Z.of_nat i) 0) (<[i := 0]> l) (S i))
      as (k' & -> & Hk' & Ht').
    + split; [|apply Hk2]. eapply inv_ext; [apply Hk2|done|]. intros x _. unfold upd.
      destruct (x =? slot_file v); lia.
    + simpl. by rewrite lookup_alter_eq, Hl, Nat2Z.id.
    + lia.
    + intros x g. destruct (decide (x = slot_file v)) as [->|Hx]; simpl; [|rewrite Hother by done; apply Hty].
      rewrite Hself, Hf. destruct (_ =? 1); [done|]. intros [= <-]. by apply (Hty _ f).
    + exists k'. split_and!; [done|done|]. rewrite Ht'. rewrite (Hstep (<[i := 0]> l)).
      2:{ unfold exec_slot. by rewrite Ec. }
      simpl. apply map_eq. intros p. destruct (decide (pid = p)) as [<-|].
      * by rewrite !lookup_insert_eq.
      * by rewrite !lookup_insert_ne, lookup_alter_ne.
Qed.

(** ** Runs of operations *)

Inductive fdop :=
| OAlloc (a : Z) (ty : ftype_t) (flags ops : Z)
| OUnref (a : Z)
| OFdalloc (pid file : Z) (cloexec : bool) (min : Z)
| OFdalloc2 (pid file0 file1 : Z) (cloexec : bool)
| OFddup (pid file newfd : Z)
| OFdget (pid fd : Z)
| OFdfree (pid fd : Z)
| OCloexec (pid fd : Z) (cloexec : bool)
| OInit (pid : Z)
| OFork (dst src : Z)
| OExec (pid : Z)
| OExit (pid : Z).

Definition run_op (k : kstate) (op : fdop) : res (Z * kstate) :=
  match op with
  | OAlloc a ty flags ops =>
      let* '(err, _, s) := file_alloc (Some a) ty flags ops (fs k) in Done (err, with_fs k s)
  | OUnref a => let* s := file_unref (fs k) a in Done (0, with_fs k s)
  | OFdalloc pid file cloexec min => fdalloc k pid file cloexec min
  | OFdalloc2 pid file0 file1 cloexec =>
      let* '(err, _, _, k') := fdalloc2 k pid file0 file1 cloexec in Done (err, k')
  | OFddup pid file newfd => fddup k pid file newfd
  | OFdget pid fd => fdget k pid fd
  | OFdfree pid fd => fdfree k pid fd
  | OCloexec pid fd cloexec => fd_cloexec_set k pid fd cloexec
  | OInit pid => Done (0, vfs_proc_init k pid false)
  | OFork dst src => let* k' := vfs_proc_fork k dst src in Done (0, k')
  | OExec pid => let* k' := vfs_proc_exec k pid in Done (0, k')
  | OExit pid => let* k' := vfs_proc_exit k pid in Done (0, k')
  end.

(** The references that the caller owns after the operation. *)
Definition held_after (op : fdop) (r : Z) (held : Z -> Z) : Z -> Z :=
  match op with
  | OAlloc a _ _ _ => upd held a 1
  | OUnref a => upd held a (-1)
  | OFdget _ _ => if r =? 0 then held else upd held r 1
  | _ => held
  end.

(** What the callers guarantee: a file that is passed on is held, a process
    has a table, a new process has none yet, and new memory is really new. *)
Definition allowed (k : kstate) (held : Z -> Z) (op : fdop) : Prop :=
  let owns file := file <> 0 /\ 0 < held file in
  match op with
  | OAlloc a ty flags ops => heap (fs k) !! a = None /\ 0 < a /\ Z.land a FLAG_CLOEXEC = 0 /\ ops <> 0 /\
      wok (<[a := File 1 flags ops 0 ty 0 None]> (heap (fs k))) (world (fs k))
  | OUnref a => owns a
  | OFdalloc pid file _ _ | OFddup pid file _ => owns file /\ is_Some (tables k !! pid)
  | OFdalloc2 pid file0 file1 _ => owns file0 /\ owns file1 /\ is_Some (tables k !! pid)
  | OFdget pid _ | OFdfree pid _ | OCloexec pid _ _ | OExec pid | OExit pid => is_Some (tables k !! pid)
  | OInit pid => tables k !! pid = None
  | OFork dst src => tables k !! dst = None /\ is_Some (tables k !! src)
  end.

Lemma run_op_kinv k held op : kinv k held -> few PROC_FILES (heap (fs k)) -> allowed k held op ->
  exists r k', run_op k op = Done (r, k') /\ kinv k' (held_after op r held).
Proof.
  intros Hk Hfew Ha. assert (few 2 (heap (fs k))) as Hf2 by (eapply few_weaken; [|exact Hfew]; done).
  assert (few 1 (heap (fs k))) as Hf1 by (eapply few_weaken; [|exact Hfew]; done).
  destruct op; cbn [allowed run_op held_after] in *.
  - destruct Ha as (Hn & Hp & He & Ho & Hw). destruct k as [[h w] t]. simpl in *.
    destruct (file_alloc_inv h w t held a ty flags0 ops (proj1 Hk)) as [-> Hi]; try done.
    cbn [rbind]. eexists _, _. split; [done|]. by split.
  - destruct Ha as [Hn Hh]. destruct (file_unref_kinv k held a Hk Hh Hn) as (s' & -> & Hk' & _).
    cbn [rbind]. eauto.
  - destruct Ha as [[Hn Hh] [l Hl]]. unfold fdalloc.
    destruct (fdalloc_kinv k held pid l file cloexec min) as (r & k' & -> & Hk' & _); eauto.
  - destruct Ha as ([Hn Hh] & [Hn1 Hh1] & [l Hl]).
    destruct (fdalloc2_kinv k held pid l file0 file1 cloexec) as (e & f0 & f1 & k' & -> & Hk' & _); try done.
    cbn [rbind]. eauto.
  - destruct Ha as [[Hn Hh] [l Hl]].
    destruct (fddup_kinv k held pid l file newfd) as (r & k' & -> & Hk' & _); eauto.
  - destruct Ha as [l Hl]. destruct (fdget_kinv k held pid fd l) as (r & k' & -> & _ & Hk' & _); eauto.
  - destruct Ha as [l Hl]. destruct (fdfree_kinv k held pid fd l) as (r & k' & -> & Hk' & _); eauto.
  - destruct Ha as [l Hl]. destruct (fd_cloexec_set_kinv k held pid fd l cloexec) as (r & k' & -> & Hk' & _); eauto.
  - eexists _, _. split; [done|]. by apply vfs_proc_init_kinv.
  - destruct Ha as [Hn [l Hl]]. destruct (vfs_proc_fork_kinv k held dst src l) as (k' & -> & Hk' & _); try done.
    cbn [rbind]. eauto.
  - destruct Ha as [l Hl]. unfold vfs_proc_exec.
    destruct (vfs_proc_exec_loop_kinv (Z.to_nat PROC_FILES) (heap (fs k)) k held pid l 0) as (k' & Hr & Hk' & _);
      try done.
    { intros x f Hf. by rewrite Hf. }
    change (Z.of_nat 0) with 0 in Hr. rewrite Hr. cbn [rbind]. eauto.
  - destruct Ha as [l Hl]. destruct (vfs_proc_exit_kinv k held pid l) as (k' & -> & Hk' & _); try done.
    cbn [rbind]. eauto.
Qed.

(** States that runs of operations reach from the empty system. *)
Inductive reachable : kstate -> (Z -> Z) -> Prop :=
| reach_init w : wok ∅ w -> reachable (K (FS ∅ w) ∅) (fun _ => 0)
| reach_step k held op r k' :
    reachable k held -> few PROC_FILES (heap (fs k)) -> allowed k held op ->
    run_op k op = Done (r, k') -> reachable k' (held_after op r held).

Lemma reachable_kinv k held : reachable k held -> kinv k held.
Proof.
  induction 1 as [w Hw|k held op r k' _ IH Hfew Ha Hr].
  - split; [|done]. constructor; done.
  - destruct (run_op_kinv k held op IH Hfew Ha) as (r1 & k1 & Hr1 & Hk1). naive_solver congruence.
Qed.

(** ** Properties *)

(** C3: reference counting of open files is exact.  In every state that
    descriptor operations of any processes reach (allocation, dup, close, fork,
    exec, exit, ...), the counter of a file is the number of descriptor slots
    that refer to it plus the references kernel code holds; a descriptor never
    refers to a freed file; and every further operation returns: no counter
    underflows and no freed file is touched. *)
Theorem fd_refcount_exact k held : reachable k held ->
  (forall a, a <> 0 -> refs (heap (fs k)) a = cnt a (tables k) + held a) /\
  (forall pid l v, tables k !! pid = Some l -> v ∈ l -> v <> 0 -> is_Some (heap (fs k) !! slot_file v)) /\
  (forall op, few PROC_FILES (heap (fs k)) -> allowed k held op -> exists r k', run_op k op = Done (r, k')).
Proof.
  intros Hr. pose proof (reachable_kinv _ _ Hr) as Hk. split_and!.
  - apply Hk.
  - intros pid l v Hl Hv Hn. destruct (slot_live _ _ _ _ _ _ (proj1 Hk) Hl Hv Hn) as (f & -> & _). eauto.
  - intros op Hfew Ha. destruct (run_op_kinv k held op Hk Hfew Ha) as (r & k' & ? & _). eauto.
Qed.

(** [file_unref] closes and frees the file exactly when the reference that
    is dropped is the last one; otherwise it changes only the counter. *)
Theorem file_unref_last k held a : kinv k held -> 0 < held a -> a <> 0 ->
  exists s', file_unref (fs k) a = Done s' /\
    (forall x, x <> a -> heap s' !! x = heap (fs k) !! x) /\
    (heap s' !! a = None <-> cnt a (tables k) + held a = 1) /\
    (cnt a (tables k) + held a <> 1 -> world s' = world (fs k)).
Proof.
  intros [Hi Hw] Hh Ha. destruct k as [[h w] t]; simpl in *.
  destruct (file_unref_inv h w t held a Hi Hw Hh Ha) as (s' & Hr & _ & _ & Hx & Hself & Hwd).
  exists s'. split_and!; [done|done| |done]. rewrite Hself.
  destruct (Z.eqb_spec (cnt a t + held a) 1); [done|]. split; [|done].
  pose proof (inv_cnt _ _ _ Hi a Ha) as Hc. pose proof (cnt_nonneg a t). unfold refs in Hc.
  destruct (h !! a); [done|lia].
Qed.

(** [fdalloc] hands out the lowest free descriptor that is at least [min]
    and refers it to the file; the other descriptors stay as they are.  It
    fails with -EINVAL only for a [min] outside the table and with -ENFILE only
    if no descriptor from [min] on is free; then nothing changes. *)
Theorem fdalloc_lowest k held pid l file cloexec min : kinv k held -> few 1 (heap (fs k)) ->
  tables k !! pid = Some l -> 0 < held file -> file <> 0 ->
  exists r k', fdalloc k pid file cloexec min = Done (r, k') /\ kinv k' held /\
    ((r = - EINVAL /\ k' = k /\ ~ 0 <= min < PROC_FILES) \/
     (r = - ENFILE /\ k' = k /\ forall j, min <= j < PROC_FILES -> l !! Z.to_nat j <> Some 0) \/
     (min <= r < PROC_FILES /\ l !! Z.to_nat r = Some 0 /\
      (forall j, min <= j < r -> l !! Z.to_nat j <> Some 0) /\
      exists v, slot_file v = file /\ slot_cloexec v = cloexec /\
        tables k' = <[pid := <[Z.to_nat r := v]> l]> (tables k))).
Proof.
  intros Hk Hfew Hl Hh Hn. unfold fdalloc.
  destruct (fdalloc_kinv k held pid l file cloexec min) as (r & k' & -> & Hk' & Hc); try done.
  exists r, k'. split_and!; [done|done|]. destruct Hc as [Hc|[Hc|[Hr Hc]]]; [by left|by right; left|].
  right; right. destruct (allocated_held _ _ held _ _ _ _ _ _ Hk Hh Hn Hl Hc) as (_ & _ & _ & _ & Hs).
  destruct Hc as (H1 & H2 & H3 & H4 & f & Hf & _). split_and!; [lia|lia|done|done|].
  pose proof (inv_heap _ _ _ (proj1 Hk) _ _ Hf) as (_ & He & _). eexists. split_and!; [exact Hs| |].
  - unfold slot_cloexec. destruct cloexec; [|by rewrite He].
    rewrite land_1 in *. rewrite lor_1 by done. rewrite Z.add_mod, He by lia. done.
  - rewrite H4. apply map_eq. intros p. destruct (decide (pid = p)) as [<-|].
    + by rewrite lookup_alter_eq, lookup_insert_eq, Hl.
    + by rewrite lookup_alter_ne, lookup_insert_ne.
Qed.

(** a child that exits right after a fork leaves the files, their
    counters and the state behind them as they were. *)
Theorem fork_exit_roundtrip k held dst src l : kinv k held -> few PROC_FILES (heap (fs k)) ->
  tables k !! src = Some l -> tables k !! dst = None ->
  exists k1, vfs_proc_fork k dst src = Done k1 /\ tables k1 !! dst = Some l /\
    vfs_proc_exit k1 dst = Done k.
Proof.
  intros Hk Hfew Hl Hn.
  destruct (vfs_proc_fork_kinv k held dst src l Hk Hfew Hl Hn) as (k1 & Hr & Hk1 & Ht1 & Hs1 & Hw1).
  assert (tables k1 !! dst = Some l) as Hl1 by (by rewrite Ht1, lookup_insert_eq).
  exists k1. split_and!; [done|done|].
  destruct (vfs_proc_exit_kinv k1 held dst l Hk1 Hl1) as (k2 & -> & Hk2 & Ht2 & Hsame).
  assert (delete dst (tables k1) = tables k) as Ht by (rewrite Ht1; by apply delete_insert_id).
  rewrite Ht in *. destruct Hsame as [Hs2 Hw2].
  { intros v Hv Hv0. destruct (slot_live _ _ _ _ _ _ (proj1 Hk) Hl Hv Hv0) as (f & _ & Hc).
    pose proof (inv_held _ _ _ (proj1 Hk) (slot_file v)). lia. }
  destruct k as [[h w] t], k2 as [[h2 w2] t2]. simpl in *. subst t2 w2.
  rewrite Hw1. do 3 f_equal. apply same_files_refs.
  - intros a. rewrite <- (Hs2 a). by rewrite (Hs1 a).
  - intros a. destruct (decide (a = 0)) as [->|Ha].
    + unfold refs. destruct (h2 !! 0) as [f|] eqn:E2, (h !! 0) as [g|] eqn:E; try done.
      * pose proof (inv_heap _ _ _ (proj1 Hk2) _ _ E2) as [? _]. lia.
      * pose proof (inv_heap _ _ _ (proj1 Hk2) _ _ E2) as [? _]. lia.
      * pose proof (inv_heap _ _ _ (proj1 Hk) _ _ E) as [? _]. lia.
    + pose proof (inv_cnt _ _ _ (proj1 Hk2) a Ha) as E2. pose proof (inv_cnt _ _ _ (proj1 Hk) a Ha) as E.
      simpl in *. congruence.
Qed.

(** exec closes exactly the descriptors with the CLOEXEC flag and those
    of directories, and keeps the others. *)
Theorem exec_closes k held pid l : kinv k held -> tables k !! pid = Some l ->
  exists k', vfs_proc_exec k pid = Done k' /\ kinv k' held /\
    tables k' = <[pid := exec_slot (heap (fs k)) <$> l]> (tables k).
Proof.
  intros Hk Hl. unfold vfs_proc_exec.
  destruct (vfs_proc_exec_loop_kinv (Z.to_nat PROC_FILES) (heap (fs k)) k held pid l 0)
    as (k' & Hr & Hk' & Ht); try done.
  { intros x f Hf. by rewrite Hf. }
  exists k'. split_and!; [exact Hr|done|]. by rewrite Ht.
Qed.

End File.
Arguments fstate : clear implicits.
Arguments kstate : clear implicits.

(** ** A concrete system: files without callbacks *)

#[local] Instance plain_fops : Fops unit := {| vnode_fops := 1; dev_ops := 2; fop_close := fun _ => None |}.
#[local, refine] Instance plain_laws : FopsLaws unit := {| wok := fun _ _ => True |}.
Proof. all: naive_solver. Defined.

(** Process 1 has a file, close-on-exec, at descriptor 3 and the caller holds
    one reference. *)
Definition plain_state : kstate unit :=
  K (FS {[0x100 := File 2 O_RDWR 1 0 FREG 0 None]} tt)
    {[1 := <[3%nat := 0x101]> (replicate 50 0)]}.
Definition plain_held : Z -> Z := upd (fun _ => 0) 0x100 1.

Lemma plain_reachable : reachable plain_state plain_held.
Proof.
  assert (reachable (K (FS ∅ tt) ∅) (fun _ => 0)) as R0 by (by constructor).
  eapply (reach_step _ _ (OInit 1)) in R0; [|done|done|reflexivity].
  eapply (reach_step _ _ (OAlloc 0x100 FREG O_RDWR 1)) in R0; [|by apply few_empty|done|reflexivity].
  eapply (reach_step _ _ (OFdalloc 1 0x100 true 3)) in R0; [| | |vm_compute; reflexivity].
  - exact R0.
  - by repeat apply few_insert; [apply few_empty|..].
  - split; [done|]. by eexists.
Qed.

Lemma plain_kinv : kinv plain_state plain_held.
Proof. apply reachable_kinv, plain_reachable. Qed.

Lemma plain_few : few PROC_FILES (heap (fs plain_state)).
Proof. by apply few_insert; [apply few_empty|]. Qed.

Lemma fd_refcount_exact_witness : refs (heap (fs plain_state)) 0x100 = 1 + 1.
Proof.
  destruct (fd_refcount_exact plain_state plain_held plain_reachable) as [Hc _].
  rewrite (Hc 0x100) by done. reflexivity.
Defined.

Lemma file_unref_last_witness : exists s', file_unref (fs plain_state) 0x100 = Done s' /\
  heap s' !! 0x100 <> None.
Proof.
  destruct (file_unref_last plain_state plain_held 0x100 plain_kinv) as (s' & Hr & _ & Hn & _); [done|done|].
  exists s'. split; [exact Hr|]. rewrite Hn. vm_compute. discriminate.
Defined.

Lemma fdalloc_lowest_witness : exists k', fdalloc plain_state 1 0x100 false 3 = Done (4, k').
Proof.
  destruct (fdalloc_lowest plain_state plain_held 1 (<[3%nat := 0x101]> (replicate 50 0)) 0x100 false 3 plain_kinv)
    as (r & k' & Hr & _).
  - eapply few_weaken; [|apply plain_few]; done.
  - reflexivity.
  - done.
  - done.
  - exists k'. rewrite Hr. vm_compute in Hr. injection Hr as <- _. reflexivity.
Defined.

Lemma fork_exit_roundtrip_witness : exists k1, vfs_proc_fork plain_state 2 1 = Done k1 /\
  vfs_proc_exit k1 2 = Done plain_state.
Proof.
  destruct (fork_exit_roundtrip plain_state plain_held 2 1 (<[3%nat := 0x101]> (replicate 50 0)) plain_kinv plain_few)
    as (k1 & H1 & _ & H2); [reflexivity|reflexivity|eauto].
Defined.

Lemma exec_closes_witness : exists k', vfs_proc_exec plain_state 1 = Done k' /\
  tables k' !! 1 = Some (replicate 50 0).
Proof.
  destruct (exec_closes plain_state plain_held 1 (<[3%nat := 0x101]> (replicate 50 0)) plain_kinv)
    as (k' & Hr & _ & Ht); [reflexivity|].
  exists k'. rewrite Ht. split; [exact Hr|]. reflexivity.
Defined.
