(* ===== verification/Pipe.v ===== *)
(** * kern/pipe.c: pipes

    A pipe is a ring buffer of [PIPE_SIZE] bytes with two files, one for each
    end.  It is the state behind the close callback of these files, so it
    instantiates the interface of File.v; the other file operations work on the
    ring buffer.  Of the two tables of operations of other files (vnodes and
    devices) only the identity matters here. *)
From stdpp Require Import base tactics option list numbers gmap.
From Stdlib Require Import ZArith Lia Bool.
From S2P Require Import Prelude User Uio Cbuf Ringbuf File.

Definition PIPE_SIZE : Z := 512.
Definition PIPE_READ : Z := 1.
Definition PIPE_WRITE : Z := 2.

Record pipe_t := Pipe { closed : Z; buf : ringbuf_t cbuf_t }.
Abbreviation pipes := (gmap Z pipe_t).

(** Identifies the table [pipe_ops]. *)
Definition pipe_ops : Z := 3.

(** [pmem] and [blk]: what [kmalloc] and the allocation of the buffer return. *)
Definition pipe_alloc (pmem : option Z) (blk : Z * list Z) (w : pipes) : res (option Z * pipes) :=
  match pmem with
  | None => Done (None, w)
  | Some p =>
    let* '(err, rb) := ringbuf_alloc blk PIPE_SIZE in
    if negb (err =? 0) then Done (None, w) else Done (Some p, <[p := Pipe 0 rb]> w)
  end.

Definition pipe_free (w : pipes) (p : Z) : res pipes :=
  let* _ := deref (w !! p) in Done (delete p w).

(** The bit of [closed] that belongs to a file. *)
Definition pipe_cflag (f : file_t) : Z := if FWRITEABLE (flags f) then PIPE_WRITE else PIPE_READ.

Definition pipe_close (f : file_t) (w : pipes) : res pipes :=
  let* p := deref (w !! priv f) in
  let cflag := pipe_cflag f in
  let w1 := <[priv f := Pipe (Z.lor (closed p) cflag) (ringbuf_eof (buf p))]> w in
  if negb (Z.land (closed p) (Z.lnot cflag) =? 0) then pipe_free w1 (priv f) else Done w1.

#[export] Instance pipe_fops : Fops pipes := {|
  vnode_fops := 1;
  dev_ops := 2;
  fop_close := fun ops => if ops =? pipe_ops then Some pipe_close else None;
|}.

Definition pipe_rb_flags (f : file_t) : Z := if F_ISSET (flags f) O_NONBLOCK then RB_NOBLOCK else 0.

Definition pipe_read `{Cpu} (m : mem) (w : pipes) (f : file_t) (uio : uio_t) (evs : list (event cbuf_t))
    : res (Z * mem * pipes * uio_t) :=
  let* p := deref (w !! priv f) in
  let* '(n, m', rb, uio', _) := ringbuf_read_uio m (buf p) uio (pipe_rb_flags f) evs in
  Done (n, m', <[priv f := Pipe (closed p) rb]> w, uio').

(** [tkill]: the result of [kern_tkill_cur(SIGPIPE)]; [ignored]: that of
    [signal_is_ignored(SIGPIPE)]. *)
Definition pipe_write `{Cpu} (fuel : nat) (m : mem) (w : pipes) (f : file_t) (uio : uio_t)
    (tkill : Z) (ignored : bool) (evs : list (event cbuf_t)) : res (Z * pipes * uio_t) :=
  let* p := deref (w !! priv f) in
  if negb (Z.land (closed p) PIPE_READ =? 0) then Done (- EPIPE, w, uio)
  else
    let* '(err, rb, uio', _) := ringbuf_write_uio fuel m (buf p) uio (pipe_rb_flags f) evs in
    let err := if (err =? - EPIPE) && negb ignored
               then if negb (tkill =? 0) then - EPIPE else tkill else err in
    Done (err, <[priv f := Pipe (closed p) rb]> w, uio').

(** What the allocators return to [sys_pipe2]: the pipe, its buffer and the
    two files. *)
Record pipe_mem := PipeMem { pm_pipe : option Z; pm_buf : Z * list Z; pm_rd : option Z; pm_wr : option Z }.

Definition sys_pipe2 `{Cpu} (pm : pipe_mem) (m : mem) (k : kstate pipes) (pid usr flags : Z)
    : res (Z * mem * kstate pipes) :=
  let cloexec := negb (Z.land flags O_CLOEXEC =? 0) in
  let file_flags := if negb (Z.land flags O_NONBLOCK =? 0) then O_NONBLOCK else 0 in
  let set_world k w := with_fs k (FS (heap (fs k)) w) in
  let err_rd_file p k m err :=
    let* w := pipe_free (world (fs k)) p in Done (err, m, set_world k w) in
  let err_wr_file p f0 k m err :=
    let* s := file_unref (fs k) f0 in err_rd_file p (with_fs k s) m err in
  let err_fd p f0 f1 k m err :=
    let* s := file_unref (fs k) f1 in err_wr_file p f0 (with_fs k s) m err in
  let* '(pipe, w) := pipe_alloc (pm_pipe pm) (pm_buf pm) (world (fs k)) in
  match pipe with
  | None => Done (- ENOMEM, m, set_world k w)
  | Some p =>
    let k1 := set_world k w in
    let* '(err, fp0, s) := file_alloc (pm_rd pm) FPIPE (Z.lor file_flags O_RDONLY) pipe_ops (fs k1) in
    match fp0 with
    | None => err_rd_file p (with_fs k1 s) m err
    | Some f0 =>
      let k2 := with_fs k1 s in
      let* '(err, fp1, s) := file_alloc (pm_wr pm) FPIPE (Z.lor file_flags O_WRONLY) pipe_ops (fs k2) in
      match fp1 with
      | None => err_wr_file p f0 (with_fs k2 s) m err
      | Some f1 =>
        let* s := file_set_priv s f0 p in
        let* s := file_set_priv s f1 p in
        let* '(err, fd0, fd1, k3) := fdalloc2 (with_fs k2 s) pid f0 f1 cloexec in
        if negb (err =? 0) then err_fd p f0 f1 k3 m err
        else
          let* '(err, m') := copyout m usr (int_bytes fd0 ++ int_bytes fd1) in
          if negb (err =? 0) then
            let* '(_, k4) := fdfree k3 pid fd0 in
            let* '(_, k5) := fdfree k4 pid fd1 in
            err_fd p f0 f1 k5 m' err
          else
            let* s := file_unref (fs k3) f0 in
            let* s := file_unref s f1 in
            Done (0, m', with_fs k3 s)
      end
    end
  end.

Definition sys_pipe `{Cpu} (pm : pipe_mem) (m : mem) (k : kstate pipes) (pid usr : Z) :=
  sys_pipe2 pm m k pid usr 0.

(** ** The lifetime of a pipe *)

(** The pipes and the files that exist fit together: a file of a pipe has a
    pipe whose bit for that end is clear; there is one file per end; and every
    pipe has an open end, since the second close frees it. *)
Record pipes_ok (h : gmap Z file_t) (w : pipes) : Prop := {
  po_file : forall a f, h !! a = Some f -> fops f = pipe_ops ->
    exists p, w !! priv f = Some p /\ Z.land (closed p) (pipe_cflag f) = 0;
  po_uniq : forall a a' f f', h !! a = Some f -> h !! a' = Some f' -> fops f = pipe_ops ->
    fops f' = pipe_ops -> priv f = priv f' -> pipe_cflag f = pipe_cflag f' -> a = a';
  po_closed : forall id p, w !! id = Some p ->
    closed p = 0 \/ closed p = PIPE_READ \/ closed p = PIPE_WRITE;
  po_eof : forall id p, w !! id = Some p -> eof (buf p) = negb (closed p =? 0);
  po_open : forall id p c, w !! id = Some p -> c = PIPE_READ \/ c = PIPE_WRITE ->
    Z.land (closed p) c = 0 ->
    exists a f, h !! a = Some f /\ fops f = pipe_ops /\ priv f = id /\ pipe_cflag f = c;
}.

Lemma pipe_cflag_cases f : pipe_cflag f = PIPE_READ \/ pipe_cflag f = PIPE_WRITE.
Proof. unfold pipe_cflag. destruct (FWRITEABLE _); auto. Qed.

Lemma pipes_ok_ref h w a f r : pipes_ok h w -> h !! a = Some f -> pipes_ok (<[a := set_ref f r]> h) w.
Proof.
  intros [H1 H2 H3 H4 H5] Hf.
  assert (forall x g, <[a := set_ref f r]> h !! x = Some g ->
    exists g0, h !! x = Some g0 /\ fops g = fops g0 /\ priv g = priv g0 /\ pipe_cflag g = pipe_cflag g0) as Hlook.
  { intros x g. destruct (decide (a = x)) as [<-|]; [|rewrite lookup_insert_ne by done; eauto].
    rewrite lookup_insert_eq. intros [= <-]. eauto. }
  constructor; [| |done|done|].
  - intros x g Hg Ho. destruct (Hlook _ _ Hg) as (g0 & Hg0 & E1 & E2 & E3). rewrite E2, E3.
    apply (H1 x g0); congruence.
  - intros x x' g g' Hg Hg' Ho Ho' Hp Hc. destruct (Hlook _ _ Hg) as (g0 & ? & ? & ? & ?).
    destruct (Hlook _ _ Hg') as (g1 & ? & ? & ? & ?). apply (H2 x x' g0 g1); congruence.
  - intros id p c Hid Hc Hz. destruct (H5 id p c Hid Hc Hz) as (x & g & Hg & Ho & Hp & Hcf).
    destruct (decide (a = x)) as [<-|].
    + exists a, (set_ref f r). rewrite lookup_insert_eq. assert (g = f) as -> by congruence. done.
    + exists x, g. by rewrite lookup_insert_ne.
Qed.

Lemma pipe_close_ok h w a f : pipes_ok h w -> h !! a = Some f -> fops f = pipe_ops ->
  exists w', pipe_close f w = Done w' /\ pipes_ok (delete a h) w'.
Proof.
  intros [H1 H2 H3 H4 H5] Hf Ho. destruct (H1 a f Hf Ho) as (p & Hp & Hz).
  unfold pipe_close. rewrite Hp. cbn [deref rbind].
  assert (forall x g, delete a h !! x = Some g -> fops g = pipe_ops -> priv g = priv f ->
    pipe_cflag g <> pipe_cflag f) as Hother.
  { intros x g [Hn Hg]%lookup_delete_Some Hgo Hgp Hc. apply Hn. by apply (H2 a x f g). }
  assert (forall x x' g g', delete a h !! x = Some g -> delete a h !! x' = Some g' -> fops g = pipe_ops ->
    fops g' = pipe_ops -> priv g = priv g' -> pipe_cflag g = pipe_cflag g' -> x = x') as Huniq.
  { intros x x' g g' [_ Hg]%lookup_delete_Some [_ Hg']%lookup_delete_Some. by apply H2. }
  destruct (decide (closed p = 0)) as [E0|E0].
  - rewrite E0. rewrite Z.land_0_l. cbn [negb Z.eqb]. eexists. split; [done|]. constructor; [|done| | |].
    + intros x g Hg Hgo. pose proof Hg as [_ Hg']%lookup_delete_Some.
      destruct (decide (priv g = priv f)) as [Ep|Ep].
      * rewrite Ep, lookup_insert_eq. eexists. split; [done|]. simpl.
        pose proof (Hother x g Hg Hgo Ep). destruct (pipe_cflag_cases g) as [Eg|Eg],
          (pipe_cflag_cases f) as [Ef|Ef]; rewrite Eg, Ef in *; done.
      * rewrite lookup_insert_ne by done. by apply (H1 x g).
    + intros id q. destruct (decide (priv f = id)) as [<-|]; [|rewrite lookup_insert_ne by done; apply H3].
      rewrite lookup_insert_eq. intros [= <-]. right. destruct (pipe_cflag_cases f) as [->| ->]; auto.
    + intros id q. destruct (decide (priv f = id)) as [<-|]; [|rewrite lookup_insert_ne by done; apply H4].
      rewrite lookup_insert_eq. intros [= <-]. simpl. by destruct (pipe_cflag_cases f) as [->| ->].
    + intros id q c. destruct (decide (priv f = id)) as [<-|Hid].
      * rewrite lookup_insert_eq. intros [= <-] Hc Hcz. simpl in Hcz.
        destruct (H5 (priv f) p c Hp Hc) as (x & g & Hg & Hgo & Hgp & Hgc); [by rewrite E0|].
        exists x, g. split; [|done]. apply lookup_delete_Some. split; [|done]. intros <-.
        assert (g = f) as -> by congruence. rewrite Hgc in Hcz. by destruct Hc; subst c.
      * rewrite lookup_insert_ne by done. intros Hq Hc Hcz.
        destruct (H5 id q c Hq Hc Hcz) as (x & g & Hg & Hgo & Hgp & Hgc). exists x, g.
        split; [|done]. apply lookup_delete_Some. split; [|done]. intros <-. congruence.
  - assert (Z.land (closed p) (Z.lnot (pipe_cflag f)) <> 0 /\
            forall c, c = PIPE_READ \/ c = PIPE_WRITE -> c <> pipe_cflag f -> Z.land (closed p) c <> 0)
      as [Hnz Hoth].
    { destruct (H3 _ _ Hp) as [E|[E|E]]; [done| |]; rewrite E in *;
        destruct (pipe_cflag_cases f) as [Ec|Ec]; rewrite Ec in *; try done;
        (split; [done|]); intros c [-> | ->]; done. }
    rewrite (proj2 (Z.eqb_neq _ _) Hnz). cbn [negb]. unfold pipe_free. rewrite lookup_insert_eq. cbn [deref rbind].
    rewrite delete_insert_eq. eexists. split; [done|]. constructor; [|done| | |].
    + intros x g Hg Hgo. pose proof Hg as [_ Hg']%lookup_delete_Some.
      destruct (H1 x g Hg' Hgo) as (q & Hq & Hqz). exists q. split; [|done].
      apply lookup_delete_Some. split; [|done]. intros Ep. symmetry in Ep.
      rewrite Ep in Hq. assert (q = p) as -> by congruence.
      by apply (Hoth (pipe_cflag g) (pipe_cflag_cases g) (Hother x g Hg Hgo Ep)).
    + intros id q [_ Hq]%lookup_delete_Some. eauto.
    + intros id q [_ Hq]%lookup_delete_Some. eauto.
    + intros id q c [Hid Hq]%lookup_delete_Some Hc Hcz.
      destruct (H5 id q c Hq Hc Hcz) as (x & g & Hg & Hgo & Hgp & Hgc). exists x, g.
      split; [|done]. apply lookup_delete_Some. split; [|done]. intros <-. congruence.
Qed.

Lemma pipes_ok_noclose h w a f : pipes_ok h w -> h !! a = Some f -> fops f <> pipe_ops ->
  pipes_ok (delete a h) w.
Proof.
  intros [H1 H2 H3 H4 H5] Hf Ho. constructor; [| |done|done|].
  - intros x g [_ Hg]%lookup_delete_Some. eauto.
  - intros x x' g g' [_ Hg]%lookup_delete_Some [_ Hg']%lookup_delete_Some. by apply H2.
  - intros id p c Hid Hc Hz. destruct (H5 id p c Hid Hc Hz) as (x & g & Hg & Hgo & Hgp & Hgc).
    exists x, g. split; [|done]. apply lookup_delete_Some. split; [|done]. intros <-. congruence.
Qed.

#[export, refine] Instance pipe_fops_laws : FopsLaws pipes := {| wok := pipes_ok |}.
Proof.
  - intros h w a f r. apply pipes_ok_ref.
  - intros h w a f close Hok Hf Hc. simpl in Hc. destruct (Z.eqb_spec (fops f) pipe_ops); [|done].
    injection Hc as <-. by apply pipe_close_ok.
  - intros h w a f Hok Hf Hc. simpl in Hc. destruct (Z.eqb_spec (fops f) pipe_ops); [done|].
    by eapply pipes_ok_noclose.
Defined.

(** The files of a new pipe. *)
Definition pipe_file (r flags p : Z) : file_t := File r flags pipe_ops p FPIPE 0 None.

(** Adding both ends of a new pipe. *)
Lemma pipes_ok_new h w p rb f0 f1 fl0 fl1 : pipes_ok h w -> w !! p = None -> h !! f0 = None -> h !! f1 = None ->
  f0 <> f1 -> FWRITEABLE fl0 = false -> FWRITEABLE fl1 = true -> eof rb = false ->
  pipes_ok (<[f1 := pipe_file 1 fl1 p]> (<[f0 := pipe_file 1 fl0 p]> h)) (<[p := Pipe 0 rb]> w).
Proof.
  intros [H1 H2 H3 H4 H5] Hp Hf0 Hf1 Hne Hw0 Hw1 Hrb.
  assert (forall x g, h !! x = Some g -> fops g = pipe_ops -> priv g <> p) as Hnp.
  { intros x g Hg Ho E. destruct (H1 x g Hg Ho) as (q & Hq & _). congruence. }
  assert (forall x g, <[f1 := pipe_file 1 fl1 p]> (<[f0 := pipe_file 1 fl0 p]> h) !! x = Some g ->
    (x = f1 /\ g = pipe_file 1 fl1 p) \/ (x = f0 /\ g = pipe_file 1 fl0 p) \/ h !! x = Some g) as Hlook.
  { intros x g [[<- <-]|[_ [[<- <-]|[_ Hg]]%lookup_insert_Some]]%lookup_insert_Some; auto. }
  assert (pipe_cflag (pipe_file 1 fl0 p) = PIPE_READ) as Ec0 by (unfold pipe_cflag; simpl; by rewrite Hw0).
  assert (pipe_cflag (pipe_file 1 fl1 p) = PIPE_WRITE) as Ec1 by (unfold pipe_cflag; simpl; by rewrite Hw1).
  constructor.
  - intros x g Hg Ho. destruct (Hlook x g Hg) as [[_ ->]|[[_ ->]|Hh]].
    1,2: simpl; rewrite lookup_insert_eq; eauto.
    destruct (H1 x g Hh Ho) as (q & Hq & Hz). exists q. split; [|done].
    rewrite lookup_insert_ne; [done|]. intros E. by apply (Hnp x g Hh Ho).
  - intros x x' g g' Hg Hg' Ho Ho' Hpp Hcc.
    destruct (Hlook x g Hg) as [[-> ->]|[[-> ->]|Hh]], (Hlook x' g' Hg') as [[-> ->]|[[-> ->]|Hh']]; try done.
    all: simpl in Hpp.
    all: try (exfalso; first [rewrite Ec0, Ec1 in Hcc; discriminate | by apply (Hnp x' g' Hh' Ho') | by apply (Hnp x g Hh Ho)]).
    by apply (H2 x x' g g').
  - intros id q [[<- <-]|[_ Hq]]%lookup_insert_Some; eauto.
  - intros id q [[<- <-]|[_ Hq]]%lookup_insert_Some; eauto.
  - intros id q c [[<- <-]|[Hn Hq]]%lookup_insert_Some Hc Hz.
    + destruct Hc as [-> | ->].
      * exists f0, (pipe_file 1 fl0 p). by rewrite lookup_insert_ne, lookup_insert_eq.
      * exists f1, (pipe_file 1 fl1 p). by rewrite lookup_insert_eq.
    + destruct (H5 id q c Hq Hc Hz) as (x & g & Hg & Hr). exists x, g. split; [|done].
      rewrite !lookup_insert_ne by congruence. done.
Qed.

(** What [sys_pipe2] does up to the allocation of the descriptors. *)
Lemma pipe_files_kinv k held p rb f0 f1 fl0 fl1 : kinv k held -> world (fs k) !! p = None ->
  heap (fs k) !! f0 = None -> heap (fs k) !! f1 = None -> f0 <> f1 ->
  0 < f0 -> Z.land f0 FLAG_CLOEXEC = 0 -> 0 < f1 -> Z.land f1 FLAG_CLOEXEC = 0 ->
  FWRITEABLE fl0 = false -> FWRITEABLE fl1 = true -> eof rb = false ->
  let h := heap (fs k) in let w := <[p := Pipe 0 rb]> (world (fs k)) in
  let h0 := <[f0 := pipe_file 1 fl0 0]> h in let h1 := <[f1 := pipe_file 1 fl1 0]> h0 in
  let h2 := <[f0 := pipe_file 1 fl0 p]> h1 in let h3 := <[f1 := pipe_file 1 fl1 p]> h2 in
  file_alloc (Some f0) FPIPE fl0 pipe_ops (FS h w) = Done (0, Some f0, FS h0 w) /\
  file_alloc (Some f1) FPIPE fl1 pipe_ops (FS h0 w) = Done (0, Some f1, FS h1 w) /\
  file_set_priv (FS h1 w) f0 p = Done (FS h2 w) /\
  file_set_priv (FS h2 w) f1 p = Done (FS h3 w) /\
  kinv (with_fs k (FS h3 w)) (upd (upd held f0 1) f1 1).
Proof.
  intros [Hi Hw] Hp Hf0 Hf1 Hne Hp0 He0 Hp1 He1 Hw0 Hw1 Hrb h w h0 h1 h2 h3.
  destruct (file_alloc_inv h w (tables k) held f0 FPIPE fl0 pipe_ops Hi) as [Ha0 Hi0]; try done.
  destruct (file_alloc_inv h0 w (tables k) (upd held f0 1) f1 FPIPE fl1 pipe_ops Hi0) as [Ha1 Hi1]; try done.
  { unfold h0. by rewrite lookup_insert_ne. }
  destruct (file_set_priv_inv h1 w (tables k) _ f0 (pipe_file 1 fl0 0) p Hi1) as [Hs0 Hi2]; [|done|].
  { unfold h1, h0. by rewrite lookup_insert_ne, lookup_insert_eq. }
  destruct (file_set_priv_inv h2 w (tables k) _ f1 (pipe_file 1 fl1 0) p Hi2) as [Hs1 Hi3]; [|done|].
  { unfold h2, h1. by rewrite lookup_insert_ne, lookup_insert_eq. }
  split; [done|]. split; [done|]. split; [done|]. split; [done|]. split; [done|]. simpl.
  replace h3 with (<[f1 := pipe_file 1 fl1 p]> (<[f0 := pipe_file 1 fl0 p]> h)).
  - by apply pipes_ok_new.
  - unfold h3, h2, h1, h0. rewrite (insert_insert_ne _ f0 f1) by done. by rewrite !insert_insert_eq.
Qed.

Lemma unref_ends_kinv (k : kstate pipes) held f0 f1 g0 g1 : kinv k (upd (upd held f0 1) f1 1) ->
  (forall x, 0 <= held x) -> f0 <> f1 -> f0 <> 0 -> f1 <> 0 ->
  heap (fs k) !! f0 = Some g0 -> heap (fs k) !! f1 = Some g1 -> ref g0 <> 1 -> ref g1 <> 1 ->
  exists s1 s2, file_unref (fs k) f0 = Done s1 /\ file_unref s1 f1 = Done s2 /\ kinv (with_fs k s2) held /\
    heap s2 !! f0 = Some (set_ref g0 (ref g0 - 1)) /\ heap s2 !! f1 = Some (set_ref g1 (ref g1 - 1)) /\
    world s2 = world (fs k).
Proof.
  intros Hk Hpos Hne Hn0 Hn1 Hg0 Hg1 Hr0 Hr1.
  assert (forall x, x <> 0 -> refs (heap (fs k)) x = cnt x (tables k) + upd (upd held f0 1) f1 1 x) as Hc
    by apply (inv_cnt _ _ _ (proj1 Hk)).
  pose proof (Hc f0 Hn0) as Hc0. unfold refs in Hc0. rewrite Hg0 in Hc0.
  destruct (file_unref_kinv k _ f0 Hk) as (s1 & Hu1 & Hk1 & Ho1 & Hs1 & Hw1); [|done|].
  { unfold upd. rewrite Z.eqb_refl. specialize (Hpos f0). destruct (f0 =? f1); lia. }
  rewrite <- Hc0, (proj2 (Z.eqb_neq _ _) Hr0), Hg0 in Hs1. rewrite <- Hc0 in Hw1.
  pose proof (inv_cnt _ _ _ (proj1 Hk1) f1 Hn1) as Hc1. unfold refs in Hc1. simpl in Hc1.
  rewrite (Ho1 f1), Hg1 in Hc1 by done.
  destruct (file_unref_kinv _ _ f1 Hk1) as (s2 & Hu2 & Hk2 & Ho2 & Hs2 & Hw2); [|done|].
  { unfold upd. rewrite Z.eqb_refl, (proj2 (Z.eqb_neq f1 f0)) by done. specialize (Hpos f1). lia. }
  simpl in *. rewrite <- Hc1, (proj2 (Z.eqb_neq _ _) Hr1), (Ho1 f1), Hg1 in Hs2 by done.
  exists s1, s2. split; [done|]. split; [done|]. split; [split; [|apply Hk2]|].
  - eapply inv_ext; [apply Hk2|done|]. intros x _. unfold upd. destruct (x =? f0), (x =? f1); lia.
  - rewrite Hs2, (Ho2 f0), Hs1 by done. split_and!; [done|done|]. rewrite Hw2, Hw1; congruence.
Qed.

(** The slots of a table after [fdalloc2]. *)
Definition slot_value (cloexec : bool) (f : Z) : Z := if cloexec then Z.lor f FLAG_CLOEXEC else f.

Lemma slot_value_file cloexec f : Z.land f FLAG_CLOEXEC = 0 -> slot_file (slot_value cloexec f) = f.
Proof. intros He. destruct cloexec; [by apply slot_file_cloexec|by apply slot_file_even]. Qed.

Lemma allocated2_slots (k k1 k2 : kstate pipes) pid l f0 f1 c fd0 fd1 : tables k !! pid = Some l ->
  f0 <> 0 -> Z.land f0 FLAG_CLOEXEC = 0 -> allocated k k1 pid l f0 c 0 fd0 ->
  allocated k1 k2 pid (<[Z.to_nat fd0 := slot_value c f0]> l) f1 c 0 fd1 ->
  0 <= fd0 < PROC_FILES /\ l !! Z.to_nat fd0 = Some 0 /\
  (forall j, 0 <= j < fd0 -> l !! Z.to_nat j <> Some 0) /\
  fd0 < fd1 < PROC_FILES /\ l !! Z.to_nat fd1 = Some 0 /\
  (forall j, fd0 < j < fd1 -> l !! Z.to_nat j <> Some 0) /\
  tables k2 = <[pid := <[Z.to_nat fd1 := slot_value c f1]> (<[Z.to_nat fd0 := slot_value c f0]> l)]> (tables k).
Proof.
  intros Hl Hn He (Hb0 & Hl0 & Hlow0 & Ht0 & _) (Hb1 & Hl1 & Hlow1 & Ht1 & _).
  assert (slot_value c f0 <> 0) as Hv0.
  { intros E. pose proof (slot_value_file c f0 He) as Ev. rewrite E, slot_file_0 in Ev. congruence. }
  assert (fd1 <> fd0) as Hne.
  { intros ->. rewrite list_lookup_insert_eq in Hl1 by (by eapply lookup_lt_Some). congruence. }
  rewrite list_lookup_insert_ne in Hl1 by lia.
  assert (~ fd1 < fd0) as Hlt by (intros Hlt; apply (Hlow0 fd1); [lia|done]).
  split_and!; [lia|lia|done|done|lia|lia|done| |].
  - intros j Hj. specialize (Hlow1 j ltac:(lia)). by rewrite list_lookup_insert_ne in Hlow1 by lia.
  - rewrite Ht1, Ht0. apply map_eq. intros x. destruct (decide (pid = x)) as [<-|].
    + by rewrite !lookup_alter_eq, lookup_insert_eq, Hl.
    + by rewrite !lookup_alter_ne, lookup_insert_ne.
Qed.

(** The allocations of a [pipe2] call and the copy to the user succeed, and the
    process has two free descriptors. *)
Record pipe2_pre `{Cpu} (m : mem) (k : kstate pipes) (pid usr : Z) (l : list Z) (p f0 f1 : Z) : Prop := {
  pre_few : few 2 (heap (fs k));
  pre_table : tables k !! pid = Some l;
  pre_pipe : p <> 0 /\ world (fs k) !! p = None;
  pre_rd : heap (fs k) !! f0 = None /\ 0 < f0 /\ Z.land f0 FLAG_CLOEXEC = 0;
  pre_wr : heap (fs k) !! f1 = None /\ 0 < f1 /\ Z.land f1 FLAG_CLOEXEC = 0;
  pre_ne : f0 <> f1;
  pre_free : exists i j, 0 <= i < j /\ j < PROC_FILES /\ l !! Z.to_nat i = Some 0 /\ l !! Z.to_nat j = Some 0;
  pre_copy : forall bs, length bs = 8%nat -> exists m', copyout m usr bs = Done (0, m');
}.

(** [k'] is [k] with a new, empty pipe at [p], whose ends are the files [f0] and
    [f1], at the two lowest free descriptors of [pid]. *)
Definition piped (k k' : kstate pipes) (pid : Z) (l : list Z) (p f0 f1 fd0 fd1 : Z) : Prop :=
  0 <= fd0 < PROC_FILES /\ l !! Z.to_nat fd0 = Some 0 /\
  (forall j, 0 <= j < fd0 -> l !! Z.to_nat j <> Some 0) /\
  fd0 < fd1 < PROC_FILES /\ l !! Z.to_nat fd1 = Some 0 /\
  (forall j, fd0 < j < fd1 -> l !! Z.to_nat j <> Some 0) /\
  (exists v0 v1, tables k' = <[pid := <[Z.to_nat fd1 := v1]> (<[Z.to_nat fd0 := v0]> l)]> (tables k) /\
    slot_file v0 = f0 /\ slot_file v1 = f1) /\
  (exists fl, heap (fs k') !! f0 = Some (pipe_file 1 fl p) /\ FWRITEABLE fl = false) /\
  (exists fl, heap (fs k') !! f1 = Some (pipe_file 1 fl p) /\ FWRITEABLE fl = true) /\
  (exists rb, world (fs k') = <[p := Pipe 0 rb]> (world (fs k)) /\ rb_list rb = []).

Lemma sys_pipe2_spec `{Cpu} m k held pid l p blk f0 f1 usr flags :
  kinv k held -> pipe2_pre m k pid usr l p f0 f1 ->
  exists fd0 fd1 m' k',
    sys_pipe2 (PipeMem (Some p) blk (Some f0) (Some f1)) m k pid usr flags = Done (0, m', k') /\
    kinv k' held /\ copyout m usr (int_bytes fd0 ++ int_bytes fd1) = Done (0, m') /\
    piped k k' pid l p f0 f1 fd0 fd1.
Proof.
  intros Hk [Hfew Hl [Hp0 Hp] (Hf0 & Hf0p & He0) (Hf1 & Hf1p & He1) Hne Hfree Hcopy].
  pose proof (inv_held _ _ _ (proj1 Hk)) as Hpos. destruct blk as [ba bytes]. unfold sys_pipe2.
  cbn [pm_pipe pm_buf pm_rd pm_wr pipe_alloc ringbuf_alloc cbuf_alloc snd deref rbind Z.eqb negb].
  set (rb := Ringbuf _ false). set (cloexec := negb (Z.land flags O_CLOEXEC =? 0)).
  set (ff := if negb (Z.land flags O_NONBLOCK =? 0) then O_NONBLOCK else 0).
  destruct (pipe_files_kinv k held p rb f0 f1 (Z.lor ff O_RDONLY) (Z.lor ff O_WRONLY))
    as (Ha0 & Ha1 & Hs0 & Hs1 & Hk3); try done; [unfold ff; by destruct (Z.land flags O_NONBLOCK =? 0)..|].
  cbn [with_fs fs heap world tables] in *. rewrite Ha0. cbn [rbind]. rewrite Ha1. cbn [rbind].
  rewrite Hs0. cbn [rbind]. rewrite Hs1. cbn [rbind]. clear Ha0 Ha1 Hs0 Hs1.
  set (h3 := <[f1:=pipe_file 1 (Z.lor ff O_WRONLY) p]> _) in *.
  assert (0 < upd (upd held f0 1) f1 1 f0 /\ 0 < upd (upd held f0 1) f1 1 f1) as [Hh0 Hh1].
  { unfold upd. rewrite !Z.eqb_refl. pose proof (Hpos f0). pose proof (Hpos f1).
    destruct (f0 =? f1), (f1 =? f0); lia. }
  assert (few 2 h3) as Hfew3 by (unfold h3; by repeat apply few_insert).
  assert (f0 <> 0 /\ f1 <> 0) as [Hf0n Hf1n] by lia.
  destruct (fdalloc2_kinv (with_fs k (FS h3 (<[p:=Pipe 0 rb]> (world (fs k))))) _ pid l f0 f1 cloexec Hk3 Hfew3 Hl Hh0 Hf0n Hh1 Hf1n)
    as (err & fd0 & fd1 & k4 & Hr & Hk4 & Hc).
  rewrite !with_fs_with_fs, Hr. cbn [rbind].
  destruct Hc as [(-> & i & Hfull)|(-> & k3 & Hal0 & Hal1)].
  { exfalso. destruct Hfree as (x & y & Hxy & Hy & Hx0 & Hy0). destruct (decide (x = i)) as [->|].
    - by apply (Hfull y); [lia..|]. 
    - by apply (Hfull x); [lia..|]. }
  cbn [Z.eqb negb]. destruct (Hcopy (int_bytes fd0 ++ int_bytes fd1)) as [m' Hm']; [done|].
  rewrite Hm'. cbn [rbind Z.eqb negb].
  pose proof (allocated2_slots (with_fs k (FS h3 (<[p:=Pipe 0 rb]> (world (fs k))))) _ _ _ _ _ _ _ _ _ Hl Hf0n He0 Hal0 Hal1) as Hslots.
  destruct Hal0 as (_ & _ & _ & _ & g0 & Hg0 & Hs3). destruct Hal1 as (_ & _ & _ & _ & g1 & Hg1 & Hs4).
  rewrite Hs3 in *. cbn [with_fs fs heap world] in *.
  assert (g0 = pipe_file 1 (Z.lor ff O_RDONLY) p) as ->.
  { unfold h3 in Hg0. rewrite lookup_insert_ne, lookup_insert_eq in Hg0 by done. congruence. }
  assert (g1 = pipe_file 1 (Z.lor ff O_WRONLY) p) as ->.
  { rewrite lookup_insert_ne in Hg1 by done. unfold h3 in Hg1. rewrite lookup_insert_eq in Hg1. congruence. }
  destruct (unref_ends_kinv k4 held f0 f1 (pipe_file 2 (Z.lor ff O_RDONLY) p)
    (pipe_file 2 (Z.lor ff O_WRONLY) p) Hk4 Hpos Hne Hf0n Hf1n)
    as (s1 & s2 & Hu1 & Hu2 & Hk5 & He5 & He6 & Hw5); try done.
  { rewrite Hs4. cbn [heap]. by rewrite lookup_insert_ne, lookup_insert_eq. }
  { rewrite Hs4. cbn [heap]. by rewrite lookup_insert_eq. }
  rewrite Hu1. cbn [rbind]. rewrite Hu2. cbn [rbind].
  exists fd0, fd1, m', (with_fs k4 s2). split; [done|]. split; [done|]. split; [done|].
  destruct Hslots as (B0 & B1 & B2 & B3 & B4 & B5 & Ht).
  split_and!; try first [done | apply B0 | apply B3].
  - exists (slot_value cloexec f0), (slot_value cloexec f1). split_and!; [done|by apply slot_value_file..].
  - exists (Z.lor ff O_RDONLY). split; [done|]. unfold ff. by destruct (Z.land flags O_NONBLOCK =? 0).
  - exists (Z.lor ff O_WRONLY). split; [done|]. unfold ff. by destruct (Z.land flags O_NONBLOCK =? 0).
  - exists rb. simpl. by rewrite Hw5, Hs4.
Qed.

(** ** Properties *)

(** a [pipe2] system call whose allocations and copy succeed, in a process
    with two free descriptors, returns 0: the two lowest free descriptors refer
    to the reading and the writing end of a new, empty pipe, their numbers are
    stored in user memory, and the files are referenced by the descriptors
    only. *)
Theorem sys_pipe2_ok `{Cpu} m k held pid l p blk f0 f1 usr flags :
  kinv k held -> pipe2_pre m k pid usr l p f0 f1 ->
  exists fd0 fd1 m' k',
    sys_pipe2 (PipeMem (Some p) blk (Some f0) (Some f1)) m k pid usr flags = Done (0, m', k') /\
    kinv k' held /\ copyout m usr (int_bytes fd0 ++ int_bytes fd1) = Done (0, m') /\
    piped k k' pid l p f0 f1 fd0 fd1.
Proof. apply sys_pipe2_spec. Qed.

(** Runs of descriptor operations and [pipe2] calls. *)
Inductive psys `{Cpu} : kstate pipes -> (Z -> Z) -> Prop :=
| psys_init : psys (K (FS ∅ ∅) ∅) (fun _ => 0)
| psys_op k held op r k' : psys k held -> few PROC_FILES (heap (fs k)) -> allowed k held op ->
    run_op k op = Done (r, k') -> psys k' (held_after op r held)
| psys_pipe2 m k held pid l p blk f0 f1 usr flags m' k' :
    psys k held -> pipe2_pre m k pid usr l p f0 f1 ->
    sys_pipe2 (PipeMem (Some p) blk (Some f0) (Some f1)) m k pid usr flags = Done (0, m', k') ->
    psys k' held.

Lemma psys_kinv `{Cpu} k held : psys k held -> kinv k held.
Proof.
  induction 1 as [|k held op r k' _ IH Hfew Ha Hr|m k held pid l p blk f0 f1 usr flags m' k' _ IH Hpre Hr].
  - split; constructor; done.
  - destruct (run_op_kinv k held op IH Hfew Ha) as (r1 & k1 & Hr1 & Hk1). naive_solver congruence.
  - destruct (sys_pipe2_spec m k held pid l p blk f0 f1 usr flags IH Hpre) as (? & ? & ? & k1 & Hr1 & Hk1 & _).
    naive_solver congruence.
Qed.


(** reading from a pipe whose writer is gone and whose data has been read
    returns -EPIPE, not the 0 of end of file. *)
Theorem pipe_read_eof `{Cpu} m w f uio p evs : w !! priv f = Some p ->
  rb_wf (buf p) -> rb_list (buf p) = [] -> eof (buf p) = true ->
  pipe_read m w f uio evs = Done (- EPIPE, m, w, uio).
Proof.
  intros Hp Hwf Hl He. unfold pipe_read. rewrite Hp. cbn [deref rbind].
  unfold ringbuf_read_uio, ringbuf_rdwait. cbn [ringbuf_rdwait_loop].
  rewrite (q_data_spec _ Hwf : q_data (rbuf (buf p)) = _). fold (rb_list (buf p)). rewrite Hl, He. simpl.
  rewrite insert_id; [done|]. rewrite Hp. by destruct p.
Qed.

(** ** Concrete runs *)

(** Process 1 with an empty table; eight writable user bytes at 0x2000. *)
Definition pipe_state : kstate pipes := K (FS ∅ ∅) {[1 := replicate 50 0]}.
Definition pipe_user : mem := list_to_map ((fun a => (a, Cell 0 true)) <$> seqZ 0x2000 8).
Definition pipe_blk : Z * list Z := (0x8000, replicate 512 0).

Lemma pipe_state_psys : psys pipe_state (fun _ => 0).
Proof.
  eapply (psys_op _ _ (OInit 1) 0); [apply psys_init|by apply few_empty|done|].
  vm_compute. reflexivity.
Qed.

Lemma pipe_state_pre : pipe2_pre pipe_user pipe_state 1 0x2000 (replicate 50 0) 0x500 0x100 0x200.
Proof.
  constructor; try done.
  - by exists 0, 1.
  - intros [|b0 [|b1 [|b2 [|b3 [|b4 [|b5 [|b6 [|b7 [|? ?]]]]]]]]] Hl; try discriminate Hl.
    eexists. vm_compute. reflexivity.
Qed.

Lemma sys_pipe2_ok_witness : exists m' k',
  sys_pipe2 (PipeMem (Some 0x500) pipe_blk (Some 0x100) (Some 0x200)) pipe_user pipe_state 1 0x2000 O_NONBLOCK =
    Done (0, m', k') /\ gather m' (seqZ 0x2000 8) = [0; 0; 0; 0; 1; 0; 0; 0].
Proof.
  destruct (sys_pipe2_ok pipe_user pipe_state (fun _ => 0) 1 (replicate 50 0) 0x500 pipe_blk 0x100 0x200
    0x2000 O_NONBLOCK) as (fd0 & fd1 & m' & k' & Hr & _).
  - apply psys_kinv, pipe_state_psys.
  - apply pipe_state_pre.
  - exists m', k'. split; [exact Hr|]. vm_compute in Hr. injection Hr as <- _. vm_compute. reflexivity.
Defined.


(** The reading end of a pipe that was written to and read, after the writer
    closed its end. *)
Definition eof_pipe : pipe_t := Pipe PIPE_WRITE (Ringbuf (Cbuf [7; 8] 0x1000 0x1002 0x1001 0x1001 0) true).

Lemma pipe_read_eof_witness :
  pipe_read pipe_user {[0x500 := eof_pipe]} (pipe_file 1 0 0x500) (ring_uio UIO_RD 4) [] =
  Done (- EPIPE, pipe_user, {[0x500 := eof_pipe]}, ring_uio UIO_RD 4).
Proof.
  apply (pipe_read_eof pipe_user {[0x500 := eof_pipe]} (pipe_file 1 0 0x500) (ring_uio UIO_RD 4) eof_pipe []).
  - reflexivity.
  - apply Build_wf; simpl; (reflexivity || lia).
  - reflexivity.
  - reflexivity.
Defined.

(** the error paths of [pipe2] after the files exist are broken.  When the
    user pointer is bad, or no descriptor is free, closing the two files frees
    the pipe and it is freed again; when the second file cannot be allocated,
    the close callback of the first runs without a pipe. *)
Theorem sys_pipe2_error_paths :
  let pm := PipeMem (Some 0x500) pipe_blk (Some 0x100) (Some 0x200) in
  sys_pipe2 pm pipe_user pipe_state 1 0xD0000000 0 = Fault /\
  sys_pipe2 pm pipe_user (K (FS {[0x300 := File 50 0 1 0 FREG 0 None]} ∅) {[1 := replicate 50 0x301]}) 1 0x2000 0 = Fault /\
  sys_pipe2 (PipeMem (Some 0x500) pipe_blk (Some 0x100) None) pipe_user pipe_state 1 0x2000 0 = Fault.
Proof. vm_compute. split_and!; reflexivity. Qed.

(** the reading end can be closed between the moment [pipe_write] looks at
    [closed] and its first write: [ringbuf_eof] has run, so the assertion in
    [ringbuf_write] fails and the kernel panics. *)
Theorem pipe_write_close_race :
  let p := Pipe 0 (Ringbuf (Cbuf [0; 0; 0; 0] 0x1000 0x1004 0x1000 0x1000 0) false) in
  pipe_write 10 ring_mem {[0x500 := p]} (pipe_file 1 O_WRONLY 0x500) (ring_uio UIO_WR 4) 0 false
    [Event ringbuf_eof id false] = Panic.
Proof. vm_compute. reflexivity. Qed.
