(* ===== verification/Pressure.v ===== *)
(** * vm/pressure.c: accounting of free memory

    Two kinds of memory are accounted for (kernel virtual and physical memory).
    Threads wait on [vm_pr_wq] for the pressure to rise and on the queue of a
    kind for memory to be freed.  A waiter in a queue is given by what it waits
    for; waking up takes it out of the queue. *)
From stdpp Require Import base tactics option list numbers.
From Stdlib Require Import ZArith Lia Bool.
From S2P Require Import Prelude.

(** [vm_pressure_t], an enumeration that the code compares. *)
Definition VM_PR_LOW : Z := 0.
Definition VM_PR_MODERATE : Z := 1.
Definition VM_PR_HIGH : Z := 2.

Definition VM_PR_MEM_KERN : Z := 0.
Definition VM_PR_MEM_PHYS : Z := 1.
Definition VM_PR_MEM_NUM : Z := 2.

Record vm_pr_mem_t := PrMem { waitq : list Z; pr : Z; total : Z; free : Z; threshold : Z }.
Record vm_pr_wait_t := PrWait { wflags : Z; wpr : Z }.
Record prstate := Pr { vm_pr_mem : list vm_pr_mem_t; vm_pr_wq : list vm_pr_wait_t }.

Definition VM_PR_LOW_PCT : Z := 50.
Definition VM_PR_MOD_PCT : Z := 30.

Definition vm_calc_pressure (total free : Z) : Z :=
  let div := u64 (free * 100) / total in
  if VM_PR_LOW_PCT <=? div then VM_PR_LOW
  else if VM_PR_MOD_PCT <=? div then VM_PR_MODERATE
  else VM_PR_HIGH.

(** [type] is the index of [mem] in the array. *)
Definition vm_pr_wait_done (type : Z) (mem : vm_pr_mem_t) (wait : vm_pr_wait_t) : bool :=
  negb (Z.land (Z.shiftl 1 type) (wflags wait) =? 0) && (wpr wait <=? pr mem).

(** The part of [vm_pressure_wait] under the lock: [true] when the thread goes
    to sleep on [vm_pr_wq]. *)
Definition vm_pressure_wait (s : prstate) (flags p : Z) : res (bool * prstate) :=
  kassert negb (flags =? 0) in
  kassert VM_PR_LOW <? p in
  let wait := PrWait flags p in
  if existsb (fun '(i, mem) => vm_pr_wait_done (Z.of_nat i) mem wait) (imap pair (vm_pr_mem s))
  then Done (false, s)
  else Done (true, Pr (vm_pr_mem s) (vm_pr_wq s ++ [wait])).

(** [delta] is an [int64_t]; the fields of [mem] are unsigned. *)
Definition vm_pressure_add (s : prstate) (type delta : Z) : res prstate :=
  let* mem := deref (vm_pr_mem s !! Z.to_nat type) in
  kassert (if delta <? 0 then - delta <=? free mem else u64 (free mem + delta) <=? total mem) in
  let p := vm_calc_pressure (total mem) (u64 (free mem + delta)) in
  let incr := pr mem <? p in
  let mem' := PrMem (waitq mem) p (total mem) (u64 (free mem + delta)) (threshold mem) in
  let put m := <[Z.to_nat type := m]> (vm_pr_mem s) in
  if incr then
    Done (Pr (put mem') (List.filter (fun w => negb (vm_pr_wait_done type mem' w)) (vm_pr_wq s)))
  else if threshold mem' <=? free mem' then
    Done (Pr (put (PrMem [] (pr mem') (total mem') (free mem') (threshold mem'))) (vm_pr_wq s))
  else Done (Pr (put mem') (vm_pr_wq s)).

Definition INT64_MAX : Z := 2 ^ 63 - 1.
Definition vm_pressure_inc (s : prstate) (type size : Z) : res prstate :=
  kassert size <? INT64_MAX in vm_pressure_add s type (- size).
Definition vm_pressure_dec (s : prstate) (type size : Z) : res prstate :=
  kassert size <? INT64_MAX in vm_pressure_add s type size.

Definition vm_mem_get_free (s : prstate) (type : Z) : res Z :=
  let* mem := deref (vm_pr_mem s !! Z.to_nat type) in Done (free mem).

Definition vm_mem_wait_p (s : prstate) (type size : Z) : res bool :=
  let* mem := deref (vm_pr_mem s !! Z.to_nat type) in
  Done (free mem <? u64 (size + threshold mem)).

(** One turn of the loop of [vm_mem_wait]: [true] when the thread sleeps. *)
Definition vm_mem_wait (s : prstate) (type size : Z) : res (bool * prstate) :=
  let* b := vm_mem_wait_p s type size in
  let* mem := deref (vm_pr_mem s !! Z.to_nat type) in
  if b then
    Done (true, Pr (<[Z.to_nat type :=
      PrMem (waitq mem ++ [size]) (pr mem) (total mem) (free mem) (threshold mem)]> (vm_pr_mem s)) (vm_pr_wq s))
  else Done (false, s).

Definition vm_pressure (s : prstate) (flags : Z) : Z :=
  foldl (fun prmax '(i, mem) =>
    if negb (Z.land flags (Z.shiftl 1 (Z.of_nat i)) =? 0)
    then Z.max prmax (vm_calc_pressure (total mem) (free mem)) else prmax)
    VM_PR_LOW (imap pair (vm_pr_mem s)).

Definition vm_pr_mem_init (s : prstate) (type total free : Z) : prstate :=
  Pr (<[Z.to_nat type := PrMem [] (vm_calc_pressure total free) total free 0]> (vm_pr_mem s)) (vm_pr_wq s).

(** ** The invariant *)

(** The level that is stored is the level of the current amount of memory. *)
Definition mem_ok (mem : vm_pr_mem_t) : Prop :=
  0 <= free mem <= total mem /\ 0 < total mem < 2 ^ 56 /\ threshold mem = 0 /\
  pr mem = vm_calc_pressure (total mem) (free mem).

Record pr_ok (s : prstate) : Prop := {
  ok_mem : Forall mem_ok (vm_pr_mem s);
  (** Nobody who waits for the pressure to rise waits in vain. *)
  ok_wq : forall i mem w, vm_pr_mem s !! i = Some mem -> w ∈ vm_pr_wq s ->
    vm_pr_wait_done (Z.of_nat i) mem w = false;
}.

(** [vm_calc_pressure] classifies by the percentage that is free. *)
Lemma vm_calc_pressure_spec total free : 0 <= free <= total -> 0 < total < 2 ^ 56 ->
  (vm_calc_pressure total free = VM_PR_LOW <-> 50 * total <= 100 * free) /\
  (vm_calc_pressure total free = VM_PR_MODERATE <-> 30 * total <= 100 * free < 50 * total) /\
  (vm_calc_pressure total free = VM_PR_HIGH <-> 100 * free < 30 * total).
Proof.
  intros Hf Ht. unfold vm_calc_pressure. rewrite u64_small by lia.
  unfold VM_PR_LOW_PCT, VM_PR_MOD_PCT, VM_PR_LOW, VM_PR_MODERATE, VM_PR_HIGH.
  pose proof (Z.div_mod (free * 100) total ltac:(lia)) as Hd.
  pose proof (Z.mod_pos_bound (free * 100) total ltac:(lia)) as Hm.
  set (q := free * 100 / total) in *.
  destruct (Z.leb_spec 50 q), (Z.leb_spec 30 q); split_and!; split; intros; try discriminate; nia.
Qed.

(** Less free memory never lowers the pressure. *)
Lemma vm_calc_pressure_mono total f1 f2 : 0 <= f1 <= f2 -> f2 <= total -> 0 < total < 2 ^ 56 ->
  vm_calc_pressure total f2 <= vm_calc_pressure total f1.
Proof.
  intros H1 H2 Ht. unfold vm_calc_pressure. rewrite !u64_small by lia.
  pose proof (Z.div_le_mono (f1 * 100) (f2 * 100) total ltac:(lia) ltac:(lia)).
  unfold VM_PR_LOW_PCT, VM_PR_MOD_PCT, VM_PR_LOW, VM_PR_MODERATE, VM_PR_HIGH.
  destruct (Z.leb_spec 50 (f1 * 100 / total)), (Z.leb_spec 30 (f1 * 100 / total)),
    (Z.leb_spec 50 (f2 * 100 / total)), (Z.leb_spec 30 (f2 * 100 / total)); lia.
Qed.

(** What a change of the amount of free memory does. *)
Lemma vm_pressure_add_spec s type mem delta : pr_ok s -> vm_pr_mem s !! Z.to_nat type = Some mem ->
  0 <= type -> 0 <= free mem + delta <= total mem ->
  exists s' mem', vm_pressure_add s type delta = Done s' /\ pr_ok s' /\
    vm_pr_mem s' = <[Z.to_nat type := mem']> (vm_pr_mem s) /\
    free mem' = free mem + delta /\ total mem' = total mem /\ threshold mem' = 0 /\
    (0 <= delta -> waitq mem' = []).
Proof.
  intros [Hmem Hwq] Hty Ht0 Hd. pose proof (Forall_lookup_1 _ _ _ _ Hmem Hty) as (Hf & Htot & Hth & Hpr).
  unfold vm_pressure_add. rewrite Hty. cbn [deref rbind]. rewrite u64_small by lia.
  assert ((if delta <? 0 then - delta <=? free mem else free mem + delta <=? total mem) = true) as ->.
  { destruct (delta <? 0); apply Z.leb_le; lia. }
  set (p := vm_calc_pressure (total mem) (free mem + delta)).
  assert (forall q, Forall mem_ok (<[Z.to_nat type := PrMem q p (total mem) (free mem + delta) (threshold mem)]> (vm_pr_mem s)))
    as Hok by (intros q; apply Forall_insert; [done|]; split_and!; simpl; (done || lia)).
  destruct (Z.ltb_spec (pr mem) p) as [Hlt|Hge].
  - eexists _, _. split; [done|]. split; [|split; [done|]].
    + split; [apply Hok|]. intros i m w Hi Hw. simpl in *. apply list_elem_of_In, filter_In in Hw as [Hw Hnd].
      destruct (decide (i = Z.to_nat type)) as [->|].
      * rewrite list_lookup_insert_eq in Hi by (by eapply lookup_lt_Some). injection Hi as <-.
        rewrite Z2Nat.id by lia. by apply negb_true_iff.
      * rewrite list_lookup_insert_ne in Hi by done. eapply Hwq; [done|by apply list_elem_of_In].
    + simpl. split_and!; [done|done|done|]. intros Hdn. exfalso.
      pose proof (vm_calc_pressure_mono (total mem) (free mem) (free mem + delta) ltac:(lia) ltac:(lia) Htot).
      unfold p in *. lia.
  - simpl. destruct (Z.leb_spec (threshold mem) (free mem + delta)); [|lia].
    eexists _, _. split; [done|]. split; [|split; [done|]]; [|simpl; split_and!; done].
    split; [apply Hok|]. intros i m w Hi Hw. simpl in *.
    destruct (decide (i = Z.to_nat type)) as [->|].
    + rewrite list_lookup_insert_eq in Hi by (by eapply lookup_lt_Some). injection Hi as <-.
      specialize (Hwq _ _ _ Hty Hw). unfold vm_pr_wait_done in *. simpl.
      apply andb_false_iff in Hwq as [->|Hwq]; [done|]. apply andb_false_iff. right.
      apply Z.leb_gt. apply Z.leb_gt in Hwq. lia.
    + rewrite list_lookup_insert_ne in Hi by done. eauto.
Qed.
