(* ===== verification/Phys.v ===== *)
(** * vm/phys.c: the physical memory manager

    A buddy allocator.  A page is given by its segment and its index in the
    segment's array; [pages] holds the array elements that exist.  A page with
    an order below [VM_PHYS_ORDER_NUM] is the head of a block of [2 ^ order]
    pages; the other pages of the block have [VM_PHYS_ORDER_NONE]. *)
From stdpp Require Import base tactics option list numbers gmap.
From Stdlib Require Import ZArith Lia Bool.
From S2P Require Import Prelude Pressure.

Definition PAGE_SHIFT : Z := 12.
Definition PAGE_SZ : Z := 2 ^ PAGE_SHIFT.
Definition VM_PHYS_ORDER_NUM : Z := 11.
Definition VM_PHYS_ORDER_MAX : Z := 10.
Definition VM_PHYS_ORDER_NONE : Z := 255.
Definition VM_PHYSEG_NUM : Z := 8.
Definition VM_PHYSRSV_NUM : Z := 64.
Definition VM_PHYS_MAX : Z := 2 ^ 32 - 1.

Definition VM_PG_STATE_MASK : Z := 15.
Definition VM_PG_FREE : Z := 0.
Definition VM_PG_NORMAL : Z := 1.

Definition atop (a : Z) : Z := Z.shiftr a PAGE_SHIFT.
Definition ptoa (p : Z) : Z := u32 (Z.shiftl p PAGE_SHIFT).

Record vm_page_t := Page { flags : Z; order : Z; pincnt : Z; seg : Z }.
(** [inited]: the array of pages exists ([seg->pages != NULL]). *)
Record vm_physeg_t := Seg { start : Z; size : Z; inited : bool }.
Record vm_phys_rsv_t := Rsv { raddr : Z; rsize : Z }.

Abbreviation pgptr := (Z * Z)%type.

Record phys := Phys {
  pages : gmap pgptr vm_page_t;
  vm_freelist : list (list pgptr);
  vm_physegs : list vm_physeg_t;
  vm_phys_rsv : list vm_phys_rsv_t;
  vm_phys_total : Z;
  pressure : prstate;
}.

Definition set_pages (s : phys) (p : gmap pgptr vm_page_t) : phys :=
  Phys p (vm_freelist s) (vm_physegs s) (vm_phys_rsv s) (vm_phys_total s) (pressure s).
Definition set_freelist (s : phys) (f : list (list pgptr)) : phys :=
  Phys (pages s) f (vm_physegs s) (vm_phys_rsv s) (vm_phys_total s) (pressure s).
Definition set_pressure (s : phys) (p : prstate) : phys :=
  Phys (pages s) (vm_freelist s) (vm_physegs s) (vm_phys_rsv s) (vm_phys_total s) p.
Definition set_rsv (s : phys) (r : list vm_phys_rsv_t) : phys :=
  Phys (pages s) (vm_freelist s) (vm_physegs s) r (vm_phys_total s) (pressure s).

Definition set_flags (p : vm_page_t) (f : Z) : vm_page_t := Page f (order p) (pincnt p) (seg p).
Definition set_order (p : vm_page_t) (o : Z) : vm_page_t := Page (flags p) o (pincnt p) (seg p).

Definition vm_page_state (p : vm_page_t) : Z := Z.land (flags p) VM_PG_STATE_MASK.
Definition vm_page_is_free (p : vm_page_t) : bool := vm_page_state p =? VM_PG_FREE.
Definition vm_page_set_state (p : vm_page_t) (state : Z) : vm_page_t :=
  set_flags p (Z.lor (Z.land (flags p) (Z.lnot VM_PG_STATE_MASK)) state).

Definition page (s : phys) (b : pgptr) : res vm_page_t := deref (pages s !! b).
Definition put (s : phys) (b : pgptr) (p : vm_page_t) : phys := set_pages s (<[b := p]> (pages s)).

(** ** Segments *)

Fixpoint vm_physeg_get (segs : list vm_physeg_t) (i addr : Z) : option Z :=
  match segs with
  | [] => None
  | sg :: segs =>
    if (start sg <=? addr) && (addr <? start sg + size sg) then Some i else vm_physeg_get segs (i + 1) addr
  end.

Definition vm_page_num (p : vm_page_t) : Z := u32 (Z.shiftl 1 (order p)).
Definition vm_page_size (p : vm_page_t) : Z := u32 (Z.shiftl 1 (PAGE_SHIFT + order p)).

Definition segment (s : phys) (i : Z) : res vm_physeg_t := deref (vm_physegs s !! Z.to_nat i).

Definition vm_page_addr (s : phys) (b : pgptr) : res Z :=
  let* p := page s b in
  kassert seg p <? VM_PHYSEG_NUM in
  let* sg := segment s (seg p) in
  kassert inited sg in Done (start sg + b.2).

Definition vm_page_phys (s : phys) (b : pgptr) : res Z :=
  let* a := vm_page_addr s b in Done (ptoa a).

(** ** Free lists *)

Definition freelist (s : phys) (o : Z) : res (list pgptr) := deref (vm_freelist s !! Z.to_nat o).
Definition set_list (s : phys) (o : Z) (l : list pgptr) : phys :=
  set_freelist s (<[Z.to_nat o := l]> (vm_freelist s)).

Definition vm_freelist_add (s : phys) (b : pgptr) : res phys :=
  let* p := page s b in
  kassert order p <? VM_PHYS_ORDER_NUM in
  let* l := freelist s (order p) in
  Done (put (set_list s (order p) (l ++ [b])) b (vm_page_set_state p VM_PG_FREE)).

Definition vm_freelist_rem (s : phys) (b : pgptr) : res phys :=
  let* p := page s b in
  kassert order p <? VM_PHYS_ORDER_NUM in
  let* l := freelist s (order p) in
  if bool_decide (b ∈ l)
  then Done (put (set_list s (order p) (filter (fun x => x <> b) l)) b (vm_page_set_state p VM_PG_NORMAL))
  else Fault.

Definition vm_freelist_pop (s : phys) (o : Z) : res (option pgptr * phys) :=
  kassert o <? VM_PHYS_ORDER_NUM in
  let* l := freelist s o in
  match l with
  | [] => Done (None, s)
  | b :: l => Done (Some b, set_list s o l)
  end.

(** ** Allocation *)

(** The loop over the free lists; [n] lists are left. *)
Fixpoint alloc_find (n : nat) (s : phys) (i : Z) : res (option pgptr * phys) :=
  match n with
  | O => Done (None, s)
  | S n =>
    let* '(b, s1) := vm_freelist_pop s i in
    match b with
    | Some b =>
      let* p := page s1 b in
      kassert vm_page_is_free p in
      Done (Some b, put s1 b (vm_page_set_state p VM_PG_NORMAL))
    | None => alloc_find n s1 (i + 1)
    end
  end.

Fixpoint alloc_split (fuel : nat) (s : phys) (b : pgptr) (o : Z) : res phys :=
  match fuel with
  | O => Stuck
  | S fuel =>
    let* p := page s b in
    if o <? order p then
      let p1 := set_order p (order p - 1) in
      let s1 := put s b p1 in
      let buddy := (b.1, b.2 + vm_page_num p1) in
      let* q := page s1 buddy in
      kassert negb (vm_page_is_free q) in
      let* s2 := vm_freelist_add (put s1 buddy (set_order q (order p1))) buddy in
      alloc_split fuel s2 b o
    else Done s
  end.

Definition vm_page_alloc_order (s : phys) (o : Z) : res (option pgptr * phys) :=
  let sz := u32 (Z.shiftl 1 (o + PAGE_SHIFT)) in
  let* wait := vm_mem_wait_p (pressure s) VM_PR_MEM_PHYS sz in
  if (wait : bool) then Done (None, s)
  else
    let* '(b, s1) := alloc_find (Z.to_nat (VM_PHYS_ORDER_NUM - o)) s o in
    match b with
    | None => Panic
    | Some b =>
      let* s2 := alloc_split (Z.to_nat VM_PHYS_ORDER_NUM) s1 b o in
      let* pr := vm_pressure_inc (pressure s2) VM_PR_MEM_PHYS sz in
      Done (Some b, set_pressure s2 pr)
    end.

(** [vm_page_alloc] without VM_WAIT; with it the caller sleeps in [vm_mem_wait]
    and tries again while this returns NULL. *)
Definition vm_page_alloc (s : phys) : res (option pgptr * phys) := vm_page_alloc_order s 0.

(** ** Freeing *)

Fixpoint free_merge (fuel : nat) (s : phys) (sg : vm_physeg_t) (segno : Z) (b : pgptr) : res (pgptr * phys) :=
  match fuel with
  | O => Stuck
  | S fuel =>
    let* p := page s b in
    if order p <? VM_PHYS_ORDER_MAX then
      let* addr := vm_page_addr s b in
      let sz := vm_page_num p in
      let o := order p in
      let addr := Z.lxor addr sz in
      if (addr <? start sg) || (start sg + size sg <=? addr) then Done (b, s)
      else
        let buddy := (segno, addr - start sg) in
        let* q := page s buddy in
        if negb (order q =? order p) || negb (vm_page_is_free q) then Done (b, s)
        else
          let* s1 := vm_freelist_rem s buddy in
          let* q1 := page s1 buddy in
          let s2 := put s1 buddy (set_order q1 VM_PHYS_ORDER_NONE) in
          let* p1 := page s2 b in
          let s3 := put s2 b (set_order p1 VM_PHYS_ORDER_NONE) in
          let addr := Z.land addr (u32 (Z.lnot (u32 (Z.shiftl sz 1) - 1))) in
          let b' := (segno, addr - start sg) in
          let* p2 := page s3 b' in
          free_merge fuel (put s3 b' (set_order p2 (o + 1))) sg segno b'
    else Done (b, s)
  end.

Definition vm_page_free (s : phys) (b : pgptr) : res phys :=
  let* p := page s b in
  let* sg := segment s (seg p) in
  kassert negb (vm_page_is_free p) in
  kassert pincnt p =? 0 in
  kassert Z.land (flags p) (Z.lnot VM_PG_STATE_MASK) =? 0 in
  let* pr := vm_pressure_dec (pressure s) VM_PR_MEM_PHYS (vm_page_size p) in
  let* '(b', s1) := free_merge (Z.to_nat VM_PHYS_ORDER_NUM) (set_pressure s pr) sg (seg p) b in
  vm_freelist_add s1 b'.

Definition vm_phys_to_page (s : phys) (addr : Z) : res pgptr :=
  let pgaddr := atop addr in
  match vm_physeg_get (vm_physegs s) 0 pgaddr with
  | None => Panic
  | Some i =>
    let* sg := segment s i in
    let b := (i, pgaddr - start sg) in
    let* p := page s b in
    kassert negb (vm_page_is_free p) in Done b
  end.

Definition vm_free_phys (s : phys) (addr : Z) : res phys :=
  kassert ALIGNED 32 addr PAGE_SZ in
  let* b := vm_phys_to_page s addr in vm_page_free s b.

(** ** Reservations and start-up *)

Fixpoint reserve_scan (rs : list vm_phys_rsv_t) (addr sz : Z) : option (list vm_phys_rsv_t) :=
  let e := u32 (addr + sz) in
  match rs with
  | [] => None
  | r :: rs =>
    if u32 (raddr r + rsize r) =? addr then Some (Rsv (raddr r) (u32 (rsize r + sz)) :: rs)
    else if raddr r =? e then Some (Rsv addr (u32 (rsize r + sz)) :: rs)
    else if (raddr r <=? addr) && (e <=? u32 (raddr r + rsize r)) then Some (r :: rs)
    else (fun rs' => r :: rs') <$> reserve_scan rs addr sz
  end.

Definition vm_phys_reserve (s : phys) (addr sz : Z) : res phys :=
  match reserve_scan (vm_phys_rsv s) addr sz with
  | Some rs => Done (set_rsv s rs)
  | None =>
    if Z.of_nat (length (vm_phys_rsv s)) =? VM_PHYSRSV_NUM then Panic
    else Done (set_rsv s (vm_phys_rsv s ++ [Rsv addr sz]))
  end.

Definition rsv_contains (r : vm_phys_rsv_t) (a : Z) : bool := (raddr r <=? a) && (a <? u32 (raddr r + rsize r)).

Definition vm_page_reserved (s : phys) (addr : Z) : bool :=
  existsb (fun r => rsv_contains r (ptoa addr)) (vm_phys_rsv s).

Definition vm_physeg_add (s : phys) (addr sz : Z) : res phys :=
  kassert ALIGNED 32 addr PAGE_SZ && ALIGNED 32 sz PAGE_SZ in
  kassert addr <? VM_PHYS_MAX in
  kassert u32 (sz - 1) <=? VM_PHYS_MAX - addr in
  if Z.of_nat (length (vm_physegs s)) =? VM_PHYSEG_NUM then Done s
  else Done (Phys (pages s) (vm_freelist s) (vm_physegs s ++ [Seg (atop addr) (atop sz) false])
               (vm_phys_rsv s) (u32 (vm_phys_total s + atop sz)) (pressure s)).

Definition vm_seg_overlap (a1 s1 a2 s2 : Z) : bool := negb ((u32 (a1 + s1) <=? a2) || (u32 (a2 + s2) <=? a1)).

(** The search of [vm_phys_early_alloc] inside one segment. *)
Fixpoint early_scan (fuel : nat) (rs : list vm_phys_rsv_t) (p e sz : Z) : res (option Z) :=
  match fuel with
  | O => Stuck
  | S fuel =>
    if u32 (p + sz) <=? e then
      match List.find (fun r => vm_seg_overlap p sz (raddr r) (rsize r)) rs with
      | Some r => early_scan fuel rs (u32 (raddr r + rsize r)) e sz
      | None => Done (Some p)
      end
    else Done None
  end.

Fixpoint early_segs (rs : list vm_phys_rsv_t) (segs : list vm_physeg_t) (sz : Z) : res (option Z) :=
  match segs with
  | [] => Done None
  | sg :: segs =>
    if inited sg then early_segs rs segs sz
    else
      let p := ptoa (start sg) in
      let* r := early_scan (S (length rs)) rs p (u32 (p + ptoa (size sg))) sz in
      match r with
      | Some p => Done (Some p)
      | None => early_segs rs segs sz
      end
  end.

Definition vm_phys_early_alloc (s : phys) (sz : Z) : res (Z * phys) :=
  let* '(b, s1) := vm_page_alloc_order s 0 in
  match b with
  | Some b => let* a := vm_page_phys s1 b in Done (a, s1)
  | None =>
    let* r := early_segs (vm_phys_rsv s1) (vm_physegs s1) sz in
    match r with
    | None => Panic
    | Some p => let* s2 := vm_phys_reserve s1 p sz in Done (p, s2)
    end
  end.

Definition vm_page_init (segid : Z) : vm_page_t := Page VM_PG_NORMAL 0 0 segid.

Fixpoint physeg_free_loop (n : nat) (s : phys) (sg : vm_physeg_t) (segno i : Z) : res phys :=
  match n with
  | O => Done s
  | S n =>
    if negb (vm_page_reserved s (start sg + i))
    then let* s1 := vm_page_free s (segno, i) in physeg_free_loop n s1 sg segno (i + 1)
    else physeg_free_loop n s sg segno (i + 1)
  end.

Fixpoint physeg_init_loop (n : nat) (m : gmap pgptr vm_page_t) (segno i : Z) : gmap pgptr vm_page_t :=
  match n with
  | O => m
  | S n => physeg_init_loop n (<[(segno, i) := vm_page_init segno]> m) segno (i + 1)
  end.

(** [vm_physeg_init], after [vm_phys_init] has set [seg->pages]. *)
Definition vm_physeg_init (s : phys) (segno : Z) : res phys :=
  let* sg := segment s segno in
  let s1 := Phys (physeg_init_loop (Z.to_nat (size sg)) (pages s) segno 0) (vm_freelist s)
    (<[Z.to_nat segno := Seg (start sg) (size sg) true]> (vm_physegs s))
    (vm_phys_rsv s) (vm_phys_total s) (pressure s) in
  physeg_free_loop (Z.to_nat (size sg)) s1 (Seg (start sg) (size sg) true) segno 0.

(** ** The invariant of the buddy allocator *)

Definition in_block (h : pgptr) (o : Z) (f : pgptr) : Prop := f.1 = h.1 /\ h.2 <= f.2 < h.2 + 2 ^ o.

Definition is_head (m : gmap pgptr vm_page_t) (b : pgptr) (p : vm_page_t) : Prop :=
  m !! b = Some p /\ 0 <= order p < VM_PHYS_ORDER_NUM.

(** The pages that are free: the content of the allocator. *)
Definition free_page (m : gmap pgptr vm_page_t) (f : pgptr) : Prop :=
  exists b p, is_head m b p /\ vm_page_is_free p = true /\ in_block b (order p) f.

(** The blocks: which pages exist and how they are grouped. *)
Record shape (m : gmap pgptr vm_page_t) (segs : list vm_physeg_t) : Prop := {
  sh_order : forall b p, m !! b = Some p ->
    0 <= order p < VM_PHYS_ORDER_NUM \/ order p = VM_PHYS_ORDER_NONE;
  sh_seg : forall b p, m !! b = Some p -> seg p = b.1 /\ 0 <= b.1 < VM_PHYSEG_NUM /\
    exists sg, segs !! Z.to_nat b.1 = Some sg /\ inited sg = true /\ 0 <= b.2 < size sg;
  sh_dom : forall i j sg, segs !! Z.to_nat i = Some sg -> 0 <= i < VM_PHYSEG_NUM -> inited sg = true ->
    0 <= j < size sg -> is_Some (m !! (i, j));
  sh_segs : forall i sg, segs !! i = Some sg -> 0 <= start sg /\ 0 <= size sg /\ start sg + size sg <= 2 ^ 20;
  (** A block is aligned, inside its segment, and owns its pages. *)
  sh_head : forall b p sg, is_head m b p -> segs !! Z.to_nat b.1 = Some sg ->
    (start sg + b.2) mod 2 ^ order p = 0 /\ b.2 + 2 ^ order p <= size sg /\
    forall j, 0 < j < 2 ^ order p ->
      exists q, m !! (b.1, b.2 + j) = Some q /\ order q = VM_PHYS_ORDER_NONE;
  (** No page is lost. *)
  sh_cover : forall b p, m !! b = Some p -> exists h q, is_head m h q /\ in_block h (order q) b;
}.

(** A free list holds exactly the free blocks of its order, once. *)
Record lists (m : gmap pgptr vm_page_t) (fl : list (list pgptr)) : Prop := {
  li_len : length fl = Z.to_nat VM_PHYS_ORDER_NUM;
  li_nodup : forall o l, fl !! o = Some l -> NoDup l;
  li_list : forall o l b, fl !! o = Some l ->
    (b ∈ l <-> exists p, m !! b = Some p /\ vm_page_is_free p = true /\ order p = Z.of_nat o);
  li_none : forall b p, m !! b = Some p -> order p = VM_PHYS_ORDER_NONE -> vm_page_is_free p = false;
}.

Record binv (m : gmap pgptr vm_page_t) (fl : list (list pgptr)) (segs : list vm_physeg_t) : Prop := {
  bi_shape : shape m segs;
  bi_lists : lists m fl;
}.

(** Bytes of free memory, by the free lists. *)
Fixpoint weight (o : Z) (fl : list (list pgptr)) : Z :=
  match fl with
  | [] => 0
  | l :: fl => 2 ^ o * Z.of_nat (length l) + weight (o + 1) fl
  end.

(** ** Lemmas *)

Ltac ordlia := unfold VM_PHYS_ORDER_NUM, VM_PHYS_ORDER_MAX, VM_PHYS_ORDER_NONE in *; lia.

Lemma weight_insert fl i l l' o : fl !! i = Some l -> 0 <= o ->
  weight o (<[i := l']> fl) =
  weight o fl + 2 ^ (o + Z.of_nat i) * (Z.of_nat (length l') - Z.of_nat (length l)).
Proof.
  revert i o. induction fl as [|x fl IH]; intros [|i] o Hi Ho; try done; simpl in *.
  - injection Hi as ->. rewrite Z.add_0_r. lia.
  - rewrite (IH i (o + 1)) by (done || lia). replace (o + 1 + Z.of_nat i) with (o + Z.of_nat (S i)) by lia. lia.
Qed.

Lemma weight_nonneg fl o : 0 <= o -> 0 <= weight o fl.
Proof.
  revert o. induction fl as [|x fl IH]; intros o Ho; simpl; [lia|]. specialize (IH (o + 1) ltac:(lia)).
  assert (0 < 2 ^ o) by (apply Z.pow_pos_nonneg; lia). nia.
Qed.

Lemma lxor_1 k : Z.lxor k 1 = if Z.odd k then k - 1 else k + 1.
Proof.
  assert (forall q, Z.lxor (2 * q) 1 = 2 * q + 1) as Heven.
  { intros q. symmetry. apply Z.add_nocarry_lxor. change 1 with (Z.ones 1). rewrite Z.land_ones by lia.
    rewrite Z.mul_comm. apply Z.mod_mul. lia. }
  destruct (Z.odd k) eqn:E.
  - apply Z.odd_spec in E as [q ->]. rewrite <- Heven, Z.lxor_assoc. change (Z.lxor 1 1) with 0.
    rewrite Z.lxor_0_r. rewrite Heven. lia.
  - rewrite <- Z.negb_even in E. apply negb_false_iff, Z.even_spec in E as [q ->]. apply Heven.
Qed.

(** The buddy of an aligned block, and the first of the two. *)
Lemma lxor_buddy a o : 0 <= o -> a mod 2 ^ o = 0 ->
  Z.lxor a (2 ^ o) = if Z.odd (a / 2 ^ o) then a - 2 ^ o else a + 2 ^ o.
Proof.
  intros Ho Ha. assert (0 < 2 ^ o) as Hp by (apply Z.pow_pos_nonneg; lia).
  assert (a = Z.shiftl (a / 2 ^ o) o) as Ea.
  { rewrite Z.shiftl_mul_pow2 by lia. pose proof (Z.div_mod a (2 ^ o)). lia. }
  remember (a / 2 ^ o) as k eqn:Ek. clear Ek Ha. subst a.
  replace (2 ^ o) with (Z.shiftl 1 o) at 1 by (by rewrite Z.shiftl_1_l).
  rewrite <- Z.shiftl_lxor, lxor_1, !Z.shiftl_mul_pow2 by lia. destruct (Z.odd k); lia.
Qed.

Lemma land_first a o : 0 <= o < 31 -> 0 <= a < 2 ^ 32 ->
  Z.land a (u32 (Z.lnot (u32 (Z.shiftl (2 ^ o) 1) - 1))) = a / 2 ^ (o + 1) * 2 ^ (o + 1).
Proof.
  intros Ho Ha. rewrite Z.shiftl_mul_pow2 by lia. change (2 ^ 1) with 2.
  replace (2 ^ o * 2) with (2 ^ (o + 1)) by (rewrite Z.pow_add_r by lia; done).
  assert (0 < 2 ^ (o + 1) < 2 ^ 32) by (split; [apply Z.pow_pos_nonneg; lia|apply Z.pow_lt_mono_r; lia]).
  rewrite (u32_small (2 ^ (o + 1))) by lia.
  replace (2 ^ (o + 1) - 1) with (Z.ones (o + 1)) by (rewrite Z.ones_equiv; lia).
  apply land_lnot_ones; lia.
Qed.

Lemma first_buddy a o : 0 <= o -> 0 <= a -> a mod 2 ^ o = 0 ->
  let c := Z.lxor a (2 ^ o) in
  c / 2 ^ (o + 1) * 2 ^ (o + 1) = Z.min a c /\ Z.min a c mod 2 ^ (o + 1) = 0 /\ Z.max a c = Z.min a c + 2 ^ o.
Proof.
  intros Ho Ha Hm c. assert (0 < 2 ^ o) as Hp by (apply Z.pow_pos_nonneg; lia).
  unfold c. rewrite lxor_buddy by done. set (k := a / 2 ^ o) in *.
  assert (a = k * 2 ^ o) as Ek by (pose proof (Z.div_mod a (2 ^ o)); unfold k; lia).
  assert (2 ^ (o + 1) = 2 * 2 ^ o) as E2 by (rewrite Z.pow_add_r by lia; lia). rewrite !E2.
  destruct (Z.odd k) eqn:E.
  - apply Z.odd_spec in E as [q E]. rewrite Z.min_r, Z.max_l by lia.
    replace (a - 2 ^ o) with (q * (2 * 2 ^ o)) by (rewrite Ek, E; lia).
    rewrite Z.div_mul, Z.mod_mul by lia. split_and!; [done|done|]. rewrite Ek, E. lia.
  - rewrite <- Z.negb_even in E. apply negb_false_iff, Z.even_spec in E as [q E].
    assert (a = q * (2 * 2 ^ o)) as Ea by (rewrite Ek, E; lia).
    rewrite Z.min_l, Z.max_r by lia. split_and!; [| |lia].
    + rewrite Ea at 1. rewrite Z.div_add_l, (Z.div_small (2 ^ o)) by lia. lia.
    + rewrite Ea. apply Z.mod_mul. lia.
Qed.

Lemma pow2_pos o : 0 <= o -> 0 < 2 ^ o.
Proof. intros. apply Z.pow_pos_nonneg; lia. Qed.

(** Two blocks that share a page are the same. *)
Lemma heads_disjoint m segs b p b' p' f : shape m segs -> is_head m b p -> is_head m b' p' ->
  in_block b (order p) f -> in_block b' (order p') f -> b = b'.
Proof.
  intros Hs Hb Hb' [E1 H1] [E2 H2].
  assert (forall b p b' p', is_head m b p -> is_head m b' p' -> b.1 = b'.1 -> b.2 <= b'.2 < b.2 + 2 ^ order p ->
    b = b') as Hle.
  { clear -Hs. intros b p b' p' Hb Hb' E Hlt. destruct (decide (b.2 = b'.2)) as [E2|Hn].
    { destruct b, b'; simpl in *; congruence. }
    exfalso. pose proof (sh_seg _ _ Hs _ _ (proj1 Hb)) as (_ & _ & sg & Hsg & _).
    destruct (sh_head _ _ Hs b p sg Hb Hsg) as (_ & _ & Hj).
    destruct (Hj (b'.2 - b.2)) as (q & Hq & Ho); [lia|].
    replace (b.1, b.2 + (b'.2 - b.2)) with b' in Hq by (destruct b, b'; simpl in *; f_equal; lia).
    destruct Hb' as [Hb' Hr]. assert (q = p') as -> by congruence.
    rewrite Ho in Hr. unfold VM_PHYS_ORDER_NONE, VM_PHYS_ORDER_NUM in Hr. lia. }
  destruct (decide (b.2 <= b'.2)) as [Hc|Hc].
  - apply (Hle b p b' p'); (done || congruence || lia).
  - symmetry. apply (Hle b' p' b p); (done || congruence || lia).
Qed.

(** What [shape] looks at. *)
Definition shape_of (p : vm_page_t) : Z * Z := (order p, seg p).

Lemma shape_ext m m' segs : shape m segs -> (forall x, shape_of <$> m !! x = shape_of <$> m' !! x) ->
  shape m' segs.
Proof.
  intros [H1 H2 H3 H4 H5 H6] E.
  assert (forall x p', m' !! x = Some p' -> exists p, m !! x = Some p /\ order p = order p' /\ seg p = seg p') as Hb.
  { intros x p' Hx. specialize (E x). rewrite Hx in E. destruct (m !! x) as [p|]; [|done].
    exists p. unfold shape_of in E. simpl in E. split_and!; congruence. }
  assert (forall x p, m !! x = Some p -> exists p', m' !! x = Some p' /\ order p' = order p /\ seg p' = seg p) as Hf.
  { intros x p Hx. specialize (E x). rewrite Hx in E. destruct (m' !! x) as [p'|]; [|done].
    exists p'. unfold shape_of in E. simpl in E. split_and!; congruence. }
  constructor.
  - intros b p' Hp'. destruct (Hb _ _ Hp') as (p & Hp & <- & _). eauto.
  - intros b p' Hp'. destruct (Hb _ _ Hp') as (p & Hp & _ & <-). eauto.
  - intros i j sg Hi Hr Hin Hj. destruct (H3 i j sg Hi Hr Hin Hj) as [p Hp].
    destruct (Hf _ _ Hp) as (p' & ? & _). eauto.
  - done.
  - intros b p' sg [Hp' Hr] Hsg. destruct (Hb _ _ Hp') as (p & Hp & Eo & _). rewrite <- Eo in *.
    destruct (H5 b p sg (conj Hp Hr) Hsg) as (Ha & Hin & Hj). split_and!; [done|done|].
    intros j Hlt. destruct (Hj j Hlt) as (q & Hq & Hqo). destruct (Hf _ _ Hq) as (q' & Hq' & Eq & _).
    exists q'. split; congruence.
  - intros b p' Hp'. destruct (Hb _ _ Hp') as (p & Hp & _ & _).
    destruct (H6 b p Hp) as (h & q & [Hq Hr] & Hin). destruct (Hf _ _ Hq) as (q' & Hq' & Eq & _).
    exists h, q'. unfold is_head. rewrite Eq. done.
Qed.

Lemma shape_of_insert (m : gmap pgptr vm_page_t) b p p' : m !! b = Some p -> shape_of p = shape_of p' ->
  forall x, shape_of <$> m !! x = shape_of <$> <[b := p']> m !! x.
Proof.
  intros Hb E x. destruct (decide (b = x)) as [<-|]; [|by rewrite lookup_insert_ne].
  rewrite lookup_insert_eq, Hb. simpl. by rewrite E.
Qed.

(** Changing whether a block is free, and the free list of its order with it. *)
Lemma lists_update m fl b p p' l l' : lists m fl -> is_head m b p -> order p' = order p ->
  fl !! Z.to_nat (order p) = Some l -> NoDup l' ->
  (forall x, x <> b -> (x ∈ l' <-> x ∈ l)) -> (b ∈ l' <-> vm_page_is_free p' = true) ->
  lists (<[b := p']> m) (<[Z.to_nat (order p) := l']> fl).
Proof.
  intros [H1 H2 H3 H4] [Hb Hr] Ho Hl Hnd Hx Hbl. unfold VM_PHYS_ORDER_NUM in *.
  constructor.
  - by rewrite length_insert.
  - intros o l0 Hl0. destruct (decide (o = Z.to_nat (order p))) as [->|].
    + rewrite list_lookup_insert_eq in Hl0 by (by eapply lookup_lt_Some). congruence.
    + rewrite list_lookup_insert_ne in Hl0 by done. eauto.
  - intros o l0 x Hl0. destruct (decide (x = b)) as [->|Hxb].
    + rewrite lookup_insert_eq. destruct (decide (o = Z.to_nat (order p))) as [->|Hn].
      * rewrite list_lookup_insert_eq in Hl0 by (by eapply lookup_lt_Some). injection Hl0 as <-.
        rewrite Hbl. split; [|naive_solver]. intros Hf. exists p'. split_and!; [done|done|lia].
      * rewrite list_lookup_insert_ne in Hl0 by done. split.
        -- intros Hin. apply (H3 _ _ _ Hl0) in Hin as (q & Hq & _ & Hqo). assert (q = p) as -> by congruence. lia.
        -- intros (q & [= <-] & _ & Hqo). lia.
    + rewrite lookup_insert_ne by done. destruct (decide (o = Z.to_nat (order p))) as [->|Hn].
      * rewrite list_lookup_insert_eq in Hl0 by (by eapply lookup_lt_Some). injection Hl0 as <-.
        rewrite Hx by done. by apply H3.
      * rewrite list_lookup_insert_ne in Hl0 by done. by apply H3.
  - intros x q. destruct (decide (x = b)) as [->|]; [|rewrite lookup_insert_ne by done; apply H4].
    rewrite lookup_insert_eq. intros [= <-] E. unfold VM_PHYS_ORDER_NONE in E. lia.
Qed.

(** Regrouping pages that are not free leaves the free lists alone. *)
Lemma lists_regroup m m' fl : lists m fl ->
  (forall x p, vm_page_is_free p = true -> m !! x = Some p <-> m' !! x = Some p) -> lists m' fl.
Proof.
  intros [H1 H2 H3 H4] E. constructor; [done|done| |].
  - intros o l b Hl. rewrite (H3 o l b Hl). split; intros (p & Hp & Hf & Ho); exists p;
      (split; [by apply (E _ _ Hf)|done]).
  - intros b p Hp Ho. destruct (vm_page_is_free p) eqn:Ef; [|done].
    rewrite <- (E b p Ef) in Hp. rewrite (H4 b p Hp Ho) in Ef. done.
Qed.

Lemma pow2_S o : 0 <= o -> 2 ^ (o + 1) = 2 * 2 ^ o.
Proof. intros. rewrite Z.pow_add_r by lia. lia. Qed.

(** Two buddies become one block. *)
Lemma shape_merge m m' segs s i o plo phi plo' phi' sg :
  let lo := (s, i) in let hi := (s, i + 2 ^ o) in
  shape m segs -> is_head m lo plo -> is_head m hi phi -> order plo = o -> order phi = o -> o < VM_PHYS_ORDER_MAX ->
  segs !! Z.to_nat s = Some sg -> (start sg + i) mod 2 ^ (o + 1) = 0 ->
  m' !! lo = Some plo' -> shape_of plo' = (o + 1, seg plo) ->
  m' !! hi = Some phi' -> shape_of phi' = (VM_PHYS_ORDER_NONE, seg phi) ->
  (forall x, x <> lo -> x <> hi -> m' !! x = m !! x) -> shape m' segs.
Proof.
  intros lo hi Hs Hlo Hhi Eo1 Eo2 Hom Hsg Hal Hlo' [= El1 El2] Hhi' [= Eh1 Eh2] Hx.
  pose proof Hlo as [Hlo1 Hlor]. pose proof Hhi as [Hhi1 Hhir]. rewrite Eo1 in Hlor.
  pose proof (pow2_pos o ltac:(lia)) as Hp. pose proof (pow2_S o ltac:(lia)) as HS.
  unfold VM_PHYS_ORDER_NUM, VM_PHYS_ORDER_MAX, VM_PHYS_ORDER_NONE in *.
  assert (forall x q, m' !! x = Some q -> (x = lo /\ q = plo') \/ (x = hi /\ q = phi') \/
    (x <> lo /\ x <> hi /\ m !! x = Some q)) as Hcase.
  { intros x q Hq. destruct (decide (x = lo)) as [->|]; [left; split; congruence|].
    destruct (decide (x = hi)) as [->|]; [right; left; split; congruence|]. rewrite Hx in Hq by done. auto. }
  assert (forall x q, m !! x = Some q -> order q = 255 -> m' !! x = Some q) as Hnone.
  { intros x q Hq Ho. rewrite Hx; [done| |]; intros ->.
    - assert (q = plo) as -> by congruence. lia.
    - assert (q = phi) as -> by congruence. lia. }
  constructor.
  - intros b p Hb. destruct (Hcase b p Hb) as [[_ ->]|[[_ ->]|(_ & _ & Hb')]]; [ordlia|ordlia|].
    by apply (sh_order _ _ Hs b).
  - intros b p Hb. destruct (Hcase b p Hb) as [[-> ->]|[[-> ->]|(_ & _ & Hb')]].
    + rewrite El2. by apply (sh_seg _ _ Hs).
    + rewrite Eh2. by apply (sh_seg _ _ Hs).
    + by apply (sh_seg _ _ Hs).
  - intros i' j sg' Hi Hr Hin Hj. destruct (decide ((i', j) = lo)) as [->|]; [eauto|].
    destruct (decide ((i', j) = hi)) as [->|]; [eauto|]. rewrite Hx by done. by eapply (sh_dom _ _ Hs).
  - apply (sh_segs _ _ Hs).
  - intros b p sg' [Hb Hr] Hsg'. destruct (Hcase b p Hb) as [[-> ->]|[[-> ->]|(N1 & N2 & Hb')]].
    + assert (sg' = sg) as -> by (unfold lo in Hsg'; simpl in Hsg'; congruence). rewrite El1 in *.
      destruct (sh_head _ _ Hs lo plo sg Hlo Hsg') as (_ & _ & Hj1).
      destruct (sh_head _ _ Hs hi phi sg Hhi Hsg') as (_ & Hend & Hj2). rewrite Eo1, Eo2 in *. simpl in *.
      split_and!; [done|lia|]. intros j Hj. destruct (decide (j < 2 ^ o)) as [Hlt|Hge].
      * destruct (Hj1 j ltac:(lia)) as (q & Hq & Ho). exists q. split; [|done]. by apply Hnone.
      * destruct (decide (j = 2 ^ o)) as [->|Hne]; [by exists phi'|].
        destruct (Hj2 (j - 2 ^ o) ltac:(lia)) as (q & Hq & Ho). exists q. split; [|done].
        replace (i + j) with (i + 2 ^ o + (j - 2 ^ o)) by lia. by apply Hnone.
    + ordlia.
    + destruct (sh_head _ _ Hs b p sg' (conj Hb' Hr) Hsg') as (Ha & Hend & Hj). split_and!; [done|done|].
      intros j Hlt. destruct (Hj j Hlt) as (q & Hq & Ho). exists q. split; [|done]. by apply Hnone.
  - intros b p Hb. assert (exists p0, m !! b = Some p0) as [p0 Hb0].
    { destruct (Hcase b p Hb) as [[-> _]|[[-> _]|(_ & _ & Hb')]]; eauto. }
    destruct (sh_cover _ _ Hs b p0 Hb0) as (h & q & Hh & [Hin1 Hin2]).
    destruct (decide (h = lo)) as [->|]; [|destruct (decide (h = hi)) as [->|]].
    + exists lo, plo'. split; [split; [done|ordlia]|]. destruct Hh as [Hh _].
      assert (q = plo) as -> by congruence. split; [done|]. rewrite El1. unfold lo in *. simpl in *. rewrite Eo1 in Hin2. lia.
    + exists lo, plo'. split; [split; [done|ordlia]|]. destruct Hh as [Hh _].
      assert (q = phi) as -> by congruence. split; [done|]. rewrite El1. unfold lo, hi in *. simpl in *. rewrite Eo2 in Hin2. lia.
    + exists h, q. split; [|done]. destruct Hh as [Hh Hhr]. split; [|done]. by rewrite Hx.
Qed.

(** A block is split into two buddies. *)
Lemma shape_split m m' segs s i o plo phi plo' phi' :
  let lo := (s, i) in let hi := (s, i + 2 ^ o) in
  shape m segs -> is_head m lo plo -> order plo = o + 1 -> 0 <= o -> m !! hi = Some phi ->
  m' !! lo = Some plo' -> shape_of plo' = (o, seg plo) -> m' !! hi = Some phi' -> shape_of phi' = (o, seg phi) ->
  (forall x, x <> lo -> x <> hi -> m' !! x = m !! x) -> shape m' segs.
Proof.
  intros lo hi Hs Hlo Eo Ho0 Hhi Hlo' [= El1 El2] Hhi' [= Eh1 Eh2] Hx.
  pose proof Hlo as [Hlo1 Hlor]. rewrite Eo in Hlor.
  pose proof (pow2_pos o ltac:(lia)) as Hp. pose proof (pow2_S o ltac:(lia)) as HS.
  pose proof (sh_seg _ _ Hs _ _ Hlo1) as (_ & _ & sg & Hsg & _).
  destruct (sh_head _ _ Hs lo plo sg Hlo Hsg) as (Hal & Hend & Hjs). rewrite Eo in Hal, Hend, Hjs.
  unfold VM_PHYS_ORDER_NUM, VM_PHYS_ORDER_NONE in *.
  assert (order phi = 255) as Ephi.
  { destruct (Hjs (2 ^ o) ltac:(lia)) as (q & Hq & Hqo). change (s, i + 2 ^ o) with hi in Hq. simpl in Hq.
    assert (q = phi) as -> by (unfold hi in Hhi; congruence). done. }
  assert (lo <> hi) as Hne by (unfold lo, hi; intros [=]; lia).
  assert (forall x q, m' !! x = Some q -> (x = lo /\ q = plo') \/ (x = hi /\ q = phi') \/
    (x <> lo /\ x <> hi /\ m !! x = Some q)) as Hcase.
  { intros x q Hq. destruct (decide (x = lo)) as [->|]; [left; split; congruence|].
    destruct (decide (x = hi)) as [->|]; [right; left; split; congruence|]. rewrite Hx in Hq by done. auto. }
  assert (forall x q, m !! x = Some q -> order q = 255 -> x <> hi -> m' !! x = Some q) as Hnone.
  { intros x q Hq Ho Hn. rewrite Hx; [done| |done]. intros ->. assert (q = plo) as -> by congruence. lia. }
  constructor.
  - intros b p Hb. destruct (Hcase b p Hb) as [[_ ->]|[[_ ->]|(_ & _ & Hb')]]; [ordlia|ordlia|].
    by apply (sh_order _ _ Hs b).
  - intros b p Hb. destruct (Hcase b p Hb) as [[-> ->]|[[-> ->]|(_ & _ & Hb')]].
    + rewrite El2. by apply (sh_seg _ _ Hs).
    + rewrite Eh2. by apply (sh_seg _ _ Hs).
    + by apply (sh_seg _ _ Hs).
  - intros i' j sg' Hi Hr Hin Hj. destruct (decide ((i', j) = lo)) as [->|]; [eauto|].
    destruct (decide ((i', j) = hi)) as [->|]; [eauto|]. rewrite Hx by done. by eapply (sh_dom _ _ Hs).
  - apply (sh_segs _ _ Hs).
  - intros b p sg' [Hb Hr] Hsg'. destruct (Hcase b p Hb) as [[-> ->]|[[-> ->]|(N1 & N2 & Hb')]].
    + assert (sg' = sg) as -> by congruence. rewrite El1 in *. unfold lo in *. simpl in *.
      split_and!; [|lia|].
      * apply Z.mod_divide; [lia|]. apply Z.mod_divide in Hal; [|lia]. rewrite HS in Hal.
        eapply Z.divide_trans; [|exact Hal]. exists 2. lia.
      * intros j Hj. destruct (Hjs j ltac:(lia)) as (q & Hq & Hqo). exists q. split; [|done].
        apply Hnone; [done|done|]. unfold hi. intros [=]. lia.
    + assert (sg' = sg) as -> by (unfold hi, lo in *; simpl in *; congruence). rewrite Eh1 in *.
      unfold lo, hi in *. simpl in *. split_and!; [|lia|].
      * replace (start sg + (i + 2 ^ o)) with (start sg + i + 1 * 2 ^ o) by lia. rewrite Z.mod_add by lia.
        apply Z.mod_divide; [lia|]. apply Z.mod_divide in Hal; [|lia]. rewrite HS in Hal.
        eapply Z.divide_trans; [|exact Hal]. exists 2. lia.
      * intros j Hj. destruct (Hjs (2 ^ o + j) ltac:(lia)) as (q & Hq & Hqo). exists q. split; [|done].
        replace (i + 2 ^ o + j) with (i + (2 ^ o + j)) by lia.
        apply Hnone; [done|done|]. intros [=]. lia.
    + destruct (sh_head _ _ Hs b p sg' (conj Hb' Hr) Hsg') as (Ha & He & Hj). split_and!; [done|done|].
      intros j Hlt. destruct (Hj j Hlt) as (q & Hq & Hqo). exists q. split; [|done]. apply Hnone; [done|done|].
      intros Eh. apply N1. apply (heads_disjoint m segs b p lo plo hi Hs (conj Hb' Hr) Hlo).
      * rewrite <- Eh. split; [done|]. simpl. lia.
      * split; [done|]. rewrite Eo. unfold hi, lo. simpl. lia.
  - intros b p Hb. assert (exists p0, m !! b = Some p0) as [p0 Hb0].
    { destruct (Hcase b p Hb) as [[-> _]|[[-> _]|(_ & _ & Hb')]]; eauto. }
    destruct (sh_cover _ _ Hs b p0 Hb0) as (h & q & Hh & [Hin1 Hin2]).
    destruct (decide (h = lo)) as [->|].
    + destruct Hh as [Hh _]. assert (q = plo) as -> by congruence. rewrite Eo in Hin2.
      destruct (decide (b.2 < i + 2 ^ o)).
      * exists lo, plo'. split; [split; [done|ordlia]|]. split; [done|]. rewrite El1.
        unfold lo in *. simpl in *. lia.
      * exists hi, phi'. split; [split; [done|ordlia]|]. split; [done|]. rewrite Eh1.
        unfold lo, hi in *. simpl in *. lia.
    + exists h, q. split; [|done]. destruct Hh as [Hh Hhr]. split; [|done]. rewrite Hx; [done|done|].
      intros ->. assert (q = phi) as -> by congruence. ordlia.
Qed.

(** ** Steps of the allocator *)

Definition pinv (s : phys) : Prop := binv (pages s) (vm_freelist s) (vm_physegs s).

(** Everything but the pages and the free lists. *)
Definition same_rest (s s' : phys) : Prop :=
  vm_physegs s' = vm_physegs s /\ vm_phys_rsv s' = vm_phys_rsv s /\
  vm_phys_total s' = vm_phys_total s /\ pressure s' = pressure s.

Lemma same_rest_refl s : same_rest s s.
Proof. done. Qed.
Lemma same_rest_trans s1 s2 s3 : same_rest s1 s2 -> same_rest s2 s3 -> same_rest s1 s3.
Proof. intros (? & ? & ? & ?) (? & ? & ? & ?). split_and!; congruence. Qed.

Lemma state_set_state p st : Z.land st VM_PG_STATE_MASK = st ->
  vm_page_state (vm_page_set_state p st) = st.
Proof.
  intros E. unfold vm_page_state, vm_page_set_state. simpl.
  rewrite Z.land_lor_distr_l, <- Z.land_assoc. change (Z.land (Z.lnot VM_PG_STATE_MASK) VM_PG_STATE_MASK) with 0.
  by rewrite Z.land_0_r, Z.lor_0_l.
Qed.

Lemma is_free_set_free p : vm_page_is_free (vm_page_set_state p VM_PG_FREE) = true.
Proof. unfold vm_page_is_free. by rewrite state_set_state. Qed.
Lemma is_free_set_normal p : vm_page_is_free (vm_page_set_state p VM_PG_NORMAL) = false.
Proof. unfold vm_page_is_free. by rewrite state_set_state. Qed.

Lemma free_page_update m segs b p p' f : shape m segs -> is_head m b p -> shape_of p' = shape_of p ->
  free_page (<[b := p']> m) f <->
  (free_page m f /\ ~ in_block b (order p) f) \/ (vm_page_is_free p' = true /\ in_block b (order p) f).
Proof.
  intros Hs Hb [= Eo Es]. split.
  - intros (h & q & [Hq Hr] & Hf & Hin). destruct (decide (h = b)) as [->|Hn].
    + rewrite lookup_insert_eq in Hq. injection Hq as <-. rewrite Eo in Hin. by right.
    + rewrite lookup_insert_ne in Hq by done. left. split; [by exists h, q|]. intros Hin'.
      apply Hn. by apply (heads_disjoint m segs h q b p f).
  - intros [[(h & q & [Hq Hr] & Hf & Hin) Hnb]|[Hf Hin]].
    + assert (h <> b). { intros ->. destruct Hb as [Hb _]. assert (q = p) as -> by congruence. done. }
      exists h, q. unfold is_head. by rewrite lookup_insert_ne.
    + exists b, p'. unfold is_head. rewrite lookup_insert_eq, Eo. destruct Hb as [_ Hb]. done.
Qed.

Lemma free_page_regroup m m' f :
  (forall x p, vm_page_is_free p = true -> m !! x = Some p <-> m' !! x = Some p) ->
  free_page m f <-> free_page m' f.
Proof.
  intros E. split; intros (h & q & [Hq Hr] & Hf & Hin); exists h, q;
    (split; [split; [by apply (E _ _ Hf)|done]|done]).
Qed.

Lemma filter_ne_notin {A} `{EqDecision A} (b : A) (l : list A) : b ∉ l -> filter (fun x => x <> b) l = l.
Proof.
  induction l as [|x l IH]; intros Hb; [done|]. apply not_elem_of_cons in Hb as [Hx Hl].
  rewrite filter_cons_True by congruence. by rewrite IH.
Qed.

Lemma length_filter_ne {A} `{EqDecision A} (b : A) (l : list A) : NoDup l -> b ∈ l ->
  Z.of_nat (length (filter (fun x => x <> b) l)) = Z.of_nat (length l) - 1.
Proof.
  intros Hnd Hb. apply list_elem_of_split in Hb as (l1 & l2 & ->).
  apply NoDup_app in Hnd as (_ & Hd & Hnd). apply NoDup_cons in Hnd as [Hb2 _].
  assert (b ∉ l1) as Hb1 by (intros Hin; apply (Hd b Hin); apply list_elem_of_here).
  rewrite filter_app, filter_cons_False by (intros Hn; by apply Hn).
  rewrite !filter_ne_notin by done. rewrite !length_app. simpl. lia.
Qed.

Lemma freelist_lookup s b p : pinv s -> is_head (pages s) b p ->
  exists l, vm_freelist s !! Z.to_nat (order p) = Some l.
Proof.
  intros [_ Hl] [_ Hr]. apply lookup_lt_is_Some. rewrite (li_len _ _ Hl). ordlia.
Qed.

Lemma in_freelist s b p l : pinv s -> is_head (pages s) b p -> vm_freelist s !! Z.to_nat (order p) = Some l ->
  (b ∈ l <-> vm_page_is_free p = true).
Proof.
  intros [_ Hl] [Hb Hr] Hfl. rewrite (li_list _ _ Hl _ _ b Hfl). split.
  - intros (q & Hq & Hf & _). congruence.
  - intros Hf. exists p. split_and!; [done|done|lia].
Qed.

(** Replacing the state of the block [b] and its free list. *)
Lemma update_block s b p p' l l' : pinv s -> is_head (pages s) b p -> shape_of p' = shape_of p ->
  vm_freelist s !! Z.to_nat (order p) = Some l -> NoDup l' ->
  (forall x, x <> b -> (x ∈ l' <-> x ∈ l)) -> (b ∈ l' <-> vm_page_is_free p' = true) ->
  let s' := put (set_list s (order p) l') b p' in
  pinv s' /\ weight 0 (vm_freelist s') =
    weight 0 (vm_freelist s) + 2 ^ order p * (Z.of_nat (length l') - Z.of_nat (length l)).
Proof.
  intros [Hs Hl] Hb Esh Hfl Hnd Hx Hbl s'. pose proof Hb as [Hb1 Hr]. injection Esh as Eo Es. split.
  - split; simpl.
    + eapply shape_ext; [done|]. eapply shape_of_insert; [done|]. unfold shape_of. congruence.
    + by eapply lists_update.
  - simpl. rewrite (weight_insert _ _ l) by (done || lia). rewrite Z2Nat.id by lia. by rewrite Z.add_0_l.
Qed.

Lemma vm_freelist_add_spec s b p : pinv s -> is_head (pages s) b p -> vm_page_is_free p = false ->
  exists s', vm_freelist_add s b = Done s' /\ pinv s' /\ same_rest s s' /\
    pages s' = <[b := vm_page_set_state p VM_PG_FREE]> (pages s) /\
    weight 0 (vm_freelist s') = weight 0 (vm_freelist s) + 2 ^ order p /\
    forall f, free_page (pages s') f <-> free_page (pages s) f \/ in_block b (order p) f.
Proof.
  intros Hi Hb Hnf. destruct (freelist_lookup s b p Hi Hb) as [l Hfl].
  pose proof (in_freelist s b p l Hi Hb Hfl) as Hin. pose proof Hb as [Hb1 Hr].
  unfold vm_freelist_add, page, freelist. rewrite Hb1. cbn [deref rbind].
  rewrite (proj2 (Z.ltb_lt _ _)) by ordlia. rewrite Hfl. cbn [deref rbind].
  assert (b ∉ l) as Hbl by (rewrite Hin; by rewrite Hnf).
  destruct (update_block s b p (vm_page_set_state p VM_PG_FREE) l (l ++ [b]) Hi Hb) as [Hi' Hw]; try done.
  { apply NoDup_app. split_and!; [by eapply li_nodup; [apply Hi|]| |apply NoDup_singleton].
    intros x Hx Hx'. apply list_elem_of_singleton in Hx' as ->. done. }
  { intros x Hx. rewrite elem_of_app, list_elem_of_singleton. naive_solver. }
  { rewrite is_free_set_free, elem_of_app, list_elem_of_singleton. naive_solver. }
  eexists. split; [done|]. split; [exact Hi'|]. split; [done|]. split; [done|].
  split; [rewrite Hw, length_app; simpl; lia|]. intros f. simpl.
  rewrite (free_page_update _ _ b p) by (try apply Hi; done). rewrite is_free_set_free.
  split; [|destruct (decide (in_block b (order p) f)) as [Hf|Hf]; naive_solver]. naive_solver.
Qed.

(** Taking a free block off its list, by [l'] without it. *)
Lemma take_block s b p l l' : pinv s -> is_head (pages s) b p -> vm_page_is_free p = true ->
  vm_freelist s !! Z.to_nat (order p) = Some l -> NoDup l' ->
  (forall x, x <> b -> (x ∈ l' <-> x ∈ l)) -> b ∉ l' -> Z.of_nat (length l') = Z.of_nat (length l) - 1 ->
  let s' := put (set_list s (order p) l') b (vm_page_set_state p VM_PG_NORMAL) in
  pinv s' /\ weight 0 (vm_freelist s') = weight 0 (vm_freelist s) - 2 ^ order p /\
  (forall f, free_page (pages s') f <-> free_page (pages s) f /\ ~ in_block b (order p) f).
Proof.
  intros Hi Hb Hf Hfl Hnd Hx Hbl Hlen s'.
  destruct (update_block s b p (vm_page_set_state p VM_PG_NORMAL) l l' Hi Hb) as [Hi' Hw]; try done.
  { rewrite is_free_set_normal. naive_solver. }
  split; [exact Hi'|]. split; [unfold s'; rewrite Hw, Hlen; lia|]. intros f. simpl.
  rewrite (free_page_update _ _ b p) by (try apply Hi; done). rewrite is_free_set_normal. naive_solver.
Qed.

Lemma vm_freelist_rem_spec s b p : pinv s -> is_head (pages s) b p -> vm_page_is_free p = true ->
  exists s', vm_freelist_rem s b = Done s' /\ pinv s' /\ same_rest s s' /\
    pages s' = <[b := vm_page_set_state p VM_PG_NORMAL]> (pages s) /\
    weight 0 (vm_freelist s') = weight 0 (vm_freelist s) - 2 ^ order p /\
    forall f, free_page (pages s') f <-> free_page (pages s) f /\ ~ in_block b (order p) f.
Proof.
  intros Hi Hb Hf. destruct (freelist_lookup s b p Hi Hb) as [l Hfl].
  pose proof (proj2 (in_freelist s b p l Hi Hb Hfl) Hf) as Hin. pose proof Hb as [Hb1 Hr].
  pose proof (li_nodup _ _ (bi_lists _ _ _ Hi) _ _ Hfl) as Hnd.
  unfold vm_freelist_rem, page, freelist. rewrite Hb1. cbn [deref rbind].
  rewrite (proj2 (Z.ltb_lt _ _)) by ordlia. rewrite Hfl. cbn [deref rbind].
  rewrite bool_decide_eq_true_2 by done.
  destruct (take_block s b p l (filter (fun x => x <> b) l) Hi Hb Hf Hfl) as (Hi' & Hw & Hfp).
  { by apply NoDup_filter. }
  { intros x Hx. rewrite list_elem_of_filter. naive_solver. }
  { rewrite list_elem_of_filter. naive_solver. }
  { by apply length_filter_ne. }
  eexists. split; [done|]. split_and!; done.
Qed.

(** The blocks in use other than [b] are not touched. *)
Definition kept (m m' : gmap pgptr vm_page_t) (b : pgptr) : Prop :=
  forall x p, is_head m x p -> vm_page_is_free p = false -> x <> b -> m' !! x = Some p.

(** A block that has been taken: not free, and the given pages left the
    allocator. *)
Definition taken (s s' : phys) (b : pgptr) (o : Z) : Prop :=
  pinv s' /\ same_rest s s' /\ kept (pages s) (pages s') b /\
  (exists p, is_head (pages s') b p /\ order p = o /\ vm_page_is_free p = false) /\
  weight 0 (vm_freelist s') = weight 0 (vm_freelist s) - 2 ^ o /\
  (forall f, in_block b o f -> free_page (pages s) f) /\
  (forall f, free_page (pages s') f <-> free_page (pages s) f /\ ~ in_block b o f).

Lemma alloc_find_spec n s i : pinv s -> 0 <= i -> i + Z.of_nat n = VM_PHYS_ORDER_NUM ->
  match alloc_find n s i with
  | Done (None, s') => s' = s /\ forall o l, i <= Z.of_nat o -> vm_freelist s !! o = Some l -> l = []
  | Done (Some b, s') => exists o, i <= o < VM_PHYS_ORDER_NUM /\ taken s s' b o
  | _ => False
  end.
Proof.
  intros Hi. revert i. induction n as [|n IH]; intros i Hi0 Hn; cbn [alloc_find].
  { split; [done|]. intros o l Ho Hl. apply lookup_lt_Some in Hl.
    rewrite (li_len _ _ (bi_lists _ _ _ Hi)) in Hl. ordlia. }
  unfold vm_freelist_pop. rewrite (proj2 (Z.ltb_lt _ _)) by ordlia.
  destruct (lookup_lt_is_Some_2 (vm_freelist s) (Z.to_nat i)) as [l Hl].
  { rewrite (li_len _ _ (bi_lists _ _ _ Hi)). ordlia. }
  unfold freelist. rewrite Hl. cbn [deref rbind]. destruct l as [|b l]; cbn [rbind].
  - specialize (IH (i + 1) ltac:(lia) ltac:(lia)).
    destruct (alloc_find n s (i + 1)) as [[[b|] s']| | |]; try done.
    + destruct IH as (o & Ho & IH). exists o. split; [lia|done].
    + destruct IH as [-> IH]. split; [done|]. intros o l Ho Hlo.
      destruct (decide (o = Z.to_nat i)) as [->|]; [congruence|]. apply (IH o l); [lia|done].
  - pose proof (li_nodup _ _ (bi_lists _ _ _ Hi) _ _ Hl) as [Hb Hnd]%NoDup_cons.
    destruct (proj1 (li_list _ _ (bi_lists _ _ _ Hi) _ _ b Hl) (list_elem_of_here _ _)) as (p & Hp & Hf & Ho).
    rewrite Z2Nat.id in Ho by lia.
    assert (is_head (pages s) b p) as Hh by (split; [done|ordlia]).
    unfold page. simpl. rewrite Hp. cbn [deref rbind]. rewrite Hf. exists i. split; [ordlia|].
    rewrite <- Ho in *. destruct (take_block s b p (b :: l) l Hi Hh Hf Hl Hnd) as (Hi' & Hw & Hfp); try done.
    { intros x Hx. rewrite elem_of_cons. naive_solver. }
    { simpl. lia. }
    split; [exact Hi'|]. split; [done|]. split; [|split; [|split; [done|split; [|done]]]].
    + intros x r Hx _ Hxb. simpl. rewrite lookup_insert_ne by done. apply Hx.
    + exists (vm_page_set_state p VM_PG_NORMAL). simpl. unfold is_head. rewrite lookup_insert_eq.
      split_and!; [done|simpl; ordlia..|done|apply is_free_set_normal].
    + intros f Hin. by exists b, p.
Qed.

Lemma alloc_split_spec fuel s0 s b c o : taken s0 s b c -> 0 <= o <= c -> (Z.to_nat (c - o) < fuel)%nat ->
  exists s', alloc_split fuel s b o = Done s' /\ taken s0 s' b o.
Proof.
  revert s c. induction fuel as [|fuel IH]; intros s c Ht Ho Hf; [lia|].
  pose proof Ht as (Hi & Hrest & Hkept & (p & Hh & Ec & Hnf) & Hw & Hall & Hfp). cbn [alloc_split].
  pose proof Hh as [Hp Hr]. unfold page. rewrite Hp. cbn [deref rbind]. rewrite Ec.
  destruct (Z.ltb_spec o c) as [Hlt|Hge].
  2:{ assert (o = c) as -> by lia. eauto. }
  set (p1 := set_order p (c - 1)). set (o1 := c - 1).
  assert (order p = o1 + 1) as Ep by (unfold o1; lia). assert (0 <= o1 < 10) as Ho1 by (unfold o1; ordlia).
  pose proof (pow2_pos o1 ltac:(lia)) as Hpos. pose proof (pow2_S o1 ltac:(lia)) as HS.
  assert (vm_page_num p1 = 2 ^ o1) as En.
  { unfold vm_page_num. simpl. rewrite Z.shiftl_1_l. apply u32_small. split; [lia|].
    apply Z.pow_lt_mono_r; lia. }
  rewrite En. set (hi := (b.1, b.2 + 2 ^ o1)).
  pose proof (sh_seg _ _ (bi_shape _ _ _ Hi) _ _ Hp) as (_ & _ & sg & Hsg & _).
  destruct (sh_head _ _ (bi_shape _ _ _ Hi) b p sg Hh Hsg) as (_ & _ & Hj). rewrite Ep in Hj.
  destruct (Hj (2 ^ o1) ltac:(lia)) as (q & Hq & Hqo). change (b.1, b.2 + 2 ^ o1) with hi in Hq.
  assert (b <> hi) as Hne by (unfold hi; destruct b; simpl; intros [=]; lia).
  cbn [put set_pages pages]. rewrite lookup_insert_ne by done. rewrite Hq. cbn [deref rbind].
  assert (vm_page_is_free q = false) as Hqf by (by eapply (li_none _ _ (bi_lists _ _ _ Hi))).
  rewrite Hqf. cbn [negb].
  set (s2 := put (put s b p1) hi (set_order q (c - 1))).
  assert (forall x, x <> b -> x <> hi -> pages s2 !! x = pages s !! x) as Hx.
  { intros x N1 N2. unfold s2. simpl. by rewrite !lookup_insert_ne. }
  assert (pages s2 !! b = Some p1) as Hb2 by (unfold s2; simpl; by rewrite lookup_insert_ne, lookup_insert_eq).
  assert (pages s2 !! hi = Some (set_order q (c - 1))) as Hhi2 by (unfold s2; simpl; by rewrite lookup_insert_eq).
  assert (forall x r, vm_page_is_free r = true -> pages s !! x = Some r <-> pages s2 !! x = Some r) as Hfree.
  { intros x r Hrf. destruct (decide (x = b)) as [->|]; [|destruct (decide (x = hi)) as [->|]].
    - rewrite Hb2, Hp. split; intros [= <-]; change (vm_page_is_free p = true) in Hrf; congruence.
    - rewrite Hhi2, Hq. split; intros [= <-]; change (vm_page_is_free q = true) in Hrf; congruence.
    - by rewrite Hx. }
  assert (pinv s2) as Hi2.
  { destruct b as [bs bi]. split.
    - eapply (shape_split (pages s) (pages s2) _ bs bi o1 p q p1 (set_order q (c - 1)));
        (apply Hi || done || lia).
    - eapply lists_regroup; [apply Hi|exact Hfree]. }
  destruct (vm_freelist_add_spec s2 hi (set_order q (c - 1))) as (s3 & Hadd & Hi3 & Hrest3 & Hp3 & Hw3 & Hfp3); [done| |done|].
  { split; [done|]. simpl. ordlia. }
  simpl order in *. change (order p1) with (c - 1). fold s2. rewrite Hadd. cbn [rbind].
  destruct (IH s3 o1) as (s' & Hrun & Ht'); [|unfold o1; lia|unfold o1; lia|by exists s'].
  split; [done|]. split; [by eapply same_rest_trans; [|exact Hrest3]|]. split; [|split; [|split; [|split]]].
  - intros x r Hxh Hxf Hxb. pose proof (Hkept x r Hxh Hxf Hxb) as Hxs. rewrite Hp3.
    assert (x <> hi). { intros ->. assert (r = q) as -> by congruence. destruct Hxh. ordlia. }
    by rewrite lookup_insert_ne, Hx.
  - exists p1. unfold is_head. rewrite Hp3, lookup_insert_ne, Hb2 by done.
    split_and!; [done|simpl; ordlia..|done|done].
  - rewrite Hw3. change (weight 0 (vm_freelist s2)) with (weight 0 (vm_freelist s)). rewrite Hw.
    assert (2 ^ c = 2 ^ o1 + 2 ^ o1) by (unfold o1 in *; replace c with (c - 1 + 1) at 1 by lia; lia).
    fold o1. lia.
  - intros f [E Hin]. apply Hall. split; [done|]. unfold o1 in *. replace c with (c - 1 + 1) by lia. lia.
  - intros f. rewrite Hfp3, <- (free_page_regroup _ _ f Hfree), Hfp. fold o1.
    assert (in_block b c f <-> in_block b o1 f \/ in_block hi o1 f) as Hsplit.
    { unfold in_block, hi. simpl. assert (2 ^ c = 2 ^ o1 + 2 ^ o1) as ->
        by (unfold o1 in *; replace c with (c - 1 + 1) at 1 by lia; lia). lia. }
    rewrite Hsplit. split.
    + intros [[Hf1 Hf2]|Hf1]; [naive_solver|]. split; [apply Hall; naive_solver|].
      unfold in_block, hi in *. simpl in *. lia.
    + intros [Hf1 Hf2]. destruct (decide (in_block hi o1 f)); naive_solver.
Qed.

(** Joining the block [b] with its buddy [c], neither of them free. *)
Lemma join_spec s b c p q o : pinv s -> is_head (pages s) b p -> is_head (pages s) c q ->
  order p = o -> order q = o -> o < VM_PHYS_ORDER_MAX -> vm_page_is_free p = false -> vm_page_is_free q = false ->
  b.1 = c.1 ->
  (forall sg, vm_physegs s !! Z.to_nat b.1 = Some sg -> start sg + c.2 = Z.lxor (start sg + b.2) (2 ^ o)) ->
  let lo := (b.1, Z.min b.2 c.2) in
  let m1 := <[b := set_order p VM_PHYS_ORDER_NONE]> (<[c := set_order q VM_PHYS_ORDER_NONE]> (pages s)) in
  exists r, m1 !! lo = Some r /\ let s' := set_pages s (<[lo := set_order r (o + 1)]> m1) in
    pinv s' /\ is_head (pages s') lo (set_order r (o + 1)) /\ vm_page_is_free (set_order r (o + 1)) = false /\
    (forall f, in_block lo (o + 1) f <-> in_block b o f \/ in_block c o f) /\
    (forall f, free_page (pages s') f <-> free_page (pages s) f).
Proof.
  intros Hi Hb Hc Ep Eq Ho Hfp Hfq E1 Hxor lo m1.
  pose proof Hb as [Hb1 Hbr]. pose proof Hc as [Hc1 Hcr].
  pose proof (sh_seg _ _ (bi_shape _ _ _ Hi) _ _ Hb1) as (_ & _ & sg & Hsg & _ & Hb2).
  pose proof (sh_segs _ _ (bi_shape _ _ _ Hi) _ _ Hsg) as (Hst & _).
  destruct (sh_head _ _ (bi_shape _ _ _ Hi) b p sg Hb Hsg) as (Hal & _ & _).
  rewrite Ep in *. specialize (Hxor sg Hsg).
  destruct (first_buddy (start sg + b.2) o ltac:(lia) ltac:(lia) Hal) as (_ & Hmin & Hmax).
  rewrite <- Hxor in Hmin, Hmax. pose proof (pow2_pos o ltac:(lia)) as Hpos. pose proof (pow2_S o ltac:(lia)) as HS.
  assert (forall x, m1 !! x = if decide (x = b) then Some (set_order p VM_PHYS_ORDER_NONE)
    else if decide (x = c) then Some (set_order q VM_PHYS_ORDER_NONE) else pages s !! x) as Hm1.
  { intros x. unfold m1. repeat case_decide; subst; rewrite ?lookup_insert_eq; [done| |].
    - by rewrite lookup_insert_ne, lookup_insert_eq by congruence.
    - by rewrite !lookup_insert_ne by congruence. }
  set (i := Z.min b.2 c.2) in *.
  assert ((b = (b.1, i) /\ c = (b.1, i + 2 ^ o)) \/ (c = (b.1, i) /\ b = (b.1, i + 2 ^ o))) as Hcase.
  { destruct b as [b1 b2], c as [c1 c2]; simpl in *. destruct (decide (b2 <= c2)).
    - left. split; [|rewrite E1]; f_equal; unfold i; lia.
    - right. split; [rewrite E1|]; f_equal; unfold i; lia. }
  assert (b <> c) as Hbc.
  { intros E. apply (f_equal snd) in E.
    destruct Hcase as [[Eb Ec]|[Ec Eb]]; apply (f_equal snd) in Eb, Ec; simpl in *; lia. }
  assert (exists r0 h0, (lo = b \/ lo = c) /\ m1 !! lo = Some (set_order r0 VM_PHYS_ORDER_NONE) /\
    is_head (pages s) lo r0 /\ order r0 = o /\ vm_page_is_free r0 = false /\
    is_head (pages s) (b.1, i + 2 ^ o) h0 /\ order h0 = o /\
    m1 !! (b.1, i + 2 ^ o) = Some (set_order h0 VM_PHYS_ORDER_NONE)) as (r0 & h0 & Hlo & Hml & Hhl & Eo & Hfr & Hhh & Eh & Hmh).
  { change lo with (b.1, i). destruct Hcase as [[Eb Ec]|[Ec Eb]].
    - exists p, q. rewrite <- Eb, <- Ec, !Hm1. 
      split_and!; repeat case_decide; first [done | congruence | apply Hb | apply Hc | auto].
    - exists q, p. rewrite <- Eb, <- Ec, !Hm1. 
      split_and!; repeat case_decide; first [done | congruence | apply Hb | apply Hc | auto]. }
  exists (set_order r0 VM_PHYS_ORDER_NONE). split; [done|]. intros s'.
  assert ((b.1, i + 2 ^ o) <> lo) as Hne by (unfold lo; intros [=]; lia).
  assert (forall x, x <> lo -> x <> (b.1, i + 2 ^ o) -> pages s' !! x = pages s !! x) as Hx.
  { intros x N1 N2. unfold s'. simpl. rewrite lookup_insert_ne, Hm1 by done.
    rewrite !decide_False; [done| |]; intros ->; destruct Hcase as [[Eb Ec]|[Ec Eb]]; unfold lo in *; congruence. }
  assert (pages s' !! lo = Some (set_order (set_order r0 VM_PHYS_ORDER_NONE) (o + 1))) as Hl'
    by (unfold s'; simpl; by rewrite lookup_insert_eq).
  assert (pages s' !! (b.1, i + 2 ^ o) = Some (set_order h0 VM_PHYS_ORDER_NONE)) as Hh'
    by (unfold s'; simpl; by rewrite lookup_insert_ne).
  assert (forall x r, vm_page_is_free r = true -> pages s !! x = Some r <-> pages s' !! x = Some r) as Hfree.
  { intros x r Hrf. destruct (decide (x = lo)) as [->|]; [|destruct (decide (x = (b.1, i + 2 ^ o))) as [->|]].
    - rewrite Hl', (proj1 Hhl). split; intros [= <-]; change (vm_page_is_free r0 = true) in Hrf; congruence.
    - rewrite Hh', (proj1 Hhh). assert (vm_page_is_free h0 = false).
      { destruct Hcase as [[Eb Ec]|[Ec Eb]]; rewrite <- ?Ec, <- ?Eb in Hhh; destruct Hhh; congruence. }
      split; intros [= <-]; change (vm_page_is_free h0 = true) in Hrf; congruence.
    - by rewrite Hx. }
  split; [split|split; [|split; [done|split]]].
  - eapply (shape_merge (pages s) (pages s') _ b.1 i o r0 h0); try done; [apply Hi|].
    replace (start sg + i) with (Z.min (start sg + b.2) (start sg + c.2)) by (unfold i; lia). done.
  - eapply lists_regroup; [apply Hi|exact Hfree].
  - split; [done|]. simpl. ordlia.
  - intros f. unfold in_block, lo. simpl. rewrite HS. destruct Hcase as [[Eb Ec]|[Ec Eb]]; rewrite Ec at 1 2 3; simpl;
      destruct b as [b1 b2]; simpl in *; simplify_eq; lia.
  - intros f. symmetry. by apply free_page_regroup.
Qed.

Lemma free_merge_spec fuel s b p sg : pinv s -> is_head (pages s) b p -> vm_page_is_free p = false ->
  vm_physegs s !! Z.to_nat b.1 = Some sg -> (Z.to_nat (VM_PHYS_ORDER_MAX - order p) < fuel)%nat ->
  exists b' p' s', free_merge fuel s sg b.1 b = Done (b', s') /\ pinv s' /\ same_rest s s' /\
    is_head (pages s') b' p' /\ vm_page_is_free p' = false /\
    (forall f, in_block b (order p) f -> in_block b' (order p') f) /\
    (forall f, in_block b' (order p') f -> in_block b (order p) f \/ free_page (pages s) f) /\
    (forall f, free_page (pages s') f <-> free_page (pages s) f /\ ~ in_block b' (order p') f) /\
    kept (pages s) (pages s') b /\
    weight 0 (vm_freelist s') + 2 ^ order p' = weight 0 (vm_freelist s) + 2 ^ order p.
Proof.
  revert s b p. induction fuel as [|fuel IH]; intros s b p Hi Hb Hnf Hsg Hf; [lia|].
  assert (forall f, free_page (pages s) f -> ~ in_block b (order p) f) as Hnotfree.
  { intros f (h & q & Hh & Hq & Hin) Hin'. assert (h = b) as -> by (by eapply heads_disjoint; [apply Hi|..]).
    destruct Hh, Hb. congruence. }
  assert (exists b' p' s', Done (b, s) = Done (b', s') /\ pinv s' /\ same_rest s s' /\
    is_head (pages s') b' p' /\ vm_page_is_free p' = false /\
    (forall f, in_block b (order p) f -> in_block b' (order p') f) /\
    (forall f, in_block b' (order p') f -> in_block b (order p) f \/ free_page (pages s) f) /\
    (forall f, free_page (pages s') f <-> free_page (pages s) f /\ ~ in_block b' (order p') f) /\
    kept (pages s) (pages s') b /\
    weight 0 (vm_freelist s') + 2 ^ order p' = weight 0 (vm_freelist s) + 2 ^ order p) as Hstop.
  { exists b, p, s. split_and!; try done; [intros; by left| |by intros x q [? _]].
    intros f. split; [|by intros [? _]]. auto. }
  cbn [free_merge]. pose proof Hb as [Hb1 Hbr]. unfold page at 1. rewrite Hb1. cbn [deref rbind].
  destruct (Z.ltb_spec (order p) VM_PHYS_ORDER_MAX) as [Hlt|]; [|exact Hstop].
  pose proof (sh_seg _ _ (bi_shape _ _ _ Hi) _ _ Hb1) as (Eseg & Hsr & sg' & Hsg' & Hin & Hb2).
  assert (sg' = sg) as -> by congruence.
  pose proof (sh_segs _ _ (bi_shape _ _ _ Hi) _ _ Hsg) as (Hst & Hsz & Hmax).
  destruct (sh_head _ _ (bi_shape _ _ _ Hi) b p sg Hb Hsg) as (Hal & _ & _).
  unfold vm_page_addr, page at 1, segment. rewrite Hb1. cbn [deref rbind]. rewrite Eseg.
  rewrite (proj2 (Z.ltb_lt _ _)) by lia. rewrite Hsg. cbn [deref rbind]. rewrite Hin. cbn [rbind].
  assert (vm_page_num p = 2 ^ order p) as ->.
  { unfold vm_page_num. rewrite Z.shiftl_1_l. apply u32_small. pose proof (pow2_pos (order p)).
    split; [lia|]. apply Z.pow_lt_mono_r; ordlia. }
  set (a := start sg + b.2) in *. set (o := order p) in *.
  destruct (first_buddy a o ltac:(lia) ltac:(unfold a; lia) Hal) as (Hfirst & _ & _).
  set (c := Z.lxor a (2 ^ o)) in *. cbv zeta in Hfirst. fold c in Hfirst.
  destruct ((c <? start sg) || (start sg + size sg <=? c)) eqn:Ec; [exact Hstop|]. bool_props.
  set (buddy := (b.1, c - start sg)).
  destruct (sh_dom _ _ (bi_shape _ _ _ Hi) b.1 (c - start sg) sg Hsg Hsr Hin ltac:(lia)) as [q Hq].
  change (b.1, c - start sg) with buddy in Hq. unfold page at 1. rewrite Hq. cbn [deref rbind].
  destruct (negb (order q =? o) || negb (vm_page_is_free q)) eqn:Eq; [exact Hstop|].
  bool_props. assert (order q = o) as Eqo by done.
  assert (is_head (pages s) buddy q) as Hbud by (split; [done|unfold o in *; lia]).
  destruct (vm_freelist_rem_spec s buddy q Hi Hbud) as (s1 & -> & Hi1 & Hr1 & Hp1 & Hw1 & Hf1); [done|].
  cbn [rbind]. assert (buddy <> b) as Hne.
  { intros E. destruct Hb as [Hb _]. rewrite E in Hq. congruence. }
  unfold page. rewrite Hp1, lookup_insert_eq. cbn [deref rbind put set_pages pages].
  rewrite lookup_insert_ne by done. rewrite Hp1, lookup_insert_ne by done. rewrite Hb1. cbn [deref rbind].
  assert (is_head (pages s1) b p) as Hb' by (split; [by rewrite Hp1, lookup_insert_ne|done]).
  assert (is_head (pages s1) buddy (vm_page_set_state q VM_PG_NORMAL)) as Hbud'
    by (split; [by rewrite Hp1, lookup_insert_eq|simpl; apply Hbud]).
  destruct (join_spec s1 b buddy p (vm_page_set_state q VM_PG_NORMAL) o Hi1 Hb' Hbud')
    as (r & Hr & Hi2 & Hh2 & Hnf2 & Hblk & Hfp2); try done; [apply is_free_set_normal| |].
  { intros sg' E'. rewrite (proj1 Hr1) in E'. assert (sg' = sg) as -> by congruence.
    unfold buddy. simpl. fold a c. lia. }
  set (lo := (b.1, Z.min b.2 buddy.2)) in *.
  assert ((b.1, Z.land c (u32 (Z.lnot (u32 (Z.shiftl (2 ^ o) 1) - 1))) - start sg) = lo) as ->.
  { rewrite land_first by (unfold o in *; ordlia). rewrite Hfirst. unfold lo, buddy. simpl. f_equal. unfold a. lia. }
  rewrite <- Hp1. rewrite Hr. cbn [deref rbind].
  change b.1 with lo.1.
  match goal with |- context [free_merge fuel ?x sg lo.1 lo] => set (s2 := x) end.
  assert (s2 = set_pages s1 (<[lo:=set_order r (o + 1)]>
    (<[b:=set_order p VM_PHYS_ORDER_NONE]>
      (<[buddy:=set_order (vm_page_set_state q VM_PG_NORMAL) VM_PHYS_ORDER_NONE]> (pages s1))))) as Es2 by done.
  rewrite <- Es2 in *.
  destruct (IH s2 lo (set_order r (o + 1)) Hi2 Hh2 Hnf2) as (b' & p' & s' & Hrun & Hi' & Hrest' & Hh' & Hnf' & Hsub & Hsup & Hfp' & Hk' & Hw').
  { change (vm_physegs s1 !! Z.to_nat b.1 = Some sg). by rewrite (proj1 Hr1). }
  { simpl. ordlia. }
  simpl order in *. exists b', p', s'. split; [exact Hrun|]. split; [done|]. split.
  { eapply same_rest_trans; [exact Hr1|exact Hrest']. }
  assert (forall f, in_block buddy o f -> free_page (pages s) f) as Hbf.
  { intros f Hin'. exists buddy, q. rewrite Eqo. done. }
  rewrite Eqo in Hf1, Hw1.
  split; [done|]. split; [done|]. split; [|split; [|split; [|split]]].
  - intros f Hin'. apply Hsub, Hblk. by left.
  - intros f [Hin'|Hin']%Hsup.
    + apply Hblk in Hin' as [?|?]; [by left|right; auto].
    + apply Hfp2, Hf1 in Hin' as [? _]. by right.
  - intros f. rewrite Hfp', Hfp2, Hf1. split; [naive_solver|]. intros [Hx1 Hx2]. split_and!; [done| |done].
    intros Hin'. apply Hx2, Hsub, Hblk. by right.
  - intros x r0 Hx Hxf Hxb. assert (x <> buddy) as Hxc by (intros ->; destruct Hx; congruence).
    assert (x <> lo) as Hxl.
    { intros ->. destruct (decide (b.2 <= buddy.2)) as [Hle|Hle].
      - apply Hxb. unfold lo. rewrite Z.min_l by done. by destruct b.
      - apply Hxc. unfold lo. rewrite Z.min_r by lia. done. }
    apply Hk'; [|done|done]. destruct Hx as [Hx Hxr]. split; [|done].
    rewrite Es2. simpl. by rewrite !lookup_insert_ne, Hp1, lookup_insert_ne.
  - rewrite Hw'. change (weight 0 (vm_freelist s2)) with (weight 0 (vm_freelist s1)). rewrite Hw1.
    rewrite pow2_S by (unfold o; lia). lia.
Qed.

(** ** Counting *)

Definition cover (bo : pgptr * Z) : list pgptr := (fun j => (bo.1.1, bo.1.2 + j)) <$> seqZ 0 (2 ^ bo.2).

Fixpoint blocks (o : Z) (fl : list (list pgptr)) : list (pgptr * Z) :=
  match fl with
  | [] => []
  | l :: fl => ((fun b => (b, o)) <$> l) ++ blocks (o + 1) fl
  end.

Lemma elem_of_cover bo f : 0 <= bo.2 -> f ∈ cover bo <-> in_block bo.1 bo.2 f.
Proof.
  intros Ho. unfold cover, in_block. rewrite list_elem_of_fmap. pose proof (pow2_pos bo.2 Ho). split.
  - intros (j & -> & Hj). apply elem_of_seqZ in Hj. simpl. split; [done|lia].
  - intros [E Hj]. exists (f.2 - bo.1.2). rewrite elem_of_seqZ. split; [|lia].
    destruct f; simpl in *. f_equal; [done|lia].
Qed.

Lemma NoDup_cover bo : NoDup (cover bo).
Proof. apply NoDup_fmap_2; [|apply NoDup_seqZ]. intros x y [=]. lia. Qed.

Lemma length_cover bo : 0 <= bo.2 -> Z.of_nat (length (cover bo)) = 2 ^ bo.2.
Proof.
  intros Ho. unfold cover. rewrite length_fmap, length_seqZ. pose proof (pow2_pos bo.2 Ho). lia.
Qed.

Lemma elem_of_blocks o fl b c : 0 <= o -> (b, c) ∈ blocks o fl <->
  exists i l, fl !! i = Some l /\ b ∈ l /\ c = o + Z.of_nat i.
Proof.
  revert o. induction fl as [|l fl IH]; intros o Ho; simpl.
  { split; [intros H; by apply not_elem_of_nil in H|]. by intros (i & l & Hl & _). }
  rewrite elem_of_app, list_elem_of_fmap, IH by lia. split.
  - intros [(x & [= -> ->] & Hx)|(i & l' & Hl' & Hb & ->)].
    + exists O, l. split_and!; [done|done|lia].
    + exists (S i), l'. split_and!; [done|done|lia].
  - intros ([|i] & l' & Hl' & Hb & ->); simpl in *.
    + left. injection Hl' as ->. exists b. split; [f_equal; lia|done].
    + right. exists i, l'. split_and!; [done|done|lia].
Qed.

Lemma NoDup_blocks o fl : 0 <= o -> (forall i l, fl !! i = Some l -> NoDup l) -> NoDup (blocks o fl).
Proof.
  revert o. induction fl as [|l fl IH]; intros o Ho Hnd; simpl; [constructor|].
  apply NoDup_app. split_and!.
  - apply NoDup_fmap_2; [by intros x y [=]|]. by apply (Hnd O).
  - intros [b c] Hb Hb'. apply list_elem_of_fmap in Hb as (x & [= -> ->] & _).
    apply elem_of_blocks in Hb' as (i & l' & _ & _ & E); lia.
  - apply IH; [lia|]. intros i l' Hl'. by apply (Hnd (S i)).
Qed.

Lemma length_blocks o fl : 0 <= o ->
  Z.of_nat (length (concat (cover <$> blocks o fl))) = weight o fl.
Proof.
  revert o. induction fl as [|l fl IH]; intros o Ho; simpl; [done|].
  rewrite fmap_app, concat_app, length_app, Nat2Z.inj_add, IH by lia. f_equal.
  clear IH. induction l as [|b l IH]; [simpl; lia|]. rewrite !fmap_cons. cbn [concat].
  rewrite length_app, Nat2Z.inj_add, IH, length_cover by done. simpl length. simpl snd. lia.
Qed.

(** Blocks that are different heads share no page. *)
Lemma NoDup_concat_cover m segs bl : shape m segs -> NoDup bl ->
  (forall b o, (b, o) ∈ bl -> exists p, is_head m b p /\ order p = o) ->
  NoDup (concat (cover <$> bl)).
Proof.
  intros Hs. induction bl as [|[b o] bl IH]; intros Hnd Hall; simpl; [constructor|].
  apply NoDup_cons in Hnd as [Hb Hnd]. apply NoDup_app. split_and!.
  - apply NoDup_cover.
  - intros f Hf Hf'. apply list_elem_of_In, in_concat in Hf' as (x & Hx & Hf').
    apply list_elem_of_In, list_elem_of_fmap in Hx as ([b' o'] & -> & Hbl).
    destruct (Hall b o (list_elem_of_here _ _)) as (p & Hh & Eo).
    destruct (Hall b' o' (list_elem_of_further _ _ _ Hbl)) as (p' & Hh' & Eo').
    apply elem_of_cover in Hf; [|simpl; destruct Hh; lia].
    apply list_elem_of_In, elem_of_cover in Hf'; [|simpl; destruct Hh'; lia]. simpl in *. subst o o'.
    assert (b = b') as -> by (by eapply heads_disjoint). destruct Hh as [Hh _], Hh' as [Hh' _].
    assert (p = p') as -> by congruence. done.
  - apply IH; [done|]. intros b' o' H'. apply Hall. by apply list_elem_of_further.
Qed.

Lemma NoDup_length_size (m : gmap pgptr vm_page_t) (l : list pgptr) : NoDup l -> (forall x, x ∈ l -> is_Some (m !! x)) ->
  (length l <= base.size m)%nat.
Proof.
  intros Hnd Hin. rewrite <- (size_list_to_set (C := gset pgptr) l Hnd), <- size_dom.
  apply subseteq_size. intros x Hx. apply elem_of_dom, Hin. by apply elem_of_list_to_set in Hx.
Qed.

(** The free memory and a block that is in use fit the pages that exist. *)
Lemma weight_bound s b p : pinv s -> is_head (pages s) b p -> vm_page_is_free p = false ->
  weight 0 (vm_freelist s) + 2 ^ order p <= Z.of_nat (base.size (pages s)).
Proof.
  intros Hi Hb Hnf. pose proof (bi_lists _ _ _ Hi) as Hl. pose proof (bi_shape _ _ _ Hi) as Hs.
  set (bl := (b, order p) :: blocks 0 (vm_freelist s)).
  assert (forall b' o', (b', o') ∈ bl -> exists p', is_head (pages s) b' p' /\ order p' = o') as Hall.
  { intros b' o' [[= -> ->]|Hin]%elem_of_cons; [eauto|]. apply elem_of_blocks in Hin as (i & l & Hli & Hin & ->); [|lia].
    pose proof (lookup_lt_Some _ _ _ Hli) as Hlt. rewrite (li_len _ _ Hl) in Hlt.
    apply (li_list _ _ Hl _ _ _ Hli) in Hin as (q & Hq & Hqf & Hqo). exists q. split; [split; [done|ordlia]|lia]. }
  assert (NoDup bl) as Hnd.
  { apply NoDup_cons. split; [|apply NoDup_blocks; [lia|apply (li_nodup _ _ Hl)]].
    intros Hin. apply elem_of_blocks in Hin as (i & l & Hli & Hin & E); [|lia].
    apply (li_list _ _ Hl _ _ _ Hli) in Hin as (q & Hq & Hqf & Hqo). destruct Hb as [Hb _]. congruence. }
  pose proof (NoDup_concat_cover _ _ bl Hs Hnd Hall) as Hcat.
  assert (length (concat (cover <$> bl)) <= base.size (pages s))%nat as Hlen.
  { apply NoDup_length_size; [done|]. intros f Hf. apply list_elem_of_In, in_concat in Hf as (x & Hx & Hf).
    apply list_elem_of_In, list_elem_of_fmap in Hx as ([b' o'] & -> & Hbl).
    destruct (Hall b' o' Hbl) as (q & Hq & <-). apply list_elem_of_In, elem_of_cover in Hf as [E Hr]; [|apply Hq].
    simpl in *. pose proof (sh_seg _ _ Hs _ _ (proj1 Hq)) as (_ & Hr1 & sg & Hsg & Hin & Hb2).
    destruct (sh_head _ _ Hs b' q sg Hq Hsg) as (_ & Hend & _).
    replace f with (b'.1, f.2) by (destruct f; simpl in *; congruence).
    eapply (sh_dom _ _ Hs); [done|done|done|lia]. }
  apply Nat2Z.inj_le in Hlen. unfold bl in Hlen. rewrite fmap_cons in Hlen. cbn [concat] in Hlen.
  rewrite length_app, Nat2Z.inj_add, length_blocks, length_cover in Hlen by (lia || apply Hb). simpl in Hlen. lia.
Qed.

(** ** The whole allocator *)

(** The pressure counter agrees with the free lists, in bytes. *)
Record sinv (s : phys) : Prop := {
  si_pinv : pinv s;
  si_pr : pr_ok (pressure s);
  si_mem : exists mem, vm_pr_mem (pressure s) !! 1%nat = Some mem /\
    free mem = PAGE_SZ * weight 0 (vm_freelist s) /\
    PAGE_SZ * Z.of_nat (base.size (pages s)) <= total mem;
}.

Lemma weight_zero fl o : 0 <= o -> (forall i l, fl !! i = Some l -> l = []) -> weight o fl = 0.
Proof.
  revert o. induction fl as [|l fl IH]; intros o Ho Hall; simpl; [done|].
  rewrite (Hall O l eq_refl), IH; [simpl; lia|lia|]. intros i. apply (Hall (S i)).
Qed.

(** The segments determine which pages exist. *)
Lemma pinv_size s s' : pinv s -> pinv s' -> vm_physegs s' = vm_physegs s ->
  base.size (pages s') = base.size (pages s).
Proof.
  intros Hi Hi' Eseg. rewrite <- !size_dom. f_equal. apply set_eq. intros [i j].
  rewrite !elem_of_dom.
  assert (forall s, pinv s -> is_Some (pages s !! (i, j)) <-> 0 <= i < VM_PHYSEG_NUM /\
    exists sg, vm_physegs s !! Z.to_nat i = Some sg /\ inited sg = true /\ 0 <= j < size sg) as Hdom.
  { intros s0 H0. split.
    - intros [p Hp]. pose proof (sh_seg _ _ (bi_shape _ _ _ H0) _ _ Hp) as (_ & ? & ?). done.
    - intros (Hr & sg & Hsg & Hin & Hj). by eapply (sh_dom _ _ (bi_shape _ _ _ H0)). }
  by rewrite !Hdom, Eseg.
Qed.

Lemma page_size_pow2 o : 0 <= o <= VM_PHYS_ORDER_MAX ->
  u32 (Z.shiftl 1 (o + PAGE_SHIFT)) = PAGE_SZ * 2 ^ o /\ 0 < PAGE_SZ * 2 ^ o <= 2 ^ 22.
Proof.
  intros Ho. rewrite Z.shiftl_1_l, Z.pow_add_r by (unfold PAGE_SHIFT; lia).
  assert (0 < 2 ^ o <= 2 ^ 10) by (split; [apply pow2_pos; lia|apply Z.pow_le_mono_r; ordlia]).
  unfold PAGE_SZ, PAGE_SHIFT. rewrite u32_small by lia. lia.
Qed.

Lemma vm_page_alloc_order_spec s o : sinv s -> 0 <= o <= VM_PHYS_ORDER_MAX ->
  match vm_page_alloc_order s o with
  | Done (None, s') => s' = s /\ weight 0 (vm_freelist s) < 2 ^ o
  | Done (Some b, s') => sinv s' /\ vm_physegs s' = vm_physegs s /\ vm_phys_rsv s' = vm_phys_rsv s /\
      kept (pages s) (pages s') b /\
      (exists p, is_head (pages s') b p /\ order p = o /\ vm_page_is_free p = false) /\
      (forall f, in_block b o f -> free_page (pages s) f) /\
      (forall f, free_page (pages s') f <-> free_page (pages s) f /\ ~ in_block b o f)
  | Panic => 2 ^ o <= weight 0 (vm_freelist s) /\
      forall i l, o <= Z.of_nat i -> vm_freelist s !! i = Some l -> l = []
  | _ => False
  end.
Proof.
  intros [Hi Hpr (mem & Hmem & Hfree & Htot)] Ho. unfold vm_page_alloc_order.
  destruct (page_size_pow2 o Ho) as [-> Hsz].
  pose proof (Forall_lookup_1 _ _ _ _ (ok_mem _ Hpr) Hmem) as (Hfr & Ht & Hth & _).
  unfold vm_mem_wait_p, VM_PR_MEM_PHYS. change (Z.to_nat 1) with 1%nat. rewrite Hmem. cbn [deref rbind].
  rewrite Hth, Z.add_0_r, u64_small by lia.
  destruct (Z.ltb_spec (free mem) (PAGE_SZ * 2 ^ o)) as [Hlt|Hge].
  { split; [done|]. unfold PAGE_SZ, PAGE_SHIFT in *. lia. }
  assert (2 ^ o <= weight 0 (vm_freelist s)) as Hw by (unfold PAGE_SZ, PAGE_SHIFT in *; lia).
  pose proof (alloc_find_spec (Z.to_nat (VM_PHYS_ORDER_NUM - o)) s o Hi ltac:(lia) ltac:(ordlia)) as Hfind.
  destruct (alloc_find _ s o) as [[[b|] s1]| | |]; try done; cbn [rbind].
  2:{ destruct Hfind as [_ Hfind]. done. }
  destruct Hfind as (c & Hc & Htk).
  destruct (alloc_split_spec (Z.to_nat VM_PHYS_ORDER_NUM) s s1 b c o Htk) as (s2 & -> & Htk2); [lia|ordlia|].
  cbn [rbind]. destruct Htk2 as (Hi2 & (Eseg & Ersv & _ & Epr) & Hkept & Hhead & Hw2 & Hall & Hfp).
  pose proof (pinv_size _ _ Hi Hi2 Eseg) as Hsize.
  unfold vm_pressure_inc. rewrite (proj2 (Z.ltb_lt _ _)) by (unfold INT64_MAX; lia). rewrite Epr.
  destruct (vm_pressure_add_spec (pressure s) 1 mem (- (PAGE_SZ * 2 ^ o)) Hpr Hmem)
    as (pr' & mem' & -> & Hpr' & Hmems & Hf' & Ht' & _); [lia|lia|]. cbn [rbind].
  split; [|split_and!; done]. split; [done|done|]. exists mem'. simpl. rewrite Hmems.
  rewrite list_lookup_insert_eq by (by eapply lookup_lt_Some). split_and!; [done| |].
  - rewrite Hf', Hfree, Hw2. lia.
  - rewrite Ht', Hsize. done.
Qed.

Lemma vm_page_free_spec s b p : sinv s -> is_head (pages s) b p -> vm_page_is_free p = false ->
  pincnt p = 0 -> Z.land (flags p) (Z.lnot VM_PG_STATE_MASK) = 0 ->
  exists s', vm_page_free s b = Done s' /\ sinv s' /\ vm_physegs s' = vm_physegs s /\
    vm_phys_rsv s' = vm_phys_rsv s /\ kept (pages s) (pages s') b /\
    forall f, free_page (pages s') f <-> free_page (pages s) f \/ in_block b (order p) f.
Proof.
  intros [Hi Hpr (mem & Hmem & Hfree & Htot)] Hb Hnf Hpin Hfl. unfold vm_page_free.
  pose proof Hb as [Hb1 Hbr]. pose proof (sh_seg _ _ (bi_shape _ _ _ Hi) _ _ Hb1) as (Es & Hsr & sg & Hsg & _).
  unfold page, segment. rewrite Hb1. cbn [deref rbind]. rewrite Es, Hsg. cbn [deref rbind].
  rewrite Hnf, Hpin, Hfl. cbn [negb Z.eqb]. unfold vm_page_size. rewrite Z.add_comm.
  destruct (page_size_pow2 (order p)) as [-> Hsz]; [ordlia|].
  unfold vm_pressure_dec, VM_PR_MEM_PHYS. rewrite (proj2 (Z.ltb_lt _ _)) by (unfold INT64_MAX; lia).
  pose proof (weight_bound s b p Hi Hb Hnf) as Hwb. pose proof (weight_nonneg (vm_freelist s) 0 ltac:(lia)).
  destruct (vm_pressure_add_spec (pressure s) 1 mem (PAGE_SZ * 2 ^ order p) Hpr Hmem)
    as (pr' & mem' & -> & Hpr' & Hmems & Hf' & Ht' & _); [lia|unfold PAGE_SZ, PAGE_SHIFT in *; lia|]. cbn [rbind].
  destruct (free_merge_spec (Z.to_nat VM_PHYS_ORDER_NUM) (set_pressure s pr') b p sg Hi Hb Hnf Hsg)
    as (b' & p' & s1 & -> & Hi1 & Hrest1 & Hh1 & Hnf1 & Hsub & Hsup & Hfp1 & Hk1 & Hw1); [ordlia|]. cbn [rbind].
  destruct (vm_freelist_add_spec s1 b' p' Hi1 Hh1 Hnf1) as (s2 & -> & Hi2 & Hrest2 & Hp2 & Hw2 & Hfp2).
  pose proof (same_rest_trans _ _ _ Hrest1 Hrest2) as (Eseg & Ersv & _ & Epr).
  exists s2. split; [done|]. split; [|split; [done|split; [done|split]]].
  - split; [done|by rewrite Epr|]. exists mem'. rewrite Epr. simpl. rewrite Hmems.
    rewrite list_lookup_insert_eq by (by eapply lookup_lt_Some). split_and!; [done| |].
    + rewrite Hf', Hfree, Hw2. simpl in Hw1. lia.
    + by rewrite Ht', (pinv_size s s2 Hi Hi2 Eseg).
  - intros x r Hx Hxf Hxb. rewrite Hp2. pose proof (Hk1 x r Hx Hxf Hxb) as Hx1.
    assert (x <> b'); [|by rewrite lookup_insert_ne]. intros ->.
    destruct (Hsup b') as [Hin|Hin].
    { pose proof (pow2_pos (order p') ltac:(apply Hh1)). split; [done|lia]. }
    + apply Hxb. apply (heads_disjoint (pages s) (vm_physegs s) b' r b p b'); try done; [apply Hi|].
      pose proof (pow2_pos (order r) ltac:(apply Hx)). split; [done|lia].
    + destruct Hin as (h & q & Hh & Hqf & Hqin). assert (h = b') as ->.
      { apply (heads_disjoint (pages s) (vm_physegs s) h q b' r b'); try done; [apply Hi|].
        pose proof (pow2_pos (order r) ltac:(apply Hx)). split; [done|lia]. }
      destruct Hh as [Hh _], Hx as [Hx _]. simpl in *. congruence.
  - intros f. rewrite Hfp2, Hfp1. simpl. split; [|].
    + intros [[? _]|Hin]; [by left|]. apply Hsup in Hin as [?|?]; auto.
    + intros [Hf|Hin]; [|right; auto]. destruct (decide (in_block b' (order p') f)); auto.
Qed.

(** A page in use that its owner may modify: flags and pins. *)
Lemma use_page s b p p' : sinv s -> is_head (pages s) b p -> vm_page_is_free p = false ->
  shape_of p' = shape_of p -> vm_page_is_free p' = false -> sinv (put s b p') /\
  forall f, free_page (pages (put s b p')) f <-> free_page (pages s) f.
Proof.
  intros [Hi Hpr Hm] Hb Hnf Esh Hnf'. injection Esh as Eo Es. pose proof Hb as [Hb1 Hbr].
  assert (forall x r, vm_page_is_free r = true -> pages s !! x = Some r <-> pages (put s b p') !! x = Some r) as Hfree.
  { intros x r Hr. simpl. destruct (decide (b = x)) as [<-|]; [|by rewrite lookup_insert_ne].
    rewrite lookup_insert_eq, Hb1. split; intros [= <-]; congruence. }
  assert (pinv (put s b p')) as Hi'.
  { split; simpl.
    - eapply shape_ext; [apply Hi|]. apply (shape_of_insert _ b p); [done|]. unfold shape_of. congruence.
    - eapply lists_regroup; [apply Hi|exact Hfree]. }
  split.
  - split; [done|done|]. destruct Hm as (mem & H1 & H2 & H3). exists mem. split_and!; [done|done|].
    by rewrite (pinv_size s _ Hi Hi').
  - intros f. symmetry. by apply free_page_regroup.
Qed.

(** ** Clients *)

(** Kernel code that allocates single pages, uses them and gives them back:
    [held] are the pages it owns. *)
Inductive client : phys -> list pgptr -> phys -> list pgptr -> Prop :=
| client_alloc s held b s' : vm_page_alloc s = Done (Some b, s') -> client s held s' (b :: held)
| client_full s held s' : vm_page_alloc s = Done (None, s') -> client s held s' held
| client_use s held b p p' : b ∈ held -> pages s !! b = Some p -> shape_of p' = shape_of p ->
    vm_page_is_free p' = false -> client s held (put s b p') held
| client_free s held b p s' : b ∈ held -> pages s !! b = Some p -> pincnt p = 0 ->
    Z.land (flags p) (Z.lnot VM_PG_STATE_MASK) = 0 -> vm_page_free s b = Done s' ->
    client s held s' (filter (fun x => x <> b) held).

Inductive clients (s0 : phys) : phys -> list pgptr -> Prop :=
| clients_nil : clients s0 s0 []
| clients_step s held s' held' : clients s0 s held -> client s held s' held' -> clients s0 s' held'.

Record cinv (s : phys) (held : list pgptr) : Prop := {
  ci_sinv : sinv s;
  ci_nodup : NoDup held;
  ci_held : forall b, b ∈ held -> exists p, is_head (pages s) b p /\ order p = 0 /\ vm_page_is_free p = false;
}.

(** Order 0: there is a block whenever there is free memory. *)
Lemma vm_page_alloc_spec s : sinv s ->
  match vm_page_alloc s with
  | Done (None, s') => s' = s /\ weight 0 (vm_freelist s) = 0
  | Done (Some b, s') => sinv s' /\ kept (pages s) (pages s') b /\
      (exists p, is_head (pages s') b p /\ order p = 0 /\ vm_page_is_free p = false) /\
      free_page (pages s) b /\ (forall f, free_page (pages s') f <-> free_page (pages s) f /\ f <> b)
  | _ => False
  end.
Proof.
  intros Hs. pose proof (vm_page_alloc_order_spec s 0 Hs ltac:(ordlia)) as Hspec. unfold vm_page_alloc.
  assert (forall b f : pgptr, in_block b 0 f <-> f = b) as Hone.
  { intros [b1 b2] [f1 f2]. unfold in_block. simpl. split; [intros [-> ?]; f_equal; lia|intros [= -> ->]; lia]. }
  destruct (vm_page_alloc_order s 0) as [[[b|] s']| | |]; try done.
  - destruct Hspec as (Hs' & _ & _ & Hk & Hp & Hall & Hfp). split_and!; try done.
    + apply Hall. by apply Hone.
    + intros f. by rewrite Hfp, Hone.
  - destruct Hspec as [-> Hw]. pose proof (weight_nonneg (vm_freelist s) 0 ltac:(lia)).
    split; [done|]. change (2 ^ 0) with 1 in Hw. lia.
  - destruct Hspec as [Hw Hall]. rewrite weight_zero in Hw; [|lia|].
    + change (2 ^ 0) with 1 in Hw. lia.
    + intros i l. apply Hall. lia.
Qed.

Lemma head_not_free s b p : pinv s -> is_head (pages s) b p -> vm_page_is_free p = false ->
  ~ free_page (pages s) b.
Proof.
  intros Hi Hb Hnf (h & q & Hh & Hq & Hin). assert (h = b) as ->.
  { eapply heads_disjoint; [apply Hi|done|done|done|]. pose proof (pow2_pos (order p) ltac:(apply Hb)).
    split; [done|lia]. }
  destruct Hh as [Hh _], Hb as [Hb _]. congruence.
Qed.

Lemma client_cinv s held s' held' : cinv s held -> client s held s' held' -> cinv s' held'.
Proof.
  intros [Hs Hnd Hheld] Hc.
  destruct Hc as [s held b s' Ha|s held s' Ha|s held b p p' Hb Hp Esh Hf|s held b p s' Hb Hp Hpin Hfl Hr].
  - pose proof (vm_page_alloc_spec s Hs) as Hspec. rewrite Ha in Hspec.
    destruct Hspec as (Hs' & Hk & Hbh & Hbf & Hfp). split; [done| |].
    + apply NoDup_cons. split; [|done]. intros Hin. destruct (Hheld b Hin) as (p & Hp & _ & Hnf).
      by apply (head_not_free s b p (si_pinv _ Hs) Hp Hnf).
    + intros x [->|Hx]%elem_of_cons; [done|]. destruct (Hheld x Hx) as (p & Hp & Ho & Hnf).
      exists p. destruct (decide (x = b)) as [->|Hn].
      * exfalso. by apply (head_not_free s b p (si_pinv _ Hs) Hp Hnf).
      * split_and!; [|done|done]. split; [by apply Hk|apply Hp].
  - pose proof (vm_page_alloc_spec s Hs) as Hspec. rewrite Ha in Hspec. by destruct Hspec as [-> _].
  - destruct (Hheld b Hb) as (q & Hq & Ho & Hnf). assert (q = p) as -> by (destruct Hq; congruence).
    destruct (use_page s b p p' Hs Hq Hnf) as [Hs' _]; [done|done|]. split; [done|done|].
    injection Esh as Eo Es. intros x Hx. simpl. unfold is_head. destruct (decide (b = x)) as [<-|Hn].
    + exists p'. rewrite lookup_insert_eq, Eo. destruct Hq as [_ Hq]. split_and!; (done || lia).
    + destruct (Hheld x Hx) as (r & Hr & ?). exists r. by rewrite lookup_insert_ne.
  - destruct (Hheld b Hb) as (q & Hq & Ho & Hnf). assert (q = p) as -> by (destruct Hq; congruence).
    destruct (vm_page_free_spec s b p Hs Hq Hnf) as (s1 & Hr1 & Hs' & _ & _ & Hk & _); [done|done|].
    assert (s1 = s') as -> by congruence. split; [done|by apply NoDup_filter|].
    intros x [Hxb Hx]%list_elem_of_filter. destruct (Hheld x Hx) as (r & Hr' & Hor & Hnfr).
    exists r. split_and!; [|done|done]. split; [by apply Hk|apply Hr'].
Qed.

Lemma clients_cinv s0 s held : sinv s0 -> clients s0 s held -> cinv s held.
Proof.
  intros H0. induction 1 as [|s held s' held' _ IH Hc]; [split; [done|constructor|]|by eapply client_cinv].
  intros b Hb. by apply not_elem_of_nil in Hb.
Qed.

(** C1: no page is handed out twice.  Whatever clients do with pages they own,
    the pages they own are pairwise different and not free; the next
    allocation returns (it neither panics nor touches a page that does not
    exist), with a page that was free and is owned by nobody, or with NULL only
    when no page is free; and freeing an owned page that is unpinned and has no
    flags set returns and makes exactly this page free. *)
Theorem phys_no_double_alloc s0 s held : sinv s0 -> clients s0 s held ->
  NoDup held /\ (forall b, b ∈ held -> ~ free_page (pages s) b) /\
  match vm_page_alloc s with
  | Done (Some b, s') => b ∉ held /\ free_page (pages s) b /\
      (forall f, free_page (pages s') f <-> free_page (pages s) f /\ f <> b)
  | Done (None, s') => s' = s /\ forall f, ~ free_page (pages s) f
  | _ => False
  end /\
  (forall b p, b ∈ held -> pages s !! b = Some p -> pincnt p = 0 ->
     Z.land (flags p) (Z.lnot VM_PG_STATE_MASK) = 0 ->
     exists s', vm_page_free s b = Done s' /\
       forall f, free_page (pages s') f <-> free_page (pages s) f \/ f = b).
Proof.
  intros H0 Hc. destruct (clients_cinv s0 s held H0 Hc) as [Hs Hnd Hheld].
  assert (forall b, b ∈ held -> ~ free_page (pages s) b) as Hnf.
  { intros b Hb. destruct (Hheld b Hb) as (p & Hp & _ & Hf). by apply (head_not_free s b p (si_pinv _ Hs)). }
  split; [done|]. split; [done|]. split.
  - pose proof (vm_page_alloc_spec s Hs) as Hspec.
    destruct (vm_page_alloc s) as [[[b|] s']| | |]; try done.
    + destruct Hspec as (_ & _ & _ & Hbf & Hfp). split_and!; [|done|done]. intros Hb. by apply (Hnf b Hb).
    + destruct Hspec as [-> Hw]. split; [done|]. intros f (b & p & Hb & Hpf & Hin).
      destruct (freelist_lookup s b p (si_pinv _ Hs) Hb) as [l Hl].
      pose proof (proj2 (in_freelist s b p l (si_pinv _ Hs) Hb Hl) Hpf) as Hbl.
      destruct l as [|x l]; [by apply not_elem_of_nil in Hbl|].
      pose proof (weight_insert _ _ _ [] 0 Hl ltac:(lia)) as Hwi. rewrite Hw in Hwi.
      pose proof (weight_nonneg (<[Z.to_nat (order p) := []]> (vm_freelist s)) 0 ltac:(lia)).
      pose proof (pow2_pos (0 + Z.of_nat (Z.to_nat (order p))) ltac:(lia)). simpl length in Hwi. nia.
  - intros b p Hb Hp Hpin Hfl. destruct (Hheld b Hb) as (q & Hq & Ho & Hf).
    assert (q = p) as -> by (destruct Hq; congruence).
    destruct (vm_page_free_spec s b p Hs Hq Hf Hpin Hfl) as (s' & Hr & _ & _ & _ & _ & Hfp).
    exists s'. split; [done|]. intros f. rewrite Hfp, Ho. destruct b, f. unfold in_block. simpl.
    split; (intros [?|?]; [by left|right]); [f_equal; lia|simplify_eq; lia].
Qed.

(** ** Start-up *)

Lemma physeg_init_loop_lookup n m segno i x :
  physeg_init_loop n m segno i !! x =
  if decide (x.1 = segno /\ i <= x.2 < i + Z.of_nat n) then Some (vm_page_init segno) else m !! x.
Proof.
  revert m i. induction n as [|n IH]; intros m i; cbn [physeg_init_loop].
  { case_decide; [lia|done]. }
  rewrite IH, lookup_insert. clear IH. destruct x as [x1 x2]. cbn [fst snd].
  destruct (decide (x1 = segno /\ i <= x2 < i + Z.of_nat (S n))) as [[-> H1]|H1].
  - destruct (decide (i = x2)) as [->|Hn].
    + rewrite decide_False by lia. by rewrite decide_True.
    + rewrite decide_True by lia. done.
  - rewrite !decide_False; [done| |lia]. intros [=]. lia.
Qed.

(** A segment whose pages were just created: every page is a block in use. *)
Lemma physeg_pages_pinv s segno sg : pinv s -> 0 <= segno < VM_PHYSEG_NUM ->
  vm_physegs s !! Z.to_nat segno = Some sg -> inited sg = false ->
  let m := physeg_init_loop (Z.to_nat (size sg)) (pages s) segno 0 in
  let segs := <[Z.to_nat segno := Seg (start sg) (size sg) true]> (vm_physegs s) in
  binv m (vm_freelist s) segs /\ (forall f, free_page m f <-> free_page (pages s) f) /\
  (base.size m <= base.size (pages s) + Z.to_nat (size sg))%nat.
Proof.
  intros [Hs Hl] Hr Hsg Hni m segs. pose proof (sh_segs _ _ Hs _ _ Hsg) as (Hst & Hsz & Hend).
  assert (forall x, x.1 = segno -> pages s !! x = None) as Hnone.
  { intros x Ex. destruct (pages s !! x) as [p|] eqn:Ep; [|done].
    pose proof (sh_seg _ _ Hs _ _ Ep) as (_ & _ & sg' & Hsg' & Hin & _). rewrite Ex in Hsg'. congruence. }
  assert (forall x, m !! x = if decide (x.1 = segno /\ 0 <= x.2 < size sg) then Some (vm_page_init segno)
    else pages s !! x) as Hm.
  { intros x. unfold m. rewrite physeg_init_loop_lookup. replace (0 + Z.of_nat (Z.to_nat (size sg))) with (size sg) by lia. done. }
  assert (forall x p, m !! x = Some p -> (x.1 = segno /\ 0 <= x.2 < size sg /\ p = vm_page_init segno) \/
    (x.1 <> segno /\ pages s !! x = Some p)) as Hcase.
  { intros x p. rewrite Hm. case_decide as Hd; [intros [= <-]; naive_solver|]. intros Hp. right. split; [|done].
    intros E. by rewrite Hnone in Hp. }
  assert (forall x p, pages s !! x = Some p -> m !! x = Some p) as Hold.
  { intros x p Hp. rewrite Hm, decide_False; [done|]. intros [E _]. by rewrite Hnone in Hp. }
  assert (forall i, i <> Z.to_nat segno -> segs !! i = vm_physegs s !! i) as Hsegs.
  { intros i Hi. unfold segs. by rewrite list_lookup_insert_ne. }
  assert (segs !! Z.to_nat segno = Some (Seg (start sg) (size sg) true)) as Hsegn.
  { unfold segs. apply list_lookup_insert_eq. by eapply lookup_lt_Some. }
  assert (forall x p, vm_page_is_free p = true -> pages s !! x = Some p <-> m !! x = Some p) as Hfree.
  { intros x p Hp. split; [apply Hold|]. intros [(_ & _ & ->)|[_ ?]]%Hcase; done. }
  split; [split|split].
  - constructor.
    + intros b p [(_ & _ & ->)|[_ Hp]]%Hcase; [left; simpl; ordlia|by apply (sh_order _ _ Hs b)].
    + intros b p [(E & Hb & ->)|[Hn Hp]]%Hcase.
      * split_and!; [done|lia|lia|]. rewrite E, Hsegn. by eexists.
      * destruct (sh_seg _ _ Hs _ _ Hp) as (? & ? & sg' & ? & ?). split_and!; [done|lia|lia|].
        exists sg'. rewrite Hsegs by lia. done.
    + intros i j sg' Hi Hir Hin Hj. destruct (decide (i = segno)) as [->|Hn].
      * rewrite Hsegn in Hi. injection Hi as <-. simpl in Hj. rewrite Hm, decide_True by done. eauto.
      * rewrite Hsegs in Hi by lia. destruct (sh_dom _ _ Hs i j sg' Hi Hir Hin Hj) as [p Hp]. eauto.
    + intros i sg' Hi. destruct (decide (i = Z.to_nat segno)) as [->|Hn].
      * rewrite Hsegn in Hi. injection Hi as <-. done.
      * rewrite Hsegs in Hi by done. by apply (sh_segs _ _ Hs i).
    + intros b p sg' [Hp Hpr] Hsg'. destruct (Hcase b p Hp) as [(E & Hb & ->)|[Hn Hp']].
      * rewrite E, Hsegn in Hsg'. injection Hsg' as <-. simpl. rewrite Z.mod_1_r. split_and!; [done|lia|lia].
      * assert (segs !! Z.to_nat b.1 = vm_physegs s !! Z.to_nat b.1) as Eb.
        { apply Hsegs. pose proof (sh_seg _ _ Hs _ _ Hp') as (_ & ? & _). lia. }
        rewrite Eb in Hsg'. destruct (sh_head _ _ Hs b p sg' (conj Hp' Hpr) Hsg') as (Ha & He & Hj).
        split_and!; [done|done|]. intros j Hlt. destruct (Hj j Hlt) as (q & Hq & Ho). exists q. auto.
    + intros b p [(E & Hb & ->)|[Hn Hp]]%Hcase.
      * exists b, (vm_page_init segno). split; [|split; [done|simpl; lia]]. split; [|simpl; ordlia].
        by rewrite Hm, decide_True.
      * destruct (sh_cover _ _ Hs b p Hp) as (h & q & [Hh Hhr] & Hin). exists h, q.
        split; [split; [by apply Hold|done]|done].
  - eapply lists_regroup; [exact Hl|exact Hfree].
  - intros f. symmetry. by apply free_page_regroup.
  - rewrite <- !size_dom.
    assert (dom m ⊆ dom (pages s) ∪ list_to_set ((fun j => (segno, j)) <$> seqZ 0 (size sg))) as Hsub.
    { intros x Hx. apply elem_of_dom in Hx as [p Hp]. destruct (Hcase x p Hp) as [(E & Hb & _)|[_ Hp']].
      - apply elem_of_union_r, elem_of_list_to_set, list_elem_of_fmap. exists x.2.
        rewrite elem_of_seqZ. split; [destruct x; simpl in *; congruence|lia].
      - apply elem_of_union_l, elem_of_dom. eauto. }
    apply subseteq_size in Hsub. etrans; [exact Hsub|]. rewrite size_union_alt.
    apply Nat.add_le_mono_l. etrans; [apply subseteq_size, subseteq_difference_l; reflexivity|].
    rewrite size_list_to_set; [rewrite length_fmap, length_seqZ; lia|].
    apply NoDup_fmap_2; [|apply NoDup_seqZ]. by intros x y [=].
Qed.

Lemma physeg_free_loop_spec n s sg segno i : sinv s -> 0 <= i -> i + Z.of_nat n = size sg ->
  (forall j, i <= j < size sg -> pages s !! (segno, j) = Some (vm_page_init segno)) ->
  exists s', physeg_free_loop n s sg segno i = Done s' /\ sinv s' /\ vm_phys_rsv s' = vm_phys_rsv s /\
    forall f, free_page (pages s') f <-> free_page (pages s) f \/
      (f.1 = segno /\ i <= f.2 < size sg /\ vm_page_reserved s (start sg + f.2) = false).
Proof.
  revert s i. induction n as [|n IH]; intros s i Hs Hi Hn Hp; cbn [physeg_free_loop].
  { exists s. split_and!; [done|done|done|]. intros f. split; [by left|intros [?|?]; [done|lia]]. }
  destruct (vm_page_reserved s (start sg + i)) eqn:Er; cbn [negb].
  - destruct (IH s (i + 1)) as (s' & Hrun & Hs' & Hrsv & Hf); [done|lia|lia| |].
    { intros j Hj. apply Hp. lia. }
    exists s'. split_and!; [done|done|done|]. intros f. rewrite Hf. split; (intros [?|(E & Hr & Hnr)]; [by left|right]).
    + split_and!; (done || lia).
    + split_and!; try (done || lia). destruct (decide (f.2 = i)) as [E2|]; [congruence|lia].
  - assert (is_head (pages s) (segno, i) (vm_page_init segno)) as Hh by (split; [apply Hp; lia|simpl; ordlia]).
    destruct (vm_page_free_spec s (segno, i) (vm_page_init segno) Hs Hh) as (s1 & -> & Hs1 & _ & Hrsv1 & Hk1 & Hf1); try done.
    cbn [rbind]. destruct (IH s1 (i + 1)) as (s' & Hrun & Hs' & Hrsv & Hf); [done|lia|lia| |].
    { intros j Hj. apply Hk1; [split; [apply Hp; lia|simpl; ordlia]|done|]. intros [=]. lia. }
    exists s'. split_and!; [done|done|congruence|].
    assert (forall a, vm_page_reserved s1 a = vm_page_reserved s a) as Er1 by (intros a; unfold vm_page_reserved; by rewrite Hrsv1).
    intros f. rewrite Hf, Hf1, Er1. unfold in_block. simpl. change (2 ^ 0) with 1. split.
    + intros [[?|[E Hr]]|(E & Hr & Hnr)]; [by left|right|right].
      * split_and!; [done|lia|lia|]. replace f.2 with i by lia. done.
      * split_and!; (done || lia).
    + intros [?|(E & Hr & Hnr)]; [by left; left|]. destruct (decide (f.2 = i)); [left; right; split; [done|lia]|right].
      split_and!; (done || lia).
Qed.

Lemma vm_physeg_init_spec s segno sg mem : sinv s -> 0 <= segno < VM_PHYSEG_NUM ->
  vm_physegs s !! Z.to_nat segno = Some sg -> inited sg = false ->
  vm_pr_mem (pressure s) !! 1%nat = Some mem ->
  PAGE_SZ * (Z.of_nat (base.size (pages s)) + size sg) <= total mem ->
  exists s', vm_physeg_init s segno = Done s' /\ sinv s' /\
    forall f, free_page (pages s') f <-> free_page (pages s) f \/
      (f.1 = segno /\ 0 <= f.2 < size sg /\ vm_page_reserved s (start sg + f.2) = false).
Proof.
  intros [Hi Hpr (mem0 & Hm0 & Hfree & _)] Hr Hsg Hni Hmem Htot. assert (mem0 = mem) as -> by congruence.
  destruct (physeg_pages_pinv s segno sg Hi Hr Hsg Hni) as (Hi1 & Hf1 & Hsz).
  pose proof (sh_segs _ _ (bi_shape _ _ _ Hi) _ _ Hsg) as (_ & Hsz0 & _).
  unfold vm_physeg_init, segment. rewrite Hsg. cbn [deref rbind].
  match goal with |- context [physeg_free_loop _ ?x _ _ _] => set (s1 := x) end.
  assert (sinv s1) as Hs1.
  { split; [exact Hi1|done|]. exists mem. split_and!; [done|done|]. simpl. unfold PAGE_SZ, PAGE_SHIFT in *. lia. }
  destruct (physeg_free_loop_spec (Z.to_nat (size sg)) s1 (Seg (start sg) (size sg) true) segno 0 Hs1)
    as (s' & Hrun & Hs' & _ & Hf); [lia|simpl; lia| |].
  { intros j Hj. simpl. rewrite physeg_init_loop_lookup, decide_True; [done|]. simpl in *. lia. }
  exists s'. split_and!; [done|done|]. intros f. rewrite Hf. simpl. by rewrite Hf1.
Qed.

(** starting a segment.  [vm_physeg_init] frees the pages one by one, merging
    buddies; afterwards exactly the pages of the segment that are not reserved
    have become free, and the allocator is in a consistent state. *)
Theorem vm_physeg_init_frees s segno sg mem : sinv s -> 0 <= segno < VM_PHYSEG_NUM ->
  vm_physegs s !! Z.to_nat segno = Some sg -> inited sg = false ->
  vm_pr_mem (pressure s) !! 1%nat = Some mem ->
  PAGE_SZ * (Z.of_nat (base.size (pages s)) + size sg) <= total mem ->
  exists s', vm_physeg_init s segno = Done s' /\ sinv s' /\
    forall f, free_page (pages s') f <-> free_page (pages s) f \/
      (f.1 = segno /\ 0 <= f.2 < size sg /\ vm_page_reserved s (start sg + f.2) = false).
Proof. apply vm_physeg_init_spec. Qed.

(** a block of any order.  [vm_page_alloc_order] returns an aligned block of
    [2 ^ o] pages that were all free and are all taken out; it returns NULL only
    if there is less free memory than that; it panics only if no free block is
    large enough although there is enough memory. *)
Theorem vm_page_alloc_order_block s o : sinv s -> 0 <= o <= VM_PHYS_ORDER_MAX ->
  match vm_page_alloc_order s o with
  | Done (None, s') => s' = s /\ weight 0 (vm_freelist s) < 2 ^ o
  | Done (Some b, s') => sinv s' /\
      (forall sg, vm_physegs s !! Z.to_nat b.1 = Some sg ->
         (start sg + b.2) mod 2 ^ o = 0 /\ b.2 + 2 ^ o <= size sg) /\
      (forall f, in_block b o f -> free_page (pages s) f) /\
      (forall f, free_page (pages s') f <-> free_page (pages s) f /\ ~ in_block b o f)
  | Panic => 2 ^ o <= weight 0 (vm_freelist s) /\
      forall b p, is_head (pages s) b p -> vm_page_is_free p = true -> order p < o
  | _ => False
  end.
Proof.
  intros Hs Ho. pose proof (vm_page_alloc_order_spec s o Hs Ho) as Hspec.
  destruct (vm_page_alloc_order s o) as [[[b|] s']| | |]; try done.
  - destruct Hspec as (Hs' & Eseg & _ & _ & (p & Hp & Eo & _) & Hall & Hfp). split_and!; try done.
    intros sg Hsg. rewrite <- Eseg in Hsg. rewrite <- Eo.
    by destruct (sh_head _ _ (bi_shape _ _ _ (si_pinv _ Hs')) b p sg Hp Hsg) as (? & ? & _).
  - destruct Hspec as [Hw Hall]. split; [done|]. intros b p Hb Hf.
    destruct (freelist_lookup s b p (si_pinv _ Hs) Hb) as [l Hl].
    pose proof (proj2 (in_freelist s b p l (si_pinv _ Hs) Hb Hl) Hf) as Hbl.
    destruct (decide (order p < o)); [done|]. rewrite (Hall (Z.to_nat (order p)) l) in Hbl by (done || lia). by apply not_elem_of_nil in Hbl.
Qed.

(** ** Reservations *)

Definition rsv_ok (lim : Z) (r : vm_phys_rsv_t) : Prop :=
  0 <= raddr r /\ 0 < rsize r /\ raddr r + rsize r + lim < 2 ^ 32.

(** The addresses that are reserved. *)
Definition covered (rs : list vm_phys_rsv_t) (a : Z) : Prop :=
  exists r, r ∈ rs /\ raddr r <= a < raddr r + rsize r.

Lemma covered_cons r rs a : covered (r :: rs) a <-> raddr r <= a < raddr r + rsize r \/ covered rs a.
Proof.
  unfold covered. split.
  - intros (x & [->|Hx]%elem_of_cons & Ha); [by left|right; eauto].
  - intros [Ha|(x & Hx & Ha)]; [exists r|exists x]; rewrite elem_of_cons; auto.
Qed.

Lemma covered_nil a : ~ covered [] a.
Proof. intros (r & Hr & _). by apply not_elem_of_nil in Hr. Qed.

Lemma reserve_scan_spec lim rs addr sz rs' : Forall (rsv_ok lim) rs -> 0 <= addr -> 0 < sz -> 0 <= lim ->
  addr + sz + lim < 2 ^ 32 -> reserve_scan rs addr sz = Some rs' ->
  Forall (rsv_ok lim) rs' /\ forall a, covered rs' a <-> covered rs a \/ addr <= a < addr + sz.
Proof.
  intros Hok Ha Hs Hlim Hend. revert rs'. induction Hok as [|r rs [Hr1 [Hr2 Hr3]] Hok IH]; intros rs'; [done|].
  cbn [reserve_scan]. rewrite (u32_small (raddr r + rsize r)), (u32_small (addr + sz)) by lia.
  destruct (Z.eqb_spec (raddr r + rsize r) addr) as [E|E].
  { rewrite u32_small by lia. intros Heq. injection Heq as <-. split; [constructor; [|done]; split_and!; simpl; lia|].
    intros a. rewrite !covered_cons. simpl. split; [intros [?|?]|intros [[?|?]|?]]; auto; lia. }
  destruct (Z.eqb_spec (raddr r) (addr + sz)) as [E2|E2].
  { rewrite u32_small by lia. intros Heq. injection Heq as <-. split; [constructor; [|done]; split_and!; simpl; lia|].
    intros a. rewrite !covered_cons. simpl. split; [intros [?|?]|intros [[?|?]|?]]; auto; lia. }
  destruct ((raddr r <=? addr) && (addr + sz <=? raddr r + rsize r)) eqn:E3.
  { bool_props. intros Heq. injection Heq as <-. split; [constructor; [done|done]|]. intros a. rewrite !covered_cons.
    split; [auto|intros [?|?]; [done|left; lia]]. }
  destruct (reserve_scan rs addr sz) as [rs1|]; [|done]. intros Heq. injection Heq as <-.
  destruct (IH rs1 eq_refl) as [IH1 IH2]. split; [by constructor|].
  intros a. rewrite !covered_cons, IH2. tauto.
Qed.

Lemma vm_phys_reserve_spec lim s addr sz : Forall (rsv_ok lim) (vm_phys_rsv s) -> 0 <= addr -> 0 < sz -> 0 <= lim ->
  addr + sz + lim < 2 ^ 32 ->
  match vm_phys_reserve s addr sz with
  | Done s' => Forall (rsv_ok lim) (vm_phys_rsv s') /\
      forall a, covered (vm_phys_rsv s') a <-> covered (vm_phys_rsv s) a \/ addr <= a < addr + sz
  | Panic => Z.of_nat (length (vm_phys_rsv s)) = VM_PHYSRSV_NUM
  | _ => False
  end.
Proof.
  intros Hok Ha Hs Hlim Hend. unfold vm_phys_reserve.
  destruct (reserve_scan (vm_phys_rsv s) addr sz) as [rs'|] eqn:E.
  { by apply (reserve_scan_spec lim (vm_phys_rsv s)). }
  destruct (Z.eqb_spec (Z.of_nat (length (vm_phys_rsv s))) VM_PHYSRSV_NUM); [done|]. simpl.
  split; [apply Forall_app; split; [done|]; apply Forall_singleton; split_and!; simpl; lia|].
  intros a. unfold covered. split.
  - intros (r & [Hr|Hr%list_elem_of_singleton]%elem_of_app & Hin); [left; eauto|]. subst r. by right.
  - intros [(r & Hr & Hin)|Hin]; [exists r|exists (Rsv addr sz)]; rewrite elem_of_app, list_elem_of_singleton; auto.
Qed.

Lemma overlap_spec lim p sz r : rsv_ok lim r -> 0 <= lim -> 0 <= p -> 0 < sz -> p + sz < 2 ^ 32 ->
  vm_seg_overlap p sz (raddr r) (rsize r) = true <-> raddr r < p + sz /\ p < raddr r + rsize r.
Proof.
  intros (H1 & H2 & H3) Hl Hp Hs Hend. unfold vm_seg_overlap. rewrite !u32_small by lia.
  rewrite negb_true_iff, orb_false_iff, !Z.leb_gt. lia.
Qed.

(** The search visits each reservation at most once and misses no hole. *)
Lemma early_scan_spec fuel rs p e sz : Forall (rsv_ok sz) rs -> 0 < sz -> 0 <= p -> e + sz < 2 ^ 32 ->
  p + sz < 2 ^ 32 -> (length (filter (fun r => (p < raddr r + rsize r)%Z) rs) < fuel)%nat ->
  match early_scan fuel rs p e sz with
  | Done (Some q) => p <= q /\ q + sz <= e /\ forall a, q <= a < q + sz -> ~ covered rs a
  | Done None => forall q, p <= q -> q + sz <= e -> exists a, q <= a < q + sz /\ covered rs a
  | _ => False
  end.
Proof.
  intros Hok Hs. revert p. induction fuel as [|fuel IH]; intros p Hp He Hps Hf; [lia|]. cbn [early_scan].
  rewrite u32_small by lia. destruct (Z.leb_spec (p + sz) e) as [Hle|Hgt].
  2:{ intros q Hq Hqe. lia. }
  destruct (List.find _ rs) as [r|] eqn:Efind.
  - apply find_some in Efind as [Hin Hov]. apply list_elem_of_In in Hin.
    pose proof (proj1 (Forall_forall _ _) Hok r Hin) as Hr.
    apply (overlap_spec sz) in Hov; [|done|lia|lia|lia|lia]. destruct Hr as (R1 & R2 & R3).
    rewrite u32_small by lia. specialize (IH (raddr r + rsize r) ltac:(lia) He ltac:(lia)).
    assert (length (filter (fun x => (raddr r + rsize r < raddr x + rsize x)%Z) rs) <
            length (filter (fun x => (p < raddr x + rsize x)%Z) rs))%nat as Hlt.
    { apply list_elem_of_split in Hin as (l1 & l2 & ->). rewrite !filter_app, !length_app.
      rewrite filter_cons_False by lia. rewrite filter_cons_True by lia. simpl.
      assert (forall l, (length (filter (fun x => (raddr r + rsize r < raddr x + rsize x)%Z) l) <=
        length (filter (fun x => (p < raddr x + rsize x)%Z) l))%nat) as Hmono.
      { induction l as [|x l IHl]; [done|]. rewrite !filter_cons. repeat case_decide; simpl; lia. }
      pose proof (Hmono l1). pose proof (Hmono l2). lia. }
    specialize (IH ltac:(lia)). destruct (early_scan fuel rs _ e sz) as [[q|]| | |]; try done.
    + destruct IH as (IH1 & IH2 & IH3). split_and!; [lia|done|done].
    + intros q Hq Hqe. destruct (decide (raddr r + rsize r <= q)) as [Hge|Hlt']; [by apply IH|].
      exists (Z.max q (raddr r)). split; [lia|]. exists r. split; [done|lia].
  - split_and!; [lia|done|]. intros a Ha (r & Hr & Hin).
    pose proof (find_none _ _ Efind r (proj1 (list_elem_of_In _ _) Hr)) as Hno. simpl in Hno.
    assert (vm_seg_overlap p sz (raddr r) (rsize r) = true) as Hyes.
    { apply (overlap_spec sz); [by eapply Forall_forall|lia|lia|lia|lia|lia]. }
    congruence.
Qed.

(** The bytes of a segment. *)
Definition seg_ok (lim : Z) (sg : vm_physeg_t) : Prop :=
  0 <= start sg /\ 0 <= size sg /\ PAGE_SZ * (start sg + size sg) + lim < 2 ^ 32.

Lemma seg_bytes lim sg : seg_ok lim sg -> 0 <= lim ->
  ptoa (start sg) = PAGE_SZ * start sg /\ u32 (ptoa (start sg) + ptoa (size sg)) = PAGE_SZ * (start sg + size sg).
Proof.
  intros (H1 & H2 & H3) Hl. unfold ptoa. rewrite !Z.shiftl_mul_pow2 by done. unfold PAGE_SZ, PAGE_SHIFT in *.
  rewrite (u32_small (start sg * 2 ^ 12)), (u32_small (size sg * 2 ^ 12)) by lia. rewrite u32_small by lia. lia.
Qed.

Lemma early_segs_spec rs segs sz : Forall (rsv_ok sz) rs -> Forall (seg_ok sz) segs -> 0 < sz ->
  match early_segs rs segs sz with
  | Done (Some p) => exists sg, sg ∈ segs /\ inited sg = false /\ PAGE_SZ * start sg <= p /\
      p + sz <= PAGE_SZ * (start sg + size sg) /\ forall a, p <= a < p + sz -> ~ covered rs a
  | Done None => forall sg q, sg ∈ segs -> inited sg = false -> PAGE_SZ * start sg <= q ->
      q + sz <= PAGE_SZ * (start sg + size sg) -> exists a, q <= a < q + sz /\ covered rs a
  | _ => False
  end.
Proof.
  intros Hrs Hsegs Hs. induction Hsegs as [|sg segs Hsg Hsegs IH]; cbn [early_segs].
  { intros sg q H. by apply not_elem_of_nil in H. }
  destruct (inited sg) eqn:Ei.
  { destruct (early_segs rs segs sz) as [[p|]| | |]; try done.
    - destruct IH as (sg' & Hin & IH). exists sg'. split; [by apply list_elem_of_further|done].
    - intros sg' q [->|Hin]%elem_of_cons; [congruence|by apply IH]. }
  destruct (seg_bytes sz sg Hsg ltac:(lia)) as [E1 E2]. rewrite E2, E1.
  assert (0 <= PAGE_SZ * start sg /\ PAGE_SZ * start sg + sz < 2 ^ 32 /\ PAGE_SZ * (start sg + size sg) + sz < 2 ^ 32)
    as (B1 & B2 & B3) by (destruct Hsg as (? & ? & ?); unfold PAGE_SZ, PAGE_SHIFT in *; lia).
  pose proof (early_scan_spec (S (length rs)) rs (PAGE_SZ * start sg) (PAGE_SZ * (start sg + size sg)) sz Hrs Hs B1 B3 B2) as Hscan.
  specialize (Hscan ltac:(pose proof (length_filter (fun r => PAGE_SZ * start sg < raddr r + rsize r) rs); lia)).
  destruct (early_scan _ rs _ _ sz) as [[p|]| | |]; try done; cbn [rbind].
  - destruct Hscan as (H1 & H2 & H3). exists sg. split_and!; try done. apply list_elem_of_here.
  - destruct (early_segs rs segs sz) as [[p|]| | |]; try done.
    + destruct IH as (sg' & Hin & IH). exists sg'. split; [by apply list_elem_of_further|done].
    + intros sg' q [->|Hin]%elem_of_cons; [intros _; apply Hscan|by apply IH].
Qed.

(** the bootstrap allocator.  While no page is free it returns a region that
    lies in a segment without pages and that overlaps no reservation, and
    reserves exactly this region in addition; it panics only if no such region
    exists or the table of reservations is full. *)
Theorem vm_phys_early_alloc_region s sz : vm_mem_wait_p (pressure s) VM_PR_MEM_PHYS PAGE_SZ = Done true ->
  Forall (rsv_ok sz) (vm_phys_rsv s) -> Forall (seg_ok sz) (vm_physegs s) -> 0 < sz ->
  match vm_phys_early_alloc s sz with
  | Done (p, s') => (exists sg, sg ∈ vm_physegs s /\ inited sg = false /\ PAGE_SZ * start sg <= p /\
      p + sz <= PAGE_SZ * (start sg + size sg)) /\
      (forall a, p <= a < p + sz -> ~ covered (vm_phys_rsv s) a) /\
      (forall a, covered (vm_phys_rsv s') a <-> covered (vm_phys_rsv s) a \/ p <= a < p + sz)
  | Panic => Z.of_nat (length (vm_phys_rsv s)) = VM_PHYSRSV_NUM \/
      forall sg q, sg ∈ vm_physegs s -> inited sg = false -> PAGE_SZ * start sg <= q ->
        q + sz <= PAGE_SZ * (start sg + size sg) -> exists a, q <= a < q + sz /\ covered (vm_phys_rsv s) a
  | _ => False
  end.
Proof.
  intros Hw Hrs Hsegs Hs. unfold vm_phys_early_alloc, vm_page_alloc_order.
  change (u32 (Z.shiftl 1 (0 + PAGE_SHIFT))) with PAGE_SZ. rewrite Hw. cbn [rbind].
  pose proof (early_segs_spec _ _ sz Hrs Hsegs Hs) as Hseg.
  destruct (early_segs _ _ sz) as [[p|]| | |]; try done; cbn [rbind]; [|by right].
  destruct Hseg as (sg & Hin & Hni & H1 & H2 & H3).
  pose proof (proj1 (Forall_forall _ _) Hsegs sg Hin) as (B1 & B2 & B3).
  pose proof (vm_phys_reserve_spec sz s p sz Hrs) as Hres.
  specialize (Hres ltac:(unfold PAGE_SZ, PAGE_SHIFT in *; lia) Hs ltac:(lia) ltac:(lia)).
  destruct (vm_phys_reserve s p sz) as [s'| | |]; try done; cbn [rbind]; [|by left].
  split_and!; [by exists sg|done|apply Hres].
Qed.

(** ** A small machine: one segment of three pages at page 5, page 6 reserved *)

Definition phys0 : phys :=
  Phys ∅ (replicate 11 []) [Seg 5 3 false] [Rsv 0x6000 0x1000] 3
    (Pr [PrMem [] VM_PR_LOW 4096 4096 0; PrMem [] VM_PR_HIGH 0x3000 0 0] []).

Lemma phys0_sinv : sinv phys0.
Proof.
  split.
  - split; constructor; try done.
    + intros i j sg Hi Hr Hin. destruct (Z.to_nat i) as [|[|n]]; simpl in Hi; try done. by injection Hi as <-.
    + intros [|[|i]] sg Hi; simpl in Hi; try done. injection Hi as <-. simpl. lia.
    + by intros b p sg [Hp _].
    + intros o l Hl. apply lookup_replicate in Hl as [-> _]. constructor.
    + intros o l b Hl. apply lookup_replicate in Hl as [-> _]. split.
      * intros H. by apply not_elem_of_nil in H.
      * by intros (p & Hp & _).
  - split.
    + repeat apply Forall_cons_2; try constructor; split_and!; (reflexivity || simpl; lia).
    + intros i mem w _ H. by apply not_elem_of_nil in H.
  - eexists. split_and!; [reflexivity|reflexivity|]. vm_compute. discriminate.
Qed.

Lemma vm_physeg_init_frees_witness : exists s', vm_physeg_init phys0 0 = Done s' /\
  free_page (pages s') (0, 0) /\ ~ free_page (pages s') (0, 1).
Proof.
  destruct (vm_physeg_init_frees phys0 0 (Seg 5 3 false) (PrMem [] VM_PR_HIGH 0x3000 0 0) phys0_sinv)
    as (s' & Hr & _ & Hf).
  - split; reflexivity || (vm_compute; discriminate).
  - reflexivity.
  - reflexivity.
  - reflexivity.
  - vm_compute. discriminate.
  - exists s'. split; [exact Hr|]. rewrite !Hf. split.
    + right. split; [reflexivity|]. split; [simpl; lia|reflexivity].
    + intros [(b & p & [Hp _] & _)|(_ & _ & H)]; [done|]. vm_compute in H. discriminate.
Defined.

(** The machine after start-up. *)
Definition phys1 : phys := match vm_physeg_init phys0 0 with Done s => s | _ => phys0 end.

Lemma phys1_sinv : sinv phys1.
Proof.
  destruct (vm_physeg_init_spec phys0 0 (Seg 5 3 false) (PrMem [] VM_PR_HIGH 0x3000 0 0) phys0_sinv)
    as (s' & Hr & Hs & _); try (reflexivity || (vm_compute; discriminate)).
  - split; (reflexivity || (vm_compute; discriminate)).
  - unfold phys1. by rewrite Hr.
Qed.

Lemma phys_no_double_alloc_witness : exists b s', vm_page_alloc phys1 = Done (Some b, s') /\
  free_page (pages phys1) b.
Proof.
  destruct (phys_no_double_alloc phys1 phys1 [] phys1_sinv (clients_nil phys1)) as (_ & _ & H & _).
  assert (exists b s', vm_page_alloc phys1 = Done (Some b, s')) as (b & s' & E).
  { eexists _, _. vm_compute. reflexivity. }
  rewrite E in H. destruct H as (_ & H & _). exists b, s'. split; [exact E|exact H].
Defined.

Lemma vm_page_alloc_order_block_witness : vm_page_alloc_order phys1 2 = Done (None, phys1) /\
  weight 0 (vm_freelist phys1) < 2 ^ 2.
Proof.
  pose proof (vm_page_alloc_order_block phys1 2 phys1_sinv ltac:(unfold VM_PHYS_ORDER_MAX; lia)) as H.
  assert (vm_page_alloc_order phys1 2 = Done (None, phys1)) as E by (vm_compute; reflexivity).
  rewrite E in H. split; [exact E|apply H].
Defined.

Lemma vm_phys_early_alloc_region_witness : exists s', vm_phys_early_alloc phys0 PAGE_SZ = Done (0x5000, s') /\
  covered (vm_phys_rsv s') 0x5000.
Proof.
  pose proof (vm_phys_early_alloc_region phys0 PAGE_SZ eq_refl) as H.
  specialize (H ltac:(apply Forall_singleton; repeat split; (reflexivity || discriminate))
    ltac:(apply Forall_singleton; repeat split; (reflexivity || discriminate))
    ltac:(reflexivity)).
  assert (exists s', vm_phys_early_alloc phys0 PAGE_SZ = Done (0x5000, s')) as [s' E].
  { eexists. vm_compute. reflexivity. }
  rewrite E in H. exists s'. split; [exact E|]. apply H. right. vm_compute. split; (reflexivity || discriminate).
Defined.
