(* ===== verification/Vmem.v ===== *)
(** * vm/vmem.c: the virtual memory of the kernel

    Free virtual memory is a set of regions.  A region is in a red-black tree
    by address, so that it can be merged with its neighbours, and in one of 17
    lists by the logarithm of its size.  The tree is the one of [Rbtree]; the
    [rb_node_t] of a region is at the address of the region in the heap of the
    tree.

    The structures of the regions come from a slab: what [vm_slab_alloc]
    returns, call by call, is an argument of [vmem_free], and so is whether an
    address is mapped.  What is done with the lock is one step; an allocation
    that may wait tries again when memory was freed ([None]). *)
From stdpp Require Import base gmap list sorting relations.
From Stdlib Require Import ZArith Lia Bool.
From S2P Require Import Prelude Interleave Rbtree RbtreeFacts Mman MmanFacts Pressure Phys.
Open Scope Z_scope.

(** ** Data *)

Definition GB_SHIFT : Z := 30.
Definition VMEM_NFREELIST : Z := GB_SHIFT - PAGE_SHIFT - 1.

Record vmem_free_t := MkFree { idx : Z; vaddr : Z; npages : Z }.

Record vmem := MkVmem {
  vmem_tree : rb_st;
  vmem_freelists : gmap Z (list Z);
  frees : gmap Z vmem_free_t;
  vmem_init_free : Z;
  vpr : prstate;
}.

Definition set_tree (s : vmem) (t : rb_st) : vmem := MkVmem t (vmem_freelists s) (frees s) (vmem_init_free s) (vpr s).
Definition set_list (s : vmem) (i : Z) (l : list Z) : vmem :=
  MkVmem (vmem_tree s) (<[i := l]> (vmem_freelists s)) (frees s) (vmem_init_free s) (vpr s).
Definition put_free (s : vmem) (a : Z) (f : vmem_free_t) : vmem :=
  MkVmem (vmem_tree s) (vmem_freelists s) (<[a := f]> (frees s)) (vmem_init_free s) (vpr s).
Definition set_vpr (s : vmem) (p : prstate) : vmem := MkVmem (vmem_tree s) (vmem_freelists s) (frees s) (vmem_init_free s) p.

Definition get_free (s : vmem) (a : Z) : res vmem_free_t := deref (frees s !! a).
(** The region at [a], for comparisons. *)
Definition free_at (s : vmem) (a : Z) : vmem_free_t := default (MkFree 0 0 0) (frees s !! a).

(** ** The regions *)

Definition get_free_at_code (s : vmem) (addr : Z) (out cur : Z) : Z * verdict :=
  let f := free_at s cur in
  if (vaddr f <=? addr) && (addr <? u32 (vaddr f + ptoa (npages f))) then (cur, Leave)
  else if addr <? vaddr f then (out, GoLeft) else (out, GoRight).
Definition vmem_get_free_at (s : vmem) (addr : Z) : res Z :=
  rb_search rb_fuel (vmem_tree s) (get_free_at_code s addr) 0.

Definition vmem_freelist_idx (n : Z) : Z := let i := 32 - clz n in Z.min (i - 1) (VMEM_NFREELIST - 1).

Definition freelist (s : vmem) (i : Z) : res (list Z) := deref (vmem_freelists s !! i).
Definition freelist_remove (s : vmem) (i a : Z) : res vmem :=
  let* l := freelist s i in let* '(l, _) := list_remove l a in Done (set_list s i l).
(** [list_add] puts the node at the front; it must be in no list. *)
Definition vmem_inserted (s : vmem) (a : Z) : bool := bool_decide (map_Exists (fun _ l => a ∈ l) (vmem_freelists s)).
Definition freelist_add (s : vmem) (i a : Z) : res vmem :=
  let* l := freelist s i in kassert negb (vmem_inserted s a) in Done (set_list s i (a :: l)).

Definition vmem_free_resize (s : vmem) (free n : Z) : res (bool * vmem) :=
  let* f := get_free s free in
  if n =? 0 then
    let* s := freelist_remove s (idx f) free in
    let* t := rb_remove rb_fuel (vmem_tree s) free in
    Done (negb (free =? vmem_init_free s), set_tree s t)
  else
    let s := put_free s free (MkFree (idx f) (vaddr f) n) in
    let i := vmem_freelist_idx n in
    if negb (i =? idx f) then
      let* s := freelist_remove s (idx f) free in
      let* s := freelist_add s i free in
      Done (false, put_free s free (MkFree i (vaddr f) n))
    else Done (false, s).

Definition vmem_free_create (s : vmem) (free addr n : Z) : res vmem :=
  let f := MkFree (vmem_freelist_idx n) addr n in
  let s := put_free s free f in
  let s := set_tree s (rb_node_init (vmem_tree s) free free) in
  let* t := rb_insert rb_fuel (vmem_tree s) (fun cur => addr <? vaddr (free_at s cur)) free in
  freelist_add (set_tree s t) (idx f) free.

(** [list_node_destroy], [rb_node_destroy]; the memory goes back to the slab. *)
Definition vmem_free_free (s : vmem) (free : Z) : res vmem :=
  kassert negb (vmem_inserted s free) in
  let* _ := rb_node_destroy (vmem_tree s) free in Done s.

(** ** Allocation *)

(** The loop over one list; [None] for [VMEM_ERR_ADDR]. *)
Fixpoint freelist_alloc_loop (l : list Z) (s : vmem) (n size : Z) : res (option Z * vmem) :=
  match l with
  | [] => Done (None, s)
  | cur :: l =>
      let* f := get_free s cur in
      if n <=? npages f then
        let* p := vm_pressure_inc (vpr s) VM_PR_MEM_KERN size in
        let s := set_vpr s p in
        let result := u32 (vaddr f + ptoa (npages f - n)) in
        let* '(do_free, s) := vmem_free_resize s cur (npages f - n) in
        let* s := if do_free : bool then vmem_free_free s cur else Done s in
        Done (Some result, s)
      else freelist_alloc_loop l s n size
  end.
Definition vmem_freelist_alloc (s : vmem) (i n size : Z) : res (option Z * vmem) :=
  let* l := freelist s i in freelist_alloc_loop l s n size.

Fixpoint alloc_lists (lists : nat) (i : Z) (s : vmem) (n size : Z) : res (option Z * vmem) :=
  match lists with
  | O => Done (None, s)
  | S lists =>
      let* '(r, s) := vmem_freelist_alloc s i n size in
      match r with
      | Some _ => Done (r, s)
      | None => alloc_lists lists (i + 1) s n size
      end
  end.

(** One turn of the loop of [vmem_alloc]; [None]: there is not enough memory, or
    none in one piece. *)
Definition vmem_alloc (s : vmem) (size : Z) : res (option Z * vmem) :=
  let n := atop size in
  kassert ALIGNED 32 size PAGE_SZ in
  kassert 0 <? size in
  let* wait := vm_mem_wait_p (vpr s) VM_PR_MEM_KERN size in
  if wait : bool then Done (None, s) else
  let i := vmem_freelist_idx n in alloc_lists (Z.to_nat (VMEM_NFREELIST - i)) i s n size.

(** ** Freeing *)

Section Free.
Variable mmu_mapped : Z -> bool.

(** The checks of a kernel that is configured with INVARIANTS. *)
Fixpoint free_checks (pages : nat) (s : vmem) (addr : Z) : res unit :=
  match pages with
  | O => Done tt
  | S pages =>
      let* r := vmem_get_free_at s addr in
      kassert r =? 0 in
      kassert negb (mmu_mapped addr) in
      free_checks pages s (u32 (addr + PAGE_SZ))
  end.

(** Finding a structure for a new region.  If the slab is out of memory, it
    gets the page of a region of one page, and the structure of that region is
    used (without being taken out of the tree); or else the first page of the
    memory that is being freed.  The result is the structure with the rest of
    the memory, or [None] if nothing is left of it. *)
Fixpoint free_struct (slab : list (option Z)) (s : vmem) (addr n : Z) : res (option (Z * Z * Z) * vmem) :=
  match slab with
  | [] => Stuck
  | Some free :: _ => Done (Some (free, addr, n), s)
  | None :: slab =>
      let* l := freelist s 0 in
      match l with
      | free :: l =>
          let s := set_list s 0 l in
          let* f := get_free s free in
          kassert npages f =? 1 in
          Done (Some (free, addr, n), s)
      | [] => if n =? 1 then Done (None, s) else free_struct slab s (u32 (addr + PAGE_SZ)) (n - 1)
      end
  end.

(** Merging with the region behind. *)
Definition collapse_next (s : vmem) (free addr n : Z) : res vmem :=
  let* next := vmem_get_free_at s (u32 (addr + ptoa n)) in
  if negb (next =? 0) then
    let* f := get_free s free in
    let* g := get_free s next in
    let* '(_, s) := vmem_free_resize s free (npages f + npages g) in
    let* '(do_free, s) := vmem_free_resize s next 0 in
    if do_free : bool then vmem_free_free s next else Done s
  else Done s.

Definition vmem_free (slab : list (option Z)) (s : vmem) (addr size : Z) : res vmem :=
  let n := atop size in
  kassert ALIGNED 32 addr PAGE_SZ in
  kassert ALIGNED 32 size PAGE_SZ in
  kassert 0 <? addr in
  kassert 0 <? size in
  let* _ := free_checks (Z.to_nat n) s addr in
  let* p := vm_pressure_dec (vpr s) VM_PR_MEM_KERN size in
  let s := set_vpr s p in
  let* free := vmem_get_free_at s (u32 (addr - 1)) in
  if negb (free =? 0) then
    let* f := get_free s free in
    let* '(_, s) := vmem_free_resize s free (npages f + n) in
    collapse_next s free addr n
  else
    let* '(r, s) := free_struct slab s addr n in
    match r with
    | None => Done s
    | Some (free, addr, n) =>
        let* s := vmem_free_create s free addr n in
        collapse_next s free addr n
    end.
End Free.

Definition vmem_init (s : vmem) (addr end_ : Z) : res vmem :=
  let size := u32 (end_ - addr) in
  let lists := gset_to_gmap [] (list_to_set (seqZ 0 VMEM_NFREELIST)) in
  let s := MkVmem (vmem_tree s) lists (frees s) (vmem_init_free s) (vm_pr_mem_init (vpr s) VM_PR_MEM_KERN size size) in
  vmem_free_create s (vmem_init_free s) addr (atop size).

(** ** The invariant *)

Definition vend (f : vmem_free_t) : Z := vaddr f + PAGE_SZ * npages f.

(** The regions [L] are between [x] and [e], in order and with space between
    them. *)
Fixpoint spaced (fr : gmap Z vmem_free_t) (x : Z) (L : list Z) (e : Z) : Prop :=
  match L with
  | [] => x <= e + 1
  | a :: L => exists f, fr !! a = Some f /\ x <= vaddr f /\ vaddr f mod PAGE_SZ = 0 /\ 0 < npages f /\ spaced fr (vend f + 1) L e
  end.

(** The number of free pages. *)
Fixpoint pages_of (fr : gmap Z vmem_free_t) (L : list Z) : Z :=
  match L with
  | [] => 0
  | a :: L => npages (default (MkFree 0 0 0) (fr !! a)) + pages_of fr L
  end.

(** Each region is in the list for its size. *)
Record listed (s : vmem) (L : list Z) : Prop := {
  l_lists : forall i, 0 <= i < VMEM_NFREELIST -> is_Some (vmem_freelists s !! i);
  l_list : forall i l, vmem_freelists s !! i = Some l -> NoDup l /\ forall a, a ∈ l <-> a ∈ L /\ idx (free_at s a) = i;
  l_idx : forall a, a ∈ L -> idx (free_at s a) = vmem_freelist_idx (npages (free_at s a)) /\ 0 < npages (free_at s a);
}.

Definition self (a : Z) : Z := a.
Definition in_tree (s : vmem) (L X : list Z) : Prop := seq_tree self self (vmem_tree s) L X.

Record vm_ok (s : vmem) (L X : list Z) (lo hi : Z) : Prop := {
  vo_bounds : 0 < lo /\ hi < 2 ^ 32 /\ lo mod PAGE_SZ = 0 /\ hi mod PAGE_SZ = 0;
  vo_tree : in_tree s L X;
  vo_spaced : spaced (frees s) lo L hi;
  vo_listed : listed s L;
}.

Lemma self_self a : self (self a) = a.
Proof. done. Qed.

Lemma free_at_Some s a f : frees s !! a = Some f -> free_at s a = f.
Proof. unfold free_at. by intros ->. Qed.

Lemma ptoa_small p : 0 <= p -> PAGE_SZ * p < 2 ^ 32 -> ptoa p = PAGE_SZ * p.
Proof.
  intros Hp Hlt. unfold ptoa. rewrite Z.shiftl_mul_pow2 by (unfold PAGE_SHIFT; lia). rewrite Z.mul_comm. by apply u32_small; unfold PAGE_SZ in *; lia.
Qed.

Lemma spaced_app fr x L1 L2 e : spaced fr x (L1 ++ L2) e <-> exists y, spaced fr x L1 (y - 1) /\ spaced fr y L2 e.
Proof.
  revert x. induction L1 as [|a L1 IH]; intros x; simpl.
  - split; [intros H; exists x; split; [lia|done]|]. intros (y & Hy & H). destruct L2 as [|b L2]; simpl in *; [lia|].
    destruct H as (f & ? & ? & H). exists f. split; [done|]. split; [lia|done].
  - split.
    + intros (f & H1 & H2 & H3 & H4 & (y & Hy & H)%IH). exists y. split; [|done]. exists f. done.
    + intros (y & (f & H1 & H2 & H3 & H4 & Hy) & H). exists f. do 4 (split; [done|]). apply IH. eauto.
Qed.

Lemma spaced_ext fr fr' x L e : (forall a, a ∈ L -> fr' !! a = fr !! a) -> spaced fr x L e -> spaced fr' x L e.
Proof.
  revert x. induction L as [|a L IH]; intros x He; simpl; [done|]. intros (f & Hf & H). exists f. rewrite He by (by left).
  split; [done|]. destruct H as (? & ? & ? & H). do 3 (split; [done|]). apply IH; [|done]. intros b Hb. apply He. by right.
Qed.

Lemma spaced_weaken fr x x' L e : x' <= x -> spaced fr x L e -> spaced fr x' L e.
Proof. destruct L as [|a L]; simpl; [lia|]. intros Hx (f & Hf & ? & H). exists f. split; [done|]. split; [lia|done]. Qed.

Lemma spaced_end fr x L e e' : e <= e' -> spaced fr x L e -> spaced fr x L e'.
Proof.
  revert x. induction L as [|a L IH]; intros x He; simpl; [lia|]. intros (f & Hf & ? & ? & ? & H). exists f. do 4 (split; [done|]). auto.
Qed.

Lemma spaced_le fr x L e : spaced fr x L e -> x <= e + 1.
Proof.
  revert x. induction L as [|a L IH]; intros x; simpl; [done|]. intros (f & _ & Hx & _ & Hn & H). apply IH in H.
  unfold vend in H. unfold PAGE_SZ in *. change (2 ^ PAGE_SHIFT) with 4096 in *. lia.
Qed.

(** A region, with those before and behind it. *)
Lemma spaced_split fr x L1 a L2 e : spaced fr x (L1 ++ a :: L2) e -> exists f, fr !! a = Some f /\
  x <= vaddr f /\ vend f <= e /\ vaddr f < vend f /\ vaddr f mod PAGE_SZ = 0 /\ 0 < npages f /\
  spaced fr x L1 (vaddr f - 1) /\ spaced fr (vend f + 1) L2 e.
Proof.
  intros (y & H1 & f & Hf & Hx & Hm & Hn & H2)%spaced_app. exists f. pose proof (spaced_le _ _ _ _ H1). pose proof (spaced_le _ _ _ _ H2).
  assert (vaddr f < vend f) by (unfold vend, PAGE_SZ; change (2 ^ PAGE_SHIFT) with 4096; lia).
  split; [done|]. split; [lia|]. split; [lia|]. do 3 (split; [done|]). split; [|done]. by apply (spaced_end _ _ _ (y - 1)); [lia|].
Qed.

Lemma spaced_join fr x L1 a L2 e f : fr !! a = Some f -> spaced fr x L1 (vaddr f - 1) -> x <= vaddr f -> vaddr f mod PAGE_SZ = 0 ->
  0 < npages f -> spaced fr (vend f + 1) L2 e -> spaced fr x (L1 ++ a :: L2) e.
Proof. intros Hf H1 Hx Hm Hn H2. apply spaced_app. exists (vaddr f). split; [done|]. exists f. done. Qed.

Lemma spaced_before fr x L e a : spaced fr x L e -> a ∈ L -> exists f, fr !! a = Some f /\ x <= vaddr f /\ vaddr f < vend f /\ vend f <= e /\
  vaddr f mod PAGE_SZ = 0 /\ 0 < npages f.
Proof.
  intros H (L1 & L2 & ->)%list_elem_of_split. destruct (spaced_split _ _ _ _ _ _ H) as (f & Hf & ? & ? & ? & ? & ? & _). exists f. done.
Qed.

Lemma page_pos : 0 < PAGE_SZ.
Proof. done. Qed.

(** ** Looking up an address *)

Definition within (f : vmem_free_t) (x : Z) : Prop := vaddr f <= x < vend f.

(** What a lookup needs: the regions are in order and do not overlap. *)
Definition ordered (s : vmem) (L : list Z) : Prop :=
  StronglySorted (fun a b => vend (free_at s a) <= vaddr (free_at s b)) L /\
  forall a, a ∈ L -> exists f, frees s !! a = Some f /\ 0 <= vaddr f /\ 0 < npages f /\ vend f < 2 ^ 32.

Lemma spaced_ordered s x L e : spaced (frees s) x L e -> 0 <= x -> e < 2 ^ 32 -> ordered s L.
Proof.
  intros Hs Hx He. split.
  - revert x Hs Hx. induction L as [|a L IH]; intros x Hs Hx; [constructor|]. destruct Hs as (f & Hf & H1 & H2 & H3 & Hs).
    assert (0 <= vend f + 1) by (unfold vend; pose proof page_pos; lia). constructor; [by eapply IH|].
    apply Forall_forall. intros b Hb. destruct (spaced_before _ _ _ _ b Hs Hb) as (g & Hg & ? & _).
    rewrite (free_at_Some _ _ _ Hf), (free_at_Some _ _ _ Hg). lia.
  - intros a Ha. destruct (spaced_before _ _ _ _ a Hs Ha) as (f & Hf & ? & ? & ? & ? & ?). exists f. split; [done|lia].
Qed.

Lemma ordered_sides s L1 b L2 : ordered s (L1 ++ b :: L2) ->
  (forall c, c ∈ L1 -> vend (free_at s c) <= vaddr (free_at s b)) /\ (forall c, c ∈ L2 -> vend (free_at s b) <= vaddr (free_at s c)).
Proof.
  intros [Hs _]. apply StronglySorted_app in Hs as (H1 & _ & H2). split.
  - intros c Hc. apply H1; [done|by left].
  - intros c Hc. inversion_clear H2 as [|? ? _ HF]. rewrite Forall_forall in HF. auto.
Qed.

Lemma get_free_at_run s L X x : in_tree s L X -> ordered s L ->
  runs (vmem_get_free_at s x) (fun r =>
    (r = 0 /\ forall b, b ∈ L -> ~ within (free_at s b) x) \/ (r ∈ L /\ within (free_at s r) x)).
Proof.
  intros Ht Ho. unfold vmem_get_free_at. eapply (seq_search self self self_self _ L X _ _ (fun r R =>
    r = 0 /\ (exists P Q, L = P ++ R ++ Q) /\ forall b, b ∈ L -> within (free_at s b) x -> b ∈ R)); [exact Ht|..].
  - split_and!; [done| |done]. exists [], []. by rewrite app_nil_r.
  - intros r R1 b R2 (-> & (P & Q & HL) & Hall).
    assert (HL' : L = (P ++ R1) ++ b :: R2 ++ Q) by (rewrite HL; by rewrite <- !app_assoc).
    pose proof Ho as Ho'. rewrite HL' in Ho'. destruct (ordered_sides _ _ _ _ Ho') as [Hl Hr]. destruct Ho' as [_ Ho'].
    destruct (Ho' b) as (f & Hf & H1 & H2 & H3); [set_solver|]. pose proof (free_at_Some _ _ _ Hf) as Ef. rewrite Ef in *.
    unfold get_free_at_code. rewrite Ef.
    assert (Eend : u32 (vaddr f + ptoa (npages f)) = vend f).
    { unfold vend in *. pose proof page_pos. rewrite ptoa_small by lia. apply u32_small. lia. }
    rewrite Eend. destruct (Z.leb_spec (vaddr f) x), (Z.ltb_spec x (vend f)); cbn [andb].
    + right. split; [rewrite HL'; set_solver|]. rewrite Ef. unfold within. lia.
    + destruct (Z.ltb_spec x (vaddr f)); [lia|]. split; [done|]. split; [exists (P ++ R1 ++ [b]), Q; rewrite HL; by rewrite <- !app_assoc|].
      intros c Hc Hw. pose proof (Hall c Hc Hw) as [Hc1|[->|Hc2]%elem_of_cons]%elem_of_app; [..|done]; exfalso.
      * specialize (Hl c ltac:(set_solver)). unfold within in Hw. lia.
      * rewrite Ef in Hw. unfold within in Hw. lia.
    + destruct (Z.ltb_spec x (vaddr f)); [|lia]. split; [done|]. split; [exists P, (b :: R2 ++ Q); rewrite HL; by rewrite <- !app_assoc|].
      intros c Hc Hw. pose proof (Hall c Hc Hw) as [Hc1|[->|Hc2]%elem_of_cons]%elem_of_app; [done|..]; exfalso.
      * rewrite Ef in Hw. unfold within in Hw. lia.
      * specialize (Hr c ltac:(set_solver)). unfold within in Hw. lia.
    + assert (vaddr f < vend f) by (unfold vend; pose proof page_pos; lia). lia.
  - intros r (-> & _ & Hall). left. split; [done|]. intros b Hb Hw. by apply Hall in Hw as []%elem_of_nil.
Qed.

Lemma in_tree_nonzero s L X a : in_tree s L X -> a ∈ L -> a <> 0.
Proof. intros Ht Ha ->. pose proof (seq_okp _ _ _ _ _ Ht) as Ho. rewrite Forall_forall in Ho. destruct (Ho 0) as [? _]; [set_solver|]. unfold self in *. lia. Qed.

(** ** The lists *)

Lemma vmem_freelist_idx_spec n : 0 < n -> vmem_freelist_idx n = Z.min (Z.log2 n) (VMEM_NFREELIST - 1) /\
  0 <= vmem_freelist_idx n < VMEM_NFREELIST.
Proof. intros Hn. unfold vmem_freelist_idx, clz, VMEM_NFREELIST, GB_SHIFT, PAGE_SHIFT. pose proof (Z.log2_nonneg n). lia. Qed.

Lemma freelist_idx_mono n m : 0 < n <= m -> vmem_freelist_idx n <= vmem_freelist_idx m.
Proof.
  intros H. destruct (vmem_freelist_idx_spec n ltac:(lia)) as [-> _]. destruct (vmem_freelist_idx_spec m ltac:(lia)) as [-> _].
  pose proof (Z.log2_le_mono n m). lia.
Qed.

(** What the operations on the lists do not look at. *)
Lemma listed_ext s s' L : vmem_freelists s' = vmem_freelists s -> (forall a, a ∈ L -> free_at s' a = free_at s a) ->
  listed s L -> listed s' L.
Proof.
  intros E Hf [H1 H2 H3]. split; rewrite ?E; [done| |].
  - intros i l Hl. destruct (H2 i l Hl) as [Hn Hi]. split; [done|]. intros a. rewrite Hi. split; intros [Ha He]; (split; [done|]); by rewrite Hf in *.
  - intros a Ha. rewrite !Hf by done. auto.
Qed.

Lemma listed_perm s L L' : (forall a, a ∈ L <-> a ∈ L') -> listed s L -> listed s L'.
Proof.
  intros HL [H1 H2 H3]. split; [done| |].
  - intros i l Hl. destruct (H2 i l Hl) as [Hn Hi]. split; [done|]. intros a. by rewrite Hi, HL.
  - intros a Ha. apply H3, HL, Ha.
Qed.

(** [a] leaves its list ... *)
Lemma freelist_remove_run s L a f : listed s (a :: L) -> a ∉ L -> frees s !! a = Some f ->
  runs (freelist_remove s (idx f) a) (fun s' => listed s' L /\ vmem_inserted s' a = false /\
    exists l, s' = set_list s (idx f) l).
Proof.
  intros HL Ha Hf. pose proof HL as [H1 H2 H3]. pose proof (free_at_Some _ _ _ Hf) as Ef.
  destruct (H3 a ltac:(by left)) as [Hi Hn]. rewrite Ef in Hi, Hn. destruct (vmem_freelist_idx_spec _ Hn) as [_ Hr].
  destruct (H1 (idx f)) as [l Hl]; [lia|]. destruct (H2 _ _ Hl) as [Hnd Hin].
  unfold freelist_remove, freelist. rewrite Hl. cbn [deref rbind].
  rewrite list_remove_Done by (apply Hin; rewrite Ef; split; [by left|done]). cbn [rbind]. apply runs_Done.
  assert (Hothers : forall i l', <[idx f := list_rem a l]> (vmem_freelists s) !! i = Some l' ->
    NoDup l' /\ forall b, b ∈ l' <-> b ∈ L /\ idx (free_at s b) = i).
  { intros i l' [[<- <-]|[Hne Hl']]%lookup_insert_Some.
    - split; [by apply NoDup_list_rem|]. intros b. rewrite elem_of_list_rem, Hin, elem_of_cons. set_solver.
    - destruct (H2 _ _ Hl') as [Hnd' Hin']. split; [done|]. intros b. rewrite Hin', elem_of_cons.
      split; [|tauto]. intros [[->|?] <-]; [|done]. by rewrite Ef in Hne. }
  split; [|split; [|eauto]].
  - split; simpl; [|done|intros b Hb; apply (H3 b); by right]. intros i Hi'. apply lookup_insert_is_Some'. auto.
  - unfold vmem_inserted. apply bool_decide_eq_false. intros (i & l' & Hl' & Hin'). by apply (Hothers i l' Hl') in Hin' as [? _].
Qed.

(** ... and enters the one for its size. *)
Lemma freelist_add_run s L a f : listed s L -> vmem_inserted s a = false -> a ∉ L -> frees s !! a = Some f ->
  idx f = vmem_freelist_idx (npages f) -> 0 < npages f ->
  runs (freelist_add s (idx f) a) (fun s' => listed s' (a :: L) /\ exists l, s' = set_list s (idx f) l).
Proof.
  intros [H1 H2 H3] Hins Ha Hf Hi Hn. pose proof (free_at_Some _ _ _ Hf) as Ef. destruct (vmem_freelist_idx_spec _ Hn) as [_ Hr].
  destruct (H1 (idx f)) as [l Hl]; [lia|]. destruct (H2 _ _ Hl) as [Hnd Hin].
  unfold freelist_add, freelist. rewrite Hl, Hins. cbn [deref rbind negb]. apply runs_Done. split; [|eauto].
  assert (Hfr : forall b, free_at (set_list s (idx f) (a :: l)) b = free_at s b) by done.
  split; simpl.
  - intros i Hi'. apply lookup_insert_is_Some'. auto.
  - intros i l' [[<- <-]|[Hne Hl']]%lookup_insert_Some.
    + split; [constructor; [rewrite Hin; tauto|done]|]. intros b. rewrite Hfr, !elem_of_cons, Hin. split; [|tauto].
      intros [->|?]; [rewrite Ef; auto|tauto].
    + destruct (H2 _ _ Hl') as [Hnd' Hin']. split; [done|]. intros b. rewrite Hfr, Hin', elem_of_cons. split; [tauto|].
      intros [[->|?] <-]; [by rewrite Ef in Hne|done].
  - intros b [->|Hb]%elem_of_cons; [rewrite !Hfr, Ef; auto|rewrite !Hfr; auto].
Qed.

(** The operations on the lists do not look at the regions. *)
Lemma freelist_remove_put s i a b g : freelist_remove (put_free s b g) i a = let* s' := freelist_remove s i a in Done (put_free s' b g).
Proof.
  unfold freelist_remove, freelist. simpl. destruct (deref (vmem_freelists s !! i)) as [l| | |]; try done. simpl.
  by destruct (list_remove l a) as [[l' e]| | |].
Qed.
Lemma freelist_add_put s i a b g : freelist_add (put_free s b g) i a = let* s' := freelist_add s i a in Done (put_free s' b g).
Proof.
  unfold freelist_add, freelist, vmem_inserted. simpl. destruct (deref (vmem_freelists s !! i)) as [l| | |]; try done. simpl.
  by destruct (negb _).
Qed.

Lemma put_free_twice s a g g' : put_free (put_free s a g) a g' = put_free s a g'.
Proof. unfold put_free. simpl. by rewrite insert_insert_eq. Qed.

Lemma free_at_put s a g : free_at (put_free s a g) a = g.
Proof. unfold free_at. simpl. by rewrite lookup_insert_eq. Qed.
Lemma free_at_put_ne s a g b : b <> a -> free_at (put_free s a g) b = free_at s b.
Proof. intros. unfold free_at. simpl. by rewrite lookup_insert_ne. Qed.

(** What [vmem_free_resize] changes when the region keeps some pages. *)
Record resized (s : vmem) (a : Z) (f : vmem_free_t) (n : Z) (s' : vmem) : Prop := {
  r_frees : frees s' = <[a := MkFree (vmem_freelist_idx n) (vaddr f) n]> (frees s);
  r_tree : vmem_tree s' = vmem_tree s;
  r_pr : vpr s' = vpr s;
  r_init : vmem_init_free s' = vmem_init_free s;
}.

Lemma resize_run s L a f n : listed s (a :: L) -> a ∉ L -> frees s !! a = Some f -> 0 < n ->
  runs (vmem_free_resize s a n) (fun '(b, s') => b = false /\ listed s' (a :: L) /\ resized s a f n s').
Proof.
  intros HL Ha Hf Hn. unfold vmem_free_resize, get_free. rewrite Hf. cbn [deref rbind].
  destruct (Z.eqb_spec n 0); [lia|]. pose proof (free_at_Some _ _ _ Hf) as Ef. destruct (vmem_freelist_idx_spec n Hn) as [_ Hr].
  destruct (Z.eqb_spec (vmem_freelist_idx n) (idx f)) as [Ei|Ei]; cbn [negb].
  - apply runs_Done. split; [done|]. split; [|split; simpl; [by rewrite Ei|done..]]. pose proof HL as [H1 H2 H3]. split; [done| |].
    + intros i l Hl. destruct (H2 _ _ Hl) as [Hnd Hin]. split; [done|]. intros b. rewrite Hin.
      destruct (decide (b = a)) as [->|Hne]; [by rewrite free_at_put, Ef|by rewrite free_at_put_ne].
    + intros b Hb. destruct (decide (b = a)) as [->|Hne]; [by rewrite free_at_put|rewrite free_at_put_ne by done; auto].
  - rewrite freelist_remove_put, rbind_assoc. eapply runs_bind; [by apply freelist_remove_run|].
    intros s1 (HL1 & Hins & l & ->). cbn [rbind]. rewrite freelist_add_put, rbind_assoc. set (g2 := MkFree (vmem_freelist_idx n) (vaddr f) n).
    set (s1 := set_list s (idx f) l) in *.
    assert (Hadd : runs (freelist_add (put_free s1 a g2) (vmem_freelist_idx n) a) (fun s' => listed s' (a :: L) /\
      exists l', s' = set_list (put_free s1 a g2) (vmem_freelist_idx n) l')).
    { apply (freelist_add_run (put_free s1 a g2) L a g2); [|done|done|simpl; by rewrite lookup_insert_eq|done|done].
      apply (listed_ext s1); [done| |done]. intros b Hb. apply free_at_put_ne. intros ->. done. }
    rewrite freelist_add_put in Hadd. destruct Hadd as (s2 & E2 & HL2 & l' & E2'). apply rbind_Done in E2 as (s3 & E3 & E4).
    injection E4 as <-. rewrite E3. cbn [rbind]. apply runs_Done. rewrite put_free_twice. split; [done|]. split; [done|].
    rewrite E2'. split; simpl; done.
Qed.

(** When it loses all of them. *)
Lemma resize_zero_run s L1 a L2 X f : in_tree s (L1 ++ a :: L2) X -> listed s (L1 ++ a :: L2) -> frees s !! a = Some f ->
  runs (vmem_free_resize s a 0) (fun '(b, s') => b = negb (a =? vmem_init_free s) /\ in_tree s' (L1 ++ L2) (a :: X) /\
    listed s' (L1 ++ L2) /\ frees s' = frees s /\ vpr s' = vpr s /\ vmem_init_free s' = vmem_init_free s).
Proof.
  intros Ht HL Hf. unfold vmem_free_resize, get_free. rewrite Hf. cbn [deref rbind Z.eqb].
  pose proof (seq_NoDup self self _ _ _ Ht) as Hnd. assert (Ha : a ∉ L1 ++ L2) by (apply NoDup_app in Hnd as (Hnd & _); rewrite <- Permutation_middle in Hnd; by apply NoDup_cons in Hnd as [? _]).
  eapply runs_bind.
  { apply (freelist_remove_run s (L1 ++ L2) a f); [|done|done]. apply (listed_perm s (L1 ++ a :: L2)); [set_solver|done]. }
  intros s1 (HL1 & _ & l & ->). cbn [vmem_tree set_list]. eapply runs_bind; [apply (seq_remove self self self_self _ _ _ _ _ Ht)|].
  intros t Ht'. apply runs_Done. split; [done|]. split; [done|]. split; [|done].
  by apply (listed_ext (set_list s (idx f) l)).
Qed.

Lemma vmem_free_free_run s L X a : in_tree s L (a :: X) -> listed s L -> vmem_free_free s a = Done s.
Proof.
  intros Ht HL. unfold vmem_free_free. pose proof (seq_NoDup self self _ _ _ Ht) as Hnd.
  assert (Hins : vmem_inserted s a = false).
  { unfold vmem_inserted. apply bool_decide_eq_false. intros (i & l & Hl & Hin). apply (l_list _ _ HL _ _ Hl) in Hin as [Hin _].
    apply NoDup_app in Hnd as (_ & Hnd & _). apply (Hnd a Hin). by left. }
  rewrite Hins. cbn [negb]. unfold rb_node_destroy.
  pose proof (seq_idle self self _ _ _ a Ht ltac:(by left)) as E. unfold self in E. by rewrite E.
Qed.

(** ** Free pages *)

Definition is_free (s : vmem) (L : list Z) (x : Z) : Prop := exists b, b ∈ L /\ within (free_at s b) x.

Lemma regions_apart s L lo hi a b x : spaced (frees s) lo L hi -> a ∈ L -> b ∈ L -> within (free_at s a) x -> within (free_at s b) x -> NoDup L -> a = b.
Proof.
  intros Hs Ha Hb Hwa Hwb Hnd. apply list_elem_of_split in Ha as (L1 & L2 & ->).
  destruct (spaced_split _ _ _ _ _ _ Hs) as (f & Hf & _ & _ & _ & _ & _ & H1 & H2). rewrite (free_at_Some _ _ _ Hf) in Hwa.
  apply elem_of_app in Hb as [Hb|[->|Hb]%elem_of_cons]; [|done|]; exfalso.
  - destruct (spaced_before _ _ _ _ b H1 Hb) as (g & Hg & ? & ? & ? & _). rewrite (free_at_Some _ _ _ Hg) in Hwb. unfold within in *. lia.
  - destruct (spaced_before _ _ _ _ b H2 Hb) as (g & Hg & ? & ? & ? & _). rewrite (free_at_Some _ _ _ Hg) in Hwb. unfold within in *. lia.
Qed.

Lemma pages_of_app fr L1 L2 : pages_of fr (L1 ++ L2) = pages_of fr L1 + pages_of fr L2.
Proof. induction L1 as [|a L1 IH]; simpl; lia. Qed.

Lemma pages_of_ext fr fr' L : (forall a, a ∈ L -> fr' !! a = fr !! a) -> pages_of fr' L = pages_of fr L.
Proof.
  induction L as [|a L IH]; intros H; simpl; [done|]. rewrite H by (by left). rewrite IH; [done|]. intros b Hb. apply H. by right.
Qed.

Lemma pages_of_bound fr x L e : spaced fr x L e -> PAGE_SZ * pages_of fr L <= e + 1 - x /\ 0 <= pages_of fr L /\ (L <> [] -> PAGE_SZ * pages_of fr L <= e - x).
Proof.
  revert x. induction L as [|a L IH]; intros x; simpl; [intros; split; [lia|done]|].
  intros (f & -> & Hx & _ & Hn & H). destruct (IH _ H) as (IH1 & IH2 & _). simpl. unfold vend in *. pose proof page_pos. split; [lia|]. split; [lia|]. intros _. lia.
Qed.

Record accounted (s : vmem) (L : list Z) (lo hi : Z) : Prop := {
  a_pr : pr_ok (vpr s);
  a_mem : exists mem, vm_pr_mem (vpr s) !! 0%nat = Some mem /\ total mem = hi - lo /\ free mem = PAGE_SZ * pages_of (frees s) L;
}.

(** The pressure after an allocation or a release. *)
Lemma pressure_run s L lo hi mem delta : accounted s L lo hi -> vm_pr_mem (vpr s) !! 0%nat = Some mem ->
  0 <= free mem + delta <= total mem -> - INT64_MAX < delta < INT64_MAX ->
  runs (if delta <? 0 then vm_pressure_inc (vpr s) VM_PR_MEM_KERN (- delta) else vm_pressure_dec (vpr s) VM_PR_MEM_KERN delta)
    (fun p => pr_ok p /\ exists mem', vm_pr_mem p !! 0%nat = Some mem' /\ total mem' = total mem /\ free mem' = free mem + delta).
Proof.
  intros [Hok _] Hm Hd Hr. destruct (vm_pressure_add_spec (vpr s) 0 mem delta Hok Hm) as (p & mem' & E & Hok' & Em & Ef & Et & _); [lia|lia|].
  exists p. assert (Hlt : (0 < length (vm_pr_mem (vpr s)))%nat) by (by eapply lookup_lt_Some).
  split; [|split; [done|]; exists mem'; rewrite Em; change (Z.to_nat 0) with 0%nat; rewrite list_lookup_insert_eq by done; done].
  unfold vm_pressure_inc, vm_pressure_dec, VM_PR_MEM_KERN. destruct (Z.ltb_spec delta 0).
  - rewrite (proj2 (Z.ltb_lt _ _)) by lia. by rewrite Z.opp_involutive.
  - rewrite (proj2 (Z.ltb_lt _ _)) by lia. done.
Qed.

(** ** Allocation *)

Definition in_range (addr n x : Z) : Prop := addr <= x < addr + PAGE_SZ * n.

Record vm_state (s : vmem) (L X : list Z) (lo hi : Z) : Prop := { vs_ok : vm_ok s L X lo hi; vs_acc : accounted s L lo hi }.

Record alloc_done (s : vmem) (L : list Z) (lo hi addr n : Z) (s' : vmem) : Prop := {
  ad_state : exists L' X', vm_state s' L' X' lo hi /\
    forall x, is_free s' L' x <-> is_free s L x /\ ~ in_range addr n x;
  ad_free : forall x, in_range addr n x -> is_free s L x;
  ad_bounds : lo <= addr /\ addr + PAGE_SZ * n <= hi /\ addr mod PAGE_SZ = 0;
}.

(** The body of the loop over a list. *)
Definition take_region (s : vmem) (cur : Z) (f : vmem_free_t) (n size : Z) : res (option Z * vmem) :=
  let* p := vm_pressure_inc (vpr s) VM_PR_MEM_KERN size in
  let s := set_vpr s p in
  let result := u32 (vaddr f + ptoa (npages f - n)) in
  let* '(do_free, s) := vmem_free_resize s cur (npages f - n) in
  let* s := if do_free : bool then vmem_free_free s cur else Done s in
  Done (Some result, s).

Lemma split_nodup (L1 : list Z) a L2 X : NoDup ((L1 ++ a :: L2) ++ X) -> a ∉ L1 /\ a ∉ L2 /\ a ∉ L1 ++ L2 /\ NoDup (L1 ++ L2).
Proof. intros (H & _)%NoDup_app. rewrite <- Permutation_middle in H. apply NoDup_cons in H as [? ?]. set_solver. Qed.

Lemma is_free_split s L1 a L2 f x : frees s !! a = Some f ->
  is_free s (L1 ++ a :: L2) x <-> within f x \/ is_free s (L1 ++ L2) x.
Proof.
  intros Hf. unfold is_free. split.
  - intros (b & [Hb|[->|Hb]%elem_of_cons]%elem_of_app & Hw); [right; exists b; set_solver|left; by rewrite (free_at_Some _ _ _ Hf) in Hw|right; exists b; set_solver].
  - intros [Hw|(b & Hb & Hw)]; [exists a; rewrite (free_at_Some _ _ _ Hf); set_solver|exists b; set_solver].
Qed.

Lemma is_free_ext s s' L x : (forall a, a ∈ L -> frees s' !! a = frees s !! a) -> is_free s' L x <-> is_free s L x.
Proof. intros H. unfold is_free, free_at. split; intros (b & Hb & Hw); exists b; (split; [done|]); by rewrite H in *. Qed.

(** The addresses of a region are not in another one. *)
Lemma region_own s lo L1 a L2 hi f x : spaced (frees s) lo (L1 ++ a :: L2) hi -> frees s !! a = Some f ->
  vaddr f - 1 <= x <= vend f -> ~ is_free s (L1 ++ L2) x.
Proof.
  intros Hs Hf Hw (b & Hb & Hwb). destruct (spaced_split _ _ _ _ _ _ Hs) as (f' & Hf' & _ & _ & _ & _ & _ & H1 & H2).
  assert (f' = f) as -> by congruence. apply elem_of_app in Hb as [Hb|Hb].
  - destruct (spaced_before _ _ _ _ b H1 Hb) as (g & Hg & ? & ? & ? & _). rewrite (free_at_Some _ _ _ Hg) in Hwb. unfold within in *. lia.
  - destruct (spaced_before _ _ _ _ b H2 Hb) as (g & Hg & ? & ? & ? & _). rewrite (free_at_Some _ _ _ Hg) in Hwb. unfold within in *. lia.
Qed.

Lemma page_mul_mod x n : x mod PAGE_SZ = 0 -> (x + PAGE_SZ * n) mod PAGE_SZ = 0.
Proof. intros H. rewrite Z.mul_comm, Z_mod_plus_full. done. Qed.

(** A region is gone, or has lost the pages at its end. *)
Lemma whole_taken s s1 L1 a L2 X f lo hi mem : vm_ok s (L1 ++ a :: L2) X lo hi -> frees s !! a = Some f ->
  in_tree s1 (L1 ++ L2) (a :: X) -> listed s1 (L1 ++ L2) -> frees s1 = frees s ->
  pr_ok (vpr s1) -> vm_pr_mem (vpr s1) !! 0%nat = Some mem -> total mem = hi - lo ->
  free mem = PAGE_SZ * pages_of (frees s) (L1 ++ a :: L2) - PAGE_SZ * npages f ->
  exists L' X', vm_state s1 L' X' lo hi /\
    forall x, is_free s1 L' x <-> is_free s (L1 ++ a :: L2) x /\ ~ in_range (vend f - PAGE_SZ * npages f) (npages f) x.
Proof.
  intros [Hb Ht Hs HL] Hf Ht1 HL1 Ef1 Hpr Hm Htot Hfree.
  destruct (spaced_split _ _ _ _ _ _ Hs) as (f' & Hf' & Hlo & Hhi & Hlt & Hmod & Hpos & H1 & H2). assert (f' = f) as -> by congruence.
  exists (L1 ++ L2), (a :: X). split.
  - split; split; rewrite ?Ef1; try done.
    + apply spaced_app. exists (vaddr f). split; [done|]. by apply (spaced_weaken _ (vend f + 1)); [lia|].
    + exists mem. split; [done|]. split; [done|]. rewrite Hfree, !pages_of_app. simpl. rewrite Hf. simpl. lia.
  - intros x. rewrite (is_free_ext s s1) by (intros; by rewrite Ef1). rewrite (is_free_split s L1 a L2 f x Hf). split.
    + intros Hx. split; [by right|]. intros Hr. apply (region_own s lo L1 a L2 hi f x Hs Hf) in Hx; [done|]. unfold in_range, vend in *. lia.
    + intros [[Hw|?] Hr]; [|done]. destruct Hr. unfold in_range, within, vend in *. lia.
Qed.

Lemma part_taken s s1 L1 a L2 X f n lo hi mem : vm_ok s (L1 ++ a :: L2) X lo hi -> frees s !! a = Some f -> 0 < n < npages f ->
  vmem_tree s1 = vmem_tree s -> listed s1 (L1 ++ a :: L2) -> frees s1 = <[a := MkFree (vmem_freelist_idx (npages f - n)) (vaddr f) (npages f - n)]> (frees s) ->
  pr_ok (vpr s1) -> vm_pr_mem (vpr s1) !! 0%nat = Some mem -> total mem = hi - lo ->
  free mem = PAGE_SZ * pages_of (frees s) (L1 ++ a :: L2) - PAGE_SZ * n ->
  exists L' X', vm_state s1 L' X' lo hi /\
    forall x, is_free s1 L' x <-> is_free s (L1 ++ a :: L2) x /\ ~ in_range (vend f - PAGE_SZ * n) n x.
Proof.
  intros [Hb Ht Hs HL] Hf Hn Et1 HL1 Ef1 Hpr Hm Htot Hfree. pose proof page_pos.
  destruct (spaced_split _ _ _ _ _ _ Hs) as (f' & Hf' & Hlo & Hhi & Hlt & Hmod & Hpos & H1 & H2). assert (f' = f) as -> by congruence.
  destruct (split_nodup _ _ _ _ (seq_NoDup self self _ _ _ Ht)) as (Ha1 & Ha2 & Ha12 & _).
  set (f2 := MkFree (vmem_freelist_idx (npages f - n)) (vaddr f) (npages f - n)) in *.
  assert (Hf2 : frees s1 !! a = Some f2) by (by rewrite Ef1, lookup_insert_eq).
  assert (Heq : forall b, b ∈ L1 ++ L2 -> frees s1 !! b = frees s !! b) by (intros b Hb'; rewrite Ef1, lookup_insert_ne; [done|]; intros ->; done).
  assert (Hend : vend f2 = vend f - PAGE_SZ * n) by (unfold vend, f2; simpl; lia).
  assert (0 <= PAGE_SZ * (npages f - n)) by (apply Z.mul_nonneg_nonneg; lia).
  assert (vaddr f <= vend f - PAGE_SZ * n) by (unfold vend; lia).
  exists (L1 ++ a :: L2), X. split.
  - split; split; try done.
    + unfold in_tree. by rewrite Et1.
    + apply (spaced_join _ _ _ _ _ _ f2 Hf2); simpl; [|lia|done|lia|].
      * apply (spaced_ext (frees s)); [|done]. intros b Hb'. apply Heq. set_solver.
      * apply (spaced_weaken _ (vend f + 1)); [lia|]. apply (spaced_ext (frees s)); [|done]. intros b Hb'. apply Heq. set_solver.
    + exists mem. split; [done|]. split; [done|]. rewrite Hfree, !pages_of_app. simpl. rewrite Hf, Hf2. simpl.
      rewrite !(pages_of_ext (frees s) (frees s1)) by (intros b Hb'; apply Heq; set_solver). lia.
  - intros x. rewrite (is_free_split s1 L1 a L2 f2 x Hf2), (is_free_ext s s1) by done. rewrite (is_free_split s L1 a L2 f x Hf).
    unfold within, in_range. rewrite Hend. simpl. split.
    + intros [Hw|Hx]; [split; [left; lia|lia]|]. split; [by right|]. intros Hr. apply (region_own s lo L1 a L2 hi f x Hs Hf) in Hx; [done|lia].
    + intros [[Hw|?] Hr]; [left; lia|by right].
Qed.

Lemma take_run s L X lo hi a f n mem : vm_state s L X lo hi -> a ∈ L -> frees s !! a = Some f -> 0 < n <= npages f ->
  vm_pr_mem (vpr s) !! 0%nat = Some mem -> PAGE_SZ * n <= free mem ->
  runs (take_region s a f n (PAGE_SZ * n)) (fun '(r, s') => r = Some (vend f - PAGE_SZ * n) /\ alloc_done s L lo hi (vend f - PAGE_SZ * n) n s').
Proof.
  intros [Hok Hacc] Ha Hf Hn Hm Hmem. apply list_elem_of_split in Ha as (L1 & L2 & ->). pose proof Hok as [Hb Ht Hs HL].
  destruct (spaced_split _ _ _ _ _ _ Hs) as (f' & Hf' & Hlo & Hhi & Hlt & Hmod & _). assert (f' = f) as -> by congruence.
  destruct (split_nodup _ _ _ _ (seq_NoDup self self _ _ _ Ht)) as (_ & _ & Ha12 & _).
  pose proof page_pos. assert (Hsz : 0 < PAGE_SZ * n) by lia. assert (Hrem : 0 <= PAGE_SZ * (npages f - n)) by (apply Z.mul_nonneg_nonneg; lia).
  pose proof Hacc as [Hpr (mem' & Hm' & Htot & Hfree)]. assert (mem' = mem) as -> by congruence.
  assert (Hmem_ok : mem_ok mem) by (destruct Hpr as [Hokp _]; eapply Forall_lookup_1; eauto). destruct Hmem_ok as (Hfm & Htm & _).
  pose proof (pressure_run s _ lo hi mem (- (PAGE_SZ * n)) Hacc Hm ltac:(lia) ltac:(unfold INT64_MAX; lia)) as Hinc.
  rewrite (proj2 (Z.ltb_lt _ _)) in Hinc by lia. rewrite Z.opp_involutive in Hinc.
  unfold take_region. eapply runs_bind; [exact Hinc|]. intros p (Hpok & m' & Hm'' & Htot' & Hfree').
  replace (u32 (vaddr f + ptoa (npages f - n))) with (vend f - PAGE_SZ * n).
  2: { unfold vend in *. rewrite ptoa_small by lia. rewrite u32_small by lia. lia. }
  assert (Hdone : forall s1, (exists L' X', vm_state s1 L' X' lo hi /\ forall x, is_free s1 L' x <-> is_free s (L1 ++ a :: L2) x /\ ~ in_range (vend f - PAGE_SZ * n) n x) ->
    alloc_done s (L1 ++ a :: L2) lo hi (vend f - PAGE_SZ * n) n s1).
  { intros s1 H1. split; [done| |].
    - intros x Hx. apply (is_free_split s L1 a L2 f x Hf). left. unfold in_range, within, vend in *. lia.
    - unfold vend in *. split; [lia|]. split; [lia|]. replace (vaddr f + PAGE_SZ * npages f - PAGE_SZ * n) with (vaddr f + PAGE_SZ * (npages f - n)) by lia. by apply page_mul_mod. }
  assert (HL' : listed (set_vpr s p) (L1 ++ a :: L2)) by (by apply (listed_ext s)). destruct (decide (npages f = n)) as [En|Hne].
  - rewrite En, Z.sub_diag. eapply runs_bind; [apply (resize_zero_run (set_vpr s p) L1 a L2 X f); done|].
    intros [b s1] (-> & Ht1 & HL1 & Ef1 & Ep1 & _). cbn [frees vpr set_vpr] in *.
    replace (if negb (a =? vmem_init_free (set_vpr s p)) then vmem_free_free s1 a else Done s1) with (Done s1).
    2: { destruct (negb _); [symmetry; by apply (vmem_free_free_run s1 (L1 ++ L2) X)|done]. }
    apply runs_Done. split; [done|]. apply Hdone. subst n.
    apply (whole_taken s s1 L1 a L2 X f lo hi m'); try done; rewrite ?Ep1; try done; [congruence|lia].
  - eapply runs_bind; [apply (resize_run (set_vpr s p) (L1 ++ L2) a f); [|done|done|lia]|].
    { apply (listed_perm _ (L1 ++ a :: L2)); [set_solver|done]. }
    intros [b s1] (-> & HL1 & [Ef1 Et1 Ep1 _]). cbn [rbind frees vpr vmem_tree set_vpr] in *. apply runs_Done. split; [done|]. apply Hdone.
    apply (part_taken s s1 L1 a L2 X f n lo hi m'); rewrite ?Ep1; try done; [lia| |congruence|lia].
    apply (listed_perm _ (a :: L1 ++ L2)); [set_solver|done].
Qed.

Lemma pages_of_elem s x L e a : spaced (frees s) x L e -> a ∈ L -> npages (free_at s a) <= pages_of (frees s) L.
Proof.
  intros Hs (L1 & L2 & ->)%list_elem_of_split. destruct (spaced_split _ _ _ _ _ _ Hs) as (f & Hf & _ & _ & _ & _ & _ & H1 & H2).
  destruct (pages_of_bound _ _ _ _ H1) as (_ & ? & _). destruct (pages_of_bound _ _ _ _ H2) as (_ & ? & _).
  rewrite pages_of_app. simpl. unfold free_at. rewrite Hf. simpl. lia.
Qed.

Lemma freelist_loop_run s L X lo hi n mem l : vm_state s L X lo hi -> 0 < n ->
  vm_pr_mem (vpr s) !! 0%nat = Some mem -> PAGE_SZ * n <= free mem -> (forall a, a ∈ l -> a ∈ L) ->
  runs (freelist_alloc_loop l s n (PAGE_SZ * n)) (fun '(r, s') =>
    match r with
    | Some addr => alloc_done s L lo hi addr n s'
    | None => s' = s /\ forall a, a ∈ l -> npages (free_at s a) < n
    end).
Proof.
  intros Hst Hn Hm Hmem. induction l as [|a l IH]; intros Hl; cbn [freelist_alloc_loop].
  { apply runs_Done. split; [done|]. intros a Ha. by apply elem_of_nil in Ha. }
  pose proof Hst as [[_ _ Hs _] _]. destruct (spaced_before _ _ _ _ a Hs) as (f & Hf & _); [apply Hl; by left|].
  unfold get_free. rewrite Hf. cbn [deref rbind]. destruct (Z.leb_spec n (npages f)).
  - eapply runs_mono; [apply (take_run s L X lo hi a f n mem); try done; apply Hl; by left|]. intros [r s'] [-> Had]. done.
  - eapply runs_mono; [apply IH; intros b Hb; apply Hl; by right|]. intros [[addr|] s']; [done|]. intros [-> Hall]. split; [done|].
    intros b [->|Hb]%elem_of_cons; [by rewrite (free_at_Some _ _ _ Hf)|auto].
Qed.

Lemma alloc_lists_run s L X lo hi n mem k : vm_state s L X lo hi -> 0 < n ->
  vm_pr_mem (vpr s) !! 0%nat = Some mem -> PAGE_SZ * n <= free mem -> forall i, 0 <= i -> i + Z.of_nat k = VMEM_NFREELIST ->
  runs (alloc_lists k i s n (PAGE_SZ * n)) (fun '(r, s') =>
    match r with
    | Some addr => alloc_done s L lo hi addr n s'
    | None => s' = s /\ forall a, a ∈ L -> i <= idx (free_at s a) -> npages (free_at s a) < n
    end).
Proof.
  intros Hst Hn Hm Hmem. pose proof Hst as [[_ _ _ HL] _]. induction k as [|k IH]; intros i Hi Hk; cbn [alloc_lists].
  { apply runs_Done. split; [done|]. intros a Ha Hia. destruct (l_idx _ _ HL a Ha) as [Ei Hp]. destruct (vmem_freelist_idx_spec _ Hp). lia. }
  unfold vmem_freelist_alloc, freelist. destruct (l_lists _ _ HL i) as [l Hl]; [lia|]. rewrite Hl. cbn [deref rbind].
  destruct (l_list _ _ HL i l Hl) as [_ Hin]. eapply runs_bind; [apply (freelist_loop_run s L X lo hi n mem l); try done; intros a Ha; by apply Hin|].
  intros [[addr|] s1]; [intros H; by apply runs_Done|]. intros [-> Hall].
  eapply runs_mono; [apply (IH (i + 1)); lia|]. intros [[addr|] s2]; [done|]. intros [-> Hrest]. split; [done|].
  intros a Ha Hia. destruct (decide (idx (free_at s a) = i)) as [E|]; [apply Hall; by apply Hin|apply Hrest; [done|lia]].
Qed.

Lemma atop_pages n : 0 <= n -> atop (PAGE_SZ * n) = n.
Proof. intros. unfold atop. rewrite Z.shiftr_div_pow2 by done. change (2 ^ PAGE_SHIFT) with PAGE_SZ. rewrite Z.mul_comm. by apply Z.div_mul. Qed.

Lemma aligned_pages x : 0 <= x -> x mod PAGE_SZ = 0 -> ALIGNED 32 x PAGE_SZ = true.
Proof. intros H0 H. unfold PAGE_SZ in *. rewrite ALIGNED_pow2 by (unfold PAGE_SHIFT; lia). by apply Z.eqb_eq. Qed.

(** A piece of free memory is in one region. *)
Lemma piece_in_region s L X lo hi addr n : vm_ok s L X lo hi -> 0 < n -> (forall x, in_range addr n x -> is_free s L x) ->
  exists a, a ∈ L /\ vaddr (free_at s a) <= addr /\ addr + PAGE_SZ * n <= vend (free_at s a).
Proof.
  intros [_ _ Hs _] Hn Hall. pose proof page_pos. destruct (Hall addr) as (a & Ha & Hw); [unfold in_range; lia|].
  exists a. split; [done|]. unfold within in Hw. split; [lia|]. apply Znot_gt_le. intros Hgt.
  apply list_elem_of_split in Ha as (L1 & L2 & ->). destruct (spaced_split _ _ _ _ _ _ Hs) as (f & Hf & _). rewrite (free_at_Some _ _ _ Hf) in *.
  destruct (Hall (vend f)) as (b & Hb & Hwb); [unfold in_range; lia|].
  assert (Hfr : is_free s (L1 ++ a :: L2) (vend f)) by (exists b; auto). apply (is_free_split s L1 a L2 f _ Hf) in Hfr as [Hw'|Hfr].
  - unfold within in Hw'. lia.
  - apply (region_own s lo L1 a L2 hi f (vend f) Hs Hf) in Hfr; [done|]. lia.
Qed.

Lemma vmem_alloc_run s L X lo hi n : vm_state s L X lo hi -> 0 < n -> PAGE_SZ * n < 2 ^ 32 ->
  runs (vmem_alloc s (PAGE_SZ * n)) (fun '(r, s') =>
    match r with
    | Some addr => alloc_done s L lo hi addr n s'
    | None => s' = s /\ forall addr, ~ (forall x, in_range addr n x -> is_free s L x)
    end).
Proof.
  intros Hst Hn Hlt. pose proof page_pos. assert (Hnone : (forall a, a ∈ L -> npages (free_at s a) < n) ->
    forall addr, ~ (forall x, in_range addr n x -> is_free s L x)).
  { intros Hall addr Hx. destruct (piece_in_region s L X lo hi addr n (vs_ok _ _ _ _ _ Hst) Hn Hx) as (a & Ha & H1 & H2).
    specialize (Hall a Ha). unfold vend in H2. nia. }
  pose proof Hst as [Hok [Hpr (mem & Hm & Htot & Hfree)]]. pose proof Hok as [_ _ Hs HL].
  assert (Hmem_ok : mem_ok mem) by (destruct Hpr as [Hokp _]; eapply Forall_lookup_1; eauto). destruct Hmem_ok as (Hfm & Htm & Hth & _).
  unfold vmem_alloc. rewrite aligned_pages, atop_pages by (rewrite 1?Z.mul_comm, ?Z_mod_mult; lia).
  rewrite (proj2 (Z.ltb_lt 0 (PAGE_SZ * n))) by lia. unfold vm_mem_wait_p, VM_PR_MEM_KERN. change (Z.to_nat 0) with 0%nat. rewrite Hm.
  cbn [deref rbind]. rewrite Hth, Z.add_0_r, u64_small by lia. destruct (Z.ltb_spec (free mem) (PAGE_SZ * n)) as [Hlow|Hen].
  - apply runs_Done. split; [done|]. apply Hnone. intros a Ha. pose proof (pages_of_elem s _ _ _ a Hs Ha). nia.
  - destruct (vmem_freelist_idx_spec n Hn) as [_ Hi].
    eapply runs_mono; [apply (alloc_lists_run s L X lo hi n mem); [done|done|done|done|lia|lia]|].
    intros [[addr|] s']; [done|]. intros [-> Hall]. split; [done|]. apply Hnone. intros a Ha. apply Znot_ge_lt. intros Hge.
    assert (npages (free_at s a) < n); [|lia]. apply Hall; [done|]. destruct (l_idx _ _ HL a Ha) as [-> Hp].
    apply freelist_idx_mono. lia.
Qed.

(** ** Freeing *)

(** A region [a], whose end may touch the region behind it. *)
Record touching (s : vmem) (L1 : list Z) (a : Z) (L2 X : list Z) (f : vmem_free_t) (lo hi : Z) : Prop := {
  to_bounds : 0 < lo /\ hi < 2 ^ 32 /\ lo mod PAGE_SZ = 0 /\ hi mod PAGE_SZ = 0;
  to_tree : in_tree s (L1 ++ a :: L2) X;
  to_listed : listed s (L1 ++ a :: L2);
  to_acc : accounted s (L1 ++ a :: L2) lo hi;
  to_a : frees s !! a = Some f /\ lo <= vaddr f /\ vaddr f mod PAGE_SZ = 0 /\ 0 < npages f /\ vend f <= hi;
  to_before : spaced (frees s) lo L1 (vaddr f - 1);
  to_behind : spaced (frees s) (vend f) L2 hi;
}.

Lemma touching_ordered s L1 a L2 X f lo hi : touching s L1 a L2 X f lo hi -> ordered s (L1 ++ a :: L2).
Proof.
  intros [(Hlo & Hhi & _) _ _ _ (Hf & H1 & _ & H2 & H3) Hb Ha].
  assert (Hlt : vaddr f < vend f) by (unfold vend; pose proof page_pos; lia).
  destruct (spaced_ordered s _ _ _ Hb) as [Sb Ob]; [lia|lia|]. destruct (spaced_ordered s _ _ _ Ha) as [Sa Oa]; [lia|lia|]. split.
  - apply StronglySorted_app_2; [|done|].
    + intros b c Hb' [->|Hc]%elem_of_cons; destruct (spaced_before _ _ _ _ b Hb Hb') as (g & Hg & ? & ? & ? & _); rewrite (free_at_Some _ _ _ Hg).
      * rewrite (free_at_Some _ _ _ Hf). lia.
      * destruct (spaced_before _ _ _ _ c Ha Hc) as (g' & Hg' & ? & _). rewrite (free_at_Some _ _ _ Hg'). lia.
    + constructor; [done|]. apply Forall_forall. intros c Hc. destruct (spaced_before _ _ _ _ c Ha Hc) as (g & Hg & ? & _).
      rewrite (free_at_Some _ _ _ Hf), (free_at_Some _ _ _ Hg). lia.
  - intros b [Hb'|[->|Hc]%elem_of_cons]%elem_of_app; [auto|exists f; split; [done|lia]|auto].
Qed.

Lemma vm_ok_touching s L1 a L2 X f lo hi : touching s L1 a L2 X f lo hi -> spaced (frees s) (vend f + 1) L2 hi -> vm_state s (L1 ++ a :: L2) X lo hi.
Proof.
  intros [Hb Ht HL Hacc (Hf & H1 & H2 & H3 & H4) Hbe Hbh] Hs. split; [|done]. split; try done. by apply (spaced_join _ _ _ _ _ _ f).
Qed.

(** The region behind is merged with [a]. *)
Lemma merge_run s L1 a b L2 X f g lo hi : touching s L1 a (b :: L2) X f lo hi -> frees s !! b = Some g -> vaddr g = vend f ->
  runs (let* '(_, s) := vmem_free_resize s a (npages f + npages g) in
        let* '(do_free, s) := vmem_free_resize s b 0 in
        if do_free : bool then vmem_free_free s b else Done s) (fun s' => exists L' X', vm_state s' L' X' lo hi /\
    forall x, is_free s' L' x <-> is_free s (L1 ++ a :: b :: L2) x).
Proof.
  intros [Hb Ht HL Hacc (Hf & H1 & H2 & H3 & H4) Hbe Hbh] Hg Eg. destruct Hbh as (g' & Hg' & _ & Hgm & Hgn & Hs2). assert (g' = g) as -> by congruence.
  pose proof (seq_NoDup self self _ _ _ Ht) as Hnd. destruct (split_nodup _ _ _ _ Hnd) as (Ha1 & Ha2 & Ha12 & Hnd12).
  assert (Hab : a <> b) by set_solver.
  eapply runs_bind; [apply (resize_run s (L1 ++ b :: L2) a f); [|done|done|lia]|].
  { apply (listed_perm _ (L1 ++ a :: b :: L2)); [set_solver|done]. }
  intros [bo s1] (_ & HL1 & [Ef1 Et1 Ep1 _]). cbn [fst snd].
  set (f2 := MkFree (vmem_freelist_idx (npages f + npages g)) (vaddr f) (npages f + npages g)) in *.
  assert (Hf2 : frees s1 !! a = Some f2) by (by rewrite Ef1, lookup_insert_eq).
  assert (Heq : forall c, c <> a -> frees s1 !! c = frees s !! c) by (intros c Hc; by rewrite Ef1, lookup_insert_ne).
  eapply runs_bind; [apply (resize_zero_run s1 (L1 ++ [a]) b L2 X g)|].
  { unfold in_tree in *. rewrite Et1, <- app_assoc. done. }
  { apply (listed_perm _ (a :: L1 ++ b :: L2)); [set_solver|done]. }
  { by rewrite Heq. }
  intros [do_free s2] (-> & Ht2 & HL2 & Ef2 & Ep2 & _). rewrite <- app_assoc in Ht2, HL2. cbn [app] in Ht2, HL2.
  assert (Efree : (if negb (b =? vmem_init_free s1) then vmem_free_free s2 b else Done s2) = Done s2).
  { destruct (negb _); [by apply (vmem_free_free_run s2 (L1 ++ a :: L2) X)|done]. }
  rewrite Efree. apply runs_Done. exists (L1 ++ a :: L2), (b :: X).
  assert (Hend : vend f2 = vend g) by (unfold vend, f2 in *; simpl; lia).
  assert (Heq' : forall c, c ∈ L1 ++ L2 -> frees s2 !! c = frees s !! c) by (intros c Hc; rewrite Ef2; apply Heq; set_solver).
  assert (Hf2' : frees s2 !! a = Some f2) by (by rewrite Ef2).
  split.
  - split; [split; try done|].
    + apply (spaced_join _ _ _ _ _ _ f2 Hf2'); simpl; try done; [|lia|].
      * apply (spaced_ext (frees s)); [|done]. intros c Hc. apply Heq'. set_solver.
      * rewrite Hend. apply (spaced_ext (frees s)); [|done]. intros c Hc. apply Heq'. set_solver.
    + destruct Hacc as [Hpr (mem & Hm & Htot & Hfree)]. split; rewrite Ep2, Ep1; [done|]. exists mem. split; [done|]. split; [done|].
      rewrite Hfree, !pages_of_app. simpl. rewrite Hf, Hg, Hf2'. simpl.
      rewrite !(pages_of_ext (frees s) (frees s2)) by (intros c Hc; apply Heq'; set_solver). lia.
  - intros x. rewrite (is_free_split s2 L1 a L2 f2 x Hf2'), (is_free_split s L1 a (b :: L2) f x Hf), (is_free_split s L1 b L2 g x Hg).
    rewrite (is_free_ext s s2) by done. unfold within. rewrite Hend. simpl.
    assert (vaddr f < vend f < vend g) by (pose proof page_pos; unfold vend in *; lia).
    split; [|intros [?|[?|?]]; [left; lia|left; lia|by right]].
    intros [?|?]; [|by auto]. destruct (decide (x < vend f)); [left; lia|right; left; lia].
Qed.

Lemma collapse_run s L1 a L2 X f lo hi addr n : touching s L1 a L2 X f lo hi -> vend f = addr + PAGE_SZ * n -> 0 <= n -> 0 <= addr ->
  runs (collapse_next s a addr n) (fun s' => exists L' X', vm_state s' L' X' lo hi /\
    forall x, is_free s' L' x <-> is_free s (L1 ++ a :: L2) x).
Proof.
  intros Hto Hend Hn Haddr. pose proof (touching_ordered _ _ _ _ _ _ _ _ Hto) as Ho.
  pose proof Hto as [(Hlo & Hhi & _) Ht HL Hacc (Hf & H1 & H2 & H3 & H4) Hbe Hbh].
  assert (Hlt : vaddr f < vend f) by (unfold vend; pose proof page_pos; lia).
  assert (Ex : u32 (addr + ptoa n) = vend f) by (rewrite ptoa_small by lia; rewrite u32_small by lia; lia).
  unfold collapse_next. rewrite Ex. eapply runs_bind; [apply (get_free_at_run s _ X _ Ht Ho)|]. intros r Hr.
  destruct L2 as [|b L2].
  - destruct Hr as [[-> _]|[Hr Hw]].
    + cbn [negb Z.eqb]. apply runs_Done. exists (L1 ++ [a]), X. split; [|done]. apply (vm_ok_touching _ _ _ _ _ f); [done|]. simpl. lia.
    + exfalso. apply elem_of_app in Hr as [Hr| ->%list_elem_of_singleton].
      * destruct (spaced_before _ _ _ _ r Hbe Hr) as (g & Hg & ? & ? & ? & _). rewrite (free_at_Some _ _ _ Hg) in Hw. unfold within in Hw.
        assert (vaddr f < vend f) by (unfold vend; pose proof page_pos; lia). lia.
      * rewrite (free_at_Some _ _ _ Hf) in Hw. unfold within in Hw. lia.
  - destruct Hbh as (g & Hg & Hge & Hgm & Hgn & Hs2). destruct Hr as [[-> Hno]|[Hr Hw]].
    + cbn [negb Z.eqb]. apply runs_Done. exists (L1 ++ a :: b :: L2), X. split; [|done]. apply (vm_ok_touching _ _ _ _ _ f); [done|].
      exists g. split; [done|]. assert (vaddr g <> vend f); [|split; [lia|done]]. intros E. apply (Hno b); [set_solver|].
      rewrite (free_at_Some _ _ _ Hg). unfold within, vend in *. pose proof page_pos. lia.
    + assert (r = b) as ->.
      { destruct (ordered_sides s (L1 ++ [a]) b L2) as [Hs1 _]; [by rewrite <- app_assoc|].
        rewrite (free_at_Some _ _ _ Hg) in Hs1. apply elem_of_app in Hr as [Hr|[->|[->|Hr]%elem_of_cons]%elem_of_cons]; [| |done|]; exfalso.
        - destruct (spaced_before _ _ _ _ r Hbe Hr) as (h & Hh & ? & ? & ? & _). rewrite (free_at_Some _ _ _ Hh) in Hw. unfold within in Hw.
          assert (vaddr f < vend f) by (unfold vend; pose proof page_pos; lia). lia.
        - rewrite (free_at_Some _ _ _ Hf) in Hw. unfold within in Hw. lia.
        - destruct (spaced_before _ _ _ _ r Hs2 Hr) as (h & Hh & ? & _). rewrite (free_at_Some _ _ _ Hh) in Hw. unfold within, vend in *. pose proof page_pos. lia. }
      rewrite (proj2 (Z.eqb_neq b 0)) by (eapply in_tree_nonzero; [exact Ht|set_solver]). cbn [negb].
      unfold get_free. rewrite Hf, Hg. cbn [deref rbind]. apply (merge_run s L1 a b L2 X f g lo hi Hto Hg).
      rewrite (free_at_Some _ _ _ Hg) in Hw. unfold within in Hw. lia.
Qed.

(** The regions before and behind an address that is not free. *)
Lemma spaced_cut s x L e addr : spaced (frees s) x L e -> x <= addr -> addr <= e -> ~ is_free s L addr ->
  exists L1 L2, L = L1 ++ L2 /\ (forall b, b ∈ L1 -> vend (free_at s b) <= addr) /\ (forall b, b ∈ L2 -> addr < vaddr (free_at s b)).
Proof.
  revert x. induction L as [|a L IH]; intros x Hs Hx He Hno; [exists [], []; split; [done|]; split; intros b Hb; by apply elem_of_nil in Hb|].
  destruct Hs as (f & Hf & H1 & H2 & H3 & Hs). pose proof (free_at_Some _ _ _ Hf) as Ef.
  assert (Hw : ~ within f addr) by (intros Hw; apply Hno; exists a; rewrite Ef; split; [by left|done]).
  destruct (decide (vend f <= addr)) as [Hle|Hgt].
  - destruct (decide (vend f + 1 <= addr)) as [Hle'|Hgt'].
    + destruct (IH (vend f + 1) Hs Hle' He) as (L1 & L2 & -> & Hl & Hr); [intros (b & Hb & Hwb); apply Hno; exists b; split; [by right|done]|].
      exists (a :: L1), L2. split; [done|]. split; [|done]. intros b [->|Hb]%elem_of_cons; [by rewrite Ef|auto].
    + exists [a], L. split; [done|]. split; [intros b ->%list_elem_of_singleton; by rewrite Ef|].
      intros b Hb. destruct (spaced_before _ _ _ _ b Hs Hb) as (g & Hg & ? & _). rewrite (free_at_Some _ _ _ Hg). lia.
  - exists [], (a :: L). split; [done|]. split; [intros b Hb; by apply elem_of_nil in Hb|]. unfold within in Hw.
    intros b [->|Hb]%elem_of_cons; [rewrite Ef; lia|]. destruct (spaced_before _ _ _ _ b Hs Hb) as (g & Hg & ? & _). rewrite (free_at_Some _ _ _ Hg). lia.
Qed.

Lemma spaced_raise fr x L e y : spaced fr x L e -> y <= e + 1 -> (forall b f, b ∈ L -> fr !! b = Some f -> y <= vaddr f) -> spaced fr y L e.
Proof.
  destruct L as [|a L]; simpl; [done|]. intros (f & Hf & H1 & H2 & H3 & Hs) Hy Hall. exists f. split; [done|]. split; [|done].
  apply (Hall a f); [by left|done].
Qed.

Lemma spaced_lower fr x L e y : spaced fr x L e -> x <= y + 1 -> (forall b f, b ∈ L -> fr !! b = Some f -> vend f <= y) -> spaced fr x L y.
Proof.
  revert x. induction L as [|a L IH]; intros x; simpl; [done|]. intros (f & Hf & H1 & H2 & H3 & Hs) Hy Hall. exists f. do 4 (split; [done|]).
  apply IH; [done| |]; [|intros b g Hb; apply Hall; by right]. specialize (Hall a f ltac:(by left) Hf). lia.
Qed.

(** A structure that is not in the tree is given a fresh node. *)
Lemma node_init_any s L X a : in_tree s L X -> okp a -> a ∉ L -> exists X', seq_tree self self (rb_node_init (vmem_tree s) a a) L (a :: X').
Proof.
  intros Ht Ho Ha. destruct (decide (a ∈ X)) as [Hx|Hx].
  - apply elem_of_Permutation in Hx as (X' & HX). exists X'. assert (Ht' : seq_tree self self (vmem_tree s) L (a :: X')) by (by apply (seq_tree_perm _ _ _ _ X)).
    destruct Ht' as (t & Hs & Hr & Hi). exists t. split; [|done].
    assert (Hn : nodes (vmem_tree s) !! a = Some (RbNode 0 0 0 a)).
    { pose proof Hs as Hs'. unfold holds in Hs'. pose proof (sat_get _ _ _ a (RbNode 0 0 0 a) Hs') as Hg. unfold get in Hg. apply deref_Done, Hg.
      apply elem_of_app. right. apply (list_elem_of_fmap_2 (idle self) (a :: X') a). by left. }
    unfold rb_node_init, Rbtree.put. rewrite insert_id by done. by destruct (vmem_tree s).
  - exists X. apply (seq_node_init self self self_self); [done|done|]. set_solver.
Qed.

Lemma free_checks_run mapped s L X lo hi k : vm_ok s L X lo hi -> forall addr, lo <= addr -> addr + PAGE_SZ * Z.of_nat k <= hi ->
  (forall x, in_range addr (Z.of_nat k) x -> ~ is_free s L x /\ mapped x = false) -> free_checks mapped k s addr = Done tt.
Proof.
  intros [(Hlo & Hhi & _) Ht Hs HL]. pose proof page_pos. induction k as [|k IH]; intros addr Ha He Hno; cbn [free_checks]; [done|].
  assert (Hin : in_range addr (Z.of_nat (S k)) addr) by (unfold in_range; lia). destruct (Hno addr Hin) as [Hnf Hm].
  destruct (get_free_at_run s L X addr Ht) as (r & -> & Hr); [apply (spaced_ordered s lo L hi); [done|lia|lia]|]. cbn [rbind].
  assert (r = 0) as -> by (destruct Hr as [[? _]|[Hr Hw]]; [done|destruct Hnf; by exists r]). cbn [Z.eqb]. rewrite Hm. cbn [negb].
  rewrite u32_small by lia. apply IH; [lia|lia|]. intros x Hx. apply Hno. unfold in_range in *. lia.
Qed.

(** Creating a region. *)
Lemma create_run s L1 L2 X lo hi a addr n : in_tree s (L1 ++ L2) X -> listed s (L1 ++ L2) -> spaced (frees s) lo (L1 ++ L2) hi ->
  okp a -> a ∉ L1 ++ L2 -> 0 < n -> (forall b, b ∈ L1 -> vend (free_at s b) <= addr) -> (forall b, b ∈ L2 -> addr < vaddr (free_at s b)) ->
  runs (vmem_free_create s a addr n) (fun s' => exists X', in_tree s' (L1 ++ a :: L2) X' /\ listed s' (L1 ++ a :: L2) /\
    frees s' = <[a := MkFree (vmem_freelist_idx n) addr n]> (frees s) /\ vpr s' = vpr s).
Proof.
  intros Ht HL Hs Ho Ha Hn H1 H2. destruct (node_init_any s _ X a Ht Ho Ha) as (X' & Ht'). unfold vmem_free_create.
  set (f := MkFree (vmem_freelist_idx n) addr n). set (s1 := put_free s a f). cbn [vmem_tree set_tree]. fold s1.
  assert (Hfr : forall b, b ∈ L1 ++ L2 -> free_at (set_tree s1 (rb_node_init (vmem_tree s1) a a)) b = free_at s b).
  { intros b Hb. unfold s1. apply free_at_put_ne. intros ->. done. }
  eapply runs_bind; [apply (seq_insert self self self_self _ L1 L2 X' a _ Ht')|].
  - apply Forall_forall. intros b Hb. rewrite Hfr by set_solver. specialize (H1 b Hb).
    destruct (spaced_before _ _ _ _ b Hs) as (g & Hg & ? & ? & _); [set_solver|]. rewrite (free_at_Some _ _ _ Hg) in *. apply Z.ltb_ge. lia.
  - apply Forall_forall. intros b Hb. rewrite Hfr by set_solver. apply Z.ltb_lt. auto.
  - intros t Ht2. set (s2 := set_tree _ t). assert (HL2 : listed s2 (L1 ++ L2)) by (apply (listed_ext s); [done|exact Hfr|done]).
    assert (Hins : vmem_inserted s2 a = false).
    { unfold vmem_inserted. apply bool_decide_eq_false. intros (i & l & Hl & Hin). by apply (l_list _ _ HL2 _ _ Hl) in Hin as [? _]. }
    eapply runs_mono; [apply (freelist_add_run s2 (L1 ++ L2) a f HL2 Hins Ha); [simpl; by rewrite lookup_insert_eq|done|done]|].
    intros s' (HL' & l & ->). exists X'. split; [exact Ht2|]. split; [|done]. apply (listed_perm _ (a :: L1 ++ L2)); [set_solver|done].
Qed.

(** The memory that is freed, between the regions [L1] and [L2]. *)
Record freeable (s : vmem) (L1 L2 : list Z) (lo hi addr n : Z) : Prop := {
  fr_n : 0 < n;
  fr_range : lo <= addr /\ addr + PAGE_SZ * n <= hi;
  fr_mod : addr mod PAGE_SZ = 0;
  fr_before : spaced (frees s) lo L1 addr;
  fr_behind : spaced (frees s) (addr + PAGE_SZ * n) L2 hi;
}.

Lemma freeable_cut s L X lo hi addr n : vm_ok s L X lo hi -> 0 < n -> lo <= addr -> addr + PAGE_SZ * n <= hi -> addr mod PAGE_SZ = 0 ->
  (forall x, in_range addr n x -> ~ is_free s L x) -> exists L1 L2, L = L1 ++ L2 /\ freeable s L1 L2 lo hi addr n.
Proof.
  intros [_ _ Hs _] Hn Hlo Hhi Hm Hno. pose proof page_pos.
  destruct (spaced_cut s lo L hi addr Hs) as (L1 & L2 & -> & H1 & H2); [lia|lia|apply Hno; unfold in_range; lia|].
  exists L1, L2. split; [done|]. pose proof Hs as (y & Hs1 & Hs2)%spaced_app. split; try done.
  - apply (spaced_lower _ _ _ (y - 1)); [done|lia|]. intros b f Hb Hf. specialize (H1 b Hb). by rewrite (free_at_Some _ _ _ Hf) in H1.
  - apply (spaced_raise _ y); [done|lia|]. intros b f Hb Hf. specialize (H2 b Hb). rewrite (free_at_Some _ _ _ Hf) in H2.
    apply Znot_gt_le. intros Hgt. apply (Hno (vaddr f)); [unfold in_range; lia|]. exists b. split; [set_solver|].
    rewrite (free_at_Some _ _ _ Hf). destruct (spaced_before _ _ _ _ b Hs2 Hb) as (g & Hg & ? & ? & _). assert (g = f) as -> by congruence.
    unfold within. lia.
Qed.

Lemma freeable_pages s L1 L2 lo hi addr n : freeable s L1 L2 lo hi addr n -> PAGE_SZ * pages_of (frees s) (L1 ++ L2) + PAGE_SZ * n <= hi - lo.
Proof.
  intros [Hn [H1 H2] _ Hb Ha]. rewrite pages_of_app. destruct (pages_of_bound _ _ _ _ Hb) as (_ & _ & Hb').
  destruct (pages_of_bound _ _ _ _ Ha) as (_ & _ & Ha'). pose proof page_pos.
  assert (PAGE_SZ * pages_of (frees s) L1 <= addr - lo) by (destruct L1; [simpl; lia|by apply Hb']).
  assert (PAGE_SZ * pages_of (frees s) L2 <= hi - (addr + PAGE_SZ * n)) by (destruct L2; [simpl; lia|by apply Ha']). lia.
Qed.

(** Memory is added at the end of the region before it, or is a new region. *)
Lemma grow_run s A a R X f lo hi addr n mem : vm_ok s (A ++ a :: R) X lo hi -> frees s !! a = Some f -> vend f = addr -> 0 < n -> addr + PAGE_SZ * n <= hi ->
  spaced (frees s) (addr + PAGE_SZ * n) R hi -> pr_ok (vpr s) -> vm_pr_mem (vpr s) !! 0%nat = Some mem -> total mem = hi - lo ->
  free mem = PAGE_SZ * pages_of (frees s) (A ++ a :: R) + PAGE_SZ * n ->
  runs (let* '(_, s) := vmem_free_resize s a (npages f + n) in collapse_next s a addr n) (fun s' => exists L' X', vm_state s' L' X' lo hi /\
    forall x, is_free s' L' x <-> is_free s (A ++ a :: R) x \/ in_range addr n x).
Proof.
  intros [Hb Ht Hs HL] Hf Hend Hn Hle HR Hpr Hm Htot Hfree. pose proof page_pos.
  destruct (spaced_split _ _ _ _ _ _ Hs) as (f' & Hf' & H1 & H2 & H3 & H4 & H5 & H6 & _). assert (f' = f) as -> by congruence.
  destruct (split_nodup _ _ _ _ (seq_NoDup self self _ _ _ Ht)) as (Ha1 & Ha2 & Ha12 & _).
  eapply runs_bind; [apply (resize_run s (A ++ R) a f); [|done|done|lia]|].
  { apply (listed_perm _ (A ++ a :: R)); [set_solver|done]. }
  intros [bo s1] (_ & HL1 & [Ef1 Et1 Ep1 _]). cbn [fst snd].
  set (f2 := MkFree (vmem_freelist_idx (npages f + n)) (vaddr f) (npages f + n)) in *.
  assert (Hf2 : frees s1 !! a = Some f2) by (by rewrite Ef1, lookup_insert_eq).
  assert (Hend2 : vend f2 = addr + PAGE_SZ * n) by (unfold vend, f2 in *; simpl; lia).
  assert (Heq : forall c, c ∈ A ++ R -> frees s1 !! c = frees s !! c) by (intros c Hc; rewrite Ef1, lookup_insert_ne; [done|]; intros ->; done).
  eapply runs_mono; [apply (collapse_run s1 A a R X f2 lo hi addr n); [|done|lia|lia]|].
  - split; try done.
    + unfold in_tree. by rewrite Et1.
    + apply (listed_perm _ (a :: A ++ R)); [set_solver|done].
    + split; rewrite Ep1; [done|]. exists mem. split; [done|]. split; [done|]. rewrite Hfree, !pages_of_app. simpl. rewrite Hf, Hf2. simpl.
      rewrite !(pages_of_ext (frees s) (frees s1)) by (intros c Hc; apply Heq; set_solver). lia.
    + split; [done|]. simpl. rewrite Hend2. split; [lia|]. split; [done|]. split; lia.
    + simpl. apply (spaced_ext (frees s)); [|done]. intros c Hc. apply Heq. set_solver.
    + rewrite Hend2. apply (spaced_ext (frees s)); [|done]. intros c Hc. apply Heq. set_solver.
  - intros s' (L' & X' & Hst & Hfr). exists L', X'. split; [done|]. intros x. rewrite Hfr, (is_free_split s1 A a R f2 x Hf2), (is_free_ext s s1) by done.
    rewrite (is_free_split s A a R f x Hf). unfold within, in_range. rewrite Hend2. simpl. split.
    + intros [?|?]; [|auto]. destruct (decide (x < addr)); [left; left; lia|right; lia].
    + intros [[?|?]|?]; [left; lia|by right|left; lia].
Qed.

Lemma new_run s L1 L2 X lo hi a addr n mem : vm_ok s (L1 ++ L2) X lo hi -> freeable s L1 L2 lo hi addr n -> ~ is_free s (L1 ++ L2) (addr - 1) ->
  okp a -> a ∉ L1 ++ L2 -> pr_ok (vpr s) -> vm_pr_mem (vpr s) !! 0%nat = Some mem -> total mem = hi - lo ->
  free mem = PAGE_SZ * pages_of (frees s) (L1 ++ L2) + PAGE_SZ * n ->
  runs (let* s := vmem_free_create s a addr n in collapse_next s a addr n) (fun s' => exists L' X', vm_state s' L' X' lo hi /\
    forall x, is_free s' L' x <-> is_free s (L1 ++ L2) x \/ in_range addr n x).
Proof.
  intros [Hb Ht Hs HL] [Hn [Hlo Hhi] Hmod Hbe Hbh] Hprev Ho Ha Hpr Hm Htot Hfree. pose proof page_pos.
  assert (Hleft : forall b f, b ∈ L1 -> frees s !! b = Some f -> vend f <= addr - 1).
  { intros b f Hb' Hf. destruct (spaced_before _ _ _ _ b Hbe Hb') as (g & Hg & ? & ? & ? & _). assert (g = f) as -> by congruence.
    apply Znot_gt_le. intros Hgt. apply Hprev. exists b. split; [set_solver|]. rewrite (free_at_Some _ _ _ Hf). unfold within. lia. }
  eapply runs_bind; [apply (create_run s L1 L2 X lo hi a addr n Ht HL Hs Ho Ha Hn)|].
  { intros b Hb'. destruct (spaced_before _ _ _ _ b Hbe Hb') as (g & Hg & ? & ? & ? & _). by rewrite (free_at_Some _ _ _ Hg). }
  { intros b Hb'. destruct (spaced_before _ _ _ _ b Hbh Hb') as (g & Hg & ? & _). rewrite (free_at_Some _ _ _ Hg). lia. }
  intros s1 (X1 & Ht1 & HL1 & Ef1 & Ep1). set (f2 := MkFree (vmem_freelist_idx n) addr n) in *.
  assert (Hf2 : frees s1 !! a = Some f2) by (by rewrite Ef1, lookup_insert_eq).
  assert (Heq : forall c, c ∈ L1 ++ L2 -> frees s1 !! c = frees s !! c) by (intros c Hc; rewrite Ef1, lookup_insert_ne; [done|]; intros ->; done).
  eapply runs_mono; [apply (collapse_run s1 L1 a L2 X1 f2 lo hi addr n); [|done|lia|lia]|].
  - split; try done.
    + split; rewrite Ep1; [done|]. exists mem. split; [done|]. split; [done|]. rewrite Hfree, !pages_of_app. simpl. rewrite Hf2. simpl.
      rewrite !(pages_of_ext (frees s) (frees s1)) by (intros c Hc; apply Heq; set_solver). lia.
    + apply (spaced_ext (frees s)); [intros c Hc; apply Heq; set_solver|]. apply (spaced_lower _ _ _ addr); [done|simpl; lia|exact Hleft].
    + apply (spaced_ext (frees s)); [intros c Hc; apply Heq; set_solver|done].
  - intros s' (L' & X' & Hst & Hfr). exists L', X'. split; [done|]. intros x.
    rewrite Hfr, (is_free_split s1 L1 a L2 f2 x Hf2), (is_free_ext s s1) by done. unfold within, in_range, vend. simpl. tauto.
Qed.

Lemma vmem_free_run mapped s L X lo hi addr n a slab : vm_state s L X lo hi -> 0 < n -> lo <= addr -> addr + PAGE_SZ * n <= hi -> addr mod PAGE_SZ = 0 ->
  (forall x, in_range addr n x -> ~ is_free s L x /\ mapped x = false) -> okp a -> a ∉ L ->
  runs (vmem_free mapped (Some a :: slab) s addr (PAGE_SZ * n)) (fun s' => exists L' X', vm_state s' L' X' lo hi /\
    forall x, is_free s' L' x <-> is_free s L x \/ in_range addr n x).
Proof.
  intros [Hok Hacc] Hn Hlo Hhi Hmod Hno Ho Ha. pose proof Hok as [(Hl0 & Hh0 & _) Ht Hs HL]. pose proof page_pos.
  destruct (freeable_cut s L X lo hi addr n Hok) as (L1 & L2 & -> & Hfr); [done..|intros x Hx; by apply Hno|].
  unfold vmem_free. rewrite !aligned_pages, atop_pages by (rewrite 1?Z.mul_comm, ?Z_mod_mult; lia).
  rewrite (proj2 (Z.ltb_lt 0 addr)), (proj2 (Z.ltb_lt 0 (PAGE_SZ * n))) by lia.
  rewrite (free_checks_run mapped s (L1 ++ L2) X lo hi (Z.to_nat n) Hok) by (rewrite ?Z2Nat.id by lia; done || lia). cbn [rbind].
  pose proof Hacc as [Hpr (mem & Hm & Htot & Hfree)]. pose proof (freeable_pages _ _ _ _ _ _ _ Hfr) as Hpages.
  assert (Hmem_ok : mem_ok mem) by (destruct Hpr as [Hokp _]; eapply Forall_lookup_1; eauto). destruct Hmem_ok as (Hfm & Htm & _).
  pose proof (pressure_run s _ lo hi mem (PAGE_SZ * n) Hacc Hm ltac:(lia) ltac:(unfold INT64_MAX; lia)) as Hdec.
  destruct (Z.ltb_spec (PAGE_SZ * n) 0); [lia|]. eapply runs_bind; [exact Hdec|]. intros p (Hpok & mem' & Hm' & Htot' & Hfree').
  set (s1 := set_vpr s p). assert (Hok1 : vm_ok s1 (L1 ++ L2) X lo hi) by (destruct Hok; split; [done..|by apply (listed_ext s)]).
  rewrite u32_small by lia. eapply runs_bind; [apply (get_free_at_run s1 (L1 ++ L2) X (addr - 1) Ht); apply (spaced_ordered s1 lo _ hi); [done|lia|lia]|].
  intros r [[-> Hnone]|[Hr Hw]].
  - cbn [negb Z.eqb free_struct rbind]. apply (new_run s1 L1 L2 X lo hi a addr n mem').
    + done.
    + destruct Hfr. by split.
    + intros (b & Hb & Hwb). by apply (Hnone b).
    + done.
    + done.
    + done.
    + done.
    + congruence.
    + by rewrite Hfree', Hfree.
  - rewrite (proj2 (Z.eqb_neq r 0)) by (by eapply in_tree_nonzero). cbn [negb].
    apply list_elem_of_split in Hr as (A & R & E). rewrite E in *. destruct (spaced_split _ _ _ _ _ _ Hs) as (f & Hf & H1 & H2 & H3 & H4 & H5 & H6 & H7).
    unfold get_free. replace (frees s1 !! r) with (Some f) by (symmetry; exact Hf). cbn [deref rbind].
    assert (Hend : vend f = addr).
    { change (free_at s1 r) with (free_at s r) in Hw. rewrite (free_at_Some _ _ _ Hf) in Hw. unfold within in Hw.
      destruct (Hno addr) as [Hna _]; [unfold in_range; lia|]. destruct (decide (vend f = addr)); [done|]. exfalso. apply Hna.
      exists r. split; [set_solver|]. rewrite (free_at_Some _ _ _ Hf). unfold within. lia. }
    apply (grow_run s1 A r R X f lo hi addr n mem'); [done|exact Hf|done|done|done| |done|done|congruence|by rewrite Hfree', Hfree].
    apply (spaced_raise _ (vend f + 1)); [done|lia|]. intros b g Hb Hg. change (frees s !! b = Some g) in Hg. destruct (spaced_before _ _ _ _ b H7 Hb) as (g' & Hg' & ? & ? & _).
    assert (g' = g) as -> by congruence. apply Znot_gt_le. intros Hgt. destruct (Hno (vaddr g)) as [Hna _]; [unfold in_range; lia|].
    apply Hna. exists b. split; [set_solver|]. rewrite (free_at_Some _ _ _ Hg). unfold within. lia.
Qed.

(** ** Initialisation *)

Definition vmem_boot (s : vmem) (lo hi : Z) : Prop :=
  nodes (vmem_tree s) = ∅ /\ root (vmem_tree s) = 0 /\ okp (vmem_init_free s) /\
  vm_pr_wq (vpr s) = [] /\ (0 < length (vm_pr_mem (vpr s)))%nat /\ Forall mem_ok (drop 1 (vm_pr_mem (vpr s))) /\
  0 < lo < hi /\ hi < 2 ^ 32 /\ lo mod PAGE_SZ = 0 /\ hi mod PAGE_SZ = 0.

Lemma page_multiple x : x mod PAGE_SZ = 0 -> exists n, x = PAGE_SZ * n.
Proof. intros H. exists (x / PAGE_SZ). pose proof page_pos. pose proof (Z.div_mod x PAGE_SZ ltac:(lia)). lia. Qed.

Lemma vmem_init_run s lo hi : vmem_boot s lo hi -> runs (vmem_init s lo hi) (fun s' => exists L X, vm_state s' L X lo hi /\
  forall x, is_free s' L x <-> lo <= x < hi).
Proof.
  intros (Hn & Hr & Ho & Hwq & Hlen & Hmem & Hlo & Hhi & Hml & Hmh). pose proof page_pos.
  destruct (page_multiple (hi - lo)) as (n & En); [by rewrite Zminus_mod, Hml, Hmh|].
  unfold vmem_init. rewrite u32_small by lia. rewrite En, atop_pages by lia. set (s0 := MkVmem _ _ _ _ _). cbn [vmem_init_free].
  assert (Ht0 : in_tree s0 [] []).
  { exists E. split_and!; [|split; [done|by exists 0%nat]|done]. unfold holds, sat. simpl. rewrite Hn, Hr. split_and!; [constructor|constructor|done|done]. }
  assert (HL0 : listed s0 []).
  { unfold s0. split; cbn [vmem_freelists].
    - intros i Hi. eexists. apply lookup_gset_to_gmap_Some. split; [|done]. apply elem_of_list_to_set, elem_of_seqZ. lia.
    - intros i l [_ <-]%lookup_gset_to_gmap_Some. split; [constructor|]. intros a. rewrite elem_of_nil. tauto.
    - intros a Ha. by apply elem_of_nil in Ha. }
  eapply runs_mono; [apply (create_run s0 [] [] [] lo hi (vmem_init_free s) lo n Ht0 HL0); [simpl; lia|done|set_solver|lia|set_solver|set_solver]|].
  intros s1 (X & Ht1 & HL1 & Ef1 & Ep1). simpl app in *. set (a := vmem_init_free s) in *. set (f := MkFree (vmem_freelist_idx n) lo n) in *.
  assert (Hf : frees s1 !! a = Some f) by (by rewrite Ef1, lookup_insert_eq).
  assert (Hend : vend f = hi) by (unfold vend, f; simpl; lia). exists [a], X. split.
  - split; [split; [split; [lia|done]|done| |done]|].
    + exists f. split; [done|]. simpl. split; [lia|]. split; [done|]. split; [lia|]. rewrite Hend. lia.
    + split; rewrite Ep1; simpl.
      * split; simpl.
        -- destruct (vm_pr_mem (vpr s)) as [|m0 ms]; [simpl in Hlen; lia|]. simpl in *. constructor; [|done].
           split; simpl; [lia|]. split; [lia|]. split; [done|]. done.
        -- intros i mem w _ Hw. rewrite Hwq in Hw. by apply elem_of_nil in Hw.
      * eexists. rewrite list_lookup_insert_eq by done. split; [done|]. simpl. rewrite Hf. simpl. lia.
  - intros x. unfold is_free. split.
    + intros (b & ->%list_elem_of_singleton & Hw). rewrite (free_at_Some _ _ _ Hf) in Hw. unfold within in Hw. by rewrite Hend in Hw.
    + intros Hx. exists a. split; [by apply list_elem_of_singleton|]. rewrite (free_at_Some _ _ _ Hf). unfold within. by rewrite Hend.
Qed.

(** ** Allocating and freeing *)

(** [blocks] are those that have been allocated and not freed. *)
Record vworld := MkVworld { vm : vmem; blocks : list (Z * Z) }.

Inductive vstep (mapped : Z -> bool) : vworld -> vworld -> Prop :=
| V_alloc w n r s : 0 < n -> PAGE_SZ * n < 2 ^ 32 -> vmem_alloc (vm w) (PAGE_SZ * n) = Done (r, s) ->
    vstep mapped w (MkVworld s (match r with Some addr => (addr, n) :: blocks w | None => blocks w end))
| V_free w B1 addr n B2 a slab s : blocks w = B1 ++ (addr, n) :: B2 -> okp a -> vmem_inserted (vm w) a = false ->
    (forall x, in_range addr n x -> mapped x = false) ->
    vmem_free mapped (Some a :: slab) (vm w) addr (PAGE_SZ * n) = Done s -> vstep mapped w (MkVworld s (B1 ++ B2)).

Definition in_block (x : Z) (b : Z * Z) : Prop := in_range b.1 b.2 x.

Record winv (lo hi : Z) (w : vworld) : Prop := {
  wi_state : exists L X, vm_state (vm w) L X lo hi /\
    forall x, is_free (vm w) L x <-> lo <= x < hi /\ forall b, b ∈ blocks w -> ~ in_block x b;
  wi_blocks : forall addr n, (addr, n) ∈ blocks w -> 0 < n /\ lo <= addr /\ addr + PAGE_SZ * n <= hi /\ addr mod PAGE_SZ = 0;
  wi_apart : forall i j b c x, blocks w !! i = Some b -> blocks w !! j = Some c -> in_block x b -> in_block x c -> i = j;
}.

Lemma winv_alloc lo hi w n r s : winv lo hi w -> 0 < n -> PAGE_SZ * n < 2 ^ 32 -> vmem_alloc (vm w) (PAGE_SZ * n) = Done (r, s) ->
  winv lo hi (MkVworld s (match r with Some addr => (addr, n) :: blocks w | None => blocks w end)) /\
  match r with
  | Some addr => forall x, in_range addr n x -> lo <= x < hi /\ forall b, b ∈ blocks w -> ~ in_block x b
  | None => forall addr, ~ (forall x, in_range addr n x -> lo <= x < hi /\ forall b, b ∈ blocks w -> ~ in_block x b)
  end.
Proof.
  intros [(L & X & Hst & Hfr) Hbl Hap] Hn Hlt E. destruct (vmem_alloc_run (vm w) L X lo hi n Hst Hn Hlt) as (rs & E' & Hr).
  rewrite E in E'. injection E' as <-. destruct r as [addr|].
  - destruct Hr as [(L' & X' & Hst' & Hfr') Hall Hb]. assert (Hnew : forall x, in_range addr n x -> lo <= x < hi /\ forall b, b ∈ blocks w -> ~ in_block x b) by (intros x Hx; by apply Hfr, Hall).
    split; [|done]. split; simpl.
    + exists L', X'. split; [done|]. intros x. rewrite Hfr', Hfr. split.
      * intros [[Hx Hno] Hr]. split; [done|]. intros b [->|Hb']%elem_of_cons; [done|auto].
      * intros [Hx Hno]. split; [split; [done|]|]; [intros b Hb'; apply Hno; by right|]. apply (Hno (addr, n)). by left.
    + intros a' n' [[= -> ->]|H]%elem_of_cons; [tauto|auto].
    + intros [|i] [|j] b c x Hi Hj Hxb Hxc; simpl in *; [done|..].
      * injection Hi as <-. apply list_elem_of_lookup_2 in Hj. by destruct (Hnew x Hxb) as [_ Hno]; destruct (Hno c Hj).
      * injection Hj as <-. apply list_elem_of_lookup_2 in Hi. by destruct (Hnew x Hxc) as [_ Hno]; destruct (Hno b Hi).
      * f_equal. eauto.
  - destruct Hr as [-> Hno]. split; [split; simpl; eauto|]. intros addr Hx. apply (Hno addr). intros x Hx'. by apply Hfr, Hx.
Qed.

Lemma apart_split (lo hi : Z) w B1 b B2 c x : winv lo hi w -> blocks w = B1 ++ b :: B2 -> c ∈ B1 ++ B2 -> in_block x b -> ~ in_block x c.
Proof.
  intros [_ _ Hap] E Hc Hxb Hxc. apply list_elem_of_lookup in Hc as (j & Hj).
  assert (Hi : blocks w !! length B1 = Some b) by (rewrite E; apply list_lookup_middle; done).
  destruct (decide (j < length B1)%nat) as [Hlt|Hge].
  - assert (Hj' : blocks w !! j = Some c) by (rewrite E, lookup_app_l; [|done]; by rewrite lookup_app_l in Hj). pose proof (Hap _ _ _ _ _ Hi Hj' Hxb Hxc). lia.
  - assert (Hj' : blocks w !! S j = Some c).
    { rewrite E, lookup_app_r by lia. replace (S j - length B1)%nat with (S (j - length B1)) by lia. simpl. by rewrite lookup_app_r in Hj by lia. }
    pose proof (Hap _ _ _ _ _ Hi Hj' Hxb Hxc). lia.
Qed.

Lemma winv_free mapped lo hi w B1 addr n B2 a slab : winv lo hi w -> blocks w = B1 ++ (addr, n) :: B2 -> okp a -> vmem_inserted (vm w) a = false ->
  (forall x, in_range addr n x -> mapped x = false) ->
  runs (vmem_free mapped (Some a :: slab) (vm w) addr (PAGE_SZ * n)) (fun s => winv lo hi (MkVworld s (B1 ++ B2))).
Proof.
  intros W E Ho Hins Hmap. pose proof W as [(L & X & Hst & Hfr) Hbl Hap]. destruct (Hbl addr n) as (Hn & Hlo & Hhi & Hmod); [rewrite E; set_solver|].
  assert (Ha : a ∉ L).
  { intros Ha. destruct (vo_listed _ _ _ _ _ (vs_ok _ _ _ _ _ Hst)) as [H1 H2 H3]. destruct (H3 a Ha) as [Hi Hp]. destruct (vmem_freelist_idx_spec _ Hp) as [_ Hb].
    destruct (H1 (idx (free_at (vm w) a))) as [l Hl]; [lia|]. unfold vmem_inserted in Hins. apply bool_decide_eq_false in Hins. apply Hins.
    exists (idx (free_at (vm w) a)), l. split; [done|]. by apply (H2 _ _ Hl). }
  eapply runs_mono; [apply (vmem_free_run mapped (vm w) L X lo hi addr n a slab); try done|].
  { intros x Hx. split; [|auto]. intros [_ Hno]%Hfr. apply (Hno (addr, n)); [rewrite E; set_solver|done]. }
  intros s (L' & X' & Hst' & Hfr'). split; simpl.
  - exists L', X'. split; [done|]. intros x. rewrite Hfr', Hfr, E. split.
    + intros [[Hx Hno]|Hx].
      * split; [done|]. intros b Hb. apply Hno. set_solver.
      * split; [unfold in_range in Hx; lia|]. intros b Hb. by apply (apart_split lo hi w B1 (addr, n) B2).
    + intros [Hx Hno]. destruct (decide (addr <= x < addr + PAGE_SZ * n)) as [Hin|Hin]; [by right|]. left. split; [done|].
      intros b [Hb|[->|Hb]%elem_of_cons]%elem_of_app; [apply Hno; set_solver|exact Hin|apply Hno; set_solver].
  - intros a' n' H. apply Hbl. rewrite E. set_solver.
  - intros i j b c x Hi Hj Hxb Hxc. set (up k := if decide (k < length B1)%nat then k else S k).
    assert (Hup : forall k d, (B1 ++ B2) !! k = Some d -> blocks w !! up k = Some d).
    { intros k d Hk. rewrite E. unfold up. destruct (decide (k < length B1)%nat).
      - rewrite lookup_app_l by done. by rewrite lookup_app_l in Hk.
      - rewrite lookup_app_r by lia. replace (S k - length B1)%nat with (S (k - length B1)) by lia. simpl. by rewrite lookup_app_r in Hk by lia. }
    pose proof (Hap _ _ _ _ _ (Hup _ _ Hi) (Hup _ _ Hj) Hxb Hxc) as Hu. unfold up in Hu. destruct (decide _), (decide _); lia.
Qed.

Lemma winv_init s0 lo hi s1 : vmem_boot s0 lo hi -> vmem_init s0 lo hi = Done s1 -> winv lo hi (MkVworld s1 []).
Proof.
  intros Hboot Hinit. destruct (vmem_init_run s0 lo hi Hboot) as (s' & E & L & X & Hst & Hfr). assert (s' = s1) as -> by congruence. split; simpl.
  - exists L, X. split; [done|]. intros x. rewrite Hfr. split; [intros Hx; split; [done|]; intros b Hb; by apply elem_of_nil in Hb|tauto].
  - intros addr n H. by apply elem_of_nil in H.
  - intros i j b c x Hi. by rewrite lookup_nil in Hi.
Qed.

Lemma winv_step mapped lo hi w w' : winv lo hi w -> vstep mapped w w' -> winv lo hi w'.
Proof.
  intros W Hs. destruct Hs as [w n r s Hn Hlt E|w B1 addr n B2 a slab s E Ho Hi Hm Ef].
  - by apply (winv_alloc lo hi w n r s).
  - destruct (winv_free mapped lo hi w B1 addr n B2 a slab W E Ho Hi Hm) as (s' & Es & W'). congruence.
Qed.


(** ** Examples *)

(** Four pages; then three of them are allocated. *)
Definition vex_blank : vmem := MkVmem (RbSt ∅ 0) ∅ ∅ 0x100 (Pr [PrMem [] 0 0 0 0] []).
Definition vex_or (r : res vmem) : vmem := match r with Done s => s | _ => vex_blank end.
Definition vex_page (s : vmem) : vmem := match vmem_alloc s PAGE_SZ with Done (_, s) => s | _ => vex_blank end.
Definition vex_start : vmem := vex_or (vmem_init vex_blank 0x1000 0x5000).
Definition vex_three : vmem := vex_page (vex_page (vex_page vex_start)).

Lemma vex_boot : vmem_boot vex_blank 0x1000 0x5000.
Proof. repeat split; simpl; try lia. constructor. Qed.


(** When the slab has no structure left, [vmem_free] gives it the page of a
    region of one page and uses the structure of that region for the new one.
    The structure is still in the tree when it is inserted again: here it
    becomes its own child, and a lookup of an address before it does not end. *)
Definition vex_corrupt : vmem := vex_or (vmem_free (fun _ => false) [None] vex_three 0x3000 PAGE_SZ).

Lemma vmem_free_corrupts : vmem_free (fun _ => false) [None] vex_three 0x3000 PAGE_SZ = Done vex_corrupt /\
  forall fuel, rb_search fuel (vmem_tree vex_corrupt) (get_free_at_code vex_corrupt 0x1000) 0 = Stuck.
Proof.
  split; [vm_compute; reflexivity|]. intros fuel. unfold rb_search. replace (root (vmem_tree vex_corrupt)) with 0x100 by (vm_compute; reflexivity).
  assert (Hget : get (vmem_tree vex_corrupt) 0x100 = Done (RbNode 0x100 0 0x100 0x100)) by (vm_compute; reflexivity).
  assert (Hcode : get_free_at_code vex_corrupt 0x1000 0 0x100 = (0, GoLeft)) by (vm_compute; reflexivity).
  induction fuel as [|fuel IH]; [done|]. cbn [search_loop]. change (0x100 =? 0) with false. rewrite Hget. cbn [rbind n_value n_left]. by rewrite Hcode.
Qed.
