(* ===== verification/Slab.v ===== *)
(** * vm/slab.c and vm/malloc.c: allocators of small objects

    A slab is a page that is divided into objects of one size.  The objects that
    are not in use form a list in the page itself ([sfree]); the slabs of an
    allocator that have such objects are in the list of the allocator
    ([afree]).  Which slab an address belongs to is recorded in the structure of
    its physical page ([pages], by page number; a page that is not there is
    [VM_PG_NORMAL]).  The structures of the slabs are objects of the allocator
    [vm_slabs]; its own slabs have their structure at the start of their page.

    Pages come from [vmem_alloc_backed]; what it returns, call by call, is an
    argument ([None] for VMEM_ERR_PTR).  What a thread does while it holds the
    lock of an allocator is one step; a thread that has to wait for memory
    gives up the lock ([Wait]) and goes on later with the [_resume]
    operation. *)
From stdpp Require Import base gmap list relations.
From Stdlib Require Import ZArith Lia Bool.
From S2P Require Import Prelude Interleave Phys.
Open Scope Z_scope.

(** ** Data *)

Definition VM_PTR_ALING_LOG : Z := 2.
Definition VM_PTR_ALIGN : Z := Z.shiftl 1 VM_PTR_ALING_LOG.

Record vm_slaballoc_t := MkAlloc { obj_size : Z; align : Z; afree : list Z }.
Record vm_slab_t := MkSlab { salloc : Z; sfree : list Z; sptr : Z; nfree : Z; nobj : Z }.

Inductive pgstate := VM_PG_SLAB (slab : Z) | VM_PG_MALLOC (malloc_sz : Z).

Record slabsys := MkSys {
  allocs : gmap Z vm_slaballoc_t;
  slabs : gmap Z vm_slab_t;
  pages : gmap Z pgstate;
  vm_slab_list : list Z
}.

Definition set_slab (st : slabsys) (s : Z) (x : vm_slab_t) : slabsys :=
  MkSys (allocs st) (<[s := x]> (slabs st)) (pages st) (vm_slab_list st).
Definition set_afree (st : slabsys) (a : Z) (al : vm_slaballoc_t) (l : list Z) : slabsys :=
  MkSys (<[a := MkAlloc (obj_size al) (align al) l]> (allocs st)) (slabs st) (pages st) (vm_slab_list st).
Definition set_page (st : slabsys) (p : Z) (x : pgstate) : slabsys :=
  MkSys (allocs st) (slabs st) (<[p := x]> (pages st)) (vm_slab_list st).
(** [vmem_free_backed] of a page: [vmem_unback] makes it VM_PG_NORMAL. *)
Definition del_page (st : slabsys) (p : Z) : slabsys :=
  MkSys (allocs st) (slabs st) (delete p (pages st)) (vm_slab_list st).
Definition del_slab (st : slabsys) (s : Z) : slabsys :=
  MkSys (allocs st) (delete s (slabs st)) (pages st) (vm_slab_list st).

(** What a request for memory gives: the thing, nothing, or the lock is released
    to wait; the thread may hold the structure of a slab then. *)
Inductive got := Got (x : Z) | NoMem | Wait (held : option Z).

(** The answer of [vmem_alloc_backed] and those that are left. *)
Definition next_page (mem : list (option Z)) : option Z * list (option Z) :=
  match mem with [] => (None, []) | x :: mem => (x, mem) end.

(** ** vm/slab.c *)

Definition vm_slab_alloc_add (st : slabsys) (a : Z) : slabsys :=
  MkSys (allocs st) (slabs st) (pages st) (vm_slab_list st ++ [a]).

Definition vm_slab_create (st : slabsys) (a size algn : Z) : slabsys :=
  vm_slab_alloc_add (MkSys (<[a := MkAlloc size algn []]> (allocs st)) (slabs st) (pages st) (vm_slab_list st)) a.

(** [DEFINE_VM_SLAB]s in the section of the allocators, and what is done with
    them at the start. *)
Definition vm_slab_init (st : slabsys) (section : list Z) : slabsys := foldl vm_slab_alloc_add st section.

Definition vm_slab_add_free (size : Z) (sl : vm_slab_t) (ptr : Z) : res vm_slab_t :=
  kassert sptr sl <=? ptr in
  kassert 4 <=? size in
  Done (MkSlab (salloc sl) (ptr :: sfree sl) (sptr sl) (u32 (nfree sl + 1)) (nobj sl)).

Definition align_up (algn ptr : Z) : Z := ALIGN 32 ptr (Z.max algn VM_PTR_ALIGN).
Definition vm_slab_mem_align (al : vm_slaballoc_t) (ptr : Z) : Z := align_up (align al) ptr.

Fixpoint mark_pages (fuel : nat) (st : slabsys) (slab ptr i size : Z) : res slabsys :=
  match fuel with
  | O => Stuck
  | S fuel =>
      if i <? size then
        let p := atop (ptr + i) in
        kassert bool_decide (pages st !! p = None) in
        mark_pages fuel (set_page st p (VM_PG_SLAB slab)) slab ptr (i + PAGE_SZ) size
      else Done st
  end.

Fixpoint fill_slab (fuel : nat) (al : vm_slaballoc_t) (sl : vm_slab_t) (ptr end_ : Z) : res vm_slab_t :=
  match fuel with
  | O => Stuck
  | S fuel =>
      if u32 (ptr + obj_size al) <=? end_ then
        let* sl := vm_slab_add_free (obj_size al) sl ptr in
        fill_slab fuel al (MkSlab (salloc sl) (sfree sl) (sptr sl) (nfree sl) (u32 (nobj sl + 1)))
          (vm_slab_mem_align al (u32 (ptr + obj_size al))) end_
      else Done sl
  end.

Definition vm_slab_init_slab (st : slabsys) (a slab ptr size : Z) : res slabsys :=
  let* al := deref (allocs st !! a) in
  let end_ := u32 (ptr + size) in
  let* st := mark_pages (S (Z.to_nat size)) st slab ptr 0 size in
  let* sl := fill_slab (S (Z.to_nat size)) al (MkSlab a [] ptr 0 0) (vm_slab_mem_align al ptr) end_ in
  Done (set_slab st slab sl).

(** [list_append], [list_add] and [list_remove] of a free list: a node that is
    put on the list is not on it. *)
Definition slab_append (st : slabsys) (a s : Z) : res slabsys :=
  let* al := deref (allocs st !! a) in
  kassert bool_decide (s ∉ afree al) in Done (set_afree st a al (afree al ++ [s])).
Definition slab_add (st : slabsys) (a s : Z) : res slabsys :=
  let* al := deref (allocs st !! a) in
  kassert bool_decide (s ∉ afree al) in Done (set_afree st a al (s :: afree al)).
Definition slab_remove (st : slabsys) (a s : Z) : res slabsys :=
  let* al := deref (allocs st !! a) in
  let* '(l, _) := list_remove (afree al) s in Done (set_afree st a al l).

(** [vm_slab_alloc] from the slab that [vm_slab_get] returned. *)
Definition pop_object (st : slabsys) (a s : Z) : res (Z * slabsys) :=
  let* sl := deref (slabs st !! s) in
  match sfree sl with
  | [] => Panic
  | obj :: rest =>
      let n := u32 (nfree sl - 1) in
      let st := set_slab st s (MkSlab (salloc sl) rest (sptr sl) n (nobj sl)) in
      let* st := if n =? 0 then slab_remove st a s else Done st in
      Done (obj, st)
  end.

(** [vm_slab_alloc] with VM_SLAB_NOVALLOC: only from the slabs that exist. *)
Definition alloc_novalloc (st : slabsys) (a : Z) : res (option Z * slabsys) :=
  let* al := deref (allocs st !! a) in
  match afree al with
  | [] => Done (None, st)
  | s :: _ => let* '(obj, st) := pop_object st a s in Done (Some obj, st)
  end.

Definition vm_slab_free (st : slabsys) (a ptr : Z) : res slabsys :=
  kassert negb (ptr =? 0) in
  match pages st !! atop ptr with
  | Some (VM_PG_SLAB s) =>
      let* sl := deref (slabs st !! s) in
      kassert salloc sl =? a in
      let* al := deref (allocs st !! a) in
      let* sl := vm_slab_add_free (obj_size al) sl ptr in
      let st := set_slab st s sl in
      if nfree sl =? 1 then slab_add st a s else Done st
  | _ => Panic
  end.

Section Slabs.
(** The address of the allocator of slab structures, and their size. *)
Variables (vm_slabs slab_size : Z).

Definition vm_add_slab_structs (st : slabsys) (slab size : Z) : res slabsys :=
  kassert PAGE_SZ <=? size in
  let* st := vm_slab_init_slab st vm_slabs slab (slab + slab_size) (size - slab_size) in
  slab_append st vm_slabs slab.

Fixpoint vm_alloc_slab_struct (fuel : nat) (st : slabsys) (mem : list (option Z)) :
    res (option Z * slabsys * list (option Z)) :=
  match fuel with
  | O => Stuck
  | S fuel =>
      let* '(r, st) := alloc_novalloc st vm_slabs in
      match r with
      | Some slab => Done (Some slab, st, mem)
      | None =>
          let '(p, mem) := next_page mem in
          match p with
          | None => Done (None, st, mem)
          | Some page =>
              let* st := vm_add_slab_structs st page PAGE_SZ in
              vm_alloc_slab_struct fuel st mem
          end
      end
  end.

(** [vm_slab_get] from [retry_mem] on. *)
Definition retry_mem (st : slabsys) (a slab : Z) (wait : bool) (mem : list (option Z)) :
    res (got * slabsys * list (option Z)) :=
  let '(p, mem) := next_page mem in
  match p with
  | None =>
      if wait then Done (Wait (Some slab), st, mem)
      else let* st := vm_slab_free st vm_slabs slab in Done (NoMem, st, mem)
  | Some page =>
      let* st := vm_slab_init_slab st a slab page PAGE_SZ in
      let* st := slab_add st a slab in
      Done (Got slab, st, mem)
  end.

Definition vm_slab_get (st : slabsys) (a : Z) (wait : bool) (mem : list (option Z)) :
    res (got * slabsys * list (option Z)) :=
  let* al := deref (allocs st !! a) in
  match afree al with
  | s :: _ => Done (Got s, st, mem)
  | [] =>
      let* '(r, st, mem) := vm_alloc_slab_struct 2 st mem in
      match r with
      | None => Done (if wait then Wait None else NoMem, st, mem)
      | Some slab => retry_mem st a slab wait mem
      end
  end.

(** [vm_slab_get] after [vm_mem_wait]. *)
Definition vm_slab_get_resume (st : slabsys) (a : Z) (held : option Z) (mem : list (option Z)) :
    res (got * slabsys * list (option Z)) :=
  match held with
  | None => vm_slab_get st a true mem
  | Some slab =>
      let* al := deref (allocs st !! a) in
      match afree al with
      | tmp :: _ => let* st := vm_slab_free st vm_slabs slab in Done (Got tmp, st, mem)
      | [] => retry_mem st a slab true mem
      end
  end.

Definition alloc_from (a : Z) (g : got * slabsys * list (option Z)) : res (got * slabsys * list (option Z)) :=
  let '(r, st, mem) := g in
  match r with
  | Got s => let* '(obj, st) := pop_object st a s in Done (Got obj, st, mem)
  | _ => Done (r, st, mem)
  end.

Definition vm_slab_alloc (st : slabsys) (a : Z) (wait : bool) (mem : list (option Z)) :
    res (got * slabsys * list (option Z)) :=
  let* g := vm_slab_get st a wait mem in alloc_from a g.
Definition vm_slab_alloc_resume (st : slabsys) (a : Z) (held : option Z) (mem : list (option Z)) :
    res (got * slabsys * list (option Z)) :=
  let* g := vm_slab_get_resume st a held mem in alloc_from a g.

(** Memory that [vmem_free] gives to the slabs. *)
Fixpoint add_mem_loop (fuel : nat) (st : slabsys) (a ptr size : Z) : res slabsys :=
  match fuel with
  | O => Stuck
  | S fuel =>
      let* '(r, st) := alloc_novalloc st vm_slabs in
      match r with
      | None =>
          let* st := vm_add_slab_structs st ptr PAGE_SZ in
          let size := u32 (size - PAGE_SZ) in
          if size =? 0 then Done st else add_mem_loop fuel st a (u32 (ptr + PAGE_SZ)) size
      | Some slab =>
          let* st := vm_slab_init_slab st a slab ptr size in slab_append st a slab
      end
  end.
Definition vm_slab_add_mem (st : slabsys) (a ptr size : Z) : res slabsys :=
  kassert ALIGNED 32 size PAGE_SZ in
  kassert ALIGNED 32 ptr PAGE_SZ in
  kassert 0 <? size in
  add_mem_loop 2 st a ptr size.

(** The loop of [vm_slab_reclaim]. *)
Fixpoint reclaim_loop (l : list Z) (st : slabsys) : res (bool * slabsys) :=
  match l with
  | [] => Done (false, st)
  | a :: l =>
      let* al := deref (allocs st !! a) in
      match last (afree al) with
      | None => reclaim_loop l st
      | Some s =>
          let* sl := deref (slabs st !! s) in
          if nfree sl =? nobj sl then
            let* st := slab_remove st a s in
            if a =? vm_slabs then Done (true, del_slab (del_page st (atop s)) s)
            else
              let st := del_slab (del_page st (atop (sptr sl))) s in
              let* st := vm_slab_free st vm_slabs s in Done (true, st)
          else reclaim_loop l st
      end
  end.
Definition vm_slab_reclaim (st : slabsys) : res (bool * slabsys) := reclaim_loop (vm_slab_list st) st.

(** ** vm/malloc.c *)

Definition KM_MIN_ORDER : Z := VM_PTR_ALING_LOG.
Definition KM_MAX_ORDER : Z := PAGE_SHIFT.
Definition KM_NUM_ORDER : Z := KM_MAX_ORDER - KM_MIN_ORDER.
Definition KM_ORDER (size : Z) : Z := (32 - clz (size - 1)) - KM_MIN_ORDER.
Definition KM_SLAB_MAX : Z := Z.shiftl 1 (PAGE_SHIFT - 1).

(** [heap i] is the address of [vm_heap_slabs[i]]. *)
Variable heap : Z -> Z.

Definition kmalloc (st : slabsys) (size : Z) (wait : bool) (mem : list (option Z)) :
    res (got * slabsys * list (option Z)) :=
  if KM_SLAB_MAX <? size then
    let size := ALIGN 32 size PAGE_SZ in
    let '(r, mem) := next_page mem in
    match r with
    | None => Done (NoMem, st, mem)
    | Some alloc =>
        kassert bool_decide (pages st !! atop alloc = None) in
        Done (Got alloc, set_page st (atop alloc) (VM_PG_MALLOC size), mem)
    end
  else
    let size := Z.max size (Z.shiftl 1 KM_MIN_ORDER) in
    vm_slab_alloc st (heap (KM_ORDER size)) wait mem.

Definition kfree (st : slabsys) (ptr : Z) : res slabsys :=
  kassert negb (ptr =? 0) in
  match pages st !! atop ptr with
  | None => Panic
  | Some (VM_PG_SLAB s) => let* sl := deref (slabs st !! s) in vm_slab_free st (salloc sl) ptr
  | Some (VM_PG_MALLOC size) => Done (del_page st (atop ptr))
  end.

Definition vm_malloc_init (st : slabsys) : slabsys :=
  foldl (fun st i => vm_slab_create st (heap i) (Z.shiftl 1 (i + KM_MIN_ORDER)) 0) st (seqZ 0 KM_NUM_ORDER).
End Slabs.

(** ** The objects of a slab *)

(** The end of the page of an address. *)
Definition page_end (x : Z) : Z := (x / PAGE_SZ + 1) * PAGE_SZ.

(** Where the objects of a region are: from [ptr], one after the other, each
    aligned. *)
Fixpoint objects (fuel : nat) (sz algn ptr e : Z) : list Z :=
  match fuel with
  | O => []
  | S fuel => if ptr + sz <=? e then ptr :: objects fuel sz algn (align_up algn (ptr + sz)) e else []
  end.

(** Sizes and alignments the slabs can serve: an object has space for the link
    of the free list and fits into a page, the alignment is a power of two. *)
Definition entry_ok (e : Z * Z) : Prop :=
  4 <= e.1 <= PAGE_SZ /\ exists k, 2 <= k <= PAGE_SHIFT /\ Z.max e.2 VM_PTR_ALIGN = 2 ^ k.

Lemma page_sz : PAGE_SZ = 4096.
Proof. reflexivity. Qed.

Lemma atop_div x : atop x = x / PAGE_SZ.
Proof. apply Z.shiftr_div_pow2. done. Qed.

Lemma atop_iff x p : atop x = p <-> PAGE_SZ * p <= x < PAGE_SZ * p + PAGE_SZ.
Proof. rewrite atop_div, page_sz. pose proof (Z.div_mod x 4096 ltac:(lia)). pose proof (Z.mod_pos_bound x 4096 ltac:(lia)). lia. Qed.

Lemma page_end_atop x : page_end x = PAGE_SZ * atop x + PAGE_SZ.
Proof. unfold page_end. rewrite atop_div. lia. Qed.

Lemma align_up_spec k algn x : 2 <= k <= PAGE_SHIFT -> Z.max algn VM_PTR_ALIGN = 2 ^ k -> 0 <= x -> x + PAGE_SZ <= 2 ^ 32 ->
  x <= align_up algn x < x + 2 ^ k /\ align_up algn x mod 2 ^ k = 0 /\ (x mod 2 ^ k = 0 -> align_up algn x = x).
Proof.
  unfold PAGE_SHIFT. intros Hk Ek Hx Hb. unfold align_up. rewrite Ek.
  assert (0 < 2 ^ k <= 2 ^ 12) by (split; [lia|apply Z.pow_le_mono_r; lia]). rewrite page_sz in Hb.
  rewrite ALIGN_pow2 by lia. set (y := x + (2 ^ k - 1)).
  pose proof (Z.div_mod y (2 ^ k) ltac:(lia)) as Hd. pose proof (Z.mod_pos_bound y (2 ^ k) ltac:(lia)) as Hm.
  split; [lia|]. split; [apply Z.mod_mul; lia|].
  intros Hz. pose proof (Z.div_mod x (2 ^ k) ltac:(lia)) as Hdx. rewrite Hz in Hdx.
  assert (y / 2 ^ k = x / 2 ^ k) as ->; [|lia]. symmetry. apply (Z.div_unique_pos y (2 ^ k) _ (2 ^ k - 1)); lia.
Qed.

Section Objects.
Context (sz algn : Z) (Hok : entry_ok (sz, algn)).

Lemma align_up_ge x : 0 <= x -> x + PAGE_SZ <= 2 ^ 32 -> x <= align_up algn x.
Proof. destruct Hok as (_ & k & Hk & Ek). intros Hx Hb. pose proof (align_up_spec k algn x Hk Ek Hx Hb). lia. Qed.

Lemma align_up_page x : 0 <= x -> x + PAGE_SZ <= 2 ^ 32 -> x mod PAGE_SZ = 0 -> align_up algn x = x.
Proof.
  destruct Hok as (_ & k & Hk & Ek). intros Hx Hb Hm. apply (align_up_spec k algn x Hk Ek Hx Hb).
  apply Z.mod_divide; [lia|]. apply Z.mod_divide in Hm; [|done]. etrans; [|exact Hm].
  exists (2 ^ (12 - k)). rewrite page_sz. unfold PAGE_SHIFT in Hk. rewrite <- Z.pow_add_r by lia.
  by replace (12 - k + k) with 12 by lia.
Qed.

Lemma objects_bounds fuel ptr e o : 0 <= ptr -> e + PAGE_SZ <= 2 ^ 32 ->
  o ∈ objects fuel sz algn ptr e -> ptr <= o /\ o + sz <= e.
Proof.
  destruct Hok as (Hsz & _). simpl in Hsz. intros Hp He. revert ptr Hp. induction fuel as [|fuel IH]; intros ptr Hp; simpl; [set_solver|].
  destruct (Z.leb_spec (ptr + sz) e) as [Hle|]; [|set_solver]. intros [->|Ho]%elem_of_cons; [lia|].
  pose proof (align_up_ge (ptr + sz) ltac:(lia) ltac:(lia)). apply IH in Ho; lia.
Qed.

Lemma objects_aligned fuel ptr e o : 0 <= ptr -> e + PAGE_SZ <= 2 ^ 32 ->
  ptr mod Z.max algn VM_PTR_ALIGN = 0 -> o ∈ objects fuel sz algn ptr e -> o mod Z.max algn VM_PTR_ALIGN = 0.
Proof.
  destruct Hok as (Hsz & k & Hk & Ek). simpl in Hsz, Ek. intros Hp He. revert ptr Hp.
  induction fuel as [|fuel IH]; intros ptr Hp Hm; simpl; [set_solver|].
  destruct (Z.leb_spec (ptr + sz) e) as [Hle|]; [|set_solver]. intros [->|Ho]%elem_of_cons; [done|].
  pose proof (align_up_spec k algn (ptr + sz) Hk Ek ltac:(lia) ltac:(lia)) as (? & ? & _). apply IH in Ho; [done|lia|by rewrite Ek].
Qed.

Lemma objects_apart fuel ptr e o o' : 0 <= ptr -> e + PAGE_SZ <= 2 ^ 32 ->
  o ∈ objects fuel sz algn ptr e -> o' ∈ objects fuel sz algn ptr e -> o = o' \/ o + sz <= o' \/ o' + sz <= o.
Proof.
  destruct Hok as (Hsz & _). simpl in Hsz. intros Hp He. revert ptr Hp. induction fuel as [|fuel IH]; intros ptr Hp; simpl; [set_solver|].
  destruct (Z.leb_spec (ptr + sz) e) as [Hle|]; [|set_solver].
  pose proof (align_up_ge (ptr + sz) ltac:(lia) ltac:(lia)) as Hge.
  intros [->|Ho]%elem_of_cons [->|Ho']%elem_of_cons; [by left| | |eapply IH; [|exact Ho|exact Ho']; lia].
  - apply objects_bounds in Ho'; lia.
  - apply objects_bounds in Ho; lia.
Qed.

Lemma objects_NoDup fuel ptr e : 0 <= ptr -> e + PAGE_SZ <= 2 ^ 32 -> NoDup (objects fuel sz algn ptr e).
Proof.
  destruct Hok as (Hsz & _). simpl in Hsz. intros Hp He. revert ptr Hp. induction fuel as [|fuel IH]; intros ptr Hp; simpl; [constructor|].
  destruct (Z.leb_spec (ptr + sz) e) as [Hle|]; [|constructor].
  pose proof (align_up_ge (ptr + sz) ltac:(lia) ltac:(lia)) as Hge.
  constructor; [|apply IH; lia]. intros Ho%objects_bounds; lia.
Qed.

Lemma objects_fuel n m ptr e : 0 <= ptr -> e + PAGE_SZ <= 2 ^ 32 -> e - ptr < Z.of_nat n -> e - ptr < Z.of_nat m ->
  objects n sz algn ptr e = objects m sz algn ptr e.
Proof.
  destruct Hok as (Hsz & _). simpl in Hsz. intros Hp He. revert m ptr Hp. induction n as [|n IH]; intros m ptr Hp Hn Hm.
  - destruct m; simpl; [done|]. destruct (Z.leb_spec (ptr + sz) e); [lia|done].
  - destruct m; simpl; (destruct (Z.leb_spec (ptr + sz) e); [|done]); [lia|].
    pose proof (align_up_ge (ptr + sz) ltac:(lia) ltac:(lia)). f_equal. apply IH; lia.
Qed.

Lemma objects_length n ptr e : 0 <= ptr -> e + PAGE_SZ <= 2 ^ 32 -> Z.of_nat (length (objects n sz algn ptr e)) <= Z.max 0 (e - ptr).
Proof.
  destruct Hok as (Hsz & _). simpl in Hsz. intros Hp He. revert ptr Hp. induction n as [|n IH]; intros ptr Hp; simpl; [lia|].
  destruct (Z.leb_spec (ptr + sz) e); simpl; [|lia].
  pose proof (align_up_ge (ptr + sz) ltac:(lia) ltac:(lia)). specialize (IH (align_up algn (ptr + sz)) ltac:(lia)). lia.
Qed.

Lemma objects_first n ptr e : ptr + sz <= e -> n <> O -> ptr ∈ objects n sz algn ptr e.
Proof. intros Hle Hn. destruct n as [|n]; [done|]. simpl. rewrite (proj2 (Z.leb_le _ _) Hle). left. Qed.

(** The loop of [vm_slab_init_slab] makes these the free objects. *)
Lemma fill_slab_run fuel la sl ptr e : 0 <= sptr sl <= ptr -> e + 2 * PAGE_SZ < 2 ^ 32 -> e - ptr < Z.of_nat fuel ->
  ptr <= e + PAGE_SZ -> 0 <= nfree sl -> 0 <= nobj sl -> nfree sl + Z.max 0 (e - ptr) < 2 ^ 32 -> nobj sl + Z.max 0 (e - ptr) < 2 ^ 32 ->
  fuel <> O ->
  let l := objects fuel sz algn ptr e in
  fill_slab fuel (MkAlloc sz algn la) sl ptr e =
    Done (MkSlab (salloc sl) (rev l ++ sfree sl) (sptr sl) (nfree sl + Z.of_nat (length l)) (nobj sl + Z.of_nat (length l))).
Proof.
  destruct Hok as (Hsz & _). simpl in Hsz. rewrite page_sz in *. intros Hp He.
  revert sl ptr Hp. induction fuel as [|fuel IH]; intros sl ptr Hp Hf Hpe Hn Ho Hnb Hob Hfu l; [done|]. subst l. simpl.
  destruct (decide (ptr + sz < 2 ^ 32)) as [Hs|Hs].
  2: { exfalso. lia. }
  rewrite (u32_small (ptr + sz)) by lia.
  destruct (Z.leb_spec (ptr + sz) e) as [Hle|Hlt]; simpl.
  2: { rewrite !Z.add_0_r. by destruct sl. }
  unfold vm_slab_add_free. rewrite (proj2 (Z.leb_le (sptr sl) ptr)) by lia. rewrite (proj2 (Z.leb_le 4 sz)) by lia. simpl.
  rewrite !u32_small by lia. unfold vm_slab_mem_align; simpl.
  pose proof (align_up_ge (ptr + sz) ltac:(lia) ltac:(rewrite page_sz; lia)) as Hge.
  assert (Hup : align_up algn (ptr + sz) <= e + PAGE_SZ).
  { destruct Hok as (_ & k & Hk & Ek). simpl in Ek. unfold PAGE_SHIFT in Hk. assert (2 ^ k <= 2 ^ 12) by (apply Z.pow_le_mono_r; lia).
    pose proof (align_up_spec k algn (ptr + sz) Hk Ek ltac:(lia) ltac:(rewrite page_sz; lia)). rewrite page_sz. lia. }
  rewrite page_sz in Hup. destruct fuel as [|fuel]; [lia|].
  rewrite IH; simpl; [|lia..|done]. rewrite <- app_assoc. simpl. f_equal. f_equal; lia.
Qed.
End Objects.

Definition slot_fuel : nat := S (Z.to_nat PAGE_SZ).
Lemma slot_fuel_eq : Z.of_nat slot_fuel = PAGE_SZ + 1.
Proof. reflexivity. Qed.
Lemma slot_fuel_pos : slot_fuel <> O.
Proof. done. Qed.
#[local] Opaque objects slot_fuel.

(** ** The invariant *)

Section Invariant.
Context (vm_slabs slab_size : Z) (table : gmap Z (Z * Z)).

(** The sizes and alignments of the allocators; a page has space for the
    structure of the slab and one more. *)
Record table_ok : Prop := {
  t_entry : forall a e, table !! a = Some e -> entry_ok e;
  t_slabs : table !! vm_slabs = Some (slab_size, 0);
  t_size : slab_size mod 4 = 0 /\ 2 * slab_size <= PAGE_SZ
}.

Definition slots (sl : vm_slab_t) : list Z :=
  match table !! salloc sl with
  | Some (sz, algn) => objects slot_fuel sz algn (align_up algn (sptr sl)) (page_end (sptr sl))
  | None => []
  end.

(** Where the structure and the memory of a slab are. *)
Definition head_ok (s : Z) (sl : vm_slab_t) : Prop :=
  is_Some (table !! salloc sl) /\ page_end (sptr sl) + 2 * PAGE_SZ < 2 ^ 32 /\
  exists p, 0 < p /\ p mod PAGE_SZ = 0 /\
    (salloc sl = vm_slabs /\ s = p /\ sptr sl = p + slab_size \/ salloc sl <> vm_slabs /\ sptr sl = p).

Definition homed (st : slabsys) (a o : Z) : Prop :=
  exists s sl, slabs st !! s = Some sl /\ salloc sl = a /\ o ∈ slots sl.

(** Pages that belong to the allocators. *)
Definition big (st : slabsys) (q : Z) : Prop :=
  exists b sz, pages st !! b = Some (VM_PG_MALLOC sz) /\ b <= q < b + sz / PAGE_SZ.
Definition held (st : slabsys) (q : Z) : Prop := is_Some (pages st !! q) \/ big st q.

(** What [vmem_alloc_backed] returns: [n] pages that are not in use. *)
Definition fresh (st : slabsys) (p n : Z) : Prop :=
  p mod PAGE_SZ = 0 /\ 0 < p /\ p + PAGE_SZ * (n + 2) < 2 ^ 32 /\
  forall q, atop p <= q < atop p + n -> ~ held st q.

Record slab_ok (st : slabsys) (lv : gmap Z Z) (s : Z) (sl : vm_slab_t) : Prop := {
  s_head : head_ok s sl;
  s_page : pages st !! atop (sptr sl) = Some (VM_PG_SLAB s);
  s_nodup : NoDup (sfree sl);
  s_nfree : nfree sl = Z.of_nat (length (sfree sl));
  s_nobj : nobj sl = Z.of_nat (length (slots sl));
  s_free : forall o, o ∈ sfree sl <-> o ∈ slots sl /\ lv !! o = None /\ slabs st !! o = None
}.

(** [lv] has the objects that were given out and the allocator of each. *)
Record inv (st : slabsys) (lv : gmap Z Z) : Prop := {
  i_tab : forall a, (fun al => (obj_size al, align al)) <$> allocs st !! a = table !! a;
  i_list : Forall (fun a => is_Some (table !! a)) (vm_slab_list st);
  i_afree : forall a al, allocs st !! a = Some al -> NoDup (afree al) /\
    forall s, s ∈ afree al <-> exists sl, slabs st !! s = Some sl /\ salloc sl = a /\ sfree sl <> [];
  i_slab : forall s sl, slabs st !! s = Some sl -> slab_ok st lv s sl;
  i_key : forall s sl, slabs st !! s = Some sl -> salloc sl = vm_slabs \/ homed st vm_slabs s;
  i_page : forall p s, pages st !! p = Some (VM_PG_SLAB s) -> exists sl, slabs st !! s = Some sl /\ atop (sptr sl) = p;
  i_live : forall o a, lv !! o = Some a -> homed st a o /\ slabs st !! o = None;
  i_big : forall b sz, pages st !! b = Some (VM_PG_MALLOC sz) ->
    0 < b /\ 0 < sz /\ sz mod PAGE_SZ = 0 /\ PAGE_SZ * b + sz <= 2 ^ 32 /\
    forall q, b < q < b + sz / PAGE_SZ -> pages st !! q = None
}.

Hypothesis Htab : table_ok.

Lemma slot_bounds s sl o : head_ok s sl -> o ∈ slots sl -> exists sz algn, table !! salloc sl = Some (sz, algn) /\
  entry_ok (sz, algn) /\ 0 < sptr sl <= o /\ o + sz <= page_end (sptr sl) /\ atop o = atop (sptr sl).
Proof.
  intros ([[sz algn] Et] & Hend & p & Hp & Hm & Hc). pose proof (t_entry Htab _ _ Et) as Hok. unfold slots. rewrite Et. intros Ho.
  assert (Hpos : 0 < sptr sl). { pose proof (t_size Htab). pose proof (t_entry Htab _ _ (t_slabs Htab)) as [? _]. simpl in *. lia. }
  assert (Hpe : sptr sl < page_end (sptr sl)). { rewrite page_end_atop. pose proof (proj1 (atop_iff (sptr sl) _) eq_refl). lia. }
  rewrite page_sz in *.
  pose proof (align_up_ge _ _ Hok (sptr sl) ltac:(lia) ltac:(rewrite page_sz; lia)) as Hge.
  apply (objects_bounds _ _ Hok) in Ho as [H1 H2]; [|lia|rewrite page_sz; lia].
  exists sz, algn. split; [done|]. split; [done|]. split; [lia|]. split; [done|].
  pose proof (proj1 Hok) as Hsz; simpl in Hsz. apply atop_iff. rewrite page_end_atop in H2.
  pose proof (proj1 (atop_iff (sptr sl) _) eq_refl). lia.
Qed.

Lemma slots_NoDup s sl : head_ok s sl -> NoDup (slots sl).
Proof.
  intros ([[sz algn] Et] & Hend & p & Hp & Hm & Hc). pose proof (t_entry Htab _ _ Et) as Hok. unfold slots. rewrite Et.
  assert (Hpos : 0 < sptr sl). { pose proof (t_size Htab). pose proof (t_entry Htab _ _ (t_slabs Htab)) as [? _]. simpl in *. lia. }
  assert (Hpe : sptr sl < page_end (sptr sl)). { rewrite page_end_atop. pose proof (proj1 (atop_iff (sptr sl) _) eq_refl). lia. }
  rewrite page_sz in *. pose proof (align_up_ge _ _ Hok (sptr sl) ltac:(lia) ltac:(rewrite page_sz; lia)).
  apply (objects_NoDup _ _ Hok); [lia|rewrite page_sz; lia].
Qed.

Lemma slots_apart s sl sz algn o o' : head_ok s sl -> table !! salloc sl = Some (sz, algn) ->
  o ∈ slots sl -> o' ∈ slots sl -> o = o' \/ o + sz <= o' \/ o' + sz <= o.
Proof.
  intros Hh Et Ho Ho'. destruct (slot_bounds _ _ _ Hh Ho) as (? & ? & Et' & Hok & ? & ? & _). simplify_eq.
  destruct Hh as (_ & Hend & _). unfold slots in Ho, Ho'. rewrite Et in Ho, Ho'.
  pose proof (proj1 Hok); simpl in *. rewrite page_sz in *.
  pose proof (align_up_ge _ _ Hok (sptr sl) ltac:(lia) ltac:(rewrite page_sz; lia)).
  eapply (objects_apart _ _ Hok); [| |exact Ho|exact Ho']; [lia|rewrite page_sz; lia].
Qed.

Lemma slot_at st lv s sl o : inv st lv -> slabs st !! s = Some sl -> o ∈ slots sl -> pages st !! atop o = Some (VM_PG_SLAB s).
Proof.
  intros Hi Hs Ho. pose proof (i_slab _ _ Hi _ _ Hs) as Hok. destruct (slot_bounds _ _ _ (s_head _ _ _ _ Hok) Ho) as (? & ? & _ & _ & _ & _ & ->).
  apply Hok.
Qed.

Lemma slots_inj st lv s sl t tl o : inv st lv -> slabs st !! s = Some sl -> slabs st !! t = Some tl ->
  o ∈ slots sl -> o ∈ slots tl -> s = t.
Proof. intros Hi Hs Ht Ho Ho'. pose proof (slot_at _ _ _ _ _ Hi Hs Ho). pose proof (slot_at _ _ _ _ _ Hi Ht Ho'). congruence. Qed.

Lemma head_page s sl : head_ok s sl -> salloc sl = vm_slabs -> atop s = atop (sptr sl) /\ s < sptr sl /\ 0 < s.
Proof.
  intros (_ & Hend & p & Hp & Hm & [(Ha & -> & Hs)|(Ha & _)]) E; [|done].
  pose proof (t_size Htab) as [_ H2]. pose proof (t_entry Htab _ _ (t_slabs Htab)) as [H4 _]. simpl in H4.
  split_and!; [|lia..]. rewrite Hs. rewrite page_sz in *. pose proof (Z.div_mod p 4096 ltac:(lia)).
  transitivity (p / 4096); [|symmetry]; apply atop_iff; rewrite page_sz; lia.
Qed.

(** Everything that is in use is on a page of a slab. *)
Lemma key_page st lv o sl : inv st lv -> slabs st !! o = Some sl -> exists t, pages st !! atop o = Some (VM_PG_SLAB t).
Proof.
  intros Hi Hs. destruct (i_key _ _ Hi _ _ Hs) as [E|(t & tl & Ht & _ & Ho)].
  - destruct (i_slab _ _ Hi _ _ Hs) as [Hh Hp]. exists o. by destruct (head_page _ _ Hh E) as [-> _].
  - exists t. by eapply slot_at.
Qed.
Lemma live_page st lv o a : inv st lv -> lv !! o = Some a -> exists t, pages st !! atop o = Some (VM_PG_SLAB t).
Proof. intros Hi (Hh & _)%(i_live _ _ Hi). destruct Hh as (t & tl & Ht & _ & Ho). exists t. by eapply slot_at. Qed.

Lemma homed_mono st st' a o : (forall t tl, slabs st !! t = Some tl -> salloc tl = a -> o ∈ slots tl ->
    exists tl', slabs st' !! t = Some tl' /\ salloc tl' = salloc tl /\ sptr tl' = sptr tl) ->
  homed st a o -> homed st' a o.
Proof.
  intros H (t & tl & Ht & Ea & Ho). destruct (H _ _ Ht Ea Ho) as (tl' & Ht' & Ea' & Ep'). exists t, tl'. split; [done|]. split; [congruence|].
  unfold slots in *. by rewrite Ea', Ep'.
Qed.

Lemma set_afree_id st a al : allocs st !! a = Some al -> set_afree st a al (afree al) = st.
Proof. intros H. unfold set_afree. destruct st as [A B C D]; simpl in *. f_equal. destruct al; simpl. by apply insert_id. Qed.

Lemma tab_afree st a al la : allocs st !! a = Some al -> (forall b, (fun al => (obj_size al, align al)) <$> allocs st !! b = table !! b) ->
  forall b, (fun al => (obj_size al, align al)) <$> (<[a := MkAlloc (obj_size al) (align al) la]> (allocs st)) !! b = table !! b.
Proof.
  intros Ha Ht b. rewrite <- Ht. destruct (decide (b = a)) as [->|]; [|by rewrite lookup_insert_ne].
  by rewrite lookup_insert_eq, Ha.
Qed.

(** The list of one allocator and one of its slabs change. *)
Lemma slab_lists_update st (S' : gmap Z vm_slab_t) a al la s lv : inv st lv -> allocs st !! a = Some al -> NoDup la ->
  (forall t, t <> s -> S' !! t = slabs st !! t) ->
  (forall sl, slabs st !! s = Some sl \/ S' !! s = Some sl -> salloc sl = a) ->
  (forall t, t ∈ la <-> t <> s /\ t ∈ afree al \/ t = s /\ exists sl, S' !! s = Some sl /\ sfree sl <> []) ->
  forall b bl, (<[a := MkAlloc (obj_size al) (align al) la]> (allocs st)) !! b = Some bl -> NoDup (afree bl) /\
    forall t, t ∈ afree bl <-> exists sl, S' !! t = Some sl /\ salloc sl = b /\ sfree sl <> [].
Proof.
  intros Hi Ha Hnd Hout Hs Hmem b bl [[<- <-]|[Hne Hb]]%lookup_insert_Some; simpl.
  - split; [done|]. intros t. rewrite Hmem. destruct (decide (t = s)) as [->|Hts]; [naive_solver|].
    rewrite (Hout t), (proj2 (i_afree _ _ Hi _ _ Ha)) by done. naive_solver.
  - destruct (i_afree _ _ Hi _ _ Hb) as [? Hm]. split; [done|]. intros t. rewrite Hm.
    destruct (decide (t = s)) as [->|Hts]; [naive_solver|by rewrite Hout].
Qed.

(** Objects of one slab are taken or come back. *)
Lemma inv_refill st lv s sl l al la lv' : inv st lv -> slabs st !! s = Some sl -> allocs st !! salloc sl = Some al ->
  NoDup l -> (forall o, o ∈ l <-> o ∈ slots sl /\ lv' !! o = None /\ slabs st !! o = None) ->
  (forall o, o ∉ slots sl -> lv' !! o = lv !! o) ->
  (forall o a, lv' !! o = Some a -> o ∈ slots sl -> a = salloc sl /\ slabs st !! o = None) ->
  NoDup la -> (forall t, t ∈ la <-> t <> s /\ t ∈ afree al \/ t = s /\ l <> []) ->
  inv (set_afree (set_slab st s (MkSlab (salloc sl) l (sptr sl) (Z.of_nat (length l)) (nobj sl))) (salloc sl) al la) lv'.
Proof.
  intros Hi Hs Ha Hnd Hl Hout Hin Hla Hmem. set (st' := set_afree _ _ _ _). set (sl' := MkSlab _ _ _ _ _) in *.
  assert (Hsl : slabs st' = <[s := sl']> (slabs st)) by done.
  assert (Hdom : forall o, slabs st' !! o = None <-> slabs st !! o = None).
  { intros o. rewrite Hsl. destruct (decide (o = s)) as [->|]; [rewrite lookup_insert_eq, Hs; naive_solver|by rewrite lookup_insert_ne]. }
  assert (Hho : forall a o, homed st a o -> homed st' a o).
  { intros a o. apply homed_mono. intros t tl Ht _ _. rewrite Hsl. destruct (decide (t = s)) as [->|].
    - rewrite lookup_insert_eq. exists sl'. by simplify_eq.
    - rewrite lookup_insert_ne by done. by exists tl. }
  split.
  - simpl. apply tab_afree; [done|apply Hi].
  - apply Hi.
  - eapply (slab_lists_update st _ _ _ _ s); [done..| | |].
    + intros t Ht. by rewrite Hsl, lookup_insert_ne.
    + rewrite Hsl, lookup_insert_eq. naive_solver.
    + intros t. rewrite Hmem, Hsl, lookup_insert_eq. naive_solver.
  - intros t tl. rewrite Hsl. intros [[<- <-]|[Hts Ht]]%lookup_insert_Some.
    + destruct (i_slab _ _ Hi _ _ Hs). split; try done. intros o. rewrite Hdom. apply Hl.
    + destruct (i_slab _ _ Hi _ _ Ht) as [? ? ? ? ? Hf]. split; try done.
      intros o. rewrite Hf, Hdom. split; intros (Ho & Hrest); (split; [done|]);
        by rewrite Hout in * by (intros Ho'; apply Hts; by eapply slots_inj).
  - intros t tl. rewrite Hsl. intros [[<- <-]|[Hts Ht]]%lookup_insert_Some.
    + destruct (i_key _ _ Hi _ _ Hs); eauto.
    + destruct (i_key _ _ Hi _ _ Ht); eauto.
  - intros p t Hp. destruct (i_page _ _ Hi _ _ Hp) as (tl & Ht & Hat). rewrite Hsl. destruct (decide (t = s)) as [->|].
    + rewrite lookup_insert_eq. exists sl'. by simplify_eq.
    + rewrite lookup_insert_ne by done. eauto.
  - intros o a Ho. rewrite Hdom. destruct (decide (o ∈ slots sl)) as [Hos|Hos].
    + destruct (Hin _ _ Ho Hos) as [-> ?]. split; [|done]. apply Hho. by exists s, sl.
    + rewrite Hout in Ho by done. destruct (i_live _ _ Hi _ _ Ho). eauto.
  - apply Hi.
Qed.

(** ** A new slab

    Its structure is at the start of the page or was an object of [vm_slabs];
    the page is not in use. *)
Section New.
Context (st : slabsys) (lv lv' : gmap Z Z) (s : Z) (sl : vm_slab_t).
Hypotheses (Hi : inv st lv) (Hs : slabs st !! s = None) (Hh : head_ok s sl) (Hfr : ~ held st (atop (sptr sl))).
Hypothesis Hcase : salloc sl = vm_slabs /\ lv' = lv \/ salloc sl <> vm_slabs /\ lv !! s = Some vm_slabs /\ lv' = delete s lv.

Lemma new_page : pages st !! atop (sptr sl) = None.
Proof. destruct (pages st !! _) eqn:E; [|done]. exfalso. apply Hfr. left. rewrite E. eauto. Qed.

Lemma new_unused o : o ∈ slots sl -> lv !! o = None /\ slabs st !! o = None /\ o <> s.
Proof.
  intros Ho. pose proof new_page as Hnp. destruct (slot_bounds _ _ _ Hh Ho) as (? & ? & _ & _ & Hge & _ & Hat). split_and!.
  - destruct (lv !! o) eqn:E; [|done]. destruct (live_page _ _ _ _ Hi E) as [t Ht]. rewrite Hat in Ht. congruence.
  - destruct (slabs st !! o) eqn:E; [|done]. destruct (key_page _ _ _ _ Hi E) as [t Ht]. rewrite Hat in Ht. congruence.
  - intros ->. destruct Hcase as [[E _]|(_ & Hl & _)]; [destruct (head_page _ _ Hh E); lia|].
    destruct (live_page _ _ _ _ Hi Hl) as [t Ht]. rewrite Hat in Ht. congruence.
Qed.

Lemma new_old t tl o : slabs st !! t = Some tl -> o ∈ slots tl ->
  (lv' !! o = None /\ <[s := sl]> (slabs st) !! o = None <-> lv !! o = None /\ slabs st !! o = None).
Proof.
  intros Ht Ho. destruct (decide (o = s)) as [->|Hos].
  - rewrite lookup_insert_eq. destruct Hcase as [[E ->]|(_ & Hl & ->)]; [|rewrite lookup_delete_eq, Hl; naive_solver].
    exfalso. pose proof (slot_at _ _ _ _ _ Hi Ht Ho) as Hp. destruct (head_page _ _ Hh E) as [E' _]. rewrite E', new_page in Hp. done.
  - rewrite lookup_insert_ne by done. destruct Hcase as [[_ ->]|(_ & _ & ->)]; [done|]. by rewrite lookup_delete_ne.
Qed.

Lemma new_live o a : lv' !! o = Some a -> o <> s /\ lv !! o = Some a.
Proof.
  destruct Hcase as [[E ->]|(_ & Hl & ->)]; [|intros Ho%lookup_delete_Some; naive_solver]. intros Ho. split; [|done]. intros ->.
  destruct (live_page _ _ _ _ Hi Ho) as [t Ht]. destruct (head_page _ _ Hh E) as [E' _]. rewrite E', new_page in Ht. done.
Qed.

Hypotheses (Hf : sfree sl = rev (slots sl)) (Hne : slots sl <> []).
Hypotheses (Hnf : nfree sl = Z.of_nat (length (slots sl))) (Hno : nobj sl = Z.of_nat (length (slots sl))).

Lemma inv_new al la : allocs st !! salloc sl = Some al -> NoDup la -> (forall t, t ∈ la <-> t = s \/ t ∈ afree al) ->
  inv (set_afree (set_slab (set_page st (atop (sptr sl)) (VM_PG_SLAB s)) s sl) (salloc sl) al la) lv'.
Proof.
  intros Ha Hla Hmem. set (st' := set_afree _ _ _ _). pose proof new_page as Hnp.
  assert (Hsl : slabs st' = <[s := sl]> (slabs st)) by done.
  assert (Hpg : pages st' = <[atop (sptr sl) := VM_PG_SLAB s]> (pages st)) by done.
  assert (Hkeep : forall t tl, slabs st !! t = Some tl -> slabs st' !! t = Some tl).
  { intros t tl Ht. by rewrite Hsl, lookup_insert_ne by congruence. }
  assert (Hho : forall a o, homed st a o -> homed st' a o) by (intros a o; apply homed_mono; eauto).
  split.
  - simpl. apply tab_afree; [done|apply Hi].
  - apply Hi.
  - eapply (slab_lists_update st _ _ _ _ s); [done..| | |].
    + intros t Ht. by rewrite Hsl, lookup_insert_ne.
    + rewrite Hsl, lookup_insert_eq, Hs. naive_solver.
    + assert (Hin : s ∉ afree al). { intros (? & ? & _)%(proj2 (i_afree _ _ Hi _ _ Ha)). congruence. }
      assert (rev (slots sl) <> []) by (intros E; apply Hne; rewrite <- (rev_involutive (slots sl)), E; done).
      intros t. rewrite Hmem, Hsl, lookup_insert_eq. rewrite <- Hf in *. split; [|naive_solver]. intros [->|Ht]; [eauto|]. left. split; [congruence|done].
  - intros t tl. rewrite Hsl. intros [[<- <-]|[Hts Ht]]%lookup_insert_Some.
    + split; [done|by rewrite Hpg, lookup_insert_eq| |by rewrite Hf, length_rev|done|].
      * rewrite Hf, <- Permutation_rev. by eapply slots_NoDup.
      * intros o. rewrite Hf, <- Permutation_rev. split; [|by intros []].
        intros Ho. destruct (new_unused _ Ho) as (H1 & H2 & H3). rewrite Hsl, lookup_insert_ne by done. split_and!; [done| |done].
        destruct (lv' !! o) eqn:E; [|done]. apply new_live in E as []. congruence.
    + destruct (i_slab _ _ Hi _ _ Ht) as [? Hp ? ? ? Hfree]. split; [done| |done..|].
      * rewrite Hpg, lookup_insert_ne by congruence. done.
      * intros o. rewrite Hfree. split; intros (Ho & Hr); (split; [done|]); by apply (new_old _ _ _ Ht Ho).
  - intros t tl. rewrite Hsl. intros [[<- <-]|[Hts Ht]]%lookup_insert_Some.
    + destruct Hcase as [[? _]|(_ & Hl & _)]; [by left|right]. apply Hho. by apply (i_live _ _ Hi).
    + destruct (i_key _ _ Hi _ _ Ht); eauto.
  - intros p t. rewrite Hpg. intros [[<- [= <-]]|[_ Hp]]%lookup_insert_Some.
    + exists sl. by rewrite Hsl, lookup_insert_eq.
    + destruct (i_page _ _ Hi _ _ Hp) as (tl & Ht & ?). eauto.
  - intros o a [Hos Hl]%new_live. destruct (i_live _ _ Hi _ _ Hl). split; [eauto|]. by rewrite Hsl, lookup_insert_ne.
  - intros b sz. rewrite Hpg. intros [[_ ?]|[Hne' Hb]]%lookup_insert_Some; [done|].
    destruct (i_big _ _ Hi _ _ Hb) as (? & ? & ? & ? & Hq). split_and!; [done..|]. intros q Hin.
    rewrite lookup_insert_ne; [by apply Hq|]. intros Eq. apply Hfr. right. exists b, sz. split; [done|lia].
Qed.
End New.

(** ** A slab without objects in use goes away *)
Section Old.
Context (st : slabsys) (lv lv' : gmap Z Z) (s : Z) (sl : vm_slab_t).
Hypotheses (Hi : inv st lv) (Hs : slabs st !! s = Some sl) (Hall : nfree sl = nobj sl).
Hypothesis Hcase : salloc sl = vm_slabs /\ lv' = lv \/ salloc sl <> vm_slabs /\ lv' = <[s := vm_slabs]> lv.

Lemma old_unused o : o ∈ slots sl -> lv !! o = None /\ slabs st !! o = None.
Proof.
  destruct (i_slab _ _ Hi _ _ Hs) as [Hh _ Hnd Hnf Hno Hf]. intros Ho.
  assert (Hp : sfree sl ≡ₚ slots sl).
  { apply submseteq_length_Permutation; [|lia]. apply NoDup_submseteq; [done|]. intros x Hx. by apply Hf. }
  rewrite <- Hp in Ho. by apply Hf.
Qed.

Lemma old_homed a o : homed st a o -> (is_Some (lv !! o) \/ is_Some (slabs st !! o)) ->
  exists t tl, t <> s /\ slabs st !! t = Some tl /\ salloc tl = a /\ o ∈ slots tl.
Proof.
  intros (t & tl & Ht & Ea & Ho) Hu. exists t, tl. split; [|done]. intros ->. simplify_eq.
  destruct (old_unused _ Ho) as [E1 E2]. rewrite E1, E2 in Hu. destruct Hu as [[]|[]]; done.
Qed.

Lemma old_old t tl o : t <> s -> slabs st !! t = Some tl -> o ∈ slots tl ->
  (lv' !! o = None /\ delete s (slabs st) !! o = None <-> lv !! o = None /\ slabs st !! o = None).
Proof.
  intros Hts Ht Ho. destruct (decide (o = s)) as [->|Hos].
  - destruct Hcase as [[E ->]|(_ & ->)]; [|rewrite lookup_insert_eq, Hs; naive_solver].
    exfalso. pose proof (slot_at _ _ _ _ _ Hi Ht Ho) as Hp. destruct (i_slab _ _ Hi _ _ Hs) as [Hh Hp' _ _ _ _].
    destruct (head_page _ _ Hh E) as [E' _]. rewrite E' in Hp. congruence.
  - rewrite lookup_delete_ne by done. destruct Hcase as [[_ ->]|(_ & ->)]; [done|]. by rewrite lookup_insert_ne.
Qed.

Lemma inv_del al la : allocs st !! salloc sl = Some al -> NoDup la -> (forall t, t ∈ la <-> t <> s /\ t ∈ afree al) ->
  inv (del_slab (del_page (set_afree st (salloc sl) al la) (atop (sptr sl))) s) lv'.
Proof.
  intros Ha Hla Hmem. set (st' := del_slab _ _).
  assert (Hsl : slabs st' = delete s (slabs st)) by done.
  assert (Hpg : pages st' = delete (atop (sptr sl)) (pages st)) by done.
  assert (Hho : forall a o, homed st a o -> is_Some (lv !! o) \/ is_Some (slabs st !! o) -> homed st' a o).
  { intros a o Ho Hu. destruct (old_homed a o Ho Hu) as (t & tl & Hts & Ht & Ea & Hos). exists t, tl. by rewrite Hsl, lookup_delete_ne. }
  split.
  - simpl. apply tab_afree; [done|apply Hi].
  - apply Hi.
  - eapply (slab_lists_update st _ _ _ _ s); [done..| | |].
    + intros t Ht. by rewrite Hsl, lookup_delete_ne.
    + rewrite Hsl, lookup_delete_eq, Hs. naive_solver.
    + intros t. rewrite Hmem, Hsl, lookup_delete_eq. naive_solver.
  - intros t tl. rewrite Hsl. intros [Hts Ht]%lookup_delete_Some.
    destruct (i_slab _ _ Hi _ _ Ht) as [? Hp ? ? ? Hfree]. split; [done| |done..|].
    + rewrite Hpg, lookup_delete_ne; [done|]. intros E. pose proof (s_page _ _ _ _ (i_slab _ _ Hi _ _ Hs)). congruence.
    + intros o. rewrite Hfree, Hsl. split; intros (Ho & Hr); (split; [done|]); by apply (old_old t tl o).
  - intros t tl. rewrite Hsl. intros [Hts Ht]%lookup_delete_Some. destruct (i_key _ _ Hi _ _ Ht) as [?|?]; [by left|right].
    apply Hho; [done|]. rewrite Ht. eauto.
  - intros p t. rewrite Hpg. intros [Hne Hp]%lookup_delete_Some. destruct (i_page _ _ Hi _ _ Hp) as (tl & Ht & ?). exists tl.
    rewrite Hsl, lookup_delete_ne; [done|]. intros ->. congruence.
  - intros o a Ho. destruct (decide (o = s)) as [->|Hos].
    + destruct Hcase as [[E ->]|(Hn & ->)]; [apply (i_live _ _ Hi) in Ho as [_ ?]; congruence|].
      rewrite lookup_insert_eq in Ho. simplify_eq. rewrite Hsl, lookup_delete_eq. split; [|done].
      destruct (i_key _ _ Hi _ _ Hs) as [?|?]; [done|]. apply Hho; [done|]. rewrite Hs. eauto.
    + assert (Hl : lv !! o = Some a). { destruct Hcase as [[_ ->]|(_ & ->)]; [done|]. by rewrite lookup_insert_ne in Ho. }
      destruct (i_live _ _ Hi _ _ Hl). rewrite Hsl, lookup_delete_ne by done. split; [|done]. apply Hho; [done|]. rewrite Hl. eauto.
  - intros b sz. rewrite Hpg. intros [Hne Hb]%lookup_delete_Some. destruct (i_big _ _ Hi _ _ Hb) as (? & ? & ? & ? & Hq). split_and!; [done..|].
    intros q Hin. apply lookup_delete_None. right. by apply Hq.
Qed.
End Old.

(** ** The operations *)

Lemma slots_fit s sl : head_ok s sl -> slots sl <> [] /\ Z.of_nat (length (slots sl)) <= PAGE_SZ.
Proof.
  intros ([[sz algn] Et] & Hend & p & Hp & Hm & Hc). pose proof (t_entry Htab _ _ Et) as Hok. unfold slots. rewrite Et.
  pose proof (t_entry Htab _ _ (t_slabs Htab)) as [H4 _]. simpl in H4. pose proof (t_size Htab) as [Hm4 H2].
  pose proof (proj1 (atop_iff (sptr sl) _) eq_refl) as Hat. pose proof (page_end_atop (sptr sl)) as He.
  set (x := align_up algn (sptr sl)). assert (Hx : sptr sl <= x) by (apply (align_up_ge _ _ Hok); rewrite page_sz in *; lia).
  split.
  - assert (Hin : x ∈ objects slot_fuel sz algn x (page_end (sptr sl))); [|by intros E; rewrite E in Hin; apply not_elem_of_nil in Hin].
    apply objects_first; [|apply slot_fuel_pos]. destruct Hc as [(Ea & -> & Es)|(_ & Es)].
    + rewrite Ea, (t_slabs Htab) in Et. simplify_eq. rewrite page_sz in *.
      assert (x = sptr sl) as ->.
      { apply (align_up_spec 2 0 (sptr sl)); [unfold PAGE_SHIFT; lia|done|lia|rewrite ?page_sz; lia|].
        rewrite Es. change (2 ^ 2) with 4. rewrite <- Z.add_mod_idemp_r, Hm4, Z.add_0_r by lia.
        apply Z.mod_divide; [lia|]. apply Z.mod_divide in Hm; [|lia]. etrans; [|exact Hm]. by exists 1024. }
      rewrite He, Es. assert (atop (p + slab_size) = p / 4096) as ->; [|rewrite ?page_sz; pose proof (Z.div_mod p 4096 ltac:(lia)); lia].
      apply atop_iff. rewrite ?page_sz. pose proof (Z.div_mod p 4096 ltac:(lia)). lia.
    + subst p. unfold x. rewrite (align_up_page _ _ Hok) by (rewrite ?page_sz in *; lia || done).
      pose proof (proj1 Hok) as Hsz. simpl in Hsz. rewrite He, atop_div.
      pose proof (Z.div_mod (sptr sl) PAGE_SZ ltac:(done)). lia.
  - etrans; [apply (objects_length _ _ Hok); rewrite page_sz in *; lia|]. rewrite page_sz in *. lia.
Qed.

Lemma nfree_bound st lv s sl : slab_ok st lv s sl -> Z.of_nat (length (sfree sl)) <= PAGE_SZ.
Proof.
  intros Hok. destruct (slots_fit _ _ (s_head _ _ _ _ Hok)) as [_ Hb].
  assert (Hle : (length (sfree sl) <= length (slots sl))%nat); [|lia].
  apply submseteq_length, NoDup_submseteq; [apply Hok|]. intros o Ho. by apply Hok.
Qed.

Lemma alloc_entry st lv a : inv st lv -> is_Some (table !! a) ->
  exists sz algn la, table !! a = Some (sz, algn) /\ allocs st !! a = Some (MkAlloc sz algn la) /\ entry_ok (sz, algn).
Proof.
  intros Hi [[sz algn] Et]. pose proof (i_tab _ _ Hi a) as H. rewrite Et in H.
  destruct (allocs st !! a) as [[sz' al' la]|]; simplify_eq/=. exists sz, algn, la. split_and!; [done..|]. by eapply t_entry.
Qed.

Lemma pop_run st lv a al s : inv st lv -> allocs st !! a = Some al -> s ∈ afree al ->
  exists o st', pop_object st a s = Done (o, st') /\ lv !! o = None /\ inv st' (<[o := a]> lv) /\ pages st' = pages st.
Proof.
  intros Hi Ha Hin. destruct (i_afree _ _ Hi _ _ Ha) as [Hnd Hm]. destruct (proj1 (Hm s) Hin) as (sl & Hs & <- & Hne).
  pose proof (i_slab _ _ Hi _ _ Hs) as Hok. pose proof (nfree_bound _ _ _ _ Hok) as Hb. destruct Hok as [Hh Hp Hndf Hnf Hno Hf].
  unfold pop_object. rewrite Hs. simpl. destruct (sfree sl) as [|o rest] eqn:Ef; [done|]. simpl in *.
  assert (u32 (nfree sl - 1) = Z.of_nat (length rest)) as -> by (rewrite Hnf, u32_small; rewrite page_sz in Hb; lia).
  destruct (proj1 (Hf o) ltac:(left)) as (Ho & Hlo & Hso). apply NoDup_cons in Hndf as [Hor Hndr].
  set (la := if decide (rest = []) then list_rem s (afree al) else afree al).
  exists o, (set_afree (set_slab st s (MkSlab (salloc sl) rest (sptr sl) (Z.of_nat (length rest)) (nobj sl))) (salloc sl) al la).
  split; [|split; [done|split; [|done]]].
  - unfold la. destruct (decide (rest = [])) as [->|Hr]; simpl.
    + unfold slab_remove. simpl. rewrite Ha. simpl. rewrite list_remove_Done by done. done.
    + rewrite (proj2 (Z.eqb_neq _ 0)) by (destruct rest; simpl; [done|lia]). simpl. by rewrite set_afree_id.
  - apply (inv_refill _ lv); try done.
    + intros x. destruct (decide (x = o)) as [->|Hxo].
      * rewrite lookup_insert_eq. naive_solver.
      * rewrite lookup_insert_ne by done. rewrite <- Hf. set_solver.
    + intros x Hx. rewrite lookup_insert_ne; [done|congruence].
    + intros x b [[<- <-]|[_ Hx]]%lookup_insert_Some Hxs; [done|]. apply (i_live _ _ Hi) in Hx as [(t & tl & Ht & <- & Hxt) ?]. split; [|done].
      assert (s = t) as <- by (by eapply slots_inj). congruence.
    + unfold la. destruct (decide _); [by apply NoDup_list_rem|done].
    + intros t. unfold la. destruct (decide (rest = [])) as [Hr|Hr]; [rewrite elem_of_list_rem|]; [naive_solver|].
      destruct (decide (t = s)); naive_solver.
Qed.

Lemma free_run st lv a o : inv st lv -> lv !! o = Some a ->
  exists st', vm_slab_free st a o = Done st' /\ inv st' (delete o lv) /\ pages st' = pages st /\
    forall b, b <> a -> allocs st' !! b = allocs st !! b.
Proof.
  intros Hi Hl. destruct (i_live _ _ Hi _ _ Hl) as [(s & sl & Hs & <- & Ho) Hso].
  pose proof (i_slab _ _ Hi _ _ Hs) as Hok. pose proof (nfree_bound _ _ _ _ Hok) as Hb. destruct Hok as [Hh Hp Hnd Hnf Hno Hf].
  destruct (slot_bounds _ _ _ Hh Ho) as (sz & algn & Et & Hok & Hge & _ & _).
  destruct (alloc_entry _ _ (salloc sl) Hi ltac:(eauto)) as (? & ? & la & Et' & Ha & _). simplify_eq.
  destruct (i_afree _ _ Hi _ _ Ha) as [Hnda Hm]. simpl in Hnda, Hm.
  unfold vm_slab_free. rewrite (proj2 (Z.eqb_neq o 0)) by lia. simpl. rewrite (slot_at _ _ _ _ _ Hi Hs Ho), Hs. simpl. rewrite Z.eqb_refl, Ha. simpl.
  unfold vm_slab_add_free. rewrite (proj2 (Z.leb_le (sptr sl) o)) by lia. rewrite (proj2 (Z.leb_le 4 sz)) by apply Hok. simpl.
  assert (u32 (nfree sl + 1) = Z.of_nat (length (o :: sfree sl))) as -> by (rewrite Hnf, u32_small; simpl; rewrite page_sz in Hb; lia).
  set (sl' := MkSlab _ _ _ _ _). set (al := MkAlloc sz algn la) in *.
  set (la' := if decide (sfree sl = []) then s :: la else la).
  assert (Hin : s ∈ la <-> sfree sl <> []) by (rewrite Hm; naive_solver).
  exists (set_afree (set_slab st s sl') (salloc sl) al la'). split; [|split; [|split; [done|]]].
  3: { intros b Hb'. simpl. by rewrite lookup_insert_ne. }
  - unfold la'. destruct (decide (sfree sl = [])) as [E|E].
    + rewrite E. simpl. unfold slab_add. simpl. rewrite Ha. simpl. rewrite bool_decide_true by naive_solver. done.
    + rewrite (proj2 (Z.eqb_neq _ 1)) by (destruct (sfree sl); simpl; [done|lia]). change la with (afree al). by rewrite set_afree_id.
  - apply (inv_refill _ lv); try done.
    + apply NoDup_cons. split; [|done]. rewrite Hf. naive_solver.
    + intros x. rewrite elem_of_cons, Hf. destruct (decide (x = o)) as [->|Hxo]; [rewrite lookup_delete_eq|rewrite lookup_delete_ne by done]; naive_solver.
    + intros x Hx. rewrite lookup_delete_ne; [done|congruence].
    + intros x b [_ Hx]%lookup_delete_Some Hxs. apply (i_live _ _ Hi) in Hx as [(t & tl & Ht & <- & Hxt) ?]. split; [|done].
      assert (s = t) as <- by (by eapply slots_inj). congruence.
    + unfold la'. destruct (decide _); [|done]. apply NoDup_cons. naive_solver.
    + intros t. unfold la'. simpl. destruct (decide (t = s)) as [->|]; destruct (decide _); set_solver.
Qed.

(** [vm_slab_init_slab] on a part of a page that reaches to its end. *)
Lemma mark_one st s ptr size : 0 < size <= PAGE_SZ -> pages st !! atop ptr = None ->
  mark_pages (S (Z.to_nat size)) st s ptr 0 size = Done (set_page st (atop ptr) (VM_PG_SLAB s)).
Proof.
  intros Hs Hp. destruct (Z.to_nat size) as [|n] eqn:E; [lia|]. cbn [mark_pages].
  rewrite (proj2 (Z.ltb_lt 0 size)) by lia. rewrite Z.add_0_r, bool_decide_true by done.
  by rewrite (proj2 (Z.ltb_ge (0 + PAGE_SZ) size)) by lia.
Qed.

#[local] Arguments mark_pages : simpl never.
#[local] Arguments fill_slab : simpl never.

Definition new_slab (a ptr : Z) : vm_slab_t :=
  let l := slots (MkSlab a [] ptr 0 0) in MkSlab a (rev l) ptr (Z.of_nat (length l)) (Z.of_nat (length l)).

Lemma init_slab_run st lv a s ptr size : inv st lv -> head_ok s (new_slab a ptr) -> u32 (ptr + size) = page_end ptr ->
  0 < size <= PAGE_SZ -> pages st !! atop ptr = None ->
  vm_slab_init_slab st a s ptr size = Done (set_slab (set_page st (atop ptr) (VM_PG_SLAB s)) s (new_slab a ptr)).
Proof.
  intros Hi Hh He Hsz Hp. pose proof (proj1 Hh) as Hsome. simpl in Hsome.
  destruct (alloc_entry _ _ a Hi Hsome) as (sz & algn & la & Et & Ha & Hok).
  unfold vm_slab_init_slab. rewrite Ha. simpl. rewrite mark_one by done. simpl. rewrite He. unfold vm_slab_mem_align. simpl.
  destruct Hh as (_ & Hend & p & Hpos & _ & Hc). simpl in Hend, Hc.
  pose proof (t_entry Htab _ _ (t_slabs Htab)) as [H4 _]. simpl in H4.
  pose proof (page_end_atop ptr) as Hpe. pose proof (proj1 (atop_iff ptr _) eq_refl) as Hat.
  assert (Hptr : 0 < ptr) by lia. assert (Hes : page_end ptr - ptr <= size).
  { unfold u32, wrap in He. pose proof (Z.mod_le (ptr + size) (2 ^ 32) ltac:(lia) ltac:(lia)). lia. }
  destruct Hok as (Hsz' & k & Hk & Ek). simpl in Hsz', Ek.
  pose proof (align_up_spec k algn ptr Hk Ek ltac:(lia) ltac:(rewrite page_sz in *; lia)) as (Hup & _ & _).
  assert (2 ^ k <= 4096) by (change 4096 with (2 ^ 12); apply Z.pow_le_mono_r; unfold PAGE_SHIFT in Hk; lia).
  assert (Hok : entry_ok (sz, algn)) by (split; [done|by exists k]). rewrite page_sz in *.
  rewrite (fill_slab_run _ _ Hok _ la (MkSlab a [] ptr 0 0)); simpl; rewrite ?page_sz; try lia.
  unfold new_slab, slots. simpl. rewrite Et, app_nil_r. do 2 f_equal.
  rewrite (objects_fuel _ _ Hok _ slot_fuel); rewrite ?slot_fuel_eq, ?page_sz; try lia. done.
Qed.

Lemma fresh_pages st st' p n : pages st' = pages st -> fresh st p n -> fresh st' p n.
Proof. unfold fresh, held, big. by intros ->. Qed.

Lemma fresh_not_held st p : fresh st p 1 -> ~ held st (atop p) /\ pages st !! atop p = None.
Proof.
  intros (_ & _ & _ & H). assert (Hn : ~ held st (atop p)) by (apply H; lia). split; [done|].
  destruct (pages st !! atop p) eqn:E; [|done]. exfalso. apply Hn. left. rewrite E. eauto.
Qed.

Lemma page_split p x : p mod PAGE_SZ = 0 -> 0 <= x < PAGE_SZ -> atop (p + x) = atop p /\ page_end (p + x) = p + PAGE_SZ.
Proof.
  intros Hm Hx. rewrite page_end_atop. pose proof (Z.div_mod p PAGE_SZ ltac:(done)) as Hd. rewrite Hm in Hd.
  assert (E : atop (p + x) = p / PAGE_SZ) by (apply atop_iff; lia). rewrite E. split; [by rewrite atop_div|lia].
Qed.

Lemma structs_run st lv p : inv st lv -> fresh st p 1 ->
  exists st', vm_add_slab_structs vm_slabs slab_size st p PAGE_SZ = Done st' /\ inv st' lv /\
    pages st' = <[atop p := VM_PG_SLAB p]> (pages st) /\ exists al, allocs st' !! vm_slabs = Some al /\ p ∈ afree al.
Proof.
  intros Hi Hfr. pose proof (fresh_not_held _ _ Hfr) as [Hnh Hnp]. destruct Hfr as (Hm & Hpos & Hb & _).
  pose proof (t_entry Htab _ _ (t_slabs Htab)) as [H4 _]. simpl in H4. pose proof (t_size Htab) as [_ H2].
  destruct (page_split p slab_size Hm ltac:(rewrite page_sz in *; lia)) as [Eat Eend].
  assert (Hh : head_ok p (new_slab vm_slabs (p + slab_size))).
  { split; [simpl; rewrite (t_slabs Htab); eauto|]. simpl. rewrite Eend. split; [rewrite page_sz in *; lia|]. exists p. by eauto 6. }
  assert (Hsn : slabs st !! p = None).
  { destruct (slabs st !! p) eqn:E; [|done]. destruct (key_page _ _ _ _ Hi E). congruence. }
  destruct (alloc_entry _ _ vm_slabs Hi ltac:(rewrite (t_slabs Htab); eauto)) as (sz & algn & la & Et & Ha & _).
  destruct (i_afree _ _ Hi _ _ Ha) as [Hnd Hmem]. simpl in Hnd, Hmem.
  assert (Hnin : p ∉ la) by (rewrite Hmem; intros (? & ? & _); congruence).
  unfold vm_add_slab_structs. rewrite (proj2 (Z.leb_le PAGE_SZ PAGE_SZ)) by lia.
  rewrite (init_slab_run _ lv); [|done|done|rewrite u32_small; rewrite page_sz in *; lia|rewrite page_sz in *; lia|by rewrite Eat].
  simpl. unfold slab_append. simpl. rewrite Ha. simpl. rewrite bool_decide_true by done. eexists. split; [reflexivity|].
  split; [|split; [by rewrite <- Eat|]].
  2: { eexists. simpl. rewrite lookup_insert_eq. split; [done|]. simpl. set_solver. }
  apply (inv_new st lv lv p (new_slab vm_slabs (p + slab_size)) Hi Hsn Hh); simpl; [by rewrite Eat|by left|done|apply (slots_fit _ _ Hh)|done..| |].
  - apply NoDup_app. split_and!; [done|set_solver|apply NoDup_singleton].
  - set_solver.
Qed.

(** A structure and a page become a slab; [l] is its list with the slab on it,
    at the front or at the end. *)
Lemma new_slab_run st lv s a p : inv st lv -> lv !! s = Some vm_slabs -> a <> vm_slabs -> is_Some (table !! a) -> fresh st p 1 ->
  exists st1 al, vm_slab_init_slab st a s p PAGE_SZ = Done st1 /\ allocs st1 !! a = Some al /\ s ∉ afree al /\
    pages st1 = <[atop p := VM_PG_SLAB s]> (pages st) /\
    forall l, l = s :: afree al \/ l = afree al ++ [s] -> inv (set_afree st1 a al l) (delete s lv).
Proof.
  intros Hi Hl Ha Hsome Hfr. pose proof (fresh_not_held _ _ Hfr) as [Hnh Hnp]. destruct Hfr as (Hm & Hpos & Hb & _).
  destruct (page_split p 0 Hm ltac:(done)) as [Eat Eend]. rewrite Z.add_0_r in Eat, Eend.
  assert (Hh : head_ok s (new_slab a p)).
  { split; [done|]. simpl. rewrite Eend. split; [rewrite page_sz in *; lia|]. exists p. by eauto 6. }
  assert (Hsn : slabs st !! s = None) by (by eapply i_live).
  destruct (alloc_entry _ _ a Hi Hsome) as (sz & algn & la & Et & Hal & _).
  destruct (i_afree _ _ Hi _ _ Hal) as [Hnd Hmem]. simpl in Hnd, Hmem.
  assert (Hnin : s ∉ la) by (rewrite Hmem; intros (? & ? & _); congruence).
  rewrite (init_slab_run _ lv); [|done|done|rewrite u32_small; rewrite page_sz in *; lia|rewrite page_sz in *; lia|done].
  do 2 eexists. split; [reflexivity|]. split; [exact Hal|]. split; [done|]. split; [done|]. intros l Hcase.
  apply (inv_new st lv (delete s lv) s (new_slab a p) Hi Hsn Hh); simpl; [done|by right|done|apply (slots_fit _ _ Hh)|done..| |];
    destruct Hcase as [-> | ->]; simpl.
  - by apply NoDup_cons.
  - apply NoDup_app. split_and!; [done|set_solver|apply NoDup_singleton].
  - set_solver.
  - set_solver.
Qed.

(** The answers of [vmem_alloc_backed] during an operation. *)
Definition fresh_mem (st : slabsys) (mem : list (option Z)) : Prop :=
  NoDup (omap id mem) /\ forall p, Some p ∈ mem -> fresh st p 1.

Lemma fresh_mem_pages st st' mem : pages st' = pages st -> fresh_mem st mem -> fresh_mem st' mem.
Proof. intros E [Hnd H]. split; [done|]. intros p Hp. eapply fresh_pages; eauto. Qed.

Lemma fresh_next st mem r mem' : fresh_mem st mem -> next_page mem = (r, mem') ->
  match r with
  | None => fresh_mem st mem'
  | Some p => fresh st p 1 /\ forall st' x, pages st' = <[atop p := VM_PG_SLAB x]> (pages st) -> fresh_mem st' mem'
  end.
Proof.
  intros [Hnd Hf] E. destruct mem as [|[p|] mem]; simplify_eq/=; [split; [constructor|set_solver]| |split; [done|set_solver]].
  apply NoDup_cons in Hnd as [Hnin Hnd]. assert (Hp : fresh st p 1) by (apply Hf; left). split; [done|]. intros st' x Epg. split; [done|].
  intros p' Hp'. destruct (Hf p' ltac:(by right)) as (Hm & Hpos & Hb & Hq). split_and!; [done..|].
  assert (Hne : atop p' <> atop p).
  { destruct Hp as (Hmp & _). rewrite !atop_div. intros E. apply Hnin. apply list_elem_of_omap. exists (Some p'). split; [done|]. simpl. f_equal.
    pose proof (Z.div_mod p PAGE_SZ ltac:(done)). pose proof (Z.div_mod p' PAGE_SZ ltac:(done)). lia. }
  intros q Hin Hh. apply (Hq q Hin). assert (q = atop p') as -> by lia. destruct Hh as [Hs|(b & sz & Hs & ?)].
  - left. rewrite Epg, lookup_insert_ne in Hs by done. done.
  - right. exists b, sz. split; [|done]. rewrite Epg in Hs. apply lookup_insert_Some in Hs as [[_ ?]|[_ ?]]; done.
Qed.

(** The blocks of pages are the same. *)
Definition same_big (st st' : slabsys) : Prop :=
  forall b sz, pages st' !! b = Some (VM_PG_MALLOC sz) <-> pages st !! b = Some (VM_PG_MALLOC sz).

Lemma same_big_eq st st' : pages st' = pages st -> same_big st st'.
Proof. intros E b sz. by rewrite E. Qed.
Lemma same_big_slab st st' p s : pages st !! p = None -> pages st' = <[p := VM_PG_SLAB s]> (pages st) -> same_big st st'.
Proof. intros Hn E b sz. rewrite E, lookup_insert_Some. naive_solver congruence. Qed.
Lemma same_big_trans st1 st2 st3 : same_big st1 st2 -> same_big st2 st3 -> same_big st1 st3.
Proof. intros H1 H2 b sz. etrans; [apply H2|apply H1]. Qed.

Lemma novalloc_run st lv a : inv st lv -> is_Some (table !! a) -> exists r st', alloc_novalloc st a = Done (r, st') /\
  match r with
  | None => st' = st /\ forall al, allocs st !! a = Some al -> afree al = []
  | Some o => lv !! o = None /\ inv st' (<[o := a]> lv) /\ pages st' = pages st
  end.
Proof.
  intros Hi Ht. destruct (alloc_entry _ _ a Hi Ht) as (sz & algn & la & _ & Ha & _). unfold alloc_novalloc. rewrite Ha. simpl.
  destruct la as [|s la]; [exists None, st; split; [done|]; split; [done|]; by intros ? [= <-]|].
  destruct (pop_run _ _ _ _ s Hi Ha ltac:(left)) as (o & st' & -> & Ho). by exists (Some o), st'.
Qed.

Lemma struct_run st lv mem : inv st lv -> fresh_mem st mem ->
  exists r st' mem', vm_alloc_slab_struct vm_slabs slab_size 2 st mem = Done (r, st', mem') /\ fresh_mem st' mem' /\ same_big st st' /\
  match r with None => inv st' lv | Some s => lv !! s = None /\ inv st' (<[s := vm_slabs]> lv) end.
Proof.
  intros Hi Hf. assert (Hsome : is_Some (table !! vm_slabs)) by (rewrite (t_slabs Htab); eauto). cbn [vm_alloc_slab_struct].
  destruct (novalloc_run _ _ vm_slabs Hi Hsome) as (r & st1 & -> & Hr). simpl. destruct r as [o|].
  { destruct Hr as (? & ? & ?). exists (Some o), st1, mem. split; [done|]. split; [by eapply fresh_mem_pages|]. split; [by apply same_big_eq|done]. }
  destruct Hr as [-> _]. destruct (next_page mem) as [r mem'] eqn:En. pose proof (fresh_next _ _ _ _ Hf En) as Hn. destruct r as [p|].
  2: { by exists None, st, mem'. }
  destruct Hn as [Hp Hn]. destruct (structs_run _ _ _ Hi Hp) as (st2 & -> & Hi2 & Hpg & al & Ha & Hin). simpl.
  destruct (novalloc_run _ _ vm_slabs Hi2 Hsome) as (r & st3 & -> & Hr). simpl. destruct r as [o|].
  - destruct Hr as (? & ? & Epg). exists (Some o), st3, mem'. split; [done|]. split; [eapply fresh_mem_pages; [exact Epg|by eapply Hn]|]. split; [|done].
    eapply same_big_trans; [eapply same_big_slab; [by apply fresh_not_held|exact Hpg]|by apply same_big_eq].
  - destruct Hr as [_ Hr]. rewrite (Hr _ Ha) in Hin. by apply not_elem_of_nil in Hin.
Qed.

#[local] Arguments vm_alloc_slab_struct : simpl never.

(** What [vm_slab_get] promises. *)
Definition got_slab (a : Z) (lv : gmap Z Z) (st : slabsys) (r : got) : Prop :=
  match r with
  | Got s => inv st lv /\ exists al, allocs st !! a = Some al /\ s ∈ afree al
  | NoMem | Wait None => inv st lv
  | Wait (Some s) => lv !! s = None /\ inv st (<[s := vm_slabs]> lv)
  end.

Lemma retry_mem_run st lv s a wait mem : inv st (<[s := vm_slabs]> lv) -> lv !! s = None -> a <> vm_slabs -> is_Some (table !! a) ->
  fresh_mem st mem ->
  exists r st' mem', retry_mem vm_slabs st a s wait mem = Done (r, st', mem') /\ same_big st st' /\ got_slab a lv st' r.
Proof.
  intros Hi Hl Ha Ht Hf. unfold retry_mem. destruct (next_page mem) as [r mem'] eqn:En. pose proof (fresh_next _ _ _ _ Hf En) as Hn.
  assert (Hs : <[s := vm_slabs]> lv !! s = Some vm_slabs) by apply lookup_insert_eq.
  destruct r as [p|].
  - destruct Hn as [Hp Hn]. destruct (new_slab_run _ _ _ a p Hi Hs Ha Ht Hp) as (st1 & al & -> & Hal & Hnin & Hpg & Hall).
    simpl. unfold slab_add. rewrite Hal. simpl. rewrite bool_decide_true by done. do 3 eexists. split; [reflexivity|].
    split; [by eapply same_big_slab; [apply fresh_not_held|exact Hpg]|].
    rewrite <- (delete_insert_id lv s vm_slabs) by done. split; [apply Hall; by left|]. simpl. rewrite lookup_insert_eq. eexists. split; [done|]. left.
  - destruct wait; [by exists (Wait (Some s)), st, mem'|].
    destruct (free_run _ _ _ _ Hi Hs) as (st' & -> & Hi' & Hpg & _). rewrite delete_insert_id in Hi' by done.
    exists NoMem, st', mem'. split; [done|]. split; [by apply same_big_eq|done].
Qed.

Lemma vm_slab_get_run st lv a wait mem : inv st lv -> a <> vm_slabs -> is_Some (table !! a) -> fresh_mem st mem ->
  exists r st' mem', vm_slab_get vm_slabs slab_size st a wait mem = Done (r, st', mem') /\ same_big st st' /\ got_slab a lv st' r.
Proof.
  intros Hi Ha Ht Hf. destruct (alloc_entry _ _ a Hi Ht) as (sz & algn & la & _ & Hal & _). unfold vm_slab_get. rewrite Hal. simpl.
  destruct la as [|s la].
  2: { exists (Got s), st, mem. split; [done|]. split; [done|]. split; [done|]. eexists. split; [exact Hal|]. left. }
  destruct (struct_run _ _ _ Hi Hf) as (r & st' & mem' & E & Hf' & Hb & Hr). rewrite E. simpl. destruct r as [s|].
  - destruct Hr as [? Hi']. destruct (retry_mem_run st' lv s a wait mem') as (r & st2 & mem2 & ? & ? & ?); [done..|].
    exists r, st2, mem2. split; [done|]. split; [by eapply same_big_trans|done].
  - exists (if wait then Wait None else NoMem), st', mem'. split; [done|]. by destruct wait.
Qed.

Lemma vm_slab_get_resume_run st lv a s mem : inv st lv -> lv !! s = Some vm_slabs -> a <> vm_slabs -> is_Some (table !! a) -> fresh_mem st mem ->
  exists r st' mem', vm_slab_get_resume vm_slabs slab_size st a (Some s) mem = Done (r, st', mem') /\ got_slab a (delete s lv) st' r.
Proof.
  intros Hi Hs Ha Ht Hf. destruct (alloc_entry _ _ a Hi Ht) as (sz & algn & la & _ & Hal & _). unfold vm_slab_get_resume. rewrite Hal. simpl.
  destruct la as [|t la].
  - destruct (retry_mem_run st (delete s lv) s a true mem) as (r & st' & mem' & ? & _ & ?); [by rewrite insert_delete_id|apply lookup_delete_eq|done..|].
    by exists r, st', mem'.
  - destruct (free_run _ _ _ _ Hi Hs) as (st' & -> & Hi' & Hpg). simpl. exists (Got t), st', mem. split; [done|]. split; [done|].
    eexists. split; [by rewrite (proj2 Hpg)|]. left.
Qed.

(** The objects in use after a request. *)
Definition give (a : Z) (lv : gmap Z Z) (r : got) : gmap Z Z :=
  match r with Got o => <[o := a]> lv | Wait (Some s) => <[s := vm_slabs]> lv | _ => lv end.

(** The object was not in use. *)
Definition was_free (lv : gmap Z Z) (r : got) : Prop := match r with Got o => lv !! o = None | _ => True end.

Lemma alloc_from_run a lv st r (mem : list (option Z)) : got_slab a lv st r ->
  exists r' st', alloc_from a (r, st, mem) = Done (r', st', mem) /\ inv st' (give a lv r') /\ was_free lv r' /\ same_big st st'.
Proof.
  destruct r as [s| |[s|]]; simpl; intros H.
  - destruct H as (Hi & al & Ha & Hin). destruct (pop_run _ _ _ _ _ Hi Ha Hin) as (o & st' & -> & Ho & Hi' & Hpg). exists (Got o), st'.
    split_and!; [done..|by apply same_big_eq].
  - by exists NoMem, st.
  - exists (Wait (Some s)), st. by destruct H.
  - by exists (Wait None), st.
Qed.

Lemma vm_slab_alloc_run st lv a wait mem : inv st lv -> a <> vm_slabs -> is_Some (table !! a) -> fresh_mem st mem ->
  exists r st' mem', vm_slab_alloc vm_slabs slab_size st a wait mem = Done (r, st', mem') /\ inv st' (give a lv r) /\ was_free lv r /\ same_big st st'.
Proof.
  intros Hi Ha Ht Hf. unfold vm_slab_alloc. destruct (vm_slab_get_run st lv a wait mem Hi Ha Ht Hf) as (r & st1 & mem1 & -> & Hb & Hg). cbn [rbind].
  destruct (alloc_from_run a lv st1 r mem1 Hg) as (r' & st' & -> & ? & ? & ?). exists r', st', mem1. split_and!; [done..|by eapply same_big_trans].
Qed.

Lemma vm_slab_alloc_resume_run st lv a s mem : inv st lv -> lv !! s = Some vm_slabs -> a <> vm_slabs -> is_Some (table !! a) -> fresh_mem st mem ->
  exists r st' mem', vm_slab_alloc_resume vm_slabs slab_size st a (Some s) mem = Done (r, st', mem') /\ inv st' (give a (delete s lv) r).
Proof.
  intros Hi Hs Ha Ht Hf. unfold vm_slab_alloc_resume. destruct (vm_slab_get_resume_run st lv a s mem Hi Hs Ha Ht Hf) as (r & st1 & mem1 & -> & Hg).
  cbn [rbind]. destruct (alloc_from_run a _ st1 r mem1 Hg) as (r' & st' & -> & ? & _). by exists r', st', mem1.
Qed.

Lemma page_aligned p : 0 < p -> p mod PAGE_SZ = 0 -> ALIGNED 32 p PAGE_SZ = true.
Proof. intros Hp Hm. unfold PAGE_SZ. rewrite ALIGNED_pow2 by (unfold PAGE_SHIFT; lia). by apply Z.eqb_eq. Qed.

Lemma add_mem_run st lv a p : inv st lv -> a <> vm_slabs -> is_Some (table !! a) -> fresh st p 1 ->
  exists st', vm_slab_add_mem vm_slabs slab_size st a p PAGE_SZ = Done st' /\ inv st' lv.
Proof.
  intros Hi Ha Ht Hfr. unfold vm_slab_add_mem. rewrite (page_aligned PAGE_SZ) by done.
  rewrite (page_aligned p) by apply Hfr. rewrite (proj2 (Z.ltb_lt 0 PAGE_SZ)) by done. cbn [add_mem_loop].
  destruct (novalloc_run _ _ vm_slabs Hi ltac:(rewrite (t_slabs Htab); eauto)) as (r & st1 & -> & Hr). cbn [rbind]. destruct r as [s|].
  - destruct Hr as (Hl & Hi1 & Hpg).
    destruct (new_slab_run _ _ s a p Hi1 ltac:(apply lookup_insert_eq) Ha Ht (fresh_pages _ _ _ _ Hpg Hfr)) as (st2 & al & -> & Hal & Hnin & _ & Hall).
    cbn [rbind]. unfold slab_append. rewrite Hal. simpl. rewrite bool_decide_true by done. eexists. split; [reflexivity|].
    rewrite <- (delete_insert_id lv s vm_slabs) by done. apply Hall. by right.
  - destruct Hr as [-> _]. destruct (structs_run _ _ _ Hi Hfr) as (st2 & -> & Hi2 & _). by exists st2.
Qed.

Lemma reclaim_loop_run st lv l : inv st lv -> Forall (fun a => is_Some (table !! a)) l ->
  exists b st', reclaim_loop vm_slabs l st = Done (b, st') /\ inv st' lv.
Proof.
  intros Hi Hl. induction Hl as [|a l Ht Hl IH]; [by exists false, st|]. cbn [reclaim_loop].
  destruct (alloc_entry _ _ a Hi Ht) as (sz & algn & la & _ & Ha & _). rewrite Ha. cbn [rbind deref afree].
  destruct (last la) as [s|] eqn:El; [|done]. apply last_Some in El as [l' El].
  destruct (i_afree _ _ Hi _ _ Ha) as [Hnd Hm]. cbn [afree] in Hnd, Hm. assert (Hin : s ∈ la) by (rewrite El; set_solver).
  destruct (proj1 (Hm s) Hin) as (sl & Hs & Ea & _). rewrite Hs. cbn [rbind deref]. destruct (Z.eqb_spec (nfree sl) (nobj sl)) as [Hall|]; [|done].
  unfold slab_remove. rewrite Ha. cbn [rbind deref afree]. rewrite list_remove_Done by done. cbn [rbind]. rewrite <- Ea in Ha |- *.
  assert (Hls : lv !! s = None). { destruct (lv !! s) eqn:E; [|done]. apply (i_live _ _ Hi) in E as [_ ?]. congruence. }
  assert (Hrem : forall t, t ∈ list_rem s la <-> t <> s /\ t ∈ la) by (intros; apply elem_of_list_rem).
  pose proof (NoDup_list_rem s _ Hnd) as Hnd'. destruct (Z.eqb_spec (salloc sl) vm_slabs) as [E|E].
  - do 2 eexists. split; [reflexivity|]. destruct (head_page _ _ (s_head _ _ _ _ (i_slab _ _ Hi _ _ Hs)) E) as [-> _].
    eapply (inv_del st lv lv s sl Hi Hs Hall); eauto.
  - assert (Hd : inv (del_slab (del_page (set_afree st (salloc sl) (MkAlloc sz algn la) (list_rem s la)) (atop (sptr sl))) s) (<[s := vm_slabs]> lv))
      by (eapply (inv_del st lv _ s sl Hi Hs Hall); eauto).
    destruct (free_run _ _ _ _ Hd ltac:(apply lookup_insert_eq)) as (st' & -> & Hi' & _). rewrite delete_insert_id in Hi' by done. by exists true, st'.
Qed.

(** ** Big blocks *)

Lemma inv_set_pages st lv P : inv st lv -> (forall p s, P !! p = Some (VM_PG_SLAB s) <-> pages st !! p = Some (VM_PG_SLAB s)) ->
  (forall b sz, P !! b = Some (VM_PG_MALLOC sz) ->
    0 < b /\ 0 < sz /\ sz mod PAGE_SZ = 0 /\ PAGE_SZ * b + sz <= 2 ^ 32 /\ forall q, b < q < b + sz / PAGE_SZ -> P !! q = None) ->
  inv (MkSys (allocs st) (slabs st) P (vm_slab_list st)) lv.
Proof.
  intros Hi Hp Hb. destruct Hi as [H1 H2 H3 H4 H5 H6 H7 H8]. split; try done.
  - intros s sl Hs. destruct (H4 _ _ Hs). split; try done. by apply Hp.
  - intros p s Hps. apply H6. by apply Hp.
Qed.

Lemma big_add_run st lv p n : inv st lv -> fresh st p n -> 0 < n ->
  pages st !! atop p = None /\ inv (set_page st (atop p) (VM_PG_MALLOC (PAGE_SZ * n))) lv.
Proof.
  intros Hi (Hm & Hpos & Hb & Hq) Hn.
  assert (Hnone : forall q, atop p <= q < atop p + n -> pages st !! q = None).
  { intros q Hin. destruct (pages st !! q) eqn:E; [|done]. exfalso. apply (Hq q Hin). left. rewrite E. eauto. }
  split; [apply Hnone; lia|]. apply inv_set_pages; [done| |].
  - intros q s. rewrite lookup_insert_Some. split; [|intros Hs]; [naive_solver|]. right. split; [|done]. intros <-. rewrite Hnone in Hs by lia. done.
  - intros b sz [[<- [= <-]]|[Hne Hs]]%lookup_insert_Some.
    + rewrite (Z.mul_comm PAGE_SZ n), Z.div_mul, Z.mod_mul by done. pose proof (Z.div_mod p PAGE_SZ ltac:(done)) as Hd. rewrite Hm in Hd.
      rewrite atop_div. rewrite page_sz in *. split_and!; [|lia|done|lia|].
      * assert (p / 4096 <> 0) by lia. pose proof (Z.div_pos p 4096 ltac:(lia) ltac:(lia)). lia.
      * intros q Hin. rewrite lookup_insert_ne by lia. apply Hnone. rewrite atop_div, page_sz. lia.
    + destruct (i_big _ _ Hi _ _ Hs) as (? & ? & ? & ? & Hbq). split_and!; [done..|]. intros q Hin. rewrite lookup_insert_ne; [by apply Hbq|].
      intros Eq. apply (Hq (atop p)); [lia|]. right. exists b, sz. split; [done|lia].
Qed.

Lemma big_del_run st lv b sz : inv st lv -> pages st !! b = Some (VM_PG_MALLOC sz) -> inv (del_page st b) lv.
Proof.
  intros Hi Hs. apply inv_set_pages; [done| |].
  - intros q s. rewrite lookup_delete_Some. naive_solver.
  - intros b' sz' [_ Hb]%lookup_delete_Some. destruct (i_big _ _ Hi _ _ Hb) as (? & ? & ? & ? & Hq). split_and!; [done..|].
    intros q Hin. apply lookup_delete_None. right. by apply Hq.
Qed.
End Invariant.

(** ** Sequences of calls *)

(** What the callers do; the lists are what [vmem_alloc_backed] answers. *)
Inductive call :=
  | CAlloc (a : Z) (wait : bool) (mem : list (option Z))
  | CResume (a : Z) (held : option Z) (mem : list (option Z))
  | CFree (a o : Z)
  | CAddMem (a p : Z)
  | CReclaim
  | CMalloc (size : Z) (wait : bool) (mem : list (option Z))
  | CKfree (p : Z).

Section Calls.
Context (vm_slabs slab_size : Z) (heap : Z -> Z) (statics : gmap Z (Z * Z)).

(** The state after [vm_slab_init] and [vm_malloc_init]; [statics] has the size
    and alignment of each [DEFINE_VM_SLAB]. *)
Definition vm_boot : slabsys :=
  vm_malloc_init heap (vm_slab_init (MkSys ((fun e => MkAlloc e.1 e.2 []) <$> statics) ∅ ∅ []) (map_to_list statics).*1).

Record boot_ok : Prop := {
  b_entry : forall a e, statics !! a = Some e -> entry_ok e;
  b_slabs : statics !! vm_slabs = Some (slab_size, 0);
  b_size : slab_size mod 4 = 0 /\ 2 * slab_size <= PAGE_SZ;
  b_heap : forall i, 0 <= i < KM_NUM_ORDER -> statics !! heap i = None;
  b_inj : forall i j, 0 <= i < KM_NUM_ORDER -> 0 <= j < KM_NUM_ORDER -> heap i = heap j -> i = j
}.

Definition heap_table : gmap Z (Z * Z) :=
  foldl (fun t i => <[heap i := (Z.shiftl 1 (i + KM_MIN_ORDER), 0)]> t) statics (seqZ 0 KM_NUM_ORDER).

Definition heap_of (size : Z) : Z := heap (KM_ORDER (Z.max size (Z.shiftl 1 KM_MIN_ORDER))).

(** A call, and the objects in use after it. *)
Definition exec (w : slabsys * gmap Z Z) (c : call) : res (slabsys * gmap Z Z) :=
  let '(st, lv) := w in
  match c with
  | CAlloc a wait mem =>
      let* '(r, st, _) := vm_slab_alloc vm_slabs slab_size st a wait mem in Done (st, give vm_slabs a lv r)
  | CResume a held mem =>
      let* '(r, st, _) := vm_slab_alloc_resume vm_slabs slab_size st a held mem in
      Done (st, give vm_slabs a (match held with Some s => delete s lv | None => lv end) r)
  | CFree a o => let* st := vm_slab_free st a o in Done (st, delete o lv)
  | CAddMem a p => let* st := vm_slab_add_mem vm_slabs slab_size st a p PAGE_SZ in Done (st, lv)
  | CReclaim => let* '(_, st) := vm_slab_reclaim vm_slabs st in Done (st, lv)
  | CMalloc size wait mem =>
      let* '(r, st, _) := kmalloc vm_slabs slab_size heap st size wait mem in
      Done (st, if KM_SLAB_MAX <? size then lv else give vm_slabs (heap_of size) lv r)
  | CKfree p => let* st := kfree st p in Done (st, delete p lv)
  end.

(** The calls that are allowed: memory is given back once, by the one who got
    it, and [vmem_alloc_backed] answers with pages that are not in use. *)
Definition client (a : Z) : Prop := a <> vm_slabs /\ is_Some (heap_table !! a).
Definition allowed (w : slabsys * gmap Z Z) (c : call) : Prop :=
  let '(st, lv) := w in
  match c with
  | CAlloc a _ mem => client a /\ fresh_mem st mem
  | CResume a held mem => client a /\ fresh_mem st mem /\ (forall s, held = Some s -> lv !! s = Some vm_slabs)
  | CFree a o => a <> vm_slabs /\ lv !! o = Some a
  | CAddMem a p => client a /\ fresh st p 1
  | CReclaim => True
  | CMalloc size _ mem =>
      0 <= size /\ size + PAGE_SZ <= 2 ^ 32 /\
      if KM_SLAB_MAX <? size then forall p, (next_page mem).1 = Some p -> fresh st p (ALIGN 32 size PAGE_SZ / PAGE_SZ)
      else fresh_mem st mem
  | CKfree p =>
      (exists a, a <> vm_slabs /\ lv !! p = Some a) \/ p mod PAGE_SZ = 0 /\ exists sz, pages st !! atop p = Some (VM_PG_MALLOC sz)
  end.

Definition call_step (w w' : slabsys * gmap Z Z) : Prop := exists c, allowed w c /\ exec w c = Done w'.

(** Memory of the allocators and who it belongs to: the client, the structure of
    a slab, a free object with its link, or a block of pages. *)
Inductive use := Client | Struct | Free | Big.
#[global] Instance use_eq_dec : EqDecision use.
Proof. solve_decision. Defined.
Definition region (w : slabsys * gmap Z Z) (u : use) (p n : Z) : Prop :=
  let '(st, lv) := w in
  match u with
  | Client => exists a algn, lv !! p = Some a /\ a <> vm_slabs /\ heap_table !! a = Some (n, algn)
  | Struct => (lv !! p = Some vm_slabs \/ is_Some (slabs st !! p)) /\ n = slab_size
  | Free => exists s sl algn, slabs st !! s = Some sl /\ p ∈ sfree sl /\ heap_table !! salloc sl = Some (n, algn)
  | Big => p mod PAGE_SZ = 0 /\ pages st !! atop p = Some (VM_PG_MALLOC n)
  end.

Hypothesis Hboot : boot_ok.
Let Inv := inv vm_slabs slab_size heap_table.

Lemma heap_lookup l (t : gmap Z (Z * Z)) a : NoDup l -> (forall i j, i ∈ l -> j ∈ l -> heap i = heap j -> i = j) ->
  foldl (fun t i => <[heap i := (Z.shiftl 1 (i + KM_MIN_ORDER), 0)]> t) t l !! a =
    match list_find (fun i => heap i = a) l with
    | Some (_, i) => Some (Z.shiftl 1 (i + KM_MIN_ORDER), 0)
    | None => t !! a
    end.
Proof.
  revert t. induction l as [|i l IH]; intros t Hnd Hinj; [done|]. apply NoDup_cons in Hnd as [Hni Hnd]. simpl.
  rewrite IH by (done || intros; apply Hinj; by (right || done)). destruct (decide (heap i = a)) as [<-|Hne].
  - destruct (list_find _ l) as [[k j]|] eqn:E; [|by rewrite lookup_insert_eq].
    apply list_find_Some in E as (Hj & Ej & _). exfalso. apply Hni. rewrite <- (Hinj j i); [by eapply list_elem_of_lookup_2|right; by eapply list_elem_of_lookup_2|left|done].
  - destruct (list_find _ l) as [[k j]|]; simpl; [done|by rewrite lookup_insert_ne].
Qed.

Lemma seq_in i : i ∈ seqZ 0 KM_NUM_ORDER <-> 0 <= i < KM_NUM_ORDER.
Proof. rewrite elem_of_seqZ. lia. Qed.

Lemma heap_table_lookup a e : heap_table !! a = Some e <->
  statics !! a = Some e \/ exists i, 0 <= i < KM_NUM_ORDER /\ a = heap i /\ e = (Z.shiftl 1 (i + KM_MIN_ORDER), 0).
Proof.
  unfold heap_table. rewrite heap_lookup; [|apply NoDup_seqZ|intros i j Hi Hj; apply seq_in in Hi, Hj; by apply (b_inj Hboot)].
  destruct (list_find _ _) as [[k i]|] eqn:E.
  - apply list_find_Some in E as (Hi%list_elem_of_lookup_2%seq_in & Ea & _). split; [intros [= <-]; eauto|].
    intros [Hs|(j & Hj & -> & ->)]; [rewrite <- Ea, (b_heap Hboot) in Hs by done; done|]. by rewrite (b_inj Hboot i j).
  - apply list_find_None in E. rewrite Forall_forall in E. split; [by left|]. intros [Hs|(i & Hi & -> & ->)]; [done|].
    exfalso. eapply E; [by apply seq_in|done].
Qed.

Lemma heap_table_ok : table_ok vm_slabs slab_size heap_table.
Proof.
  split; [|apply heap_table_lookup; left; apply Hboot|apply Hboot].
  intros a e [Hs|(i & Hi & -> & ->)]%heap_table_lookup; [by eapply b_entry|].
  unfold KM_NUM_ORDER, KM_MAX_ORDER, KM_MIN_ORDER, VM_PTR_ALING_LOG, PAGE_SHIFT in Hi.
  split; [|exists 2; by split]. cbn [fst]. rewrite Z.shiftl_mul_pow2, Z.mul_1_l by (unfold KM_MIN_ORDER, VM_PTR_ALING_LOG; lia).
  unfold KM_MIN_ORDER, VM_PTR_ALING_LOG. rewrite page_sz. change 4 with (2 ^ 2) at 1. change 4096 with (2 ^ 12).
  split; apply Z.pow_le_mono_r; lia.
Qed.

(** The invariant holds at the start. *)
Definition starts (st : slabsys) (t : gmap Z (Z * Z)) : Prop :=
  allocs st = (fun e => MkAlloc e.1 e.2 []) <$> t /\ slabs st = ∅ /\ pages st = ∅ /\ Forall (fun a => is_Some (t !! a)) (vm_slab_list st).

Lemma starts_create st t a sz algn : starts st t -> starts (vm_slab_create st a sz algn) (<[a := (sz, algn)]> t).
Proof.
  intros (Ea & Es & Ep & Hl). split_and!; simpl; [by rewrite fmap_insert, Ea|done|done|].
  apply Forall_app. split; [|repeat constructor; rewrite lookup_insert_eq; eauto].
  eapply Forall_impl; [exact Hl|]. intros b Hb. simpl. destruct (decide (b = a)) as [->|]; [rewrite lookup_insert_eq|rewrite lookup_insert_ne]; eauto.
Qed.

Lemma starts_add st t l : starts st t -> Forall (fun a => is_Some (t !! a)) l -> starts (vm_slab_init st l) t.
Proof.
  intros Hs Hl. revert st Hs. induction Hl as [|a l Ha _ IH]; intros st Hs; [done|]. simpl. apply IH.
  destruct Hs as (Ea & Es & Ep & Hf). split_and!; [done..|]. simpl. apply Forall_app. by repeat constructor.
Qed.

Lemma boot_starts : starts vm_boot heap_table.
Proof.
  unfold vm_boot, heap_table, vm_malloc_init. generalize (seqZ 0 KM_NUM_ORDER) as l. intros l.
  assert (H0 : starts (vm_slab_init (MkSys ((fun e => MkAlloc e.1 e.2 []) <$> statics) ∅ ∅ []) (map_to_list statics).*1) statics).
  { apply starts_add; [by split_and!|]. apply Forall_forall. intros a ([a' e] & -> & He)%list_elem_of_fmap.
    apply elem_of_map_to_list in He. simpl. eauto. }
  revert H0. generalize (vm_slab_init (MkSys ((fun e => MkAlloc e.1 e.2 []) <$> statics) ∅ ∅ []) (map_to_list statics).*1) as st.
  generalize statics as t. induction l as [|i l IH]; intros t st Hs; [done|]. simpl. apply IH. by apply starts_create.
Qed.

Lemma boot_inv : Inv vm_boot ∅.
Proof.
  destruct boot_starts as (Ea & Es & Ep & Hl). split; rewrite ?Ea, ?Es, ?Ep; try done.
  - intros a. rewrite lookup_fmap. by destruct (heap_table !! a) as [[? ?]|].
  - intros a al Hal. apply lookup_fmap_Some in Hal as (e & <- & _). simpl. split; [constructor|]. intros s. rewrite lookup_empty. set_solver.
Qed.

(** The size class of [kmalloc]. *)
Lemma heap_of_spec size : 0 <= size <= KM_SLAB_MAX ->
  exists n, heap_table !! heap_of size = Some (n, 0) /\ heap_of size <> vm_slabs /\ size <= n /\ n <= 2 * Z.max size 4.
Proof.
  change KM_SLAB_MAX with 2048. intros Hs. unfold heap_of, KM_ORDER, clz. change (Z.shiftl 1 KM_MIN_ORDER) with 4.
  unfold KM_MIN_ORDER, VM_PTR_ALING_LOG. set (m := Z.max size 4). set (k := Z.log2 (m - 1)).
  assert (Hk : 2 ^ k <= m - 1 < 2 ^ Z.succ k) by (apply Z.log2_spec; lia).
  assert (H1 : 1 <= k) by (apply Z.log2_le_pow2; lia). assert (H2 : k < 11) by (apply Z.log2_lt_pow2; lia).
  replace (32 - (31 - k) - 2) with (k - 1) by lia. set (i := k - 1).
  assert (Hi : 0 <= i < KM_NUM_ORDER) by (unfold KM_NUM_ORDER, KM_MAX_ORDER, KM_MIN_ORDER, VM_PTR_ALING_LOG, PAGE_SHIFT; lia).
  exists (2 ^ Z.succ k). split_and!; [|intros E; pose proof (b_heap Hboot i Hi) as Hn; rewrite E, (b_slabs Hboot) in Hn; done|lia|].
  - apply heap_table_lookup. right. exists i. split_and!; [lia..|done|]. f_equal.
    rewrite Z.shiftl_mul_pow2, Z.mul_1_l by (unfold KM_MIN_ORDER, VM_PTR_ALING_LOG; lia). f_equal. unfold KM_MIN_ORDER, VM_PTR_ALING_LOG. lia.
  - rewrite Z.pow_succ_r by lia. lia.
Qed.

Lemma big_pages size : 0 < size -> size + PAGE_SZ <= 2 ^ 32 ->
  let n := ALIGN 32 size PAGE_SZ / PAGE_SZ in 0 < n /\ ALIGN 32 size PAGE_SZ = PAGE_SZ * n /\ size <= PAGE_SZ * n < size + PAGE_SZ.
Proof.
  intros Hs Hb. assert (E : ALIGN 32 size PAGE_SZ = (size + (4096 - 1)) / 4096 * 4096).
  { unfold PAGE_SZ. rewrite ALIGN_pow2; [done|unfold PAGE_SHIFT; lia|lia|]. rewrite page_sz in Hb. change (2 ^ PAGE_SHIFT) with 4096. lia. }
  cbv zeta. rewrite E, page_sz, Z.div_mul by lia.
  pose proof (Z.div_mod (size + (4096 - 1)) 4096 ltac:(lia)). pose proof (Z.mod_pos_bound (size + (4096 - 1)) 4096 ltac:(lia)). lia.
Qed.

(** Every call that is allowed comes to an end without a failed assertion. *)
Lemma exec_run st lv c : Inv st lv -> allowed (st, lv) c -> exists w, exec (st, lv) c = Done w /\ Inv w.1 w.2.
Proof.
  pose proof heap_table_ok as Ht. intros Hi Hc. destruct c as [a wait mem|a held mem|a o|a p| |size wait mem|p]; cbn [exec]; cbn [allowed] in Hc.
  - destruct Hc as ([Ha Hs] & Hf). destruct (vm_slab_alloc_run _ _ _ Ht st lv a wait mem Hi Ha Hs Hf) as (r & st' & mem' & -> & Hi' & _). eexists. split; [done|done].
  - destruct Hc as ([Ha Hs] & Hf & Hh). destruct held as [s|].
    + destruct (vm_slab_alloc_resume_run _ _ _ Ht st lv a s mem Hi (Hh s eq_refl) Ha Hs Hf) as (r & st' & mem' & -> & Hi'). eexists. split; [done|done].
    + destruct (vm_slab_alloc_run _ _ _ Ht st lv a true mem Hi Ha Hs Hf) as (r & st' & mem' & E & Hi' & _).
      unfold vm_slab_alloc_resume, vm_slab_get_resume. unfold vm_slab_alloc in E. rewrite E. eexists. split; [done|done].
  - destruct Hc as [_ Hl]. destruct (free_run _ _ _ Ht st lv a o Hi Hl) as (st' & -> & Hi' & _). eexists. split; [done|done].
  - destruct Hc as ([Ha Hs] & Hf). destruct (add_mem_run _ _ _ Ht st lv a p Hi Ha Hs Hf) as (st' & -> & Hi'). eexists. split; [done|done].
  - destruct (reclaim_loop_run _ _ _ Ht st lv (vm_slab_list st) Hi (i_list _ _ _ _ _ Hi)) as (b & st' & E & Hi'). unfold vm_slab_reclaim. rewrite E.
    eexists. split; [done|done].
  - destruct Hc as (H0 & Hb & Hf). unfold kmalloc. destruct (Z.ltb_spec KM_SLAB_MAX size) as [Hlt|Hle].
    + destruct (next_page mem) as [r mem'] eqn:En. destruct r as [p|]; [|eexists; split; [done|done]].
      change KM_SLAB_MAX with 2048 in Hlt. destruct (big_pages size ltac:(lia) Hb) as (Hn & E & _).
      destruct (big_add_run _ _ _ st lv p _ Hi (Hf p eq_refl) Hn) as [Hnone Hi']. rewrite <- E in Hi'. rewrite bool_decide_true by done.
      eexists. split; [done|done].
    + destruct (heap_of_spec size ltac:(lia)) as (n & Hn & Hne & _). fold (heap_of size).
      destruct (vm_slab_alloc_run _ _ _ Ht st lv _ wait mem Hi Hne (mk_is_Some _ _ Hn) Hf) as (r & st' & mem' & -> & Hi' & _). eexists. split; [done|done].
  - unfold kfree. destruct Hc as [(a & Ha & Hl)|(Hm & sz & Hp)].
    + destruct (free_run _ _ _ Ht st lv a p Hi Hl) as (st' & E & Hi' & _).
      destruct (i_live _ _ _ _ _ Hi _ _ Hl) as [(s & sl & Hs & <- & Ho) _]. rewrite (slot_at _ _ _ Ht _ _ _ _ _ Hi Hs Ho), Hs. cbn [rbind deref].
      rewrite E. unfold vm_slab_free in E. destruct (negb (p =? 0)); [|done]. eexists. split; [done|done].
    + rewrite Hp. destruct (i_big _ _ _ _ _ Hi _ _ Hp) as (Hpos & _). destruct (Z.eqb_spec p 0) as [->|]; [done|]. simpl.
      eexists. split; [done|]. simpl. rewrite delete_id; [by eapply big_del_run|].
      destruct (lv !! p) eqn:E; [|done]. destruct (live_page _ _ _ Ht _ _ _ _ Hi E). congruence.
Qed.

(** ** What is in use does not overlap *)

(** An object or the structure at the start of a page. *)
Definition placed (st : slabsys) (p n : Z) : Prop := exists s sl algn, slabs st !! s = Some sl /\
  heap_table !! salloc sl = Some (n, algn) /\ (p ∈ slots heap_table sl \/ p = s /\ salloc sl = vm_slabs).

Lemma region_placed st lv u p n : Inv st lv -> region (st, lv) u p n -> u = Big \/ placed st p n.
Proof.
  pose proof heap_table_ok as Ht. intros Hi. destruct u; simpl; [| | |by left]; intros Hr; right.
  - destruct Hr as (a & algn & Hl & _ & Ha). destruct (i_live _ _ _ _ _ Hi _ _ Hl) as [(s & sl & Hs & <- & Ho) _]. exists s, sl, algn. eauto.
  - destruct Hr as [Hor ->]. destruct Hor as [Hl|[sl Hs]].
    + destruct (i_live _ _ _ _ _ Hi _ _ Hl) as [(s & sl & Hs & Ea & Ho) _]. exists s, sl, 0. rewrite Ea, (t_slabs _ _ _ Ht). eauto.
    + destruct (i_key _ _ _ _ _ Hi _ _ Hs) as [Ea|(t & tl & Htl & Ea & Ho)].
      * exists p, sl, 0. rewrite Ea, (t_slabs _ _ _ Ht). eauto.
      * exists t, tl, 0. rewrite Ea, (t_slabs _ _ _ Ht). eauto.
  - destruct Hr as (s & sl & algn & Hs & Hf & Ha). exists s, sl, algn. split_and!; [done..|]. left.
    by apply (s_free _ _ _ _ _ _ _ (i_slab _ _ _ _ _ Hi _ _ Hs)).
Qed.

Lemma placed_page st lv s sl algn p n : Inv st lv -> slabs st !! s = Some sl -> heap_table !! salloc sl = Some (n, algn) ->
  (p ∈ slots heap_table sl \/ p = s /\ salloc sl = vm_slabs) ->
  pages st !! atop p = Some (VM_PG_SLAB s) /\ p + n <= page_end p /\ 0 < n /\
  (p ∈ slots heap_table sl /\ sptr sl <= p \/ p = s /\ p + n <= sptr sl).
Proof.
  pose proof heap_table_ok as Ht. intros Hi Hs Hn Hc. destruct (i_slab _ _ _ _ _ Hi _ _ Hs) as [Hh Hp _ _ _ _]. destruct Hc as [Ho|[-> Ea]].
  - destruct (slot_bounds _ _ _ Ht _ _ _ Hh Ho) as (? & ? & Et & Hok & Hge & Hle & Eat). simplify_eq. rewrite Eat.
    rewrite page_end_atop in *. rewrite Eat. destruct Hok as [H4 _]. simpl in H4. split_and!; [done|lia|lia|left]. split; [done|lia].
  - destruct (head_page _ _ _ Ht _ _ Hh Ea) as (Eat & Hlt & _). rewrite page_end_atop. rewrite Eat.
    rewrite Ea, (t_slabs _ _ _ Ht) in Hn. simplify_eq. pose proof (t_entry _ _ _ Ht _ _ (t_slabs _ _ _ Ht)) as [H4 _]. simpl in H4.
    destruct Hh as (_ & _ & p & _ & _ & [(_ & -> & Esp)|[? _]]); [|done].
    pose proof (proj1 (atop_iff (sptr sl) _) eq_refl). split_and!; [done|lia|lia|right]. split; [done|lia].
Qed.

Lemma placed_apart st lv p n p' n' : Inv st lv -> placed st p n -> placed st p' n' -> p = p' \/ p + n <= p' \/ p' + n' <= p.
Proof.
  pose proof heap_table_ok as Ht. intros Hi (s & sl & algn & Hs & Hn & Hc) (t & tl & algn' & Htl & Hn' & Hc').
  destruct (placed_page _ _ _ _ _ _ _ Hi Hs Hn Hc) as (Hp & Hle & Hpos & Hd). destruct (placed_page _ _ _ _ _ _ _ Hi Htl Hn' Hc') as (Hp' & Hle' & Hpos' & Hd').
  rewrite page_end_atop in Hle, Hle'.
  pose proof (proj1 (atop_iff p _) eq_refl). pose proof (proj1 (atop_iff p' _) eq_refl).
  destruct (Z.lt_trichotomy (atop p) (atop p')) as [?|[E|?]]; [rewrite page_sz in *; lia| |rewrite page_sz in *; lia].
  rewrite E in Hp. rewrite Hp in Hp'. simplify_eq. destruct Hd as [[Ho ?]|[-> ?]], Hd' as [[Ho' ?]|[-> ?]]; [|lia..].
  eapply slots_apart; [exact Ht|apply (i_slab _ _ _ _ _ Hi _ _ Hs)|exact Hn|done|done].
Qed.

Lemma big_apart st lv p n p' n' u : Inv st lv -> region (st, lv) Big p n -> region (st, lv) u p' n' ->
  (u = Big /\ p = p') \/ p + n <= p' \/ p' + n' <= p.
Proof.
  pose proof heap_table_ok as Ht. intros Hi [Hm Hp] Hr. destruct (i_big _ _ _ _ _ Hi _ _ Hp) as (Hb & Hn & Hnm & _ & Hq).
  pose proof (Z.div_mod p PAGE_SZ ltac:(done)) as Hd. pose proof (Z.div_mod n PAGE_SZ ltac:(done)) as Hdn. rewrite <- atop_div in Hd. rewrite Hm in Hd. rewrite Hnm in Hdn.
  destruct (region_placed _ _ _ _ _ Hi Hr) as [->|(s & sl & algn & Hs & Hn' & Hc)].
  - destruct Hr as [Hm' Hp']. destruct (i_big _ _ _ _ _ Hi _ _ Hp') as (_ & _ & Hnm' & _ & Hq').
    pose proof (Z.div_mod p' PAGE_SZ ltac:(done)) as Hd'. pose proof (Z.div_mod n' PAGE_SZ ltac:(done)) as Hdn'.
    rewrite <- atop_div in Hd'. rewrite Hm' in Hd'. rewrite Hnm' in Hdn'.
    destruct (Z.lt_trichotomy (atop p) (atop p')) as [Hlt|[E|Hlt]]; [|left; split; [done|congruence]|].
    + destruct (decide (atop p' < atop p + n / PAGE_SZ)) as [Hx|]; [rewrite Hq in Hp' by lia; done|]. rewrite page_sz in *. lia.
    + destruct (decide (atop p < atop p' + n' / PAGE_SZ)) as [Hx|]; [rewrite Hq' in Hp by lia; done|]. rewrite page_sz in *. lia.
  - right. destruct (placed_page _ _ _ _ _ _ _ Hi Hs Hn' Hc) as (Hp' & Hle' & _). rewrite page_end_atop in Hle'.
    pose proof (proj1 (atop_iff p' _) eq_refl). destruct (Z.lt_trichotomy (atop p) (atop p')) as [Hlt|[E|Hlt]]; [|rewrite E in Hp; congruence|].
    + destruct (decide (atop p' < atop p + n / PAGE_SZ)) as [Hx|]; [rewrite Hq in Hp' by lia; done|]. rewrite page_sz in *. lia.
    + rewrite page_sz in *. lia.
Qed.

(** The use of an address. *)
Lemma use_at st lv u p n : Inv st lv -> u <> Big -> region (st, lv) u p n ->
  u = match lv !! p with
      | Some a => if decide (a = vm_slabs) then Struct else Client
      | None => match slabs st !! p with Some _ => Struct | None => Free end
      end.
Proof.
  intros Hi Hu Hr. destruct u; [..|done].
  - destruct Hr as (a & ? & -> & Ha & _). by rewrite decide_False.
  - destruct Hr as [[->|[sl Hs]] _]; [by rewrite decide_True|]. rewrite Hs. destruct (lv !! p) eqn:E; [|done].
    apply (i_live _ _ _ _ _ Hi) in E as [_ ?]. congruence.
  - destruct Hr as (s & sl & ? & Hs & Hf & _). apply (s_free _ _ _ _ _ _ _ (i_slab _ _ _ _ _ Hi _ _ Hs)) in Hf as (_ & -> & ->). done.
Qed.

Lemma uses_apart st lv u p n u' p' n' : Inv st lv -> region (st, lv) u p n -> region (st, lv) u' p' n' ->
  u = u' /\ p = p' \/ p + n <= p' \/ p' + n' <= p.
Proof.
  intros Hi Hr Hr'. destruct (decide (u = Big)) as [->|Hu]; [|destruct (decide (u' = Big)) as [->|Hu']].
  - destruct (big_apart _ _ _ _ _ _ _ Hi Hr Hr') as [[-> ->]|?]; tauto.
  - destruct (big_apart _ _ _ _ _ _ _ Hi Hr' Hr) as [[-> ->]|?]; tauto.
  - destruct (region_placed _ _ _ _ _ Hi Hr) as [?|Hp]; [done|]. destruct (region_placed _ _ _ _ _ Hi Hr') as [?|Hp']; [done|].
    destruct (placed_apart _ _ _ _ _ _ Hi Hp Hp') as [->|?]; [left|by right]. split; [|done].
    rewrite (use_at _ _ _ _ _ Hi Hu Hr), (use_at _ _ _ _ _ Hi Hu' Hr'). done.
Qed.

Lemma slot_aligned s sl sz algn o : head_ok vm_slabs slab_size heap_table s sl -> heap_table !! salloc sl = Some (sz, algn) ->
  o ∈ slots heap_table sl -> o mod Z.max algn VM_PTR_ALIGN = 0.
Proof.
  pose proof heap_table_ok as Ht. intros Hh Et Ho. destruct (slot_bounds _ _ _ Ht _ _ _ Hh Ho) as (? & ? & Et' & Hok & ? & ? & _). simplify_eq.
  destruct Hh as (_ & Hend & _). unfold slots in Ho. rewrite Et in Ho. pose proof Hok as ([H4 ?] & k & Hk & Ek). simpl in H4, Ek.
  rewrite page_sz in *. destruct (align_up_spec k algn (sptr sl) Hk Ek) as (? & ? & _); [lia|rewrite page_sz; lia|].
  apply (objects_aligned _ _ Hok) in Ho; [done|lia|rewrite page_sz; lia|by rewrite Ek].
Qed.

Lemma calls_inv w : rtc call_step (vm_boot, ∅) w -> Inv w.1 w.2.
Proof.
  intros H. apply (rtc_invariant _ (fun w => Inv w.1 w.2) _ _ H); [apply boot_inv|].
  intros [st lv] w' Hi (c & Hc & E). destruct (exec_run st lv c Hi Hc) as (w1 & E1 & Hi1). rewrite E in E1. by simplify_eq.
Qed.

(** The blocks the callers of [kmalloc] and of the slab allocators have. *)
Definition block (w : slabsys * gmap Z Z) (p n : Z) : Prop := region w Client p n \/ region w Big p n.

(** [kmalloc] and then [kfree], for a small and for a big block. *)
Lemma kmalloc_small st lv size wait mem p st' mem' : Inv st lv -> 0 <= size <= KM_SLAB_MAX -> fresh_mem st mem ->
  kmalloc vm_slabs slab_size heap st size wait mem = Done (Got p, st', mem') ->
  exists n, region (st', <[p := heap_of size]> lv) Client p n /\ size <= n <= 2 * Z.max size 4 /\ p mod VM_PTR_ALIGN = 0 /\ lv !! p = None /\
    (forall m, pages st !! atop p <> Some (VM_PG_MALLOC m)) /\ exists st2, kfree st' p = Done st2 /\ same_big st st2.
Proof.
  pose proof heap_table_ok as Ht. intros Hi Hs Hf Hk. unfold kmalloc in Hk. rewrite (proj2 (Z.ltb_ge _ _)) in Hk by lia. fold (heap_of size) in Hk.
  destruct (heap_of_spec size Hs) as (n & Hn & Hne & Hle & Hge).
  destruct (vm_slab_alloc_run _ _ _ Ht st lv _ wait mem Hi Hne (mk_is_Some _ _ Hn) Hf) as (r & st1 & mem1 & E & Hi' & Hfree & Hb).
  rewrite Hk in E. simplify_eq. simpl in Hi', Hfree. exists n.
  assert (Hl : <[p := heap_of size]> lv !! p = Some (heap_of size)) by apply lookup_insert_eq.
  destruct (i_live _ _ _ _ _ Hi' _ _ Hl) as [(s & sl & Hs' & Ea & Ho) _].
  destruct (free_run _ _ _ Ht _ _ _ _ Hi' Hl) as (st2 & Efree & _ & Hpg & _).
  split_and!; [by exists (heap_of size), 0|done|done| |done| |].
  - eapply (slot_aligned s sl n 0); [apply (i_slab _ _ _ _ _ Hi' _ _ Hs')|by rewrite Ea|done].
  - intros m Hm. apply Hb in Hm. rewrite (slot_at _ _ _ Ht _ _ _ _ _ Hi' Hs' Ho) in Hm. done.
  - exists st2. unfold kfree. rewrite (slot_at _ _ _ Ht _ _ _ _ _ Hi' Hs' Ho), Hs'. cbn [rbind deref]. rewrite Ea, Efree.
    unfold vm_slab_free in Efree. destruct (negb (p =? 0)); [|done]. split; [done|].
    eapply same_big_trans; [exact Hb|by apply same_big_eq].
Qed.

Lemma kmalloc_big st lv size wait mem p st' mem' : Inv st lv -> KM_SLAB_MAX < size -> size + PAGE_SZ <= 2 ^ 32 ->
  (forall q, (next_page mem).1 = Some q -> fresh st q (ALIGN 32 size PAGE_SZ / PAGE_SZ)) ->
  kmalloc vm_slabs slab_size heap st size wait mem = Done (Got p, st', mem') ->
  exists n, region (st', lv) Big p n /\ size <= n < size + PAGE_SZ /\ p mod VM_PTR_ALIGN = 0 /\ pages st !! atop p = None /\
    exists st2, kfree st' p = Done st2 /\ same_big st st2.
Proof.
  intros Hi Hs Hb Hf Hk. unfold kmalloc in Hk. rewrite (proj2 (Z.ltb_lt _ _)) in Hk by lia. change KM_SLAB_MAX with 2048 in Hs.
  destruct (next_page mem) as [[q|] mem1]; [|done]. specialize (Hf q eq_refl).
  destruct (big_pages size ltac:(lia) Hb) as (Hn & E & Hr). destruct (big_add_run _ _ _ st lv q _ Hi Hf Hn) as [Hnone _].
  rewrite bool_decide_true in Hk by done. simplify_eq. destruct Hf as (Hm & Hpos & _).
  exists (ALIGN 32 size PAGE_SZ). split_and!; [split; [done|apply lookup_insert_eq]|lia|lia| |done|].
  - change VM_PTR_ALIGN with 4. apply Z.mod_divide; [lia|]. apply Z.mod_divide in Hm; [|done]. etrans; [|exact Hm]. by exists 1024.
  - unfold kfree. rewrite (proj2 (Z.eqb_neq p 0)) by lia. simpl. rewrite lookup_insert_eq. eexists. split; [done|].
    apply same_big_eq. simpl. by rewrite delete_insert_id.
Qed.

(** C9: whatever the callers do - allocations that find memory, fail or wait,
    frees, memory given by [vmem_free], reclaims, [kmalloc] and [kfree] in any
    order - the slab allocators and [kmalloc] never fail an assertion.  The
    blocks of the callers, the structures of the slabs, the free objects with
    their links and the blocks of pages never overlap, and an object has the
    alignment its allocator promises.  The callers give back what they got,
    once, and [vmem_alloc_backed] returns pages that are not in use. *)
Theorem slab_no_overlap w : rtc call_step (vm_boot, ∅) w ->
  (forall c, allowed w c -> exists w', exec w c = Done w') /\
  (forall u p n u' p' n', region w u p n -> region w u' p' n' -> u = u' /\ p = p' \/ p + n <= p' \/ p' + n' <= p) /\
  (forall p a n algn, w.2 !! p = Some a -> heap_table !! a = Some (n, algn) -> p mod Z.max algn VM_PTR_ALIGN = 0).
Proof.
  intros Hi%calls_inv. destruct w as [st lv]. simpl in Hi. split_and!.
  - intros c Hc. destruct (exec_run st lv c Hi Hc) as (w' & ? & _). eauto.
  - intros *. by apply uses_apart.
  - intros p a n algn Hl Ha. destruct (i_live _ _ _ _ _ Hi _ _ Hl) as [(s & sl & Hs & <- & Ho) _].
    eapply slot_aligned; [apply (i_slab _ _ _ _ _ Hi _ _ Hs)|done..].
Qed.

(** C30: a block that [kmalloc] returns has at least [size] bytes, at most twice
    as many or the rest of a page more, is aligned for a pointer and was not in
    use; [kfree] takes it back without a failed assertion, and the callers have
    the blocks they had before. *)
Theorem kmalloc_kfree st lv size wait mem p st' mem' :
  rtc call_step (vm_boot, ∅) (st, lv) -> allowed (st, lv) (CMalloc size wait mem) ->
  kmalloc vm_slabs slab_size heap st size wait mem = Done (Got p, st', mem') ->
  exists lv' n, exec (st, lv) (CMalloc size wait mem) = Done (st', lv') /\ block (st', lv') p n /\
    size <= n <= Z.max (2 * Z.max size 4) (size + PAGE_SZ) /\ p mod VM_PTR_ALIGN = 0 /\ (forall m, ~ block (st, lv) p m) /\
    exists w2, exec (st', lv') (CKfree p) = Done w2 /\ forall q m, block w2 q m <-> block (st, lv) q m.
Proof.
  intros Hi%calls_inv (H0 & Hb & Hf) Hk. simpl in Hi. pose proof heap_table_ok as Ht.
  assert (Hblk : forall st2, same_big st st2 -> forall q m, block (st2, lv) q m <-> block (st, lv) q m).
  { intros st2 Hs q m. unfold block. simpl. by rewrite (Hs (atop q) m). }
  cbn [exec]. rewrite Hk. cbn [rbind]. destruct (Z.ltb_spec KM_SLAB_MAX size) as [Hlt|Hle].
  - destruct (kmalloc_big _ _ _ _ _ _ _ _ Hi Hlt Hb Hf Hk) as (n & Hr & Hn & Hal & Hnone & st2 & -> & Hs).
    assert (Hl : lv !! p = None).
    { destruct (lv !! p) eqn:E; [|done]. destruct (live_page _ _ _ Ht _ _ _ _ Hi E). congruence. }
    exists lv, n. split_and!; [done|by right|lia|lia|done| |].
    + intros m [(a & ? & ? & _)|[_ ?]]; congruence.
    + eexists. split; [done|]. rewrite delete_id by done. by apply Hblk.
  - destruct (kmalloc_small _ _ _ _ _ _ _ _ Hi (conj H0 Hle) Hf Hk) as (n & Hr & Hn & Hal & Hl & Hnb & st2 & -> & Hs).
    eexists _, n. split_and!; [done|by left|lia|lia|done| |].
    + intros m [(a & ? & ? & _)|[_ ?]]; [congruence|naive_solver].
    + eexists. split; [done|]. cbn [give]. rewrite delete_insert_id by done. by apply Hblk.
Qed.
End Calls.

(** ** Witnesses: structures of 32 bytes, an allocator of 24 bytes and the heap *)

Definition demo_statics : gmap Z (Z * Z) := <[1 := (32, 0)]> (<[2 := (24, 16)]> ∅).
Definition demo_heap (i : Z) : Z := 100 + i.

Lemma demo_boot : boot_ok 1 32 demo_heap demo_statics.
Proof.
  split.
  - intros a e. unfold demo_statics. intros [[<- <-]|[_ [[<- <-]|[_ He]]%lookup_insert_Some]]%lookup_insert_Some; [| |done].
    + split; [by split|]. exists 2. by split.
    + split; [by split|]. exists 4. by split.
  - reflexivity.
  - by split.
  - intros i Hi. unfold demo_statics, demo_heap. rewrite !lookup_insert_ne by lia. apply lookup_empty.
  - unfold demo_heap. lia.
Qed.

Lemma fresh_boot p n : 0 < p -> p mod PAGE_SZ = 0 -> p + PAGE_SZ * (n + 2) < 2 ^ 32 -> fresh (vm_boot demo_heap demo_statics) p n.
Proof.
  intros Hp Hm Hb. split_and!; [done..|]. destruct (boot_starts demo_heap demo_statics) as (_ & _ & Ep & _).
  intros q _ [[x Hx]|(b & sz & Hx & _)]; rewrite Ep in Hx; done.
Qed.

Definition demo_mem : list (option Z) := [Some (PAGE_SZ * 16); Some (PAGE_SZ * 17)].

Lemma demo_fresh_mem : fresh_mem (vm_boot demo_heap demo_statics) demo_mem.
Proof.
  split; [by apply (bool_decide_unpack (NoDup _)); vm_compute|].
  intros p [[= ->]|[[= ->]|[]%not_elem_of_nil]%elem_of_cons]%elem_of_cons; apply fresh_boot; done.
Qed.

(** An object of 24 bytes takes two pages: one for the structures. *)
Lemma slab_no_overlap_witness : exists w, exec 1 32 demo_heap (vm_boot demo_heap demo_statics, ∅) (CAlloc 2 false demo_mem) = Done w /\
  w.2 = {[PAGE_SZ * 17 + 4064 := 2]} /\
  forall u p n u' p' n', region 1 32 demo_heap demo_statics w u p n -> region 1 32 demo_heap demo_statics w u' p' n' ->
    u = u' /\ p = p' \/ p + n <= p' \/ p' + n' <= p.
Proof.
  destruct (exec 1 32 demo_heap (vm_boot demo_heap demo_statics, ∅) (CAlloc 2 false demo_mem)) as [w| | |] eqn:E;
    [|vm_compute in E; discriminate..].
  exists w. split; [done|]. split.
  - apply (f_equal (fun r => match r with Done w => w.2 | _ => ∅ end)) in E. rewrite <- E. vm_compute. reflexivity.
  - apply (slab_no_overlap 1 32 demo_heap demo_statics demo_boot). apply rtc_once. exists (CAlloc 2 false demo_mem). split; [|exact E].
    split; [|apply demo_fresh_mem]. split; [done|]. eexists. vm_compute. reflexivity.
Defined.

(** A block of 100 bytes comes from the objects of 128 bytes. *)
Lemma kmalloc_kfree_witness : exists st' mem' lv' n,
  kmalloc 1 32 demo_heap (vm_boot demo_heap demo_statics) 100 true demo_mem = Done (Got (PAGE_SZ * 17 + 3968), st', mem') /\
  block 1 32 demo_heap demo_statics (st', lv') (PAGE_SZ * 17 + 3968) n /\ 100 <= n /\
  exists w2, exec 1 32 demo_heap (st', lv') (CKfree (PAGE_SZ * 17 + 3968)) = Done w2.
Proof.
  destruct (kmalloc 1 32 demo_heap (vm_boot demo_heap demo_statics) 100 true demo_mem) as [[[r st'] mem']| | |] eqn:E; [|vm_compute in E; discriminate..].
  assert (Hr : r = Got (PAGE_SZ * 17 + 3968)).
  { apply (f_equal (fun x => match x with Done (r, _, _) => r | _ => NoMem end)) in E. rewrite <- E. vm_compute. reflexivity. }
  subst r. assert (Ha : allowed 1 demo_heap demo_statics (vm_boot demo_heap demo_statics, ∅) (CMalloc 100 true demo_mem)).
  { split; [lia|]. split; [rewrite page_sz; lia|]. apply demo_fresh_mem. }
  destruct (kmalloc_kfree 1 32 demo_heap demo_statics demo_boot _ _ _ _ _ _ _ _ (rtc_refl _ _) Ha E) as (lv' & n & _ & Hb & Hn & _ & _ & w2 & Hw & _).
  exists st', mem', lv', n. split; [done|]. split; [done|]. split; [lia|]. by exists w2.
Defined.

(** ** Empty slabs that are not found

    slab.h says that slabs without objects in use are at the end of the free
    list, and [vm_slab_reclaim] looks only there, but [vm_slab_free] leaves a
    slab where it is.  After three blocks of 2048 bytes, of which the first two
    are given back, one slab has no object in use and nothing is reclaimed. *)
Definition demo_calls : list call :=
  [CMalloc 2048 false [Some (PAGE_SZ * 16); Some (PAGE_SZ * 17)]; CMalloc 2048 false []; CMalloc 2048 false [Some (PAGE_SZ * 18)];
   CKfree (PAGE_SZ * 17); CKfree (PAGE_SZ * 17 + 2048)].
Lemma reclaim_misses_empty : exists st lv,
  foldl (fun r c => let* w := r in exec 1 32 demo_heap w c) (Done (vm_boot demo_heap demo_statics, ∅)) demo_calls = Done (st, lv) /\
  (exists s sl, slabs st !! s = Some sl /\ nfree sl = nobj sl) /\ vm_slab_reclaim 1 st = Done (false, st).
Proof.
  do 2 eexists. split; [vm_compute; reflexivity|]. split; [|vm_compute; reflexivity].
  exists (PAGE_SZ * 16 + 4064). eexists. split; vm_compute; reflexivity.
Qed.
