(* ===== verification/Ext2.v ===== *)
(** * drivers/fs/ext2: blocks and inodes of a file system

    ext2.c (parsing the superblock), alloc.c (the bitmaps of free blocks and
    inodes) and inode.c (the tree of blocks of a file).  What the tree is and what
    happens to it is in [Ext2Map], truncation and inodes are in [Ext2Inode].

    The device is an array of bytes; [faults] has what the next operations on it
    return, 0 for success.  An operation that fails transfers nothing.  The lock
    of the bitmaps and the lock of a node are held by the callers, so an
    operation is one step. *)
From stdpp Require Import base gmap list relations.
From Stdlib Require Import ZArith Lia Bool.
From S2P Require Import Prelude Interleave Bitset.
Open Scope Z_scope.

(** ** The device *)

Record disk := MkDisk { content : gmap Z Z; faults : list Z }.

Definition byte (d : disk) (o : Z) : Z := default 0 (content d !! o).
Definition read_bytes (d : disk) (off n : Z) : list Z := (fun i => byte d (off + i)) <$> seqZ 0 n.
Fixpoint put_bytes (m : gmap Z Z) (off : Z) (bs : list Z) : gmap Z Z :=
  match bs with [] => m | b :: bs => <[off := b]> (put_bytes m (off + 1) bs) end.

Definition next_fault (d : disk) : Z * disk :=
  match faults d with [] => (0, d) | e :: r => (e, MkDisk (content d) r) end.

Definition bread (d : disk) (off n : Z) : Z * list Z * disk :=
  let '(err, d) := next_fault d in if err =? 0 then (0, read_bytes d off n, d) else (err, [], d).
Definition bwrite (d : disk) (off : Z) (bs : list Z) : Z * disk :=
  let '(err, d) := next_fault d in if err =? 0 then (0, MkDisk (put_bytes (content d) off bs) (faults d)) else (err, d).

(** A word of a buffer that was read. *)
Definition word_of (buf : list Z) (i : Z) : option Z :=
  if (0 <=? i) && (4 * i + 4 <=? Z.of_nat (length buf)) then Some (word_at buf (Z.to_nat i)) else None.

(** ** Data *)

Definition EXT2_MIN_BLKSZ_LOG : Z := 10.
Definition EXT2_BGD_LOG_SZ : Z := 5.
Definition EXT2_ADDR_LOG_SZ : Z := 2.
Definition EXT2_OLD_INODE_SIZE : Z := 128.
Definition EXT2_NDIR_BLOCKS : Z := 12.
Definition EXT2_IND_BLOCK : Z := EXT2_NDIR_BLOCKS.
Definition EXT2_DIND_BLOCK : Z := EXT2_IND_BLOCK + 1.
Definition EXT2_TIND_BLOCK : Z := EXT2_DIND_BLOCK + 1.
Definition EXT2_N_BLOCKS : Z := EXT2_TIND_BLOCK + 1.
Definition EXT2_SUPER_MAGIC : Z := 0xEF53.
Definition EXT2_VALID_FS : Z := 1.
Definition EXT2_ERROR_FS : Z := 2.
Definition EXT2_GOOD_OLD_REV : Z := 0.
Definition EXT2_DYNAMIC_REV : Z := 1.
Definition EXT2_FEATURE_INCOMPAT_FILETYPE : Z := 2.
Definition EXT2_FEATURE_RO_COMPAT_LARGE_FILE : Z := 2.

Record ext2_sblock_t := MkSb {
  s_inodes_count : Z; s_blocks_count : Z; s_free_blocks_count : Z; s_free_inodes_count : Z;
  s_first_data_block : Z; s_log_block_size : Z; s_blocks_per_group : Z; s_inodes_per_group : Z;
  s_magic : Z; s_state : Z; s_rev_level : Z; s_first_ino : Z; s_inode_size : Z;
  s_feature_incompat : Z; s_feature_ro_compat : Z
}.

Record ext2_bgd_t := MkBgd {
  bg_block_bitmap : Z; bg_inode_bitmap : Z; bg_inode_table : Z;
  bg_free_blocks_count : Z; bg_free_inodes_count : Z; bg_used_dirs_count : Z
}.

(** What [ext2_parse_super] computes. *)
Record ext2_geom := MkGeom {
  blksz : Z; blkshift : Z; ino_sz : Z; addr_per_blk : Z; addr_per_blk_sq : Z;
  log_naddr : Z; log_naddr_sq : Z; bgd_per_blk : Z; ino_per_blk : Z; nbgd : Z; maxlen : Z
}.

Record ext2_fs_t := MkFs { super : ext2_sblock_t; geom : ext2_geom; dev : disk; bgds : list ext2_bgd_t }.

Definition set_dev (fs : ext2_fs_t) (d : disk) : ext2_fs_t := MkFs (super fs) (geom fs) d (bgds fs).
Definition set_bgd (fs : ext2_fs_t) (i : Z) (b : ext2_bgd_t) : ext2_fs_t :=
  MkFs (super fs) (geom fs) (dev fs) (<[Z.to_nat i := b]> (bgds fs)).
Definition get_bgd (fs : ext2_fs_t) (i : Z) : res ext2_bgd_t := if 0 <=? i then deref (bgds fs !! Z.to_nat i) else Fault.
Definition set_free (fs : ext2_fs_t) (blocks inodes : Z) : ext2_fs_t :=
  let s := super fs in
  MkFs (MkSb (s_inodes_count s) (s_blocks_count s) blocks inodes (s_first_data_block s) (s_log_block_size s) (s_blocks_per_group s)
    (s_inodes_per_group s) (s_magic s) (s_state s) (s_rev_level s) (s_first_ino s) (s_inode_size s) (s_feature_incompat s)
    (s_feature_ro_compat s)) (geom fs) (dev fs) (bgds fs).
Definition with_free_blocks (b : ext2_bgd_t) (n : Z) : ext2_bgd_t :=
  MkBgd (bg_block_bitmap b) (bg_inode_bitmap b) (bg_inode_table b) n (bg_free_inodes_count b) (bg_used_dirs_count b).
Definition with_free_inodes (b : ext2_bgd_t) (n : Z) : ext2_bgd_t :=
  MkBgd (bg_block_bitmap b) (bg_inode_bitmap b) (bg_inode_table b) (bg_free_blocks_count b) n (bg_used_dirs_count b).

(** [EXT2_BOFF] of a block number of 32 bits and of a [blkno_t]. *)
Definition EXT2_BOFF (g : ext2_geom) (blk off : Z) : res Z :=
  kassert off <? blksz g in Done (u32 (u32 (Z.shiftl blk (blkshift g)) + off)).
Definition EXT2_BOFF64 (g : ext2_geom) (blk off : Z) : res Z :=
  kassert off <? blksz g in Done (u64 (u64 (Z.shiftl blk (blkshift g)) + off)).
Definition EXT2_IBLKS (g : ext2_geom) : Z := Z.shiftr (blksz g) 9.

(** ** ext2.c *)

(** [Done None] if the superblock is refused; a division by zero is a fault. *)
Definition ext2_parse_super (sb : ext2_sblock_t) : res (option ext2_geom) :=
  if negb (s_magic sb =? EXT2_SUPER_MAGIC) then Done None
  else if negb (s_rev_level sb =? EXT2_GOOD_OLD_REV) && negb (s_rev_level sb =? EXT2_DYNAMIC_REV) then Done None
  else if negb (s_state sb =? EXT2_VALID_FS) && negb (s_state sb =? EXT2_ERROR_FS) then Done None
  else if negb (Z.land (s_feature_incompat sb) (Z.lnot EXT2_FEATURE_INCOMPAT_FILETYPE) =? 0) then Done None
  else
    let blkshift := u32 (EXT2_MIN_BLKSZ_LOG + s_log_block_size sb) in
    let blksz := u32 (Z.shiftl 1 blkshift) in
    let log_naddr := u32 (blkshift - EXT2_ADDR_LOG_SZ) in
    let log_naddr_sq := u32 (log_naddr + log_naddr) in
    let n := s_blocks_count sb / s_blocks_per_group sb in
    let n := if u32 (n * s_blocks_per_group sb) <? s_blocks_count sb then u32 (n + 1) else n in
    let ino_sz := if s_rev_level sb =? EXT2_GOOD_OLD_REV then EXT2_OLD_INODE_SIZE else s_inode_size sb in
    if (s_blocks_per_group sb =? 0) || (ino_sz =? 0) then Fault else
    let large := negb (Z.land (s_feature_ro_compat sb) EXT2_FEATURE_RO_COMPAT_LARGE_FILE =? 0) in
    let maxlen := if (s_rev_level sb =? EXT2_GOOD_OLD_REV) || negb large then 0x7fffffff else 0x7fffffffffffffff in
    Done (Some (MkGeom blksz blkshift ino_sz (u32 (Z.shiftl 1 log_naddr)) (u32 (Z.shiftl 1 log_naddr_sq)) log_naddr log_naddr_sq
      (Z.shiftr blksz EXT2_BGD_LOG_SZ) (blksz / ino_sz) n maxlen)).

Definition ext2_bclr (fs : ext2_fs_t) (blk : Z) : res (Z * ext2_fs_t) :=
  kassert blksz (geom fs) <=? 4096 in
  let* off := EXT2_BOFF (geom fs) blk 0 in
  let '(err, d) := bwrite (dev fs) off (replicate (Z.to_nat (blksz (geom fs))) 0) in
  Done (err, set_dev fs d).

(** ** alloc.c *)

(** The loop of [ext2_bitmap_alloc] from word [i] on; [n] words are left. *)
Fixpoint bitmap_loop (n : nat) (fs : ext2_fs_t) (bitmap min : Z) (buf : list Z) (i r : Z) : res (Z * Z * ext2_fs_t) :=
  match n with
  | O => Done (- ENOSPC, r, fs)
  | S n =>
      let* w := deref (word_of buf i) in
      let val := u32 (Z.lnot w) in
      let val := if (i =? 0) && negb (min =? 0) then Z.land val (u32 (Z.shiftl 1 min - 1)) else val in
      let bit := ffs val in
      if bit =? 0 then bitmap_loop n fs bitmap min buf (i + 1) r
      else
        let bit := bit - 1 in
        let idx := bit + Z.shiftl i 5 in
        if s_blocks_per_group (super fs) <? idx then Done (- ENOSPC, r, fs)
        else
          let* off := EXT2_BOFF (geom fs) bitmap (Z.shiftl i 2) in
          let '(err, d) := bwrite (dev fs) off (int_bytes (Z.setbit w bit)) in
          Done (err, idx, set_dev fs d)
  end.

(** Also the value of [*res], [r] before the call. *)
Definition ext2_bitmap_alloc (fs : ext2_fs_t) (bitmap min r : Z) : res (Z * Z * ext2_fs_t) :=
  let* off := EXT2_BOFF (geom fs) bitmap 0 in
  let '(err, buf, d) := bread (dev fs) off (blksz (geom fs)) in
  let fs := set_dev fs d in
  if negb (err =? 0) then Done (err, r, fs)
  else bitmap_loop (Z.to_nat (Z.shiftr (s_blocks_per_group (super fs)) 5)) fs bitmap min buf 0 r.

Definition ext2_bitmap_free (fs : ext2_fs_t) (bitmap idx : Z) : res (Z * ext2_fs_t) :=
  let byte := Z.shiftr idx 3 in
  let mask := Z.shiftl 1 (Z.land idx 7) in
  let* off := EXT2_BOFF (geom fs) bitmap byte in
  let '(err, buf, d) := bread (dev fs) off 1 in
  let fs := set_dev fs d in
  if negb (err =? 0) then Done (err, fs)
  else
    let* val := deref (head buf) in
    kassert negb (Z.land val mask =? 0) in
    let '(err, d) := bwrite (dev fs) off [u8 (Z.land val (Z.lnot mask))] in
    Done (err, set_dev fs d).

(** The loops of [ext2_balloc] and [ext2_ialloc]: [n] groups are left. *)
Fixpoint balloc_loop (n : nat) (fs : ext2_fs_t) (start i err blk : Z) : res (Z * Z * ext2_fs_t) :=
  match n with
  | O => Done (err, blk, fs)
  | S n =>
      let bgd_id := u32 (start + i) in
      let bgd_id := if nbgd (geom fs) <=? bgd_id then u32 (bgd_id - nbgd (geom fs)) else bgd_id in
      let* b := get_bgd fs bgd_id in
      if bg_free_inodes_count b =? 0 then balloc_loop n fs start (i + 1) err blk
      else
        let* '(err, blk, fs) := ext2_bitmap_alloc fs (bg_block_bitmap b) 0 blk in
        if err =? - ENOSPC then balloc_loop n (set_bgd fs bgd_id (with_free_blocks b 0)) start (i + 1) err blk
        else if negb (err =? 0) then Done (err, blk, fs)
        else
          let blk := u32 (blk + bgd_id * s_blocks_per_group (super fs)) in
          let fs := set_bgd fs bgd_id (with_free_blocks b (u16 (bg_free_blocks_count b - 1))) in
          Done (0, blk, set_free fs (u32 (s_free_blocks_count (super fs) - 1)) (s_free_inodes_count (super fs)))
  end.

Definition ext2_balloc (fs : ext2_fs_t) (ino : Z) : res (Z * Z * ext2_fs_t) :=
  let start := u32 (u64 (ino - 1) / s_inodes_per_group (super fs)) in
  if s_free_blocks_count (super fs) =? 0 then Done (- ENOSPC, 0, fs)
  else balloc_loop (Z.to_nat (nbgd (geom fs))) fs start 0 0 0.

Definition ext2_bfree (fs : ext2_fs_t) (blk : Z) : res ext2_fs_t :=
  let bgd := blk / s_blocks_per_group (super fs) in
  let off := u32 (blk - bgd * s_blocks_per_group (super fs)) in
  let* b := get_bgd fs bgd in
  let* '(err, fs) := ext2_bitmap_free fs (bg_block_bitmap b) off in
  if err =? 0 then
    let fs := set_bgd fs bgd (with_free_blocks b (u16 (bg_free_blocks_count b + 1))) in
    Done (set_free fs (u32 (s_free_blocks_count (super fs) + 1)) (s_free_inodes_count (super fs)))
  else Done fs.

Fixpoint ialloc_loop (n : nat) (fs : ext2_fs_t) (bgd_id err ino : Z) : res (Z * Z * ext2_fs_t) :=
  match n with
  | O => Done (err, ino, fs)
  | S n =>
      let* b := get_bgd fs bgd_id in
      if bg_free_inodes_count b =? 0 then ialloc_loop n fs (bgd_id + 1) err ino
      else
        let min := if (bgd_id =? 0) && (EXT2_GOOD_OLD_REV <? s_rev_level (super fs)) then s_first_ino (super fs) else 0 in
        let* '(err, ino, fs) := ext2_bitmap_alloc fs (bg_inode_bitmap b) min ino in
        if err =? - ENOSPC then ialloc_loop n (set_bgd fs bgd_id (with_free_inodes b 0)) (bgd_id + 1) err ino
        else if negb (err =? 0) then Done (err, ino, fs)
        else
          let ino := u32 (ino + bgd_id * s_inodes_per_group (super fs) + 1) in
          let fs := set_bgd fs bgd_id (with_free_inodes b (u16 (bg_free_inodes_count b - 1))) in
          Done (0, ino, set_free fs (s_free_blocks_count (super fs)) (u32 (s_free_inodes_count (super fs) - 1)))
  end.

Definition ext2_ialloc (fs : ext2_fs_t) : res (Z * Z * ext2_fs_t) :=
  if s_free_inodes_count (super fs) =? 0 then Done (- ENOSPC, 0, fs)
  else ialloc_loop (Z.to_nat (nbgd (geom fs))) fs 0 0 0.

Definition ext2_ifree (fs : ext2_fs_t) (ino : Z) : res ext2_fs_t :=
  let ino := u32 (ino - 1) in
  let bgd := ino / s_inodes_per_group (super fs) in
  let off := u32 (ino - bgd * s_inodes_per_group (super fs)) in
  let* b := get_bgd fs bgd in
  let* '(err, fs) := ext2_bitmap_free fs (bg_inode_bitmap b) off in
  if err =? 0 then
    let fs := set_bgd fs bgd (with_free_inodes b (u16 (bg_free_inodes_count b + 1))) in
    Done (set_free fs (s_free_blocks_count (super fs)) (u32 (s_free_inodes_count (super fs) + 1)))
  else Done fs.

(** ** inode.c *)

(** What is used of a vnode and its inode. *)
Record ext2_node := MkNode { n_ino : Z; n_size : Z; n_blocks : Z; i_block : list Z }.

Definition set_iblock (n : ext2_node) (i b : Z) : ext2_node :=
  MkNode (n_ino n) (n_size n) (n_blocks n) (<[Z.to_nat i := b]> (i_block n)).
Definition set_nsize (n : ext2_node) (z : Z) : ext2_node := MkNode (n_ino n) z (n_blocks n) (i_block n).
Definition set_nblocks (n : ext2_node) (z : Z) : ext2_node := MkNode (n_ino n) (n_size n) z (i_block n).

Definition ext2_inc_blockcnt (fs : ext2_fs_t) (n : ext2_node) : ext2_node := set_nblocks n (n_blocks n + EXT2_IBLKS (geom fs)).

(** Error, the block number read or allocated, and the state. *)
Definition ext2_read_blkaddr (fs : ext2_fs_t) (n : ext2_node) (block index : Z) (alloc : bool) : res (Z * Z * ext2_fs_t * ext2_node) :=
  let* off := EXT2_BOFF (geom fs) block (u32 (Z.shiftl index 2)) in
  let '(err, buf, d) := bread (dev fs) off 4 in
  let fs := set_dev fs d in
  if negb (err =? 0) then Done (err, block, fs, n)
  else
    let blk := word_at buf 0 in
    if (blk =? 0) && alloc then
      let* '(err, blk, fs) := ext2_balloc fs (n_ino n) in
      if negb (err =? 0) then Done (err, blk, fs, n)
      else
        let* '(err, fs) := ext2_bclr fs blk in
        let '(err, fs) :=
          if err =? 0 then let '(err, d) := bwrite (dev fs) off (int_bytes blk) in (err, set_dev fs d) else (err, fs) in
        if negb (err =? 0) then let* fs := ext2_bfree fs blk in Done (err, blk, fs, n)
        else Done (0, blk, fs, ext2_inc_blockcnt fs n)
    else Done (0, blk, fs, n).

(** Where a block of a file is found: a slot of [i_block] and the number that is
    left. *)
Definition bmap_root (g : ext2_geom) (lbn : Z) : Z * Z :=
  if lbn <? EXT2_NDIR_BLOCKS then (lbn, lbn)
  else
    let lbn := lbn - EXT2_NDIR_BLOCKS in
    if lbn <? addr_per_blk g then (EXT2_IND_BLOCK, lbn)
    else if lbn <? u32 (Z.shiftl 1 (log_naddr_sq g)) then (EXT2_DIND_BLOCK, lbn - addr_per_blk g)
    else (EXT2_TIND_BLOCK, u64 (lbn - u32 (addr_per_blk g + u32 (Z.shiftl 1 (log_naddr_sq g))))).

(** The [switch]: from [level] indirections on. *)
Fixpoint bmap_levels (level : nat) (fs : ext2_fs_t) (n : ext2_node) (alloc : bool) (lbn block : Z) : res (Z * Z * ext2_fs_t * ext2_node) :=
  match level with
  | O => Done (0, block, fs, n)
  | S level =>
      let lg := match level with O => 0 | 1%nat => log_naddr (geom fs) | _ => log_naddr_sq (geom fs) end in
      let* '(err, block, fs, n) := ext2_read_blkaddr fs n block (u32 (Z.shiftr lbn lg)) alloc in
      if negb (err =? 0) || (block =? 0) then Done (err, block, fs, n)
      else bmap_levels level fs n alloc (Z.land lbn (u64 (Z.shiftl 1 lg - 1))) block
  end.

Definition ext2_inode_bmap (fs : ext2_fs_t) (n : ext2_node) (alloc : bool) (lbn : Z) : res (Z * Z * ext2_fs_t * ext2_node) :=
  let '(idx, lbn) := bmap_root (geom fs) lbn in
  let* block := deref (i_block n !! Z.to_nat idx) in
  let* '(err, block, fs, n) :=
    if (block =? 0) && alloc then
      let* '(err, block, fs) := ext2_balloc fs (n_ino n) in
      if negb (err =? 0) then Done (err, block, fs, n)
      else
        let* '(err, fs) := if EXT2_NDIR_BLOCKS <=? idx then ext2_bclr fs block else Done (0, fs) in
        if negb (err =? 0) then let* fs := ext2_bfree fs block in Done (err, block, fs, n)
        else Done (0, block, fs, ext2_inc_blockcnt fs (set_iblock n idx block))
    else Done (0, block, fs, n) in
  if negb (err =? 0) then Done (err, block, fs, n)
  else
    let level := if idx <? EXT2_NDIR_BLOCKS then 0%nat else Z.to_nat (idx - EXT2_IND_BLOCK + 1) in
    bmap_levels level fs n alloc lbn block.

(** ** Bytes and bits *)

Definition dword (d : disk) (o : Z) : Z := byte d o + 2 ^ 8 * byte d (o + 1) + 2 ^ 16 * byte d (o + 2) + 2 ^ 24 * byte d (o + 3).
Definition bytes_ok (d : disk) : Prop := forall o, 0 <= byte d o < 256.
Definition bit (d : disk) (base i : Z) : bool := Z.testbit (byte d (base + i / 8)) (i mod 8).

Lemma byte_put m f off bs o : byte (MkDisk (put_bytes m off bs) f) o =
  if decide (off <= o < off + Z.of_nat (length bs)) then bs !!! Z.to_nat (o - off) else byte (MkDisk m f) o.
Proof.
  unfold byte. simpl. revert off. induction bs as [|b bs IH]; intros off; simpl.
  - rewrite decide_False by lia. done.
  - destruct (decide (o = off)) as [->|Hne].
    + rewrite lookup_insert_eq, decide_True by lia. by rewrite Z.sub_diag.
    + rewrite lookup_insert_ne by done. rewrite IH. destruct (decide (off <= o < off + Z.of_nat (S (length bs)))) as [Hin|Hin].
      * rewrite decide_True by lia. replace (Z.to_nat (o - off)) with (S (Z.to_nat (o - (off + 1)))) by lia. done.
      * by rewrite decide_False by lia.
Qed.

Lemma read_lookup d off n i : 0 <= i < n -> read_bytes d off n !! Z.to_nat i = Some (byte d (off + i)).
Proof. intros Hi. unfold read_bytes. rewrite list_lookup_fmap, lookup_seqZ_lt by lia. simpl. do 2 f_equal. lia. Qed.
Lemma read_length d off n : 0 <= n -> Z.of_nat (length (read_bytes d off n)) = n.
Proof. intros Hn. unfold read_bytes. rewrite length_fmap, length_seqZ. lia. Qed.

Lemma read_word d off n i : 0 <= i -> 4 * i + 4 <= n -> word_at (read_bytes d off n) (Z.to_nat i) = dword d (off + 4 * i).
Proof.
  intros Hi Hn. unfold word_at.
  assert (H : forall k, 0 <= k < 4 -> drop (4 * Z.to_nat i) (read_bytes d off n) !! Z.to_nat k = Some (byte d (off + 4 * i + k))).
  { intros k Hk. rewrite lookup_drop. replace (4 * Z.to_nat i + Z.to_nat k)%nat with (Z.to_nat (4 * i + k)) by lia.
    rewrite read_lookup by lia. do 2 f_equal. lia. }
  pose proof (H 0 ltac:(lia)) as H0. pose proof (H 1 ltac:(lia)) as H1. pose proof (H 2 ltac:(lia)) as H2. pose proof (H 3 ltac:(lia)) as H3.
  destruct (drop (4 * Z.to_nat i) (read_bytes d off n)) as [|a [|b [|c [|e r]]]]; try done.
  injection H0 as ->. injection H1 as ->. injection H2 as ->. injection H3 as ->. unfold dword. by rewrite Z.add_0_r.
Qed.

Lemma word_of_read d off n i : 0 <= i -> 4 * i + 4 <= n -> word_of (read_bytes d off n) i = Some (dword d (off + 4 * i)).
Proof.
  intros Hi Hn. unfold word_of. rewrite read_length by lia. rewrite (proj2 (Z.leb_le 0 i)), (proj2 (Z.leb_le _ n)) by lia.
  simpl. by rewrite read_word.
Qed.

Lemma testbit_join n a b i : 0 <= n -> 0 <= a < 2 ^ n -> 0 <= i ->
  Z.testbit (a + 2 ^ n * b) i = if i <? n then Z.testbit a i else Z.testbit b (i - n).
Proof.
  intros Hn Ha Hi. destruct (Z.ltb_spec i n).
  - rewrite <- (Z.mod_pow2_bits_low _ n i) by lia. rewrite Z.mul_comm, Z.mod_add by lia. by rewrite Z.mod_small.
  - replace i with (i - n + n) at 1 by lia. rewrite <- Z.div_pow2_bits by lia. rewrite Z.mul_comm, Z.div_add by lia.
    by rewrite Z.div_small.
Qed.

Lemma dword_split d o : dword d o = byte d o + 2 ^ 8 * (byte d (o + 1) + 2 ^ 8 * (byte d (o + 2) + 2 ^ 8 * byte d (o + 3))).
Proof. unfold dword. lia. Qed.

Lemma dword_bits d o i : bytes_ok d -> 0 <= i < 32 -> Z.testbit (dword d o) i = bit d o i.
Proof.
  intros Hd Hi. rewrite dword_split. unfold bit.
  pose proof (Hd o). pose proof (Hd (o + 1)). pose proof (Hd (o + 2)). pose proof (Hd (o + 3)). change 256 with (2 ^ 8) in *.
  pose proof (Z.div_mod i 8 ltac:(lia)) as Hdm. pose proof (Z.mod_pos_bound i 8 ltac:(lia)) as Hm.
  assert (Hcase : forall k, 8 * k <= i < 8 * k + 8 -> i / 8 = k /\ i mod 8 = i - 8 * k) by (intros k Hk; lia).
  rewrite (testbit_join 8 (byte d o) _ i) by lia. destruct (Z.ltb_spec i 8).
  { destruct (Hcase 0 ltac:(lia)) as [-> ->]. by rewrite Z.add_0_r, Z.sub_0_r. }
  rewrite (testbit_join 8 (byte d (o + 1)) _ (i - 8)) by lia. destruct (Z.ltb_spec (i - 8) 8).
  { by destruct (Hcase 1 ltac:(lia)) as [-> ->]. }
  rewrite (testbit_join 8 (byte d (o + 2)) _ (i - 8 - 8)) by lia. destruct (Z.ltb_spec (i - 8 - 8) 8).
  { destruct (Hcase 2 ltac:(lia)) as [-> ->]. f_equal. lia. }
  destruct (Hcase 3 ltac:(lia)) as [-> ->]. f_equal. lia.
Qed.

Lemma dword_range d o : bytes_ok d -> 0 <= dword d o < 2 ^ 32.
Proof. intros Hd. unfold dword. pose proof (Hd o). pose proof (Hd (o + 1)). pose proof (Hd (o + 2)). pose proof (Hd (o + 3)). lia. Qed.

(** A word is written. *)
Definition put_word (d : disk) (o x : Z) : disk := MkDisk (put_bytes (content d) o (int_bytes x)) (faults d).

Lemma put_word_byte d o x j : byte (put_word d o x) j =
  if decide (o <= j < o + 4) then u8 (Z.shiftr x (8 * (j - o))) else byte d j.
Proof.
  unfold put_word. rewrite byte_put. change (Z.of_nat (length (int_bytes x))) with 4. destruct (decide _) as [Hj|]; [|done].
  assert (Hc : j - o = 0 \/ j - o = 1 \/ j - o = 2 \/ j - o = 3) by lia. destruct Hc as [Hc|[Hc|[Hc|Hc]]]; rewrite Hc; done.
Qed.

Lemma put_word_ok d o x : bytes_ok d -> bytes_ok (put_word d o x).
Proof. intros Hd j. rewrite put_word_byte. destruct (decide _); [apply u8_bound|apply Hd]. Qed.

Lemma put_word_bit d o x base i : bytes_ok d -> 0 <= i -> bit (put_word d o x) base i =
  if decide (o <= base + i / 8 < o + 4) then Z.testbit x (8 * (base + i / 8 - o) + i mod 8) else bit d base i.
Proof.
  intros Hd Hi. unfold bit. rewrite put_word_byte. destruct (decide _) as [Hj|]; [|done].
  pose proof (Z.mod_pos_bound i 8 ltac:(lia)). unfold u8. rewrite testbit_wrap by lia.
  rewrite (proj2 (Z.ltb_lt (i mod 8) 8)) by lia. simpl. rewrite Z.shiftr_spec by lia. f_equal. lia.
Qed.

Lemma put_word_dword d o x : 0 <= x < 2 ^ 32 -> dword (put_word d o x) o = x.
Proof.
  intros Hx. unfold dword. rewrite !put_word_byte. rewrite !decide_True by lia.
  replace (8 * (o - o)) with 0 by lia. replace (8 * (o + 1 - o)) with 8 by lia. replace (8 * (o + 2 - o)) with 16 by lia. replace (8 * (o + 3 - o)) with 24 by lia.
  unfold u8, wrap. rewrite !Z.shiftr_div_pow2 by lia. rewrite Z.div_1_r.
  pose proof (Z.div_mod x (2 ^ 8) ltac:(lia)). pose proof (Z.div_mod (x / 2 ^ 8) (2 ^ 8) ltac:(lia)). pose proof (Z.div_mod (x / 2 ^ 16) (2 ^ 8) ltac:(lia)).
  replace (2 ^ 16) with (2 ^ 8 * 2 ^ 8) in * by lia. replace (2 ^ 24) with (2 ^ 8 * 2 ^ 8 * 2 ^ 8) in * by lia.
  rewrite <- !Z.div_div in * by lia.
  assert (x / 2 ^ 8 / 2 ^ 8 / 2 ^ 8 < 2 ^ 8).
  { rewrite !Z.div_div by lia. apply Z.div_lt_upper_bound; lia. }
  assert (0 <= x / 2 ^ 8 / 2 ^ 8 / 2 ^ 8) by (repeat apply Z.div_pos; lia).
  rewrite (Z.mod_small (x / 2 ^ 8 / 2 ^ 8 / 2 ^ 8)) by lia. lia.
Qed.

Lemma dword_same d d' o : (forall j, o <= j < o + 4 -> byte d' j = byte d j) -> dword d' o = dword d o.
Proof. intros H. unfold dword. by rewrite !H by lia. Qed.

(** ** A bitmap *)

Section Bitmap.
Context (fs : ext2_fs_t).
Let g := geom fs.
Let bpg := s_blocks_per_group (super fs).
Hypothesis Hshift : 10 <= blkshift g <= 12 /\ blksz g = 2 ^ blkshift g.
Hypothesis Hbpg : 0 < bpg /\ bpg mod 32 = 0 /\ bpg <= 8 * blksz g.
Hypothesis Hbytes : bytes_ok (dev fs).

Lemma blksz_bounds : 1024 <= blksz g <= 4096.
Proof.
  destruct Hshift as [H ->]. change 1024 with (2 ^ 10). change 4096 with (2 ^ 12). split; apply Z.pow_le_mono_r; lia.
Qed.

Lemma boff_run blk off : 0 <= off < blksz g -> 0 <= blk -> (blk + 1) * blksz g <= 2 ^ 32 -> EXT2_BOFF g blk off = Done (blk * blksz g + off).
Proof.
  intros Ho Hb Hlt. unfold EXT2_BOFF. rewrite (proj2 (Z.ltb_lt off (blksz g))) by lia.
  rewrite Z.shiftl_mul_pow2 by lia. rewrite <- (proj2 Hshift). rewrite (u32_small (blk * blksz g)) by lia. by rewrite u32_small by lia.
Qed.

(** The bits of the complement of a word. *)
Lemma not_word_bit d o i : bytes_ok d -> 0 <= i < 32 -> Z.testbit (u32 (Z.lnot (dword d o))) i = negb (bit d o i).
Proof.
  intros Hd Hi. unfold u32. rewrite testbit_wrap by lia. rewrite (proj2 (Z.ltb_lt i 32)) by lia. simpl.
  rewrite Z.lnot_spec by lia. by rewrite dword_bits.
Qed.

Lemma bit_word d base i j : 0 <= j < 32 -> bit d (base + 4 * i) j = bit d base (32 * i + j).
Proof.
  intros Hj. unfold bit. replace (32 * i + j) with (j + (4 * i) * 8) by lia. rewrite Z.div_add, Z.mod_add by lia. f_equal. f_equal. lia.
Qed.

(** What [ext2_bitmap_alloc] gives: the first bit that is not set, or an error;
    without faults of the device the error is that all bits are set. *)
Definition alloc_post (bitmap : Z) (out : Z * Z * ext2_fs_t) : Prop :=
  let '(err, v, fs') := out in
  let base := bitmap * blksz g in
  exists d, fs' = set_dev fs d /\ bytes_ok d /\ (faults (dev fs) = [] -> faults d = []) /\
    (err <> 0 /\ content d = content (dev fs) /\
       (faults (dev fs) = [] -> err = - ENOSPC /\ forall i, 0 <= i < bpg -> bit (dev fs) base i = true) \/
     err = 0 /\ 0 <= v < bpg /\ bit (dev fs) base v = false /\
       (forall i, 0 <= i < v -> bit (dev fs) base i = true) /\
       (forall i, 0 <= i < 8 * blksz g -> bit d base i = if decide (i = v) then true else bit (dev fs) base i) /\
       (forall o, ~ (base <= o < base + blksz g) -> byte d o = byte (dev fs) o)).

Lemma next_fault_spec d : exists err d', next_fault d = (err, d') /\ content d' = content d /\ (faults d = [] -> err = 0 /\ d' = d).
Proof. unfold next_fault. destruct (faults d) as [|e r] eqn:E; [by exists 0, d|]. exists e, (MkDisk (content d) r). done. Qed.

Lemma content_byte d d' : content d' = content d -> forall o, byte d' o = byte d o.
Proof. intros E o. unfold byte. by rewrite E. Qed.

Lemma bitmap_loop_run d bitmap r n i : content d = content (dev fs) -> (faults (dev fs) = [] -> faults d = []) ->
  0 <= bitmap -> (bitmap + 1) * blksz g <= 2 ^ 32 -> 0 <= i -> 32 * (i + Z.of_nat n) = bpg ->
  (forall j, 0 <= j < 32 * i -> bit (dev fs) (bitmap * blksz g) j = true) ->
  exists out, bitmap_loop n (set_dev fs d) bitmap 0 (read_bytes (dev fs) (bitmap * blksz g) (blksz g)) i r = Done out /\ alloc_post bitmap out.
Proof.
  intros Hc Hf Hb Hlt. set (base := bitmap * blksz g). pose proof blksz_bounds as Hsz.
  assert (Hd : bytes_ok d) by (intros o; rewrite (content_byte _ _ Hc); apply Hbytes).
  revert i. induction n as [|n IH]; intros i Hi Hn Hbelow; cbn [bitmap_loop].
  { eexists. split; [done|]. exists d. split_and!; [done..|]. left. split; [done|]. split; [done|]. intros _. split; [done|].
    intros j Hj. apply Hbelow. lia. }
  rewrite word_of_read by lia. cbn [rbind deref]. rewrite andb_false_r.
  set (w := dword (dev fs) (base + 4 * i)). set (val := u32 (Z.lnot w)).
  assert (Hval : forall j, 0 <= j < 32 -> Z.testbit val j = negb (bit (dev fs) base (32 * i + j))).
  { intros j Hj. unfold val, w. rewrite not_word_bit by done. by rewrite bit_word. }
  pose proof (u32_bound (Z.lnot w)) as Hvb. fold val in Hvb. pose proof (ffs_le val 32 ltac:(lia) Hvb) as Hffs.
  destruct (Z.eqb_spec (ffs val) 0) as [H0|H0].
  - assert (val = 0). { destruct (decide (val = 0)); [done|]. destruct (ffs_spec val) as (? & _); lia. }
    apply IH; [lia|lia|]. intros j Hj. destruct (decide (j < 32 * i)); [apply Hbelow; lia|].
    specialize (Hval (j - 32 * i) ltac:(lia)). rewrite H in Hval. rewrite Z.bits_0 in Hval.
    replace (32 * i + (j - 32 * i)) with j in Hval by lia. by destruct (bit (dev fs) base j).
  - destruct (ffs_spec val) as (Hp & Hset & Hlow); [destruct (decide (val = 0)) as [->|]; [done|lia]|].
    set (b := ffs val - 1) in *. rewrite Z.shiftl_mul_pow2 by lia. change (2 ^ 5) with 32. set (v := b + i * 32).
    assert (Hv : 0 <= v < bpg) by lia. rewrite (proj2 (Z.ltb_ge _ v)) by (fold bpg; simpl; lia).
    change (geom (set_dev fs d)) with g. rewrite Z.shiftl_mul_pow2 by lia. change (2 ^ 2) with 4.
    rewrite boff_run by lia. cbn [rbind]. fold base. unfold bwrite. cbn [dev set_dev].
    destruct (next_fault_spec d) as (err & d1 & -> & Hc1 & Hf1).
    assert (Hfree : bit (dev fs) base v = false).
    { specialize (Hval b ltac:(lia)). rewrite Hset in Hval. replace v with (32 * i + b) by lia. by destruct (bit _ _ _). }
    assert (Hlower : forall j, 0 <= j < v -> bit (dev fs) base j = true).
    { intros j Hj. destruct (decide (j < 32 * i)); [apply Hbelow; lia|]. specialize (Hval (j - 32 * i) ltac:(lia)).
      rewrite Hlow in Hval by lia. replace (32 * i + (j - 32 * i)) with j in Hval by lia. by destruct (bit (dev fs) base j). }
    destruct (Z.eqb_spec err 0) as [->|He].
    + eexists. split; [done|]. exists (put_word d1 (base + i * 4) (Z.setbit w b)).
      assert (Hd1 : bytes_ok d1) by (intros o; rewrite (content_byte _ _ Hc1); apply Hd).
      split_and!; [done|by apply put_word_ok|intros E; simpl; by rewrite (proj2 (Hf1 (Hf E))), (Hf E)|right].
      split_and!; [done|lia|lia|done|done| |].
      * intros j Hj. fold base. rewrite put_word_bit by (done || lia).
        assert (Hsame : bit d1 base j = bit (dev fs) base j) by (unfold bit; by rewrite (content_byte _ _ Hc1), (content_byte _ _ Hc)).
        pose proof (Z.div_mod j 8 ltac:(lia)) as Hdm. pose proof (Z.mod_pos_bound j 8 ltac:(lia)) as Hm.
        destruct (decide (base + i * 4 <= base + j / 8 < base + i * 4 + 4)) as [Hin|Hin].
        -- replace (8 * (base + j / 8 - (base + i * 4)) + j mod 8) with (j - 32 * i) by lia.
           rewrite Z.setbit_eqb by lia. destruct (decide (j = v)) as [Hjv|Hne]; [by rewrite (proj2 (Z.eqb_eq b (j - 32 * i))) by lia|].
           rewrite (proj2 (Z.eqb_neq b (j - 32 * i))) by lia. simpl. unfold w. rewrite dword_bits by (done || lia). rewrite bit_word by lia. f_equal. lia.
        -- rewrite decide_False by lia. done.
      * intros o Ho. rewrite put_word_byte, decide_False by lia. by rewrite (content_byte _ _ Hc1), (content_byte _ _ Hc).
    + eexists. split; [done|]. exists d1. split_and!; [done| |intros E; by rewrite (proj2 (Hf1 (Hf E))), (Hf E)|left].
      * intros o. rewrite (content_byte _ _ Hc1). apply Hd.
      * split; [done|]. split; [by rewrite Hc1|]. intros E. destruct (Hf1 (Hf E)). done.
Qed.

Lemma bitmap_alloc_run bitmap r : 0 <= bitmap -> (bitmap + 1) * blksz g <= 2 ^ 32 ->
  exists out, ext2_bitmap_alloc fs bitmap 0 r = Done out /\ alloc_post bitmap out.
Proof.
  intros Hb Hlt. pose proof blksz_bounds as Hsz. unfold ext2_bitmap_alloc. fold g. rewrite boff_run by lia. cbn [rbind]. rewrite Z.add_0_r.
  unfold bread. destruct (next_fault_spec (dev fs)) as (err & d1 & -> & Hc1 & Hf1).
  assert (Hd1 : bytes_ok d1) by (intros o; rewrite (content_byte _ _ Hc1); apply Hbytes).
  destruct (Z.eqb_spec err 0) as [->|He]; simpl.
  - replace (read_bytes d1 (bitmap * blksz g) (blksz g)) with (read_bytes (dev fs) (bitmap * blksz g) (blksz g)).
    2: { unfold read_bytes. apply list_fmap_ext. intros. by rewrite (content_byte _ _ Hc1). }
    pose proof (Z.div_mod bpg 32 ltac:(lia)) as Hdm. rewrite (proj1 (proj2 Hbpg)) in Hdm.
    apply bitmap_loop_run; [done|intros E; by rewrite (proj2 (Hf1 E))|done|done|lia| |lia].
    fold bpg. rewrite Z.shiftr_div_pow2 by lia. change (2 ^ 5) with 32. pose proof (Z.div_pos bpg 32 ltac:(lia) ltac:(lia)). lia.
  - rewrite (proj2 (Z.eqb_neq err 0) He). simpl. eexists. split; [done|]. exists d1. split_and!; [done..|intros E; by rewrite (proj2 (Hf1 E))|left].
    split; [done|]. split; [done|]. intros E. by destruct (Hf1 E).
Qed.
End Bitmap.

(** ** The blocks in use *)

Definition bpg (fs : ext2_fs_t) : Z := s_blocks_per_group (super fs).
Definition total (fs : ext2_fs_t) : Z := nbgd (geom fs) * bpg fs.

Definition used (fs : ext2_fs_t) (blk : Z) : bool :=
  match bgds fs !! Z.to_nat (blk / bpg fs) with
  | Some b => bit (dev fs) (bg_block_bitmap b * blksz (geom fs)) (blk mod bpg fs)
  | None => true
  end.

Definition is_bitmap (fs : ext2_fs_t) (blk : Z) : Prop := exists i b, bgds fs !! i = Some b /\ bg_block_bitmap b = blk.

(** A file system that can be used: the bitmaps are in blocks of their own which
    are marked as used, all of it is below 4 GiB, and every group has a free
    inode. *)
Record fs_ok (fs : ext2_fs_t) : Prop := {
  f_shift : 10 <= blkshift (geom fs) <= 12 /\ blksz (geom fs) = 2 ^ blkshift (geom fs);
  f_bpg : 0 < bpg fs /\ bpg fs mod 32 = 0 /\ bpg fs <= 8 * blksz (geom fs);
  f_bytes : bytes_ok (dev fs);
  f_len : Z.of_nat (length (bgds fs)) = nbgd (geom fs);
  f_size : 0 < nbgd (geom fs) /\ total fs * blksz (geom fs) <= 2 ^ 32;
  f_groups : forall i b, bgds fs !! i = Some b -> 0 < bg_block_bitmap b < total fs /\ bg_free_inodes_count b <> 0;
  f_dist : forall i j b c, bgds fs !! i = Some b -> bgds fs !! j = Some c -> bg_block_bitmap b = bg_block_bitmap c -> i = j;
  f_meta : used fs 0 = true /\ forall blk, is_bitmap fs blk -> used fs blk = true
}.

(** What the allocation of blocks does not change. *)
Definition skeleton (fs : ext2_fs_t) :=
  (geom fs, bpg fs, s_inodes_per_group (super fs),
   (fun b => (bg_block_bitmap b, bg_inode_bitmap b, bg_inode_table b, bg_free_inodes_count b)) <$> bgds fs).

Lemma skeleton_groups fs fs' i b : skeleton fs' = skeleton fs -> bgds fs' !! i = Some b ->
  exists b', bgds fs !! i = Some b' /\ bg_block_bitmap b' = bg_block_bitmap b /\ bg_free_inodes_count b' = bg_free_inodes_count b.
Proof.
  intros E Hb. injection E as _ _ _ El. apply (f_equal (fun l => l !! i)) in El. rewrite !list_lookup_fmap, Hb in El. simpl in El.
  destruct (bgds fs !! i) as [b'|]; [|done]. exists b'. by injection El.
Qed.

Lemma skeleton_bitmap fs fs' blk : skeleton fs' = skeleton fs -> is_bitmap fs' blk <-> is_bitmap fs blk.
Proof.
  intros E. split; intros (i & b & Hb & <-).
  - destruct (skeleton_groups _ _ _ _ E Hb) as (b' & ? & ? & _). by exists i, b'.
  - destruct (skeleton_groups _ _ _ _ (eq_sym E) Hb) as (b' & ? & ? & _). by exists i, b'.
Qed.

Lemma skeleton_geom fs fs' : skeleton fs' = skeleton fs -> geom fs' = geom fs /\ bpg fs' = bpg fs /\ length (bgds fs') = length (bgds fs) /\
  s_inodes_per_group (super fs') = s_inodes_per_group (super fs).
Proof. intros E. injection E as E1 E2 E3 El. apply (f_equal length) in El. by rewrite !length_fmap in El. Qed.

(** The bits of the blocks are those of [fs] but for the blocks in [f]. *)
Definition marks (fs fs' : ext2_fs_t) (f : Z -> option bool) : Prop :=
  skeleton fs' = skeleton fs /\ bytes_ok (dev fs') /\ (faults (dev fs) = [] -> faults (dev fs') = []) /\
  (forall blk, 0 <= blk < total fs -> used fs' blk = default (used fs blk) (f blk)) /\
  (forall o, ~ is_bitmap fs (o / blksz (geom fs)) -> byte (dev fs') o = byte (dev fs) o).

Lemma marks_total fs fs' f : marks fs fs' f -> total fs' = total fs.
Proof. intros (E & _). destruct (skeleton_geom _ _ E) as (H1 & H2 & _). unfold total. by rewrite H1, H2. Qed.

Lemma marks_ok fs fs' f : fs_ok fs -> marks fs fs' f -> (forall blk, f blk = Some false -> blk <> 0 /\ ~ is_bitmap fs blk) -> fs_ok fs'.
Proof.
  intros Hok Hm Hf. pose proof (marks_total _ _ _ Hm) as Et. destruct Hm as (E & Hby & _ & Hu & _).
  destruct (skeleton_geom _ _ E) as (Eg & Eb & El & _). destruct Hok. split; rewrite ?Eg, ?Eb, ?El, ?Et; try done.
  - intros i b Hb. destruct (skeleton_groups _ _ _ _ E Hb) as (b' & Hb' & <- & <-). by eapply f_groups0.
  - intros i j b c Hb Hc Ebc. destruct (skeleton_groups _ _ _ _ E Hb) as (b' & Hb' & E1 & _). destruct (skeleton_groups _ _ _ _ E Hc) as (c' & Hc' & E2 & _).
    eapply f_dist0; [done..|congruence].
  - assert (Hz : forall blk, 0 <= blk < total fs -> used fs blk = true -> (blk = 0 \/ is_bitmap fs blk) -> used fs' blk = true).
    { intros blk Hr Hub Hc. rewrite Hu by done. destruct (f blk) as [[]|] eqn:Ef; simpl; try done. destruct (Hf _ Ef). naive_solver. }
    destruct f_meta0 as [H0 Hb]. split.
    + apply Hz; [|done|by left]. destruct f_size0, f_bpg0. unfold total. nia.
    + intros blk Hblk. apply (skeleton_bitmap _ _ _ E) in Hblk. apply Hz; [|by apply Hb|by right]. destruct Hblk as (i & b & Hib & <-).
      pose proof (f_groups0 _ _ Hib). lia.
Qed.

Lemma marks_trans fs fs1 fs2 f : marks fs fs1 (fun _ => None) -> marks fs1 fs2 f -> marks fs fs2 f.
Proof.
  intros Hm1 Hm2. pose proof (marks_total _ _ _ Hm1) as Et. destruct Hm1 as (E1 & _ & Hf1 & Hu1 & Ho1). destruct Hm2 as (E2 & ? & Hf2 & Hu2 & Ho2).
  destruct (skeleton_geom _ _ E1) as (Eg & _). split_and!; [congruence|done|auto| |].
  - intros blk Hb. rewrite Hu2 by (rewrite Et; done). rewrite Hu1 by done. done.
  - intros o Ho. rewrite Ho2, Ho1; [done|done|]. rewrite Eg. intros Hi. apply Ho. by apply (skeleton_bitmap _ _ _ E1).
Qed.

Lemma marks_then fs fs1 fs2 f : marks fs fs1 f -> marks fs1 fs2 (fun _ => None) -> marks fs fs2 f.
Proof.
  intros Hm1 Hm2. pose proof (marks_total _ _ _ Hm1) as Et. destruct Hm1 as (E1 & _ & Hf1 & Hu1 & Ho1). destruct Hm2 as (E2 & ? & Hf2 & Hu2 & Ho2).
  destruct (skeleton_geom _ _ E1) as (Eg & _). split_and!; [congruence|done|auto| |].
  - intros blk Hb. rewrite Hu2 by (rewrite Et; done). by apply Hu1.
  - intros o Ho. rewrite Ho2, Ho1; [done|done|]. rewrite Eg. intros Hi. apply Ho. by apply (skeleton_bitmap _ _ _ E1).
Qed.

(** The group and the bit of a block. *)
Lemma block_split fs blk : 0 < bpg fs -> blk = blk / bpg fs * bpg fs + blk mod bpg fs /\ 0 <= blk mod bpg fs < bpg fs.
Proof. intros Hb. pose proof (Z.div_mod blk (bpg fs) ltac:(lia)). pose proof (Z.mod_pos_bound blk (bpg fs) ltac:(lia)). lia. Qed.

Lemma block_join fs i v : 0 < bpg fs -> 0 <= v < bpg fs -> (v + i * bpg fs) / bpg fs = i /\ (v + i * bpg fs) mod bpg fs = v.
Proof. intros Hb Hv. rewrite Z.div_add, Z.mod_add by lia. rewrite Z.div_small, Z.mod_small by lia. lia. Qed.

Definition at_block (blk : Z) (x : bool) : Z -> option bool := fun b => if decide (b = blk) then Some x else None.

Lemma blksz_pos fs : fs_ok fs -> 1024 <= blksz (geom fs) <= 4096.
Proof. intros Hok. apply blksz_bounds, Hok. Qed.

Lemma total_pos fs : fs_ok fs -> 0 < total fs /\ forall i b, bgds fs !! i = Some b -> 0 <= Z.of_nat i < nbgd (geom fs) /\
  (bg_block_bitmap b + 1) * blksz (geom fs) <= 2 ^ 32.
Proof.
  intros Hok. pose proof (f_size _ Hok) as [Hn Ht]. pose proof (f_bpg _ Hok) as [Hb _].
  assert (Hpos : 0 < total fs) by (unfold total; nia). split; [done|]. intros i b Hi. pose proof (lookup_lt_Some _ _ _ Hi). rewrite <- (f_len _ Hok).
  split; [lia|]. destruct (f_groups _ Hok _ _ Hi) as [Hbm _]. pose proof (blksz_pos _ Hok). nia.
Qed.

(** One bit of the bitmap of a group changes. *)
Lemma marks_bit fs fs' i b v x : fs_ok fs -> bgds fs !! i = Some b -> skeleton fs' = skeleton fs -> bytes_ok (dev fs') ->
  (faults (dev fs) = [] -> faults (dev fs') = []) -> 0 <= v < bpg fs ->
  let base := bg_block_bitmap b * blksz (geom fs) in
  (forall j, 0 <= j < 8 * blksz (geom fs) -> bit (dev fs') base j = if decide (j = v) then x else bit (dev fs) base j) ->
  (forall o, ~ (base <= o < base + blksz (geom fs)) -> byte (dev fs') o = byte (dev fs) o) ->
  marks fs fs' (at_block (v + Z.of_nat i * bpg fs) x).
Proof.
  intros Hok Hb E Hby Hf Hv base Hin Hout. destruct (skeleton_geom _ _ E) as (Eg & Eb & _).
  pose proof (f_bpg _ Hok) as (Hp & _ & H8). pose proof (blksz_pos _ Hok) as Hsz.
  split_and!; [done..| |].
  - intros blk Hblk. destruct (block_split fs blk Hp) as [Es Hm]. set (k := blk / bpg fs) in *.
    assert (Hk : 0 <= k < nbgd (geom fs)).
    { split; [apply Z.div_pos; lia|]. apply Z.div_lt_upper_bound; [lia|]. unfold total in Hblk. lia. }
    destruct (bgds fs !! Z.to_nat k) as [c|] eqn:Ec; [|apply lookup_ge_None in Ec; pose proof (f_len _ Hok); lia].
    destruct (skeleton_groups _ _ _ _ (eq_sym E) Ec) as (c' & Ec' & Ebm & _).
    unfold used. rewrite Eb, Eg. fold k. rewrite Ec, Ec', Ebm. unfold at_block.
    destruct (decide (Z.to_nat k = i)) as [<-|Hne].
    + rewrite Hb in Ec. injection Ec as ->. rewrite Hin by lia. destruct (decide (blk mod bpg fs = v)) as [Ev|Ev].
      * by rewrite decide_True by lia.
      * rewrite decide_False; [done|]. intros Ebl. apply Ev. rewrite Ebl. by apply block_join.
    + rewrite decide_False; [|intros Ebl; apply Hne; unfold k; rewrite Ebl, (proj1 (block_join fs (Z.of_nat i) v Hp Hv)); lia]. simpl.
      unfold bit. rewrite Hout; [done|]. assert (bg_block_bitmap c <> bg_block_bitmap b) by (intros Ebc; apply Hne; eapply (f_dist _ Hok); [exact Ec|exact Hb|done]).
      assert (0 <= (blk mod bpg fs) / 8 < blksz (geom fs)) by (split; [apply Z.div_pos; lia|apply Z.div_lt_upper_bound; lia]).
      unfold base. nia.
  - intros o Ho. apply Hout. intros Hr. apply Ho. exists i, b. split; [done|]. apply (Z.div_unique_pos _ _ _ (o - base)); unfold base in *; nia.
Qed.

Lemma marks_refl fs fs' : skeleton fs' = skeleton fs -> bytes_ok (dev fs) -> content (dev fs') = content (dev fs) ->
  (faults (dev fs) = [] -> faults (dev fs') = []) -> marks fs fs' (fun _ => None).
Proof.
  intros E Hby Hc Hf. destruct (skeleton_geom _ _ E) as (Eg & Eb & _). pose proof (content_byte _ _ Hc) as Hb. split_and!; [done| |done| |].
  - intros o. rewrite Hb. apply Hby.
  - intros blk _. unfold used. rewrite Eb, Eg. simpl. destruct (bgds fs !! _) as [b|] eqn:E1.
    + destruct (skeleton_groups _ _ _ _ (eq_sym E) E1) as (b' & -> & -> & _). unfold bit. by rewrite Hb.
    + apply lookup_ge_None in E1. rewrite (proj2 (lookup_ge_None _ _)); [done|]. destruct (skeleton_geom _ _ E) as (_ & _ & -> & _). done.
  - intros o _. apply Hb.
Qed.

Lemma skeleton_set fs i b n : bgds fs !! Z.to_nat i = Some b -> skeleton (set_bgd fs i (with_free_blocks b n)) = skeleton fs.
Proof.
  intros Hb. unfold skeleton, bpg. simpl. f_equal. rewrite list_fmap_insert. apply list_insert_id. by rewrite list_lookup_fmap, Hb.
Qed.

(** What [ext2_balloc] gives. *)
Definition balloc_post (fs : ext2_fs_t) (out : Z * Z * ext2_fs_t) : Prop :=
  let '(err, blk, fs') := out in
  err <> 0 /\ marks fs fs' (fun _ => None) /\
    (faults (dev fs) = [] -> err = - ENOSPC /\ (s_free_blocks_count (super fs) = 0 \/ forall b, 0 <= b < total fs -> used fs b = true)) \/
  err = 0 /\ 0 < blk < total fs /\ used fs blk = false /\ marks fs fs' (at_block blk true).

Lemma alloc_post_used fs i b out : fs_ok fs -> bgds fs !! i = Some b -> alloc_post fs (bg_block_bitmap b) out ->
  let '(err, v, fs') := out in
  exists d, fs' = set_dev fs d /\
  (err <> 0 /\ marks fs fs' (fun _ => None) /\ (faults (dev fs) = [] -> err = - ENOSPC /\ forall j, 0 <= j < bpg fs -> used fs (j + Z.of_nat i * bpg fs) = true) \/
   err = 0 /\ 0 <= v < bpg fs /\ used fs (v + Z.of_nat i * bpg fs) = false /\ marks fs fs' (at_block (v + Z.of_nat i * bpg fs) true)).
Proof.
  intros Hok Hb. destruct out as [[err v] fs']. intros (d & -> & Hd & Hf & Hc). exists d. split; [done|]. pose proof (f_bpg _ Hok) as (Hp & _).
  assert (Hu : forall j, 0 <= j < bpg fs -> used fs (j + Z.of_nat i * bpg fs) = bit (dev fs) (bg_block_bitmap b * blksz (geom fs)) j).
  { intros j Hj. unfold used. destruct (block_join fs (Z.of_nat i) j Hp Hj) as [-> ->]. by rewrite Nat2Z.id, Hb. }
  destruct Hc as [(He & Hcont & Hful)|(He & Hv & Hfree & Hlow & Hset & Hout)]; [left|right].
  - split; [done|]. split; [apply marks_refl; [done|apply Hok|done..]|]. intros E. destruct (Hful E) as [? Hall]. split; [done|].
    intros j Hj. rewrite Hu by done. by apply Hall.
  - split; [done|]. split; [done|]. split; [by rewrite Hu|]. by eapply (marks_bit fs (set_dev fs d) i b v true).
Qed.

Lemma get_bgd_run fs i : fs_ok fs -> 0 <= i < nbgd (geom fs) -> exists b, get_bgd fs i = Done b /\ bgds fs !! Z.to_nat i = Some b.
Proof.
  intros Hok Hi. destruct (lookup_lt_is_Some_2 (bgds fs) (Z.to_nat i)) as [b Hb]; [pose proof (f_len _ Hok); lia|].
  exists b. unfold get_bgd. rewrite (proj2 (Z.leb_le 0 i)) by lia. by rewrite Hb.
Qed.

(** The group that is tried in round [i]. *)
Definition round (fs : ext2_fs_t) (start i : Z) : Z := if nbgd (geom fs) <=? start + i then start + i - nbgd (geom fs) else start + i.
Definition full (fs : ext2_fs_t) (k : Z) : Prop := forall j, 0 <= j < bpg fs -> used fs (j + k * bpg fs) = true.

Lemma all_full fs start : fs_ok fs -> 0 <= start < nbgd (geom fs) -> (forall i, 0 <= i < nbgd (geom fs) -> full fs (round fs start i)) ->
  forall b, 0 <= b < total fs -> used fs b = true.
Proof.
  intros Hok Hs Hall b Hb. pose proof (f_bpg _ Hok) as (Hp & _). destruct (block_split fs b Hp) as [Eb Hm].
  assert (Hk : 0 <= b / bpg fs < nbgd (geom fs)).
  { split; [apply Z.div_pos; lia|]. apply Z.div_lt_upper_bound; [lia|]. unfold total in Hb. lia. }
  set (k := b / bpg fs) in *. rewrite Eb, Z.add_comm.
  set (i := if start <=? k then k - start else k - start + nbgd (geom fs)).
  assert (Hr : 0 <= i < nbgd (geom fs) /\ round fs start i = k).
  { unfold i, round. destruct (Z.leb_spec start k); [rewrite (proj2 (Z.leb_gt _ _)) by lia|rewrite (proj2 (Z.leb_le _ _)) by lia]; lia. }
  destruct Hr as [Hi Ek]. specialize (Hall i Hi). rewrite Ek in Hall. by apply Hall.
Qed.

Lemma balloc_loop_run fs start : fs_ok fs -> 0 <= start < nbgd (geom fs) -> forall n i fs1 err blk, 0 <= i -> i + Z.of_nat n = nbgd (geom fs) ->
  marks fs fs1 (fun _ => None) -> (i = 0 \/ err = - ENOSPC) ->
  (faults (dev fs) = [] -> forall j, 0 <= j < i -> full fs (round fs start j)) ->
  exists out, balloc_loop n fs1 start i err blk = Done out /\ balloc_post fs out.
Proof.
  intros Hok Hs. pose proof (f_bpg _ Hok) as (Hp & _). pose proof (f_size _ Hok) as [Hn Ht]. pose proof (blksz_pos _ Hok) as Hsz.
  assert (Hlim : nbgd (geom fs) < 2 ^ 31) by (unfold total in Ht; nia).
  induction n as [|n IH]; intros i fs1 err blk Hi Hin Hm He Hful; cbn [balloc_loop].
  { eexists. split; [done|]. left. destruct He as [->| ->]; [lia|]. split; [done|]. split; [done|]. intros E. split; [done|]. right.
    apply (all_full _ start Hok Hs). intros j Hj. apply (Hful E). lia. }
  pose proof (marks_ok _ _ _ Hok Hm ltac:(done)) as Hok1. pose proof (marks_total _ _ _ Hm) as Et.
  pose proof Hm as (Esk & _ & Hfa & Hu & _). destruct (skeleton_geom _ _ Esk) as (Eg & Eb & _).
  rewrite Eg. rewrite (u32_small (start + i)) by lia.
  replace (if nbgd (geom fs) <=? start + i then u32 (start + i - nbgd (geom fs)) else start + i) with (round fs start i).
  2: { unfold round. destruct (Z.leb_spec (nbgd (geom fs)) (start + i)); [|done]. by rewrite u32_small by lia. }
  set (k := round fs start i). assert (Hk : 0 <= k < nbgd (geom fs)) by (unfold k, round; destruct (Z.leb_spec (nbgd (geom fs)) (start + i)); lia).
  destruct (get_bgd_run fs1 k Hok1 ltac:(by rewrite Eg)) as (b & -> & Hb). cbn [rbind].
  destruct (f_groups _ Hok1 _ _ Hb) as [Hbm Hfi]. rewrite (proj2 (Z.eqb_neq _ 0) Hfi). destruct (total_pos _ Hok1) as [_ Hg]. destruct (Hg _ _ Hb) as [_ Hlt].
  destruct (bitmap_alloc_run fs1 (f_shift _ Hok1) (f_bpg _ Hok1) (f_bytes _ Hok1) (bg_block_bitmap b) blk ltac:(lia) Hlt) as ([[err1 v] fs2] & -> & Hpost).
  cbn [rbind]. destruct (alloc_post_used _ _ _ _ Hok1 Hb Hpost) as (d & -> & Hc). rewrite Z2Nat.id in Hc by lia.
  destruct Hc as [(He1 & Hm2 & Hful2)|(-> & Hv & Hfree & Hm2)].
  - assert (Hm' : marks fs (set_dev fs1 d) (fun _ => None)) by (by eapply marks_trans).
    destruct (Z.eqb_spec err1 (- ENOSPC)) as [->|Hne].
    + apply IH; [lia|lia| |by right|].
      * eapply marks_trans; [exact Hm'|]. apply marks_refl; [by apply skeleton_set|apply Hm2|done|done].
      * intros E j Hj. destruct (decide (j = i)) as [->|]; [|apply (Hful E); lia]. intros q Hq. destruct (Hful2 (Hfa E)) as [_ Hq2].
        rewrite Eb in Hq2. specialize (Hq2 q Hq). rewrite Hu in Hq2; [done|]. fold k. unfold total. nia.
    + rewrite (proj2 (Z.eqb_neq err1 0) He1). eexists. split; [done|]. left. split; [done|]. split; [done|]. intros E. by destruct (Hful2 (Hfa E)).
  - simpl. eexists. split; [done|]. right. rewrite Eb in Hv, Hfree, Hm2. change (s_blocks_per_group (super fs1)) with (bpg fs1). rewrite Eb.
    assert (Hr : 0 <= v + k * bpg fs < total fs) by (unfold total; nia). rewrite Hu in Hfree by done. cbn [default] in Hfree.
    rewrite u32_small by (split; [lia|]; nia). split; [done|]. split.
    { destruct (decide (v + k * bpg fs = 0)) as [E0|]; [|lia]. rewrite E0 in Hfree. simpl in Hfree. by rewrite (proj1 (f_meta _ Hok)) in Hfree. }
    split; [done|]. eapply marks_trans; [exact Hm|]. eapply marks_then; [exact Hm2|].
    apply marks_refl; [by apply (skeleton_set (set_dev fs1 d))|apply Hm2|done..].
Qed.

(** Inodes whose group exists. *)
Definition ino_ok (fs : ext2_fs_t) (ino : Z) : Prop :=
  0 < ino < 2 ^ 64 /\ 0 < s_inodes_per_group (super fs) /\ (ino - 1) / s_inodes_per_group (super fs) < nbgd (geom fs).

Lemma balloc_run fs ino : fs_ok fs -> ino_ok fs ino -> exists out, ext2_balloc fs ino = Done out /\ balloc_post fs out.
Proof.
  intros Hok (Hi & Hp & Hg). unfold ext2_balloc. destruct (Z.eqb_spec (s_free_blocks_count (super fs)) 0) as [E|E].
  { eexists. split; [done|]. left. split; [done|]. split; [apply marks_refl; try done; apply Hok|]. intros _. split; [done|by left]. }
  pose proof (f_size _ Hok) as [Hn Ht]. pose proof (f_bpg _ Hok) as (Hb & _). pose proof (blksz_pos _ Hok).
  assert (nbgd (geom fs) < 2 ^ 31) by (unfold total in Ht; nia).
  rewrite u64_small by lia. pose proof (Z.div_pos (ino - 1) (s_inodes_per_group (super fs)) ltac:(lia) ltac:(lia)).
  rewrite u32_small by lia. apply (balloc_loop_run fs); [done|lia|lia|lia| |by left|intros _ j Hj; lia].
  apply marks_refl; try done; apply Hok.
Qed.

(** A bit is taken out of a byte. *)
Lemma clear_bit_spec x k j : 0 <= k < 8 -> 0 <= j < 8 ->
  Z.testbit (u8 (Z.land x (Z.lnot (Z.shiftl 1 k)))) j = if decide (j = k) then false else Z.testbit x j.
Proof.
  intros Hk Hj. unfold u8. rewrite testbit_wrap by lia. rewrite (proj2 (Z.ltb_lt j 8)) by lia. simpl.
  rewrite Z.land_spec, Z.lnot_spec, Z.shiftl_spec by lia. destruct (decide (j = k)) as [->|Hne].
  - rewrite Z.sub_diag. simpl. by rewrite andb_false_r.
  - destruct (Z.lt_ge_cases j k); [rewrite (Z.testbit_neg_r 1 (j - k)) by lia; by rewrite andb_true_r|].
    change 1 with (2 ^ 0). rewrite Z.pow2_bits_false by lia. by rewrite andb_true_r.
Qed.

Lemma has_bit x k : 0 <= k -> Z.testbit x k = true -> (Z.land x (Z.shiftl 1 k) =? 0) = false.
Proof.
  intros Hk Hx. apply Z.eqb_neq. intros E. apply (f_equal (fun y => Z.testbit y k)) in E. rewrite Z.land_spec, Z.shiftl_spec, Z.sub_diag, Hx in E by lia.
  by rewrite Z.bits_0 in E.
Qed.

Lemma bitmap_free_run fs i b v : fs_ok fs -> bgds fs !! i = Some b -> 0 <= v < bpg fs ->
  bit (dev fs) (bg_block_bitmap b * blksz (geom fs)) v = true ->
  exists err d, ext2_bitmap_free fs (bg_block_bitmap b) v = Done (err, set_dev fs d) /\
    (err = 0 /\ marks fs (set_dev fs d) (at_block (v + Z.of_nat i * bpg fs) false) \/
     err <> 0 /\ marks fs (set_dev fs d) (fun _ => None) /\ faults (dev fs) <> []).
Proof.
  intros Hok Hb Hv Hu. pose proof (f_bpg _ Hok) as (Hp & _ & H8). pose proof (blksz_pos _ Hok) as Hsz.
  destruct (total_pos _ Hok) as [_ Hg]. destruct (Hg _ _ Hb) as [_ Hlt]. destruct (f_groups _ Hok _ _ Hb) as [Hbm _].
  assert (Hv8 : 0 <= v / 8 < blksz (geom fs)) by (split; [apply Z.div_pos; lia|apply Z.div_lt_upper_bound; lia]).
  unfold ext2_bitmap_free. rewrite Z.shiftr_div_pow2 by lia. change (2 ^ 3) with 8. change 7 with (Z.ones 3). rewrite Z.land_ones by lia. change (2 ^ 3) with 8.
  rewrite (boff_run fs (f_shift _ Hok)) by lia. cbn [rbind]. set (base := bg_block_bitmap b * blksz (geom fs)) in *.
  unfold bread. destruct (next_fault_spec (dev fs)) as (e1 & d1 & -> & Hc1 & Hf1).
  destruct (Z.eqb_spec e1 0) as [->|He1]; simpl.
  2: { rewrite (proj2 (Z.eqb_neq e1 0) He1). exists e1, d1. split; [done|]. right. split; [done|]. split; [|intros E; by destruct (Hf1 E)].
       apply marks_refl; [done|apply Hok|done|intros E; by rewrite (proj2 (Hf1 E))]. }
  replace (base + v / 8 + (Z.of_nat 0 + 0)) with (base + v / 8) by lia. set (x := byte d1 (base + v / 8)).
  assert (Ex : x = byte (dev fs) (base + v / 8)) by apply (content_byte _ _ Hc1).
  pose proof (Z.mod_pos_bound v 8 ltac:(lia)) as Hv7. rewrite (has_bit x (v mod 8)) by (lia || by rewrite Ex). simpl.
  unfold bwrite. destruct (next_fault_spec d1) as (e2 & d2 & -> & Hc2 & Hf2). destruct (Z.eqb_spec e2 0) as [->|He2].
  2: { exists e2, d2. split; [done|]. right. split; [done|]. split.
       - apply marks_refl; [done|apply Hok|simpl; congruence|]. intros E. simpl. destruct (Hf1 E) as [_ ->]. by rewrite (proj2 (Hf2 E)).
       - intros E. destruct (Hf1 E) as [_ ->]. by destruct (Hf2 E). }
  exists 0. eexists. split; [done|]. left. split; [done|]. set (d3 := MkDisk _ _).
  assert (Hby : forall o, byte d3 o = if decide (o = base + v / 8) then u8 (Z.land x (Z.lnot (Z.shiftl 1 (v mod 8)))) else byte (dev fs) o).
  { intros o. unfold d3. rewrite byte_put. cbn [length]. destruct (decide (o = base + v / 8)) as [->|Hne].
    - rewrite decide_True by lia. by rewrite Z.sub_diag.
    - rewrite decide_False by lia. rewrite <- (content_byte _ _ Hc1), <- (content_byte _ _ Hc2). by destruct d2. }
  eapply (marks_bit fs (set_dev fs d3) i b v false); [done..| | |done| |].
  - intros o. simpl. rewrite Hby. destruct (decide _); [apply u8_bound|apply Hok].
  - intros E. simpl. destruct (Hf1 E) as [_ ->]. by rewrite (proj2 (Hf2 E)).
  - intros j Hj. fold base. unfold bit. simpl. rewrite Hby. pose proof (Z.mod_pos_bound j 8 ltac:(lia)).
    pose proof (Z.div_mod j 8 ltac:(lia)). pose proof (Z.div_mod v 8 ltac:(lia)). destruct (decide (base + j / 8 = base + v / 8)) as [E|E].
    + rewrite clear_bit_spec by lia. destruct (decide (j = v)) as [->|]; [by rewrite decide_True|]. rewrite decide_False by lia. by rewrite Ex, E.
    + rewrite decide_False by congruence. done.
  - intros o Ho. simpl. rewrite Hby, decide_False; [done|]. fold base in Ho. lia.
Qed.

(** What [ext2_bfree] does: the block is free then; it stays marked if the device
    fails. *)
Lemma bfree_run fs blk : fs_ok fs -> 0 <= blk < total fs -> used fs blk = true ->
  exists fs', ext2_bfree fs blk = Done fs' /\
    (marks fs fs' (at_block blk false) \/ marks fs fs' (fun _ => None) /\ faults (dev fs) <> []).
Proof.
  intros Hok Hblk Hu. pose proof (f_bpg _ Hok) as (Hp & _). pose proof (blksz_pos _ Hok) as Hsz. pose proof (f_size _ Hok) as [Hn Ht].
  destruct (block_split fs blk Hp) as [Eb Hm]. set (k := blk / bpg fs) in *. set (v := blk mod bpg fs) in *.
  assert (Hk : 0 <= k < nbgd (geom fs)).
  { split; [apply Z.div_pos; lia|]. apply Z.div_lt_upper_bound; [lia|]. unfold total in Hblk. lia. }
  unfold ext2_bfree. change (s_blocks_per_group (super fs)) with (bpg fs). fold k.
  replace (u32 (blk - k * bpg fs)) with v by (rewrite u32_small; nia).
  destruct (get_bgd_run fs k Hok Hk) as (b & -> & Hb). cbn [rbind].
  assert (Hbit : bit (dev fs) (bg_block_bitmap b * blksz (geom fs)) v = true) by (unfold used in Hu; fold k v in Hu; by rewrite Hb in Hu).
  destruct (bitmap_free_run fs _ b v Hok Hb Hm Hbit) as (err & d & -> & Hc). cbn [rbind]. rewrite Z2Nat.id in Hc by lia.
  destruct Hc as [(-> & Hc)|(He & Hc & Hf)].
  - eexists. split; [done|]. left. rewrite Eb, (Z.add_comm (k * bpg fs) v). eapply marks_then; [exact Hc|].
    apply marks_refl; [by apply (skeleton_set (set_dev fs d))|apply Hc|done..].
  - rewrite (proj2 (Z.eqb_neq err 0) He). eexists. split; [done|]. by right.
Qed.

(** ** Blocks are given out once *)

Inductive bop := BAlloc (ino : Z) (io : list Z) | BFree (blk : Z) (io : list Z).

(** A block is allocated for an inode or given back; [io] is what the device
    returns. *)
Definition with_faults (fs : ext2_fs_t) (io : list Z) : ext2_fs_t := set_dev fs (MkDisk (content (dev fs)) io).
Definition bexec (w : ext2_fs_t * gset Z) (o : bop) : res (ext2_fs_t * gset Z) :=
  let '(fs, A) := w in
  match o with
  | BAlloc ino io =>
      let* '(err, blk, fs) := ext2_balloc (with_faults fs io) ino in Done (fs, if err =? 0 then {[blk]} ∪ A else A)
  | BFree blk io => let* fs := ext2_bfree (with_faults fs io) blk in Done (fs, A ∖ {[blk]})
  end.
Definition ballowed (w : ext2_fs_t * gset Z) (o : bop) : Prop :=
  match o with BAlloc ino _ => ino_ok w.1 ino | BFree blk _ => blk ∈ w.2 end.
Definition bstep (w w' : ext2_fs_t * gset Z) : Prop := exists o, ballowed w o /\ bexec w o = Done w'.

(** The blocks in [A] are marked, and what was in use at the start still is. *)
Record binv (fs0 : ext2_fs_t) (w : ext2_fs_t * gset Z) : Prop := {
  b_ok : fs_ok w.1;
  b_skel : skeleton w.1 = skeleton fs0;
  b_used : forall blk, blk ∈ w.2 -> 0 < blk < total fs0 /\ used w.1 blk = true /\ used fs0 blk = false;
  b_old : forall blk, 0 <= blk < total fs0 -> used fs0 blk = true -> used w.1 blk = true;
  b_rest : forall o, ~ is_bitmap fs0 (o / blksz (geom fs0)) -> byte (dev w.1) o = byte (dev fs0) o
}.

Lemma with_faults_marks fs io : fs_ok fs -> fs_ok (with_faults fs io) /\ forall blk, used (with_faults fs io) blk = used fs blk.
Proof. intros Hok. split; [|done]. by destruct Hok. Qed.

Lemma marks_binv fs0 fs A fs' f A' : fs_ok fs0 -> binv fs0 (fs, A) -> marks fs fs' f ->
  (forall blk, f blk = Some false -> blk ∈ A) ->
  (forall blk, blk ∈ A' -> f blk <> Some false /\ (blk ∈ A \/ f blk = Some true /\ 0 < blk < total fs /\ used fs blk = false)) ->
  binv fs0 (fs', A').
Proof.
  intros Hok0 [Hok Hsk Hused Hold Hrest] Hm Hf HA. simpl in *. pose proof (marks_total _ _ _ Hm) as Et.
  destruct (skeleton_geom _ _ Hsk) as (Eg & Eb & _). assert (Et0 : total fs = total fs0) by (unfold total; by rewrite Eg, Eb).
  assert (Hkeep : forall blk, f blk = Some false -> blk <> 0 /\ ~ is_bitmap fs blk).
  { intros blk Hfb. destruct (Hused _ (Hf _ Hfb)) as (Hr & Hu & Hu0). split; [lia|]. intros Hbm.
    apply (skeleton_bitmap _ _ _ Hsk), (proj2 (f_meta _ Hok0)) in Hbm. congruence. }
  pose proof Hm as (E & _ & _ & Hu & Ho). split; simpl.
  - by eapply marks_ok.
  - congruence.
  - intros blk Hblk. destruct (HA _ Hblk) as [Hnf [Hin|(Hft & Hr & Hfree)]].
    + destruct (Hused _ Hin) as (? & Hub & ?). split; [done|]. split; [|done]. rewrite Hu by lia. by destruct (f blk) as [[]|].
    + rewrite Et0 in Hr. split; [done|]. rewrite Hu by lia. rewrite Hft. split; [done|].
      destruct (used fs0 blk) eqn:E0; [|done]. rewrite Hold in Hfree by (done || lia). done.
  - intros blk Hr H0. rewrite Hu by lia. rewrite Hold by done. destruct (f blk) as [[]|] eqn:Ef; try done.
    destruct (Hused _ (Hf _ Ef)) as (_ & _ & ?). congruence.
  - intros o Hno. rewrite Ho, Hrest; [done..|]. rewrite Eg. intros Hi. apply Hno. by apply (skeleton_bitmap _ _ _ Hsk).
Qed.

Lemma binv_faults fs0 fs A io : binv fs0 (fs, A) -> binv fs0 (with_faults fs io, A).
Proof. intros [H1 H2 H3 H4 H5]. split; try done. by apply with_faults_marks. Qed.

Lemma bexec_run fs0 w o : fs_ok fs0 -> binv fs0 w -> ballowed w o -> exists w', bexec w o = Done w' /\ binv fs0 w'.
Proof.
  intros Hok0 Hi Ha. destruct w as [fs A]. destruct o as [ino io|blk io]; simpl in *; apply (binv_faults _ _ _ io) in Hi.
  - destruct (balloc_run (with_faults fs io) ino (b_ok _ _ Hi) Ha) as ([[err blk] fs'] & -> & Hc). cbn [rbind].
    destruct Hc as [(He & Hm & _)|(-> & Hr & Hfree & Hm)].
    + rewrite (proj2 (Z.eqb_neq err 0) He). eexists. split; [done|]. eapply marks_binv; [done|exact Hi|exact Hm|done|]. intros b Hb. split; [done|by left].
    + eexists. split; [done|]. eapply marks_binv; [done|exact Hi|exact Hm| |].
      * unfold at_block. intros b. by destruct (decide _).
      * intros b Hb. unfold at_block. destruct (decide (b = blk)) as [->|]; [split; [done|by right]|]. split; [done|left]. set_solver.
  - destruct (b_used _ _ Hi blk Ha) as (Hr & Hu & _). simpl in Hu. destruct (skeleton_geom _ _ (b_skel _ _ Hi)) as (Eg & Eb & _). simpl in Eg, Eb.
    destruct (bfree_run (with_faults fs io) blk (b_ok _ _ Hi)) as (fs' & -> & Hc); [unfold total in *; simpl; rewrite Eg, Eb; lia|done|].
    cbn [rbind]. eexists. split; [done|]. destruct Hc as [Hm|[Hm _]]; (eapply marks_binv; [done|exact Hi|exact Hm|..]).
    + unfold at_block. intros b Hb. destruct (decide (b = blk)) as [->|]; done.
    + intros b Hb. unfold at_block. rewrite decide_False by set_solver. split; [done|left]. set_solver.
    + done.
    + intros b Hb. split; [done|left]. set_solver.
Qed.


(** ** A small file system: one group of 32 blocks of 1 KiB, the bitmap in block 3,
    blocks 0 to 5 in use *)

Definition ex_super (free : Z) : ext2_sblock_t := MkSb 32 32 free 16 1 0 32 32 EXT2_SUPER_MAGIC EXT2_VALID_FS 0 11 128 0 0.
Definition ex_geom : ext2_geom := MkGeom 1024 10 128 256 65536 8 16 32 8 1 0x7fffffff.
Definition ex_disk : disk := MkDisk {[3072 := 63]} [].
Definition ex_fs (inodes : Z) : ext2_fs_t := MkFs (ex_super 26) ex_geom ex_disk [MkBgd 3 4 5 26 inodes 1].

Lemma ex_byte o : byte ex_disk o = if decide (o = 3072) then 63 else 0.
Proof.
  unfold byte, ex_disk. simpl. destruct (decide (o = 3072)) as [->|]; [by rewrite lookup_singleton_eq|by rewrite lookup_singleton_ne].
Qed.

Lemma ex_fs_ok : fs_ok (ex_fs 16).
Proof.
  split.
  - done.
  - done.
  - intros o. simpl. rewrite ex_byte. destruct (decide _); lia.
  - done.
  - done.
  - intros [|i] b Hb; [|done]. injection Hb as <-. done.
  - intros [|i] [|j] b c Hb Hc; done.
  - split; [reflexivity|]. intros blk (i & b & Hb & <-). destruct i; [|done]. injection Hb as <-. reflexivity.
Qed.


(** ** Where the code fails *)

(** [ext2_balloc] looks at the number of free inodes of a group: if no group has
    a free inode, it returns block 0 and no error. *)
Lemma balloc_block_zero : ext2_balloc (ex_fs 0) 2 = Done (0, 0, ex_fs 0) /\ used (ex_fs 0) 0 = true /\ used (ex_fs 0) 6 = false.
Proof. split_and!; vm_compute; reflexivity. Qed.

(** The lowest bits should be left out of the search, but they are the only ones
    of the first word that are searched. *)
Lemma ialloc_reserved : let fs := MkFs (MkSb 32 32 26 16 1 0 32 32 EXT2_SUPER_MAGIC EXT2_VALID_FS EXT2_DYNAMIC_REV 11 128 0 0) ex_geom
    (MkDisk {[4096 := 1]} []) [MkBgd 3 4 5 26 16 1] in
  exists fs', ext2_ialloc fs = Done (0, 2, fs').
Proof. eexists. vm_compute. reflexivity. Qed.

(** The block of a file that lies in a hole behind the direct blocks is looked up
    in block 0 of the device. *)
Lemma bmap_hole : let n := MkNode 2 20480 0 (replicate 15 0) in
  let fs := MkFs (ex_super 26) ex_geom (MkDisk (<[0 := 17]> {[3072 := 63]}) []) [MkBgd 3 4 5 26 16 1] in
  ext2_inode_bmap fs n false 12 = Done (0, 17, fs, n).
Proof. vm_compute. reflexivity. Qed.

(** From block [12 + addr_per_blk_sq] on, the number of the block in the triple
    indirect tree is computed as a negative number: the assertion on the offset
    fails. *)
Lemma bmap_gap : ext2_inode_bmap (ex_fs 16) (MkNode 2 0 0 (replicate 14 0 ++ [7])) false (12 + 65536) = Panic.
Proof. vm_compute. reflexivity. Qed.
