(* ===== verification/Ext2Map.v ===== *)
(** * drivers/fs/ext2/inode.c: the blocks of a file

    The blocks of a file are the leaves of trees whose roots are the fifteen
    entries of [i_block]: twelve blocks of data, and a tree of each of the depths
    one, two and three.  [node] is the block at a position of such a tree, read
    from the device.  The theorem is about [ext2_inode_bmap] with allocation,
    also when the device fails in between. *)
From stdpp Require Import base gmap list relations.
From Stdlib Require Import ZArith Lia Bool.
From S2P Require Import Prelude Interleave Bitset Ext2.
Open Scope Z_scope.

(** ** Positions *)

Definition depth (r : Z) : nat := if r <? EXT2_NDIR_BLOCKS then 0 else Z.to_nat (r - EXT2_IND_BLOCK + 1).

Definition slot (fs : ext2_fs_t) (b i : Z) : Z := dword (dev fs) (b * blksz (geom fs) + 4 * i).
Definition child (fs : ext2_fs_t) (b i : Z) : Z := if b =? 0 then 0 else slot fs b i.
Definition root (n : ext2_node) (r : Z) : Z := default 0 (i_block n !! Z.to_nat r).
Definition node (fs : ext2_fs_t) (n : ext2_node) (r : Z) (p : list Z) : Z := foldl (child fs) (root n r) p.

(** A position: a root and the indices on the way down. *)
Definition position (fs : ext2_fs_t) (r : Z) (p : list Z) : Prop :=
  0 <= r < EXT2_N_BLOCKS /\ (length p <= depth r)%nat /\ Forall (fun i => 0 <= i < addr_per_blk (geom fs)) p.

(** The indices of a block in a tree of depth [level], as [bmap_levels] computes
    them. *)
Fixpoint indices (g : ext2_geom) (level : nat) (lbn : Z) : list Z :=
  match level with
  | O => []
  | S level =>
      let lg := match level with O => 0 | 1%nat => log_naddr g | _ => log_naddr_sq g end in
      u32 (Z.shiftr lbn lg) :: indices g level (Z.land lbn (u64 (Z.shiftl 1 lg - 1)))
  end.
Definition place (g : ext2_geom) (lbn : Z) : Z * list Z := let '(r, l) := bmap_root g lbn in (r, indices g (depth r) l).

(** The block of the device that has block [lbn] of the file, 0 if there is none. *)
Definition lookup_block (fs : ext2_fs_t) (n : ext2_node) (lbn : Z) : Z := let '(r, p) := place (geom fs) lbn in node fs n r p.

Record geom_ok (g : ext2_geom) : Prop := {
  g_shift : 10 <= blkshift g <= 12 /\ blksz g = 2 ^ blkshift g;
  g_log : log_naddr g = blkshift g - 2 /\ log_naddr_sq g = 2 * (blkshift g - 2);
  g_addr : addr_per_blk g = 2 ^ (blkshift g - 2)
}.

(** The blocks of a file that the code can reach: between the double and the
    triple indirect blocks there is a gap. *)
Definition reachable_lbn (g : ext2_geom) (lbn : Z) : Prop :=
  let a := addr_per_blk g in
  0 <= lbn < 12 + a * a \/ 12 + a + a * a <= lbn < 12 + a + a * a + a * a * a.

(** Every block of the tree is marked as used, is not a bitmap and is at one
    position. *)
Record tree_ok (fs : ext2_fs_t) (n : ext2_node) : Prop := {
  t_len : length (i_block n) = Z.to_nat EXT2_N_BLOCKS;
  t_node : forall r p, position fs r p -> node fs n r p <> 0 ->
    0 < node fs n r p < total fs /\ used fs (node fs n r p) = true /\ ~ is_bitmap fs (node fs n r p);
  t_inj : forall r p r' p', position fs r p -> position fs r' p' -> node fs n r p <> 0 -> node fs n r p = node fs n r' p' -> r = r' /\ p = p'
}.

Lemma node_snoc fs n r p i : node fs n r (p ++ [i]) = child fs (node fs n r p) i.
Proof. unfold node. by rewrite foldl_snoc. Qed.

Lemma position_snoc fs r p i : position fs r (p ++ [i]) -> position fs r p /\ 0 <= i < addr_per_blk (geom fs) /\ (length p < depth r)%nat.
Proof.
  intros (Hr & Hl & Hf). rewrite length_app in Hl. simpl in Hl. apply Forall_app in Hf as [Hf Hi]. split; [split; [done|split; [lia|done]]|].
  split; [by inversion Hi|lia].
Qed.

(** ** Changes that leave what is in use alone *)

Definition owned (fs : ext2_fs_t) (b : Z) : Prop := 0 < b < total fs /\ used fs b = true /\ ~ is_bitmap fs b.

Record keeps (fs fs' : ext2_fs_t) : Prop := {
  k_ok : fs_ok fs';
  k_skel : skeleton fs' = skeleton fs;
  k_used : forall b, 0 <= b < total fs -> used fs b = true -> used fs' b = true;
  k_bytes : forall o, owned fs (o / blksz (geom fs)) -> byte (dev fs') o = byte (dev fs) o
}.

Lemma same_geom fs fs' : skeleton fs' = skeleton fs -> geom fs' = geom fs /\ total fs' = total fs.
Proof. intros E. destruct (skeleton_geom _ _ E) as (E1 & E2 & _). unfold total. by rewrite E1, E2. Qed.

Lemma keeps_refl fs : fs_ok fs -> keeps fs fs.
Proof. by split. Qed.

Lemma keeps_owned fs fs' b : keeps fs fs' -> owned fs b -> owned fs' b.
Proof.
  intros [_ E Hu _] (Hr & Hub & Hn). destruct (same_geom _ _ E) as [_ Et]. split_and!; [lia|lia|apply Hu; [lia|done]|]. by rewrite (skeleton_bitmap _ _ _ E).
Qed.

Lemma keeps_trans fs fs1 fs2 : keeps fs fs1 -> keeps fs1 fs2 -> keeps fs fs2.
Proof.
  intros H1 [O2 E2 U2 B2]. pose proof H1 as [O1 E1 U1 B1]. destruct (same_geom _ _ E1) as [Eg Et].
  split; [done|congruence| |].
  - intros b Hb Hu. apply U2; [lia|]. by apply U1.
  - intros o Hown. rewrite B2, B1; [done|done|]. rewrite Eg. by apply (keeps_owned fs fs1).
Qed.

Lemma keeps_marks fs fs1 fs2 f : fs_ok fs -> keeps fs fs1 -> marks fs1 fs2 f ->
  (forall b, f b = Some false -> ~ (0 <= b < total fs /\ used fs b = true)) -> keeps fs fs2.
Proof.
  intros Hok Hk Hm Hf. pose proof Hk as [Ok1 E1 U1 B1]. destruct (same_geom _ _ E1) as [Eg Et]. pose proof Hm as (E & _ & _ & Hu & Ho). split; [|congruence| |].
  - eapply marks_ok; [exact Ok1|done|]. intros b Hb. split.
    + intros ->. apply (Hf _ Hb). split; [pose proof (total_pos _ Hok); lia|exact (proj1 (f_meta _ Hok))].
    + rewrite (skeleton_bitmap _ _ _ E1). intros Hbm. apply (Hf _ Hb). split; [|by apply (f_meta _ Hok)].
      destruct Hbm as (i & c & Hc & <-). pose proof (f_groups _ Hok _ _ Hc). lia.
  - intros b Hb Hub. rewrite Hu by lia. destruct (f b) as [[]|] eqn:Ef; simpl; [done|exfalso; by eapply Hf|by apply U1].
  - intros o Hown. rewrite Ho; [by apply B1|]. rewrite Eg, (skeleton_bitmap _ _ _ E1). by destruct Hown as (_ & _ & ?).
Qed.

(** Bytes of blocks that are not bitmaps are written. *)
Lemma dev_ok fs d : fs_ok fs -> bytes_ok d -> (forall o, is_bitmap fs (o / blksz (geom fs)) -> byte d o = byte (dev fs) o) ->
  fs_ok (set_dev fs d) /\ forall b, 0 <= b < total fs -> used (set_dev fs d) b = used fs b.
Proof.
  intros Hok Hd Hs. pose proof (blksz_pos _ Hok) as Hsz. pose proof (f_bpg _ Hok) as (Hp & _ & H8).
  assert (Hu : forall b, 0 <= b < total fs -> used (set_dev fs d) b = used fs b).
  { intros b Hb. unfold used. change (bpg (set_dev fs d)) with (bpg fs). simpl. destruct (bgds fs !! _) as [c|] eqn:Ec; [|done].
    unfold bit. destruct (block_split fs b Hp) as [_ Hm]. rewrite Hs; [done|]. exists (Z.to_nat (b / bpg fs)), c. split; [done|].
    assert (0 <= (b mod bpg fs) / 8 < blksz (geom fs)) by (split; [apply Z.div_pos; lia|apply Z.div_lt_upper_bound; lia]).
    symmetry. rewrite Z.div_add_l by lia. rewrite (Z.div_small ((b mod bpg fs) / 8)) by lia. lia. }
  split; [|done]. destruct Hok. split; try done. destruct f_meta as [H0 Hb]. split; [rewrite Hu; [done|]|].
  - destruct f_size. unfold total. nia.
  - intros blk Hblk. rewrite Hu; [by apply Hb|]. destruct Hblk as (i & c & Hc & <-). destruct (f_groups _ _ Hc). simpl in *. unfold total, bpg in *. simpl in *. lia.
Qed.

Lemma keeps_dev fs fs1 d blk : keeps fs fs1 -> ~ owned fs blk -> ~ is_bitmap fs blk -> bytes_ok d ->
  (forall o, o / blksz (geom fs) <> blk -> byte d o = byte (dev fs1) o) -> keeps fs (set_dev fs1 d).
Proof.
  intros [O1 E1 U1 B1] Hno Hnb Hd Hs. destruct (same_geom _ _ E1) as [Eg Et].
  destruct (dev_ok fs1 d O1 Hd) as [Hok Hu]. { intros o. rewrite Eg, (skeleton_bitmap _ _ _ E1). intros Hbm. apply Hs. congruence. }
  split; [done|done| |].
  - intros b Hb Hub. rewrite Hu by lia. by apply U1.
  - intros o Hown. simpl. rewrite Hs; [by apply B1|]. congruence.
Qed.

(** ** Trees *)

Lemma keeps_slot fs fs' b i : keeps fs fs' -> geom_ok (geom fs) -> owned fs b -> 0 <= i < addr_per_blk (geom fs) -> slot fs' b i = slot fs b i.
Proof.
  intros Hk [[Hs Hsz] _ Ha] Hb Hi. destruct (same_geom _ _ (k_skel _ _ Hk)) as [Eg _]. unfold slot. rewrite Eg.
  assert (Hbs : blksz (geom fs) = 4 * addr_per_blk (geom fs)).
  { rewrite Hsz, Ha. change 4 with (2 ^ 2). rewrite <- Z.pow_add_r by lia. f_equal. lia. }
  apply dword_same. intros j Hj. apply (k_bytes _ _ Hk). assert (j / blksz (geom fs) = b) as ->; [|done].
  symmetry. apply (Z.div_unique_pos _ _ _ (j - b * blksz (geom fs))); lia.
Qed.

Lemma tree_owned fs n r p : tree_ok fs n -> position fs r p -> node fs n r p <> 0 -> owned fs (node fs n r p).
Proof. intros Ht Hp Hn. by destruct (t_node _ _ Ht r p Hp Hn). Qed.

Lemma position_geom fs fs' r p : geom fs' = geom fs -> position fs' r p <-> position fs r p.
Proof. unfold position. by intros ->. Qed.

Lemma keeps_node fs fs' n n' : keeps fs fs' -> geom_ok (geom fs) -> tree_ok fs n -> i_block n' = i_block n ->
  forall r p, position fs r p -> node fs' n' r p = node fs n r p.
Proof.
  intros Hk Hg Ht En r p. induction p as [|i p IH] using rev_ind; intros Hp; [unfold node, root; simpl; by rewrite En|].
  apply position_snoc in Hp as (Hp & Hi & _). rewrite !node_snoc, IH by done. unfold child.
  destruct (Z.eqb_spec (node fs n r p) 0); [done|]. apply keeps_slot; [done..| |done]. by apply tree_owned.
Qed.

Lemma keeps_tree fs fs' n n' : keeps fs fs' -> geom_ok (geom fs) -> tree_ok fs n -> i_block n' = i_block n -> tree_ok fs' n'.
Proof.
  intros Hk Hg Ht En. destruct (same_geom _ _ (k_skel _ _ Hk)) as [Eg Et]. pose proof (keeps_node _ _ _ n' Hk Hg Ht En) as Hn. split.
  - rewrite En. apply Ht.
  - intros r p Hp%(position_geom fs fs' r p Eg). rewrite Hn by done. intros H0. apply (keeps_owned fs fs'); [done|]. by apply tree_owned.
  - intros r p r' p' Hp%(position_geom fs fs' r p Eg) Hp'%(position_geom fs fs' r' p' Eg). rewrite !Hn by done. by apply Ht.
Qed.

(** A block that was not in use becomes a node of the tree: the blocks it points
    to are 0, and one slot or root points to it. *)
Record filled (fs : ext2_fs_t) (n : ext2_node) (fs' : ext2_fs_t) (n' : ext2_node) (r0 : Z) (p0 : list Z) (blk : Z) : Prop := {
  fl_ok : fs_ok fs';
  fl_skel : skeleton fs' = skeleton fs;
  fl_used : forall b, 0 <= b < total fs -> used fs b = true -> used fs' b = true;
  fl_new : 0 < blk < total fs /\ used fs blk = false /\ used fs' blk = true;
  fl_zero : (length p0 < depth r0)%nat -> forall i, 0 <= i < addr_per_blk (geom fs) -> slot fs' blk i = 0;
  fl_len : length (i_block n') = length (i_block n);
  fl_bytes : forall o, owned fs (o / blksz (geom fs)) -> (forall q i, p0 = q ++ [i] -> o / blksz (geom fs) <> node fs n r0 q) ->
    byte (dev fs') o = byte (dev fs) o;
  fl_empty : node fs n r0 p0 = 0;
  fl_root : forall r, 0 <= r < EXT2_N_BLOCKS -> root n' r = if decide (r = r0 /\ p0 = []) then blk else root n r;
  fl_slot : forall r p i, position fs r (p ++ [i]) -> node fs n r p <> 0 ->
    slot fs' (node fs n r p) i = if decide (r = r0 /\ p ++ [i] = p0) then blk else slot fs (node fs n r p) i
}.

Lemma filled_node fs n fs' n' r0 p0 blk : tree_ok fs n -> filled fs n fs' n' r0 p0 blk -> position fs r0 p0 ->
  (forall q i, p0 = q ++ [i] -> node fs n r0 q <> 0) ->
  forall r p, position fs r p -> node fs' n' r p = if decide (r = r0 /\ p = p0) then blk else node fs n r p.
Proof.
  intros Ht Hf Hp0 Hparent r p. pose proof (fl_new _ _ _ _ _ _ _ Hf) as (Hblk & Hfree & _).
  assert (Hfresh : forall r p, position fs r p -> node fs n r p <> blk).
  { intros r' p' Hp' E. destruct (t_node _ _ Ht r' p' Hp') as (_ & Hu & _); [lia|]. rewrite E in Hu. congruence. }
  induction p as [|i p IH] using rev_ind; intros Hp.
  - unfold node. simpl. rewrite (fl_root _ _ _ _ _ _ _ Hf r) by apply Hp. destruct (decide (r = r0 /\ p0 = [])) as [[-> ->]|H1].
    + by rewrite decide_True.
    + rewrite decide_False; [done|]. intros [-> <-]. by apply H1.
  - pose proof (position_snoc _ _ _ _ Hp) as (Hpp & Hi & Hlen). rewrite !node_snoc, (IH Hpp). unfold child.
    destruct (decide (r = r0 /\ p = p0)) as [[-> ->]|Hne].
    + rewrite (proj2 (Z.eqb_neq blk 0)) by lia. rewrite (fl_zero _ _ _ _ _ _ _ Hf) by done. rewrite (fl_empty _ _ _ _ _ _ _ Hf). simpl.
      rewrite decide_False; [done|]. intros [_ E]. apply (f_equal length) in E. rewrite length_app in E. simpl in E. lia.
    + destruct (Z.eqb_spec (node fs n r p) 0) as [E0|E0].
      * rewrite decide_False; [done|]. intros [-> <-]. by apply (Hparent p i).
      * by rewrite (fl_slot _ _ _ _ _ _ _ Hf r p i Hp E0).
Qed.

Lemma filled_tree fs n fs' n' r0 p0 blk : fs_ok fs -> tree_ok fs n -> filled fs n fs' n' r0 p0 blk -> position fs r0 p0 ->
  (forall q i, p0 = q ++ [i] -> node fs n r0 q <> 0) -> tree_ok fs' n'.
Proof.
  intros Hok Ht Hf Hp0 Hparent. pose proof (filled_node _ _ _ _ _ _ _ Ht Hf Hp0 Hparent) as Hn.
  pose proof (fl_new _ _ _ _ _ _ _ Hf) as (Hblk & Hfree & Hub). pose proof (fl_skel _ _ _ _ _ _ _ Hf) as E. destruct (same_geom _ _ E) as [Eg Et].
  split.
  - rewrite (fl_len _ _ _ _ _ _ _ Hf). apply Ht.
  - intros r p Hp%(position_geom fs fs' r p Eg). rewrite Hn by done. rewrite Et, (skeleton_bitmap _ _ _ E). destruct (decide _).
    + intros _. split; [done|]. split; [done|]. intros Hbm. apply (f_meta _ Hok) in Hbm. congruence.
    + intros H0. destruct (t_node _ _ Ht r p Hp H0) as (? & ? & ?). split; [done|]. split; [|done]. apply (fl_used _ _ _ _ _ _ _ Hf); [lia|done].
  - intros r p r' p' Hp%(position_geom fs fs' r p Eg) Hp'%(position_geom fs fs' r' p' Eg). rewrite !Hn by done.
    assert (Hfresh : forall r p, position fs r p -> node fs n r p <> blk).
    { intros r1 p1 Hp1 E1. destruct (t_node _ _ Ht r1 p1 Hp1) as (_ & Hu & _); [lia|]. rewrite E1 in Hu. congruence. }
    destruct (decide (r = r0 /\ p = p0)) as [[-> ->]|]; destruct (decide (r' = r0 /\ p' = p0)) as [[-> ->]|].
    + done.
    + intros _ E1. by destruct (Hfresh r' p' Hp').
    + intros _ E1. by destruct (Hfresh r p Hp).
    + by apply Ht.
Qed.

(** ** The operations *)

Lemma slot_block fs b i j : geom_ok (geom fs) -> 0 <= i < addr_per_blk (geom fs) ->
  b * blksz (geom fs) + 4 * i <= j < b * blksz (geom fs) + 4 * i + 4 -> j / blksz (geom fs) = b.
Proof.
  intros [[Hs Hsz] _ Ha] Hi Hj. assert (Hbs : blksz (geom fs) = 4 * addr_per_blk (geom fs)).
  { rewrite Hsz, Ha. change 4 with (2 ^ 2). rewrite <- Z.pow_add_r by lia. f_equal. lia. }
  symmetry. apply (Z.div_unique_pos _ _ _ (j - b * blksz (geom fs))); lia.
Qed.

Lemma bclr_run fs blk : fs_ok fs -> 0 <= blk < total fs -> exists err d, ext2_bclr fs blk = Done (err, set_dev fs d) /\ bytes_ok d /\
  (err <> 0 /\ content d = content (dev fs) \/
   err = 0 /\ forall o, byte d o = if decide (o / blksz (geom fs) = blk) then 0 else byte (dev fs) o).
Proof.
  intros Hok Hb. pose proof (blksz_pos _ Hok) as Hsz. pose proof (f_size _ Hok) as [_ Hlim].
  unfold ext2_bclr. rewrite (proj2 (Z.leb_le _ 4096)) by lia. rewrite (boff_run fs (f_shift _ Hok)) by (lia || nia). cbn [rbind]. rewrite Z.add_0_r.
  unfold bwrite. destruct (next_fault_spec (dev fs)) as (err & d & -> & Hc & _). destruct (Z.eqb_spec err 0) as [->|He].
  2: { exists err, d. split; [done|]. split; [|by left]. intros o. rewrite (content_byte _ _ Hc). apply Hok. }
  exists 0. eexists. split; [done|].
  assert (Hby : forall o, byte (MkDisk (put_bytes (content d) (blk * blksz (geom fs)) (replicate (Z.to_nat (blksz (geom fs))) 0)) (faults d)) o =
    if decide (o / blksz (geom fs) = blk) then 0 else byte (dev fs) o).
  { intros o. rewrite byte_put, length_replicate, Z2Nat.id by lia. pose proof (Z.div_mod o (blksz (geom fs)) ltac:(lia)). pose proof (Z.mod_pos_bound o (blksz (geom fs)) ltac:(lia)).
    destruct (decide (o / blksz (geom fs) = blk)) as [E|E].
    - rewrite decide_True by nia. apply lookup_total_replicate_2. nia.
    - rewrite decide_False by nia. rewrite <- (content_byte _ _ Hc). by destruct d. }
  split; [|by right]. intros o. rewrite Hby. destruct (decide _); [lia|apply Hok].
Qed.

Lemma used_content fs d b : content d = content (dev fs) -> used (set_dev fs d) b = used fs b.
Proof. intros Hc. unfold used. change (bpg (set_dev fs d)) with (bpg fs). simpl. destruct (bgds fs !! _); [|done]. unfold bit. by rewrite (content_byte _ _ Hc). Qed.

Lemma keeps_content fs fs1 d : keeps fs fs1 -> content d = content (dev fs1) -> keeps fs (set_dev fs1 d).
Proof.
  intros [O1 E1 U1 B1] Hc. pose proof (content_byte _ _ Hc) as Hb. destruct (dev_ok fs1 d O1) as [Hok _]; [|by intros o _|].
  { intros o. rewrite Hb. apply O1. }
  split; [done|done| |].
  - intros b Hr Hu. rewrite used_content by done. by apply U1.
  - intros o Ho. simpl. rewrite Hb. by apply B1.
Qed.

(** A block is allocated, cleared and given back, seen from a state in which it
    was not in use. *)
Section Fresh.
Context (fs : ext2_fs_t) (Hok : fs_ok fs) (Hgeom : geom_ok (geom fs)).

Lemma balloc_fresh fs1 ino : keeps fs fs1 -> (forall b, 0 <= b < total fs -> used fs1 b = used fs b) -> ino_ok fs ino ->
  exists err blk fs2, ext2_balloc fs1 ino = Done (err, blk, fs2) /\ keeps fs fs2 /\
    (err = 0 -> 0 < blk < total fs /\ used fs blk = false /\ used fs2 blk = true).
Proof.
  intros Hk Hu Hi. destruct (same_geom _ _ (k_skel _ _ Hk)) as [Eg Et]. destruct (skeleton_geom _ _ (k_skel _ _ Hk)) as (_ & _ & _ & Ep).
  destruct (balloc_run fs1 ino (k_ok _ _ Hk)) as ([[err blk] fs2] & -> & Hc); [unfold ino_ok in *; by rewrite Eg, Ep|].
  exists err, blk, fs2. split; [done|]. destruct Hc as [(He & Hm & _)|(-> & Hr & Hfree & Hm)].
  - split; [|done]. by eapply keeps_marks.
  - split; [eapply keeps_marks; [done..|]; unfold at_block; intros b; by destruct (decide _)|]. intros _. rewrite Et in Hr.
    split; [done|]. rewrite Hu in Hfree by lia. split; [done|]. destruct Hm as (_ & _ & _ & Hu2 & _). rewrite Hu2 by lia. unfold at_block. by rewrite decide_True.
Qed.

Lemma give_back_run fs2 blk : keeps fs fs2 -> 0 < blk < total fs -> used fs blk = false -> used fs2 blk = true ->
  exists fs3, ext2_bfree fs2 blk = Done fs3 /\ keeps fs fs3.
Proof.
  intros Hk Hr Hfree Hu. destruct (same_geom _ _ (k_skel _ _ Hk)) as [_ Et].
  destruct (bfree_run fs2 blk (k_ok _ _ Hk) ltac:(lia) Hu) as (fs3 & -> & Hc). exists fs3. split; [done|].
  destruct Hc as [Hm|[Hm _]]; (eapply keeps_marks; [done..|]); [|done].
  intros b. unfold at_block. destruct (decide (b = blk)) as [->|]; [|done]. intros _ [_ ?]. congruence.
Qed.

Lemma fresh_not_owned blk : used fs blk = false -> ~ owned fs blk /\ ~ is_bitmap fs blk.
Proof. intros Hf. split; [intros (_ & ? & _); congruence|]. intros Hb. apply (f_meta _ Hok) in Hb. congruence. Qed.

Lemma clear_run fs1 blk : keeps fs fs1 -> 0 < blk < total fs -> used fs blk = false -> used fs1 blk = true ->
  exists err fs2, ext2_bclr fs1 blk = Done (err, fs2) /\ keeps fs fs2 /\ used fs2 blk = true /\
    (err = 0 -> forall i, 0 <= i < addr_per_blk (geom fs) -> slot fs2 blk i = 0).
Proof.
  intros Hk Hr Hfree Hu. destruct (same_geom _ _ (k_skel _ _ Hk)) as [Eg Et]. destruct (fresh_not_owned _ Hfree) as [Hno Hnb].
  destruct (bclr_run fs1 blk (k_ok _ _ Hk) ltac:(lia)) as (err & d & -> & Hd & Hc). exists err, (set_dev fs1 d). split; [done|].
  destruct Hc as [[He Hc]|[-> Hby]].
  - split; [by apply keeps_content|]. split; [by rewrite used_content|done].
  - rewrite Eg in Hby. split; [|split].
    + apply (keeps_dev fs fs1 d blk); try done. intros o Ho. rewrite Hby. by rewrite decide_False.
    + destruct (dev_ok fs1 d (k_ok _ _ Hk) Hd) as [_ Hud]; [|by rewrite Hud by lia].
      intros o. rewrite Eg, (skeleton_bitmap _ _ _ (k_skel _ _ Hk)). intros Hbm. rewrite Hby, decide_False; [done|congruence].
    + intros _ i Hi. unfold slot. simpl. rewrite Eg. unfold dword. rewrite !Hby. by rewrite !decide_True by (eapply slot_block; [done|exact Hi|lia]).
Qed.
End Fresh.

(** A pointer to the fresh block [blk] is written into a slot of the tree. *)
Lemma link_filled fs n fs2 r p i blk d : fs_ok fs -> geom_ok (geom fs) -> tree_ok fs n -> position fs r (p ++ [i]) -> node fs n r p <> 0 ->
  slot fs (node fs n r p) i = 0 -> keeps fs fs2 -> 0 < blk < total fs -> used fs blk = false -> used fs2 blk = true ->
  (forall j, 0 <= j < addr_per_blk (geom fs) -> slot fs2 blk j = 0) -> content d = content (dev fs2) ->
  filled fs n (set_dev fs2 (put_word d (node fs n r p * blksz (geom fs) + 4 * i) blk)) (ext2_inc_blockcnt fs2 n) r (p ++ [i]) blk.
Proof.
  intros Hok Hg Ht Hpos HP H0 Hk Hr Hfree Hu Hz Hc. set (P := node fs n r p) in *. set (off := P * blksz (geom fs) + 4 * i).
  pose proof (position_snoc _ _ _ _ Hpos) as (Hpp & Hi & _). destruct (same_geom _ _ (k_skel _ _ Hk)) as [Eg Et].
  pose proof (content_byte _ _ Hc) as Hcb. pose proof (tree_owned _ _ _ _ Ht Hpp HP) as HoP. fold P in HoP.
  assert (Hd : bytes_ok (put_word d off blk)) by (apply put_word_ok; intros o; rewrite Hcb; apply (k_ok _ _ Hk)).
  assert (Hby : forall o, o / blksz (geom fs) <> P -> byte (put_word d off blk) o = byte (dev fs2) o).
  { intros o Ho. rewrite put_word_byte, decide_False; [apply Hcb|]. intros Hin. apply Ho. by eapply slot_block. }
  destruct (dev_ok fs2 (put_word d off blk) (k_ok _ _ Hk) Hd) as [Hok3 Hu3].
  { intros o. rewrite Eg, (skeleton_bitmap _ _ _ (k_skel _ _ Hk)). intros Hbm. apply Hby. intros E. rewrite E in Hbm. by destruct HoP as (_ & _ & ?). }
  assert (Hother : forall b j, b <> P -> 0 <= j < addr_per_blk (geom fs) -> slot (set_dev fs2 (put_word d off blk)) b j = slot fs2 b j).
  { intros b j Hb Hj. unfold slot. simpl. rewrite Eg. apply dword_same. intros o Ho. apply Hby. by rewrite (slot_block _ _ _ _ Hg Hj Ho). }
  split; try done.
  - apply (k_skel _ _ Hk).
  - intros b Hb Hub. rewrite Hu3 by lia. by apply (k_used _ _ Hk).
  - split; [done|]. split; [done|]. by rewrite Hu3 by lia.
  - intros _ j Hj. rewrite Hother; [by apply Hz|intros ->; destruct HoP as (_ & ? & _); congruence|done].
  - intros o Hown Hno. simpl. rewrite Hby; [by apply (k_bytes _ _ Hk)|by apply (Hno p i)].
  - rewrite node_snoc. unfold child. fold P. by rewrite (proj2 (Z.eqb_neq P 0) HP).
  - intros r' _. rewrite decide_False; [done|]. intros [_ E]. by destruct p.
  - intros r' p' j Hpos' HP'. pose proof (position_snoc _ _ _ _ Hpos') as (Hpp' & Hj & _).
    destruct (decide (r' = r /\ p' ++ [j] = p ++ [i])) as [[-> E]|Hne].
    + apply app_inj_tail in E as [-> ->]. unfold slot. simpl. rewrite Eg. fold P off. apply put_word_dword.
      pose proof (blksz_pos _ Hok). pose proof (f_size _ Hok). nia.
    + destruct (decide (node fs n r' p' = P)) as [EP|EP]; [|rewrite Hother by done; by apply keeps_slot; [|done|apply tree_owned|]].
      assert (r' = r /\ p' = p) as [-> ->] by (by eapply (t_inj _ _ Ht)). fold P. assert (j <> i) by (intros ->; by apply Hne).
      rewrite <- (keeps_slot _ _ P j Hk Hg HoP Hj). unfold slot. simpl. rewrite Eg. apply dword_same. intros o Ho.
      rewrite put_word_byte, decide_False by (unfold off; lia). apply Hcb.
Qed.

Lemma index_off fs i : fs_ok fs -> geom_ok (geom fs) -> 0 <= i < addr_per_blk (geom fs) -> u32 (Z.shiftl i 2) = 4 * i /\ 0 <= 4 * i < blksz (geom fs).
Proof.
  intros Hok [[Hs Hsz] _ Ha] Hi. pose proof (blksz_pos _ Hok). assert (Hbs : blksz (geom fs) = 4 * addr_per_blk (geom fs)).
  { rewrite Hsz, Ha. change 4 with (2 ^ 2). rewrite <- Z.pow_add_r by lia. f_equal. lia. }
  rewrite Z.shiftl_mul_pow2 by lia. change (2 ^ 2) with 4. rewrite u32_small by lia. lia.
Qed.

Lemma read_blkaddr_run fs n r p i : fs_ok fs -> geom_ok (geom fs) -> tree_ok fs n -> ino_ok fs (n_ino n) ->
  position fs r (p ++ [i]) -> node fs n r p <> 0 ->
  exists err blk fs' n', ext2_read_blkaddr fs n (node fs n r p) i true = Done (err, blk, fs', n') /\ n_ino n' = n_ino n /\
    ((err <> 0 \/ blk = node fs n r (p ++ [i]) /\ blk <> 0) /\ keeps fs fs' /\ i_block n' = i_block n \/
     err = 0 /\ i_block n' = i_block n /\ filled fs n fs' n' r (p ++ [i]) blk).
Proof.
  intros Hok Hg Ht Hino Hpos HP. set (P := node fs n r p) in *. pose proof (position_snoc _ _ _ _ Hpos) as (Hpp & Hi & _).
  destruct (index_off fs i Hok Hg Hi) as [Eoff Hoff]. pose proof (blksz_pos _ Hok) as Hsz.
  destruct (tree_owned _ _ _ _ Ht Hpp HP) as (HrP & _ & _). fold P in HrP. pose proof (f_size _ Hok) as [_ Hlim].
  unfold ext2_read_blkaddr. rewrite Eoff. rewrite (boff_run fs (f_shift _ Hok)) by (lia || nia). cbn [rbind].
  assert (Enode : node fs n r (p ++ [i]) = slot fs P i) by (rewrite node_snoc; unfold child; fold P; by rewrite (proj2 (Z.eqb_neq P 0) HP)).
  unfold bread. destruct (next_fault_spec (dev fs)) as (e & d & -> & Hc & _).
  pose proof (keeps_content fs fs d (keeps_refl _ Hok) Hc) as Hk1. destruct (Z.eqb_spec e 0) as [->|He].
  2: { rewrite (proj2 (Z.eqb_neq e 0) He). simpl. do 4 eexists. split; [done|]. split; [done|]. left. split; [by left|done]. }
  cbn [negb Z.eqb]. assert (Ew : word_at (read_bytes d (P * blksz (geom fs) + 4 * i) 4) 0 = slot fs P i).
  { change 0%nat with (Z.to_nat 0). rewrite read_word, Z.mul_0_r, Z.add_0_r by lia. apply dword_same. intros. apply (content_byte _ _ Hc). }
  rewrite !Ew. clear Ew.
  rewrite andb_true_r. destruct (Z.eqb_spec (slot fs P i) 0) as [E0|E0].
  2: { do 4 eexists. split; [done|]. split; [done|]. left. split; [right; by rewrite Enode|done]. }
  destruct (balloc_fresh fs Hok (set_dev fs d) (n_ino n) Hk1 ltac:(intros; by apply used_content) Hino) as (e1 & blk & fs2 & -> & Hk2 & Hnew). cbn [rbind].
  destruct (Z.eqb_spec e1 0) as [->|He1]; cbn [negb].
  2: { do 4 eexists. split; [done|]. split; [done|]. left. split; [by left|done]. }
  destruct (Hnew eq_refl) as (Hr & Hfree & Hu2).
  destruct (clear_run fs Hok Hg fs2 blk Hk2 Hr Hfree Hu2) as (e2 & fs3 & -> & Hk3 & Hu3 & Hz). cbn [rbind].
  destruct (Z.eqb_spec e2 0) as [->|He2].
  2: { rewrite (proj2 (Z.eqb_neq e2 0) He2). simpl. destruct (give_back_run fs Hok fs3 blk Hk3 Hr Hfree Hu3) as (fs4 & -> & Hk4). simpl.
       do 4 eexists. split; [done|]. split; [done|]. left. split; [by left|done]. }
  unfold bwrite. destruct (next_fault_spec (dev fs3)) as (e3 & d3 & -> & Hc3 & _). destruct (Z.eqb_spec e3 0) as [->|He3].
  2: { rewrite (proj2 (Z.eqb_neq e3 0) He3). simpl. destruct (give_back_run fs Hok (set_dev fs3 d3) blk) as (fs4 & -> & Hk4);
         [by apply keeps_content|done..|by rewrite used_content|]. simpl. do 4 eexists. split; [done|]. split; [done|]. left. split; [by left|done]. }
  simpl. do 4 eexists. split; [done|]. split; [done|]. right. split; [done|]. split; [done|].
  apply (link_filled fs n fs3 r p i blk d3); try done. by apply Hz.
Qed.

(** ** The way down *)

(** Blocks were added to the tree on the way to position [t]. *)
Record grown (fs : ext2_fs_t) (n : ext2_node) (fs' : ext2_fs_t) (n' : ext2_node) (r : Z) (t : list Z) : Prop := {
  gr_ok : fs_ok fs';
  gr_skel : skeleton fs' = skeleton fs;
  gr_tree : tree_ok fs' n';
  gr_ino : n_ino n' = n_ino n;
  gr_used : forall b, 0 <= b < total fs -> used fs b = true -> used fs' b = true;
  gr_node : forall r' p, position fs r' p -> node fs' n' r' p = node fs n r' p \/
    r' = r /\ p `prefix_of` t /\ node fs n r' p = 0 /\ used fs (node fs' n' r' p) = false;
  gr_bytes : forall o, owned fs (o / blksz (geom fs)) -> (forall q i, (q ++ [i]) `prefix_of` t -> o / blksz (geom fs) <> node fs n r q) ->
    byte (dev fs') o = byte (dev fs) o
}.

Lemma keeps_grown fs n fs' n' r t : keeps fs fs' -> geom_ok (geom fs) -> tree_ok fs n -> i_block n' = i_block n -> n_ino n' = n_ino n ->
  grown fs n fs' n' r t.
Proof.
  intros Hk Hg Ht En Ei. split; [apply Hk|apply Hk|by eapply keeps_tree|done|apply Hk| |].
  - intros r' p Hp. left. by eapply keeps_node.
  - intros o Ho _. by apply (k_bytes _ _ Hk).
Qed.

Lemma filled_grown fs n fs' n' r p t blk : fs_ok fs -> tree_ok fs n -> filled fs n fs' n' r p blk -> position fs r p ->
  (forall q i, p = q ++ [i] -> node fs n r q <> 0) -> n_ino n' = n_ino n -> p `prefix_of` t -> grown fs n fs' n' r t.
Proof.
  intros Hok Ht Hf Hp Hparent Ei Hpre. pose proof (fl_new _ _ _ _ _ _ _ Hf) as (_ & Hfree & _).
  split; [apply Hf|apply Hf|by eapply filled_tree|done|apply Hf| |].
  - intros r' p' Hp'. rewrite (filled_node _ _ _ _ _ _ _ Ht Hf Hp Hparent r' p' Hp').
    destruct (decide (r' = r /\ p' = p)) as [[-> ->]|]; [|by left]. right. split_and!; try done. apply Hf.
  - intros o Ho Hno. apply (fl_bytes _ _ _ _ _ _ _ Hf o Ho). intros q i ->. by apply (Hno q i).
Qed.

Lemma unused_before fs fs' b : (forall b, 0 <= b < total fs -> used fs b = true -> used fs' b = true) ->
  0 <= b < total fs -> used fs' b = false -> used fs b = false.
Proof. intros Hu Hb H. destruct (used fs b) eqn:E; [|done]. rewrite (Hu b Hb E) in H. done. Qed.

Lemma grown_trans fs n fs1 n1 fs2 n2 r t : fs_ok fs -> grown fs n fs1 n1 r t -> grown fs1 n1 fs2 n2 r t -> position fs r t -> grown fs n fs2 n2 r t.
Proof.
  intros Hok H1 H2 Hpt. destruct (same_geom _ _ (gr_skel _ _ _ _ _ _ H1)) as [Eg Et]. destruct (same_geom _ _ (gr_skel _ _ _ _ _ _ H2)) as [Eg2 Et2].
  assert (Hrange : forall r' p, position fs r' p -> 0 <= node fs2 n2 r' p < total fs).
  { intros r' p Hp. destruct (decide (node fs2 n2 r' p = 0)) as [->|Hne]; [pose proof (total_pos _ Hok); lia|].
    destruct (t_node _ _ (gr_tree _ _ _ _ _ _ H2) r' p) as [? _]; [|done|lia]. apply (position_geom fs); [congruence|done]. }
  split; [apply H2|rewrite (gr_skel _ _ _ _ _ _ H2); apply H1|apply H2|rewrite (gr_ino _ _ _ _ _ _ H2); apply H1| | |].
  - intros b Hb Hu. apply (gr_used _ _ _ _ _ _ H2); [lia|]. by apply (gr_used _ _ _ _ _ _ H1).
  - intros r' p Hp. destruct (gr_node _ _ _ _ _ _ H2 r' p) as [E2|(-> & Hpre & E2 & Hu2)]; [by apply (position_geom fs)|rewrite E2; by apply H1|].
    right. split_and!; try done.
    + destruct (gr_node _ _ _ _ _ _ H1 r p Hp) as [E|(_ & _ & E & _)]; congruence.
    + apply (unused_before fs fs1); [apply H1|by apply Hrange|done].
  - intros o Ho Hno. assert (Ho1 : owned fs1 (o / blksz (geom fs1))).
    { destruct Ho as (Hr & Hu & Hb). rewrite Eg. split; [lia|]. split; [apply (gr_used _ _ _ _ _ _ H1); [lia|done]|].
      by rewrite (skeleton_bitmap _ _ _ (gr_skel _ _ _ _ _ _ H1)). }
    rewrite (gr_bytes _ _ _ _ _ _ H2 o Ho1); [by apply (gr_bytes _ _ _ _ _ _ H1)|]. rewrite Eg. intros q i Hq.
    destruct (gr_node _ _ _ _ _ _ H1 r q) as [E|(_ & _ & _ & Hf)].
    + destruct Hq as [k ->]. destruct Hpt as (Hr & Hl & Hall). rewrite !length_app in Hl. apply Forall_app in Hall as [[Hq _]%Forall_app _]. split; [done|]. split; [lia|done].
    + rewrite E. by apply (Hno q i).
    + intros E. destruct Ho as (_ & Hu & _). congruence.
Qed.

Lemma read_blkaddr_grown fs n r p i t : fs_ok fs -> geom_ok (geom fs) -> tree_ok fs n -> ino_ok fs (n_ino n) ->
  position fs r (p ++ [i]) -> node fs n r p <> 0 -> (p ++ [i]) `prefix_of` t ->
  exists err blk fs' n', ext2_read_blkaddr fs n (node fs n r p) i true = Done (err, blk, fs', n') /\ grown fs n fs' n' r t /\
    (err = 0 -> blk <> 0 /\ blk = node fs' n' r (p ++ [i])) /\
    (forall r' p', position fs r' p' -> err <> 0 \/ (r', p') <> (r, p ++ [i]) -> node fs' n' r' p' = node fs n r' p').
Proof.
  intros Hok Hg Ht Hino Hpos HP Hpre. destruct (read_blkaddr_run fs n r p i Hok Hg Ht Hino Hpos HP) as (err & blk & fs' & n' & -> & Ei & Hc).
  exists err, blk, fs', n'. split; [done|]. destruct Hc as [(Hc & Hk & En)|(-> & En & Hf)].
  - pose proof (keeps_node _ _ _ n' Hk Hg Ht En) as Hn. split; [by apply keeps_grown|]. split; [|intros r' p' Hp' _; by apply Hn].
    intros ->. rewrite Hn by done. by destruct Hc as [?|[? ?]].
  - assert (Hpar : forall q j, p ++ [i] = q ++ [j] -> node fs n r q <> 0) by (intros q j [-> _]%app_inj_tail; done).
    pose proof (filled_node _ _ _ _ _ _ _ Ht Hf Hpos Hpar) as Hn. split; [by eapply filled_grown|]. split.
    + intros _. rewrite Hn, decide_True by done. split; [|done]. destruct (fl_new _ _ _ _ _ _ _ Hf). lia.
    + intros r' p' Hp' [|Hne]; [done|]. rewrite Hn by done. rewrite decide_False; [done|]. intros [-> ->]. by apply Hne.
Qed.

Lemma levels_run level : forall fs n r p lbn, fs_ok fs -> geom_ok (geom fs) -> tree_ok fs n -> ino_ok fs (n_ino n) ->
  let t := p ++ indices (geom fs) level lbn in position fs r t -> node fs n r p <> 0 ->
  exists err blk fs' n', bmap_levels level fs n true lbn (node fs n r p) = Done (err, blk, fs', n') /\ grown fs n fs' n' r t /\
    (err = 0 -> blk <> 0 /\ blk = node fs' n' r t) /\ (err <> 0 -> level <> 0%nat /\ node fs' n' r t = node fs n r t).
Proof.
  induction level as [|level IH]; intros fs n r p lbn Hok Hg Ht Hino t Hpos HP.
  { exists 0, (node fs n r p), fs, n. split; [done|]. split; [apply keeps_grown; try done; by apply keeps_refl|]. unfold t. simpl. by rewrite app_nil_r. }
  unfold t in *. clear t. simpl. simpl in Hpos. set (lg := match level with O => 0 | 1%nat => log_naddr (geom fs) | _ => log_naddr_sq (geom fs) end) in *.
  set (i := u32 (Z.shiftr lbn lg)) in *. set (l := Z.land lbn (u64 (Z.shiftl 1 lg - 1))) in *. rewrite cons_middle, app_assoc in Hpos |- *.
  set (t := (p ++ [i]) ++ indices (geom fs) level l) in *.
  assert (Hpi : position fs r (p ++ [i])).
  { destruct Hpos as (Hr & Hl & Hall). unfold t in Hl, Hall. rewrite length_app in Hl. apply Forall_app in Hall as [Hall _]. split; [done|]. split; [lia|done]. }
  destruct (read_blkaddr_grown fs n r p i t Hok Hg Ht Hino Hpi HP) as (err & blk & fs1 & n1 & -> & H1 & Hs & Hn); [by eexists|]. simpl.
  destruct (Z.eqb_spec err 0) as [->|He]; simpl.
  2: { exists err, blk, fs1, n1. split; [done|]. split; [done|]. split; [done|]. intros _. split; [done|]. apply Hn; [done|by left]. }
  destruct (Hs eq_refl) as [Hb0 ->]. rewrite (proj2 (Z.eqb_neq _ 0) Hb0). destruct (same_geom _ _ (gr_skel _ _ _ _ _ _ H1)) as [Eg Et].
  destruct (IH fs1 n1 r (p ++ [i]) l) as (err & blk & fs2 & n2 & E & H2 & Hs2 & Hn2).
  - apply H1.
  - by rewrite Eg.
  - apply H1.
  - destruct (skeleton_geom _ _ (gr_skel _ _ _ _ _ _ H1)) as (_ & _ & _ & Ep). unfold ino_ok in *. by rewrite Eg, Ep, (gr_ino _ _ _ _ _ _ H1).
  - rewrite Eg. by apply (position_geom fs).
  - done.
  - rewrite Eg in H2, Hs2, Hn2. fold t in H2, Hs2, Hn2. exists err, blk, fs2, n2. split; [exact E|]. split; [by eapply grown_trans|]. split; [done|].
    intros He. destruct (Hn2 He) as [Hl ->]. split; [done|]. apply Hn; [done|]. right. intros E'. injection E' as E'.
    apply (f_equal length) in E'. unfold t in E'. rewrite length_app in E'. destruct level; [done|]. simpl in E'. lia.
Qed.

(** ** The roots *)

(** What [ext2_inode_bmap] does when a root is 0. *)
Lemma root_filled fs n fs2 r blk : fs_ok fs -> geom_ok (geom fs) -> tree_ok fs n -> 0 <= r < EXT2_N_BLOCKS -> root n r = 0 ->
  keeps fs fs2 -> 0 < blk < total fs -> used fs blk = false -> used fs2 blk = true ->
  (EXT2_NDIR_BLOCKS <= r -> forall j, 0 <= j < addr_per_blk (geom fs) -> slot fs2 blk j = 0) ->
  filled fs n fs2 (ext2_inc_blockcnt fs2 (set_iblock n r blk)) r [] blk.
Proof.
  intros Hok Hg Ht Hr H0 Hk Hb Hfree Hu Hz. pose proof (t_len _ _ Ht) as Hlen. split; try done; try apply Hk.
  - unfold depth. intros Hd. apply Hz. destruct (Z.ltb_spec r EXT2_NDIR_BLOCKS); [simpl in Hd; lia|lia].
  - simpl. by rewrite length_insert.
  - intros o Ho _. by apply Hk.
  - intros r' Hr'. unfold root. simpl. destruct (decide (r' = r /\ [] = [])) as [[-> _]|Hne].
    + rewrite list_lookup_insert_eq; [done|]. rewrite Hlen. lia.
    + rewrite list_lookup_insert_ne; [done|]. intros E. apply Hne. split; [lia|done].
  - intros r' p i Hp HP. rewrite decide_False; [|by intros [_ ?]; destruct p]. apply position_snoc in Hp as (Hp & Hi & _).
    apply keeps_slot; [done..| |done]. by apply tree_owned.
Qed.

Definition alloc_root (fs : ext2_fs_t) (n : ext2_node) (idx block : Z) : res (Z * Z * ext2_fs_t * ext2_node) :=
  if (block =? 0) && true then
    let* '(err, block, fs) := ext2_balloc fs (n_ino n) in
    if negb (err =? 0) then Done (err, block, fs, n)
    else
      let* '(err, fs) := if EXT2_NDIR_BLOCKS <=? idx then ext2_bclr fs block else Done (0, fs) in
      if negb (err =? 0) then let* fs := ext2_bfree fs block in Done (err, block, fs, n)
      else Done (0, block, fs, ext2_inc_blockcnt fs (set_iblock n idx block))
  else Done (0, block, fs, n).

Lemma root_run fs n r t : fs_ok fs -> geom_ok (geom fs) -> tree_ok fs n -> ino_ok fs (n_ino n) -> 0 <= r < EXT2_N_BLOCKS ->
  exists err blk fs' n', alloc_root fs n r (root n r) = Done (err, blk, fs', n') /\ grown fs n fs' n' r t /\
    (err = 0 -> blk <> 0 /\ blk = node fs' n' r []) /\
    (forall r' p', position fs r' p' -> err <> 0 \/ (r', p') <> (r, []) -> node fs' n' r' p' = node fs n r' p').
Proof.
  intros Hok Hg Ht Hino Hr. pose proof (keeps_refl _ Hok) as Hk0. unfold alloc_root. rewrite andb_true_r. destruct (Z.eqb_spec (root n r) 0) as [E0|E0].
  2: { do 4 eexists. split; [done|]. split; [by apply keeps_grown|]. by split. }
  assert (Hfail : forall err blk fs', err <> 0 -> keeps fs fs' -> exists err1 blk1 fs1 n1, Done (err, blk, fs', n) = Done (err1, blk1, fs1, n1) /\
    grown fs n fs1 n1 r t /\ (err1 = 0 -> blk1 <> 0 /\ blk1 = node fs1 n1 r []) /\
    (forall r' p', position fs r' p' -> err1 <> 0 \/ (r', p') <> (r, []) -> node fs1 n1 r' p' = node fs n r' p')).
  { intros err blk fs' He Hk. do 4 eexists. split; [done|]. split; [by apply keeps_grown|]. split; [done|]. intros r' p' Hp _. by eapply keeps_node. }
  destruct (balloc_fresh fs Hok fs (n_ino n) Hk0 ltac:(done) Hino) as (e1 & blk & fs2 & -> & Hk2 & Hnew). cbn [rbind].
  destruct (Z.eqb_spec e1 0) as [->|He1]; cbn [negb]; [|by apply Hfail]. destruct (Hnew eq_refl) as (Hb & Hfree & Hu2). clear Hnew.
  assert (Hclr : exists err fs3, (if EXT2_NDIR_BLOCKS <=? r then ext2_bclr fs2 blk else Done (0, fs2)) = Done (err, fs3) /\ keeps fs fs3 /\ used fs3 blk = true /\
    (err = 0 -> EXT2_NDIR_BLOCKS <= r -> forall i, 0 <= i < addr_per_blk (geom fs) -> slot fs3 blk i = 0)).
  { destruct (Z.leb_spec EXT2_NDIR_BLOCKS r).
    - destruct (clear_run fs Hok Hg fs2 blk Hk2 Hb Hfree Hu2) as (e & fs3 & -> & Hk3 & Hu3 & Hz). exists e, fs3. split; [done|]. split; [done|]. split; [done|]. intros He _. by apply Hz.
    - exists 0, fs2. split; [done|]. split; [done|]. split; [done|]. intros _ ?. lia. }
  destruct Hclr as (e & fs3 & -> & Hk3 & Hu3 & Hz). cbn [rbind]. destruct (Z.eqb_spec e 0) as [->|He]; cbn [negb].
  2: { destruct (give_back_run fs Hok fs3 blk Hk3 Hb Hfree Hu3) as (fs4 & -> & Hk4). cbn [rbind]. by apply Hfail. }
  pose proof (root_filled fs n fs3 r blk Hok Hg Ht Hr E0 Hk3 Hb Hfree Hu3 (Hz eq_refl)) as Hf.
  assert (Hp0 : position fs r []) by (split; [done|]; split; [simpl; lia|done]). assert (Hpar : forall q i, [] = q ++ [i] -> node fs n r q <> 0) by (by intros [] ?).
  pose proof (filled_node _ _ _ _ _ _ _ Ht Hf Hp0 Hpar) as Hn. do 4 eexists. split; [done|].
  split; [eapply filled_grown; try done; apply prefix_nil|]. split.
  - intros _. rewrite Hn, decide_True by done. split; [lia|done].
  - intros r' p' Hp' [|Hne]; [done|]. rewrite Hn by done. rewrite decide_False; [done|]. intros [-> ->]. by apply Hne.
Qed.

(** ** The place of a block *)

Section Place.
Context (g : ext2_geom) (Hg : geom_ok g).
Local Notation a := (addr_per_blk g).

Lemma addr_range : 256 <= a <= 1024.
Proof.
  destruct Hg as [[Hs _] _ ->]. assert (blkshift g = 10 \/ blkshift g = 11 \/ blkshift g = 12) as [->|[->| ->]] by lia; vm_compute; split; congruence.
Qed.

Lemma log_pow : 2 ^ log_naddr g = a /\ 2 ^ log_naddr_sq g = a * a /\ 0 <= log_naddr g /\ 0 <= log_naddr_sq g.
Proof.
  destruct Hg as [[Hs _] [El El2] Ea]. rewrite El, El2, Ea. split; [done|]. split; [|lia]. rewrite <- Z.pow_add_r by lia. f_equal. lia.
Qed.

Lemma mask_mod x lg : 0 <= x -> 0 <= lg < 64 -> Z.land x (u64 (Z.shiftl 1 lg - 1)) = x mod 2 ^ lg.
Proof.
  intros Hx Hl. rewrite Z.shiftl_1_l. assert (0 < 2 ^ lg) by (apply Z.pow_pos_nonneg; lia). assert (2 ^ lg < 2 ^ 64) by (apply Z.pow_lt_mono_r; lia).
  rewrite u64_small by lia. rewrite Z.sub_1_r, <- Z.ones_equiv. apply Z.land_ones. lia.
Qed.

(** What is left after the first index, and the index. *)
Lemma indices_step level lbn : (level <= 2)%nat -> 0 <= lbn < a ^ Z.of_nat (S level) ->
  exists i l, indices g (S level) lbn = i :: indices g level l /\ 0 <= i < a /\ 0 <= l < a ^ Z.of_nat level /\ lbn = i * a ^ Z.of_nat level + l.
Proof.
  intros Hl Hb. pose proof addr_range as Ha. destruct log_pow as (E1 & E2 & H1 & H2). destruct Hg as [[Hs _] [L1 L2] _].
  set (lg := match level with O => 0 | 1%nat => log_naddr g | _ => log_naddr_sq g end).
  assert (Hlg : 2 ^ lg = a ^ Z.of_nat level /\ 0 <= lg < 64).
  { unfold lg. destruct level as [|[|[|]]]; [done| | |lia]; change (Z.of_nat 1) with 1; change (Z.of_nat 2) with 2; rewrite ?Z.pow_1_r, ?Z.pow_2_r; split; (done || lia). }
  destruct Hlg as [Elg Hlg]. set (m := a ^ Z.of_nat level) in *. assert (Hm : 0 < m) by (apply Z.pow_pos_nonneg; lia).
  rewrite Nat2Z.inj_succ, Z.pow_succ_r in Hb by lia. fold m in Hb. exists (lbn / m), (lbn mod m).
  assert (0 <= lbn / m < a) by (split; [apply Z.div_pos; lia|apply Z.div_lt_upper_bound; lia]).
  split; [|split; [done|split; [apply Z.mod_pos_bound; lia|pose proof (Z.div_mod lbn m); lia]]].
  cbn [indices]. fold lg. rewrite mask_mod by lia. rewrite Z.shiftr_div_pow2, Elg by lia. rewrite u32_small; [done|]. lia.
Qed.

Lemma indices_ok level lbn : (level <= 3)%nat -> 0 <= lbn < a ^ Z.of_nat level ->
  length (indices g level lbn) = level /\ Forall (fun i => 0 <= i < a) (indices g level lbn).
Proof.
  revert lbn. induction level as [|level IH]; intros lbn Hl Hb; [done|]. destruct (indices_step level lbn ltac:(lia) Hb) as (i & l & -> & Hi & Hlb & _).
  destruct (IH l ltac:(lia) Hlb) as [E F]. split; [simpl; lia|by constructor].
Qed.

Lemma indices_inj level x y : (level <= 3)%nat -> 0 <= x < a ^ Z.of_nat level -> 0 <= y < a ^ Z.of_nat level ->
  indices g level x = indices g level y -> x = y.
Proof.
  revert x y. induction level as [|level IH]; intros x y Hl Hx Hy E; [change (a ^ Z.of_nat 0) with 1 in *; lia|].
  destruct (indices_step level x ltac:(lia) Hx) as (i & l & Ex & _ & Hlx & ->). destruct (indices_step level y ltac:(lia) Hy) as (j & k & Ey & _ & Hly & ->).
  rewrite Ex, Ey in E. injection E as -> E. f_equal. apply IH; [lia|done..].
Qed.

(** The first block of a root. *)
Definition base (r : Z) : Z :=
  if r <? EXT2_IND_BLOCK then 0 else if r <? EXT2_DIND_BLOCK then 12 else if r <? EXT2_TIND_BLOCK then 12 + a else 12 + a + a * a.

Lemma bmap_root_spec lbn : reachable_lbn g lbn ->
  exists r l, bmap_root g lbn = (r, l) /\ 0 <= r < EXT2_N_BLOCKS /\ lbn = base r + l /\
    (EXT2_NDIR_BLOCKS <= r -> 0 <= l < a ^ Z.of_nat (depth r)) /\ (r < EXT2_NDIR_BLOCKS -> l = r).
Proof.
  intros Hr. pose proof addr_range as Ha. destruct log_pow as (_ & E2 & _ & H2). unfold bmap_root.
  assert (Esq : u32 (Z.shiftl 1 (log_naddr_sq g)) = a * a) by (rewrite Z.shiftl_1_l, E2, u32_small by nia; done). rewrite !Esq.
  unfold reachable_lbn in Hr. assert (Hcube : a * a * a = a ^ Z.of_nat 3) by (change (Z.of_nat 3) with 3; lia).
  unfold base, EXT2_N_BLOCKS, EXT2_TIND_BLOCK, EXT2_DIND_BLOCK, EXT2_IND_BLOCK, EXT2_NDIR_BLOCKS in *.
  destruct (Z.ltb_spec lbn 12).
  { exists lbn, lbn. split; [done|]. rewrite (proj2 (Z.ltb_lt lbn 12)) by lia. split_and!; try lia. }
  destruct (Z.ltb_spec (lbn - 12) a).
  { exists 12, (lbn - 12). split; [done|]. change (depth 12) with 1%nat. change (Z.of_nat 1) with 1. rewrite Z.pow_1_r. simpl. split_and!; lia. }
  destruct (Z.ltb_spec (lbn - 12) (a * a)).
  { exists 13, (lbn - 12 - a). split; [done|]. change (depth 13) with 2%nat. change (Z.of_nat 2) with 2. rewrite Z.pow_2_r. simpl. split_and!; lia. }
  exists 14, (lbn - 12 - (a + a * a)). change (depth 14) with 3%nat. rewrite <- Hcube. rewrite (u32_small (a + a * a)) by nia.
  rewrite u64_small by nia. split; [done|]. simpl. split_and!; lia.
Qed.

Lemma bmap_place fs lbn : geom fs = g -> reachable_lbn g lbn -> exists r l, bmap_root g lbn = (r, l) /\ 0 <= r < EXT2_N_BLOCKS /\
  place g lbn = (r, indices g (depth r) l) /\ position fs r (indices g (depth r) l) /\ length (indices g (depth r) l) = depth r.
Proof.
  intros Eg Hr. destruct (bmap_root_spec lbn Hr) as (r & l & E & Hrr & _ & Hl & Hd). exists r, l. split; [done|]. split; [done|].
  unfold place. rewrite E. split; [done|]. unfold position. rewrite Eg.
  assert (Hk : length (indices g (depth r) l) = depth r /\ Forall (fun i => 0 <= i < a) (indices g (depth r) l)); [|destruct Hk as [-> ?]; by split].
  unfold EXT2_N_BLOCKS, EXT2_TIND_BLOCK, EXT2_DIND_BLOCK, EXT2_IND_BLOCK, EXT2_NDIR_BLOCKS in *. destruct (Z_lt_le_dec r 12).
  - unfold depth. rewrite (proj2 (Z.ltb_lt r EXT2_NDIR_BLOCKS)) by done. done.
  - apply indices_ok; [|by apply Hl]. unfold depth. rewrite (proj2 (Z.ltb_ge r EXT2_NDIR_BLOCKS)) by done. unfold EXT2_IND_BLOCK, EXT2_NDIR_BLOCKS. lia.
Qed.

Lemma place_inj x y : reachable_lbn g x -> reachable_lbn g y -> place g x = place g y -> x = y.
Proof.
  intros Hx Hy. destruct (bmap_root_spec x Hx) as (r & l & E & Hr & -> & Hl & Hd). destruct (bmap_root_spec y Hy) as (r' & l' & E' & Hr' & -> & Hl' & Hd').
  unfold place. rewrite E, E'. intros Eq. injection Eq as <- Eq. f_equal. destruct (Z_lt_le_dec r EXT2_NDIR_BLOCKS); [rewrite Hd, Hd'; done|].
  apply (indices_inj (depth r)); [|by apply Hl|by apply Hl'|done]. unfold depth. destruct (r <? EXT2_NDIR_BLOCKS); [lia|].
  unfold EXT2_N_BLOCKS, EXT2_TIND_BLOCK, EXT2_DIND_BLOCK in Hr. lia.
Qed.
End Place.

(** ** [ext2_inode_bmap] *)

(** Inner nodes of the tree: the indirect blocks. *)
Definition indirect (fs : ext2_fs_t) (n : ext2_node) (b : Z) : Prop := exists r p, position fs r p /\ (length p < depth r)%nat /\ node fs n r p = b.

Lemma bmap_unfold fs n lbn r l : bmap_root (geom fs) lbn = (r, l) -> length (i_block n) = Z.to_nat EXT2_N_BLOCKS -> 0 <= r < EXT2_N_BLOCKS ->
  ext2_inode_bmap fs n true lbn =
    (let* '(err, block, fs, n) := alloc_root fs n r (root n r) in
     if negb (err =? 0) then Done (err, block, fs, n) else bmap_levels (depth r) fs n true l block).
Proof.
  intros E Hlen Hr. unfold ext2_inode_bmap. rewrite E. unfold root.
  destruct (lookup_lt_is_Some_2 (i_block n) (Z.to_nat r)) as [b Hb]; [rewrite Hlen; unfold EXT2_N_BLOCKS, EXT2_TIND_BLOCK, EXT2_DIND_BLOCK, EXT2_IND_BLOCK, EXT2_NDIR_BLOCKS in *; lia|].
  by rewrite Hb.
Qed.

Lemma bmap_grown fs n lbn : fs_ok fs -> geom_ok (geom fs) -> tree_ok fs n -> ino_ok fs (n_ino n) -> reachable_lbn (geom fs) lbn ->
  let '(r, t) := place (geom fs) lbn in
  exists err blk fs' n', ext2_inode_bmap fs n true lbn = Done (err, blk, fs', n') /\ grown fs n fs' n' r t /\
    (err = 0 -> blk <> 0 /\ blk = node fs' n' r t) /\ (err <> 0 -> node fs' n' r t = node fs n r t).
Proof.
  intros Hok Hg Ht Hino Hr. destruct (bmap_place (geom fs) Hg fs lbn eq_refl Hr) as (r & l & E & Hrr & -> & Hpos & Hlen).
  rewrite (bmap_unfold _ _ _ _ _ E (t_len _ _ Ht) Hrr). set (t := indices (geom fs) (depth r) l) in *.
  destruct (root_run fs n r t Hok Hg Ht Hino Hrr) as (err & blk & fs1 & n1 & -> & H1 & Hs & Hn). cbn [rbind].
  destruct (Z.eqb_spec err 0) as [->|He]; cbn [negb].
  2: { exists err, blk, fs1, n1. split; [done|]. split; [done|]. split; [done|]. intros _. apply Hn; [done|by left]. }
  destruct (Hs eq_refl) as [Hb0 ->]. destruct (same_geom _ _ (gr_skel _ _ _ _ _ _ H1)) as [Eg Et].
  destruct (levels_run (depth r) fs1 n1 r [] l) as (err & blk & fs2 & n2 & E2 & H2 & Hs2 & Hn2).
  - apply H1.
  - by rewrite Eg.
  - apply H1.
  - destruct (skeleton_geom _ _ (gr_skel _ _ _ _ _ _ H1)) as (_ & _ & _ & Ep). unfold ino_ok in *. by rewrite Eg, Ep, (gr_ino _ _ _ _ _ _ H1).
  - rewrite Eg. by apply (position_geom fs).
  - done.
  - rewrite Eg in H2, Hs2, Hn2. simpl in H2, Hs2, Hn2. fold t in H2, Hs2, Hn2. exists err, blk, fs2, n2. split; [exact E2|]. split; [by eapply grown_trans|].
    split; [done|]. intros He. destruct (Hn2 He) as [Hl ->]. apply Hn; [done|]. right. intros E'. injection E' as E'. rewrite E' in Hlen. simpl in Hlen. lia.
Qed.


(** *** An empty file *)

Lemma empty_node fs ino r p : node fs (MkNode ino 0 0 (replicate 15 0)) r p = 0.
Proof.
  unfold node. assert (E : root (MkNode ino 0 0 (replicate 15 0)) r = 0).
  { unfold root. cbn [i_block]. destruct (replicate 15 0 !! Z.to_nat r) as [b|] eqn:E; [|done]. by apply lookup_replicate in E as [-> _]. }
  rewrite E. induction p as [|i p IH]; [done|exact IH].
Qed.

Lemma empty_tree fs ino : tree_ok fs (MkNode ino 0 0 (replicate 15 0)).
Proof. split; [done| |]; intros r p; intros; by rewrite empty_node in *. Qed.

