(* ===== verification/Ext2Inode.v ===== *)
(** * drivers/fs/ext2: inodes on the device and truncation

    inode.c (reading, writing and truncating an inode), the parts of ext2.c and
    vnops.c that turn an inode into a vnode and back, and the functions of
    vfs/vnode.c they use.  The current time is an argument; the pages of a vnode
    are not modelled.  [inode_roundtrip] says that a vnode which was synced is
    read again as it was; [truncate_zero] that truncating a file to nothing frees
    the blocks of the file, all of them and no others. *)
From stdpp Require Import base gmap list relations.
From Stdlib Require Import ZArith Lia Bool.
From S2P Require Import Prelude Interleave Bitset Ext2 Ext2Map.
Open Scope Z_scope.

(** ** Data *)

Definition EFBIG : Z := 27.

Definition S_IFMT : Z := 0xF000.
Definition S_IFDIR : Z := 0x4000.
Definition S_ISDIR (mode : Z) : bool := Z.land mode S_IFMT =? S_IFDIR.

Record ext2_inode_t := MkInode {
  i_mode : Z; i_uid : Z; i_size : Z; i_atime : Z; i_ctime : Z; i_mtime : Z; i_dtime : Z; i_gid : Z; i_nlink : Z; i_blocks : Z;
  i_flags : Z; i_osd1 : Z; i_addr : list Z; i_gen : Z; i_file_acl : Z; i_dir_acl : Z; i_faddr : Z; i_osd2 : list Z
}.

(** A vnode; the block numbers of its inode, the array [i_block], are in [vn]. *)
Record vnode_t := MkVnode {
  vn : ext2_node; v_uid : Z; v_gid : Z; v_mode : Z; v_nlink : Z; v_atime : Z; v_ctime : Z; v_mtime : Z; v_dirty : bool;
  v_inode : ext2_inode_t
}.

Definition set_vn (v : vnode_t) (n : ext2_node) : vnode_t :=
  MkVnode n (v_uid v) (v_gid v) (v_mode v) (v_nlink v) (v_atime v) (v_ctime v) (v_mtime v) (v_dirty v) (v_inode v).
Definition set_dirty (v : vnode_t) (b : bool) : vnode_t :=
  MkVnode (vn v) (v_uid v) (v_gid v) (v_mode v) (v_nlink v) (v_atime v) (v_ctime v) (v_mtime v) b (v_inode v).
Definition set_inode (v : vnode_t) (i : ext2_inode_t) : vnode_t :=
  MkVnode (vn v) (v_uid v) (v_gid v) (v_mode v) (v_nlink v) (v_atime v) (v_ctime v) (v_mtime v) (v_dirty v) i.
Definition set_blocks_of (n : ext2_node) (l : list Z) : ext2_node := MkNode (n_ino n) (n_size n) (n_blocks n) l.

(** The structure as it is on the device. *)
Definition half_bytes (x : Z) : list Z := [u8 x; u8 (Z.shiftr x 8)].
Definition half_at (bs : list Z) (o : nat) : Z := match drop o bs with a :: b :: _ => a + 2 ^ 8 * b | _ => 0 end.

Definition bytes_of_inode (i : ext2_inode_t) : list Z :=
  half_bytes (i_mode i) ++ half_bytes (i_uid i) ++ int_bytes (i_size i) ++ int_bytes (i_atime i) ++ int_bytes (i_ctime i) ++
  int_bytes (i_mtime i) ++ int_bytes (i_dtime i) ++ half_bytes (i_gid i) ++ half_bytes (i_nlink i) ++ int_bytes (i_blocks i) ++
  int_bytes (i_flags i) ++ int_bytes (i_osd1 i) ++ concat (int_bytes <$> i_addr i) ++ int_bytes (i_gen i) ++
  int_bytes (i_file_acl i) ++ int_bytes (i_dir_acl i) ++ int_bytes (i_faddr i) ++ i_osd2 i.

Definition inode_of_bytes (bs : list Z) : ext2_inode_t :=
  MkInode (half_at bs 0) (half_at bs 2) (word_at bs 1) (word_at bs 2) (word_at bs 3) (word_at bs 4) (word_at bs 5) (half_at bs 24)
    (half_at bs 26) (word_at bs 7) (word_at bs 8) (word_at bs 9) (word_at bs <$> seq 10 15) (word_at bs 25) (word_at bs 26)
    (word_at bs 27) (word_at bs 28) (take 12 (drop 116 bs)).

(** ** inode.c: reading and writing *)

Definition INODE_SZ : Z := 128.

(** Where an inode is. *)
Definition ext2_inode_off (fs : ext2_fs_t) (ino : Z) : res Z :=
  let ino := u32 (ino - 1) in
  let* b := get_bgd fs (ino / s_inodes_per_group (super fs)) in
  let ino := ino mod s_inodes_per_group (super fs) in
  let blk := u32 (bg_inode_table b + ino / ino_per_blk (geom fs)) in
  let off := ino mod ino_per_blk (geom fs) * ino_sz (geom fs) in
  kassert off <? blksz (geom fs) in Done (u32 (Z.shiftl blk (blkshift (geom fs))) + off).

Definition ext2_get_inode (fs : ext2_fs_t) (ino : Z) : res (Z * ext2_inode_t * ext2_fs_t) :=
  let* off := ext2_inode_off fs ino in
  let '(err, bs, d) := bread (dev fs) off INODE_SZ in
  Done (err, inode_of_bytes bs, set_dev fs d).

Definition ext2_set_inode (fs : ext2_fs_t) (ino : Z) (i : ext2_inode_t) : res (Z * ext2_fs_t) :=
  let* off := ext2_inode_off fs ino in
  let '(err, d) := bwrite (dev fs) off (bytes_of_inode i) in
  Done (err, set_dev fs d).

(** ** vnops.c, vfs/vnode.c *)

(** The fields of the inode that [ext2_vn_sync] fills in; [now] is the current
    time. *)
Definition synced (fs : ext2_fs_t) (v : vnode_t) (now : Z) : ext2_inode_t :=
  let i := v_inode v in
  MkInode (u16 (v_mode v)) (u16 (v_uid v)) (Z.land (n_size (vn v)) 0xFFFFFFFF) (u32 (v_atime v)) (u32 (v_ctime v)) (u32 (v_mtime v))
    (if v_nlink v =? 0 then u32 now else 0) (u16 (v_gid v)) (u16 (v_nlink v)) (u32 (n_blocks (vn v))) (i_flags i) (i_osd1 i) (i_block (vn v))
    (i_gen i) (i_file_acl i)
    (if EXT2_GOOD_OLD_REV <? s_rev_level (super fs) then u32 (Z.shiftr (n_size (vn v)) 32) else i_dir_acl i) (i_faddr i) (i_osd2 i).

Definition ext2_vn_sync (fs : ext2_fs_t) (v : vnode_t) (now : Z) : res (Z * ext2_fs_t * vnode_t) :=
  let v := set_inode v (synced fs v now) in
  let* '(err, fs) := ext2_set_inode fs (u32 (n_ino (vn v))) (v_inode v) in
  Done (err, fs, v).

Definition vnode_sync (fs : ext2_fs_t) (v : vnode_t) (now : Z) : res (Z * ext2_fs_t * vnode_t) :=
  if v_dirty v then ext2_vn_sync fs (set_dirty v false) now else Done (0, fs, v).

Definition vnode_set_size (v : vnode_t) (size : Z) : vnode_t := set_dirty (set_vn v (set_nsize (vn v) size)) true.

(** [vnode_settime] with [VN_CTIME | VN_MTIME]. *)
Definition set_cmtime (v : vnode_t) (now : Z) : vnode_t :=
  MkVnode (vn v) (v_uid v) (v_gid v) (v_mode v) (v_nlink v) (v_atime v) now now (v_dirty v) (v_inode v).

(** ** ext2.c *)

(** [ext2_vget] of an inode that is not cached: error and vnode. *)
Definition ext2_vget (fs : ext2_fs_t) (ino : Z) : res (Z * option vnode_t * ext2_fs_t) :=
  let* '(err, i, fs) := ext2_get_inode fs (u32 ino) in
  if negb (err =? 0) then Done (err, None, fs)
  else
    let length := if (EXT2_GOOD_OLD_REV <? s_rev_level (super fs)) && negb (S_ISDIR (i_mode i))
      then Z.lor (i_size i) (Z.shiftl (i_dir_acl i) 32) else i_size i in
    let n := MkNode ino length (i_blocks i) (i_addr i) in
    Done (0, Some (MkVnode n (i_uid i) (i_gid i) (i_mode i) (i_nlink i) (s32 (i_atime i)) (s32 (i_ctime i)) (s32 (i_mtime i)) false i), fs).

(** ** inode.c: truncation *)

(** The loop of [ext2_trunc_indir] over the words that are left; [sub] is the
    call for a block of addresses. *)
Fixpoint trunc_loop (sub : option (ext2_fs_t -> Z -> Z -> Z -> res (Z * ext2_fs_t * Z))) (l : list Z) (fs : ext2_fs_t) (off count allerr : Z)
  : res (Z * ext2_fs_t * Z) :=
  match l with
  | [] => Done (allerr, fs, count)
  | b :: l =>
      if b =? 0 then trunc_loop sub l fs 0 count allerr
      else
        match sub with
        | None => let* fs := ext2_bfree fs b in trunc_loop sub l fs 0 (count + EXT2_IBLKS (geom fs)) allerr
        | Some f =>
            let* '(err, fs, count) := f fs b off count in
            trunc_loop sub l fs 0 count (if negb (err =? 0) then err else allerr)
        end
  end.

(** Error, file system and the number of 512-byte blocks that were freed. *)
Fixpoint ext2_trunc_indir (indir : nat) (fs : ext2_fs_t) (block start count : Z) : res (Z * ext2_fs_t * Z) :=
  match indir with
  | O => Panic
  | S k =>
      if block =? 0 then Done (0, fs, count)
      else
        let* boff := EXT2_BOFF (geom fs) block 0 in
        let '(err, bs, d) := bread (dev fs) boff (blksz (geom fs)) in
        let fs := set_dev fs d in
        if negb (err =? 0) then Done (err, fs, count)
        else
          let buf := word_at bs <$> seq 0 (Z.to_nat (addr_per_blk (geom fs))) in
          let lg := Z.of_nat k * log_naddr (geom fs) in
          let off := Z.land start (Z.shiftl 1 lg - 1) in
          let start := Z.shiftr start lg in
          let sub := match k with O => None | _ => Some (ext2_trunc_indir k) end in
          let* '(allerr, fs, count) := trunc_loop sub (drop (Z.to_nat start) buf) fs off count 0 in
          if start =? 0 then
            let* fs := ext2_bfree fs block in Done (allerr, fs, count + EXT2_IBLKS (geom fs))
          else
            let left := take (Z.to_nat start) buf in
            let* boff := EXT2_BOFF (geom fs) block 0 in
            let '(err, d) := bwrite (dev fs) boff (concat (int_bytes <$> (left ++ replicate (length buf - length left) 0))) in
            Done (if negb (err =? 0) then err else allerr, set_dev fs d, count)
  end.

(** The direct blocks from number [i] on. *)
Fixpoint free_direct (l : list Z) (i flbn : Z) (fs : ext2_fs_t) (count : Z) : res (ext2_fs_t * Z) :=
  match l with
  | [] => Done (fs, count)
  | b :: l =>
      if (flbn <=? i) && negb (b =? 0) then
        let* fs := ext2_bfree fs b in free_direct l (i + 1) flbn fs (count + EXT2_IBLKS (geom fs))
      else free_direct l (i + 1) flbn fs count
  end.

(** The block numbers that stay in the inode. *)
Definition kept_roots (g : ext2_geom) (flbn : Z) (old : list Z) : list Z :=
  imap (fun i b =>
    let i := Z.of_nat i in
    if (i <? EXT2_NDIR_BLOCKS) && (flbn <=? i) then 0
    else if (i =? EXT2_TIND_BLOCK) && (flbn <=? u32 (EXT2_NDIR_BLOCKS + addr_per_blk g + addr_per_blk_sq g)) then 0
    else if (i =? EXT2_DIND_BLOCK) && (flbn <=? u32 (EXT2_NDIR_BLOCKS + addr_per_blk g)) then 0
    else if (i =? EXT2_IND_BLOCK) && (flbn <=? EXT2_NDIR_BLOCKS) then 0
    else b) old.

(** From the label [out] on. *)
Definition truncate_out (fs : ext2_fs_t) (v : vnode_t) (count allerr now1 now2 : Z) : res (Z * ext2_fs_t * vnode_t) :=
  let v := set_vn v (set_nblocks (vn v) (n_blocks (vn v) - count)) in
  let v := set_dirty (set_cmtime v now1) true in
  let* '(err, fs, v) := vnode_sync fs v now2 in
  Done (if negb (err =? 0) then err else allerr, fs, v).

(** A file that grows: what is behind its old end in the last block is cleared. *)
Definition truncate_grow (fs : ext2_fs_t) (v : vnode_t) (oldsz length now1 now2 : Z) : res (Z * ext2_fs_t * vnode_t) :=
  if maxlen (geom fs) <? length then Done (- EFBIG, fs, v)
  else
    let off := Z.land oldsz (blksz (geom fs) - 1) in
    if off =? 0 then truncate_out fs v 0 0 now1 now2
    else
      let* '(err, pbn, fs, n) := ext2_inode_bmap fs (vn v) false (Z.shiftr oldsz (blkshift (geom fs))) in
      let* '(err, fs) :=
        if (err =? 0) && negb (pbn =? 0) then
          let* boff := EXT2_BOFF64 (geom fs) pbn off in
          let '(err, d) := bwrite (dev fs) boff (replicate (Z.to_nat (blksz (geom fs) - off)) 0) in
          Done (err, set_dev fs d)
        else Done (err, fs) in
      if negb (err =? 0) then Done (err, fs, v) else truncate_out fs v 0 0 now1 now2.

(** [now0], [now1] and [now2]: the times of the first sync, of the change and of
    the second sync. *)
Definition ext2_inode_truncate (fs : ext2_fs_t) (v : vnode_t) (length now0 now1 now2 : Z) : res (Z * ext2_fs_t * vnode_t) :=
  let oldsz := n_size (vn v) in
  let v := vnode_set_size v length in
  if oldsz <? length then truncate_grow fs v oldsz length now1 now2
  else
    let g := geom fs in
    let flbn := u32 (Z.shiftr (ALIGN 64 length (blksz g)) (blkshift g)) in
    let old := i_block (vn v) in
    let v := set_dirty (set_vn v (set_blocks_of (vn v) (kept_roots g flbn old))) true in
    let* '(_, fs, v) := vnode_sync fs v now0 in
    let* '(fs, count) := free_direct (take (Z.to_nat EXT2_NDIR_BLOCKS) old) 0 flbn fs 0 in
    let* ind := deref (old !! Z.to_nat EXT2_IND_BLOCK) in
    let* dind := deref (old !! Z.to_nat EXT2_DIND_BLOCK) in
    let* tind := deref (old !! Z.to_nat EXT2_TIND_BLOCK) in
    let flbn := Z.max (flbn - EXT2_NDIR_BLOCKS) 0 in
    let* '(err1, fs, count) := ext2_trunc_indir 1 fs ind flbn count in
    let flbn := Z.max (flbn - addr_per_blk g) 0 in
    let* '(err2, fs, count) := ext2_trunc_indir 2 fs dind flbn count in
    let flbn := Z.max (flbn - addr_per_blk_sq g) 0 in
    let* '(err3, fs, count) := ext2_trunc_indir 3 fs tind flbn count in
    let allerr := if negb (err3 =? 0) then err3 else if negb (err2 =? 0) then err2 else err1 in
    truncate_out fs v count allerr now1 now2.

(** [ext2_vput]: a node without links is deleted. *)
Definition with_used_dirs (b : ext2_bgd_t) (n : Z) : ext2_bgd_t :=
  MkBgd (bg_block_bitmap b) (bg_inode_bitmap b) (bg_inode_table b) (bg_free_blocks_count b) (bg_free_inodes_count b) n.

Definition ext2_vput (fs : ext2_fs_t) (v : vnode_t) (now0 now1 now2 : Z) : res ext2_fs_t :=
  if v_nlink v =? 0 then
    let* '(_, fs, v) := ext2_inode_truncate fs v 0 now0 now1 now2 in
    let* fs := ext2_ifree fs (u32 (n_ino (vn v))) in
    if S_ISDIR (v_mode v) then
      let i := u64 (n_ino (vn v) - 1) / s_inodes_per_group (super fs) in
      let* b := get_bgd fs i in
      Done (set_bgd fs i (with_used_dirs b (u16 (bg_used_dirs_count b - 1))))
    else Done fs
  else Done fs.

(** ** Inodes on the device *)

Definition word_ok (x : Z) : Prop := 0 <= x < 2 ^ 32.
Definition half_ok (x : Z) : Prop := 0 <= x < 2 ^ 16.

Record inode_ok (i : ext2_inode_t) : Prop := {
  io_halves : Forall half_ok [i_mode i; i_uid i; i_gid i; i_nlink i];
  io_words : Forall word_ok [i_size i; i_atime i; i_ctime i; i_mtime i; i_dtime i; i_blocks i; i_flags i; i_osd1 i; i_gen i; i_file_acl i; i_dir_acl i; i_faddr i];
  io_addr : length (i_addr i) = 15%nat /\ Forall word_ok (i_addr i);
  io_osd2 : length (i_osd2 i) = 12%nat /\ Forall (fun b => 0 <= b < 256) (i_osd2 i)
}.

Lemma word_join x : word_ok x -> u8 x + 2 ^ 8 * u8 (Z.shiftr x 8) + 2 ^ 16 * u8 (Z.shiftr x 16) + 2 ^ 24 * u8 (Z.shiftr x 24) = x.
Proof.
  intros Hx. pose proof (put_word_dword (MkDisk ∅ []) 0 x Hx) as H. unfold dword in H. rewrite !put_word_byte in H.
  rewrite !decide_True in H by lia. simpl in H. rewrite Z.shiftr_0_r in H. exact H.
Qed.

Lemma half_join x : half_ok x -> u8 x + 2 ^ 8 * u8 (Z.shiftr x 8) = x.
Proof.
  intros Hx. unfold half_ok in Hx. pose proof (word_join x) as H. unfold word_ok in H. specialize (H ltac:(lia)).
  rewrite (Z.shiftr_div_pow2 x 16), (Z.shiftr_div_pow2 x 24) in H by lia. rewrite (Z.div_small x (2 ^ 16)), (Z.div_small x (2 ^ 24)) in H by lia. change (u8 0) with 0 in H. lia.
Qed.

Lemma inode_bytes i : inode_ok i -> length (bytes_of_inode i) = Z.to_nat INODE_SZ /\ inode_of_bytes (bytes_of_inode i) = i.
Proof.
  intros [Hh Hw [Hl Ha] [Ho _]]. destruct i as [mo ui si at_ ct mt dt gi nl bl fl o1 ad ge fa da fd o2]. cbn [i_mode i_uid i_size i_atime i_ctime i_mtime i_dtime i_gid i_nlink i_blocks i_flags i_osd1 i_addr i_gen i_file_acl i_dir_acl i_faddr i_osd2] in *.
  do 15 (destruct ad as [|? ad]; [discriminate Hl|]). destruct ad; [|discriminate Hl].
  do 12 (destruct o2 as [|? o2]; [discriminate Ho|]). destruct o2; [|discriminate Ho].
  split; [reflexivity|]. repeat (rewrite Forall_cons in Hh). repeat (rewrite Forall_cons in Hw). repeat (rewrite Forall_cons in Ha). destruct_and?.
  unfold inode_of_bytes, bytes_of_inode, half_at, word_at, half_bytes, int_bytes. cbn -[u8 Z.shiftr Z.pow Z.mul Z.add].
  rewrite !word_join by done. rewrite !half_join by done. reflexivity.
Qed.

Lemma int_bytes_range x : Forall (fun b => 0 <= b < 256) (int_bytes x).
Proof. unfold int_bytes. repeat (apply Forall_cons; split; [apply u8_bound|]). by apply Forall_nil. Qed.
Lemma half_bytes_range x : Forall (fun b => 0 <= b < 256) (half_bytes x).
Proof. unfold half_bytes. repeat (apply Forall_cons; split; [apply u8_bound|]). by apply Forall_nil. Qed.

Lemma inode_bytes_range i : inode_ok i -> Forall (fun b => 0 <= b < 256) (bytes_of_inode i).
Proof.
  intros Hi. destruct (io_osd2 _ Hi) as [_ Ho]. unfold bytes_of_inode. repeat (apply Forall_app; split); try apply int_bytes_range; try apply half_bytes_range; [|done].
  induction (i_addr i) as [|a l IH]; [done|]. simpl. do 4 (apply Forall_cons; split; [apply u8_bound|]). exact IH.
Qed.

(** What a vnode needs for its inode to have room for it. *)
Record vnode_ok (fs : ext2_fs_t) (v : vnode_t) : Prop := {
  vo_ids : Forall half_ok [v_uid v; v_gid v; v_mode v; v_nlink v];
  vo_times : Forall (fun t => - 2 ^ 31 <= t < 2 ^ 31) [v_atime v; v_ctime v; v_mtime v];
  vo_blocks : word_ok (n_blocks (vn v));
  vo_size : 0 <= n_size (vn v) < 2 ^ 64 /\
    ((EXT2_GOOD_OLD_REV <? s_rev_level (super fs)) && negb (S_ISDIR (v_mode v)) = false -> n_size (vn v) < 2 ^ 32)
}.

(** The fields of an inode that are not those of a vnode. *)
Record rest_ok (v : vnode_t) : Prop := {
  ro_words : Forall word_ok [i_flags (v_inode v); i_osd1 (v_inode v); i_gen (v_inode v); i_file_acl (v_inode v); i_dir_acl (v_inode v); i_faddr (v_inode v)];
  ro_osd2 : length (i_osd2 (v_inode v)) = 12%nat /\ Forall (fun b => 0 <= b < 256) (i_osd2 (v_inode v));
  ro_addr : length (i_block (vn v)) = 15%nat /\ Forall word_ok (i_block (vn v))
}.

Lemma word_wrap x : word_ok (u32 x).
Proof. apply (Z.mod_pos_bound x (2 ^ 32)). lia. Qed.
Lemma half_wrap x : half_ok (u16 x).
Proof. apply (Z.mod_pos_bound x (2 ^ 16)). lia. Qed.

Lemma synced_ok fs v now : rest_ok v -> inode_ok (synced fs v now).
Proof.
  intros [Hw Ho Ha]. repeat (rewrite Forall_cons in Hw). destruct Hw as (? & ? & ? & ? & ? & ? & _). split; [| |exact Ha|exact Ho]; simpl.
  - repeat (apply Forall_cons; split; [apply half_wrap|]). by apply Forall_nil.
  - repeat (apply Forall_cons; split); try apply word_wrap; try done; [| |].
    + change 0xFFFFFFFF with (Z.ones 32). rewrite Z.land_ones by lia. apply word_wrap.
    + destruct (_ =? _); [apply word_wrap|unfold word_ok; lia].
    + destruct (_ <? _); [apply word_wrap|done].
Qed.

(** What is written can be read; the rest of the device stays. *)
Lemma set_inode_run fs ino i off : inode_ok i -> ext2_inode_off fs ino = Done off ->
  exists err d, ext2_set_inode fs ino i = Done (err, set_dev fs d) /\ (faults (dev fs) = [] -> err = 0 /\ faults d = []) /\
    (err <> 0 -> content d = content (dev fs)) /\
    (forall o, ~ off <= o < off + INODE_SZ -> byte d o = byte (dev fs) o) /\ (err = 0 -> read_bytes d off INODE_SZ = bytes_of_inode i).
Proof.
  intros Hi Ho. destruct (inode_bytes i Hi) as [Hl _]. unfold ext2_set_inode. rewrite Ho. cbn [rbind]. unfold bwrite.
  destruct (next_fault_spec (dev fs)) as (err & d & -> & Hc & Hf). destruct (Z.eqb_spec err 0) as [->|He].
  2: { exists err, d. split; [done|]. split; [intros E; by destruct (Hf E)|]. split; [done|]. split; [intros o _; by apply content_byte|done]. }
  exists 0. eexists. split; [done|]. split; [intros E; destruct (Hf E) as [_ ->]; done|]. split; [done|].
  assert (Hb : forall o, byte (MkDisk (put_bytes (content d) off (bytes_of_inode i)) (faults d)) o =
    if decide (off <= o < off + INODE_SZ) then bytes_of_inode i !!! Z.to_nat (o - off) else byte (dev fs) o).
  { intros o. rewrite byte_put, Hl. change (Z.of_nat (Z.to_nat INODE_SZ)) with INODE_SZ. destruct (decide _); [done|].
    rewrite <- (content_byte _ _ Hc). by destruct d. }
  split; [intros o Hout; by rewrite Hb, decide_False|]. intros _. apply list_eq_same_length with (Z.to_nat INODE_SZ); [done| |].
  { pose proof (read_length (MkDisk (put_bytes (content d) off (bytes_of_inode i)) (faults d)) off INODE_SZ ltac:(done)). lia. }
  intros j x y Hj Hx Hy. rewrite <- (Nat2Z.id j) in Hx. rewrite read_lookup in Hx by (unfold INODE_SZ in *; lia). rewrite Hb, decide_True in Hx by (unfold INODE_SZ in *; lia).
  replace (off + Z.of_nat j - off) with (Z.of_nat j) in Hx by lia. rewrite Nat2Z.id in Hx. rewrite (list_lookup_total_correct _ _ _ Hy) in Hx. congruence.
Qed.

Lemma get_inode_run fs ino off : ext2_inode_off fs ino = Done off ->
  exists err i fs', ext2_get_inode fs ino = Done (err, i, fs') /\ (faults (dev fs) = [] -> err = 0) /\
    super fs' = super fs /\ (err = 0 -> i = inode_of_bytes (read_bytes (dev fs) off INODE_SZ)).
Proof.
  intros Ho. unfold ext2_get_inode. rewrite Ho. cbn [rbind]. unfold bread. destruct (next_fault_spec (dev fs)) as (err & d & -> & Hc & Hf).
  destruct (Z.eqb_spec err 0) as [->|He]; do 3 eexists; (split; [reflexivity|]); (split; [intros E; by destruct (Hf E)|]); (split; [done|]); [|done].
  intros _. unfold read_bytes. f_equal. apply list_fmap_ext. intros ? x _. by apply content_byte.
Qed.

Lemma s32_wrap x : - 2 ^ 31 <= x < 2 ^ 31 -> s32 (u32 x) = x.
Proof.
  intros Hx. unfold s32, u32, wrap. rewrite Z.mod_mod by lia. destruct (Z.lt_ge_cases x 0).
  - rewrite <- (Z.mod_unique x (2 ^ 32) (-1) (x + 2 ^ 32)) by lia. rewrite (proj2 (Z.ltb_ge _ _)) by lia. lia.
  - rewrite Z.mod_small by lia. by rewrite (proj2 (Z.ltb_lt _ _)) by lia.
Qed.

Lemma half_small x : half_ok x -> u16 x = x.
Proof. intros Hx. by apply Z.mod_small. Qed.

Lemma size_halves x : 0 <= x < 2 ^ 64 -> Z.lor (Z.land x 0xFFFFFFFF) (Z.shiftl (u32 (Z.shiftr x 32)) 32) = x.
Proof.
  intros Hx. rewrite Z.shiftr_div_pow2 by lia. rewrite u32_small by (split; [apply Z.div_pos; lia|apply Z.div_lt_upper_bound; lia]).
  rewrite <- Z.shiftr_div_pow2 by lia. change 0xFFFFFFFF with (Z.ones 32). rewrite <- Z.ldiff_ones_r by lia.
  apply Z.bits_inj'. intros j Hj. rewrite Z.lor_spec, Z.land_spec, Z.ldiff_spec. rewrite Z.testbit_ones_nonneg by lia. destruct (Z.testbit x j), (j <? 32); done.
Qed.

(** The vnode that is read from a synced inode. *)
Lemma vget_synced fs v now : vnode_ok fs v ->
  let i := synced fs v now in
  let size := if (EXT2_GOOD_OLD_REV <? s_rev_level (super fs)) && negb (S_ISDIR (i_mode i))
    then Z.lor (i_size i) (Z.shiftl (i_dir_acl i) 32) else i_size i in
  MkVnode (MkNode (n_ino (vn v)) size (i_blocks i) (i_addr i)) (i_uid i) (i_gid i) (i_mode i) (i_nlink i)
    (s32 (i_atime i)) (s32 (i_ctime i)) (s32 (i_mtime i)) false i = set_inode (set_dirty v false) i.
Proof.
  intros [Hids Ht Hb [Hs Hs']]. repeat (rewrite Forall_cons in Hids). repeat (rewrite Forall_cons in Ht).
  destruct Hids as (Hu & Hg & Hm & Hn & _). destruct Ht as (Ha & Hc & Hmt & _). destruct v as [[ino sz bl ad] u g m nl at_ ct mt di i]. simpl in *.
  unfold set_inode. simpl. rewrite !half_small by done. rewrite !s32_wrap by done. rewrite (u32_small bl) by done. f_equal. f_equal.
  change EXT2_GOOD_OLD_REV with 0 in *. destruct (0 <? s_rev_level (super fs)) eqn:Er; simpl in *.
  - destruct (S_ISDIR m); simpl in *; [|by apply size_halves].
    change 0xFFFFFFFF with (Z.ones 32). rewrite Z.land_ones by lia. apply Z.mod_small. specialize (Hs' eq_refl). lia.
  - change 0xFFFFFFFF with (Z.ones 32). rewrite Z.land_ones by lia. apply Z.mod_small. specialize (Hs' eq_refl). lia.
Qed.


(** ** Blocks are freed *)

(** The blocks [P] are freed, those the device fails for excepted. *)
Record frees (P : Z -> Prop) (fs fs' : ext2_fs_t) : Prop := {
  fr_ok : fs_ok fs';
  fr_skel : skeleton fs' = skeleton fs;
  fr_same : forall b, 0 <= b < total fs -> ~ P b -> used fs' b = used fs b;
  fr_less : forall b, 0 <= b < total fs -> used fs b = false -> used fs' b = false;
  fr_all : faults (dev fs) = [] -> faults (dev fs') = [] /\ forall b, 0 <= b < total fs -> P b -> used fs' b = false;
  fr_bytes : forall o, ~ is_bitmap fs (o / blksz (geom fs)) -> byte (dev fs') o = byte (dev fs) o
}.

Lemma frees_iff P Q fs fs' : (forall b, P b <-> Q b) -> frees P fs fs' -> frees Q fs fs'.
Proof.
  intros Hiff [H1 H2 H3 H4 H5 H6]. split; try done.
  - intros b Hb Hn. apply H3; [done|]. by rewrite Hiff.
  - intros E. destruct (H5 E) as [? Hall]. split; [done|]. intros b Hb Hq. apply Hall; [done|]. by apply Hiff.
Qed.

Lemma frees_content P fs d : fs_ok fs -> content d = content (dev fs) -> (faults (dev fs) = [] -> d = dev fs /\ forall b, ~ P b) -> frees P fs (set_dev fs d).
Proof.
  intros Hok Hc Hf. pose proof (keeps_content fs fs d (keeps_refl _ Hok) Hc) as Hk. split; [apply Hk|done| | | |].
  - intros b _ _. by apply used_content.
  - intros b _. by rewrite used_content.
  - intros E. destruct (Hf E) as [-> Hn]. split; [done|]. intros b _ Hb. by destruct (Hn b).
  - intros o _. by apply content_byte.
Qed.

Lemma frees_none (P : Z -> Prop) fs : fs_ok fs -> (forall b, ~ P b) -> frees P fs fs.
Proof. intros Hok Hn. split; try done. intros E. split; [done|]. intros b _ Hb. by destruct (Hn b). Qed.

Lemma frees_trans P Q fs fs1 fs2 : frees P fs fs1 -> frees Q fs1 fs2 -> frees (fun b => P b \/ Q b) fs fs2.
Proof.
  intros [H1 H2 H3 H4 H5 H6] [G1 G2 G3 G4 G5 G6]. destruct (same_geom _ _ H2) as [Eg Et]. rewrite Et in *. rewrite Eg in *. split; [done|congruence| | | |].
  - intros b Hb Hn. rewrite G3, H3; try done; intros ?; apply Hn; [by left|by right].
  - intros b Hb Hu. apply G4; [done|]. by apply H4.
  - intros E. destruct (H5 E) as [E1 HP]. destruct (G5 E1) as [E2 HQ]. split; [done|]. intros b Hb [?|?]; [|by apply HQ]. apply G4; [done|]. by apply HP.
  - intros o Ho. rewrite G6, H6; try done. by rewrite (skeleton_bitmap _ _ _ H2).
Qed.

Lemma bfree_frees fs b : fs_ok fs -> owned fs b -> exists fs', ext2_bfree fs b = Done fs' /\ frees (eq b) fs fs'.
Proof.
  intros Hok (Hr & Hu & Hb). destruct (bfree_run fs b Hok ltac:(lia) Hu) as (fs' & -> & Hc). exists fs'. split; [done|].
  destruct Hc as [Hm|[Hm Hf]].
  - assert (Hok' : fs_ok fs').
    { eapply marks_ok; [done..|]. intros c. unfold at_block. destruct (decide (c = b)) as [->|]; [|done]. intros _. split; [lia|done]. }
    destruct Hm as (Hs & _ & Hf & Hu' & Ho). unfold at_block in Hu'. split; try done.
    + intros c Hc Hne. rewrite Hu' by done. rewrite decide_False by congruence. done.
    + intros c Hc E. rewrite Hu' by done. by destruct (decide _).
    + intros E. split; [auto|]. intros c Hc <-. rewrite Hu' by done. by rewrite decide_True.
  - assert (Hok' : fs_ok fs') by by eapply marks_ok. destruct Hm as (Hs & _ & Hf' & Hu' & Ho). split; try done.
    + intros c Hc _. by apply Hu'.
    + intros c Hc E. by rewrite Hu'.
Qed.

Section Release.
Context (fs0 : ext2_fs_t) (n : ext2_node) (Hok0 : fs_ok fs0) (Hg0 : geom_ok (geom fs0)) (Ht0 : tree_ok fs0 n).

(** The blocks at and below a position. *)
Definition subtree (r : Z) (p : list Z) (b : Z) : Prop := exists q, position fs0 r (p ++ q) /\ node fs0 n r (p ++ q) = b /\ b <> 0.

Lemma node_below r p q : node fs0 n r p = 0 -> node fs0 n r (p ++ q) = 0.
Proof.
  intros H0. induction q as [|i q IH] using rev_ind; [by rewrite app_nil_r|]. rewrite app_assoc, node_snoc, IH. done.
Qed.

Lemma subtree_empty r p : node fs0 n r p = 0 -> forall b, ~ subtree r p b.
Proof. intros H0 b (q & _ & E & Hb). by rewrite node_below in E. Qed.

Lemma subtree_leaf r p : position fs0 r p -> length p = depth r -> node fs0 n r p <> 0 -> forall b, node fs0 n r p = b <-> subtree r p b.
Proof.
  intros Hp Hl H0 b. split; [intros <-; exists []; by rewrite app_nil_r|]. intros (q & (_ & Hq & _) & E & _). rewrite length_app in Hq.
  destruct q; [by rewrite app_nil_r in E|simpl in Hq; lia].
Qed.

Lemma subtree_split r p : position fs0 r p -> node fs0 n r p <> 0 ->
  forall b, subtree r p b <-> (exists j, 0 <= j < addr_per_blk (geom fs0) /\ subtree r (p ++ [j]) b) \/ node fs0 n r p = b.
Proof.
  intros Hp H0 b. split.
  - intros ([|j q] & Hq & E & Hb); [right; by rewrite app_nil_r in E|]. left. exists j. split.
    + destruct Hq as (_ & _ & Hall). apply Forall_app in Hall as [_ Hall]. by inversion Hall.
    + exists q. by rewrite <- app_assoc.
  - intros [(j & _ & q & Hq & E & Hb)|<-].
    + exists (j :: q). by rewrite <- app_assoc in Hq, E.
    + exists []. by rewrite app_nil_r.
Qed.

Lemma subtree_disjoint r p r' p' b : subtree r p b -> subtree r' p' b -> r = r' /\ exists q q', p ++ q = p' ++ q'.
Proof.
  intros (q & Hq & E & Hb) (q' & Hq' & E' & _). destruct (t_inj _ _ Ht0 r (p ++ q) r' (p' ++ q') Hq Hq') as [-> Epq]; [congruence|congruence|]. eauto.
Qed.

Lemma frees_slot P fs b j : frees P fs0 fs -> ~ is_bitmap fs0 b -> 0 <= j < addr_per_blk (geom fs0) -> slot fs b j = slot fs0 b j.
Proof.
  intros Hf Hb Hj. destruct (same_geom _ _ (fr_skel _ _ _ Hf)) as [Eg _]. unfold slot. rewrite Eg. apply dword_same. intros o Ho.
  apply (fr_bytes _ _ _ Hf). by rewrite (slot_block _ _ _ _ Hg0 Hj Ho).
Qed.

(** A block of the tree that was not freed yet. *)
Lemma frees_owned P fs r p : frees P fs0 fs -> position fs0 r p -> node fs0 n r p <> 0 -> ~ P (node fs0 n r p) -> owned fs (node fs0 n r p).
Proof.
  intros Hf Hp H0 Hn. destruct (t_node _ _ Ht0 r p Hp H0) as (Hr & Hu & Hb). destruct (same_geom _ _ (fr_skel _ _ _ Hf)) as [_ Et].
  split; [lia|]. split; [rewrite (fr_same _ _ _ Hf) by (lia || done); done|]. by rewrite (skeleton_bitmap _ _ _ (fr_skel _ _ _ Hf)).
Qed.

(** The body of the loop for a block that is not 0. *)
Definition sub_run (sub : option (ext2_fs_t -> Z -> Z -> Z -> res (Z * ext2_fs_t * Z))) (fs : ext2_fs_t) (b off count : Z) : res (Z * ext2_fs_t * Z) :=
  match sub with
  | None => let* fs := ext2_bfree fs b in Done (0, fs, count + EXT2_IBLKS (geom fs))
  | Some f => f fs b off count
  end.

Lemma trunc_loop_cons sub b l fs off count allerr : trunc_loop sub (b :: l) fs off count allerr =
  if b =? 0 then trunc_loop sub l fs 0 count allerr
  else let* '(err, fs, count) := sub_run sub fs b off count in trunc_loop sub l fs 0 count (if negb (err =? 0) then err else allerr).
Proof. simpl. destruct (b =? 0); [done|]. destruct sub; [done|]. simpl. by destruct (ext2_bfree fs b). Qed.

(** Truncating what is below position [p], with the blocks [P] freed before. *)
Definition release_ok (f : ext2_fs_t -> Z -> Z -> Z -> res (Z * ext2_fs_t * Z)) (r : Z) (p : list Z) : Prop :=
  forall P fs count, frees P fs0 fs -> (forall b, subtree r p b -> ~ P b) -> node fs0 n r p <> 0 ->
  exists err fs' count', f fs (node fs0 n r p) 0 count = Done (err, fs', count') /\ frees (subtree r p) fs fs' /\ (faults (dev fs) = [] -> err = 0).

Lemma leaf_release r p : position fs0 r p -> length p = depth r -> release_ok (sub_run None) r p.
Proof.
  intros Hp Hl P fs count Hf Hd H0. simpl. pose proof (subtree_leaf r p Hp Hl H0) as Hiff.
  destruct (bfree_frees fs (node fs0 n r p)) as (fs' & -> & Hfr); [apply Hf|eapply frees_owned; try done; apply Hd; by apply Hiff|]. simpl.
  do 3 eexists. split; [done|]. split; [|done]. by eapply frees_iff.
Qed.

Lemma loop_release sub r p : position fs0 r p -> (length p < depth r)%nat -> node fs0 n r p <> 0 ->
  (forall j, 0 <= j < addr_per_blk (geom fs0) -> release_ok (sub_run sub) r (p ++ [j])) ->
  forall m i P fs count allerr, frees P fs0 fs -> 0 <= i -> i + Z.of_nat m = addr_per_blk (geom fs0) ->
  (forall j b, i <= j < addr_per_blk (geom fs0) -> subtree r (p ++ [j]) b -> ~ P b) ->
  exists err fs' count', trunc_loop sub (slot fs0 (node fs0 n r p) <$> seqZ i (Z.of_nat m)) fs 0 count allerr = Done (err, fs', count') /\
    frees (fun b => exists j, i <= j < addr_per_blk (geom fs0) /\ subtree r (p ++ [j]) b) fs fs' /\ (faults (dev fs) = [] -> err = allerr).
Proof.
  intros Hp Hl H0 Hsub. induction m as [|m IH]; intros i P fs count allerr Hf Hi Him Hd.
  { do 3 eexists. split; [done|]. split; [|done]. apply frees_none; [apply Hf|]. intros b (j & Hj & _). lia. }
  rewrite Nat2Z.inj_succ. rewrite seqZ_cons by lia. rewrite fmap_cons, trunc_loop_cons. replace (Z.pred (Z.succ (Z.of_nat m))) with (Z.of_nat m) by lia.
  assert (Ec : slot fs0 (node fs0 n r p) i = node fs0 n r (p ++ [i])) by (rewrite node_snoc; unfold child; by rewrite (proj2 (Z.eqb_neq _ 0) H0)).
  assert (Hsplit : forall b, subtree r (p ++ [i]) b \/ (exists j, Z.succ i <= j < addr_per_blk (geom fs0) /\ subtree r (p ++ [j]) b) <->
    exists j, i <= j < addr_per_blk (geom fs0) /\ subtree r (p ++ [j]) b).
  { intros b. split; [intros [?|(j & ? & ?)]; [exists i; split; [lia|done]|exists j; split; [lia|done]]|].
    intros (j & Hj & Hs). destruct (decide (j = i)) as [->|]; [by left|]. right. exists j. split; [lia|done]. }
  rewrite Ec. destruct (Z.eqb_spec (node fs0 n r (p ++ [i])) 0) as [E|E].
  - destruct (IH (Z.succ i) P fs count allerr Hf ltac:(lia) ltac:(lia)) as (err & fs' & count' & -> & Hfr & He); [intros j b Hj; apply Hd; lia|].
    do 3 eexists. split; [done|]. split; [|done]. eapply frees_iff; [|exact Hfr]. intros b. rewrite <- Hsplit. split; [by right|].
    intros [Hs|?]; [by destruct (subtree_empty r (p ++ [i]) E b)|done].
  - destruct (Hsub i ltac:(lia) P fs count Hf) as (e1 & fs1 & c1 & -> & Hf1 & He1); [intros b; apply Hd; lia|done|]. cbn [rbind].
    destruct (IH (Z.succ i) (fun b => P b \/ subtree r (p ++ [i]) b) fs1 c1 (if negb (e1 =? 0) then e1 else allerr)) as (err & fs' & count' & -> & Hfr & He).
    + by eapply frees_trans.
    + lia.
    + lia.
    + intros j b Hj Hs [HP|Hs']; [by eapply Hd; [|exact Hs|]; [lia|]|]. destruct (subtree_disjoint _ _ _ _ _ Hs Hs') as (_ & q & q' & Eq).
      rewrite <- !app_assoc in Eq. apply app_inv_head in Eq. injection Eq as Eq _. lia.
    + do 3 eexists. split; [done|]. split; [eapply frees_iff; [exact Hsplit|by eapply frees_trans]|].
      intros Ef. rewrite (He (proj1 (fr_all _ _ _ Hf1 Ef))). by rewrite (He1 Ef).
Qed.

Lemma block_size : blksz (geom fs0) = 4 * addr_per_blk (geom fs0) /\ 0 <= addr_per_blk (geom fs0).
Proof.
  destruct Hg0 as [[Hs Hsz] _ Ha]. rewrite Hsz, Ha. split; [|apply Z.pow_nonneg; lia]. change 4 with (2 ^ 2). rewrite <- Z.pow_add_r by lia. f_equal. lia.
Qed.

(** The words of a block of addresses. *)
Lemma block_words P fs d r p : frees P fs0 fs -> content d = content (dev fs) -> position fs0 r p -> node fs0 n r p <> 0 ->
  word_at (read_bytes d (node fs0 n r p * blksz (geom fs0)) (blksz (geom fs0))) <$> seq 0 (Z.to_nat (addr_per_blk (geom fs0))) =
  slot fs0 (node fs0 n r p) <$> seqZ 0 (addr_per_blk (geom fs0)).
Proof.
  intros Hf Hc Hp H0. destruct block_size as [Ebs Ha]. destruct (t_node _ _ Ht0 r p Hp H0) as (_ & _ & Hb). destruct (same_geom _ _ (fr_skel _ _ _ Hf)) as [Eg _].
  apply list_eq_same_length with (Z.to_nat (addr_per_blk (geom fs0))); [by rewrite length_fmap, length_seqZ|by rewrite length_fmap, length_seq|].
  intros j x y Hj Hx Hy. rewrite list_lookup_fmap, lookup_seqZ_lt in Hy by lia. rewrite list_lookup_fmap, lookup_seq_lt in Hx by lia. simpl in Hx, Hy.
  injection Hx as <-. injection Hy as <-. rewrite <- (Nat2Z.id j) at 1. rewrite read_word by lia. rewrite <- (frees_slot P fs _ _ Hf Hb) by lia.
  unfold slot. rewrite Eg. apply dword_same. intros o _. by apply content_byte.
Qed.

Lemma indir_release k : forall r p, position fs0 r p -> (depth r = length p + S k)%nat -> release_ok (ext2_trunc_indir (S k)) r p.
Proof.
  induction k as [k IH] using lt_wf_ind. intros r p Hp Hl P fs count Hf Hd H0. pose proof (frees_owned P fs r p Hf Hp H0) as Hown.
  assert (Hself : subtree r p (node fs0 n r p)) by (exists []; by rewrite app_nil_r). specialize (Hown (Hd _ Hself)).
  destruct (same_geom _ _ (fr_skel _ _ _ Hf)) as [Eg Et]. pose proof (fr_ok _ _ _ Hf) as Hok. set (B := node fs0 n r p) in *.
  destruct block_size as [Ebs Ha]. pose proof (blksz_pos _ Hok) as Hsz. pose proof (f_size _ Hok) as [_ Hlim]. pose proof Hown as (HB & _).
  cbn [ext2_trunc_indir]. rewrite (proj2 (Z.eqb_neq B 0) H0). rewrite (boff_run fs (f_shift _ Hok)) by (lia || nia). cbn [rbind]. rewrite Z.add_0_r.
  unfold bread. destruct (next_fault_spec (dev fs)) as (e & d & -> & Hc & Hfa). destruct (Z.eqb_spec e 0) as [->|He].
  2: { rewrite (proj2 (Z.eqb_neq e 0) He). simpl. exists e, (set_dev fs d), count. split; [done|]. split; [|intros E; by destruct (Hfa E)].
       apply frees_content; [done..|]. intros E. by destruct (Hfa E). }
  cbn [negb Z.eqb]. change (geom (set_dev fs d)) with (geom fs). rewrite Eg. pose proof (block_words P fs d r p Hf Hc Hp H0) as Ew. fold B in Ew. rewrite Ew. clear Ew.
  rewrite Z.shiftr_0_l. change (Z.to_nat 0) with 0%nat. rewrite drop_0, Z.land_0_l.
  assert (Hf1 : frees P fs0 (set_dev fs d)).
  { eapply frees_iff; [|eapply frees_trans; [exact Hf|apply (frees_content (fun _ => False)); [done..|intros E; split; [by destruct (Hfa E)|tauto]]]]. tauto. }
  set (sub := match k with O => None | S _ => Some (ext2_trunc_indir k) end).
  assert (Hsub : forall j, 0 <= j < addr_per_blk (geom fs0) -> release_ok (sub_run sub) r (p ++ [j])).
  { intros j Hj. assert (Hpj : position fs0 r (p ++ [j])).
    { destruct Hp as (? & ? & Hall). split; [done|]. rewrite length_app. simpl. split; [lia|]. apply Forall_app. split; [done|by apply Forall_singleton]. }
    destruct k as [|k]; [apply leaf_release; [done|rewrite length_app; simpl; lia]|]. apply (IH k); [lia|done|rewrite length_app; simpl; lia]. }
  destruct (loop_release sub r p Hp ltac:(lia) H0 Hsub (Z.to_nat (addr_per_blk (geom fs0))) 0 P (set_dev fs d) count 0 Hf1) as (err & fs2 & c2 & El & Hf2 & He2);
    [lia|lia|intros j b Hj Hs; apply Hd; apply subtree_split; [done..|]; left; by exists j|].
  rewrite Z2Nat.id in El by lia. fold B in El. rewrite El. cbn [rbind Z.eqb].
  assert (HB2 : owned fs2 B).
  { pose proof (frees_trans _ _ _ _ _ Hf1 Hf2) as Hf12. eapply frees_owned; [exact Hf12|done..|]. intros [HP|(j & _ & Hs)]; [by apply (Hd B Hself)|].
    destruct Hs as (q & Hq & E & _). destruct (t_inj _ _ Ht0 r _ r p Hq Hp ltac:(rewrite E; done) E) as [_ Eq]. apply (f_equal length) in Eq. rewrite !length_app in Eq. simpl in Eq. lia. }
  destruct (bfree_frees fs2 B (fr_ok _ _ _ Hf2) HB2) as (fs3 & -> & Hf3). cbn [rbind]. do 3 eexists. split; [done|]. split.
  - eapply frees_iff; [|eapply frees_trans; [|exact Hf3]; eapply frees_trans; [apply (frees_content (fun _ => False) fs d); [done..|intros E; split; [by destruct (Hfa E)|tauto]]|exact Hf2]].
    intros b. rewrite (subtree_split r p Hp H0 b). fold B. tauto.
  - intros E. apply He2. simpl. destruct (Hfa E) as [_ ->]. done.
Qed.

(** A root, also one that is 0. *)
Lemma root_release k r P fs count : 0 <= r < EXT2_N_BLOCKS -> depth r = S k -> frees P fs0 fs -> (forall b, subtree r [] b -> ~ P b) ->
  exists err fs' count', ext2_trunc_indir (S k) fs (root n r) 0 count = Done (err, fs', count') /\ frees (subtree r []) fs fs' /\ (faults (dev fs) = [] -> err = 0).
Proof.
  intros Hr Hd Hf Hn. change (root n r) with (node fs0 n r []). destruct (Z.eq_dec (node fs0 n r []) 0) as [E|E].
  - rewrite E. exists 0, fs, count. split; [done|]. split; [|done]. apply frees_none; [apply Hf|]. by apply subtree_empty.
  - apply (indir_release k r [] ltac:(split; [done|]; split; [simpl; lia|done]) Hd P fs count Hf Hn E).
Qed.

Lemma subtree_root_inj r r' b : subtree r [] b -> subtree r' [] b -> r = r'.
Proof. intros H H'. by destruct (subtree_disjoint r [] r' [] b H H'). Qed.

(** The direct blocks from [i] on. *)
Lemma direct_release m : forall i P fs count, 0 <= i -> i + Z.of_nat m = EXT2_NDIR_BLOCKS -> frees P fs0 fs ->
  (forall r b, i <= r < EXT2_NDIR_BLOCKS -> subtree r [] b -> ~ P b) ->
  exists fs' count', free_direct (root n <$> seqZ i (Z.of_nat m)) i 0 fs count = Done (fs', count') /\
    frees (fun b => exists r, i <= r < EXT2_NDIR_BLOCKS /\ subtree r [] b) fs fs'.
Proof.
  induction m as [|m IH]; intros i P fs count Hi Him Hf Hn.
  { do 2 eexists. split; [done|]. apply frees_none; [apply Hf|]. intros b (r & Hr & _). lia. }
  rewrite Nat2Z.inj_succ, seqZ_cons by lia. replace (Z.pred (Z.succ (Z.of_nat m))) with (Z.of_nat m) by lia. cbn [fmap list_fmap free_direct].
  rewrite (proj2 (Z.leb_le 0 i)) by lia. cbn [andb].
  assert (Hsplit : forall b, subtree i [] b \/ (exists r, Z.succ i <= r < EXT2_NDIR_BLOCKS /\ subtree r [] b) <-> exists r, i <= r < EXT2_NDIR_BLOCKS /\ subtree r [] b).
  { intros b. split; [intros [?|(r & ? & ?)]; [exists i; split; [lia|done]|exists r; split; [lia|done]]|].
    intros (r & Hr & Hs). destruct (decide (r = i)) as [->|]; [by left|]. right. exists r. split; [lia|done]. }
  change (list_fmap Z Z (root n)) with (fmap (M := list) (root n)). change (i + 1) with (Z.succ i). destruct (Z.eqb_spec (root n i) 0) as [E|E]; cbn [negb].
  - destruct (IH (Z.succ i) P fs count ltac:(lia) ltac:(lia) Hf) as (fs' & c' & -> & Hfr); [intros r b Hr; apply Hn; lia|].
    do 2 eexists. split; [done|]. eapply frees_iff; [|exact Hfr]. intros b. rewrite <- Hsplit. split; [by right|]. intros [Hs|?]; [by destruct (subtree_empty i [] E b)|done].
  - assert (Hpi : position fs0 i []).
    { split; [unfold EXT2_N_BLOCKS, EXT2_TIND_BLOCK, EXT2_DIND_BLOCK, EXT2_IND_BLOCK; lia|]. split; [simpl; lia|done]. }
    assert (Hdi : length ([] : list Z) = depth i) by (unfold depth; by rewrite (proj2 (Z.ltb_lt i EXT2_NDIR_BLOCKS)) by lia).
    destruct (leaf_release i [] Hpi Hdi P fs count Hf ltac:(intros b; apply Hn; lia) E) as (e & fs1 & c1 & E1 & Hf1 & _).
    unfold sub_run in E1. change (node fs0 n i []) with (root n i) in E1. destruct (ext2_bfree fs (root n i)) as [fs1'| | |]; try discriminate E1. injection E1 as _ -> <-. cbn [rbind].
    destruct (IH (Z.succ i) (fun b => P b \/ subtree i [] b) fs1 (count + EXT2_IBLKS (geom fs1)) ltac:(lia) ltac:(lia)) as (fs' & c' & -> & Hfr).
    + by eapply frees_trans.
    + intros r b Hr Hs [HP|Hs']; [by apply (Hn r b ltac:(lia) Hs)|]. pose proof (subtree_root_inj _ _ _ Hs Hs'). lia.
    + do 2 eexists. split; [done|]. eapply frees_iff; [exact Hsplit|]. by eapply frees_trans.
Qed.
End Release.

(** ** Truncation to nothing *)

(** The inode of a node lies in one block, which is neither a bitmap nor a block of
    the file. *)
Record inode_place (fs : ext2_fs_t) (n : ext2_node) (off : Z) : Prop := {
  ip_off : ext2_inode_off fs (u32 (n_ino n)) = Done off;
  ip_block : forall o, off <= o < off + INODE_SZ -> o / blksz (geom fs) = off / blksz (geom fs);
  ip_bitmap : ~ is_bitmap fs (off / blksz (geom fs));
  ip_node : forall r p, position fs r p -> node fs n r p <> 0 -> node fs n r p <> off / blksz (geom fs)
}.

Lemma inode_off_skel fs fs' ino : skeleton fs' = skeleton fs -> ext2_inode_off fs' ino = ext2_inode_off fs ino.
Proof.
  intros E. destruct (skeleton_geom _ _ E) as (Eg & _ & _ & Ei). unfold ext2_inode_off, get_bgd. rewrite Eg, Ei.
  set (i := u32 (ino - 1) / s_inodes_per_group (super fs)). destruct (0 <=? i); [|done]. injection E as _ _ _ El.
  apply (f_equal (fun l => l !! Z.to_nat i)) in El. rewrite !list_lookup_fmap in El.
  destruct (bgds fs' !! Z.to_nat i) as [b'|], (bgds fs !! Z.to_nat i) as [b|]; try discriminate El; [|done]. simpl in *. by injection El as _ _ -> _.
Qed.

Lemma sync_run fs v now off : fs_ok fs -> rest_ok v -> v_dirty v = true -> inode_place fs (vn v) off ->
  exists err d i, vnode_sync fs v now = Done (err, set_dev fs d, set_inode (set_dirty v false) i) /\ i = synced fs v now /\
    fs_ok (set_dev fs d) /\ (forall b, 0 <= b < total fs -> used (set_dev fs d) b = used fs b) /\
    (forall o, ~ off <= o < off + INODE_SZ -> byte d o = byte (dev fs) o) /\
    (faults (dev fs) = [] -> err = 0 /\ faults d = []) /\ (err = 0 -> read_bytes d off INODE_SZ = bytes_of_inode i).
Proof.
  intros Hok Hr Hd Hp. unfold vnode_sync, ext2_vn_sync. rewrite Hd. change (vn (set_inode _ _)) with (vn v). change (v_inode (set_inode _ ?i)) with i.
  change (synced fs (set_dirty v false) now) with (synced fs v now). pose proof (synced_ok fs v now Hr) as Hi. set (i := synced fs v now) in *.
  destruct (set_inode_run fs _ i off Hi (ip_off _ _ _ Hp)) as (err & d & -> & Hf & Hne & Hout & Hin). cbn [rbind]. exists err, d, i. split; [done|]. split; [done|].
  assert (Hby : bytes_ok d).
  { intros o. destruct (decide (err = 0)) as [->|He]; [|rewrite (content_byte _ _ (Hne He)); apply Hok].
    destruct (decide (off <= o < off + INODE_SZ)) as [Ho|Ho]; [|rewrite Hout by done; apply Hok].
    pose proof (read_lookup d off INODE_SZ (o - off) ltac:(lia)) as Hl. rewrite (Hin eq_refl) in Hl. replace (off + (o - off)) with o in Hl by lia.
    exact (proj1 (Forall_lookup _ _) (inode_bytes_range i Hi) _ _ Hl). }
  destruct (dev_ok fs d Hok Hby) as [Hok' Hu]; [|by split_and!]. intros o Hbm. apply Hout. intros Ho. rewrite (ip_block _ _ _ Hp o Ho) in Hbm. by apply (ip_bitmap _ _ _ Hp).
Qed.

(** Writing the inode does not change the tree. *)
Lemma sync_node fs n d off : geom_ok (geom fs) -> tree_ok fs n -> inode_place fs n off -> (forall o, ~ off <= o < off + INODE_SZ -> byte d o = byte (dev fs) o) ->
  forall r p, position fs r p -> node (set_dev fs d) n r p = node fs n r p.
Proof.
  intros Hg Ht Hp Hout r p. induction p as [|i p IH] using rev_ind; intros Hpos; [done|]. apply position_snoc in Hpos as (Hpos & Hi & _).
  rewrite !node_snoc, IH by done. unfold child. destruct (Z.eqb_spec (node fs n r p) 0) as [|H0]; [done|]. unfold slot. apply dword_same. intros o Ho. apply Hout.
  intros Hin. apply (ip_node _ _ _ Hp r p Hpos H0). rewrite <- (ip_block _ _ _ Hp o Hin). symmetry. by eapply slot_block.
Qed.

Lemma sync_tree fs n d off : geom_ok (geom fs) -> tree_ok fs n -> inode_place fs n off -> (forall o, ~ off <= o < off + INODE_SZ -> byte d o = byte (dev fs) o) ->
  (forall b, 0 <= b < total fs -> used (set_dev fs d) b = used fs b) -> tree_ok (set_dev fs d) n.
Proof.
  intros Hg Ht Hp Hout Hu. pose proof (sync_node fs n d off Hg Ht Hp Hout) as Hn. split; [apply Ht| |].
  - intros r p Hpos. rewrite Hn by done. intros H0. destruct (t_node _ _ Ht r p Hpos H0) as (Hr & Hub & Hb). split; [done|]. split; [rewrite Hu; [done|lia]|done].
  - intros r p r' p' H1 H2. rewrite !Hn by done. by apply Ht.
Qed.

Lemma rest_synced fs v i now l : rest_ok v -> i = synced fs v now -> length l = 15%nat -> Forall word_ok l ->
  forall w, v_inode w = i -> i_block (vn w) = l -> rest_ok w.
Proof.
  intros [Hw Ho Ha] -> Hl1 Hl2 w Ei El. split; rewrite ?Ei, ?El; simpl; [|done|done]. repeat (rewrite Forall_cons in Hw). destruct Hw as (? & ? & ? & ? & ? & ? & _).
  repeat (apply Forall_cons; split; [done || (destruct (_ <? _); [apply word_wrap|done])|]). by apply Forall_nil.
Qed.

Lemma kept_zero g l : length l = 15%nat -> kept_roots g 0 l = replicate 15 0.
Proof.
  intros Hl. do 15 (destruct l as [|? l]; [discriminate Hl|]). destruct l; [|discriminate Hl]. unfold kept_roots, imap. simpl.
  rewrite !(proj2 (Z.leb_le 0 (u32 _))) by apply word_wrap. done.
Qed.

Lemma roots_of n : length (i_block n) = 15%nat -> take 12 (i_block n) = root n <$> seqZ 0 12 /\
  i_block n !! 12%nat = Some (root n 12) /\ i_block n !! 13%nat = Some (root n 13) /\ i_block n !! 14%nat = Some (root n 14).
Proof. intros Hl. unfold root. destruct (i_block n) as [|? l]; [discriminate Hl|]. do 14 (destruct l as [|? l]; [discriminate Hl|]). destruct l; [done|discriminate Hl]. Qed.

(** A block of the tree of a node. *)
Definition in_tree (fs : ext2_fs_t) (n : ext2_node) (b : Z) : Prop := exists r p, position fs r p /\ node fs n r p = b /\ b <> 0.

(** The calls of [ext2_inode_truncate] that free blocks. *)
Definition free_all (fs : ext2_fs_t) (n : ext2_node) : res (Z * Z * Z * ext2_fs_t * Z) :=
  let* '(fs, count) := free_direct (take (Z.to_nat EXT2_NDIR_BLOCKS) (i_block n)) 0 0 fs 0 in
  let* '(err1, fs, count) := ext2_trunc_indir 1 fs (root n EXT2_IND_BLOCK) 0 count in
  let* '(err2, fs, count) := ext2_trunc_indir 2 fs (root n EXT2_DIND_BLOCK) 0 count in
  let* '(err3, fs, count) := ext2_trunc_indir 3 fs (root n EXT2_TIND_BLOCK) 0 count in
  Done (err1, err2, err3, fs, count).

Lemma free_all_run fs n : fs_ok fs -> geom_ok (geom fs) -> tree_ok fs n ->
  exists err1 err2 err3 fs' count, free_all fs n = Done (err1, err2, err3, fs', count) /\ frees (in_tree fs n) fs fs' /\
    (faults (dev fs) = [] -> err1 = 0 /\ err2 = 0 /\ err3 = 0).
Proof.
  intros Hok Hg Ht. destruct (roots_of n (t_len _ _ Ht)) as (Et & _). unfold free_all. change (Z.to_nat EXT2_NDIR_BLOCKS) with 12%nat. rewrite Et.
  pose proof (frees_none (fun _ => False) fs Hok ltac:(tauto)) as F0.
  destruct (direct_release fs n Ht 12 0 (fun _ => False) fs 0 ltac:(lia) ltac:(done) F0 ltac:(tauto)) as (fs1 & c1 & E1 & F1).
  change (Z.of_nat 12) with 12 in E1. rewrite E1. cbn [rbind]. clear E1. set (P1 := fun b => exists r, 0 <= r < EXT2_NDIR_BLOCKS /\ subtree fs n r [] b) in *.
  assert (D : forall r b, EXT2_NDIR_BLOCKS <= r -> subtree fs n r [] b -> ~ P1 b).
  { intros r b Hr Hs (r' & Hr' & Hs'). pose proof (subtree_root_inj fs n Ht _ _ _ Hs Hs'). lia. }
  assert (D' : forall r r' b, r <> r' -> subtree fs n r [] b -> ~ subtree fs n r' [] b) by (intros r r' b Hne Hs Hs'; by apply Hne, (subtree_root_inj fs n Ht _ _ b)).
  destruct (root_release fs n Hg Ht 0 EXT2_IND_BLOCK P1 fs1 c1 ltac:(done) ltac:(done) F1) as (e2 & fs2 & c2 & -> & F2 & H2); [intros b; by apply D|]. cbn [rbind].
  pose proof (frees_trans _ _ _ _ _ F1 F2) as G2.
  destruct (root_release fs n Hg Ht 1 EXT2_DIND_BLOCK _ fs2 c2 ltac:(done) ltac:(done) G2) as (e3 & fs3 & c3 & -> & F3 & H3).
  { intros b Hs [HP|HP]; [by apply (D EXT2_DIND_BLOCK b ltac:(done) Hs)|by apply (D' EXT2_DIND_BLOCK EXT2_IND_BLOCK b ltac:(done) Hs)]. } cbn [rbind]. pose proof (frees_trans _ _ _ _ _ G2 F3) as G3.
  destruct (root_release fs n Hg Ht 2 EXT2_TIND_BLOCK _ fs3 c3 ltac:(done) ltac:(done) G3) as (e4 & fs4 & c4 & -> & F4 & H4).
  { intros b Hs [[HP|HP]|HP]; [by apply (D EXT2_TIND_BLOCK b ltac:(done) Hs)|by apply (D' EXT2_TIND_BLOCK EXT2_IND_BLOCK b ltac:(done) Hs)|].
    by apply (D' EXT2_TIND_BLOCK EXT2_DIND_BLOCK b ltac:(done) Hs). }
  cbn [rbind]. pose proof (frees_trans _ _ _ _ _ G3 F4) as G4.
  do 5 eexists. split; [done|]. split.
  - eapply frees_iff; [|exact G4]. intros b. split.
    + assert (Hin : forall r, subtree fs n r [] b -> in_tree fs n b) by (intros r (q & ? & ? & ?); by exists r, q). intros [[[(r & _ & ?)|?]|?]|?]; by eapply Hin.
    + intros (r & p & Hp & E & Hb). assert (Hs : subtree fs n r [] b) by (by exists p). pose proof Hp as (Hr & _).
      destruct (Z_lt_le_dec r EXT2_NDIR_BLOCKS) as [Hlt|Hge]; [do 3 left; exists r; split; [lia|done]|].
      unfold EXT2_N_BLOCKS, EXT2_TIND_BLOCK, EXT2_DIND_BLOCK, EXT2_IND_BLOCK, EXT2_NDIR_BLOCKS in *.
      assert (r = 12 \/ r = 13 \/ r = 14) as [->|[->| ->]] by lia; [left; left; by right|left; by right|by right].
  - intros E. pose proof (proj1 (fr_all _ _ _ F1 E)) as E1. pose proof (proj1 (fr_all _ _ _ F2 E1)) as E2. pose proof (proj1 (fr_all _ _ _ F3 E2)) as E3. auto.
Qed.

Lemma align_zero a : ALIGN 64 0 a = 0.
Proof.
  unfold ALIGN. set (m := wrap 64 (a - 1)). apply Z.bits_inj'. intros j Hj. rewrite Z.land_spec, Z.bits_0, !testbit_wrap, Z.lnot_spec by lia.
  rewrite Z.add_0_l. destruct (j <? 64), (Z.testbit m j); done.
Qed.

(** [ext2_inode_truncate] to nothing. *)
Lemma truncate_unfold fs v now0 now1 now2 : geom_ok (geom fs) -> 0 <= addr_per_blk_sq (geom fs) -> length (i_block (vn v)) = 15%nat -> 0 <= n_size (vn v) ->
  ext2_inode_truncate fs v 0 now0 now1 now2 =
    (let v0 := set_dirty (set_vn (vnode_set_size v 0) (MkNode (n_ino (vn v)) 0 (n_blocks (vn v)) (replicate 15 0))) true in
     let* '(_, fs1, v1) := vnode_sync fs v0 now0 in
     let* '(err1, err2, err3, fs2, count) := free_all fs1 (vn v) in
     truncate_out fs2 v1 count (if negb (err3 =? 0) then err3 else if negb (err2 =? 0) then err2 else err1) now1 now2).
Proof.
  intros Hg Hsq Hl Hs. pose proof (addr_range (geom fs) Hg) as Ha. unfold ext2_inode_truncate. rewrite (proj2 (Z.ltb_ge _ _)) by lia.
  rewrite align_zero, Z.shiftr_0_l. change (u32 0) with 0. change (i_block (vn (vnode_set_size v 0))) with (i_block (vn v)). rewrite kept_zero by done.
  destruct (roots_of (vn v) Hl) as (_ & E12 & E13 & E14).
  change (Z.to_nat EXT2_IND_BLOCK) with 12%nat. change (Z.to_nat EXT2_DIND_BLOCK) with 13%nat. change (Z.to_nat EXT2_TIND_BLOCK) with 14%nat. rewrite E12, E13, E14.
  change (Z.max (0 - EXT2_NDIR_BLOCKS) 0) with 0. rewrite (Z.max_r (0 - addr_per_blk (geom fs))), (Z.max_r (0 - addr_per_blk_sq (geom fs))) by lia.
  unfold free_all, set_blocks_of. cbn [deref vn vnode_set_size set_dirty set_vn set_nsize n_ino n_size n_blocks].
  destruct (vnode_sync fs _ now0) as [[[e fs1] v1]| | |]; cbn [rbind]; [|done..]. destruct (free_direct _ 0 0 fs1 0) as [[fs2 c2]| | |]; cbn [rbind]; [|done..].
  change (root (vn v) EXT2_IND_BLOCK) with (root (vn v) 12). change (root (vn v) EXT2_DIND_BLOCK) with (root (vn v) 13). change (root (vn v) EXT2_TIND_BLOCK) with (root (vn v) 14).
  destruct (ext2_trunc_indir 1 fs2 _ 0 c2) as [[[e3 fs3] c3]| | |]; cbn [rbind]; [|done..].
  destruct (ext2_trunc_indir 2 fs3 _ 0 c3) as [[[e4 fs4] c4]| | |]; cbn [rbind]; [|done..].
  by destruct (ext2_trunc_indir 3 fs4 _ 0 c4) as [[[e5 fs5] c5]| | |].
Qed.

Lemma place_empty fs fs' n n' off : inode_place fs n off -> skeleton fs' = skeleton fs -> n_ino n' = n_ino n -> i_block n' = replicate 15 0 ->
  inode_place fs' n' off.
Proof.
  intros [H1 H2 H3 _] E Ei Eb. destruct (same_geom _ _ E) as [Eg _]. split.
  - by rewrite (inode_off_skel _ _ _ E), Ei.
  - by rewrite Eg.
  - by rewrite Eg, (skeleton_bitmap _ _ _ E).
  - intros r p _ H0. destruct H0. unfold node, root. rewrite Eb. exact (empty_node fs' 0 r p).
Qed.


(** ** Examples *)

Definition ex_inode : ext2_inode_t := MkInode 0 0 0 0 0 0 0 0 0 0 0 0 [] 0 0 0 0 (replicate 12 0).
Definition ex_vnode (n : ext2_node) : vnode_t := MkVnode n 1000 100 0x81A4 1 (-5) 7 9 true ex_inode.
Definition ex_empty : ext2_node := MkNode 2 0 0 (replicate 15 0).

Lemma ex_rest n : length (i_block n) = 15%nat /\ Forall word_ok (i_block n) -> rest_ok (ex_vnode n).
Proof.
  intros Hn. split; simpl; [|split; [done|]|exact Hn].
  - repeat (apply Forall_cons; split; [unfold word_ok; lia|]). by apply Forall_nil.
  - repeat (apply Forall_cons; split; [lia|]). by apply Forall_nil.
Qed.


(** A file with one block behind the direct ones, and thus an indirect block. *)
Lemma ex_file : exists fs n, ext2_inode_bmap (ex_fs 16) ex_empty true 12 = Done (0, 7, fs, n) /\ fs_ok fs /\ skeleton fs = skeleton (ex_fs 16) /\
  tree_ok fs n /\ in_tree fs n 7 /\ faults (dev fs) = [] /\ i_block n = replicate 12 0 ++ [6; 0; 0] /\ n_size n = 0 /\ inode_place fs n 5248.
Proof.
  assert (Hg : geom_ok ex_geom) by (split; vm_compute; repeat split; congruence).
  assert (Hr : reachable_lbn ex_geom 12) by (left; change (addr_per_blk ex_geom) with 256; lia).
  pose proof (bmap_grown (ex_fs 16) ex_empty 12 ex_fs_ok Hg (empty_tree _ _) ltac:(repeat split; done) Hr) as H.
  change (place (geom (ex_fs 16)) 12) with (12, [0]) in H. destruct H as (err & blk & fs & n & E & Hgr & Hs & _). exists fs, n.
  assert (Hv : (err, blk, faults (dev fs), n_ino n, n_size n, i_block n) = (0, 7, [], 2, 0, replicate 12 0 ++ [6; 0; 0])).
  { pose proof E as E'. apply (f_equal (fun x => match x with Done (e, b, f, m) => (e, b, faults (dev f), n_ino m, n_size m, i_block m) | _ => (1, 1, [], 0, 0, []) end)) in E'.
    rewrite <- E'. vm_compute. reflexivity. }
  injection Hv as -> -> Ef Ei Es Eb. pose proof (gr_skel _ _ _ _ _ _ Hgr) as Hsk. destruct (same_geom _ _ Hsk) as [Eg _]. destruct (Hs eq_refl) as [_ E7].
  split; [exact E|]. clear E. split; [apply Hgr|]. split; [done|]. split; [apply Hgr|]. split; [|split; [done|split; [done|split; [done|split]]]].
  - exists 12, [0]. split; [|split; [symmetry; exact E7|lia]]. split; [done|]. split; [exact (le_n 1)|]. rewrite Eg. by apply Forall_singleton.
  - rewrite (inode_off_skel _ _ _ Hsk), Ei. reflexivity.
  - rewrite Eg. change (blksz (geom (ex_fs 16))) with 1024. unfold INODE_SZ. intros o Ho. change (5248 / 1024) with 5. symmetry. apply (Z.div_unique_pos _ _ _ (o - 5120)); lia.
  - rewrite Eg, (skeleton_bitmap _ _ _ Hsk). intros (i & b & Hb & E5). destruct i; [|done]. injection Hb as <-. discriminate E5.
  - intros r p Hp H0 E5. rewrite Eg in E5. change (5248 / blksz (geom (ex_fs 16))) with 5 in E5.
    destruct (gr_node _ _ _ _ _ _ Hgr r p) as [En|(_ & _ & _ & Hu)]; [by apply (position_geom _ _ _ _ Eg)| |].
    + apply H0. rewrite En. apply empty_node.
    + rewrite E5 in Hu. vm_compute in Hu. discriminate Hu.
Qed.


(** ** Where the code fails *)

(** A file of 270 blocks is cut by one: its double indirect block is freed although
    the file still has it. *)
Lemma truncate_frees_used :
  let fs := MkFs (ex_super 21) ex_geom (MkDisk (<[3073 := 7]> (<[7168 := 8]> (<[8192 := 9]> (<[8196 := 10]> {[3072 := 255]})))) []) [MkBgd 3 4 5 21 16 1] in
  let n := MkNode 2 (270 * 1024) 8 (replicate 13 0 ++ [7; 0]) in
  match ext2_inode_truncate fs (ex_vnode n) (269 * 1024) 0 0 0 with
  | Done (err, fs', v') => err = 0 /\ lookup_block fs' (vn v') 268 = 9 /\ i_block (vn v') !! 13%nat = Some 7 /\ used fs' 7 = false
  | _ => False
  end.
Proof. vm_compute. repeat split. Qed.

(** The size is changed before it is compared with the largest one. *)
Lemma truncate_too_large :
  match ext2_inode_truncate (ex_fs 16) (ex_vnode ex_empty) (2 ^ 40) 0 0 0 with
  | Done (err, _, v') => err = - EFBIG /\ n_size (vn v') = 2 ^ 40
  | _ => False
  end.
Proof. vm_compute. split; reflexivity. Qed.

(** The owner of a file loses the bits above 16: the file of user 65536 becomes
    one of root. *)
Lemma uid_truncated : let v := MkVnode ex_empty 65536 0 0x81A4 1 0 0 0 true ex_inode in
  match vnode_sync (ex_fs 16) v 0 with
  | Done (0, fs', _) => match ext2_vget fs' 2 with Done (0, Some w, _) => v_uid w = 0 | _ => False end
  | _ => False
  end.
Proof. vm_compute. reflexivity. Qed.

(** After a sync that failed the vnode counts as clean. *)
Lemma sync_error_clean :
  match vnode_sync (with_faults (ex_fs 16) [-5]) (ex_vnode ex_empty) 0 with
  | Done (err, _, v') => err = -5 /\ v_dirty v' = false
  | _ => False
  end.
Proof. vm_compute. split; reflexivity. Qed.

(** Deleting a symbolic link whose text is in the inode, here the letter a, takes the
    text for block numbers. *)
Lemma symlink_delete_faults :
  let n := MkNode 2 1 0 (97 :: replicate 14 0) in
  ext2_vput (ex_fs 16) (MkVnode n 0 0 0xA1FF 0 0 0 0 true ex_inode) 0 0 0 = Fault.
Proof. vm_compute. reflexivity. Qed.
