(* ===== verification/Proc.v ===== *)
(** * kern/proc.c: processes, process groups, sessions and their ids

    Processes, groups, sessions and threads are objects of the kernel heap,
    given by their addresses; an access to an address without an object is a
    [Fault].  A pid, the id of a group, the id of a session and the tid of a
    thread come from one bit set ([tids]); an id is free again when the last
    of them is gone.

    A critical section of the code is one step here.  Where a function sleeps
    with its lock released, what the other threads do in the meantime is an
    argument of the model.  The parts of a process that other components keep
    in process local storage ([W], for example the state of the signals) are
    reached through the callbacks of [Pls], and signals are sent through
    [Kill].

    Not modelled: the address space, the image and the terminal of a process,
    and the wake-up of sleeping threads. *)
From stdpp Require Import base tactics option list numbers gmap fin_maps.
From Stdlib Require Import ZArith Lia Bool.
From S2P Require Import Prelude Bitset User.

(** ** include/kern/proc.h *)

Definition THREAD_MAX : Z := 512.
Definition KTHREAD_TID : Z := -1.
Definition UID_ROOT : Z := 0.
Definition INITPROC_PID : Z := 1.

Definition PROC_ZOMBIE : Z := 1.
Definition PROC_EXIT : Z := 2.
Definition PROC_STOP : Z := 4.
Definition PROC_STATUS : Z := 8.
Definition PROC_FREE : Z := 16.
Definition PROC_EXEC : Z := 32.
Definition PROC_ST : Z := 64.
Definition PROC_AUTOREAP : Z := 128.

Definition THREAD_INTERRUPTABLE : Z := 2.
Definition THREAD_INTERRUPTED : Z := 4.
Definition THREAD_RESTARTSYS : Z := 8.

Definition THREAD_KILL : Z := 1.
Definition THREAD_SIGNAL : Z := 2.
Definition THREAD_PROC : Z := 4.

Definition PROC_ST_END : Z := 2.
Definition PROC_ST_WAIT : Z := 1.
Definition PROC_ST_KILL : Z := 0.
Definition PROC_ST_EXIT : Z := 4.

(** sys/sched.h and arch/gdt.h *)
Definition CSIGNAL : Z := 0xff.
Definition CLONE_VM : Z := 0x100.
Definition CLONE_FS : Z := 0x200.
Definition CLONE_FILES : Z := 0x400.
Definition CLONE_SIGHAND : Z := 0x800.
Definition CLONE_THREAD : Z := 0x10000.
Definition CLONE_SETTLS : Z := 0x80000.
Definition CLONE_PARENT_SETTID : Z := 0x100000.
Definition CLONE_FLAGS : Z :=
  Z.lor CLONE_VM (Z.lor CLONE_FS (Z.lor CLONE_FILES (Z.lor CLONE_THREAD CLONE_SIGHAND))).
Definition SEG_GS : Z := 6.

Definition SIG_KERN : Z := 1.
Definition SIGCHLD : Z := 17.

Record session_t := Session { sref : Z; sid : Z }.

Record pgrp_t := Pgrp { gsession : option Z; members : list Z; pgid : Z }.

Record thread_t := Thread { tid : Z; tproc : option Z; intr : Z; sflags : Z }.

Record creds := Creds { uid : Z; euid : Z; suid : Z; gid : Z; egid : Z; sgid : Z }.

(** The single-thread mode: its owner, what the other threads shall do and
    how many of them wait. *)
Record stmode := St { st_thread : option Z; st_mode : Z; st_waiting : Z }.

Record proc_t := Proc {
  pid : Z;
  parent : option Z;
  children : list Z;
  threads : list Z;
  pgrp : option Z;
  pflags : Z;
  exit_code : Z;
  exit_sig : Z;
  stop_sig : Z;
  st : stmode;
  cred : creds;
}.

Definition set_parent (p : proc_t) (x : option Z) : proc_t :=
  Proc (pid p) x (children p) (threads p) (pgrp p) (pflags p) (exit_code p) (exit_sig p) (stop_sig p) (st p) (cred p).
Definition set_children (p : proc_t) (x : list Z) : proc_t :=
  Proc (pid p) (parent p) x (threads p) (pgrp p) (pflags p) (exit_code p) (exit_sig p) (stop_sig p) (st p) (cred p).
Definition set_threads (p : proc_t) (x : list Z) : proc_t :=
  Proc (pid p) (parent p) (children p) x (pgrp p) (pflags p) (exit_code p) (exit_sig p) (stop_sig p) (st p) (cred p).
Definition set_pgrp (p : proc_t) (x : option Z) : proc_t :=
  Proc (pid p) (parent p) (children p) (threads p) x (pflags p) (exit_code p) (exit_sig p) (stop_sig p) (st p) (cred p).
Definition set_pflags (p : proc_t) (x : Z) : proc_t :=
  Proc (pid p) (parent p) (children p) (threads p) (pgrp p) x (exit_code p) (exit_sig p) (stop_sig p) (st p) (cred p).
Definition set_exit (p : proc_t) (code sig : Z) : proc_t :=
  Proc (pid p) (parent p) (children p) (threads p) (pgrp p) (pflags p) code sig (stop_sig p) (st p) (cred p).
Definition set_stop_sig (p : proc_t) (x : Z) : proc_t :=
  Proc (pid p) (parent p) (children p) (threads p) (pgrp p) (pflags p) (exit_code p) (exit_sig p) x (st p) (cred p).
Definition set_st (p : proc_t) (x : stmode) : proc_t :=
  Proc (pid p) (parent p) (children p) (threads p) (pgrp p) (pflags p) (exit_code p) (exit_sig p) (stop_sig p) x (cred p).
Definition set_cred (p : proc_t) (x : creds) : proc_t :=
  Proc (pid p) (parent p) (children p) (threads p) (pgrp p) (pflags p) (exit_code p) (exit_sig p) (stop_sig p) (st p) x.

(** The global variables of proc.c and thread.c.  A hash table is the list of
    its entries: an entry is found by its id, and the entries with one id are
    in one bucket. *)
Record kst (W : Type) := Kst {
  procs : gmap Z proc_t;
  pgrps : gmap Z pgrp_t;
  sessions : gmap Z session_t;
  thrs : gmap Z thread_t;
  proc_list : list Z;
  pgrp_list : list Z;
  tids : bset_t;
  init_process : Z;
  world : W;
}.
Arguments Kst {W} _ _ _ _ _ _ _ _ _.
Arguments procs {W} _.
Arguments pgrps {W} _.
Arguments sessions {W} _.
Arguments thrs {W} _.
Arguments proc_list {W} _.
Arguments pgrp_list {W} _.
Arguments tids {W} _.
Arguments init_process {W} _.
Arguments world {W} _.

(** The callbacks of process and thread local storage: creation of a process
    (with [proc_was_forked]), of a thread, fork (new and old process, new and
    current thread), execve and exit. *)
Class Pls (W : Type) := {
  pls_init : W -> Z -> bool -> res (Z * W);
  tls_init : W -> Z -> res (Z * W);
  tls_exit : W -> Z -> res W;
  pls_fork : W -> Z -> Z -> Z -> Z -> res (Z * W);
  pls_exec : W -> Z -> Z -> res W;
  pls_exit : W -> Z -> res W;
}.

(** [kern_kill]: state, current thread, receiver, signal and flags. *)
Class Kill (W : Type) := kern_kill : kst W -> Z -> Z -> Z -> Z -> res (Z * kst W).

Section Proc.
Context {W : Type}.
Implicit Types s : kst W.

Definition put_proc s a p : kst W :=
  Kst (<[a := p]> (procs s)) (pgrps s) (sessions s) (thrs s) (proc_list s) (pgrp_list s) (tids s) (init_process s) (world s).
Definition del_proc s a : kst W :=
  Kst (delete a (procs s)) (pgrps s) (sessions s) (thrs s) (proc_list s) (pgrp_list s) (tids s) (init_process s) (world s).
Definition set_pgrps s x : kst W :=
  Kst (procs s) x (sessions s) (thrs s) (proc_list s) (pgrp_list s) (tids s) (init_process s) (world s).
Definition set_sessions s x : kst W :=
  Kst (procs s) (pgrps s) x (thrs s) (proc_list s) (pgrp_list s) (tids s) (init_process s) (world s).
Definition set_thrs s x : kst W :=
  Kst (procs s) (pgrps s) (sessions s) x (proc_list s) (pgrp_list s) (tids s) (init_process s) (world s).
Definition set_proc_list s x : kst W :=
  Kst (procs s) (pgrps s) (sessions s) (thrs s) x (pgrp_list s) (tids s) (init_process s) (world s).
Definition set_pgrp_list s x : kst W :=
  Kst (procs s) (pgrps s) (sessions s) (thrs s) (proc_list s) x (tids s) (init_process s) (world s).
Definition set_tids s x : kst W :=
  Kst (procs s) (pgrps s) (sessions s) (thrs s) (proc_list s) (pgrp_list s) x (init_process s) (world s).
Definition set_world s x : kst W :=
  Kst (procs s) (pgrps s) (sessions s) (thrs s) (proc_list s) (pgrp_list s) (tids s) (init_process s) x.

Definition get_proc s a : res proc_t := deref (procs s !! a).
Definition get_pgrp s a : res pgrp_t := deref (pgrps s !! a).
Definition get_session s a : res session_t := deref (sessions s !! a).
Definition get_thread s a : res thread_t := deref (thrs s !! a).

Definition cur_proc s cur : res Z := let* t := get_thread s cur in deref (tproc t).

(** ** kern/thread.c: thread ids *)

Definition tid_free s (tid : Z) : res (kst W) :=
  kassert tid <? THREAD_MAX in kassert negb (tid =? 0) in kassert negb (tid =? 1) in
  let* b := bset_free_bit (tids s) (u32 tid) in Done (set_tids s b).

Definition tid_alloc s : res (Z * kst W) :=
  let* '(r, b) := bset_alloc_bit (tids s) in Done (r, set_tids s b).

(** kern/sched.c: the marks an interrupted thread gets. *)
Definition sched_interrupt s t (i fl : Z) : res (kst W) :=
  let* th := get_thread s t in
  let sf := if (Z.land (sflags th) THREAD_INTERRUPTED =? 0) && negb (Z.land (sflags th) THREAD_INTERRUPTABLE =? 0)
            then Z.land (sflags th) (Z.lnot THREAD_INTERRUPTABLE) else sflags th in
  Done (set_thrs s (<[t := Thread (tid th) (tproc th) (Z.lor (intr th) i)
                                 (Z.lor sf (Z.lor fl THREAD_INTERRUPTED))]> (thrs s))).

Definition thread_interrupted s cur : res bool :=
  let* t := get_thread s cur in Done (negb (Z.land (sflags t) THREAD_INTERRUPTED =? 0)).

Definition thread_kill s cur t : res (kst W) :=
  kassert negb (t =? cur) in sched_interrupt s t THREAD_KILL 0.
Definition thread_signal s t (restart : bool) : res (kst W) :=
  sched_interrupt s t THREAD_SIGNAL (if restart then THREAD_RESTARTSYS else 0).
Definition thread_intr_proc s t : res (kst W) := sched_interrupt s t THREAD_PROC 0.

(** ** Flags, threads and lookup *)

Definition proc_test_flags (p : proc_t) (fl : Z) : bool := Z.land (pflags p) fl =? fl.
Definition F_ISSET (x f : Z) : bool := negb (Z.land x f =? 0).

Definition proc_set_flag s a (flag : Z) : res (kst W) :=
  let* p := get_proc s a in
  kassert negb (F_ISSET flag PROC_FREE) || (proc_test_flags p PROC_EXIT && (st_mode (st p) =? PROC_ST_KILL)) in
  kassert negb (F_ISSET flag PROC_ZOMBIE) ||
    (bool_decide (threads p = []) && negb (proc_test_flags p PROC_ZOMBIE) &&
     proc_test_flags p (Z.lor PROC_FREE PROC_EXIT)) in
  kassert negb (F_ISSET flag PROC_ST) || negb (F_ISSET (pflags p) PROC_ST) in
  kassert negb (F_ISSET flag PROC_STOP) || F_ISSET flag PROC_STATUS in
  Done (put_proc s a (set_pflags p (Z.lor (pflags p) flag))).

Definition proc_clear_flag s a (flag : Z) : res (kst W) :=
  let* p := get_proc s a in
  Done (put_proc s a (set_pflags p (Z.land (pflags p) (Z.lnot flag)))).

Definition proc_autoreap_enable s a : res (kst W) := proc_set_flag s a PROC_AUTOREAP.
Definition proc_autoreap_disable s a : res (kst W) := proc_clear_flag s a PROC_AUTOREAP.

Definition proc_wakeup_st_waiter s cur a : res (kst W) :=
  let* p := get_proc s a in
  if proc_test_flags p PROC_ST then
    kassert negb (bool_decide (st_thread (st p) = Some cur)) in
    if st_mode (st p) =? PROC_ST_KILL then Done s
    else kassert st_mode (st p) =? PROC_ST_WAIT in Done s
  else Done s.

Definition proc_add_thread s a t : res (kst W) :=
  let* p := get_proc s a in
  let* th := get_thread s t in
  let s := put_proc s a (set_threads p (threads p ++ [t])) in
  Done (set_thrs s (<[t := Thread (tid th) (Some a) (intr th) (sflags th)]> (thrs s))).

Definition proc_rmv_thread s cur a t : res (kst W) :=
  let* p := get_proc s a in
  let* '(l, _) := list_remove (threads p) t in
  proc_wakeup_st_waiter (put_proc s a (set_threads p l)) cur a.

(** The search of a bucket, [id] at a time. *)
Fixpoint proc_search s (l : list Z) (id : Z) : res (option Z) :=
  match l with
  | [] => Done None
  | a :: l => let* p := get_proc s a in if pid p =? id then Done (Some a) else proc_search s l id
  end.
Definition proc_lookup s (id : Z) : res (option Z) := proc_search s (proc_list s) id.

Fixpoint pgrp_search s (l : list Z) (id : Z) : res (option Z) :=
  match l with
  | [] => Done None
  | a :: l => let* g := get_pgrp s a in if pgid g =? id then Done (Some a) else pgrp_search s l id
  end.
Definition pgrp_lookup s (id : Z) : res (option Z) := pgrp_search s (pgrp_list s) id.

Definition pgrp_present s (id session : Z) : res bool :=
  let* g := pgrp_lookup s id in
  match g with
  | None => Done false
  | Some a =>
    let* g := get_pgrp s a in
    let* se := deref (gsession g) in
    let* se := get_session s se in
    Done (sid se =? session)
  end.

(** ** Sessions and groups *)

(** [a]: the address the allocator returned. *)
Definition session_alloc s a id : kst W := set_sessions s (<[a := Session 1 id]> (sessions s)).
Definition session_free s a : kst W := set_sessions s (delete a (sessions s)).

Definition session_ref s a : res (kst W) :=
  let* se := get_session s a in
  let* r := ref_inc (sref se) in
  Done (set_sessions s (<[a := Session r (sid se)]> (sessions s))).

Definition session_unref s a : res (kst W) :=
  let* se := get_session s a in
  let* '(r, last) := ref_dec (sref se) in
  let s := set_sessions s (<[a := Session r (sid se)]> (sessions s)) in
  if last then let* s := tid_free s (sid se) in Done (session_free s a) else Done s.

Definition pgrp_alloc s a : kst W := set_pgrps s (<[a := Pgrp None [] 0]> (pgrps s)).

Definition pgrp_free s a : res (kst W) :=
  let* g := get_pgrp s a in
  let* s := match gsession g with Some se => session_unref s se | None => Done s end in
  kassert bool_decide (members g = []) in
  kassert bool_decide (a ∉ pgrp_list s) in
  Done (set_pgrps s (delete a (pgrps s))).

Definition pgrp_setup s a id se : res (kst W) :=
  let* s := session_ref s se in
  let* g := get_pgrp s a in
  let s := set_pgrps s (<[a := Pgrp (Some se) (members g) id]> (pgrps s)) in
  Done (set_pgrp_list s (pgrp_list s ++ [a])).

(** The group [o] has lost its last member. *)
Definition pgrp_emptied s o : res (kst W) :=
  let* g := get_pgrp s o in
  let* p := proc_lookup s (pgid g) in
  let* s :=
    match p with
    | Some _ => Done s
    | None =>
      let* se := deref (gsession g) in
      let* se := get_session s se in
      if sid se =? pgid g then Done s else tid_free s (pgid g)
    end in
  let* '(l, _) := list_remove (pgrp_list s) o in
  pgrp_free (set_pgrp_list s l) o.

Definition pgrp_leave s a o : res (kst W * bool) :=
  let* g := get_pgrp s o in
  let* '(l, empty) := list_remove (members g) a in
  Done (set_pgrps s (<[o := Pgrp (gsession g) l (pgid g)]> (pgrps s)), empty).

Definition pgrp_append s a o : res (kst W) :=
  let* g := get_pgrp s o in
  Done (set_pgrps s (<[o := Pgrp (gsession g) (members g ++ [a]) (pgid g)]> (pgrps s))).

(** [me]: the current process. *)
Definition pgrp_enter s (me a : Z) (grp : option Z) : res (Z * kst W) :=
  let* p := get_proc s a in
  let old := pgrp p in
  kassert negb (bool_decide (old = grp)) in
  if negb (a =? me) && proc_test_flags p PROC_EXEC && negb (proc_test_flags p PROC_ZOMBIE) then Done (- EACCES, s)
  else
    let s := put_proc s a (set_pgrp p grp) in
    let* '(s, empty) := match old with Some o => pgrp_leave s a o | None => Done (s, false) end in
    let* s := match grp with Some g => pgrp_append s a g | None => Done s end in
    let* s := match old with Some o => if empty then pgrp_emptied s o else Done s | None => Done s end in
    Done (0, s).

(** The session of the group of a process. *)
Definition proc_session s (p : proc_t) : res (Z * session_t) :=
  let* g := deref (pgrp p) in
  let* g := get_pgrp s g in
  let* a := deref (gsession g) in
  let* se := get_session s a in
  Done (a, se).

Definition proc_pgid s (p : proc_t) : res Z :=
  let* g := deref (pgrp p) in
  let* g := get_pgrp s g in
  Done (pgid g).

(** [a], [b]: the new session and group. *)
Definition sys_setsid s cur (a b : Z) : res (Z * kst W) :=
  let* me := cur_proc s cur in
  let* p := get_proc s me in
  let s := pgrp_alloc (session_alloc s a (pid p)) b in
  let* own := proc_pgid s p in
  let* busy := if own =? pid p then Done true
               else let* g := pgrp_lookup s (pid p) in Done (bool_decide (g <> None)) in
  if busy then
    let* s := pgrp_free s b in
    Done (- EPERM, session_free s a)
  else
    let* s := pgrp_setup s b (pid p) a in
    let* '(err, s) := pgrp_enter s me me (Some b) in
    kassert err =? 0 in
    Done (pid p, s).

(** [sys_setpgid] once the process [a] is found; [b]: the group that was
    allocated in advance. *)
Definition setpgid_proc s (me b a pgid' : Z) : res (Z * kst W) :=
  let out s err := let* s := pgrp_free s b in Done (err, s) in
  let* p := get_proc s a in
  let* '(sea, se) := proc_session s p in
  if sid se =? pid p then out s (- EPERM)
  else
    let id := if pgid' =? 0 then pid p else pgid' in
    let* own := proc_pgid s p in
    if own =? id then out s 0
    else
      let* g := pgrp_lookup s id in
      match g with
      | Some g =>
        let* gg := get_pgrp s g in
        if negb (bool_decide (gsession gg = Some sea)) then out s (- EPERM)
        else let* '(err, s) := pgrp_enter s me a (Some g) in out s err
      | None =>
        if negb (id =? pid p) then out s (- EPERM)
        else
          let* s := pgrp_setup s b (pid p) sea in
          let* '(err, s) := pgrp_enter s me a (Some b) in
          if negb (err =? 0) then
            let* '(l, _) := list_remove (pgrp_list s) b in
            out (set_pgrp_list s l) err
          else Done (0, s)
      end.

Definition sys_setpgid s cur (b pid' pgid' : Z) : res (Z * kst W) :=
  if pgid' <? 0 then Done (- EINVAL, s)
  else
    let* me := cur_proc s cur in
    let* c := get_proc s me in
    let s := pgrp_alloc s b in
    let* target :=
      if (pid' =? 0) || (pid' =? pid c) then Done (Some me)
      else
        let* a := proc_lookup s pid' in
        match a with
        | None => Done None
        | Some a => let* p := get_proc s a in
                    Done (if bool_decide (parent p = Some me) then Some a else None)
        end in
    match target with
    | None => let* s := pgrp_free s b in Done (- ESRCH, s)
    | Some a => setpgid_proc s me b a pgid'
    end.

Definition sys_getsid s cur pid' : res Z :=
  let* me := cur_proc s cur in
  let* c := get_proc s me in
  let* '(ca, cse) := proc_session s c in
  if negb (pid' =? 0) && negb (pid' =? pid c) then
    let* a := proc_lookup s pid' in
    match a with
    | None => Done (- ESRCH)
    | Some a =>
      let* p := get_proc s a in
      let* '(pa, _) := proc_session s p in
      if negb (pa =? ca) then Done (- EPERM) else Done (sid cse)
    end
  else Done (sid cse).

(** The function holds [proc_list_lock] and takes it a second time for
    another process, which [sync_acquire] answers with a panic. *)
Definition sys_getpgid s cur pid' : res Z :=
  let* me := cur_proc s cur in
  let* c := get_proc s me in
  if (pid' =? 0) || (pid' =? pid c) then proc_pgid s c
  else
    let* a := proc_lookup s pid' in
    match a with
    | None => Done (- ESRCH)
    | Some _ => Panic
    end.

(** ** Creation *)

Section Create.
Context `{Pls W}.

(** kern/thread.c.  [a]: the new thread. *)
Definition thread_new s (a id : Z) : res (Z * kst W) :=
  let s := set_thrs s (<[a := Thread id None 0 0]> (thrs s)) in
  let* '(err, w) := tls_init (world s) a in
  let s := set_world s w in
  if negb (err =? 0) then
    let* w := tls_exit (world s) a in
    Done (err, set_world (set_thrs s (delete a (thrs s))) w)
  else Done (0, s).

(** [mem]: what [kmalloc] returned. *)
Definition proc_new s (mem : option Z) (par : option Z) (id : Z) : res (Z * option Z * kst W) :=
  match mem with
  | None => Done (- ENOMEM, None, s)
  | Some a =>
    let s := put_proc s a (Proc id par [] [] None 0 0 0 0 (St None 0 0) (Creds 0 0 0 0 0 0)) in
    let* '(err, w) := pls_init (world s) a (bool_decide (par <> None)) in
    let s := set_world s w in
    if negb (err =? 0) then Done (- ENOMEM, None, del_proc s a) else Done (0, Some a, s)
  end.

(** The nodes of the process have to be off the lists; the one of the group
    is on a list while [pgrp] is set. *)
Definition proc_free s a : res (kst W) :=
  let* p := get_proc s a in
  kassert bool_decide (children p = []) in
  kassert bool_decide (threads p = []) in
  let* par := match parent p with Some b => let* q := get_proc s b in Done (children q) | None => Done [] end in
  kassert bool_decide (a ∉ par) in
  kassert bool_decide (a ∉ proc_list s) in
  kassert bool_decide (pgrp p = None) in
  Done (del_proc s a).

(** [sys_fork] once it has the pid [id]; [mp], [mt]: the memory of the new
    process and of its thread. *)
Definition fork_rest s (cur me id : Z) (mp : option Z) (mt : Z) : res (Z * kst W) :=
  let err_new s err := let* s := tid_free s id in Done (err, s) in
  let* '(err, np, s) := proc_new s mp (Some me) id in
  match np with
  | None => err_new s err
  | Some a =>
    let err_thr s err := let* s := proc_free s a in err_new s err in
    let* '(err, s) := thread_new s mt id in
    if negb (err =? 0) then err_thr s err
    else
      let* s := proc_add_thread s a mt in
      let* '(err, w) := pls_fork (world s) a me mt cur in
      let s := set_world s w in
      if negb (err =? 0) then
        let* s := proc_rmv_thread s cur a mt in
        let* w := tls_exit (world s) mt in
        err_thr (set_world (set_thrs s (delete mt (thrs s))) w) err
      else
        let* c := get_proc s me in
        let* n := get_proc s a in
        let s := put_proc s a (set_cred n (cred c)) in
        let* c := get_proc s me in
        let s := put_proc s me (set_children c (children c ++ [a])) in
        let* '(err, s) := pgrp_enter s me a (pgrp c) in
        kassert err =? 0 in
        Done (id, set_proc_list s (proc_list s ++ [a]))
  end.

Definition sys_fork s cur (mp : option Z) (mt : Z) : res (Z * kst W) :=
  let* me := cur_proc s cur in
  let* '(id, s) := tid_alloc s in
  if id <? 0 then Done (id, s)
  else kassert 1 <? id in fork_rest s cur me id mp mt.

Definition proc_spawn_init (a t se g : Z) s : res (kst W) :=
  let* '(err, np, s) := proc_new s (Some a) None INITPROC_PID in
  kassert err =? 0 in
  let* '(err, s) := thread_new s t INITPROC_PID in
  kassert err =? 0 in
  let s := set_proc_list s (proc_list s ++ [a]) in
  let* s := proc_add_thread s a t in
  let s := pgrp_alloc (session_alloc s se INITPROC_PID) g in
  let* s := pgrp_setup s g INITPROC_PID se in
  let* '(err, s) := pgrp_enter s a a (Some g) in
  kassert err =? 0 in
  Done (Kst (procs s) (pgrps s) (sessions s) (thrs s) (proc_list s) (pgrp_list s) (tids s) a (world s)).

(** ** Stopping and continuing *)

Section Life.
Context `{Kill W}.

Definition proc_do_sigchld s cur a : res (kst W) :=
  let* p := get_proc s a in
  let* par := deref (parent p) in
  let* '(_, s) := kern_kill s cur par SIGCHLD SIG_KERN in Done s.

(** Without a parent the lock of the parent is at a NULL pointer. *)
Definition proc_sigchld s cur a : res (kst W) := proc_do_sigchld s cur a.

Fixpoint intr_threads s (l : list Z) : res (kst W) :=
  match l with
  | [] => Done s
  | t :: l => let* s := thread_intr_proc s t in intr_threads s l
  end.

Definition proc_stop s cur a (sig : Z) : res (kst W) :=
  let* p := get_proc s a in
  if proc_test_flags p PROC_STOP then Done s
  else
    let* s := proc_set_flag s a (Z.lor PROC_STOP PROC_STATUS) in
    let* p := get_proc s a in
    let s := put_proc s a (set_stop_sig p sig) in
    let* s := intr_threads s (threads p) in
    proc_sigchld s cur a.

Definition proc_cont s cur a : res (kst W) :=
  let* p := get_proc s a in
  if proc_test_flags p PROC_STOP then
    let s := put_proc s a (set_pflags p (Z.lor (Z.land (pflags p) (Z.lnot PROC_STOP)) PROC_STATUS)) in
    proc_sigchld s cur a
  else Done s.

(** ** Signals by id *)

Definition proc_kill s cur (id sig flags : Z) : res (Z * kst W) :=
  kassert 0 <? id in
  let* me := cur_proc s cur in
  let* c := get_proc s me in
  let* a := if id =? pid c then Done (Some me) else proc_lookup s id in
  match a with
  | None => Done (- ESRCH, s)
  | Some a => kern_kill s cur a sig flags
  end.

(** The members of a group, one after the other: how many got the signal and
    the last error. *)
Fixpoint kill_members s cur (sig flags : Z) (l : list Z) (num last_err : Z) : res (Z * Z * kst W) :=
  match l with
  | [] => Done (num, last_err, s)
  | a :: l =>
    let* '(err, s) := kern_kill s cur a sig flags in
    if negb (err =? 0) then kill_members s cur sig flags l num err
    else kill_members s cur sig flags l (num + 1) last_err
  end.

Definition pgrp_kill s cur (id sig flags : Z) : res (Z * kst W) :=
  kassert (id =? 0) || (1 <? id) in
  let* g := if id =? 0 then
              let* me := cur_proc s cur in let* c := get_proc s me in let* g := deref (pgrp c) in Done (Some g)
            else pgrp_lookup s id in
  match g with
  | None => Done (- ESRCH, s)
  | Some g =>
    let* g := get_pgrp s g in
    let* '(num, last_err, s) := kill_members s cur sig flags (members g) 0 0 in
    Done (if num =? 0 then last_err else 0, s)
  end.

(** ** Single-thread mode *)

Fixpoint st_interrupt s cur (mode : Z) (l : list Z) : res (kst W) :=
  match l with
  | [] => Done s
  | t :: l =>
    let* s := if t =? cur then Done s
              else if mode =? PROC_ST_WAIT then thread_intr_proc s t else thread_kill s cur t in
    st_interrupt s cur mode l
  end.

(** The wait of [proc_singlethread]; [evs]: what happens each time the lock
    is released.  The wait goes on ([Stuck]) when they are used up. *)
Fixpoint st_wait s a (mode : Z) (exit : bool) (evs : list (kst W -> kst W)) : res (Z * kst W) :=
  let* p := get_proc s a in
  let n := Z.of_nat (length (threads p)) in
  if if mode =? PROC_ST_KILL then 1 <? n else negb (st_waiting (st p) =? u32 (n - 1)) then
    match evs with
    | [] => Stuck
    | e :: evs =>
      let s := e s in
      let* p := get_proc s a in
      if negb exit && proc_test_flags p PROC_EXIT then Done (- EINTR, s) else st_wait s a mode exit evs
    end
  else if mode =? PROC_ST_KILL then
    Done (0, put_proc s a (set_st (set_pflags p (Z.land (pflags p) (Z.lnot PROC_ST)))
                                  (St None (st_mode (st p)) (st_waiting (st p)))))
  else Done (0, s).

Definition proc_singlethread s cur (st0 : Z) (evs : list (kst W -> kst W)) : res (Z * kst W) :=
  let* a := cur_proc s cur in
  let* p := get_proc s a in
  let exit := F_ISSET st0 PROC_ST_EXIT in
  let mode := Z.land st0 (Z.lnot PROC_ST_EXIT) in
  if mode =? PROC_ST_END then
    kassert proc_test_flags p PROC_ST in
    kassert bool_decide (st_thread (st p) = Some cur) in
    Done (0, put_proc s a (set_st (set_pflags p (Z.land (pflags p) (Z.lnot PROC_ST)))
                                  (St None (st_mode (st p)) (st_waiting (st p)))))
  else if negb exit && proc_test_flags p PROC_EXIT then Done (- EINTR, s)
  else
    let enter s :=
      let* p := get_proc s a in
      let s := put_proc s a (set_st p (St (Some cur) mode (st_waiting (st p)))) in
      kassert st_waiting (st p) =? 0 in
      let* s := st_interrupt s cur mode (threads p) in
      st_wait s a mode exit evs in
    if proc_test_flags p PROC_ST then
      if bool_decide (st_thread (st p) = Some cur) then
        kassert st_mode (st p) =? PROC_ST_WAIT in
        kassert mode =? PROC_ST_KILL in
        enter s
      else
        let* i := thread_interrupted s cur in
        kassert i in Done (- EINTR, s)
    else let* s := proc_set_flag s a PROC_ST in enter s.

(** ** Exit *)

Definition proc_reparent s a par : res (kst W) :=
  let* p := get_proc s a in
  let* old := deref (parent p) in
  let* o := get_proc s old in
  let* '(l, _) := list_remove (children o) a in
  let s := put_proc s old (set_children o l) in
  let* n := get_proc s par in
  let s := put_proc s par (set_children n (children n ++ [a])) in
  let* p := get_proc s a in
  Done (put_proc s a (set_parent p (Some par))).

Fixpoint reparent_all s (l : list Z) : res (kst W) :=
  match l with
  | [] => Done s
  | c :: l => let* s := proc_reparent s c (init_process s) in reparent_all s l
  end.

(** What [proc_exit] does once the process has one thread only. *)
Definition proc_exit_last s cur (status sig : Z) : res (kst W) :=
  let* a := cur_proc s cur in
  let* p := get_proc s a in
  let* s := reparent_all s (children p) in
  let* '(l, _) := list_remove (proc_list s) a in
  let s := set_proc_list s l in
  let* p := get_proc s a in
  let* '(l, _) := list_remove (threads p) cur in
  let s := put_proc s a (set_threads (set_exit p status sig) l) in
  let* s := proc_set_flag s a PROC_FREE in
  let* w := pls_exit (world s) a in
  Done (set_world s w).

(** [evs], [evs2]: what happens during the two waits for the other threads. *)
Definition proc_exit s cur (status sig : Z) (evs evs2 : list (kst W -> kst W)) : res (kst W) :=
  let* a := cur_proc s cur in
  if a =? init_process s then Panic
  else
    let* p := get_proc s a in
    if proc_test_flags p PROC_EXIT then
      let* i := thread_interrupted s cur in kassert i in Done s
    else
      let* s := proc_set_flag s a PROC_EXIT in
      let* '(err, s) := proc_singlethread s cur (Z.lor PROC_ST_KILL PROC_ST_EXIT) evs in
      if err =? 0 then proc_exit_last s cur status sig
      else
        let* i := thread_interrupted s cur in
        kassert i in
        let* s := proc_wakeup_st_waiter s cur a in
        let* s := proc_clear_flag s a PROC_ST in
        let* p := get_proc s a in
        let s := put_proc s a (set_st p (St None (st_mode (st p)) (st_waiting (st p)))) in
        let* '(err, s) := proc_singlethread s cur PROC_ST_KILL evs2 in
        kassert err =? 0 in
        proc_exit_last s cur status sig.

(** A child that is a zombie leaves its parent and its group and is freed.
    [me]: the current process, which is not the parent when the kernel reaps. *)
Definition proc_reap s me par a : res (Z * kst W) :=
  let* p := get_proc s a in
  kassert bool_decide (parent p = Some par) in
  let* q := get_proc s par in
  let* '(l, _) := list_remove (children q) a in
  let s := put_proc s par (set_children q l) in
  let* p := get_proc s a in
  let* g := pgrp_lookup s (pid p) in
  let* s :=
    match g with
    | Some _ => Done s
    | None => let* '(_, se) := proc_session s p in if sid se =? pid p then Done s else tid_free s (pid p)
    end in
  let* '(_, s) := pgrp_enter s me a None in
  let status := Z.lor (Z.shiftl (Z.land (exit_code p) 0xff) 8) (Z.land (exit_sig p) 0x7f) in
  let* s := proc_free s a in
  Done (status, s).

Definition proc_exit_final s cur a : res (kst W) :=
  let* me := cur_proc s cur in
  kassert negb (a =? me) in
  let* p := get_proc s a in
  let* par := deref (parent p) in
  let* q := get_proc s par in
  if proc_test_flags q PROC_AUTOREAP then let* '(_, s) := proc_reap s me par a in Done s
  else
    let* s := proc_set_flag s a PROC_ZOMBIE in
    proc_do_sigchld s cur a.

(** kern/thread.c: run by a kernel thread [cur] some time after [t] has ended. *)
Definition thread_free s cur t : res (kst W) :=
  let* th := get_thread s t in
  let* s := match tproc th with
            | Some a => let* p := get_proc s a in
                        if F_ISSET (pflags p) PROC_FREE then proc_exit_final s cur a else Done s
            | None => Done s
            end in
  let* w := tls_exit (world s) t in
  Done (set_world (set_thrs s (delete t (thrs s))) w).

(** [mt]: the memory of the new thread.  The registers, the TLS segment and
    the addresses for the thread id are not part of the state. *)
Definition sys_clone `{Cpu} s (m : mem) cur (mt flags ptid desc : Z) : res (Z * mem * kst W) :=
  let* me := cur_proc s cur in
  if negb (Z.land flags CLONE_FLAGS =? CLONE_FLAGS) then Done (- EINVAL, m, s)
  else if F_ISSET flags CSIGNAL then Done (- ENOTSUP, m, s)
  else
    let err :=
      if F_ISSET flags CLONE_SETTLS then
        match copyin m desc 16 with
        | (err, None) => err
        | (_, Some bs) =>
          if negb (word_at bs 0 =? SEG_GS) && negb (word_at bs 0 =? UINT32_MAX) then - EINVAL else 0
        end
      else 0 in
    if negb (err =? 0) then Done (err, m, s)
    else
      let* '(id, s) := tid_alloc s in
      if id <? 0 then Done (- EAGAIN, m, s)
      else
        let* '(err, s) := thread_new s mt id in
        if negb (err =? 0) then let* s := tid_free s id in Done (err, m, s)
        else
          let* '(err, m) := if F_ISSET flags CLONE_PARENT_SETTID then copyout m ptid (int_bytes id) else Done (0, m) in
          if negb (err =? 0) then
            let* s := thread_free s cur mt in
            let* s := tid_free s id in
            Done (err, m, s)
          else
            let* s := proc_add_thread s me mt in
            Done (id, m, s).

Definition kern_exit s cur (evs evs2 : list (kst W -> kst W)) : res (kst W) :=
  let* a := cur_proc s cur in
  let* th := get_thread s cur in
  let* p := get_proc s a in
  let* s := if negb (tid th =? KTHREAD_TID) && negb (tid th =? pid p) then
              let* s := tid_free s (tid th) in
              Done (set_thrs s (<[cur := Thread (-111) (tproc th) (intr th) (sflags th)]> (thrs s)))
            else Done s in
  if decide (length (threads p) = 1%nat) then proc_exit s cur 0 0 evs evs2
  else proc_rmv_thread s cur a cur.

(** The thread ends without giving its tid back. *)
Definition kern_exitproc s cur (status sig : Z) (evs evs2 : list (kst W -> kst W)) : res (kst W) :=
  proc_exit s cur status sig evs evs2.

(** ** sys_wait4 *)

Definition WNOHANG : Z := 1.
Definition WUNTRACED : Z := 2.
Definition WCONTINUED : Z := 8.
Definition W_STOPCODE (sig : Z) : Z := Z.lor (Z.shiftl sig 8) 0x7f.
Definition W_CONTCODE : Z := 0xFFFF.

(** The function is declared [bool]: the -1 of its comment is [true]. *)
Definition proc_can_reap s (pid' par a : Z) : res bool :=
  let* q := get_proc s par in
  let* p := get_proc s a in
  let* mismatch :=
    if pid' <? -1 then let* g := proc_pgid s p in Done (negb (g =? - pid'))
    else if pid' =? 0 then
      let* g := proc_pgid s p in let* g' := proc_pgid s q in Done (negb (g =? g'))
    else if 0 <? pid' then Done (negb (pid p =? pid'))
    else Done false in
  if mismatch then Done true else Done (negb (proc_test_flags p PROC_ZOMBIE)).

(** One pass over the children: the child and its status, or the number of
    children that were counted. *)
Fixpoint wait4_scan s (pid' options me : Z) (l : list Z) (nfound : Z) : res (Z * (Z * Z) * kst W + Z * kst W) :=
  match l with
  | [] => Done (inr (nfound, s))
  | a :: l =>
    let* p := get_proc s a in
    let* r := proc_can_reap s pid' me a in
    if negb r then
      let* '(status, s) := proc_reap s me me a in
      Done (inl (pid p, (status, a), s))
    else
      let nfound := u32 (nfound + 1) in
      if Z.land options (Z.lor WUNTRACED WCONTINUED) =? 0 then wait4_scan s pid' options me l nfound
      else if proc_test_flags p PROC_STATUS then
        let* s := proc_clear_flag s a PROC_STATUS in
        let status := if proc_test_flags p PROC_STOP
                      then if F_ISSET options WUNTRACED then W_STOPCODE (stop_sig p) else 0
                      else if F_ISSET options WCONTINUED then W_CONTCODE else 0 in
        if negb (status =? 0) then Done (inl (pid p, (status, a), s))
        else wait4_scan s pid' options me l nfound
      else wait4_scan s pid' options me l nfound
  end.

(** The return value and the status that is copied out.  Each event is the
    result of one sleep and what happened during it. *)
Fixpoint wait4_loop s me (pid' options : Z) (evs : list (Z * (kst W -> kst W))) : res (Z * Z * kst W) :=
  let* c := get_proc s me in
  let* r := wait4_scan s pid' options me (children c) 0 in
  match r with
  | inl (id, (status, _), s) => Done (id, status, s)
  | inr (nfound, s) =>
    if nfound =? 0 then Done (- ECHILD, 0, s)
    else if F_ISSET options WNOHANG then Done (0, 0, s)
    else
      match evs with
      | [] => Stuck
      | (err, e) :: evs =>
        if negb (err =? 0) then Done (err, 0, e s) else wait4_loop (e s) me pid' options evs
      end
  end.

(** The parent of a vfork waits until the child has ended or called execve;
    [evs]: what happens during each sleep. *)
Fixpoint vfork_wait s me (pid' : Z) (evs : list (kst W -> kst W)) : res (kst W) :=
  let* child := proc_lookup s pid' in
  let* stay :=
    match child with
    | None => Done false
    | Some a =>
      let* r := proc_can_reap s pid' me a in
      if negb r then Done false
      else let* p := get_proc s a in Done (negb (proc_test_flags p PROC_EXEC))
    end in
  if negb stay then Done s
  else match evs with [] => Stuck | e :: evs => vfork_wait (e s) me pid' evs end.

Definition sys_vfork s cur (mp : option Z) (mt : Z) (evs evs2 : list (kst W -> kst W)) : res (Z * kst W) :=
  let* me := cur_proc s cur in
  let* '(err, s) := proc_singlethread s cur PROC_ST_WAIT evs in
  if negb (err =? 0) then Done (- ERESTART, s)
  else
    let* '(pid', s) := sys_fork s cur mp mt in
    let* s := if pid' <? 0 then Done s else vfork_wait s me pid' evs2 in
    let* '(_, s) := proc_singlethread s cur PROC_ST_END [] in
    Done (pid', s).

Definition proc_exec s cur : res (kst W) :=
  let* a := cur_proc s cur in
  let* w := pls_exec (world s) a cur in
  let s := set_world s w in
  let* p := get_proc s a in
  Done (put_proc s a (set_pflags p (Z.lor (pflags p) PROC_EXEC))).

Definition sys_wait4 `{Cpu} s (m : mem) cur (pid' wstatus options : Z) (evs : list (Z * (kst W -> kst W)))
    : res (Z * mem * kst W) :=
  let* me := cur_proc s cur in
  let* '(retval, status, s) := wait4_loop s me pid' options evs in
  if (0 <? retval) && negb (wstatus =? 0) then
    let* '(err, m) := copyout m wstatus (int_bytes status) in
    Done (if negb (err =? 0) then err else retval, m, s)
  else Done (retval, m, s).

End Life.
End Create.

(** ** Getters *)

Definition cur_get {A} s cur (f : proc_t -> A) : res A :=
  let* a := cur_proc s cur in let* p := get_proc s a in Done (f p).

Definition kern_getpgrp s cur : res Z :=
  let* a := cur_proc s cur in let* p := get_proc s a in proc_pgid s p.
Definition sys_getpgrp s cur : res Z := kern_getpgrp s cur.
Definition sys_getpid s cur : res Z := cur_get s cur pid.
Definition sys_getppid s cur : res Z :=
  let* a := cur_proc s cur in
  let* p := get_proc s a in
  match parent p with
  | None => Done (pid p)
  | Some b => let* q := get_proc s b in Done (pid q)
  end.
Definition sys_getuid32 s cur : res Z := cur_get s cur (fun p => uid (cred p)).
Definition sys_geteuid32 s cur : res Z := cur_get s cur (fun p => euid (cred p)).
Definition sys_getgid32 s cur : res Z := cur_get s cur (fun p => gid (cred p)).
Definition sys_getegid32 s cur : res Z := cur_get s cur (fun p => egid (cred p)).

(** ** Credentials *)

Definition with_creds s cur (f : creds -> Z * creds) : res (Z * kst W) :=
  let* a := cur_proc s cur in
  let* p := get_proc s a in
  let (r, c) := f (cred p) in
  Done (r, put_proc s a (set_cred p c)).

Definition sys_setuid32 s cur (id : Z) : res (Z * kst W) :=
  with_creds s cur (fun c =>
    if euid c =? UID_ROOT then (0, Creds id id id (gid c) (egid c) (sgid c))
    else if (uid c =? id) || (suid c =? id) then (0, Creds (uid c) id (suid c) (gid c) (egid c) (sgid c))
    else (- EPERM, c)).

Definition sys_setgid32 s cur (id : Z) : res (Z * kst W) :=
  with_creds s cur (fun c =>
    if egid c =? UID_ROOT then (0, Creds (uid c) (euid c) (suid c) id id id)
    else if (gid c =? id) || (sgid c =? id) then (0, Creds (uid c) (euid c) (suid c) (gid c) id (sgid c))
    else (- EPERM, c)).

Definition NOID : Z := 2 ^ 32 - 1.

Definition sys_setresgid32 s cur (rg eg sg : Z) : res (Z * kst W) :=
  with_creds s cur (fun c =>
    let bad x := negb (x =? NOID) && negb (x =? gid c) && negb (x =? egid c) && negb (x =? sgid c) in
    if negb (egid c =? UID_ROOT) && (bad rg || bad eg || bad sg) then (- EPERM, c)
    else
      let pick x y := if negb (x =? NOID) then x else y in
      (0, Creds (uid c) (euid c) (suid c) (pick rg (gid c)) (pick eg (egid c)) (pick sg (sgid c)))).

Definition sys_setgroups32 (size : Z) : Z :=
  if size <? 0 then - EINVAL else if size =? 0 then 0 else if size =? 1 then 0 else - ENOTSUP.

Definition sys_getgroups32 (size : Z) : Z := 0.

End Proc.
