(* ===== verification/ProcIds.v ===== *)
(** * The ids of processes, groups, sessions and threads

    The invariant behind kern/proc.c: every id in use is marked in the bit set
    of ids, ids are not shared, groups know their members, and sessions count
    their groups.  It is kept by fork, clone, setsid, exit and reaping, and by
    setpgid as long as no process leaves the group that it leads. *)
From stdpp Require Import base tactics option list numbers gmap fin_maps.
From Stdlib Require Import ZArith Lia Bool.
From S2P Require Import Prelude Bitset User Proc.

Section Ids.
Context {W : Type}.
Implicit Types s : kst W.

(** The thread has not left its process. *)
Definition running s (t : Z) (th : thread_t) (a : Z) (p : proc_t) : Prop :=
  thrs s !! t = Some th /\ tproc th = Some a /\ procs s !! a = Some p /\ t ∈ threads p.

Definition in_session (a : Z) (gx : Z * pgrp_t) : Prop := gsession gx.2 = Some a.
#[local] Instance in_session_dec a gx : Decision (in_session a gx).
Proof. unfold in_session. apply _. Defined.

(** The groups of a session. *)
Definition ngroups s (a : Z) : Z := Z.of_nat (base.size (filter (in_session a) (pgrps s))).

Definition used s (i : Z) : Prop := 0 < i < THREAD_MAX /\ bits (tids s) i = true.

(** [f]: a process that is being created, removed or moved; [e]: a group that
    is being created. *)
Record inv (f e : option Z) s : Prop := {
  i_tids : Bitset.wf (tids s) /\ Bitset.size (tids s) = THREAD_MAX /\ bits (tids s) 0 = true /\ bits (tids s) 1 = true;
  i_pos : forall a p, procs s !! a = Some p -> 0 < pid p \/ pid p = -1;
  i_pid : forall a p, procs s !! a = Some p -> f <> Some a -> 0 < pid p -> used s (pid p);
  i_pgid : forall g x, pgrps s !! g = Some x -> used s (pgid x);
  i_sid : forall a se, sessions s !! a = Some se -> used s (sid se);
  i_pid_uniq : forall a a' p p', procs s !! a = Some p -> procs s !! a' = Some p' ->
    f <> Some a -> f <> Some a' -> 0 < pid p -> pid p = pid p' -> a = a';
  i_pgid_uniq : forall g g' x x', pgrps s !! g = Some x -> pgrps s !! g' = Some x' -> pgid x = pgid x' -> g = g';
  i_sid_uniq : forall a a' x x', sessions s !! a = Some x -> sessions s !! a' = Some x' -> sid x = sid x' -> a = a';
  i_members : forall g x, pgrps s !! g = Some x -> NoDup (members x) /\ (members x = [] -> e = Some g);
  i_member : forall g x a, pgrps s !! g = Some x ->
    (a ∈ members x <-> exists p, procs s !! a = Some p /\ pgrp p = Some g);
  i_gsession : forall g x, pgrps s !! g = Some x -> exists a, gsession x = Some a /\ is_Some (sessions s !! a);
  i_pgrp : forall a p, procs s !! a = Some p -> f <> Some a -> 0 < pid p -> is_Some (pgrp p);
  i_pgrp_live : forall a p g, procs s !! a = Some p -> pgrp p = Some g -> is_Some (pgrps s !! g);
  i_glist : NoDup (pgrp_list s) /\ forall g, g ∈ pgrp_list s <-> is_Some (pgrps s !! g);
  i_plist : forall a, a ∈ proc_list s -> exists p, procs s !! a = Some p /\ 0 < pid p;
  i_refs : forall a se, sessions s !! a = Some se -> sref se = 1 + ngroups s a;
  i_leader : forall g x a p, pgrps s !! g = Some x -> procs s !! a = Some p -> f <> Some a ->
    pid p = pgid x -> pgrp p = Some g;
  i_sess_leader : forall a se b p, sessions s !! a = Some se -> procs s !! b = Some p -> f <> Some b ->
    pid p = sid se -> exists g x, pgrp p = Some g /\ pgrps s !! g = Some x /\ gsession x = Some a /\ pgid x = pid p;
  i_sess_init : exists a se, sessions s !! a = Some se /\ sid se = 1;
  i_sess_grp : forall a se g x, sessions s !! a = Some se -> pgrps s !! g = Some x ->
    pgid x = sid se -> gsession x = Some a;
  i_tid : forall t th a p, running s t th a p -> 0 < tid th -> tid th <> pid p ->
    used s (tid th) /\
    (forall b q, procs s !! b = Some q -> f <> Some b -> pid q <> tid th) /\
    (forall g x, pgrps s !! g = Some x -> pgid x <> tid th) /\
    (forall b se, sessions s !! b = Some se -> sid se <> tid th) /\
    (forall t' th' b q, running s t' th' b q -> tid th' = tid th -> t' = t);
}.

(** Nothing that counts has the id. *)
Definition unowned (f : option Z) s (i : Z) : Prop :=
  (forall a p, procs s !! a = Some p -> f <> Some a -> pid p <> i) /\
  (forall g x, pgrps s !! g = Some x -> pgid x <> i) /\
  (forall a se, sessions s !! a = Some se -> sid se <> i) /\
  (forall t th a p, running s t th a p -> tid th <> pid p -> tid th <> i).

(** ** Ids *)

(** A change of the bit set that keeps the bits of the ids in use. *)
Lemma inv_set_tids f e s b : inv f e s -> Bitset.wf b -> Bitset.size b = THREAD_MAX ->
  bits b 0 = true -> bits b 1 = true ->
  (forall i, used s i -> ~ unowned f s i -> bits b i = true) -> inv f e (set_tids s b).
Proof.
  intros [] Hwf Hsz H0 H1 Hb.
  assert (U : forall i, used s i -> ~ unowned f s i -> used (set_tids s b) i).
  { intros i Hu Hn. split; [apply Hu|by apply Hb]. }
  constructor; try done.
  - intros a p Ha Hf Hp. apply U; [by eapply i_pid0|]. intros (N & _). by eapply N.
  - intros g x Hg. apply U; [by eapply i_pgid0|]. intros (_ & N & _). by eapply N.
  - intros a se Ha. apply U; [by eapply i_sid0|]. intros (_ & _ & N & _). by eapply N.
  - intros t th a p Hr Ht Hn. destruct (i_tid0 t th a p Hr Ht Hn) as (Hu & Hrest). split; [|exact Hrest].
    apply U; [exact Hu|]. intros (_ & _ & _ & N). by eapply N.
Qed.

Lemma tid_alloc_inv f e s : inv f e s -> exists id s', tid_alloc s = Done (id, s') /\ inv f e s' /\
  s' = set_tids s (tids s') /\
  (id < 0 \/ (1 < id < THREAD_MAX /\ bits (tids s) id = false /\ bits (tids s') id = true /\ unowned f s id)).
Proof.
  intros Hi. pose proof Hi as [(Hwf & Hsz & H0 & H1) _ Hpid Hpgid Hsid _ _ _ _ _ _ _ _ _ _ _ _ _ _ _ Htid].
  destruct (bset_alloc_bit_spec (tids s) Hwf) as (r & b & Hrun & Hcase).
  exists r, (set_tids s b). unfold tid_alloc. rewrite Hrun. split; [done|].
  destruct Hcase as [(Hr & Hc & _ & Hwf' & Hsz' & Hbits)|(-> & -> & _)].
  - assert (r <> 0 /\ r <> 1) by (split; intros ->; congruence). split; [|split; [done|right]].
    + apply inv_set_tids; try done; [congruence|by rewrite Hbits, H0, orb_true_r|by rewrite Hbits, H1, orb_true_r|].
      intros i [Hi' Hu] _. rewrite Hbits, Hu by lia. by rewrite orb_true_r.
    + split_and!; [lia|lia|done|simpl; rewrite Hbits by lia; by rewrite Z.eqb_refl|].
      assert (N : forall i, used s i -> i <> r) by (intros i [_ Hu] ->; congruence). split_and!.
      * intros a p Ha Hf Heq. eapply N; [eapply Hpid; try done; lia|done].
      * intros g x Hg. by eapply N, Hpgid.
      * intros a se Ha. by eapply N, Hsid.
      * intros t th a p Hrun' Hn Heq. eapply N; [eapply Htid; try done; lia|done].
  - split; [by destruct s|split; [by destruct s|by left]].
Qed.

Definition cleared (b b' : bset_t) (i : Z) : Prop :=
  Bitset.wf b' /\ Bitset.size b' = THREAD_MAX /\
  forall j, 0 <= j -> bits b' j = negb (i =? j) && bits b j.

Lemma tid_free_run f e s i : inv f e s -> 1 < i < THREAD_MAX ->
  exists b, tid_free s i = Done (set_tids s b) /\ cleared (tids s) b i.
Proof.
  intros Hi Hr. pose proof (i_tids _ _ _ Hi) as (Hwf & Hsz & _ & _).
  destruct (bset_clr_spec (tids s) i Hwf) as (b & Hrun & Hwf' & Hsz' & Hbits); [lia|].
  exists b. unfold cleared. rewrite Hsz', Hsz. split; [|done].
  unfold tid_free, bset_free_bit. unfold THREAD_MAX in *. rewrite u32_small, Hrun by lia.
  by destruct (Z.ltb_spec i 512), (Z.eqb_spec i 0), (Z.eqb_spec i 1); try lia.
Qed.

Lemma cleared_inv f e s b i : inv f e s -> cleared (tids s) b i -> 1 < i -> unowned f s i ->
  inv f e (set_tids s b).
Proof.
  intros Hi (Hwf & Hsz & Hb) Hr Hn. pose proof (i_tids _ _ _ Hi) as (_ & _ & H0 & H1).
  apply inv_set_tids; try done.
  - rewrite Hb, H0 by lia. destruct (Z.eqb_spec i 0); [lia|done].
  - rewrite Hb, H1 by lia. destruct (Z.eqb_spec i 1); [lia|done].
  - intros j [Hj Hu] Hno. rewrite Hb, Hu by lia. destruct (Z.eqb_spec i j); [by subst|done].
Qed.

(** ** Frames *)

(** A step that changes neither the ids nor the groups of the processes. *)
Lemma inv_view f e s s' : inv f e s -> tids s' = tids s -> pgrps s' = pgrps s ->
  pgrp_list s' = pgrp_list s -> sessions s' = sessions s ->
  (forall a p', procs s' !! a = Some p' -> exists p, procs s !! a = Some p /\ pid p' = pid p /\ pgrp p' = pgrp p) ->
  (forall a p, procs s !! a = Some p -> exists p', procs s' !! a = Some p' /\ pid p' = pid p /\ pgrp p' = pgrp p) ->
  (forall t th' a p', running s' t th' a p' -> 0 < tid th' ->
     exists th p, running s t th a p /\ tid th = tid th' /\ pid p = pid p') ->
  (forall a, a ∈ proc_list s' -> a ∈ proc_list s) -> inv f e s'.
Proof.
  intros [] Et Eg El Es F B R P.
  assert (U : forall i, used s i -> used s' i) by (intros i; unfold used; by rewrite Et).
  constructor; rewrite ?Et, ?Eg, ?El, ?Es; try done.
  - intros a p' Ha. destruct (F _ _ Ha) as (p & Hp' & -> & _). by eapply i_pos0.
  - intros a p' Ha Hf Hp. destruct (F _ _ Ha) as (p & Hp' & E & _). rewrite E in *. apply U. by eapply i_pid0.
  - intros g x Hg. apply U. by eapply i_pgid0.
  - intros a x Ha. apply U. by eapply i_sid0.
  - intros a a' p p' Ha Ha' Hf Hf' Hp Heq.
    destruct (F _ _ Ha) as (q & Hq & E & _), (F _ _ Ha') as (q' & Hq' & E' & _).
    rewrite E, E' in *. by eapply (i_pid_uniq0 a a' q q').
  - intros g x a Hg. rewrite (i_member0 g x a Hg). split; intros (p & Hp & Hpg).
    + destruct (B _ _ Hp) as (p' & ? & _ & ?). exists p'. split; congruence.
    + destruct (F _ _ Hp) as (p' & ? & _ & ?). exists p'. split; congruence.
  - intros a p Ha Hf Hp. destruct (F _ _ Ha) as (q & Hq & E & E'). rewrite E, E' in *. by eapply i_pgrp0.
  - intros a p g Ha Hp. destruct (F _ _ Ha) as (q & Hq & E & E'). rewrite E' in Hp. by eapply i_pgrp_live0.
  - intros a Hin. destruct (i_plist0 a (P a Hin)) as (p & Hp & Hpos). destruct (B _ _ Hp) as (p' & ? & E & _).
    exists p'. split; [done|]. by rewrite E.
  - intros a se Ha. rewrite (i_refs0 a se Ha). unfold ngroups. by rewrite Eg.
  - intros g x a p Hg Ha Hf Heq. destruct (F _ _ Ha) as (q & Hq & E & E'). rewrite E, E' in *. by eapply i_leader0.
  - intros a se b p Ha Hb Hf Heq. destruct (F _ _ Hb) as (q & Hq & E & E'). rewrite E, E' in *. by eapply i_sess_leader0.
  - intros t th a p Hr Ht Hn. destruct (R _ _ _ _ Hr Ht) as (th0 & q & Hr0 & E & E').
    rewrite <- E, <- E' in *. destruct (i_tid0 t th0 a q Hr0 Ht Hn) as (Hu & N1 & N2 & N3 & N4).
    split_and!; [by apply U| |done|done|].
    + intros b q0 Hb Hf Heq. destruct (F _ _ Hb) as (q1 & Hq1 & E1 & _). eapply N1; [done..|congruence].
    + intros t' th' b q0 Hr' Heq. destruct (R _ _ _ _ Hr') as (th1 & q1 & Hr1 & E1 & _); [lia|].
      eapply N4; [done|congruence].
Qed.

(** ** Groups *)

Lemma ngroups_delete s s' o x a : pgrps s !! o = Some x -> pgrps s' = delete o (pgrps s) ->
  ngroups s' a = ngroups s a - (if decide (gsession x = Some a) then 1 else 0).
Proof.
  intros Ho E. unfold ngroups. rewrite E, map_filter_delete. case_decide as Hd.
  - assert (H : filter (in_session a) (pgrps s) !! o = Some x) by by apply map_lookup_filter_Some.
    rewrite map_size_delete, H.
    assert (base.size (filter (in_session a) (pgrps s)) <> 0%nat) by (eapply map_size_ne_0_lookup_2; eauto). lia.
  - rewrite delete_id; [lia|]. apply map_lookup_filter_None. right. intros y Hy. by simplify_eq.
Qed.

Lemma ngroups_ext s s' a : (forall g, gsession <$> pgrps s' !! g = gsession <$> pgrps s !! g) ->
  ngroups s' a = ngroups s a.
Proof.
  intros H. unfold ngroups. f_equal. rewrite <- !(size_dom (D := gset Z)). f_equal. apply set_eq. intros g.
  rewrite !elem_of_dom. unfold is_Some. setoid_rewrite map_lookup_filter_Some. unfold in_session. simpl.
  specialize (H g). destruct (pgrps s' !! g) as [x|], (pgrps s !! g) as [y|]; try done.
  injection H as H. split; intros (z & [= <-] & E); eexists; (split; [done|congruence]).
Qed.

Lemma ngroups_bound f e s a : inv f e s -> 0 <= ngroups s a < THREAD_MAX.
Proof.
  intros []. unfold ngroups, THREAD_MAX. split; [lia|].
  set (m := filter (in_session a) (pgrps s)).
  assert (Hl : forall g x, (g, x) ∈ map_to_list m -> pgrps s !! g = Some x).
  { intros g x Hin. apply elem_of_map_to_list, map_lookup_filter_Some in Hin. apply Hin. }
  assert (Hsub : (fun gx => pgid gx.2) <$> map_to_list m ⊆+ seqZ 1 511).
  { apply NoDup_submseteq.
    - apply NoDup_fmap_2_strong; [|apply NoDup_map_to_list].
      intros [g x] [g' x'] H1 H2 Heq. apply Hl in H1, H2. simpl in Heq.
      pose proof (i_pgid_uniq0 _ _ _ _ H1 H2 Heq) as ->. congruence.
    - intros i (gx & -> & Hin)%list_elem_of_fmap. destruct gx as [g x]. apply Hl in Hin.
      apply elem_of_seqZ. destruct (i_pgid0 _ _ Hin) as [Hu _]. unfold THREAD_MAX in Hu. simpl. lia. }
  apply submseteq_length in Hsub. rewrite length_fmap, length_seqZ, length_map_to_list in Hsub. lia.
Qed.

Lemma session_unref_run s a se : sessions s !! a = Some se -> 1 < sref se < 2 ^ 32 ->
  session_unref s a = Done (set_sessions s (<[a := Session (sref se - 1) (sid se)]> (sessions s))).
Proof.
  intros Ha Hr. unfold session_unref, get_session, ref_dec. rewrite Ha. cbn [deref rbind].
  destruct (Z.ltb_spec 0 (sref se)); [|lia]. cbn [rbind].
  destruct (Z.eqb_spec (sref se) 1); [lia|]. by rewrite u32_small by lia.
Qed.

(** The sessions after one of them lost a group. *)
Definition unref_in s s' (x : pgrp_t) : Prop := forall a, sessions s' !! a =
  (fun se => Session (sref se - if decide (gsession x = Some a) then 1 else 0) (sid se)) <$> sessions s !! a.

Lemma unref_in_lookup s s' x a se : unref_in s s' x -> sessions s' !! a = Some se ->
  exists se0, sessions s !! a = Some se0 /\ sid se = sid se0 /\
    sref se = sref se0 - if decide (gsession x = Some a) then 1 else 0.
Proof. intros H. rewrite (H a). destruct (sessions s !! a); [|done]. intros [= <-]. eauto. Qed.

Lemma drop_group_inv f s s' o x : inv f (Some o) s -> pgrps s !! o = Some x -> members x = [] ->
  procs s' = procs s -> thrs s' = thrs s -> proc_list s' = proc_list s -> tids s' = tids s ->
  pgrps s' = delete o (pgrps s) -> pgrp_list s' = list_rem o (pgrp_list s) -> unref_in s s' x -> inv f None s'.
Proof.
  intros Hi Ho Hm Ep Eth Epl Et Eg El Hse. pose proof Hi as [].
  assert (Hne : forall a p g, procs s !! a = Some p -> pgrp p = Some g -> g <> o).
  { intros a p g Ha Hp ->. assert (a ∈ members x) as Hin by (apply (i_member0 o); eauto).
    rewrite Hm in Hin. by apply not_elem_of_nil in Hin. }
  assert (Hg : forall g y, pgrps s' !! g = Some y <-> g <> o /\ pgrps s !! g = Some y).
  { intros g y. rewrite Eg, lookup_delete_Some. split; intros [? ?]; split; auto. }
  assert (Hrun : forall t th a p, running s' t th a p <-> running s t th a p)
    by (intros; unfold running; by rewrite Ep, Eth).
  constructor; unfold used; rewrite ?Et, ?Ep, ?Epl; try done.
  - intros g y [_ Hy]%Hg. by eapply i_pgid0.
  - intros a se Ha. destruct (unref_in_lookup _ _ _ _ _ Hse Ha) as (se0 & H0 & -> & _). by eapply i_sid0.
  - intros g g' y y' [_ Hy]%Hg [_ Hy']%Hg. by apply i_pgid_uniq0.
  - intros a a' y y' Ha Ha'. destruct (unref_in_lookup _ _ _ _ _ Hse Ha) as (se & H0 & -> & _).
    destruct (unref_in_lookup _ _ _ _ _ Hse Ha') as (se' & H0' & -> & _). by apply i_sid_uniq0.
  - intros g y [Hn Hy]%Hg. split; [by eapply i_members0|]. intros E.
    destruct (i_members0 _ _ Hy) as [_ H]. apply H in E. congruence.
  - intros g y a [_ Hy]%Hg. by apply i_member0.
  - intros g y Hy%Hg. destruct (i_gsession0 g y) as (a & E & se & Hs); [apply Hy|].
    exists a. split; [done|]. rewrite (Hse a), Hs. eauto.
  - intros a p g Ha Hp. destruct (i_pgrp_live0 a p g Ha Hp) as [y Hy]. exists y. apply Hg. eauto.
  - destruct i_glist0 as [Hnd Hin]. rewrite El. split; [by apply NoDup_list_rem|].
    intros g. rewrite elem_of_list_rem, Hin. unfold is_Some. setoid_rewrite Hg. naive_solver.
  - intros a se Ha. destruct (unref_in_lookup _ _ _ _ _ Hse Ha) as (se0 & H0 & _ & ->).
    rewrite (i_refs0 a se0 H0), (ngroups_delete s s' o x a Ho Eg). lia.
  - intros g y a p Hy%Hg. apply i_leader0, Hy.
  - intros a se b p Ha Hb Hf Heq. destruct (unref_in_lookup _ _ _ _ _ Hse Ha) as (se0 & H0 & E & _).
    destruct (i_sess_leader0 a se0 b p H0 Hb Hf) as (g & y & Hp & Hy & H1 & H2); [congruence|].
    exists g, y. split_and!; try done. apply Hg. eauto.
  - destruct i_sess_init0 as (a & se & Ha & E). exists a, (Session (sref se - if decide (gsession x = Some a) then 1 else 0) (sid se)).
    by rewrite (Hse a), Ha.
  - intros a se g y Ha Hy%Hg E. destruct (unref_in_lookup _ _ _ _ _ Hse Ha) as (se0 & H0 & E' & _).
    eapply i_sess_grp0; [done|apply Hy|congruence].
  - intros t th a p Hr%Hrun Ht Hn. destruct (i_tid0 t th a p Hr Ht Hn) as (Hu & N1 & N2 & N3 & N4).
    refine (conj Hu (conj N1 (conj _ (conj _ _)))).
    + intros g y [_ Hy]%Hg. by eapply N2.
    + intros b se Hb. destruct (unref_in_lookup _ _ _ _ _ Hse Hb) as (se0 & H0 & -> & _). by eapply N3.
    + intros t' th' b q Hr'%Hrun. by eapply N4.
Qed.

Lemma proc_search_run s l id : (forall a, a ∈ l -> exists p, procs s !! a = Some p /\ 0 < pid p) ->
  exists r, proc_search s l id = Done r /\
    match r with
    | Some a => exists p, procs s !! a = Some p /\ pid p = id /\ 0 < pid p
    | None => forall a p, a ∈ l -> procs s !! a = Some p -> pid p <> id
    end.
Proof.
  induction l as [|a l IH]; intros Hl; simpl.
  { exists None. split; [done|]. intros a p H. by apply not_elem_of_nil in H. }
  destruct (Hl a (list_elem_of_here _ _)) as (p & Hp & Hpos). unfold get_proc. rewrite Hp. cbn [deref rbind].
  destruct (Z.eqb_spec (pid p) id).
  { exists (Some a). split; [done|]. eauto. }
  destruct IH as (r & -> & Hr); [intros; apply Hl; by apply list_elem_of_further|].
  exists r. split; [done|]. destruct r as [b|]; [done|].
  - intros b q [->|Hb]%elem_of_cons Hq; [congruence|by eapply Hr].
Qed.

Lemma pgrp_search_run s l id : (forall a, a ∈ l -> is_Some (pgrps s !! a)) ->
  exists r, pgrp_search s l id = Done r /\
    match r with
    | Some a => a ∈ l /\ exists p, pgrps s !! a = Some p /\ pgid p = id
    | None => forall a p, a ∈ l -> pgrps s !! a = Some p -> pgid p <> id
    end.
Proof.
  induction l as [|a l IH]; intros Hl; simpl.
  { exists None. split; [done|]. intros a p H. by apply not_elem_of_nil in H. }
  destruct (Hl a (list_elem_of_here _ _)) as [p Hp]. unfold get_pgrp. rewrite Hp. cbn [deref rbind].
  destruct (Z.eqb_spec (pgid p) id).
  { exists (Some a). split; [done|]. split; [apply list_elem_of_here|eauto]. }
  destruct IH as (r & -> & Hr); [intros; apply Hl; by apply list_elem_of_further|].
  exists r. split; [done|]. destruct r as [b|].
  - destruct Hr as [Hb Hr]. split; [by apply list_elem_of_further|done].
  - intros b q [->|Hb]%elem_of_cons Hq; [congruence|by eapply Hr].
Qed.

(** What a group that disappears leaves unchanged. *)
Definition emptied s s' (o : Z) (x : pgrp_t) : Prop :=
  procs s' = procs s /\ thrs s' = thrs s /\ proc_list s' = proc_list s /\
  init_process s' = init_process s /\ world s' = world s /\ pgrps s' = delete o (pgrps s) /\
  (forall a, sid <$> sessions s' !! a = sid <$> sessions s !! a) /\
  (forall j, 0 <= j -> j <> pgid x -> bits (tids s') j = bits (tids s) j).

(** The last part of [pgrp_emptied], on a bit set [b]. *)
Lemma pgrp_free_run f s o x b : inv f (Some o) s -> pgrps s !! o = Some x -> members x = [] ->
  exists s', pgrp_free (set_pgrp_list (set_tids s b) (list_rem o (pgrp_list s))) o = Done (set_tids s' b) /\
    inv f None s' /\ emptied s s' o x /\ tids s' = tids s.
Proof.
  intros Hi Ho Hm. pose proof (i_gsession _ _ _ Hi _ _ Ho) as (sa & Hsa & se & Hse).
  pose proof (i_refs _ _ _ Hi _ _ Hse) as Hr. pose proof (ngroups_bound _ _ _ sa Hi) as Hb.
  set (s' := Kst (procs s) (delete o (pgrps s)) (<[sa := Session (sref se - 1) (sid se)]> (sessions s)) (thrs s)
    (proc_list s) (list_rem o (pgrp_list s)) (tids s) (init_process s) (world s)).
  assert (1 <= ngroups s sa).
  { pose proof (ngroups_delete s s' o x sa Ho eq_refl) as H. rewrite decide_True in H by done.
    unfold ngroups in *. lia. }
  exists s'. split_and!.
  - unfold pgrp_free, get_pgrp. cbn [pgrps set_pgrp_list set_tids]. rewrite Ho. cbn [deref rbind].
    rewrite Hsa, (session_unref_run _ sa se) by first [done|unfold THREAD_MAX in *; lia]. cbn [rbind].
    rewrite !bool_decide_true; [done| |done]. simpl. rewrite elem_of_list_rem. by intros [? _].
  - eapply (drop_group_inv f s s' o x); try done. intros a. simpl. rewrite Hsa, lookup_insert.
    destruct (decide (sa = a)) as [->|Hne].
    + rewrite Hse. simpl. by rewrite decide_True by done.
    + rewrite decide_False by congruence. destruct (sessions s !! a) as [[]|]; simpl; [|done].
      do 2 f_equal. lia.
  - unfold emptied. split_and!; try done. intros a. simpl. rewrite lookup_insert.
    destruct (decide (sa = a)) as [<-|]; [by rewrite Hse|done].
  - done.
Qed.

Lemma set_tids_id s b : tids s = b -> set_tids s b = s.
Proof. destruct s. simpl. by intros ->. Qed.

Lemma emptied_unowned f s s' o x sa se : inv f (Some o) s -> pgrps s !! o = Some x -> members x = [] ->
  gsession x = Some sa -> sessions s !! sa = Some se -> sid se <> pgid x -> emptied s s' o x ->
  unowned f s' (pgid x).
Proof.
  intros [] Ho Hm Hsa Hse Hne (Ep & Eth & _ & _ & _ & Eg & Es & _). split_and!.
  - rewrite Ep. intros a p Ha Hf Heq. assert (a ∈ members x) as Hin by (apply (i_member0 o); eauto).
    rewrite Hm in Hin. by apply not_elem_of_nil in Hin.
  - rewrite Eg. intros g y [Hn Hy]%lookup_delete_Some Heq. eapply Hn, eq_sym, i_pgid_uniq0; eauto.
  - intros a se' Ha Heq. pose proof (Es a) as E. rewrite Ha in E.
    destruct (sessions s !! a) as [se0|] eqn:H0; [|done]. injection E as E.
    assert (gsession x = Some a) as H by (eapply i_sess_grp0; [done..|congruence]). congruence.
  - unfold running. rewrite Ep, Eth. intros t th a p Hr Hn Heq.
    assert (0 < tid th) by (rewrite Heq; apply (i_pgid0 o x Ho)).
    destruct (i_tid0 t th a p Hr) as (_ & _ & N & _); [done..|]. by eapply (N o x).
Qed.

Lemma pgrp_emptied_inv f s o x : inv f (Some o) s -> pgrps s !! o = Some x -> members x = [] ->
  exists s', pgrp_emptied s o = Done s' /\ inv f None s' /\ emptied s s' o x.
Proof.
  intros Hi Ho Hm. pose proof (i_gsession _ _ _ Hi _ _ Ho) as (sa & Hsa & se & Hse).
  assert (Hin : o ∈ pgrp_list s) by (apply (i_glist _ _ _ Hi); eauto).
  destruct (proc_search_run s (proc_list s) (pgid x) (i_plist _ _ _ Hi)) as (r & Hl & _).
  unfold pgrp_emptied, get_pgrp, get_session, proc_lookup. rewrite Ho. cbn [deref rbind]. rewrite Hl, Hsa. cbn [deref rbind].
  rewrite Hse. cbn [deref rbind].
  assert (Hkeep : exists s', (let* '(l, _) := list_remove (pgrp_list s) o in pgrp_free (set_pgrp_list s l) o) = Done s' /\
    inv f None s' /\ emptied s s' o x).
  { rewrite list_remove_Done by done. cbn [rbind].
    destruct (pgrp_free_run f s o x (tids s) Hi Ho Hm) as (s' & Hrun & Hi' & He & Et).
    exists s'. split_and!; try done. rewrite (set_tids_id s') in Hrun by done.
    rewrite <- Hrun. by destruct s. }
  destruct r as [b|]; [exact Hkeep|]. destruct (Z.eqb_spec (sid se) (pgid x)) as [|Hne]; [exact Hkeep|]. clear Hkeep.
  assert (1 < pgid x < THREAD_MAX) as Hr.
  { destruct (i_pgid _ _ _ Hi _ _ Ho) as [Hr _]. destruct (decide (pgid x = 1)); [|lia].
    destruct (i_sess_init _ _ _ Hi) as (a1 & se1 & H1 & H2).
    assert (gsession x = Some a1) by (eapply (i_sess_grp _ _ _ Hi); [done..|congruence]). congruence. }
  destruct (tid_free_run _ _ _ (pgid x) Hi Hr) as (b & Hf & Hc). rewrite Hf. cbn [rbind].
  rewrite list_remove_Done by done. cbn [rbind].
  destruct (pgrp_free_run f s o x b Hi Ho Hm) as (s' & Hrun & Hi' & He & Et). simpl pgrp_list. rewrite Hrun.
  eexists. split; [done|]. split.
  - apply (cleared_inv _ _ _ _ (pgid x)); [done|by rewrite Et|lia|by eapply emptied_unowned].
  - destruct He as (? & ? & ? & ? & ? & ? & ? & _). unfold emptied. simpl. split_and!; try done.
    intros j Hj Hn. destruct Hc as (_ & _ & ->); [|done]. by destruct (Z.eqb_spec (pgid x) j).
Qed.

(** The groups after [a] went from [old] to [grp]. *)
Definition moved s s' (a : Z) (old grp : option Z) : Prop := forall g, pgrps s' !! g =
  (fun x => Pgrp (gsession x)
     (if decide (grp = Some g) then members x ++ [a] else if decide (old = Some g) then list_rem a (members x) else members x)
     (pgid x)) <$> pgrps s !! g.

Lemma moved_lookup s s' a old grp g y : moved s s' a old grp -> pgrps s' !! g = Some y ->
  exists x, pgrps s !! g = Some x /\ pgid y = pgid x /\ gsession y = gsession x /\
    members y = (if decide (grp = Some g) then members x ++ [a]
                 else if decide (old = Some g) then list_rem a (members x) else members x).
Proof. intros H. rewrite (H g). destruct (pgrps s !! g) as [x|]; [|done]. intros [= <-]. exists x. done. Qed.

Lemma move_inv e e' s s' a p grp : inv (Some a) e s -> procs s !! a = Some p -> pgrp p <> grp ->
  match grp with Some g => is_Some (pgrps s !! g) | None => True end ->
  procs s' = <[a := set_pgrp p grp]> (procs s) -> thrs s' = thrs s -> proc_list s' = proc_list s -> tids s' = tids s ->
  sessions s' = sessions s -> pgrp_list s' = pgrp_list s -> moved s s' a (pgrp p) grp ->
  (forall g y, pgrps s' !! g = Some y -> members y = [] -> e' = Some g) -> inv (Some a) e' s'.
Proof.
  intros Hi Ha Hne Hgrp Ep Eth Epl Et Ese El Hmv He'. pose proof Hi as [].
  assert (Hb : forall b q, procs s' !! b = Some q -> Some a <> Some b -> procs s !! b = Some q).
  { intros b q. rewrite Ep. intros Hq Hn. rewrite lookup_insert_ne in Hq; congruence. }
  assert (Hrun : forall t th b q, running s' t th b q -> exists q0, running s t th b q0 /\ pid q0 = pid q).
  { unfold running. rewrite Eth, Ep. intros t th b q (H1 & H2 & H3 & H4). rewrite lookup_insert in H3. case_decide as Hd.
    - subst b. injection H3 as <-. by exists p.
    - exists q. done. }
  assert (Hgs : forall g, is_Some (pgrps s' !! g) <-> is_Some (pgrps s !! g)) by (intros g; by rewrite (Hmv g), fmap_is_Some).
  constructor; unfold used; rewrite ?Et, ?Ese, ?El, ?Epl; try done.
  - intros b q Hq. rewrite Ep, lookup_insert in Hq. case_decide; [|by eapply i_pos0].
    injection Hq as <-. by apply (i_pos0 a p).
  - intros b q Hq Hf. apply Hb in Hq; [|done]. by eapply i_pid0.
  - intros g y Hy. destruct (moved_lookup _ _ _ _ _ _ _ Hmv Hy) as (x & Hx & -> & _). by eapply i_pgid0.
  - intros b b' q q' Hq Hq' Hf Hf'. apply Hb in Hq, Hq'; [|done..]. by eapply i_pid_uniq0.
  - intros g g' y y' Hy Hy' E. destruct (moved_lookup _ _ _ _ _ _ _ Hmv Hy) as (x & Hx & E1 & _).
    destruct (moved_lookup _ _ _ _ _ _ _ Hmv Hy') as (x' & Hx' & E2 & _). eapply i_pgid_uniq0; [done..|congruence].
  - intros g y Hy. split; [|by apply He'].
    destruct (moved_lookup _ _ _ _ _ _ _ Hmv Hy) as (x & Hx & _ & _ & ->).
    pose proof (proj1 (i_members0 _ _ Hx)) as Hnd. case_decide as Hd; [|case_decide; [by apply NoDup_list_rem|done]].
    apply NoDup_app. split_and!; [done| |apply NoDup_singleton]. intros b Hin ->%list_elem_of_singleton.
    apply (i_member0 g x a Hx) in Hin as (p' & Hp' & E). congruence.
  - intros g y b Hy. destruct (moved_lookup _ _ _ _ _ _ _ Hmv Hy) as (x & Hx & _ & _ & ->).
    rewrite Ep. destruct (decide (b = a)) as [->|Hn].
    + rewrite lookup_insert_eq. transitivity (grp = Some g).
      * case_decide; [rewrite elem_of_app, list_elem_of_singleton; naive_solver|].
        split; [|done]. case_decide as Hd; [by intros [? _]%elem_of_list_rem|].
        intros (p' & Hp' & E)%(i_member0 g x a Hx). congruence.
      * split; [intros ->; eauto|]. by intros (? & [= <-] & E).
    + rewrite lookup_insert_ne, <- (i_member0 g x b Hx) by done. case_decide.
      * rewrite elem_of_app, list_elem_of_singleton. naive_solver.
      * case_decide; [|done]. rewrite elem_of_list_rem. naive_solver.
  - intros g y Hy. destruct (moved_lookup _ _ _ _ _ _ _ Hmv Hy) as (x & Hx & _ & -> & _). by eapply i_gsession0.
  - intros b q Hq Hf. apply Hb in Hq; [|done]. by eapply i_pgrp0.
  - intros b q g Hq E. apply Hgs. rewrite Ep, lookup_insert in Hq. case_decide.
    + injection Hq as <-. simpl in E. by rewrite E in Hgrp.
    + by eapply i_pgrp_live0.
  - split; [apply i_glist0|]. intros g. rewrite Hgs. apply i_glist0.
  - intros b Hin. destruct (i_plist0 b Hin) as (q & Hq & Hpos). rewrite Ep, lookup_insert. case_decide; [|eauto].
    subst b. exists (set_pgrp p grp). split; [done|]. simpl. congruence.
  - intros b se Hse. rewrite (i_refs0 b se Hse). f_equal. symmetry. apply ngroups_ext. intros g.
    rewrite (Hmv g), <- option_fmap_compose. by apply option_fmap_ext.
  - intros g y b q Hy Hq Hf E. apply Hb in Hq; [|done].
    destruct (moved_lookup _ _ _ _ _ _ _ Hmv Hy) as (x & Hx & E' & _). eapply i_leader0; [done..|congruence].
  - intros b se c q Hse Hq Hf E. apply Hb in Hq; [|done].
    destruct (i_sess_leader0 b se c q Hse Hq Hf E) as (g & x & E1 & Hx & E2 & E3).
    exists g. rewrite (Hmv g), Hx. simpl. eauto 10.
  - intros b se g y Hse Hy E. destruct (moved_lookup _ _ _ _ _ _ _ Hmv Hy) as (x & Hx & E' & -> & _).
    eapply i_sess_grp0; [done..|congruence].
  - intros t th b q Hr Ht Hn. destruct (Hrun _ _ _ _ Hr) as (q0 & Hr0 & E). rewrite <- E in Hn.
    destruct (i_tid0 t th b q0 Hr0 Ht Hn) as (Hu & N1 & N2 & N3 & N4).
    refine (conj Hu (conj _ (conj _ (conj N3 _)))).
    + intros c q' Hq' Hf. apply Hb in Hq'; [|done]. by eapply N1.
    + intros g y Hy. destruct (moved_lookup _ _ _ _ _ _ _ Hmv Hy) as (x & Hx & -> & _). by eapply N2.
    + intros t' th' c q' Hr'. destruct (Hrun _ _ _ _ Hr') as (q1 & Hr1 & _). by eapply N4.
Qed.

(** What [pgrp_enter] changes. *)
Definition entered s s' (a : Z) (p : proc_t) (grp : option Z) : Prop :=
  procs s' = <[a := set_pgrp p grp]> (procs s) /\ thrs s' = thrs s /\ proc_list s' = proc_list s /\
  init_process s' = init_process s /\ world s' = world s /\
  (forall b, sid <$> sessions s' !! b = sid <$> sessions s !! b) /\
  (forall g y, pgrps s' !! g = Some y -> exists x, pgrps s !! g = Some x /\ pgid y = pgid x /\ gsession y = gsession x) /\
  (forall g x, pgrps s !! g = Some x -> pgrp p <> Some g ->
     exists y, pgrps s' !! g = Some y /\ pgid y = pgid x /\ gsession y = gsession x) /\
  (forall j, 0 <= j -> (forall o x, pgrp p = Some o -> pgrps s !! o = Some x -> pgid x <> j) ->
     bits (tids s') j = bits (tids s) j).

(** The state before an empty group is dropped. *)
Definition placed s (a : Z) (p : proc_t) (grp : option Z) (m : gmap Z pgrp_t) : kst W :=
  set_pgrps (put_proc s a (set_pgrp p grp)) m.

Lemma placed_entered s a p grp m : moved s (placed s a p grp m) a (pgrp p) grp ->
  entered s (placed s a p grp m) a p grp.
Proof.
  intros Hmv. unfold entered. split_and!; try done.
  - intros g y Hy. destruct (moved_lookup _ _ _ _ _ _ _ Hmv Hy) as (x & Hx & ? & ? & _). eauto.
  - intros g x Hg _. rewrite (Hmv g), Hg. eexists. split; [done|done].
Qed.

(** The two list operations. *)
Lemma pgrp_move_run e s a p grp : inv (Some a) e s -> procs s !! a = Some p -> pgrp p <> grp ->
  match grp with Some g => is_Some (pgrps s !! g) | None => True end ->
  exists m empty, (let s := put_proc s a (set_pgrp p grp) in
    let* '(s, empty) := match pgrp p with Some o => pgrp_leave s a o | None => Done (s, false) end in
    let* s := match grp with Some g => pgrp_append s a g | None => Done s end in
    Done (s, empty)) = Done (placed s a p grp m, empty) /\
  moved s (placed s a p grp m) a (pgrp p) grp /\
  (empty = true <-> exists o x, pgrp p = Some o /\ m !! o = Some x /\ members x = []).
Proof.
  intros Hi Ha Hne Hgrp. cbv zeta.
  assert (exists m empty, (match pgrp p with Some o => pgrp_leave (put_proc s a (set_pgrp p grp)) a o
      | None => Done (put_proc s a (set_pgrp p grp), false) end) = Done (placed s a p grp m, empty) /\
    (forall g, m !! g = (fun x => Pgrp (gsession x) (if decide (pgrp p = Some g) then list_rem a (members x) else members x)
      (pgid x)) <$> pgrps s !! g) /\
    (empty = true <-> exists o x, pgrp p = Some o /\ m !! o = Some x /\ members x = []))
    as (m & empty & -> & Hm & Hemp).
  { destruct (pgrp p) as [o|] eqn:Eo.
    - destruct (i_pgrp_live _ _ _ Hi a p o Ha Eo) as [x Hx].
      assert (a ∈ members x) as Hin by (apply (i_member _ _ _ Hi o x a Hx); eauto).
      exists (<[o := Pgrp (gsession x) (list_rem a (members x)) (pgid x)]> (pgrps s)), (bool_decide (list_rem a (members x) = [])).
      unfold pgrp_leave, get_pgrp. simpl. rewrite Hx. cbn [deref rbind]. rewrite list_remove_Done by done. cbn [rbind].
      split_and!; [done| |].
      + intros g. rewrite lookup_insert. destruct (decide (o = g)) as [<-|Hn].
        * rewrite Hx. cbn [fmap option_fmap option_map]. by rewrite decide_True by done.
        * destruct (pgrps s !! g) as [[]|]; [|done]. cbn [fmap option_fmap option_map]. by rewrite decide_False by congruence.
      + rewrite bool_decide_eq_true. split.
        * intros E. eexists o, _. rewrite lookup_insert_eq. done.
        * intros (o' & y & [= <-] & Hy & E). rewrite lookup_insert_eq in Hy. by injection Hy as <-.
    - exists (pgrps s), false. split_and!; [by destruct s| |naive_solver].
      intros g. destruct (pgrps s !! g) as [[]|]; [|done]. cbn [fmap option_fmap option_map]. by rewrite decide_False by done. }
  cbn [rbind]. destruct grp as [g|].
  - destruct Hgrp as [x Hx]. unfold pgrp_append, get_pgrp. simpl. rewrite (Hm g), Hx. cbn [fmap option_fmap option_map deref rbind].
    rewrite decide_False by done. eexists _, empty. split; [done|]. split.
    + intros h. simpl. rewrite lookup_insert. destruct (decide (g = h)) as [<-|Hn].
      * rewrite Hx. cbn [fmap option_fmap option_map]. by rewrite decide_True by done.
      * rewrite (Hm h). destruct (pgrps s !! h) as [[]|]; [|done]. cbn [fmap option_fmap option_map].
        by rewrite (decide_False (P := Some g = Some h)) by congruence.
    + rewrite Hemp. split; intros (o & y & E1 & Hy & E2); exists o, y; split_and!; try done; simpl in *.
      * rewrite lookup_insert_ne; [done|congruence].
      * rewrite lookup_insert_ne in Hy; [done|congruence].
  - exists m, empty. split_and!; [done| |done]. intros h. simpl. rewrite (Hm h).
    by destruct (pgrps s !! h) as [[]|].
Qed.

Lemma pgrp_enter_inv e s me a p grp : inv (Some a) e s -> procs s !! a = Some p -> pgrp p <> grp ->
  match grp with Some g => is_Some (pgrps s !! g) /\ (e = None \/ e = Some g) | None => e = None end ->
  negb (a =? me) && proc_test_flags p PROC_EXEC && negb (proc_test_flags p PROC_ZOMBIE) = false ->
  exists s', pgrp_enter s me a grp = Done (0, s') /\ inv (Some a) None s' /\ entered s s' a p grp.
Proof.
  intros Hi Ha Hne Hgrp Hguard.
  destruct (pgrp_move_run e s a p grp Hi Ha Hne) as (m & empty & Hrun & Hmv & Hemp); [destruct grp; [apply Hgrp|done]|].
  assert (Hall : forall g y, m !! g = Some y -> members y = [] -> pgrp p = Some g).
  { intros g y Hy E. destruct (moved_lookup _ _ _ _ _ _ _ Hmv Hy) as (x & Hx & _ & _ & E').
    rewrite E in E'. case_decide; [by destruct (members x)|]. case_decide; [done|].
    destruct (i_members _ _ _ Hi _ _ Hx) as [_ He]. specialize (He (eq_sym E')). destruct grp as [g'|]; [|congruence].
    destruct Hgrp as [_ [?|?]]; congruence. }
  unfold pgrp_enter, get_proc. rewrite Ha. cbn [deref rbind]. rewrite bool_decide_false, Hguard by done. cbn [negb].
  cbv zeta in Hrun. revert Hrun.
  destruct (match pgrp p with Some o => _ | None => _ end) as [[s1 emp1]| | |]; try done. cbn [rbind].
  destruct (match grp with Some g => _ | None => _ end) as [s2| | |]; try done. cbn [rbind]. intros [= -> ->].
  pose proof (placed_entered s a p grp m Hmv) as Hent.
  assert (Hplace : forall e', (forall g y, m !! g = Some y -> members y = [] -> e' = Some g) ->
    inv (Some a) e' (placed s a p grp m)).
  { intros e' He'. eapply (move_inv e e' s); try done. destruct grp; [apply Hgrp|done]. }
  assert (Hstay : empty = false -> exists s', Done (0, placed s a p grp m) = Done (0, s') /\
    inv (Some a) None s' /\ entered s s' a p grp).
  { intros ->. eexists. split_and!; [done| |done]. apply Hplace. intros g y Hy E. exfalso.
    assert (false = true) by (apply Hemp; exists g, y; eauto). done. }
  destruct (pgrp p) as [o|] eqn:Eo; [|apply Hstay; destruct empty; [|done]; by destruct Hemp as [(? & ? & ? & _) _]].
  destruct empty; [|by apply Hstay].
  destruct Hemp as [(o' & x & [= <-] & Hx & Ex) _]; [done|].
  destruct (pgrp_emptied_inv (Some a) (placed s a p grp m) o x) as (s' & -> & Hi' & He); try done.
  { apply Hplace. intros g y Hy E. by eapply Hall. }
  exists s'. split_and!; [done..|].
  destruct He as (E1 & E2 & E3 & E4 & E5 & E6 & E7 & E8), Hent as (F1 & F2 & F3 & F4 & F5 & F6 & F7 & F8 & F9).
  destruct (moved_lookup _ _ _ _ _ _ _ Hmv Hx) as (x0 & Hx0 & Epg & _).
  unfold entered. rewrite E1, E2, E3, E4, E5. split_and!; try done.
  - intros g y Hy. rewrite E6 in Hy. apply lookup_delete_Some in Hy as [_ Hy]. by apply F7.
  - intros g y Hy Hn. rewrite E6. rewrite Eo in Hn. destruct (F8 g y Hy) as (z & Hz & ? & ?); [congruence|].
    exists z. rewrite lookup_delete_ne by congruence. done.
  - intros j Hj Hno. rewrite E8; [by apply F9|done|]. rewrite Epg. apply not_eq_sym. by eapply Hno.
Qed.

(** ** Processes that enter and leave the count *)

Lemma inv_forget a e s : inv None e s -> inv (Some a) e s.
Proof.
  intros []. constructor; try done.
  - intros b p Hb _. by eapply i_pid0.
  - intros b b' p p' Hb Hb' _ _. by eapply i_pid_uniq0.
  - intros b p Hb _. by eapply i_pgrp0.
  - intros g x b p Hg Hb _. by eapply i_leader0.
  - intros b se c p Hb Hc _. by eapply i_sess_leader0.
  - intros t th b p Hr Ht Hn. destruct (i_tid0 t th b p Hr Ht Hn) as (Hu & N & Hrest). refine (conj Hu (conj _ Hrest)).
    intros c q Hc _. by eapply N.
Qed.

(** No object but process [a] and what belongs to it has its pid. *)
Record alone s (a : Z) (p : proc_t) : Prop := {
  al_used : used s (pid p);
  al_proc : forall b q, procs s !! b = Some q -> b <> a -> pid q <> pid p;
  al_tid : forall t th b q, running s t th b q -> 0 < tid th -> tid th <> pid q -> tid th <> pid p;
}.

Lemma inv_alone s a p : inv None None s -> procs s !! a = Some p -> 0 < pid p -> alone s a p.
Proof.
  intros [] Ha Hp. constructor.
  - by eapply i_pid0.
  - intros b q Hb Hn E. apply Hn. symmetry. by eapply i_pid_uniq0.
  - intros t th b q Hr Ht Hn E. destruct (i_tid0 t th b q Hr Ht Hn) as (_ & N & _). by eapply N.
Qed.

Lemma inv_recount s a p : inv (Some a) None s -> procs s !! a = Some p -> alone s a p -> is_Some (pgrp p) ->
  (forall g x, pgrps s !! g = Some x -> pgid x = pid p -> pgrp p = Some g) ->
  (forall b se, sessions s !! b = Some se -> sid se = pid p ->
     exists g x, pgrp p = Some g /\ pgrps s !! g = Some x /\ gsession x = Some b /\ pgid x = pid p) -> inv None None s.
Proof.
  intros [] Ha [Au Ap At] Hg Hl Hs.
  assert (D : forall b q, procs s !! b = Some q -> (b = a /\ q = p) \/ Some a <> Some b).
  { intros b q Hb. destruct (decide (b = a)) as [->|]; [left; split; congruence|right; congruence]. }
  constructor; try done.
  - intros b q Hb _ Hq. destruct (D b q Hb) as [[-> ->]|]; [done|by eapply i_pid0].
  - intros b b' q q' Hb Hb' _ _ Hq E. destruct (D b q Hb) as [[-> ->]|Hn], (D b' q' Hb') as [[-> ->]|Hn']; [done| | |by eapply i_pid_uniq0].
    + exfalso. eapply (Ap b'); [done|congruence|done].
    + exfalso. eapply (Ap b); [done|congruence|done].
  - intros b q Hb _ Hq. destruct (D b q Hb) as [[-> ->]|]; [done|by eapply i_pgrp0].
  - intros g x b q Hx Hb _ E. destruct (D b q Hb) as [[-> ->]|]; [by eapply Hl|by eapply i_leader0].
  - intros b se c q Hb Hc _ E. destruct (D c q Hc) as [[-> ->]|]; [by eapply Hs|by eapply i_sess_leader0].
  - intros t th b q Hr Ht Hn. destruct (i_tid0 t th b q Hr Ht Hn) as (Hu & N & Hrest). refine (conj Hu (conj _ Hrest)).
    intros c q' Hc _ E. destruct (D c q' Hc) as [[-> ->]|]; [by eapply At|by eapply N].
Qed.

(** ** New sessions and groups *)

Lemma ngroups_none s a : (forall g x, pgrps s !! g = Some x -> gsession x <> Some a) -> ngroups s a = 0.
Proof.
  intros H. unfold ngroups. replace (filter (in_session a) (pgrps s)) with (∅ : gmap Z pgrp_t); [by rewrite map_size_empty|].
  symmetry. apply map_empty. intros g. apply map_lookup_filter_None. right. intros x Hx. by eapply H.
Qed.

Lemma ngroups_new s s' b x a : pgrps s !! b = None -> pgrps s' = <[b := x]> (pgrps s) ->
  ngroups s' a = ngroups s a + (if decide (gsession x = Some a) then 1 else 0).
Proof.
  intros Hb E. unfold ngroups. rewrite E, map_filter_insert.
  destruct (decide (in_session a (b, x))) as [Hd|Hd]; unfold in_session in Hd; simpl in Hd.
  - rewrite decide_True, map_size_insert_None by (done || (apply map_lookup_filter_None; by left)). lia.
  - rewrite decide_False, delete_id by done. lia.
Qed.

Lemma new_session_inv s a p sa : inv (Some a) None s -> alone s a p -> sessions s !! sa = None ->
  (forall g x, pgrps s !! g = Some x -> pgid x <> pid p) ->
  (forall b se, sessions s !! b = Some se -> sid se <> pid p) -> inv (Some a) None (session_alloc s sa (pid p)).
Proof.
  intros [] [Au Ap At] Hsa Hg Hs. 
  assert (L : forall b se, sessions (session_alloc s sa (pid p)) !! b = Some se ->
    (b = sa /\ se = Session 1 (pid p)) \/ (b <> sa /\ sessions s !! b = Some se)).
  { intros b se. simpl. rewrite lookup_insert. destruct (decide (sa = b)); [intros [= <-]; auto|auto]. }
  constructor; try done.
  - intros b se Hb. destruct (L b se Hb) as [[-> ->]|[_ H]]; [done|by eapply i_sid0].
  - intros b b' x x' Hb Hb' E. destruct (L _ _ Hb) as [[-> ->]|[_ H]], (L _ _ Hb') as [[-> ->]|[_ H']];
      [done| | |by eapply i_sid_uniq0]; exfalso; simpl in E; eapply Hs; eauto.
  - intros g x Hx. destruct (i_gsession0 g x Hx) as (b & E & Hb). exists b. split; [done|].
    simpl. rewrite lookup_insert_is_Some. destruct (decide (sa = b)); auto.
  - intros b se Hb. destruct (L b se Hb) as [[-> ->]|[_ H]]; [|by apply i_refs0]. simpl.
    change (1 = 1 + ngroups s sa). rewrite ngroups_none; [done|]. intros g x Hx E.
    destruct (i_gsession0 g x Hx) as (b & E' & Hb'). assert (b = sa) as -> by congruence.
    rewrite Hsa in Hb'. by destruct Hb'.
  - intros b se c q Hb Hc Hf E. destruct (L b se Hb) as [[-> ->]|[_ H]]; [|by eapply i_sess_leader0].
    exfalso. eapply (Ap c); [done|congruence|done].
  - destruct i_sess_init0 as (b & se & Hb & E). exists b, se. split; [|done]. simpl. rewrite lookup_insert_ne; [done|congruence].
  - intros b se g x Hb Hx E. destruct (L b se Hb) as [[-> ->]|[_ H]]; [|by eapply i_sess_grp0].
    exfalso. by eapply Hg.
  - intros t th b q Hr Ht Hn. destruct (i_tid0 t th b q Hr Ht Hn) as (Hu & N1 & N2 & N & N4). refine (conj Hu (conj N1 (conj N2 (conj _ N4)))).
    intros c se Hc. destruct (L c se Hc) as [[-> ->]|[_ H']]; [|by eapply N]. simpl. apply not_eq_sym. by eapply At.
Qed.

(** The state after [pgrp_setup] of a new group [b]. *)
Definition with_group s b id sa se : kst W :=
  Kst (procs s) (<[b := Pgrp (Some sa) [] id]> (pgrps s)) (<[sa := Session (sref se + 1) (sid se)]> (sessions s))
    (thrs s) (proc_list s) (pgrp_list s ++ [b]) (tids s) (init_process s) (world s).

Lemma pgrp_setup_run f e s b id sa se : inv f e s -> sessions s !! sa = Some se ->
  pgrp_setup (pgrp_alloc s b) b id sa = Done (with_group s b id sa se).
Proof.
  intros Hi Hsa. pose proof (i_refs _ _ _ Hi _ _ Hsa) as Hr. pose proof (ngroups_bound _ _ _ sa Hi) as Hb.
  unfold pgrp_setup, session_ref, get_session, get_pgrp, ref_inc. simpl. rewrite Hsa. cbn [deref rbind].
  unfold UINT32_MAX, THREAD_MAX in *. destruct (Z.ltb_spec (sref se) (2 ^ 32 - 1)); [|lia]. cbn [rbind].
  rewrite u32_small by lia. simpl. rewrite lookup_insert_eq. cbn [deref rbind]. unfold with_group, set_pgrp_list. simpl.
  by rewrite insert_insert_eq.
Qed.

Lemma with_group_inv s a p b sa se : inv (Some a) None s -> alone s a p ->
  pgrps s !! b = None -> sessions s !! sa = Some se ->
  (forall g x, pgrps s !! g = Some x -> pgid x <> pid p) ->
  (forall c se', sessions s !! c = Some se' -> sid se' = pid p -> c = sa) ->
  inv (Some a) (Some b) (with_group s b (pid p) sa se).
Proof.
  intros Hi [Au Ap At] Hb Hsa Hg Hs. pose proof Hi as [].
  assert (L : forall c x, sessions (with_group s b (pid p) sa se) !! c = Some x -> exists x0,
    sessions s !! c = Some x0 /\ sid x = sid x0 /\ sref x = sref x0 + if decide (sa = c) then 1 else 0).
  { intros c x. simpl. rewrite lookup_insert. destruct (decide (sa = c)) as [->|].
    - intros [= <-]. exists se. done.
    - intros Hx. exists x. split_and!; [done..|lia]. }
  assert (G : forall g x, pgrps (with_group s b (pid p) sa se) !! g = Some x ->
    (g = b /\ x = Pgrp (Some sa) [] (pid p)) \/ (g <> b /\ pgrps s !! g = Some x)).
  { intros g x. simpl. rewrite lookup_insert. destruct (decide (b = g)); [intros [= <-]; auto|auto]. }
  assert (Hold : forall c q g, procs s !! c = Some q -> pgrp q = Some g -> g <> b).
  { intros c q g Hc Hq ->. destruct (i_pgrp_live0 c q b Hc Hq) as [? ?]. congruence. }
  constructor; try done.
  - intros g x Hx. destruct (G g x Hx) as [[-> ->]|[_ H]]; [done|by eapply i_pgid0].
  - intros c x Hx. destruct (L c x Hx) as (x0 & H0 & -> & _). by eapply i_sid0.
  - intros g g' x x' Hx Hx' E. destruct (G _ _ Hx) as [[-> ->]|[_ H]], (G _ _ Hx') as [[-> ->]|[_ H']];
      [done| | |by eapply i_pgid_uniq0]; exfalso; simpl in E; eapply Hg; eauto.
  - intros c c' x x' Hx Hx' E. destruct (L _ _ Hx) as (x0 & H0 & E0 & _), (L _ _ Hx') as (x1 & H1 & E1 & _).
    eapply i_sid_uniq0; [done..|congruence].
  - intros g x Hx. destruct (G g x Hx) as [[-> ->]|[_ H]]; [split; [constructor|done]|].
    split; [by eapply i_members0|]. intros E. destruct (i_members0 g x H) as [_ He]. by apply He in E.
  - intros g x c Hx. destruct (G g x Hx) as [[-> ->]|[_ H]]; [|by apply i_member0]. simpl. split.
    + intros Hin. by apply not_elem_of_nil in Hin.
    + intros (q & Hq & E). by destruct (Hold c q b Hq E).
  - intros g x Hx. destruct (G g x Hx) as [[-> ->]|[_ H]].
    + exists sa. split; [done|]. simpl. rewrite lookup_insert_eq. eauto.
    + destruct (i_gsession0 g x H) as (c & E & Hc). exists c. split; [done|]. simpl.
      rewrite lookup_insert_is_Some. destruct (decide (sa = c)); auto.
  - intros c q g Hc E. destruct (i_pgrp_live0 c q g Hc E) as [x Hx]. exists x. simpl.
    rewrite lookup_insert_ne; [done|]. intros <-. by destruct (Hold c q b Hc E).
  - simpl. destruct i_glist0 as [Hnd Hin]. split.
    + apply NoDup_app. split_and!; [done| |apply NoDup_singleton].
      intros g Hg' ->%list_elem_of_singleton. apply Hin in Hg' as [? ?]. congruence.
    + intros g. rewrite elem_of_app, list_elem_of_singleton, Hin, lookup_insert_is_Some.
      destruct (decide (b = g)); naive_solver.
  - intros c x Hx. destruct (L c x Hx) as (x0 & H0 & _ & ->). rewrite (i_refs0 c x0 H0).
    rewrite (ngroups_new s (with_group s b (pid p) sa se) b (Pgrp (Some sa) [] (pid p)) c Hb eq_refl). simpl.
    destruct (decide (sa = c)) as [->|]; [rewrite decide_True by done; lia|].
    rewrite decide_False by congruence. lia.
  - intros g x c q Hx Hc Hf E. destruct (G g x Hx) as [[-> ->]|[_ H]]; [|by eapply i_leader0].
    exfalso. eapply (Ap c); [done|congruence|done].
  - intros c x d q Hx Hd Hf E. destruct (L c x Hx) as (x0 & H0 & E0 & _).
    destruct (i_sess_leader0 c x0 d q H0 Hd Hf) as (g & y & E1 & Hy & E2 & E3); [congruence|].
    exists g, y. split_and!; try done. simpl. rewrite lookup_insert_ne; [done|congruence].
  - destruct i_sess_init0 as (c & x & Hc & E). simpl. destruct (decide (c = sa)) as [->|].
    + exists sa, (Session (sref se + 1) (sid se)). rewrite lookup_insert_eq. split; [done|]. simpl. congruence.
    + exists c, x. by rewrite lookup_insert_ne.
  - intros c x g y Hx Hy E. destruct (L c x Hx) as (x0 & H0 & E0 & _).
    destruct (G g y Hy) as [[-> ->]|[_ H]]; [|eapply i_sess_grp0; [done..|congruence]].
    simpl in *. f_equal. symmetry. eapply Hs; [done|congruence].
  - intros t th c q Hr Ht Hn. destruct (i_tid0 t th c q Hr Ht Hn) as (Hu & N1 & N2 & N3 & N4).
    refine (conj Hu (conj N1 (conj _ (conj _ N4)))).
    + intros g x Hx. destruct (G g x Hx) as [[-> ->]|[_ H]]; [|by eapply N2]. simpl. apply not_eq_sym. by eapply At.
    + intros d x Hx. destruct (L d x Hx) as (x0 & H0 & -> & _). by eapply N3.
Qed.

Lemma alone_entered s s' a p grp : procs s !! a = Some p -> alone s a p -> entered s s' a p grp ->
  (forall o x, pgrp p = Some o -> pgrps s !! o = Some x -> pgid x <> pid p) -> alone s' a (set_pgrp p grp).
Proof.
  intros Ha [Au Ap At] (Ep & Eth & _ & _ & _ & _ & _ & _ & Eb) Hno. constructor; simpl.
  - destruct Au as [Hr Hb]. split; [done|]. rewrite Eb; [done|lia|done].
  - intros b q. rewrite Ep, lookup_insert. case_decide; [congruence|by apply Ap].
  - unfold running. rewrite Eth, Ep. intros t th b q (H1 & H2 & H3 & H4) Ht Hn.
    rewrite lookup_insert in H3. case_decide as Hd.
    + subst b. injection H3 as <-. simpl in *. eapply (At t th a p); [unfold running; eauto|done..].
    + eapply (At t th b q); [unfold running; eauto|done..].
Qed.

(** The group, and its session, of a process that counts. *)
Lemma proc_group e s a p : inv None e s -> procs s !! a = Some p -> 0 < pid p ->
  exists g x sa se, pgrp p = Some g /\ pgrps s !! g = Some x /\ gsession x = Some sa /\ sessions s !! sa = Some se.
Proof.
  intros [] Ha Hp. destruct (i_pgrp0 a p Ha) as [g Hg]; [done..|].
  destruct (i_pgrp_live0 a p g Ha Hg) as [x Hx], (i_gsession0 g x) as (sa & Hsa & se & Hse); [done|].
  by exists g, x, sa, se.
Qed.

Lemma pgrp_unalloc s b : pgrps s !! b = None -> b ∉ pgrp_list s -> pgrp_free (pgrp_alloc s b) b = Done s.
Proof.
  intros Hb Hl. unfold pgrp_free, get_pgrp. simpl. rewrite lookup_insert_eq. cbn [deref rbind gsession members].
  rewrite !bool_decide_true by done. destruct s. unfold set_pgrps. simpl in *. by rewrite delete_insert_id.
Qed.

Lemma fresh_not_listed f e s b : inv f e s -> pgrps s !! b = None -> b ∉ pgrp_list s.
Proof. intros [] Hb Hin. apply i_glist0 in Hin as [? ?]. congruence. Qed.

(** [pgrp_lookup] while a group is being allocated. *)
Lemma pgrp_lookup_alloc e s b id : inv None e s -> pgrps s !! b = None ->
  exists r, pgrp_lookup (pgrp_alloc s b) id = Done r /\
    match r with
    | Some g => g <> b /\ exists x, pgrps s !! g = Some x /\ pgid x = id
    | None => forall g x, pgrps s !! g = Some x -> pgid x <> id
    end.
Proof.
  intros Hi Hb. pose proof (fresh_not_listed _ _ _ _ Hi Hb) as Hl. destruct (i_glist _ _ _ Hi) as [_ Hg].
  destruct (pgrp_search_run (pgrp_alloc s b) (pgrp_list s) id) as (r & Hr & Hspec).
  { intros g Hin. simpl. rewrite lookup_insert_is_Some. destruct (decide (b = g)); [by left|right; split; [done|by apply Hg]]. }
  exists r. split; [exact Hr|]. destruct r as [g|].
  - destruct Hspec as (Hin & x & Hx & E). assert (g <> b) by (intros ->; done). split; [done|].
    simpl in Hx. rewrite lookup_insert_ne in Hx by done. eauto.
  - intros g x Hx. apply (Hspec g x); [apply Hg; eauto|]. simpl. rewrite lookup_insert_ne; [done|congruence].
Qed.

(** A process becomes the first member of a new group with its pid. *)
(** [a] is the only member of the new group [b] of session [sa]. *)
Definition leads s s' (a : Z) (p : proc_t) (b sa : Z) : Prop :=
  procs s' = <[a := set_pgrp p (Some b)]> (procs s) /\
  pgrps s' !! b = Some (Pgrp (Some sa) [a] (pid p)) /\ sid <$> sessions s' !! sa = sid <$> sessions s !! sa.

Lemma only_member e s a p b x : inv None e s -> pgrps s !! b = Some x -> procs s !! a = Some p -> pgrp p = Some b ->
  (forall c q, procs s !! c = Some q -> pgrp q = Some b -> c = a) -> members x = [a].
Proof.
  intros [] Hb Ha Hp Hone. assert (a ∈ members x) as Hin by (apply (i_member0 b); eauto).
  assert (Hall : forall c, c ∈ members x -> c = a) by (intros c (q & Hq & E)%(i_member0 b); eauto).
  destruct (i_members0 b x Hb) as [Hnd _]. clear -Hin Hall Hnd.
  destruct (members x) as [|c [|d l]]; [by apply not_elem_of_nil in Hin| |].
  - f_equal. apply Hall, list_elem_of_here.
  - exfalso. apply NoDup_cons in Hnd as [Hnd _]. apply Hnd.
    rewrite (Hall c), <- (Hall d) by (repeat first [apply list_elem_of_here|apply list_elem_of_further]).
    apply list_elem_of_here.
Qed.

Lemma enter_new_group s me a p b sa se : inv (Some a) None s -> procs s !! a = Some p -> alone s a p ->
  pgrps s !! b = None -> sessions s !! sa = Some se ->
  (forall g x, pgrps s !! g = Some x -> pgid x <> pid p) ->
  (forall c se', sessions s !! c = Some se' -> sid se' = pid p -> c = sa) ->
  negb (a =? me) && proc_test_flags p PROC_EXEC && negb (proc_test_flags p PROC_ZOMBIE) = false ->
  exists s', pgrp_enter (with_group s b (pid p) sa se) me a (Some b) = Done (0, s') /\ inv None None s' /\
    leads s s' a p b sa.
Proof.
  intros Hi Ha Hal Hb Hsa Hng Hns Hguard. set (s2 := with_group s b (pid p) sa se).
  assert (Hi2 : inv (Some a) (Some b) s2) by by apply with_group_inv.
  assert (Hpb : pgrp p <> Some b).
  { intros E. destruct (i_pgrp_live _ _ _ Hi a p b Ha E) as [? ?]. congruence. }
  destruct (pgrp_enter_inv (Some b) s2 me a p (Some b) Hi2) as (s3 & Hrun & Hi3 & Hent); try done.
  { split; [|by right]. simpl. rewrite lookup_insert_eq. eauto. }
  exists s3. split; [done|]. pose proof Hent as (E1 & _ & _ & _ & _ & E6 & E7 & E8 & _).
  destruct (E8 b (Pgrp (Some sa) [] (pid p))) as (y & Hy & Ey & Es'); [apply lookup_insert_eq|done|].
  assert (Hi' : inv None None s3).
  { apply (inv_recount s3 a (set_pgrp p (Some b)) Hi3).
    - by rewrite E1, lookup_insert_eq.
    - eapply (alone_entered s2); [done|destruct Hal; by constructor|done|].
      intros o z E Hz. simpl in Hz. rewrite lookup_insert_ne in Hz by congruence. by eapply Hng.
    - eauto.
    - intros h z Hz E. simpl in *. f_equal. destruct (E7 h z Hz) as (z' & Hz' & Ez & _). simpl in Hz'.
      rewrite lookup_insert in Hz'. case_decide as Hd; [done|]. exfalso. eapply (Hng h z'); [done|congruence].
    - intros d se' Hd E. simpl in E. pose proof (E6 d) as Es. rewrite Hd in Es. simpl in Es.
      assert (d = sa) as ->; [|by exists b, y].
      rewrite lookup_insert in Es. case_decide; [done|]. destruct (sessions s !! d) as [se0|] eqn:H0; [|done].
      injection Es as Es. eapply Hns; [done|congruence]. }
  split; [done|]. unfold leads. split_and!; [done| |].
  - rewrite Hy. destruct y as [gs ms i]. simpl in Ey, Es'. subst i gs. do 2 f_equal.
    apply (only_member _ _ a (set_pgrp p (Some b)) b _ Hi' Hy); [by rewrite E1, lookup_insert_eq|done|].
    intros c q Hc Eq. rewrite E1, lookup_insert in Hc. case_decide; [done|].
    destruct (i_pgrp_live _ _ _ Hi c q b Hc Eq). congruence.
  - rewrite E6. simpl. by rewrite lookup_insert_eq, Hsa.
Qed.

Lemma sys_setsid_inv s cur th me c sa b : inv None None s -> running s cur th me c -> 0 < pid c ->
  sessions s !! sa = None -> pgrps s !! b = None ->
  exists r s', sys_setsid s cur sa b = Done (r, s') /\ inv None None s' /\
    ((r = - EPERM /\ s' = s /\ exists g x, pgrps s !! g = Some x /\ pgid x = pid c) \/
     (r = pid c /\ (forall g x, pgrps s !! g = Some x -> pgid x <> pid c) /\
      leads (session_alloc s sa (pid c)) s' me c b sa)).
Proof.
  intros Hi (Hcur & Htp & Hme & _) Hp Hsa Hb. pose proof (inv_alone s me c Hi Hme Hp) as Hal.
  destruct (proc_group _ _ _ _ Hi Hme Hp) as (g & x & ca & cse & Hg & Hx & Hca & Hcse).
  set (s0 := session_alloc s sa (pid c)).
  assert (Hi0 : (forall g y, pgrps s !! g = Some y -> pgid y <> pid c) ->
    (forall d se, sessions s !! d = Some se -> sid se <> pid c) /\ inv (Some me) None s0).
  { intros Hng. assert (Hns : forall d se, sessions s !! d = Some se -> sid se <> pid c).
    { intros d se Hd E. destruct (i_sess_leader _ _ _ Hi d se me c) as (h & y & _ & Hy & _ & E'); [done..|]. by eapply Hng. }
    split; [done|]. apply new_session_inv; [by apply inv_forget|done..]. }
  unfold sys_setsid, cur_proc, get_thread, get_proc. rewrite Hcur. cbn [deref rbind]. rewrite Htp. cbn [deref rbind].
  rewrite Hme. cbn [deref rbind]. fold s0.
  assert (Hown : proc_pgid (pgrp_alloc s0 b) c = Done (pgid x)).
  { unfold proc_pgid, get_pgrp. rewrite Hg. cbn [deref rbind]. simpl. rewrite lookup_insert_ne, Hx by congruence. done. }
  rewrite Hown. cbn [rbind].
  assert (Hbusy : exists r, pgrp_lookup (pgrp_alloc s0 b) (pid c) = Done r /\
    match r with
    | Some h => exists g x, pgrps s !! g = Some x /\ pgid x = pid c
    | None => forall g x, pgrps s !! g = Some x -> pgid x <> pid c
    end).
  { destruct (pgrp_lookup_alloc _ _ b (pid c) Hi Hb) as (r & Hr & Hspec). exists r. split.
    - rewrite <- Hr. unfold pgrp_lookup. simpl. clear. induction (pgrp_list s) as [|h l IH]; [done|]. simpl. by rewrite IH.
    - destruct r as [h|]; [|done]. destruct Hspec as (_ & y & Hy & E). eauto. }
  assert (Heperm : (exists g x, pgrps s !! g = Some x /\ pgid x = pid c) -> exists r s', (let* s1 := pgrp_free (pgrp_alloc s0 b) b in Done (- EPERM, session_free s1 sa)) = Done (r, s') /\
    inv None None s' /\ ((r = - EPERM /\ s' = s /\ exists g x, pgrps s !! g = Some x /\ pgid x = pid c) \/
     (r = pid c /\ (forall g x, pgrps s !! g = Some x -> pgid x <> pid c) /\ leads s0 s' me c b sa))).
  { intros Hbz. rewrite pgrp_unalloc by (done || exact (fresh_not_listed _ _ s b Hi Hb)). cbn [rbind]. eexists _, _. split; [done|].
    assert (session_free s0 sa = s) as ->; [|auto].
    unfold s0, session_free, session_alloc, set_sessions. destruct s. simpl in *. by rewrite delete_insert_id. }
  destruct (Z.eqb_spec (pgid x) (pid c)) as [|Hnl]; [apply Heperm; eauto|].
  destruct Hbusy as (r & -> & Hr). cbn [rbind]. destruct r as [h|]; [rewrite bool_decide_true by done; by apply Heperm|].
  clear Heperm. rewrite bool_decide_false by (intros []; done). destruct (Hi0 Hr) as [Hns Hi0'].
  assert (Hsa0 : sessions s0 !! sa = Some (Session 1 (pid c))) by apply lookup_insert_eq.
  rewrite (pgrp_setup_run _ _ s0 b (pid c) sa _ Hi0' Hsa0). cbn [rbind].
  assert (Hal0 : alone s0 me c) by (destruct Hal; by constructor).
  destruct (enter_new_group s0 me me c b sa (Session 1 (pid c))) as (s3 & Hrun & Hi3 & Hl); try done.
  { intros d se. simpl. rewrite lookup_insert. case_decide; [done|]. intros Hd E. by destruct (Hns d se Hd). }
  { by rewrite Z.eqb_refl. }
  rewrite Hrun. cbn [rbind]. eexists _, s3. split; [done|]. split; [done|by right].
Qed.

(** [pgrp_enter] while a group is being allocated. *)

Lemma proc_search_alloc s b l id : proc_search (pgrp_alloc s b) l id = proc_search s l id.
Proof. induction l as [|a l IH]; [done|]. simpl. unfold get_proc. simpl. destruct (procs s !! a); [|done]. simpl. by rewrite IH. Qed.

Lemma pgrp_leave_alloc s a o b s1 em : pgrp_leave s a o = Done (s1, em) -> o <> b ->
  pgrp_leave (pgrp_alloc s b) a o = Done (pgrp_alloc s1 b, em).
Proof.
  unfold pgrp_leave, get_pgrp. intros Hr Hn. simpl. rewrite lookup_insert_ne by done.
  destruct (pgrps s !! o); [|done]. cbn [deref rbind] in *. destruct (list_remove _ a) as [[l e]| | |]; try done.
  cbn [rbind] in *. injection Hr as <- <-. unfold set_pgrps, pgrp_alloc. simpl. by rewrite insert_insert_ne.
Qed.

Lemma pgrp_append_alloc s a o b s1 : pgrp_append s a o = Done s1 -> o <> b ->
  pgrp_append (pgrp_alloc s b) a o = Done (pgrp_alloc s1 b).
Proof.
  unfold pgrp_append, get_pgrp. intros Hr Hn. simpl. rewrite lookup_insert_ne by done.
  destruct (pgrps s !! o); [|done]. cbn [deref rbind] in *. injection Hr as <-.
  unfold set_pgrps, pgrp_alloc. simpl. by rewrite insert_insert_ne.
Qed.

Lemma tid_free_alloc s b i s1 : tid_free s i = Done s1 -> tid_free (pgrp_alloc s b) i = Done (pgrp_alloc s1 b).
Proof.
  unfold tid_free. simpl. intros Hr. rinv. by rewrite E.
Qed.

Lemma session_unref_alloc s b a s1 : session_unref s a = Done s1 ->
  session_unref (pgrp_alloc s b) a = Done (pgrp_alloc s1 b).
Proof.
  unfold session_unref, get_session. simpl. destruct (sessions s !! a) as [se|]; [|done]. cbn [deref rbind].
  destruct (ref_dec (sref se)) as [[r []]| | |]; try done; cbn [rbind]; intros Hr; [|by injection Hr as <-].
  apply rbind_Done in Hr as (s2 & Hf & Hr). injection Hr as <-.
  apply (tid_free_alloc _ b) in Hf. unfold pgrp_alloc, set_sessions, set_pgrps in *. simpl in *. by rewrite Hf.
Qed.

Lemma pgrp_emptied_alloc s o b s1 : pgrp_emptied s o = Done s1 -> o <> b ->
  pgrp_emptied (pgrp_alloc s b) o = Done (pgrp_alloc s1 b).
Proof.
  intros Hr Hn. unfold pgrp_emptied, proc_lookup, get_pgrp, get_session in *. simpl pgrps.
  rewrite lookup_insert_ne by done. destruct (pgrps s !! o) as [g|] eqn:Hg; [|done]. cbn [deref rbind] in *.
  rewrite proc_search_alloc. simpl proc_list.
  apply rbind_Done in Hr as (r & -> & Hr). cbn [rbind]. apply rbind_Done in Hr as (s2 & H2 & Hr).
  assert (Hs2 : pgrps s2 = pgrps s).
  { clear Hr. destruct r; [by injection H2 as <-|]. rinv. destruct (_ =? _); rinv; [done|]. unfold tid_free in H2. rinv. done. }
  assert (H2' : (match r with Some _ => Done (pgrp_alloc s b) | None => let* se := deref (gsession g) in
      let* se := deref (sessions (pgrp_alloc s b) !! se) in
      if sid se =? pgid g then Done (pgrp_alloc s b) else tid_free (pgrp_alloc s b) (pgid g) end) = Done (pgrp_alloc s2 b)).
  { clear Hr. destruct r; [by injection H2 as <-|]. rinv. rewrite E. cbn [deref rbind]. simpl sessions. rewrite E0. cbn [deref rbind].
    destruct (_ =? _); [by injection H2 as <-|by apply tid_free_alloc]. }
  rewrite H2'. cbn [rbind]. change (pgrp_list (pgrp_alloc s2 b)) with (pgrp_list s2). apply rbind_Done in Hr as ([l e] & -> & Hr). cbn [rbind].
  unfold pgrp_free, get_pgrp in *. simpl in *. rewrite lookup_insert_ne, Hs2, Hg by done. rewrite Hs2, Hg in Hr. cbn [deref rbind] in *.
  apply rbind_Done in Hr as (s3 & H3 & Hr).
  assert ((match gsession g with Some se => session_unref (set_pgrp_list (pgrp_alloc s2 b) l) se
    | None => Done (set_pgrp_list (pgrp_alloc s2 b) l) end) = Done (pgrp_alloc s3 b)) as ->.
  { destruct (gsession g); [|by injection H3 as <-]. by apply (session_unref_alloc _ b) in H3. }
  cbn [rbind]. destruct (bool_decide (members g = [])); [|done]. change (pgrp_list (pgrp_alloc s3 b)) with (pgrp_list s3).
  destruct (bool_decide (o ∉ pgrp_list s3)); [|done]. injection Hr as <-.
  unfold set_pgrps, pgrp_alloc. simpl. by rewrite delete_insert_ne.
Qed.

Lemma pgrp_enter_alloc s me a p grp b r s' : procs s !! a = Some p -> pgrp p <> Some b -> grp <> Some b ->
  pgrp_enter s me a grp = Done (r, s') -> pgrp_enter (pgrp_alloc s b) me a grp = Done (r, pgrp_alloc s' b).
Proof.
  intros Ha Hpb Hgb Hr. unfold pgrp_enter, get_proc in *. simpl procs. rewrite Ha in *. cbn [deref rbind] in *.
  destruct (negb (bool_decide (pgrp p = grp))); [|done].
  destruct (negb (a =? me) && _ && _); [by injection Hr as <- <-|].
  apply rbind_Done in Hr as ([s1 em] & H1 & Hr). apply rbind_Done in Hr as (s2 & H2 & Hr).
  apply rbind_Done in Hr as (s3 & H3 & Hr). injection Hr as <- <-.
  change (put_proc (pgrp_alloc s b) a (set_pgrp p grp)) with (pgrp_alloc (put_proc s a (set_pgrp p grp)) b).
  assert ((match pgrp p with Some o => pgrp_leave (pgrp_alloc (put_proc s a (set_pgrp p grp)) b) a o
    | None => Done (pgrp_alloc (put_proc s a (set_pgrp p grp)) b, false) end) = Done (pgrp_alloc s1 b, em)) as ->.
  { destruct (pgrp p); [apply pgrp_leave_alloc; congruence|by injection H1 as <- <-]. }
  cbn [rbind]. assert ((match grp with Some g => pgrp_append (pgrp_alloc s1 b) a g | None => Done (pgrp_alloc s1 b) end) =
    Done (pgrp_alloc s2 b)) as ->.
  { destruct grp; [apply pgrp_append_alloc; congruence|by injection H2 as <-]. }
  cbn [rbind]. assert ((match pgrp p with Some o => if em then pgrp_emptied (pgrp_alloc s2 b) o else Done (pgrp_alloc s2 b)
    | None => Done (pgrp_alloc s2 b) end) = Done (pgrp_alloc s3 b)) as ->; [|done].
  destruct (pgrp p); [|by injection H3 as <-]. destruct em; [apply pgrp_emptied_alloc; congruence|by injection H3 as <-].
Qed.

(** ** sys_setpgid *)

(** A process moves to another group of its session. *)
Lemma enter_group s me a p g : inv None None s -> procs s !! a = Some p -> 0 < pid p ->
  is_Some (pgrps s !! g) -> pgrp p <> Some g ->
  (forall h y, pgrps s !! h = Some y -> pgid y <> pid p) ->
  (forall c se, sessions s !! c = Some se -> sid se <> pid p) ->
  negb (a =? me) && proc_test_flags p PROC_EXEC && negb (proc_test_flags p PROC_ZOMBIE) = false ->
  exists s', pgrp_enter s me a (Some g) = Done (0, s') /\ inv None None s' /\
    (forall h, pgrps s !! h = None -> pgrps s' !! h = None).
Proof.
  intros Hi Ha Hp Hg Hpg Hnl Hns Hguard. pose proof (inv_alone s a p Hi Ha Hp) as Hal.
  destruct (pgrp_enter_inv None s me a p (Some g)) as (s' & Hrun & Hi' & Hent); try done.
  { by apply inv_forget. }
  { split; [done|by left]. }
  exists s'. split; [done|]. pose proof Hent as (E1 & _ & _ & _ & _ & E6 & E7 & _ & _). split; [|intros h Hh].
  - apply (inv_recount s' a (set_pgrp p (Some g)) Hi').
    + by rewrite E1, lookup_insert_eq.
    + eapply (alone_entered s); try done. intros o y _ Hy. by eapply Hnl.
    + eauto.
    + intros h y Hy E. destruct (E7 h y Hy) as (z & Hz & Ez & _). exfalso. eapply (Hnl h z); [done|]. simpl in E. congruence.
    + intros d se Hd E. pose proof (E6 d) as Es. rewrite Hd in Es. destruct (sessions s !! d) as [se0|] eqn:H0; [|done].
      injection Es as Es. exfalso. eapply (Hns d se0); [done|]. simpl in E. congruence.
  - destruct (pgrps s' !! h) as [y|] eqn:Hy; [|done]. destruct (E7 h y Hy) as (z & Hz & _). congruence.
Qed.

(** The group that was allocated in vain goes away again. *)
Lemma ungroup_inv s a p b sa se : inv None None s -> procs s !! a = Some p -> 0 < pid p -> pgrps s !! b = None ->
  sessions s !! sa = Some se ->
  (forall h y, pgrps s !! h = Some y -> pgid y <> pid p) ->
  (forall c se, sessions s !! c = Some se -> sid se <> pid p) ->
  exists s', (let* '(l, _) := list_remove (pgrp_list (with_group s b (pid p) sa se)) b in
    pgrp_free (set_pgrp_list (with_group s b (pid p) sa se) l) b) = Done s' /\ inv None None s'.
Proof.
  intros Hi Ha Hp Hb Hsa Hnl Hns. set (s2 := with_group s b (pid p) sa se).
  pose proof (inv_alone s a p Hi Ha Hp) as Hal. destruct (proc_group _ _ _ _ Hi Ha Hp) as (g & _ & _ & _ & Hg & _).
  assert (Hi2 : inv (Some a) (Some b) s2).
  { apply with_group_inv; try done; [by apply inv_forget|]. intros c se' Hc E. by destruct (Hns c se' Hc). }
  rewrite list_remove_Done by (simpl; rewrite elem_of_app, list_elem_of_singleton; by right). cbn [rbind].
  destruct (pgrp_free_run (Some a) s2 b (Pgrp (Some sa) [] (pid p)) (tids s2)) as (s' & Hrun & Hi' & He & Et); try done.
  { apply lookup_insert_eq. }
  rewrite (set_tids_id s') in Hrun by done. rewrite (set_tids_id s2) in Hrun by done. exists s'. split; [done|].
  destruct He as (E1 & E2 & _ & _ & _ & E6 & E7 & _). apply (inv_recount s' a p Hi').
  - by rewrite E1.
  - destruct Hal as [A1 A2 A3]. constructor; unfold used, running; rewrite ?Et, ?E1, ?E2; done.
  - eauto.
  - intros h y Hy E. rewrite E6 in Hy. apply lookup_delete_Some in Hy as [Hn Hy]. simpl in Hy.
    rewrite lookup_insert_ne in Hy by done. by destruct (Hnl h y Hy).
  - intros d se' Hd E. pose proof (E7 d) as Es. rewrite Hd in Es. simpl in Es. rewrite lookup_insert in Es. exfalso. case_decide.
    + injection Es as Es. eapply (Hns sa se); [done|congruence].
    + destruct (sessions s !! d) as [se0|] eqn:H0; [|done]. injection Es as Es. eapply (Hns d se0); [done|congruence].
Qed.

Lemma out_run s b (err : Z) : inv None None s -> pgrps s !! b = None ->
  exists r s', (let* s1 := pgrp_free (pgrp_alloc s b) b in Done (err, s1)) = Done (r, s') /\ inv None None s'.
Proof.
  intros Hi Hb. rewrite pgrp_unalloc by (done || by eapply fresh_not_listed). cbn [rbind]. eauto.
Qed.

Lemma setpgid_proc_inv s me a p b pgid' : inv None None s -> procs s !! a = Some p -> 0 < pid p ->
  pgrps s !! b = None ->
  (forall g x, pgrp p = Some g -> pgrps s !! g = Some x -> pgid x = pid p -> pgid' = 0 \/ pgid' = pid p) ->
  exists r s', setpgid_proc (pgrp_alloc s b) me b a pgid' = Done (r, s') /\ inv None None s'.
Proof.
  intros Hi Ha Hp Hb Hlead. pose proof (inv_alone s a p Hi Ha Hp) as Hal.
  destruct (proc_group _ _ _ _ Hi Ha Hp) as (o & x & sa & se & Ho & Hx & Hsa & Hse).
  unfold setpgid_proc, get_proc, proc_session, proc_pgid, get_pgrp, get_session. simpl procs. rewrite Ha. cbn [deref rbind].
  rewrite Ho. cbn [deref rbind]. simpl pgrps. rewrite (lookup_insert_ne _ b o), Hx by congruence. cbn [deref rbind].
  rewrite Hsa. cbn [deref rbind]. simpl sessions. rewrite Hse. cbn [deref rbind].
  destruct (Z.eqb_spec (sid se) (pid p)) as [|Hns0]; [by apply out_run|].
  destruct (Z.eqb_spec (pgid x) (if pgid' =? 0 then pid p else pgid')) as [|Hne]; [by apply out_run|].
  assert (Hnlo : pgid x <> pid p).
  { intros E. destruct (Hlead o x Ho Hx E) as [->| ->]; [done|]. by destruct (pid p =? 0). }
  assert (Hnl : forall h y, pgrps s !! h = Some y -> pgid y <> pid p).
  { intros h y Hy E. assert (pgrp p = Some h) by (eapply (i_leader _ _ _ Hi); done || congruence). congruence. }
  assert (Hns : forall c se, sessions s !! c = Some se -> sid se <> pid p).
  { intros c se' Hc E. destruct (i_sess_leader _ _ _ Hi c se' a p) as (h & y & Eh & Hy & Ey & _); [done..|]. congruence. }
  destruct (pgrp_lookup_alloc _ _ b (if pgid' =? 0 then pid p else pgid') Hi Hb) as (r & -> & Hr). cbn [rbind].
  destruct (negb (a =? me) && proc_test_flags p PROC_EXEC && negb (proc_test_flags p PROC_ZOMBIE)) eqn:Hguard.
  - assert (Hacc : forall s1 g, procs s1 = procs s -> pgrp p <> Some g -> pgrp_enter s1 me a (Some g) = Done (- EACCES, s1)).
    { intros s1 g E Hn. unfold pgrp_enter, get_proc. rewrite E, Ha. cbn [deref rbind].
      by rewrite bool_decide_false, Hguard by done. }
    destruct r as [g|].
    + destruct Hr as (Hgb & y & Hy & Ey). rewrite lookup_insert_ne, Hy by done. cbn [deref rbind].
      destruct (negb (bool_decide (gsession y = Some sa))); [by apply out_run|]. rewrite Hacc by (done || congruence). by apply out_run.
    + destruct (negb ((if pgid' =? 0 then pid p else pgid') =? pid p)); [by apply out_run|]. rewrite (pgrp_setup_run _ _ s b (pid p) sa se Hi Hse). cbn [rbind].
      rewrite Hacc; [|done|intros E; destruct (i_pgrp_live _ _ _ Hi a p b Ha E); congruence]. cbn [rbind negb].
      destruct (ungroup_inv s a p b sa se) as (s' & Hrun & Hi'); try done.
      apply rbind_Done in Hrun as ([l e] & -> & Hrun). cbn [rbind]. simpl (negb _). cbn [rbind]. rewrite Hrun. eauto.
  - destruct r as [g|].
    + destruct Hr as (Hgb & y & Hy & Ey). rewrite lookup_insert_ne, Hy by done. cbn [deref rbind].
      destruct (negb (bool_decide (gsession y = Some sa))); [by apply out_run|]. assert (pgrp p <> Some g) by congruence.
      destruct (enter_group s me a p g) as (s' & Hrun & Hi' & Hfr); try done.
      rewrite (pgrp_enter_alloc s me a p (Some g) b 0 s') by (done || congruence). cbn [rbind]. apply out_run; auto.
    + destruct (negb ((if pgid' =? 0 then pid p else pgid') =? pid p)); [by apply out_run|]. rewrite (pgrp_setup_run _ _ s b (pid p) sa se Hi Hse). cbn [rbind].
      destruct (enter_new_group s me a p b sa se) as (s' & -> & Hi' & _); try done.
      { by apply inv_forget. }
      { intros c se' Hc E. by destruct (Hns c se' Hc). }
      cbn [rbind]. eauto.
Qed.

Lemma sys_setpgid_inv s cur th me c b pid' pgid' : inv None None s -> running s cur th me c -> 0 < pid c ->
  pgrps s !! b = None ->
  (forall a p g x, procs s !! a = Some p -> (if (pid' =? 0) || (pid' =? pid c) then a = me else pid p = pid') ->
     pgrp p = Some g -> pgrps s !! g = Some x -> pgid x = pid p -> pgid' = 0 \/ pgid' = pid p) ->
  exists r s', sys_setpgid s cur b pid' pgid' = Done (r, s') /\ inv None None s'.
Proof.
  intros Hi (Hcur & Htp & Hme & _) Hp Hb Hlead. unfold sys_setpgid, cur_proc, get_thread, get_proc.
  destruct (pgid' <? 0); [eauto|]. rewrite Hcur. cbn [deref rbind]. rewrite Htp. cbn [deref rbind].
  rewrite Hme. cbn [deref rbind]. destruct ((pid' =? 0) || (pid' =? pid c)) eqn:Ecase.
  { cbn [rbind]. eapply setpgid_proc_inv; try done. intros g x. by apply (Hlead me c g x). }
  unfold proc_lookup. simpl proc_list. rewrite proc_search_alloc.
  destruct (proc_search_run s (proc_list s) pid' (i_plist _ _ _ Hi)) as (r & -> & Hr). cbn [rbind].
  destruct r as [a|]; [|by apply out_run]. destruct Hr as (p & Ha & E & Hpos). simpl procs. rewrite Ha. cbn [deref rbind].
  case_bool_decide; [|by apply out_run]. eapply setpgid_proc_inv; try done. intros g x. by apply (Hlead a p g x).
Qed.

(** ** fork and clone *)

(** States that differ in nothing the invariant speaks of. *)
Lemma ids_ext f e s s' : inv f e s -> procs s' = procs s -> pgrps s' = pgrps s -> sessions s' = sessions s ->
  thrs s' = thrs s -> proc_list s' = proc_list s -> pgrp_list s' = pgrp_list s -> tids s' = tids s -> inv f e s'.
Proof.
  intros Hi Ep Eg Es Eth Epl El Et. apply (inv_view f e s); try done.
  - rewrite Ep. eauto.
  - rewrite Ep. eauto.
  - unfold running. rewrite Eth, Ep. intros t th a p Hr _. exists th, p. eauto.
  - by rewrite Epl.
Qed.

(** A new process [a] with thread [mt], both with the new id, outside all tables. *)
Lemma new_proc_inv s s' a mt p th : inv None None s -> procs s !! a = None -> thrs s !! mt = None ->
  pgrp p = None -> (threads p = [] \/ threads p = [mt]) -> tid th = pid p -> (tproc th = None \/ tproc th = Some a) -> unowned None s (pid p) -> 0 < pid p ->
  procs s' !! a = Some p ->
  (forall b, b <> a -> (fun q => (pid q, pgrp q, threads q)) <$> procs s' !! b = (fun q => (pid q, pgrp q, threads q)) <$> procs s !! b) ->
  thrs s' = <[mt := th]> (thrs s) -> pgrps s' = pgrps s -> sessions s' = sessions s ->
  proc_list s' = proc_list s -> pgrp_list s' = pgrp_list s -> tids s' = tids s -> inv (Some a) None s'.
Proof.
  intros Hi Ha Hmt Hpg Hth Htid Htp (U1 & U2 & U3 & U4) Hpos Ep Eo Eth Eg Es Epl El Et. pose proof Hi as [].
  assert (F : forall b q', procs s' !! b = Some q' -> b <> a ->
    exists q, procs s !! b = Some q /\ pid q' = pid q /\ pgrp q' = pgrp q /\ threads q' = threads q).
  { intros b q' Hb Hn. specialize (Eo b Hn). rewrite Hb in Eo. destruct (procs s !! b) as [q|]; [|done].
    injection Eo as ? ? ?. exists q. done. }
  assert (B : forall b q, procs s !! b = Some q -> b <> a /\ exists q', procs s' !! b = Some q' /\ pid q' = pid q /\ pgrp q' = pgrp q).
  { intros b q Hb. assert (b <> a) as Hn by congruence. split; [done|]. specialize (Eo b Hn). rewrite Hb in Eo.
    destruct (procs s' !! b) as [q'|]; [|done]. injection Eo as ? ? ?. exists q'. done. }
  assert (R : forall t x b q, running s' t x b q -> (t = mt /\ tid x = pid p /\ b = a /\ q = p) \/
    exists q0, running s t x b q0 /\ pid q0 = pid q).
  { unfold running. rewrite Eth. intros t x b q (H1 & H2 & H3 & H4). destruct (decide (b = a)) as [->|Hn].
    - left. assert (q = p) as -> by congruence. destruct Hth as [E|E]; rewrite E in H4.
      + by apply not_elem_of_nil in H4.
      + apply list_elem_of_singleton in H4 as ->. rewrite lookup_insert_eq in H1. injection H1 as <-. done.
    - right. destruct (F b q H3 Hn) as (q0 & Hq0 & E1 & E2 & E3). exists q0. split; [|done].
      rewrite lookup_insert in H1. case_decide as Hd; [|rewrite <- E3; eauto].
      subst t. injection H1 as <-. destruct Htp; congruence. }
  assert (Used : forall i, used s i -> used s' i) by (intros i; unfold used; by rewrite Et).
  constructor; rewrite ?Et, ?Eg, ?Es, ?El; try done.
  - intros b q Hb. destruct (decide (b = a)) as [->|Hn]; [left; congruence|].
    destruct (F b q Hb Hn) as (q0 & H0 & -> & _). by eapply i_pos0.
  - intros b q Hb Hf Hq. destruct (F b q Hb) as (q0 & H0 & E & _); [congruence|]. rewrite E in *. eapply Used, i_pid0; done.
  - intros g x Hx. by eapply Used, i_pgid0.
  - intros b x Hx. by eapply Used, i_sid0.
  - intros b b' q q' Hb Hb' Hf Hf' Hq E. destruct (F b q Hb) as (q0 & H0 & E0 & _); [congruence|].
    destruct (F b' q' Hb') as (q1 & H1 & E1 & _); [congruence|]. eapply (i_pid_uniq0 b b' q0 q1); try done; congruence.
  - intros g x b Hx. rewrite (i_member0 g x b Hx). split; intros (q & Hq & E).
    + destruct (B b q Hq) as (_ & q' & ? & _ & ?). exists q'. split; congruence.
    + destruct (decide (b = a)) as [->|Hn]; [congruence|]. destruct (F b q Hq Hn) as (q0 & ? & _ & ? & _). exists q0. split; congruence.
  - intros b q Hb Hf Hq. destruct (F b q Hb) as (q0 & H0 & E & -> & _); [congruence|]. rewrite E in Hq. by eapply i_pgrp0.
  - intros b q g Hb E. destruct (decide (b = a)) as [->|Hn]; [congruence|]. destruct (F b q Hb Hn) as (q0 & H0 & _ & E0 & _).
    eapply (i_pgrp_live0 b q0); congruence.
  - intros b Hin. rewrite Epl in Hin. destruct (i_plist0 b Hin) as (q & Hq & Hp). destruct (B b q Hq) as (_ & q' & ? & E & _).
    exists q'. rewrite E. done.
  - intros b x Hx. rewrite (i_refs0 b x Hx). unfold ngroups. by rewrite Eg.
  - intros g x b q Hx Hb Hf E. destruct (F b q Hb) as (q0 & H0 & E1 & -> & _); [congruence|]. eapply i_leader0; [done..|congruence].
  - intros b x d q Hx Hd Hf E. destruct (F d q Hd) as (q0 & H0 & E1 & -> & _); [congruence|]. rewrite E1 in *. by eapply i_sess_leader0.
  - intros t x b q Hr Ht Hn. destruct (R t x b q Hr) as [(-> & E & -> & ->)|(q0 & Hr0 & E)]; [congruence|]. rewrite <- E in Hn.
    destruct (i_tid0 t x b q0 Hr0 Ht Hn) as (Hu & N1 & N2 & N3 & N4).
    refine (conj (Used _ Hu) (conj _ (conj N2 (conj N3 _)))).
    + intros d q' Hd Hf. destruct (F d q' Hd) as (q1 & H1 & -> & _); [congruence|]. by eapply N1.
    + intros t' x' d q' Hr' E'. destruct (R t' x' d q' Hr') as [(-> & E1 & _)|(q1 & Hr1 & _)]; [|by eapply N4].
      exfalso. eapply (U4 t x b q0); [done..|congruence].
Qed.

(** The id that is given back when a fork fails. *)
Lemma fork_undo s s2 s' id : inv None None s -> unowned None s id -> 1 < id < THREAD_MAX ->
  procs s2 = procs s -> pgrps s2 = pgrps s -> sessions s2 = sessions s -> thrs s2 = thrs s ->
  proc_list s2 = proc_list s -> pgrp_list s2 = pgrp_list s -> tids s2 = tids s ->
  tid_free s2 id = Done s' -> inv None None s' /\ procs s' = procs s.
Proof.
  intros Hi (U1 & U2 & U3 & U4) Hr Ep Eg Es Eth Epl El Et Hf.
  assert (Hi2 : inv None None s2) by (eapply ids_ext; eauto).
  destruct (tid_free_run _ _ _ id Hi2 Hr) as (b & Hf' & Hc). rewrite Hf in Hf'. injection Hf' as ->.
  split; [|done]. apply (cleared_inv _ _ _ _ id Hi2 Hc); [lia|]. unfold unowned, running. by rewrite Ep, Eg, Es, Eth.
Qed.

Lemma proc_free_Done s a p s' : proc_free s a = Done s' -> procs s !! a = Some p ->
  s' = del_proc s a /\ a ∉ proc_list s /\ pgrp p = None.
Proof.
  intros Hr Ha. unfold proc_free, get_proc in Hr. rewrite Ha in Hr. cbn [deref rbind] in Hr. rinv. bool_props. done.
Qed.

(** The new process enters the group of its parent and the table. *)
Lemma fork_enter s me a p g x : inv (Some a) None s -> procs s !! a = Some p -> pgrp p = None -> pflags p = 0 ->
  pgrps s !! g = Some x -> alone s a p -> 0 < pid p ->
  (forall h y, pgrps s !! h = Some y -> pgid y <> pid p) ->
  (forall c se, sessions s !! c = Some se -> sid se <> pid p) ->
  exists s', pgrp_enter s me a (Some g) = Done (0, s') /\ inv None None (set_proc_list s' (proc_list s' ++ [a])).
Proof.
  intros Hi Ha Hpg Hfl Hg Hal Hp Hnl Hns.
  destruct (pgrp_enter_inv None s me a p (Some g) Hi Ha) as (s' & Hrun & Hi' & Hent); [congruence| | |].
  { split; [eauto|by left]. }
  { unfold proc_test_flags. rewrite Hfl. by rewrite andb_false_r. }
  exists s'. split; [done|]. pose proof Hent as (E1 & _ & _ & _ & _ & E6 & E7 & _ & _).
  assert (Hi2 : inv (Some a) None (set_proc_list s' (proc_list s' ++ [a]))).
  { destruct Hi'. constructor; try done. intros b. simpl. rewrite elem_of_app, list_elem_of_singleton.
    intros [Hin| ->]; [by apply i_plist0|]. rewrite E1, lookup_insert_eq. eauto. }
  apply (inv_recount _ a (set_pgrp p (Some g)) Hi2).
  - simpl. by rewrite E1, lookup_insert_eq.
  - assert (alone s' a (set_pgrp p (Some g))) as [] by (eapply (alone_entered s); try done; intros o y _ Hy; by eapply Hnl).
    by constructor.
  - simpl. eauto.
  - simpl. intros h y Hy E. destruct (E7 h y Hy) as (z & Hz & Ez & _). exfalso. eapply (Hnl h z); [done|congruence].
  - simpl. intros d se Hd E. pose proof (E6 d) as Es. rewrite Hd in Es. destruct (sessions s !! d) as [se0|] eqn:H0; [|done].
    injection Es as Es. exfalso. eapply (Hns d se0); [done|congruence].
Qed.

(** The state of a fork before the new process enters its group. *)
Lemma forked_alone s s' a mt p th : inv None None s -> inv (Some a) None s' -> procs s' !! a = Some p ->
  (forall b, b <> a -> (fun q => (pid q, pgrp q, threads q)) <$> procs s' !! b = (fun q => (pid q, pgrp q, threads q)) <$> procs s !! b) ->
  (threads p = [] \/ threads p = [mt]) -> tid th = pid p -> (tproc th = None \/ tproc th = Some a) ->
  thrs s' = <[mt := th]> (thrs s) -> unowned None s (pid p) -> used s' (pid p) -> alone s' a p.
Proof.
  intros Hi Hi' Ha Eo Hth Htid Htp Eth (U1 & U2 & U3 & U4) Hu. constructor; [done| |].
  - intros b q Hb Hn. specialize (Eo b Hn). rewrite Hb in Eo. destruct (procs s !! b) as [q0|] eqn:H0; [|done].
    injection Eo as E _ _. rewrite E. by eapply U1.
  - intros t x b q (H1 & H2 & H3 & H4) Ht Hn. rewrite Eth, lookup_insert in H1. case_decide as Hd.
    + injection H1 as <-. destruct Htp as [E|E]; rewrite E in H2; [done|]. injection H2 as <-. congruence.
    + destruct (decide (b = a)) as [->|Hba].
      { assert (q = p) as -> by congruence. destruct Hth as [E|E]; rewrite E in H4.
        - by apply not_elem_of_nil in H4.
        - by apply list_elem_of_singleton in H4. }
      specialize (Eo b Hba). rewrite H3 in Eo. destruct (procs s !! b) as [q0|] eqn:H0; [|done]. injection Eo as E1 E2 E3.
      eapply (U4 t x b q0); [unfold running; rewrite <- E3; done|congruence].
Qed.

Lemma kst_eq s s' : procs s = procs s' -> pgrps s = pgrps s' -> sessions s = sessions s' -> thrs s = thrs s' ->
  proc_list s = proc_list s' -> pgrp_list s = pgrp_list s' -> tids s = tids s' ->
  init_process s = init_process s' -> world s = world s' -> s = s'.
Proof. destruct s, s'. simpl. by intros -> -> -> -> -> -> -> -> ->. Qed.

(** The process as [proc_new] makes it, with its thread. *)
Definition blank (id me : Z) (ts : list Z) (c : creds) : proc_t :=
  Proc id (Some me) [] ts None 0 0 0 0 (St None 0 0) c.

Definition nobody : creds := Creds 0 0 0 0 0 0.

Lemma proc_new_Done `{Pls W} s a me id err np s' : proc_new s (Some a) (Some me) id = Done (err, np, s') ->
  exists w, (np = None /\ s' = del_proc (set_world (put_proc s a (blank id me [] nobody)) w) a) \/
    (np = Some a /\ s' = set_world (put_proc s a (blank id me [] nobody)) w).
Proof.
  unfold proc_new. intros Hr. apply rbind_Done in Hr as ([e w] & _ & Hr). exists w.
  destruct (negb (e =? 0)); injection Hr as <- <- <-; [by left|by right].
Qed.

Lemma thread_new_Done `{Pls W} s t id err s' : thread_new s t id = Done (err, s') ->
  exists w, (err <> 0 /\ s' = set_world (set_thrs s (delete t (<[t := Thread id None 0 0]> (thrs s)))) w) \/
    (err = 0 /\ s' = set_world (set_thrs s (<[t := Thread id None 0 0]> (thrs s))) w).
Proof.
  unfold thread_new. intros Hr. apply rbind_Done in Hr as ([e w] & _ & Hr). destruct (Z.eqb_spec e 0); cbn [negb] in Hr.
  - injection Hr as <- <-. exists w. by right.
  - apply rbind_Done in Hr as (w' & _ & Hr). injection Hr as <- <-. exists w'. by left.
Qed.

Lemma proc_add_thread_Done s a t p th s' : procs s !! a = Some p -> thrs s !! t = Some th ->
  proc_add_thread s a t = Done s' ->
  s' = set_thrs (put_proc s a (set_threads p (threads p ++ [t]))) (<[t := Thread (tid th) (Some a) (intr th) (sflags th)]> (thrs s)).
Proof.
  intros Ha Ht. unfold proc_add_thread, get_proc, get_thread. rewrite Ha, Ht. cbn [deref rbind]. by intros [= <-].
Qed.

Lemma proc_rmv_thread_Done s cur a t p s' : procs s !! a = Some p -> pflags p = 0 ->
  proc_rmv_thread s cur a t = Done s' -> s' = put_proc s a (set_threads p (list_rem t (threads p))).
Proof.
  intros Ha Hf. unfold proc_rmv_thread, get_proc. rewrite Ha. cbn [deref rbind]. unfold list_remove. case_decide; [|done].
  cbn [rbind]. unfold proc_wakeup_st_waiter, get_proc. simpl procs. rewrite lookup_insert_eq. cbn [deref rbind].
  unfold proc_test_flags. simpl pflags. rewrite Hf. by intros [= <-].
Qed.

(** The state of a fork when the thread is part of the new process. *)
Definition forked s (a me mt id : Z) (w : W) : kst W :=
  Kst (<[a := blank id me [mt] nobody]> (procs s)) (pgrps s) (sessions s) (<[mt := Thread id (Some a) 0 0]> (thrs s))
    (proc_list s) (pgrp_list s) (tids s) (init_process s) w.

Lemma fork_undo_proc s s1 (a id err r : Z) s' w : procs s !! a = None -> is_Some (procs s1 !! a) ->
  delete a (procs s1) = procs s -> pgrps s1 = pgrps s -> sessions s1 = sessions s -> thrs s1 = thrs s ->
  proc_list s1 = proc_list s -> pgrp_list s1 = pgrp_list s -> tids s1 = tids s -> init_process s1 = init_process s ->
  world s1 = w ->
  (let* s2 := proc_free s1 a in let* s3 := tid_free s2 id in Done (err, s3)) = Done (r, s') ->
  tid_free (set_world s w) id = Done s'.
Proof.
  intros Ha [p Hp] E1 E2 E3 E4 E5 E6 E7 E8 E9 Hr. apply rbind_Done in Hr as (s2 & Hf & Hr).
  eapply proc_free_Done in Hf as (-> & _ & _); [|done]. apply rbind_Done in Hr as (s3 & Hf & [= <- <-]).
  rewrite <- Hf. f_equal. apply kst_eq; simpl; congruence.
Qed.

(** A fork and its callbacks, taken apart: it failed and left nothing
    behind, or it got as far as [pgrp_enter]. *)
Lemma fork_rest_cases `{Pls W} s cur me c a mt id r s' : procs s !! me = Some c -> procs s !! a = None ->
  thrs s !! mt = None -> fork_rest s cur me id (Some a) mt = Done (r, s') ->
  (exists w, tid_free (set_world s w) id = Done s') \/
  (exists w s3, r = id /\
    pgrp_enter (put_proc (put_proc (forked s a me mt id w) a (blank id me [mt] (cred c))) me
      (set_children c (children c ++ [a]))) me a (pgrp c) = Done (0, s3) /\
    s' = set_proc_list s3 (proc_list s3 ++ [a])).
Proof.
  intros Hme Ha Hmt Hrun. assert (Hne : me <> a) by congruence. unfold fork_rest in Hrun.
  apply rbind_Done in Hrun as ([[e1 np] s1] & Hnew & Hrun). apply proc_new_Done in Hnew as (w & [[-> ->]|[-> ->]]).
  { left. exists w. apply rbind_Done in Hrun as (s3 & Hf & [= <- <-]). rewrite <- Hf. f_equal.
    apply kst_eq; simpl; rewrite ?delete_insert_id; done. }
  apply rbind_Done in Hrun as ([e2 s2] & Hthr & Hrun). apply thread_new_Done in Hthr as (w1 & [[He ->]|[-> ->]]).
  { left. exists w1. destruct (Z.eqb_spec e2 0); [done|]. cbn [negb] in Hrun.
    eapply fork_undo_proc; [done| | | | | | | | | | |exact Hrun]; simpl; rewrite ?delete_insert_id, ?lookup_insert_eq; eauto. }
  change (negb (0 =? 0)) with false in Hrun. cbn iota in Hrun. apply rbind_Done in Hrun as (s3 & Hadd & Hrun).
  eapply proc_add_thread_Done in Hadd; [|simpl; apply lookup_insert_eq..].
  assert (s3 = forked s a me mt id w1) as ->.
  { rewrite Hadd. apply kst_eq; simpl; rewrite ?insert_insert_eq; done. }
  clear Hadd. apply rbind_Done in Hrun as ([e4 w2] & _ & Hrun).
  assert (Hfa : forall w, procs (forked s a me mt id w) !! a = Some (blank id me [mt] nobody)) by (intros; apply lookup_insert_eq).
  change (set_world (forked s a me mt id w1) w2) with (forked s a me mt id w2) in Hrun.
  destruct (negb (e4 =? 0)).
  { left. apply rbind_Done in Hrun as (s4 & Hrm & Hrun). eapply proc_rmv_thread_Done in Hrm; [|apply Hfa|done].
    apply rbind_Done in Hrun as (w3 & _ & Hrun). exists w3. subst s4.
    eapply fork_undo_proc; [done| | | | | | | | | | |exact Hrun]; simpl;
      rewrite ?insert_insert_eq, ?delete_insert_id, ?lookup_insert_eq; eauto. }
  right. exists w2. unfold get_proc in Hrun. rewrite (Hfa w2) in Hrun. 
  assert (Hfm : procs (forked s a me mt id w2) !! me = Some c) by (simpl; by rewrite lookup_insert_ne).
  rewrite Hfm in Hrun. cbn [deref rbind] in Hrun.
  assert (Hfm2 : procs (put_proc (forked s a me mt id w2) a (blank id me [mt] (cred c))) !! me = Some c)
    by (simpl; by rewrite !lookup_insert_ne).
  change (set_cred (blank id me [mt] nobody) (cred c)) with (blank id me [mt] (cred c)) in Hrun.
  rewrite Hfm2 in Hrun. cbn [deref rbind] in Hrun.
  apply rbind_Done in Hrun as ([e5 s3] & Hent & Hrun). destruct (Z.eqb_spec e5 0) as [->|]; [|done].
  injection Hrun as <- <-. eauto.
Qed.

Lemma sys_fork_inv `{Pls W} s cur th me c mp mt r s' : inv None None s -> running s cur th me c -> 0 < pid c ->
  (forall a, mp = Some a -> procs s !! a = None) -> thrs s !! mt = None ->
  sys_fork s cur mp mt = Done (r, s') -> inv None None s' /\
    (forall a p, procs s' !! a = Some p -> procs s !! a = None ->
       p = set_pgrp (blank r me [mt] (cred c)) (pgrp c) /\ unowned None s r).
Proof.
  intros Hi (Hcur & Htp & Hme & _) Hp Hmp Hmt Hrun. unfold sys_fork, cur_proc, get_thread in Hrun.
  rewrite Hcur in Hrun. cbn [deref rbind] in Hrun. rewrite Htp in Hrun. cbn [deref rbind] in Hrun.
  destruct (tid_alloc_inv _ _ _ Hi) as (id & s1 & Ha & Hi1 & Es1 & Hid). rewrite Ha in Hrun. cbn [rbind] in Hrun.
  assert (Hprocs : procs s1 = procs s) by by rewrite Es1.
  assert (Hsame : forall s2, inv None None s2 /\ procs s2 = procs s1 -> inv None None s2 /\
    (forall a p, procs s2 !! a = Some p -> procs s !! a = None ->
       p = set_pgrp (blank r me [mt] (cred c)) (pgrp c) /\ unowned None s r)).
  { intros s2 [Hi2 E]. split; [done|]. rewrite E, Hprocs. congruence. }
  destruct (Z.ltb_spec id 0) as [Hneg|Hnn]; [injection Hrun as <- <-; by apply Hsame|].
  destruct Hid as [Hid|(Hr & _ & Hbit & Hun)]; [lia|].
  assert (Hun1 : unowned None s1 id) by (rewrite Es1; exact Hun).
  destruct (Z.ltb_spec 1 id); [|lia]. destruct mp as [a|]; cycle 1.
  { unfold fork_rest, proc_new in Hrun. cbn [rbind] in Hrun. apply rbind_Done in Hrun as (s2 & Hf & [= <- <-]).
    apply Hsame. by apply (fork_undo s1 s1 s2 id). }
  specialize (Hmp a eq_refl). rewrite <- Hprocs in Hme, Hmp. assert (Hth1 : thrs s1 !! mt = None) by by rewrite Es1.
  destruct (fork_rest_cases s1 cur me c a mt id r s' Hme Hmp Hth1 Hrun) as [(w & Hf)|(w & s3 & -> & Hent & ->)].
  { apply Hsame. by apply (fork_undo s1 (set_world s1 w) s' id). }
  destruct (proc_group _ _ _ _ Hi1 Hme Hp) as (g & x & _ & _ & Hg & Hx & _). rewrite Hg in Hent.
  set (n := blank id me [mt] (cred c)) in Hent. set (s2 := put_proc (put_proc _ _ _) _ _) in Hent.
  assert (Hne : me <> a) by congruence.
  assert (Hn : procs s2 !! a = Some n) by (simpl; rewrite lookup_insert_ne, lookup_insert_eq; done).
  assert (Heq : forall b, b <> a -> (fun q => (pid q, pgrp q, threads q)) <$> procs s2 !! b =
    (fun q => (pid q, pgrp q, threads q)) <$> procs s1 !! b).
  { intros b Hb. simpl. rewrite lookup_insert. case_decide; [by subst b; rewrite Hme|by rewrite !lookup_insert_ne]. }
  assert (Hi2 : inv (Some a) None s2).
  { apply (new_proc_inv s1 s2 a mt n (Thread id (Some a) 0 0)); try done; [by right|by right|simpl; lia]. }
  destruct (fork_enter s2 me a n g x Hi2) as (s3' & Hent' & Hi3); try done.
  { apply (forked_alone s1 s2 a mt n (Thread id (Some a) 0 0)); try done; [by right|by right|].
    split; [simpl; unfold THREAD_MAX in *; lia|done]. }
  { simpl. lia. }
  { apply Hun1. }
  { apply Hun1. }
  rewrite Hent in Hent'. injection Hent' as <-. split; [exact Hi3|].
  destruct (pgrp_enter_inv None s2 me a n (Some g) Hi2 Hn) as (s4 & Hent4 & _ & Hproc & _); [done|split; [eauto|by left]|by rewrite andb_false_r|].
  rewrite Hent in Hent4. injection Hent4 as <-. intros b q Hb Hb0. simpl in Hb. rewrite Hproc, lookup_insert in Hb.
  case_decide as Hd; [injection Hb as <-; by rewrite Hg|]. simpl in Hb. rewrite <- Hprocs in Hb0.
  rewrite lookup_insert in Hb. case_decide; [congruence|]. rewrite !lookup_insert_ne in Hb by done. congruence.
Qed.

(** ** Steps that keep ids and groups *)

Record same_ids s s' : Prop := {
  si_tids : tids s' = tids s;
  si_pgrps : pgrps s' = pgrps s;
  si_glist : pgrp_list s' = pgrp_list s;
  si_sessions : sessions s' = sessions s;
  si_plist : forall a, a ∈ proc_list s' -> a ∈ proc_list s;
  si_procs : forall a, (fun p => (pid p, pgrp p)) <$> procs s' !! a = (fun p => (pid p, pgrp p)) <$> procs s !! a;
  si_threads : forall a p p' t, procs s !! a = Some p -> procs s' !! a = Some p' -> t ∈ threads p' -> t ∈ threads p;
  si_thrs : forall t th', thrs s' !! t = Some th' -> 0 < tid th' ->
    exists th, thrs s !! t = Some th /\ tid th = tid th' /\ tproc th = tproc th';
}.

Lemma same_ids_inv f e s s' : inv f e s -> same_ids s s' -> inv f e s'.
Proof.
  intros Hi [Et Eg El Es Hpl Hp Hth Ht]. apply (inv_view f e s); try done.
  - intros a p' Ha. specialize (Hp a). rewrite Ha in Hp. destruct (procs s !! a) as [p|]; [|done]. injection Hp as ? ?. eauto.
  - intros a p Ha. specialize (Hp a). rewrite Ha in Hp. destruct (procs s' !! a) as [p'|]; [|done]. injection Hp as ? ?. eauto.
  - intros t th' a p' (H1 & H2 & H3 & H4) Hpos. destruct (Ht t th' H1 Hpos) as (th & H0 & E1 & E2).
    pose proof (Hp a) as E. rewrite H3 in E. destruct (procs s !! a) as [p|] eqn:Ha; [|done]. injection E as E _.
    exists th, p. split; [|done]. unfold running. split_and!; [done|congruence|done|by eapply Hth].
Qed.

Ltac same_procs :=
  let p := fresh in let p' := fresh in
  intros ? p p' ? ? ?; assert (p' = p) as -> by (simpl in *; congruence); done.

Lemma same_ids_refl s : same_ids s s.
Proof. constructor; try done; [same_procs|eauto]. Qed.

Lemma same_ids_trans s1 s2 s3 : same_ids s1 s2 -> same_ids s2 s3 -> same_ids s1 s3.
Proof.
  intros [] []. constructor; try congruence; auto.
  - intros a p p' t H1 H3 Hin. pose proof (si_procs0 a) as E. rewrite H1 in E.
    destruct (procs s2 !! a) as [p2|] eqn:H2; [|done]. eauto.
  - intros t th' H3 Hp. destruct (si_thrs1 t th' H3 Hp) as (th2 & H2 & E1 & E2).
    destruct (si_thrs0 t th2 H2) as (th & H1 & E3 & E4); [lia|]. exists th. split_and!; congruence.
Qed.

Lemma put_proc_same s a p p' : procs s !! a = Some p -> pid p' = pid p -> pgrp p' = pgrp p ->
  (forall t, t ∈ threads p' -> t ∈ threads p) -> same_ids s (put_proc s a p').
Proof.
  intros Ha E1 E2 Hsub. constructor; try done.
  - intros b. simpl. rewrite lookup_insert. case_decide; [|done]. subst b. rewrite Ha. simpl. congruence.
  - intros b q q' t Hb Hb' Hin. simpl in Hb'. rewrite lookup_insert in Hb'. case_decide.
    + subst b. injection Hb' as <-. assert (q = p) as -> by congruence. auto.
    + congruence.
  - eauto.
Qed.

Lemma put_thread_same s t th th' : thrs s !! t = Some th -> tid th' = tid th \/ tid th' <= 0 -> tproc th' = tproc th ->
  same_ids s (set_thrs s (<[t := th']> (thrs s))).
Proof.
  intros Ht E1 E2. constructor; try done; [same_procs|].
  intros u x Hu Hp. simpl in Hu. rewrite lookup_insert in Hu. case_decide; [|eauto]. injection Hu as <-. subst u.
  exists th. split_and!; [done|destruct E1; [done|lia]|done].
Qed.

Lemma set_world_same s w : same_ids s (set_world s w).
Proof. constructor; try done; [same_procs|eauto]. Qed.

Lemma drop_thread_same s t : same_ids s (set_thrs s (delete t (thrs s))).
Proof.
  constructor; try done; [same_procs|]. intros u x Hu _. simpl in Hu. apply lookup_delete_Some in Hu as [_ Hu]. eauto.
Qed.

Lemma drop_listed_same s l : (forall a, a ∈ l -> a ∈ proc_list s) -> same_ids s (set_proc_list s l).
Proof. intros H. constructor; try done; [same_procs|eauto]. Qed.

Lemma sched_interrupt_same s t i fl s' : sched_interrupt s t i fl = Done s' -> same_ids s s'.
Proof.
  unfold sched_interrupt, get_thread. intros Hr. rinv. eapply put_thread_same; [done|by left|done].
Qed.

Lemma proc_set_flag_same s a fl s' : proc_set_flag s a fl = Done s' -> same_ids s s'.
Proof. unfold proc_set_flag, get_proc. intros Hr. rinv. by eapply put_proc_same. Qed.

Lemma proc_clear_flag_same s a fl s' : proc_clear_flag s a fl = Done s' -> same_ids s s'.
Proof. unfold proc_clear_flag, get_proc. intros Hr. rinv. by eapply put_proc_same. Qed.

Lemma proc_wakeup_same s cur a s' : proc_wakeup_st_waiter s cur a = Done s' -> same_ids s s'.
Proof.
  unfold proc_wakeup_st_waiter, get_proc. intros Hr. rinv.
  repeat match goal with H : (if ?b then _ else _) = Done _ |- _ => destruct b end; rinv; try apply same_ids_refl; done.
Qed.

Lemma proc_rmv_thread_same s cur a t s' : proc_rmv_thread s cur a t = Done s' -> same_ids s s'.
Proof.
  unfold proc_rmv_thread, get_proc, list_remove. intros Hr. rinv. case_decide; [|done]. rinv.
  eapply same_ids_trans; [|by eapply proc_wakeup_same]. eapply put_proc_same; [done..|].
  intros u Hu. simpl in Hu. apply elem_of_list_rem in Hu. apply Hu.
Qed.

End Ids.
