(* ===== verification/ProcLife.v ===== *)
(** * The ids through the life of processes and threads

    The operations of kern/proc.c and kern/thread.c that end a thread or a
    process ([kern_exit], [thread_free], [sys_wait4]), start a thread
    ([sys_clone]) and start the first process, and the invariant of [ProcIds].
    All of them are put together in [run_op]. *)
From stdpp Require Import base tactics option list numbers gmap fin_maps.
From Stdlib Require Import ZArith Lia Bool.
From S2P Require Import Prelude Bitset User Proc ProcIds.

(** What the process code relies on when it sends a signal. *)
Class KillLaws (W : Type) `{Kill W} :=
  kern_kill_same : forall (s : kst W) cur a sig fl r s', kern_kill s cur a sig fl = Done (r, s') -> same_ids s s'.

Create HintDb ids.
#[export] Hint Resolve same_ids_refl set_world_same drop_thread_same sched_interrupt_same proc_set_flag_same
  proc_clear_flag_same proc_wakeup_same proc_rmv_thread_same : ids.
#[export] Hint Extern 1 (same_ids _ _) => (eapply put_proc_same; [eassumption|reflexivity..|done]) : ids.

Section Life.
Context {W : Type} {PL : Pls W} {KI : Kill W} {KL : KillLaws W}.
Implicit Types s : kst W.

(** What other threads do while a lock is released. *)
Definition keeps (e : kst W -> kst W) : Prop := forall s, inv None None s -> inv None None (e s).

(** ** Single-thread mode *)

Lemma st_interrupt_same mode cur l : forall s s', st_interrupt s cur mode l = Done s' -> same_ids s s'.
Proof.
  induction l as [|t l IH]; simpl; intros s s' Hr; [injection Hr as <-; auto with ids|].
  apply rbind_Done in Hr as (s1 & H1 & Hr). apply same_ids_trans with s1; [|by apply IH].
  unfold thread_intr_proc, thread_kill in H1. destruct (t =? cur); [injection H1 as <-; auto with ids|].
  destruct (mode =? PROC_ST_WAIT); rinv; eauto with ids.
Qed.

Lemma st_wait_inv a mode exit evs : Forall keeps evs -> forall s r s', inv None None s ->
  st_wait s a mode exit evs = Done (r, s') -> inv None None s'.
Proof.
  induction 1 as [|e evs He _ IH]; intros s r s' Hi Hr; simpl in Hr;
    apply rbind_Done in Hr as (p & Hp & Hr); unfold get_proc in Hp; apply deref_Done in Hp;
    match type of Hr with (if ?b then _ else _) = _ => destruct b end.
  - done.
  - destruct (mode =? PROC_ST_KILL); injection Hr as <- <-; [|done].
    eapply same_ids_inv; [done|]. by eapply put_proc_same.
  - apply rbind_Done in Hr as (q & Hq & Hr). destruct (negb exit && _); [injection Hr as <- <-; auto|eauto].
  - destruct (mode =? PROC_ST_KILL); injection Hr as <- <-; [|done].
    eapply same_ids_inv; [done|]. by eapply put_proc_same.
Qed.

Lemma proc_singlethread_inv s cur st0 evs r s' : Forall keeps evs -> inv None None s ->
  proc_singlethread s cur st0 evs = Done (r, s') -> inv None None s'.
Proof.
  intros Hev Hi Hr. unfold proc_singlethread in Hr. apply rbind_Done in Hr as (a & _ & Hr).
  apply rbind_Done in Hr as (p & Hp & Hr). unfold get_proc in Hp. apply deref_Done in Hp.
  destruct (_ =? PROC_ST_END).
  { rinv. eapply same_ids_inv; [done|]. by eapply put_proc_same. }
  destruct (negb _ && _); [by injection Hr as <- <-|].
  assert (Hent : forall s1, inv None None s1 ->
    (let* p := get_proc s1 a in
     let s2 := put_proc s1 a (set_st p (St (Some cur) (Z.land st0 (Z.lnot PROC_ST_EXIT)) (st_waiting (st p)))) in
     kassert st_waiting (st p) =? 0 in
     let* s3 := st_interrupt s2 cur (Z.land st0 (Z.lnot PROC_ST_EXIT)) (threads p) in
     st_wait s3 a (Z.land st0 (Z.lnot PROC_ST_EXIT)) (F_ISSET st0 PROC_ST_EXIT) evs) = Done (r, s') -> inv None None s').
  { intros s1 Hi1 Hr1. apply rbind_Done in Hr1 as (p1 & Hp1 & Hr1). unfold get_proc in Hp1. apply deref_Done in Hp1.
    destruct (st_waiting (st p1) =? 0); [|done]. apply rbind_Done in Hr1 as (s3 & H3 & Hr1).
    eapply st_wait_inv; [done| |exact Hr1]. eapply same_ids_inv; [exact Hi1|].
    eapply same_ids_trans; [|by eapply st_interrupt_same]. by eapply (put_proc_same s1 a p1). }
  destruct (proc_test_flags p PROC_ST).
  - case_bool_decide.
    + do 2 (match type of Hr with (if ?b then _ else _) = _ => destruct b; [|done] end). by eapply Hent.
    + apply rbind_Done in Hr as (i & _ & Hr). destruct i; [by injection Hr as <- <-|done].
  - apply rbind_Done in Hr as (s1 & H1 & Hr). eapply Hent; [|exact Hr]. eapply same_ids_inv; eauto with ids.
Qed.

(** ** Exit *)

Lemma proc_reparent_same s a par s' : proc_reparent s a par = Done s' -> same_ids s s'.
Proof.
  unfold proc_reparent. intros Hr. apply rbind_Done in Hr as (p & Hp & Hr). apply rbind_Done in Hr as (old & _ & Hr).
  apply rbind_Done in Hr as (o & Ho & Hr). apply rbind_Done in Hr as ([l em] & _ & Hr).
  apply rbind_Done in Hr as (n & Hn & Hr). apply rbind_Done in Hr as (q & Hq & Hr). injection Hr as <-.
  unfold get_proc in *. apply deref_Done in Ho, Hn, Hq.
  eapply same_ids_trans; [|by eapply (put_proc_same _ a q)].
  eapply same_ids_trans; [|by eapply (put_proc_same _ par n)]. by eapply (put_proc_same s old o).
Qed.

Lemma reparent_all_same l : forall s s', reparent_all s l = Done s' -> same_ids s s'.
Proof.
  induction l as [|c l IH]; simpl; intros s s' Hr; [injection Hr as <-; auto with ids|].
  apply rbind_Done in Hr as (s1 & H1 & Hr). eapply same_ids_trans; [by eapply proc_reparent_same|by apply IH].
Qed.

Lemma proc_exit_last_same s cur status sig s' : proc_exit_last s cur status sig = Done s' -> same_ids s s'.
Proof.
  unfold proc_exit_last. intros Hr. apply rbind_Done in Hr as (a & _ & Hr). apply rbind_Done in Hr as (p & _ & Hr).
  apply rbind_Done in Hr as (s1 & H1 & Hr). apply rbind_Done in Hr as ([l em] & Hl & Hr).
  apply rbind_Done in Hr as (q & Hq & Hr). apply rbind_Done in Hr as ([l2 em2] & Hl2 & Hr).
  apply rbind_Done in Hr as (s2 & H2 & Hr). apply rbind_Done in Hr as (w & _ & Hr). injection Hr as <-.
  unfold get_proc in Hq. apply deref_Done in Hq.
  apply list_remove_inv in Hl as (_ & _ & Hl). apply list_remove_inv in Hl2 as (_ & _ & Hl2).
  eapply same_ids_trans; [by eapply reparent_all_same|].
  eapply same_ids_trans; [by apply drop_listed_same|].
  eapply same_ids_trans; [|eapply same_ids_trans; [by eapply proc_set_flag_same|apply set_world_same]].
  by eapply put_proc_same.
Qed.

Lemma proc_exit_inv s cur status sig evs evs2 s' : Forall keeps evs -> Forall keeps evs2 -> inv None None s ->
  proc_exit s cur status sig evs evs2 = Done s' -> inv None None s'.
Proof.
  intros He He2 Hi Hr. unfold proc_exit in Hr. apply rbind_Done in Hr as (a & _ & Hr).
  destruct (a =? init_process s); [done|]. apply rbind_Done in Hr as (p & _ & Hr).
  destruct (proc_test_flags p PROC_EXIT).
  { apply rbind_Done in Hr as (i & _ & Hr). destruct i; [by injection Hr as <-|done]. }
  apply rbind_Done in Hr as (s1 & H1 & Hr). apply rbind_Done in Hr as ([err s2] & H2 & Hr).
  assert (Hi2 : inv None None s2).
  { eapply (proc_singlethread_inv s1); [exact He| |exact H2]. eapply same_ids_inv; eauto with ids. }
  destruct (err =? 0); [eapply same_ids_inv; [exact Hi2|by eapply proc_exit_last_same]|].
  apply rbind_Done in Hr as (i & _ & Hr). destruct i; [|done]. apply rbind_Done in Hr as (s3 & H3 & Hr).
  apply rbind_Done in Hr as (s4 & H4 & Hr). apply rbind_Done in Hr as (q & Hq & Hr).
  apply rbind_Done in Hr as ([err2 s5] & H5 & Hr). destruct (err2 =? 0); [|done].
  unfold get_proc in Hq. apply deref_Done in Hq.
  eapply same_ids_inv; [|by eapply proc_exit_last_same]. eapply proc_singlethread_inv; [exact He2| |exact H5].
  eapply same_ids_inv; [exact Hi2|]. apply same_ids_trans with s3; [eauto with ids|].
  apply same_ids_trans with s4; [eauto with ids|]. by eapply put_proc_same.
Qed.

(** ** Reaping *)

(** A process outside its group and the table is gone. *)
Lemma del_ghost_inv s a p : inv (Some a) None s -> procs s !! a = Some p -> pgrp p = None -> a ∉ proc_list s ->
  inv None None (del_proc s a).
Proof.
  intros [] Ha Hpg Hpl.
  assert (L : forall b q, procs (del_proc s a) !! b = Some q -> procs s !! b = Some q /\ Some a <> Some b).
  { intros b q Hb. simpl in Hb. apply lookup_delete_Some in Hb as [? ?]. split; congruence. }
  assert (R : forall t th b q, running (del_proc s a) t th b q -> running s t th b q).
  { intros t th b q (? & ? & Hb & ?). apply L in Hb as [? _]. done. }
  constructor; try done.
  - intros b q [Hb _]%L. by eapply i_pos.
  - intros b q [Hb Hn]%L _. by eapply i_pid.
  - intros b b' q q' [Hb Hn]%L [Hb' Hn']%L _ _. by eapply i_pid_uniq.
  - intros g x b Hx. rewrite (i_member g x b Hx). split; intros (q & Hq & E).
    + exists q. split; [|done]. simpl. apply lookup_delete_Some. split; [congruence|done].
    + apply L in Hq as [Hq _]. eauto.
  - intros b q [Hb Hn]%L _. by eapply i_pgrp.
  - intros b q g [Hb _]%L. by eapply i_pgrp_live.
  - intros b Hin. destruct (i_plist b Hin) as (q & Hq & Hp). exists q. split; [|done].
    simpl. apply lookup_delete_Some. split; [|done]. by intros ->.
  - intros g x b q Hx [Hb Hn]%L _. by eapply i_leader.
  - intros b se c q Hse [Hc Hn]%L _. by eapply i_sess_leader.
  - intros t th b q Hr Ht Hn. destruct (i_tid t th b q (R _ _ _ _ Hr) Ht Hn) as (Hu & N1 & N2 & N3 & N4).
    refine (conj Hu (conj _ (conj N2 (conj N3 _)))).
    + intros c q' [Hc Hn']%L _. by eapply N1.
    + intros t' th' c q' Hr'. by eapply N4, R.
Qed.

(** The pid of a process is free for reuse once it has left, if no group has it. *)
Lemma pid_unowned s a p : inv None None s -> procs s !! a = Some p -> 0 < pid p ->
  (forall g x, pgrps s !! g = Some x -> pgid x <> pid p) -> unowned (Some a) s (pid p).
Proof.
  intros [] Ha Hp Hg. split_and!; [|done| |].
  - intros b q Hb Hn E. apply Hn. f_equal. by eapply i_pid_uniq.
  - intros b se Hb E. destruct (i_sess_leader b se a p Hb Ha) as (g & x & _ & Hx & _ & E'); [done..|]. by eapply Hg.
  - intros t th b q Hr Hn E. destruct (i_tid t th b q Hr) as (_ & N & _); [lia|done|]. by eapply (N a p).
Qed.

Lemma tid_free_neg s i s' : inv None None s -> - 2 ^ 31 <= i < 0 -> tid_free s i = Done s' -> False.
Proof.
  intros Hi Hr. unfold tid_free, bset_free_bit, bset_clr. destruct (i_tids _ _ _ Hi) as (_ & -> & _ & _).
  assert (u32 i = i + 2 ^ 32) as ->.
  { unfold u32, wrap. rewrite <- (Z.mod_add i 1) by done. apply Z.mod_small. lia. }
  unfold THREAD_MAX. destruct (Z.ltb_spec (i + 2 ^ 32) 512); [lia|].
  by destruct (i <? 512), (i =? 0), (i =? 1).
Qed.

Lemma pgrp_enter_None_inv s me a p r s' s2 : inv (Some a) None s -> procs s !! a = Some p ->
  pgrp_enter s me a None = Done (r, s') -> proc_free s' a = Done s2 -> inv None None s2.
Proof.
  intros Hi Ha He Hf. assert (Hn : pgrp p <> None).
  { unfold pgrp_enter, get_proc in He. rewrite Ha in He. cbn [deref rbind] in He. by case_bool_decide. }
  destruct (negb (a =? me) && proc_test_flags p PROC_EXEC && negb (proc_test_flags p PROC_ZOMBIE)) eqn:Hg.
  - unfold pgrp_enter, get_proc in He. rewrite Ha in He. cbn [deref rbind] in He.
    rewrite bool_decide_false, Hg in He by done. injection He as <- <-.
    by apply (proc_free_Done s a p) in Hf as (_ & _ & ?).
  - destruct (pgrp_enter_inv None s me a p None Hi Ha Hn eq_refl Hg) as (s3 & He' & Hi' & Ep & _).
    rewrite He in He'. injection He' as _ <-.
    assert (Ha' : procs s' !! a = Some (set_pgrp p None)) by (rewrite Ep; apply lookup_insert_eq).
    destruct (proc_free_Done _ _ _ _ Hf Ha') as (-> & Hpl & _). by eapply del_ghost_inv.
Qed.

Lemma proc_reap_inv s me par a st s' : inv None None s -> proc_reap s me par a = Done (st, s') -> inv None None s'.
Proof.
  intros Hi Hr. unfold proc_reap in Hr. apply rbind_Done in Hr as (p0 & _ & Hr).
  case_bool_decide; [|done]. apply rbind_Done in Hr as (q & Hq & Hr). apply rbind_Done in Hr as ([l em] & _ & Hr).
  unfold get_proc in *. apply deref_Done in Hq.
  assert (Hi1 : inv None None (put_proc s par (set_children q l))).
  { eapply same_ids_inv; [exact Hi|]. by eapply put_proc_same. }
  revert Hr Hi1. generalize (put_proc s par (set_children q l)). clear dependent s. intros s Hr Hi.
  apply rbind_Done in Hr as (p & Ha & Hr). apply deref_Done in Ha.
  apply rbind_Done in Hr as (g & Hg & Hr). apply rbind_Done in Hr as (s1 & H1 & Hr).
  apply rbind_Done in Hr as ([e s2] & H2 & Hr). apply rbind_Done in Hr as (s3 & H3 & Hr). injection Hr as <- <-.
  assert (Hs1 : inv (Some a) None s1 /\ procs s1 = procs s).
  { destruct (pgrp_search_run s (pgrp_list s) (pid p)) as (r & Hg' & Hr).
    { intros b Hb. by apply (i_glist _ _ _ Hi). }
    unfold pgrp_lookup in Hg. rewrite Hg in Hg'. injection Hg' as <-.
    destruct g as [g|]; [injection H1 as <-; split; by try apply inv_forget|].
    apply rbind_Done in H1 as ([sa se] & _ & H1). destruct (sid se =? pid p); [injection H1 as <-; split; by try apply inv_forget|].
    destruct (i_pos _ _ _ Hi a p Ha) as [Hp|Hp]; [|exfalso; eapply tid_free_neg; [exact Hi| |exact H1]; lia].
    assert (Hr1 : 1 < pid p < THREAD_MAX).
    { destruct (i_pid _ _ _ Hi a p Ha) as [? _]; [done..|]. destruct (decide (pid p = 1)) as [E|]; [|lia].
      rewrite E in H1. done. }
    destruct (tid_free_run _ _ _ _ Hi Hr1) as (b & Hf & Hc). rewrite H1 in Hf. injection Hf as ->.
    split; [|done]. apply (cleared_inv _ _ _ _ (pid p)); [by apply inv_forget|done|lia|].
    apply pid_unowned; try done. intros h x Hh. apply (Hr h); [|done]. apply (i_glist _ _ _ Hi). eauto. }
  destruct Hs1 as (Hi1 & E1). eapply (pgrp_enter_None_inv s1); [exact Hi1|by rewrite E1|exact H2|exact H3].
Qed.

Lemma proc_do_sigchld_same s cur a s' : proc_do_sigchld s cur a = Done s' -> same_ids s s'.
Proof.
  unfold proc_do_sigchld. intros Hr. apply rbind_Done in Hr as (p & _ & Hr). apply rbind_Done in Hr as (par & _ & Hr).
  apply rbind_Done in Hr as ([r s1] & Hk & Hr). injection Hr as <-. by eapply kern_kill_same.
Qed.

Lemma thread_free_inv s cur t s' : inv None None s -> thread_free s cur t = Done s' -> inv None None s'.
Proof.
  intros Hi Hr. unfold thread_free in Hr. apply rbind_Done in Hr as (th & _ & Hr).
  apply rbind_Done in Hr as (s1 & H1 & Hr). apply rbind_Done in Hr as (w & _ & Hr). injection Hr as <-.
  assert (Hi1 : inv None None s1).
  { destruct (tproc th) as [a|]; [|by injection H1 as <-]. apply rbind_Done in H1 as (p & _ & H1).
    destruct (F_ISSET (pflags p) PROC_FREE); [|by injection H1 as <-]. unfold proc_exit_final in H1.
    apply rbind_Done in H1 as (me & _ & H1). destruct (negb (a =? me)); [|done].
    apply rbind_Done in H1 as (p1 & _ & H1). apply rbind_Done in H1 as (par & _ & H1). apply rbind_Done in H1 as (q & _ & H1).
    destruct (proc_test_flags q PROC_AUTOREAP); apply rbind_Done in H1.
    - destruct H1 as ([st s2] & H2 & H1). injection H1 as <-. by eapply proc_reap_inv.
    - destruct H1 as (s2 & H2 & H1). eapply same_ids_inv; [exact Hi|].
      eapply same_ids_trans; [by eapply proc_set_flag_same|by eapply proc_do_sigchld_same]. }
  eapply same_ids_inv; [exact Hi1|]. eapply same_ids_trans; [apply drop_thread_same|apply set_world_same].
Qed.

(** ** sys_wait4 *)

Lemma wait4_scan_inv pid' options me l : forall s n r, inv None None s ->
  wait4_scan s pid' options me l n = Done r ->
  match r with inl (_, s') => inv None None s' | inr (_, s') => inv None None s' end.
Proof.
  induction l as [|a l IH]; intros s n r Hi Hr; simpl in Hr; [by injection Hr as <-|].
  apply rbind_Done in Hr as (p & Hp & Hr). apply rbind_Done in Hr as (b & Hb & Hr). destruct (negb b).
  { apply rbind_Done in Hr as ([st s1] & H1 & Hr). injection Hr as <-. by eapply proc_reap_inv. }
  destruct (_ =? 0); [by eapply IH|]. destruct (proc_test_flags p PROC_STATUS); [|by eapply IH].
  apply rbind_Done in Hr as (s1 & H1 & Hr).
  assert (inv None None s1) by (eapply same_ids_inv; eauto with ids).
  destruct (negb _); [by injection Hr as <-|by eapply IH].
Qed.

Lemma wait4_loop_inv me pid' options evs : Forall (fun e => keeps e.2) evs -> forall s r st s', inv None None s ->
  wait4_loop s me pid' options evs = Done (r, st, s') -> inv None None s'.
Proof.
  induction 1 as [|[err e] evs He _ IH]; intros s r st s' Hi Hr; simpl in Hr;
    apply rbind_Done in Hr as (c & _ & Hr); apply rbind_Done in Hr as (x & Hx & Hr);
    apply wait4_scan_inv in Hx; try done; destruct x as [[[id [st1 a]] s1]|[n s1]];
    try (by injection Hr as <- <- <-); destruct (n =? 0); try (by injection Hr as <- <- <-);
    destruct (F_ISSET options WNOHANG); try (by injection Hr as <- <- <-); [done|].
  destruct (negb (err =? 0)); [injection Hr as <- <- <-; by apply He|]. eapply IH; [by apply He|exact Hr].
Qed.

(** ** The end of a thread *)

Lemma drop_tid_inv s cur th a p s1 : inv None None s -> running s cur th a p -> 0 < tid th -> tid th <> pid p ->
  tid_free s (tid th) = Done s1 ->
  inv None None (set_thrs s1 (<[cur := Thread (-111) (tproc th) (intr th) (sflags th)]> (thrs s1))).
Proof.
  intros Hi Hrun Hpos Hne Hf. pose proof Hrun as (Hcur & _).
  destruct (i_tid _ _ _ Hi _ _ _ _ Hrun Hpos Hne) as ([Hu _] & N1 & N2 & N3 & N4).
  assert (Hr : 1 < tid th < THREAD_MAX).
  { destruct (decide (tid th = 1)) as [E|]; [|lia]. by rewrite E in Hf. }
  set (s0 := set_thrs s (<[cur := Thread (-111) (tproc th) (intr th) (sflags th)]> (thrs s))).
  assert (Hi0 : inv None None s0).
  { eapply same_ids_inv; [exact Hi|]. eapply put_thread_same; [done|right; simpl; lia|done]. }
  destruct (tid_free_run _ _ _ _ Hi Hr) as (b & Hf' & Hc). rewrite Hf in Hf'. injection Hf' as ->.
  apply (cleared_inv _ _ s0 b (tid th) Hi0 Hc); [lia|]. split_and!; [done..|].
  intros t x c q (H1 & H2 & H3 & H4) Hn E. simpl in H1. rewrite lookup_insert in H1. case_decide as Hd.
  - injection H1 as <-. simpl in E. lia.
  - assert (t = cur); [|congruence]. by eapply (N4 t x c q).
Qed.

Lemma kern_exit_inv s cur th a p evs evs2 s' : inv None None s -> running s cur th a p ->
  0 < tid th \/ tid th = KTHREAD_TID -> Forall keeps evs -> Forall keeps evs2 ->
  kern_exit s cur evs evs2 = Done s' -> inv None None s'.
Proof.
  intros Hi Hrun Hpos He He2 Hr. pose proof Hrun as (Hcur & Htp & Ha & _).
  unfold kern_exit, cur_proc, get_thread, get_proc in Hr. rewrite Hcur in Hr. cbn [deref rbind] in Hr.
  rewrite Htp in Hr. cbn [deref rbind] in Hr. rewrite Ha in Hr. cbn [deref rbind] in Hr.
  apply rbind_Done in Hr as (s1 & H1 & Hr).
  assert (Hi1 : inv None None s1).
  { destruct (negb _ && negb _) eqn:E; [|by injection H1 as <-]. bool_props.
    apply rbind_Done in H1 as (s2 & H2 & H1). injection H1 as <-. destruct Hpos; [|done]. rewrite <- Htp.
    by eapply drop_tid_inv. }
  case_decide; [exact (proc_exit_inv s1 _ _ _ _ _ _ He He2 Hi1 Hr)|].
  eapply same_ids_inv; [exact Hi1|exact (proc_rmv_thread_same _ _ _ _ _ Hr)].
Qed.

(** ** The start of a thread *)

Lemma new_thread_inv s me c mt id : inv None None s -> procs s !! me = Some c -> thrs s !! mt = None ->
  used s id -> unowned None s id ->
  inv None None (set_thrs (put_proc s me (set_threads c (threads c ++ [mt]))) (<[mt := Thread id (Some me) 0 0]> (thrs s))).
Proof.
  intros Hi Hme Hmt Hu (U1 & U2 & U3 & U4). pose proof Hi as [].
  set (s' := set_thrs _ _).
  assert (F : forall b q', procs s' !! b = Some q' -> exists q, procs s !! b = Some q /\ pid q' = pid q /\ pgrp q' = pgrp q).
  { intros b q'. simpl. rewrite lookup_insert. case_decide; [|eauto]. subst b. intros [= <-]. eauto. }
  assert (B : forall b q, procs s !! b = Some q -> exists q', procs s' !! b = Some q' /\ pid q' = pid q /\ pgrp q' = pgrp q).
  { intros b q Hq. simpl. rewrite lookup_insert. case_decide; [|eauto]. subst b. eexists. split; [done|]. simpl.
    split; congruence. }
  assert (R : forall t x b q', running s' t x b q' -> (t = mt /\ tid x = id) \/
    exists q, running s t x b q /\ pid q = pid q').
  { intros t x b q' (H1 & H2 & H3 & H4). simpl in H1, H3. rewrite lookup_insert in H1. case_decide as Hd.
    { injection H1 as <-. by left. }
    right. rewrite lookup_insert in H3. case_decide; [|exists q'; done]. subst b. injection H3 as <-. exists c. split; [|done].
    simpl in H4. apply elem_of_app in H4 as [H4|H4%list_elem_of_singleton]; [done|congruence]. }
  constructor; try done.
  - intros b q Hb. destruct (F b q Hb) as (q0 & H0 & -> & _). by eapply i_pos.
  - intros b q Hb Hf. destruct (F b q Hb) as (q0 & H0 & -> & _). by eapply i_pid.
  - intros b b' q q' Hb Hb' _ _. destruct (F b q Hb) as (q0 & H0 & -> & _), (F b' q' Hb') as (q1 & H1 & -> & _).
    by eapply i_pid_uniq.
  - intros g x b Hx. rewrite (i_member g x b Hx). split; intros (q & Hq & E).
    + destruct (B b q Hq) as (q' & ? & _ & ?). exists q'. split; congruence.
    + destruct (F b q Hq) as (q' & ? & _ & ?). exists q'. split; congruence.
  - intros b q Hb Hf. destruct (F b q Hb) as (q0 & H0 & -> & ->). by eapply i_pgrp.
  - intros b q g Hb. destruct (F b q Hb) as (q0 & H0 & _ & ->). by eapply i_pgrp_live.
  - intros b Hb. destruct (i_plist b Hb) as (q & Hq & Hp). destruct (B b q Hq) as (q' & ? & E & _). exists q'. by rewrite E.
  - intros g x b q Hx Hb _. destruct (F b q Hb) as (q0 & H0 & -> & ->). by eapply i_leader.
  - intros b se d q Hse Hd _. destruct (F d q Hd) as (q0 & H0 & -> & ->). by eapply i_sess_leader.
  - intros t x b q Hr Ht Hn. destruct (R t x b q Hr) as [(-> & ->)|(q0 & Hr0 & E)].
    + refine (conj Hu (conj _ (conj U2 (conj U3 _)))).
      * intros d q' Hd _. destruct (F d q' Hd) as (q1 & H1 & -> & _). by eapply U1.
      * intros t' x' d q' Hr' E'. destruct (R t' x' d q' Hr') as [(-> & _)|(q1 & Hr1 & _)]; [done|]. exfalso.
        destruct (decide (tid x' = pid q1)); [|by eapply U4]. eapply (U1 d q1); [apply Hr1|done|congruence].
    + rewrite <- E in Hn. destruct (i_tid t x b q0 Hr0 Ht Hn) as (Hu' & N1 & N2 & N3 & N4).
      refine (conj Hu' (conj _ (conj N2 (conj N3 _)))).
      * intros d q' Hd _. destruct (F d q' Hd) as (q1 & H1 & -> & _). by eapply N1.
      * intros t' x' d q' Hr' E'. destruct (R t' x' d q' Hr') as [(-> & E1)|(q1 & Hr1 & _)]; [|by eapply N4].
        exfalso. eapply (U4 t x b q0); [done..|congruence].
Qed.

(** The thread of a clone whose id could not be copied out. *)
Lemma thread_free_new s cur t th s' : thrs s !! t = Some th -> tproc th = None -> thread_free s cur t = Done s' ->
  exists w, s' = set_world (set_thrs s (delete t (thrs s))) w.
Proof.
  intros Ht Hp. unfold thread_free, get_thread. rewrite Ht. cbn [deref rbind]. rewrite Hp. cbn [rbind]. intros Hr.
  apply rbind_Done in Hr as (w & _ & Hr). injection Hr as <-. by exists w.
Qed.

Lemma sys_clone_inv {CP : Cpu} s m cur th me c mt flags ptid desc r m' s' : inv None None s -> running s cur th me c ->
  thrs s !! mt = None -> sys_clone s m cur mt flags ptid desc = Done (r, m', s') ->
  inv None None s' /\ (forall x, thrs s' !! mt = Some x -> tid x = r /\ unowned None s r).
Proof.
  intros Hi (Hcur & Htp & Hme & _) Hmt Hr. unfold sys_clone, cur_proc, get_thread in Hr. rewrite Hcur in Hr.
  cbn [deref rbind] in Hr. rewrite Htp in Hr. cbn [deref rbind] in Hr.
  assert (Hnone : inv None None s /\ (forall x, thrs s !! mt = Some x -> tid x = r /\ unowned None s r))
    by (split; [done|congruence]).
  do 3 (match type of Hr with (if ?b then _ else _) = _ => destruct b; [by injection Hr as <- <- <-|] end). clear Hnone.
  destruct (tid_alloc_inv _ _ _ Hi) as (id & s1 & Hal & Hi1 & Es1 & Hid). rewrite Hal in Hr. cbn [rbind] in Hr.
  assert (Hm1 : thrs s1 !! mt = None) by by rewrite Es1.
  destruct (Z.ltb_spec id 0); [injection Hr as <- <- <-; split; [done|congruence]|].
  destruct Hid as [?|(Hrng & _ & Hbit & Hun)]; [lia|].
  assert (Hun1 : unowned None s1 id) by (rewrite Es1; exact Hun).
  assert (Hme1 : procs s1 !! me = Some c) by by rewrite Es1.
  assert (Hundo : forall w s3, tid_free (set_world (set_thrs s1 (delete mt (<[mt := Thread id None 0 0]> (thrs s1)))) w) id = Done s3 ->
    inv None None s3 /\ (forall x, thrs s3 !! mt = Some x -> tid x = r /\ unowned None s r)).
  { intros w s3 Hf. split.
    - eapply (fork_undo s1); [exact Hi1|exact Hun1| |..|exact Hf]; simpl; rewrite ?delete_insert_id; done.
    - unfold tid_free in Hf. rinv. by rewrite lookup_delete_eq. }
  apply rbind_Done in Hr as ([err s2] & H2 & Hr). apply thread_new_Done in H2 as (w & [[Hne ->]|[-> ->]]).
  - destruct (Z.eqb_spec err 0); [done|]. cbn [negb] in Hr. apply rbind_Done in Hr as (s3 & Hf & Hr).
    injection Hr as <- <- <-. by eapply Hundo.
  - change (negb (0 =? 0)) with false in Hr. cbn iota in Hr. apply rbind_Done in Hr as ([e m1] & _ & Hr).
    destruct (negb (e =? 0)).
    + apply rbind_Done in Hr as (s3 & Hf & Hr). apply rbind_Done in Hr as (s4 & Hg & Hr). injection Hr as <- <- <-.
      eapply thread_free_new in Hf as [w' ->]; [|simpl; apply lookup_insert_eq|done]. by eapply (Hundo w').
    + apply rbind_Done in Hr as (s3 & Hadd & Hr). injection Hr as <- <- <-.
      eapply proc_add_thread_Done in Hadd; [|exact Hme1|simpl; apply lookup_insert_eq]. subst s3. split.
      * eapply (ids_ext _ _ (set_thrs (put_proc s1 me (set_threads c (threads c ++ [mt]))) (<[mt := Thread id (Some me) 0 0]> (thrs s1))));
          [|simpl; rewrite ?insert_insert_eq; done..].
        apply new_thread_inv; try done. split; [unfold THREAD_MAX in *; lia|done].
      * simpl. rewrite lookup_insert_eq. intros x [= <-]. done.
Qed.

(** ** The first process *)

(** The kernel before [proc_spawn_init]: only its own process and threads. *)
Record boot s : Prop := {
  b_procs : forall a p, procs s !! a = Some p -> pid p = -1 /\ pgrp p = None;
  b_thrs : forall t th, thrs s !! t = Some th -> tid th <= 0;
  b_pgrps : pgrps s = ∅;
  b_sessions : sessions s = ∅;
  b_lists : proc_list s = [] /\ pgrp_list s = [];
  b_tids : Bitset.wf (tids s) /\ Bitset.size (tids s) = THREAD_MAX /\ bits (tids s) 0 = true /\ bits (tids s) 1 = true;
}.

(** The state [proc_spawn_init] leaves behind. *)
Definition spawned s (a t se g : Z) (w : W) : kst W :=
  Kst (<[a := Proc 1 None [] [t] (Some g) 0 0 0 0 (St None 0 0) nobody]> (procs s))
    (<[g := Pgrp (Some se) [a] 1]> (pgrps s)) (<[se := Session 2 1]> (sessions s))
    (<[t := Thread 1 (Some a) 0 0]> (thrs s)) (proc_list s ++ [a]) (pgrp_list s ++ [g]) (tids s) a w.

Lemma first_group s b id sa s' : pgrp_setup (pgrp_alloc (session_alloc s sa id) b) b id sa = Done s' ->
  s' = Kst (procs s) (<[b := Pgrp (Some sa) [] id]> (pgrps s)) (<[sa := Session 2 id]> (sessions s))
    (thrs s) (proc_list s) (pgrp_list s ++ [b]) (tids s) (init_process s) (world s).
Proof.
  unfold pgrp_setup, session_ref, get_session, get_pgrp. cbn [pgrp_alloc session_alloc set_pgrps set_sessions sessions].
  rewrite lookup_insert_eq. cbn [deref rbind sref sid].
  change (ref_inc 1) with (Done 2). cbn [rbind set_sessions pgrps pgrp_alloc session_alloc set_pgrps]. rewrite lookup_insert_eq. cbn [deref rbind]. intros [= <-].
  apply kst_eq; cbn; rewrite ?insert_insert_eq; done.
Qed.

Lemma first_enter s a p b x e s' : procs s !! a = Some p -> pgrp p = None -> pgrps s !! b = Some x ->
  pgrp_enter s a a (Some b) = Done (e, s') ->
  s' = Kst (<[a := set_pgrp p (Some b)]> (procs s)) (<[b := Pgrp (gsession x) (members x ++ [a]) (pgid x)]> (pgrps s))
    (sessions s) (thrs s) (proc_list s) (pgrp_list s) (tids s) (init_process s) (world s).
Proof.
  intros Ha Hp Hb. unfold pgrp_enter, get_proc, pgrp_append, get_pgrp. rewrite Ha. cbn [deref rbind].
  rewrite Hp, bool_decide_false, Z.eqb_refl by done. cbn [negb andb rbind put_proc pgrps]. rewrite Hb.
  cbn [deref rbind]. by intros [= <- <-].
Qed.

Lemma proc_spawn_init_run s a t se g s' : proc_spawn_init a t se g s = Done s' -> exists w, s' = spawned s a t se g w.
Proof.
  unfold proc_spawn_init. intros Hr. apply rbind_Done in Hr as ([[e np] s1] & H1 & Hr).
  destruct (Z.eqb_spec e 0) as [->|]; [|done].
  unfold proc_new in H1. apply rbind_Done in H1 as ([e1 w1] & _ & H1). destruct (negb (e1 =? 0)); [done|]. injection H1 as _ <-.
  apply rbind_Done in Hr as ([e2 s2] & H2 & Hr). destruct (Z.eqb_spec e2 0) as [->|]; [|done].
  apply thread_new_Done in H2 as (w2 & [[? _]|[_ ->]]); [done|].
  apply rbind_Done in Hr as (s3 & Hadd & Hr).
  eapply proc_add_thread_Done in Hadd; [|cbn; apply lookup_insert_eq..].
  apply rbind_Done in Hr as (s4 & H4 & Hr). apply first_group in H4.
  apply rbind_Done in Hr as ([e5 s5] & H5 & Hr). destruct (e5 =? 0); [|done].
  eapply first_enter in H5; cycle 1.
  { rewrite H4, Hadd. cbn. apply lookup_insert_eq. }
  { done. }
  { rewrite H4. cbn. apply lookup_insert_eq. }
  exists w2. injection Hr as <-. subst s5 s4 s3. apply kst_eq; cbn; rewrite ?insert_insert_eq; done.
Qed.

Lemma spawned_inv s a t se g w : boot s -> procs s !! a = None -> thrs s !! t = None ->
  inv None None (spawned s a t se g w).
Proof.
  intros [Bp Bt Bg Bs [Bl Bl'] Btid] Ha Ht.
  assert (P : forall b q, procs (spawned s a t se g w) !! b = Some q ->
    (b = a /\ pid q = 1 /\ pgrp q = Some g /\ threads q = [t]) \/ (b <> a /\ pid q = -1 /\ pgrp q = None)).
  { intros b q. simpl. rewrite lookup_insert. case_decide; [intros [= <-]; by left|]. intros Hb. right. split; [done|by eapply Bp]. }
  assert (G : forall h x, pgrps (spawned s a t se g w) !! h = Some x -> h = g /\ x = Pgrp (Some se) [a] 1).
  { intros h x. simpl. rewrite Bg, lookup_insert. case_decide; [by intros [= <-]|done]. }
  assert (S : forall b x, sessions (spawned s a t se g w) !! b = Some x -> b = se /\ x = Session 2 1).
  { intros b x. simpl. rewrite Bs, lookup_insert. case_decide; [by intros [= <-]|done]. }
  assert (U : used (spawned s a t se g w) 1) by (split; [unfold THREAD_MAX; lia|apply Btid]).
  assert (Hg : pgrps (spawned s a t se g w) !! g = Some (Pgrp (Some se) [a] 1)) by apply lookup_insert_eq.
  constructor; try done.
  - intros b q Hb. destruct (P b q Hb) as [(_ & -> & _)|(_ & -> & _)]; lia.
  - intros b q Hb _ Hp. destruct (P b q Hb) as [(_ & -> & _)|(_ & E & _)]; [done|lia].
  - intros h x [-> ->]%G. done.
  - intros b x [-> ->]%S. done.
  - intros b b' q q' Hb Hb' _ _ Hp E. destruct (P b q Hb) as [(-> & _)|(_ & ? & _)], (P b' q' Hb') as [(-> & _)|(_ & ? & _)]; (done || lia).
  - intros h h' x x' [-> _]%G [-> _]%G. done.
  - intros h h' x x' [-> _]%S [-> _]%S. done.
  - intros h x [-> ->]%G. split; [apply NoDup_singleton|done].
  - intros h x b [-> ->]%G. simpl members. rewrite list_elem_of_singleton. split.
    + intros ->. eexists. split; [apply lookup_insert_eq|done].
    + intros (q & Hq & E). destruct (P b q Hq) as [(-> & _)|(_ & _ & ?)]; [done|congruence].
  - intros h x [-> ->]%G. exists se. split; [done|]. simpl. rewrite lookup_insert_eq. eauto.
  - intros b q Hb _ Hp. destruct (P b q Hb) as [(_ & _ & -> & _)|(_ & ? & _)]; [eauto|lia].
  - intros b q h Hb E. destruct (P b q Hb) as [(_ & _ & E' & _)|(_ & _ & E')]; rewrite E' in E; [|done]. injection E as <-. eauto.
  - simpl. rewrite Bl'. split; [apply NoDup_singleton|]. intros h. simpl. rewrite list_elem_of_singleton, Bg. split.
    + intros ->. rewrite lookup_insert_eq. eauto.
    + intros [x Hx]. by apply lookup_insert_Some in Hx as [[? _]|[_ ?]].
  - simpl. rewrite Bl. intros b Hb. apply list_elem_of_singleton in Hb as ->. rewrite lookup_insert_eq. by eexists.
  - intros b x [-> ->]%S. simpl.
    rewrite (ngroups_new s _ g (Pgrp (Some se) [a] 1) se) by (done || by rewrite Bg, lookup_empty).
    rewrite decide_True, ngroups_none by (done || (intros h x; by rewrite Bg, lookup_empty)). done.
  - intros h x b q [-> ->]%G Hb _ E. simpl in E. destruct (P b q Hb) as [(_ & _ & -> & _)|(_ & ? & _)]; [done|lia].
  - intros b x d q [-> ->]%S Hd _ E. simpl in E. destruct (P d q Hd) as [(_ & E1 & -> & _)|(_ & ? & _)]; [|lia].
    exists g, (Pgrp (Some se) [a] 1). rewrite E1. done.
  - exists se, (Session 2 1). split; [apply lookup_insert_eq|done].
  - intros b x h y [-> ->]%S [-> ->]%G. done.
  - intros t' th b q (H1 & H2 & H3 & H4) Hpos Hne. simpl in H1. rewrite lookup_insert in H1. case_decide.
    + injection H1 as <-. simpl in H2. injection H2 as <-. destruct (P a q H3) as [(_ & E & _)|(? & _)]; [|done]. by rewrite E in Hne.
    + apply Bt in H1. lia.
Qed.

(** ** Signals that stop and continue *)

Lemma intr_threads_same l : forall s s', intr_threads s l = Done s' -> same_ids s s'.
Proof.
  induction l as [|t l IH]; simpl; intros s s' Hr; [injection Hr as <-; auto with ids|].
  apply rbind_Done in Hr as (s1 & H1 & Hr). eapply same_ids_trans; [by eapply sched_interrupt_same|by apply IH].
Qed.

Lemma proc_stop_same s cur a sig s' : proc_stop s cur a sig = Done s' -> same_ids s s'.
Proof.
  unfold proc_stop. intros Hr. apply rbind_Done in Hr as (p & _ & Hr).
  destruct (proc_test_flags p PROC_STOP); [injection Hr as <-; auto with ids|].
  apply rbind_Done in Hr as (s1 & H1 & Hr). apply rbind_Done in Hr as (q & Hq & Hr).
  apply rbind_Done in Hr as (s2 & H2 & Hr). unfold get_proc in Hq. apply deref_Done in Hq.
  eapply same_ids_trans; [by eapply proc_set_flag_same|].
  eapply same_ids_trans; [|eapply same_ids_trans; [by eapply intr_threads_same|by eapply proc_do_sigchld_same]].
  by eapply put_proc_same.
Qed.

Lemma proc_cont_same s cur a s' : proc_cont s cur a = Done s' -> same_ids s s'.
Proof.
  unfold proc_cont. intros Hr. apply rbind_Done in Hr as (p & Hp & Hr). unfold get_proc in Hp. apply deref_Done in Hp.
  destruct (proc_test_flags p PROC_STOP); [|injection Hr as <-; auto with ids].
  eapply same_ids_trans; [|by eapply proc_do_sigchld_same]. by eapply put_proc_same.
Qed.

Lemma with_creds_same s cur f r s' : with_creds s cur f = Done (r, s') -> same_ids s s'.
Proof.
  unfold with_creds. intros Hr. apply rbind_Done in Hr as (a & _ & Hr). apply rbind_Done in Hr as (p & Hp & Hr).
  unfold get_proc in Hp. apply deref_Done in Hp. destruct (f (cred p)) as [r0 c]. injection Hr as <- <-.
  by eapply put_proc_same.
Qed.

Lemma proc_exec_same s cur s' : proc_exec s cur = Done s' -> same_ids s s'.
Proof.
  unfold proc_exec. intros Hr. apply rbind_Done in Hr as (a & _ & Hr). apply rbind_Done in Hr as (w & _ & Hr).
  apply rbind_Done in Hr as (p & Hp & Hr). injection Hr as <-. unfold get_proc in Hp. apply deref_Done in Hp.
  eapply same_ids_trans; [apply (set_world_same s w)|by eapply put_proc_same].
Qed.

(** ** vfork *)

Lemma vfork_wait_inv me pid' evs : Forall keeps evs -> forall s s', inv None None s ->
  vfork_wait s me pid' evs = Done s' -> inv None None s'.
Proof.
  induction 1 as [|e evs He _ IH]; intros s s' Hi Hr; simpl in Hr; apply rbind_Done in Hr as (c & _ & Hr);
    apply rbind_Done in Hr as (b & _ & Hr); destruct (negb b); try (by injection Hr as <-); [done|].
  eapply IH; [by apply He|exact Hr].
Qed.

(** The fork of a vfork is made in the state in which the caller is alone. *)
Lemma sys_vfork_inv s cur mp mt evs evs2 r s' : inv None None s -> Forall keeps evs -> Forall keeps evs2 ->
  (forall err s1, proc_singlethread s cur PROC_ST_WAIT evs = Done (err, s1) ->
     (exists th me c, running s1 cur th me c /\ 0 < pid c) /\
     (forall a, mp = Some a -> procs s1 !! a = None) /\ thrs s1 !! mt = None) ->
  sys_vfork s cur mp mt evs evs2 = Done (r, s') -> inv None None s'.
Proof.
  intros Hi He He2 Hf Hr. unfold sys_vfork in Hr. apply rbind_Done in Hr as (me & _ & Hr).
  apply rbind_Done in Hr as ([err s1] & H1 & Hr). pose proof (proc_singlethread_inv _ _ _ _ _ _ He Hi H1) as Hi1.
  destruct (negb (err =? 0)); [by injection Hr as <- <-|]. apply rbind_Done in Hr as ([id s2] & H2 & Hr).
  destruct (Hf _ _ H1) as ((th & a & c & Hrun & Hp) & Hm & Ht).
  destruct (sys_fork_inv s1 cur th a c mp mt id s2 Hi1 Hrun Hp Hm Ht H2) as [Hi2 _].
  apply rbind_Done in Hr as (s3 & H3 & Hr). apply rbind_Done in Hr as ([e s4] & H4 & Hr). injection Hr as <- <-.
  eapply (proc_singlethread_inv s3 _ _ []); [constructor| |exact H4].
  destruct (id <? 0); [by injection H3 as <-|]. exact (vfork_wait_inv _ _ _ He2 _ _ Hi2 H3).
Qed.

(** ** All operations *)

Context {CP : Cpu}.

(** The operations with their arguments: the thread that runs them, the
    addresses the allocator returns, and what happens while they sleep. *)
Inductive op : Type :=
| OFork (cur : Z) (mp : option Z) (mt : Z)
| OClone (m : mem) (cur mt flags ptid desc : Z)
| OSetsid (cur a b : Z)
| OSetpgid (cur b pid' pgid' : Z)
| OWait4 (m : mem) (cur pid' wstatus options : Z) (evs : list (Z * (kst W -> kst W)))
| OExit (cur : Z) (evs evs2 : list (kst W -> kst W))
| OExitproc (cur status sig : Z) (evs evs2 : list (kst W -> kst W))
| OFree (cur t : Z)
| OKill (cur a sig fl : Z)
| OStop (cur a sig : Z)
| OCont (cur a : Z)
| OSingle (cur mode : Z) (evs : list (kst W -> kst W))
| OVfork (cur : Z) (mp : option Z) (mt : Z) (evs evs2 : list (kst W -> kst W))
| OExec (cur : Z)
| OSetuid (cur id : Z)
| OSetgid (cur id : Z).

Definition state {A} (m : res (A * kst W)) : res (kst W) := let* '(_, s) := m in Done s.

Definition run_op s (o : op) : res (kst W) :=
  match o with
  | OFork cur mp mt => state (sys_fork s cur mp mt)
  | OClone m cur mt flags ptid desc => state (sys_clone s m cur mt flags ptid desc)
  | OSetsid cur a b => state (sys_setsid s cur a b)
  | OSetpgid cur b pid' pgid' => state (sys_setpgid s cur b pid' pgid')
  | OWait4 m cur pid' wstatus options evs => state (sys_wait4 s m cur pid' wstatus options evs)
  | OExit cur evs evs2 => kern_exit s cur evs evs2
  | OExitproc cur status sig evs evs2 => kern_exitproc s cur status sig evs evs2
  | OFree cur t => thread_free s cur t
  | OKill cur a sig fl => state (kern_kill s cur a sig fl)
  | OStop cur a sig => proc_stop s cur a sig
  | OCont cur a => proc_cont s cur a
  | OSingle cur mode evs => state (proc_singlethread s cur mode evs)
  | OVfork cur mp mt evs evs2 => state (sys_vfork s cur mp mt evs evs2)
  | OExec cur => proc_exec s cur
  | OSetuid cur id => state (sys_setuid32 s cur id)
  | OSetgid cur id => state (sys_setgid32 s cur id)
  end.

(** A thread of a user process makes the call. *)
Definition caller s (cur : Z) : Prop := exists th a p, running s cur th a p /\ 0 < pid p.

(** The memory that is handed out is not in use, and nobody leaves a group
    that has the pid of the process as its id.  [K]: what may happen while a
    thread sleeps. *)
Definition op_ok (K : (kst W -> kst W) -> Prop) s (o : op) : Prop :=
  match o with
  | OFork cur mp mt => caller s cur /\ (forall a, mp = Some a -> procs s !! a = None) /\ thrs s !! mt = None
  | OClone _ cur mt _ _ _ => caller s cur /\ thrs s !! mt = None
  | OSetsid cur a b => caller s cur /\ sessions s !! a = None /\ pgrps s !! b = None
  | OSetpgid cur b pid' pgid' => caller s cur /\ pgrps s !! b = None /\
      forall me c a p g x, cur_proc s cur = Done me -> procs s !! me = Some c -> procs s !! a = Some p ->
        (if (pid' =? 0) || (pid' =? pid c) then a = me else pid p = pid') ->
        pgrp p = Some g -> pgrps s !! g = Some x -> pgid x = pid p -> pgid' = 0 \/ pgid' = pid p
  | OWait4 _ _ _ _ _ evs => Forall (fun e => K e.2) evs
  | OExit cur evs evs2 => (exists th a p, running s cur th a p /\ (0 < tid th \/ tid th = KTHREAD_TID)) /\
      Forall K evs /\ Forall K evs2
  | OExitproc _ _ _ evs evs2 => Forall K evs /\ Forall K evs2
  | OSingle _ _ evs => Forall K evs
  | OVfork cur mp mt evs evs2 => Forall K evs /\ Forall K evs2 /\
      forall err s1, proc_singlethread s cur PROC_ST_WAIT evs = Done (err, s1) ->
        caller s1 cur /\ (forall a, mp = Some a -> procs s1 !! a = None) /\ thrs s1 !! mt = None
  | _ => True
  end.

Lemma state_Done {A} (m : res (A * kst W)) s' : state m = Done s' <-> exists r, m = Done (r, s').
Proof.
  unfold state. rewrite rbind_Done. split.
  - intros ([r x] & E & [= <-]). eauto.
  - intros [r E]. exists (r, s'). done.
Qed.

Lemma run_op_inv s o s' : inv None None s -> op_ok keeps s o -> run_op s o = Done s' -> inv None None s'.
Proof.
  intros Hi. destruct o; simpl; rewrite ?state_Done.
  - intros ((th & a & p & Hr & Hp) & Hm & Ht) [r Hrun]. by eapply (sys_fork_inv s).
  - intros ((th & a & p & Hr & Hp) & Ht) [[r m'] Hrun]. by eapply (sys_clone_inv s).
  - intros ((th & me & p & Hr & Hp) & Ha & Hb) [r Hrun].
    destruct (sys_setsid_inv s cur th me p a b Hi Hr Hp Ha Hb) as (r' & s1 & E & Hi' & _). congruence.
  - intros ((th & me & p & Hr & Hp) & Hb & Hl) [r Hrun].
    destruct (sys_setpgid_inv s cur th me p b pid' pgid' Hi Hr Hp Hb) as (r' & s1 & E & Hi'); [|congruence].
    intros a q g x. apply (Hl me p a q g x); [|apply Hr].
    unfold cur_proc, get_thread. destruct Hr as (-> & E & _). simpl. by rewrite E.
  - intros He [r Hrun]. unfold sys_wait4 in Hrun. apply rbind_Done in Hrun as (me & _ & Hrun).
    apply rbind_Done in Hrun as ([[rv st] s1] & Hw & Hrun). apply wait4_loop_inv in Hw; [|done..].
    destruct (_ && _); [apply rbind_Done in Hrun as ([e m'] & _ & Hrun)|]; by injection Hrun as <- <-.
  - intros ((th & a & p & Hr & Ht) & He & He2) Hrun. exact (kern_exit_inv s cur th a p evs evs2 s' Hi Hr Ht He He2 Hrun).
  - intros [He He2] Hrun. exact (proc_exit_inv s _ _ _ _ _ _ He He2 Hi Hrun).
  - intros _. by apply thread_free_inv.
  - intros _ [r Hrun]. eapply same_ids_inv; [exact Hi|by eapply kern_kill_same].
  - intros _ Hrun. eapply same_ids_inv; [exact Hi|by eapply proc_stop_same].
  - intros _ Hrun. eapply same_ids_inv; [exact Hi|by eapply proc_cont_same].
  - intros He [r Hrun]. exact (proc_singlethread_inv s _ _ _ _ _ He Hi Hrun).
  - intros (He & He2 & Hf) [r Hrun]. exact (sys_vfork_inv s _ _ _ _ _ _ _ Hi He He2 Hf Hrun).
  - intros _ Hrun. eapply same_ids_inv; [exact Hi|by eapply proc_exec_same].
  - intros _ [r Hrun]. eapply same_ids_inv; [exact Hi|by eapply with_creds_same].
  - intros _ [r Hrun]. eapply same_ids_inv; [exact Hi|by eapply with_creds_same].
Qed.

(** A step of one thread.  While it sleeps the others make steps that do not
    sleep more deeply than [n]. *)
Fixpoint step (n : nat) (s s' : kst W) : Prop :=
  exists o, run_op s o = Done s' /\
    op_ok (match n with O => fun _ => False | S n => fun e => forall x, rtc (step n) x (e x) end) s o.

(** What the kernel can reach from its start. *)
Inductive reachable : kst W -> Prop :=
| R_init s0 a t se g s : boot s0 -> procs s0 !! a = None -> thrs s0 !! t = None ->
    proc_spawn_init a t se g s0 = Done s -> reachable s
| R_step n s s' : reachable s -> step n s s' -> reachable s'.

Lemma op_ok_weaken (K K' : (kst W -> kst W) -> Prop) s o : (forall e, K e -> K' e) -> op_ok K s o -> op_ok K' s o.
Proof.
  intros HK. destruct o; simpl; try done.
  - intros Hf. eapply Forall_impl; [exact Hf|]. auto.
  - intros (? & ? & ?). split_and!; [done|by eapply Forall_impl..].
  - intros [? ?]. split; by eapply Forall_impl.
  - intros ?. by eapply Forall_impl.
  - intros (? & ? & ?). split_and!; [by eapply Forall_impl..|done].
Qed.

Lemma step_inv n : forall s s', inv None None s -> step n s s' -> inv None None s'.
Proof.
  induction n as [|n IH]; simpl; intros s s' Hi (o & Hr & Ho); (eapply run_op_inv; [exact Hi| |exact Hr]).
  - by eapply op_ok_weaken, Ho.
  - eapply op_ok_weaken, Ho. intros e He x Hx. simpl in He. specialize (He x). revert Hx. clear -He IH.
    induction He; eauto.
Qed.

Lemma reachable_inv s : reachable s -> inv None None s.
Proof.
  induction 1 as [s0 a t se g s Hb Ha Ht Hr|n s s' _ IH Hr]; [|by eapply step_inv].
  apply proc_spawn_init_run in Hr as [w ->]. by apply spawned_inv.
Qed.

(** C2: From the start of the kernel on, whatever processes fork, clone,
    exit, are reaped, stop, continue and move between groups and sessions: the
    pids of the processes that exist (zombies included) are pairwise different, so are the ids of the groups and
    of the sessions, the tid of a running thread that is not the main thread
    is no other thread's tid and nobody's pid, group id or session id, and
    every id that anything has is marked as taken.  The one thing that is
    excluded is that a process leaves a group whose id is its pid. *)
Theorem ids_unique s : reachable s ->
  (forall a a' p p', procs s !! a = Some p -> procs s !! a' = Some p' -> 0 < pid p -> pid p = pid p' -> a = a') /\
  (forall g g' x x', pgrps s !! g = Some x -> pgrps s !! g' = Some x' -> pgid x = pgid x' -> g = g') /\
  (forall a a' x x', sessions s !! a = Some x -> sessions s !! a' = Some x' -> sid x = sid x' -> a = a') /\
  (forall a p, procs s !! a = Some p -> 0 < pid p -> used s (pid p)) /\
  (forall g x, pgrps s !! g = Some x -> used s (pgid x)) /\
  (forall a se, sessions s !! a = Some se -> used s (sid se)) /\
  (forall t th a p, running s t th a p -> 0 < tid th -> tid th <> pid p ->
     used s (tid th) /\ (forall b q, procs s !! b = Some q -> pid q <> tid th) /\
     (forall g x, pgrps s !! g = Some x -> pgid x <> tid th) /\
     (forall b se, sessions s !! b = Some se -> sid se <> tid th) /\
     (forall t' th' b q, running s t' th' b q -> tid th' = tid th -> t' = t)).
Proof.
  intros Hr. destruct (reachable_inv s Hr).
  refine (conj _ (conj i_pgid_uniq (conj i_sid_uniq (conj _ (conj i_pgid (conj i_sid _)))))).
  - intros a a' p p' Ha Ha'. by eapply i_pid_uniq.
  - intros a p Ha. by eapply i_pid.
  - intros t th a p Hrun Ht Hn. destruct (i_tid t th a p Hrun Ht Hn) as (Hu & N1 & N2 & N3 & N4).
    refine (conj Hu (conj _ (conj N2 (conj N3 N4)))). intros b q Hb. by eapply N1.
Qed.


End Life.
