(* ===== verification/ProcCalls.v ===== *)
(** * The process system calls

    What fork, setsid, setpgid, wait4 and setuid do on every branch, in the
    states the kernel reaches; and runs in which the code of kern/proc.c does
    not do what it means to. *)
From stdpp Require Import base tactics option list numbers gmap fin_maps.
From Stdlib Require Import ZArith Lia Bool.
From S2P Require Import Prelude Bitset User Proc ProcIds ProcLife.

Section Calls.
Context {W : Type} {PL : Pls W} {KI : Kill W} {KL : KillLaws W} {CP : Cpu}.
Implicit Types s : kst W.

(** A fork either leaves the table of processes as it is, or adds one
    process: a child of the caller in its group with its credentials and one
    thread, whose pid is the result and was no process's, group's, session's
    or thread's id before. *)
Theorem fork_child s cur th me c mp mt r s' : reachable s -> running s cur th me c -> 0 < pid c ->
  (forall a, mp = Some a -> procs s !! a = None) -> thrs s !! mt = None ->
  sys_fork s cur mp mt = Done (r, s') ->
  forall a p, procs s' !! a = Some p -> procs s !! a = None ->
    p = set_pgrp (blank r me [mt] (cred c)) (pgrp c) /\ unowned None s r.
Proof.
  intros Hr%reachable_inv Hrun Hp Hm Ht Hf. by apply (sys_fork_inv s cur th me c mp mt r s').
Qed.

(** setsid always returns.  It fails with EPERM, without a change, exactly
    when a group with the pid of the caller exists; otherwise the caller is
    the only member of a new group of a new session, both with its pid. *)
Theorem setsid_spec s cur th me c sa b : reachable s -> running s cur th me c -> 0 < pid c ->
  sessions s !! sa = None -> pgrps s !! b = None ->
  exists r s', sys_setsid s cur sa b = Done (r, s') /\
    ((r = - EPERM /\ s' = s /\ exists g x, pgrps s !! g = Some x /\ pgid x = pid c) \/
     (r = pid c /\ (forall g x, pgrps s !! g = Some x -> pgid x <> pid c) /\
      procs s' = <[me := set_pgrp c (Some b)]> (procs s) /\
      pgrps s' !! b = Some (Pgrp (Some sa) [me] (pid c)) /\ sid <$> sessions s' !! sa = Some (pid c))).
Proof.
  intros Hr%reachable_inv Hrun Hp Hsa Hb.
  destruct (sys_setsid_inv s cur th me c sa b Hr Hrun Hp Hsa Hb) as (r & s' & E & _ & Hcase). exists r, s'. split; [done|].
  destruct Hcase as [?|(-> & Hn & Ep & Eg & Es)]; [by left|right]. split_and!; try done.
  rewrite Es. simpl. by rewrite lookup_insert_eq.
Qed.

(** setpgid always returns, whatever ids it is given, as long as the
    process it moves does not leave a group with its own pid. *)
Theorem setpgid_total s cur th me c b pid' pgid' : reachable s -> running s cur th me c -> 0 < pid c ->
  pgrps s !! b = None ->
  (forall a p g x, procs s !! a = Some p -> (if (pid' =? 0) || (pid' =? pid c) then a = me else pid p = pid') ->
     pgrp p = Some g -> pgrps s !! g = Some x -> pgid x = pid p -> pgid' = 0 \/ pgid' = pid p) ->
  exists r s', sys_setpgid s cur b pid' pgid' = Done (r, s').
Proof.
  intros Hr%reachable_inv Hrun Hp Hb Hl.
  destruct (sys_setpgid_inv s cur th me c b pid' pgid' Hr Hrun Hp Hb Hl) as (r & s' & E & _). eauto.
Qed.

(** ** wait4 *)

(** The children [pid'] selects. *)
Definition selects s (pid' : Z) (q p : proc_t) : Prop :=
  (pid' < -1 -> proc_pgid s p = Done (- pid')) /\
  (pid' = 0 -> exists g, proc_pgid s p = Done g /\ proc_pgid s q = Done g) /\
  (0 < pid' -> pid p = pid').

Definition zombie (p : proc_t) : Prop := proc_test_flags p PROC_ZOMBIE = true.

Lemma proc_can_reap_spec s pid' par a q p b : procs s !! par = Some q -> procs s !! a = Some p ->
  proc_can_reap s pid' par a = Done b -> (b = false <-> selects s pid' q p /\ zombie p).
Proof.
  intros Hq Hp. unfold proc_can_reap, get_proc, selects, zombie. rewrite Hq, Hp. cbn [deref rbind]. intros Hr.
  apply rbind_Done in Hr as (m & Hm & Hr).
  assert (Hsel : m = false <-> selects s pid' q p).
  { unfold selects. destruct (Z.ltb_spec pid' (-1)).
    { apply rbind_Done in Hm as (g & Hg & [= <-]). rewrite negb_false_iff, Z.eqb_eq, Hg.
      split; [intros ->; split_and!; (done || lia)|]. intros (E & _ & _). by injection (E ltac:(lia)) as ->. }
    destruct (Z.eqb_spec pid' 0).
    { apply rbind_Done in Hm as (g & Hg & Hm). apply rbind_Done in Hm as (g' & Hg' & [= <-]).
      rewrite negb_false_iff, Z.eqb_eq, Hg, Hg'. split; [intros ->; split_and!; [lia|eauto|lia]|].
      intros (_ & E & _). destruct E as (x & [= ->] & [= ->]); [lia|done]. }
    destruct (Z.ltb_spec 0 pid').
    - injection Hm as <-. rewrite negb_false_iff, Z.eqb_eq. split; [intros ->; split_and!; (done || lia)|].
      intros (_ & _ & E). by apply E.
    - injection Hm as <-. split; [|done]. intros _. split_and!; lia. }
  unfold selects in Hsel. destruct m; injection Hr as <-.
  - split; [done|]. intros [Hs _]. by apply Hsel in Hs.
  - rewrite negb_false_iff. split; [|by intros [_ ?]]. intros E. split; [by apply Hsel|done].
Qed.

(** The status word of a child that has ended. *)
Definition exit_status (p : proc_t) : Z :=
  Z.lor (Z.shiftl (Z.land (exit_code p) 0xff) 8) (Z.land (exit_sig p) 0x7f).

Lemma proc_reap_gone s me par a p st s' : procs s !! a = Some p -> proc_reap s me par a = Done (st, s') ->
  st = exit_status p /\ procs s' !! a = None.
Proof.
  intros Ha Hr. unfold proc_reap in Hr. apply rbind_Done in Hr as (p0 & _ & Hr).
  case_bool_decide; [|done]. apply rbind_Done in Hr as (q & Hq & Hr). apply rbind_Done in Hr as ([l em] & _ & Hr).
  apply rbind_Done in Hr as (p1 & Hp1 & Hr). unfold get_proc in *. apply deref_Done in Hq, Hp1.
  apply rbind_Done in Hr as (g & _ & Hr). apply rbind_Done in Hr as (s1 & _ & Hr).
  apply rbind_Done in Hr as ([e s2] & _ & Hr). apply rbind_Done in Hr as (s3 & H3 & Hr). injection Hr as <- <-.
  split.
  - simpl in Hp1. rewrite lookup_insert in Hp1. case_decide; [|by assert (p1 = p) as -> by congruence].
    injection Hp1 as <-. subst par. by assert (q = p) as -> by congruence.
  - unfold proc_free in H3. apply rbind_Done in H3 as (x & _ & H3). destruct (bool_decide _); [|done].
    destruct (bool_decide _); [|done]. apply rbind_Done in H3 as (par' & _ & H3).
    do 3 (match type of H3 with (if ?b then _ else _) = _ => destruct b; [|done] end). injection H3 as <-.
    apply lookup_delete_eq.
Qed.

(** One pass over the children, without the two options that report stopped
    and continued ones. *)
Lemma wait4_scan_spec s pid' options me c : procs s !! me = Some c ->
  Z.land options (Z.lor WUNTRACED WCONTINUED) = 0 -> forall l n r,
  wait4_scan s pid' options me l n = Done r -> 0 <= n -> n + Z.of_nat (length l) < 2 ^ 32 ->
  match r with
  | inr (n', s') => s' = s /\ n' = n + Z.of_nat (length l) /\
      forall a p, a ∈ l -> procs s !! a = Some p -> ~ (selects s pid' c p /\ zombie p)
  | inl (id, (st, a), s') => exists p, a ∈ l /\ procs s !! a = Some p /\ selects s pid' c p /\ zombie p /\
      id = pid p /\ st = exit_status p /\ proc_reap s me me a = Done (st, s') /\ procs s' !! a = None
  end.
Proof.
  intros Hc Ho. induction l as [|a l IH]; intros n r Hr Hn Hl; simpl in Hr.
  { injection Hr as <-. split_and!; [done|simpl; lia|]. intros a p Hin. by apply not_elem_of_nil in Hin. }
  apply rbind_Done in Hr as (p & Hp & Hr). unfold get_proc in Hp. apply deref_Done in Hp.
  apply rbind_Done in Hr as (b & Hb & Hr). pose proof (proc_can_reap_spec s pid' me a c p b Hc Hp Hb) as Hcan.
  destruct b; simpl in Hr.
  - rewrite Ho in Hr. simpl in Hr. simpl length in Hl. rewrite u32_small in Hr by lia.
    specialize (IH (n + 1) r Hr). destruct r as [[[id [st a']] s']|[n' s']].
    + destruct IH as (p' & Hin & Hrest); [lia..|]. exists p'. split; [by apply list_elem_of_further|done].
    + destruct IH as (-> & -> & Hno); [lia..|]. split_and!; [done|simpl; lia|].
      intros x q [->|Hin]%elem_of_cons Hq; [|by eapply Hno]. assert (q = p) as -> by congruence.
      intros Hz. by apply Hcan in Hz.
  - apply rbind_Done in Hr as ([st s'] & Hreap & Hr). injection Hr as <-.
    destruct (proj1 Hcan eq_refl) as [Hs Hz]. destruct (proc_reap_gone _ _ _ _ _ _ _ Hp Hreap) as [-> Hgone].
    exists p. split_and!; try done. apply list_elem_of_here.
Qed.

(** wait4 with WNOHANG (and without the options for stopped children),
    on every branch: it reaps a zombie child that [pid'] selects, returns its
    pid with its status and the child is gone; or there is no such child and
    it returns 0, or ECHILD, without a change.  ECHILD is only returned when
    the process has no children at all. *)
Theorem wait4_nohang s me c pid' options evs r st s' : procs s !! me = Some c ->
  Z.land options (Z.lor WUNTRACED WCONTINUED) = 0 -> F_ISSET options WNOHANG = true ->
  Z.of_nat (length (children c)) < 2 ^ 32 -> wait4_loop s me pid' options evs = Done (r, st, s') ->
  (exists a p, a ∈ children c /\ procs s !! a = Some p /\ selects s pid' c p /\ zombie p /\
     r = pid p /\ st = exit_status p /\ procs s' !! a = None) \/
  (s' = s /\ st = 0 /\ r = (if decide (children c = []) then - ECHILD else 0) /\
   forall a p, a ∈ children c -> procs s !! a = Some p -> ~ (selects s pid' c p /\ zombie p)).
Proof.
  intros Hc Ho Hnh Hlen Hr.
  assert (Hgen : (let* c := get_proc s me in let* r := wait4_scan s pid' options me (children c) 0 in
    match r with
    | inl (id, (status, _), s) => Done (id, status, s)
    | inr (n, s) => if n =? 0 then Done (- ECHILD, 0, s) else Done (0, 0, s)
    end) = Done (r, st, s')).
  { destruct evs as [|[e f] evs]; simpl in Hr; rewrite Hnh in Hr; exact Hr. }
  unfold get_proc in Hgen. rewrite Hc in Hgen. cbn [deref rbind] in Hgen. apply rbind_Done in Hgen as (x & Hx & Hgen).
  apply (wait4_scan_spec s pid' options me c Hc Ho) in Hx; [|lia..].
  destruct x as [[[id [st1 a]] s1]|[n s1]].
  - injection Hgen as <- <- <-. destruct Hx as (p & Hin & Hp & Hs & Hz & -> & -> & _ & Hg). left. exists a, p. done.
  - destruct Hx as (-> & -> & Hno). right. destruct (children c) as [|b l] eqn:Ec.
    + injection Hgen as <- <- <-. rewrite decide_True by done. done.
    + replace (0 + Z.of_nat (length (b :: l)) =? 0) with false in Hgen by (symmetry; apply Z.eqb_neq; simpl; lia).
      injection Hgen as <- <- <-. rewrite decide_False by done. done.
Qed.

(** ** Credentials *)

Definition unprivileged (c : creds) : Prop := uid c <> UID_ROOT /\ euid c <> UID_ROOT /\ suid c <> UID_ROOT.

(** A sequence of setuid calls by one thread. *)
Fixpoint setuids s cur (ids : list Z) : res (kst W) :=
  match ids with
  | [] => Done s
  | i :: ids => let* '(_, s) := sys_setuid32 s cur i in setuids s cur ids
  end.

Lemma with_creds_run s cur f r s' th a p : thrs s !! cur = Some th -> tproc th = Some a -> procs s !! a = Some p ->
  with_creds s cur f = Done (r, s') -> r = (f (cred p)).1 /\ s' = put_proc s a (set_cred p (f (cred p)).2).
Proof.
  intros Ht Hp Ha. unfold with_creds, cur_proc, get_thread, get_proc. rewrite Ht. cbn [deref rbind]. rewrite Hp.
  cbn [deref rbind]. rewrite Ha. cbn [deref rbind]. destruct (f (cred p)) as [x y]. by intros [= <- <-].
Qed.

(** Giving up root is final: a process none of whose user ids is root has
    no root id after any sequence of setuid calls, and its real and saved
    user ids stay the same. *)
Theorem setuid_final s cur th a p ids s' : thrs s !! cur = Some th -> tproc th = Some a -> procs s !! a = Some p ->
  unprivileged (cred p) -> setuids s cur ids = Done s' ->
  exists p', procs s' !! a = Some p' /\ unprivileged (cred p') /\ uid (cred p') = uid (cred p) /\ suid (cred p') = suid (cred p).
Proof.
  intros Ht Htp. revert s p Ht. induction ids as [|i ids IH]; simpl; intros s p Ht Ha Hu Hr; [injection Hr as <-; eauto|].
  apply rbind_Done in Hr as ([r s1] & H1 & Hr). unfold sys_setuid32 in H1. destruct (with_creds_run _ _ _ _ _ _ _ _ Ht Htp Ha H1) as [_ ->].
  destruct Hu as (U1 & U2 & U3). apply Z.eqb_neq in U2 as U2'.
  set (c' := snd _) in Hr.
  assert (Hc : unprivileged c' /\ uid c' = uid (cred p) /\ suid c' = suid (cred p)).
  { unfold c'. rewrite U2'. destruct (Z.eqb_spec (uid (cred p)) i), (Z.eqb_spec (suid (cred p)) i); simpl;
      unfold unprivileged; simpl; split_and!; congruence. }
  clearbody c'. destruct Hc as (Hc & E1 & E2).
  destruct (IH (put_proc s a (set_cred p c')) (set_cred p c')) as (p' & H' & Hu' & E1' & E2'); try done.
  { apply lookup_insert_eq. }
  exists p'. simpl in *. split_and!; try done; congruence.
Qed.

End Calls.

(** ** Runs *)

(** A kernel whose other components keep nothing per process. *)
#[local] Instance plain_pls : Pls unit :=
  {| pls_init w _ _ := Done (0, w); tls_init w _ := Done (0, w); tls_exit w _ := Done w;
     pls_fork w _ _ _ _ := Done (0, w); pls_exec w _ _ := Done w; pls_exit w _ := Done w |}.
#[local] Instance plain_kill : Kill unit := fun s _ _ _ _ => Done (0, s).
#[local] Instance plain_laws : KillLaws unit.
Proof. intros s cur a sig fl r s' [= <- <-]. apply same_ids_refl. Qed.
#[local] Instance plain_cpu : Cpu := {| kwp_enabled := true |}.

(** The process and a thread of the kernel. *)
Definition kernel0 : kst unit :=
  Kst {[ 1 := Proc (-1) None [] [2] None 0 0 0 0 (St None 0 0) nobody ]} ∅ ∅
    {[ 2 := Thread (-1) (Some 1) 0 0 ]} [] [] (Bset (3 :: replicate 63 0) 512) 0 tt.

Definition final (s0 : kst unit) (m : res (kst unit)) : kst unit := match m with Done s => s | _ => s0 end.

(** With init (process 100, thread 101), and with two children of init. *)
Definition kernel1 : kst unit := final kernel0 (proc_spawn_init 100 101 102 103 kernel0).
Definition kernel2 : kst unit := final kernel1 (state (sys_fork kernel1 101 (Some 200) 201)).
Definition kernel3 : kst unit := final kernel2 (state (sys_fork kernel2 101 (Some 300) 301)).

Lemma kernel0_boot : boot kernel0.
Proof.
  constructor; try done.
  - intros a p Ha. unfold kernel0 in Ha; cbn [procs] in Ha. apply lookup_singleton_Some in Ha as [_ <-]. done.
  - intros t th Ht. unfold kernel0 in Ht; cbn [thrs] in Ht. apply lookup_singleton_Some in Ht as [_ <-]. simpl. lia.
  - split_and!; try done. constructor; [simpl; lia|done|]. simpl. repeat (constructor; [lia|]). constructor.
Qed.

Lemma kernel1_reachable : reachable kernel1.
Proof. apply (R_init kernel0 100 101 102 103); [apply kernel0_boot|vm_compute; reflexivity..]. Qed.

Lemma init_running (s : kst unit) th p : thrs s !! 101 = Some th -> tproc th = Some 100 -> procs s !! 100 = Some p ->
  101 ∈ threads p -> 0 < pid p -> caller s 101.
Proof. intros. exists th, 100, p. split; [done|done]. Qed.

Lemma kernel2_reachable : reachable kernel2.
Proof.
  apply (R_step 0 kernel1); [apply kernel1_reachable|]. exists (OFork 101 (Some 200) 201). split; [vm_compute; reflexivity|].
  split_and!; [|intros a [= <-]; vm_compute; reflexivity|vm_compute; reflexivity].
  eapply init_running; [vm_compute; reflexivity..| |]; [apply list_elem_of_here|done].
Qed.

Lemma kernel3_reachable : reachable kernel3.
Proof.
  apply (R_step 0 kernel2); [apply kernel2_reachable|]. exists (OFork 101 (Some 300) 301). split; [vm_compute; reflexivity|].
  split_and!; [|intros a [= <-]; vm_compute; reflexivity|vm_compute; reflexivity].
  eapply init_running; [vm_compute; reflexivity..| |]; [apply list_elem_of_here|done].
Qed.

(** The first child has exited and its thread has been freed by the kernel. *)
Definition kernel4 : kst unit :=
  final kernel2 (let* s := kern_exit kernel2 201 [] [] in thread_free s 2 201).

Ltac vmr := vm_compute; reflexivity.

Lemma ids_unique_witness : exists a p, procs kernel3 !! a = Some p /\ pid p = 3 /\
  used kernel3 (pid p) /\ forall a' p', procs kernel3 !! a' = Some p' -> pid p = pid p' -> a = a'.
Proof.
  destruct (ids_unique kernel3 kernel3_reachable) as (Huniq & _ & _ & Hused & _).
  eexists 300, _. split; [vmr|]. split; [vmr|]. split.
  - eapply (Hused 300); [vmr|done].
  - intros a' p' Ha' E. eapply (Huniq 300 a'); [vmr|exact Ha'|done|exact E].
Defined.


Lemma kernel2_init : exists th c, running kernel2 101 th 100 c /\ 0 < pid c.
Proof. eexists _, _. split; [split_and!; [vmr..|apply list_elem_of_here]|done]. Qed.

Lemma fork_child_witness : exists p, procs kernel3 !! 300 = Some p /\ parent p = Some 100 /\ unowned None kernel2 3.
Proof.
  assert (H : exists p, procs kernel3 !! 300 = Some p /\ parent p = Some 100) by (eexists; split; vmr).
  destruct H as (p & Hp3 & Hpar). exists p. destruct kernel2_init as (th & c & Hr & Hp).
  assert (Hm : forall a, Some 300 = Some a -> procs kernel2 !! a = None) by (intros a [= <-]; vmr).
  destruct (fork_child kernel2 101 th 100 c (Some 300) 301 3 kernel3 kernel2_reachable Hr Hp Hm) with (a := 300) (p := p)
    as [_ Hu]; [vmr..|exact Hp3|vmr|exact (conj Hp3 (conj Hpar Hu))].
Defined.

Lemma setsid_spec_witness : exists th c r s', running kernel2 201 th 200 c /\ sys_setsid kernel2 201 400 401 = Done (r, s').
Proof.
  assert (H : exists th c, running kernel2 201 th 200 c /\ 0 < pid c).
  { eexists _, _. split; [split_and!; [vmr..|apply list_elem_of_here]|done]. }
  destruct H as (th & c & Hr & Hp).
  destruct (setsid_spec kernel2 201 th 200 c 400 401 kernel2_reachable Hr Hp) as (r & s' & E & _); [vmr..|].
  exists th, c, r, s'. exact (conj Hr E).
Defined.

Lemma setpgid_total_witness : exists r s', sys_setpgid kernel2 101 400 2 0 = Done (r, s').
Proof.
  destruct kernel2_init as (th & c & Hr & Hp).
  apply (setpgid_total kernel2 101 th 100 c 400 2 0 kernel2_reachable Hr Hp); [vmr|].
  intros a p g x _ _ _ _ _. by left.
Defined.

Lemma wait4_nohang_witness : exists s' a, wait4_loop kernel4 100 (-1) WNOHANG [] = Done (2, 0, s') /\
  is_Some (procs kernel4 !! a) /\ procs s' !! a = None.
Proof.
  destruct (wait4_loop kernel4 100 (-1) WNOHANG []) as [[[r st] s']| | |] eqn:E; try (vm_compute in E; discriminate E).
  assert (Hr : r = 2 /\ st = 0) by (vm_compute in E; injection E as <- <- _; done). destruct Hr as [-> ->].
  assert (Hc : exists c, procs kernel4 !! 100 = Some c /\ length (children c) = 1%nat) by (eexists; split; vmr).
  destruct Hc as (c & Hc & Hl).
  destruct (wait4_nohang kernel4 100 c (-1) WNOHANG [] 2 0 s' Hc eq_refl eq_refl) as [(a & p & _ & Ha & _ & _ & _ & _ & Hg)|(_ & _ & E0 & _)].
  - rewrite Hl. done.
  - exact E.
  - exists s', a. exact (conj eq_refl (conj (ex_intro _ p Ha) Hg)).
  - case_decide as Hd; [discriminate E0|discriminate E0].
Defined.

(** The first child after setuid(1000), and after attempts to get back. *)
Definition kernel5 : kst unit := final kernel2 (state (sys_setuid32 kernel2 201 1000)).
Definition kernel6 : kst unit := final kernel5 (setuids kernel5 201 [0; 1000; 0]).

Lemma setuid_final_witness : exists p', procs kernel6 !! 200 = Some p' /\ unprivileged (cred p').
Proof.
  assert (H : exists th p, thrs kernel5 !! 201 = Some th /\ tproc th = Some 200 /\ procs kernel5 !! 200 = Some p /\
    unprivileged (cred p)).
  { eexists _, _. split; [vmr|]. split; [vmr|]. split; [vmr|]. repeat split; discriminate. }
  destruct H as (th & p & Ht & Hp & Ha & Hu).
  destruct (setuid_final kernel5 201 th 200 p [0; 1000; 0] kernel6 Ht Hp Ha Hu) as (p' & H' & Hu' & _); [vmr|].
  exact (ex_intro _ p' (conj H' Hu')).
Defined.

(** ** Where the code fails *)

(** Two processes that exist at the same time have the pid 2.  A process
    leads a group, leaves it and becomes a zombie; the last member of the
    group gives the id back ([pgrp_enter] looks only among the processes that
    are not zombies), the id goes to a new process, and the reaping of the
    zombie gives it back once more. *)
Definition reuse_run : res (kst unit) :=
  let s := kernel3 in
  let* '(_, s) := sys_setpgid s 101 400 2 2 in
  let* '(_, s) := sys_setpgid s 101 401 3 2 in
  let* '(_, s) := sys_setpgid s 201 402 0 1 in
  let* s := kern_exit s 201 [] [] in
  let* s := thread_free s 2 201 in
  let* '(_, s) := sys_setpgid s 301 403 0 1 in
  let* '(_, s) := sys_fork s 101 (Some 500) 501 in
  let* '(_, _, s) := wait4_loop s 100 (-1) 0 [] in
  let* '(_, s) := sys_fork s 101 (Some 600) 601 in
  Done s.

(** Without the restriction on leaving a group the ids are not unique:
    after a run of setpgid, fork, exit and wait4 two processes that both
    exist, neither of them a zombie, have the same pid. *)
Theorem pid_reused : exists s p q, reuse_run = Done s /\ procs s !! 500 = Some p /\ procs s !! 600 = Some q /\
  pid p = 2 /\ pid q = 2 /\ bool_decide (500 ∈ proc_list s) = true /\ bool_decide (600 ∈ proc_list s) = true.
Proof.
  exists (final kernel3 reuse_run). eexists _, _. split; [vmr|]. split; [vmr|]. split; [vmr|]. split_and!; vmr.
Qed.

(** A process with the threads 201 and 202 of which the first one has
    entered single-thread mode (as [execve] does) and waits for the other. *)
Definition single_wait : res (kst unit) :=
  let* '(_, s) := sys_clone kernel2 ∅ 201 202 CLONE_FLAGS 0 0 in
  let* s := proc_set_flag s 200 PROC_ST in
  let* p := get_proc s 200 in
  let s := put_proc s 200 (set_st p (St (Some 201) PROC_ST_KILL 0)) in
  st_interrupt s 201 PROC_ST_KILL (threads p).

(** When a thread exits its process while another thread of it waits in
    single-thread mode, the kernel panics: the second [proc_singlethread] of
    [proc_exit] is called without PROC_ST_EXIT and fails because the process
    exits. *)
Theorem exit_singlethread_panics : exists s, single_wait = Done s /\
  (forall status sig evs evs2, kern_exitproc s 202 status sig evs evs2 = Panic).
Proof. exists (final kernel2 single_wait). split; [vmr|]. intros status sig evs evs2. vmr. Qed.

(** A process whose two threads have ended. *)
Definition both_ended : res (kst unit) :=
  let* '(_, s) := sys_clone kernel2 ∅ 201 202 CLONE_FLAGS 0 0 in
  let* s := kern_exit s 202 [] [] in
  kern_exit s 201 [] [].

(** When the two threads of a process end before the kernel frees the
    first of them, [proc_exit_final] is run for both, which panics. *)
Theorem thread_free_race : exists s, both_ended = Done s /\
  (let* s := thread_free s 2 202 in thread_free s 2 201) = Panic.
Proof. exists (final kernel2 both_ended). split; vmr. Qed.

(** A session leader has exited and has been reaped. *)
Definition leader_gone : res (kst unit) :=
  let* '(_, s) := sys_setsid kernel2 201 400 401 in
  let* s := kern_exit s 201 [] [] in
  let* s := thread_free s 2 201 in
  let* '(_, _, s) := wait4_loop s 100 (-1) 0 [] in
  Done s.

(** A session is never freed: after setsid, exit and wait4 nothing has
    the id 2 but the session, which has no groups, and the id stays taken. *)
Theorem session_leaks : exists s, leader_gone = Done s /\
  procs s !! 200 = None /\ pgrps s !! 401 = None /\ sessions s !! 400 = Some (Session 1 2) /\
  ngroups s 400 = 0 /\ bits (tids s) 2 = true.
Proof. exists (final kernel2 leader_gone). split_and!; vmr. Qed.

(** wait4 for a pid that is no child of the caller does not fail with
    ECHILD when there are other children. *)
Theorem wait4_no_echild : wait4_loop kernel2 100 400 WNOHANG [] = Done (0, 0, kernel2).
Proof. vmr. Qed.
