(* ===== verification/Signal.v ===== *)
(** * kern/signal.c: signals

    The state of the signals is process and thread local storage: one
    [sigproc_t] for each process and one [sigthr_t] for each thread, found by
    the addresses of their owners.  This file is the instance of the classes
    [Pls] and [Kill] of the process code.

    [proc_stop] and [proc_cont], which a signal may call, send SIGCHLD to the
    parent by [kern_kill], and SIGCHLD never calls them again.  The recursion
    is given fuel, and two levels are enough ([kern_signal_fuel]).

    The registers and the frame of a handler (arch/i386/thread.c) are not
    modelled: [signal_intr] tells what handler would be called, and the
    result of [arch_sig_handle] is an argument. *)
From stdpp Require Import base tactics option list numbers gmap fin_maps.
From Stdlib Require Import ZArith Lia Bool.
From S2P Require Import Prelude Bitset User Proc ProcIds ProcLife.

(** ** include/sys/signal.h *)

Definition NSIG : Z := 32.

Definition SIG_DFL : Z := 0.
Definition SIG_IGN : Z := 1.
Definition SIG_BLOCK : Z := 0.
Definition SIG_UNBLOCK : Z := 1.
Definition SIG_SETMASK : Z := 2.

Definition SA_NOCLDWAIT : Z := 2.
Definition SA_SIGINFO : Z := 4.
Definition SA_RESTORER : Z := 0x04000000.
Definition SA_ONSTACK : Z := 0x08000000.
Definition SA_RESTART : Z := 0x10000000.
Definition SA_NODEFER : Z := 0x40000000.
Definition SA_RESETHAND : Z := 0x80000000.

Definition SIGHUP : Z := 1.
Definition SIGINT : Z := 2.
Definition SIGQUIT : Z := 3.
Definition SIGILL : Z := 4.
Definition SIGTRAP : Z := 5.
Definition SIGABRT : Z := 6.
Definition SIGBUS : Z := 7.
Definition SIGFPE : Z := 8.
Definition SIGKILL : Z := 9.
Definition SIGUSR1 : Z := 10.
Definition SIGSEGV : Z := 11.
Definition SIGUSR2 : Z := 12.
Definition SIGPIPE : Z := 13.
Definition SIGALRM : Z := 14.
Definition SIGTERM : Z := 15.
Definition SIGCONT : Z := 18.
Definition SIGSTOP : Z := 19.
Definition SIGTSTP : Z := 20.
Definition SIGTTIN : Z := 21.
Definition SIGTTOU : Z := 22.
Definition SIGXCPU : Z := 24.
Definition SIGXFSZ : Z := 25.
Definition SIGSYS : Z := 31.

Definition SS_ONSTACK : Z := 1.
Definition SS_DISABLE : Z := 2.

Record stack_t := Stack { ss_sp : Z; ss_flags : Z; ss_size : Z }.

(** The two words of a set; signal [n] is bit [n - 1]. *)
Record sigset_t := Sigset { sig0 : Z; sig1 : Z }.

Record sigaction_t := Sigaction { sa_handler : Z; sa_flags : Z; sa_restorer : Z; sa_mask : sigset_t }.

Definition SIGSET_IDX (sig : Z) : Z := Z.shiftr sig 3 / 4.
Definition SIGSET_MSK (sig : Z) : Z := Z.shiftl 1 (Z.land sig 31).

Definition word (set : sigset_t) (i : Z) : Z := if i =? 0 then sig0 set else sig1 set.
Definition put_word (set : sigset_t) (i x : Z) : sigset_t :=
  if i =? 0 then Sigset x (sig1 set) else Sigset (sig0 set) x.

(** ** include/kern/signal.h *)

Definition sigset_or (set block : sigset_t) : sigset_t :=
  Sigset (Z.lor (sig0 set) (sig0 block)) (Z.lor (sig1 set) (sig1 block)).

Definition sigset_nand (set block : sigset_t) : sigset_t :=
  Sigset (Z.land (sig0 set) (Z.lnot (sig0 block))) (Z.land (sig1 set) (Z.lnot (sig1 block))).

Definition sigblocked (set : sigset_t) (sig : Z) : bool :=
  let sig := sig - 1 in negb (Z.land (word set (SIGSET_IDX sig)) (SIGSET_MSK sig) =? 0).

Definition sigblock (set : sigset_t) (sig : Z) : sigset_t :=
  let sig := sig - 1 in put_word set (SIGSET_IDX sig) (Z.lor (word set (SIGSET_IDX sig)) (SIGSET_MSK sig)).

Definition sigunblock (set : sigset_t) (sig : Z) : sigset_t :=
  let sig := sig - 1 in put_word set (SIGSET_IDX sig) (Z.land (word set (SIGSET_IDX sig)) (Z.lnot (SIGSET_MSK sig))).

Definition sigpending (set mask : sigset_t) : bool :=
  negb (Z.land (sig0 set) (Z.lnot (sig0 mask)) =? 0) || negb (Z.land (sig1 set) (Z.lnot (sig1 mask)) =? 0).

(** ** The state *)

Record sigproc_t := Sigproc { sigacts : list sigaction_t; pending : sigset_t; npending : Z }.

Record sigthr_t := Sigthr {
  tpending : sigset_t;
  mask : sigset_t;
  tnpending : Z;
  stack : stack_t;
  nesting_lvl : Z;
  stack_lvl : Z;
}.

Record sigw := SigW { sigprocs : gmap Z sigproc_t; sigthrs : gmap Z sigthr_t }.

Definition set_mask (t : sigthr_t) (m : sigset_t) : sigthr_t :=
  Sigthr (tpending t) m (tnpending t) (stack t) (nesting_lvl t) (stack_lvl t).
Definition set_tpending (t : sigthr_t) (x : sigset_t) (n : Z) : sigthr_t :=
  Sigthr x (mask t) n (stack t) (nesting_lvl t) (stack_lvl t).
Definition set_stack (t : sigthr_t) (x : stack_t) (nest lvl : Z) : sigthr_t :=
  Sigthr (tpending t) (mask t) (tnpending t) x nest lvl.
Definition set_pending (p : sigproc_t) (x : sigset_t) (n : Z) : sigproc_t := Sigproc (sigacts p) x n.
Definition set_act (p : sigproc_t) (sig : Z) (a : sigaction_t) : sigproc_t :=
  Sigproc (<[Z.to_nat sig := a]> (sigacts p)) (pending p) (npending p).

Definition SIGPENDING (p : sigproc_t) (t : sigthr_t) : bool :=
  (negb (npending p =? 0) && sigpending (pending p) (mask t)) ||
  (negb (tnpending t =? 0) && sigpending (tpending t) (mask t)).

Implicit Types s : kst sigw.

Definition sigproc s a : res sigproc_t := deref (sigprocs (world s) !! a).
Definition sigthr s t : res sigthr_t := deref (sigthrs (world s) !! t).
Definition put_sigproc s a (x : sigproc_t) : kst sigw :=
  set_world s (SigW (<[a := x]> (sigprocs (world s))) (sigthrs (world s))).
Definition put_sigthr s t (x : sigthr_t) : kst sigw :=
  set_world s (SigW (sigprocs (world s)) (<[t := x]> (sigthrs (world s)))).

(** The action of a signal; [sigacts] has NSIG entries. *)
Definition sigact (p : sigproc_t) (sig : Z) : res sigaction_t := deref (sigacts p !! Z.to_nat sig).

(** ** Sets, permissions and defaults *)

Definition signal_is_masked s cur (sig : Z) : res bool :=
  let* t := sigthr s cur in Done (sigblocked (mask t) sig).

Definition signal_is_ignored s cur (sig : Z) : res bool :=
  let* m := signal_is_masked s cur sig in
  if m then Done true
  else
    let* me := cur_proc s cur in
    let* p := sigproc s me in
    let* a := sigact p sig in
    Done (sa_handler a =? SIG_IGN).

Fixpoint sigset_ffs_loop (n : nat) (set : sigset_t) (i : Z) : Z :=
  match n with
  | O => 0
  | S n => if sigblocked set (i + 1) then i + 1 else sigset_ffs_loop n set (i + 1)
  end.

Definition sigset_ffs (set : sigset_t) : Z :=
  if sigblocked set SIGSEGV then SIGSEGV
  else if sigblocked set SIGKILL then SIGKILL
  else sigset_ffs_loop (Z.to_nat NSIG) set 0.

Definition sigperm s cur proc (flags : Z) : res bool :=
  let* me := cur_proc s cur in
  if F_ISSET flags SIG_KERN then Done true
  else
    let* c := get_proc s me in
    let u := uid (cred c) in
    let e := euid (cred c) in
    if (u =? UID_ROOT) || (e =? UID_ROOT) then Done true
    else
      let* p := get_proc s proc in
      Done ((uid (cred p) =? u) || (suid (cred p) =? u) || (uid (cred p) =? e) || (suid (cred p) =? u)).

Inductive sig_act := SIGACT_TERM | SIGACT_IGN | SIGACT_STOP | SIGACT_CONT.
Definition SIGACT_CORE : sig_act := SIGACT_TERM.
#[export] Instance sig_act_eq_dec : EqDecision sig_act.
Proof. solve_decision. Defined.

Definition sigdefault (sig : Z) : sig_act :=
  if bool_decide (sig ∈ [SIGHUP; SIGINT; SIGKILL; SIGPIPE; SIGALRM; SIGTERM; SIGUSR1; SIGUSR2]) then SIGACT_TERM
  else if bool_decide (sig ∈ [SIGCHLD]) then SIGACT_IGN
  else if bool_decide (sig ∈ [SIGQUIT; SIGILL; SIGABRT; SIGFPE; SIGSEGV; SIGBUS; SIGSYS; SIGXCPU; SIGXFSZ]) then SIGACT_CORE
  else if bool_decide (sig ∈ [SIGSTOP; SIGTSTP; SIGTTIN; SIGTTOU]) then SIGACT_STOP
  else if bool_decide (sig ∈ [SIGCONT]) then SIGACT_CONT
  else SIGACT_IGN.

Definition sigmayign (sig : Z) : bool := negb (sig =? SIGSEGV) && negb (sig =? SIGKILL) && negb (sig =? SIGSTOP).

Definition sigmask_fix (set : sigset_t) : sigset_t :=
  sigunblock (sigunblock (sigunblock set SIGKILL) SIGSTOP) SIGSEGV.

(** ** Sending *)

Fixpoint choose_loop s (sig : Z) (l : list Z) (thread : option Z) : res (option Z) :=
  match l with
  | [] => Done thread
  | t :: l =>
    let* x := sigthr s t in
    if negb (sigblocked (mask x) sig) || bool_decide (thread = None) then Done (Some t)
    else choose_loop s sig l thread
  end.

Definition sig_choose_thr s cur proc (sig : Z) : res Z :=
  let* me := cur_proc s cur in
  let* own := if proc =? me then let* t := sigthr s cur in Done (negb (sigblocked (mask t) sig)) else Done false in
  if own then Done cur
  else
    let* p := get_proc s proc in
    let* t := choose_loop s sig (threads p) None in
    match t with Some t => Done t | None => Panic end.

(** The signal becomes pending and the thread is told. *)
Definition signal_post s cur proc (thread : option Z) (sig : Z) : res (Z * kst sigw) :=
  let* '(t, shared) :=
    match thread with
    | Some t => if sig =? SIGCONT then let* t := sig_choose_thr s cur proc sig in Done (t, true) else Done (t, false)
    | None => let* t := sig_choose_thr s cur proc sig in Done (t, true)
    end in
  let* p := sigproc s proc in
  let* x := sigthr s t in
  let p := if shared then
             set_pending p (sigblock (pending p) sig)
               (if sigblocked (pending p) sig then npending p else u32 (npending p + 1)) else p in
  let x := if shared then x else
             set_tpending x (sigblock (tpending x) sig)
               (if sigblocked (tpending x) sig then tnpending x else u32 (tnpending x + 1)) in
  let s := put_sigthr (put_sigproc s proc p) t x in
  let* act := sigact p sig in
  if SIGPENDING p x then
    let* s := thread_signal s t (F_ISSET (sa_flags act) SA_RESTART) in Done (0, s)
  else Done (0, s).

Definition signal_send `{Kill sigw} s cur proc (thread : option Z) (sig flags : Z) : res (Z * kst sigw) :=
  if (sig <? 0) || (NSIG <=? sig) then Done (- EINVAL, s)
  else
    let* ok := sigperm s cur proc flags in
    if negb ok then Done (- EACCES, s)
    else
      let* pr := get_proc s proc in
      if (sig =? 0) || F_ISSET (pflags pr) PROC_EXIT then Done (0, s)
      else
        let* p := sigproc s proc in
        let* act := sigact p sig in
        let dfl := sigdefault sig in
        if (sa_handler act =? SIG_IGN) && sigmayign sig then Done (0, s)
        else if (sig =? SIGSTOP) || ((sa_handler act =? SIG_DFL) && bool_decide (dfl = SIGACT_STOP)) then
          let s := put_sigproc s proc (set_pending p (sigunblock (pending p) SIGCONT) (npending p)) in
          let* s := proc_stop s cur proc sig in
          Done (0, s)
        else
          let* s := if (sig =? SIGCONT) || ((sa_handler act =? SIG_DFL) && bool_decide (dfl = SIGACT_CONT))
                    then proc_cont s cur proc else Done s in
          if (sa_handler act =? SIG_DFL) && negb (bool_decide (dfl = SIGACT_TERM)) then Done (0, s)
          else signal_post s cur proc thread sig.

(** [kern_signal], with fuel for the SIGCHLD that a stop or a continue sends. *)
Fixpoint kern_signal_n (n : nat) s cur proc (thread : option Z) (sig flags : Z) : res (Z * kst sigw) :=
  match n with
  | O => Stuck
  | S n =>
    let _ : Kill sigw := fun s cur proc sig flags => kern_signal_n n s cur proc None sig flags in
    signal_send s cur proc thread sig flags
  end.

Definition kern_signal s cur proc (thread : option Z) (sig flags : Z) : res (Z * kst sigw) :=
  kern_signal_n 2 s cur proc thread sig flags.

#[export] Instance signal_kill : Kill sigw := fun s cur proc sig flags => kern_signal s cur proc None sig flags.

Definition kern_tkill s cur t (sig flags : Z) : res (Z * kst sigw) :=
  let* th := get_thread s t in
  let* a := deref (tproc th) in
  kern_signal s cur a (Some t) sig flags.

Definition kern_tkill_cur s cur (sig : Z) : res (Z * kst sigw) := kern_tkill s cur cur sig SIG_KERN.

Fixpoint find_tid s (l : list Z) (id : Z) : res (option Z) :=
  match l with
  | [] => Done None
  | t :: l => let* th := get_thread s t in if tid th =? id then Done (Some t) else find_tid s l id
  end.

Definition sys_tkill s cur (id sig : Z) : res (Z * kst sigw) :=
  let* me := cur_proc s cur in
  if id <=? 0 then Done (- EINVAL, s)
  else
    let* th := get_thread s cur in
    if tid th =? id then kern_tkill_cur s cur sig
    else
      let* p := get_proc s me in
      let* t := find_tid s (threads p) id in
      match t with
      | Some t => kern_tkill s cur t sig 0
      | None => Done (- ESRCH, s)
      end.

(** [ABS] of the smallest int is itself. *)
Definition ABS (x : Z) : Z := if 0 <? x then x else s32 (- x).

Definition sys_kill s cur (pid' sig : Z) : res (Z * kst sigw) :=
  if 0 <? pid' then proc_kill s cur pid' sig 0
  else if (pid' =? 0) || (pid' <? -1) then pgrp_kill s cur (ABS pid') sig 0
  else Done (- EINVAL, s).

(** ** User memory: words, sets, stacks and actions *)

Definition sigset_bytes (x : sigset_t) : list Z := int_bytes (sig0 x) ++ int_bytes (sig1 x).
Definition sigset_of (bs : list Z) : sigset_t := Sigset (word_at bs 0) (word_at bs 1).

Definition stack_bytes (x : stack_t) : list Z := int_bytes (ss_sp x) ++ int_bytes (ss_flags x) ++ int_bytes (ss_size x).
Definition stack_of (bs : list Z) : stack_t := Stack (word_at bs 0) (word_at bs 1) (word_at bs 2).

Definition sigaction_bytes (x : sigaction_t) : list Z :=
  int_bytes (sa_handler x) ++ int_bytes (sa_flags x) ++ int_bytes (sa_restorer x) ++ sigset_bytes (sa_mask x).
Definition sigaction_of (bs : list Z) : sigaction_t :=
  Sigaction (word_at bs 0) (word_at bs 1) (word_at bs 2) (Sigset (word_at bs 3) (word_at bs 4)).

Section Memory.
Context `{Cpu}.

Definition sys_sigaltstack s (m : mem) cur (uss oss : Z) : res (Z * mem * kst sigw) :=
  let* t := sigthr s cur in
  let* '(err, m) := if negb (oss =? 0) then copyout m oss (stack_bytes (stack t)) else Done (0, m) in
  if negb (err =? 0) then Done (err, m, s)
  else if uss =? 0 then Done (0, m, s)
  else
    match copyin m uss 12 with
    | (err, None) => Done (err, m, s)
    | (_, Some bs) =>
      let ss := stack_of bs in
      if negb (Z.land (ss_flags ss) (Z.lnot SS_DISABLE) =? 0) then Done (- EINVAL, m, s)
      else if F_ISSET (ss_flags (stack t)) SS_ONSTACK then Done (- EPERM, m, s)
      else Done (0, m, put_sigthr s cur (set_stack t ss (nesting_lvl t) (stack_lvl t)))
    end.

Definition SA_KNOWN : Z :=
  Z.lor SA_NODEFER (Z.lor SA_RESTART (Z.lor SA_NOCLDWAIT (Z.lor SA_SIGINFO (Z.lor SA_ONSTACK (Z.lor SA_RESETHAND SA_RESTORER))))).

(** The new action, copied in and checked, with its effect on the children. *)
Definition sigaction_in s (m : mem) (me signum usract : Z) : res (Z * option sigaction_t * kst sigw) :=
  if usract =? 0 then Done (0, None, s)
  else
    match copyin m usract 20 with
    | (err, None) => Done (err, None, s)
    | (_, Some bs) =>
      let act := sigaction_of bs in
      if F_ISSET (sa_flags act) SA_SIGINFO then Done (- EINVAL, None, s)
      else if negb (Z.land (sa_flags act) (Z.lnot SA_KNOWN) =? 0) then Done (- EINVAL, None, s)
      else
        let* s := if signum =? SIGCHLD then
                    if F_ISSET (sa_flags act) SA_NOCLDWAIT then proc_autoreap_enable s me else proc_autoreap_disable s me
                  else Done s in
        Done (0, Some act, s)
    end.

(** NSIG itself is not refused: the access is behind the end of [sigacts]. *)
Definition sys_rt_sigaction s (m : mem) cur (signum usract oldact size : Z) : res (Z * mem * kst sigw) :=
  let* me := cur_proc s cur in
  if negb (size =? 8) then Done (- ENOSYS, m, s)
  else if (signum =? SIGKILL) || (signum =? SIGSTOP) || (signum <? 0) || (NSIG <? signum) then Done (- EINVAL, m, s)
  else
    let* '(err, act, s) := sigaction_in s m me signum usract in
    if negb (err =? 0) then Done (err, m, s)
    else
      let* p := sigproc s me in
      let* old := if negb (oldact =? 0) then let* a := sigact p signum in Done (Some a) else Done None in
      let* s := match act with
                | Some a => let* _ := sigact p signum in Done (put_sigproc s me (set_act p signum a))
                | None => Done s
                end in
      match old with
      | Some a => let* '(err, m) := copyout m oldact (sigaction_bytes a) in Done (err, m, s)
      | None => Done (0, m, s)
      end.

(** The result and the old mask. *)
Definition kern_sigprocmask s cur (how : Z) (set : option sigset_t) : res (Z * sigset_t * kst sigw) :=
  let* th := get_thread s cur in
  let* a := deref (tproc th) in
  let* p := sigproc s a in
  let* t := sigthr s cur in
  let t := set_mask t (sigmask_fix (mask t)) in
  let old := mask t in
  match set with
  | None => Done (0, old, put_sigthr s cur t)
  | Some x =>
    let new := if how =? SIG_BLOCK then Some (sigset_or old x)
               else if how =? SIG_SETMASK then Some x
               else if how =? SIG_UNBLOCK then Some (sigset_nand old x) else None in
    match new with
    | None => Done (- EINVAL, old, put_sigthr s cur t)
    | Some x =>
      let t := set_mask t x in
      let s := put_sigthr s cur t in
      if ((how =? SIG_UNBLOCK) || (how =? SIG_SETMASK)) && SIGPENDING p t
      then let* s := thread_signal s cur true in Done (0, old, s)
      else Done (0, old, s)
    end
  end.

Definition sys_rt_sigprocmask s (m : mem) cur (how usr_set usr_oldset size : Z) : res (Z * mem * kst sigw) :=
  if negb (size =? 8) then Done (- ENOSYS, m, s)
  else
    let (err, set) :=
      if usr_set =? 0 then (0, None)
      else match copyin m usr_set 8 with (err, None) => (err, None) | (_, Some bs) => (0, Some (sigset_of bs)) end in
    if negb (err =? 0) then Done (err, m, s)
    else
      let* '(err, old, s) := kern_sigprocmask s cur how set in
      if (err =? 0) && negb (usr_oldset =? 0) then
        let* '(err, m) := copyout m usr_oldset (sigset_bytes old) in Done (err, m, s)
      else Done (err, m, s).

End Memory.

Definition signal_set_mask s cur (set : sigset_t) : res (kst sigw) :=
  let* th := get_thread s cur in
  let* a := deref (tproc th) in
  let* p := sigproc s a in
  let* t := sigthr s cur in
  let t := set_mask t (sigmask_fix set) in
  let s := put_sigthr s cur t in
  if SIGPENDING p t then thread_signal s cur true else Done s.

(** ** Processes and threads: creation, fork, execve and exit *)

Definition no_sigs : sigset_t := Sigset 0 0.

(** The storage of a process is zeroed; SIG_DFL is 0. *)
Definition sigproc_init (w : sigw) (a : Z) (forked : bool) : res (Z * sigw) :=
  let zero := Sigproc (replicate (Z.to_nat NSIG) (Sigaction 0 0 0 no_sigs)) no_sigs 0 in
  let acts := if forked then sigacts zero
              else (fun x => Sigaction SIG_DFL (sa_flags x) (sa_restorer x) (sa_mask x)) <$> sigacts zero in
  Done (0, SigW (<[a := Sigproc acts no_sigs 0]> (sigprocs w)) (sigthrs w)).

Definition sigthr_init (w : sigw) (t : Z) : res (Z * sigw) :=
  Done (0, SigW (sigprocs w) (<[t := Sigthr no_sigs no_sigs 0 (Stack 0 SS_DISABLE 0) 0 0]> (sigthrs w))).

(** [dt], [ct]: the thread of the new process and the current thread. *)
Definition sigproc_fork (w : sigw) (dst src dt ct : Z) : res (Z * sigw) :=
  let* d := deref (sigprocs w !! dst) in
  let* c := deref (sigprocs w !! src) in
  let* td := deref (sigthrs w !! dt) in
  let* tc := deref (sigthrs w !! ct) in
  Done (0, SigW (<[dst := Sigproc (sigacts c) (pending d) (npending d)]> (sigprocs w))
                (<[dt := set_mask td (mask tc)]> (sigthrs w))).

Definition exec_act (a : sigaction_t) : sigaction_t :=
  Sigaction (if negb (sa_handler a =? SIG_IGN) then SIG_DFL else sa_handler a) 0 (sa_restorer a) (sa_mask a).

Definition sigproc_exec (w : sigw) (a cur : Z) : res sigw :=
  let* p := deref (sigprocs w !! a) in
  let* t := deref (sigthrs w !! cur) in
  Done (SigW (<[a := Sigproc (exec_act <$> sigacts p) no_sigs 0]> (sigprocs w))
             (<[cur := set_tpending t no_sigs 0]> (sigthrs w))).

(** Destroys the lock. *)
Definition sigproc_exit (w : sigw) (a : Z) : res sigw := Done w.

#[export] Instance signal_pls : Pls sigw := {|
  pls_init := sigproc_init;
  tls_init := sigthr_init;
  tls_exit w t := Done (SigW (sigprocs w) (delete t (sigthrs w)));
  pls_fork := sigproc_fork;
  pls_exec := sigproc_exec;
  pls_exit := sigproc_exit;
|}.

(** ** Delivery *)

(** The next signal, and the state after it has been taken. *)
Definition signext (p : sigproc_t) (t : sigthr_t) : Z * sigproc_t * sigthr_t :=
  if negb (SIGPENDING p t) then (0, p, t)
  else
    let sig := sigset_ffs (sigset_nand (sigset_or (tpending t) (pending p)) (mask t)) in
    if 0 <? sig then
      if sigblocked (pending p) sig
      then (sig, set_pending p (sigunblock (pending p) sig) (u32 (npending p - 1)), t)
      else (sig, p, set_tpending t (sigunblock (tpending t) sig) (u32 (tnpending t + 1)))
    else (sig, p, t).

Definition signal_cleanup (t : sigthr_t) : res sigthr_t :=
  kassert 0 <? nesting_lvl t in
  let st := stack t in
  let (st, lvl) := if stack_lvl t =? nesting_lvl t
                   then (Stack (ss_sp st) (Z.land (ss_flags st) (Z.lnot SS_ONSTACK)) (ss_size st), 0)
                   else (st, stack_lvl t) in
  Done (set_stack t st (nesting_lvl t - 1) lvl).

(** What the thread does next. *)
Inductive delivery :=
| Continue
| Exited (sig : Z)
| Stopped
| Handler (sig : Z) (stack : option stack_t) (act : sigaction_t) (old : sigset_t).

Section Delivery.

(** [arch]: the result of [arch_sig_handle]; [evs], [evs2]: what happens
    while an exit waits for the other threads. *)
Context (arch : Z -> option stack_t -> sigaction_t -> sigset_t -> Z).
Context (evs evs2 : list (kst sigw -> kst sigw)).

Definition die s cur (sig : Z) : res (delivery * kst sigw) :=
  let* s := kern_exitproc s cur 0 sig evs evs2 in Done (Exited sig, s).

(** A signal with a handler. *)
Definition signal_handle s cur (a : Z) (p : sigproc_t) (t : sigthr_t) (sig : Z) (act : sigaction_t)
    : res (delivery * kst sigw) :=
  let old := mask t in
  let m := sigset_or (mask t) (sa_mask act) in
  let m := if negb (F_ISSET (sa_flags act) SA_NODEFER) then sigblock m sig else m in
  let t := set_mask t (sigmask_fix m) in
  let act' := if F_ISSET (sa_flags act) SA_RESETHAND && negb (sig =? SIGILL) && negb (sig =? SIGTRAP)
              then Sigaction SIG_DFL (Z.land (sa_flags act) (Z.lnot SA_SIGINFO)) (sa_restorer act) (sa_mask act)
              else act in
  let p := set_act p sig act' in
  let lvl := u32 (nesting_lvl t + 1) in
  let st := stack t in
  let s := put_sigproc s a p in
  if F_ISSET (sa_flags act') SA_ONSTACK && (Z.land (ss_flags st) (Z.lor SS_DISABLE SS_ONSTACK) =? 0) then
    let st := Stack (ss_sp st) (Z.lor (ss_flags st) SS_ONSTACK) (ss_size st) in
    let s := put_sigthr s cur (set_stack t st lvl lvl) in
    if negb (arch sig (Some st) act old =? 0) then die s cur sig else Done (Handler sig (Some st) act old, s)
  else
    let s := put_sigthr s cur (set_stack t st lvl (stack_lvl t)) in
    if sig =? SIGSEGV then die s cur sig
    else if negb (arch sig None act old =? 0) then die s cur sig else Done (Handler sig None act old, s).

Definition signal_intr s cur : res (delivery * kst sigw) :=
  let* th := get_thread s cur in
  let* a := deref (tproc th) in
  let* p := sigproc s a in
  let* t := sigthr s cur in
  let '(sig, p, t) := signext p t in
  let s := put_sigthr (put_sigproc s a p) cur t in
  if sig =? 0 then Done (Continue, s)
  else if sig =? SIGKILL then die s cur sig
  else
    let* act := sigact p sig in
    if (sa_handler act =? SIG_IGN) && negb (sig =? SIGSEGV) then Done (Continue, s)
    else if sa_handler act =? SIG_DFL then
      match sigdefault sig with
      | SIGACT_TERM => die s cur sig
      | SIGACT_STOP =>
        let s := put_sigproc s a (set_pending p (sigunblock (pending p) SIGCONT) (npending p)) in
        let* s := proc_stop s cur a sig in
        Done (Stopped, s)
      | SIGACT_CONT => let* s := proc_cont s cur a in Done (Continue, s)
      | SIGACT_IGN => Done (Continue, s)
      end
    else signal_handle s cur a p t sig act.

End Delivery.

(** [sys_sigreturn] with the mask that [arch_sigreturn] found in the frame. *)
Definition sys_sigreturn s cur (set : sigset_t) : res (kst sigw) :=
  let* t := sigthr s cur in
  let* t := signal_cleanup t in
  signal_set_mask (put_sigthr s cur t) cur set.
