(* ===== verification/SignalFacts.v ===== *)
(** * Facts about the signals

    Sets of signals as sets of numbers, what is pending and what is taken
    next, who may send what, and which signals cannot be blocked or caught.
    The signal code also keeps the promise the process code relies on
    ([KillLaws]). *)
From stdpp Require Import base tactics option list numbers gmap fin_maps.
From Stdlib Require Import ZArith Lia Bool.
From S2P Require Import Prelude Bitset User Proc ProcIds ProcLife Signal.

Implicit Types s : kst sigw.

(** The outermost test of a run. *)
Ltac rif H := match type of H with (if ?b then _ else _) = _ => destruct b end.

(** ** Sets *)

(** The numbers a set has room for. *)
Definition signo (i : Z) : Prop := 1 <= i <= 64.

Record set_wf (x : sigset_t) : Prop := { wf_sig0 : 0 <= sig0 x < 2 ^ 32; wf_sig1 : 0 <= sig1 x < 2 ^ 32 }.

Lemma land_msk w k : 0 <= k -> negb (Z.land w (Z.shiftl 1 k) =? 0) = Z.testbit w k.
Proof.
  intros Hk. destruct (Z.eqb_spec (Z.land w (Z.shiftl 1 k)) 0) as [E|E]; simpl.
  - symmetry. apply (f_equal (fun x => Z.testbit x k)) in E.
    by rewrite Z.land_spec, shiftl1_bits, Z.eqb_refl, andb_true_r, Z.bits_0 in E by done.
  - symmetry. apply not_false_iff_true. intros Hf. apply E. apply Z.bits_inj'. intros i Hi.
    rewrite Z.land_spec, shiftl1_bits, Z.bits_0 by done. destruct (Z.eqb_spec k i) as [<-|]; [by rewrite Hf|by rewrite andb_false_r].
Qed.

Lemma SIGSET_IDX_eq x : SIGSET_IDX x = x / 32.
Proof. unfold SIGSET_IDX. rewrite shiftr3, Z.div_div by lia. done. Qed.

Lemma land31 x : Z.land x 31 = x mod 32.
Proof. apply (Z.land_ones x 5). lia. Qed.

Lemma idx_split x : 0 <= x < 64 -> x / 32 = 0 /\ x mod 32 = x \/ x / 32 = 1 /\ x mod 32 = x - 32.
Proof.
  intros Hx. destruct (decide (x < 32)).
  - left. split; [apply Z.div_small|apply Z.mod_small]; lia.
  - right. assert (x / 32 = 1) by (symmetry; apply (Z.div_unique x 32 1 (x - 32)); lia).
    split; [done|]. rewrite Z.mod_eq by lia. lia.
Qed.

(** A signal is a bit of one of the two words. *)
Lemma sigblocked_bit set sig : signo sig ->
  sigblocked set sig = if decide (sig <= 32) then Z.testbit (sig0 set) (sig - 1) else Z.testbit (sig1 set) (sig - 33).
Proof.
  intros Hs. unfold sigblocked, SIGSET_MSK, word. cbv zeta. rewrite SIGSET_IDX_eq, land31, land_msk by (apply Z.mod_pos_bound; lia).
  destruct (idx_split (sig - 1)) as [(E1 & E2)|(E1 & E2)]; [unfold signo in Hs; lia| |];
    pose proof (Z.mod_pos_bound (sig - 1) 32); rewrite E1, E2; simpl; case_decide; try lia; [done|]. f_equal. lia.
Qed.

Lemma sigblocked_or a b sig : signo sig -> sigblocked (sigset_or a b) sig = sigblocked a sig || sigblocked b sig.
Proof. intros. rewrite !sigblocked_bit by done. case_decide; apply Z.lor_spec. Qed.

Lemma sigblocked_nand a b sig : signo sig -> sigblocked (sigset_nand a b) sig = sigblocked a sig && negb (sigblocked b sig).
Proof.
  intros. unfold signo in *. rewrite !sigblocked_bit by done. case_decide; simpl; rewrite Z.land_spec, Z.lnot_spec by lia; done.
Qed.

Lemma sigblocked_block set a sig : signo a -> signo sig ->
  sigblocked (sigblock set a) sig = (a =? sig) || sigblocked set sig.
Proof.
  intros Ha Hs. unfold sigblock, put_word, word, SIGSET_MSK. cbv zeta. rewrite SIGSET_IDX_eq, land31.
  rewrite !sigblocked_bit by done. unfold signo in *.
  destruct (idx_split (a - 1)) as [(E1 & E2)|(E1 & E2)]; [lia| |]; rewrite E1, E2; simpl;
    pose proof (Z.mod_pos_bound (a - 1) 32); case_decide; rewrite ?Z.lor_spec, ?shiftl1_bits by lia;
    destruct (Z.eqb_spec a sig); try (subst; lia);
    try (match goal with |- context [Z.eqb ?x ?y] => destruct (Z.eqb_spec x y); [try lia|] end);
    rewrite ?orb_true_r, ?orb_false_r; try done; lia.
Qed.

Lemma sigblocked_unblock set a sig : signo a -> signo sig ->
  sigblocked (sigunblock set a) sig = negb (a =? sig) && sigblocked set sig.
Proof.
  intros Ha Hs. unfold sigunblock, put_word, word, SIGSET_MSK. cbv zeta. rewrite SIGSET_IDX_eq, land31.
  rewrite !sigblocked_bit by done. unfold signo in *.
  destruct (idx_split (a - 1)) as [(E1 & E2)|(E1 & E2)]; [lia| |]; rewrite E1, E2; simpl;
    pose proof (Z.mod_pos_bound (a - 1) 32); case_decide; rewrite ?Z.land_spec, ?Z.lnot_spec, ?shiftl1_bits by lia;
    destruct (Z.eqb_spec a sig); try (subst; lia);
    try (match goal with |- context [Z.eqb ?x ?y] => destruct (Z.eqb_spec x y); [try lia|] end);
    rewrite ?andb_true_r, ?andb_false_r; try done; lia.
Qed.

Lemma word_high w i : 0 <= w < 2 ^ 32 -> 32 <= i -> Z.testbit w i = false.
Proof. intros Hw Hi. rewrite <- (Z.mod_small w (2 ^ 32)) by done. by apply Z.mod_pow2_bits_high. Qed.

Lemma nand_bit w v : 0 <= w < 2 ^ 32 ->
  Z.land w (Z.lnot v) <> 0 <-> exists i, 0 <= i < 32 /\ Z.testbit w i = true /\ Z.testbit v i = false.
Proof.
  intros Hw. split.
  - intros Hn. set (z := Z.land w (Z.lnot v)) in *. assert (0 <= z) by (apply Z.land_nonneg; lia).
    pose proof (Z.log2_nonneg z) as Hl. pose proof (Z.bit_log2 z ltac:(lia)) as Hb. unfold z in Hb at 1.
    rewrite Z.land_spec, Z.lnot_spec in Hb by done. apply andb_true_iff in Hb as [Hb1 Hb2%negb_true_iff].
    exists (Z.log2 z). split_and!; try done. apply Z.nle_gt. intros Hge.
    rewrite word_high in Hb1 by (done || lia). done.
  - intros (i & Hi & Ew & Ev) E. apply (f_equal (fun x => Z.testbit x i)) in E.
    rewrite Z.land_spec, Z.lnot_spec, Ew, Ev, Z.bits_0 in E by lia. done.
Qed.

Lemma sigpending_spec set m : set_wf set ->
  sigpending set m = true <-> exists sig, signo sig /\ sigblocked set sig = true /\ sigblocked m sig = false.
Proof.
  intros [H0 H1]. unfold sigpending. rewrite orb_true_iff, !negb_true_iff, !Z.eqb_neq, !nand_bit by done. split.
  - intros [(i & Hi & E1 & E2)|(i & Hi & E1 & E2)].
    + exists (i + 1). assert (signo (i + 1)) by (unfold signo; lia). rewrite !sigblocked_bit by done.
      rewrite !decide_True by lia. replace (i + 1 - 1) with i by lia. done.
    + exists (i + 33). assert (signo (i + 33)) by (unfold signo; lia). rewrite !sigblocked_bit by done.
      rewrite !decide_False by lia. replace (i + 33 - 33) with i by lia. done.
  - intros (sig & Hs & E1 & E2). rewrite !sigblocked_bit in E1, E2 by done. unfold signo in Hs. case_decide.
    + left. exists (sig - 1). split; [lia|done].
    + right. exists (sig - 33). split; [lia|done].
Qed.

Lemma sigset_ffs_loop_spec n : forall set i, 0 <= i ->
  let r := sigset_ffs_loop n set i in
  (r = 0 /\ forall j, i < j <= i + Z.of_nat n -> sigblocked set j = false) \/
  (i < r <= i + Z.of_nat n /\ sigblocked set r = true /\ forall j, i < j < r -> sigblocked set j = false).
Proof.
  induction n as [|n IH]; intros set i Hi; simpl; [left; split; [done|lia]|].
  destruct (sigblocked set (i + 1)) eqn:E; [right; split_and!; [lia..|done|lia]|].
  destruct (IH set (i + 1)) as [(Hr & Hn)|(Hr & Hb & Hn)]; [lia| |].
  - left. split; [done|]. intros j Hj. destruct (decide (j = i + 1)) as [->|]; [done|apply Hn; lia].
  - right. split_and!; [lia..|done|]. intros j Hj. destruct (decide (j = i + 1)) as [->|]; [done|apply Hn; lia].
Qed.

(** The signal [sigset_ffs] prefers. *)
Definition preferred (f : Z -> bool) (sig : Z) : Prop :=
  f sig = true /\
  (if f SIGSEGV then sig = SIGSEGV else if f SIGKILL then sig = SIGKILL else forall j, 1 <= j < sig -> f j = false).

Lemma sigset_ffs_spec set : let r := sigset_ffs set in
  (r = 0 /\ forall j, 1 <= j <= NSIG -> sigblocked set j = false) \/ (1 <= r <= NSIG /\ preferred (sigblocked set) r).
Proof.
  cbv zeta. unfold sigset_ffs, preferred, NSIG. destruct (sigblocked set SIGSEGV) eqn:E1.
  { right. unfold SIGSEGV in *. split; [lia|done]. }
  destruct (sigblocked set SIGKILL) eqn:E2.
  { right. unfold SIGKILL in *. split; [lia|done]. }
  change (Z.to_nat 32) with 32%nat. destruct (sigset_ffs_loop_spec 32 set 0 ltac:(lia)) as [(-> & Hn)|(Hr & Hb & Hn)]; [left|right].
  - split; [done|]. intros j Hj. apply Hn. lia.
  - split; [lia|]. split; [done|]. intros j Hj. apply Hn. lia.
Qed.

(** ** Counting *)

Definition count (f : Z -> bool) (l : list Z) : Z := Z.of_nat (length (List.filter f l)).

Lemma count_ext f g l : (forall i, i ∈ l -> f i = g i) -> count f l = count g l.
Proof.
  intros H. unfold count. induction l as [|i l IH]; [done|]. simpl. rewrite (H i) by apply list_elem_of_here.
  destruct (g i); simpl; rewrite ?Nat2Z.inj_succ, IH; try done; intros; apply H; by apply list_elem_of_further.
Qed.

(** One element more. *)
Lemma count_one f g l a : NoDup l -> a ∈ l -> f a = false -> g a = true -> (forall i, i ∈ l -> i <> a -> g i = f i) ->
  count g l = count f l + 1.
Proof.
  intros Hnd Ha Hf Hg He. induction l as [|i l IH]; [by apply not_elem_of_nil in Ha|].
  apply NoDup_cons in Hnd as [Hi Hnd]. unfold count in *. simpl. apply elem_of_cons in Ha as [<-|Ha].
  - rewrite Hf, Hg. simpl. rewrite Nat2Z.inj_succ. unfold Z.succ. f_equal. apply (count_ext g f). intros j Hj.
    apply He; [by apply list_elem_of_further|]. by intros ->.
  - assert (IH' : Z.of_nat (length (List.filter g l)) = Z.of_nat (length (List.filter f l)) + 1).
    { apply IH; try done. intros j Hj. apply He. by apply list_elem_of_further. }
    rewrite (He i) by (apply list_elem_of_here || by intros ->). destruct (f i); simpl; lia.
Qed.

(** The number of signals in a set. *)
Definition card (x : sigset_t) : Z := count (sigblocked x) (seqZ 1 64).

Lemma in_signo i : i ∈ seqZ 1 64 <-> signo i.
Proof. rewrite elem_of_seqZ. unfold signo. lia. Qed.

Lemma card_block x a : signo a -> card (sigblock x a) = card x + (if sigblocked x a then 0 else 1).
Proof.
  intros Ha. unfold card. destruct (sigblocked x a) eqn:E.
  - rewrite Z.add_0_r. apply count_ext. intros i Hi%in_signo. rewrite sigblocked_block by done.
    destruct (Z.eqb_spec a i) as [<-|]; [by rewrite E|done].
  - apply (count_one _ _ _ a); [apply NoDup_seqZ|by apply in_signo|done|by rewrite sigblocked_block, Z.eqb_refl|].
    intros i Hi%in_signo Hn. rewrite sigblocked_block by done. by destruct (Z.eqb_spec a i).
Qed.

Lemma card_unblock x a : signo a -> card (sigunblock x a) = card x - (if sigblocked x a then 1 else 0).
Proof.
  intros Ha. unfold card. destruct (sigblocked x a) eqn:E.
  - rewrite (count_one (sigblocked (sigunblock x a)) (sigblocked x) _ a); [lia|apply NoDup_seqZ|by apply in_signo| |done|].
    + by rewrite sigblocked_unblock, Z.eqb_refl.
    + intros i Hi%in_signo Hn. rewrite sigblocked_unblock by done. by destruct (Z.eqb_spec a i).
  - rewrite Z.sub_0_r. apply count_ext. intros i Hi%in_signo. rewrite sigblocked_unblock by done.
    destruct (Z.eqb_spec a i) as [<-|]; [by rewrite E|done].
Qed.

Lemma card_nonneg x : 0 <= card x.
Proof. apply Nat2Z.is_nonneg. Qed.

Lemma card_pos x a : signo a -> sigblocked x a = true -> 1 <= card x.
Proof.
  intros Ha E. pose proof (card_unblock x a Ha) as H. rewrite E in H.
  pose proof (card_nonneg (sigunblock x a)). lia.
Qed.

Lemma set_wf_word set i : set_wf set -> 0 <= word set i < 2 ^ 32.
Proof. intros []. unfold word. by destruct (i =? 0). Qed.

Lemma lor_bound w v : 0 <= w < 2 ^ 32 -> 0 <= v < 2 ^ 32 -> 0 <= Z.lor w v < 2 ^ 32.
Proof.
  intros Hw Hv. split; [apply Z.lor_nonneg; lia|].
  destruct (decide (Z.lor w v = 0)) as [->|Hn]; [lia|].
  apply Z.log2_lt_pow2; [pose proof (proj2 (Z.lor_nonneg w v)); lia|]. rewrite Z.log2_lor by lia.
  apply Z.max_lub_lt; [destruct (decide (w = 0)) as [->|]|destruct (decide (v = 0)) as [->|]]; try (simpl; lia);
    apply Z.log2_lt_pow2; lia.
Qed.

Lemma land_bound w v : 0 <= w < 2 ^ 32 -> 0 <= Z.land w v < 2 ^ 32.
Proof.
  intros Hw. split; [apply Z.land_nonneg; lia|]. destruct (decide (Z.land w v = 0)) as [->|Hn]; [lia|].
  assert (0 <= Z.land w v) by (apply Z.land_nonneg; lia).
  destruct (Z.lt_ge_cases (Z.land w v) (2 ^ 32)) as [|Hge]; [done|exfalso].
  assert (32 <= Z.log2 (Z.land w v)) by (apply Z.log2_le_pow2; lia).
  pose proof (Z.bit_log2 (Z.land w v) ltac:(lia)) as Hb. rewrite Z.land_spec in Hb. apply andb_true_iff in Hb as [Hb _].
  by rewrite word_high in Hb.
Qed.

Lemma msk_bound x : 0 <= SIGSET_MSK x < 2 ^ 32.
Proof.
  unfold SIGSET_MSK. rewrite land31, Z.shiftl_1_l. pose proof (Z.mod_pos_bound x 32 ltac:(lia)).
  split; [apply Z.pow_nonneg; lia|apply Z.pow_lt_mono_r; lia].
Qed.

Lemma set_wf_block set a : set_wf set -> set_wf (sigblock set a).
Proof.
  intros H. pose proof H as []. unfold sigblock, put_word. cbv zeta.
  pose proof (lor_bound _ _ (set_wf_word set (SIGSET_IDX (a - 1)) H) (msk_bound (a - 1))).
  destruct (_ =? 0); by constructor.
Qed.

Lemma set_wf_unblock set a : set_wf set -> set_wf (sigunblock set a).
Proof.
  intros H. pose proof H as []. unfold sigunblock, put_word. cbv zeta.
  pose proof (land_bound _ (Z.lnot (SIGSET_MSK (a - 1))) (set_wf_word set (SIGSET_IDX (a - 1)) H)).
  destruct (_ =? 0); by constructor.
Qed.

(** ** What is pending *)

(** A process and a thread of it: the counters are not smaller than the
    number of pending signals. *)
Record sig_ok (p : sigproc_t) (t : sigthr_t) : Prop := {
  so_pend : set_wf (pending p);
  so_tpend : set_wf (tpending t);
  so_small : forall i, signo i -> sigblocked (pending p) i || sigblocked (tpending t) i = true -> i < NSIG;
  so_count : card (pending p) <= npending p < 2 ^ 32;
  so_tcount : card (tpending t) <= tnpending t < 2 ^ 32;
}.

(** The signals the thread has to handle. *)
Definition deliverable (p : sigproc_t) (t : sigthr_t) (i : Z) : bool :=
  (sigblocked (pending p) i || sigblocked (tpending t) i) && negb (sigblocked (mask t) i).

Lemma SIGPENDING_spec p t : sig_ok p t ->
  SIGPENDING p t = true <-> exists i, signo i /\ deliverable p t i = true.
Proof.
  intros []. unfold SIGPENDING, deliverable. rewrite orb_true_iff, !andb_true_iff, !negb_true_iff, !Z.eqb_neq, !sigpending_spec by done.
  split.
  - intros [(_ & i & Hi & E1 & E2)|(_ & i & Hi & E1 & E2)]; exists i; by rewrite E1, E2, ?orb_true_r.
  - intros (i & Hi & E). apply andb_true_iff in E as [E1 E2%negb_true_iff]. apply orb_true_iff in E1 as [E1|E1].
    + left. split; [|by exists i]. pose proof (card_pos _ _ Hi E1). lia.
    + right. split; [|by exists i]. pose proof (card_pos _ _ Hi E1). lia.
Qed.

Lemma deliverable_nand p t i : signo i ->
  sigblocked (sigset_nand (sigset_or (tpending t) (pending p)) (mask t)) i = deliverable p t i.
Proof. intros. rewrite sigblocked_nand, sigblocked_or, (orb_comm (sigblocked (tpending t) i)) by done. done. Qed.

(** C28: The next signal: there is one exactly when an unmasked signal is
    pending for the thread or its process; SIGSEGV comes first, then SIGKILL,
    then the lowest number.  Only this signal is taken from one of the two
    sets, the one of the process first, and the counters stay large enough to
    see the other pending signals. *)
Theorem signext_spec p t sig p' t' : sig_ok p t -> tnpending t < 2 ^ 32 - 1 -> signext p t = (sig, p', t') ->
  (sig = 0 /\ p' = p /\ t' = t /\ forall i, signo i -> deliverable p t i = false) \/
  (0 < sig < NSIG /\ preferred (deliverable p t) sig /\ sig_ok p' t' /\ sigacts p' = sigacts p /\ mask t' = mask t /\
   sigblocked (pending p') sig = false /\
   sigblocked (tpending t') sig = sigblocked (pending p) sig && sigblocked (tpending t) sig /\
   forall i, signo i -> i <> sig -> sigblocked (pending p') i = sigblocked (pending p) i /\
     sigblocked (tpending t') i = sigblocked (tpending t) i).
Proof.
  intros Hok Hn Hs. unfold signext in Hs. destruct (SIGPENDING p t) eqn:Ep; cbn [negb] in Hs; cycle 1.
  { injection Hs as <- <- <-. left. split_and!; try done. intros i Hi. apply not_true_is_false. intros E.
    assert (SIGPENDING p t = true) by (apply SIGPENDING_spec; eauto). congruence. }
  apply SIGPENDING_spec in Ep as (i & Hi & Ed); [|done]. pose proof Hok as [Wp Wt Hsmall Hcnt Htcnt].
  set (x := sigset_nand _ _) in Hs. destruct (sigset_ffs_spec x) as [(_ & Hno)|(Hr & Hb & Hpref)].
  { exfalso. specialize (Hno i). unfold x in Hno. rewrite deliverable_nand in Hno by done. rewrite Hno in Ed; [done|].
    unfold deliverable in Ed. apply andb_true_iff in Ed as [Ed _]. specialize (Hsmall i Hi Ed). unfold signo in Hi. lia. }
  set (r := sigset_ffs x) in *. assert (Hr' : signo r) by (unfold signo, NSIG in *; lia).
  unfold x in Hb. rewrite deliverable_nand in Hb by done. pose proof Hb as Hb'.
  unfold deliverable in Hb'. apply andb_true_iff in Hb' as [Hb1 _].
  assert (Hlt : 0 < r < NSIG) by (specialize (Hsmall r Hr' Hb1); unfold signo in Hr'; lia).
  assert (Hp : preferred (deliverable p t) r).
  { split; [done|]. revert Hpref. unfold x. rewrite !deliverable_nand by (unfold signo, SIGSEGV, SIGKILL; lia).
    destruct (deliverable p t SIGSEGV), (deliverable p t SIGKILL); try done. intros Hpref j Hj.
    rewrite <- deliverable_nand by (unfold signo, NSIG in *; lia). by apply Hpref. }
  destruct (Z.ltb_spec 0 r); [|lia]. right.
  destruct (sigblocked (pending p) r) eqn:E1; injection Hs as <- <- <-; simpl.
  - pose proof (card_pos _ _ Hr' E1). pose proof (card_unblock (pending p) r Hr') as Hc. rewrite E1 in Hc.
    split_and!; try done; [apply Hlt|..].
    + constructor; simpl; try done; [by apply set_wf_unblock| |rewrite u32_small; lia].
      intros j Hj. rewrite sigblocked_unblock by done. intros Hx. apply Hsmall; [done|].
      destruct (sigblocked (pending p) j); [done|]. by rewrite andb_false_r in Hx.
    + by rewrite sigblocked_unblock, Z.eqb_refl.
    + rewrite E1. done.
    + intros j Hj Hne. rewrite sigblocked_unblock by done. by destruct (Z.eqb_spec r j).
  - simpl in Hb1. pose proof (card_unblock (tpending t) r Hr') as Hc. rewrite Hb1 in Hc.
    pose proof (card_nonneg (tpending t)). split_and!; try done; [apply Hlt|..].
    + constructor; simpl; try done; [by apply set_wf_unblock| |rewrite u32_small; lia].
      intros j Hj. rewrite sigblocked_unblock by done. intros Hx. apply Hsmall; [done|].
      destruct (sigblocked (tpending t) j); [by rewrite orb_true_r|]. by rewrite andb_false_r in Hx.
    + by rewrite sigblocked_unblock, Z.eqb_refl, E1 by done.
    + intros j Hj Hne. rewrite sigblocked_unblock by done. by destruct (Z.eqb_spec r j).
Qed.

(** ** Sending: ids, fuel and permissions *)

Lemma put_sigproc_same s a x : same_ids s (put_sigproc s a x).
Proof. apply set_world_same. Qed.
Lemma put_sigthr_same s a x : same_ids s (put_sigthr s a x).
Proof. apply set_world_same. Qed.

Lemma signal_post_same s cur a t sig r s' : signal_post s cur a t sig = Done (r, s') -> same_ids s s'.
Proof.
  unfold signal_post. intros Hr. apply rbind_Done in Hr as ([u sh] & _ & Hr). apply rbind_Done in Hr as (p & _ & Hr).
  apply rbind_Done in Hr as (x & _ & Hr). apply rbind_Done in Hr as (act & _ & Hr).
  set (p' := if sh then _ else p) in *. set (x' := if sh then x else _) in *.
  assert (Hs : same_ids s (put_sigthr (put_sigproc s a p') u x')).
  { eapply same_ids_trans; [apply put_sigproc_same|apply put_sigthr_same]. }
  destruct (SIGPENDING p' x'); [|by injection Hr as <- <-].
  apply rbind_Done in Hr as (s1 & H1 & Hr). injection Hr as <- <-.
  eapply same_ids_trans; [exact Hs|by eapply sched_interrupt_same].
Qed.

Lemma signal_send_same {KI : Kill sigw} {KL : KillLaws sigw} s cur a t sig fl r s' :
  signal_send s cur a t sig fl = Done (r, s') -> same_ids s s'.
Proof.
  unfold signal_send. intros Hr. destruct (_ || _); [injection Hr as <- <-; apply same_ids_refl|].
  apply rbind_Done in Hr as (ok & _ & Hr). destruct (negb ok); [injection Hr as <- <-; apply same_ids_refl|].
  apply rbind_Done in Hr as (pr & _ & Hr). destruct (_ || _); [injection Hr as <- <-; apply same_ids_refl|].
  apply rbind_Done in Hr as (p & _ & Hr). apply rbind_Done in Hr as (act & _ & Hr).
  destruct (_ && sigmayign sig); [injection Hr as <- <-; apply same_ids_refl|].
  destruct (_ || _).
  { apply rbind_Done in Hr as (s1 & H1 & Hr). injection Hr as <- <-.
    eapply same_ids_trans; [apply put_sigproc_same|by eapply proc_stop_same]. }
  apply rbind_Done in Hr as (s1 & H1 & Hr).
  assert (same_ids s s1).
  { destruct (_ || _); [by eapply proc_cont_same|]. injection H1 as <-. apply same_ids_refl. }
  clear H1. destruct (_ && _); [by injection Hr as <- <-|].
  eapply same_ids_trans; [done|by eapply signal_post_same].
Qed.

Lemma kern_signal_n_same n : forall s cur a t sig fl r s',
  kern_signal_n n s cur a t sig fl = Done (r, s') -> same_ids s s'.
Proof.
  induction n as [|n IH]; intros s cur a t sig fl r s' Hr; [done|]. simpl in Hr.
  eapply (signal_send_same (KL := fun s cur a sig fl r s' => IH s cur a None sig fl r s')), Hr.
Qed.

#[export] Instance signal_laws : KillLaws sigw.
Proof. intros s cur a sig fl r s' Hr. by eapply (kern_signal_n_same 2). Qed.

Lemma rbind_ext {A B} (m : res A) (k k' : A -> res B) : (forall a, k a = k' a) -> rbind m k = rbind m k'.
Proof. intros H. by destruct m; simpl. Qed.

(** SIGCHLD neither stops nor continues: it does not send signals. *)
Lemma signal_send_chld (K K' : Kill sigw) s cur a t fl :
  signal_send (H := K) s cur a t SIGCHLD fl = signal_send (H := K') s cur a t SIGCHLD fl.
Proof.
  unfold signal_send. change (sigdefault SIGCHLD) with SIGACT_IGN. change (SIGCHLD =? SIGSTOP) with false.
  change (SIGCHLD =? SIGCONT) with false. cbn [orb]. apply rbind_ext. intros ok. destruct (negb ok); [done|].
  apply rbind_ext. intros pr. destruct (_ || _); [done|]. apply rbind_ext. intros p. apply rbind_ext. intros act.
  by destruct (sa_handler act =? SIG_DFL), (sa_handler act =? SIG_IGN).
Qed.

Lemma signal_send_ext (K K' : Kill sigw) s cur a t sig fl :
  (forall s cur b, K s cur b SIGCHLD SIG_KERN = K' s cur b SIGCHLD SIG_KERN) ->
  signal_send (H := K) s cur a t sig fl = signal_send (H := K') s cur a t sig fl.
Proof.
  intros HK.
  assert (Hchld : forall s b, proc_sigchld (H0 := K) s cur b = proc_sigchld (H0 := K') s cur b).
  { intros s1 b. unfold proc_sigchld, proc_do_sigchld. apply rbind_ext. intros p. apply rbind_ext. intros par.
    unfold kern_kill. by rewrite HK. }
  assert (Hstop : forall s, proc_stop (H0 := K) s cur a sig = proc_stop (H0 := K') s cur a sig).
  { intros s1. unfold proc_stop. apply rbind_ext. intros p. destruct (proc_test_flags p PROC_STOP); [done|].
    apply rbind_ext. intros s2. apply rbind_ext. intros q. by apply rbind_ext. }
  assert (Hcont : forall s, proc_cont (H0 := K) s cur a = proc_cont (H0 := K') s cur a).
  { intros s1. unfold proc_cont. apply rbind_ext. intros p. by destruct (proc_test_flags p PROC_STOP). }
  unfold signal_send. destruct (_ || _); [done|]. apply rbind_ext. intros ok. destruct (negb ok); [done|].
  apply rbind_ext. intros pr. destruct (_ || _); [done|]. apply rbind_ext. intros p. apply rbind_ext. intros act.
  destruct (_ && _); [done|]. destruct (_ || _); [by rewrite Hstop|]. destruct (_ || _); [by rewrite Hcont|done].
Qed.

(** Two levels of recursion are enough: with more fuel [kern_signal] does
    the same, so a signal that stops or continues a process, and the SIGCHLD
    for its parent, always come to an end. *)
Theorem kern_signal_fuel n s cur a t sig fl : kern_signal_n (S (S n)) s cur a t sig fl = kern_signal s cur a t sig fl.
Proof.
  unfold kern_signal. simpl. apply signal_send_ext. intros s1 cur1 b. apply signal_send_chld.
Qed.

(** A process that is not root may signal only processes whose real or
    saved user id is its own real or effective one; otherwise kill fails with
    EACCES and changes nothing. *)
Theorem kill_denied s cur me c a p sig : cur_proc s cur = Done me -> procs s !! me = Some c -> procs s !! a = Some p ->
  uid (cred c) <> UID_ROOT -> euid (cred c) <> UID_ROOT ->
  uid (cred p) <> uid (cred c) -> uid (cred p) <> euid (cred c) -> suid (cred p) <> uid (cred c) ->
  kern_kill s cur a sig 0 = Done (if decide (0 <= sig < NSIG) then - EACCES else - EINVAL, s).
Proof.
  intros Hcur Hc Hp H1 H2 H3 H4 H5. unfold kern_kill, signal_kill, kern_signal. simpl. unfold signal_send.
  case_decide as Hd.
  - destruct (Z.ltb_spec sig 0), (Z.leb_spec NSIG sig); try lia. simpl. unfold sigperm, get_proc. rewrite Hcur. cbn [rbind].
    change (F_ISSET 0 SIG_KERN) with false. cbn iota. rewrite Hc. cbn [deref rbind].
    rewrite (proj2 (Z.eqb_neq _ _) H1), (proj2 (Z.eqb_neq _ _) H2). cbn [orb]. rewrite Hp. cbn [deref rbind].
    rewrite (proj2 (Z.eqb_neq _ _) H3), (proj2 (Z.eqb_neq _ _) H4), (proj2 (Z.eqb_neq _ _) H5). done.
  - by destruct (Z.ltb_spec sig 0), (Z.leb_spec NSIG sig); try lia.
Qed.

(** ** Posting *)

(** The thread is told that a signal waits for it. *)
Definition interrupted s t : Prop := exists th, thrs s !! t = Some th /\ F_ISSET (intr th) THREAD_SIGNAL = true.

Lemma F_ISSET_lor x f : f <> 0 -> F_ISSET (Z.lor x f) f = true.
Proof.
  intros Hf. unfold F_ISSET. apply negb_true_iff, Z.eqb_neq. rewrite Z.land_comm, Z.land_lor_distr_r, Z.land_diag.
  intros E. by apply Z.lor_eq_0_iff in E as [_ ?].
Qed.

Lemma thread_signal_run s t th r : thrs s !! t = Some th ->
  exists s', thread_signal s t r = Done s' /\ world s' = world s /\ interrupted s' t /\ procs s' = procs s /\
    (forall u x, thrs s !! u = Some x -> exists y, thrs s' !! u = Some y /\ tproc y = tproc x).
Proof.
  intros Ht. unfold thread_signal, sched_interrupt, get_thread. rewrite Ht. cbn [deref rbind]. eexists. split; [done|].
  split_and!; try done.
  - eexists. split; [apply lookup_insert_eq|]. simpl. by apply F_ISSET_lor.
  - intros u x Hu. simpl. rewrite lookup_insert. case_decide; [|eauto]. subst u. eexists. split; [done|]. simpl. congruence.
Qed.

(** A signal for the whole process. *)
Lemma signal_post_shared s cur a sig t p x act th : 0 < sig < NSIG -> sig_choose_thr s cur a sig = Done t ->
  sigprocs (world s) !! a = Some p -> sigthrs (world s) !! t = Some x -> thrs s !! t = Some th ->
  sigact p sig = Done act -> sig_ok p x -> npending p < 2 ^ 32 - 1 ->
  exists p' s', signal_post s cur a None sig = Done (0, s') /\
    p' = set_pending p (sigblock (pending p) sig) (npending p') /\ sig_ok p' x /\
    world s' = SigW (<[a := p']> (sigprocs (world s))) (<[t := x]> (sigthrs (world s))) /\ procs s' = procs s /\
    (forall u y, thrs s !! u = Some y -> exists z, thrs s' !! u = Some z /\ tproc z = tproc y) /\
    (sigblocked (mask x) sig = false -> interrupted s' t).
Proof.
  intros Hs Hch Hp Hx Ht Hact Hok Hn. assert (Hsn : signo sig) by (unfold signo, NSIG in *; lia).
  pose proof Hok as [Wp Wt Hsmall Hcnt Htcnt].
  set (p' := set_pending p (sigblock (pending p) sig) (if sigblocked (pending p) sig then npending p else u32 (npending p + 1))).
  assert (Hok' : sig_ok p' x).
  { constructor; simpl; try done; [by apply set_wf_block| |].
    - intros i Hi. rewrite sigblocked_block by done. destruct (Z.eqb_spec sig i) as [<-|]; [intros; lia|by apply Hsmall].
    - rewrite card_block by done. pose proof (card_nonneg (pending p)).
      destruct (sigblocked (pending p) sig); [lia|rewrite u32_small; lia]. }
  exists p'. unfold signal_post, sigproc, sigthr. rewrite Hch. cbn [rbind]. rewrite Hp. cbn [deref rbind]. rewrite Hx. cbn [deref rbind].
  fold p'. change (sigact p' sig) with (sigact p sig). rewrite Hact. cbn [rbind].
  set (s1 := put_sigthr (put_sigproc s a p') t x).
  destruct (SIGPENDING p' x) eqn:Ep.
  - destruct (thread_signal_run s1 t th (F_ISSET (sa_flags act) SA_RESTART) Ht) as (s' & Hr & Hw & Hi & Hpr & Hth).
    rewrite Hr. cbn [rbind]. exists s'. split_and!; try done.
  - exists s1. split_and!; try done; [eauto|]. intros Hm. exfalso.
    assert (SIGPENDING p' x = true) as E; [|congruence]. apply SIGPENDING_spec; [done|]. exists sig. split; [done|].
    unfold deliverable. rewrite Hm. simpl. by rewrite sigblocked_block, Z.eqb_refl.
Qed.

Definition good_mask (m : sigset_t) : Prop :=
  sigblocked m SIGKILL = false /\ sigblocked m SIGSTOP = false /\ sigblocked m SIGSEGV = false.

Lemma sigmask_fix_good m : good_mask (sigmask_fix m).
Proof.
  unfold good_mask, sigmask_fix, SIGKILL, SIGSTOP, SIGSEGV. rewrite !sigblocked_unblock by (unfold signo; lia). done.
Qed.

Lemma sig_choose_thr_good s cur a me p sig : cur_proc s cur = Done me -> procs s !! a = Some p ->
  (a = me -> exists x, sigthrs (world s) !! cur = Some x) ->
  (exists t l, threads p = t :: l /\ is_Some (sigthrs (world s) !! t)) ->
  exists t, sig_choose_thr s cur a sig = Done t /\ (t ∈ threads p \/ (t = cur /\ a = me)).
Proof.
  intros Hcur Hp Hself (t & l & Hl & x & Hx). unfold sig_choose_thr, sigthr, get_proc. rewrite Hcur. cbn [rbind].
  destruct (Z.eqb_spec a me) as [E|E].
  - destruct (Hself E) as (y & Hy). rewrite Hy. cbn [deref rbind]. destruct (negb _); [eauto|].
    rewrite Hp. cbn [deref rbind]. rewrite Hl. simpl. unfold sigthr. rewrite Hx. cbn [deref rbind]. rewrite orb_true_r.
    cbn [rbind]. exists t. split; [done|]. left. apply list_elem_of_here.
  - cbn [rbind]. rewrite Hp. cbn [deref rbind]. rewrite Hl. simpl. unfold sigthr. rewrite Hx. cbn [deref rbind]. rewrite orb_true_r.
    cbn [rbind]. exists t. split; [done|]. left. apply list_elem_of_here.
Qed.


(** ** Handlers and masks *)

(** What the thread can rely on about its alternative stack. *)
Record thr_ok (t : sigthr_t) : Prop := {
  to_lvl : 0 <= stack_lvl t <= nesting_lvl t;
  to_nest : nesting_lvl t < 2 ^ 32 - 1;
  to_stack : F_ISSET (ss_flags (stack t)) SS_ONSTACK = false -> stack_lvl t = 0;
}.

(** The mask while a handler runs. *)
Definition handler_mask (old : sigset_t) (act : sigaction_t) (sig : Z) : sigset_t :=
  sigmask_fix (if negb (F_ISSET (sa_flags act) SA_NODEFER) then sigblock (sigset_or old (sa_mask act)) sig
               else sigset_or old (sa_mask act)).

Lemma put_sigproc_lookup s a p t x : sigthrs (world (put_sigthr (put_sigproc s a p) t x)) !! t = Some x /\
  thrs (put_sigthr (put_sigproc s a p) t x) = thrs s.
Proof. split; [apply lookup_insert_eq|done]. Qed.

(** Where a handler is entered: the thread's state, and whether it is on the
    alternative stack. *)
Lemma signal_handle_Handler arch evs evs2 s cur a p t sig act sig' st act' old s' :
  signal_handle arch evs evs2 s cur a p t sig act = Done (Handler sig' st act' old, s') ->
  old = mask t /\ act' = act /\ thrs s' = thrs s /\ exists x, sigthrs (world s') !! cur = Some x /\
    mask x = handler_mask (mask t) act sig /\ tpending x = tpending t /\ tnpending x = tnpending t /\
    nesting_lvl x = u32 (nesting_lvl t + 1) /\
    ((Z.land (ss_flags (stack t)) (Z.lor SS_DISABLE SS_ONSTACK) = 0 /\ stack_lvl x = nesting_lvl x /\
      stack x = Stack (ss_sp (stack t)) (Z.lor (ss_flags (stack t)) SS_ONSTACK) (ss_size (stack t))) \/
     (stack x = stack t /\ stack_lvl x = stack_lvl t)).
Proof.
  unfold signal_handle. intros Hr.
  assert (Hdie : forall s1, die evs evs2 s1 cur sig = Done (Handler sig' st act' old, s') -> False).
  { intros s1 Hd. unfold die in Hd. by apply rbind_Done in Hd as (? & _ & ?). }
  set (b := F_ISSET _ SA_ONSTACK && _) in Hr. destruct b eqn:Eb; cbn zeta in Hr.
  - rif Hr; [by apply Hdie in Hr|]. injection Hr as _ _ <- <- <-. split_and!; try done.
    eexists. split; [apply lookup_insert_eq|]. unfold b in Eb. apply andb_true_iff in Eb as [_ Eb%Z.eqb_eq].
    split_and!; try done. by left.
  - rif Hr; [by apply Hdie in Hr|]. rif Hr; [by apply Hdie in Hr|].
    injection Hr as _ _ <- <- <-. split_and!; try done. eexists. split; [apply lookup_insert_eq|].
    split_and!; try done. by right.
Qed.

Lemma signext_thread p t sig p' t' : signext p t = (sig, p', t') ->
  mask t' = mask t /\ stack t' = stack t /\ nesting_lvl t' = nesting_lvl t /\ stack_lvl t' = stack_lvl t.
Proof.
  unfold signext. destruct (negb _); [by intros [= _ _ <-]|]. destruct (0 <? _); [|by intros [= _ _ <-]].
  destruct (sigblocked _ _); by intros [= _ _ <-].
Qed.

Lemma signal_intr_Handler arch evs evs2 s cur t sig st act old s' : sigthrs (world s) !! cur = Some t ->
  signal_intr arch evs evs2 s cur = Done (Handler sig st act old, s') ->
  exists s1 a p t1 sg, mask t1 = mask t /\ stack t1 = stack t /\ nesting_lvl t1 = nesting_lvl t /\
    stack_lvl t1 = stack_lvl t /\ thrs s1 = thrs s /\
    signal_handle arch evs evs2 s1 cur a p t1 sg act = Done (Handler sig st act old, s').
Proof.
  intros Ht Hr. unfold signal_intr in Hr. apply rbind_Done in Hr as (th & _ & Hr). apply rbind_Done in Hr as (a & _ & Hr).
  apply rbind_Done in Hr as (p & _ & Hr). apply rbind_Done in Hr as (t0 & Ht0 & Hr). unfold sigthr in Ht0.
  apply deref_Done in Ht0. assert (t0 = t) as -> by congruence.
  destruct (signext p t) as [[sg p1] t1] eqn:En. destruct (signext_thread _ _ _ _ _ En) as (E1 & E2 & E3 & E4).
  set (s1 := put_sigthr _ _ _) in Hr.
  assert (Hdie : forall s1, die evs evs2 s1 cur sg = Done (Handler sig st act old, s') -> False).
  { intros s2 Hd. unfold die in Hd. by apply rbind_Done in Hd as (? & _ & ?). }
  destruct (sg =? 0); [done|]. destruct (sg =? SIGKILL); [by apply Hdie in Hr|].
  apply rbind_Done in Hr as (act0 & _ & Hr). destruct (_ && _); [done|].
  destruct (sa_handler act0 =? SIG_DFL).
  { destruct (sigdefault sg); [by apply Hdie in Hr|done| |]; by apply rbind_Done in Hr as (? & _ & ?). }
  assert (act = act0) as ->.
  { apply signal_handle_Handler in Hr as (_ & -> & _). done. }
  exists s1, a, p1, t1, sg. done.
Qed.

Lemma sigmask_fix_bits m i : signo i -> sigblocked (sigmask_fix m) i =
  negb (SIGSEGV =? i) && (negb (SIGSTOP =? i) && (negb (SIGKILL =? i) && sigblocked m i)).
Proof.
  intros Hi. unfold sigmask_fix. by rewrite !sigblocked_unblock by (done || unfold signo, SIGKILL, SIGSTOP, SIGSEGV; lia).
Qed.

Lemma sigmask_fix_id m i : good_mask m -> signo i -> sigblocked (sigmask_fix m) i = sigblocked m i.
Proof.
  intros (G1 & G2 & G3) Hi. rewrite sigmask_fix_bits by done.
  destruct (Z.eqb_spec SIGSEGV i) as [<-|]; [done|]. destruct (Z.eqb_spec SIGSTOP i) as [<-|]; [done|].
  destruct (Z.eqb_spec SIGKILL i) as [<-|]; [done|]. done.
Qed.

Lemma signal_set_mask_run s cur set s' : signal_set_mask s cur set = Done s' ->
  exists t, sigthrs (world s) !! cur = Some t /\
    sigthrs (world s') !! cur = Some (set_mask t (sigmask_fix set)).
Proof.
  unfold signal_set_mask. intros Hr. apply rbind_Done in Hr as (th & _ & Hr). apply rbind_Done in Hr as (a & _ & Hr).
  apply rbind_Done in Hr as (p & _ & Hr). apply rbind_Done in Hr as (t & Ht & Hr). unfold sigthr in Ht. apply deref_Done in Ht.
  exists t. split; [done|]. destruct (SIGPENDING _ _); [|injection Hr as <-; apply lookup_insert_eq].
  unfold thread_signal, sched_interrupt in Hr. apply rbind_Done in Hr as (x & _ & Hr). injection Hr as <-. apply lookup_insert_eq.
Qed.

Lemma onstack_undo f : Z.land f (Z.lor SS_DISABLE SS_ONSTACK) = 0 -> Z.land (Z.lor f SS_ONSTACK) (Z.lnot SS_ONSTACK) = f.
Proof.
  intros E. apply Z.bits_inj'. intros i Hi. rewrite Z.land_spec, Z.lor_spec, Z.lnot_spec by done.
  apply (f_equal (fun x => Z.testbit x i)) in E. rewrite Z.land_spec, Z.lor_spec, Z.bits_0 in E.
  destruct (Z.testbit f i), (Z.testbit SS_ONSTACK i) eqn:E1; try done. by rewrite orb_true_r in E.
Qed.


(** ** Dispositions *)

Definition same_acts s s' : Prop := forall a, sigacts <$> sigprocs (world s') !! a = sigacts <$> sigprocs (world s) !! a.

Lemma put_sigproc_acts s a p p' : sigprocs (world s) !! a = Some p -> sigacts p' = sigacts p -> same_acts s (put_sigproc s a p').
Proof. intros Ha E b. simpl. rewrite lookup_insert. case_decide; [|done]. subst b. rewrite Ha. simpl. congruence. Qed.

Lemma same_acts_trans s1 s2 s3 : same_acts s1 s2 -> same_acts s2 s3 -> same_acts s1 s3.
Proof. intros H1 H2 a. by rewrite (H2 a). Qed.

Lemma world_acts s s' : world s' = world s -> same_acts s s'.
Proof. intros E a. by rewrite E. Qed.

Lemma sched_interrupt_world s t i fl s' : sched_interrupt s t i fl = Done s' -> world s' = world s.
Proof. unfold sched_interrupt, get_thread. intros Hr. by rinv. Qed.

Lemma intr_threads_world l : forall s s', intr_threads s l = Done s' -> world s' = world s.
Proof.
  induction l as [|t l IH]; simpl; intros s s' Hr; [by injection Hr as <-|]. apply rbind_Done in Hr as (s1 & H1 & Hr).
  apply sched_interrupt_world in H1. by rewrite (IH _ _ Hr).
Qed.

Lemma signal_post_acts s cur a t sig r s' : signal_post s cur a t sig = Done (r, s') -> same_acts s s'.
Proof.
  unfold signal_post. intros Hr. apply rbind_Done in Hr as ([u sh] & _ & Hr). apply rbind_Done in Hr as (p & Hp & Hr).
  unfold sigproc in Hp. apply deref_Done in Hp.
  apply rbind_Done in Hr as (x & _ & Hr). apply rbind_Done in Hr as (act & _ & Hr).
  set (p' := if sh then _ else p) in *. set (x' := if sh then x else _) in *.
  assert (Hs : same_acts s (put_sigthr (put_sigproc s a p') u x')).
  { apply (put_sigproc_acts s a p p' Hp). unfold p'. by destruct sh. }
  rif Hr; [|by injection Hr as <- <-]. apply rbind_Done in Hr as (s1 & H1 & Hr). injection Hr as <- <-.
  eapply same_acts_trans; [exact Hs|]. by eapply world_acts, sched_interrupt_world.
Qed.

Section SendActs.
Context (K : Kill sigw) (HK : forall s cur a sig fl r s', kern_kill s cur a sig fl = Done (r, s') -> same_acts s s').

Lemma proc_sigchld_acts s cur a s' : proc_sigchld s cur a = Done s' -> same_acts s s'.
Proof.
  unfold proc_sigchld, proc_do_sigchld. intros Hr. apply rbind_Done in Hr as (p & _ & Hr).
  apply rbind_Done in Hr as (par & _ & Hr). apply rbind_Done in Hr as ([r s1] & H1 & Hr). injection Hr as <-. by eapply HK.
Qed.

Lemma proc_stop_acts s cur a sig s' : proc_stop s cur a sig = Done s' -> same_acts s s'.
Proof.
  unfold proc_stop. intros Hr. apply rbind_Done in Hr as (p & _ & Hr). rif Hr; [by injection Hr as <-|].
  apply rbind_Done in Hr as (s1 & H1 & Hr). apply rbind_Done in Hr as (q & _ & Hr). apply rbind_Done in Hr as (s2 & H2 & Hr).
  eapply same_acts_trans; [|by eapply proc_sigchld_acts]. apply world_acts. rewrite (intr_threads_world _ _ _ H2). simpl.
  unfold proc_set_flag in H1. apply rbind_Done in H1 as (x & _ & H1).
  do 4 (rif H1; [|done]). by injection H1 as <-.
Qed.

Lemma proc_cont_acts s cur a s' : proc_cont s cur a = Done s' -> same_acts s s'.
Proof.
  unfold proc_cont. intros Hr. apply rbind_Done in Hr as (p & _ & Hr). rif Hr; [|by injection Hr as <-].
  eapply same_acts_trans; [|by eapply proc_sigchld_acts]. by apply world_acts.
Qed.

Lemma signal_send_acts s cur a t sig fl r s' : signal_send s cur a t sig fl = Done (r, s') -> same_acts s s'.
Proof.
  unfold signal_send. intros Hr. rif Hr; [by injection Hr as <- <-|].
  apply rbind_Done in Hr as (ok & _ & Hr). rif Hr; [by injection Hr as <- <-|].
  apply rbind_Done in Hr as (pr & _ & Hr). rif Hr; [by injection Hr as <- <-|].
  apply rbind_Done in Hr as (p & Hp & Hr). unfold sigproc in Hp. apply deref_Done in Hp.
  apply rbind_Done in Hr as (act & _ & Hr). rif Hr; [by injection Hr as <- <-|]. rif Hr.
  { apply rbind_Done in Hr as (s1 & H1 & Hr). injection Hr as <- <-.
    eapply same_acts_trans; [|by eapply proc_stop_acts]. by eapply put_sigproc_acts. }
  apply rbind_Done in Hr as (s1 & H1 & Hr).
  assert (same_acts s s1) by (rif H1; [by eapply proc_cont_acts|by injection H1 as <-]).
  rif Hr; [by injection Hr as <- <-|]. eapply same_acts_trans; [done|by eapply signal_post_acts].
Qed.
End SendActs.

Lemma kern_signal_acts n : forall s cur a t sig fl r s', kern_signal_n n s cur a t sig fl = Done (r, s') -> same_acts s s'.
Proof.
  induction n as [|n IH]; intros s cur a t sig fl r s' Hr; [done|]. simpl in Hr.
  eapply (signal_send_acts _ (fun s cur a sig fl r s' => IH s cur a None sig fl r s')), Hr.
Qed.

(** SIGKILL and SIGSTOP have their default action. *)
Definition fixed_act (sig : Z) (l : list sigaction_t) : Prop := forall a, l !! Z.to_nat sig = Some a -> sa_handler a = SIG_DFL.
Definition fixed_acts (w : sigw) : Prop := forall a p, sigprocs w !! a = Some p ->
  fixed_act SIGKILL (sigacts p) /\ fixed_act SIGSTOP (sigacts p).

Lemma fixed_same s s' : fixed_acts (world s) -> same_acts s s' -> fixed_acts (world s').
Proof.
  intros H E a p Ha. specialize (E a). rewrite Ha in E. destruct (sigprocs (world s) !! a) as [q|] eqn:Hq; [|done].
  injection E as ->. by apply (H a q).
Qed.

Lemma fixed_put w a p m : fixed_acts w -> fixed_act SIGKILL (sigacts p) -> fixed_act SIGSTOP (sigacts p) ->
  fixed_acts (SigW (<[a := p]> (sigprocs w)) m).
Proof. intros H H1 H2 b q. simpl. rewrite lookup_insert. case_decide; [by intros [= <-]|apply H]. Qed.

(** An action of another signal, or the default one. *)
Lemma fixed_set_act p sig a : 0 <= sig -> (sig <> SIGKILL /\ sig <> SIGSTOP) \/ sa_handler a = SIG_DFL ->
  fixed_act SIGKILL (sigacts p) -> fixed_act SIGSTOP (sigacts p) ->
  fixed_act SIGKILL (sigacts (set_act p sig a)) /\ fixed_act SIGSTOP (sigacts (set_act p sig a)).
Proof.
  intros Hs Hc H1 H2. unfold SIGKILL, SIGSTOP in *.
  split; intros b Hb; simpl in Hb; apply list_lookup_insert_Some in Hb as [(E & <- & _)|(_ & Hb)];
    try (by apply H1); try (by apply H2); destruct Hc as [?|?]; try done; lia.
Qed.

Lemma sigaction_in_world s m me signum u err act s1 : sigaction_in s m me signum u = Done (err, act, s1) ->
  world s1 = world s /\ thrs s1 = thrs s.
Proof.
  unfold sigaction_in. intros Hr. rif Hr; [by injection Hr as <- <- <-|].
  destruct (copyin m u 20) as [e [bs|]]; [|by injection Hr as <- <- <-].
  rif Hr; [by injection Hr as <- <- <-|]. rif Hr; [by injection Hr as <- <- <-|].
  apply rbind_Done in Hr as (s2 & H2 & Hr). injection Hr as _ _ <-. rif H2; [|by injection H2 as <-].
  unfold proc_autoreap_enable, proc_autoreap_disable, proc_set_flag, proc_clear_flag in H2.
  rif H2; apply rbind_Done in H2 as (x & _ & H2); [do 4 (rif H2; [|done])|]; by injection H2 as <-.
Qed.

(** The actions of SIGKILL and SIGSTOP are the default ones for ever: a
    new process has them, and sigaction, fork, execve and sending any signal
    keep them for all processes. *)
Theorem kill_stop_uncatchable :
  (forall w a fk r w', sigproc_init w a fk = Done (r, w') -> fixed_acts w -> fixed_acts w') /\
  (forall w d c dt ct r w', sigproc_fork w d c dt ct = Done (r, w') -> fixed_acts w -> fixed_acts w') /\
  (forall w a cur w', sigproc_exec w a cur = Done w' -> fixed_acts w -> fixed_acts w') /\
  (forall s cur a t sig fl r s', kern_signal s cur a t sig fl = Done (r, s') ->
     fixed_acts (world s) -> fixed_acts (world s')) /\
  (forall (CP : Cpu) s m cur signum u o size r m' s', sys_rt_sigaction s m cur signum u o size = Done (r, m', s') ->
     fixed_acts (world s) -> fixed_acts (world s')).
Proof.
  split; [|split; [|split; [|split]]].
  - intros w a fk r w' [= <- <-] H. apply fixed_put; [done|..]; destruct fk; intros x Hx; vm_compute in Hx; by injection Hx as <-.
  - intros w d c dt ct r w' Hr H. unfold sigproc_fork in Hr. apply rbind_Done in Hr as (x & _ & Hr).
    apply rbind_Done in Hr as (y & Hy & Hr). apply rbind_Done in Hr as (td & _ & Hr). apply rbind_Done in Hr as (tc & _ & Hr).
    injection Hr as <- <-. apply deref_Done in Hy. destruct (H c y Hy). by apply fixed_put.
  - intros w a cur w' Hr H. unfold sigproc_exec in Hr. apply rbind_Done in Hr as (p & Hp & Hr).
    apply rbind_Done in Hr as (t & _ & Hr). injection Hr as <-. apply deref_Done in Hp. destruct (H a p Hp) as [H1 H2].
    apply fixed_put; [done|..]; intros x Hx; simpl in Hx; apply list_lookup_fmap_Some in Hx as (y & -> & Hy); simpl.
    + by rewrite (H1 y Hy).
    + by rewrite (H2 y Hy).
  - intros s cur a t sig fl r s' Hr H. eapply fixed_same; [done|by eapply kern_signal_acts].
  - intros CP s m cur signum u o size r m' s' Hr H. unfold sys_rt_sigaction in Hr. apply rbind_Done in Hr as (me & _ & Hr).
    rif Hr; [by injection Hr as <- <- <-|].
    destruct ((signum =? SIGKILL) || (signum =? SIGSTOP) || (signum <? 0) || (NSIG <? signum)) eqn:Eg;
      [by injection Hr as <- <- <-|]. bool_props.
    apply rbind_Done in Hr as ([[err act] s1] & Hin1 & Hr).
    assert (Hf1 : fixed_acts (world s1)).
    { eapply fixed_same; [done|]. apply world_acts. by apply sigaction_in_world in Hin1 as [? _]. }
    rif Hr; [by injection Hr as <- <- <-|]. apply rbind_Done in Hr as (p & Hp & Hr). unfold sigproc in Hp. apply deref_Done in Hp.
    apply rbind_Done in Hr as (old & _ & Hr). apply rbind_Done in Hr as (s2 & Hin2 & Hr).
    assert (Hf2 : fixed_acts (world s2)).
    { destruct act as [a|]; [|by injection Hin2 as <-]. apply rbind_Done in Hin2 as (b & _ & Hin2). injection Hin2 as <-.
      destruct (Hf1 me p Hp). destruct (fixed_set_act p signum a) as [G1 G2]; try done; [by left|]. by apply fixed_put. }
    destruct old as [a|]; [apply rbind_Done in Hr as ([e m2] & _ & Hr)|]; by injection Hr as <- <- <-.
Qed.

(** After execve no handler is left: an ignored signal stays ignored, all
    others have their default action, all flags are gone and nothing is
    pending for the process or the thread, whose mask is kept. *)
Theorem exec_resets w a cur p t w' : sigprocs w !! a = Some p -> sigthrs w !! cur = Some t ->
  sigproc_exec w a cur = Done w' ->
  exists p' t', sigprocs w' !! a = Some p' /\ sigthrs w' !! cur = Some t' /\ mask t' = mask t /\
    (forall t2, SIGPENDING p' (set_mask t' t2) = false) /\ length (sigacts p') = length (sigacts p) /\
    forall i x, sigacts p' !! i = Some x -> exists y, sigacts p !! i = Some y /\ sa_flags x = 0 /\
      sa_handler x = (if decide (sa_handler y = SIG_IGN) then SIG_IGN else SIG_DFL).
Proof.
  intros Hp Ht Hr. unfold sigproc_exec in Hr. rewrite Hp in Hr. cbn [deref rbind] in Hr. rewrite Ht in Hr.
  cbn [deref rbind] in Hr. injection Hr as <-. eexists _, _. split; [apply lookup_insert_eq|].
  split; [apply lookup_insert_eq|]. split; [done|]. split; [done|]. split; [apply length_fmap|].
  intros i x Hx. simpl in Hx. apply list_lookup_fmap_Some in Hx as (y & -> & Hy). exists y. split_and!; try done. simpl.
  destruct (Z.eqb_spec (sa_handler y) SIG_IGN); simpl; case_decide; done.
Qed.

(** ** sigaction *)

Definition bytes_ok (bs : list Z) : Prop := Forall (fun b => 0 <= b < 256) bs.

Lemma sigaction_bytes_of bs : length bs = 20%nat -> bytes_ok bs -> sigaction_bytes (sigaction_of bs) = bs.
Proof.
  intros Hl Hb. do 20 (destruct bs as [|? bs]; [done|]). destruct bs; [|done]. unfold bytes_ok in Hb.
  rewrite !Forall_cons in Hb. destruct_and! Hb.
  unfold sigaction_bytes, sigaction_of, sigset_bytes, word_at. cbn [Nat.mul Nat.add drop sa_handler sa_flags sa_restorer sa_mask sig0 sig1].
  rewrite !int_bytes_word by done. done.
Qed.

(** What sigaction stores is what the next sigaction returns: the second
    call copies out exactly the bytes that the first one copied in. *)
Theorem sigaction_roundtrip (CP : Cpu) s m m2 cur signum u o bs m' s' : u <> 0 -> o <> 0 ->
  copyin m u 20 = (0, Some bs) -> length bs = 20%nat -> bytes_ok bs ->
  sys_rt_sigaction s m cur signum u 0 8 = Done (0, m', s') ->
  sys_rt_sigaction s' m2 cur signum 0 o 8 = (let* '(r, m3) := copyout m2 o bs in Done (r, m3, s')).
Proof.
  intros Hu Ho Hin Hl Hb Hr. unfold sys_rt_sigaction in *. apply rbind_Done in Hr as (me & Hme & Hr). cbn [negb Z.eqb] in *.
  change (negb (8 =? 8)) with false in *. cbn iota in *.
  destruct ((signum =? SIGKILL) || (signum =? SIGSTOP) || (signum <? 0) || (NSIG <? signum)) eqn:Eg; [done|].
  apply rbind_Done in Hr as ([[err act] s1] & H1 & Hr). destruct (sigaction_in_world _ _ _ _ _ _ _ _ H1) as [Ew Et].
  destruct (Z.eqb_spec err 0) as [->|]; [|cbn [negb] in Hr; congruence]. cbn [negb] in Hr.
  apply rbind_Done in Hr as (p & Hp & Hr). change (negb (0 =? 0)) with false in Hr. cbn [rbind] in Hr.
  apply rbind_Done in Hr as (s2 & H2 & Hr). injection Hr as <- <-.
  assert (Hact : act = Some (sigaction_of bs)).
  { unfold sigaction_in in H1. destruct (Z.eqb_spec u 0); [done|]. rewrite Hin in H1. rif H1; [done|]. rif H1; [done|].
    apply rbind_Done in H1 as (s3 & _ & H1). by injection H1 as <-. }
  rewrite Hact in H2. apply rbind_Done in H2 as (b & Hbe & H2). injection H2 as <-.
  assert (Hcur : cur_proc (put_sigproc s1 me (set_act p signum (sigaction_of bs))) cur = Done me).
  { rewrite <- Hme. unfold cur_proc, get_thread. simpl. by rewrite Et. }
  rewrite Hcur. cbn [rbind]. unfold sigaction_in. change (0 =? 0) with true. cbn [rbind negb]. unfold sigproc. simpl (sigprocs _).
  rewrite lookup_insert_eq. cbn [deref rbind]. destruct (Z.eqb_spec o 0); [done|]. cbn [negb].
  unfold sigact. simpl (sigacts _). unfold sigact in Hbe. apply deref_Done in Hbe.
  rewrite list_lookup_insert_eq by (by eapply lookup_lt_Some). cbn [deref rbind]. by rewrite sigaction_bytes_of.
Qed.

(** ** Runs *)

(** A kernel with init (process 100, thread 101) and two children (200 with
    thread 201, 300 with thread 301). *)
Definition skernel0 : kst sigw :=
  Kst {[ 1 := Proc (-1) None [] [2] None 0 0 0 0 (St None 0 0) nobody ]} ∅ ∅
    {[ 2 := Thread (-1) (Some 1) 0 0 ]} [] [] (Bset (3 :: replicate 63 0) 512) 0 (SigW ∅ ∅).

Definition after (s0 : kst sigw) (m : res (kst sigw)) : kst sigw := match m with Done s => s | _ => s0 end.

Definition skernel1 : kst sigw := after skernel0 (proc_spawn_init 100 101 102 103 skernel0).
Definition skernel2 : kst sigw := after skernel1 (state (sys_fork skernel1 101 (Some 200) 201)).
Definition skernel3 : kst sigw := after skernel2 (state (sys_fork skernel2 101 (Some 300) 301)).

(** The first child with a handler for SIGTERM, which is sent to it. *)
Definition term_action : sigaction_t := Sigaction 0x5000 SA_ONSTACK 0 (Sigset 1 0).
Definition skernel4 : kst sigw :=
  after skernel2 (let* p := sigproc skernel2 200 in
    state (kern_kill (put_sigproc skernel2 200 (set_act p SIGTERM term_action)) 101 200 SIGTERM SIG_KERN)).

(** The children with the users 1000 and 2000. *)
Definition skernel5 : kst sigw :=
  after skernel3 (let* s := state (sys_setuid32 skernel3 201 1000) in state (sys_setuid32 s 301 2000)).

Ltac vmr := vm_compute; reflexivity.

Lemma no_sigs_wf : set_wf no_sigs.
Proof. constructor; simpl; lia. Qed.

Definition two_pending : sigthr_t :=
  Sigthr (sigblock (sigblock no_sigs SIGTERM) SIGUSR1) no_sigs 2 (Stack 0 SS_DISABLE 0) 0 0.
Definition quiet : sigproc_t := Sigproc [] no_sigs 0.

Lemma no_sigs_none i : signo i -> sigblocked no_sigs i = false.
Proof. intros Hi. rewrite sigblocked_bit by done. case_decide; apply Z.bits_0. Qed.

Lemma card_none : card no_sigs = 0.
Proof. vmr. Qed.

Lemma quiet_ok l x n m st a b : set_wf x -> (forall i, signo i -> sigblocked x i = true -> i < NSIG) -> card x <= n < 2 ^ 32 ->
  sig_ok (Sigproc l no_sigs 0) (Sigthr x m n st a b).
Proof.
  intros Hwf Hs Hc. constructor; simpl; [apply no_sigs_wf|exact Hwf| |rewrite card_none; lia|exact Hc].
  intros i Hi. rewrite no_sigs_none by done. by apply Hs.
Qed.

Lemma signext_spec_witness : exists p' t', signext quiet two_pending = (SIGUSR1, p', t') /\ sig_ok p' t'.
Proof.
  assert (Hok : sig_ok quiet two_pending).
  { apply quiet_ok; [apply set_wf_block, set_wf_block, no_sigs_wf| |vm_compute; split; done].
    intros i Hi. rewrite !sigblocked_block by (done || unfold signo, SIGTERM, SIGUSR1; lia).
    rewrite no_sigs_none by done. unfold NSIG, SIGUSR1, SIGTERM. destruct (Z.eqb_spec 10 i), (Z.eqb_spec 15 i); simpl; try done; intros; lia. }
  destruct (signext quiet two_pending) as [[sig p'] t'] eqn:E.
  assert (sig = SIGUSR1) by (vm_compute in E; injection E as <- _ _; done). subst sig. exists p', t'.
  destruct (signext_spec quiet two_pending SIGUSR1 p' t' Hok) as [(Hz & _)|(_ & _ & Hok' & _)]; [done|exact E|discriminate Hz|].
  split; [done|exact Hok'].
Defined.

Lemma kill_denied_witness : kern_kill skernel5 201 300 SIGTERM 0 = Done (- EACCES, skernel5).
Proof.
  assert (H : exists c p, procs skernel5 !! 200 = Some c /\ procs skernel5 !! 300 = Some p /\
    cred c = Creds 1000 1000 1000 0 0 0 /\ cred p = Creds 2000 2000 2000 0 0 0).
  { eexists _, _. split; [vmr|]. split; [vmr|]. split; vmr. }
  destruct H as (c & p & Hc & Hp & Ec & Ep).
  refine (kill_denied skernel5 201 200 c 300 p SIGTERM _ Hc Hp _ _ _ _ _); [vmr|rewrite ?Ec, ?Ep; discriminate..].
Defined.

(** A process as [sys_fork] makes it. *)
Definition fresh_sigproc : sigproc_t := Sigproc (replicate 32 (Sigaction 0 0 0 no_sigs)) no_sigs 0.
Definition fresh_sigthr : sigthr_t := Sigthr no_sigs no_sigs 0 (Stack 0 SS_DISABLE 0) 0 0.

Lemma fresh_ok : sig_ok fresh_sigproc fresh_sigthr.
Proof.
  apply quiet_ok; [apply no_sigs_wf| |rewrite card_none; lia]. intros i Hi. by rewrite no_sigs_none.
Qed.


Definition arch_fine : Z -> option stack_t -> sigaction_t -> sigset_t -> Z := fun _ _ _ _ => 0.
Definition in_handler : kst sigw := after skernel4 (state (signal_intr arch_fine [] [] skernel4 201)).
Definition after_handler : kst sigw := after in_handler (sys_sigreturn in_handler 201 no_sigs).


Lemma exec_resets_witness : exists w' p', sigproc_exec (world in_handler) 200 201 = Done w' /\
  sigprocs w' !! 200 = Some p' /\ forall i x, sigacts p' !! i = Some x -> sa_flags x = 0.
Proof.
  assert (H : exists p t w', sigprocs (world in_handler) !! 200 = Some p /\ sigthrs (world in_handler) !! 201 = Some t /\
    sigproc_exec (world in_handler) 200 201 = Done w') by (eexists _, _, _; split; [vmr|]; split; vmr).
  destruct H as (p & t & w' & Hp & Ht & Hr).
  destruct (exec_resets (world in_handler) 200 201 p t w' Hp Ht Hr) as (p' & t' & Hp' & _ & _ & _ & _ & Hall).
  exists w', p'. split; [exact Hr|]. split; [exact Hp'|]. intros i x Hx.
  destruct (Hall i x Hx) as (y & _ & Hf & _). exact Hf.
Defined.

(** User memory: an action with handler 0x100 at 0x2000, and zeros. *)
Definition user_mem : mem := list_to_map ((fun i => (0x2000 + i, Cell (if i =? 1 then 1 else 0) true)) <$> seqZ 0 64).
#[local] Instance plain_cpu : Cpu := {| kwp_enabled := true |}.
Definition action_bytes : list Z := 0 :: 1 :: replicate 18 0.
Definition with_action : kst sigw :=
  after skernel2 (state (sys_rt_sigaction skernel2 user_mem 201 SIGTERM 0x2000 0 8)).

Lemma sigaction_roundtrip_witness : sys_rt_sigaction with_action user_mem 201 SIGTERM 0 0x2020 8 =
  (let* '(r, m3) := copyout user_mem 0x2020 action_bytes in Done (r, m3, with_action)).
Proof.
  apply (sigaction_roundtrip plain_cpu skernel2 user_mem user_mem 201 SIGTERM 0x2000 0x2020 action_bytes user_mem with_action);
    [done|done|vmr|done| |vmr].
  unfold bytes_ok, action_bytes. simpl. repeat (constructor; [lia|]). constructor.
Defined.

(** ** Where the code fails *)

(** The first child after rt_sigprocmask with all signals. *)
Definition all_blocked : kst sigw :=
  after skernel2 (let* '(_, _, s) := kern_sigprocmask skernel2 201 SIG_SETMASK (Some (Sigset (2 ^ 32 - 1) (2 ^ 32 - 1))) in Done s).

(** rt_sigprocmask can block SIGKILL: [sigmask_fix] is applied to the old
    mask, not to the new one.  A process that has blocked all signals is not
    interrupted by a SIGKILL of root, and does not exit when it looks for
    signals. *)
Theorem sigkill_blocked : exists s' th s2, kern_kill all_blocked 101 200 SIGKILL 0 = Done (0, s') /\
  thrs s' !! 201 = Some th /\ intr th = 0 /\ signal_intr arch_fine [] [] s' 201 = Done (Continue, s2).
Proof.
  exists (after all_blocked (state (kern_kill all_blocked 101 200 SIGKILL 0))). eexists _, _.
  split; [vmr|]. split; [vmr|]. split; vmr.
Qed.

(** rt_sigaction accepts the number NSIG and reads behind the table. *)
Theorem sigaction_out_of_bounds : sys_rt_sigaction skernel2 user_mem 201 NSIG 0 0x2020 8 = Fault.
Proof. vmr. Qed.

(** A signal that stops the first process crashes the kernel, which looks
    for the parent of init; kill with the smallest int panics. *)
Theorem kill_crashes : sys_kill skernel2 101 1 SIGSTOP = Fault /\ sys_kill skernel2 101 (- 2 ^ 31) SIGTERM = Panic.
Proof. split; vmr. Qed.

(** The second child with the real user 1000, the effective user 2000. *)
Definition set_user : kst sigw :=
  after skernel3 (let* p := get_proc skernel3 200 in let* q := get_proc skernel3 300 in
    Done (put_proc (put_proc skernel3 200 (set_cred p (Creds 1000 2000 1000 0 0 0))) 300
      (set_cred q (Creds 3000 3000 2000 0 0 0)))).

(** A process whose effective user id is the saved one of the receiver
    may not signal it, contrary to the rule the code quotes: the last
    comparison of [sigperm] repeats the second one. *)
Theorem sigperm_saved : kern_kill set_user 201 300 SIGTERM 0 = Done (- EACCES, set_user).
Proof. vmr. Qed.

(** Taking a signal of the thread counts its pending signals up. *)
Theorem signext_counts_up : exists p' t', signext quiet two_pending = (SIGUSR1, p', t') /\ tnpending t' = 3.
Proof. eexists _, _. split; vmr. Qed.
